(* ===== verification/_CoqProject ===== *)
-Q . S2P
Prelude.v
Bits.v
Core.v
BitBuffer.v
BitBufferSpec.v
BitCodec.v
BitBufferThms.v
FieldCodec.v
TypedFieldsSpec.v
PduCodec.v
TdmaTime.v
Freqs.v
Arrays.v
TimeslotAlloc.v
SsiRanges.v
TxReceipt.v
Crc16.v
Scrambler.v
Interleaver.v
Rm3014.v
ConvEnc.v
ViterbiSpec.v
TchReorder.v
ErrorControlSpec.v
Fillbits.v
DefragSpec.v
UmacCircuitMgr.v
EventLabelStore.v
MacDl.v
MacDlSpec.v
BsFragSpec.v
MsDefrag.v
MacBcast.v
MacBcastSpec.v
MlePdus.v
BsSchedUlSpec.v
MacUl.v
MacUlSpec.v
BsSched.v
BsSchedSpec.v
BsSchedSlot.v
BsSchedRun.v
UmacCell.v
BsSchedThms.v
LmacBsSpec.v
Saps.v
MleBs.v
SndcpBs.v
Router.v
UmacBs.v
UmacBsSpec.v
UmacBsRx.v
UmacBsTx.v
UmacBsThms.v
CmceCircuitMgr.v
CmceCircuitSpec.v
CmceEnums.v
CmcePdus.v
CmcePdusSpec.v
CmceWire.v
Subscribers.v
MmClients.v
MmClientsSpec.v
MmEnums.v
MmPdus.v
MmPdusSpec.v
MmBs.v
MmBsSpec.v
MmBsRx.v
MmBsThms.v
LlcPdu.v
Fcs.v
Llc.v
LlcSpec.v
LlcRx.v
LlcLink.v
LlcLive.v
LlcExchange.v
MleSpec.v
Stack.v
