(* ===== verification/Prelude.v ===== *)
(** * A verification of the core of the flowstation TETRA base station

    The program (src/crates) is a software TETRA base station in Rust.  Radio
    blocks pass the LMAC (channel coding), the UMAC (MAC PDUs, fragmentation,
    scheduling), the LLC and the layer-3 entities MLE, MM, CMCE and SNDCP; a
    message router carries primitives between the entities.  All of them read and
    write PDUs through one bit buffer and share a few services of tetra-core (TDMA
    time, timeslot allocation, address ranges, receipts).
    This library models, from the bottom up, the parts that carry that logic
    and proves what makes them correct.

    ** Conventions

    Rust code is translated definition by definition.  Code that works on a
    mutable object and may fail is in the monad [M S E A] below: it returns a
    value ([Ok]), an error with the state reached ([Err]), or panics ([Panic]);
    where there is no error value, [option] is used and [None] is a panic.
    Machine integers are [Z] (or [nat] for [usize] lengths and indices) with
    the wrap-around of the source written out ([wrap], [i32], [swrap]); bytes
    are [Z]; bit strings are [list bool], most significant bit first; arrays
    are lists with checked access (file Arrays); [HashMap]s are [gmap]s, and
    where the order of iteration matters it is an argument of the definitions.
    Log output is left out.  [while] loops are recursive functions with fuel;
    the fuel is the number of bits, bytes or entries still to process, each
    turn uses at least one, and running out is a panic (or [None]), so the
    theorems that an operation returns also show that the fuel is enough.  The
    loops of [time_int_diff] run at most 8 times ([diff_total]).

    ** Files

    - Prelude, Bits, Arrays: the monad, bits and integers, array loops.
    - Core, BitBuffer: tetra-core/src/pdu_parse_error.rs, address.rs and
      bitbuffer.rs.  BitBufferSpec relates a buffer to the list of its bits and
      proves every reader, writer and seek against it; BitCodec is the
      interface for code that parses and builds PDUs ([writes], [reads],
      [parser_safe], the class [BitCodec]); BitBufferThms has the buffer's own
      theorems: refinement of a cursor over a bit list, field round trip, text
      round trip, sub-buffers, and the defect of [into_bitvec].
    - TypedFieldsSpec: typed_pdu_fields.rs, the optional elements
      of layer-3 PDUs.  The generic parsers are safe on any received bits; the
      writers and parsers of type-3 and type-4 elements are inverse for every
      element that satisfies [BitCodec]; elements over 128 bits can be parsed
      but not written.
    - FieldCodec: headers as lists of fixed-width fields, with the lemmas that
      walk a writer or parser along such a layout.
    - TdmaTime: tdma_time.rs.  Conversion, differences across roll-over, frame
      18 slots, energy-economy windows.
    - Freqs: freqs.rs.  Accepted carriers have their table frequencies, without
      overflow.
    - TimeslotAlloc, SsiRanges, TxReceipt: timeslot_alloc.rs, ranges.rs and
      tx_receipt.rs.  The allocator refines an ownership
      map and never panics; lookup is membership; the receipt is its documented
      state machine.
    - Crc16, Scrambler, Interleaver, Rm3014, ConvEnc, ViterbiSpec, TchReorder,
      ErrorControlSpec: tetra-entities/src/lmac/components.  Crc16 opens with the
      theory of cyclic redundancy checks of any width over any polynomial
      (linearity, the appended checksum, burst errors), which Fcs uses too; the
      appended checksum gives the constant, bursts of up to 16 bits are detected.
      Scrambling, interleaving, puncturing and reordering are inverted by their
      counterparts; the Reed-Muller decoder corrects every single error; the
      Viterbi decoder is maximum-likelihood, and on the encoder's
      own output it returns the encoded bits.  ErrorControlSpec composes them: control, speech and AACH blocks survive encoding and
      decoding.
    - Fillbits, DefragSpec, UmacCircuitMgr, EventLabelStore:
      tetra-entities/src/umac/subcomp.  Fill bits are found again; reassembly
      returns the concatenation of a station's fragments under any
      interleaving, with at most 32 contexts per timeslot and no panic; voice
      queues refine one bounded queue per open circuit; event labels resolve
      for one cycle.
    - MacDl, MacDlSpec: tetra-pdus/src/umac, the downlink headers MAC-RESOURCE,
      MAC-FRAG and MAC-END with slot grants and channel allocations.  Headers
      survive writing and parsing, and the length the fragmenter computes for a
      MAC-RESOURCE is the length written.
    - BsFragSpec: tetra-entities/src/umac/subcomp/bs_frag.rs.  The
      relation [delivery] says what a sequence of MAC blocks must carry; the
      fragmenter meets it on any blocks, finishes when enough are offered, and
      keeps the receipt in step.  The bound on the number of blocks is the
      measure of the progress proof: twelve bits of the SDU in every block.

    - MsDefrag: ms_defrag.rs, the terminal's side of reassembly.  It refines four
      independent slots, and composed with the fragmenter it returns the SDU.
    - MacBcast, MacBcastSpec: the broadcast PDUs SYNC, SYSINFO and ACCESS-ASSIGN of
      tetra-pdus/src/umac and tetra-pdus/src/mle with their elements; each
      survives writing and parsing.
    - BsSchedUlSpec: the uplink half of bs_sched.rs, the schedule of 18
      frames and the granting of slots.  A request gets the first run of free
      opportunities its grant can announce; granted slots stay reserved.
    - BsSched: the downlink half of bs_sched.rs: queues, hangtime, stealing,
      traffic, block building and the finalisation of a slot.  [bs_retired]
      collects the receipts the scheduler lets go of.  The loop that builds a
      block has the length of the queue as fuel, which is enough because every
      turn takes an element.  BsSchedSpec has the invariant [sched_inv] and the
      effect of every operation; BsSchedSlot the blocks of a finalized slot;
      BsSchedRun operations in any order ([sched_op], [sched_run]);
      BsSchedThms the theorems: no operation panics, every receipt is reported,
      signalling goes out by priority, a granted slot is kept for its terminal
      and announced on the control channel (and only there), leaving
      hangtime keeps stolen half slots only; and where the code differs from
      its documentation.
    - UmacCell: the broadcast PDUs umac_bs.rs derives from the configuration, the
      construction of its schedulers, and the composition with the channel
      coding: a terminal acquires the cell from any slot of frame 18.
    - LmacBsSpec: tetra-entities/src/lmac/lmac_bs.rs.  Every slot the
      scheduler finalizes is coded into a complete burst; uplink bursts are
      decoded on the channel the scheduler announced and reach the UMAC bit for
      bit, but for the one that finds a leftover mark of a stolen half slot.
    - MacUl, MacUlSpec: the uplink headers of tetra-pdus/src/umac (MAC-ACCESS,
      MAC-DATA, MAC-END, MAC-FRAG, MAC-U-SIGNAL, MAC-U-BLCK) with MAC-D-BLCK and
      ACCESS-DEFINE: what each parser consumes on any bits ([consumes]), and the
      round trip of all MAC headers.
    - UmacBs: tetra-entities/src/umac/umac_bs.rs, the entity: received blocks,
      requests of the LLC, voice, circuits and floor, uplink inactivity, the
      tick.  The loop over the PDUs of a block has the bits of the block as fuel;
      a turn that goes on has consumed some.  UmacBsSpec has the invariant
      [umac_inv], what the receivers of messages rely on ([msg_ok]) and the
      headers the handlers survive ([header_good]); UmacBsRx and UmacBsTx the
      handlers; UmacBsThms the runs ([umac_run]) and the theorems: no panic as
      long as the senders keep to [ev_ok], all messages well formed, a block of associated PDUs is taken apart bit for
      bit, speech is relayed bit for bit; and three ways to panic the code.
    - LlcPdu, Fcs: the headers of the basic link (tetra-pdus/src/llc) and its
      frame check sequence (tetra-entities/src/llc/components/fcs.rs).  Headers
      survive writing and parsing, any received bits are parsed without a
      panic; bursts of up to 32 bits are detected.
    - Saps: the service primitives UMAC, LLC, MLE and the layer-3 entities
      exchange (tetra-saps, tetra-core).
      A transmit receipt in a primitive is a handle into a shared store.
    - Llc: tetra-entities/src/llc/llc_bs_ms.rs, every handler, on a [World] of
      the entity, the message queue and the receipts.
    - LlcSpec, LlcRx: the invariant and the effect of every handler on the
      stop-and-wait queue of each subscriber ([link], [link_step]).
    - LlcLink: the LLC among its neighbours ([llc_step]).  In every reachable
      state the queues are stop-and-wait queues, no callback panics (unless an
      acknowledgement meets a message the UMAC discarded), no message is
      forgotten, acknowledgements complete exactly the message they belong to.
    - LlcLive: a message leaves its queue within 74 timeslots per message in
      it, if the UMAC finishes what it was handed within a slot.  The bound is
      the measure of the proof: four transmissions of at most 18 slots each (one
      until the report is seen, 16 of the retry timer, one to resubmit), one
      slot to submit the message and one to give it up.
    - LlcExchange: two LLCs.  SDUs arrive unchanged and are acknowledged to
      their sender; a wrong frame check sequence suppresses a PDU.

    - CmceCircuitMgr, CmceCircuitSpec: tetra-entities/src/cmce/components/
      circuit_mgr.rs.  In every reachable state the manager is a map of slots
      with one downlink and one uplink user at most; its operations meet their
      contracts, alone and together with the timeslot allocator; the sweep
      closes exactly the expired circuits; D-SETUP is repeated once in five
      multiframes.
    - MmClients, MmClientsSpec: tetra-entities/src/mm/components/client_state.rs
      and the energy-economy grant of mm_bs.rs.  The cap evicts only idle
      terminals, longest unheard first; the rate limit bounds what is accepted
      in any minute and refuses nobody below it; a snapshot restores groups and
      modes; a registration command waits at most one monitoring cycle.

    - PduCodec: layer-3 PDUs as fixed fields, an o-bit and optional elements;
      the tactics that walk a writer and a parser along one.
    - CmceEnums, CmcePdus: tetra-pdus/src/cmce, the enumerations, elements and
      PDUs of call control and short data.  CmcePdusSpec proves for each PDU
      that it survives writing and parsing and that its parser is safe;
      CmceWire has the routing of pc_bs.rs and the theorems over all PDUs.

    - MmEnums, MmPdus, MmPdusSpec: the same for tetra-pdus/src/mm and the
      dispatch of mm_bs.rs.  U-MM-STATUS takes the rest of the buffer, so its
      round trip is stated on a buffer that ends with the PDU ([reads_all]).

    - Subscribers: the registry of attached subscribers in the shared state
      (tetra-config/src/bluestation/state.rs); its set of groups with members is
      kept in step with the members.
    - MmBs: tetra-entities/src/mm/mm_bs.rs with recovery_cache.rs and the
      configuration it reads: every handler, on a world of the entity, the shared
      state and the message queue.  MmBsSpec: the invariant [book_inv] between the
      registry of terminals and that of subscribers, what the parsers return, and
      that every PDU sent is written whole.  MmBsRx: weakest preconditions of the
      handlers; steps that keep the invariant, that change nothing there, or that
      change the record of one terminal in both registries ([client_step]).
      MmBsThms: every event of the entity is handled without a panic; what an
      accepted location update does and answers; a restart from the recovery cache,
      which takes its first [max_cached_issis] records.

    - MlePdus: the remaining PDUs of tetra-pdus/src/mle.  The finished ones survive
      writing and parsing and are parsed safely; the unfinished ones panic.
    - MleBs: tetra-entities/src/mle: the entity, the broadcast of the cell's
      neighbours and of the network time, and the validation of the configured
      values it broadcasts.  What the chrono crates compute is a parameter.
      MleSpec: a terminal's message reaches the entity its discriminator names and
      a message of an entity reaches the terminal, through MLE and LLC; what a
      terminal parses from a broadcast is what is configured.
    - SndcpBs: tetra-entities/src/sndcp/sndcp_bs.rs.  An activation demand gets an
      ACCEPT with an address of the pool, or the static address it asks for, and
      the identifier of its CHAP response.  The scan for it has the length of the
      demand as fuel, one bit a turn.
    - Router: tetra-entities/src/messagerouter.rs, over any entities that implement
      the class [EntityTrait].  If every message has a weight greater than what it
      gives rise to ([cascades_end]), the delivery loop empties the queue within
      the weight pending in it, whichever entities panic.
    - Stack: the entities LLC, MLE and SNDCP under the router.  Their messages have
      such a weight, and a packet-data activation is answered in the same tick.

    ** Not modelled

    CMCE call control and short data, which are built around the network bridges
    and the dashboard's commands, and the PDUs of the supplementary services.  The terminal's entities (umac_ms.rs, mle_ms.rs and
    the like), which the base station does not use.  The PHY (floating-point
    signal processing and device I/O), the network bridges and the dashboard
    (sockets, HTTP), the parsing of the configuration (third-party TOML), the
    binaries, and formatting code. *)
From stdpp Require Export base tactics numbers list gmap strings.

(** * Effects *)

(** The outcome of a piece of Rust code that works on a mutable state [S]:
    it returns a value, it returns an [Err] (the state keeps the changes made
    before the error), or it panics (assertion, index out of range, [unwrap]). *)
Inductive outcome (S E A : Type) : Type :=
| Ok (a : A) (s : S)
| Err (e : E) (s : S)
| Panic.
Arguments Ok {S E A} a s.
Arguments Err {S E A} e s.
Arguments Panic {S E A}.

Definition M (S E A : Type) : Type := S → outcome S E A.

#[global] Instance M_ret S E : MRet (M S E) := λ A a s, Ok a s.
#[global] Instance M_bind S E : MBind (M S E) := λ A B f m s,
  match m s with
  | Ok a s' => f a s'
  | Err e s' => Err e s'
  | Panic => Panic
  end.

Definition fail {S E A} (e : E) : M S E A := λ s, Err e s.
Definition panic {S E A} : M S E A := λ _, Panic.
Definition get {S E} : M S E S := λ s, Ok s s.
Definition put {S E} (s : S) : M S E unit := λ _, Ok tt s.
Definition gets {S E A} (f : S → A) : M S E A := λ s, Ok (f s) s.
Definition assert_ {S E} (b : bool) : M S E unit := if b then mret tt else panic.

(** [v.unwrap()] / [v.expect(..)] on an [Option]. *)
Definition unwrap {S E A} (o : option A) : M S E A :=
  match o with Some a => mret a | None => panic end.

(** [v.ok_or(e)?] on an [Option]. *)
Definition ok_or {S E A} (o : option A) (e : E) : M S E A :=
  match o with Some a => mret a | None => fail e end.

(** [assert!(b)] in code modelled with [option]. *)
Definition check (b : bool) : option unit := if b then Some tt else None.

Section monad_laws.
Context {S E A B C : Type}.

Lemma bind_ok (m : M S E A) (f : A → M S E B) s a s' :
  m s = Ok a s' → (m ≫= f) s = f a s'.
Proof. unfold mbind, M_bind. by intros ->. Qed.

Lemma bind_ok_inv (m : M S E A) (f : A → M S E B) s b s'' :
  (m ≫= f) s = Ok b s'' → ∃ a s', m s = Ok a s' ∧ f a s' = Ok b s''.
Proof. unfold mbind, M_bind. destruct (m s) eqn:?; naive_solver. Qed.

Lemma bind_ext (m : M S E A) (f g : A → M S E B) s :
  (∀ a s', f a s' = g a s') → (m ≫= f) s = (m ≫= g) s.
Proof. intros H. unfold mbind, M_bind. by destruct (m s). Qed.

Lemma bind_assoc (m : M S E A) (f : A → M S E B) (g : B → M S E C) s :
  ((m ≫= f) ≫= g) s = (m ≫= λ a, f a ≫= g) s.
Proof. unfold mbind, M_bind. by destruct (m s). Qed.
End monad_laws.

Definition is_some {A} (o : option A) : bool := match o with Some _ => true | None => false end.

Lemma is_some_false {A} (o : option A) : is_some o = false → o = None.
Proof. by destruct o. Qed.

(** * Filters *)

Lemma filter_ext_elem {A} (P Q : A → Prop) `{∀ x, Decision (P x), ∀ x, Decision (Q x)} (l : list A) :
  (∀ x, x ∈ l → P x ↔ Q x) → filter P l = filter Q l.
Proof.
  intros Hl. induction l as [|x l IH]; [done|]. rewrite !filter_cons, IH by (intros; apply Hl; by right).
  apply decide_ext, Hl. by left.
Qed.

Lemma filter_all {A} (P : A → Prop) `{∀ x, Decision (P x)} (l : list A) : (∀ x, x ∈ l → P x) → filter P l = l.
Proof.
  intros Hl. induction l as [|x l IH]; [done|]. rewrite filter_cons, decide_True by (apply Hl; by left).
  f_equal. apply IH. intros. apply Hl. by right.
Qed.
