(* ===== verification/Bits.v ===== *)
(** Bit strings and machine integers.

    A field of [n] bits on the wire is a [list bool], most significant bit
    first; a Rust integer is a [Z].  This file relates the two ([bits_of_Z],
    [Z_of_bits]) and gives the two list operations every buffer access reduces
    to: reading a slice and overwriting a slice ([slice], [splice]). *)
From S2P Require Import Prelude.
From Stdlib Require Import Btauto.

(** * Definitions *)

(** The low [n] bits of [v], most significant first. *)
Fixpoint bits_of_Z (n : nat) (v : Z) : list bool :=
  match n with
  | O => []
  | S n' => Z.testbit v (Z.of_nat n') :: bits_of_Z n' v
  end.

(** The integer a bit string denotes, most significant bit first. *)
Definition Z_of_bits (bs : list bool) : Z :=
  foldl (λ acc b, 2 * acc + Z.b2z b)%Z 0%Z bs.

(** [wrap w v] is the value an unsigned [w]-bit variable holds after storing [v]. *)
Definition wrap (w : Z) (v : Z) : Z := (v mod 2 ^ w)%Z.

Definition is_u (w : Z) (v : Z) : Prop := (0 ≤ v < 2 ^ w)%Z.

Definition slice {A} (p n : nat) (l : list A) : list A := take n (drop p l).

Definition splice {A} (p : nat) (xs l : list A) : list A :=
  take p l ++ xs ++ drop (p + length xs) l.

(** A list of bits as the one-bit-per-byte arrays the channel coder works on. *)
Definition bitarr (bs : list bool) : list Z := Z.b2z <$> bs.

(** * Bitwise equality of integers *)

Create Rewrite HintDb testbit.
#[export] Hint Rewrite Z.lxor_spec Z.land_spec Z.lor_spec Z.ldiff_spec
  Z.bits_0 andb_false_r andb_true_r orb_false_r orb_true_r orb_false_l
  andb_false_l xorb_false_r xorb_false_l : testbit.
#[export] Hint Rewrite Z.shiftr_spec Z.shiftl_spec Z.lnot_spec Z.ones_spec_low
  Z.ones_spec_high Z.testbit_neg_r using lia : testbit.

(** Reduce an equation between integers to their bits. *)
Ltac bitwise i Hi := apply Z.bits_inj'; intros i Hi; autorewrite with testbit.

Lemma testbit_high w v i : is_u w v → (w ≤ i)%Z → Z.testbit v i = false.
Proof.
  intros [H0 H1] Hi. destruct (decide (w < 0)%Z) as [Hw|Hw].
  { rewrite Z.pow_neg_r in H1 by done. lia. }
  rewrite <-(Z.mod_small v (2 ^ w)) by lia. apply Z.mod_pow2_bits_high. lia.
Qed.

Lemma is_u_testbit w v : (0 ≤ w)%Z → (0 ≤ v)%Z →
  (∀ i, (w ≤ i)%Z → Z.testbit v i = false) → is_u w v.
Proof.
  intros Hw Hv H. split; [done|].
  destruct (decide (v = 0)%Z) as [->|]; [lia|].
  apply Z.log2_lt_pow2; [lia|]. destruct (decide (Z.log2 v < w)%Z); [done|].
  specialize (H (Z.log2 v)). rewrite Z.bit_log2 in H by lia. naive_solver lia.
Qed.


Lemma is_u_lxor w a b : (0 ≤ w)%Z → is_u w a → is_u w b → is_u w (Z.lxor a b).
Proof.
  intros Hw Ha Hb. apply is_u_testbit; [done| |].
  { apply Z.lxor_nonneg. unfold is_u in *. lia. }
  intros i Hi. rewrite Z.lxor_spec, !(testbit_high w) by done. done.
Qed.

Lemma is_u_land w a b : is_u w a → (0 ≤ b)%Z → is_u w (Z.land a b).
Proof.
  intros Ha Hb. destruct (decide (0 ≤ w)%Z).
  2: { destruct Ha as [? Ha]. rewrite Z.pow_neg_r in Ha by lia. lia. }
  apply is_u_testbit; [done| |].
  { apply Z.land_nonneg. unfold is_u in *. lia. }
  intros i Hi. by rewrite Z.land_spec, (testbit_high w).
Qed.

Lemma is_u_lor w a b : (0 ≤ w)%Z → is_u w a → is_u w b → is_u w (Z.lor a b).
Proof.
  intros Hw Ha Hb. apply is_u_testbit; [done| |].
  { apply Z.lor_nonneg. unfold is_u in *. lia. }
  intros i Hi. by rewrite Z.lor_spec, !(testbit_high w).
Qed.

Lemma is_u_shiftr w a k : (0 ≤ k)%Z → is_u w a → is_u w (Z.shiftr a k).
Proof.
  intros Hk [Ha1 Ha2]. unfold is_u. rewrite Z.shiftr_div_pow2 by done.
  assert (1 ≤ 2 ^ k)%Z by (apply (Z.pow_le_mono_r 2 0 k); lia).
  split; [apply Z.div_pos; lia|]. apply Z.div_lt_upper_bound; nia.
Qed.

Lemma wrap_is_u w v : (0 ≤ w)%Z → is_u w (wrap w v).
Proof. intros. apply Z.mod_pos_bound. apply Z.pow_pos_nonneg; lia. Qed.

Lemma wrap_small w v : is_u w v → wrap w v = v.
Proof. intros. by apply Z.mod_small. Qed.

Lemma wrap_testbit w v i : (0 ≤ w)%Z → (0 ≤ i)%Z →
  Z.testbit (wrap w v) i = if decide (i < w)%Z then Z.testbit v i else false.
Proof.
  intros. unfold wrap. case_decide.
  - by rewrite Z.mod_pow2_bits_low by lia.
  - by rewrite Z.mod_pow2_bits_high by lia.
Qed.

Lemma ones_eq k : (0 ≤ k)%Z → (Z.shiftl 1 k - 1 = Z.ones k)%Z.
Proof. intros. rewrite Z.shiftl_1_l, Z.ones_equiv. lia. Qed.

Lemma land_ones_wrap v k : (0 ≤ k)%Z → Z.land v (Z.ones k) = wrap k v.
Proof. intros. by apply Z.land_ones. Qed.

Lemma b2z_is_u b : is_u 1 (Z.b2z b).
Proof. destruct b; unfold is_u; simpl; lia. Qed.

(** * [bits_of_Z] and [Z_of_bits] *)

Lemma length_bits_of_Z n v : length (bits_of_Z n v) = n.
Proof. induction n; simpl; auto. Qed.

Lemma lookup_bits_of_Z n v i :
  bits_of_Z n v !! i =
    if decide (i < n) then Some (Z.testbit v (Z.of_nat (n - 1 - i))) else None.
Proof.
  revert i. induction n as [|n IH]; intros i; [done|]. cbn [bits_of_Z].
  destruct i as [|i]; cbn [lookup list_lookup].
  - rewrite decide_True by lia. do 2 f_equal. lia.
  - rewrite IH. repeat case_decide; try lia; [|done]. do 2 f_equal. lia.
Qed.

Lemma bits_of_Z_ext n v w :
  (∀ i, i < n → Z.testbit v (Z.of_nat i) = Z.testbit w (Z.of_nat i)) →
  bits_of_Z n v = bits_of_Z n w.
Proof. induction n as [|n IH]; intros H; simpl; [done|]. f_equal; auto with lia. Qed.

Lemma drop_bits_of_Z k n v : drop k (bits_of_Z n v) = bits_of_Z (n - k) v.
Proof.
  revert k. induction n as [|n IH]; intros [|k]; simpl; [done..|]. apply IH.
Qed.

Lemma take_bits_of_Z k n v : k ≤ n →
  take k (bits_of_Z n v) = bits_of_Z k (Z.shiftr v (Z.of_nat (n - k))).
Proof.
  intros. apply list_eq. intros i. destruct (decide (i < k)).
  - rewrite lookup_take_lt, !lookup_bits_of_Z by lia.
    rewrite !decide_True by lia. rewrite Z.shiftr_spec by lia. do 2 f_equal. lia.
  - rewrite lookup_take_ge by lia. symmetry. apply lookup_ge_None_2.
    rewrite length_bits_of_Z. lia.
Qed.

Lemma bits_of_Z_app a b v :
  bits_of_Z (a + b) v = bits_of_Z a (Z.shiftr v (Z.of_nat b)) ++ bits_of_Z b v.
Proof.
  rewrite <-(take_drop a (bits_of_Z (a + b) v)), take_bits_of_Z, drop_bits_of_Z by lia.
  repeat f_equal; lia.
Qed.

Lemma slice_bits_of_Z p k n v : p + k ≤ n →
  slice p k (bits_of_Z n v) = bits_of_Z k (Z.shiftr v (Z.of_nat (n - p - k))).
Proof. intros. unfold slice. rewrite drop_bits_of_Z, take_bits_of_Z by lia. done. Qed.

Lemma bits_of_Z_wrap n v : bits_of_Z n (wrap (Z.of_nat n) v) = bits_of_Z n v.
Proof.
  apply bits_of_Z_ext. intros i Hi. rewrite wrap_testbit by lia.
  by rewrite decide_True by lia.
Qed.

Lemma bits_of_Z_0 n : bits_of_Z n 0 = replicate n false.
Proof. induction n as [|n IH]; [done|]. cbn [bits_of_Z replicate]. by rewrite IH, Z.bits_0. Qed.

Lemma Z_of_bits_foldl l acc :
  foldl (λ acc b, 2 * acc + Z.b2z b)%Z acc l = (acc * 2 ^ Z.of_nat (length l) + Z_of_bits l)%Z.
Proof.
  unfold Z_of_bits. revert acc. induction l as [|b l IH]; intros acc.
  - simpl. lia.
  - cbn [foldl length]. rewrite IH, (IH (2 * 0 + Z.b2z b)%Z).
    rewrite Nat2Z.inj_succ, Z.pow_succ_r by lia. ring.
Qed.

Lemma Z_of_bits_cons b l :
  Z_of_bits (b :: l) = (Z.b2z b * 2 ^ Z.of_nat (length l) + Z_of_bits l)%Z.
Proof.
  change (Z_of_bits (b :: l)) with (foldl (λ acc b, 2 * acc + Z.b2z b)%Z (2 * 0 + Z.b2z b)%Z l).
  rewrite Z_of_bits_foldl. f_equal.
Qed.

Lemma Z_of_bits_app l1 l2 :
  Z_of_bits (l1 ++ l2) = (Z_of_bits l1 * 2 ^ Z.of_nat (length l2) + Z_of_bits l2)%Z.
Proof. unfold Z_of_bits at 1. by rewrite foldl_app, Z_of_bits_foldl. Qed.

Lemma Z_of_bits_is_u l : is_u (Z.of_nat (length l)) (Z_of_bits l).
Proof.
  unfold is_u. induction l as [|b l IH].
  - by split.
  - rewrite Z_of_bits_cons, length_cons, Nat2Z.inj_succ, Z.pow_succ_r by lia.
    destruct b; simpl Z.b2z; lia.
Qed.

Lemma Z_of_bits_is_u_len l n : length l = n → is_u (Z.of_nat n) (Z_of_bits l).
Proof. intros <-. apply Z_of_bits_is_u. Qed.

Lemma Z_of_bits_of_Z n v : Z_of_bits (bits_of_Z n v) = wrap (Z.of_nat n) v.
Proof.
  induction n as [|n IH].
  - unfold wrap. simpl. by rewrite Z.mod_1_r.
  - cbn [bits_of_Z]. rewrite Z_of_bits_cons, IH, length_bits_of_Z.
    unfold wrap. rewrite Nat2Z.inj_succ, Z.pow_succ_r by lia.
    rewrite Z.testbit_spec' by lia. rewrite (Z.mul_comm 2), Z.rem_mul_r by lia. ring.
Qed.

Lemma Z_of_bits_of_Z_small n v : is_u (Z.of_nat n) v → Z_of_bits (bits_of_Z n v) = v.
Proof. intros. by rewrite Z_of_bits_of_Z, wrap_small. Qed.

Lemma Z_of_bits_inj l1 l2 : length l1 = length l2 → Z_of_bits l1 = Z_of_bits l2 → l1 = l2.
Proof.
  revert l2. induction l1 as [|b l1 IH]; intros [|b' l2] Hlen Heq; try done.
  simplify_eq/=. rewrite !Z_of_bits_cons in Heq. rewrite Hlen in Heq.
  pose proof (Z_of_bits_is_u l1) as H1. pose proof (Z_of_bits_is_u l2) as H2.
  unfold is_u in *. rewrite Hlen in H1.
  destruct b, b'; cbn [Z.b2z] in Heq; try lia; f_equal; apply IH; lia.
Qed.

Lemma bits_of_Z_of_bits l : bits_of_Z (length l) (Z_of_bits l) = l.
Proof.
  apply Z_of_bits_inj; [apply length_bits_of_Z|].
  apply Z_of_bits_of_Z_small, Z_of_bits_is_u.
Qed.

Lemma Z_of_bits_1 b : Z_of_bits [b] = Z.b2z b.
Proof. by destruct b. Qed.

Lemma bits_of_Z_b2z b : bits_of_Z 1 (Z.b2z b) = [b].
Proof. by destruct b. Qed.

(** * [slice] and [splice] *)

Section slices.
Context {A : Type}.
Implicit Types l xs : list A.

Lemma length_slice p n l : p + n ≤ length l → length (slice p n l) = n.
Proof. intros. unfold slice. rewrite length_take, length_drop. lia. Qed.

Lemma lookup_slice p n l i :
  slice p n l !! i = if decide (i < n) then l !! (p + i) else None.
Proof.
  unfold slice. case_decide.
  - by rewrite lookup_take_lt, lookup_drop by lia.
  - apply lookup_take_ge. lia.
Qed.

Lemma slice_app_split p a b l : slice p (a + b) l = slice p a l ++ slice (p + a) b l.
Proof.
  unfold slice. rewrite <-drop_drop.
  rewrite <-(take_drop a (take (a + b) (drop p l))), take_take.
  rewrite Nat.min_l by lia. f_equal.
  rewrite skipn_firstn_comm. f_equal. lia.
Qed.

Lemma slice_slice p n q m l : q + m ≤ n → slice q m (slice p n l) = slice (p + q) m l.
Proof.
  intros. apply list_eq. intros i. rewrite !lookup_slice.
  repeat case_decide; try lia; try done. f_equal. lia.
Qed.

Lemma slice_take p n k l : p + n ≤ k → slice p n (take k l) = slice p n l.
Proof.
  intros. apply list_eq. intros i. rewrite !lookup_slice.
  case_decide; [|done]. apply lookup_take_lt. lia.
Qed.

Lemma slice_all l : slice 0 (length l) l = l.
Proof. unfold slice. rewrite drop_0. by apply take_ge. Qed.

Lemma slice_0 p l : slice p 0 l = [].
Proof. done. Qed.

Lemma slice_app_l p n l xs : p + n ≤ length l → slice p n (l ++ xs) = slice p n l.
Proof.
  intros. apply list_eq. intros i. rewrite !lookup_slice. case_decide; [|done].
  apply lookup_app_l. lia.
Qed.

Lemma slice_app_r p n l xs : length l ≤ p → slice p n (l ++ xs) = slice (p - length l) n xs.
Proof.
  intros. apply list_eq. intros i. rewrite !lookup_slice. case_decide; [|done].
  rewrite lookup_app_r by lia. f_equal. lia.
Qed.

Lemma length_splice p xs l : p ≤ length l →
  length (splice p xs l) = length l `max` (p + length xs).
Proof. intros. unfold splice. rewrite !length_app, length_take, length_drop. lia. Qed.

Lemma lookup_splice p xs l i : p ≤ length l →
  splice p xs l !! i =
    if decide (p ≤ i < p + length xs) then xs !! (i - p) else l !! i.
Proof.
  intros. unfold splice. destruct (decide (i < p)).
  { rewrite decide_False by lia. rewrite lookup_app_l by (rewrite length_take; lia).
    by rewrite lookup_take_lt. }
  rewrite lookup_app_r by (rewrite length_take; lia). rewrite length_take.
  rewrite (Nat.min_l p) by lia. case_decide.
  - by rewrite lookup_app_l by lia.
  - rewrite lookup_app_r, lookup_drop by lia. f_equal. lia.
Qed.

Lemma splice_splice_next p xs ys l : p ≤ length l →
  splice (p + length xs) ys (splice p xs l) = splice p (xs ++ ys) l.
Proof.
  intros. apply list_eq. intros i.
  rewrite !lookup_splice; rewrite ?length_splice, ?length_app by lia; try lia.
  repeat case_decide; try lia; try done.
  - rewrite lookup_app_r by lia. f_equal. lia.
  - by rewrite lookup_app_l by lia.
Qed.

Lemma slice_splice_same p xs l : p ≤ length l → slice p (length xs) (splice p xs l) = xs.
Proof.
  intros. apply list_eq. intros i. rewrite lookup_slice. case_decide.
  - rewrite lookup_splice by lia. rewrite decide_True by lia. f_equal. lia.
  - symmetry. apply lookup_ge_None_2. lia.
Qed.

Lemma slice_splice_before p xs l q n : p ≤ length l → q + n ≤ p →
  slice q n (splice p xs l) = slice q n l.
Proof.
  intros. apply list_eq. intros i. rewrite !lookup_slice. case_decide; [|done].
  rewrite lookup_splice by lia. by rewrite decide_False by lia.
Qed.

Lemma slice_splice_after p xs l q n : p ≤ length l → p + length xs ≤ q →
  slice q n (splice p xs l) = slice q n l.
Proof.
  intros. apply list_eq. intros i. rewrite !lookup_slice. case_decide; [|done].
  rewrite lookup_splice by lia. by rewrite decide_False by lia.
Qed.

Lemma splice_nil p l : splice p [] l = l.
Proof. unfold splice. rewrite Nat.add_0_r. apply take_drop. Qed.

Lemma splice_end xs l : splice (length l) xs l = l ++ xs.
Proof.
  unfold splice. rewrite take_ge by lia. rewrite drop_ge by lia. by rewrite app_nil_r.
Qed.

Lemma take_splice p xs l k : p ≤ length l → p + length xs ≤ k → k ≤ length l →
  take k (splice p xs l) = splice p xs (take k l).
Proof.
  intros. apply list_eq. intros i. destruct (decide (i < k)).
  - rewrite lookup_take_lt, !lookup_splice by (rewrite ?length_take; lia).
    case_decide; [done|]. by rewrite lookup_take_lt.
  - rewrite lookup_take_ge by lia. symmetry. apply lookup_ge_None_2.
    rewrite length_splice, length_take by (rewrite ?length_take; lia). lia.
Qed.
End slices.

(** * One bit per byte *)

Lemma length_bitarr bs : length (bitarr bs) = length bs.
Proof. apply length_fmap. Qed.

Lemma lookup_bitarr bs i : bitarr bs !! i = Z.b2z <$> bs !! i.
Proof. apply list_lookup_fmap. Qed.

Lemma bitarr_app l1 l2 : bitarr (l1 ++ l2) = bitarr l1 ++ bitarr l2.
Proof. apply fmap_app. Qed.

(** * Shift registers *)

Lemma lor_shiftl_add a b k : (0 ≤ k)%Z → is_u k b →
  Z.lor (Z.shiftl a k) b = (a * 2 ^ k + b)%Z.
Proof.
  intros Hk Hb. rewrite <-Z.shiftl_mul_pow2 by done. symmetry. apply Z.add_nocarry_lor.
  bitwise i Hi. destruct (decide (i < k)%Z).
  - rewrite Z.testbit_neg_r by lia. done.
  - rewrite (testbit_high k b) by (done || lia). by rewrite andb_false_r.
Qed.

(** Shifting [e] into a 64-bit accumulator that holds the bits [d]. *)
Lemma shift_in_bits d e : length d + length e ≤ 64 →
  Z.lor (wrap 64 (Z.shiftl (Z_of_bits d) (Z.of_nat (length e)))) (Z_of_bits e) =
  Z_of_bits (d ++ e).
Proof.
  intros Hlen. pose proof (Z_of_bits_is_u d) as Hd. pose proof (Z_of_bits_is_u e) as He.
  rewrite wrap_small.
  - rewrite lor_shiftl_add by (done || lia). by rewrite Z_of_bits_app.
  - unfold is_u in *. rewrite Z.shiftl_mul_pow2 by lia.
    assert (2 ^ Z.of_nat (length d) * 2 ^ Z.of_nat (length e) ≤ 2 ^ 64)%Z.
    { rewrite <-Z.pow_add_r by lia. apply Z.pow_le_mono_r; lia. }
    nia.
Qed.

(** A shift and mask extracts a slice. *)
Lemma shift_mask_slice p k n v : p + k ≤ n →
  Z.land (Z.shiftr v (Z.of_nat (n - p - k))) (Z.shiftl 1 (Z.of_nat k) - 1) =
  Z_of_bits (slice p k (bits_of_Z n v)).
Proof.
  intros. rewrite slice_bits_of_Z, Z_of_bits_of_Z, ones_eq, land_ones_wrap by lia. done.
Qed.

(** A bitmap filled by [|=] in a loop over the bit positions. *)
Section bitmap.
Local Open Scope Z_scope.
Lemma lor_loop_testbit (p : nat → bool) n i : (n ≤ 16)%nat → 0 ≤ i →
  Z.testbit (foldl (λ syn j, if p j then Z.lor syn (wrap 16 (Z.shiftl 1 (Z.of_nat j))) else syn)
    0 (seq 0 n)) i = if decide (i < Z.of_nat n) then p (Z.to_nat i) else false.
Proof.
  intros Hn Hi. induction n as [|n IH]; [by rewrite Z.bits_0; case_decide; lia|].
  rewrite seq_S, foldl_app. cbn [foldl Nat.add]. specialize (IH ltac:(lia)).
  assert (Z.testbit (wrap 16 (Z.shiftl 1 (Z.of_nat n))) i = (i =? Z.of_nat n)) as Hb.
  { rewrite wrap_testbit, Z.shiftl_1_l, Z.pow2_bits_eqb by lia.
    destruct (Z.eqb_spec (Z.of_nat n) i), (Z.eqb_spec i (Z.of_nat n)); repeat case_decide; try lia; done. }
  destruct (p n) eqn:Hp; rewrite ?Z.lor_spec, IH, ?Hb.
  - destruct (Z.eqb_spec i (Z.of_nat n)) as [->|]; repeat case_decide; try lia;
      rewrite ?Nat2Z.id, ?Hp, ?orb_false_r; done.
  - repeat case_decide; try lia; [done|]. replace (Z.to_nat i) with n by lia. by rewrite Hp.
Qed.
End bitmap.

(** The value a signed [w]-bit variable holds after storing [v]. *)
Definition swrap (w v : Z) : Z := ((v + 2 ^ (w - 1)) mod 2 ^ w - 2 ^ (w - 1))%Z.

Lemma swrap_small w v : (0 < w)%Z → (- 2 ^ (w - 1) ≤ v < 2 ^ (w - 1))%Z → swrap w v = v.
Proof.
  intros Hw Hv. unfold swrap. replace w with (Z.succ (w - 1)) at 2 by lia.
  rewrite Z.pow_succ_r by lia. rewrite Z.mod_small by lia. lia.
Qed.

Lemma bitarr_inv l : Forall (λ x, x = 0%Z ∨ x = 1%Z) l → ∃ bs, l = bitarr bs.
Proof.
  induction 1 as [|x l Hx Hl (bs & ->)]; [by exists []|].
  destruct Hx as [-> | ->]; [by exists (false :: bs)|by exists (true :: bs)].
Qed.

Lemma bitarr_01 bs : Forall (λ x, x = 0%Z ∨ x = 1%Z) (bitarr bs).
Proof. apply Forall_fmap, Forall_true. intros []; simpl; auto. Qed.

Lemma replicate_0_01 n : Forall (λ x, x = 0%Z ∨ x = 1%Z) (replicate n 0%Z).
Proof. apply Forall_replicate. by left. Qed.

Lemma bitarr_replicate n b : bitarr (replicate n b) = replicate n (Z.b2z b).
Proof. apply fmap_replicate. Qed.

Lemma bitarr_inj l k : bitarr l = bitarr k → l = k.
Proof. apply list_fmap_eq_inj. intros [] []; done. Qed.
