(* ===== verification/Core.v ===== *)
(** Parse errors of the PDU codecs ([tetra-core/src/pdu_parse_error.rs]) with
    the checking macros the parsers use, and subscriber addresses
    ([tetra-core/src/address.rs]). *)
From S2P Require Import Prelude.

Inductive PduParseErr : Type :=
| InvalidPduType (expected found : Z)
| BufferEnded (field : option string)
| InvalidTrailingMbitValue
| InvalidElemId (found : Z)
| FieldNotPresent (field : option string)
| InvalidValue (field : string) (value : Z)
| InconsistentLength (expected found : nat)
| Inconsistency (field : string) (reason : string)
| NotImplemented (field : option string).

#[global] Instance PduParseErr_eq_dec : EqDecision PduParseErr.
Proof. solve_decision. Defined.

(** [expect_pdu_type!(value, expected)?] with [expected] already raw. *)
Definition expect_pdu_type {S} (value raw_expected : Z) : M S PduParseErr unit :=
  if decide (value = raw_expected) then mret tt
  else fail (InvalidPduType raw_expected value).

(** [expect_value!(value, expected, field)?]. *)
Definition expect_value {S} (val expected : Z) (field : string) : M S PduParseErr unit :=
  if decide (val = expected) then mret tt else fail (InvalidValue field val).

(** * Subscriber addresses *)

Inductive SsiType : Type :=
| SsiUnknown | Ssi | Issi | Gssi | Ussi | Smi | Esi | EventLabelType.

#[global] Instance SsiType_eq_dec : EqDecision SsiType.
Proof. solve_decision. Defined.

(** [ssi] is a [u32]. *)
Record TetraAddress : Type := mkAddr { ssi : Z; ssi_type : SsiType }.

#[global] Instance TetraAddress_eq_dec : EqDecision TetraAddress.
Proof. solve_decision. Defined.

Definition issi (s : Z) : TetraAddress := mkAddr s Issi.
