(* ===== verification/BitBuffer.v ===== *)
(** The bit buffer of [tetra-core/src/bitbuffer.rs].

    A byte vector with a window [start, end) and a cursor [pos], all counted in
    bits.  Reads and writes are modelled on the bytes, with the head / full
    bytes / tail split of the source; the theorems show that they implement the
    obvious operations on the list of bits of the buffer.

    [usize] values are [nat]; the additions the source checks
    ([checked_add], [checked_add_signed]) are checked against [usize::MAX]
    here too.  The other additions and subtractions stay inside the window on a
    well-formed buffer ([wf]), which every operation preserves, so they neither
    overflow nor underflow.  Bytes and [u64] values are [Z]. *)
From Stdlib Require Import Ascii.
From S2P Require Import Prelude Bits Core.

(** * Rust integer helpers *)

Definition usize_max : Z := (2 ^ 64 - 1)%Z.

Definition checked_add (a b : nat) : option nat :=
  if (Z.of_nat a + Z.of_nat b <=? usize_max)%Z then Some (a + b) else None.

Definition checked_add_signed (a : nat) (d : Z) : option nat :=
  let r := (Z.of_nat a + d)%Z in
  if ((0 <=? r) && (r <=? usize_max))%Z then Some (Z.to_nat r) else None.

Definition div_ceil (a b : nat) : nat := a / b + (if a mod b =? 0 then 0 else 1).

(** [!m] on a [u8]. *)
Definition not8 (m : Z) : Z := Z.lxor m 255.

(** * State *)

Record BitBuffer : Type := mkBitBuffer {
  bb_buffer : list Z;
  bb_start : nat;
  bb_pos : nat;
  bb_end : nat;
  bb_autoexpand : bool
}.

Definition set_buffer (b : list Z) (bb : BitBuffer) : BitBuffer :=
  mkBitBuffer b (bb_start bb) (bb_pos bb) (bb_end bb) (bb_autoexpand bb).
Definition set_start (s : nat) (bb : BitBuffer) : BitBuffer :=
  mkBitBuffer (bb_buffer bb) s (bb_pos bb) (bb_end bb) (bb_autoexpand bb).
Definition set_pos (p : nat) (bb : BitBuffer) : BitBuffer :=
  mkBitBuffer (bb_buffer bb) (bb_start bb) p (bb_end bb) (bb_autoexpand bb).
Definition set_end (e : nat) (bb : BitBuffer) : BitBuffer :=
  mkBitBuffer (bb_buffer bb) (bb_start bb) (bb_pos bb) e (bb_autoexpand bb).

(** Code that works on a mutable bit buffer and may fail with a parse error. *)
Abbreviation B := (M BitBuffer PduParseErr).

Definition modify (f : BitBuffer → BitBuffer) : B unit := λ bb, Ok tt (f bb).

(** [self.buffer[i]] and [self.buffer[i] = b]: panic out of range. *)
Definition vec_get (i : nat) : B Z := λ bb,
  match bb_buffer bb !! i with Some b => Ok b bb | None => Panic end.
Definition vec_set (i : nat) (b : Z) : B unit := λ bb,
  if decide (i < length (bb_buffer bb)) then Ok tt (set_buffer (<[i:=b]> (bb_buffer bb)) bb)
  else Panic.

(** * Constructors *)

Definition new (len_bits : nat) : BitBuffer :=
  mkBitBuffer (replicate (div_ceil len_bits 8) 0%Z) 0 0 len_bits false.

Definition new_autoexpand (initial_max_len_bits : nat) : BitBuffer :=
  mkBitBuffer (replicate (div_ceil initial_max_len_bits 8) 0%Z) 0 0 0 true.

Definition from_vec (data : list Z) : BitBuffer :=
  mkBitBuffer data 0 0 (length data * 8) false.

Definition from_bytes (data : list Z) : BitBuffer :=
  mkBitBuffer data 0 0 (length data * 8) false.

(** * Window accessors *)

Definition get_len (bb : BitBuffer) : nat := bb_end bb - bb_start bb.
Definition get_len_remaining (bb : BitBuffer) : nat := bb_end bb - bb_pos bb.
Definition get_len_written (bb : BitBuffer) : nat := bb_pos bb - bb_start bb.
Definition get_pos (bb : BitBuffer) : nat := bb_pos bb - bb_start bb.

(** * Raw readers *)

(** Step 2 of [read_bits_at_unchecked]: the [while bits_remaining >= 8] loop. *)
Fixpoint read_full_bytes (fuel bit_pos bits_remaining : nat) (result : Z) : B (nat * nat * Z) :=
  if 8 <=? bits_remaining then
    match fuel with
    | O => panic
    | S fuel =>
        byte ← vec_get (bit_pos / 8);
        read_full_bytes fuel (bit_pos + 8) (bits_remaining - 8)
          (Z.lor (wrap 64 (Z.shiftl result 8)) byte)
    end
  else mret (bit_pos, bits_remaining, result).

(** Step 3: the [for i in 0..bits_remaining] loop over the bits of one byte. *)
Fixpoint read_tail_bits (n i bit_pos : nat) (byte result : Z) : Z :=
  match n with
  | O => result
  | S n =>
      let shift := (7 - Z.of_nat (bit_pos mod 8 + i))%Z in
      let bit := Z.land (Z.shiftr byte shift) 1 in
      read_tail_bits n (i + 1) bit_pos byte (Z.lor (wrap 64 (Z.shiftl result 1)) bit)
  end.

(** Step 1: the bits up to the next byte boundary. *)
Definition read_head_bits (bit_pos num_bits : nat) : B (nat * nat * Z) :=
  let head := bit_pos mod 8 in
  if negb (head =? 0) && (0 <? num_bits) then
    let take_ := (8 - head) `min` num_bits in
    byte ← vec_get (bit_pos / 8);
    let shift := Z.of_nat (8 - head - take_) in
    let mask := (Z.shiftl 1 (Z.of_nat take_) - 1)%Z in
    let bits := Z.land (Z.shiftr byte shift) mask in
    mret (bit_pos + take_, num_bits - take_, bits)
  else mret (bit_pos, num_bits, 0%Z).

Definition read_bits_at_unchecked (bit_pos num_bits : nat) : B Z :=
  '(bit_pos, bits_remaining, result) ← read_head_bits bit_pos num_bits;
  '(bit_pos, bits_remaining, result) ←
    read_full_bytes bits_remaining bit_pos bits_remaining result;
  if 0 <? bits_remaining then
    byte ← vec_get (bit_pos / 8);
    mret (read_tail_bits bits_remaining 0 bit_pos byte result)
  else mret result.

Definition read_bit_at_unchecked (bit_pos : nat) : B Z :=
  byte ← vec_get (bit_pos / 8);
  mret (Z.land (Z.shiftr byte (7 - Z.of_nat (bit_pos mod 8))) 1).

(** * Reading *)

Definition peek_bits_startoffset (offset num_bits : nat) : B (option Z) :=
  bb ← get;
  match checked_add (bb_start bb) offset with
  | None => mret None
  | Some abs_pos =>
      if 64 <? num_bits then mret None
      else match checked_add abs_pos num_bits with
           | None => mret None
           | Some last =>
               if bb_end bb <? last then mret None
               else v ← read_bits_at_unchecked abs_pos num_bits; mret (Some v)
           end
  end.

Definition peek_bits_posoffset (offset : Z) (num_bits : nat) : B (option Z) :=
  bb ← get;
  match checked_add_signed (bb_pos bb - bb_start bb) offset with
  | None => mret None
  | Some start_offset => peek_bits_startoffset start_offset num_bits
  end.

Definition peek_bits (num_bits : nat) : B (option Z) := peek_bits_posoffset 0 num_bits.

Definition read_bits (num_bits : nat) : B (option Z) :=
  bb ← get;
  ov ← peek_bits_startoffset (bb_pos bb - bb_start bb) num_bits;
  match ov with
  | None => mret None
  | Some v => modify (λ bb, set_pos (bb_pos bb + num_bits) bb);; mret (Some v)
  end.

Definition read_field (num_bits : nat) (error_string : string) : B Z :=
  ov ← read_bits num_bits;
  ok_or ov (BufferEnded (Some error_string)).

Definition read_bit : B (option Z) :=
  bb ← get;
  ov ← peek_bits_startoffset (bb_pos bb - bb_start bb) 1;
  match ov with
  | None => mret None
  | Some v => modify (λ bb, set_pos (bb_pos bb + 1) bb);; mret (Some (wrap 8 v))
  end.

(** The bits of a chunk, most significant first: the inner loop of [try_to_bitarr]. *)
Definition chunk_bits (n : nat) (v : Z) : list Z :=
  (λ i, Z.land (Z.shiftr v (Z.of_nat (n - 1 - i))) 1) <$> seq 0 n.

(** The [while] loop of [try_to_bitarr]; [out] is the part of the output slice
    that is already written. *)
Fixpoint to_bitarr_loop (fuel bits_remaining : nat) (out : list Z) : B (option (list Z)) :=
  if bits_remaining =? 0 then mret (Some out)
  else match fuel with
       | O => panic
       | S fuel =>
           let bits_to_read := bits_remaining `min` 64 in
           ov ← read_bits bits_to_read;
           match ov with
           | None => mret None
           | Some v => to_bitarr_loop fuel (bits_remaining - bits_to_read)
                         (out ++ chunk_bits bits_to_read v)
           end
       end.

(** [try_to_bitarr] on an output slice of [len] entries; returns its content. *)
Definition try_to_bitarr (len : nat) : B (option (list Z)) :=
  bb ← get;
  if get_len_remaining bb <? len then mret None else to_bitarr_loop len len [].

Definition to_bitarr (len : nat) : B (list Z) :=
  o ← try_to_bitarr len; unwrap o.

(** [read_bits_into_slice] on an output slice [buf]; the bytes after
    [num_bits.div_ceil(8)] keep their value. *)
Fixpoint into_slice_loop (n i bits_remaining : nat) (buf : list Z) : B (option (list Z)) :=
  match n with
  | O => mret (Some buf)
  | S n =>
      let bits_in_byte := bits_remaining `min` 8 in
      ov ← read_bits bits_in_byte;
      match ov with
      | None => mret None
      | Some v =>
          into_slice_loop n (i + 1) (bits_remaining - bits_in_byte)
            (<[i := wrap 8 (Z.shiftl (wrap 8 v) (Z.of_nat (8 - bits_in_byte)))]> buf)
      end
  end.

Definition read_bits_into_slice (num_bits : nat) (buf : list Z) : B (option (list Z)) :=
  let num_bytes := div_ceil num_bits 8 in
  if length buf <? num_bytes then mret None
  else into_slice_loop num_bytes 0 num_bits buf.

(** * Writing *)

Definition realloc_tail (new_cap_bits : nat) : B unit :=
  bb ← get;
  let new_cap_bytes := div_ceil new_cap_bits 8 in
  assert_ (length (bb_buffer bb) <=? new_cap_bytes);;
  modify (λ bb, set_buffer (bb_buffer bb ++
    replicate (new_cap_bytes - length (bb_buffer bb)) 0%Z) bb).

Definition move_end (needed_extra_bits : nat) : B unit :=
  bb ← get;
  let free_cap_bits := length (bb_buffer bb) * 8 - bb_end bb in
  let needed_total_bits := bb_end bb + needed_extra_bits in
  (if free_cap_bits <? needed_extra_bits then
     let double_cap_bits := length (bb_buffer bb) * 8 * 2 in
     realloc_tail (needed_total_bits `max` double_cap_bits)
   else mret tt);;
  modify (λ bb, set_end (bb_end bb + needed_extra_bits) bb).

Definition xor_bit (value : Z) : B unit :=
  bb ← get;
  let index := bb_pos bb / 8 in
  byte ← vec_get index;
  vec_set index (Z.lxor byte (wrap 8 (Z.shiftl value (7 - Z.of_nat (bb_pos bb mod 8)))));;
  modify (λ bb, set_pos (bb_pos bb + 1) bb).

Definition write_bit (value : Z) : B unit :=
  assert_ ((value =? 0) || (value =? 1))%Z;;
  bb ← get;
  (if bb_end bb <? bb_pos bb + 1 then
     if bb_autoexpand bb then move_end 1 else panic
   else mret tt);;
  bb ← get;
  let index := bb_pos bb / 8 in
  let shift := (7 - Z.of_nat (bb_pos bb mod 8))%Z in
  let mask := Z.shiftl 1 shift in
  byte ← vec_get index;
  vec_set index (Z.land byte (not8 mask));;
  byte ← vec_get index;
  vec_set index (Z.lor byte (wrap 8 (Z.shiftl value shift)));;
  modify (λ bb, set_pos (bb_pos bb + 1) bb).

(** Replace [h] bits of byte [idx], [head_offset] bits from its top, by [bits_to_write]. *)
Definition write_byte_part (idx head_offset h : nat) (bits_to_write : Z) : B unit :=
  byte ← vec_get idx;
  let shift := Z.of_nat (8 - (head_offset + h)) in
  let mask := Z.shiftl (Z.shiftl 1 (Z.of_nat h) - 1) shift in
  vec_set idx (Z.lor (Z.land byte (not8 (wrap 8 mask))) (wrap 8 (Z.shiftl bits_to_write shift))).

(** Step 2 of [write_bits]: the [while remaining >= 8] loop. *)
Fixpoint write_full_bytes (fuel cur remaining : nat) (v : Z) : B (nat * nat) :=
  if 8 <=? remaining then
    match fuel with
    | O => panic
    | S fuel =>
        let byte_val := wrap 8 (Z.land (Z.shiftr v (Z.of_nat (remaining - 8))) 255) in
        vec_set (cur / 8) byte_val;;
        write_full_bytes fuel (cur + 8) (remaining - 8) v
    end
  else mret (cur, remaining).

(** Step 1 of [write_bits]: the bits up to the next byte boundary. *)
Definition write_head_bits (cur num_bits : nat) (v : Z) : B (nat * nat) :=
  let head_offset := cur mod 8 in
  if negb (head_offset =? 0) && (0 <? num_bits) then
    let h := num_bits `min` (8 - head_offset) in
    let bits_to_write :=
      Z.land (wrap 8 (Z.shiftr v (Z.of_nat (num_bits - h)))) (Z.shiftl 1 (Z.of_nat h) - 1) in
    write_byte_part (cur / 8) head_offset h bits_to_write;;
    mret (cur + h, num_bits - h)
  else mret (cur, num_bits).

(** The part of [write_bits] after the checks: bytes only, the cursor moves at the end. *)
Definition write_bits_raw (v : Z) (num_bits : nat) : B unit :=
  bb ← get;
  '(cur, remaining) ← write_head_bits (bb_pos bb) num_bits v;
  '(cur, remaining) ← write_full_bytes remaining cur remaining v;
  (if 0 <? remaining then
     let bits_to_write := Z.land (wrap 8 v) (Z.shiftl 1 (Z.of_nat remaining) - 1) in
     write_byte_part (cur / 8) (cur mod 8) remaining bits_to_write
   else mret tt);;
  modify (λ bb, set_pos (bb_pos bb + num_bits) bb).

Definition write_bits (value : Z) (num_bits : nat) : B unit :=
  assert_ (num_bits <=? 64);;
  assert_ ((num_bits =? 64) || (Z.shiftr value (Z.of_nat num_bits) =? 0)%Z);;
  bb ← get;
  (if bb_end bb <? bb_pos bb + num_bits then
     if bb_autoexpand bb then move_end num_bits else panic
   else mret tt);;
  let v := if num_bits =? 64 then value
           else Z.land value (Z.shiftl 1 (Z.of_nat num_bits) - 1) in
  write_bits_raw v num_bits.

Fixpoint write_zeroes_loop (fuel bits_remaining : nat) : B unit :=
  if bits_remaining =? 0 then mret tt
  else match fuel with
       | O => panic
       | S fuel =>
           let chunk_size := bits_remaining `min` 64 in
           write_bits 0 chunk_size;;
           write_zeroes_loop fuel (bits_remaining - chunk_size)
       end.
Definition write_zeroes (num_bits : nat) : B unit := write_zeroes_loop num_bits num_bits.

Fixpoint write_ones_loop (fuel bits_remaining : nat) : B unit :=
  if bits_remaining =? 0 then mret tt
  else match fuel with
       | O => panic
       | S fuel =>
           let chunk_size := bits_remaining `min` 64 in
           let val := Z.shiftr 0xFFFFFFFFFFFFFFFF (Z.of_nat (64 - chunk_size)) in
           write_bits val chunk_size;;
           write_ones_loop fuel (bits_remaining - chunk_size)
       end.
Definition write_ones (num_bits : nat) : B unit := write_ones_loop num_bits num_bits.

(** Run code on another buffer (a second [&mut BitBuffer]) and give both results back. *)
Definition on_buffer {A} (src : BitBuffer) (m : B A) : B (A * BitBuffer) := λ bb,
  match m src with
  | Ok a src' => Ok (a, src') bb
  | Err e _ => Err e bb
  | Panic => Panic
  end.

(** [self.copy_bits(src, num_bits)]; the state is [self], the result is [src] after the call. *)
Fixpoint copy_bits_loop (fuel : nat) (src : BitBuffer) (bits_remaining : nat) : B BitBuffer :=
  if bits_remaining =? 0 then mret src
  else match fuel with
       | O => panic
       | S fuel =>
           let bits_to_copy := bits_remaining `min` 64 in
           assert_ (bits_to_copy <=? get_len_remaining src);;
           '(ov, src) ← on_buffer src (read_bits bits_to_copy);
           v ← unwrap ov;
           write_bits v bits_to_copy;;
           copy_bits_loop fuel src (bits_remaining - bits_to_copy)
       end.
Definition copy_bits (src : BitBuffer) (num_bits : nat) : B BitBuffer :=
  copy_bits_loop num_bits src num_bits.

Fixpoint copy_bits_from_bitarr (buf : list Z) : B unit :=
  match buf with
  | [] => mret tt
  | bit :: buf =>
      assert_ ((bit =? 0) || (bit =? 1))%Z;;
      write_bit bit;;
      copy_bits_from_bitarr buf
  end.

(** * Seeking *)

Definition try_seek (offset : nat) : B (option unit) :=
  bb ← get;
  match checked_add (bb_start bb) offset with
  | None => mret None
  | Some abs =>
      if bb_end bb <? abs then mret None
      else modify (set_pos abs);; mret (Some tt)
  end.

Definition seek (offset : nat) : B unit := o ← try_seek offset; unwrap o.

Definition try_seek_rel (offset : Z) : B (option unit) :=
  bb ← get;
  match checked_add_signed (bb_pos bb) offset with
  | None => mret None
  | Some new_pos =>
      if (new_pos <? bb_start bb) || (bb_end bb <? new_pos) then mret None
      else modify (set_pos new_pos);; mret (Some tt)
  end.

Definition seek_rel (offset : Z) : B unit := o ← try_seek_rel offset; unwrap o.

Definition set_raw_start (s : nat) : B unit :=
  bb ← get;
  assert_ (s <=? bb_end bb);;
  assert_ (s <=? bb_pos bb);;
  modify (set_start s).

Definition set_raw_end (e : nat) : B unit :=
  bb ← get;
  assert_ (e <=? length (bb_buffer bb) * 8);;
  assert_ (bb_start bb <=? e);;
  assert_ (bb_pos bb <=? e);;
  modify (set_end e).

Definition set_raw_pos (p : nat) : B unit :=
  bb ← get;
  assert_ (bb_start bb <=? p);;
  assert_ (p <=? bb_end bb);;
  modify (set_pos p).

(** * Xor of a byte array *)

(** The inner loop of [xor_bytearr]: [n] bytes of [data] from [data_pos], big endian. *)
Fixpoint xor_data_bytes (n data_pos : nat) (data : list Z) (xor_data : Z) : B (Z * nat) :=
  match n with
  | O => mret (xor_data, data_pos)
  | S n =>
      d ← unwrap (data !! data_pos);
      xor_data_bytes n (data_pos + 1) data (Z.lor (wrap 64 (Z.shiftl xor_data 8)) d)
  end.

Fixpoint xor_bytearr_loop (fuel bits_remaining data_pos : nat) (data : list Z) : B (option unit) :=
  if bits_remaining =? 0 then mret (Some tt)
  else match fuel with
       | O => panic
       | S fuel =>
           let chunk_bits := bits_remaining `min` 64 in
           ov ← read_bits chunk_bits;
           match ov with
           | None => mret None
           | Some val =>
               '(xor_data, data_pos) ← xor_data_bytes (div_ceil chunk_bits 8) data_pos data 0;
               let xor_data := Z.shiftr xor_data (Z.of_nat ((8 - chunk_bits mod 8) mod 8)) in
               seek_rel (- Z.of_nat chunk_bits);;
               write_bits (Z.lxor val xor_data) chunk_bits;;
               xor_bytearr_loop fuel (bits_remaining - chunk_bits) data_pos data
           end
       end.
Definition xor_bytearr (data : list Z) (num_bits : nat) : B (option unit) :=
  xor_bytearr_loop num_bits num_bits 0 data.

(** * Constructors that write *)

(** A constructor that runs code on a fresh buffer. *)
Definition build (bb : BitBuffer) (m : B unit) : option BitBuffer :=
  match m bb with Ok _ bb => Some bb | _ => None end.

Fixpoint write_bitstr (s : string) : B unit :=
  match s with
  | EmptyString => mret tt
  | String c s =>
      (if Ascii.eqb c "0"%char then write_bit 0
       else if Ascii.eqb c "1"%char then write_bit 1
       else panic);;
      write_bitstr s
  end.

Definition from_bitstr (bitstr : string) : option BitBuffer :=
  build (new (String.length bitstr))
    (write_bitstr bitstr;; modify (λ bb, set_pos (bb_start bb) bb)).

Definition from_bitarr (data : list Z) : option BitBuffer :=
  build (new (length data))
    (copy_bits_from_bitarr data;; modify (λ bb, set_pos (bb_start bb) bb)).

Definition from_bitbuffer (b : BitBuffer) : option BitBuffer :=
  let start_byte := bb_start b / 8 in
  let end_byte := div_ceil (bb_end b) 8 in
  if decide (start_byte ≤ end_byte ≤ length (bb_buffer b)) then
    let start := bb_start b mod 8 in
    Some (mkBitBuffer (slice start_byte (end_byte - start_byte) (bb_buffer b))
            start start (start + get_len b) false)
  else None.

Definition from_bitbuffer_pos (b : BitBuffer) : option BitBuffer :=
  let start_byte := bb_pos b / 8 in
  let end_byte := div_ceil (bb_end b) 8 in
  if decide (start_byte ≤ end_byte ≤ length (bb_buffer b)) then
    let start := bb_pos b mod 8 in
    Some (mkBitBuffer (slice start_byte (end_byte - start_byte) (bb_buffer b))
            start start (start + get_len_remaining b) false)
  else None.

(** * Whole-window conversions *)

Fixpoint to_bitstr_loop (n pos : nat) : B string :=
  match n with
  | O => mret EmptyString
  | S n =>
      bit ← read_bit_at_unchecked pos;
      s ← to_bitstr_loop n (pos + 1);
      mret (String (if (bit =? 1)%Z then "1" else "0")%char s)
  end.
Definition to_bitstr : B string :=
  bb ← get; to_bitstr_loop (get_len bb) (bb_start bb).

Fixpoint into_bitvec_loop (n i : nat) : B (list Z) :=
  match n with
  | O => mret []
  | S n =>
      bit ← read_bit_at_unchecked i;
      l ← into_bitvec_loop n (i + 1);
      mret (bit :: l)
  end.
Definition into_bitvec : B (list Z) :=
  bb ← get; into_bitvec_loop (get_len bb) 0.

(** Run buffer code that must not fail. *)
Definition exec {A} (m : B A) (bb : BitBuffer) : option (A * BitBuffer) :=
  match m bb with Ok a bb => Some (a, bb) | _ => None end.
