(* ===== verification/BitBufferSpec.v ===== *)
(** What the bit buffer promises: it is a list of bits with a window and a cursor.

    [abs] maps a [BitBuffer] to that abstract state; the lemmas below show
    that every reader, writer and seek of [BitBuffer.v] commutes with it. *)
From S2P Require Import Prelude Bits Core BitBuffer.

(** * The bits of a byte vector *)

Fixpoint buf_bits (buf : list Z) : list bool :=
  match buf with
  | [] => []
  | b :: buf => bits_of_Z 8 b ++ buf_bits buf
  end.

(** * Abstract state *)

Record abuf : Type := mkAbuf {
  a_bits : list bool;
  a_start : nat;
  a_pos : nat;
  a_auto : bool
}.

Definition abs (bb : BitBuffer) : abuf :=
  mkAbuf (take (bb_end bb) (buf_bits (bb_buffer bb))) (bb_start bb) (bb_pos bb)
    (bb_autoexpand bb).

Definition a_remaining (a : abuf) : list bool := drop (a_pos a) (a_bits a).
Definition a_window (a : abuf) : list bool := drop (a_start a) (a_bits a).
Definition a_write (bs : list bool) (a : abuf) : abuf :=
  mkAbuf (splice (a_pos a) bs (a_bits a)) (a_start a) (a_pos a + length bs) (a_auto a).
Definition a_seek (p : nat) (a : abuf) : abuf :=
  mkAbuf (a_bits a) (a_start a) p (a_auto a).

Definition remaining (bb : BitBuffer) : list bool := a_remaining (abs bb).
Definition window (bb : BitBuffer) : list bool := a_window (abs bb).

(** * Invariant *)

Record wf (bb : BitBuffer) : Prop := {
  wf_bytes : Forall (is_u 8) (bb_buffer bb);
  wf_start : bb_start bb ≤ bb_pos bb;
  wf_pos : bb_pos bb ≤ bb_end bb;
  wf_end : bb_end bb ≤ 8 * length (bb_buffer bb);
  wf_usize : (Z.of_nat (bb_end bb) ≤ usize_max)%Z
}.

(** There is room for [n] bits at the cursor: inside the window, or at the end
    of an auto-expanding buffer. *)
Definition can_write (bb : BitBuffer) (n : nat) : Prop :=
  (bb_pos bb + n ≤ bb_end bb ∨ (bb_autoexpand bb = true ∧ bb_pos bb = bb_end bb)) ∧
  (Z.of_nat (bb_pos bb + n) ≤ usize_max)%Z.

Definition advance (n : nat) (bb : BitBuffer) : BitBuffer := set_pos (bb_pos bb + n) bb.

(** * Facts about [buf_bits] *)

Lemma length_buf_bits buf : length (buf_bits buf) = 8 * length buf.
Proof. induction buf as [|b buf IH]; [done|]. simpl. lia. Qed.

Lemma buf_bits_app b1 b2 : buf_bits (b1 ++ b2) = buf_bits b1 ++ buf_bits b2.
Proof. induction b1 as [|b b1 IH]; [done|]. simpl. by rewrite IH. Qed.

Lemma buf_bits_zeroes n : buf_bits (replicate n 0%Z) = replicate (8 * n) false.
Proof.
  induction n as [|n IH]; [done|].
  replace (8 * S n) with (8 + 8 * n) by lia. rewrite replicate_add, <-IH. done.
Qed.

Lemma slice_buf_bits buf q h t b : buf !! q = Some b → h + t ≤ 8 →
  slice (8 * q + h) t (buf_bits buf) = slice h t (bits_of_Z 8 b).
Proof.
  revert q. induction buf as [|b' buf IH]; intros q Hq Ht; [done|].
  cbn [buf_bits]. destruct q as [|q].
  - injection Hq as ->. rewrite Nat.mul_0_r, Nat.add_0_l.
    apply slice_app_l. rewrite length_bits_of_Z. lia.
  - rewrite slice_app_r by (rewrite length_bits_of_Z; lia). rewrite length_bits_of_Z.
    rewrite <-(IH q) by done. f_equal. lia.
Qed.

(** The same, for a position given as a bit index. *)
Lemma slice_buf_bits_at buf p t b : buf !! (p / 8) = Some b → p mod 8 + t ≤ 8 →
  slice p t (buf_bits buf) = slice (p mod 8) t (bits_of_Z 8 b).
Proof.
  intros. rewrite <-(slice_buf_bits buf (p / 8)) by done. f_equal.
  apply Nat.div_mod_eq.
Qed.

Lemma buf_bits_insert buf q b : q < length buf →
  buf_bits (<[q:=b]> buf) = splice (8 * q) (bits_of_Z 8 b) (buf_bits buf).
Proof.
  revert q. induction buf as [|b' buf IH]; intros [|q] Hq; simpl in Hq; try lia.
  - done.
  - change (<[S q:=b]> (b' :: buf)) with (b' :: <[q:=b]> buf).
    cbn [buf_bits]. rewrite IH by lia. unfold splice.
    rewrite take_app, drop_app, !length_bits_of_Z.
    rewrite (take_ge (bits_of_Z 8 b')) by (rewrite length_bits_of_Z; lia).
    rewrite (drop_ge (bits_of_Z 8 b')) by (rewrite length_bits_of_Z; lia).
    replace (8 * S q - 8) with (8 * q) by lia.
    replace (8 * S q + 8 - 8) with (8 * q + 8) by lia.
    by rewrite <-app_assoc.
Qed.

Lemma length_abs bb : wf bb → length (a_bits (abs bb)) = bb_end bb.
Proof. intros [_ _ _ He _]. simpl. rewrite length_take, length_buf_bits. lia. Qed.

Lemma length_remaining bb : wf bb → length (remaining bb) = get_len_remaining bb.
Proof.
  intros Hwf. unfold remaining, a_remaining. rewrite length_drop, length_abs by done. done.
Qed.

Lemma length_window bb : wf bb → length (window bb) = get_len bb.
Proof.
  intros Hwf. unfold window, a_window. rewrite length_drop, length_abs by done. done.
Qed.

Lemma byte_in_range bb p : wf bb → p < bb_end bb →
  ∃ b, bb_buffer bb !! (p / 8) = Some b ∧ is_u 8 b.
Proof.
  intros [Hb _ _ He _] Hp.
  destruct (lookup_lt_is_Some_2 (bb_buffer bb) (p / 8)) as [b Hlk].
  { apply Nat.Div0.div_lt_upper_bound. lia. }
  exists b. split; [done|]. by eapply Forall_lookup_1 in Hb.
Qed.

(** * Raw readers *)

Lemma vec_get_ok bb i b : bb_buffer bb !! i = Some b → vec_get i bb = Ok b bb.
Proof. unfold vec_get. by intros ->. Qed.

Lemma read_full_bytes_ok bb fuel p r done_ :
  wf bb → p + r ≤ bb_end bb → (p mod 8 = 0 ∨ r < 8) → r / 8 ≤ fuel →
  length done_ + r ≤ 64 →
  read_full_bytes fuel p r (Z_of_bits done_) bb =
    Ok (p + 8 * (r / 8), r mod 8,
        Z_of_bits (done_ ++ slice p (8 * (r / 8)) (buf_bits (bb_buffer bb)))) bb.
Proof.
  intros Hwf. revert p r done_. induction fuel as [|fuel IH]; intros p r done_ Hp Hal Hf Hlen.
  - assert (r < 8) by (apply Nat.div_small_iff; lia).
    cbn [read_full_bytes]. destruct (Nat.leb_spec 8 r); [lia|].
    rewrite Nat.div_small, Nat.mod_small by lia.
    rewrite Nat.mul_0_r, Nat.add_0_r, slice_0, app_nil_r. done.
  - cbn [read_full_bytes]. destruct (Nat.leb_spec 8 r).
    + destruct Hal as [Hal|]; [|lia].
      destruct (byte_in_range bb p) as (b & Hb & Hu); [done|lia|].
      erewrite bind_ok by (by apply vec_get_ok).
      assert (slice p 8 (buf_bits (bb_buffer bb)) = bits_of_Z 8 b) as Hsl.
      { rewrite (slice_buf_bits_at _ _ _ b) by (done || lia). rewrite Hal.
        rewrite <-(length_bits_of_Z 8 b) at 1. apply slice_all. }
      replace b with (Z_of_bits (bits_of_Z 8 b)) by (by apply Z_of_bits_of_Z_small).
      replace 8%Z with (Z.of_nat (length (bits_of_Z 8 b))) by (by rewrite length_bits_of_Z).
      rewrite shift_in_bits by (rewrite length_bits_of_Z; lia).
      assert (r / 8 = S ((r - 8) / 8)) as Hdiv.
      { replace r with (r - 8 + 1 * 8) at 1 by lia. rewrite Nat.div_add by lia. lia. }
      assert (r mod 8 = (r - 8) mod 8) as Hmod.
      { replace r with (r - 8 + 1 * 8) at 1 by lia. by rewrite Nat.Div0.mod_add. }
      rewrite IH.
      * rewrite <-app_assoc, <-Hsl, <-slice_app_split, Hdiv, Hmod.
        generalize ((r - 8) / 8). intros k.
        replace (8 + 8 * k) with (8 * S k) by lia.
        by replace (p + 8 + 8 * k) with (p + 8 * S k) by lia.
      * lia.
      * left. replace (p + 8) with (p + 1 * 8) by lia. by rewrite Nat.Div0.mod_add.
      * lia.
      * rewrite length_app, length_bits_of_Z. lia.
    + rewrite Nat.div_small, Nat.mod_small by lia.
      rewrite Nat.mul_0_r, Nat.add_0_r, slice_0, app_nil_r. done.
Qed.

Lemma read_tail_bits_ok n i p byte done_ :
  p mod 8 + i + n ≤ 8 → length done_ + n ≤ 64 →
  read_tail_bits n i p byte (Z_of_bits done_) =
    Z_of_bits (done_ ++ slice (p mod 8 + i) n (bits_of_Z 8 byte)).
Proof.
  revert i done_. induction n as [|n IH]; intros i done_ Hi Hlen.
  - by rewrite slice_0, app_nil_r.
  - cbn [read_tail_bits].
    assert (Z.land (Z.shiftr byte (7 - Z.of_nat (p mod 8 + i))) 1 =
            Z_of_bits (slice (p mod 8 + i) 1 (bits_of_Z 8 byte))) as ->.
    { rewrite <-(shift_mask_slice _ 1 8) by lia. f_equal. f_equal. lia. }
    assert (length (slice (p mod 8 + i) 1 (bits_of_Z 8 byte)) = 1) as Hl1.
    { apply length_slice. rewrite length_bits_of_Z. lia. }
    replace 1%Z with (Z.of_nat (length (slice (p mod 8 + i) 1 (bits_of_Z 8 byte)))) at 1
      by (by rewrite Hl1).
    rewrite shift_in_bits by lia. rewrite IH by (rewrite ?length_app; lia).
    rewrite <-app_assoc. do 2 f_equal.
    replace (p mod 8 + (i + 1)) with (p mod 8 + i + 1) by lia.
    by rewrite <-slice_app_split.
Qed.

(** After [t] head bits the cursor is aligned, or the rest stays inside one byte. *)
Definition head_split (p n t : nat) : Prop :=
  t ≤ n ∧ ((p + t) mod 8 = 0 ∨ n - t < 8 ∧ (p + t) mod 8 + (n - t) ≤ 8).

Lemma head_split_none p n : p mod 8 = 0 ∨ n = 0 → head_split p n 0.
Proof.
  intros H. unfold head_split. rewrite Nat.add_0_r, Nat.sub_0_r. split; [lia|].
  pose proof (Nat.mod_upper_bound p 8 ltac:(lia)). lia.
Qed.

Lemma head_split_some p n : head_split p n ((8 - p mod 8) `min` n).
Proof.
  pose proof (Nat.mod_upper_bound p 8 ltac:(lia)). split; [lia|].
  destruct (decide (8 - p mod 8 ≤ n)).
  - left. rewrite Nat.min_l by lia. rewrite (Nat.div_mod_eq p 8) at 1.
    replace (8 * (p / 8) + p mod 8 + (8 - p mod 8)) with (0 + (p / 8 + 1) * 8) by lia.
    by rewrite Nat.Div0.mod_add.
  - right. rewrite Nat.min_r by lia.
    pose proof (Nat.mod_upper_bound (p + n) 8 ltac:(lia)). lia.
Qed.

(** After the full bytes, the tail fits in the byte the cursor is in. *)
Lemma head_split_tail p n t : head_split p n t →
  (p + t + 8 * ((n - t) / 8)) mod 8 + (n - t) mod 8 ≤ 8.
Proof.
  intros [Ht Hal].
  replace (p + t + 8 * ((n - t) / 8)) with (p + t + ((n - t) / 8) * 8) by lia.
  rewrite Nat.Div0.mod_add. destruct Hal as [->|[? ?]].
  - pose proof (Nat.mod_upper_bound (n - t) 8 ltac:(lia)). lia.
  - rewrite (Nat.mod_small (n - t)) by lia. lia.
Qed.

Lemma read_head_bits_ok bb p n : wf bb → p + n ≤ bb_end bb →
  ∃ t, head_split p n t ∧
    read_head_bits p n bb = Ok (p + t, n - t, Z_of_bits (slice p t (buf_bits (bb_buffer bb)))) bb.
Proof.
  intros Hwf Hp. unfold read_head_bits.
  destruct (Nat.eqb_spec (p mod 8) 0), (Nat.ltb_spec 0 n); cbn [negb andb];
    try (exists 0; rewrite Nat.add_0_r, Nat.sub_0_r; split; [apply head_split_none; lia|done]).
  exists ((8 - p mod 8) `min` n). split; [apply head_split_some|].
  pose proof (Nat.mod_upper_bound p 8 ltac:(lia)).
  destruct (byte_in_range bb p) as (b & Hb & Hu); [done|lia|].
  erewrite bind_ok by (by apply vec_get_ok). unfold mret, M_ret. do 2 f_equal.
  rewrite (shift_mask_slice (p mod 8) _ 8) by lia.
  by rewrite <-(slice_buf_bits_at (bb_buffer bb)) by (done || lia).
Qed.

(** The raw reader returns the integer its [n] bits denote. *)
Lemma read_bits_at_unchecked_ok bb p n : wf bb → p + n ≤ bb_end bb → n ≤ 64 →
  read_bits_at_unchecked p n bb = Ok (Z_of_bits (slice p n (a_bits (abs bb)))) bb.
Proof.
  intros Hwf Hp Hn. unfold read_bits_at_unchecked. simpl a_bits.
  rewrite slice_take by lia. pose proof (length_buf_bits (bb_buffer bb)) as Hll.
  pose proof (wf_end bb Hwf). set (l := buf_bits (bb_buffer bb)) in *.
  destruct (read_head_bits_ok bb p n) as (t & Hsp & Hhead); [done..|].
  pose proof (head_split_tail p n t Hsp) as Htail. destruct Hsp as [Ht Hal].
  erewrite bind_ok by exact Hhead. cbv beta iota.
  erewrite bind_ok.
  2: { apply read_full_bytes_ok; [done|lia|tauto| |].
       - apply Nat.Div0.div_le_upper_bound. lia.
       - fold l. rewrite length_slice; lia. }
  fold l. rewrite <-slice_app_split. cbv beta iota.
  pose proof (Nat.div_mod_eq (n - t) 8) as Hdm.
  destruct (Nat.ltb_spec 0 ((n - t) mod 8)).
  - destruct (byte_in_range bb (p + t + 8 * ((n - t) / 8))) as (b & Hb & Hu); [done|lia|].
    erewrite bind_ok by (by apply vec_get_ok). unfold mret, M_ret. f_equal.
    rewrite read_tail_bits_ok by (rewrite ?length_slice; lia).
    rewrite Nat.add_0_r, <-(slice_buf_bits_at (bb_buffer bb)) by (done || lia). fold l.
    rewrite <-(Nat.add_assoc p t), <-slice_app_split. do 2 f_equal. lia.
  - unfold mret, M_ret. do 3 f_equal. lia.
Qed.

(** * Raw writers *)

(** [bb'] is [bb] with the bits [bs] written over its bytes at bit [p]. *)
Definition wrote_raw (p : nat) (bs : list bool) (bb bb' : BitBuffer) : Prop :=
  ∃ buf', bb' = set_buffer buf' bb ∧ length buf' = length (bb_buffer bb) ∧
    Forall (is_u 8) buf' ∧ buf_bits buf' = splice p bs (buf_bits (bb_buffer bb)).

Definition bytes_ok (bb : BitBuffer) : Prop := Forall (is_u 8) (bb_buffer bb).

Lemma wrote_raw_nil p bb : bytes_ok bb → wrote_raw p [] bb bb.
Proof. intros Hb. exists (bb_buffer bb). rewrite splice_nil. by destruct bb. Qed.

Lemma wrote_raw_bytes_ok p bs bb bb' : wrote_raw p bs bb bb' → bytes_ok bb'.
Proof. by intros (buf' & -> & _ & Hb & _). Qed.

Lemma wrote_raw_length p bs bb bb' :
  wrote_raw p bs bb bb' → length (bb_buffer bb') = length (bb_buffer bb).
Proof. by intros (buf' & -> & Hl & _). Qed.

Lemma wrote_raw_app p bs1 bs2 bb bb1 bb2 : p ≤ 8 * length (bb_buffer bb) →
  wrote_raw p bs1 bb bb1 → wrote_raw (p + length bs1) bs2 bb1 bb2 →
  wrote_raw p (bs1 ++ bs2) bb bb2.
Proof.
  intros Hp (buf1 & -> & Hl1 & Hb1 & He1) (buf2 & -> & Hl2 & Hb2 & He2).
  exists buf2. split; [done|]. simpl in *. split; [congruence|]. split; [done|].
  rewrite He2, He1. apply splice_splice_next. by rewrite length_buf_bits.
Qed.

Lemma testbit_mask h s j : (0 ≤ j)%Z →
  Z.testbit (Z.shiftl (Z.shiftl 1 (Z.of_nat h) - 1) (Z.of_nat s)) j =
    bool_decide (Z.of_nat s ≤ j < Z.of_nat (s + h))%Z.
Proof.
  intros Hj. rewrite ones_eq, Z.shiftl_spec, Z.testbit_ones by lia.
  destruct (Z.leb_spec 0 (j - Z.of_nat s)), (Z.ltb_spec (j - Z.of_nat s) (Z.of_nat h));
    case_bool_decide; lia || done.
Qed.

Lemma testbit_not8 m j : (0 ≤ j < 8)%Z → Z.testbit (not8 m) j = negb (Z.testbit m j).
Proof.
  intros. unfold not8. change 255%Z with (Z.ones 8).
  rewrite Z.lxor_spec, Z.ones_spec_low by lia. by destruct (Z.testbit m j).
Qed.

(** The masked update of one byte replaces [h] of its bits. *)
Lemma byte_part_bits h0 h byte w : h0 + h ≤ 8 → is_u (Z.of_nat h) w →
  let shift := Z.of_nat (8 - (h0 + h)) in
  let mask := Z.shiftl (Z.shiftl 1 (Z.of_nat h) - 1) shift in
  bits_of_Z 8 (Z.lor (Z.land byte (not8 (wrap 8 mask))) (wrap 8 (Z.shiftl w shift))) =
    splice h0 (bits_of_Z h w) (bits_of_Z 8 byte).
Proof.
  intros Hh Hw shift mask. apply list_eq. intros i.
  rewrite lookup_splice by (rewrite length_bits_of_Z; lia).
  rewrite !lookup_bits_of_Z, !length_bits_of_Z.
  destruct (decide (i < 8)); [|by rewrite decide_False by lia].
  remember (Z.of_nat (8 - 1 - i)) as j eqn:Hj. assert (0 ≤ j < 8)%Z by lia.
  rewrite Z.lor_spec, Z.land_spec, testbit_not8, !wrap_testbit by lia.
  rewrite !decide_True by lia. unfold mask, shift. rewrite testbit_mask, Z.shiftl_spec by lia.
  case_decide.
  - rewrite bool_decide_true by lia. rewrite decide_True by lia.
    cbn [negb]. rewrite andb_false_r, orb_false_l. do 2 f_equal. lia.
  - rewrite bool_decide_false by lia. cbn [negb]. rewrite andb_true_r. f_equal.
    destruct (decide (j < Z.of_nat (8 - (h0 + h)))%Z).
    + by rewrite (Z.testbit_neg_r w), orb_false_r by lia.
    + by rewrite (testbit_high (Z.of_nat h) w), orb_false_r by (done || lia).
Qed.

Lemma vec_set_ok bb i b : bytes_ok bb → i < length (bb_buffer bb) → is_u 8 b →
  ∃ bb', vec_set i b bb = Ok tt bb' ∧ wrote_raw (8 * i) (bits_of_Z 8 b) bb bb'.
Proof.
  intros Hb Hi Hu. unfold vec_set. rewrite decide_True by done. eexists. split; [done|].
  exists (<[i:=b]> (bb_buffer bb)). split; [done|]. rewrite length_insert. split; [done|].
  split; [by apply Forall_insert|]. by apply buf_bits_insert.
Qed.

Lemma write_byte_part_ok bb idx h0 h w : bytes_ok bb → idx < length (bb_buffer bb) →
  h0 + h ≤ 8 → is_u (Z.of_nat h) w →
  ∃ bb', write_byte_part idx h0 h w bb = Ok tt bb' ∧
    wrote_raw (8 * idx + h0) (bits_of_Z h w) bb bb'.
Proof.
  intros Hb Hi Hh Hw. destruct (lookup_lt_is_Some_2 _ _ Hi) as [byte Hbyte].
  assert (is_u 8 byte) as Hbu by (by eapply Forall_lookup_1 in Hb).
  unfold write_byte_part. erewrite bind_ok by (by apply vec_get_ok).
  edestruct (vec_set_ok bb idx) as (bb' & Heq & buf' & -> & Hl & Hb' & Hbits); [done..| |].
  2: { eexists. split; [exact Heq|]. exists buf'. split; [done|]. split; [done|].
       split; [done|]. rewrite Hbits, byte_part_bits by done. clear Heq Hbits.
       assert (bits_of_Z 8 byte = slice (8 * idx) 8 (buf_bits (bb_buffer bb))) as Hsl.
       { rewrite <-(Nat.add_0_r (8 * idx)), (slice_buf_bits _ _ 0 8 byte) by (done || lia).
         rewrite <-(length_bits_of_Z 8 byte) at 2. by rewrite slice_all. }
       assert (length (splice h0 (bits_of_Z h w) (bits_of_Z 8 byte)) = 8) as Hl8.
       { rewrite length_splice; rewrite !length_bits_of_Z; lia. }
       apply list_eq. intros i. pose proof (length_buf_bits (bb_buffer bb)).
       rewrite lookup_splice, Hl8 by lia. rewrite !lookup_splice, !length_bits_of_Z
         by (rewrite ?length_bits_of_Z; lia).
       rewrite Hsl, lookup_slice.
       repeat (case_decide; try lia); try done; f_equal; lia. }
  apply is_u_lor; [lia| |by apply wrap_is_u].
  apply is_u_land; [done|]. unfold not8. apply Z.lxor_nonneg.
  pose proof (wrap_is_u 8 (Z.shiftl (Z.shiftl 1 (Z.of_nat h) - 1) (Z.of_nat (8 - (h0 + h))))).
  unfold is_u in *. lia.
Qed.

Lemma bits_of_Z_land_ones h v : bits_of_Z h (Z.land v (Z.shiftl 1 (Z.of_nat h) - 1)) = bits_of_Z h v.
Proof. by rewrite ones_eq, land_ones_wrap, bits_of_Z_wrap by lia. Qed.

Lemma bits_of_Z_wrap_le h w v : (Z.of_nat h ≤ w)%Z → bits_of_Z h (wrap w v) = bits_of_Z h v.
Proof.
  intros. apply bits_of_Z_ext. intros i Hi. rewrite wrap_testbit by lia.
  by rewrite decide_True by lia.
Qed.

Lemma write_head_bits_ok bb p n v : bytes_ok bb → p + n ≤ 8 * length (bb_buffer bb) →
  ∃ t bb', head_split p n t ∧ write_head_bits p n v bb = Ok (p + t, n - t) bb' ∧
    wrote_raw p (bits_of_Z t (Z.shiftr v (Z.of_nat (n - t)))) bb bb'.
Proof.
  intros Hb Hp. unfold write_head_bits.
  destruct (Nat.eqb_spec (p mod 8) 0), (Nat.ltb_spec 0 n); cbn [negb andb];
    try (exists 0, bb; rewrite Nat.add_0_r, Nat.sub_0_r; split; [apply head_split_none; lia|];
         split; [done|]; by apply wrote_raw_nil).
  pose proof (Nat.mod_upper_bound p 8 ltac:(lia)) as Hm.
  rewrite (Nat.min_comm n). set (t := (8 - p mod 8) `min` n).
  destruct (write_byte_part_ok bb (p / 8) (p mod 8) t
    (Z.land (wrap 8 (Z.shiftr v (Z.of_nat (n - t)))) (Z.shiftl 1 (Z.of_nat t) - 1)))
    as (bb' & Heq & Hw); [done| |lia| |].
  { apply Nat.Div0.div_lt_upper_bound. lia. }
  { rewrite ones_eq, land_ones_wrap by lia. apply wrap_is_u. lia. }
  exists t, bb'. split; [apply head_split_some|].
  erewrite bind_ok by exact Heq. split; [done|].
  rewrite <-Nat.div_mod_eq in Hw.
  by rewrite bits_of_Z_land_ones, bits_of_Z_wrap_le in Hw by lia.
Qed.

Lemma write_full_bytes_ok bb fuel p r v : bytes_ok bb → p + r ≤ 8 * length (bb_buffer bb) →
  (p mod 8 = 0 ∨ r < 8) → r / 8 ≤ fuel →
  ∃ bb', write_full_bytes fuel p r v bb = Ok (p + 8 * (r / 8), r mod 8) bb' ∧
    wrote_raw p (bits_of_Z (8 * (r / 8)) (Z.shiftr v (Z.of_nat (r mod 8)))) bb bb'.
Proof.
  revert bb p r. induction fuel as [|fuel IH]; intros bb p r Hb Hp Hal Hf;
    cbn [write_full_bytes]; destruct (Nat.leb_spec 8 r) as [Hr|Hr].
  - assert (r / 8 = 0) as H0 by lia. apply Nat.div_small_iff in H0; lia.
  - exists bb. rewrite Nat.div_small, Nat.mod_small, Nat.mul_0_r, Nat.add_0_r by lia.
    split; [done|]. by apply wrote_raw_nil.
  - destruct Hal as [Hal|]; [|lia].
    assert (r / 8 = S ((r - 8) / 8)) as Hdiv.
    { replace r with (r - 8 + 1 * 8) at 1 by lia. rewrite Nat.div_add by lia. lia. }
    assert (r mod 8 = (r - 8) mod 8) as Hmod.
    { replace r with (r - 8 + 1 * 8) at 1 by lia. by rewrite Nat.Div0.mod_add. }
    destruct (vec_set_ok bb (p / 8)
      (wrap 8 (Z.land (Z.shiftr v (Z.of_nat (r - 8))) 255))) as (bb1 & Heq1 & Hw1);
      [done|apply Nat.Div0.div_lt_upper_bound; lia|by apply wrap_is_u|].
    change 255%Z with (Z.shiftl 1 (Z.of_nat 8) - 1)%Z in Hw1.
    rewrite bits_of_Z_wrap_le, bits_of_Z_land_ones in Hw1 by lia.
    replace (8 * (p / 8)) with p in Hw1
      by (pose proof (Nat.div_mod_eq p 8); lia).
    destruct (IH bb1 (p + 8) (r - 8)) as (bb2 & Heq2 & Hw2).
    + by eapply wrote_raw_bytes_ok.
    + apply wrote_raw_length in Hw1. lia.
    + left. replace (p + 8) with (p + 1 * 8) by lia. by rewrite Nat.Div0.mod_add.
    + lia.
    + exists bb2. erewrite bind_ok by exact Heq1. rewrite Heq2, <-Hmod. split.
      { do 2 f_equal. lia. }
      rewrite Hdiv. replace (8 * S ((r - 8) / 8)) with (8 + 8 * ((r - 8) / 8)) by lia.
      rewrite bits_of_Z_app. eapply wrote_raw_app; [lia| |by rewrite length_bits_of_Z, Hmod].
      rewrite Z.shiftr_shiftr by lia. replace (Z.of_nat (r mod 8) + Z.of_nat (8 * ((r - 8) / 8)))%Z
        with (Z.of_nat (r - 8)); [done|]. pose proof (Nat.div_mod_eq (r - 8) 8). lia.
  - exists bb. rewrite Nat.div_small, Nat.mod_small, Nat.mul_0_r, Nat.add_0_r by lia.
    split; [done|]. by apply wrote_raw_nil.
Qed.

Lemma write_bits_raw_ok bb v n : bytes_ok bb → bb_pos bb + n ≤ 8 * length (bb_buffer bb) →
  ∃ bb', write_bits_raw v n bb = Ok tt (advance n bb') ∧
    wrote_raw (bb_pos bb) (bits_of_Z n v) bb bb'.
Proof.
  intros Hb Hp. unfold write_bits_raw.
  erewrite (bind_ok get) by done. set (p := bb_pos bb) in *.
  destruct (write_head_bits_ok bb p n v) as (t & bb1 & Hsp & Heq1 & Hw1); [done..|].
  pose proof (head_split_tail p n t Hsp) as Htail. destruct Hsp as [Ht Hal].
  erewrite bind_ok by exact Heq1. cbv beta iota.
  pose proof (wrote_raw_bytes_ok _ _ _ _ Hw1) as Hb1.
  pose proof (wrote_raw_length _ _ _ _ Hw1) as Hl1.
  destruct (write_full_bytes_ok bb1 (n - t) (p + t) (n - t) v) as (bb2 & Heq2 & Hw2);
    [done|lia|tauto|apply Nat.Div0.div_le_upper_bound; lia|].
  erewrite bind_ok by exact Heq2. cbv beta iota.
  pose proof (wrote_raw_bytes_ok _ _ _ _ Hw2) as Hb2.
  pose proof (wrote_raw_length _ _ _ _ Hw2) as Hl2.
  pose proof (Nat.div_mod_eq (n - t) 8) as Hdm. set (r := (n - t) mod 8) in *.
  set (q := p + t + 8 * ((n - t) / 8)) in *.
  assert (∃ bb3, (if 0 <? r then
     write_byte_part (q / 8) (q mod 8) r (Z.land (wrap 8 v) (Z.shiftl 1 (Z.of_nat r) - 1))
   else mret tt) bb2 = Ok tt bb3 ∧ wrote_raw q (bits_of_Z r v) bb2 bb3) as (bb3 & Heq3 & Hw3).
  { destruct (Nat.ltb_spec 0 r).
    - destruct (write_byte_part_ok bb2 (q / 8) (q mod 8) r
        (Z.land (wrap 8 v) (Z.shiftl 1 (Z.of_nat r) - 1))) as (bb3 & Heq & Hw); [done| |lia| |].
      + apply Nat.Div0.div_lt_upper_bound. lia.
      + rewrite ones_eq, land_ones_wrap by lia. apply wrap_is_u. lia.
      + exists bb3. split; [done|]. rewrite <-Nat.div_mod_eq in Hw.
        by rewrite bits_of_Z_land_ones, bits_of_Z_wrap_le in Hw by lia.
    - exists bb2. split; [done|]. replace r with 0 by lia. by apply wrote_raw_nil. }
  exists bb3. erewrite bind_ok by exact Heq3. split.
  { unfold modify, advance.
    destruct Hw1 as (? & -> & _), Hw2 as (? & -> & _), Hw3 as (? & -> & _). done. }
  replace n with (t + (n - t)) at 1 by lia. rewrite bits_of_Z_app.
  rewrite Hdm, bits_of_Z_app. eapply wrote_raw_app; [lia| |].
  { by rewrite <-Hdm. }
  rewrite length_bits_of_Z. eapply wrote_raw_app; [lia|exact Hw2|].
  by rewrite length_bits_of_Z.
Qed.

(** * Invariant and abstraction of the state changes *)

#[export] Hint Resolve wf_bytes wf_start wf_pos wf_end wf_usize : core.

Lemma abs_advance bb n : abs (advance n bb) = a_seek (bb_pos bb + n) (abs bb).
Proof. done. Qed.

Lemma wf_set_pos bb p : wf bb → bb_start bb ≤ p ≤ bb_end bb → wf (set_pos p bb).
Proof. intros [] ?. by constructor; simpl; lia || done. Qed.

Lemma wf_advance bb n : wf bb → n ≤ get_len_remaining bb → wf (advance n bb).
Proof.
  intros Hwf Hn. apply wf_set_pos; [done|]. unfold get_len_remaining in Hn.
  destruct Hwf. lia.
Qed.

Lemma remaining_advance bb n : remaining (advance n bb) = drop n (remaining bb).
Proof. unfold remaining, a_remaining. simpl. by rewrite drop_drop. Qed.

Lemma take_splice_end {A} p (xs l : list A) : p ≤ length l →
  take (p + length xs) (splice p xs l) = take p l ++ xs.
Proof.
  intros. unfold splice. rewrite app_assoc. rewrite take_app_le, take_ge; [done| |];
    rewrite length_app, length_take; lia.
Qed.

(** A raw write inside the window, seen on the abstract state. *)
Lemma wrote_raw_abs bb bs bb' : wf bb → bb_pos bb + length bs ≤ bb_end bb →
  wrote_raw (bb_pos bb) bs bb bb' →
  wf (advance (length bs) bb') ∧ abs (advance (length bs) bb') = a_write bs (abs bb).
Proof.
  intros [Hb Hs Hp He Hu] Hn (buf' & -> & Hl & Hb' & Hbits). split.
  { constructor; simpl; try done; lia. }
  unfold abs, a_write, advance. simpl. f_equal. rewrite Hbits.
  apply take_splice; rewrite ?length_buf_bits; lia.
Qed.

Lemma move_end_ok bb n : wf bb → (Z.of_nat (bb_end bb + n) ≤ usize_max)%Z →
  ∃ bb', move_end n bb = Ok tt bb' ∧ wf bb' ∧ bb_end bb' = bb_end bb + n ∧
    bb_start bb' = bb_start bb ∧ bb_pos bb' = bb_pos bb ∧ bb_autoexpand bb' = bb_autoexpand bb ∧
    take (bb_end bb) (buf_bits (bb_buffer bb')) = a_bits (abs bb).
Proof.
  intros [Hb Hs Hp He Hu] Hn. unfold move_end. erewrite (bind_ok get) by done.
  destruct (Nat.ltb_spec (length (bb_buffer bb) * 8 - bb_end bb) n).
  - set (nb := div_ceil ((bb_end bb + n) `max` (length (bb_buffer bb) * 8 * 2)) 8).
    assert (bb_end bb + n ≤ 8 * nb ∧ length (bb_buffer bb) ≤ nb) as [Hnb1 Hnb2].
    { unfold nb, div_ceil.
      set (c := (bb_end bb + n) `max` (length (bb_buffer bb) * 8 * 2)).
      pose proof (Nat.div_mod_eq c 8). pose proof (Nat.mod_upper_bound c 8 ltac:(lia)).
      destruct (Nat.eqb_spec (c mod 8) 0); lia. }
    eexists. split.
    { erewrite bind_ok.
      2: { unfold realloc_tail. erewrite (bind_ok get) by done. fold nb.
           erewrite (bind_ok (assert_ _)); [done|].
           unfold assert_. by rewrite (proj2 (Nat.leb_le _ _) Hnb2). }
      done. }
    simpl. split; [|repeat split; try done].
    + constructor; simpl; try done; try lia.
      * apply Forall_app. split; [done|]. apply Forall_replicate. by unfold is_u.
      * rewrite length_app, length_replicate. lia.
    + rewrite buf_bits_app, take_app_le by (rewrite length_buf_bits; lia). done.
  - eexists. split; [done|]. simpl. split; [|done].
    constructor; simpl; try done; lia.
Qed.

(** The writers share this prologue: expand if the write passes the end. *)
Definition reserve_bits (n : nat) : B unit :=
  bb ← get;
  if bb_end bb <? bb_pos bb + n then
    if bb_autoexpand bb then move_end n else panic
  else mret tt.

Lemma reserve_bits_ok bb bs : wf bb → can_write bb (length bs) →
  ∃ bb', reserve_bits (length bs) bb = Ok tt bb' ∧ wf bb' ∧ bb_pos bb' = bb_pos bb ∧
    bb_pos bb' + length bs ≤ bb_end bb' ∧ a_write bs (abs bb') = a_write bs (abs bb).
Proof.
  intros Hwf [Hcan Hu]. unfold reserve_bits. erewrite (bind_ok get) by done.
  destruct (Nat.ltb_spec (bb_end bb) (bb_pos bb + length bs)); [|by exists bb].
  destruct Hcan as [|[Hauto Hpe]]; [lia|]. rewrite Hauto.
  destruct (move_end_ok bb (length bs)) as (bb' & Heq & Hwf' & He & Hs & Hp & Ha & Hbits);
    [done|by rewrite <-Hpe|].
  exists bb'. split; [done|]. split; [done|]. split; [done|]. split; [lia|].
  unfold a_write, abs in *. simpl in *. rewrite Hp, Hs, Ha. f_equal.
  assert (bb_end bb + length bs ≤ length (buf_bits (bb_buffer bb'))).
  { rewrite length_buf_bits, <-He. by apply wf_end. }
  assert (length (take (bb_end bb) (buf_bits (bb_buffer bb))) = bb_end bb) as Hle.
  { rewrite <-Hbits, length_take. lia. }
  rewrite Hpe, He. rewrite <-Hle at 3. rewrite splice_end, <-Hbits.
  unfold splice. rewrite take_take, Nat.min_l by lia.
  rewrite drop_ge by (rewrite length_take; lia). by rewrite app_nil_r.
Qed.

(** * Specifications of the operations *)

Lemma checked_add_spec a b :
  checked_add a b = if decide (Z.of_nat (a + b) ≤ usize_max)%Z then Some (a + b) else None.
Proof.
  unfold checked_add. rewrite <-Nat2Z.inj_add.
  by destruct (Z.leb_spec (Z.of_nat (a + b)) usize_max);
    [rewrite decide_True by lia|rewrite decide_False by lia].
Qed.

Lemma peek_bits_startoffset_spec bb off n : wf bb →
  peek_bits_startoffset off n bb =
    Ok (if decide (n ≤ 64 ∧ bb_start bb + off + n ≤ bb_end bb) then
          Some (Z_of_bits (slice (bb_start bb + off) n (a_bits (abs bb))))
        else None) bb.
Proof.
  intros Hwf. unfold peek_bits_startoffset. erewrite (bind_ok get) by done.
  pose proof (wf_usize bb Hwf). rewrite checked_add_spec.
  case_decide; [|by rewrite decide_False by lia].
  destruct (Nat.ltb_spec 64 n); [by rewrite decide_False by lia|].
  rewrite checked_add_spec. case_decide; [|by rewrite decide_False by lia].
  destruct (Nat.ltb_spec (bb_end bb) (bb_start bb + off + n)); [by rewrite decide_False by lia|].
  rewrite decide_True by lia. by erewrite bind_ok by (apply read_bits_at_unchecked_ok; done || lia).
Qed.

Lemma slice_at_pos bb n : wf bb →
  slice (bb_start bb + (bb_pos bb - bb_start bb)) n (a_bits (abs bb)) = take n (remaining bb).
Proof.
  intros Hwf. pose proof (wf_start bb Hwf).
  by replace (bb_start bb + (bb_pos bb - bb_start bb)) with (bb_pos bb) by lia.
Qed.

(** Reading: in range it returns the next [n] bits and advances; otherwise
    [None], with the cursor unmoved. *)
Lemma read_bits_spec bb n : wf bb →
  read_bits n bb =
    if decide (n ≤ 64 ∧ n ≤ get_len_remaining bb)
    then Ok (Some (Z_of_bits (take n (remaining bb)))) (advance n bb)
    else Ok None bb.
Proof.
  intros Hwf. unfold read_bits. erewrite (bind_ok get) by done.
  erewrite bind_ok by (by apply peek_bits_startoffset_spec).
  pose proof (wf_start bb Hwf). pose proof (wf_pos bb Hwf). unfold get_len_remaining.
  repeat case_decide; try lia; [|done]. by rewrite slice_at_pos.
Qed.

Lemma read_bits_None bb n : wf bb → 64 < n ∨ get_len_remaining bb < n →
  read_bits n bb = Ok None bb.
Proof. intros. rewrite read_bits_spec by done. by rewrite decide_False by lia. Qed.

Lemma read_field_ok bb n s : wf bb → n ≤ 64 → n ≤ get_len_remaining bb →
  read_field n s bb = Ok (Z_of_bits (take n (remaining bb))) (advance n bb).
Proof.
  intros. unfold read_field. erewrite bind_ok; [|by rewrite read_bits_spec, decide_True].
  done.
Qed.

Lemma read_field_err bb n s : wf bb → get_len_remaining bb < n →
  read_field n s bb = Err (BufferEnded (Some s)) bb.
Proof.
  intros. unfold read_field. erewrite bind_ok by (apply read_bits_None; auto). done.
Qed.

Lemma peek_bits_posoffset_spec bb off n : wf bb →
  peek_bits_posoffset (Z.of_nat off) n bb =
    Ok (if decide (n ≤ 64 ∧ off + n ≤ get_len_remaining bb) then
          Some (Z_of_bits (slice off n (remaining bb)))
        else None) bb.
Proof.
  intros Hwf. unfold peek_bits_posoffset. erewrite (bind_ok get) by done.
  destruct Hwf as [? Hs Hp He Hu] eqn:E. clear E. unfold get_len_remaining.
  unfold checked_add_signed. rewrite <-Nat2Z.inj_add.
  destruct (Z.leb_spec 0 (Z.of_nat (bb_pos bb - bb_start bb + off))); [|lia].
  destruct (Z.leb_spec (Z.of_nat (bb_pos bb - bb_start bb + off)) usize_max); cbn [andb].
  - rewrite Nat2Z.id, peek_bits_startoffset_spec by done. do 2 f_equal.
    repeat case_decide; try lia; [|done]. do 2 f_equal.
    unfold remaining, a_remaining, slice. rewrite drop_drop. do 2 f_equal. simpl. lia.
  - by rewrite decide_False by lia.
Qed.

(** Writing: the bits of [value] replace the bits at the cursor (or extend an
    auto-expanding buffer), nothing else changes, and the cursor advances. *)
Lemma write_bits_spec bb v n : wf bb → can_write bb n → n ≤ 64 → is_u (Z.of_nat n) v →
  ∃ bb', write_bits v n bb = Ok tt bb' ∧ wf bb' ∧ abs bb' = a_write (bits_of_Z n v) (abs bb).
Proof.
  intros Hwf Hcan Hn Hv.
  destruct (reserve_bits_ok bb (bits_of_Z n v)) as (bb1 & Heq1 & Hwf1 & Hp1 & Hfit & Habs);
    [done|by rewrite length_bits_of_Z|]. rewrite length_bits_of_Z in *.
  assert (Z.shiftr v (Z.of_nat n) = 0%Z) as Hsh.
  { rewrite Z.shiftr_div_pow2 by lia. by apply Z.div_small. }
  destruct (write_bits_raw_ok bb1
    (if n =? 64 then v else Z.land v (Z.shiftl 1 (Z.of_nat n) - 1)) n) as (bb2 & Heq2 & Hw2);
    [by apply wf_bytes|pose proof (wf_end bb1 Hwf1); lia|].
  assert (bits_of_Z n (if n =? 64 then v else Z.land v (Z.shiftl 1 (Z.of_nat n) - 1)) =
    bits_of_Z n v) as Hbits by (destruct (n =? 64); [done|apply bits_of_Z_land_ones]).
  rewrite Hbits in Hw2.
  destruct (wrote_raw_abs bb1 (bits_of_Z n v) bb2) as [Hwf2 Habs2];
    [done|by rewrite length_bits_of_Z|done|]. rewrite length_bits_of_Z in *.
  eexists. split; [|split; [exact Hwf2|by rewrite Habs2]].
  unfold write_bits. rewrite (proj2 (Nat.leb_le n 64) Hn), Hsh, Z.eqb_refl, orb_true_r.
  erewrite bind_ok by done. erewrite bind_ok by done.
  change ((reserve_bits n ≫= λ _,
    write_bits_raw (if n =? 64 then v else Z.land v (Z.shiftl 1 (Z.of_nat n) - 1)) n) bb =
    Ok tt (advance n bb2)).
  by erewrite bind_ok by exact Heq1.
Qed.

Lemma write_bits_too_large bb v n : Z.shiftr v (Z.of_nat n) ≠ 0%Z → n ≠ 64 →
  write_bits v n bb = Panic.
Proof.
  intros Hv Hn. unfold write_bits.
  destruct (n <=? 64); [|done]. erewrite bind_ok by done.
  apply Z.eqb_neq in Hv. apply Nat.eqb_neq in Hn. by rewrite Hv, Hn.
Qed.

Lemma write_bits_no_room bb v n : bb_autoexpand bb = false → bb_end bb < bb_pos bb + n →
  write_bits v n bb = Panic.
Proof.
  intros Ha Hn. unfold write_bits. destruct (n <=? 64); [|done]. erewrite bind_ok by done.
  destruct (_ || _); [|done]. erewrite bind_ok by done. erewrite (bind_ok get) by done.
  apply Nat.ltb_lt in Hn. by rewrite Hn, Ha.
Qed.

Lemma write_bits_too_wide bb v n : 64 < n → write_bits v n bb = Panic.
Proof. intros. unfold write_bits. by destruct (Nat.leb_spec n 64); [lia|]. Qed.

Lemma bind_panic {A C} (m : B A) (f : A → B C) bb : m bb = Panic → (m ≫= f) bb = Panic.
Proof. unfold mbind, M_bind. by intros ->. Qed.

Lemma exec_ok {A} (m : B A) bb a bb' : m bb = Ok a bb' → exec m bb = Some (a, bb').
Proof. unfold exec. by intros ->. Qed.
