(* ===== verification/BitCodec.v ===== *)
(** The interface between the bit buffer and the code that parses and builds
    PDUs with it.

    [writes w bs]: the writer [w] appends exactly the bits [bs] at the cursor of
    any buffer with room for them, and touches nothing else.
    [reads p bs a]: the parser [p], on any buffer whose remaining bits start
    with [bs], returns [a] and advances past them.
    Both compose along [bind]; [BitCodec] packages the two directions of one
    element, so that code which takes a parser or a writer as a closure is
    verified against the class instead of a concrete element. *)
From S2P Require Import Prelude Bits Core BitBuffer BitBufferSpec.

(** * The two judgements *)

Definition writes (w : B unit) (bs : list bool) : Prop := ∀ bb,
  wf bb → can_write bb (length bs) →
  ∃ bb', w bb = Ok tt bb' ∧ wf bb' ∧ abs bb' = a_write bs (abs bb).

Definition reads {A} (p : B A) (bs : list bool) (a : A) : Prop := ∀ bb,
  wf bb → bs `prefix_of` remaining bb → p bb = Ok a (advance (length bs) bb).

(** An element that can be written and parsed back. *)
Class BitCodec {A} (valid : A → Prop) (enc : A → list bool)
    (to_bitbuf : A → B unit) (from_bitbuf : B A) : Prop := {
  codec_writes a : valid a → writes (to_bitbuf a) (enc a);
  codec_reads a : valid a → reads from_bitbuf (enc a) a
}.

(** * Cursor facts *)

Lemma prefix_remaining_len bb bs : wf bb → bs `prefix_of` remaining bb →
  length bs ≤ get_len_remaining bb.
Proof. intros Hwf Hpre. apply prefix_length in Hpre. by rewrite length_remaining in Hpre. Qed.

Lemma prefix_take {A} (l l' : list A) : l `prefix_of` l' → take (length l) l' = l.
Proof. intros [k ->]. by rewrite take_app_length. Qed.

Lemma prefix_app_drop {A} (l1 l2 l' : list A) :
  l1 ++ l2 `prefix_of` l' → l2 `prefix_of` drop (length l1) l'.
Proof. intros [k ->]. rewrite <-app_assoc, drop_app_length. by exists k. Qed.

Lemma advance_advance a b bb : advance b (advance a bb) = advance (a + b) bb.
Proof. unfold advance, set_pos. simpl. f_equal. lia. Qed.

Lemma advance_0 bb : advance 0 bb = bb.
Proof. unfold advance, set_pos. destruct bb; simpl. f_equal. lia. Qed.

(** * Composition *)

Section compose.
Context {A C : Type}.

Lemma reads_ret (a : A) : reads (mret a) [] a.
Proof. intros bb Hwf _. by rewrite advance_0. Qed.

Lemma reads_bind (p : B A) (k : A → B C) bs1 bs2 a c :
  reads p bs1 a → reads (k a) bs2 c → reads (p ≫= k) (bs1 ++ bs2) c.
Proof.
  intros Hp Hk bb Hwf Hpre. erewrite bind_ok.
  2: { apply Hp; [done|]. etrans; [|exact Hpre]. by exists bs2. }
  rewrite Hk.
  - by rewrite advance_advance, length_app.
  - apply wf_advance; [done|]. apply prefix_remaining_len in Hpre; [|done].
    rewrite length_app in Hpre. lia.
  - rewrite remaining_advance. by apply prefix_app_drop.
Qed.

Lemma reads_bind_eq (p : B A) (k : A → B C) bs bs1 bs2 a c :
  bs = bs1 ++ bs2 → reads p bs1 a → reads (k a) bs2 c → reads (p ≫= k) bs c.
Proof. intros ->. apply reads_bind. Qed.

(** A step that reads nothing. *)
Lemma reads_bind_0 (p : B A) (k : A → B C) bs a c :
  reads p [] a → reads (k a) bs c → reads (p ≫= k) bs c.
Proof. intros. by apply (reads_bind p k [] bs a c). Qed.
End compose.

Lemma abs_pos_le bb : wf bb → a_pos (abs bb) ≤ length (a_bits (abs bb)).
Proof. intros Hwf. rewrite length_abs by done. by apply wf_pos. Qed.

Lemma can_write_app bb bs1 bs2 bb' :
  can_write bb (length (bs1 ++ bs2)) → wf bb → wf bb' → abs bb' = a_write bs1 (abs bb) →
  can_write bb' (length bs2).
Proof.
  intros [Hcan Hu] Hwf Hwf' Habs. rewrite length_app in *.
  pose proof (length_abs _ Hwf) as Hl. pose proof (length_abs _ Hwf') as Hl'.
  rewrite Habs in Hl'. unfold a_write in Hl'. cbn [a_bits] in Hl'.
  rewrite length_splice, Hl in Hl' by (by apply abs_pos_le).
  change (a_pos (abs bb)) with (bb_pos bb) in Hl'.
  assert (bb_pos bb' = bb_pos bb + length bs1) as Hp by (by apply (f_equal a_pos) in Habs).
  assert (bb_autoexpand bb' = bb_autoexpand bb) as Ha by (by apply (f_equal a_auto) in Habs).
  split; [|rewrite Hp; lia].
  rewrite Ha, Hp. destruct Hcan as [|[? ?]]; [left; lia|right]. split; [done|lia].
Qed.

Lemma a_write_app bs1 bs2 a : a_pos a ≤ length (a_bits a) →
  a_write bs2 (a_write bs1 a) = a_write (bs1 ++ bs2) a.
Proof.
  intros. unfold a_write; simpl. rewrite splice_splice_next by done. f_equal.
  rewrite length_app. lia.
Qed.

Lemma a_write_nil a : a_write [] a = a.
Proof. unfold a_write. rewrite splice_nil, Nat.add_0_r. by destruct a. Qed.

Lemma writes_ret : writes (mret tt) [].
Proof. intros bb Hwf _. exists bb. by rewrite a_write_nil. Qed.

Lemma writes_bind w1 (w2 : unit → B unit) bs1 bs2 :
  writes w1 bs1 → writes (w2 tt) bs2 → writes (w1 ≫= w2) (bs1 ++ bs2).
Proof.
  intros H1 H2 bb Hwf Hcan.
  destruct (H1 bb) as (bb1 & Heq1 & Hwf1 & Habs1); [done| |].
  { destruct Hcan as [Hc Hu]. rewrite length_app in *. split; [|lia].
    destruct Hc as [|]; [left; lia|by right]. }
  destruct (H2 bb1) as (bb2 & Heq2 & Hwf2 & Habs2); [done|by eapply can_write_app|].
  exists bb2. erewrite bind_ok by exact Heq1. split; [done|]. split; [done|].
  rewrite Habs2, Habs1. by apply a_write_app, abs_pos_le.
Qed.

Lemma writes_bind_eq w1 (w2 : unit → B unit) bs bs1 bs2 :
  bs = bs1 ++ bs2 → writes w1 bs1 → writes (w2 tt) bs2 → writes (w1 ≫= w2) bs.
Proof. intros ->. apply writes_bind. Qed.

Lemma writes_assert b w bs : b = true → writes w bs → writes (assert_ b ≫= λ _, w) bs.
Proof. intros -> Hw bb. unfold assert_. erewrite bind_ok by done. apply Hw. Qed.

(** * The primitive fields *)

Lemma writes_bits v n : n ≤ 64 → is_u (Z.of_nat n) v → writes (write_bits v n) (bits_of_Z n v).
Proof. intros Hn Hv bb Hwf Hcan. rewrite length_bits_of_Z in Hcan. by apply write_bits_spec. Qed.

Lemma reads_bits n v : n ≤ 64 → is_u (Z.of_nat n) v → reads (read_bits n) (bits_of_Z n v) (Some v).
Proof.
  intros Hn Hv bb Hwf Hpre. pose proof (prefix_remaining_len _ _ Hwf Hpre) as Hlen.
  rewrite length_bits_of_Z in *. rewrite read_bits_spec, decide_True by done.
  apply prefix_take in Hpre. rewrite length_bits_of_Z in Hpre. rewrite Hpre.
  by rewrite Z_of_bits_of_Z_small.
Qed.

Lemma reads_field n s v : n ≤ 64 → is_u (Z.of_nat n) v →
  reads (read_field n s) (bits_of_Z n v) v.
Proof.
  intros Hn Hv bb Hwf Hpre. unfold read_field. by erewrite bind_ok by (by apply reads_bits).
Qed.

Lemma reads_field_bits n s bs : length bs = n → n ≤ 64 → reads (read_field n s) bs (Z_of_bits bs).
Proof.
  intros <- Hn. rewrite <-(bits_of_Z_of_bits bs) at 2.
  apply reads_field; [done|apply Z_of_bits_is_u].
Qed.

(** [write_bit] in terms of the writers' prologue and one masked byte update. *)
Lemma write_bit_unfold v bb : (v = 0 ∨ v = 1)%Z →
  (∃ bb1, reserve_bits 1 bb = Ok tt bb1 ∧
     ∃ b, bb_buffer bb1 !! (bb_pos bb1 / 8) = Some b) →
  write_bit v bb = (reserve_bits 1 ≫= λ _, bb ← get;
    write_byte_part (bb_pos bb / 8) (bb_pos bb mod 8) 1 v ≫= λ _,
    modify (λ bb, set_pos (bb_pos bb + 1) bb)) bb.
Proof.
  intros Hv (bb1 & Heq & b & Hb). unfold write_bit.
  replace ((v =? 0) || (v =? 1))%Z with true by (destruct Hv as [-> | ->]; done).
  erewrite bind_ok by done.
  change ((reserve_bits 1 ≫= λ _, bb ← get;
    byte ← vec_get (bb_pos bb / 8);
    vec_set (bb_pos bb / 8) (Z.land byte (not8 (Z.shiftl 1 (7 - Z.of_nat (bb_pos bb mod 8)))));;
    byte ← vec_get (bb_pos bb / 8);
    vec_set (bb_pos bb / 8)
      (Z.lor byte (wrap 8 (Z.shiftl v (7 - Z.of_nat (bb_pos bb mod 8)))));;
    modify (λ bb, set_pos (bb_pos bb + 1) bb)) bb = (reserve_bits 1 ≫= λ _, bb ← get;
    write_byte_part (bb_pos bb / 8) (bb_pos bb mod 8) 1 v ≫= λ _,
    modify (λ bb, set_pos (bb_pos bb + 1) bb)) bb).
  do 2 erewrite (bind_ok (reserve_bits 1)) by exact Heq. do 2 erewrite (bind_ok get) by done.
  pose proof (lookup_lt_Some _ _ _ Hb) as Hlt.
  pose proof (Nat.mod_upper_bound (bb_pos bb1) 8 ltac:(lia)) as Hm.
  revert Hb Hlt Hm. generalize (bb_pos bb1 / 8), (bb_pos bb1 mod 8). intros idx h Hb Hlt Hm.
  assert (wrap 8 (Z.shiftl (Z.shiftl 1 (Z.of_nat 1) - 1) (7 - Z.of_nat h)) =
    Z.shiftl 1 (7 - Z.of_nat h)) as Hmask.
  { apply wrap_small. change (Z.shiftl 1 (Z.of_nat 1) - 1)%Z with 1%Z.
    rewrite Z.shiftl_1_l. split; [lia|]. apply Z.pow_lt_mono_r; lia. }
  unfold write_byte_part, vec_get, vec_set, mbind, M_bind. rewrite Hb. cbv beta zeta.
  replace (Z.of_nat (8 - (h + 1))) with (7 - Z.of_nat h)%Z by lia. rewrite Hmask.
  rewrite !decide_True by done. cbn [bb_buffer set_buffer].
  rewrite list_lookup_insert_eq by done. cbn [bb_buffer set_buffer].
  rewrite decide_True by (by rewrite length_insert).
  unfold set_buffer; cbn [bb_buffer bb_start bb_pos bb_end bb_autoexpand].
  by rewrite list_insert_insert_eq.
Qed.

Lemma writes_bit b : writes (write_bit (Z.b2z b)) [b].
Proof.
  intros bb Hwf Hcan.
  destruct (reserve_bits_ok bb [b]) as (bb1 & Heq1 & Hwf1 & Hp1 & Hfit & Habs); [done..|].
  simpl length in *.
  assert (bb_pos bb1 / 8 < length (bb_buffer bb1)) as Hidx.
  { apply Nat.Div0.div_lt_upper_bound. pose proof (wf_end _ Hwf1). lia. }
  pose proof (Nat.mod_upper_bound (bb_pos bb1) 8 ltac:(lia)).
  destruct (write_byte_part_ok bb1 (bb_pos bb1 / 8) (bb_pos bb1 mod 8) 1 (Z.b2z b))
    as (bb2 & Heq2 & Hw2); [by apply wf_bytes|done|lia|apply b2z_is_u|].
  rewrite <-Nat.div_mod_eq, bits_of_Z_b2z in Hw2.
  destruct (wrote_raw_abs bb1 [b] bb2) as [Hwf2 Habs2]; [done..|].
  exists (advance 1 bb2). simpl length in Habs2. split; [|split; [done|by rewrite Habs2]].
  rewrite write_bit_unfold.
  - erewrite bind_ok by exact Heq1. erewrite (bind_ok get) by done.
    by erewrite bind_ok by exact Heq2.
  - destruct b; auto.
  - exists bb1. split; [done|]. by apply lookup_lt_is_Some_2.
Qed.

(** * Bulk writers *)

Lemma write_zeroes_loop_writes fuel n : n ≤ fuel →
  writes (write_zeroes_loop fuel n) (replicate n false).
Proof.
  revert n. induction fuel as [|fuel IH]; intros n Hn; cbn [write_zeroes_loop];
    (destruct (Nat.eqb_spec n 0) as [->|]; [apply writes_ret|]); [lia|].
  eapply (writes_bind_eq _ _ _ (replicate (n `min` 64) false) (replicate (n - n `min` 64) false)).
  - rewrite <-replicate_add. f_equal. lia.
  - rewrite <-bits_of_Z_0. apply writes_bits; [lia|]. by split; [done|apply Z.pow_pos_nonneg; lia].
  - apply IH. lia.
Qed.

Lemma writes_zeroes n : writes (write_zeroes n) (replicate n false).
Proof. by apply write_zeroes_loop_writes. Qed.

(** Copying [n] bits from another buffer writes the next [n] bits of that buffer. *)
Lemma copy_bits_loop_spec fuel src bb n : n ≤ fuel → wf src → n ≤ get_len_remaining src →
  wf bb → can_write bb n →
  ∃ bb', copy_bits_loop fuel src n bb = Ok (advance n src) bb' ∧ wf bb' ∧
    abs bb' = a_write (take n (remaining src)) (abs bb).
Proof.
  revert src bb n. induction fuel as [|fuel IH]; intros src bb n Hf Hsrc Hn Hwf Hcan;
    cbn [copy_bits_loop]; destruct (Nat.eqb_spec n 0) as [->|Hn0]; try lia.
  1,2: exists bb; rewrite advance_0, take_0, a_write_nil; done.
  set (c := n `min` 64). pose proof (length_remaining _ Hsrc) as Hlr.
  set (bs := take c (remaining src)).
  assert (length bs = c) as Hbs by (unfold bs; rewrite length_take; lia).
  assert (take n (remaining src) = bs ++ take (n - c) (drop c (remaining src))) as Hsplit.
  { unfold bs. rewrite <-(take_drop c (take n (remaining src))), take_take, Nat.min_l by lia.
    f_equal. rewrite skipn_firstn_comm. done. }
  destruct (writes_bits (Z_of_bits bs) c ltac:(lia)) with (bb := bb) as (bb1 & Heq1 & Hwf1 & Habs1).
  { rewrite <-Hbs. apply Z_of_bits_is_u. }
  { done. }
  { rewrite length_bits_of_Z. destruct Hcan as [Hc Hu]. split; [|lia].
    destruct Hc; [left; lia|by right]. }
  rewrite <-Hbs in Habs1 at 1. rewrite bits_of_Z_of_bits in Habs1.
  destruct (IH (advance c src) bb1 (n - c)) as (bb2 & Heq2 & Hwf2 & Habs2).
  - lia.
  - apply wf_advance; [done|lia].
  - unfold get_len_remaining, advance in *. simpl. lia.
  - done.
  - assert (length (take (n - c) (drop c (remaining src))) = n - c) as Hl.
    { rewrite length_take, length_drop. lia. }
    rewrite <-Hl. eapply (can_write_app bb bs); [|done..].
    rewrite length_app, Hl, Hbs. by replace (c + (n - c)) with n by lia.
  - exists bb2. rewrite (proj2 (Nat.leb_le c (get_len_remaining src))) by lia.
    erewrite bind_ok by done.
    erewrite (bind_ok (on_buffer _ _)).
    2: { unfold on_buffer. rewrite read_bits_spec, decide_True by (done || lia). done. }
    cbv beta iota. erewrite bind_ok by done. fold bs.
    erewrite bind_ok by exact Heq1. rewrite Heq2, advance_advance.
    split; [by replace (c + (n - c)) with n by lia|]. split; [done|].
    rewrite Habs2, Habs1, a_write_app by (by apply abs_pos_le).
    by rewrite Hsplit, remaining_advance.
Qed.

Lemma copy_bits_spec src bb n : wf src → n ≤ get_len_remaining src → wf bb → can_write bb n →
  ∃ bb', copy_bits src n bb = Ok (advance n src) bb' ∧ wf bb' ∧
    abs bb' = a_write (take n (remaining src)) (abs bb).
Proof. intros. by apply copy_bits_loop_spec. Qed.

Lemma copy_bits_from_bitarr_writes bs : writes (copy_bits_from_bitarr (bitarr bs)) bs.
Proof.
  induction bs as [|b bs IH]; [apply writes_ret|]. cbn [bitarr fmap list_fmap copy_bits_from_bitarr].
  apply writes_assert; [by destruct b|]. apply (writes_bind _ _ [b] bs); [apply writes_bit|done].
Qed.

(** * Bulk readers *)

Lemma chunk_bits_spec n v : chunk_bits n v = bitarr (bits_of_Z n v).
Proof.
  apply list_eq. intros i. unfold chunk_bits, bitarr.
  rewrite !list_lookup_fmap, lookup_bits_of_Z. case_decide.
  - rewrite lookup_seq_lt by done. simpl. f_equal.
    change 1%Z with (Z.ones 1). rewrite Z.land_ones, <-Z.bit0_mod by lia.
    by rewrite Z.shiftr_spec, Z.add_0_l by lia.
  - by rewrite lookup_seq_ge by lia.
Qed.

Lemma to_bitarr_loop_spec fuel bb n out : n ≤ fuel → wf bb → n ≤ get_len_remaining bb →
  to_bitarr_loop fuel n out bb =
    Ok (Some (out ++ bitarr (take n (remaining bb)))) (advance n bb).
Proof.
  revert bb n out. induction fuel as [|fuel IH]; intros bb n out Hf Hwf Hn;
    cbn [to_bitarr_loop]; destruct (Nat.eqb_spec n 0) as [->|Hn0]; try lia.
  1,2: by rewrite advance_0, take_0, app_nil_r.
  set (c := n `min` 64). pose proof (length_remaining _ Hwf) as Hlr.
  erewrite bind_ok by (rewrite read_bits_spec, decide_True by (done || lia); done).
  cbv beta iota. rewrite chunk_bits_spec.
  assert (bits_of_Z c (Z_of_bits (take c (remaining bb))) = take c (remaining bb)) as ->.
  { rewrite <-(bits_of_Z_of_bits (take c (remaining bb))) at 2. f_equal.
    rewrite length_take. lia. }
  rewrite IH.
  - rewrite advance_advance, remaining_advance, <-app_assoc, <-bitarr_app.
    replace (c + (n - c)) with n by lia. do 5 f_equal.
    rewrite <-(take_drop c (take n (remaining bb))), take_take, Nat.min_l by lia.
    f_equal. rewrite skipn_firstn_comm. done.
  - lia.
  - apply wf_advance; [done|lia].
  - unfold get_len_remaining, advance in *. simpl. lia.
Qed.

Lemma to_bitarr_spec bb n : wf bb → n ≤ get_len_remaining bb →
  to_bitarr n bb = Ok (bitarr (take n (remaining bb))) (advance n bb).
Proof.
  intros Hwf Hn. unfold to_bitarr. erewrite bind_ok.
  2: { unfold try_to_bitarr. erewrite (bind_ok get) by done.
       destruct (Nat.ltb_spec (get_len_remaining bb) n); [lia|].
       by apply to_bitarr_loop_spec. }
  done.
Qed.

(** * Lookahead *)

(** [reads] for a parser that also looks at the [next] bits without consuming them. *)
Definition reads_then {A} (p : B A) (bs next : list bool) (a : A) : Prop := ∀ bb,
  wf bb → (bs ++ next) `prefix_of` remaining bb → p bb = Ok a (advance (length bs) bb).

Lemma reads_reads_then {A} (p : B A) bs next a : reads p bs a → reads_then p bs next a.
Proof. intros Hp bb Hwf Hpre. apply Hp; [done|]. etrans; [|exact Hpre]. by exists next. Qed.

Lemma reads_then_reads {A} (p : B A) bs a : reads_then p bs [] a → reads p bs a.
Proof. intros Hp bb Hwf Hpre. apply Hp; [done|]. by rewrite app_nil_r. Qed.

Lemma reads_then_bind {A C} (p : B A) (k : A → B C) bs1 bs2 next1 next2 a c :
  reads_then p bs1 next1 a → next1 `prefix_of` bs2 ++ next2 → reads_then (k a) bs2 next2 c →
  reads_then (p ≫= k) (bs1 ++ bs2) next2 c.
Proof.
  intros Hp Hnext Hk bb Hwf Hpre. rewrite <-app_assoc in Hpre. erewrite bind_ok.
  2: { apply Hp; [done|]. etrans; [|exact Hpre]. by apply prefix_app. }
  rewrite Hk.
  - by rewrite advance_advance, length_app.
  - apply wf_advance; [done|]. apply prefix_remaining_len in Hpre; [|done].
    rewrite length_app in Hpre. lia.
  - rewrite remaining_advance. by apply prefix_app_drop.
Qed.

(** * Parser safety *)

(** On [bb] the parser does not panic; it leaves the buffer as it was, with the
    cursor advanced inside the window. *)
Definition safe_at {A} (p : B A) (bb : BitBuffer) : Prop :=
  match p bb with
  | Ok _ bb' | Err _ bb' => ∃ n, n ≤ get_len_remaining bb ∧ bb' = advance n bb
  | Panic => False
  end.

Definition parser_safe {A} (p : B A) : Prop := ∀ bb, wf bb → safe_at p bb.

Lemma get_len_remaining_advance n bb :
  get_len_remaining (advance n bb) = get_len_remaining bb - n.
Proof. unfold get_len_remaining, advance, set_pos; simpl. lia. Qed.

Section safety.
Context {A C : Type}.

Lemma safe_at_bind (p : B A) (k : A → B C) bb : safe_at p bb →
  (∀ a n, n ≤ get_len_remaining bb → p bb = Ok a (advance n bb) → safe_at (k a) (advance n bb)) →
  safe_at (p ≫= k) bb.
Proof.
  unfold safe_at, mbind, M_bind. intros Hp Hk. destruct (p bb) as [a s|e s|]; [|done|done].
  destruct Hp as (n & Hn & ->). specialize (Hk a n Hn eq_refl).
  destruct (k a (advance n bb)); try done; destruct Hk as (m & Hm & ->);
    rewrite get_len_remaining_advance in Hm; exists (n + m); rewrite advance_advance;
    (split; [lia|done]).
Qed.

Lemma safe_ret (a : A) : parser_safe (mret a).
Proof. intros bb _. exists 0. rewrite advance_0. split; [lia|done]. Qed.

Lemma safe_fail (e : PduParseErr) : parser_safe (fail e : B A).
Proof. intros bb _. exists 0. rewrite advance_0. split; [lia|done]. Qed.

Lemma safe_bind (p : B A) (k : A → B C) :
  parser_safe p → (∀ a, parser_safe (k a)) → parser_safe (p ≫= k).
Proof.
  intros Hp Hk bb Hwf. apply safe_at_bind; [by apply Hp|]. intros a n Hn _.
  apply Hk. by apply wf_advance.
Qed.

Lemma safe_ok_or (o : option A) e : parser_safe (ok_or o e : B A).
Proof. destruct o; [apply safe_ret|apply safe_fail]. Qed.
End safety.

Lemma safe_read_bits n : parser_safe (read_bits n).
Proof.
  intros bb Hwf. unfold safe_at. rewrite read_bits_spec by done. case_decide.
  - exists n. split; [lia|done].
  - exists 0. rewrite advance_0. split; [lia|done].
Qed.

Lemma safe_read_field n s : parser_safe (read_field n s).
Proof. apply safe_bind; [apply safe_read_bits|]. intros. apply safe_ok_or. Qed.

Lemma safe_gets {A} (f : BitBuffer → A) : parser_safe (gets f : B A).
Proof. intros bb _. exists 0. rewrite advance_0. split; [lia|done]. Qed.

Lemma safe_get : parser_safe (get : B BitBuffer).
Proof. intros bb _. exists 0. rewrite advance_0. split; [lia|done]. Qed.

Create HintDb parser_safe discriminated.
#[export] Hint Resolve safe_ret safe_fail safe_bind safe_ok_or safe_read_bits safe_read_field
  safe_gets safe_get : parser_safe.

(** Seeking forward inside the window. *)
Lemma seek_rel_ok bb n : wf bb → n ≤ get_len_remaining bb →
  seek_rel (Z.of_nat n) bb = Ok tt (advance n bb) ∧
  try_seek_rel (Z.of_nat n) bb = Ok (Some tt) (advance n bb).
Proof.
  intros [_ Hs Hp _ Hu] Hn. unfold get_len_remaining in Hn.
  assert (try_seek_rel (Z.of_nat n) bb = Ok (Some tt) (advance n bb)) as Heq.
  { unfold try_seek_rel. erewrite (bind_ok get) by done. unfold checked_add_signed.
    rewrite <-Nat2Z.inj_add. destruct (Z.leb_spec 0 (Z.of_nat (bb_pos bb + n))); [|lia].
    destruct (Z.leb_spec (Z.of_nat (bb_pos bb + n)) usize_max); [|lia]. cbn [andb].
    rewrite Nat2Z.id. destruct (Nat.ltb_spec (bb_pos bb + n) (bb_start bb)); [lia|].
    destruct (Nat.ltb_spec (bb_end bb) (bb_pos bb + n)); [lia|]. done. }
  split; [|done]. unfold seek_rel. by erewrite bind_ok by exact Heq.
Qed.

Lemma set_raw_pos_ok bb p : bb_start bb ≤ p ≤ bb_end bb →
  set_raw_pos p bb = Ok tt (set_pos p bb).
Proof.
  intros [H1 H2]. unfold set_raw_pos. erewrite (bind_ok get) by done.
  apply Nat.leb_le in H1, H2. by rewrite H1, H2.
Qed.

Lemma set_raw_start_ok bb p : p ≤ bb_end bb → p ≤ bb_pos bb →
  set_raw_start p bb = Ok tt (set_start p bb).
Proof.
  intros H1 H2. unfold set_raw_start. erewrite (bind_ok get) by done.
  apply Nat.leb_le in H1, H2. by rewrite H1, H2.
Qed.

Lemma set_raw_end_ok bb p : p ≤ length (bb_buffer bb) * 8 → bb_start bb ≤ p → bb_pos bb ≤ p →
  set_raw_end p bb = Ok tt (set_end p bb).
Proof.
  intros H1 H2 H3. unfold set_raw_end. erewrite (bind_ok get) by done.
  apply Nat.leb_le in H1, H2, H3. by rewrite H1, H2, H3.
Qed.

(** * Backfilling a length field *)

Lemma splice_overwrite {A} p (xs ys zs l : list A) : p ≤ length l → length xs = length ys →
  splice p ys (splice p (xs ++ zs) l) = splice p (ys ++ zs) l.
Proof.
  intros Hp Hlen. apply list_eq. intros i.
  rewrite !lookup_splice; rewrite ?length_splice, ?length_app by lia; try lia.
  repeat case_decide; try lia; try done.
  - by rewrite lookup_app_l by lia.
  - rewrite !lookup_app_r by lia. f_equal. lia.
Qed.

(** [bb1] is [bb0] after a placeholder and a body; going back, writing the
    field [ys] over the placeholder and returning to the end leaves field and body. *)
Lemma backfill_spec bb0 bb1 w xs ys zs : wf bb0 → wf bb1 → length xs = length ys →
  abs bb1 = a_write (xs ++ zs) (abs bb0) → writes w ys →
  ∃ bb2, (set_raw_pos (bb_pos bb0) ≫= λ _, w ≫= λ _, set_raw_pos (bb_pos bb1)) bb1 = Ok tt bb2 ∧
    wf bb2 ∧ abs bb2 = a_write (ys ++ zs) (abs bb0).
Proof.
  intros Hwf0 Hwf1 Hlen Habs Hw.
  assert (bb_pos bb1 = bb_pos bb0 + length (xs ++ zs)) as Hpos by (by apply (f_equal a_pos) in Habs).
  assert (bb_start bb1 = bb_start bb0) as Hst by (by apply (f_equal a_start) in Habs).
  rewrite length_app in Hpos. destruct (Hwf1) as [_ Hs1 Hp1 _ Hu1]. pose proof (wf_start _ Hwf0).
  destruct (Hw (set_pos (bb_pos bb0) bb1)) as (bb2 & Heq2 & Hwf2 & Habs2).
  { apply wf_set_pos; [done|lia]. }
  { split; simpl; [left|]; lia. }
  assert (bb_start bb2 = bb_start bb0) as Hst2.
  { apply (f_equal a_start) in Habs2. simpl in Habs2. congruence. }
  assert (bb_end bb2 = bb_end bb1) as He2.
  { rewrite <-(length_abs bb2), <-(length_abs bb1) by done. rewrite Habs2.
    pose proof (length_abs _ Hwf1). simpl in *. rewrite length_splice; lia. }
  exists (set_pos (bb_pos bb1) bb2). split; [|split].
  - erewrite bind_ok by (apply set_raw_pos_ok; lia). erewrite bind_ok by exact Heq2.
    apply set_raw_pos_ok. lia.
  - apply wf_set_pos; [done|lia].
  - change (abs (set_pos (bb_pos bb1) bb2)) with (a_seek (bb_pos bb1) (abs bb2)).
    rewrite Habs2. change (abs (set_pos (bb_pos bb0) bb1)) with (a_seek (bb_pos bb0) (abs bb1)).
    rewrite Habs. unfold a_seek, a_write. cbn [a_bits a_pos a_start a_auto].
    rewrite splice_overwrite by (done || by apply abs_pos_le). f_equal.
    rewrite length_app. simpl. lia.
Qed.
