(* ===== verification/BitBufferThms.v ===== *)
(** Properties of [BitBuffer] as its users see them: what the constructors
    build, that writing and reading back are inverse, what the reader promises
    on every input, and the whole-window conversions. *)
From Stdlib Require Import Ascii.
From S2P Require Import Prelude Bits Core BitBuffer BitBufferSpec BitCodec.

(** * Constructors *)

Lemma div_ceil_8 n : n ≤ 8 * div_ceil n 8 ≤ n + 7.
Proof.
  unfold div_ceil. pose proof (Nat.div_mod_eq n 8). pose proof (Nat.mod_upper_bound n 8 ltac:(lia)).
  destruct (Nat.eqb_spec (n mod 8) 0); lia.
Qed.

Lemma wf_new n : (Z.of_nat (8 * div_ceil n 8) ≤ usize_max)%Z → wf (new n).
Proof.
  intros Hn. pose proof (div_ceil_8 n). split; simpl; rewrite ?length_replicate; try lia.
  apply Forall_replicate. unfold is_u. lia.
Qed.

Lemma abs_new n : abs (new n) = mkAbuf (replicate n false) 0 0 false.
Proof.
  unfold abs, new. cbn [bb_buffer bb_start bb_pos bb_end bb_autoexpand]. f_equal.
  rewrite buf_bits_zeroes, take_replicate. f_equal. pose proof (div_ceil_8 n). lia.
Qed.

(** Lengths for which the byte count of a buffer fits a [usize]. *)
Definition fits (n : nat) : Prop := (Z.of_nat (8 * div_ceil n 8) ≤ usize_max)%Z.

Lemma fits_small n : n ≤ 4096 → fits n.
Proof. intros Hn. unfold fits, usize_max. pose proof (div_ceil_8 n). lia. Qed.

(** A buffer whose window starts at bit 0 and holds exactly [bs], read from the start. *)
Definition holds (bb : BitBuffer) (bs : list bool) : Prop :=
  wf bb ∧ abs bb = mkAbuf bs 0 0 false.

(** A writer that filled a fresh buffer of the right size, rewound to the start. *)
Lemma holds_rewind bb bs : wf bb → abs bb = a_write bs (abs (new (length bs))) →
  holds (set_pos (bb_start bb) bb) bs.
Proof.
  intros Hwf Habs. split.
  - apply wf_set_pos; [done|]. pose proof (wf_start _ Hwf). pose proof (wf_pos _ Hwf). lia.
  - rewrite abs_new in Habs. unfold a_write in Habs. cbn [a_bits a_pos a_start a_auto] in Habs.
    change (abs (set_pos (bb_start bb) bb)) with (a_seek (a_start (abs bb)) (abs bb)).
    rewrite Habs. unfold a_seek, splice. cbn. f_equal.
    rewrite drop_ge by (rewrite length_replicate; lia). by rewrite app_nil_r.
Qed.

Lemma from_bitarr_ok bs : fits (length bs) → ∃ bb, from_bitarr (bitarr bs) = Some bb ∧ holds bb bs.
Proof.
  intros Hf. pose proof (wf_new _ Hf) as Hwf.
  destruct (copy_bits_from_bitarr_writes bs (new (length bs))) as (bb & Heq & Hwf' & Habs); [done| |].
  { split; [left; simpl; lia|]. pose proof (div_ceil_8 (length bs)). unfold fits in Hf. simpl. lia. }
  unfold from_bitarr, build. rewrite length_bitarr. erewrite bind_ok by exact Heq.
  unfold modify. cbn. exists (set_pos (bb_start bb) bb). split; [done|]. by apply holds_rewind.
Qed.

Lemma holds_len bb bs : holds bb bs → get_len bb = length bs ∧ get_len_remaining bb = length bs ∧
  remaining bb = bs ∧ window bb = bs ∧ bb_pos bb = 0 ∧ bb_start bb = 0.
Proof.
  intros [Hwf Habs]. pose proof (length_abs _ Hwf) as Hl.
  assert (bb_pos bb = 0) as Hp by exact (f_equal a_pos Habs).
  assert (bb_start bb = 0) as Hs by exact (f_equal a_start Habs).
  rewrite Habs in Hl. cbn in Hl.
  unfold get_len, get_len_remaining, remaining, window, a_remaining, a_window. rewrite Habs. cbn.
  rewrite !drop_0. repeat split; lia || done.
Qed.

Lemma wf_new_autoexpand n : wf (new_autoexpand n).
Proof.
  split; simpl; try lia; [|unfold usize_max; lia]. apply Forall_replicate. unfold is_u. lia.
Qed.

Lemma abs_new_autoexpand n : abs (new_autoexpand n) = mkAbuf [] 0 0 true.
Proof. done. Qed.

(** * Fields written one after the other *)

Fixpoint write_fields (fs : list (Z * nat)) : B unit :=
  match fs with
  | [] => mret tt
  | (v, n) :: fs => write_bits v n;; write_fields fs
  end.

Fixpoint read_fields (ns : list nat) : B (list (option Z)) :=
  match ns with
  | [] => mret []
  | n :: ns => ov ← read_bits n; l ← read_fields ns; mret (ov :: l)
  end.

Definition field_ok (f : Z * nat) : Prop := f.2 ≤ 64 ∧ is_u (Z.of_nat f.2) f.1.

Definition fields_bits (fs : list (Z * nat)) : list bool := f ← fs; bits_of_Z f.2 f.1.

Lemma writes_fields fs : Forall field_ok fs → writes (write_fields fs) (fields_bits fs).
Proof.
  induction 1 as [|[v n] fs [Hn Hv] _ IH]; [apply writes_ret|].
  apply (writes_bind (write_bits v n) (λ _, write_fields fs) (bits_of_Z n v)); [|done].
  by apply writes_bits.
Qed.

Lemma reads_fields fs : Forall field_ok fs →
  reads (read_fields (snd <$> fs)) (fields_bits fs) (Some ∘ fst <$> fs).
Proof.
  induction 1 as [|[v n] fs [Hn Hv] _ IH]; [apply reads_ret|].
  cbn [fmap list_fmap read_fields snd fst]. apply (reads_bind _ _ (bits_of_Z n v) (fields_bits fs) (Some v)).
  - by apply reads_bits.
  - rewrite <-(app_nil_r (fields_bits fs)). by eapply reads_bind; [exact IH|apply reads_ret].
Qed.

Lemma seek_pos bb p : wf bb → bb_start bb ≤ p ≤ bb_end bb →
  seek (p - bb_start bb) bb = Ok tt (set_pos p bb).
Proof.
  intros Hwf Hp. pose proof (wf_usize _ Hwf). unfold seek, try_seek.
  eassert (_ = Ok (Some tt) (set_pos p bb)) as Hs; [|by erewrite bind_ok by exact Hs].
  erewrite (bind_ok get) by done. rewrite checked_add_spec.
  replace (bb_start bb + (p - bb_start bb)) with p by lia. rewrite decide_True by lia.
  by rewrite (proj2 (Nat.ltb_ge _ _)) by lia.
Qed.

(** C4: fields written one after the other are read back unchanged.  For any
    list of fields whose values fit their widths (at most 64 bits), at any bit
    position of any buffer with room for them, the writes succeed, change no bit
    outside the fields, and seeking back and reading the same widths returns
    the same values and ends at the same position. *)
Theorem write_read_fields fs bb :
  Forall field_ok fs → wf bb → can_write bb (length (fields_bits fs)) →
  ∃ bb', write_fields fs bb = Ok tt bb' ∧ wf bb' ∧
    abs bb' = a_write (fields_bits fs) (abs bb) ∧
    (seek (get_pos bb) ≫= λ _, read_fields (snd <$> fs)) bb' = Ok (Some ∘ fst <$> fs) bb'.
Proof.
  intros Hfs Hwf Hcan.
  destruct (writes_fields fs Hfs bb Hwf Hcan) as (bb' & Heq & Hwf' & Habs).
  exists bb'. do 3 (split; [done|]).
  assert (bb_start bb' = bb_start bb) as Hst by exact (f_equal a_start Habs).
  assert (bb_pos bb' = bb_pos bb + length (fields_bits fs)) as Hps by exact (f_equal a_pos Habs).
  pose proof (wf_start _ Hwf). pose proof (wf_pos _ Hwf').
  unfold get_pos. rewrite <-Hst. erewrite bind_ok by (apply seek_pos; [done|lia]).
  rewrite (reads_fields fs Hfs).
  - unfold advance, set_pos. cbn. rewrite <-Hps. by destruct bb'.
  - apply wf_set_pos; [done|lia].
  - unfold remaining, a_remaining. cbn [a_pos a_bits abs set_pos bb_pos bb_end bb_buffer].
    change (take _ _) with (a_bits (abs bb')). rewrite Habs. cbn [a_bits a_write].
    pose proof (abs_pos_le _ Hwf). change (a_pos (abs bb)) with (bb_pos bb) in *.
    unfold splice. rewrite drop_app_le, drop_ge by (rewrite length_take; lia).
    by eexists.
Qed.

Lemma write_read_fields_witness :
  ∃ bb', write_fields [(5%Z, 3); (0x1FFFF%Z, 17); (1%Z, 1)] (set_pos 3 (new 25)) = Ok tt bb' ∧
    (seek 3 ≫= λ _, read_fields [3; 17; 1]) bb' = Ok [Some 5; Some 0x1FFFF; Some 1]%Z bb'.
Proof.
  destruct (write_read_fields [(5%Z, 3); (0x1FFFF%Z, 17); (1%Z, 1)] (set_pos 3 (new 25)))
    as (bb' & H1 & _ & _ & H2).
  - repeat constructor; unfold is_u; simpl; lia.
  - apply wf_set_pos; [|simpl; lia]. apply wf_new. unfold usize_max. vm_compute. congruence.
  - split; [left; simpl; lia|]. unfold usize_max. vm_compute. congruence.
  - by exists bb'.
Defined.

(** * The buffer as a cursor over a list of bits *)

(** The operations PDU code uses on a buffer of fixed size. *)
Inductive buf_op : Type :=
| ReadBits (n : nat)
| PeekBits (n : nat)
| PeekStart (offset n : nat)
| TrySeek (offset : nat)
| TrySeekRel (offset : Z)
| WriteBits (v : Z) (n : nat)
| WriteZeroes (n : nat).

Definition exec_op (op : buf_op) : B (option Z) :=
  match op with
  | ReadBits n => read_bits n
  | PeekBits n => peek_bits n
  | PeekStart off n => peek_bits_startoffset off n
  | TrySeek off => o ← try_seek off; mret ((λ _, 0%Z) <$> o)
  | TrySeekRel off => o ← try_seek_rel off; mret ((λ _, 0%Z) <$> o)
  | WriteBits v n => write_bits v n;; mret None
  | WriteZeroes n => write_zeroes n;; mret None
  end.

(** The same operations on the list of bits: [None] is a panic. *)
Definition a_goto (p : Z) (a : abuf) : option Z * abuf :=
  if decide (Z.of_nat (a_start a) ≤ p ≤ Z.of_nat (length (a_bits a)))%Z
  then (Some 0%Z, a_seek (Z.to_nat p) a) else (None, a).

Definition a_peek (p n : nat) (a : abuf) : option Z :=
  if decide (n ≤ 64 ∧ p + n ≤ length (a_bits a)) then Some (Z_of_bits (slice p n (a_bits a)))
  else None.

Definition a_exec (op : buf_op) (a : abuf) : option (option Z * abuf) :=
  match op with
  | ReadBits n =>
      Some (match a_peek (a_pos a) n a with
            | Some v => (Some v, a_seek (a_pos a + n) a)
            | None => (None, a)
            end)
  | PeekBits n => Some (a_peek (a_pos a) n a, a)
  | PeekStart off n => Some (a_peek (a_start a + off) n a, a)
  | TrySeek off => Some (a_goto (Z.of_nat (a_start a + off)) a)
  | TrySeekRel off => Some (a_goto (Z.of_nat (a_pos a) + off)%Z a)
  | WriteBits v n =>
      if decide (n ≤ 64 ∧ (0 ≤ v < 2 ^ Z.of_nat n)%Z ∧ a_pos a + n ≤ length (a_bits a))
      then Some (None, a_write (bits_of_Z n v) a) else None
  | WriteZeroes n =>
      if decide (a_pos a + n ≤ length (a_bits a))
      then Some (None, a_write (replicate n false) a) else None
  end.

(** The values a caller can pass: [u64]s, [usize]s and [isize]s. *)
Definition op_ok (op : buf_op) : Prop :=
  match op with WriteBits v _ => is_u 64 v | _ => True end.

(** What one operation of a fixed-size buffer does, as the list of bits sees it. *)
Definition refines_op (op : buf_op) (bb : BitBuffer) : Prop :=
  match exec_op op bb with
  | Ok r bb' => wf bb' ∧ bb_autoexpand bb' = false ∧ a_exec op (abs bb) = Some (r, abs bb')
  | Err _ _ => False
  | Panic => a_exec op (abs bb) = None
  end.

Section refinement.
Context (bb : BitBuffer) (Hwf : wf bb) (Hfix : bb_autoexpand bb = false).

Lemma a_peek_spec p n : a_peek p n (abs bb) =
  if decide (n ≤ 64 ∧ p + n ≤ bb_end bb) then Some (Z_of_bits (slice p n (a_bits (abs bb)))) else None.
Proof. unfold a_peek. by rewrite length_abs. Qed.

Lemma refines_read n : refines_op (ReadBits n) bb.
Proof.
  unfold refines_op. cbn [exec_op a_exec]. rewrite read_bits_spec, a_peek_spec by done.
  destruct (Hwf) as [_ Hs Hp _ _]. unfold get_len_remaining. cbn [abs a_pos].
  repeat case_decide; try lia; [|done].
  split; [apply wf_advance; [done|unfold get_len_remaining; lia]|]. split; [done|].
  rewrite abs_advance. done.
Qed.

Lemma refines_peek_start off n : refines_op (PeekStart off n) bb.
Proof.
  unfold refines_op. cbn [exec_op a_exec]. by rewrite peek_bits_startoffset_spec, a_peek_spec.
Qed.

Lemma refines_peek n : refines_op (PeekBits n) bb.
Proof.
  unfold refines_op, exec_op, peek_bits. cbn [a_exec].
  change 0%Z with (Z.of_nat 0). rewrite peek_bits_posoffset_spec, a_peek_spec by done.
  split; [done|]. split; [done|]. unfold get_len_remaining. pose proof (wf_pos _ Hwf).
  cbn [abs a_pos]. repeat case_decide; try lia; [|done]. done.
Qed.

Lemma a_goto_spec p : a_goto p (abs bb) =
  if decide (Z.of_nat (bb_start bb) ≤ p ≤ Z.of_nat (bb_end bb))%Z
  then (Some 0%Z, abs (set_pos (Z.to_nat p) bb)) else (None, abs bb).
Proof. unfold a_goto. by rewrite length_abs. Qed.

Lemma refines_try_seek off : refines_op (TrySeek off) bb.
Proof.
  unfold refines_op, exec_op, try_seek. unfold mbind, M_bind, get. cbn [a_exec].
  rewrite a_goto_spec, checked_add_spec. pose proof (wf_usize _ Hwf). cbn [abs a_start].
  case_decide; [|rewrite decide_False by lia; done].
  destruct (Nat.ltb_spec (bb_end bb) (bb_start bb + off)); [by rewrite decide_False by lia|].
  rewrite decide_True by lia. cbn. rewrite Nat2Z.id.
  split; [apply wf_set_pos; [done|lia]|done].
Qed.

Lemma refines_try_seek_rel off : refines_op (TrySeekRel off) bb.
Proof.
  unfold refines_op, exec_op, try_seek_rel, checked_add_signed. unfold mbind, M_bind, get.
  cbn [a_exec]. rewrite a_goto_spec. pose proof (wf_usize _ Hwf). cbn [abs a_pos].
  destruct (Z.leb_spec 0 (Z.of_nat (bb_pos bb) + off)); cbn [andb];
    [|rewrite decide_False by lia; done].
  destruct (Z.leb_spec (Z.of_nat (bb_pos bb) + off) usize_max);
    [|rewrite decide_False by lia; done].
  destruct (Nat.ltb_spec (Z.to_nat (Z.of_nat (bb_pos bb) + off)) (bb_start bb)),
    (Nat.ltb_spec (bb_end bb) (Z.to_nat (Z.of_nat (bb_pos bb) + off))); cbn [orb];
    try (rewrite decide_False by lia; done).
  rewrite decide_True by lia. cbn. split; [apply wf_set_pos; [done|lia]|done].
Qed.

Lemma write_bits_fixed_panics v n : is_u 64 v →
  ¬ (n ≤ 64 ∧ is_u (Z.of_nat n) v ∧ bb_pos bb + n ≤ bb_end bb) → write_bits v n bb = Panic.
Proof.
  intros Hv Hn. destruct (decide (64 < n)); [by apply write_bits_too_wide|].
  destruct (decide (bb_pos bb + n ≤ bb_end bb)); [|apply write_bits_no_room; [done|lia]].
  assert (¬ is_u (Z.of_nat n) v) as Hu by (intros ?; apply Hn; split_and!; lia || done).
  apply write_bits_too_large; [|intros ->; done].
  intros Hz. apply Hu. rewrite Z.shiftr_div_pow2 in Hz by lia.
  unfold is_u in *. apply Z.div_small_iff in Hz; [|apply Z.pow_nonzero; lia].
  destruct Hz; [done|lia].
Qed.

Lemma wrote_fixed bb' bs : wf bb' → abs bb' = a_write bs (abs bb) →
  bb_pos bb + length bs ≤ bb_end bb →
  bb_autoexpand bb' = false ∧ bb_end bb' = bb_end bb ∧ bb_pos bb' = bb_pos bb + length bs.
Proof.
  intros Hwf' Habs Hlen. split_and!.
  - rewrite <-Hfix. exact (f_equal a_auto Habs).
  - rewrite <-(length_abs bb'), Habs by done. cbn [a_bits a_write].
    rewrite length_splice by (by apply abs_pos_le). rewrite length_abs by done. cbn [abs a_pos]. lia.
  - exact (f_equal a_pos Habs).
Qed.

Lemma refines_write v n : is_u 64 v → refines_op (WriteBits v n) bb.
Proof.
  intros Hv. unfold refines_op. cbn [exec_op a_exec]. rewrite length_abs by done. cbn [a_pos abs].
  change (0 ≤ v < 2 ^ Z.of_nat n)%Z with (is_u (Z.of_nat n) v). case_decide as Hd.
  - destruct Hd as (Hn & Hu & Hp).
    destruct (write_bits_spec bb v n) as (bb' & Heq & Hwf' & Habs); [done| |done..|].
    { pose proof (wf_usize _ Hwf). split; [by left|lia]. }
    erewrite bind_ok by exact Heq. cbn. rewrite <-Habs. split; [done|]. split; [|done].
    eapply wrote_fixed; [done..|]. by rewrite length_bits_of_Z.
  - by rewrite bind_panic by (by apply write_bits_fixed_panics).
Qed.
End refinement.

Lemma write_zeroes_no_room fuel n bb : wf bb → bb_autoexpand bb = false →
  bb_end bb < bb_pos bb + n → write_zeroes_loop fuel n bb = Panic.
Proof.
  revert n bb. induction fuel as [|fuel IH]; intros n bb Hwf Hfix Hn; cbn [write_zeroes_loop];
    (destruct (Nat.eqb_spec n 0) as [->|]; [pose proof (wf_pos _ Hwf); lia|]); [done|].
  set (c := n `min` 64). destruct (decide (bb_pos bb + c ≤ bb_end bb)).
  - destruct (write_bits_spec bb 0 c) as (bb' & Heq & Hwf' & Habs); [done| |lia| |].
    { pose proof (wf_usize _ Hwf). split; [by left|lia]. }
    { split; [done|apply Z.pow_pos_nonneg; lia]. }
    erewrite bind_ok by exact Heq.
    destruct (wrote_fixed bb Hwf Hfix bb' _ Hwf' Habs) as (? & ? & ?);
      rewrite length_bits_of_Z in *; [done|]. apply IH; [done..|lia].
  - apply bind_panic, write_bits_no_room; [done|lia].
Qed.

Lemma refines_write_zeroes n bb : wf bb → bb_autoexpand bb = false →
  refines_op (WriteZeroes n) bb.
Proof.
  intros Hwf Hfix. unfold refines_op. cbn [exec_op a_exec]. rewrite length_abs by done.
  cbn [a_pos abs]. case_decide.
  - destruct (writes_zeroes n bb) as (bb' & Heq & Hwf' & Habs); [done| |].
    { rewrite length_replicate. pose proof (wf_usize _ Hwf). split; [by left|lia]. }
    erewrite bind_ok by exact Heq. cbn. rewrite <-Habs. split; [done|]. split; [|done].
    eapply (wrote_fixed bb); [done..|]. by rewrite length_replicate.
  - rewrite bind_panic; [done|]. apply write_zeroes_no_room; [done..|lia].
Qed.

(** Runs of operations, of the buffer and of the list of bits. *)
Fixpoint exec_ops (ops : list buf_op) : B (list (option Z)) :=
  match ops with
  | [] => mret []
  | op :: ops => r ← exec_op op; rs ← exec_ops ops; mret (r :: rs)
  end.

Fixpoint a_exec_ops (ops : list buf_op) (a : abuf) : option (list (option Z) * abuf) :=
  match ops with
  | [] => Some ([], a)
  | op :: ops =>
      '(r, a) ← a_exec op a; '(rs, a) ← a_exec_ops ops a; Some (r :: rs, a)
  end.

(** C3: a bit buffer of fixed size is a cursor over a list of bits.  Every
    sequence of reads, peeks, seeks and writes gives exactly the results the
    list-of-bits model gives and leaves the buffer in the state it describes;
    it panics exactly where the model is undefined (a write wider than 64 bits,
    of a value that does not fit, or past the end of the window), and the
    readers and the checked seeks never panic and never fail. *)
Theorem bitbuffer_refines_bit_list ops bb : Forall op_ok ops → wf bb → bb_autoexpand bb = false →
  match exec_ops ops bb with
  | Ok rs bb' => wf bb' ∧ a_exec_ops ops (abs bb) = Some (rs, abs bb')
  | Err _ _ => False
  | Panic => a_exec_ops ops (abs bb) = None
  end.
Proof.
  intros Hops. revert bb. induction Hops as [|op ops Hop _ IH]; intros bb Hwf Hfix; [done|].
  assert (refines_op op bb) as Href.
  { destruct op; [by apply refines_read|by apply refines_peek|by apply refines_peek_start
      |by apply refines_try_seek|by apply refines_try_seek_rel|by apply refines_write
      |by apply refines_write_zeroes]. }
  unfold refines_op in Href. cbn [exec_ops a_exec_ops]. unfold mbind at 1, M_bind.
  destruct (exec_op op bb) as [r bb1|e bb1|]; [|done|by rewrite Href].
  destruct Href as (Hwf1 & Hfix1 & ->). cbn [mbind option_bind].
  specialize (IH bb1 Hwf1 Hfix1). unfold mbind at 1, M_bind.
  destruct (exec_ops ops bb1) as [rs bb2|e bb2|]; [|done|by rewrite IH].
  destruct IH as [Hwf2 ->]. done.
Qed.

Lemma bitbuffer_refines_bit_list_witness : ∃ bb',
  exec_ops [WriteBits 6 3; WriteZeroes 6; TrySeek 1; ReadBits 4; TrySeekRel 100; ReadBits 5] (new 9)
    = Ok [None; None; Some 0; Some 8; None; None]%Z bb' ∧ wf bb'.
Proof.
  pose proof (bitbuffer_refines_bit_list
    [WriteBits 6 3; WriteZeroes 6; TrySeek 1; ReadBits 4; TrySeekRel 100; ReadBits 5] (new 9)) as H.
  assert (exec_ops
    [WriteBits 6 3; WriteZeroes 6; TrySeek 1; ReadBits 4; TrySeekRel 100; ReadBits 5] (new 9) =
    Ok [None; None; Some 0; Some 8; None; None]%Z (mkBitBuffer [192; 0]%Z 0 5 9 false)) as E
    by (vm_compute; reflexivity).
  rewrite E in H. destruct H as [Hwf _].
  - repeat constructor; simpl; lia.
  - apply wf_new. unfold usize_max. vm_compute. congruence.
  - done.
  - by eexists.
Defined.

(** * Whole-window conversions *)

(** A bit string as text. *)
Fixpoint bitstr (bs : list bool) : string :=
  match bs with
  | [] => EmptyString
  | b :: bs => String (if b then "1" else "0")%char (bitstr bs)
  end.

Lemma length_bitstr bs : String.length (bitstr bs) = length bs.
Proof. induction bs as [|b bs IH]; [done|]. simpl. by rewrite IH. Qed.

Lemma writes_bitstr bs : writes (write_bitstr (bitstr bs)) bs.
Proof.
  induction bs as [|b bs IH]; [apply writes_ret|]. cbn [bitstr write_bitstr].
  eapply (writes_bind _ _ [b] bs); [|done]. destruct b; [exact (writes_bit true)|exact (writes_bit false)].
Qed.

Lemma read_bit_at_unchecked_ok bb p b : wf bb → a_bits (abs bb) !! p = Some b →
  read_bit_at_unchecked p bb = Ok (Z.b2z b) bb.
Proof.
  intros Hwf Hb. assert (p < bb_end bb) as Hp.
  { rewrite <-length_abs by done. by eapply lookup_lt_Some. }
  destruct (byte_in_range bb p) as (byte & Hbyte & _); [done..|].
  pose proof (Nat.mod_upper_bound p 8 ltac:(lia)).
  unfold read_bit_at_unchecked. erewrite bind_ok by (by apply vec_get_ok).
  unfold mret, M_ret. f_equal.
  assert (slice p 1 (buf_bits (bb_buffer bb)) = [b]) as Hsl.
  { cbn [abs a_bits] in Hb. rewrite lookup_take_lt in Hb by done.
    unfold slice. by rewrite (drop_S _ b) by done. }
  rewrite (slice_buf_bits_at _ _ _ byte) in Hsl by (done || lia).
  rewrite <-Z_of_bits_1, <-Hsl, <-(shift_mask_slice _ 1 8) by lia.
  f_equal. f_equal. lia.
Qed.

(** Reading [bs] bit by bit from position [p]. *)
Lemma to_bitstr_loop_ok bb bs p : wf bb → bs `prefix_of` drop p (a_bits (abs bb)) →
  to_bitstr_loop (length bs) p bb = Ok (bitstr bs) bb ∧
  into_bitvec_loop (length bs) p bb = Ok (bitarr bs) bb.
Proof.
  intros Hwf. revert p. induction bs as [|b bs IH]; intros p [k Hk]; [done|].
  destruct (IH (p + 1)) as [IH1 IH2].
  { exists k. rewrite <-drop_drop, Hk. done. }
  assert (a_bits (abs bb) !! p = Some b) as Hb.
  { rewrite <-(Nat.add_0_r p), <-lookup_drop, Hk. done. }
  cbn [length to_bitstr_loop into_bitvec_loop bitarr fmap list_fmap bitstr].
  split; erewrite bind_ok by (by apply read_bit_at_unchecked_ok);
    [erewrite bind_ok by exact IH1|erewrite bind_ok by exact IH2]; destruct b; done.
Qed.

Lemma to_bitstr_ok bb : wf bb → to_bitstr bb = Ok (bitstr (window bb)) bb.
Proof.
  intros Hwf. unfold to_bitstr. erewrite (bind_ok get) by done.
  rewrite <-length_window by done. by apply to_bitstr_loop_ok.
Qed.

(** Text round trip.  Every string of '0' and '1' characters parses to a
    buffer whose cursor is at the start and which prints as that string. *)
Theorem from_bitstr_to_bitstr bs : fits (length bs) →
  ∃ bb, from_bitstr (bitstr bs) = Some bb ∧ holds bb bs ∧ to_bitstr bb = Ok (bitstr bs) bb.
Proof.
  intros Hf. pose proof (wf_new _ Hf) as Hwf.
  destruct (writes_bitstr bs (new (length bs))) as (bb & Heq & Hwf' & Habs); [done| |].
  { split; [left; simpl; lia|]. pose proof (div_ceil_8 (length bs)). unfold fits in Hf. simpl. lia. }
  unfold from_bitstr, build. rewrite length_bitstr. erewrite bind_ok by exact Heq.
  unfold modify. exists (set_pos (bb_start bb) bb). split; [done|].
  assert (holds (set_pos (bb_start bb) bb) bs) as Hh by (by apply holds_rewind).
  split; [done|]. rewrite to_bitstr_ok by apply Hh. by destruct (holds_len _ _ Hh) as (_ & _ & _ & -> & _).
Qed.

Lemma from_bitstr_to_bitstr_witness :
  ∃ bb, from_bitstr "0110010111"%string = Some bb ∧ to_bitstr bb = Ok "0110010111"%string bb.
Proof.
  destruct (from_bitstr_to_bitstr
    [false; true; true; false; false; true; false; true; true; true]) as (bb & H1 & _ & H2).
  - apply fits_small. simpl. lia.
  - exists bb. split; [exact H1|exact H2].
Defined.

(** The bits of whole bytes [i], [i+1], ... of a buffer. *)
Lemma buf_bits_slice i n buf : buf_bits (slice i n buf) = slice (8 * i) (8 * n) (buf_bits buf).
Proof.
  unfold slice. revert n buf. induction i as [|i IHi].
  - intros n buf. rewrite Nat.mul_0_r, !drop_0. revert buf.
    induction n as [|n IHn]; intros [|b buf]; rewrite ?take_nil; [done..|].
    cbn [take buf_bits]. replace (8 * S n) with (length (bits_of_Z 8 b) + 8 * n)
      by (rewrite length_bits_of_Z; lia). by rewrite take_app_add, IHn.
  - intros n [|b buf]; [by cbn [buf_bits]; rewrite !drop_nil, !take_nil|].
    cbn [drop buf_bits]. rewrite IHi. f_equal.
    replace (8 * S i) with (length (bits_of_Z 8 b) + 8 * i) by (rewrite length_bits_of_Z; lia).
    by rewrite drop_app_add.
Qed.

(** A copy of the bytes that cover bits [p, end), with the cursor on bit [p]. *)
Lemma sub_buffer_ok bb p : wf bb → p ≤ bb_end bb →
  let b' := mkBitBuffer (slice (p / 8) (div_ceil (bb_end bb) 8 - p / 8) (bb_buffer bb))
              (p mod 8) (p mod 8) (p mod 8 + (bb_end bb - p)) false in
  p / 8 ≤ div_ceil (bb_end bb) 8 ≤ length (bb_buffer bb) ∧ wf b' ∧
  window b' = drop p (a_bits (abs bb)).
Proof.
  intros Hwf Hp b'. destruct (Hwf) as [Hb _ _ He Hu].
  pose proof (div_ceil_8 (bb_end bb)). pose proof (Nat.div_mod_eq p 8).
  pose proof (Nat.mod_upper_bound p 8 ltac:(lia)).
  assert (p / 8 ≤ div_ceil (bb_end bb) 8 ≤ length (bb_buffer bb)) as Hr by lia.
  split; [done|]. split.
  - split; unfold b'; cbn [bb_buffer bb_start bb_pos bb_end]; try lia.
    + apply Forall_take, Forall_drop, Hb.
    + rewrite length_slice by lia. lia.
  - unfold window, a_window, abs, b'. cbn [a_bits a_start bb_end bb_buffer bb_start].
    rewrite buf_bits_slice. apply list_eq. intros i.
    rewrite !lookup_drop. destruct (decide (i < bb_end bb - p)).
    + rewrite !lookup_take_lt by lia. rewrite lookup_slice, decide_True by lia. f_equal. lia.
    + rewrite !lookup_take_ge by lia. done.
Qed.

(** Sub-buffers.  [from_bitbuffer_pos] gives a buffer of its own whose
    window is exactly the unread part of the original, and [from_bitbuffer] one
    whose window is the whole window; both never panic on a well-formed buffer,
    start reading at the first bit of their window and are well formed. *)
Theorem sub_buffers_keep_window bb : wf bb →
  ∃ b1 b2, from_bitbuffer_pos bb = Some b1 ∧ from_bitbuffer bb = Some b2 ∧
    wf b1 ∧ window b1 = remaining bb ∧ remaining b1 = remaining bb ∧
    wf b2 ∧ window b2 = window bb ∧ remaining b2 = window bb.
Proof.
  intros Hwf. destruct (Hwf) as [_ Hs Hp _ _].
  destruct (sub_buffer_ok bb (bb_pos bb)) as (H1 & Hwf1 & Hw1); [done|lia|].
  destruct (sub_buffer_ok bb (bb_start bb)) as (H2 & Hwf2 & Hw2); [done|lia|].
  unfold from_bitbuffer_pos, from_bitbuffer. rewrite !decide_True by done.
  eexists _, _. do 2 (split; [done|]). split_and!; first [exact Hwf1|exact Hwf2|done].
Qed.

(** [into_bitvec] returns the window only of a buffer whose window starts
    at bit 0 of its bytes: it reads [get_len] bits from the first byte on.  On
    a buffer with another start it returns bits from before the window. *)
Theorem into_bitvec_ignores_start :
  (∀ bb, wf bb → bb_start bb = 0 → into_bitvec bb = Ok (bitarr (window bb)) bb) ∧
  (∃ bb, wf bb ∧ into_bitvec bb ≠ Ok (bitarr (window bb)) bb).
Proof.
  split.
  - intros bb Hwf Hs. unfold into_bitvec. erewrite (bind_ok get) by done.
    rewrite <-length_window by done. apply to_bitstr_loop_ok; [done|].
    unfold window, a_window. cbn [abs a_start]. by rewrite Hs.
  - exists (mkBitBuffer [0x0F]%Z 4 4 8 false). split.
    + split; simpl; try lia; [|unfold usize_max; lia]. repeat constructor; unfold is_u; lia.
    + vm_compute. congruence.
Qed.
