(* ===== verification/FieldCodec.v ===== *)
(** Headers as lists of fixed-width fields.

    A PDU header is written and parsed field by field; its layout is a list of
    (value, width) pairs, whose bits are [fields_bits].  The lemmas below walk a
    writer or a parser along such a layout, one field, one optional element or
    one nested element at a time; the PDU files only state the layouts. *)
From S2P Require Import Prelude Bits Core BitBuffer BitBufferSpec BitCodec BitBufferThms.

Abbreviation fields := (list (Z * nat)).

(** A presence flag, followed by the element when there is one. *)
Definition opt_fields {A} (o : option A) (f : A → fields) : fields :=
  match o with Some a => (1%Z, 1) :: f a | None => [(0%Z, 1)] end.

Definition fields_len (fs : fields) : nat := sum_list (snd <$> fs).

Lemma fields_bits_cons v n fs : fields_bits ((v, n) :: fs) = bits_of_Z n v ++ fields_bits fs.
Proof. done. Qed.

Lemma fields_bits_app fs1 fs2 : fields_bits (fs1 ++ fs2) = fields_bits fs1 ++ fields_bits fs2.
Proof. unfold fields_bits. by rewrite bind_app. Qed.

Lemma length_fields_bits fs : length (fields_bits fs) = fields_len fs.
Proof.
  induction fs as [|[v n] fs IH]; [done|].
  rewrite fields_bits_cons, length_app, length_bits_of_Z, IH. done.
Qed.

Lemma fields_len_app fs1 fs2 : fields_len (fs1 ++ fs2) = fields_len fs1 + fields_len fs2.
Proof. rewrite <-!length_fields_bits, fields_bits_app. apply length_app. Qed.

Lemma fields_len_opt {A} (o : option A) f :
  fields_len (opt_fields o f) = 1 + match o with Some a => fields_len (f a) | None => 0 end.
Proof. by destruct o. Qed.

Lemma is_u_mono w w' v : is_u w v → (0 ≤ w ≤ w')%Z → is_u w' v.
Proof.
  intros [H1 H2] Hw. split; [done|]. eapply Z.lt_le_trans; [done|]. apply Z.pow_le_mono_r; lia.
Qed.

(** [x as uW] keeps a value that fits. *)
Lemma wrap_fits n w v : is_u n v → (0 ≤ n ≤ w)%Z → wrap w v = v.
Proof. intros. by eapply wrap_small, is_u_mono. Qed.

Lemma b2z_nonzero b : negb (Z.b2z b =? 0)%Z = b.
Proof. by destruct b. Qed.

(** * Writing along a layout *)

Section writing.
Implicit Types w : B unit.

Lemma writes_field v n (k : unit → B unit) fs : n ≤ 64 → is_u (Z.of_nat n) v →
  writes (k tt) (fields_bits fs) → writes (write_bits v n ≫= k) (fields_bits ((v, n) :: fs)).
Proof.
  intros Hn Hv Hk. rewrite fields_bits_cons. intros bb Hwf Hcan.
  assert (writes (write_bits v n ≫= λ _, k tt) (bits_of_Z n v ++ fields_bits fs)) as H.
  { apply writes_bind; [by apply writes_bits|done]. }
  destruct (H bb Hwf Hcan) as (bb' & Heq & ?). exists bb'. split; [|done].
  rewrite <-Heq. unfold mbind, M_bind. destruct (write_bits v n bb) as [[] ?| |]; done.
Qed.

Lemma writes_last_field v n : n ≤ 64 → is_u (Z.of_nat n) v →
  writes (write_bits v n) (fields_bits [(v, n)]).
Proof. intros. rewrite fields_bits_cons, app_nil_r. by apply writes_bits. Qed.

Lemma writes_elem w (k : unit → B unit) fs1 fs2 : writes w (fields_bits fs1) →
  writes (k tt) (fields_bits fs2) → writes (w ≫= k) (fields_bits (fs1 ++ fs2)).
Proof.
  intros H1 H2. rewrite fields_bits_app. intros bb Hwf Hcan.
  destruct (writes_bind w (λ _, k tt) _ _ H1 H2 bb Hwf Hcan) as (bb' & Heq & ?).
  exists bb'. split; [|done]. rewrite <-Heq. unfold mbind, M_bind. destruct (w bb) as [[] ?| |]; done.
Qed.

Lemma writes_check b w fs : b = true → writes w (fields_bits fs) →
  writes (assert_ b ≫= λ _, w) (fields_bits fs).
Proof. apply writes_assert. Qed.

Lemma writes_nil : writes (mret tt) (fields_bits []).
Proof. apply writes_ret. Qed.

(** [if let Some(v) = o { write_bits(1, 1); w(v) } else { write_bits(0, 1) }] *)
Definition write_opt {A} (o : option A) (w : A → B unit) : B unit :=
  match o with Some v => write_bits 1 1;; w v | None => write_bits 0 1 end.

Lemma writes_opt {A} (o : option A) (w : A → B unit) f : (∀ a, o = Some a → writes (w a) (fields_bits (f a))) →
  writes (write_opt o w) (fields_bits (opt_fields o f)).
Proof.
  intros H. destruct o as [a|]; cbn [write_opt opt_fields].
  - apply writes_field; [lia|done|]. by apply H.
  - apply writes_last_field; [lia|done].
Qed.
End writing.

(** * Building a PDU in a growing buffer *)

(** The buffer holds [bs] and is read from the start. *)
Definition pdu_holds (pdu : BitBuffer) (bs : list bool) : Prop := wf pdu ∧ abs pdu = mkAbuf bs 0 0 true.

Lemma pdu_holds_facts pdu bs : pdu_holds pdu bs → remaining pdu = bs ∧ window pdu = bs ∧
  get_len_remaining pdu = length bs ∧ bb_pos pdu = 0 ∧ bb_start pdu = 0.
Proof.
  intros [Hwf Habs]. assert (remaining pdu = bs) as Hr by (unfold remaining; by rewrite Habs).
  split_and!; [done|unfold window; by rewrite Habs| | |].
  - by rewrite <-length_remaining, Hr.
  - exact (f_equal a_pos Habs).
  - exact (f_equal a_start Habs).
Qed.

Lemma build_ok n w bs : writes w bs → (Z.of_nat (length bs) ≤ usize_max)%Z →
  ∃ pdu, build (new_autoexpand n) (w;; seek 0) = Some pdu ∧ pdu_holds pdu bs.
Proof.
  intros Hw Hlen. destruct (Hw (new_autoexpand n)) as (bb & Heq & Hwf & Habs).
  { apply wf_new_autoexpand. } { split; [by right|done]. }
  rewrite abs_new_autoexpand in Habs. unfold a_write in Habs. cbn [a_bits a_start a_pos a_auto] in Habs.
  assert (bb_start bb = 0) as Hs by exact (f_equal a_start Habs).
  exists (set_pos 0 bb). unfold build. erewrite bind_ok by exact Heq. split.
  - pose proof (seek_pos bb 0 Hwf) as Hseek. rewrite Hs in Hseek. change (0 - 0) with 0 in Hseek. rewrite Hseek; [done|lia].
  - split; [apply wf_set_pos; [done|lia]|].
    change (abs (set_pos 0 bb)) with (a_seek 0 (abs bb)). rewrite Habs. unfold a_seek, splice. cbn.
    by rewrite drop_nil, app_nil_r.
Qed.

(** Writing the rest of another buffer. *)
Lemma writes_copy src : wf src →
  writes (_ ← copy_bits src (get_len_remaining src); mret tt) (remaining src).
Proof.
  intros Hsrc bb Hwf Hcan. rewrite length_remaining in Hcan by done.
  destruct (copy_bits_spec src bb (get_len_remaining src)) as (bb' & Heq & Hwf' & Habs); [done..|].
  exists bb'. erewrite bind_ok by exact Heq. split_and!; [done..|].
  by rewrite Habs, take_ge by (rewrite length_remaining by done; lia).
Qed.

(** * Parsing along a layout *)

Section parsing.
Context {A C : Type}.

Lemma reads_field_then v n s (k : Z → B C) fs c : n ≤ 64 → is_u (Z.of_nat n) v →
  reads (k v) (fields_bits fs) c → reads (read_field n s ≫= k) (fields_bits ((v, n) :: fs)) c.
Proof. intros. rewrite fields_bits_cons. eapply reads_bind; [by apply reads_field|done]. Qed.

Lemma reads_elem (p : B A) (k : A → B C) fs1 fs2 a c : reads p (fields_bits fs1) a →
  reads (k a) (fields_bits fs2) c → reads (p ≫= k) (fields_bits (fs1 ++ fs2)) c.
Proof. intros. rewrite fields_bits_app. by eapply reads_bind. Qed.

Lemma reads_last (p : B A) (k : A → B C) fs a c : reads p (fields_bits fs) a →
  reads (k a) (fields_bits []) c → reads (p ≫= k) (fields_bits fs) c.
Proof. intros. rewrite <-(app_nil_r fs). by eapply reads_elem. Qed.

Lemma reads_check b (p : B C) fs c : b = true → reads p (fields_bits fs) c →
  reads (assert_ b ≫= λ _, p) (fields_bits fs) c.
Proof. intros ->. intros Hp bb Hwf Hpre. erewrite bind_ok by done. by apply Hp. Qed.

Lemma reads_done (c : C) : reads (mret c) (fields_bits []) c.
Proof. apply reads_ret. Qed.

End parsing.

(** [let x = if flag == 1 { Some(p()?) } else { None }] *)
Definition read_opt {A} (s : string) (p : B A) : B (option A) :=
  flag ← read_field 1 s;
  if (flag =? 1)%Z then a ← p; mret (Some a) else mret None.

Lemma reads_opt {A} s (p : B A) o f : (∀ a, o = Some a → reads p (fields_bits (f a)) a) →
  reads (read_opt s p) (fields_bits (opt_fields o f)) o.
Proof.
  intros H. unfold read_opt. destruct o as [a|]; cbn [opt_fields].
  - apply reads_field_then; [lia|done|]. eapply reads_last; [by apply H|apply reads_done].
  - apply reads_field_then; [lia|done|]. apply reads_done.
Qed.

(** * Steps that touch no bits *)

(** [m] returns [a] and leaves the buffer alone. *)
Definition pure_step {A} (m : B A) (a : A) : Prop := ∀ bb, m bb = Ok a bb.

Lemma writes_pure {A} (m : B A) a (k : A → B unit) bs : pure_step m a → writes (k a) bs →
  writes (m ≫= k) bs.
Proof. intros Hm Hk bb Hwf Hcan. erewrite bind_ok by apply Hm. by apply Hk. Qed.

Lemma reads_pure {A C} (m : B A) a (k : A → B C) bs c : pure_step m a → reads (k a) bs c →
  reads (m ≫= k) bs c.
Proof. intros Hm Hk bb Hwf Hpre. erewrite bind_ok by apply Hm. by apply Hk. Qed.

(** Side conditions of the walks: widths, ranges and boolean flags. *)
Ltac field_side :=
  first [done | lia | assumption | apply b2z_is_u
        | unfold is_u in *; lia | by destruct_and?; unfold is_u in *; lia].

(** One step of a writer along a layout. *)
Ltac wstep := first
  [ apply writes_last_field; [field_side..]
  | apply writes_field; [field_side..|]
  | apply writes_check; [field_side|]
  | apply writes_nil ].

Ltac rstep := first
  [ apply reads_check; [field_side|]
  | apply reads_field_then; [field_side..|]
  | apply reads_done ].
