(* ===== verification/TypedFieldsSpec.v ===== *)
(** Optional elements of layer-3 PDUs ([tetra-core/src/typed_pdu_fields.rs]).

    Type-2 elements are preceded by a presence bit, type-3 and type-4 elements
    by an m-bit, a 4-bit identifier and an 11-bit length (type-4 adds a 6-bit
    element count).  The parsers run on over-the-air data, so their theorems
    are about every well-formed buffer.

    Properties of the typed-field codecs: the parsers are safe on every buffer,
    the writers and parsers are inverse to each other. *)
From S2P Require Import Prelude Bits Core BitBuffer BitBufferSpec BitCodec BitBufferThms.

(** * Data *)

Record Type4FieldGeneric : Type := mkType4 {
  t4_field_id : Z;
  t4_len : nat;
  t4_elems : nat;
  t4_data : Z
}.

Record Type3FieldGeneric : Type := mkType3 {
  t3_field_id : Z;
  t3_len : nat;
  t3_data : Z
}.

(** * Delimiters *)

Definition read_obit : B bool := v ← read_field 1 "obit"; mret (v =? 1)%Z.
Definition write_obit (val : Z) : B unit := write_bit val.
Definition read_pbit : B bool := v ← read_field 1 "pbit"; mret (v =? 1)%Z.
Definition write_pbit (val : Z) : B unit := write_bit val.
Definition read_mbit : B bool := v ← read_field 1 "mbit"; mret (v =? 1)%Z.
Definition write_mbit (val : Z) : B unit := write_bit val.

(** * Type 2 *)

Definition parse_type2_generic (obit : bool) (num_bits : nat) (field_name : string) : B (option Z) :=
  if negb obit then mret None
  else
    p ← read_pbit;
    if (p : bool) then v ← read_field num_bits field_name; mret (Some v) else mret None.

Definition parse_type2_struct {T} (obit : bool) (parser : B T) : B (option T) :=
  if negb obit then mret None
  else
    p ← read_pbit;
    if (p : bool) then v ← parser; mret (Some v) else mret None.

Definition write_type2_generic (obit : bool) (value : option Z) (len : nat) : B unit :=
  if negb obit then assert_ (bool_decide (value = None))
  else
    match value with
    | Some v => write_pbit 1;; write_bits v len
    | None => write_pbit 0
    end.

Definition write_type2_struct {T} (obit : bool) (value : option T) (writer : T → B unit) : B unit :=
  if negb obit then assert_ (match value with None => true | Some _ => false end)
  else
    match value with
    | Some v => write_pbit 1;; writer v
    | None => write_pbit 0
    end.

(** * Type 3 *)

Definition peek_type34_mbit_and_id (expected_id : Z) : B bool :=
  mbit ← peek_bits 1;
  match mbit with
  | Some 0%Z => mret false
  | Some 1%Z =>
      id_bits ← peek_bits_posoffset 1 4;
      match id_bits with
      | Some id => mret (bool_decide (id = expected_id))
      | None => fail (BufferEnded (Some "peek_type34_mbit_and_id id_bits"))
      end
  | None => fail (BufferEnded (Some "peek_type34_mbit_and_id mbit"))
  | _ => panic
  end.

(** [match buffer.read_bits(n) { Some(x) => x, None => return Err(..) }]. *)
Definition read_bits_or (n : nat) (field : string) : B Z :=
  ov ← read_bits n; ok_or ov (BufferEnded (Some field)).

(** The payload of a type-3 element as at most 128 bits, in two reads when longer than 64. *)
Definition read_type3_data (read_len : nat) : B Z :=
  if read_len <=? 64 then read_bits_or read_len "parse_type3_generic data"
  else
    let hi_bits := read_len - 64 in
    hi ← read_bits_or hi_bits "parse_type3_generic data (high)";
    lo ← read_bits_or 64 "parse_type3_generic data (low)";
    mret (Z.lor (Z.shiftl hi 64) lo).

Definition parse_type3_generic (obit : bool) (id : Z) : B (option Type3FieldGeneric) :=
  if negb obit then mret None
  else
    field_present ← peek_type34_mbit_and_id id;
    if negb field_present then mret None
    else
      seek_rel 5;;
      x ← read_bits_or 11 "parse_type3_generic len_bits";
      let len_bits := Z.to_nat x in
      bb ← get;
      if get_len_remaining bb <? len_bits then
        fail (BufferEnded (Some "parse_type3_generic data"))
      else
        let read_len := if 128 <? len_bits then 128 else len_bits in
        data ← read_type3_data read_len;
        (if 128 <? len_bits then
           o ← try_seek_rel (Z.of_nat len_bits - 128);
           ok_or o (BufferEnded (Some "parse_type3_generic skip"))
         else mret tt);;
        mret (Some (mkType3 id len_bits data)).

Definition parse_type3_struct {T} (obit : bool) (id : Z) (parser : B T) : B (option T) :=
  if negb obit then mret None
  else
    field_present ← peek_type34_mbit_and_id id;
    if negb field_present then mret None
    else
      seek_rel 5;;
      x ← read_bits_or 11 "parse_type3_struct len_bits";
      let len_bits := Z.to_nat x in
      start_pos ← gets get_pos;
      result ← parser;
      pos ← gets get_pos;
      if decide (start_pos + len_bits = pos) then mret (Some result)
      else fail (InconsistentLength len_bits (pos - start_pos)).

Definition write_type34_header_generic (field_type : Z) : B unit :=
  write_mbit 1;; write_bits field_type 4.

Definition write_type3_struct {T} (obit : bool) (value : option T) (id : Z)
    (writer : T → B unit) : B unit :=
  match value with
  | Some elem =>
      if negb obit then fail (InvalidValue "write_type3_struct" id)
      else
        write_type34_header_generic id;;
        pos_len_field ← gets bb_pos;
        write_bits 0 11;;
        writer elem;;
        pos_end ← gets bb_pos;
        let len_bits := Z.of_nat (pos_end - pos_len_field - 11) in
        set_raw_pos pos_len_field;;
        write_bits len_bits 11;;
        set_raw_pos pos_end
  | None => mret tt
  end.

Definition write_type3_generic (obit : bool) (value : option Type3FieldGeneric) (id : Z) : B unit :=
  match value with
  | Some elem =>
      if negb obit then fail (InvalidValue "write_type3_generic" id)
      else
        write_type34_header_generic id;;
        write_bits (Z.of_nat (t3_len elem)) 11;;
        if t3_len elem <=? 64 then write_bits (wrap 64 (t3_data elem)) (t3_len elem)
        else
          let hi_bits := t3_len elem - 64 in
          let hi := wrap 64 (Z.shiftr (t3_data elem) 64) in
          let lo := wrap 64 (t3_data elem) in
          write_bits hi hi_bits;;
          write_bits lo 64
  | None => mret tt
  end.

(** * Type 4 *)

Definition parse_type4_header (id : Z) : B (option (nat * nat)) :=
  field_present ← peek_type34_mbit_and_id id;
  if negb field_present then mret None
  else
    seek_rel 5;;
    x ← read_bits_or 11 "parse_type4_header len_bits";
    let len_bits := Z.to_nat x in
    y ← read_bits_or 6 "parse_type4_header num_elems";
    let num_elems := Z.to_nat y in
    if len_bits <? 6 then fail (InconsistentLength 6 len_bits)
    else
      let payload_bits := len_bits - 6 in
      bb ← get;
      if get_len_remaining bb <? payload_bits then
        fail (BufferEnded (Some "parse_type4_header payload"))
      else mret (Some (num_elems, payload_bits)).

(** [for _ in 0..num_elems { elems.push(parser(buffer)?) }]. *)
Fixpoint parse_elems {T} (n : nat) (parser : B T) : B (list T) :=
  match n with
  | O => mret []
  | S n => e ← parser; es ← parse_elems n parser; mret (e :: es)
  end.

Definition parse_type4_struct {T} (obit : bool) (id : Z) (parser : B T) : B (option (list T)) :=
  if negb obit then mret None
  else
    hdr ← parse_type4_header id;
    match hdr with
    | None => mret None
    | Some (num_elems, len_bits) =>
        start_pos ← gets get_pos;
        elems ← parse_elems num_elems parser;
        pos ← gets get_pos;
        if decide (start_pos + len_bits = pos) then mret (Some elems)
        else fail (InconsistentLength len_bits (pos - start_pos))
    end.

Definition parse_type4_generic (obit : bool) (id : Z) : B (option Type4FieldGeneric) :=
  if negb obit then mret None
  else
    hdr ← parse_type4_header id;
    match hdr with
    | None => mret None
    | Some (num_elems, len_bits) =>
        let read_len := if 64 <? len_bits then 64 else len_bits in
        val ← read_field read_len "parse_type4_header";
        let ret := mkType4 id len_bits num_elems val in
        (if 64 <? len_bits then
           o ← try_seek_rel (Z.of_nat len_bits - 64);
           ok_or o (BufferEnded (Some "parse_type4_generic skip"))
         else mret tt);;
        mret (Some ret)
    end.

(** [for elem in elems { writer(elem, buffer)?; }]. *)
Fixpoint write_elems {T} (elems : list T) (writer : T → B unit) : B unit :=
  match elems with
  | [] => mret tt
  | e :: es => writer e;; write_elems es writer
  end.

Definition write_type4_struct {T} (obit : bool) (value : option (list T)) (id : Z)
    (writer : T → B unit) : B unit :=
  match value with
  | Some elems =>
      if negb obit then fail (InvalidValue "write_type4_struct" id)
      else
        write_type34_header_generic id;;
        pos_len_field ← gets bb_pos;
        write_bits 0 (11 + 6);;
        write_elems elems writer;;
        pos_end ← gets bb_pos;
        let len_bits := Z.of_nat (pos_end - pos_len_field - 11) in
        let num_elems := Z.of_nat (length elems) in
        set_raw_pos pos_len_field;;
        write_bits len_bits 11;;
        write_bits num_elems 6;;
        set_raw_pos pos_end
  | None => mret tt
  end.

Definition write_type4_todo (obit : bool) (value : option Type4FieldGeneric) (id : Z) : B unit :=
  match value with
  | Some _ => if negb obit then fail (InvalidValue "write_type4_todo" id) else panic
  | None => mret tt
  end.

(** * Wire format of the elements *)

Definition enc_type34_header (id : Z) : list bool := true :: bits_of_Z 4 id.

Definition enc_type3 (id : Z) (payload : list bool) : list bool :=
  enc_type34_header id ++ bits_of_Z 11 (Z.of_nat (length payload)) ++ payload.

Definition enc_type4 (id : Z) (count : nat) (payload : list bool) : list bool :=
  enc_type34_header id ++ bits_of_Z 11 (Z.of_nat (6 + length payload)) ++
  bits_of_Z 6 (Z.of_nat count) ++ payload.

Definition enc_type2 {T} (enc : T → list bool) (o : option T) : list bool :=
  match o with Some v => true :: enc v | None => [false] end.

(** * The m-bit and identifier *)

Lemma peek_bits_spec bb n : wf bb →
  peek_bits n bb = Ok (if decide (n ≤ 64 ∧ n ≤ get_len_remaining bb) then
    Some (Z_of_bits (take n (remaining bb))) else None) bb.
Proof.
  intros Hwf. unfold peek_bits. change 0%Z with (Z.of_nat 0).
  by rewrite peek_bits_posoffset_spec.
Qed.

Lemma remaining_head bb : wf bb → 1 ≤ get_len_remaining bb →
  ∃ b l, remaining bb = b :: l.
Proof.
  intros Hwf H. rewrite <-length_remaining in H by done.
  destruct (remaining bb) as [|b l]; [simpl in H; lia|by eauto].
Qed.

Lemma peek_type34_cases bb id : wf bb →
  (∃ e, peek_type34_mbit_and_id id bb = Err e bb ∧
     ∃ f, e = BufferEnded (Some f)) ∨
  peek_type34_mbit_and_id id bb = Ok false bb ∨
  (peek_type34_mbit_and_id id bb = Ok true bb ∧ 5 ≤ get_len_remaining bb ∧
     ∃ l, remaining bb = enc_type34_header id ++ l).
Proof.
  intros Hwf. unfold peek_type34_mbit_and_id. erewrite bind_ok by (by apply peek_bits_spec).
  case_decide as Hd; [|left; eauto].
  destruct (remaining_head bb) as (b & l & Hrem); [done|lia|]. rewrite Hrem. cbn [take].
  rewrite take_0, Z_of_bits_1.
  destruct b; cbn [Z.b2z]; [|by right; left].
  change 1%Z with (Z.of_nat 1). erewrite bind_ok by (by apply peek_bits_posoffset_spec).
  case_decide as Hd2; [|left; eauto]. cbv beta iota.
  destruct (decide (Z_of_bits (slice 1 4 (remaining bb)) = id)) as [Hid|Hid].
  - right. right. split; [by rewrite bool_decide_true|]. split; [lia|].
    exists (drop 4 l). unfold enc_type34_header. cbn [app]. f_equal. rewrite <-Hid, Hrem.
    unfold slice. cbn [drop]. rewrite drop_0. assert (length (take 4 l) = 4) as Hl.
    { rewrite length_take. apply (f_equal length) in Hrem. rewrite length_remaining in Hrem by done.
      simpl in Hrem. lia. }
    rewrite <-Hl at 1. by rewrite bits_of_Z_of_bits, take_drop.
  - right. left. by rewrite bool_decide_false.
Qed.

Lemma peek_type34_header id id' next : is_u 4 id' →
  reads_then (peek_type34_mbit_and_id id) [] (enc_type34_header id' ++ next) (bool_decide (id' = id)).
Proof.
  intros Hid bb Hwf Hpre. unfold enc_type34_header in Hpre. cbn [app] in Hpre.
  unfold peek_type34_mbit_and_id. pose proof (prefix_remaining_len _ _ Hwf Hpre) as Hlen.
  rewrite length_cons, length_app, length_bits_of_Z in Hlen. destruct Hpre as [l Hrem].
  erewrite bind_ok by (by apply peek_bits_spec). rewrite decide_True by lia. rewrite Hrem.
  cbn [take app]. rewrite take_0, Z_of_bits_1. cbn [Z.b2z]. cbv iota.
  change 1%Z with (Z.of_nat 1). erewrite bind_ok by (by apply peek_bits_posoffset_spec).
  rewrite decide_True by lia. rewrite Hrem, advance_0. unfold slice. cbn [drop app].
  rewrite drop_0, <-app_assoc, take_app_le, take_ge by (rewrite length_bits_of_Z; lia).
  by rewrite Z_of_bits_of_Z_small.
Qed.

(** The element is absent when the next m-bit is 0 or another identifier follows. *)
Definition absent (id : Z) (next : list bool) : Prop :=
  (∃ l, next = false :: l) ∨
  (∃ id' l, next = enc_type34_header id' ++ l ∧ is_u 4 id' ∧ id' ≠ id).

Lemma peek_type34_absent id next : absent id next →
  reads_then (peek_type34_mbit_and_id id) [] next false.
Proof.
  intros [[l ->]|(id' & l & -> & Hu & Hne)].
  - intros bb Hwf Hpre. simpl in Hpre. pose proof (prefix_remaining_len _ _ Hwf Hpre) as Hlen.
    rewrite advance_0. unfold peek_type34_mbit_and_id.
    erewrite bind_ok by (by apply peek_bits_spec).
    simpl in Hlen. rewrite decide_True by lia. destruct Hpre as [l' ->]. cbn [app take].
    by rewrite take_0.
  - rewrite <-(bool_decide_false (id' = id)) by done. by apply peek_type34_header.
Qed.

(** * Safety of the parsers *)

Lemma safe_read_bits_or n s : parser_safe (read_bits_or n s).
Proof. unfold read_bits_or. auto with parser_safe. Qed.

Lemma safe_read_pbit : parser_safe read_pbit.
Proof. unfold read_pbit. auto with parser_safe. Qed.

Lemma safe_read_obit : parser_safe read_obit.
Proof. unfold read_obit. auto with parser_safe. Qed.

Lemma safe_read_mbit : parser_safe read_mbit.
Proof. unfold read_mbit. auto with parser_safe. Qed.

Lemma safe_peek_type34 id : parser_safe (peek_type34_mbit_and_id id).
Proof.
  intros bb Hwf. unfold safe_at.
  destruct (peek_type34_cases bb id Hwf) as [(e & -> & _)|[->|(-> & _)]];
    exists 0; rewrite advance_0; (split; [lia|done]).
Qed.

#[export] Hint Resolve safe_read_bits_or safe_read_pbit safe_read_obit safe_read_mbit
  safe_peek_type34 : parser_safe.

(** A parser that looks at the m-bit and identifier and, if they match, skips
    them and goes on. *)
Lemma safe_type34 {A} (id : Z) (absent_ : B A) (k : B A) :
  parser_safe absent_ → parser_safe k →
  parser_safe (field_present ← peek_type34_mbit_and_id id;
    if negb field_present then absent_ else seek_rel 5;; k).
Proof.
  intros Ha Hk bb Hwf. apply safe_at_bind; [by apply safe_peek_type34|].
  intros a n Hn Hp.
  destruct (peek_type34_cases bb id Hwf) as [(e & Heq & _)|[Heq|(Heq & H5 & _)]];
    rewrite Heq in Hp; [discriminate|injection Hp as <- _|injection Hp as <- Hb].
  - apply Ha. by apply wf_advance.
  - assert (n = 0) as ->.
    { apply (f_equal bb_pos) in Hb. unfold advance in Hb. simpl in Hb. lia. }
    rewrite advance_0. cbn [negb].
    destruct (seek_rel_ok bb 5 Hwf H5) as [Hs _].
    apply safe_at_bind.
    + unfold safe_at. change 5%Z with (Z.of_nat 5). rewrite Hs. by exists 5.
    + intros [] m Hm _. apply Hk. by apply wf_advance.
Qed.

Lemma read_bits_or_ok bb n s : wf bb → n ≤ 64 → n ≤ get_len_remaining bb →
  read_bits_or n s bb = Ok (Z_of_bits (take n (remaining bb))) (advance n bb).
Proof.
  intros. unfold read_bits_or. erewrite bind_ok by (by rewrite read_bits_spec, decide_True).
  done.
Qed.

(** The payload read returns the integer of the element's first (at most 128) bits. *)
Lemma read_type3_data_ok bb n : wf bb → n ≤ 128 → n ≤ get_len_remaining bb →
  read_type3_data n bb = Ok (Z_of_bits (take n (remaining bb))) (advance n bb).
Proof.
  intros Hwf Hn Hr. unfold read_type3_data. destruct (Nat.leb_spec n 64).
  { by apply read_bits_or_ok. }
  pose proof (length_remaining _ Hwf) as Hl.
  erewrite bind_ok by (apply read_bits_or_ok; done || lia).
  erewrite bind_ok.
  2: { apply read_bits_or_ok; [apply wf_advance; [done|lia]|lia|].
       rewrite get_len_remaining_advance. lia. }
  rewrite advance_advance, remaining_advance. replace (n - 64 + 64) with n by lia.
  unfold mret, M_ret. f_equal.
  assert (length (take 64 (drop (n - 64) (remaining bb))) = 64) as H64.
  { rewrite length_take, length_drop. lia. }
  rewrite lor_shiftl_add.
  - replace (take n (remaining bb)) with
      (take (n - 64) (remaining bb) ++ take 64 (drop (n - 64) (remaining bb))).
    + by rewrite Z_of_bits_app, H64.
    + rewrite <-(take_drop (n - 64) (take n (remaining bb))), take_take, Nat.min_l by lia.
      rewrite skipn_firstn_comm. do 2 f_equal. lia.
  - lia.
  - by apply (Z_of_bits_is_u_len _ 64).
Qed.

(** The part of [parse_type3_generic] after the length field. *)
Definition type3_body (id : Z) (len_bits : nat) : B (option Type3FieldGeneric) :=
  bb ← get;
  if get_len_remaining bb <? len_bits then
    fail (BufferEnded (Some "parse_type3_generic data"))
  else
    let read_len := if 128 <? len_bits then 128 else len_bits in
    data ← read_type3_data read_len;
    (if 128 <? len_bits then
       o ← try_seek_rel (Z.of_nat len_bits - 128);
       ok_or o (BufferEnded (Some "parse_type3_generic skip"))
     else mret tt);;
    mret (Some (mkType3 id len_bits data)).

Lemma type3_body_ok bb id n : wf bb →
  type3_body id n bb =
    if decide (n ≤ get_len_remaining bb)
    then Ok (Some (mkType3 id n (Z_of_bits (take (n `min` 128) (remaining bb))))) (advance n bb)
    else Err (BufferEnded (Some "parse_type3_generic data")) bb.
Proof.
  intros Hwf. unfold type3_body. erewrite (bind_ok get) by done.
  destruct (Nat.ltb_spec (get_len_remaining bb) n); [by rewrite decide_False by lia|].
  rewrite decide_True by lia. cbv zeta.
  destruct (Nat.ltb_spec 128 n).
  - erewrite bind_ok by (apply read_type3_data_ok; done || lia).
    destruct (seek_rel_ok (advance 128 bb) (n - 128)) as [_ Hs].
    { apply wf_advance; [done|lia]. }
    { rewrite get_len_remaining_advance. lia. }
    replace (Z.of_nat n - 128)%Z with (Z.of_nat (n - 128)) by lia.
    erewrite bind_ok by (by erewrite bind_ok by exact Hs). rewrite advance_advance.
    rewrite Nat.min_r by lia. by replace (128 + (n - 128)) with n by lia.
  - erewrite bind_ok by (apply read_type3_data_ok; done || lia).
    rewrite Nat.min_l by lia. done.
Qed.

(** No over-the-air content makes [parse_type3_generic] panic or read past
    the window: on every well-formed buffer it returns or fails with a parse
    error, the bits stay as they are and the cursor only advances inside the
    window (the length indicator of the element is attacker-controlled). *)
Lemma parse_type3_generic_safe obit id : parser_safe (parse_type3_generic obit id).
Proof.
  unfold parse_type3_generic. destruct obit; cbn [negb]; [|auto with parser_safe].
  apply safe_type34; [auto with parser_safe|].
  apply safe_bind; [auto with parser_safe|]. intros x bb Hwf.
  change (safe_at (type3_body id (Z.to_nat x)) bb). unfold safe_at.
  rewrite type3_body_ok by done. case_decide; [by exists (Z.to_nat x)|].
  exists 0. rewrite advance_0. split; [lia|done].
Qed.

Lemma safe_parse_type2_generic obit n s : parser_safe (parse_type2_generic obit n s).
Proof.
  unfold parse_type2_generic. destruct obit; cbn [negb]; [|auto with parser_safe].
  apply safe_bind; [auto with parser_safe|]. intros []; auto with parser_safe.
Qed.

Lemma safe_parse_type2_struct {T} obit (p : B T) :
  parser_safe p → parser_safe (parse_type2_struct obit p).
Proof.
  intros. unfold parse_type2_struct. destruct obit; cbn [negb]; [|auto with parser_safe].
  apply safe_bind; [auto with parser_safe|]. intros []; auto with parser_safe.
Qed.

Lemma safe_parse_type3_struct {T} obit id (p : B T) :
  parser_safe p → parser_safe (parse_type3_struct obit id p).
Proof.
  intros. unfold parse_type3_struct. destruct obit; cbn [negb]; [|auto with parser_safe].
  apply safe_type34; [auto with parser_safe|].
  repeat (apply safe_bind; [auto with parser_safe|]; intros).
  case_decide; auto with parser_safe.
Qed.

Lemma safe_parse_type4_header id : parser_safe (parse_type4_header id).
Proof.
  apply safe_type34; [auto with parser_safe|].
  do 2 (apply safe_bind; [auto with parser_safe|]; intros). cbv zeta.
  case_match; [auto with parser_safe|].
  apply safe_bind; [auto with parser_safe|]. intros. case_match; auto with parser_safe.
Qed.

Lemma safe_parse_elems {T} n (p : B T) : parser_safe p → parser_safe (parse_elems n p).
Proof. intros Hp. induction n; simpl; auto with parser_safe. Qed.

#[export] Hint Resolve safe_parse_type2_generic safe_parse_type2_struct safe_parse_type3_struct
  safe_parse_type4_header safe_parse_elems : parser_safe.

Lemma safe_parse_type4_struct {T} obit id (p : B T) :
  parser_safe p → parser_safe (parse_type4_struct obit id p).
Proof.
  intros. unfold parse_type4_struct. destruct obit; cbn [negb]; [|auto with parser_safe].
  apply safe_bind; [auto with parser_safe|]. intros [[n len]|]; [|auto with parser_safe].
  repeat (apply safe_bind; [auto with parser_safe|]; intros).
  case_decide; auto with parser_safe.
Qed.

(** A present header means that its payload lies inside the window. *)
Lemma parse_type4_header_len bb id n len bb' : wf bb →
  parse_type4_header id bb = Ok (Some (n, len)) bb' → wf bb' ∧ len ≤ get_len_remaining bb'.
Proof.
  intros Hwf Heq. pose proof (safe_parse_type4_header id bb Hwf) as Hs.
  unfold safe_at in Hs. rewrite Heq in Hs. destruct Hs as (m & Hm & ->).
  split; [by apply wf_advance|]. revert Heq. unfold parse_type4_header. intros Heq.
  apply bind_ok_inv in Heq as ([] & bb1 & _ & Heq); cbn [negb] in Heq; [|discriminate].
  apply bind_ok_inv in Heq as ([] & bb2 & _ & Heq).
  apply bind_ok_inv in Heq as (x & bb3 & _ & Heq).
  apply bind_ok_inv in Heq as (y & bb4 & _ & Heq). cbv zeta in Heq.
  case_match; [discriminate|].
  apply bind_ok_inv in Heq as (b & bb5 & Hget & Heq). injection Hget as -> ->.
  destruct (Nat.ltb_spec (get_len_remaining bb5) (Z.to_nat x - 6)); [discriminate|].
  injection Heq as <- <- ->. lia.
Qed.

(** The same safety for [parse_type4_generic], whose length and element
    count are attacker-controlled too. *)
Lemma parse_type4_generic_safe obit id : parser_safe (parse_type4_generic obit id).
Proof.
  unfold parse_type4_generic. destruct obit; cbn [negb]; [|auto with parser_safe].
  intros bb Hwf. apply safe_at_bind; [by apply safe_parse_type4_header|].
  intros [[n len]|] m Hm Heq; [|apply safe_ret; by apply wf_advance].
  destruct (parse_type4_header_len _ _ _ _ _ Hwf Heq) as [Hwf1 Hlen].
  set (bb1 := advance m bb) in *. unfold safe_at. cbv zeta.
  destruct (Nat.ltb_spec 64 len).
  - erewrite bind_ok by (apply read_field_ok; done || lia).
    destruct (seek_rel_ok (advance 64 bb1) (len - 64)) as [_ Hs].
    { apply wf_advance; [done|lia]. }
    { rewrite get_len_remaining_advance. lia. }
    replace (Z.of_nat len - 64)%Z with (Z.of_nat (len - 64)) by lia.
    erewrite bind_ok by (by erewrite bind_ok by exact Hs). rewrite advance_advance.
    exists (64 + (len - 64)). split; [lia|done].
  - erewrite bind_ok by (apply read_field_ok; done || lia). by exists len.
Qed.

(** No over-the-air content makes a parser of optional elements panic or
    read outside the window: on every well-formed buffer the type-2, type-3 and
    type-4 parsers return or fail with a parse error, the bits stay as they are
    and the cursor only advances inside the window (lengths and element counts
    come from the sender).  The parsers of structured elements inherit this from
    the parser of the element. *)
Theorem typed_parsers_safe obit id n s :
  parser_safe (parse_type2_generic obit n s) ∧ parser_safe (parse_type3_generic obit id) ∧
  parser_safe (parse_type4_generic obit id) ∧
  ∀ T (p : B T), parser_safe p → parser_safe (parse_type2_struct obit p) ∧
    parser_safe (parse_type3_struct obit id p) ∧ parser_safe (parse_type4_struct obit id p).
Proof.
  split_and!; [apply safe_parse_type2_generic|apply parse_type3_generic_safe|apply parse_type4_generic_safe|].
  intros T p Hp. split_and!; [by apply safe_parse_type2_struct|by apply safe_parse_type3_struct|by apply safe_parse_type4_struct].
Qed.

(** * Round trips *)

Lemma reads_pbit (b : bool) : reads read_pbit [b] b.
Proof.
  replace [b] with (bits_of_Z 1 (Z.b2z b)) by apply bits_of_Z_b2z.
  eapply reads_bind_eq; [symmetry; apply app_nil_r|apply reads_field; [lia|apply b2z_is_u]|].
  destruct b; apply reads_ret.
Qed.

Lemma writes_type34_header id : is_u 4 id →
  writes (write_type34_header_generic id) (enc_type34_header id).
Proof.
  intros. apply (writes_bind _ _ [true] (bits_of_Z 4 id)); [apply (writes_bit true)|].
  apply writes_bits; [lia|done].
Qed.

Section struct_roundtrip.
Context {T : Type} (valid : T → Prop) (enc : T → list bool).
Context (to_bitbuf : T → B unit) (from_bitbuf : B T).
Context `{!BitCodec valid enc to_bitbuf from_bitbuf}.

Lemma writes_type2_struct o : (∀ x, o = Some x → valid x) →
  writes (write_type2_struct true o to_bitbuf) (enc_type2 enc o).
Proof.
  intros Hv. destruct o as [x|]; cbn [write_type2_struct negb enc_type2].
  - apply (writes_bind _ _ [true]); [apply (writes_bit true)|apply codec_writes; auto].
  - apply (writes_bit false).
Qed.

Lemma reads_type2_struct o : (∀ x, o = Some x → valid x) →
  reads (parse_type2_struct true from_bitbuf) (enc_type2 enc o) o.
Proof.
  intros Hv. unfold parse_type2_struct. cbn [negb]. destruct o as [x|]; cbn [enc_type2].
  - apply (reads_bind _ _ [true] _ true); [apply (reads_pbit true)|].
    eapply reads_bind_eq; [symmetry; apply app_nil_r|apply codec_reads; auto|apply reads_ret].
  - apply (reads_bind _ _ [false] [] false); [apply (reads_pbit false)|apply reads_ret].
Qed.

Lemma bits_11_is_u n : n < 2048 → is_u (Z.of_nat 11) (Z.of_nat n).
Proof. intros. unfold is_u. change (2 ^ Z.of_nat 11)%Z with 2048%Z. lia. Qed.

Lemma writes_type3_struct x id : valid x → is_u 4 id → length (enc x) < 2048 →
  writes (write_type3_struct true (Some x) id to_bitbuf) (enc_type3 id (enc x)).
Proof.
  intros Hv Hid Hlen. unfold write_type3_struct, enc_type3. cbn [negb].
  apply writes_bind; [by apply writes_type34_header|].
  intros bb Hwf Hcan. erewrite (bind_ok (gets _)) by done.
  assert (writes (write_bits 0 11 ≫= λ _, to_bitbuf x) (bits_of_Z 11 0 ++ enc x)) as Hbody.
  { apply writes_bind; [apply writes_bits; [lia|done]|by apply codec_writes]. }
  destruct (Hbody bb) as (bb1 & Heq1 & Hwf1 & Habs1);
    [done|by rewrite length_app, length_bits_of_Z in *|].
  destruct (backfill_spec bb bb1 (write_bits (Z.of_nat (length (enc x))) 11)
    (bits_of_Z 11 0) (bits_of_Z 11 (Z.of_nat (length (enc x)))) (enc x))
    as (bb2 & Heq2 & Hwf2 & Habs2); [done..| |].
  { apply writes_bits; [lia|by apply bits_11_is_u]. }
  exists bb2. split; [|done]. rewrite <-bind_assoc. erewrite bind_ok by exact Heq1.
  erewrite (bind_ok (gets _)) by done. rewrite <-Heq2. cbv zeta.
  apply (f_equal a_pos) in Habs1. cbn [a_pos a_write abs] in Habs1.
  rewrite length_app, length_bits_of_Z in Habs1.
  by replace (bb_pos bb1 - bb_pos bb - 11) with (length (enc x)) by lia.
Qed.

(** After a matching header the struct parser consumes exactly the announced length. *)
Lemma reads_type3_struct x id : valid x → is_u 4 id → length (enc x) < 2048 →
  reads (parse_type3_struct true id from_bitbuf) (enc_type3 id (enc x)) (Some x).
Proof.
  intros Hv Hid Hlen bb Hwf Hpre. unfold parse_type3_struct. cbn [negb].
  unfold enc_type3 in Hpre. rewrite <-(app_nil_r (_ ++ _ ++ _)) in Hpre.
  pose proof (peek_type34_header id id (bits_of_Z 11 (Z.of_nat (length (enc x))) ++ enc x)) as Hpk.
  rewrite bool_decide_true in Hpk by done.
  rewrite app_nil_r in Hpre.
  erewrite bind_ok by (by apply Hpk). rewrite advance_0. cbn [negb].
  pose proof (prefix_remaining_len _ _ Hwf Hpre) as Hl. rewrite !length_app in Hl.
  assert (reads (x ← read_bits_or 11 "parse_type3_struct len_bits";
      start_pos ← gets get_pos; result ← from_bitbuf; pos ← gets get_pos;
      if decide (start_pos + Z.to_nat x = pos) then mret (Some result)
      else fail (InconsistentLength (Z.to_nat x) (pos - start_pos)))
    (bits_of_Z 11 (Z.of_nat (length (enc x))) ++ enc x) (Some x)) as Hrest.
  { apply (reads_bind _ _ _ _ (Z.of_nat (length (enc x)))).
    { apply reads_field; [lia|by apply bits_11_is_u]. }
    rewrite Nat2Z.id. intros bb2 Hwf2 Hpre2. erewrite (bind_ok (gets _)) by done.
    erewrite bind_ok by (by apply codec_reads). erewrite (bind_ok (gets _)) by done.
    rewrite decide_True; [done|]. unfold get_pos, advance; simpl.
    pose proof (wf_start _ Hwf2). lia. }
  destruct (seek_rel_ok bb 5) as [Hs _]; [done|simpl in Hl; lia|].
  change (Z.of_nat 5) with 5%Z in Hs. erewrite bind_ok by exact Hs.
  etrans; [apply Hrest|].
  - apply wf_advance; [done|simpl in Hl; lia].
  - rewrite remaining_advance. by apply (prefix_app_drop (enc_type34_header id)).
  - unfold enc_type3. rewrite advance_advance, !length_app. done.
Qed.

(** An absent element is recognised from the bits that follow it. *)
Lemma reads_type3_struct_absent id next : absent id next →
  reads_then (parse_type3_struct true id from_bitbuf) [] next None.
Proof.
  intros Habs. unfold parse_type3_struct. cbn [negb].
  apply (reads_then_bind _ _ [] [] next next false); [by apply peek_type34_absent|done|].
  apply reads_reads_then, reads_ret.
Qed.

Definition enc_elems (es : list T) : list bool := mjoin (enc <$> es).

Lemma writes_elems es : Forall valid es → writes (write_elems es to_bitbuf) (enc_elems es).
Proof.
  induction 1 as [|e es He Hes IH]; [apply writes_ret|]. cbn [write_elems].
  apply (writes_bind _ _ (enc e) (enc_elems es)); [by apply codec_writes|done].
Qed.

Lemma reads_elems es : Forall valid es → reads (parse_elems (length es) from_bitbuf) (enc_elems es) es.
Proof.
  induction 1 as [|e es He Hes IH]; [apply reads_ret|]. cbn [parse_elems length].
  apply (reads_bind _ _ (enc e) (enc_elems es) e); [by apply codec_reads|].
  eapply reads_bind_eq; [symmetry; apply app_nil_r|exact IH|apply reads_ret].
Qed.

Lemma writes_type4_struct es id : Forall valid es → is_u 4 id →
  length (enc_elems es) < 2042 → length es < 64 →
  writes (write_type4_struct true (Some es) id to_bitbuf) (enc_type4 id (length es) (enc_elems es)).
Proof.
  intros Hv Hid Hlen Hcount. unfold write_type4_struct, enc_type4. cbn [negb].
  apply writes_bind; [by apply writes_type34_header|].
  intros bb Hwf Hcan. erewrite (bind_ok (gets _)) by done.
  assert (writes (write_bits 0 (11 + 6) ≫= λ _, write_elems es to_bitbuf)
    (bits_of_Z 17 0 ++ enc_elems es)) as Hbody.
  { apply writes_bind; [apply writes_bits; [lia|done]|by apply writes_elems]. }
  destruct (Hbody bb) as (bb1 & Heq1 & Hwf1 & Habs1);
    [done|by rewrite !length_app, !length_bits_of_Z in *|].
  set (L := Z.of_nat (6 + length (enc_elems es))) in *.
  destruct (backfill_spec bb bb1
    (write_bits L 11 ≫= λ _, write_bits (Z.of_nat (length es)) 6)
    (bits_of_Z 17 0) (bits_of_Z 11 L ++ bits_of_Z 6 (Z.of_nat (length es))) (enc_elems es))
    as (bb2 & Heq2 & Hwf2 & Habs2); [done..| |].
  { apply writes_bind; apply writes_bits; try lia; [apply bits_11_is_u; lia|].
    unfold is_u. change (2 ^ Z.of_nat 6)%Z with 64%Z. lia. }
  exists bb2. rewrite <-app_assoc in Habs2. split; [|done].
  rewrite <-bind_assoc. erewrite bind_ok by exact Heq1.
  erewrite (bind_ok (gets _)) by done. rewrite <-Heq2. cbv zeta.
  apply (f_equal a_pos) in Habs1. cbn [a_pos a_write abs] in Habs1.
  rewrite length_app, length_bits_of_Z in Habs1.
  replace (bb_pos bb1 - bb_pos bb - 11) with (6 + length (enc_elems es)) by lia.
  unfold mbind at 1 4, M_bind at 1 4. destruct (set_raw_pos (bb_pos bb) bb1); [|done..].
  by rewrite bind_assoc.
Qed.

Lemma parse_type4_header_ok bb id n payload :
  wf bb → is_u 4 id → length payload < 2042 → n < 64 →
  enc_type4 id n payload `prefix_of` remaining bb →
  parse_type4_header id bb = Ok (Some (n, length payload)) (advance 22 bb) ∧
    payload `prefix_of` remaining (advance 22 bb).
Proof.
  intros Hwf Hid Hlen Hn Hpre. unfold enc_type4 in Hpre.
  pose proof (peek_type34_header id id (bits_of_Z 11 (Z.of_nat (6 + length payload)) ++
    bits_of_Z 6 (Z.of_nat n) ++ payload) Hid bb Hwf Hpre) as Hpk.
  rewrite bool_decide_true, advance_0 in Hpk by done.
  pose proof (prefix_remaining_len _ _ Hwf Hpre) as Hl.
  unfold enc_type34_header in Hl. cbn [app length] in Hl.
  rewrite !length_app, !length_bits_of_Z in Hl.
  destruct (seek_rel_ok bb 5) as [Hs _]; [done|lia|].
  assert (wf (advance 5 bb)) as Hwf5 by (apply wf_advance; [done|lia]).
  assert (reads (read_bits_or 11 "parse_type4_header len_bits")
    (bits_of_Z 11 (Z.of_nat (6 + length payload))) (Z.of_nat (6 + length payload))) as H11.
  { apply reads_field; [lia|apply bits_11_is_u; lia]. }
  assert (reads (read_bits_or 6 "parse_type4_header num_elems")
    (bits_of_Z 6 (Z.of_nat n)) (Z.of_nat n)) as H6.
  { apply reads_field; [lia|]. unfold is_u. change (2 ^ Z.of_nat 6)%Z with 64%Z. lia. }
  apply (prefix_app_drop (enc_type34_header id)) in Hpre as Hpre5.
  change (length (enc_type34_header id)) with 5 in Hpre5. rewrite <-remaining_advance in Hpre5.
  apply prefix_app_drop in Hpre5 as Hpre16. rewrite <-remaining_advance in Hpre16.
  rewrite length_bits_of_Z, advance_advance in Hpre16.
  apply prefix_app_drop in Hpre16 as Hpre22. rewrite <-remaining_advance in Hpre22.
  rewrite length_bits_of_Z, advance_advance in Hpre22. split; [|done].
  unfold parse_type4_header. erewrite bind_ok by exact Hpk. cbn [negb].
  erewrite bind_ok by exact Hs.
  erewrite bind_ok by (apply H11; [done|etrans; [|exact Hpre5]; by eexists]).
  rewrite length_bits_of_Z, advance_advance, Nat2Z.id. cbv zeta.
  erewrite bind_ok.
  2: { apply H6; [apply wf_advance; [done|lia]|etrans; [|exact Hpre16]; by eexists]. }
  rewrite length_bits_of_Z, advance_advance, Nat2Z.id.
  destruct (Nat.ltb_spec (6 + length payload) 6); [lia|].
  erewrite (bind_ok get) by done. rewrite get_len_remaining_advance.
  destruct (Nat.ltb_spec (get_len_remaining bb - (5 + 11 + 6)) (6 + length payload - 6)); [lia|].
  by replace (6 + length payload - 6) with (length payload) by lia.
Qed.

Lemma reads_type4_struct es id : Forall valid es → is_u 4 id →
  length (enc_elems es) < 2042 → length es < 64 →
  reads (parse_type4_struct true id from_bitbuf) (enc_type4 id (length es) (enc_elems es)) (Some es).
Proof.
  intros Hv Hid Hlen Hcount bb Hwf Hpre.
  destruct (parse_type4_header_ok bb id (length es) (enc_elems es)) as [Hhdr Hpay]; [done..|].
  pose proof (prefix_remaining_len _ _ Hwf Hpre) as Hl.
  assert (length (enc_type4 id (length es) (enc_elems es)) = 22 + length (enc_elems es)) as Henc.
  { unfold enc_type4, enc_type34_header. cbn [app length].
    rewrite !length_app, !length_bits_of_Z. lia. }
  assert (wf (advance 22 bb)) as Hwf22 by (apply wf_advance; [done|lia]).
  unfold parse_type4_struct. cbn [negb]. erewrite bind_ok by exact Hhdr. cbv beta iota.
  erewrite (bind_ok (gets _)) by done. erewrite bind_ok by (by apply reads_elems).
  erewrite (bind_ok (gets _)) by done. rewrite advance_advance.
  rewrite decide_True; [by rewrite Henc|]. unfold get_pos, advance; simpl.
  pose proof (wf_start _ Hwf). lia.
Qed.
End struct_roundtrip.

(** A type-3 element written by [write_type3_struct] is read back by
    [parse_type3_struct] with the same identifier, for every element type whose
    own writer and parser satisfy the codec interface; the backfilled length
    field equals the length of the element, and the element ends exactly where
    the parser stops. *)
Lemma type3_struct_roundtrip {T} valid enc (to_bitbuf : T → B unit) (from_bitbuf : B T)
    `{!BitCodec valid enc to_bitbuf from_bitbuf} x id :
  valid x → is_u 4 id → length (enc x) < 2048 →
  ∃ bs, writes (write_type3_struct true (Some x) id to_bitbuf) bs ∧
    reads (parse_type3_struct true id from_bitbuf) bs (Some x) ∧
    length bs = 16 + length (enc x).
Proof.
  intros. exists (enc_type3 id (enc x)).
  split; [by eapply writes_type3_struct|]. split; [by eapply reads_type3_struct|].
  unfold enc_type3, enc_type34_header. cbn [app length].
  rewrite !length_app, !length_bits_of_Z. lia.
Qed.

(** A list of elements written by [write_type4_struct] is read back by
    [parse_type4_struct], with the element count and the total length that the
    writer backfills. *)
Lemma type4_struct_roundtrip {T} valid enc (to_bitbuf : T → B unit) (from_bitbuf : B T)
    `{!BitCodec valid enc to_bitbuf from_bitbuf} es id :
  Forall valid es → is_u 4 id → length es < 64 → length (mjoin (enc <$> es)) < 2042 →
  ∃ bs, writes (write_type4_struct true (Some es) id to_bitbuf) bs ∧
    reads (parse_type4_struct true id from_bitbuf) bs (Some es).
Proof.
  intros. exists (enc_type4 id (length es) (enc_elems enc es)).
  split; [by eapply writes_type4_struct|by eapply reads_type4_struct].
Qed.

(** A six-bit field as an element: the codec the witnesses use. *)
#[local] Instance u6_codec : BitCodec (is_u 6) (bits_of_Z 6) (λ v, write_bits v 6) (read_field 6 "elem").
Proof. split; intros v Hv; [by apply writes_bits; [lia|]|by apply reads_field; [lia|]]. Defined.

(** * Generic type-3 elements *)

Lemma writes_type3_generic id len data : is_u 4 id → len ≤ 128 → is_u (Z.of_nat len) data →
  writes (write_type3_generic true (Some (mkType3 id len data)) id)
    (enc_type3 id (bits_of_Z len data)).
Proof.
  intros Hid Hlen Hdata. unfold write_type3_generic, enc_type3. cbn [negb t3_len t3_data].
  rewrite length_bits_of_Z. apply writes_bind; [by apply writes_type34_header|].
  apply writes_bind; [apply writes_bits; [lia|apply bits_11_is_u; lia]|].
  destruct (Nat.leb_spec len 64).
  - rewrite <-(bits_of_Z_wrap_le len 64) by lia. apply writes_bits; [lia|].
    rewrite wrap_small; [done|]. unfold is_u in *. split; [lia|].
    apply (Z.lt_le_trans _ _ _ (proj2 Hdata)), Z.pow_le_mono_r; lia.
  - assert (bits_of_Z len data = bits_of_Z (len - 64) (Z.shiftr data 64) ++ bits_of_Z 64 data) as ->.
    { rewrite <-(bits_of_Z_app (len - 64) 64). f_equal. lia. }
    assert (is_u (Z.of_nat (len - 64)) (Z.shiftr data 64)) as Hhi.
    { unfold is_u in *. rewrite Z.shiftr_div_pow2 by lia.
      split; [apply Z.div_pos; lia|]. apply Z.div_lt_upper_bound; [lia|].
      rewrite <-Z.pow_add_r by lia. replace (64 + Z.of_nat (len - 64))%Z with (Z.of_nat len) by lia. lia. }
    rewrite (wrap_small 64 (Z.shiftr data 64)).
    2: { unfold is_u in *. split; [lia|].
         apply (Z.lt_le_trans _ _ _ (proj2 Hhi)), Z.pow_le_mono_r; lia. }
    apply writes_bind; [apply writes_bits; [lia|done]|].
    rewrite <-(bits_of_Z_wrap_le 64 64) by lia. apply writes_bits; [lia|by apply wrap_is_u].
Qed.

Lemma prefix_take_min {A} (l l' : list A) n : l `prefix_of` l' →
  take (length l `min` n) l' = take n l.
Proof.
  intros [k ->]. rewrite take_app_le by lia. destruct (decide (length l ≤ n)).
  - by rewrite Nat.min_l, !take_ge by lia.
  - by rewrite Nat.min_r by lia.
Qed.

(** The parser accepts any payload length; it keeps the first 128 bits. *)
Lemma reads_type3_generic id payload : is_u 4 id → length payload < 2048 →
  reads (parse_type3_generic true id) (enc_type3 id payload)
    (Some (mkType3 id (length payload) (Z_of_bits (take 128 payload)))).
Proof.
  intros Hid Hlen bb Hwf Hpre. unfold parse_type3_generic. cbn [negb]. unfold enc_type3 in *.
  pose proof (peek_type34_header id id _ Hid bb Hwf Hpre) as Hpk.
  rewrite bool_decide_true, advance_0 in Hpk by done.
  erewrite bind_ok by exact Hpk. cbn [negb].
  pose proof (prefix_remaining_len _ _ Hwf Hpre) as Hl.
  unfold enc_type34_header in Hl. cbn [app length] in Hl. rewrite !length_app, !length_bits_of_Z in Hl.
  destruct (seek_rel_ok bb 5) as [Hs _]; [done|lia|].
  change (Z.of_nat 5) with 5%Z in Hs. erewrite bind_ok by exact Hs.
  apply (prefix_app_drop (enc_type34_header id)) in Hpre as Hpre5.
  change (length (enc_type34_header id)) with 5 in Hpre5. rewrite <-remaining_advance in Hpre5.
  assert (reads (x ← read_bits_or 11 "parse_type3_generic len_bits"; type3_body id (Z.to_nat x))
    (bits_of_Z 11 (Z.of_nat (length payload)) ++ payload)
    (Some (mkType3 id (length payload) (Z_of_bits (take 128 payload))))) as Hrest.
  { apply (reads_bind _ _ _ _ (Z.of_nat (length payload))).
    { apply reads_field; [lia|by apply bits_11_is_u]. }
    rewrite Nat2Z.id. intros bb2 Hwf2 Hpre2.
    pose proof (prefix_remaining_len _ _ Hwf2 Hpre2) as Hl2.
    by rewrite type3_body_ok, decide_True, prefix_take_min by done. }
  etrans; [apply Hrest; [apply wf_advance; [done|lia]|done]|].
  unfold enc_type34_header. cbn [app length]. rewrite advance_advance, !length_app, !length_bits_of_Z.
  done.
Qed.

(** A generic type-3 element of up to 128 payload bits survives writing and
    parsing: identifier, length and payload come back unchanged. *)
Lemma type3_generic_roundtrip id len data :
  is_u 4 id → len ≤ 128 → is_u (Z.of_nat len) data →
  ∃ bs, writes (write_type3_generic true (Some (mkType3 id len data)) id) bs ∧
    reads (parse_type3_generic true id) bs (Some (mkType3 id len data)).
Proof.
  intros Hid Hlen Hdata. exists (enc_type3 id (bits_of_Z len data)).
  split; [by apply writes_type3_generic|].
  pose proof (reads_type3_generic id (bits_of_Z len data) Hid) as Hr.
  rewrite length_bits_of_Z, take_ge, Z_of_bits_of_Z_small in Hr
    by (rewrite ?length_bits_of_Z; done). apply Hr. lia.
Qed.

(** Optional elements survive writing and parsing.  A type-3 element and a
    list of elements in a type-4 field come back for every element type whose
    own writer and parser satisfy the codec interface, with the length field and
    element count that the writer backfills, and the parser stops exactly at the
    end of the element; so does a generic type-3 element of up to 128 bits. *)
Theorem typed_fields_roundtrip {T} valid enc (to_bitbuf : T → B unit) (from_bitbuf : B T)
    `{!BitCodec valid enc to_bitbuf from_bitbuf} id : is_u 4 id →
  (∀ x, valid x → length (enc x) < 2048 →
     ∃ bs, writes (write_type3_struct true (Some x) id to_bitbuf) bs ∧
       reads (parse_type3_struct true id from_bitbuf) bs (Some x) ∧ length bs = 16 + length (enc x)) ∧
  (∀ es, Forall valid es → length es < 64 → length (mjoin (enc <$> es)) < 2042 →
     ∃ bs, writes (write_type4_struct true (Some es) id to_bitbuf) bs ∧
       reads (parse_type4_struct true id from_bitbuf) bs (Some es)) ∧
  (∀ len data, len ≤ 128 → is_u (Z.of_nat len) data →
     ∃ bs, writes (write_type3_generic true (Some (mkType3 id len data)) id) bs ∧
       reads (parse_type3_generic true id) bs (Some (mkType3 id len data))).
Proof.
  intros Hid. split_and!.
  - intros. by eapply type3_struct_roundtrip.
  - intros. by eapply type4_struct_roundtrip.
  - intros. by apply type3_generic_roundtrip.
Qed.

Lemma typed_fields_roundtrip_witness : ∃ bs,
  writes (write_type4_struct true (Some [1; 63; 0]%Z) 5 (λ v, write_bits v 6)) bs ∧
  reads (parse_type4_struct true 5 (read_field 6 "elem")) bs (Some [1; 63; 0]%Z).
Proof.
  destruct (typed_fields_roundtrip (is_u 6) (bits_of_Z 6) (λ v, write_bits v 6) (read_field 6 "elem") 5)
    as (_ & H & _); [unfold is_u; lia|].
  apply (H [1; 63; 0]%Z); [repeat constructor; unfold is_u; lia|simpl; lia|simpl; lia].
Defined.

(** An element with more than 128 payload bits is accepted by
    [parse_type3_generic], which keeps its length and its first 128 payload
    bits; handing the parsed element to [write_type3_generic] panics, even on
    an auto-expanding buffer with room for it. *)
Theorem type3_generic_long_write_panics id payload bb :
  128 < length payload < 2048 → wf bb → bb_autoexpand bb = true → bb_pos bb = bb_end bb →
  is_u 4 id → (Z.of_nat (bb_end bb + 16) ≤ usize_max)%Z →
  let elem := mkType3 id (length payload) (Z_of_bits (take 128 payload)) in
  reads (parse_type3_generic true id) (enc_type3 id payload) (Some elem) ∧
  write_type3_generic true (Some elem) id bb = Panic.
Proof.
  intros Hlen Hwf Hauto Hpos Hid Hu elem. split; [apply reads_type3_generic; [done|lia]|].
  unfold write_type3_generic. cbn [negb t3_len t3_data elem].
  assert (writes (write_type34_header_generic id ≫= λ _, write_bits (Z.of_nat (length payload)) 11)
    (enc_type34_header id ++ bits_of_Z 11 (Z.of_nat (length payload)))) as Hw.
  { apply writes_bind; [by apply writes_type34_header|].
    apply writes_bits; [lia|apply bits_11_is_u; lia]. }
  destruct (Hw bb Hwf) as (bb1 & Heq & _).
  { unfold enc_type34_header. cbn [app length]. rewrite length_app, !length_bits_of_Z.
    split; [by right|]. simpl. lia. }
  rewrite <-bind_assoc. erewrite bind_ok by exact Heq.
  destruct (Nat.leb_spec (length payload) 64); [lia|]. apply bind_panic, write_bits_too_wide. lia.
Qed.

Lemma type3_generic_long_write_panics_witness :
  let elem := mkType3 3 129 (Z_of_bits (replicate 128 true)) in
  reads (parse_type3_generic true 3) (enc_type3 3 (replicate 129 true)) (Some elem) ∧
  write_type3_generic true (Some elem) 3 (new_autoexpand 512) = Panic.
Proof.
  apply (type3_generic_long_write_panics 3 (replicate 129 true) (new_autoexpand 512)).
  - rewrite length_replicate. lia.
  - apply wf_new_autoexpand.
  - done.
  - done.
  - unfold is_u. lia.
  - unfold usize_max. simpl. lia.
Defined.
