(* ===== verification/PduCodec.v ===== *)
(** Layer-3 PDUs: a sequence of fixed fields, an o-bit, and a tail of optional
    elements that ends with an m-bit 0.

    The lemmas below walk a writer and a parser along such a PDU one element at
    a time.  Absent type-3 and type-4 elements take no bits; the parser tells by
    looking ahead, so its steps carry the bits that follow.  [pdu_writes],
    [pdu_reads] and [pdu_safe] do the walk for the PDU files. *)
From S2P Require Import Prelude Bits Core BitBuffer BitBufferSpec BitCodec BitBufferThms FieldCodec TypedFieldsSpec.

(** * Enumerations with raw values *)

(** The conversions of an enumeration that is sent in [n] bits. *)
Class RawEnum {E} (n : nat) (into_raw : E → Z) (try_from : Z → option E) : Prop := {
  raw_fits e : is_u (Z.of_nat n) (into_raw e);
  raw_inverse e : try_from (into_raw e) = Some e
}.

(** Every [n]-bit value is one of the enumeration, so [try_from(..).unwrap()]
    cannot fail on a received field. *)
Class TotalEnum {E} (n : nat) (try_from : Z → option E) : Prop :=
  raw_total v : is_u (Z.of_nat n) v → is_Some (try_from v).

Lemma total_by_cases {E} n (f : Z → option E) :
  forallb (λ m, is_some (f (Z.of_nat m))) (seq 0 (2 ^ n)) = true → TotalEnum n f.
Proof.
  rewrite forallb_forall. intros Hall v [H1 H2]. specialize (Hall (Z.to_nat v)).
  rewrite Z2Nat.id in Hall by lia. destruct (f v) as [e|]; [by exists e|]. cbn in Hall. discriminate Hall.
  apply in_seq. split; [lia|]. rewrite Nat.add_0_l. apply Nat2Z.inj_lt. rewrite Z2Nat.id by lia. by rewrite Nat2Z.inj_pow.
Qed.

(** Instances by enumeration of the cases. *)
Ltac raw_enum := split; intros []; done.
Ltac total_enum := apply total_by_cases; reflexivity.

(** * Elements *)

Definition t2_bits (n : nat) (o : option Z) : list bool := enc_type2 (bits_of_Z n) o.
Definition t3_bits (id : Z) (o : option Type3FieldGeneric) : list bool :=
  match o with Some f => enc_type3 id (bits_of_Z (t3_len f) (t3_data f)) | None => [] end.
Definition t3s_bits {T} (enc : T → list bool) (id : Z) (o : option T) : list bool :=
  match o with Some x => enc_type3 id (enc x) | None => [] end.
Definition t4s_bits {T} (enc : T → list bool) (id : Z) (o : option (list T)) : list bool :=
  match o with Some es => enc_type4 id (length es) (enc_elems enc es) | None => [] end.
(** The o-bit and the tail. *)
Definition obit_bits (obit : bool) (tail : list bool) : list bool := if obit then true :: tail else [false].

(** Values that fit their element; a generic type-3 element carries its own
    identifier and at most 128 bits. *)
Definition t2_ok (n : nat) (o : option Z) : Prop := match o with Some v => is_u (Z.of_nat n) v | None => True end.
Definition t3_ok (id : Z) (o : option Type3FieldGeneric) : Prop :=
  match o with
  | Some f => t3_field_id f = id ∧ t3_len f ≤ 128 ∧ is_u (Z.of_nat (t3_len f)) (t3_data f)
  | None => True
  end.
Definition opt_ok {T} (valid : T → Prop) (o : option T) : Prop := match o with Some x => valid x | None => True end.

(** * Writing *)

Lemma writes_obit b : writes (write_obit (Z.b2z b)) [b].
Proof. apply writes_bit. Qed.
Lemma writes_mbit_0 : writes (write_mbit 0) [false].
Proof. apply (writes_bit false). Qed.

Lemma writes_t2 n o : n ≤ 64 → t2_ok n o → writes (write_type2_generic true o n) (t2_bits n o).
Proof.
  intros Hn Ho. destruct o as [v|]; cbn [write_type2_generic negb t2_bits enc_type2].
  - apply (writes_bind _ _ [true]); [apply (writes_bit true)|by apply writes_bits].
  - apply (writes_bit false).
Qed.

Lemma writes_t3 id o : is_u 4 id → t3_ok id o → writes (write_type3_generic true o id) (t3_bits id o).
Proof.
  intros Hid Ho. destruct o as [[i len data]|]; [|apply writes_ret]. destruct Ho as (Hi & Hl & Hd). cbn in Hi, Hl, Hd. subst i.
  by apply writes_type3_generic.
Qed.

Lemma writes_tail obit (tail : B unit) bs : (obit = true → writes tail bs) →
  writes (write_obit (Z.b2z obit);; if negb obit then mret tt else tail) (obit_bits obit bs).
Proof.
  intros Ht. destruct obit; cbn [obit_bits negb].
  - apply (writes_bind _ _ [true]); [apply writes_obit|by apply Ht].
  - apply (writes_bind _ _ [false] []); [apply writes_obit|apply writes_ret].
Qed.

(** * Reading *)

Lemma reads_step {A C} (p : B A) (k : A → B C) bs rest a c :
  reads_then p bs rest a → reads (k a) rest c → reads (p ≫= k) (bs ++ rest) c.
Proof.
  intros Hp Hk. apply reads_then_reads. eapply reads_then_bind; [exact Hp|by rewrite app_nil_r|].
  by apply reads_reads_then.
Qed.

Lemma reads_ret_eq {A} (a b : A) : a = b → reads (mret a) [] b.
Proof. intros ->. apply reads_ret. Qed.

Lemma reads_obit b : reads read_obit [b] b.
Proof.
  replace [b] with (bits_of_Z 1 (Z.b2z b)) by apply bits_of_Z_b2z.
  eapply reads_bind_eq; [symmetry; apply app_nil_r|apply reads_field; [lia|apply b2z_is_u]|].
  destruct b; apply reads_ret.
Qed.

Lemma reads_t2 n s o : n ≤ 64 → t2_ok n o → reads (parse_type2_generic true n s) (t2_bits n o) o.
Proof.
  intros Hn Ho. unfold parse_type2_generic, t2_bits. cbn [negb]. destruct o as [v|]; cbn [enc_type2].
  - apply (reads_bind _ _ [true] _ true); [apply (reads_pbit true)|].
    eapply reads_bind_eq; [symmetry; apply app_nil_r|by apply reads_field|apply reads_ret].
  - apply (reads_bind _ _ [false] [] false); [apply (reads_pbit false)|apply reads_ret].
Qed.

Lemma reads_t3 id o rest : is_u 4 id → t3_ok id o → absent id rest →
  reads_then (parse_type3_generic true id) (t3_bits id o) rest o.
Proof.
  intros Hid Ho Habs. destruct o as [[i len data]|]; cbn [t3_bits t3_len t3_data].
  - destruct Ho as (Hi & Hl & Hd). cbn in Hi, Hl, Hd. subst i. apply reads_reads_then.
    pose proof (reads_type3_generic id (bits_of_Z len data) Hid) as H. rewrite length_bits_of_Z in H.
    rewrite take_ge, Z_of_bits_of_Z, wrap_small in H by (done || rewrite length_bits_of_Z; lia). apply H. lia.
  - unfold parse_type3_generic. cbn [negb].
    apply (reads_then_bind _ _ [] [] rest rest false); [by apply peek_type34_absent|done|].
    apply reads_reads_then, reads_ret.
Qed.

Lemma absent_end id l : absent id (false :: l).
Proof. left. by exists l. Qed.

Lemma absent_enc3 id id' p rest : is_u 4 id' → id' ≠ id → absent id (enc_type3 id' p ++ rest).
Proof. intros. right. exists id'. eexists. unfold enc_type3. rewrite <- app_assoc. done. Qed.
Lemma absent_enc4 id id' n p rest : is_u 4 id' → id' ≠ id → absent id (enc_type4 id' n p ++ rest).
Proof. intros. right. exists id'. eexists. unfold enc_type4. rewrite <- app_assoc. done. Qed.

Lemma absent_t3 id id' o rest : is_u 4 id' → id' ≠ id → absent id rest → absent id (t3_bits id' o ++ rest).
Proof. intros. destruct o; [by apply absent_enc3|done]. Qed.
Lemma absent_t3s {T} (enc : T → list bool) id id' o rest : is_u 4 id' → id' ≠ id → absent id rest →
  absent id (t3s_bits enc id' o ++ rest).
Proof. intros. destruct o; [by apply absent_enc3|done]. Qed.
Lemma absent_t4s {T} (enc : T → list bool) id id' o rest : is_u 4 id' → id' ≠ id → absent id rest →
  absent id (t4s_bits enc id' o ++ rest).
Proof. intros. destruct o; [by apply absent_enc4|done]. Qed.

Lemma absent_nothing id rest : absent id rest → absent id ([] ++ rest).
Proof. done. Qed.

(** Generic type-4 elements cannot be written; the parser finds none. *)
Lemma reads_t4_none id rest : absent id rest → reads_then (parse_type4_generic true id) [] rest None.
Proof.
  intros Habs. unfold parse_type4_generic, parse_type4_header. cbn [negb].
  apply (reads_then_bind _ _ [] [] rest rest None); [|done|apply reads_reads_then, reads_ret].
  apply (reads_then_bind _ _ [] [] rest rest false); [by apply peek_type34_absent|done|].
  apply reads_reads_then, reads_ret.
Qed.

(** Without an o-bit every optional element is absent. *)
Lemma skips_t2 n s : pure_step (parse_type2_generic false n s) None.
Proof. done. Qed.
Lemma skips_t2s {T} (p : B T) : pure_step (parse_type2_struct false p) None.
Proof. done. Qed.
Lemma skips_t3 id : pure_step (parse_type3_generic false id) None.
Proof. done. Qed.
Lemma skips_t3s {T} id (p : B T) : pure_step (parse_type3_struct false id p) None.
Proof. done. Qed.
Lemma skips_t4 id : pure_step (parse_type4_generic false id) None.
Proof. done. Qed.
Lemma skips_t4s {T} id (p : B T) : pure_step (parse_type4_struct false id p) None.
Proof. done. Qed.

Lemma reads_tail {C} obit (k : bool → B C) bs c : (obit = true → reads (k true) bs c) →
  (obit = false → reads (k false) [] c) → reads (read_obit ≫= k) (obit_bits obit bs) c.
Proof.
  intros Ht Hf. destruct obit; cbn [obit_bits].
  - apply (reads_step _ _ [true] bs true); [apply reads_reads_then, reads_obit|by apply Ht].
  - apply (reads_step _ _ [false] [] false); [apply reads_reads_then, reads_obit|by apply Hf].
Qed.

(** A field that is sent only under a condition on the fields before it. *)
Definition opt_bits (n : nat) (o : option Z) : list bool := match o with Some v => bits_of_Z n v | None => [] end.

Lemma writes_cond n o : n ≤ 64 → t2_ok n o →
  writes (match o with Some value => write_bits value n | None => mret tt end) (opt_bits n o).
Proof. intros Hn Ho. destruct o; [by apply writes_bits|apply writes_ret]. Qed.

Lemma reads_cond (c : bool) n s f o : n ≤ 64 → t2_ok n o → c = is_some o → (∀ v, is_u (Z.of_nat n) v → f v = v) →
  reads (if c then v ← read_field n s; mret (Some (f v)) else mret None) (opt_bits n o) o.
Proof.
  intros Hn Ho -> Hf. destruct o as [v|]; cbn [is_some opt_bits]; [|apply reads_ret]. rewrite <- (app_nil_r (bits_of_Z n v)).
  apply (reads_bind _ _ _ [] v); [by apply reads_field|]. rewrite Hf by done. apply reads_ret.
Qed.

Lemma skips_cond (c : bool) n s (f : Z → Z) : c = false →
  pure_step (if c then v ← read_field n s; mret (Some (f v)) else mret None) None.
Proof. by intros ->. Qed.

(** [obit = if obit { read_field(1, "trailing_obit")? == 1 } else { obit };
    if obit { return Err(InvalidTrailingMbitValue) }] before the result. *)
Definition finish {A} (obit : bool) (a : A) : B A :=
  trailing ← (if obit then v ← read_field 1 "trailing_obit"; mret (v =? 1)%Z else mret obit);
  if (trailing : bool) then fail InvalidTrailingMbitValue else mret a.

Lemma reads_finish {A} obit (a b : A) : a = b → reads (finish obit a) (if obit then [false] else []) b.
Proof.
  intros ->. unfold finish. destruct obit.
  - apply (reads_step _ _ [false] [] false); [|apply reads_ret].
    apply reads_reads_then. apply (reads_bind _ _ [false] [] 0%Z); [apply (reads_field 1 _ 0%Z); [lia|done]|apply reads_ret].
  - apply (reads_bind _ _ [] [] false); apply reads_ret.
Qed.

(** * Structured elements *)

Section structured.
Context {T : Type} (valid : T → Prop) (enc : T → list bool) (to_bitbuf : T → B unit) (from_bitbuf : B T).
Context `{!BitCodec valid enc to_bitbuf from_bitbuf}.

Lemma writes_t2s o : opt_ok valid o → writes (write_type2_struct true o to_bitbuf) (enc_type2 enc o).
Proof. intros Ho. apply (writes_type2_struct valid enc to_bitbuf from_bitbuf). by intros x ->. Qed.

Lemma reads_t2s o : opt_ok valid o → reads (parse_type2_struct true from_bitbuf) (enc_type2 enc o) o.
Proof. intros Ho. apply (reads_type2_struct valid enc to_bitbuf from_bitbuf). by intros x ->. Qed.

Definition t3s_ok (o : option T) : Prop := opt_ok (λ x, valid x ∧ length (enc x) < 2048) o.
Definition t4s_ok (o : option (list T)) : Prop :=
  opt_ok (λ es, Forall valid es ∧ length (enc_elems enc es) < 2042 ∧ length es < 64) o.

Lemma writes_t3s id o : is_u 4 id → t3s_ok o → writes (write_type3_struct true o id to_bitbuf) (t3s_bits enc id o).
Proof. intros Hid Ho. destruct o as [x|]; [|apply writes_ret]. destruct Ho. by apply (writes_type3_struct valid enc to_bitbuf from_bitbuf). Qed.

Lemma reads_t3s id o rest : is_u 4 id → t3s_ok o → absent id rest →
  reads_then (parse_type3_struct true id from_bitbuf) (t3s_bits enc id o) rest o.
Proof.
  intros Hid Ho Habs. destruct o as [x|].
  - destruct Ho. apply reads_reads_then. by apply (reads_type3_struct valid enc to_bitbuf from_bitbuf).
  - by apply reads_type3_struct_absent.
Qed.

Lemma writes_t4s id o : is_u 4 id → t4s_ok o → writes (write_type4_struct true o id to_bitbuf) (t4s_bits enc id o).
Proof.
  intros Hid Ho. destruct o as [es|]; [|apply writes_ret]. destruct Ho as (? & ? & ?).
  by apply (writes_type4_struct valid enc to_bitbuf from_bitbuf).
Qed.

Lemma reads_t4s id o rest : is_u 4 id → t4s_ok o → absent id rest →
  reads_then (parse_type4_struct true id from_bitbuf) (t4s_bits enc id o) rest o.
Proof.
  intros Hid Ho Habs. destruct o as [es|].
  - destruct Ho as (? & ? & ?). apply reads_reads_then. by apply (reads_type4_struct valid enc to_bitbuf from_bitbuf).
  - unfold parse_type4_struct, parse_type4_header. cbn [negb].
    apply (reads_then_bind _ _ [] [] rest rest None); [|done|apply reads_reads_then, reads_ret].
    apply (reads_then_bind _ _ [] [] rest rest false); [by apply peek_type34_absent|done|].
    apply reads_reads_then, reads_ret.
Qed.
End structured.

(** * Steps without bits *)

Lemma pure_unwrap {A} (o : option A) a : o = Some a → pure_step (unwrap o) a.
Proof. by intros ->. Qed.
Lemma pure_ok_or {A} (o : option A) e a : o = Some a → pure_step (ok_or o e) a.
Proof. by intros ->. Qed.
Lemma pure_ok_or_opt {E} (into_raw : E → Z) (try_from : Z → option E) n field o `{!RawEnum n into_raw try_from} :
  pure_step (match into_raw <$> o with
    | None => mret None
    | Some val => e ← ok_or (try_from val) (InvalidValue field val); mret (Some e)
    end) o.
Proof. destruct o as [e|]; [|done]. intros bb. cbn [fmap option_fmap option_map]. by rewrite raw_inverse. Qed.
Lemma pure_unwrap_opt {E} (into_raw : E → Z) (try_from : Z → option E) n o `{!RawEnum n into_raw try_from} :
  pure_step (match into_raw <$> o with
    | None => mret None
    | Some v => e ← unwrap (try_from v); mret (Some e)
    end) o.
Proof. destruct o as [e|]; [|done]. intros bb. cbn [fmap option_fmap option_map]. by rewrite raw_inverse. Qed.
Lemma t2_ok_raw {E} (into_raw : E → Z) (try_from : Z → option E) n o `{!RawEnum n into_raw try_from} :
  t2_ok n (into_raw <$> o).
Proof. destruct o; [|done]. apply raw_fits. Qed.
Lemma pure_expect v raw : v = raw → pure_step (expect_pdu_type v raw) tt.
Proof. intros -> bb. unfold expect_pdu_type. by rewrite decide_True. Qed.
Lemma pure_expect_value v e s : v = e → pure_step (expect_value v e s) tt.
Proof. intros -> bb. unfold expect_value. by rewrite decide_True. Qed.
Lemma pure_ret {A} (a : A) : pure_step (mret a) a.
Proof. done. Qed.

(** * Safety *)

Lemma safe_field_bind {C} n s (k : Z → B C) : (∀ v, is_u (Z.of_nat n) v → parser_safe (k v)) →
  parser_safe (read_field n s ≫= k).
Proof.
  intros Hk bb Hwf. apply safe_at_bind; [by apply safe_read_field|]. intros v m Hm Heq.
  apply Hk; [|by apply wf_advance]. unfold read_field in Heq. unfold mbind, M_bind in Heq.
  rewrite read_bits_spec in Heq by done. case_decide; [|done]. injection Heq as <- _.
  pose proof (Z_of_bits_is_u (take n (remaining bb))) as Hu. rewrite length_take, length_remaining in Hu by done.
  by rewrite Nat.min_l in Hu by lia.
Qed.

Lemma safe_assoc {A C D} (m : B A) (f : A → B C) (g : C → B D) :
  parser_safe (m ≫= λ a, f a ≫= g) → parser_safe ((m ≫= f) ≫= g).
Proof. intros Hs bb Hwf. specialize (Hs bb Hwf). unfold safe_at in *. by rewrite bind_assoc. Qed.

Lemma safe_t2_bind {C} obit n s (k : option Z → B C) : (∀ o, t2_ok n o → parser_safe (k o)) →
  parser_safe (parse_type2_generic obit n s ≫= k).
Proof.
  intros Hk. unfold parse_type2_generic. destruct obit; cbn [negb]; [|apply (Hk None I)].
  apply safe_assoc, safe_bind; [apply safe_read_pbit|]. intros []; [|apply (Hk None I)].
  apply safe_assoc, safe_field_bind. intros v Hv. apply (Hk (Some v) Hv).
Qed.

Lemma safe_unwrap {A} (o : option A) : is_Some o → parser_safe (unwrap o : B A).
Proof. intros [a ->]. apply safe_ret. Qed.

(** An enumeration in an optional field. *)
Lemma safe_unwrap_opt {E} (try_from : Z → option E) n o `{!TotalEnum n try_from} : t2_ok n o →
  parser_safe (match o with None => mret None | Some v => e ← unwrap (try_from v); mret (Some e) end : B (option E)).
Proof.
  intros Ho. destruct o as [v|]; [|apply safe_ret]. apply safe_bind; [by apply safe_unwrap, raw_total|]. intros. apply safe_ret.
Qed.

Lemma safe_expect v raw : parser_safe (expect_pdu_type v raw : B unit).
Proof. unfold expect_pdu_type. case_decide; auto with parser_safe. Qed.
Lemma safe_expect_value v e s : parser_safe (expect_value v e s : B unit).
Proof. unfold expect_value. case_decide; auto with parser_safe. Qed.
Lemma safe_finish {A} obit (a : A) : parser_safe (finish obit a).
Proof.
  unfold finish. apply safe_bind; [|intros []; auto with parser_safe].
  destruct obit; [|auto with parser_safe]. apply safe_bind; auto with parser_safe.
Qed.

#[export] Hint Resolve safe_expect safe_expect_value safe_finish safe_read_obit parse_type3_generic_safe
  parse_type4_generic_safe safe_parse_type4_struct : parser_safe.

(** * Walking along a PDU *)

(** Facts about the fields of single PDUs. *)
Create HintDb pdu discriminated.

Ltac pdu_side := first
  [ done | assumption | lia | apply b2z_is_u | apply raw_fits | apply raw_inverse | by destruct_and?
  | unfold is_u; cbn; lia | eapply t2_ok_raw; apply _ | solve [auto with pdu] ].

(** The parser's condition for a field is that the field is there. *)
Ltac pdu_fits := let v := fresh in let H := fresh in intros v H; first [ done | eapply wrap_fits; [exact H|lia] ].
Ltac pdu_cond := cbn [andb orb]; first
  [ done | symmetry; assumption | apply b2z_nonzero | rewrite b2z_nonzero; symmetry; assumption | solve [auto with pdu]
  | match goal with H : is_u ?n ?v |- context[wrap ?w ?v] => rewrite (wrap_fits n w v H) by lia end; symmetry; assumption ].

Ltac pdu_absent := repeat lazymatch goal with
  | |- absent _ ([] ++ _) => apply absent_nothing
  | |- absent _ (false :: _) => apply absent_end
  | |- absent _ (t3_bits _ _ ++ _) => apply absent_t3; [pdu_side|pdu_side|]
  | |- absent _ (t3s_bits _ _ _ ++ _) => apply absent_t3s; [pdu_side|pdu_side|]
  | |- absent _ (t4s_bits _ _ _ ++ _) => apply absent_t4s; [pdu_side|pdu_side|]
  end.

Ltac pdu_write := lazymatch goal with
  | |- writes (write_bits _ _) _ => apply writes_bits; [lia|pdu_side]
  | |- writes (write_type2_generic _ _ _) _ => apply writes_t2; [lia|pdu_side]
  | |- writes (write_type2_struct _ _ _) _ => eapply writes_t2s; [apply _|pdu_side]
  | |- writes (write_type3_generic _ _ _) _ => apply writes_t3; pdu_side
  | |- writes (write_type3_struct _ _ _ _) _ => eapply writes_t3s; [apply _|pdu_side|pdu_side]
  | |- writes (write_type4_struct _ _ _ _) _ => eapply writes_t4s; [apply _|pdu_side|pdu_side]
  | |- writes (write_type4_todo _ _ _) _ => apply writes_ret
  | |- writes (write_mbit 0) _ => apply writes_mbit_0
  | |- writes (match _ with Some _ => write_bits _ _ | None => _ end) _ => apply writes_cond; [lia|pdu_side]
  | |- _ => first [ apply codec_writes; pdu_side | solve [auto with pdu] | apply writes_ret ]
  end.

Ltac pdu_pure := lazymatch goal with
  | |- pure_step (expect_pdu_type _ _) _ => apply pure_expect; pdu_side
  | |- pure_step (expect_value _ _ _) _ => apply pure_expect_value; pdu_side
  | |- pure_step (unwrap _) _ => apply pure_unwrap; pdu_side
  | |- pure_step (ok_or _ _) _ => apply pure_ok_or; pdu_side
  | |- pure_step (parse_type2_generic false _ _) _ => apply skips_t2
  | |- pure_step (parse_type2_struct false _) _ => apply skips_t2s
  | |- pure_step (parse_type3_generic false _) _ => apply skips_t3
  | |- pure_step (parse_type3_struct false _ _) _ => apply skips_t3s
  | |- pure_step (parse_type4_generic false _) _ => apply skips_t4
  | |- pure_step (parse_type4_struct false _ _) _ => apply skips_t4s
  | |- pure_step (match _ with _ => _ end) _ => first
      [ apply skips_cond; pdu_cond | eapply pure_ok_or_opt; apply _ | eapply pure_unwrap_opt; apply _ | solve [auto with pdu]
      | apply pure_ret ]
  | |- pure_step (mret _) _ => apply pure_ret
  | |- pure_step (assert_ _) _ => apply pure_ret
  | |- _ => solve [auto with pdu]
  end.

Ltac pdu_writes := cbv zeta; repeat lazymatch goal with
  | |- writes (write_obit _ ≫= _) _ => eapply writes_tail; let H := fresh in intros H; rewrite ?H; clear H
  | |- writes (mret _) _ => apply writes_ret
  | |- writes (_ ≫= _) _ => first [ eapply writes_bind; [pdu_write|] | eapply writes_pure; [pdu_pure|] ]
  | |- writes _ _ => pdu_write
  end.

Ltac pdu_read := lazymatch goal with
  | |- reads_then (read_field _ _) _ _ _ => apply reads_reads_then, reads_field; [lia|pdu_side]
  | |- reads_then (parse_type2_generic _ _ _) _ _ _ => apply reads_reads_then, reads_t2; [lia|pdu_side]
  | |- reads_then (parse_type2_struct _ _) _ _ _ => apply reads_reads_then; eapply reads_t2s; [apply _|pdu_side]
  | |- reads_then (parse_type3_generic _ _) _ _ _ => apply reads_t3; [pdu_side|pdu_side|pdu_absent]
  | |- reads_then (parse_type3_struct _ _ _) _ _ _ => eapply reads_t3s; [apply _|pdu_side|pdu_side|pdu_absent]
  | |- reads_then (parse_type4_struct _ _ _) _ _ _ => eapply reads_t4s; [apply _|pdu_side|pdu_side|pdu_absent]
  | |- reads_then (parse_type4_generic _ _) _ _ _ => apply reads_t4_none; pdu_absent
  | |- reads_then (if _ then _ else _) _ _ _ => apply reads_reads_then, reads_cond; [lia|pdu_side|pdu_cond|pdu_fits]
  | |- _ => apply reads_reads_then; first [ apply codec_reads; pdu_side | solve [auto with pdu] ]
  end.

(** No element is present. *)
Ltac pdu_none := intros ?; repeat match goal with
  | H : is_some ?x = ?c |- _ => progress change (is_some x = false) in H
  | H : _ || _ = false |- _ => apply orb_false_iff in H as [? ?]
  | H : is_some ?x = false |- _ => apply is_some_false in H; subst x
  end.

(** The parsed fields are those of the PDU. *)
Ltac pdu_same := first
  [ done | f_equal; first [ done | by eapply wrap_fits; [eassumption|lia] | apply b2z_nonzero | auto with pdu ] ].

Ltac pdu_reads := repeat (cbv beta zeta; first
  [ eapply reads_tail; [intros _|pdu_none]
  | eapply reads_pure; [pdu_pure|]
  | eapply reads_step; [pdu_read|]
  | apply (reads_finish true); pdu_same | apply (reads_finish false); pdu_same
  | apply reads_ret_eq; pdu_same ]).

Ltac pdu_safe := repeat first
  [ apply safe_field_bind; intros | apply safe_t2_bind; intros
  | apply safe_bind; [first [ apply safe_unwrap, raw_total; assumption | (eapply safe_unwrap_opt; [apply _|eassumption]) | solve [auto with parser_safe pdu]
      | case_match; [apply safe_field_bind; intros; apply safe_ret|apply safe_ret]
      | case_match; [apply safe_bind; [|intros]; auto with parser_safe|apply safe_ret] ]|intros]
  | solve [auto with parser_safe]
  | case_match ].

(** * Whole PDUs *)

(** What the writer writes for a PDU, the parser reads back as that PDU. *)
Definition roundtrips {A} (to_bitbuf : B unit) (from_bitbuf : B A) (a : A) : Prop :=
  ∃ bs, writes to_bitbuf bs ∧ reads from_bitbuf bs a.

(** A parser that starts by checking its PDU type, of [n] bits. *)
Definition checks_type {A} (n : nat) (raw : Z) (p : B A) : Prop :=
  ∃ k, p = (pdu_type ← read_field n "pdu_type"; expect_pdu_type pdu_type raw;; k).

(** What such a parser accepts starts with the type. *)
Lemma checks_type_prefix {A} n raw (p : B A) bb a bb' : n ≤ 64 → checks_type n raw p → wf bb → p bb = Ok a bb' →
  n ≤ get_len_remaining bb ∧ Z_of_bits (take n (remaining bb)) = raw.
Proof.
  intros Hn [k ->] Hwf Heq. destruct (decide (n ≤ get_len_remaining bb)) as [Hlen|Hshort].
  - split; [done|]. erewrite bind_ok in Heq by (by apply read_field_ok). unfold expect_pdu_type in Heq.
    destruct (decide (_ = raw)) as [|]; done.
  - unfold mbind, M_bind in Heq. by rewrite read_field_err in Heq by (done || lia).
Qed.

Lemma peek_bits_ok n bb : n ≤ 64 → wf bb → n ≤ get_len_remaining bb →
  peek_bits n bb = Ok (Some (Z_of_bits (take n (remaining bb)))) bb.
Proof.
  intros Hn Hwf Hlen. unfold peek_bits. change 0%Z with (Z.of_nat 0). rewrite peek_bits_posoffset_spec by done.
  rewrite decide_True by (rewrite ?length_remaining; lia). done.
Qed.

Lemma safe_peek_bits n : parser_safe (peek_bits n).
Proof.
  unfold peek_bits. change 0%Z with (Z.of_nat 0). intros bb Hwf. unfold safe_at. rewrite peek_bits_posoffset_spec by done.
  exists 0. split; [lia|by rewrite advance_0].
Qed.
