(* ===== verification/TdmaTime.v ===== *)
(** TDMA time ([tetra-core/src/tdma_time.rs]): slots 1-4, frames 1-18,
    multiframes 1-60 and a 16-bit hyperframe counter that rolls over.

    [u8], [u16] and [i32] values are [Z]; the casts of the source are written
    as [wrap], the [i32] additions and subtractions as [i32]. *)
From S2P Require Import Prelude Bits.

Local Open Scope Z_scope.

(** * Definitions *)

Record TdmaTime : Type := mkTime { tt_t : Z; tt_f : Z; tt_m : Z; tt_h : Z }.

#[global] Instance TdmaTime_eq_dec : EqDecision TdmaTime.
Proof. solve_decision. Defined.

Definition tdma_default : TdmaTime := mkTime 1 1 1 0.

(** Two's complement wrap-around of an [i32]. *)
Definition i32 (v : Z) : Z := (v + 2 ^ 31) mod 2 ^ 32 - 2 ^ 31.

Definition hyperframes (h : Z) : Z := h * 60 * 18 * 4.
Definition multiframes (m : Z) : Z := m * 18 * 4.
Definition frames (f : Z) : Z := f * 4.

Definition TIME_INT_WRAP : Z := 4 * 18 * 60 * 65536.

(** [while diff < -TIME_INT_WRAP / 2 { diff += TIME_INT_WRAP }] *)
Fixpoint raise_loop (fuel : nat) (diff : Z) : option Z :=
  if diff <? - TIME_INT_WRAP / 2 then
    match fuel with O => None | S fuel => raise_loop fuel (i32 (diff + TIME_INT_WRAP)) end
  else Some diff.

(** [while diff >= TIME_INT_WRAP / 2 { diff -= TIME_INT_WRAP }] *)
Fixpoint lower_loop (fuel : nat) (diff : Z) : option Z :=
  if TIME_INT_WRAP / 2 <=? diff then
    match fuel with O => None | S fuel => lower_loop fuel (i32 (diff - TIME_INT_WRAP)) end
  else Some diff.

(** An [i32] lies within 8 wraps of 0, so 8 turns of either loop are enough. *)
Definition time_int_diff (a b : Z) : option Z :=
  diff ← raise_loop 8 (i32 (a - b)); lower_loop 8 diff.

Definition is_valid (x : TdmaTime) : bool :=
  (1 <=? tt_t x) && (tt_t x <=? 4) && (1 <=? tt_f x) && (tt_f x <=? 18) &&
  (1 <=? tt_m x) && (tt_m x <=? 60).

Definition to_int (x : TdmaTime) : Z :=
  i32 ((tt_t x - 1) + ((tt_f x - 1) * 4) + ((tt_m x - 1) * 4 * 18) + (tt_h x * 4 * 18 * 60)).

Definition from_int (time : Z) : TdmaTime :=
  let t := wrap 8 (time mod 4 + 1) in
  let f := wrap 8 ((time / 4) mod 18 + 1) in
  let m := wrap 8 ((time / (4 * 18)) mod 60 + 1) in
  let h := wrap 16 (time / (4 * 18 * 60)) in
  mkTime t f m h.

Definition add_timeslots (x : TdmaTime) (num_slots : Z) : TdmaTime :=
  from_int (i32 (to_int x + num_slots)).

Definition diff (x b : TdmaTime) : option Z := time_int_diff (to_int x) (to_int b).

Definition age (x now : TdmaTime) : option Z := diff now x.

Definition forward_to_timeslot (x : TdmaTime) (ts : Z) : TdmaTime :=
  let slots_to_add := wrap 8 (wrap 8 (ts + 4) - tt_t x) mod 4 in
  add_timeslots x slots_to_add.

Definition is_mandatory_bsch (x : TdmaTime) : bool :=
  (tt_f x =? 18) && (tt_t x =? 4 - ((tt_m x + 1) mod 4)).
Definition is_mandatory_bnch (x : TdmaTime) : bool :=
  (tt_f x =? 18) && (tt_t x =? 4 - ((tt_m x + 3) mod 4)).
Definition is_mandatory_clch (x : TdmaTime) : bool :=
  (tt_f x =? 18) && (tt_t x =? 4 - ((tt_m x + 1) mod 4)).

(** [saturating_sub] on an unsigned integer. *)
Definition saturating_sub (a b : Z) : Z := if a <? b then 0 else a - b.

Definition multiframe_index (x : TdmaTime) : Z := saturating_sub (tt_m x) 1 + tt_h x * 60.

Definition in_ee_monitoring_window (x : TdmaTime)
    (monitoring_frame monitoring_multiframe cycle_len : Z) : bool :=
  if (cycle_len =? 0) || negb ((1 <=? monitoring_frame) && (monitoring_frame <=? 18)) ||
     negb ((1 <=? monitoring_multiframe) && (monitoring_multiframe <=? 60))
  then false
  else
    let start_abs := (monitoring_multiframe - 1) * 18 + (monitoring_frame - 1) in
    let cur_abs := saturating_sub (tt_m x) 1 * 18 + saturating_sub (tt_f x) 1 in
    cur_abs mod cycle_len =? start_abs mod cycle_len.

(** * Validity *)

(** A time whose fields are in range ([is_valid]) and whose hyperframe is a [u16]. *)
Definition valid_time (x : TdmaTime) : Prop := is_valid x = true ∧ is_u 16 (tt_h x).

(** The position of a valid time in the 65536-hyperframe cycle, without machine arithmetic. *)
Definition slot_index (x : TdmaTime) : Z :=
  (tt_t x - 1) + 4 * ((tt_f x - 1) + 18 * ((tt_m x - 1) + 60 * tt_h x)).

Lemma valid_time_ranges x : valid_time x ↔
  1 ≤ tt_t x ≤ 4 ∧ 1 ≤ tt_f x ≤ 18 ∧ 1 ≤ tt_m x ≤ 60 ∧ 0 ≤ tt_h x < 65536.
Proof.
  unfold valid_time, is_valid, is_u. rewrite !andb_true_iff, !Z.leb_le.
  change (2 ^ 16) with 65536. lia.
Qed.

Lemma i32_small v : - 2 ^ 31 ≤ v < 2 ^ 31 → i32 v = v.
Proof. intros. unfold i32. rewrite Z.mod_small by lia. lia. Qed.

Lemma i32_range v : - 2 ^ 31 ≤ i32 v < 2 ^ 31.
Proof. unfold i32. pose proof (Z.mod_pos_bound (v + 2 ^ 31) (2 ^ 32) ltac:(lia)). lia. Qed.

(** Both loops end: [time_int_diff] returns for any two [i32]s. *)
Lemma raise_loop_total n d : -141557760 ≤ d + Z.of_nat n * 283115520 →
  - 2 ^ 31 ≤ d < 2 ^ 31 → ∃ d', raise_loop n d = Some d' ∧ - 2 ^ 31 ≤ d' < 2 ^ 31.
Proof.
  revert d. induction n as [|n IH]; intros d Hn Hd; cbn [raise_loop];
    change (- TIME_INT_WRAP / 2) with (-141557760); destruct (Z.ltb_spec d (-141557760));
    try (eexists; by split); [lia|].
  change TIME_INT_WRAP with 283115520. rewrite i32_small by lia. apply IH; lia.
Qed.

Lemma lower_loop_total n d : d - Z.of_nat n * 283115520 < 141557760 →
  - 2 ^ 31 ≤ d < 2 ^ 31 → ∃ d', lower_loop n d = Some d'.
Proof.
  revert d. induction n as [|n IH]; intros d Hn Hd; cbn [lower_loop];
    change (TIME_INT_WRAP / 2) with 141557760; destruct (Z.leb_spec 141557760 d);
    try (by eexists); [lia|].
  change TIME_INT_WRAP with 283115520. rewrite i32_small by lia. apply IH; lia.
Qed.

Lemma diff_total x y : ∃ d, diff x y = Some d.
Proof.
  unfold diff, time_int_diff. pose proof (i32_range (to_int x - to_int y)) as Hr.
  destruct (raise_loop_total 8 (i32 (to_int x - to_int y))) as (d' & -> & Hd'); [|done|].
  { lia. }
  cbn [mbind option_bind]. apply lower_loop_total; [lia|done].
Qed.

Lemma slot_index_range x : valid_time x → 0 ≤ slot_index x < TIME_INT_WRAP.
Proof.
  rewrite valid_time_ranges. unfold slot_index.
  change TIME_INT_WRAP with 283115520. lia.
Qed.

Lemma to_int_slot_index x : valid_time x → to_int x = slot_index x.
Proof.
  intros Hv. pose proof (slot_index_range x Hv) as Hr. change TIME_INT_WRAP with 283115520 in Hr.
  unfold to_int. rewrite i32_small; unfold slot_index in *; lia.
Qed.

(** [from_int] splits the slot count in mixed radix. *)
Lemma from_int_valid time : valid_time (from_int time).
Proof.
  apply valid_time_ranges. unfold from_int. cbn [tt_t tt_f tt_m tt_h].
  pose proof (Z.mod_pos_bound time 4 ltac:(lia)).
  pose proof (Z.mod_pos_bound (time / 4) 18 ltac:(lia)).
  pose proof (Z.mod_pos_bound (time / (4 * 18)) 60 ltac:(lia)).
  pose proof (wrap_is_u 16 (time / (4 * 18 * 60)) ltac:(lia)) as Hh. unfold is_u in Hh.
  rewrite !wrap_small by (unfold is_u; lia). lia.
Qed.

Lemma slot_index_from_int time : slot_index (from_int time) = time mod TIME_INT_WRAP.
Proof.
  unfold slot_index, from_int. cbn [tt_t tt_f tt_m tt_h].
  pose proof (Z.mod_pos_bound time 4 ltac:(lia)).
  pose proof (Z.mod_pos_bound (time / 4) 18 ltac:(lia)).
  pose proof (Z.mod_pos_bound (time / (4 * 18)) 60 ltac:(lia)).
  rewrite !(wrap_small 8) by (unfold is_u; lia). unfold wrap.
  change TIME_INT_WRAP with (4 * (18 * (60 * 65536))).
  rewrite (Z.rem_mul_r time 4) by lia.
  rewrite (Z.rem_mul_r (time / 4) 18) by lia.
  rewrite !Z.div_div by lia.
  rewrite (Z.rem_mul_r (time / (4 * 18)) 60) by lia. rewrite !Z.div_div by lia.
  change (2 ^ 16) with 65536. lia.
Qed.

Lemma slot_index_inj x y : valid_time x → valid_time y → slot_index x = slot_index y → x = y.
Proof.
  rewrite !valid_time_ranges. destruct x as [t f m h], y as [t' f' m' h'].
  unfold slot_index. cbn [tt_t tt_f tt_m tt_h]. intros. f_equal; lia.
Qed.

(** * Arithmetic *)

Lemma i32_wrap_diff d : - TIME_INT_WRAP < d < TIME_INT_WRAP → i32 d = d.
Proof. intros. apply i32_small. change TIME_INT_WRAP with 283115520 in *. lia. Qed.

(** The two loops bring a difference of two slot counts into the half-open
    interval around 0; they terminate within their fuel. *)
Lemma time_int_diff_spec a b : 0 ≤ a < TIME_INT_WRAP → 0 ≤ b < TIME_INT_WRAP →
  ∃ d, time_int_diff a b = Some d ∧ - (TIME_INT_WRAP / 2) ≤ d < TIME_INT_WRAP / 2 ∧
    (d mod TIME_INT_WRAP = (a - b) mod TIME_INT_WRAP).
Proof.
  intros Ha Hb. unfold time_int_diff. rewrite (i32_wrap_diff (a - b)) by lia.
  change TIME_INT_WRAP with 283115520 in *. change (283115520 / 2) with 141557760.
  cbn [raise_loop]. change TIME_INT_WRAP with 283115520.
  change (- (283115520) / 2) with (-141557760).
  destruct (Z.ltb_spec (a - b) (-141557760)).
  - rewrite (i32_small (a - b + 283115520)) by lia.
    destruct (Z.ltb_spec (a - b + 283115520) (-141557760)); [lia|].
    cbn [mbind option_bind lower_loop]. change TIME_INT_WRAP with 283115520.
    change (283115520 / 2) with 141557760.
    destruct (Z.leb_spec 141557760 (a - b + 283115520)); [lia|].
    eexists. split; [done|]. split; [lia|].
    replace (a - b + 283115520) with (a - b + 1 * 283115520) by lia. by rewrite Z.mod_add.
  - cbn [mbind option_bind lower_loop]. change TIME_INT_WRAP with 283115520.
    change (283115520 / 2) with 141557760.
    destruct (Z.leb_spec 141557760 (a - b)).
    + rewrite (i32_small (a - b - 283115520)) by lia.
      destruct (Z.leb_spec 141557760 (a - b - 283115520)); [lia|].
      eexists. split; [done|]. split; [lia|].
      replace (a - b - 283115520) with (a - b + (-1) * 283115520) by lia. by rewrite Z.mod_add.
    + eexists. split; [done|]. split; [lia|done].
Qed.

Lemma mod_centered_unique d e : - (TIME_INT_WRAP / 2) ≤ d < TIME_INT_WRAP / 2 →
  - (TIME_INT_WRAP / 2) ≤ e < TIME_INT_WRAP / 2 →
  d mod TIME_INT_WRAP = e mod TIME_INT_WRAP → d = e.
Proof.
  change TIME_INT_WRAP with 283115520. change (283115520 / 2) with 141557760.
  intros Hd He Heq. pose proof (Z.div_mod d 283115520 ltac:(lia)).
  pose proof (Z.div_mod e 283115520 ltac:(lia)). rewrite Heq in *.
  pose proof (Z.mod_pos_bound e 283115520 ltac:(lia)). nia.
Qed.

Lemma add_timeslots_index x n : valid_time x → - TIME_INT_WRAP ≤ n ≤ TIME_INT_WRAP →
  slot_index (add_timeslots x n) = (slot_index x + n) mod TIME_INT_WRAP.
Proof.
  intros Hv Hn. unfold add_timeslots. rewrite slot_index_from_int, to_int_slot_index by done.
  pose proof (slot_index_range x Hv). rewrite i32_small; [done|].
  change TIME_INT_WRAP with 283115520 in *. lia.
Qed.

(** A valid TDMA time survives the conversion to a slot count and back, and
    the slot count is the mixed-radix position of the time (no [i32] overflow). *)
Theorem from_int_to_int x : valid_time x → to_int x = slot_index x ∧ from_int (to_int x) = x.
Proof.
  intros Hv. rewrite to_int_slot_index by done. split; [done|].
  apply slot_index_inj; [apply from_int_valid|done|].
  rewrite slot_index_from_int. apply Z.mod_small. by apply slot_index_range.
Qed.

Lemma diff_add x n : valid_time x → - (TIME_INT_WRAP / 2) ≤ n < TIME_INT_WRAP / 2 →
  diff (add_timeslots x n) x = Some n.
Proof.
  intros Hv Hn. assert (valid_time (add_timeslots x n)) as Hv' by apply from_int_valid.
  unfold diff. rewrite !to_int_slot_index by done.
  destruct (time_int_diff_spec (slot_index (add_timeslots x n)) (slot_index x))
    as (d & -> & Hd & Hmod); [by apply slot_index_range..|].
  f_equal. apply mod_centered_unique; [done..|]. rewrite Hmod.
  change (TIME_INT_WRAP / 2) with 141557760 in Hn.
  rewrite add_timeslots_index by (done || (change TIME_INT_WRAP with 283115520; lia)).
  rewrite Zminus_mod_idemp_l. f_equal. lia.
Qed.

(** [diff] undoes [add_timeslots] for every step of less than half the
    cycle, forwards or backwards, also across the rollover of the hyperframe
    counter; the result of [add_timeslots] is a valid time. *)
Theorem diff_add_timeslots x n : valid_time x →
  - (TIME_INT_WRAP / 2) ≤ n < TIME_INT_WRAP / 2 →
  valid_time (add_timeslots x n) ∧ diff (add_timeslots x n) x = Some n.
Proof. intros Hv Hn. split; [apply from_int_valid|by apply diff_add]. Qed.

Lemma diff_add_timeslots_witness :
  diff (add_timeslots (mkTime 4 18 60 65535) 12345) (mkTime 4 18 60 65535) = Some 12345.
Proof.
  apply (diff_add_timeslots (mkTime 4 18 60 65535) 12345).
  - apply valid_time_ranges. cbn. lia.
  - change (TIME_INT_WRAP / 2) with 141557760. lia.
Defined.

Lemma from_int_to_int_witness :
  to_int (mkTime 3 7 11 12) = slot_index (mkTime 3 7 11 12) ∧
  from_int (to_int (mkTime 3 7 11 12)) = mkTime 3 7 11 12.
Proof. apply (from_int_to_int (mkTime 3 7 11 12)). apply valid_time_ranges. cbn. lia. Defined.

Lemma slot_index_t x y n q : valid_time x → valid_time y →
  slot_index y + 4 * q = slot_index x + n → tt_t y = 1 + (tt_t x - 1 + n) mod 4.
Proof.
  intros Hv Hv' Hdm. rewrite valid_time_ranges in Hv, Hv'. unfold slot_index in Hdm.
  pose proof (Z.div_mod (tt_t x - 1 + n) 4 ltac:(done)).
  pose proof (Z.mod_pos_bound (tt_t x - 1 + n) 4 ltac:(done)). lia.
Qed.

Lemma add_timeslots_t x n : valid_time x → 0 ≤ n < 4 →
  tt_t (add_timeslots x n) = 1 + (tt_t x - 1 + n) mod 4.
Proof.
  intros Hv Hn. apply (slot_index_t _ _ _ (TIME_INT_WRAP / 4 * ((slot_index x + n) / TIME_INT_WRAP)));
    [done|apply from_int_valid|].
  rewrite add_timeslots_index by (done || (unfold TIME_INT_WRAP; lia)).
  pose proof (Z.div_mod (slot_index x + n) TIME_INT_WRAP ltac:(done)) as Hdm.
  rewrite Hdm at 3. change (TIME_INT_WRAP / 4) with 70778880.
  change TIME_INT_WRAP with 283115520. lia.
Qed.

(** [forward_to_timeslot] reaches the requested timeslot, and it is the
    next one: between 0 and 3 slots later. *)
Theorem forward_to_timeslot_next x ts : valid_time x → 1 ≤ ts ≤ 4 →
  tt_t (forward_to_timeslot x ts) = ts ∧
  ∃ n, 0 ≤ n < 4 ∧ forward_to_timeslot x ts = add_timeslots x n.
Proof.
  intros Hv Hts. pose proof Hv as Hr. rewrite valid_time_ranges in Hr.
  assert (0 ≤ (ts + 4 - tt_t x) mod 4 < 4) as Hn by (apply Z.mod_pos_bound; lia).
  assert (forward_to_timeslot x ts = add_timeslots x ((ts + 4 - tt_t x) mod 4)) as ->.
  { unfold forward_to_timeslot. rewrite (wrap_small 8 (ts + 4)) by (unfold is_u; lia).
    by rewrite wrap_small by (unfold is_u; lia). }
  split; [|by eexists]. rewrite add_timeslots_t by done.
  rewrite Zplus_mod_idemp_r. replace (tt_t x - 1 + (ts + 4 - tt_t x)) with (ts - 1 + 1 * 4) by lia.
  rewrite Z.mod_add, Z.mod_small by lia. lia.
Qed.

Lemma forward_to_timeslot_next_witness :
  tt_t (forward_to_timeslot (mkTime 3 18 60 65535) 2) = 2 ∧
  ∃ n, 0 ≤ n < 4 ∧ forward_to_timeslot (mkTime 3 18 60 65535) 2 =
    add_timeslots (mkTime 3 18 60 65535) n.
Proof.
  apply (forward_to_timeslot_next (mkTime 3 18 60 65535) 2); [|lia].
  apply valid_time_ranges. cbn. lia.
Defined.

(** * Mandatory broadcast slots *)

(** In every multiframe exactly one slot carries the mandatory BSCH and
    exactly one the mandatory BNCH, both in frame 18, and they never coincide. *)
Theorem mandatory_slots m h : 1 ≤ m ≤ 60 →
  ∃ tb tn, 1 ≤ tb ≤ 4 ∧ 1 ≤ tn ≤ 4 ∧ tb ≠ tn ∧
    ∀ t f, 1 ≤ t ≤ 4 → 1 ≤ f ≤ 18 →
      (is_mandatory_bsch (mkTime t f m h) = true ↔ f = 18 ∧ t = tb) ∧
      (is_mandatory_bnch (mkTime t f m h) = true ↔ f = 18 ∧ t = tn).
Proof.
  intros Hm. exists (4 - (m + 1) mod 4), (4 - (m + 3) mod 4).
  pose proof (Z.mod_pos_bound (m + 1) 4 ltac:(lia)).
  pose proof (Z.mod_pos_bound (m + 3) 4 ltac:(lia)).
  pose proof (Z.div_mod (m + 1) 4 ltac:(lia)). pose proof (Z.div_mod (m + 3) 4 ltac:(lia)).
  repeat split; try lia; unfold is_mandatory_bsch, is_mandatory_bnch in *;
    cbn [tt_t tt_f tt_m] in *;
    repeat match goal with
    | H : _ && _ = true |- _ => apply andb_true_iff in H as [? ?]
    | |- _ && _ = true => apply andb_true_iff; split
    end; rewrite ?Z.eqb_eq in *; lia.
Qed.

(** * Energy economy *)

(** The frame counter within a hyperframe that the window test compares. *)
Definition frame_index (x : TdmaTime) : Z := (tt_m x - 1) * 18 + (tt_f x - 1).

Lemma frame_index_slot x : valid_time x → frame_index x = (slot_index x / 4) mod 1080.
Proof.
  rewrite valid_time_ranges. intros Hr. unfold frame_index, slot_index.
  replace (tt_t x - 1 + 4 * (tt_f x - 1 + 18 * (tt_m x - 1 + 60 * tt_h x))) with
    (tt_t x - 1 + (tt_f x - 1 + 18 * (tt_m x - 1 + 60 * tt_h x)) * 4) by lia.
  rewrite Z.div_add, (Z.div_small (tt_t x - 1)) by lia.
  replace (0 + (tt_f x - 1 + 18 * (tt_m x - 1 + 60 * tt_h x))) with
    ((tt_m x - 1) * 18 + (tt_f x - 1) + tt_h x * 1080) by lia.
  rewrite Z.mod_add, Z.mod_small by lia. done.
Qed.

Lemma in_ee_window_spec x fr mf c : valid_time x → 1 ≤ fr ≤ 18 → 1 ≤ mf ≤ 60 → 0 < c →
  in_ee_monitoring_window x fr mf c =
    (frame_index x mod c =? ((mf - 1) * 18 + (fr - 1)) mod c).
Proof.
  rewrite valid_time_ranges. intros Hr Hf Hm Hc.
  unfold in_ee_monitoring_window, frame_index, saturating_sub.
  destruct (Z.eqb_spec c 0); [lia|].
  destruct (Z.leb_spec 1 fr), (Z.leb_spec fr 18), (Z.leb_spec 1 mf), (Z.leb_spec mf 60); try lia.
  destruct (Z.ltb_spec (tt_m x) 1), (Z.ltb_spec (tt_f x) 1); try lia. done.
Qed.

Lemma ee_window_unique x fr mf c : valid_time x →
  1 ≤ fr ≤ 18 → 1 ≤ mf ≤ 60 → 0 < c → (c | 1080) →
  ∃ k, 0 ≤ k < c ∧ ∀ j, 0 ≤ j < c →
    (in_ee_monitoring_window (add_timeslots x (4 * j)) fr mf c = true ↔ j = k).
Proof.
  intros Hv Hfr Hmf Hc Hdiv. set (s := (mf - 1) * 18 + (fr - 1)).
  exists ((s - frame_index x) mod c). split; [apply Z.mod_pos_bound; lia|].
  intros j Hj. assert (c ≤ 1080) by (apply Z.divide_pos_le; [lia|done]).
  assert (valid_time (add_timeslots x (4 * j))) as Hv' by apply from_int_valid.
  rewrite in_ee_window_spec, Z.eqb_eq, frame_index_slot by done.
  rewrite add_timeslots_index by (done || (change TIME_INT_WRAP with 283115520; lia)).
  assert ((slot_index x + 4 * j) mod TIME_INT_WRAP / 4 mod 1080 mod c =
    (frame_index x + j) mod c) as ->.
  { rewrite frame_index_slot by done.
    change TIME_INT_WRAP with (4 * (1080 * 65536)).
    rewrite Z.rem_mul_r, (Z.mul_comm 4 j), Z.div_add by lia.
    rewrite (Z.mul_comm 4), Z.div_add, (Z.div_small (_ mod 4)), Z.add_0_l
      by (lia || (apply Z.mod_pos_bound; lia)).
    rewrite Z.rem_mul_r by lia. rewrite (Z.mul_comm 1080), Z.mod_add, Z.mod_mod by lia.
    rewrite Z.mod_mod_divide by done.
    rewrite <-(Zplus_mod_idemp_l (_ mod 1080)), Z.mod_mod_divide, Zplus_mod_idemp_l by done. done. }
  fold s. split.
  - intros Heq. apply (f_equal (λ z, (z - frame_index x) mod c)) in Heq.
    rewrite !Zminus_mod_idemp_l in Heq.
    replace (frame_index x + j - frame_index x) with j in Heq by lia.
    rewrite Z.mod_small in Heq by lia. done.
  - intros ->. rewrite Zplus_mod_idemp_r. f_equal. lia.
Qed.

(** With a cycle length that divides the 1080 frames of a hyperframe (the
    supported 2, 3 and 6 do), a terminal is awake in exactly one frame of any
    [cycle_len] consecutive frames: from any time there is exactly one offset
    below [cycle_len] at which the window is open, also when the hyperframe
    counter rolls over in between. *)
Theorem ee_window_once_per_cycle x fr mf c : valid_time x →
  1 ≤ fr ≤ 18 → 1 ≤ mf ≤ 60 → 0 < c → (c | 1080) →
  ∃ k, 0 ≤ k < c ∧ ∀ j, 0 ≤ j < c →
    (in_ee_monitoring_window (add_timeslots x (4 * j)) fr mf c = true ↔ j = k).
Proof. apply ee_window_unique. Qed.

Lemma ee_window_once_per_cycle_witness :
  ∃ k, 0 ≤ k < 6 ∧ ∀ j, 0 ≤ j < 6 →
    (in_ee_monitoring_window (add_timeslots (mkTime 1 17 60 65535) (4 * j)) 4 7 6 = true ↔ j = k).
Proof.
  apply (ee_window_once_per_cycle (mkTime 1 17 60 65535) 4 7 6); try lia.
  - apply valid_time_ranges. cbn. lia.
  - by exists 180.
Defined.
