(* ===== verification/Freqs.v ===== *)
(** Carrier frequencies (tetra-core/src/freqs.rs): band, carrier number, offset
    and duplex spacing as they are broadcast, and the frequencies they stand for.
    The error of [from_components] is a text; [Panic] is a failed assertion or an
    index out of range. *)
From S2P Require Import Prelude Bits.

(** * Data *)

Definition TETRA_DUPLEX_SPACING : list (list (option Z)) :=
  [[None; Some 1600; Some 10000; Some 10000; Some 10000; Some 10000; Some 10000; None;
    None; None; None; None; None; None; None; None];
   [None; Some 4500; None; Some 36000; Some 7000; None; None; None;
    Some 45000; Some 45000; None; None; None; None; None; None];
   [Some 0; Some 0; Some 0; Some 0; Some 0; Some 0; Some 0; Some 0;
    Some 0; Some 0; Some 0; Some 0; Some 0; Some 0; Some 0; Some 0];
   [None; None; None; Some 8000; Some 8000; None; None; None;
    Some 18000; Some 18000; None; None; None; None; None; None];
   [None; None; None; Some 18000; Some 5000; None; Some 30000; Some 30000;
    None; Some 39000; None; None; None; None; None; None];
   [None; None; None; None; Some 9500; None; None; None;
    None; None; None; None; None; None; None; None];
   [None; None; None; None; None; None; None; None; None; None; None; None; None; None; None; None];
   [None; None; None; None; None; None; None; None; None; None; None; None; None; None; None; None]]%Z.

Record FreqInfo : Type := mkFreqInfo {
  fi_band : Z;
  fi_carrier : Z;
  fi_freq_offset_hz : Z;
  fi_duplex_spacing_id : Z;
  fi_duplex_spacing_val : Z;
  fi_reverse_operation : bool
}.

Inductive freq_error : Type := InvalidBand | InvalidCarrier | InvalidOffset | InvalidDuplexSpacing.

(** [Result<T, String>], or a panic. *)
Inductive freq_result (A : Type) : Type := FOk (a : A) | FErr (e : freq_error) | FPanic.
#[global] Arguments FOk {A}.
#[global] Arguments FErr {A}.
#[global] Arguments FPanic {A}.

(** * Operations *)

Definition freq_offset_id_to_hz (offset_index : Z) : option Z :=
  match offset_index with 0 => Some 0 | 1 => Some 6250 | 2 => Some (-6250) | 3 => Some 12500 | _ => None end%Z.

Definition freq_offset_hz_to_id (offset_hz : Z) : option Z :=
  match offset_hz with 0 => Some 0 | 6250 => Some 1 | -6250 => Some 2 | 12500 => Some 3 | _ => None end%Z.

(** The outer [None] is a panic. *)
Definition get_default_duplex_spacing (band duplex_setting : Z) : option (option Z) :=
  check (duplex_setting <? 8)%Z;;
  row ← TETRA_DUPLEX_SPACING !! Z.to_nat duplex_setting;
  duplex_spacing ← row !! Z.to_nat band;
  Some ((λ v, v * 1000)%Z <$> (duplex_spacing : option Z)).

Definition from_components (band carrier freq_offset_val : Z) (reverse_operation : bool) (duplex_index : Z)
    (custom_duplex_spacing : option Z) : freq_result FreqInfo :=
  if (8 <? band)%Z then FErr InvalidBand
  else if (4000 <=? carrier)%Z then FErr InvalidCarrier
  else if negb ((freq_offset_val =? 0)%Z || (freq_offset_val =? 6250)%Z || (freq_offset_val =? -6250)%Z ||
                (freq_offset_val =? 12500)%Z) then FErr InvalidOffset
  else
    let ok v := FOk (mkFreqInfo band carrier freq_offset_val duplex_index v reverse_operation) in
    match custom_duplex_spacing with
    | Some cds => ok cds
    | None =>
        match get_default_duplex_spacing band duplex_index with
        | None => FPanic
        | Some None => FErr InvalidDuplexSpacing
        | Some (Some v) => ok v
        end
    end.

(** An [i32] result, and a [u32] result; overflow panics. *)
Definition as_i32 (v : Z) : option Z := check ((-2 ^ 31 <=? v) && (v <? 2 ^ 31))%Z;; Some v.
Definition as_u32 (v : Z) : option Z := check ((0 <=? v) && (v <? 2 ^ 32))%Z;; Some v.

Definition get_freqs (f : FreqInfo) : option (Z * Z) :=
  dl_freq ← as_i32 (100000000 * fi_band f);
  step ← as_i32 (fi_carrier f * 25000);
  dl_freq ← as_i32 (dl_freq + step);
  dl_freq ← as_i32 (dl_freq + fi_freq_offset_hz f);
  let dl_freq := wrap 32 dl_freq in
  ul_freq ← (if negb (fi_reverse_operation f) then as_u32 (dl_freq - fi_duplex_spacing_val f)
             else as_u32 (dl_freq + fi_duplex_spacing_val f));
  Some (dl_freq, ul_freq).

(** * Properties *)

Lemma offset_roundtrip hz id : freq_offset_hz_to_id hz = Some id ↔ freq_offset_id_to_hz id = Some hz.
Proof.
  unfold freq_offset_hz_to_id, freq_offset_id_to_hz. split; repeat case_match; intros; simplify_eq; done.
Qed.

Lemma offset_id_range hz id : freq_offset_hz_to_id hz = Some id → is_u 2 id.
Proof. unfold freq_offset_hz_to_id. repeat case_match; intros; simplify_eq; unfold is_u; lia. Qed.

(** Every entry of the table for a band is below the band's lower edge. *)
Lemma default_spacing_range band d v : (0 ≤ band ≤ 8)%Z → (0 ≤ d)%Z → get_default_duplex_spacing band d = Some (Some v) →
  (0 ≤ v ≤ 45000000)%Z ∧ (v = 0 ∨ 1 ≤ band)%Z.
Proof.
  intros Hb Hd. unfold get_default_duplex_spacing. destruct (Z.ltb_spec d 8); [|done]. cbn [check mbind option_bind].
  assert (d ∈ [0; 1; 2; 3; 4; 5; 6; 7])%Z as Hin by (rewrite !elem_of_cons; lia).
  assert (band ∈ [0; 1; 2; 3; 4; 5; 6; 7; 8])%Z as Hinb by (rewrite !elem_of_cons; lia).
  repeat (apply elem_of_cons in Hin as [->|Hin]); try (by apply elem_of_nil in Hin);
    repeat (apply elem_of_cons in Hinb as [->|Hinb]); try (by apply elem_of_nil in Hinb);
    intros Hv; vm_compute in Hv; simplify_eq; lia.
Qed.

Lemma get_freqs_ok band carrier off rev d v : (0 ≤ band ≤ 8)%Z → (0 ≤ carrier < 4000)%Z → (-6250 ≤ off ≤ 12500)%Z →
  (1 ≤ band ∨ 1 ≤ carrier)%Z → (0 ≤ v ≤ 45000000)%Z ∧ (v = 0 ∨ 1 ≤ band)%Z →
  let dl := (100000000 * band + 25000 * carrier + off)%Z in
  get_freqs (mkFreqInfo band carrier off d v rev) = Some (dl, if rev then dl + v else dl - v)%Z.
Proof.
  intros Hb Hc Ho Hpos Hv dl.
  assert (∀ x, (-2147483648 ≤ x < 2147483648)%Z → as_i32 x = Some x) as Hi.
  { intros x Hx. unfold as_i32. destruct (Z.leb_spec (-2 ^ 31) x), (Z.ltb_spec x (2 ^ 31)); try lia. done. }
  assert (∀ x, (0 ≤ x < 4294967296)%Z → as_u32 x = Some x) as Hu.
  { intros x Hx. unfold as_u32. destruct (Z.leb_spec 0 x), (Z.ltb_spec x (2 ^ 32)); try lia. done. }
  unfold get_freqs. cbn [fi_band fi_carrier fi_freq_offset_hz fi_reverse_operation fi_duplex_spacing_val].
  rewrite Hi by lia. cbn [mbind option_bind]. rewrite Hi by lia. cbn [mbind option_bind]. rewrite Hi by lia.
  cbn [mbind option_bind]. rewrite Hi by lia. cbn [mbind option_bind].
  replace (100000000 * band + carrier * 25000 + off)%Z with dl by (unfold dl; lia).
  rewrite wrap_small by (unfold is_u, dl; lia). destruct rev; cbn [negb]; rewrite Hu by (unfold dl; lia); done.
Qed.

(** The frequencies of a carrier accepted with a spacing of the standard table
    are computed without overflow: the downlink is the band's edge plus the
    carrier's 25 kHz raster plus the offset, and the uplink is the table's spacing
    below it, or above it in reverse operation.  Components are refused exactly
    for a band above 8, a carrier number from 4000, an offset that is not one of
    the four, or a pair of band and spacing the table leaves empty. *)
Theorem freqs_correct band carrier off rev d : is_u 8 band → is_u 16 carrier → (0 ≤ d < 8)%Z →
  (1 ≤ band ∨ 1 ≤ carrier)%Z →
  match from_components band carrier off rev d None with
  | FOk f => ∃ v, get_default_duplex_spacing band d = Some (Some v) ∧ (band ≤ 8 ∧ carrier < 4000)%Z ∧
      is_Some (freq_offset_hz_to_id off) ∧
      let dl := (100000000 * band + 25000 * carrier + off)%Z in
      get_freqs f = Some (dl, if rev then dl + v else dl - v)%Z
  | FErr InvalidBand => (8 < band)%Z
  | FErr InvalidCarrier => (band ≤ 8 ∧ 4000 ≤ carrier)%Z
  | FErr InvalidOffset => freq_offset_hz_to_id off = None
  | FErr InvalidDuplexSpacing => get_default_duplex_spacing band d = Some None
  | FPanic => False
  end.
Proof.
  intros Hb Hc Hd Hpos. unfold is_u in *. unfold from_components. cbv zeta.
  destruct (Z.ltb_spec 8 band); [done|]. destruct (Z.leb_spec 4000 carrier); [lia|].
  destruct (negb _) eqn:Eo.
  - rewrite negb_true_iff, !orb_false_iff, !Z.eqb_neq in Eo. unfold freq_offset_hz_to_id.
    repeat case_match; intros; subst; try done; exfalso; lia.
  - rewrite negb_false_iff, !orb_true_iff, !Z.eqb_eq in Eo.
    assert (is_Some (get_default_duplex_spacing band d)) as [o Ho].
    { unfold get_default_duplex_spacing. destruct (Z.ltb_spec d 8); [|lia]. cbn [check mbind option_bind].
      destruct (lookup_lt_is_Some_2 TETRA_DUPLEX_SPACING (Z.to_nat d)) as [row Hrow]; [cbn; lia|]. rewrite Hrow. cbn [mbind option_bind].
      assert (Forall (λ r, length r = 16) TETRA_DUPLEX_SPACING) as Hall by (by repeat constructor).
      pose proof (Forall_lookup_1 _ _ _ _ Hall Hrow) as Hl. cbn in Hl.
      destruct (lookup_lt_is_Some_2 row (Z.to_nat band)) as [x ->]; [lia|]. cbn. by eexists. }
    rewrite Ho. destruct o as [v|]; [|done]. exists v. split; [done|]. split; [lia|]. split.
    + destruct Eo as [[[->| ->]| ->]| ->]; by eexists.
    + apply get_freqs_ok; try lia. by apply (default_spacing_range band d); [lia..|].
Qed.

Lemma freqs_correct_witness :
  match from_components 4 1001 6250 false 0 None with
  | FOk f => ∃ v, get_default_duplex_spacing 4 0 = Some (Some v) ∧ (4 ≤ 8 ∧ 1001 < 4000)%Z ∧
      is_Some (freq_offset_hz_to_id 6250) ∧
      get_freqs f = Some (425031250, 425031250 - v)%Z
  | FErr _ => False
  | FPanic => False
  end.
Proof. pose proof (freqs_correct 4 1001 6250 false 0) as H. cbn in H. apply H; unfold is_u; lia. Defined.

(** Components are not always refused with an error: a duplex index from 8 on
    fails the assertion behind the table. *)
Lemma from_components_panics band carrier off rev d : (band ≤ 8)%Z → (carrier < 4000)%Z → is_Some (freq_offset_hz_to_id off) →
  (8 ≤ d)%Z → from_components band carrier off rev d None = FPanic.
Proof.
  intros Hb Hc [id Ho] Hd. unfold from_components. destruct (Z.ltb_spec 8 band); [lia|]. destruct (Z.leb_spec 4000 carrier); [lia|].
  assert (off = 0 ∨ off = 6250 ∨ off = -6250 ∨ off = 12500)%Z as [->|[->|[->| ->]]]
    by (unfold freq_offset_hz_to_id in Ho; repeat case_match; simplify_eq; auto).
  all: cbn [Z.eqb Pos.eqb orb negb]; unfold get_default_duplex_spacing; destruct (Z.ltb_spec d 8); [lia|done].
Qed.

(** A wrapped downlink frequency: the lowest carrier of band 0 with a negative offset. *)
Lemma band_0_wraps : ∃ f, from_components 0 0 (-6250) false 2 None = FOk f ∧ get_freqs f = Some (4294961046, 4294961046)%Z.
Proof. eexists. split; reflexivity. Qed.
