(* ===== verification/Arrays.v ===== *)
(** Fixed-size arrays ([&[u8]], [&mut [u8]], [[T; N]]) updated by index.

    A Rust slice is a list; an access outside it panics, which is [None] here.
    [foldM] is a [for] loop over an iterator whose body may panic, and
    [copy_at] the assignment [output[dst] = input[src]] that the interleavers,
    the puncturers and the bit reorderings consist of.  [foldM_copy] is the one
    lemma behind all of them: when the destinations are pairwise different, the
    loop leaves [input[src j]] at [dst j] and everything else alone. *)
From S2P Require Import Prelude.

Lemma NoDup_omap_inj {A B} (g : A → option B) l : NoDup l →
  (∀ x x' y, x ∈ l → x' ∈ l → g x = Some y → g x' = Some y → x = x') → NoDup (omap g l).
Proof.
  induction 1 as [|x l Hx Hl IH]; intros Hinj; [constructor|]. cbn.
  assert (NoDup (omap g l)) as Hnd.
  { apply IH. intros y y' z Hy Hy'. apply Hinj; by right. }
  destruct (g x) as [y|] eqn:Hg; [|done]. constructor; [|done].
  intros (x' & Hx' & Hg')%list_elem_of_omap. assert (x = x') as <-; [|done].
  apply (Hinj x x' y); [by left|by right|done|done].
Qed.

Section arrays.
Context {A : Type}.

Definition arr_set (i : nat) (x : A) (l : list A) : option (list A) :=
  if i <? length l then Some (<[i:=x]> l) else None.

(** [&l[i..j]] *)
Definition arr_range (i j : nat) (l : list A) : option (list A) :=
  if (i <=? j) && (j <=? length l) then Some (take (j - i) (drop i l)) else None.

(** [l[i..i + src.len()].copy_from_slice(src)] *)
Definition copy_from_slice (i : nat) (src l : list A) : option (list A) :=
  if i + length src <=? length l then Some (take i l ++ src ++ drop (i + length src) l) else None.

Fixpoint foldM {S I} (f : I → S → option S) (l : list I) (s : S) : option S :=
  match l with
  | [] => Some s
  | i :: l => s ← f i s; foldM f l s
  end.

Definition copy_at (dst src : nat) (input output : list A) : option (list A) :=
  x ← input !! src; arr_set dst x output.

Lemma arr_set_Some i x l : i < length l → arr_set i x l = Some (<[i:=x]> l).
Proof. intros H%Nat.ltb_lt. unfold arr_set. by rewrite H. Qed.

Lemma arr_range_Some i j l : i ≤ j → j ≤ length l → arr_range i j l = Some (take (j - i) (drop i l)).
Proof. intros H1%Nat.leb_le H2%Nat.leb_le. unfold arr_range. by rewrite H1, H2. Qed.

Lemma copy_from_slice_Some i src l : i + length src ≤ length l →
  copy_from_slice i src l = Some (take i l ++ src ++ drop (i + length src) l).
Proof. intros H%Nat.leb_le. unfold copy_from_slice. by rewrite H. Qed.

Lemma copy_at_Some d s x input output : input !! s = Some x → d < length output →
  copy_at d s input output = Some (<[d:=x]> output).
Proof. intros Hx Hd. unfold copy_at. rewrite Hx. simpl. by apply arr_set_Some. Qed.

Lemma foldM_app {S I} (f : I → S → option S) l1 l2 s :
  foldM f (l1 ++ l2) s = foldM f l1 s ≫= foldM f l2.
Proof.
  revert s. induction l1 as [|i l1 IH]; intros s; [done|]. simpl.
  destruct (f i s); simpl; [apply IH|done].
Qed.

Lemma foldM_ext {S I} (f g : I → S → option S) l s :
  (∀ i s, i ∈ l → f i s = g i s) → foldM f l s = foldM g l s.
Proof.
  revert s. induction l as [|i l IH]; intros s H; [done|]. simpl.
  rewrite H by left. destruct (g i s); [|done]. simpl. apply IH. intros. apply H. by right.
Qed.

Lemma foldM_omap {S I J} (g : I → option J) (f : J → S → option S) l s :
  foldM (λ i s, match g i with Some j => f j s | None => Some s end) l s = foldM f (omap g l) s.
Proof.
  revert s. induction l as [|i l IH]; intros s; [done|]. cbn. destruct (g i) as [j|]; cbn; [|apply IH].
  destruct (f j s); [apply IH|done].
Qed.

(** A copy loop: pairs of (destination, source) indices. *)
Definition copy_pairs (ps : list (nat * nat)) (input : list A) : list A → option (list A) :=
  foldM (λ p, copy_at p.1 p.2 input) ps.

Lemma copy_pairs_spec ps input output :
  NoDup ps.*1 → Forall (λ p, p.1 < length output ∧ p.2 < length input) ps →
  ∃ out, copy_pairs ps input output = Some out ∧ length out = length output ∧
    (∀ d s, (d, s) ∈ ps → out !! d = input !! s) ∧
    (∀ d, d ∉ ps.*1 → out !! d = output !! d).
Proof.
  unfold copy_pairs. revert output.
  induction ps as [|[d s] ps IH]; intros output Hnd Hb.
  { exists output. repeat split; try done. intros d s Hin. by apply not_elem_of_nil in Hin. }
  inversion Hnd as [|? ? Hnin Hnd']; subst. inversion Hb as [|? ? [Hd Hs] Hb']; subst. simpl in *.
  destruct (lookup_lt_is_Some_2 input s Hs) as [x Hx].
  destruct (IH (<[d:=x]> output)) as (out & Heq & Hlen & Hin & Hout); [done| |].
  { by rewrite length_insert. }
  exists out. rewrite length_insert in Hlen. split_and!; [|done| |].
  - cbn. by rewrite (copy_at_Some d s x) by done.
  - intros d' s' [[= -> ->]|Hin']%elem_of_cons; [|by apply Hin].
    rewrite Hout by done. by rewrite list_lookup_insert_eq.
  - intros d' [Hne Hni]%not_elem_of_cons. rewrite Hout by done. by rewrite list_lookup_insert_ne.
Qed.

Lemma foldM_copy {I} (js : list I) (dst src : I → nat) input output :
  NoDup (dst <$> js) → (∀ j, j ∈ js → dst j < length output ∧ src j < length input) →
  ∃ out, foldM (λ j, copy_at (dst j) (src j) input) js output = Some out ∧
    length out = length output ∧ (∀ j, j ∈ js → out !! dst j = input !! src j) ∧
    (∀ d, d ∉ dst <$> js → out !! d = output !! d).
Proof.
  intros Hnd Hb. destruct (copy_pairs_spec ((λ j, (dst j, src j)) <$> js) input output)
    as (out & Heq & Hlen & Hin & Hout).
  - by rewrite <-list_fmap_compose.
  - apply Forall_fmap, Forall_forall. intros j Hj. by apply Hb.
  - exists out. split_and!; [|done| |].
    + rewrite <-Heq. unfold copy_pairs. clear. revert output.
      induction js as [|j js IH]; intros output; [done|]. simpl.
      destruct (copy_at _ _ _ _); [apply IH|done].
    + intros j Hj. apply Hin. apply list_elem_of_fmap. eauto.
    + intros d Hd. apply Hout. rewrite <-list_fmap_compose. done.
Qed.

(** Copies move elements around; they make none up. *)
Lemma foldM_inv {S I} (P : S → Prop) (f : I → S → option S) l s s' :
  (∀ i s s', i ∈ l → P s → f i s = Some s' → P s') → P s → foldM f l s = Some s' → P s'.
Proof.
  revert s. induction l as [|i l IH]; intros s Hstep Hs; cbn [foldM].
  { by intros [= <-]. }
  destruct (f i s) as [s1|] eqn:Hf; [cbn [mbind option_bind]|done].
  apply IH; [|by eapply (Hstep i); [left| |]].
  intros j s2 s3 Hj. apply Hstep. by right.
Qed.

Lemma foldM_total {S I} (P : S → Prop) (f : I → S → option S) l s :
  (∀ i s, i ∈ l → P s → ∃ s', f i s = Some s' ∧ P s') → P s → ∃ s', foldM f l s = Some s' ∧ P s'.
Proof.
  revert s. induction l as [|i l IH]; intros s Hstep Hs; cbn [foldM]; [by exists s|].
  destruct (Hstep i s) as (s1 & -> & Hs1); [by left|done|]. cbn [mbind option_bind].
  apply IH; [|done]. intros j s2 Hj. apply Hstep. by right.
Qed.

(** [&l[i..j]] when the slice is known by its surroundings. *)
Lemma arr_range_mid (pre mid post : list A) i j : i = length pre → j = i + length mid →
  arr_range i j (pre ++ mid ++ post) = Some mid.
Proof.
  intros -> ->. rewrite arr_range_Some by (rewrite ?length_app; lia).
  rewrite drop_app_length, Nat.add_comm, Nat.add_sub. by rewrite take_app_length.
Qed.

Lemma copy_from_slice_mid (pre old post src : list A) i : i = length pre → length src = length old →
  copy_from_slice i src (pre ++ old ++ post) = Some (pre ++ src ++ post).
Proof.
  intros -> Hl. rewrite copy_from_slice_Some by (rewrite !length_app; lia).
  rewrite take_app_length, Hl, app_assoc, (app_assoc pre old), drop_app_length' by (rewrite length_app; lia).
  by rewrite <-app_assoc.
Qed.

Lemma arr_range_end (l1 l2 l3 : list A) i j : i = length l1 + length l2 → j = i + length l3 →
  arr_range i j (l1 ++ l2 ++ l3) = Some l3.
Proof.
  intros Hi Hj. rewrite app_assoc. rewrite <-(app_nil_r l3) at 1. apply arr_range_mid; rewrite ?length_app; lia.
Qed.

Lemma copy_from_slice_end (l1 l2 old src : list A) i : i = length l1 + length l2 → length src = length old →
  copy_from_slice i src (l1 ++ l2 ++ old) = Some (l1 ++ l2 ++ src).
Proof.
  intros Hi Hl. rewrite (app_assoc l1 l2 old), <-(app_nil_r old).
  rewrite copy_from_slice_mid by (rewrite ?length_app; lia). by rewrite app_nil_r, <-app_assoc.
Qed.

Lemma arr_range_tail (l1 l2 : list A) i j : i = length l1 → j = i + length l2 →
  arr_range i j (l1 ++ l2) = Some l2.
Proof. intros Hi Hj. exact (arr_range_end [] l1 l2 i j Hi Hj). Qed.

Lemma copy_from_slice_tail (l1 old src : list A) i : i = length l1 → length src = length old →
  copy_from_slice i src (l1 ++ old) = Some (l1 ++ src).
Proof. intros Hi Hl. exact (copy_from_slice_end [] l1 old src i Hi Hl). Qed.

Lemma copy_at_Forall (P : A → Prop) d s input output out :
  Forall P input → Forall P output → copy_at d s input output = Some out → Forall P out.
Proof.
  intros Hi Ho. unfold copy_at, arr_set. destruct (input !! s) as [x|] eqn:Hx; [cbn|done].
  case_match; [|done]. intros [= <-]. apply Forall_insert; [done|].
  by eapply (Forall_lookup_1 _ _ _ _ Hi).
Qed.

Lemma copy_from_slice_0 src l n : n = length src → n ≤ length l →
  copy_from_slice 0 src l = Some (src ++ drop n l).
Proof. intros -> Hn. by rewrite copy_from_slice_Some. Qed.

Lemma arr_range_0_app l k n : n = length l → arr_range 0 n (l ++ k) = Some l.
Proof.
  intros ->. rewrite arr_range_Some by (rewrite ?length_app; lia).
  by rewrite drop_0, Nat.sub_0_r, take_app_length.
Qed.
End arrays.

(** Run one step of an option-monad computation with the equation [E]. *)
Ltac ostep E := rewrite E; cbn [mbind option_bind].
