(* ===== verification/TimeslotAlloc.v ===== *)
(** tetra-core/timeslot_alloc.rs: ownership of the traffic timeslots of the
    configured carriers.

    Methods that return [Result] or may panic run in [M TimeslotAllocator
    TimeslotAllocErr]; the owner matrix is a list of rows of four entries.  The
    abstract view is a finite map from (carrier, timeslot) to its owner; every
    operation is shown to act on that map as its contract says. *)
From S2P Require Import Prelude Arrays.

(** * Definitions *)

Inductive TimeslotOwner : Type := Brew | Cmce.
#[export] Instance TimeslotOwner_eq_dec : EqDecision TimeslotOwner.
Proof. solve_decision. Defined.

Record CarrierSlot : Type := mkSlot { carrier_num : Z; ts : Z }.
#[export] Instance CarrierSlot_eq_dec : EqDecision CarrierSlot.
Proof. solve_decision. Defined.

Inductive TimeslotAllocErr : Type :=
| InvalidTimeslot (ts : Z)
| InvalidCarrier (carrier : Z)
| InUse (carrier ts : Z) (owner : TimeslotOwner)
| NotAllocated (carrier ts : Z)
| OwnerMismatch (carrier ts : Z) (owner actual : TimeslotOwner).

Abbreviation row := (list (option TimeslotOwner)).

Record TimeslotAllocator : Type := mkAlloc { carriers : list Z; owners : list row }.

Abbreviation T := (M TimeslotAllocator TimeslotAllocErr).

Definition empty_row : row := [None; None; None; None].

Definition default_alloc : TimeslotAllocator := mkAlloc [0%Z] [empty_row].

Definition position (c : Z) (l : list Z) : option nat := fst <$> list_find (λ c', c' = c) l.

Definition carrier_idx (c : Z) : T nat :=
  self ← get; ok_or (position c (carriers self)) (InvalidCarrier c).

Definition slot_supported_for_carrier (carrier_idx : nat) (ts : Z) : bool :=
  match carrier_idx with
  | O => (2 <=? ts) && (ts <=? 4)
  | S _ => (1 <=? ts) && (ts <=? 4)
  end%Z.

Definition slot_idx (carrier_idx : nat) (ts : Z) : T nat :=
  if slot_supported_for_carrier carrier_idx ts then mret (Z.to_nat (ts - 1)) else fail (InvalidTimeslot ts).

(** [self.owners[i][j]] and its assignment. *)
Definition owner_at (i j : nat) : T (option TimeslotOwner) :=
  self ← get; r ← unwrap (owners self !! i); unwrap (r !! j).
Definition set_owner (i j : nat) (o : option TimeslotOwner) : T unit :=
  self ← get;
  r ← unwrap (owners self !! i);
  _ ← unwrap (r !! j);
  put (mkAlloc (carriers self) (<[i:=<[j:=o]> r]> (owners self))).

(** The [for carrier in carriers] loop: keep the first occurrence of each. *)
Definition dedup_carriers (l : list Z) : list Z :=
  foldl (λ acc c, if bool_decide (c ∈ acc) then acc else acc ++ [c]) [] l.

(** The carriers after a reconfiguration: never none. *)
Definition configured (l : list Z) : list Z :=
  let new_carriers := dedup_carriers l in
  match new_carriers with [] => [0%Z] | _ => new_carriers end.

Definition configure_carriers (new : list Z) : T unit :=
  self ← get;
  let new_carriers := configured new in
  let new_owners := replicate (length new_carriers) empty_row in
  new_owners ← unwrap (foldM (λ '(old_i, old_carrier) new_owners,
    match position old_carrier new_carriers with
    | Some new_i => copy_at new_i old_i (owners self) new_owners
    | None => Some new_owners
    end) (zip (seq 0 (length (carriers self))) (carriers self)) new_owners);
  put (mkAlloc new_carriers new_owners).

(** The inner loop of [allocate_any_slot]: the first free timeslot of a row. *)
Fixpoint first_free (tss : list Z) (r : row) : option Z :=
  match tss with
  | [] => None
  | t :: tss =>
      match r !! Z.to_nat (t - 1) with
      | Some None => Some t
      | _ => first_free tss r
      end
  end.

Definition ts_range (carrier_i : nat) : list Z :=
  match carrier_i with O => [2; 3; 4] | S _ => [1; 2; 3; 4] end%Z.

(** The outer loop: the carrier index and timeslot found. *)
Fixpoint find_free (rows : list row) (carrier_i : nat) : option (nat * Z) :=
  match rows with
  | [] => None
  | r :: rows =>
      match first_free (ts_range carrier_i) r with
      | Some t => Some (carrier_i, t)
      | None => find_free rows (S carrier_i)
      end
  end.

Definition allocate_any_slot (owner : TimeslotOwner) : T (option CarrierSlot) :=
  self ← get;
  match find_free (owners self) 0 with
  | None => mret None
  | Some (i, t) =>
      set_owner i (Z.to_nat (t - 1)) (Some owner);;
      c ← unwrap (carriers self !! i);
      mret (Some (mkSlot c t))
  end.

Definition allocate_any (owner : TimeslotOwner) : T (option Z) :=
  o ← allocate_any_slot owner; mret (ts <$> o).

Definition reserve_slot (owner : TimeslotOwner) (slot : CarrierSlot) : T unit :=
  i ← carrier_idx (carrier_num slot);
  j ← slot_idx i (ts slot);
  o ← owner_at i j;
  match o with
  | None => set_owner i j (Some owner)
  | Some existing => fail (InUse (carrier_num slot) (ts slot) existing)
  end.

Definition release_slot (owner : TimeslotOwner) (slot : CarrierSlot) : T unit :=
  i ← carrier_idx (carrier_num slot);
  j ← slot_idx i (ts slot);
  o ← owner_at i j;
  match o with
  | None => fail (NotAllocated (carrier_num slot) (ts slot))
  | Some existing =>
      if decide (existing ≠ owner) then fail (OwnerMismatch (carrier_num slot) (ts slot) owner existing)
      else set_owner i j None
  end.

Definition primary : T Z := self ← get; unwrap (carriers self !! 0).
Definition reserve (owner : TimeslotOwner) (t : Z) : T unit :=
  c ← primary; reserve_slot owner (mkSlot c t).
Definition release (owner : TimeslotOwner) (t : Z) : T unit :=
  c ← primary; release_slot owner (mkSlot c t).

(** [None] also when the carrier or the timeslot is not valid ([.ok()?]). *)
Definition slot_owner (self : TimeslotAllocator) (slot : CarrierSlot) : option TimeslotOwner :=
  i ← position (carrier_num slot) (carriers self);
  if slot_supported_for_carrier i (ts slot) then
    r ← owners self !! i; mjoin (r !! Z.to_nat (ts slot - 1))
  else None.

Definition owner (self : TimeslotAllocator) (t : Z) : option TimeslotOwner :=
  c ← carriers self !! 0; slot_owner self (mkSlot c t).

Definition slot_is_free (self : TimeslotAllocator) (slot : CarrierSlot) : bool :=
  bool_decide (slot_owner self slot = None).
Definition is_free (self : TimeslotAllocator) (t : Z) : bool := bool_decide (owner self t = None).

Definition count_free (r : row) : nat := length (filter (λ o, o = None) r).

Definition free_count (self : TimeslotAllocator) : option nat :=
  r ← owners self !! 0; Some (count_free (drop 1 r)).

Fixpoint free_slots_from (rows : list row) (carrier_i : nat) : nat :=
  match rows with
  | [] => 0
  | r :: rows =>
      count_free (match carrier_i with O => drop 1 r | S _ => r end) + free_slots_from rows (S carrier_i)
  end.
Definition free_slot_count (self : TimeslotAllocator) : nat := free_slots_from (owners self) 0.

(** * Invariant *)

Record alloc_wf (self : TimeslotAllocator) : Prop := {
  aw_carriers : carriers self ≠ [];
  aw_nodup : NoDup (carriers self);
  aw_rows : length (owners self) = length (carriers self);
  aw_row : Forall (λ r, length r = 4) (owners self)
}.

(** The slots that can be handed out. *)
Definition valid_slot (self : TimeslotAllocator) (slot : CarrierSlot) : Prop :=
  ∃ i, position (carrier_num slot) (carriers self) = Some i ∧
    slot_supported_for_carrier i (ts slot) = true.

Lemma position_Some c l i : position c l = Some i ↔ l !! i = Some c ∧ ∀ j, j < i → l !! j ≠ Some c.
Proof.
  unfold position. rewrite fmap_Some. split.
  - intros ([i' c'] & (Hi & -> & Hmin)%list_find_Some & ->). split; [done|]. intros j Hj Hc. by eapply Hmin.
  - intros [Hi Hmin]. exists (i, c). split; [|done]. apply list_find_Some. split_and!; [done|done|].
    intros j y Hy Hlt ->. by eapply Hmin.
Qed.

Lemma position_nodup c l i : NoDup l → l !! i = Some c → position c l = Some i.
Proof.
  intros Hnd Hi. apply position_Some. split; [done|]. intros j Hj Hc.
  assert (j = i) by (by eapply NoDup_lookup). lia.
Qed.

Lemma position_None c l : position c l = None ↔ c ∉ l.
Proof.
  unfold position. rewrite fmap_None, list_find_None, Forall_forall. split.
  - intros H Hin. by apply (H c Hin).
  - intros Hni x Hx ->. done.
Qed.

Lemma supported_range i t : slot_supported_for_carrier i t = true → Z.to_nat (t - 1) < 4 ∧ (1 ≤ t ≤ 4)%Z.
Proof. destruct i; simpl; rewrite andb_true_iff, !Z.leb_le; lia. Qed.

(** The entry behind a valid slot. *)
Lemma slot_entry self i t : alloc_wf self → i < length (carriers self) →
  slot_supported_for_carrier i t = true →
  ∃ r o, owners self !! i = Some r ∧ length r = 4 ∧ r !! Z.to_nat (t - 1) = Some o.
Proof.
  intros [_ _ Hr Hrow] Hi Hs. destruct (lookup_lt_is_Some_2 (owners self) i) as [r Hri]; [lia|].
  pose proof (Forall_lookup_1 _ _ _ _ Hrow Hri) as Hl. simpl in Hl.
  destruct (supported_range _ _ Hs) as [Ht _].
  destruct (lookup_lt_is_Some_2 r (Z.to_nat (t - 1))) as [o Ho]; [lia|]. eauto 10.
Qed.

(** * The operations on the ownership map *)

(** [self'] is [self] with [slot] given the owner [o], all other slots untouched. *)
Record slot_update (self self' : TimeslotAllocator) (slot : CarrierSlot) (o : option TimeslotOwner) : Prop := {
  su_wf : alloc_wf self';
  su_carriers : carriers self' = carriers self;
  su_owner s : slot_owner self' s = if decide (s = slot) then o else slot_owner self s
}.

Lemma slot_owner_entry self slot i r : position (carrier_num slot) (carriers self) = Some i →
  slot_supported_for_carrier i (ts slot) = true → owners self !! i = Some r →
  slot_owner self slot = mjoin (r !! Z.to_nat (ts slot - 1)).
Proof. intros Hp Hs Hr. unfold slot_owner. rewrite Hp. cbn. by rewrite Hs, Hr. Qed.

Lemma set_owner_ok self slot i r o0 o : alloc_wf self →
  position (carrier_num slot) (carriers self) = Some i →
  slot_supported_for_carrier i (ts slot) = true →
  owners self !! i = Some r → r !! Z.to_nat (ts slot - 1) = Some o0 →
  ∃ self', set_owner i (Z.to_nat (ts slot - 1)) o self = Ok tt self' ∧ slot_update self self' slot o ∧
    owners self' = <[i:=<[Z.to_nat (ts slot - 1):=o]> r]> (owners self).
Proof.
  intros Hwf Hp Hs Hr Ho. pose proof Hwf as [Hc Hnd Hlen Hrow].
  pose proof (lookup_lt_Some _ _ _ Hr) as Hi. pose proof (lookup_lt_Some _ _ _ Ho) as Hj.
  set (self' := mkAlloc (carriers self) (<[i:=<[Z.to_nat (ts slot - 1):=o]> r]> (owners self))).
  exists self'. split_and!; [|split|done].
  - unfold set_owner, mbind, M_bind, get. rewrite Hr. cbn. by rewrite Ho.
  - split; cbn; [done|done|by rewrite length_insert|]. apply Forall_insert; [done|].
    rewrite length_insert. exact (Forall_lookup_1 _ _ _ _ Hrow Hr).
  - done.
  - intros s. destruct (supported_range _ _ Hs) as [_ Ht]. case_decide as Heq.
    + subst s. rewrite (slot_owner_entry self' slot i (<[Z.to_nat (ts slot - 1):=o]> r)); [|done|done|].
      * by rewrite list_lookup_insert_eq.
      * cbn. by rewrite list_lookup_insert_eq.
    + unfold slot_owner. change (carriers self') with (carriers self).
      destruct (position (carrier_num s) (carriers self)) as [i'|] eqn:Hp'; [cbn|done].
      destruct (slot_supported_for_carrier i' (ts s)) eqn:Hs'; [|done].
      destruct (decide (i' = i)) as [->|]; [|by rewrite list_lookup_insert_ne].
      rewrite list_lookup_insert_eq, Hr by done. cbn.
      destruct (supported_range _ _ Hs') as [_ Ht']. rewrite list_lookup_insert_ne; [done|].
      intros Hts. apply Heq. apply position_Some in Hp as [Hp _], Hp' as [Hp' _].
      destruct s as [c t], slot as [c' t']. cbn in *. f_equal; [congruence|lia].
Qed.

(** The prologue of [reserve_slot] and [release_slot]. *)
Lemma lookup_slot_cases self slot {A} (k : nat → nat → option TimeslotOwner → T A) : alloc_wf self →
  let run := (i ← carrier_idx (carrier_num slot); j ← slot_idx i (ts slot); o ← owner_at i j; k i j o) self in
  ((carrier_num slot ∉ carriers self) ∧ run = Err (InvalidCarrier (carrier_num slot)) self) ∨
  ((carrier_num slot ∈ carriers self) ∧ ¬ valid_slot self slot ∧ run = Err (InvalidTimeslot (ts slot)) self) ∨
  (valid_slot self slot ∧ ∃ i r o, position (carrier_num slot) (carriers self) = Some i ∧
     slot_supported_for_carrier i (ts slot) = true ∧ owners self !! i = Some r ∧
     r !! Z.to_nat (ts slot - 1) = Some o ∧ slot_owner self slot = o ∧
     run = k i (Z.to_nat (ts slot - 1)) o self).
Proof.
  intros Hwf run. unfold run, carrier_idx, slot_idx, mbind, M_bind, get.
  destruct (position (carrier_num slot) (carriers self)) as [i|] eqn:Hp; cbn.
  2: { left. by apply position_None in Hp. }
  right. pose proof Hp as [Hi _]%position_Some.
  destruct (slot_supported_for_carrier i (ts slot)) eqn:Hs; cbn.
  2: { left. split_and!; [by eapply list_elem_of_lookup_2| |done].
       intros (i' & Hp' & Hs'). rewrite Hp in Hp'. injection Hp' as <-. congruence. }
  right. split; [by exists i|].
  destruct (slot_entry self i (ts slot) Hwf) as (r & o & Hr & Hl & Ho); [by eapply lookup_lt_Some|done|].
  exists i, r, o. split_and!; try done.
  - by rewrite (slot_owner_entry self slot i r), Ho.
  - unfold owner_at, mbind, M_bind, get. rewrite Hr. cbn. by rewrite Ho.
Qed.

(** The results [reserve_slot] may have. *)
Definition reserve_result (self : TimeslotAllocator) (o : TimeslotOwner) (slot : CarrierSlot)
    (r : outcome TimeslotAllocator TimeslotAllocErr unit) : Prop :=
  match r with
  | Ok _ self' => valid_slot self slot ∧ slot_owner self slot = None ∧ slot_update self self' slot (Some o)
  | Err e self' => self' = self ∧
      match e with
      | InvalidCarrier c => c = carrier_num slot ∧ c ∉ carriers self
      | InvalidTimeslot t => t = ts slot ∧ ¬ valid_slot self slot
      | InUse c t existing => c = carrier_num slot ∧ t = ts slot ∧ slot_owner self slot = Some existing
      | _ => False
      end
  | Panic => False
  end.

Lemma reserve_slot_ok self o slot : alloc_wf self → reserve_result self o slot (reserve_slot o slot self).
Proof.
  intros Hwf. unfold reserve_slot. destruct (lookup_slot_cases self slot (λ i j existing,
    match existing with
    | None => set_owner i j (Some o)
    | Some existing => fail (InUse (carrier_num slot) (ts slot) existing)
    end) Hwf) as [[Hni ->]|[(_ & Hnv & ->)|(Hv & i & r & ex & Hp & Hs & Hr & Ho & Hown & ->)]]; cbn; try done.
  destruct ex as [ex|]; cbn; [done|].
  destruct (set_owner_ok self slot i r None (Some o)) as (self' & -> & Hupd & _); done.
Qed.

Definition release_result (self : TimeslotAllocator) (o : TimeslotOwner) (slot : CarrierSlot)
    (r : outcome TimeslotAllocator TimeslotAllocErr unit) : Prop :=
  match r with
  | Ok _ self' => valid_slot self slot ∧ slot_owner self slot = Some o ∧ slot_update self self' slot None
  | Err e self' => self' = self ∧
      match e with
      | InvalidCarrier c => c = carrier_num slot ∧ c ∉ carriers self
      | InvalidTimeslot t => t = ts slot ∧ ¬ valid_slot self slot
      | NotAllocated c t => c = carrier_num slot ∧ t = ts slot ∧ slot_owner self slot = None
      | OwnerMismatch c t o' actual => c = carrier_num slot ∧ t = ts slot ∧ o' = o ∧ actual ≠ o ∧
          slot_owner self slot = Some actual
      | _ => False
      end
  | Panic => False
  end.

Lemma release_slot_ok self o slot : alloc_wf self → release_result self o slot (release_slot o slot self).
Proof.
  intros Hwf. unfold release_slot. destruct (lookup_slot_cases self slot (λ i j existing,
    match existing with
    | None => fail (NotAllocated (carrier_num slot) (ts slot))
    | Some existing =>
        if decide (existing ≠ o) then fail (OwnerMismatch (carrier_num slot) (ts slot) o existing)
        else set_owner i j None
    end) Hwf) as [[Hni ->]|[(_ & Hnv & ->)|(Hv & i & r & ex & Hp & Hs & Hr & Ho & Hown & ->)]]; cbn; try done.
  destruct ex as [ex|]; cbn; [|done]. case_decide as Hne; cbn; [done|].
  subst ex.
  destruct (set_owner_ok self slot i r (Some o) None) as (self' & -> & Hupd & _); done.
Qed.

(** * Allocation of any free slot *)

Lemma first_free_Some tss r t : first_free tss r = Some t →
  t ∈ tss ∧ r !! Z.to_nat (t - 1) = Some None.
Proof.
  induction tss as [|t' tss IH]; [done|]. cbn. destruct (r !! Z.to_nat (t' - 1)) as [[o|]|] eqn:Hr.
  - intros [Hin Ht]%IH. split; [by right|done].
  - intros [= <-]. split; [by left|done].
  - intros [Hin Ht]%IH. split; [by right|done].
Qed.

Lemma first_free_None tss r : first_free tss r = None → ∀ t, t ∈ tss → r !! Z.to_nat (t - 1) ≠ Some None.
Proof.
  induction tss as [|t' tss IH]; cbn; [intros _ t Ht; by apply not_elem_of_nil in Ht|].
  intros Hf t [->|Hin]%elem_of_cons; [by destruct (r !! Z.to_nat (t' - 1)) as [[]|]|].
  apply IH; [|done]. by destruct (r !! Z.to_nat (t' - 1)) as [[]|].
Qed.

Lemma ts_range_supported i t : t ∈ ts_range i ↔ slot_supported_for_carrier i t = true.
Proof.
  destruct i; cbn; rewrite andb_true_iff, !Z.leb_le; rewrite !elem_of_cons, elem_of_nil; lia.
Qed.

Lemma find_free_Some rows k i t : find_free rows k = Some (i, t) →
  k ≤ i ∧ t ∈ ts_range i ∧ ∃ r, rows !! (i - k) = Some r ∧ r !! Z.to_nat (t - 1) = Some None.
Proof.
  revert k. induction rows as [|r rows IH]; intros k; [done|]. cbn [find_free].
  destruct (first_free (ts_range k) r) as [t'|] eqn:Hf.
  - intros [= <- <-]. apply first_free_Some in Hf as [Hin Hr]. rewrite Nat.sub_diag. eauto 10.
  - intros (Hk & Hin & r' & Hr' & Ht)%IH. split_and!; [lia|done|]. exists r'.
    by replace (i - k) with (S (i - S k)) by lia.
Qed.

Lemma find_free_None rows k : find_free rows k = None →
  ∀ i r t, rows !! i = Some r → t ∈ ts_range (k + i) → r !! Z.to_nat (t - 1) ≠ Some None.
Proof.
  revert k. induction rows as [|r0 rows IH]; intros k; [done|]. cbn [find_free].
  destruct (first_free (ts_range k) r0) eqn:Hf; [done|]. intros Hn [|i] r t Hr Ht; cbn in Hr.
  - injection Hr as ->. rewrite Nat.add_0_r in Ht. by eapply first_free_None.
  - apply (IH (S k) Hn i r t Hr). by replace (S k + i) with (k + S i) by lia.
Qed.

(** Counting the free entries of a row and of the matrix. *)
Lemma count_free_insert (r : row) j o : r !! j = Some None →
  count_free r = S (count_free (<[j:=Some o]> r)).
Proof.
  unfold count_free. revert j. induction r as [|x r IH]; intros [|j] Hj; cbn in Hj; [done..| |].
  - injection Hj as ->. rewrite !filter_cons. cbn. done.
  - change (<[S j:=Some o]> (x :: r)) with (x :: <[j:=Some o]> r). rewrite !filter_cons. specialize (IH j Hj). case_decide; cbn; lia.
Qed.

Lemma count_free_insert_drop (r : row) j o : r !! S j = Some None →
  count_free (drop 1 r) = S (count_free (drop 1 (<[S j:=Some o]> r))).
Proof. destruct r as [|x r]; [done|]. cbn. rewrite !drop_0. apply count_free_insert. Qed.

Lemma free_slots_insert rows k i r t o : rows !! i = Some r → t ∈ ts_range (k + i) →
  r !! Z.to_nat (t - 1) = Some None →
  free_slots_from rows k = S (free_slots_from (<[i:=<[Z.to_nat (t - 1):=Some o]> r]> rows) k).
Proof.
  revert k i. induction rows as [|r0 rows IH]; intros k [|i] Hi Ht Hfree; cbn in Hi; [done..| |].
  - injection Hi as ->. rewrite Nat.add_0_r in Ht. cbn [insert list_insert free_slots_from].
    destruct k as [|k]; cbn [free_slots_from].
    + apply ts_range_supported in Ht. cbn in Ht. rewrite andb_true_iff, !Z.leb_le in Ht.
      destruct (Z.to_nat (t - 1)) as [|j] eqn:Hj; [lia|].
      rewrite (count_free_insert_drop r j o) by done. lia.
    + rewrite (count_free_insert r _ o Hfree). lia.
  - match goal with |- context [<[S i:=?y]> (r0 :: rows)] =>
      change (<[S i:=y]> (r0 :: rows)) with (r0 :: <[i:=y]> rows) end. cbn [free_slots_from].
    rewrite (IH (S k) i); [lia|done|by replace (S k + i) with (k + S i) by lia|done].
Qed.

(** The results [allocate_any_slot] may have. *)
Definition allocate_result (self : TimeslotAllocator) (o : TimeslotOwner)
    (r : outcome TimeslotAllocator TimeslotAllocErr (option CarrierSlot)) : Prop :=
  match r with
  | Ok None self' => self' = self ∧ ∀ slot, valid_slot self slot → slot_owner self slot ≠ None
  | Ok (Some slot) self' => valid_slot self slot ∧ slot_owner self slot = None ∧
      slot_update self self' slot (Some o) ∧ free_slot_count self = S (free_slot_count self')
  | _ => False
  end.

Lemma allocate_any_slot_ok self o : alloc_wf self → allocate_result self o (allocate_any_slot o self).
Proof.
  intros Hwf. pose proof Hwf as [Hc Hnd Hlen Hrow]. unfold allocate_any_slot, mbind, M_bind, get.
  destruct (find_free (owners self) 0) as [[i t]|] eqn:Hf.
  - apply find_free_Some in Hf as (_ & Hin & r & Hr & Hfree). rewrite Nat.sub_0_r in Hr.
    pose proof (lookup_lt_Some _ _ _ Hr) as Hi.
    destruct (lookup_lt_is_Some_2 (carriers self) i) as [c Hci]; [lia|].
    pose proof (position_nodup _ _ _ Hnd Hci) as Hp. pose proof (proj1 (ts_range_supported i t) Hin) as Hs.
    destruct (set_owner_ok self (mkSlot c t) i r None (Some o)) as (self' & Heq & Hupd & Hown'); [done..|].
    cbn [ts] in Heq, Hown'. rewrite Heq, Hci. cbn. split_and!; [by exists i| |done|].
    + rewrite (slot_owner_entry self (mkSlot c t) i r) by done. cbn [ts]. by rewrite Hfree.
    + unfold free_slot_count. rewrite Hown'. by apply free_slots_insert.
  - cbn. split; [done|]. intros slot (i & Hp & Hs).
    destruct (slot_entry self i (ts slot) Hwf) as (r & ow & Hr & _ & How);
      [by apply position_Some in Hp as [Hp%lookup_lt_Some _]|done|].
    rewrite (slot_owner_entry self slot i r), How by done. intros Hnone. cbn in Hnone. subst ow.
    apply (find_free_None _ _ Hf i r (ts slot)); [done|by apply ts_range_supported|done].
Qed.

(** * Reconfiguration *)

Lemma dedup_carriers_spec l : NoDup (dedup_carriers l) ∧ ∀ c, c ∈ dedup_carriers l ↔ c ∈ l.
Proof.
  unfold dedup_carriers. induction l as [|x l [Hnd Hin]] using rev_ind.
  { split; [constructor|done]. }
  rewrite foldl_app. cbn [foldl]. set (acc := foldl _ [] l) in *. case_bool_decide as Hx.
  - split; [done|]. intros c. rewrite Hin, elem_of_app, list_elem_of_singleton. split; [by left|].
    intros [?| ->]; [done|]. by apply Hin.
  - split.
    + apply NoDup_app. split_and!; [done| |apply NoDup_singleton].
      intros c Hc ->%list_elem_of_singleton. done.
    + intros c. by rewrite !elem_of_app, Hin.
Qed.

Lemma configured_spec l : configured l ≠ [] ∧ NoDup (configured l).
Proof.
  unfold configured. destruct (dedup_carriers_spec l) as [Hnd _].
  destruct (dedup_carriers l) as [|c l']; [|done]. split; [done|apply NoDup_singleton].
Qed.

(** The row moves of a reconfiguration: (new index, old index). *)
Definition row_move (nc : list Z) (p : nat * Z) : option (nat * nat) :=
  (λ new_i, (new_i, p.1)) <$> position p.2 nc.
Definition row_moves (old nc : list Z) : list (nat * nat) :=
  omap (row_move nc) (zip (seq 0 (length old)) old).

Lemma elem_of_row_moves old nc d s :
  (d, s) ∈ row_moves old nc ↔ ∃ c, old !! s = Some c ∧ position c nc = Some d.
Proof.
  unfold row_moves, row_move. rewrite list_elem_of_omap. split.
  - intros ([s' c] & Hin & Heq). apply list_elem_of_lookup in Hin as (k & Hk).
    apply lookup_zip_Some in Hk as [Hk1 Hk2]. cbn in Heq.
    apply fmap_Some in Heq as (d' & Hp & [= -> ->]). exists c.
    apply lookup_seq in Hk1 as [-> _]. done.
  - intros (c & Hs & Hp). exists (s, c). split; [|cbn; by rewrite Hp].
    apply list_elem_of_lookup. exists s. apply lookup_zip_Some. split; [|done].
    apply lookup_seq. split; [done|by eapply lookup_lt_Some].
Qed.

Lemma NoDup_row_moves old nc : NoDup old → NoDup (row_moves old nc).*1.
Proof.
  intros Hnd. apply NoDup_fmap_2_strong.
  - intros [d s] [d' s'] (c & Hs & Hp)%elem_of_row_moves (c' & Hs' & Hp')%elem_of_row_moves Hd.
    cbn in Hd. subst d'. apply position_Some in Hp as [Hp _], Hp' as [Hp' _].
    assert (c = c') as <- by congruence. f_equal. by eapply NoDup_lookup.
  - unfold row_moves. apply NoDup_omap_inj.
    + apply (NoDup_fmap_1 fst). rewrite fst_zip by (rewrite length_seq; lia). apply NoDup_seq.
    + intros [s c] [s' c'] [d s''] Hi Hi' H1 H2. unfold row_move in H1, H2. cbn in H1, H2.
      apply fmap_Some in H1 as (? & Hp & [= -> ->]), H2 as (? & Hp' & [= -> ->]).
      apply position_Some in Hp as [Hp _], Hp' as [Hp' _]. congruence.
Qed.

Lemma configure_carriers_ok self new : alloc_wf self →
  ∃ self', configure_carriers new self = Ok tt self' ∧ alloc_wf self' ∧ carriers self' = configured new ∧
    ∀ c i, position c (configured new) = Some i →
      owners self' !! i = match position c (carriers self) with
        | Some j => owners self !! j | None => Some empty_row end.
Proof.
  intros Hwf. pose proof Hwf as [Hc Hnd Hlen Hrow]. unfold configure_carriers, mbind, M_bind, get.
  destruct (configured_spec new) as [Hne Hnd']. set (nc := configured new) in *. cbv zeta.
  destruct (copy_pairs_spec (row_moves (carriers self) nc) (owners self) (replicate (length nc) empty_row))
    as (rows & Heq & Hl & Hin & Hout); [by apply NoDup_row_moves| |].
  { apply Forall_forall. intros [d s] (c & Hs & Hp)%elem_of_row_moves. cbn. rewrite length_replicate, Hlen.
    apply position_Some in Hp as [Hp%lookup_lt_Some _]. apply lookup_lt_Some in Hs. lia. }
  rewrite length_replicate in Hl.
  rewrite (foldM_ext _ (λ p rows, match row_move nc p with
    | Some q => copy_at q.1 q.2 (owners self) rows | None => Some rows end)).
  2: { intros [old_i c] rows' _. unfold row_move. cbn. by destruct (position c nc). }
  rewrite foldM_omap. change (foldM _ _ _) with (copy_pairs (row_moves (carriers self) nc) (owners self)
    (replicate (length nc) empty_row)). rewrite Heq. cbn. eexists. split; [done|].
  assert (∀ c i, position c nc = Some i → rows !! i = match position c (carriers self) with
    | Some j => owners self !! j | None => Some empty_row end) as Hrows.
  { intros c i Hp. destruct (position c (carriers self)) as [j|] eqn:Hj.
    - apply Hin, elem_of_row_moves. exists c. split; [|done]. by apply position_Some in Hj as [Hj _].
    - rewrite Hout; [apply lookup_replicate_2; by apply position_Some in Hp as [Hp%lookup_lt_Some _]|].
      intros ([d s] & -> & (c' & Hs & Hp')%elem_of_row_moves)%list_elem_of_fmap. cbn in Hp.
      apply position_Some in Hp as [Hp _], Hp' as [Hp' _].
      assert (c' = c) as -> by congruence. apply position_None in Hj. by eapply Hj, list_elem_of_lookup_2. }
  split_and!; [|done|done]. split; cbn; [done|done|done|].
  apply Forall_lookup_2. intros i r Hr. destruct (lookup_lt_is_Some_2 nc i) as [c Hci].
  { apply lookup_lt_Some in Hr. lia. }
  rewrite (Hrows c i) in Hr by (by apply position_nodup).
  destruct (position c (carriers self)) as [j|]; [|by injection Hr as <-].
  exact (Forall_lookup_1 _ _ _ _ Hrow Hr).
Qed.

(** * Sequences of operations *)

Inductive alloc_op : Type :=
| OpReserve (o : TimeslotOwner) (slot : CarrierSlot)
| OpRelease (o : TimeslotOwner) (slot : CarrierSlot)
| OpAllocate (o : TimeslotOwner)
| OpConfigure (l : list Z).

(** The state left behind by a call; [None] is a panic. *)
Definition state_of {A} (r : outcome TimeslotAllocator TimeslotAllocErr A) : option TimeslotAllocator :=
  match r with Ok _ s | Err _ s => Some s | Panic => None end.

Definition run_op (op : alloc_op) (self : TimeslotAllocator) : option TimeslotAllocator :=
  match op with
  | OpReserve o slot => state_of (reserve_slot o slot self)
  | OpRelease o slot => state_of (release_slot o slot self)
  | OpAllocate o => state_of (allocate_any_slot o self)
  | OpConfigure l => state_of (configure_carriers l self)
  end.

Definition run_ops (ops : list alloc_op) (self : TimeslotAllocator) : option TimeslotAllocator :=
  foldM run_op ops self.

Lemma run_op_wf op self : alloc_wf self → ∃ self', run_op op self = Some self' ∧ alloc_wf self'.
Proof.
  intros Hwf. destruct op as [o slot|o slot|o|l]; cbn.
  - pose proof (reserve_slot_ok self o slot Hwf) as Hr. destruct (reserve_slot o slot self) as [a s|e s|]; cbn in *.
    + destruct Hr as (_ & _ & [? _ _]). eauto.
    + destruct Hr as [-> _]. eauto.
    + done.
  - pose proof (release_slot_ok self o slot Hwf) as Hr. destruct (release_slot o slot self) as [a s|e s|]; cbn in *.
    + destruct Hr as (_ & _ & [? _ _]). eauto.
    + destruct Hr as [-> _]. eauto.
    + done.
  - pose proof (allocate_any_slot_ok self o Hwf) as Hr.
    destruct (allocate_any_slot o self) as [[slot|] s|e s|]; cbn in *; [|destruct Hr as [-> _]; eauto|done|done].
    destruct Hr as (_ & _ & [? _ _] & _). eauto.
  - destruct (configure_carriers_ok self l Hwf) as (self' & -> & Hwf' & _). eauto.
Qed.

Lemma alloc_wf_default : alloc_wf default_alloc.
Proof. split; cbn; [done|apply NoDup_singleton|done|by repeat constructor]. Qed.

(** * Properties *)

(** No sequence of operations on a fresh allocator panics, and the shape of
    the owner matrix (one row of four per carrier, carriers distinct and at
    least one) is an invariant. *)
Theorem allocator_invariant ops : ∃ self, run_ops ops default_alloc = Some self ∧ alloc_wf self.
Proof.
  apply (foldM_total alloc_wf); [|apply alloc_wf_default]. intros op self _. apply run_op_wf.
Qed.

(** C31: the allocator implements an ownership map.  Reserving succeeds exactly on
    valid free slots, releasing exactly for the slot's owner, allocating picks a
    free slot if and only if there is one (and takes one off the free count);
    success changes that slot's owner and nothing else, and an error leaves the
    allocator as it was. *)
Theorem allocator_refines_ownership_map self o slot : alloc_wf self →
  reserve_result self o slot (reserve_slot o slot self) ∧
  release_result self o slot (release_slot o slot self) ∧
  allocate_result self o (allocate_any_slot o self).
Proof.
  intros Hwf. split_and!; [by apply reserve_slot_ok|by apply release_slot_ok|by apply allocate_any_slot_ok].
Qed.

Lemma allocator_refines_ownership_map_witness :
  reserve_result default_alloc Cmce (mkSlot 0 2) (reserve_slot Cmce (mkSlot 0 2) default_alloc) ∧
  release_result default_alloc Cmce (mkSlot 0 2) (release_slot Cmce (mkSlot 0 2) default_alloc) ∧
  allocate_result default_alloc Cmce (allocate_any_slot Cmce default_alloc).
Proof. apply (allocator_refines_ownership_map default_alloc Cmce (mkSlot 0 2)), alloc_wf_default. Defined.

(** The owner on whose behalf an operation runs. *)
Definition op_owner (op : alloc_op) : option TimeslotOwner :=
  match op with OpReserve o _ | OpRelease o _ | OpAllocate o => Some o | OpConfigure _ => None end.

(** A slot stays with its owner whatever the other owner does. *)
Theorem slot_kept_from_other_owner self self' op o o' slot : alloc_wf self →
  slot_owner self slot = Some o → op_owner op = Some o' → o' ≠ o →
  run_op op self = Some self' → slot_owner self' slot = Some o.
Proof.
  intros Hwf Hown Hop Hne Hrun. destruct op as [o1 sl|o1 sl|o1|l]; cbn in *; try done; injection Hop as ->.
  - pose proof (reserve_slot_ok self o' sl Hwf) as Hr. destruct (reserve_slot o' sl self) as [a s|e s|]; cbn in *;
      [|destruct Hr as [-> _]; congruence|done].
    injection Hrun as <-. destruct Hr as (_ & Hfree & [_ _ ->]). case_decide; [congruence|done].
  - pose proof (release_slot_ok self o' sl Hwf) as Hr. destruct (release_slot o' sl self) as [a s|e s|]; cbn in *;
      [|destruct Hr as [-> _]; congruence|done].
    injection Hrun as <-. destruct Hr as (_ & Hmine & [_ _ ->]). case_decide; [congruence|done].
  - pose proof (allocate_any_slot_ok self o' Hwf) as Hr.
    destruct (allocate_any_slot o' self) as [[sl|] s|e s|]; cbn in *; [|destruct Hr as [-> _]; congruence|done|done].
    injection Hrun as <-. destruct Hr as (_ & Hfree & [_ _ ->] & _). case_decide; [congruence|done].
Qed.

Lemma slot_kept_from_other_owner_witness :
  slot_owner (mkAlloc [0] [[None; Some Cmce; Some Brew; None]])%Z (mkSlot 0 2) = Some Cmce.
Proof.
  apply (slot_kept_from_other_owner (mkAlloc [0] [[None; Some Cmce; None; None]])%Z
    (mkAlloc [0] [[None; Some Cmce; Some Brew; None]])%Z (OpAllocate Brew) Cmce Brew (mkSlot 0 2)); try done.
  split; cbn; [done|apply NoDup_singleton|done|by repeat constructor].
Defined.

(** Reconfiguration keeps the owner of every slot that is valid before and
    after it, and carriers that are new start free. *)
Theorem configure_keeps_owners self new : alloc_wf self →
  ∃ self', configure_carriers new self = Ok tt self' ∧ alloc_wf self' ∧ carriers self' = configured new ∧
    (∀ slot, valid_slot self slot → valid_slot self' slot → slot_owner self' slot = slot_owner self slot) ∧
    (∀ slot, carrier_num slot ∉ carriers self → slot_owner self' slot = None).
Proof.
  intros Hwf. destruct (configure_carriers_ok self new Hwf) as (self' & Heq & Hwf' & Hc & Hrows).
  exists self'. split_and!; [done..| |].
  - intros slot (i & Hp & Hs) (i' & Hp' & Hs'). unfold slot_owner. rewrite Hp, Hp'. cbn. rewrite Hs, Hs'.
    rewrite Hc in Hp'. rewrite (Hrows _ _ Hp'), Hp. done.
  - intros slot Hni%position_None. unfold slot_owner. rewrite Hc.
    destruct (position (carrier_num slot) (configured new)) as [i'|] eqn:Hp'; [cbn|done].
    destruct (slot_supported_for_carrier i' (ts slot)) eqn:Hs; [|done].
    rewrite (Hrows _ _ Hp'), Hni. cbn. destruct (supported_range _ _ Hs) as [Ht _].
    revert Ht. generalize (Z.to_nat (ts slot - 1)). intros n Hn.
    do 4 (destruct n as [|n]; [done|]). lia.
Qed.

Lemma configure_keeps_owners_witness :
  ∃ self', configure_carriers [1585; 1586; 1585]%Z default_alloc = Ok tt self' ∧ alloc_wf self' ∧
    carriers self' = configured [1585; 1586; 1585]%Z ∧
    (∀ slot, valid_slot default_alloc slot → valid_slot self' slot →
       slot_owner self' slot = slot_owner default_alloc slot) ∧
    (∀ slot, carrier_num slot ∉ carriers default_alloc → slot_owner self' slot = None).
Proof. apply (configure_keeps_owners default_alloc [1585; 1586; 1585]%Z), alloc_wf_default. Defined.

(** When a secondary carrier whose timeslot 1 is in use becomes the primary
    carrier, the allocation is still stored but nobody can release it any more:
    timeslot 1 of the primary carrier is not addressable. *)
Theorem promoted_ts1_cannot_be_released :
  ∃ self, run_ops [OpConfigure [1584; 1585]; OpReserve Cmce (mkSlot 1585 1); OpConfigure [1585]]%Z default_alloc
      = Some self ∧
    owners self = [[Some Cmce; None; None; None]] ∧
    slot_owner self (mkSlot 1585 1) = None ∧
    ∀ o, release_slot o (mkSlot 1585 1) self = Err (InvalidTimeslot 1) self.
Proof. eexists. split; [reflexivity|]. split_and!; [reflexivity|reflexivity|]. by intros []. Qed.
