(* ===== verification/SsiRanges.v ===== *)
(** tetra-core/ranges.rs: sorted lists of SSI ranges and membership.

    [None] is a failed assertion.  The [u32] addition [range.end + 1] wraps, as
    in a release build. *)
From S2P Require Import Prelude Bits.
From Stdlib Require Import Sorting.Sorted.
Local Open Scope Z_scope.

(** * Definitions *)

Record SsiRange : Type := mkRange { range_start : Z; range_end : Z }.

(** [sort_by_key] is a stable sort; insertion after the equal keys. *)
Fixpoint insert_range (r : SsiRange) (l : list SsiRange) : list SsiRange :=
  match l with
  | [] => [r]
  | x :: l => if range_start r <? range_start x then r :: x :: l else x :: insert_range r l
  end.
Definition sort_by_start (l : list SsiRange) : list SsiRange := foldl (λ acc r, insert_range r acc) [] l.

Fixpoint check_ranges (ranges : list SsiRange) (lower_bound : Z) : bool :=
  match ranges with
  | [] => true
  | r :: ranges =>
      (range_start r <=? range_end r) && (lower_bound <=? range_start r) &&
      check_ranges ranges (wrap 32 (range_end r + 1))
  end.

Definition from_vec_ssirange (ranges : list SsiRange) : option (list SsiRange) :=
  let ranges := sort_by_start ranges in
  if check_ranges ranges 0 then Some ranges else None.

Definition from_vec_tuple (tuples : list (Z * Z)) : option (list SsiRange) :=
  from_vec_ssirange ((λ '(s, e), mkRange s e) <$> tuples).

Fixpoint contains (ranges : list SsiRange) (addr : Z) : bool :=
  match ranges with
  | [] => false
  | r :: ranges =>
      if (range_start r <=? addr) && (addr <=? range_end r) then true
      else if addr <? range_end r then false
      else contains ranges addr
  end.

(** * Sortedness *)

Definition range_le (r1 r2 : SsiRange) : Prop := range_start r1 ≤ range_start r2.

Lemma elem_of_insert_range r l x : x ∈ insert_range r l ↔ x = r ∨ x ∈ l.
Proof.
  induction l as [|y l IH]; cbn.
  - by rewrite list_elem_of_singleton, elem_of_nil; intuition.
  - case_match; rewrite ?elem_of_cons, ?IH; rewrite ?elem_of_cons; tauto.
Qed.

Lemma insert_range_sorted r l : StronglySorted range_le l → StronglySorted range_le (insert_range r l).
Proof.
  induction 1 as [|x l Hs IH Hx]; cbn; [by repeat constructor|].
  destruct (Z.ltb_spec (range_start r) (range_start x)) as [Hlt|Hge].
  - constructor; [by constructor|]. constructor; [unfold range_le; lia|].
    eapply Forall_impl; [exact Hx|]. unfold range_le. lia.
  - constructor; [done|]. apply Forall_forall. intros y [-> | Hy]%elem_of_insert_range; [done|].
    by apply (proj1 (Forall_forall _ _) Hx).
Qed.

Lemma sort_by_start_spec l :
  StronglySorted range_le (sort_by_start l) ∧ ∀ x, x ∈ sort_by_start l ↔ x ∈ l.
Proof.
  unfold sort_by_start. induction l as [|r l [IHs IHe]] using rev_ind; [split; [constructor|done]|].
  rewrite foldl_app. cbn. split; [by apply insert_range_sorted|].
  intros x. rewrite elem_of_insert_range, IHe, elem_of_app, list_elem_of_singleton. tauto.
Qed.

Definition in_range (addr : Z) (r : SsiRange) : Prop := range_start r ≤ addr ≤ range_end r.

Lemma contains_sorted l addr : StronglySorted range_le l →
  contains l addr = true ↔ ∃ r, r ∈ l ∧ in_range addr r.
Proof.
  induction 1 as [|r l Hs IH Hr]; cbn.
  { split; [done|]. intros (r & Hr & _). by apply not_elem_of_nil in Hr. }
  destruct (Z.leb_spec (range_start r) addr), (Z.leb_spec addr (range_end r)),
    (Z.ltb_spec addr (range_end r)); cbn; try lia.
  all: rewrite ?IH; split; try done.
  all: try (intros _; exists r; split; [by left|unfold in_range; lia]).
  all: try (intros (x & Hx & Hin); exists x; split; [by right|done]).
  all: intros (x & [-> | Hx]%elem_of_cons & Hin); unfold in_range in Hin; try lia.
  all: try (exists x; split; [done|unfold in_range; lia]).
  all: pose proof (proj1 (Forall_forall _ _) Hr x Hx); unfold range_le in *; lia.
Qed.

(** The accepted ranges are valid and pairwise disjoint. *)
Lemma check_ranges_disjoint l lb : check_ranges l lb = true →
  Forall (λ r, 0 ≤ range_start r ∧ range_end r < 2 ^ 32 - 1) l →
  Forall (λ r, range_start r ≤ range_end r ∧ lb ≤ range_start r) l ∧
  ∀ i j r1 r2, (i < j)%nat → l !! i = Some r1 → l !! j = Some r2 → range_end r1 < range_start r2.
Proof.
  intros Hc Hb. revert lb Hc. induction Hb as [|r l [H0 Hmax] Hb IH]; intros lb Hc; [by split|].
  cbn in Hc. rewrite !andb_true_iff, !Z.leb_le in Hc. destruct Hc as [[Hse Hlb] Hc].
  rewrite wrap_small in Hc by (unfold is_u; lia). destruct (IH _ Hc) as [Hall Hdis]. split.
  - constructor; [done|]. eapply Forall_impl; [exact Hall|]. cbn. lia.
  - intros [|i] [|j] r1 r2 Hij H1 H2; cbn in *; [lia| |lia|].
    + injection H1 as <-. pose proof (Forall_lookup_1 _ _ _ _ Hall H2) as [_ H]. lia.
    + apply (Hdis i j); [lia|done|done].
Qed.

(** * Properties *)

(** The early-exit lookup is membership.  If the range list was accepted at
    all, an address is found exactly when one of the configured ranges holds it. *)
Lemma contains_correct ranges sorted addr :
  from_vec_ssirange ranges = Some sorted →
  contains sorted addr = true ↔ ∃ r, r ∈ ranges ∧ in_range addr r.
Proof.
  unfold from_vec_ssirange. case_match; [|done]. intros [= <-].
  destruct (sort_by_start_spec ranges) as [Hs He]. rewrite contains_sorted by done.
  by setoid_rewrite He.
Qed.

(** An accepted list holds only valid, pairwise disjoint ranges, provided no
    range ends at [u32::MAX] (whose successor wraps to 0 in the overlap check). *)
Lemma accepted_ranges_disjoint ranges sorted :
  from_vec_ssirange ranges = Some sorted →
  Forall (λ r, 0 ≤ range_start r ∧ range_end r < 2 ^ 32 - 1) ranges →
  Forall (λ r, range_start r ≤ range_end r) sorted ∧
  ∀ i j r1 r2, i ≠ j → sorted !! i = Some r1 → sorted !! j = Some r2 →
    ∀ addr, ¬ (in_range addr r1 ∧ in_range addr r2).
Proof.
  unfold from_vec_ssirange. case_match eqn:Hc; [|done]. intros [= <-] Hb.
  destruct (sort_by_start_spec ranges) as [_ He].
  destruct (check_ranges_disjoint _ _ Hc) as [Hall Hdis].
  { apply Forall_forall. intros x Hx%He. by apply (proj1 (Forall_forall _ _) Hb). }
  split; [eapply Forall_impl; [exact Hall|]; cbn; tauto|].
  intros i j r1 r2 Hij H1 H2 addr [Ha1 Ha2]. unfold in_range in *.
  destruct (Nat.lt_gt_cases i j) as [Hlt _]. destruct (Hlt Hij) as [Hl|Hl].
  - pose proof (Hdis i j r1 r2 Hl H1 H2). lia.
  - pose proof (Hdis j i r2 r1 Hl H2 H1). lia.
Qed.

(** If the range list is accepted at all, the early-exit lookup is
    membership: an address is found exactly when one of the configured ranges
    holds it; and the accepted ranges are valid and pairwise disjoint, provided
    no range ends at [u32::MAX] (whose successor wraps to 0 in the overlap
    check). *)
Theorem accepted_ranges_correct ranges sorted : from_vec_ssirange ranges = Some sorted →
  (∀ addr, contains sorted addr = true ↔ ∃ r, r ∈ ranges ∧ in_range addr r) ∧
  (Forall (λ r, 0 ≤ range_start r ∧ range_end r < 2 ^ 32 - 1) ranges →
   Forall (λ r, range_start r ≤ range_end r) sorted ∧
   ∀ i j r1 r2, i ≠ j → sorted !! i = Some r1 → sorted !! j = Some r2 →
     ∀ addr, ¬ (in_range addr r1 ∧ in_range addr r2)).
Proof.
  intros H. split; [intros addr; by apply contains_correct|by apply accepted_ranges_disjoint].
Qed.

Lemma accepted_ranges_correct_witness :
  contains [mkRange 100 200; mkRange 400 500] 450 = true ↔
    ∃ r, r ∈ [mkRange 400 500; mkRange 100 200] ∧ in_range 450 r.
Proof. apply (accepted_ranges_correct [mkRange 400 500; mkRange 100 200]). reflexivity. Defined.

(** A range that ends at [u32::MAX] hides a later overlap from the check. *)
Example overlap_hidden_by_wrap :
  from_vec_ssirange [mkRange 10 (2 ^ 32 - 1); mkRange 20 30] =
    Some [mkRange 10 (2 ^ 32 - 1); mkRange 20 30].
Proof. reflexivity. Qed.
