(* ===== verification/TxReceipt.v ===== *)
(** tetra-core/tx_receipt.rs: the transmit receipt shared by the layers.

    All clones of a [TxReporter] share one atomic byte, which is the state here;
    [expects_ack] is fixed at creation.  A failed [compare_exchange] or
    assertion panics ([None]). *)
From S2P Require Import Prelude.
Local Open Scope Z_scope.

(** * Definitions *)

Inductive TxState : Type := Pending | Discarded | Transmitted | Lost | Acknowledged.
#[export] Instance TxState_eq_dec : EqDecision TxState.
Proof. solve_decision. Defined.

Definition tx_raw (s : TxState) : Z :=
  match s with Pending => 0 | Discarded => 1 | Transmitted => 2 | Lost => 3 | Acknowledged => 4 end.

Definition from_raw (v : Z) : TxState :=
  if v =? 0 then Pending else if v =? 1 then Discarded else if v =? 2 then Transmitted
  else if v =? 3 then Lost else Acknowledged.

Record TxReporter : Type := mkReporter { expects_ack : bool; tx_state : Z }.

Definition new_reporter : TxReporter := mkReporter true (tx_raw Pending).
Definition new_unacked : TxReporter := mkReporter false (tx_raw Pending).

Definition get_state (r : TxReporter) : TxState := from_raw (tx_state r).
Definition is_discarded (r : TxReporter) : bool := tx_state r =? tx_raw Discarded.
Definition is_transmitted (r : TxReporter) : bool := tx_raw Transmitted <=? tx_state r.
Definition is_acknowledged (r : TxReporter) : bool := tx_raw Acknowledged <=? tx_state r.

Definition is_in_final_state (r : TxReporter) : bool :=
  match get_state r with
  | Pending => false
  | Discarded => true
  | Transmitted => negb (expects_ack r)
  | Lost => true
  | Acknowledged => true
  end.

(** [compare_exchange] on the shared byte. *)
Definition mark (curr new : TxState) (r : TxReporter) : option TxReporter :=
  if tx_state r =? tx_raw curr then Some (mkReporter (expects_ack r) (tx_raw new)) else None.

Definition mark_transmitted (r : TxReporter) : option TxReporter := mark Pending Transmitted r.
Definition mark_discarded (r : TxReporter) : option TxReporter := mark Pending Discarded r.
Definition mark_acknowledged (r : TxReporter) : option TxReporter :=
  if expects_ack r then mark Transmitted Acknowledged r else None.
Definition mark_lost (r : TxReporter) : option TxReporter :=
  if expects_ack r then mark Transmitted Lost r else None.
Definition reset_reporter (r : TxReporter) : TxReporter := mkReporter (expects_ack r) (tx_raw Pending).

(** * The documented state machine *)

Inductive tx_step (ack : bool) : TxState → TxState → Prop :=
| step_transmitted : tx_step ack Pending Transmitted
| step_discarded : tx_step ack Pending Discarded
| step_acknowledged : ack = true → tx_step ack Transmitted Acknowledged
| step_lost : ack = true → tx_step ack Transmitted Lost.

Definition reporter_ok (r : TxReporter) : Prop := tx_state r = tx_raw (get_state r).

Lemma from_raw_raw s : from_raw (tx_raw s) = s.
Proof. by destruct s. Qed.

(** The four calls that drive the receipt. *)
Definition marks : list (TxReporter → option TxReporter) :=
  [mark_transmitted; mark_discarded; mark_acknowledged; mark_lost].

Lemma reporter_cases r : reporter_ok r → ∃ s, r = mkReporter (expects_ack r) (tx_raw s) ∧ get_state r = s.
Proof. intros Hr. exists (get_state r). destruct r as [a v]. cbn in *. split; [by f_equal|done]. Qed.

(** * Properties *)

(** The reporter is the documented state machine.  A [mark_*] call succeeds
    exactly along its transitions (any other call panics), the resulting byte
    is again a state, and the states reported as final are exactly those without
    a transition. *)
Theorem reporter_is_state_machine r : reporter_ok r →
  (∀ m r', m ∈ marks → m r = Some r' →
     tx_step (expects_ack r) (get_state r) (get_state r') ∧ expects_ack r' = expects_ack r ∧ reporter_ok r') ∧
  (∀ s', tx_step (expects_ack r) (get_state r) s' →
     ∃ m r', m ∈ marks ∧ m r = Some r' ∧ get_state r' = s') ∧
  (is_in_final_state r = true ↔ ∀ s', ¬ tx_step (expects_ack r) (get_state r) s').
Proof.
  intros Hr. destruct (reporter_cases r Hr) as (s & Heq & Hs). rewrite Heq. clear Heq Hr Hs.
  destruct r as [a v]. cbn [expects_ack]. clear v. split_and!.
  - intros m r' Hm Hrun. unfold marks in Hm. rewrite !elem_of_cons, elem_of_nil in Hm.
    destruct Hm as [-> | [-> | [-> | [-> | []]]]]; destruct s, a; cbn in Hrun; try done;
      injection Hrun as <-; cbn; (split_and!; [by constructor|done|done]).
  - intros s' Hstep. destruct s; cbn in Hstep; inversion Hstep; subst; try done.
    + exists mark_transmitted. eexists. split_and!; [by left|reflexivity|done].
    + exists mark_discarded. eexists. split_and!; [by right; left|reflexivity|done].
    + exists mark_acknowledged. eexists. split_and!; [by right; right; left|reflexivity|done].
    + exists mark_lost. eexists. split_and!; [by do 3 right; left|reflexivity|done].
  - unfold is_in_final_state. change (get_state (mkReporter a (tx_raw s))) with (from_raw (tx_raw s)).
    rewrite from_raw_raw. destruct s, a; cbn; split; try done;
      try (intros _ s' Hstep; by inversion Hstep); intros H; exfalso;
      [apply (H Transmitted)|apply (H Transmitted)|apply (H Lost)]; by constructor.
Qed.

Lemma reporter_is_state_machine_witness :
  (∀ m r', m ∈ marks → m new_reporter = Some r' →
     tx_step true Pending (get_state r') ∧ expects_ack r' = true ∧ reporter_ok r') ∧
  (∀ s', tx_step true Pending s' → ∃ m r', m ∈ marks ∧ m new_reporter = Some r' ∧ get_state r' = s') ∧
  (is_in_final_state new_reporter = true ↔ ∀ s', ¬ tx_step true Pending s').
Proof. apply (reporter_is_state_machine new_reporter). reflexivity. Defined.
