(* ===== verification/Crc16.v ===== *)
(** lmac/components/crc16.rs: the CRC-16 (ITU-T) of the control channels.

    The register is a 16-bit [Z].  Both routines run the generic step below, which
    gives the two properties the receiver relies on: an appended complemented
    checksum leaves the magic value 0x1d0f, and no error burst of up to 16 bits
    does.

    Cyclic redundancy checks of any width.

    A CRC register of [w] bits is fed bit by bit: it shifts left, and where the
    bit that leaves it differs from the bit fed, the generator polynomial is
    xored in ([gstep]).  The routines of the source are shown equal to this step;
    the theory (the step is linear over xor, feeding up to [w] bits equals
    xoring them into the register, a zero step is injective) is shared. *)
From S2P Require Import Prelude Bits.

Local Open Scope Z_scope.

(** Bitwise difference of two bit strings. *)
Definition xor_bits (l k : list bool) : list bool := zip_with xorb l k.

Lemma xor_bits_nil_r l : xor_bits l [] = [].
Proof. by destruct l. Qed.

Lemma length_xor_bits l k : length l = length k → length (xor_bits l k) = length l.
Proof. intros. unfold xor_bits. rewrite length_zip_with. lia. Qed.

Lemma xor_bits_invol l k : length l = length k → xor_bits (xor_bits l k) k = l.
Proof.
  revert k. induction l as [|b l IH]; intros [|c k] H; try done.
  simpl. f_equal; [by destruct b, c|]. apply IH. by injection H.
Qed.

Lemma xor_bits_zero l : xor_bits l (replicate (length l) false) = l.
Proof. induction l as [|b l IH]; [done|]. simpl. by rewrite xorb_false_r, IH. Qed.

Lemma xor_bits_app l1 l2 k1 k2 : length l1 = length k1 →
  xor_bits (l1 ++ l2) (k1 ++ k2) = xor_bits l1 k1 ++ xor_bits l2 k2.
Proof. intros. by apply zip_with_app. Qed.

Lemma xor_bits_of_Z n a b : xor_bits (bits_of_Z n a) (bits_of_Z n b) = bits_of_Z n (Z.lxor a b).
Proof.
  induction n as [|n IH]; [done|]. cbn [bits_of_Z xor_bits zip_with]. rewrite Z.lxor_spec. by f_equal.
Qed.

Lemma Z_of_bits_xor l k : length l = length k → Z_of_bits (xor_bits l k) = Z.lxor (Z_of_bits l) (Z_of_bits k).
Proof.
  intros Hlen. rewrite <-(bits_of_Z_of_bits l), <-(bits_of_Z_of_bits k) at 1. rewrite Hlen, xor_bits_of_Z.
  apply Z_of_bits_of_Z_small, is_u_lxor; [lia| |apply Z_of_bits_is_u]. rewrite <-Hlen. apply Z_of_bits_is_u.
Qed.

Section crc.
Context (w : Z) (poly : Z).
Hypothesis w_pos : 0 < w.
Hypothesis poly_is_u : is_u w poly.
Hypothesis poly_odd : Z.testbit poly 0 = true.

Definition gstep (c : Z) (b : bool) : Z :=
  Z.lxor (wrap w (Z.shiftl c 1)) (if xorb (Z.testbit c (w - 1)) b then poly else 0).

Definition grun (c : Z) (bs : list bool) : Z := foldl gstep c bs.

(** Bit [i < w] of the register after a step. *)
Definition gstep_bit (c : Z) (b : bool) (i : Z) : bool :=
  xorb (if decide (1 ≤ i) then Z.testbit c (i - 1) else false)
       (xorb (Z.testbit c (w - 1)) b && Z.testbit poly i).

Lemma testbit_shl_top b i : 0 ≤ i → Z.testbit (Z.shiftl (Z.b2z b) (w - 1)) i = (b && (i =? w - 1)).
Proof.
  intros Hi. rewrite Z.shiftl_spec by lia. destruct b; simpl Z.b2z.
  - destruct (Z.eqb_spec i (w - 1)) as [->|]; [by rewrite Z.sub_diag|]. destruct (decide (i < w - 1)).
    + rewrite Z.testbit_neg_r by lia. done.
    + rewrite Z.bits_above_log2; simpl; lia || done.
  - by rewrite Z.bits_0.
Qed.

Lemma gstep_testbit c b i : 0 ≤ i →
  Z.testbit (gstep c b) i = if decide (i < w) then gstep_bit c b i else false.
Proof.
  intros Hi. unfold gstep, gstep_bit. rewrite Z.lxor_spec, wrap_testbit by lia.
  assert (w ≤ i → Z.testbit poly i = false) as Hpoly by (intros; by apply (testbit_high w)).
  assert (Z.testbit (Z.shiftl c 1) i = if decide (1 ≤ i) then Z.testbit c (i - 1) else false) as ->.
  { rewrite Z.shiftl_spec by lia. case_decide; [done|]. by rewrite Z.testbit_neg_r by lia. }
  destruct (xorb (Z.testbit c (w - 1)) b); rewrite ?Z.bits_0; repeat case_decide; try done; try lia;
    by rewrite Hpoly by lia.
Qed.

Lemma gstep_is_u c b : is_u w (gstep c b).
Proof.
  unfold gstep. apply is_u_lxor; [lia|apply wrap_is_u; lia|]. case_match; [done|unfold is_u; lia].
Qed.

Lemma grun_is_u c bs : is_u w c → is_u w (grun c bs).
Proof. revert c. induction bs as [|b bs IH]; intros c Hc; [done|]. apply IH, gstep_is_u. Qed.

Lemma gstep_xor c d b e : gstep (Z.lxor c d) (xorb b e) = Z.lxor (gstep c b) (gstep d e).
Proof.
  bitwise i Hi. rewrite !gstep_testbit by done. case_decide; [|done].
  unfold gstep_bit. rewrite !Z.lxor_spec. case_decide; Btauto.btauto.
Qed.

Lemma grun_xor c d bs es : length bs = length es →
  grun (Z.lxor c d) (xor_bits bs es) = Z.lxor (grun c bs) (grun d es).
Proof.
  revert c d es. induction bs as [|b bs IH]; intros c d [|e es] Hlen; try done.
  simpl. rewrite gstep_xor. apply IH. by injection Hlen.
Qed.

Lemma grun_app c l k : grun c (l ++ k) = grun (grun c l) k.
Proof. apply foldl_app. Qed.

(** * Feeding up to [w] bits is xoring them into the register *)

Lemma gstep_inject c b : gstep c b = gstep (Z.lxor c (Z.shiftl (Z.b2z b) (w - 1))) false.
Proof.
  bitwise i Hi. rewrite !gstep_testbit by done. case_decide; [|done]. unfold gstep_bit.
  case_decide; rewrite !Z.lxor_spec, !testbit_shl_top, Z.eqb_refl by lia; [|Btauto.btauto].
  destruct (Z.eqb_spec (i - 1) (w - 1)); [lia|]. Btauto.btauto.
Qed.

Lemma gstep_small y : is_u (w - 1) y → gstep y false = Z.shiftl y 1.
Proof.
  intros Hy. bitwise i Hi. rewrite gstep_testbit by lia.
  unfold gstep_bit. rewrite (testbit_high (w - 1) y (w - 1)) by (done || lia).
  repeat case_decide; rewrite ?xorb_false_r; try done.
  - by rewrite Z.testbit_neg_r by lia.
  - by rewrite (testbit_high (w - 1) y) by (done || lia).
Qed.

Lemma grun_inject c bs : Z.of_nat (length bs) ≤ w →
  grun c bs = grun (Z.lxor c (Z.shiftl (Z_of_bits bs) (w - Z.of_nat (length bs))))
    (replicate (length bs) false).
Proof.
  revert c. induction bs as [|b bs IH]; intros c Hlen.
  { change (Z_of_bits []) with 0. by rewrite Z.shiftl_0_l, Z.lxor_0_r. }
  cbn [grun foldl replicate length] in *. fold (grun (gstep c b) bs).
  rewrite IH by lia. unfold grun at 1. cbn [foldl]. f_equal.
  set (y := Z.shiftl (Z_of_bits bs) (w - Z.of_nat (S (length bs)))).
  assert (is_u (w - 1) y) as Hy.
  { pose proof (Z_of_bits_is_u bs) as [H1 H2]. unfold y, is_u.
    rewrite Z.shiftl_mul_pow2 by lia. split; [nia|].
    replace (w - 1) with (Z.of_nat (length bs) + (w - Z.of_nat (S (length bs)))) by lia.
    rewrite Z.pow_add_r by lia. apply Z.mul_lt_mono_pos_r; lia. }
  replace (Z.shiftl (Z_of_bits bs) (w - Z.of_nat (length bs))) with (Z.shiftl y 1).
  2: { unfold y. rewrite Z.shiftl_shiftl by lia. f_equal. lia. }
  rewrite <-(gstep_small y Hy), gstep_inject.
  replace (Z.shiftl (Z_of_bits (b :: bs)) (w - Z.of_nat (S (length bs)))) with
    (Z.lxor (Z.shiftl (Z.b2z b) (w - 1)) y).
  { rewrite <-(gstep_xor _ y false false). by rewrite Z.lxor_assoc. }
  rewrite Z_of_bits_cons. unfold y in *. rewrite <-Z.add_nocarry_lxor.
  - rewrite !Z.shiftl_mul_pow2 by lia. rewrite Z.mul_add_distr_r, <-Z.mul_assoc, <-Z.pow_add_r by lia.
    do 3 f_equal. lia.
  - apply Z.bits_inj'. intros i Hi. rewrite Z.land_spec, Z.bits_0, testbit_shl_top by lia.
    destruct (Z.eqb_spec i (w - 1)) as [->|]; [|by rewrite andb_false_r].
    by rewrite (testbit_high (w - 1) (Z.shiftl (Z_of_bits bs) _) (w - 1)), andb_false_r by (done || lia).
Qed.

Lemma gstep_zero_inj c : is_u w c → gstep c false = 0 → c = 0.
Proof.
  intros Hc H0.
  assert (∀ i, 0 ≤ i < w → gstep_bit c false i = false) as Hbits.
  { intros i Hi. pose proof (gstep_testbit c false i ltac:(lia)) as Ht.
    by rewrite H0, Z.bits_0, decide_True in Ht by lia. }
  assert (Z.testbit c (w - 1) = false) as Htop.
  { specialize (Hbits 0 ltac:(lia)). unfold gstep_bit in Hbits.
    rewrite decide_False, poly_odd in Hbits by lia. by destruct (Z.testbit c (w - 1)). }
  bitwise i Hi. destruct (decide (i < w - 1)).
  - specialize (Hbits (i + 1) ltac:(lia)). unfold gstep_bit in Hbits.
    rewrite Htop, decide_True in Hbits by lia. simpl in Hbits. rewrite xorb_false_r in Hbits.
    by replace (i + 1 - 1) with i in Hbits by lia.
  - destruct (decide (i = w - 1)) as [->|]; [done|]. by apply (testbit_high w); lia || done.
Qed.

Lemma grun_zeroes_nonzero c n : is_u w c → c ≠ 0 → grun c (replicate n false) ≠ 0.
Proof.
  revert c. induction n as [|n IH]; intros c Hc Hnz; [done|].
  change (grun (gstep c false) (replicate n false) ≠ 0). apply IH.
  - apply gstep_is_u.
  - intros H0. by apply Hnz, gstep_zero_inj.
Qed.

Lemma gstep_zero : gstep 0 false = 0.
Proof. bitwise i Hi. rewrite gstep_testbit by done. unfold gstep_bit. rewrite !Z.bits_0. by repeat case_decide. Qed.

Lemma grun_zero n : grun 0 (replicate n false) = 0.
Proof. induction n as [|n IH]; [done|]. cbn [replicate grun foldl]. by rewrite gstep_zero. Qed.

(** Feeding a register its own contents clears it. *)
Lemma grun_self n c d : Z.of_nat n = w → is_u w c → is_u w d →
  grun c (bits_of_Z n (Z.lxor c d)) = grun d (replicate n false).
Proof.
  intros Hn Hc Hd. rewrite grun_inject; rewrite length_bits_of_Z; [|lia].
  rewrite Z_of_bits_of_Z_small by (rewrite Hn; apply is_u_lxor; lia || done).
  replace (w - Z.of_nat n) with 0 by lia.
  by rewrite Z.shiftl_0_r, <-Z.lxor_assoc, Z.lxor_nilpotent, Z.lxor_0_l.
Qed.

(** Burst errors: [n] clean bits, a non-zero pattern of at most [w] bits, [m] clean bits. *)
Lemma burst_syndrome n m e : Z.of_nat (length e) ≤ w → true ∈ e →
  grun 0 (replicate n false ++ e ++ replicate m false) ≠ 0.
Proof.
  intros Hlen Hin. rewrite !grun_app, grun_zero. apply grun_zeroes_nonzero.
  { apply grun_is_u. unfold is_u. lia. }
  rewrite grun_inject by done. pose proof (Z_of_bits_is_u e) as [He1 He2].
  assert (is_u w (Z.shiftl (Z_of_bits e) (w - Z.of_nat (length e)))) as Hu.
  { unfold is_u. rewrite Z.shiftl_mul_pow2 by lia. split; [nia|].
    replace w with (Z.of_nat (length e) + (w - Z.of_nat (length e))) at 2 by lia.
    rewrite Z.pow_add_r by lia. apply Z.mul_lt_mono_pos_r; lia. }
  rewrite Z.lxor_0_l. apply grun_zeroes_nonzero; [done|].
  rewrite Z.shiftl_mul_pow2 by lia. intros H0.
  assert (Z_of_bits e = 0) as He0 by nia.
  assert (e = replicate (length e) false) as Heq.
  { rewrite <-(bits_of_Z_of_bits e) at 1. by rewrite He0, bits_of_Z_0. }
  rewrite Heq in Hin. by apply elem_of_replicate in Hin as [? _].
Qed.
End crc.

Local Open Scope Z_scope.

(** * Definitions *)

Definition GEN_POLY : Z := 0x1021.
Definition TETRA_CRC_OK : Z := 0x1d0f.

(** [None]: the byte index is out of range. *)
Definition get_nth_bit (input : list Z) (bit : nat) : option Z :=
  let byte := (bit / 8)%nat in
  let bit_in_byte := (7 - bit mod 8)%nat in
  b ← input !! byte;
  Some (Z.land (Z.shiftr b (Z.of_nat bit_in_byte)) 1).

(** The loop body of both routines. *)
Definition crc16_step (crc bit : Z) : Z :=
  let crc := Z.lxor crc (wrap 16 (Z.shiftl bit 15)) in
  if negb (Z.land crc 0x8000 =? 0) then Z.lxor (wrap 16 (Z.shiftl crc 1)) GEN_POLY
  else wrap 16 (Z.shiftl crc 1).

Fixpoint crc16_itut_bytes_loop (crc : Z) (input : list Z) (n i : nat) : option Z :=
  match n with
  | O => Some crc
  | S n =>
      bit ← get_nth_bit input i;
      crc16_itut_bytes_loop (crc16_step crc bit) input n (S i)
  end.
Definition crc16_itut_bytes (crc : Z) (input : list Z) (number_bits : nat) : option Z :=
  crc16_itut_bytes_loop crc input number_bits 0.

Definition crc16_itut_bits (crc : Z) (input : list Z) (number_bits : nat) : Z :=
  foldl (λ crc b, crc16_step crc (Z.land b 1)) crc (take number_bits input).

Definition crc16_ccitt_bits (input : list Z) (len : nat) : Z :=
  crc16_itut_bits 0xffff input len.

(** * The step as a linear map *)

Definition crc_run (crc : Z) (bs : list bool) : Z := foldl (λ c b, crc16_step c (Z.b2z b)) crc bs.

Lemma land_b2z_1 b : Z.land (Z.b2z b) 1 = Z.b2z b.
Proof. by destruct b. Qed.

Lemma crc16_itut_bits_run crc bs n : crc16_itut_bits crc (bitarr bs) n = crc_run crc (take n bs).
Proof.
  unfold crc16_itut_bits, crc_run, bitarr. rewrite <-fmap_take. generalize (take n bs) as l.
  intros l. revert crc. induction l as [|b l IH]; intros crc; [done|]. simpl.
  by rewrite land_b2z_1, IH.
Qed.

(** The step of the source is the shared one. *)
Lemma land_8000_eqb c : negb (Z.land c 0x8000 =? 0) = Z.testbit c 15.
Proof.
  change 0x8000 with (2 ^ 15). destruct (Z.testbit c 15) eqn:Hc.
  - apply negb_true_iff, Z.eqb_neq. intros H0.
    apply (f_equal (λ z, Z.testbit z 15)) in H0. rewrite Z.land_spec, Hc in H0. done.
  - apply negb_false_iff, Z.eqb_eq. bitwise i Hi.
    rewrite Z.pow2_bits_eqb by lia. destruct (Z.eqb_spec 15 i) as [<-|]; [by rewrite Hc|].
    by rewrite andb_false_r.
Qed.

Lemma crc16_step_gstep c b : crc16_step c (Z.b2z b) = gstep 16 GEN_POLY c b.
Proof.
  unfold crc16_step, gstep. rewrite land_8000_eqb.
  assert (wrap 16 (Z.shiftl (Z.b2z b) 15) = Z.shiftl (Z.b2z b) (16 - 1)) as -> by (by destruct b).
  rewrite Z.lxor_spec, (testbit_shl_top 16 b 15) by lia. change (15 =? 16 - 1) with true. rewrite andb_true_r.
  change (Z.testbit c (16 - 1)) with (Z.testbit c 15).
  assert (wrap 16 (Z.shiftl (Z.lxor c (Z.shiftl (Z.b2z b) (16 - 1))) 1) = wrap 16 (Z.shiftl c 1)) as ->.
  2: by case_match; rewrite ?Z.lxor_0_r.
  bitwise i Hi. rewrite !wrap_testbit by lia. case_decide; [|done].
  rewrite !Z.shiftl_spec by lia. rewrite Z.lxor_spec. destruct (decide (1 ≤ i)).
  - rewrite (testbit_shl_top 16 b (i - 1)) by lia. destruct (Z.eqb_spec (i - 1) (16 - 1)); [lia|].
    by rewrite andb_false_r, xorb_false_r.
  - by rewrite !Z.testbit_neg_r by lia.
Qed.

Lemma crc_run_grun c bs : crc_run c bs = grun 16 GEN_POLY c bs.
Proof.
  unfold crc_run, grun. revert c. induction bs as [|b bs IH]; intros c; [done|].
  cbn [foldl]. by rewrite crc16_step_gstep.
Qed.

Lemma crc_run_is_u c bs : is_u 16 c → is_u 16 (crc_run c bs).
Proof. rewrite crc_run_grun. by apply grun_is_u. Qed.

Lemma crc_run_app c l k : crc_run c (l ++ k) = crc_run (crc_run c l) k.
Proof. apply foldl_app. Qed.

(** * The appended checksum *)

Lemma crc_run_not c : is_u 16 c → crc_run c (bits_of_Z 16 (Z.lxor c 0xffff)) = TETRA_CRC_OK.
Proof. intros Hc. rewrite crc_run_grun. by rewrite (grun_self 16 GEN_POLY) by done. Qed.

(** * Properties *)

(** Whatever the protected bits, the checksum the encoder appends (the
    complement of their CRC, most significant bit first) makes the CRC of the
    whole block the constant the decoder compares with. *)
Lemma crc16_appended_ok bs :
  crc16_ccitt_bits
    (bitarr (bs ++ bits_of_Z 16 (Z.lxor (crc16_ccitt_bits (bitarr bs) (length bs)) 0xffff)))
    (length bs + 16) = TETRA_CRC_OK.
Proof.
  unfold crc16_ccitt_bits. rewrite !crc16_itut_bits_run.
  rewrite (take_ge bs), take_ge by (rewrite ?length_app, ?length_bits_of_Z; lia).
  rewrite crc_run_app. by apply crc_run_not, crc_run_is_u.
Qed.

(** A block that passes the CRC check no longer passes it after an error
    burst that spans at most 16 bits and flips at least one. *)
Lemma crc16_detects_bursts bs n e m :
  length bs = (n + length e + m)%nat → (length e ≤ 16)%nat → true ∈ e →
  crc16_ccitt_bits (bitarr bs) (length bs) = TETRA_CRC_OK →
  crc16_ccitt_bits (bitarr (xor_bits bs (replicate n false ++ e ++ replicate m false)))
    (length bs) ≠ TETRA_CRC_OK.
Proof.
  intros Hlen He Hin Hok. unfold crc16_ccitt_bits in *. rewrite crc16_itut_bits_run in *.
  set (err := replicate n false ++ e ++ replicate m false).
  assert (length err = length bs) as Herr by (unfold err; rewrite !length_app, !length_replicate; lia).
  rewrite take_ge in Hok by lia.
  rewrite take_ge by (unfold xor_bits; rewrite length_zip_with; lia).
  rewrite crc_run_grun in *. rewrite <-(Z.lxor_0_r 0xffff), (grun_xor 16 GEN_POLY), Hok by done.
  intros Heq%(f_equal (Z.lxor TETRA_CRC_OK)).
  rewrite <-Z.lxor_assoc, Z.lxor_nilpotent, Z.lxor_0_l in Heq. revert Heq. apply (burst_syndrome 16 GEN_POLY); [done..|lia|done].
Qed.

(** The CRC of the control channels protects a block: whatever the protected
    bits, appending the complement of their CRC makes the CRC of the whole the
    constant the decoder compares with, and no error burst that spans at most 16
    bits of that block and flips at least one leaves it so. *)
Theorem crc16_protects_block bs n e m :
  (n + length e + m = length bs + 16)%nat → (length e ≤ 16)%nat →
  let sent := bs ++ bits_of_Z 16 (Z.lxor (crc16_ccitt_bits (bitarr bs) (length bs)) 0xffff) in
  let received := xor_bits sent (replicate n false ++ e ++ replicate m false) in
  crc16_ccitt_bits (bitarr received) (length bs + 16) = TETRA_CRC_OK ↔ true ∉ e.
Proof.
  intros Hlen He sent received. pose proof (crc16_appended_ok bs) as Hok. fold sent in Hok.
  assert (length sent = (length bs + 16)%nat) as Hs by (unfold sent; rewrite length_app, length_bits_of_Z; lia).
  split.
  - intros Hr Hin. revert Hr. rewrite <-Hs. apply crc16_detects_bursts; [lia|done|done|]. by rewrite Hs.
  - intros Hin. unfold received. assert (e = replicate (length e) false) as ->.
    { apply list_eq_Forall2, Forall2_same_length_lookup. rewrite length_replicate. split; [done|].
      intros i x y Hx [-> _]%lookup_replicate. destruct x; [|done]. exfalso. apply Hin. by eapply list_elem_of_lookup_2. }
    rewrite <-!replicate_add. rewrite Nat.add_assoc, Hlen, <-Hs, xor_bits_zero. by rewrite Hs.
Qed.

Lemma crc16_protects_block_witness :
  let sent := bits_of_Z 8 0x31 ++ bits_of_Z 16 (Z.lxor (crc16_ccitt_bits (bitarr (bits_of_Z 8 0x31)) 8) 0xffff) in
  crc16_ccitt_bits (bitarr (xor_bits sent ([] ++ [true; false; true] ++ replicate 21 false))) 24 ≠ TETRA_CRC_OK.
Proof.
  intros sent H. apply (crc16_protects_block (bits_of_Z 8 0x31) 0 [true; false; true] 21) in H; [|reflexivity|simpl; lia].
  apply H. by left.
Defined.
