(* ===== verification/Scrambler.v ===== *)
(** lmac/components/scrambler.rs: the additive scrambler between type-4 and
    type-5 bits.

    The LFSR register is a 32-bit [Z].  [tetra_scramb_bits_spec] says what
    scrambling does to a buffer: it xors the bits from the position to the end
    of the window with the keystream of the code, touches nothing else, and
    puts the position back. *)
From S2P Require Import Prelude Bits Core BitBuffer BitBufferSpec BitCodec Crc16.

(** * Definitions *)

Definition SCRAMB_INIT : Z := 3.

Definition lfsr_taps : list Z :=
  ([32 - 26; 32 - 23; 32 - 22; 32 - 16; 32 - 12; 32 - 11; 32 - 10; 32 - 8; 32 - 7; 32 - 5; 32 - 4;
    32 - 2; 32 - 1])%Z.

(** [next_lfsr_bit]: the returned bit, and the new value of [*lfsr]. *)
Definition lfsr_bit (x : Z) : Z :=
  Z.land (foldl (λ acc k, Z.lxor acc (Z.shiftr x k)) x lfsr_taps) 1.
Definition lfsr_next (x : Z) : Z :=
  Z.lor (Z.shiftr x 1) (wrap 32 (Z.shiftl (lfsr_bit x) 31)).
Definition next_lfsr_bit (lfsr : Z) : Z * Z := (lfsr_bit lfsr, lfsr_next lfsr).

Fixpoint tetra_scramb_get_bits (lfsr_init : Z) (out : list Z) {struct out} : list Z :=
  match out with
  | [] => []
  | _ :: out => lfsr_bit lfsr_init :: tetra_scramb_get_bits (lfsr_next lfsr_init) out
  end.

Fixpoint tetra_scramb_loop (num_bits : nat) (lfsr_init : Z) : B unit :=
  match num_bits with
  | O => mret tt
  | S n => xor_bit (lfsr_bit lfsr_init);; tetra_scramb_loop n (lfsr_next lfsr_init)
  end.

Definition tetra_scramb_bits (lfsr_init : Z) : B unit :=
  num_bits ← gets get_len_remaining;
  tetra_scramb_loop num_bits lfsr_init;;
  seek_rel (- Z.of_nat num_bits).

Definition tetra_scramb_get_init (mcc mnc colour : Z) : Z :=
  if (colour =? 0)%Z then 0
  else Z.lor (wrap 32 (Z.shiftl (Z.lor (Z.lor colour (wrap 32 (Z.shiftl mnc 6)))
                                   (wrap 32 (Z.shiftl mcc 20))) 2)) SCRAMB_INIT.

(** * The keystream *)

Fixpoint keystream (lfsr : Z) (n : nat) {struct n} : list bool :=
  match n with
  | O => []
  | S n => (lfsr_bit lfsr =? 1)%Z :: keystream (lfsr_next lfsr) n
  end.

Lemma length_keystream lfsr n : length (keystream lfsr n) = n.
Proof. revert lfsr. induction n as [|n IH]; intros lfsr; [done|]. simpl. by rewrite IH. Qed.

Lemma land_1_b2z x : Z.land x 1 = Z.b2z (Z.odd x).
Proof. change 1%Z with (Z.ones 1). by rewrite Z.land_ones, Zmod_odd by lia. Qed.

Lemma lfsr_bit_b2z x : lfsr_bit x = Z.b2z (lfsr_bit x =? 1)%Z.
Proof. unfold lfsr_bit. rewrite land_1_b2z. by destruct (Z.odd _). Qed.

Lemma scramb_get_bits_keystream lfsr out :
  tetra_scramb_get_bits lfsr out = bitarr (keystream lfsr (length out)).
Proof.
  revert lfsr. induction out as [|o out IH]; intros lfsr; [done|].
  cbn [tetra_scramb_get_bits length keystream]. pose proof (lfsr_bit_b2z lfsr) as Hb.
  rewrite IH. cbn [bitarr fmap list_fmap]. by f_equal.
Qed.

(** * Effect on a buffer *)

Lemma xor_byte_part byte h v : h < 8 → is_u 8 byte →
  Z.lxor byte (wrap 8 (Z.shiftl (Z.b2z v) (7 - Z.of_nat h))) =
    Z.lor (Z.land byte (not8 (wrap 8 (Z.shiftl (Z.shiftl 1 (Z.of_nat 1) - 1) (Z.of_nat (8 - (h + 1)))))))
      (wrap 8 (Z.shiftl (Z.b2z (xorb (Z.testbit byte (7 - Z.of_nat h)) v)) (Z.of_nat (8 - (h + 1))))).
Proof.
  intros Hh Hu. replace (Z.of_nat (8 - (h + 1))) with (7 - Z.of_nat h)%Z by lia.
  assert (∃ s, s < 8 ∧ (7 - Z.of_nat h)%Z = Z.of_nat s) as (s & Hs & ->) by (exists (7 - h); lia).
  change (Z.shiftl 1 (Z.of_nat 1) - 1)%Z with 1%Z.
  apply Z.bits_inj'. intros i Hi. rewrite Z.lxor_spec, Z.lor_spec, Z.land_spec.
  destruct (decide (i < 8)%Z) as [Hi8|Hi8].
  2: { rewrite (testbit_high 8 byte i) by (done || lia). simpl.
       by rewrite !(testbit_high 8 (wrap 8 _) i) by (lia || (apply wrap_is_u; lia)). }
  rewrite testbit_not8, !wrap_testbit, !Z.shiftl_spec by lia. rewrite !decide_True by lia.
  destruct (decide (i = Z.of_nat s)) as [->|Hne].
  - rewrite Z.sub_diag, !Z.b2z_bit0. change (Z.testbit 1 0) with true.
    by destruct (Z.testbit byte (Z.of_nat s)), v.
  - assert (∀ b, Z.testbit (Z.b2z b) (i - Z.of_nat s) = false) as Hb.
    { intros b. destruct (decide (i < Z.of_nat s)%Z); [by rewrite Z.testbit_neg_r by lia|].
      apply (testbit_high 1); [apply b2z_is_u|lia]. }
    rewrite (Hb true : Z.testbit 1 _ = false), !Hb. simpl.
    by rewrite xorb_false_r, andb_true_r, orb_false_r.
Qed.

Lemma xor_bit_ok bb b v l : wf bb → remaining bb = b :: l →
  ∃ bb', xor_bit (Z.b2z v) bb = Ok tt bb' ∧ wf bb' ∧ abs bb' = a_write [xorb b v] (abs bb).
Proof.
  intros Hwf Hrem. pose proof (length_remaining _ Hwf) as Hlen. rewrite Hrem in Hlen.
  unfold get_len_remaining in Hlen. simpl in Hlen.
  destruct (byte_in_range bb (bb_pos bb)) as (byte & Hbyte & Hu); [done|lia|].
  pose proof (Nat.mod_upper_bound (bb_pos bb) 8 ltac:(lia)) as Hm.
  assert (Z.testbit byte (7 - Z.of_nat (bb_pos bb mod 8)) = b) as Hbit.
  { assert (remaining bb !! 0 = Some b) as H0 by (by rewrite Hrem).
    unfold remaining, a_remaining in H0. rewrite lookup_drop, Nat.add_0_r in H0.
    simpl in H0. rewrite lookup_take_lt in H0 by lia.
    pose proof (slice_buf_bits_at (bb_buffer bb) (bb_pos bb) 1 byte Hbyte ltac:(lia)) as Hsl.
    apply (f_equal (lookup 0)) in Hsl. rewrite !lookup_slice, !(decide_True (P:=0 < 1)),
      !Nat.add_0_r in Hsl by lia.
    rewrite H0, lookup_bits_of_Z, decide_True in Hsl by lia. apply (inj Some) in Hsl. rewrite Hsl.
    f_equal. lia. }
  destruct (write_byte_part_ok bb (bb_pos bb / 8) (bb_pos bb mod 8) 1 (Z.b2z (xorb b v)))
    as (bb1 & Heq1 & Hw1); [by apply wf_bytes|by apply lookup_lt_Some in Hbyte|lia|apply b2z_is_u|].
  rewrite <-Nat.div_mod_eq, bits_of_Z_b2z in Hw1.
  destruct (wrote_raw_abs bb [xorb b v] bb1) as [Hwf1 Habs1]; [done|simpl; lia|done|].
  exists (advance 1 bb1). simpl length in *. split; [|done].
  unfold xor_bit. erewrite (bind_ok get) by done. erewrite bind_ok by (by apply vec_get_ok).
  unfold write_byte_part in Heq1. erewrite bind_ok in Heq1 by (by apply vec_get_ok). cbv zeta in Heq1.
  rewrite <-Hbit, <-xor_byte_part in Heq1 by done. by erewrite bind_ok by exact Heq1.
Qed.

Lemma remaining_write1 bb bb' b b' l : wf bb → remaining bb = b :: l →
  abs bb' = a_write [b'] (abs bb) → remaining bb' = l.
Proof.
  intros Hwf Hrem Habs. unfold remaining, a_remaining in *. rewrite Habs. simpl.
  pose proof (length_abs _ Hwf) as Hl. pose proof (wf_pos _ Hwf).
  unfold splice. cbn [abs a_bits a_pos] in *. rewrite app_assoc, drop_app_length'.
  - simpl length. replace (bb_pos bb + 1) with (1 + bb_pos bb) by lia.
    replace (1 + bb_pos bb) with (bb_pos bb + 1) by lia. by rewrite <-drop_drop, Hrem.
  - rewrite length_app, length_take, Hl. simpl. lia.
Qed.

Lemma scramb_loop_ok n lfsr bb : wf bb → n = get_len_remaining bb →
  ∃ bb', tetra_scramb_loop n lfsr bb = Ok tt bb' ∧ wf bb' ∧
    abs bb' = a_write (xor_bits (remaining bb) (keystream lfsr n)) (abs bb).
Proof.
  revert lfsr bb. induction n as [|n IH]; intros lfsr bb Hwf Hn.
  { exists bb. cbn. by rewrite xor_bits_nil_r, a_write_nil. }
  destruct (remaining bb) as [|b l] eqn:Hrem.
  { pose proof (length_remaining _ Hwf) as Hl. rewrite Hrem in Hl. simpl in Hl. lia. }
  cbn [tetra_scramb_loop keystream]. pose proof (lfsr_bit_b2z lfsr) as Hb.
  generalize dependent (lfsr_bit lfsr). generalize (lfsr_next lfsr). intros lfsr' bit Hb.
  destruct (xor_bit_ok bb b (bit =? 1)%Z l) as (bb1 & Heq1 & Hwf1 & Habs1); [done..|].
  pose proof (remaining_write1 _ _ _ _ _ Hwf Hrem Habs1) as Hrem1.
  pose proof (length_remaining _ Hwf1) as Hl1. pose proof (length_remaining _ Hwf) as Hl.
  rewrite Hrem in Hl. simpl in Hl. rewrite Hrem1 in Hl1.
  destruct (IH lfsr' bb1) as (bb2 & Heq2 & Hwf2 & Habs2); [done|lia|].
  exists bb2. split; [|split; [done|]].
  - rewrite Hb. by erewrite bind_ok by exact Heq1.
  - rewrite Habs2, Habs1, Hrem1, a_write_app by (by apply abs_pos_le). done.
Qed.

Lemma seek_rel_back bb n : wf bb → bb_start bb + n ≤ bb_pos bb →
  seek_rel (- Z.of_nat n) bb = Ok tt (set_pos (bb_pos bb - n) bb).
Proof.
  intros [_ Hs Hp _ Hu] Hn. unfold seek_rel, try_seek_rel, checked_add_signed.
  assert (Z.of_nat (bb_pos bb) + - Z.of_nat n = Z.of_nat (bb_pos bb - n))%Z as E by lia.
  unfold mbind, M_bind, get. rewrite E, Nat2Z.id.
  replace (0 <=? Z.of_nat (bb_pos bb - n))%Z with true by (symmetry; apply Z.leb_le; lia).
  replace (Z.of_nat (bb_pos bb - n) <=? usize_max)%Z with true by (symmetry; apply Z.leb_le; lia).
  cbn [andb].
  replace (bb_pos bb - n <? bb_start bb) with false by (symmetry; apply Nat.ltb_ge; lia).
  by replace (bb_end bb <? bb_pos bb - n) with false by (symmetry; apply Nat.ltb_ge; lia).
Qed.

(** The buffer after scrambling: only the bits from the position on are changed. *)
Lemma tetra_scramb_bits_spec code bb : wf bb →
  ∃ bb', tetra_scramb_bits code bb = Ok tt bb' ∧ wf bb' ∧
    abs bb' = mkAbuf (take (bb_pos bb) (a_bits (abs bb)) ++
                xor_bits (remaining bb) (keystream code (get_len_remaining bb)))
              (bb_start bb) (bb_pos bb) (bb_autoexpand bb).
Proof.
  intros Hwf. unfold tetra_scramb_bits. erewrite (bind_ok (gets _)) by done.
  destruct (scramb_loop_ok (get_len_remaining bb) code bb) as (bb1 & Heq1 & Hwf1 & Habs1); [done..|].
  erewrite bind_ok by exact Heq1. set (n := get_len_remaining bb) in *.
  assert (length (xor_bits (remaining bb) (keystream code n)) = n) as Hx.
  { rewrite length_xor_bits; rewrite length_remaining, ?length_keystream; done. }
  pose proof (f_equal a_pos Habs1) as Hp1. pose proof (f_equal a_start Habs1) as Hs1.
  cbn [a_write abs a_pos a_start] in Hp1, Hs1. rewrite Hx in Hp1. pose proof (wf_start _ Hwf).
  rewrite seek_rel_back by (done || lia). eexists. split; [done|]. split.
  { apply wf_set_pos; [done|]. pose proof (wf_pos _ Hwf1). lia. }
  change (abs (set_pos (bb_pos bb1 - n) bb1)) with (a_seek (bb_pos bb1 - n) (abs bb1)).
  rewrite Habs1. unfold a_seek, a_write. cbn [a_bits a_start a_pos a_auto abs]. f_equal; [|lia].
  unfold splice. rewrite Hx. rewrite (drop_ge (take _ _)), app_nil_r; [done|].
  rewrite length_take. unfold n, get_len_remaining. pose proof (wf_pos _ Hwf). lia.
Qed.

(** Scrambling twice, at the level of the views. *)
Lemma scramb_view_twice code bb bb1 : wf bb → wf bb1 →
  abs bb1 = mkAbuf (take (bb_pos bb) (a_bits (abs bb)) ++
              xor_bits (remaining bb) (keystream code (get_len_remaining bb)))
            (bb_start bb) (bb_pos bb) (bb_autoexpand bb) →
  get_len_remaining bb1 = get_len_remaining bb ∧
  remaining bb1 = xor_bits (remaining bb) (keystream code (get_len_remaining bb)) ∧
  take (bb_pos bb1) (a_bits (abs bb1)) = take (bb_pos bb) (a_bits (abs bb)).
Proof.
  intros Hwf Hwf1 Habs. pose proof (length_abs _ Hwf) as Hl. pose proof (wf_pos _ Hwf).
  assert (length (take (bb_pos bb) (a_bits (abs bb))) = bb_pos bb) as Ht.
  { rewrite length_take, Hl. lia. }
  assert (bb_pos bb1 = bb_pos bb) as Hp by apply (f_equal a_pos Habs).
  assert (remaining bb1 = xor_bits (remaining bb) (keystream code (get_len_remaining bb))) as Hr.
  { unfold remaining at 1, a_remaining. rewrite Habs. cbn [a_pos a_bits]. by apply drop_app_length'. }
  split_and!; [|done|].
  - rewrite <-(length_remaining bb1), Hr by done. rewrite length_xor_bits; rewrite ?length_keystream, length_remaining; done.
  - rewrite Hp, Habs. cbn [a_bits]. by rewrite take_app_length'.
Qed.

(** Descrambling with the code the block was scrambled with gives back the
    buffer: same bits, same window and same position. *)
Theorem scramble_involutive code bb : wf bb →
  ∃ bb1 bb2, tetra_scramb_bits code bb = Ok tt bb1 ∧ tetra_scramb_bits code bb1 = Ok tt bb2 ∧
    wf bb2 ∧ abs bb2 = abs bb.
Proof.
  intros Hwf. destruct (tetra_scramb_bits_spec code bb Hwf) as (bb1 & Heq1 & Hwf1 & Habs1).
  destruct (tetra_scramb_bits_spec code bb1 Hwf1) as (bb2 & Heq2 & Hwf2 & Habs2).
  destruct (scramb_view_twice code bb bb1) as (Hl & Hr & Ht); [done..|].
  exists bb1, bb2. split_and!; [done..|]. rewrite Habs2, Hl, Hr, Ht.
  rewrite xor_bits_invol by (by rewrite length_keystream, length_remaining).
  unfold remaining, a_remaining. change (bb_pos bb) with (a_pos (abs bb)).
  rewrite take_drop. pose proof (f_equal a_pos Habs1) as Hp. pose proof (f_equal a_start Habs1) as Hs.
  pose proof (f_equal a_auto Habs1) as Ha. cbn in Hp, Hs, Ha. rewrite Hp, Hs, Ha. by destruct bb.
Qed.

Lemma scramble_involutive_witness :
  wf (mkBitBuffer [0xa5; 0x3c]%Z 3 5 14 false) ∧
  ∃ bb1 bb2, tetra_scramb_bits 0x83 (mkBitBuffer [0xa5; 0x3c]%Z 3 5 14 false) = Ok tt bb1 ∧
    tetra_scramb_bits 0x83 bb1 = Ok tt bb2 ∧ wf bb2 ∧
    abs bb2 = abs (mkBitBuffer [0xa5; 0x3c]%Z 3 5 14 false).
Proof.
  assert (wf (mkBitBuffer [0xa5; 0x3c]%Z 3 5 14 false)) as Hwf.
  { split; simpl; unfold usize_max; try lia. repeat constructor; unfold is_u; lia. }
  split; [exact Hwf|]. apply (scramble_involutive 0x83 _ Hwf).
Defined.

Lemma keystream_0 n : keystream 0 n = replicate n false.
Proof. induction n as [|n IH]; [done|]. cbn [keystream replicate]. by rewrite <-IH. Qed.

(** For colour code 0 the scrambling code is the all-zero register, in which
    the LFSR is stuck: scrambling leaves every block as it is (the comment asks
    for zero in the 30 colour-code bits only, which would leave the register at
    [SCRAMB_INIT]). *)
Theorem colour_0_does_not_scramble mcc mnc bb : wf bb →
  tetra_scramb_get_init mcc mnc 0 ≠ SCRAMB_INIT ∧
  ∃ bb', tetra_scramb_bits (tetra_scramb_get_init mcc mnc 0) bb = Ok tt bb' ∧ abs bb' = abs bb.
Proof.
  intros Hwf. split; [done|].
  destruct (tetra_scramb_bits_spec (tetra_scramb_get_init mcc mnc 0) bb Hwf) as (bb' & Heq & _ & Habs).
  exists bb'. split; [done|]. rewrite Habs. cbn [tetra_scramb_get_init Z.eqb].
  rewrite keystream_0, <-length_remaining, xor_bits_zero by done.
  unfold remaining, a_remaining. change (bb_pos bb) with (a_pos (abs bb)). by rewrite take_drop.
Qed.

Lemma colour_0_does_not_scramble_witness :
  ∃ bb', tetra_scramb_bits (tetra_scramb_get_init 204 1337 0) (from_bytes [0xa5]%Z) = Ok tt bb' ∧
    abs bb' = abs (from_bytes [0xa5]%Z).
Proof.
  apply (colour_0_does_not_scramble 204 1337 (from_bytes [0xa5]%Z)).
  split; simpl; unfold usize_max; try lia. repeat constructor; unfold is_u; lia.
Defined.
