(* ===== verification/Interleaver.v ===== *)
(** lmac/components/interleaver.rs: block and matrix interleavers.

    The four routines are loops of indexed copies; [None] is the panic of an
    assertion or of an index out of range. *)
From S2P Require Import Prelude Bits Arrays.
From Stdlib Require Import Znumtheory.
Local Open Scope nat_scope.

(** * Definitions *)

Definition block_interl_func (k a i : Z) : Z := (wrap 32 (1 + wrap 32 (a * i) mod k))%Z.

(** The [k] that shadows the block size inside the loops. *)
Definition block_pos (k a i : nat) : nat :=
  Z.to_nat (block_interl_func (wrap 32 (Z.of_nat k)) (wrap 32 (Z.of_nat a)) (wrap 32 (Z.of_nat i))).

Section interleaver.
Context {A : Type}.
Implicit Types (input output : list A).

Definition block_interleave (k a : nat) input output : option (list A) :=
  if (k <=? length input) && (k <=? length output) then
    foldM (λ i output, copy_at (block_pos k a i - 1) (i - 1) input output) (seq 1 k) output
  else None.

Definition block_deinterleave (k a : nat) input output : option (list A) :=
  if (k <=? length input) && (k <=? length output) then
    foldM (λ i output, copy_at (i - 1) (block_pos k a i - 1) input output) (seq 1 k) output
  else None.

Definition matrix_interleave (lines columns : nat) input output : option (list A) :=
  let total := lines * columns in
  if (total <=? length input) && (total <=? length output) then
    foldM (λ i output,
      foldM (λ j output, copy_at (i * lines + j) (j * columns + i) input output) (seq 0 lines) output)
      (seq 0 columns) output
  else None.

Definition matrix_deinterleave (lines columns : nat) input output : option (list A) :=
  let total := lines * columns in
  if (total <=? length input) && (total <=? length output) then
    foldM (λ i output,
      foldM (λ j output, copy_at (j * columns + i) (i * lines + j) input output) (seq 0 lines) output)
      (seq 0 columns) output
  else None.

(** * The block interleaver is a permutation *)

(** The parameters for which it is: no [u32] wrap-around, [a] coprime to [k]. *)
Definition good_params (k a : nat) : Prop :=
  Z.gcd (Z.of_nat a) (Z.of_nat k) = 1%Z ∧ (Z.of_nat a * Z.of_nat k < 2 ^ 32)%Z ∧
  (Z.of_nat k < 2 ^ 32)%Z ∧ (Z.of_nat a < 2 ^ 32)%Z.

Lemma block_pos_eq k a i : good_params k a → 1 ≤ i ≤ k →
  block_pos k a i = S ((a * i) mod k).
Proof.
  intros (_ & Hm & Hk & Ha) Hi. unfold block_pos, block_interl_func.
  rewrite !(wrap_small 32 (Z.of_nat _)) by (unfold is_u; lia).
  assert (0 ≤ Z.of_nat a * Z.of_nat i < 2 ^ 32)%Z as Hai by nia.
  rewrite (wrap_small 32 (_ * _)) by done.
  rewrite <-Nat2Z.inj_mul, <-Nat2Z.inj_mod.
  pose proof (Nat.mod_upper_bound (a * i) k ltac:(lia)).
  rewrite wrap_small by (unfold is_u; lia). lia.
Qed.

Lemma block_pos_inj k a i j : good_params k a → 1 ≤ i ≤ k → 1 ≤ j ≤ k →
  block_pos k a i = block_pos k a j → i = j.
Proof.
  intros Hg Hi Hj Heq. rewrite !block_pos_eq in Heq by done. injection Heq as Heq.
  destruct Hg as [Hgcd _].
  assert ((Z.of_nat k | Z.of_nat a * (Z.of_nat i - Z.of_nat j))%Z) as Hdiv.
  { apply Z.mod_divide; [lia|]. rewrite Z.mul_sub_distr_l, Zminus_mod, <-!Nat2Z.inj_mul, <-!Nat2Z.inj_mod.
    by rewrite Heq, Z.sub_diag, Zmod_0_l. }
  apply Z.gauss in Hdiv; [|by rewrite Z.gcd_comm].
  destruct Hdiv as [q Hq]. assert (q ≤ 0)%Z by nia. assert (0 ≤ q)%Z by nia. assert (q = 0)%Z as -> by lia. lia.
Qed.

Lemma block_nodup k a : good_params k a → NoDup ((λ i, block_pos k a i - 1) <$> seq 1 k).
Proof.
  intros Hg. apply NoDup_fmap_2_strong; [|apply NoDup_seq].
  intros i j Hi Hj Heq. apply elem_of_seq in Hi, Hj. apply (block_pos_inj k a); [done|lia|lia|].
  rewrite !block_pos_eq in * by (done || lia). lia.
Qed.

Lemma block_pos_lt k a i : good_params k a → 1 ≤ i ≤ k → block_pos k a i - 1 < k.
Proof.
  intros Hg Hi. rewrite block_pos_eq by done. pose proof (Nat.mod_upper_bound (a * i) k). lia.
Qed.

Lemma guard_lengths k input output : k ≤ length input → k ≤ length output →
  (k <=? length input) && (k <=? length output) = true.
Proof. intros. apply andb_true_iff. by rewrite !Nat.leb_le. Qed.

Lemma block_interleave_spec k a input output : good_params k a →
  k ≤ length input → k ≤ length output →
  ∃ out, block_interleave k a input output = Some out ∧ length out = length output ∧
    ∀ i, 1 ≤ i ≤ k → out !! (block_pos k a i - 1) = input !! (i - 1).
Proof.
  intros Hg Hi Ho. unfold block_interleave. rewrite guard_lengths by done.
  destruct (foldM_copy (seq 1 k) (λ i, block_pos k a i - 1) (λ i, i - 1) input output)
    as (out & Heq & Hlen & Hin & _).
  - by apply block_nodup.
  - intros j Hj%elem_of_seq. pose proof (block_pos_lt k a j Hg ltac:(lia)). lia.
  - exists out. split_and!; [done..|]. intros i Hik. apply Hin, elem_of_seq. lia.
Qed.

Lemma block_deinterleave_spec k a input output : good_params k a →
  k ≤ length input → k ≤ length output →
  ∃ out, block_deinterleave k a input output = Some out ∧ length out = length output ∧
    ∀ i, 1 ≤ i ≤ k → out !! (i - 1) = input !! (block_pos k a i - 1).
Proof.
  intros Hg Hi Ho. unfold block_deinterleave. rewrite guard_lengths by done.
  destruct (foldM_copy (seq 1 k) (λ i, i - 1) (λ i, block_pos k a i - 1) input output)
    as (out & Heq & Hlen & Hin & _).
  - apply NoDup_fmap_2_strong; [|apply NoDup_seq]. intros i j Hii%elem_of_seq Hjj%elem_of_seq. lia.
  - intros j Hj%elem_of_seq. pose proof (block_pos_lt k a j Hg ltac:(lia)). lia.
  - exists out. split_and!; [done..|]. intros i Hik. apply Hin, elem_of_seq. lia.
Qed.

(** De-interleaving any array that starts with the interleaved block. *)
Lemma block_deinterleave_interleave k a input out1 type4 out3 : good_params k a →
  k ≤ length input → k ≤ length out1 → k ≤ length out3 → k ≤ length type4 →
  ∃ out2 out4, block_interleave k a input out1 = Some out2 ∧ length out2 = length out1 ∧
    block_deinterleave k a type4 out3 = Some out4 ∧ length out4 = length out3 ∧
    (take k type4 = take k out2 → take k out4 = take k input).
Proof.
  intros Hg Hi H1 H3 H4. destruct (block_interleave_spec k a input out1) as (out2 & Heq2 & Hl2 & Hin2); [done..|].
  destruct (block_deinterleave_spec k a type4 out3) as (out4 & Heq4 & Hl4 & Hin4); [done..|].
  exists out2, out4. split_and!; [done..|]. intros Ht.
  apply list_eq. intros i. destruct (decide (i < k)) as [Hik|]; [|rewrite !lookup_take_ge; done || lia].
  rewrite !lookup_take_lt by done. specialize (Hin4 (S i) ltac:(lia)).
  specialize (Hin2 (S i) ltac:(lia)). replace (S i - 1) with i in * by lia.
  rewrite Hin4, <-Hin2. pose proof (block_pos_lt k a (S i) Hg ltac:(lia)) as Hlt.
  by rewrite <-(lookup_take_lt out2 k), <-Ht, lookup_take_lt by done.
Qed.

(** * The matrix interleaver is a transposition *)

Lemma foldM_nested {S} (f : nat → nat → S → option S) rows js (s : S) :
  foldM (λ i s, foldM (λ j s, f i j s) js s) rows s =
  foldM (λ p s, f p.1 p.2 s) (i ← rows; (λ j, (i, j)) <$> js) s.
Proof.
  revert s. induction rows as [|i rows IH]; intros s; [done|].
  cbn [foldM]. change ((i :: rows) ≫= λ i, (λ j, (i, j)) <$> js) with
    (((λ j, (i, j)) <$> js) ++ (i ← rows; (λ j, (i, j)) <$> js)).
  rewrite foldM_app. replace (foldM (λ p s, f p.1 p.2 s) ((λ j, (i, j)) <$> js) s)
    with (foldM (λ j s, f i j s) js s).
  - destruct (foldM _ js s); [apply IH|done].
  - clear. revert s. induction js as [|j js IH]; intros s; [done|]. cbn.
    destruct (f i j s); [apply IH|done].
Qed.

Definition grid (n m : nat) : list (nat * nat) := i ← seq 0 n; (λ j, (i, j)) <$> seq 0 m.

Lemma elem_of_grid n m p : p ∈ grid n m ↔ p.1 < n ∧ p.2 < m.
Proof.
  unfold grid. rewrite list_elem_of_bind. setoid_rewrite list_elem_of_fmap.
  setoid_rewrite elem_of_seq. destruct p as [i j]. simpl. split.
  - intros (i' & (j' & [= -> ->] & Hj) & Hi). lia.
  - intros [Hi Hj]. exists i. split; [exists j; split; [done|lia]|lia].
Qed.

Lemma NoDup_grid n m : NoDup (grid n m).
Proof.
  unfold grid. generalize (NoDup_seq 0 n). generalize (seq 0 n) as l.
  induction l as [|i l IH]; intros Hnd; [constructor|]. inversion Hnd as [|? ? Hni Hl]; subst.
  change (NoDup (((λ j, (i, j)) <$> seq 0 m) ++ (i ← l; (λ j, (i, j)) <$> seq 0 m))).
  apply NoDup_app. split_and!.
  - apply NoDup_fmap_2; [intros ?? [= ->]; done|apply NoDup_seq].
  - intros [i' j'] (j & [= -> ->] & _)%list_elem_of_fmap Hin.
    apply list_elem_of_bind in Hin as (i' & (j' & [= -> ->] & _)%list_elem_of_fmap & Hi'). done.
  - by apply IH.
Qed.

Lemma grid_index_inj m i j i' j' : j < m → j' < m → i * m + j = i' * m + j' → i = i' ∧ j = j'.
Proof. intros. assert (i = i') by nia. subst. lia. Qed.

Section transpose.
Context (lines columns : nat).

Lemma matrix_interleave_spec input output :
  lines * columns ≤ length input → lines * columns ≤ length output →
  ∃ out, matrix_interleave lines columns input output = Some out ∧ length out = length output ∧
    ∀ i j, i < columns → j < lines → out !! (i * lines + j) = input !! (j * columns + i).
Proof.
  intros Hi Ho. unfold matrix_interleave. rewrite guard_lengths by done. rewrite foldM_nested.
  destruct (foldM_copy (grid columns lines) (λ p, p.1 * lines + p.2) (λ p, p.2 * columns + p.1) input output)
    as (out & Heq & Hlen & Hin & _).
  - apply NoDup_fmap_2_strong; [|apply NoDup_grid].
    intros [i j] [i' j'] [? ?]%elem_of_grid [? ?]%elem_of_grid Heq. simpl in *.
    apply grid_index_inj in Heq as [-> ->]; done.
  - intros [i j] [? ?]%elem_of_grid. simpl in *. nia.
  - exists out. split_and!; [done..|]. intros i j Hic Hjl. apply (Hin (i, j)). by apply elem_of_grid.
Qed.

Lemma matrix_deinterleave_spec input output :
  lines * columns ≤ length input → lines * columns ≤ length output →
  ∃ out, matrix_deinterleave lines columns input output = Some out ∧ length out = length output ∧
    ∀ i j, i < columns → j < lines → out !! (j * columns + i) = input !! (i * lines + j).
Proof.
  intros Hi Ho. unfold matrix_deinterleave. rewrite guard_lengths by done. rewrite foldM_nested.
  destruct (foldM_copy (grid columns lines) (λ p, p.2 * columns + p.1) (λ p, p.1 * lines + p.2) input output)
    as (out & Heq & Hlen & Hin & _).
  - apply NoDup_fmap_2_strong; [|apply NoDup_grid].
    intros [i j] [i' j'] [? ?]%elem_of_grid [? ?]%elem_of_grid Heq. simpl in *.
    apply grid_index_inj in Heq as [-> ->]; done.
  - intros [i j] [? ?]%elem_of_grid. simpl in *. nia.
  - exists out. split_and!; [done..|]. intros i j Hic Hjl. apply (Hin (i, j)). by apply elem_of_grid.
Qed.

Lemma matrix_deinterleave_interleave input out1 type4 out3 :
  lines * columns ≤ length input → lines * columns ≤ length out1 → lines * columns ≤ length out3 →
  lines * columns ≤ length type4 →
  ∃ out2 out4, matrix_interleave lines columns input out1 = Some out2 ∧ length out2 = length out1 ∧
    matrix_deinterleave lines columns type4 out3 = Some out4 ∧ length out4 = length out3 ∧
    (take (lines * columns) type4 = take (lines * columns) out2 →
     take (lines * columns) out4 = take (lines * columns) input).
Proof.
  intros Hi H1 H3 H4.
  destruct (matrix_interleave_spec input out1) as (out2 & Heq2 & Hl2 & Hin2); [done..|].
  destruct (matrix_deinterleave_spec type4 out3) as (out4 & Heq4 & Hl4 & Hin4); [done..|].
  exists out2, out4. split_and!; [done..|]. intros Ht. apply list_eq. intros p.
  destruct (decide (p < lines * columns)) as [Hp|]; [|rewrite !lookup_take_ge; done || lia].
  rewrite !lookup_take_lt by done.
  assert (columns ≠ 0) as Hc by lia. pose proof (Nat.mod_upper_bound p columns Hc) as Hm.
  assert (p / columns < lines) as Hd by (apply Nat.Div0.div_lt_upper_bound; lia).
  assert (p = p / columns * columns + p mod columns) as Hdm by (pose proof (Nat.div_mod_eq p columns); lia).
  rewrite Hdm, Hin4, <-Hin2 by done.
  rewrite <-(lookup_take_lt type4 (lines * columns)) by nia.
  by rewrite Ht, lookup_take_lt by nia.
Qed.
End transpose.

(** For any block size [k] and any step [a] coprime to it (and small enough
    for the [u32] product), de-interleaving undoes interleaving on the block. *)
Lemma block_interleave_roundtrip k a input out1 out3 : good_params k a →
  k ≤ length input → k ≤ length out1 → k ≤ length out3 →
  ∃ out2 out4, block_interleave k a input out1 = Some out2 ∧
    block_deinterleave k a out2 out3 = Some out4 ∧ take k out4 = take k input.
Proof.
  intros Hg Hi H1 H3. destruct (block_interleave_spec k a input out1) as (out2 & Heq2 & Hl2 & _); [done..|].
  destruct (block_deinterleave_interleave k a input out1 out2 out3)
    as (out2' & out4 & Heq2' & _ & Heq4 & _ & Ht); [done..|lia|].
  exists out2, out4. rewrite Heq2 in Heq2'. injection Heq2' as <-. auto.
Qed.

(** Matrix de-interleaving undoes matrix interleaving, for any shape. *)
Lemma matrix_interleave_roundtrip lines columns input out1 out3 :
  lines * columns ≤ length input → lines * columns ≤ length out1 → lines * columns ≤ length out3 →
  ∃ out2 out4, matrix_interleave lines columns input out1 = Some out2 ∧
    matrix_deinterleave lines columns out2 out3 = Some out4 ∧
    take (lines * columns) out4 = take (lines * columns) input.
Proof.
  intros Hi H1 H3.
  destruct (matrix_interleave_spec lines columns input out1) as (out2 & Heq2 & Hl2 & _); [done..|].
  destruct (matrix_deinterleave_interleave lines columns input out1 out2 out3)
    as (out2' & out4 & Heq2' & _ & Heq4 & _ & Ht); [done..|lia|].
  exists out2, out4. rewrite Heq2 in Heq2'. injection Heq2' as <-. auto.
Qed.

(** De-interleaving undoes interleaving: block interleaving for any block
    size and any step coprime to it (and small enough for the [u32] product),
    matrix interleaving for any shape. *)
Theorem interleavers_roundtrip input out1 out3 : length out1 = length input → length out3 = length input →
  (∀ k a, good_params k a → k ≤ length input →
     ∃ out2 out4, block_interleave k a input out1 = Some out2 ∧
       block_deinterleave k a out2 out3 = Some out4 ∧ take k out4 = take k input) ∧
  (∀ lines columns, lines * columns ≤ length input →
     ∃ out2 out4, matrix_interleave lines columns input out1 = Some out2 ∧
       matrix_deinterleave lines columns out2 out3 = Some out4 ∧
       take (lines * columns) out4 = take (lines * columns) input).
Proof.
  intros H1 H3. split.
  - intros k a Hg Hk. apply block_interleave_roundtrip; [done|lia..].
  - intros lines columns Hl. apply matrix_interleave_roundtrip; lia.
Qed.
End interleaver.

Lemma interleavers_roundtrip_witness :
  ∃ out2 out4, block_interleave 10 3 (seq 0 10) (replicate 10 0) = Some out2 ∧
    block_deinterleave 10 3 out2 (replicate 10 0) = Some out4 ∧ take 10 out4 = seq 0 10.
Proof.
  apply (interleavers_roundtrip (seq 0 10) (replicate 10 0) (replicate 10 0)); try (simpl; lia).
  unfold good_params. split_and!; [reflexivity|lia..].
Defined.
