(* ===== verification/Rm3014.v ===== *)
(** lmac/components/rm3014.rs: the shortened Reed-Muller (30,14) code of the
    AACH, with the single-bit error correction of the decoder.

    Everything is linear over xor: the syndrome is a xor of column syndromes
    ([compute_syndrome_columns]), codewords have syndrome 0, and an error at
    bit [29 - k] adds column [k], which no other column equals. *)
From S2P Require Import Prelude Bits.
Local Open Scope Z_scope.

(** * Definitions *)

Definition RM_30_14_GEN : list (list Z) := [
  [1; 0; 0; 1; 1; 0; 1; 1; 0; 1; 1; 0; 0; 0; 0; 0];
  [0; 0; 1; 0; 1; 1; 0; 1; 1; 1; 1; 0; 0; 0; 0; 0];
  [1; 1; 1; 1; 1; 1; 0; 0; 0; 0; 1; 0; 0; 0; 0; 0];
  [1; 1; 1; 0; 0; 0; 0; 0; 0; 0; 1; 1; 1; 1; 0; 0];
  [1; 0; 0; 1; 1; 0; 0; 0; 0; 0; 1; 1; 1; 0; 1; 0];
  [0; 1; 0; 1; 0; 1; 0; 0; 0; 0; 1; 1; 0; 1; 1; 0];
  [0; 0; 1; 0; 1; 1; 0; 0; 0; 0; 1; 0; 1; 1; 1; 0];
  [1; 1; 1; 1; 1; 1; 1; 1; 1; 1; 0; 1; 1; 1; 1; 1];
  [1; 0; 0; 0; 0; 0; 1; 1; 0; 0; 1; 1; 1; 0; 0; 1];
  [0; 1; 0; 0; 0; 0; 1; 0; 1; 0; 1; 1; 0; 1; 0; 1];
  [0; 0; 1; 0; 0; 0; 0; 1; 1; 0; 1; 0; 1; 1; 0; 1];
  [0; 0; 0; 1; 0; 0; 1; 0; 0; 1; 1; 1; 0; 0; 1; 1];
  [0; 0; 0; 0; 1; 0; 0; 1; 0; 1; 1; 0; 1; 0; 1; 1];
  [0; 0; 0; 0; 0; 1; 0; 0; 1; 1; 1; 0; 0; 1; 1; 1]].

Definition RM_30_14_ROWS_PRECOMPUTED : list Z := [
  0x20009b60; 0x10002de0; 0x0800fc20; 0x0400e03c; 0x0200983a; 0x01005436; 0x00802c2e; 0x0040ffdf;
  0x00208339; 0x001042b5; 0x000821ad; 0x00041273; 0x0002096b; 0x000104e7].

(** The entry [RM_30_14_GEN[i][j]]; both indices are loop bounds within the matrix. *)
Definition gen_at (i j : nat) : Z := default 0 (row ← RM_30_14_GEN !! i; row !! j).

Definition tetra_rm3014_compute (input : Z) : Z :=
  foldl (λ val i,
    let bit := Z.land (Z.shiftr input (13 - Z.of_nat i)) 1 in
    if bit =? 1 then Z.lxor val (default 0 (RM_30_14_ROWS_PRECOMPUTED !! i)) else val) 0 (seq 0 14).

Definition tetra_rm3014_decode_naive (codeword : Z) : Z := wrap 16 (Z.shiftr codeword 16).

Definition col_syndrome (k : nat) : Z :=
  foldl (λ syn j,
    let bit := if (k <? 14)%nat then gen_at k j else Z.b2z (k - 14 =? j)%nat in
    Z.lor syn (wrap 16 (Z.shiftl bit (Z.of_nat j)))) 0 (seq 0 16).
Definition compute_col_syndromes : list Z := col_syndrome <$> seq 0 30.
Definition COL_SYNDROMES : list Z := Eval vm_compute in compute_col_syndromes.

(** [sum] of the loop body for parity bit [j]. *)
Definition parity_sum (codeword : Z) (j : nat) : Z :=
  let sum := foldl (λ sum i,
    Z.lxor sum (Z.land (wrap 8 (Z.land (Z.shiftr codeword (29 - Z.of_nat i)) 1)) (gen_at i j)))
    0 (seq 0 14) in
  Z.lxor sum (wrap 8 (Z.land (Z.shiftr codeword (29 - (14 + Z.of_nat j))) 1)).

Definition compute_syndrome (codeword : Z) : Z :=
  foldl (λ syn j,
    if negb (Z.land (parity_sum codeword j) 1 =? 0) then Z.lor syn (wrap 16 (Z.shiftl 1 (Z.of_nat j)))
    else syn) 0 (seq 0 16).

(** The [for] loop with [break] over the column syndromes. *)
Fixpoint correct_loop (cols : list Z) (k : nat) (syn corrected : Z) : Z :=
  match cols with
  | [] => corrected
  | col_syn :: cols =>
      if col_syn =? syn then Z.lxor corrected (wrap 32 (Z.shiftl 1 (29 - Z.of_nat k)))
      else correct_loop cols (S k) syn corrected
  end.

Definition tetra_rm3014_decode_limited_ecc (codeword : Z) : Z :=
  let syn := compute_syndrome codeword in
  let corrected :=
    if negb (syn =? 0) then correct_loop COL_SYNDROMES 0 syn codeword else codeword in
  wrap 16 (Z.shiftr corrected 16).

(** * Codewords and syndromes as xor combinations *)

(** [lincomb n cols v] xors [cols !! i] for every set bit [n - 1 - i] of [v]. *)
Fixpoint lincomb (cols : list Z) (v : Z) : Z :=
  match cols with
  | [] => 0
  | c :: cols => Z.lxor (if Z.testbit v (Z.of_nat (length cols)) then c else 0) (lincomb cols v)
  end.

Lemma lincomb_xor cols v w : lincomb cols (Z.lxor v w) = Z.lxor (lincomb cols v) (lincomb cols w).
Proof.
  induction cols as [|c cols IH]; [done|]. cbn [lincomb]. rewrite IH, Z.lxor_spec.
  bitwise i Hi. destruct (Z.testbit v _), (Z.testbit w _); simpl; rewrite ?Z.bits_0; Btauto.btauto.
Qed.

Lemma lincomb_0 cols : lincomb cols 0 = 0.
Proof. induction cols as [|c cols IH]; [done|]. cbn [lincomb]. by rewrite IH, Z.bits_0. Qed.

Lemma lincomb_zeroes n v : lincomb (replicate n 0) v = 0.
Proof. induction n as [|n IH]; [done|]. cbn [lincomb replicate]. rewrite IH. by case_match. Qed.

Lemma land_shiftr_1 v n : 0 ≤ n → Z.land (Z.shiftr v n) 1 = Z.b2z (Z.testbit v n).
Proof.
  intros. change 1 with (Z.ones 1). rewrite Z.land_ones, Z.shiftr_div_pow2 by lia.
  by rewrite Z.testbit_spec' by lia.
Qed.

(** A map on words that distributes over xor. *)
Definition linear (f : Z → Z) : Prop := f 0 = 0 ∧ ∀ a b, f (Z.lxor a b) = Z.lxor (f a) (f b).

Lemma linear_lincomb f cols v : linear f → f (lincomb cols v) = lincomb (f <$> cols) v.
Proof.
  intros [H0 Hx]. induction cols as [|c cols IH]; [done|]. cbn [lincomb fmap list_fmap].
  rewrite Hx, IH, length_fmap. f_equal. by destruct (Z.testbit v _).
Qed.

Lemma linear_shiftr k : 0 ≤ k → linear (λ v, Z.shiftr v k).
Proof. intros. split; [apply Z.shiftr_0_l|]. intros. apply Z.shiftr_lxor. Qed.

Lemma lincomb_pow2 n v : lincomb ((λ i, 2 ^ Z.of_nat i) <$> reverse (seq 0 n)) v = wrap (Z.of_nat n) v.
Proof.
  induction n as [|n IH]; [symmetry; apply Z.mod_1_r|].
  rewrite seq_S, reverse_snoc. cbn [fmap list_fmap lincomb Nat.add]. rewrite IH.
  rewrite length_fmap, length_reverse, length_seq. bitwise i Hi.
  rewrite !wrap_testbit by lia. destruct (Z.testbit v (Z.of_nat n)) eqn:Hn.
  - rewrite Z.pow2_bits_eqb by lia. destruct (Z.eqb_spec (Z.of_nat n) i) as [<-|].
    + repeat case_decide; try lia. by rewrite Hn.
    + repeat case_decide; try lia; rewrite ?xorb_false_l; done.
  - rewrite Z.bits_0. destruct (decide (i = Z.of_nat n)) as [->|].
    + repeat case_decide; try lia. by rewrite Hn.
    + repeat case_decide; try lia; rewrite ?xorb_false_l; done.
Qed.

Lemma xor_if b val r :
  (if Z.b2z b =? 1 then Z.lxor val r else val) = Z.lxor val (if b then r else 0).
Proof. destruct b; simpl; [done|]. by rewrite Z.lxor_0_r. Qed.

Lemma compute_loop_lincomb rows v cols pre acc : rows = pre ++ cols →
  foldl (λ val i,
    let bit := Z.land (Z.shiftr v (Z.of_nat (length rows) - 1 - Z.of_nat i)) 1 in
    if bit =? 1 then Z.lxor val (default 0 (rows !! i)) else val) acc (seq (length pre) (length cols)) =
  Z.lxor acc (lincomb cols v).
Proof.
  revert pre acc. induction cols as [|c cols IH]; intros pre acc Hrows.
  { simpl. by rewrite Z.lxor_0_r. }
  cbn [length seq foldl lincomb]. specialize (IH (pre ++ [c])).
  rewrite length_app, Nat.add_1_r in IH. rewrite IH by (by rewrite <-app_assoc).
  rewrite Hrows, length_app. cbn [length]. rewrite land_shiftr_1, xor_if by lia.
  rewrite list_lookup_middle by done. cbn [default]. rewrite Z.lxor_assoc.
  by replace (Z.of_nat (length pre + S (length cols)) - 1 - Z.of_nat (length pre))
    with (Z.of_nat (length cols)) by lia.
Qed.

Lemma tetra_rm3014_compute_lincomb input :
  tetra_rm3014_compute input = lincomb RM_30_14_ROWS_PRECOMPUTED input.
Proof.
  rewrite <-(Z.lxor_0_l (lincomb _ _)).
  exact (compute_loop_lincomb RM_30_14_ROWS_PRECOMPUTED input _ [] 0 eq_refl).
Qed.

(** * The syndrome is linear *)

Lemma parity_sum_xor a b j : parity_sum (Z.lxor a b) j = Z.lxor (parity_sum a j) (parity_sum b j).
Proof.
  unfold parity_sum. set (t c n := wrap 8 (Z.land (Z.shiftr c n) 1)).
  assert (∀ n, t (Z.lxor a b) n = Z.lxor (t a n) (t b n)) as Ht.
  { intros n. unfold t. bitwise i Hi. rewrite !wrap_testbit by lia. case_decide; [|done].
    rewrite Z.shiftr_lxor. autorewrite with testbit. Btauto.btauto. }
  assert (∀ l sa sb, foldl (λ sum i, Z.lxor sum (Z.land (t (Z.lxor a b) (29 - Z.of_nat i)) (gen_at i j)))
      (Z.lxor sa sb) l =
    Z.lxor (foldl (λ sum i, Z.lxor sum (Z.land (t a (29 - Z.of_nat i)) (gen_at i j))) sa l)
      (foldl (λ sum i, Z.lxor sum (Z.land (t b (29 - Z.of_nat i)) (gen_at i j))) sb l)) as Hf.
  { induction l as [|x l IH]; intros sa sb; [done|]. cbn [foldl]. rewrite <-IH. f_equal.
    rewrite Ht. bitwise i Hi. Btauto.btauto. }
  rewrite <-(Z.lxor_0_l 0) at 1. unfold t in Hf, Ht. rewrite Hf, Ht. bitwise i Hi. Btauto.btauto.
Qed.

Lemma compute_syndrome_testbit c i : 0 ≤ i →
  Z.testbit (compute_syndrome c) i =
    if decide (i < 16) then Z.odd (parity_sum c (Z.to_nat i)) else false.
Proof.
  intros Hi. unfold compute_syndrome.
  rewrite (lor_loop_testbit (λ j, negb (Z.land (parity_sum c j) 1 =? 0)) 16) by lia.
  change (Z.of_nat 16) with 16. case_decide; [|done].
  change 1 with (Z.ones 1). rewrite Z.land_ones, Zmod_odd by lia. by destruct (Z.odd _).
Qed.

Lemma linear_compute_syndrome : linear compute_syndrome.
Proof.
  split; [reflexivity|]. intros a b. apply Z.bits_inj'. intros i Hi.
  rewrite Z.lxor_spec, !compute_syndrome_testbit by done. case_decide; [|done].
  by rewrite parity_sum_xor, <-!Z.bit0_odd, Z.lxor_spec.
Qed.

Lemma codeword_syndrome m : compute_syndrome (tetra_rm3014_compute m) = 0.
Proof.
  rewrite tetra_rm3014_compute_lincomb, linear_lincomb by apply linear_compute_syndrome.
  assert (compute_syndrome <$> RM_30_14_ROWS_PRECOMPUTED = replicate 14 0) as -> by (vm_compute; reflexivity).
  apply lincomb_zeroes.
Qed.

Lemma codeword_message m : is_u 14 m → Z.shiftr (tetra_rm3014_compute m) 16 = m.
Proof.
  intros Hm. rewrite tetra_rm3014_compute_lincomb, (linear_lincomb (λ v, Z.shiftr v 16)) by (by apply linear_shiftr).
  change ((λ v, Z.shiftr v 16) <$> RM_30_14_ROWS_PRECOMPUTED) with
    ((λ i, 2 ^ Z.of_nat i) <$> reverse (seq 0 14)).
  rewrite lincomb_pow2. by apply wrap_small.
Qed.

Ltac eval_syndrome :=
  match goal with
  | |- context [compute_syndrome ?e] =>
      let s := eval vm_compute in (compute_syndrome e) in
      replace (compute_syndrome e) with s by (vm_compute; reflexivity)
  end.

(** The decoder flips bit [b] for the syndrome of an error there. *)
Lemma correct_bit b x : 0 ≤ b < 30 →
  compute_syndrome (2 ^ b) ≠ 0 ∧
  correct_loop COL_SYNDROMES 0 (compute_syndrome (2 ^ b)) x = Z.lxor x (2 ^ b).
Proof.
  intros Hb. replace b with (Z.of_nat (Z.to_nat b)) by lia.
  assert (Z.to_nat b < 30)%nat as Hn by lia. revert Hn. generalize (Z.to_nat b). intros n Hn. clear Hb b.
  do 30 (destruct n as [|n]; [eval_syndrome; split; [discriminate|reflexivity]|]). lia.
Qed.

(** No error, or one error at bit [b] of the codeword. *)
Definition single_error (err : Z) : Prop := err = 0 ∨ ∃ b, 0 ≤ b < 30 ∧ err = 2 ^ b.

Lemma rm3014_decode_ok m err : is_u 14 m → single_error err →
  tetra_rm3014_decode_limited_ecc (Z.lxor (tetra_rm3014_compute m) err) = m.
Proof.
  intros Hm Herr. assert (wrap 16 m = m) as Hw.
  { apply wrap_small. unfold is_u in *. lia. }
  unfold tetra_rm3014_decode_limited_ecc.
  rewrite (proj2 linear_compute_syndrome), codeword_syndrome, Z.lxor_0_l.
  destruct Herr as [-> | (b & Hb & ->)].
  - rewrite (proj1 linear_compute_syndrome). cbn [Z.eqb negb].
    by rewrite Z.lxor_0_r, codeword_message.
  - destruct (correct_bit b (Z.lxor (tetra_rm3014_compute m) (2 ^ b)) Hb) as [Hnz Hc].
    apply Z.eqb_neq in Hnz. rewrite Hnz. cbn [negb].
    by rewrite Hc, Z.lxor_assoc, Z.lxor_nilpotent, Z.lxor_0_r, codeword_message.
Qed.

(** * Properties *)

(** The decoder returns the 14-bit message of every codeword, and still does
    when any single one of the 30 transmitted bits is flipped. *)
Theorem rm3014_corrects_single_errors m :
  is_u 14 m →
  tetra_rm3014_decode_limited_ecc (tetra_rm3014_compute m) = m ∧
  ∀ b, 0 ≤ b < 30 →
    tetra_rm3014_decode_limited_ecc (Z.lxor (tetra_rm3014_compute m) (2 ^ b)) = m.
Proof.
  intros Hm. split.
  - rewrite <-(Z.lxor_0_r (tetra_rm3014_compute m)). apply rm3014_decode_ok; [done|by left].
  - intros b Hb. apply rm3014_decode_ok; [done|]. right. by exists b.
Qed.
