(* ===== verification/ConvEnc.v ===== *)
(** lmac/components/convenc.rs: the convolutional mother codes of the control
    channels (rate 1/4) and of the speech channel (rate 1/3), and the
    puncturing that brings them to the channel rate.

    A bit is a [u8] as in the source.  The index arithmetic of the puncturers is
    on [nat]: the source's [u32] values are at most three times the length of
    the slices, and its subtractions ([i - 1], [i - t * blk], [k - 1]) never go
    below zero since [i ≥ 1] and [p[idx] ≥ 1] for [idx ≥ 1]. *)
From S2P Require Import Prelude Bits Arrays.

(** * Convolutional encoders *)

Record ConvEncState : Type := mkConvEnc { delayed0 : Z; delayed1 : Z; delayed2 : Z; delayed3 : Z }.

Definition conv_new : ConvEncState := mkConvEnc 0 0 0 0.

(** The outputs of one step, the new shift register and the returned nibble. *)
Definition encode_bit (st : ConvEncState) (bit : Z) : list Z * ConvEncState * Z :=
  let g1 := Z.lxor (Z.lxor bit (delayed0 st)) (delayed3 st) in
  let g2 := Z.lxor (Z.lxor (Z.lxor bit (delayed1 st)) (delayed2 st)) (delayed3 st) in
  let g3 := Z.lxor (Z.lxor (Z.lxor bit (delayed0 st)) (delayed1 st)) (delayed3 st) in
  let g4 := Z.lxor (Z.lxor (Z.lxor bit (delayed0 st)) (delayed2 st)) (delayed3 st) in
  ([g1; g2; g3; g4], mkConvEnc bit (delayed0 st) (delayed1 st) (delayed2 st),
   Z.lor (Z.lor (Z.lor g1 (wrap 8 (Z.shiftl g2 1))) (wrap 8 (Z.shiftl g3 2))) (wrap 8 (Z.shiftl g4 3))).

Definition speech_encode_bit (st : ConvEncState) (bit : Z) : list Z * ConvEncState :=
  let g1 := Z.lxor (Z.lxor (Z.lxor (Z.lxor bit (delayed0 st)) (delayed1 st)) (delayed2 st)) (delayed3 st) in
  let g2 := Z.lxor (Z.lxor (Z.lxor bit (delayed0 st)) (delayed2 st)) (delayed3 st) in
  let g3 := Z.lxor (Z.lxor bit (delayed1 st)) (delayed3 st) in
  ([g1; g2; g3], mkConvEnc bit (delayed0 st) (delayed1 st) (delayed2 st)).

(** The [for (i, &bit) in input.iter().enumerate()] loops: [f] gives the [w]
    output bits of a step, written to [output[i * w ..]]. *)
Definition encode_loop (w : nat) (f : ConvEncState → Z → list Z * ConvEncState)
    (input : list Z) (st : ConvEncState) (output : list Z) : option (ConvEncState * list Z) :=
  foldM (λ '(i, bit) '(st, output),
    let '(g, st) := f st bit in
    output ← copy_from_slice (i * w) g output;
    Some (st, output)) (zip (seq 0 (length input)) input) (st, output).

Definition encode (st : ConvEncState) (input output : list Z) : option (ConvEncState * list Z) :=
  if length input * 4 <=? length output then
    encode_loop 4 (λ st bit, (encode_bit st bit).1) input st output
  else None.

Definition encode_rate1_3 (st : ConvEncState) (input output : list Z) : option (ConvEncState * list Z) :=
  if length input * 3 <=? length output then
    encode_loop 3 (λ st bit, let '(g, st, _) := encode_bit st bit in (take 3 g, st)) input st output
  else None.

Definition speech_encode (st : ConvEncState) (input output : list Z) : option (ConvEncState * list Z) :=
  if length input * 3 <=? length output then encode_loop 3 speech_encode_bit input st output
  else None.

(** * Puncturing *)

Inductive RcpcPunctMode : Type :=
| Rate2_3 | Rate1_3 | Rate292_432 | Rate148_432 | Rate112_168 | Rate72_162 | Rate38_80.

Definition i_equals (j : nat) : nat := j.
Definition i_292 (j : nat) : nat := j + (j - 1) / 65.
Definition i_148 (j : nat) : nat := j + (j - 1) / 35.

Record Puncturer : Type := mkPunct {
  pu_p : list nat; pu_t : nat; pu_period : nat; pu_i_func : nat → nat }.

Definition P_RATE2_3 : list nat := [0; 1; 2; 5].
Definition P_RATE1_3 : list nat := [0; 1; 2; 3; 5; 6; 7].
Definition P_RATE8_12 : list nat := [0; 1; 2; 4].
Definition P_RATE8_18 : list nat := [0; 1; 2; 3; 4; 5; 7; 8; 10; 11].
Definition P_RATE8_17 : list nat := [0; 1; 2; 3; 4; 5; 7; 8; 10; 11; 13; 14; 16; 17; 19; 20; 22; 23].

Definition get_puncturer (pu : RcpcPunctMode) : Puncturer :=
  match pu with
  | Rate2_3 => mkPunct P_RATE2_3 3 8 i_equals
  | Rate1_3 => mkPunct P_RATE1_3 6 8 i_equals
  | Rate292_432 => mkPunct P_RATE2_3 3 8 i_292
  | Rate148_432 => mkPunct P_RATE1_3 6 8 i_148
  | Rate112_168 => mkPunct P_RATE8_12 3 6 i_equals
  | Rate72_162 => mkPunct P_RATE8_18 9 12 i_equals
  | Rate38_80 => mkPunct P_RATE8_17 17 24 i_equals
  end.

(** The mother-code position [k] of the [j]-th transmitted bit. *)
Definition punct_k (pu : RcpcPunctMode) (j : nat) : option nat :=
  let punct := get_puncturer pu in
  let i := pu_i_func punct j in
  let blk := (i - 1) / pu_t punct in
  let idx := i - pu_t punct * blk in
  pk ← pu_p punct !! idx;
  Some (pu_period punct * blk + pk).

Section punct.
Context {A : Type}.

Definition get_punctured_rate (pu : RcpcPunctMode) (input output : list A) : option (list A) :=
  foldM (λ j output, k ← punct_k pu j; copy_at (j - 1) (k - 1) input output)
    (seq 1 (length output)) output.

Definition tetra_rcpc_depunct (pu : RcpcPunctMode) (input : list A) (len : nat) (output : list A)
    : option (list A) :=
  foldM (λ j output, k ← punct_k pu j; copy_at (k - 1) (j - 1) input output) (seq 1 len) output.
End punct.

(** [None]: the [Err(())] of a mismatch. *)
Fixpoint mother_memcmp_loop (mother depunct : list Z) (matched : nat) : option nat :=
  match mother, depunct with
  | m :: mother, d :: depunct =>
      if (d =? 0xff)%Z then mother_memcmp_loop mother depunct matched
      else if negb (d =? m)%Z then None
      else mother_memcmp_loop mother depunct (matched + 1)
  | _, _ => Some matched
  end.
Definition mother_memcmp (mother depunct : list Z) : option nat := mother_memcmp_loop mother depunct 0.

(** * The encoders as functions of the input bits *)

(** Output and next state of a whole input. *)
Fixpoint mother_bits (f : ConvEncState → Z → list Z * ConvEncState) (st : ConvEncState)
    (input : list Z) : list Z * ConvEncState :=
  match input with
  | [] => ([], st)
  | b :: input =>
      let '(g, st) := f st b in
      let '(out, st) := mother_bits f st input in (g ++ out, st)
  end.

Lemma length_mother_bits w f st input : (∀ st b, length (f st b).1 = w) →
  length (mother_bits f st input).1 = length input * w.
Proof.
  intros Hw. revert st. induction input as [|b input IH]; intros st; [done|]. cbn [mother_bits].
  specialize (Hw st b). destruct (f st b) as [g st']. specialize (IH st').
  destruct (mother_bits f st' input) as [out st'']. simpl in *. rewrite length_app. lia.
Qed.

Lemma encode_loop_ok w f input st output : (∀ st b, length (f st b).1 = w) →
  length input * w ≤ length output →
  encode_loop w f input st output =
    let '(out, st') := mother_bits f st input in
    Some (st', out ++ drop (length input * w) output).
Proof.
  intros Hw. unfold encode_loop.
  cut (∀ off pre rest, length pre = off * w → length input * w ≤ length rest →
    foldM (λ '(i, bit) '(st, output), let '(g, st) := f st bit in
        output ← copy_from_slice (i * w) g output; Some (st, output))
      (zip (seq off (length input)) input) (st, pre ++ rest) =
    let '(out, st') := mother_bits f st input in
    Some (st', pre ++ out ++ drop (length input * w) rest)).
  { intros H Hlen. apply (H 0 [] output); done. }
  revert st. induction input as [|b input IH]; intros st off pre rest Hpre Hrest.
  { cbn. by rewrite ?drop_0. }
  cbn [length seq zip zip_with foldM mother_bits]. pose proof (Hw st b) as Hg.
  destruct (f st b) as [g st']. cbn [fst] in Hg. cbn [length] in Hrest.
  rewrite copy_from_slice_Some by (rewrite length_app; lia). cbn [mbind option_bind].
  rewrite take_app_length' by lia. rewrite drop_app_ge by lia.
  replace (off * w + length g - length pre) with w by lia.
  rewrite (app_assoc pre g).
  rewrite (IH st' (S off)); [|rewrite length_app; lia|rewrite length_drop; lia].
  destruct (mother_bits f st' input) as [out st'']. rewrite drop_drop, <-!app_assoc.
  by replace (w + length input * w) with (S (length input) * w) by lia.
Qed.

Lemma encode_ok input st output : length input * 4 ≤ length output →
  encode st input output =
    let '(out, st') := mother_bits (λ st bit, (encode_bit st bit).1) st input in
    Some (st', out ++ drop (length input * 4) output).
Proof.
  intros H. unfold encode. rewrite (proj2 (Nat.leb_le _ _) H). by apply encode_loop_ok.
Qed.

Lemma speech_encode_ok input st output : length input * 3 ≤ length output →
  speech_encode st input output =
    let '(out, st') := mother_bits speech_encode_bit st input in
    Some (st', out ++ drop (length input * 3) output).
Proof.
  intros H. unfold speech_encode. rewrite (proj2 (Nat.leb_le _ _) H). by apply encode_loop_ok.
Qed.

(** * The positions of the transmitted bits *)

Definition punct_pos (pu : RcpcPunctMode) (j : nat) : nat := default 0 (punct_k pu j).

(** What the puncturing tables have in common: the pattern is strictly
    increasing, starts at 1 or more, stays within the period, and the index
    function is strictly increasing. *)
Lemma table_facts pu :
  let u := get_puncturer pu in
  length (pu_p u) = S (pu_t u) ∧ 1 ≤ pu_t u ∧
  (∀ i x, pu_p u !! i = Some x → 1 ≤ i → 1 ≤ x ≤ pu_period u) ∧
  (∀ i x y, pu_p u !! i = Some x → pu_p u !! S i = Some y → x < y).
Proof.
  destruct pu; simpl; (split_and!; [done|lia| |]).
  all: intros i; do 19 (destruct i as [|i]; [intros; simpl in *; simplify_eq; lia|]);
    intros; simpl in *; discriminate.
Qed.

Lemma table_mono pu i i' x y : i < i' →
  pu_p (get_puncturer pu) !! i = Some x → pu_p (get_puncturer pu) !! i' = Some y → x < y.
Proof.
  intros Hlt Hx. destruct (table_facts pu) as (_ & _ & _ & Hstep). revert y.
  induction Hlt as [|i' Hlt IH]; intros y Hy; [by eapply Hstep|].
  destruct (lookup_lt_is_Some_2 (pu_p (get_puncturer pu)) i') as [z Hz].
  { apply lookup_lt_Some in Hy. lia. }
  specialize (IH z Hz). specialize (Hstep _ _ _ Hz Hy). lia.
Qed.

Lemma i_func_mono pu j j' : j < j' →
  pu_i_func (get_puncturer pu) j < pu_i_func (get_puncturer pu) j'.
Proof.
  intros. destruct pu; cbn [get_puncturer pu_i_func]; unfold i_equals, i_292, i_148; try lia.
  - pose proof (Nat.Div0.div_le_mono (j - 1) (j' - 1) 65 ltac:(lia)). lia.
  - pose proof (Nat.Div0.div_le_mono (j - 1) (j' - 1) 35 ltac:(lia)). lia.
Qed.

Lemma i_func_ge pu j : j ≤ pu_i_func (get_puncturer pu) j.
Proof. destruct pu; cbn [get_puncturer pu_i_func]; unfold i_equals, i_292, i_148; lia. Qed.

(** The block and the index within the block, for [i ≥ 1]. *)
Lemma punct_k_Some pu j : 1 ≤ j →
  ∃ blk idx x, let u := get_puncturer pu in
    pu_i_func u j = pu_t u * blk + idx ∧ 1 ≤ idx ≤ pu_t u ∧ pu_p u !! idx = Some x ∧
    1 ≤ x ≤ pu_period u ∧ punct_k pu j = Some (pu_period u * blk + x).
Proof.
  intros Hj. destruct (table_facts pu) as (Hlen & Ht & Hrange & _). pose proof (i_func_ge pu j) as Hi.
  unfold punct_k. cbv zeta. set (u := get_puncturer pu) in *. set (i := pu_i_func u j) in *.
  pose proof (Nat.div_mod_eq (i - 1) (pu_t u)) as Hdm.
  pose proof (Nat.mod_upper_bound (i - 1) (pu_t u) ltac:(lia)) as Hm.
  set (blk := (i - 1) / pu_t u) in *.
  destruct (lookup_lt_is_Some_2 (pu_p u) (i - pu_t u * blk)) as [x Hx]; [lia|].
  exists blk, (i - pu_t u * blk), x. split_and!; try lia; try done.
  - apply (Hrange _ _ Hx). lia.
  - apply (Hrange _ _ Hx). lia.
  - by rewrite Hx.
Qed.

Lemma punct_k_pos pu j : 1 ≤ j → punct_k pu j = Some (punct_pos pu j) ∧ 1 ≤ punct_pos pu j.
Proof.
  intros Hj. destruct (punct_k_Some pu j Hj) as (blk & idx & x & _ & _ & _ & Hx & Heq).
  unfold punct_pos. rewrite Heq. simpl. split; [done|lia].
Qed.

Lemma punct_pos_mono pu j j' : 1 ≤ j → j < j' → punct_pos pu j < punct_pos pu j'.
Proof.
  intros Hj Hlt.
  destruct (punct_k_Some pu j Hj) as (blk & idx & x & Hi & Hidx & Hx & Hxr & Heq).
  destruct (punct_k_Some pu j' ltac:(lia)) as (blk' & idx' & x' & Hi' & Hidx' & Hx' & Hxr' & Heq').
  pose proof (i_func_mono pu j j' Hlt) as Hmono. unfold punct_pos. rewrite Heq, Heq'. cbn [default].
  set (u := get_puncturer pu) in *. unfold id.
  destruct (decide (blk = blk')) as [<-|Hne].
  - pose proof (table_mono pu idx idx' x x' ltac:(lia) Hx Hx'). lia.
  - assert (blk < blk') by nia. nia.
Qed.

Lemma punct_pos_le pu j n : 1 ≤ j ≤ n → punct_pos pu j ≤ punct_pos pu n.
Proof.
  intros [Hj Hn]. destruct (decide (j = n)) as [->|]; [lia|].
  pose proof (punct_pos_mono pu j n). lia.
Qed.

Lemma punct_pos_nodup pu n : NoDup ((λ j, punct_pos pu j - 1) <$> seq 1 n).
Proof.
  apply NoDup_fmap_2_strong; [|apply NoDup_seq]. intros i j Hi%elem_of_seq Hj%elem_of_seq Heq.
  pose proof (proj2 (punct_k_pos pu i ltac:(lia))). pose proof (proj2 (punct_k_pos pu j ltac:(lia))).
  destruct (Nat.lt_trichotomy i j) as [Hlt|[?|Hlt]]; [|done|];
    apply (punct_pos_mono pu) in Hlt; lia.
Qed.

Section punct_spec.
Context {A : Type}.
Implicit Types (mother output : list A).

Lemma get_punctured_rate_spec pu mother output :
  (1 ≤ length output → punct_pos pu (length output) ≤ length mother) →
  ∃ out, get_punctured_rate pu mother output = Some out ∧ length out = length output ∧
    ∀ j, 1 ≤ j ≤ length output → out !! (j - 1) = mother !! (punct_pos pu j - 1).
Proof.
  intros Hfit. unfold get_punctured_rate.
  rewrite (foldM_ext _ (λ j output, copy_at (j - 1) (punct_pos pu j - 1) mother output)).
  2: { intros j out Hj%elem_of_seq. by rewrite (proj1 (punct_k_pos pu j ltac:(lia))). }
  destruct (foldM_copy (seq 1 (length output)) (λ j, j - 1) (λ j, punct_pos pu j - 1) mother output)
    as (out & Heq & Hlen & Hin & _).
  - apply NoDup_fmap_2_strong; [|apply NoDup_seq]. intros i j Hi%elem_of_seq Hj%elem_of_seq. lia.
  - intros j Hj%elem_of_seq. pose proof (punct_pos_le pu j (length output) ltac:(lia)).
    pose proof (proj2 (punct_k_pos pu j ltac:(lia))). specialize (Hfit ltac:(lia)). lia.
  - exists out. split_and!; [done..|]. intros j Hj. apply Hin, elem_of_seq. lia.
Qed.

Lemma tetra_rcpc_depunct_spec pu input n output :
  n ≤ length input → (1 ≤ n → punct_pos pu n ≤ length output) →
  ∃ out, tetra_rcpc_depunct pu input n output = Some out ∧ length out = length output ∧
    (∀ j, 1 ≤ j ≤ n → out !! (punct_pos pu j - 1) = input !! (j - 1)) ∧
    (∀ d, (∀ j, 1 ≤ j ≤ n → d ≠ punct_pos pu j - 1) → out !! d = output !! d).
Proof.
  intros Hn Hfit. unfold tetra_rcpc_depunct.
  rewrite (foldM_ext _ (λ j output, copy_at (punct_pos pu j - 1) (j - 1) input output)).
  2: { intros j out Hj%elem_of_seq. by rewrite (proj1 (punct_k_pos pu j ltac:(lia))). }
  destruct (foldM_copy (seq 1 n) (λ j, punct_pos pu j - 1) (λ j, j - 1) input output)
    as (out & Heq & Hlen & Hin & Hout).
  - apply punct_pos_nodup.
  - intros j Hj%elem_of_seq. pose proof (punct_pos_le pu j n ltac:(lia)).
    pose proof (proj2 (punct_k_pos pu j ltac:(lia))). specialize (Hfit ltac:(lia)). lia.
  - exists out. split_and!; [done..| |].
    + intros j Hj. apply Hin, elem_of_seq. lia.
    + intros d Hd. apply Hout. intros (j & -> & Hj%elem_of_seq)%list_elem_of_fmap. apply (Hd j); [lia|done].
Qed.
End punct_spec.

(** * Properties *)

Lemma mother_memcmp_loop_ok mother dp matched :
  length dp = length mother →
  (∀ i x, dp !! i = Some x → x = 0xff%Z ∨ mother !! i = Some x) →
  mother_memcmp_loop mother dp matched = Some (matched + length (filter (λ d, d ≠ 0xff%Z) dp)).
Proof.
  revert mother matched. induction dp as [|d dp IH]; intros [|m mother] matched Hlen Hag; try done.
  { simpl. f_equal. lia. }
  cbn [mother_memcmp_loop]. injection Hlen as Hlen.
  assert (∀ i x, dp !! i = Some x → x = 0xff%Z ∨ mother !! i = Some x) as Hag'.
  { intros i x Hx. apply (Hag (S i) x Hx). }
  rewrite filter_cons. destruct (Z.eqb_spec d 0xff) as [->|Hd].
  - rewrite decide_False by auto. by apply IH.
  - rewrite decide_True by done. destruct (Hag 0 d eq_refl) as [?|[= ->]]; [done|].
    rewrite Z.eqb_refl. cbn [negb]. rewrite IH by done. simpl. f_equal. lia.
Qed.

Lemma length_filter_positions (P : Z → Prop) `{!∀ x, Decision (P x)} (l : list Z) :
  length (filter P l) = length (filter (λ i, P (l !!! i)) (seq 0 (length l))).
Proof.
  assert (∀ (f : nat → Z) k, length (filter P (f <$> k)) = length (filter (λ i, P (f i)) k)) as Hf.
  { intros f k. induction k as [|i k IH]; [done|]. cbn [fmap list_fmap]. rewrite !filter_cons.
    repeat case_decide; simpl; auto. }
  rewrite <-Hf. f_equal. f_equal. apply list_eq. intros i. rewrite list_lookup_fmap.
  destruct (decide (i < length l)) as [Hi|Hi].
  - rewrite lookup_seq_lt by done. simpl. by apply list_lookup_lookup_total_lt.
  - by rewrite !lookup_ge_None_2 by (rewrite ?length_seq; lia).
Qed.

(** For every puncturing mode and every number [n] of transmitted bits, the
    receiver's depunctured block holds the mother-code bit at exactly the [n]
    transmitted positions and an erasure everywhere else; the comparison
    routine finds [n] matching symbols and no mismatch. *)
Theorem depuncture_after_puncture pu mother n :
  1 ≤ n → punct_pos pu n ≤ length mother → Forall (λ b, b ≠ 0xff%Z) mother →
  ∃ type3 dp, get_punctured_rate pu mother (replicate n 0%Z) = Some type3 ∧
    tetra_rcpc_depunct pu type3 n (replicate (length mother) 0xff%Z) = Some dp ∧
    (∀ i, i < length mother →
       if decide (i ∈ ((λ j, punct_pos pu j - 1) <$> seq 1 n)) then dp !! i = mother !! i
       else dp !! i = Some 0xff%Z) ∧
    mother_memcmp mother dp = Some n.
Proof.
  intros Hn Hfit Hm.
  destruct (get_punctured_rate_spec pu mother (replicate n 0%Z)) as (type3 & Heq3 & Hl3 & H3).
  { by rewrite length_replicate. }
  rewrite length_replicate in Hl3, H3.
  destruct (tetra_rcpc_depunct_spec pu type3 n (replicate (length mother) 0xff%Z))
    as (dp & Heqd & Hld & Hin & Hout); [lia|by rewrite length_replicate|].
  rewrite length_replicate in Hld. exists type3, dp.
  assert (∀ i, i < length mother →
    if decide (i ∈ ((λ j, punct_pos pu j - 1) <$> seq 1 n)) then dp !! i = mother !! i
    else dp !! i = Some 0xff%Z) as Hpos.
  { intros i Hi. case_decide as Hin'.
    - apply list_elem_of_fmap in Hin' as (j & -> & Hj%elem_of_seq).
      rewrite Hin, H3 by lia. done.
    - rewrite Hout; [by rewrite lookup_replicate_2|]. intros j Hj ->. apply Hin', list_elem_of_fmap.
      exists j. split; [done|]. apply elem_of_seq. lia. }
  split_and!; [done..|]. unfold mother_memcmp. rewrite mother_memcmp_loop_ok; [|done|].
  - simpl. f_equal. rewrite length_filter_positions.
    transitivity (length ((λ j, punct_pos pu j - 1) <$> seq 1 n)); [|by rewrite length_fmap, length_seq].
    apply Permutation_length, NoDup_Permutation.
    + apply NoDup_filter, NoDup_seq.
    + apply punct_pos_nodup.
    + intros i. rewrite list_elem_of_filter, elem_of_seq, Hld. split.
      * intros [Hne Hi]. specialize (Hpos i ltac:(lia)). case_decide; [done|].
        by rewrite (list_lookup_total_correct _ _ _ Hpos) in Hne.
      * intros Hi. assert (i < length mother) as Hlt.
        { apply list_elem_of_fmap in Hi as (j & -> & Hj%elem_of_seq).
          pose proof (punct_pos_le pu j n ltac:(lia)).
          pose proof (proj2 (punct_k_pos pu j ltac:(lia))). lia. }
        split; [|lia]. specialize (Hpos i Hlt). rewrite decide_True in Hpos by done.
        destruct (lookup_lt_is_Some_2 mother i Hlt) as [x Hx]. rewrite Hx in Hpos.
        rewrite (list_lookup_total_correct _ _ _ Hpos).
        by eapply (Forall_lookup_1 _ _ _ _ Hm).
  - intros i x Hx. pose proof (lookup_lt_Some _ _ _ Hx). specialize (Hpos i ltac:(lia)).
    case_decide; [right|left]; congruence.
Qed.

Lemma depuncture_after_puncture_witness :
  ∃ type3 dp, get_punctured_rate Rate2_3 (replicate 16 1%Z) (replicate 6 0%Z) = Some type3 ∧
    tetra_rcpc_depunct Rate2_3 type3 6 (replicate 16 0xff%Z) = Some dp ∧
    (∀ i, i < 16 →
       if decide (i ∈ ((λ j, punct_pos Rate2_3 j - 1) <$> seq 1 6)) then dp !! i = replicate 16 1%Z !! i
       else dp !! i = Some 0xff%Z) ∧
    mother_memcmp (replicate 16 1%Z) dp = Some 6.
Proof.
  apply (depuncture_after_puncture Rate2_3 (replicate 16 1%Z) 6).
  - lia.
  - apply Nat.leb_le. reflexivity.
  - by repeat constructor.
Defined.
