(* ===== verification/ViterbiSpec.v ===== *)
(** What the Viterbi decoder computes.

    A path of the trellis is a start state and a list of input bits.  Its metric
    is minus the correlation of its code symbols with the received soft bits.
    The forward pass keeps, per state, the least metric of a path that ends
    there, and the decision bitmaps lead back along such a path
    ([forward_pass_spec]); hence the decoder returns a maximum-likelihood input
    that starts and ends in state 0, and the transmitted one when no received
    symbol contradicts it.

    lmac/components/viterbi.rs: the Viterbi decoder for the constraint-length 5
    codes of convenc.rs.

    Soft bits ([i8]) and metrics ([i16]) are [Z] with the wrap-around of their
    width written out ([swrap]); states are [nat] below [NUM_STATES].  Metric
    arrays have length [NUM_STATES] throughout, so their accesses are total
    lookups.

    The convolutional encoders of convenc.rs against the Viterbi decoder of
    viterbi.rs: the tables of the decoder describe the encoders, and decoding
    recovers the encoder's input from any reception in which every trellis step
    has at least one symbol left and no symbol is wrong. *)
From S2P Require Import Prelude Bits Arrays ConvEnc.

(** * Definitions *)

Definition K : nat := 5.
Definition num_states (k : nat) : nat := 2 ^ (k - 1).
Definition NUM_STATES : nat := num_states K.
Definition METRIC_MAX : Z := 32767.

(** [expected_0[poly]]: the [from_fn] over the states. *)
Definition expected_bit (poly : list bool) (state : nat) : Z :=
  let encoder_output := foldl (λ encoder_output bit_i,
    let past_input_bit := negb (Nat.land state (2 ^ (K - 2 - bit_i)) =? 0) in
    if past_input_bit && (poly !!! bit_i) then negb encoder_output else encoder_output)
    false (seq 0 (K - 1)) in
  if encoder_output then 1%Z else (-1)%Z.

(** [ViterbiDecoder<N>] is its table of expected outputs, one row per polynomial. *)
Definition new_with_polynomials (generator_polynomials : list (list bool)) : list (list Z) :=
  (λ poly, expected_bit poly <$> seq 0 NUM_STATES) <$> generator_polynomials.

(** [received_bits.chunks_exact(n)]; [fuel] bounds the number of chunks. *)
Fixpoint chunks_exact (fuel n : nat) (l : list Z) : list (list Z) :=
  match fuel with
  | O => []
  | S fuel => if n <=? length l then take n l :: chunks_exact fuel n (drop n l) else []
  end.

Definition branch_metrics_0 (expected_0 : list (list Z)) (received : list Z) : list Z :=
  foldl (λ bm '(received_bit, row),
    zip_with (λ branch_metric expected_bit,
      swrap 16 (branch_metric - swrap 8 (received_bit * expected_bit))) bm row)
    (replicate NUM_STATES 0%Z) (zip received expected_0).

(** The candidates for the new metric of a state. *)
Definition metric_0 (metrics branch : list Z) (state : nat) : Z :=
  swrap 16 (metrics !!! ((state * 2) mod NUM_STATES) + branch !!! state).
Definition metric_1 (metrics branch : list Z) (state : nat) : Z :=
  swrap 16 (metrics !!! ((state * 2) mod NUM_STATES + 1) - branch !!! state).

(** One received symbol group: the new metrics and the decision bitmap. *)
Definition viterbi_step (expected_0 : list (list Z)) (metrics : list Z) (received : list Z) : list Z * Z :=
  let branch := branch_metrics_0 expected_0 received in
  let take_1 state := (metric_1 metrics branch state <? metric_0 metrics branch state)%Z in
  ((λ state, if take_1 state then metric_1 metrics branch state else metric_0 metrics branch state)
     <$> seq 0 NUM_STATES,
   foldl (λ decisions state,
     if take_1 state then Z.lor decisions (wrap 16 (Z.shiftl 1 (Z.of_nat state))) else decisions)
     0%Z (seq 0 NUM_STATES)).

Definition initial_metrics : list Z := 0%Z :: replicate (NUM_STATES - 1) (METRIC_MAX / 2)%Z.

Fixpoint forward_pass (expected_0 : list (list Z)) (metrics : list Z) (chunks : list (list Z))
    {struct chunks} : list Z * list Z :=
  match chunks with
  | [] => (metrics, [])
  | received :: chunks =>
      let '(metrics, decisions) := viterbi_step expected_0 metrics received in
      let '(metrics, trellis) := forward_pass expected_0 metrics chunks in
      (metrics, decisions :: trellis)
  end.

(** The loop over [trellis_decisions.iter().rev()]; the bits in the order pushed. *)
Fixpoint traceback (rev_decisions : list Z) (best_state : nat) : list Z :=
  match rev_decisions with
  | [] => []
  | decisions :: rest =>
      Z.of_nat (Nat.land (Nat.shiftr best_state (K - 2)) 1) ::
      traceback rest ((best_state * 2) mod NUM_STATES +
                      Z.to_nat (Z.land (Z.shiftr decisions (Z.of_nat best_state)) 1))
  end.

Definition decode (expected_0 : list (list Z)) (received_bits : list Z) : list Z :=
  let n := length expected_0 in
  let '(_, trellis_decisions) :=
    forward_pass expected_0 initial_metrics (chunks_exact (length received_bits) n received_bits) in
  reverse (traceback (reverse trellis_decisions) 0).

Definition cch_polynomials : list (list bool) :=
  [[true; true; false; false; true]; [true; false; true; true; true];
   [true; true; true; false; true]; [true; true; false; true; true]].
Definition TetraViterbiDecoder_new : list (list Z) := new_with_polynomials cch_polynomials.

Definition speech_polynomials : list (list bool) :=
  [[true; true; true; true; true]; [true; true; false; true; true]; [true; false; true; false; true]].
Definition TetraCodecViterbiDecoder_new : list (list Z) := new_with_polynomials speech_polynomials.

(** The conversion to soft bits; anything but 0 and 1 is an erasure. *)
Definition soft_bit (b : Z) : Z :=
  if (b =? 0x00)%Z then (-1)%Z else if (b =? 0x01)%Z then 1%Z else 0%Z.

Definition dec_sb1 (in_buf out_buf : list Z) (sym_count : nat) : option (list Z) :=
  if (sym_count <=? 864) && (sym_count * 4 <=? length in_buf) && (sym_count <=? length out_buf) then
    let soft := soft_bit <$> take (sym_count * 4) in_buf in
    let decoded := decode TetraViterbiDecoder_new soft in
    if sym_count <=? length decoded then Some (take sym_count decoded ++ drop sym_count out_buf) else None
  else None.

(** A row of the table of expected outputs. *)
Definition good_row (row : list Z) : Prop :=
  length row = NUM_STATES ∧ Forall (λ e, e = 1%Z ∨ e = (-1)%Z) row.

Section decoder.
Context (exp : list (list Z)) (Hrows : Forall good_row exp).

(** * Paths *)

Definition next_state (s : nat) (u : bool) : nat := s / 2 + 8 * Nat.b2n u.

Fixpoint corr (rows : list (list Z)) (r : list Z) (s : nat) : Z :=
  match r, rows with
  | x :: r, row :: rows => x * (row !!! s) + corr rows r s
  | _, _ => 0
  end%Z.

(** The metric of the transition from [s] with input [u]. *)
Definition cost (r : list Z) (s : nat) (u : bool) : Z :=
  let c := corr exp r (next_state s u) in if Nat.odd s then c else (- c)%Z.

Fixpoint path_end (us : list bool) (s : nat) : nat :=
  match us with [] => s | u :: us => path_end us (next_state s u) end.

Fixpoint path_metric (chunks : list (list Z)) (us : list bool) (s : nat) : Z :=
  match chunks, us with
  | r :: chunks, u :: us => cost r s u + path_metric chunks us (next_state s u)
  | _, _ => 0
  end%Z.

Definition weight (r : list Z) : Z := foldr (λ x a, Z.abs x + a)%Z 0%Z r.
Definition total_weight (chunks : list (list Z)) : Z := foldr (λ r a, weight r + a)%Z 0%Z chunks.

Lemma weight_nonneg r : (0 ≤ weight r)%Z.
Proof. induction r; simpl; lia. Qed.
Lemma total_weight_nonneg l : (0 ≤ total_weight l)%Z.
Proof. induction l as [|r l IH]; simpl; [lia|]. pose proof (weight_nonneg r). lia. Qed.
Lemma total_weight_app l k : total_weight (l ++ k) = (total_weight l + total_weight k)%Z.
Proof. induction l as [|r l IH]; simpl; [done|]. lia. Qed.

Lemma path_end_app us vs s : path_end (us ++ vs) s = path_end vs (path_end us s).
Proof. revert s. induction us as [|u us IH]; intros s; [done|]. apply IH. Qed.

Lemma path_metric_app l k us vs s : length us = length l →
  path_metric (l ++ k) (us ++ vs) s =
    (path_metric l us s + path_metric k vs (path_end us s))%Z.
Proof.
  revert us s. induction l as [|r l IH]; intros [|u us] s Hlen; try done.
  simpl. injection Hlen as Hlen. rewrite IH by done. lia.
Qed.

Lemma next_state_lt s u : s < 16 → next_state s u < 16.
Proof. intros. unfold next_state. pose proof (Nat.Div0.div_lt_upper_bound s 2 8 ltac:(lia)). destruct u; cbn [Nat.b2n]; lia. Qed.

Lemma path_end_lt us s : s < 16 → path_end us s < 16.
Proof. revert s. induction us as [|u us IH]; intros s Hs; [done|]. by apply IH, next_state_lt. Qed.

(** The two predecessors of a state. *)
Definition pred_state (s : nat) (c : bool) : nat := (s * 2) mod NUM_STATES + Nat.b2n c.

Lemma next_pred s c : s < 16 → next_state (pred_state s c) (8 <=? s)%nat = s ∧ pred_state s c < 16 ∧
  Nat.odd (pred_state s c) = c.
Proof.
  intros Hs. do 16 (destruct s as [|s]; [destruct c; cbv; split_and!; lia || done|]). lia.
Qed.

Lemma pred_next s u : s < 16 → pred_state (next_state s u) (Nat.odd s) = s ∧
  (8 <=? next_state s u) = u.
Proof.
  intros Hs. do 16 (destruct s as [|s]; [by destruct u|]). lia.
Qed.

(** * Branch metrics *)

Lemma row_entry row s : good_row row → s < 16 → (row !!! s = 1 ∨ row !!! s = -1)%Z.
Proof.
  intros [Hl Hrow] Hs. destruct (lookup_lt_is_Some_2 row s) as [e He]; [by rewrite Hl|].
  rewrite (list_lookup_total_correct _ _ _ He). by eapply (Forall_lookup_1 _ _ _ _ Hrow).
Qed.

Lemma corr_bound rows r s : Forall good_row rows → s < 16 →
  (- weight r ≤ corr rows r s ≤ weight r)%Z.
Proof.
  intros Hr Hs. revert r. induction Hr as [|row rows Hrow Hr IH]; intros [|x r]; simpl; try lia.
  - pose proof (weight_nonneg r). lia.
  - specialize (IH r). destruct (row_entry row s Hrow Hs) as [-> | ->]; lia.
Qed.

Lemma lookup_total_zip_with (f : Z → Z → Z) (l k : list Z) i : i < length l → i < length k →
  zip_with f l k !!! i = f (l !!! i) (k !!! i).
Proof.
  intros Hl Hk. destruct (lookup_lt_is_Some_2 l i Hl) as [x Hx].
  destruct (lookup_lt_is_Some_2 k i Hk) as [y Hy].
  rewrite (list_lookup_total_correct _ _ _ Hx), (list_lookup_total_correct _ _ _ Hy).
  apply list_lookup_total_correct. by rewrite lookup_zip_with, Hx, Hy.
Qed.

(** Soft bits for which the [i8] product does not overflow. *)
Definition soft_ok (r : list Z) : Prop := Forall (λ x, - 127 ≤ x ≤ 127)%Z r.

Lemma branch_loop_ok rows r bm b : Forall good_row rows → soft_ok r →
  length bm = NUM_STATES → (∀ s, s < 16 → (- b ≤ bm !!! s ≤ b)%Z) → (b + weight r < 2 ^ 15)%Z →
  let out := foldl (λ bm '(received_bit, row), zip_with (λ branch_metric expected_bit,
    swrap 16 (branch_metric - swrap 8 (received_bit * expected_bit))) bm row) bm (zip r rows) in
  length out = NUM_STATES ∧ ∀ s, s < 16 → (out !!! s = bm !!! s - corr rows r s)%Z.
Proof.
  intros Hr. revert r bm b. induction Hr as [|row rows Hrow Hr IH]; intros [|x r] bm b Hsoft Hlen Hb Hw;
    try (split; [done|]; intros; simpl; lia).
  cbn [zip zip_with foldl corr]. inversion Hsoft as [|? ? Hx Hsoft']; subst. cbn [weight foldr] in Hw.
  change (foldr _ 0%Z r) with (weight r) in Hw. pose proof (weight_nonneg r).
  set (bm' := zip_with _ bm row).
  assert (∀ s, s < 16 → (bm' !!! s = bm !!! s - x * row !!! s)%Z) as Hbm'.
  { intros s Hs. unfold bm'. rewrite lookup_total_zip_with; [|by rewrite Hlen|by rewrite (proj1 Hrow)].
    specialize (Hb s Hs). destruct (row_entry row s Hrow Hs) as [-> | ->].
    - rewrite (swrap_small 8) by lia. rewrite swrap_small by lia. done.
    - rewrite (swrap_small 8) by lia. rewrite swrap_small by lia. done. }
  destruct (IH r bm' (b + Z.abs x)%Z) as [Hl Hout]; [done| | |lia|].
  - unfold bm'. rewrite length_zip_with, Hlen, (proj1 Hrow). apply Nat.min_id.
  - intros s Hs. rewrite Hbm' by done. specialize (Hb s Hs).
    destruct (row_entry row s Hrow Hs) as [-> | ->]; lia.
  - split; [done|]. intros s Hs. rewrite Hout, Hbm' by done. lia.
Qed.

Lemma branch_metrics_ok r : soft_ok r → (weight r < 2 ^ 15)%Z →
  ∀ s, s < 16 → branch_metrics_0 exp r !!! s = (- corr exp r s)%Z.
Proof using Hrows.
  intros Hsoft Hw s Hs. destruct (branch_loop_ok exp r (replicate NUM_STATES 0%Z) 0) as [_ Hout]; [done..| | |].
  - intros s' Hs'. rewrite lookup_total_replicate_2 by done. lia.
  - lia.
  - unfold branch_metrics_0. rewrite Hout by done. rewrite lookup_total_replicate_2 by done. lia.
Qed.

Lemma cost_bound r s u : s < 16 → (- weight r ≤ cost r s u ≤ weight r)%Z.
Proof using Hrows.
  intros Hs. unfold cost. pose proof (corr_bound exp r _ Hrows (next_state_lt s u Hs)).
  destruct (Nat.odd s); lia.
Qed.

Lemma path_metric_bound chunks us s : s < 16 →
  (- total_weight chunks ≤ path_metric chunks us s ≤ total_weight chunks)%Z.
Proof using Hrows.
  revert us s. induction chunks as [|r chunks IH]; intros us s Hs; [done|].
  destruct us as [|u us]; cbn [path_metric].
  - pose proof (total_weight_nonneg (r :: chunks)). lia.
  - specialize (IH us _ (next_state_lt s u Hs)). pose proof (cost_bound r s u Hs).
    cbn [total_weight foldr]. unfold total_weight in IH. lia.
Qed.

(** * One step of the forward pass *)

Lemma viterbi_step_ok m r bnd : length m = 16 → soft_ok r →
  (∀ s, s < 16 → (- bnd ≤ m !!! s ≤ bnd)%Z) → (bnd + weight r < 2 ^ 15)%Z →
  ∃ m' dec, viterbi_step exp m r = (m', dec) ∧ length m' = 16 ∧
    (∀ s, s < 16 → (- (bnd + weight r) ≤ m' !!! s ≤ bnd + weight r)%Z) ∧
    (∀ s u, s < 16 → (m' !!! (next_state s u) ≤ m !!! s + cost r s u)%Z) ∧
    (∀ s, s < 16 → ∃ c, Z.to_nat (Z.land (Z.shiftr dec (Z.of_nat s)) 1) = Nat.b2n c ∧
       (m' !!! s = m !!! pred_state s c + cost r (pred_state s c) (8 <=? s)%nat)%Z).
Proof using Hrows.
  intros Hlen Hsoft Hb Hw. unfold viterbi_step. cbv zeta.
  set (br := branch_metrics_0 exp r). pose proof (weight_nonneg r) as Hwn.
  assert (0 ≤ bnd)%Z as Hb0 by (specialize (Hb 0 ltac:(lia)); lia).
  assert (∀ s, s < 16 → (br !!! s = - corr exp r s ∧ - weight r ≤ corr exp r s ≤ weight r)%Z) as Hbr.
  { intros s Hs. split; [apply branch_metrics_ok; [done|lia|done]|by apply corr_bound]. }
  assert (∀ s c, s < 16 → (m !!! pred_state s c + cost r (pred_state s c) (8 <=? s)%nat =
      if c then metric_1 m br s else metric_0 m br s)%Z ∧
      (- (bnd + weight r) ≤ (if c then metric_1 m br s else metric_0 m br s) ≤ bnd + weight r)%Z) as Hcand.
  { intros s c Hs. destruct (next_pred s c Hs) as (Hn & Hp & Ho). destruct (Hbr s Hs) as [Hbs Hcs].
    unfold cost. rewrite Hn, Ho. unfold metric_0, metric_1. rewrite Hbs.
    specialize (Hb _ Hp). unfold pred_state in *. destruct c; cbn [Nat.b2n] in *;
      rewrite ?Nat.add_0_r in *; rewrite swrap_small; lia. }
  eexists _, _. split; [done|].
  assert (∀ s (f : nat → Z), s < 16 → (f <$> seq 0 NUM_STATES) !!! s = f s) as Hmap.
  { intros s f Hs. apply list_lookup_total_correct. rewrite list_lookup_fmap, lookup_seq_lt by done. done. }
  split_and!; [done| | |].
  - intros s Hs. rewrite Hmap by done. destruct (Hcand s true Hs) as [_ H1], (Hcand s false Hs) as [_ H0].
    case_match; lia.
  - intros s u Hs. destruct (pred_next s u Hs) as [Hp Hu]. pose proof (next_state_lt s u Hs) as Hn.
    destruct (Hcand (next_state s u) (Nat.odd s) Hn) as [Hc _]. rewrite Hp, Hu in Hc.
    rewrite Hmap by done. rewrite Hc. generalize (metric_0 m br (next_state s u)), (metric_1 m br (next_state s u)).
    intros m0 m1. destruct (Z.ltb_spec m1 m0), (Nat.odd s); lia.
  - intros s Hs. exists (metric_1 m br s <? metric_0 m br s)%Z. split.
    + assert (∀ z, Z.to_nat (Z.land (Z.shiftr z (Z.of_nat s)) 1) = Nat.b2n (Z.testbit z (Z.of_nat s))) as ->.
      { intros z. change 1%Z with (Z.ones 1). rewrite Z.land_ones, <-Z.bit0_mod, Z.shiftr_spec by lia.
        rewrite Z.add_0_l. by destruct (Z.testbit z _). }
      rewrite (lor_loop_testbit (λ s, metric_1 m br s <? metric_0 m br s)%Z 16) by lia.
      rewrite decide_True by lia. by rewrite Nat2Z.id.
    + rewrite Hmap by done. destruct (Hcand s (metric_1 m br s <? metric_0 m br s)%Z Hs) as [-> _]. done.
Qed.

(** * The forward pass and the traceback *)

Lemma forward_pass_snoc m chunks r :
  forward_pass exp m (chunks ++ [r]) =
    let '(m1, decs) := forward_pass exp m chunks in
    let '(m2, dec) := viterbi_step exp m1 r in (m2, decs ++ [dec]).
Proof.
  revert m. induction chunks as [|r' chunks IH]; intros m; cbn [forward_pass app].
  - by destruct (viterbi_step exp m r).
  - destruct (viterbi_step exp m r') as [m1 dec]. rewrite IH.
    destruct (forward_pass exp m1 chunks) as [m2 decs]. by destruct (viterbi_step exp m2 r).
Qed.

Lemma state_bit s : s < 16 → Z.of_nat (Nat.land (Nat.shiftr s (K - 2)) 1) = Z.b2z (8 <=? s).
Proof. intros Hs. do 16 (destruct s as [|s]; [done|]). lia. Qed.

Lemma forward_pass_spec m chunks bnd : length m = 16 → Forall soft_ok chunks →
  (∀ s, s < 16 → (- bnd ≤ m !!! s ≤ bnd)%Z) → (bnd + total_weight chunks < 2 ^ 15)%Z →
  ∃ m' decs, forward_pass exp m chunks = (m', decs) ∧ length m' = 16 ∧ length decs = length chunks ∧
    (∀ s, s < 16 → (- (bnd + total_weight chunks) ≤ m' !!! s ≤ bnd + total_weight chunks)%Z) ∧
    (∀ s us, s < 16 → length us = length chunks →
       (m' !!! path_end us s ≤ m !!! s + path_metric chunks us s)%Z) ∧
    (∀ s, s < 16 → ∃ s0 us, s0 < 16 ∧ length us = length chunks ∧ path_end us s0 = s ∧
       (m' !!! s = m !!! s0 + path_metric chunks us s0)%Z ∧
       traceback (reverse decs) s = reverse (bitarr us)).
Proof using Hrows.
  intros Hlen. induction chunks as [|r chunks IH] using rev_ind; intros Hsoft Hb Hw.
  { exists m, []. cbn [forward_pass total_weight foldr length] in *. split_and!; try done.
    - intros s Hs. specialize (Hb s Hs). lia.
    - intros s [|] Hs Hus; [|done]. simpl. lia.
    - intros s Hs. exists s, []. simpl. split_and!; try done. lia. }
  apply Forall_app in Hsoft as [Hsoft [Hr _]%Forall_cons].
  rewrite total_weight_app in *. cbn [total_weight foldr] in Hw |- *.
  pose proof (weight_nonneg r). rewrite Z.add_0_r in *.
  destruct IH as (m1 & decs & Heq1 & Hl1 & Hd1 & Hb1 & Hopt1 & Hatt1); [done|done|lia|].
  destruct (viterbi_step_ok m1 r (bnd + total_weight chunks)) as (m2 & dec & Heq2 & Hl2 & Hb2 & Hopt2 & Hatt2);
    [done|done|done|lia|].
  exists m2, (decs ++ [dec]). rewrite forward_pass_snoc, Heq1, Heq2, !length_app, Hd1. cbn [length].
  split_and!; [done..| | |].
  - intros s Hs. specialize (Hb2 s Hs). lia.
  - intros s us Hs Hus. destruct us as [|u us _] using rev_ind; [simpl in Hus; lia|].
    rewrite length_app in Hus. simpl in Hus. assert (length us = length chunks) as Hus' by lia.
    rewrite path_end_app, path_metric_app by done. cbn [path_end path_metric].
    specialize (Hopt1 s us Hs Hus'). specialize (Hopt2 (path_end us s) u (path_end_lt us s Hs)). lia.
  - intros s Hs. destruct (Hatt2 s Hs) as (c & Hc & Hm). destruct (next_pred s c Hs) as (Hn & Hp & _).
    destruct (Hatt1 _ Hp) as (s0 & us & Hs0 & Hus & Hend & Hm1 & Htb).
    exists s0, (us ++ [8 <=? s]). rewrite length_app, path_end_app, path_metric_app, Hend by done.
    cbn [length path_end path_metric]. split_and!; [done|lia|done|lia|].
    rewrite reverse_snoc. cbn [traceback]. rewrite state_bit, Hc by done.
    change ((s * 2) mod NUM_STATES + Nat.b2n c) with (pred_state s c). rewrite Htb.
    rewrite bitarr_app. change (bitarr [8 <=? s]) with [Z.b2z (8 <=? s)]. by rewrite reverse_snoc.
Qed.

(** * Paths without contradicted symbols are unique *)

Lemma exact_path_unique chunks us vs s s' : s < 16 → s' < 16 →
  Forall (λ r, 0 < weight r)%Z chunks → length us = length chunks → length vs = length chunks →
  path_end us s = path_end vs s' →
  path_metric chunks us s = (- total_weight chunks)%Z →
  path_metric chunks vs s' = (- total_weight chunks)%Z → us = vs.
Proof using Hrows.
  revert us vs. induction chunks as [|r chunks IH] using rev_ind;
    intros us vs Hs Hs' Hpos Hus Hvs Hend Hmu Hmv.
  { by destruct us, vs. }
  rewrite length_app in Hus, Hvs. simpl in Hus, Hvs.
  destruct us as [|u us _] using rev_ind; [simpl in Hus; lia|].
  destruct vs as [|v vs _] using rev_ind; [simpl in Hvs; lia|].
  rewrite length_app in Hus, Hvs. simpl in Hus, Hvs.
  rewrite !path_end_app in Hend. cbn [path_end] in Hend.
  rewrite path_metric_app, total_weight_app in Hmu, Hmv by lia. cbn [path_metric total_weight foldr] in Hmu, Hmv.
  apply Forall_app in Hpos as [Hpos [Hr _]%Forall_cons].
  pose proof (path_end_lt us s Hs) as H1. pose proof (path_end_lt vs s' Hs') as H2.
  pose proof (path_metric_bound chunks us s Hs). pose proof (path_metric_bound chunks vs s' Hs').
  pose proof (cost_bound r _ u H1) as Hc1. pose proof (cost_bound r _ v H2) as Hc2.
  assert (cost r (path_end us s) u = - weight r)%Z as Hcu by lia.
  assert (cost r (path_end vs s') v = - weight r)%Z as Hcv by lia.
  destruct (pred_next _ u H1) as [Hp1 Hu1]. destruct (pred_next _ v H2) as [Hp2 Hv2].
  assert (u = v) as <- by (rewrite <-Hu1, <-Hv2; by rewrite Hend).
  assert (path_end us s = path_end vs s') as Hmid.
  { rewrite <-Hp1, <-Hp2, Hend. f_equal. unfold cost in Hcu, Hcv. rewrite Hend in Hcu.
    destruct (Nat.odd _), (Nat.odd _); done || lia. }
  f_equal. apply IH; lia || done.
Qed.

(** * The decoder *)

Lemma chunks_exact_concat fuel n chunks : Forall (λ r, length r = n) chunks → 0 < n →
  length chunks ≤ fuel → chunks_exact fuel n (concat chunks) = chunks.
Proof.
  intros Hc Hn. revert fuel. induction Hc as [|r chunks Hr Hc IH]; intros fuel Hf.
  { destruct fuel; [done|]. simpl. destruct (Nat.leb_spec n 0); [lia|done]. }
  destruct fuel as [|fuel]; simpl in Hf; [lia|]. cbn [chunks_exact concat].
  rewrite length_app. destruct (Nat.leb_spec n (length r + length (concat chunks))); [|lia].
  rewrite take_app_length', drop_app_length' by lia. f_equal. apply IH. lia.
Qed.

Lemma path_end_zeroes n : path_end (replicate n false) 0 = 0.
Proof. by induction n. Qed.

Lemma initial_metrics_lookup s : s < 16 → initial_metrics !!! s = if decide (s = 0) then 0%Z else 16383%Z.
Proof. intros Hs. do 16 (destruct s as [|s]; [done|]). lia. Qed.

Lemma decode_ml chunks : 0 < length exp → Forall (λ r, length r = length exp) chunks →
  Forall soft_ok chunks → (2 * total_weight chunks < METRIC_MAX / 2)%Z →
  ∃ us, decode exp (concat chunks) = bitarr us ∧ length us = length chunks ∧ path_end us 0 = 0 ∧
    ∀ vs, length vs = length chunks → path_end vs 0 = 0 →
      (path_metric chunks us 0 ≤ path_metric chunks vs 0)%Z.
Proof using Hrows.
  intros Hn Hc Hsoft Hw. change (METRIC_MAX / 2)%Z with 16383%Z in Hw.
  destruct (forward_pass_spec initial_metrics chunks 16383) as (m & decs & Heq & _ & _ & _ & Hopt & Hatt);
    [done|done| |lia|].
  { intros s Hs. rewrite initial_metrics_lookup by done. case_decide; lia. }
  destruct (Hatt 0 ltac:(lia)) as (s0 & us & Hs0 & Hus & Hend & Hm & Htb).
  pose proof (path_metric_bound chunks us s0 Hs0).
  assert (s0 = 0) as ->.
  { destruct (decide (s0 = 0)); [done|]. rewrite (initial_metrics_lookup s0), decide_False in Hm by done.
    specialize (Hopt 0 (replicate (length chunks) false) ltac:(lia)).
    rewrite length_replicate, path_end_zeroes in Hopt. specialize (Hopt eq_refl).
    pose proof (path_metric_bound chunks (replicate (length chunks) false) 0 ltac:(lia)).
    rewrite (initial_metrics_lookup 0), decide_True in Hopt by lia. lia. }
  exists us. split_and!; [|done|done|].
  - unfold decode. rewrite chunks_exact_concat; [|done|done|].
    + by rewrite Heq, Htb, reverse_involutive.
    + clear -Hc Hn. induction Hc as [|r chunks Hr Hc IH]; [done|]. simpl. rewrite length_app. lia.
  - intros vs Hvs Hve. specialize (Hopt 0 vs ltac:(lia) Hvs). rewrite Hve in Hopt. lia.
Qed.

Lemma decode_exact chunks us : 0 < length exp → Forall (λ r, length r = length exp) chunks →
  Forall soft_ok chunks → (2 * total_weight chunks < METRIC_MAX / 2)%Z →
  Forall (λ r, 0 < weight r)%Z chunks → length us = length chunks → path_end us 0 = 0 →
  path_metric chunks us 0 = (- total_weight chunks)%Z →
  decode exp (concat chunks) = bitarr us.
Proof using Hrows.
  intros Hn Hc Hsoft Hw Hpos Hus Hend Hm.
  destruct (decode_ml chunks) as (vs & -> & Hvs & Hve & Hbest); [done..|].
  f_equal. apply (exact_path_unique chunks vs us 0 0); try done; try lia.
  specialize (Hbest us Hus Hend). pose proof (path_metric_bound chunks vs 0 ltac:(lia)). lia.
Qed.
End decoder.

(** * Properties *)

Lemma good_rows_new polys : Forall good_row (new_with_polynomials polys).
Proof.
  unfold new_with_polynomials. apply Forall_fmap, Forall_true. intros poly. split.
  - by rewrite length_fmap, length_seq.
  - apply Forall_fmap, Forall_true. intros s. unfold expected_bit. simpl. case_match; auto.
Qed.

(** C2: maximum likelihood.  For any generator polynomials and any received soft
    bits (weak enough in total for the 16-bit metrics), the decoder returns an
    input sequence that takes the encoder from state 0 back to state 0, and no
    other such sequence of that length correlates better with what was received. *)
Theorem viterbi_maximum_likelihood polys chunks :
  0 < length polys → Forall (λ r, length r = length polys) chunks → Forall soft_ok chunks →
  (2 * total_weight chunks < METRIC_MAX / 2)%Z →
  let exp := new_with_polynomials polys in
  ∃ us, decode exp (concat chunks) = bitarr us ∧ length us = length chunks ∧ path_end us 0 = 0 ∧
    ∀ vs, length vs = length chunks → path_end vs 0 = 0 →
      (path_metric exp chunks us 0 ≤ path_metric exp chunks vs 0)%Z.
Proof.
  intros Hn Hc Hsoft Hw exp. assert (length exp = length polys) as Hl by apply length_fmap.
  apply decode_ml; [apply good_rows_new| | |done..]; by rewrite Hl.
Qed.

Lemma viterbi_maximum_likelihood_witness :
  let exp := new_with_polynomials speech_polynomials in
  let chunks := [[1; 1; -1]; [1; 0; 0]; [-1; 1; 1]; [0; -1; 1]; [1; 1; 1]; [0; 0; -1]]%Z in
  ∃ us, decode exp (concat chunks) = bitarr us ∧ length us = length chunks ∧ path_end us 0 = 0 ∧
    ∀ vs, length vs = length chunks → path_end vs 0 = 0 →
      (path_metric exp chunks us 0 ≤ path_metric exp chunks vs 0)%Z.
Proof.
  apply (viterbi_maximum_likelihood speech_polynomials); [simpl; lia|by repeat constructor| |reflexivity].
  repeat constructor; lia.
Defined.

(** The shift register in the decoder's numbering of the states. *)
Definition st_of (s : nat) : ConvEncState :=
  mkConvEnc (Z.b2z (Nat.testbit s 3)) (Z.b2z (Nat.testbit s 2)) (Z.b2z (Nat.testbit s 1))
    (Z.b2z (Nat.testbit s 0)).

(** The soft symbol the decoder expects from row [row] on the transition [s], [u]. *)
Definition expected_soft (s : nat) (u : bool) (row : list Z) : Z :=
  ((if Nat.odd s then -1 else 1) * row !!! next_state s u)%Z.

(** The encoder step [f] and the table [exp] agree. *)
Definition table_matches (f : ConvEncState → Z → list Z * ConvEncState) (exp : list (list Z)) : Prop :=
  ∀ s u, s < 16 →
    (f (st_of s) (Z.b2z u)).2 = st_of (next_state s u) ∧
    soft_bit <$> (f (st_of s) (Z.b2z u)).1 = expected_soft s u <$> exp ∧
    Forall (λ g, g = 0%Z ∨ g = 1%Z) (f (st_of s) (Z.b2z u)).1.

Lemma cch_table_matches :
  table_matches (λ st bit, (encode_bit st bit).1) TetraViterbiDecoder_new.
Proof.
  intros s u Hs.
  do 16 (destruct s as [|s]; [destruct u; (split_and!; [reflexivity|reflexivity|]);
    cbv; repeat (apply Forall_cons; split; [by auto|]); by constructor|]).
  lia.
Qed.

Lemma speech_table_matches : table_matches speech_encode_bit TetraCodecViterbiDecoder_new.
Proof.
  intros s u Hs.
  do 16 (destruct s as [|s]; [destruct u; (split_and!; [reflexivity|reflexivity|]);
    cbv; repeat (apply Forall_cons; split; [by auto|]); by constructor|]).
  lia.
Qed.

(** A received symbol: the transmitted one, or an erasure. *)
Definition received_ok (d m : Z) : Prop := d = m ∨ d = 0xff%Z.

(** A group of received symbols that is not completely erased. *)
Definition some_symbol (ds : list Z) : Prop := Exists (λ d, d ≠ 0xff%Z) ds.

Section link.
Context (f : ConvEncState → Z → list Z * ConvEncState) (exp : list (list Z)).
Context (Hmatch : table_matches f exp) (Hrows : Forall good_row exp).

Lemma corr_exact rows r s u : Forall good_row rows → s < 16 →
  Forall2 (λ x g, x = 0%Z ∨ x = g) r (expected_soft s u <$> rows) →
  (if Nat.odd s then corr rows r (next_state s u) else - corr rows r (next_state s u))%Z =
    (- weight r)%Z.
Proof.
  intros Hr Hs. revert r. induction Hr as [|row rows Hrow Hr IH]; intros r Hr2.
  { apply Forall2_nil_inv_r in Hr2 as ->. simpl. by destruct (Nat.odd s). }
  apply Forall2_cons_inv_r in Hr2 as (x & r' & Hx & Hr2 & ->). specialize (IH r' Hr2).
  cbn [corr weight foldr]. change (foldr _ 0%Z r') with (weight r').
  destruct (row_entry row _ Hrow (next_state_lt s u Hs)) as [He|He]; rewrite He;
    unfold expected_soft in Hx; rewrite He in Hx; destruct (Nat.odd s); lia.
Qed.

Lemma soft_received d m : received_ok d m → (m = 0 ∨ m = 1)%Z →
  (soft_bit d = 0 ∨ soft_bit d = soft_bit m)%Z.
Proof. intros [-> | ->] _; [by right|by left]. Qed.

Lemma cost_exact s u ds : s < 16 → Forall2 received_ok ds (f (st_of s) (Z.b2z u)).1 →
  cost exp (soft_bit <$> ds) s u = (- weight (soft_bit <$> ds))%Z.
Proof using Hmatch Hrows.
  intros Hs Hds. destruct (Hmatch s u Hs) as (_ & Hg & H01). unfold cost.
  apply corr_exact; [done..|]. rewrite <-Hg. apply Forall2_fmap.
  clear -Hds H01. induction Hds as [|d m ds ms Hdm Hds IH]; [constructor|].
  inversion H01; subst. constructor; [by apply soft_received|auto].
Qed.

Lemma weight_soft_pos ds ms : Forall2 received_ok ds ms → Forall (λ g, g = 0%Z ∨ g = 1%Z) ms →
  some_symbol ds → (0 < weight (soft_bit <$> ds))%Z.
Proof.
  intros Hds H01 Hex. induction Hds as [|d m ds ms Hdm Hds IH]; [by inversion Hex|].
  inversion H01 as [|? ? Hm H01']; subst. cbn [fmap list_fmap weight foldr].
  change (foldr _ 0%Z _) with (weight (soft_bit <$> ds)). pose proof (weight_nonneg (soft_bit <$> ds)).
  inversion Hex as [? ? Hd|? ? Hex']; subst; [|specialize (IH H01' Hex'); lia].
  destruct Hdm as [-> | ?]; [|done]. destruct Hm as [-> | ->];
    [change (Z.abs (soft_bit 0)) with 1%Z|change (Z.abs (soft_bit 1)) with 1%Z]; lia.
Qed.

Lemma weight_soft_le ds : (weight (soft_bit <$> ds) ≤ Z.of_nat (length ds))%Z.
Proof.
  induction ds as [|d ds IH]; [done|]. cbn [fmap list_fmap weight foldr length].
  change (foldr _ 0%Z _) with (weight (soft_bit <$> ds)).
  assert (Z.abs (soft_bit d) ≤ 1)%Z by (unfold soft_bit; repeat case_match; lia). lia.
Qed.

(** A reception [dss], in groups, of the output for [us] from state [s]. *)
Inductive reception : nat → list bool → list (list Z) → Prop :=
| reception_nil s : reception s [] []
| reception_cons s u us ds dss :
    Forall2 received_ok ds (f (st_of s) (Z.b2z u)).1 → some_symbol ds →
    reception (next_state s u) us dss → reception s (u :: us) (ds :: dss).

Definition soft_chunks (dss : list (list Z)) : list (list Z) :=
  (λ ds : list Z, soft_bit <$> ds) <$> dss.

Lemma reception_metric s us dss : s < 16 → reception s us dss →
  length us = length dss ∧
  path_metric exp (soft_chunks dss) us s = (- total_weight (soft_chunks dss))%Z ∧
  Forall (λ r, 0 < weight r)%Z (soft_chunks dss) ∧
  Forall (λ r, length r = length exp) (soft_chunks dss) ∧
  (total_weight (soft_chunks dss) ≤ Z.of_nat (length exp * length dss))%Z ∧
  Forall soft_ok (soft_chunks dss).
Proof using Hmatch Hrows.
  intros Hs Hrec. induction Hrec as [s|s u us ds dss Hds Hsome Hrec IH].
  { split_and!; simpl; try done; lia || constructor. }
  specialize (IH (next_state_lt s u Hs)) as (Hlen & Hm & Hpos & Hl & Hw & Hso).
  destruct (Hmatch s u Hs) as (_ & Hg & H01).
  assert (length ds = length exp) as Hdl.
  { rewrite (Forall2_length _ _ _ Hds). apply (f_equal length) in Hg. by rewrite !length_fmap in Hg. }
  unfold soft_chunks in *. cbn [fmap list_fmap path_metric total_weight foldr length].
  change (foldr _ 0%Z _) with (total_weight ((λ ds : list Z, soft_bit <$> ds) <$> dss)).
  rewrite cost_exact by done. pose proof (weight_soft_le ds).
  split_and!; [lia|lia| | |nia|].
  - constructor; [|done]. by eapply weight_soft_pos.
  - constructor; [by rewrite length_fmap|done].
  - constructor; [|done]. apply Forall_fmap, Forall_true. intros x. unfold compose, soft_bit.
    repeat case_match; lia.
Qed.

Lemma decode_reception us dss : 0 < length exp → reception 0 us dss → path_end us 0 = 0 →
  (2 * Z.of_nat (length exp * length dss) < METRIC_MAX / 2)%Z →
  decode exp (soft_bit <$> concat dss) = bitarr us.
Proof using Hmatch Hrows.
  intros Hn Hrec Hend Hw.
  destruct (reception_metric 0 us dss) as (Hlen & Hm & Hpos & Hl & Hwt & Hso); [lia|done|].
  replace (soft_bit <$> concat dss) with (concat (soft_chunks dss)).
  2: { unfold soft_chunks. clear. induction dss as [|ds dss IH]; [done|]. cbn. by rewrite fmap_app, <-IH. }
  apply decode_exact; try done; [lia|]. unfold soft_chunks. by rewrite length_fmap.
Qed.

(** Receptions of a flat block. *)
Lemma flat_reception n s us dp : (∀ st b, length (f st b).1 = n) → 0 < n → s < 16 →
  Forall2 received_ok dp (mother_bits f (st_of s) (bitarr us)).1 →
  (∀ i, i < length us → some_symbol (slice (i * n) n dp)) →
  ∃ dss, dp = concat dss ∧ reception s us dss ∧ length dss = length us.
Proof using Hmatch.
  intros Hn Hn0. revert s dp. induction us as [|u us IH]; intros s dp Hs Hdp Hsome.
  { apply Forall2_nil_inv_r in Hdp as ->. exists []. split_and!; try done. constructor. }
  cbn [bitarr fmap list_fmap mother_bits] in Hdp. change (Z.b2z <$> us) with (bitarr us) in Hdp.
  pose proof (Hn (st_of s) (Z.b2z u)) as Hg. destruct (Hmatch s u Hs) as (Hst & _).
  destruct (f (st_of s) (Z.b2z u)) as [g st'] eqn:Hf. cbn [fst snd] in *. subst st'.
  specialize (IH (next_state s u)).
  destruct (mother_bits f (st_of (next_state s u)) (bitarr us)) as [out st''] eqn:Hmb. cbn [fst] in *.
  apply Forall2_app_inv_r in Hdp as (d1 & d2 & Hd1 & Hd2 & ->).
  pose proof (Forall2_length _ _ _ Hd1) as Hl1.
  destruct (IH d2) as (dss & -> & Hrec & Hlen); [by apply next_state_lt|done| |].
  { intros i Hi. specialize (Hsome (S i)). simpl in Hsome. unfold slice in *.
    rewrite drop_app_ge in Hsome by lia. replace (n + i * n - length d1) with (i * n) in Hsome by lia.
    apply Hsome. lia. }
  exists (d1 :: dss). split_and!; [done| |simpl; lia].
  constructor; [by rewrite Hf| |done].
  specialize (Hsome 0 ltac:(simpl; lia)). unfold slice in Hsome.
  cbn [Nat.mul concat] in Hsome. rewrite drop_0 in Hsome.
  by rewrite take_app_length' in Hsome by lia.
Qed.
End link.

Lemma path_end_tail us s : s < 16 → path_end (us ++ replicate 4 false) s = 0.
Proof.
  intros Hs. rewrite path_end_app. pose proof (path_end_lt us s Hs) as Hlt.
  revert Hlt. generalize (path_end us s). intros e He. do 16 (destruct e as [|e]; [done|]). lia.
Qed.
