(* ===== verification/TchReorder.v ===== *)
(** lmac/components/tch_reorder.rs: the ACELP bit reordering between codec
    order and channel order (EN 300 395-2, table 4). *)
From S2P Require Import Prelude Arrays.

(** * Definitions *)

Definition NUM_ACELP_BITS : nat := 137.

Definition CLASS0_POS : list nat := [
  35; 36; 37; 38; 39; 40; 41; 42; 43; 47; 48; 56; 61; 62; 63; 64; 65; 66; 67; 68; 69; 70; 74; 75; 83;
  88; 89; 90; 91; 92; 93; 94; 95; 96; 97; 101; 102; 110; 115; 116; 117; 118; 119; 120; 121; 122; 123;
  124; 128; 129; 137].

Definition CLASS1_POS : list nat := [
  58; 85; 112; 54; 81; 108; 135; 50; 77; 104; 131; 45; 72; 99; 126; 55; 82; 109; 136; 5; 13; 34; 8; 16;
  17; 22; 23; 24; 25; 26; 6; 14; 7; 15; 60; 87; 114; 46; 73; 100; 127; 44; 71; 98; 125; 33; 49; 76; 103;
  130; 59; 86; 113; 57; 84; 111].

Definition CLASS2_POS : list nat := [
  18; 19; 20; 21; 31; 32; 53; 80; 107; 134; 1; 2; 3; 4; 9; 10; 11; 12; 27; 28; 29; 30; 52; 79; 106; 133;
  51; 78; 105; 132].

Section reorder.
Context {A : Type} (zero : A).

(** One [for bit in 0..CLASS_POS.len()] loop; the state is the output array and
    the running index. *)
Definition class_to_channel (positions : list nat) (codec_bits : list A)
    : list A * nat → option (list A * nat) :=
  foldM (λ p '(channel, out_idx),
    let pos := p - 1 in
    channel ← copy_at out_idx (0 * NUM_ACELP_BITS + pos) codec_bits channel;
    channel ← copy_at (out_idx + 1) (1 * NUM_ACELP_BITS + pos) codec_bits channel;
    Some (channel, out_idx + 2)) positions.

Definition codec_to_channel (codec_bits : list A) : option (list A) :=
  s ← class_to_channel CLASS0_POS codec_bits (replicate 274 zero, 0);
  s ← class_to_channel CLASS1_POS codec_bits s;
  s ← class_to_channel CLASS2_POS codec_bits s;
  Some s.1.

Definition class_to_codec (positions : list nat) (channel_bits : list A)
    : list A * nat → option (list A * nat) :=
  foldM (λ p '(codec, in_idx),
    let pos := p - 1 in
    codec ← copy_at (0 * NUM_ACELP_BITS + pos) in_idx channel_bits codec;
    codec ← copy_at (1 * NUM_ACELP_BITS + pos) (in_idx + 1) channel_bits codec;
    Some (codec, in_idx + 2)) positions.

Definition channel_to_codec (channel_bits : list A) : option (list A) :=
  s ← class_to_codec CLASS0_POS channel_bits (replicate 274 zero, 0);
  s ← class_to_codec CLASS1_POS channel_bits s;
  s ← class_to_codec CLASS2_POS channel_bits s;
  Some s.1.

(** * The reordering as a permutation of indices *)

(** The (channel index, codec index) pairs of a list of positions. *)
Fixpoint index_pairs (positions : list nat) (idx : nat) : list (nat * nat) :=
  match positions with
  | [] => []
  | p :: positions =>
      (idx, p - 1) :: (idx + 1, NUM_ACELP_BITS + (p - 1)) :: index_pairs positions (idx + 2)
  end.

Definition swap_pair (q : nat * nat) : nat * nat := (q.2, q.1).

Definition all_pairs : list (nat * nat) := index_pairs (CLASS0_POS ++ CLASS1_POS ++ CLASS2_POS) 0.

Lemma class_to_channel_pairs positions codec channel idx :
  class_to_channel positions codec (channel, idx) =
    channel ← copy_pairs (index_pairs positions idx) codec channel;
    Some (channel, idx + 2 * length positions).
Proof.
  unfold class_to_channel, copy_pairs. revert channel idx.
  induction positions as [|p positions IH]; intros channel idx; cbn -[Nat.mul NUM_ACELP_BITS].
  { do 2 f_equal. lia. }
  destruct (copy_at idx _ codec channel) as [c1|]; [cbn -[Nat.mul NUM_ACELP_BITS]|done].
  rewrite Nat.mul_1_l. destruct (copy_at (idx + 1) _ codec c1) as [c2|]; [cbn -[Nat.mul]|done].
  rewrite IH. destruct (foldM _ _ c2); [cbn -[Nat.mul]|done]. do 2 f_equal. lia.
Qed.

Lemma class_to_codec_pairs positions channel codec idx :
  class_to_codec positions channel (codec, idx) =
    codec ← copy_pairs (swap_pair <$> index_pairs positions idx) channel codec;
    Some (codec, idx + 2 * length positions).
Proof.
  unfold class_to_codec, copy_pairs. revert codec idx.
  induction positions as [|p positions IH]; intros codec idx; cbn -[Nat.mul NUM_ACELP_BITS].
  { do 2 f_equal. lia. }
  destruct (copy_at _ idx channel codec) as [c1|]; [cbn -[Nat.mul NUM_ACELP_BITS]|done].
  rewrite Nat.mul_1_l. destruct (copy_at _ (idx + 1) channel c1) as [c2|]; [cbn -[Nat.mul]|done].
  rewrite IH. destruct (foldM _ _ c2); [cbn -[Nat.mul]|done]. do 2 f_equal. lia.
Qed.

Lemma index_pairs_app l k idx :
  index_pairs (l ++ k) idx = index_pairs l idx ++ index_pairs k (idx + 2 * length l).
Proof.
  revert idx. induction l as [|p l IH]; intros idx; cbn -[Nat.mul NUM_ACELP_BITS].
  { f_equal. lia. }
  rewrite IH. do 3 f_equal. f_equal. lia.
Qed.

Lemma three_classes_to_channel l0 l1 l2 codec out :
  (s ← class_to_channel l0 codec (out, 0); s ← class_to_channel l1 codec s;
   s ← class_to_channel l2 codec s; Some s.1) =
  copy_pairs (index_pairs (l0 ++ l1 ++ l2) 0) codec out.
Proof.
  rewrite class_to_channel_pairs, !index_pairs_app. unfold copy_pairs. rewrite !foldM_app.
  destruct (foldM _ (index_pairs l0 _) _) as [c|]; [cbn [mbind option_bind]|done].
  rewrite class_to_channel_pairs, foldM_app. unfold copy_pairs.
  destruct (foldM _ (index_pairs l1 _) c) as [c'|]; [cbn [mbind option_bind]|done].
  rewrite class_to_channel_pairs. unfold copy_pairs. by destruct (foldM _ (index_pairs l2 _) c').
Qed.

Lemma three_classes_to_codec l0 l1 l2 channel out :
  (s ← class_to_codec l0 channel (out, 0); s ← class_to_codec l1 channel s;
   s ← class_to_codec l2 channel s; Some s.1) =
  copy_pairs (swap_pair <$> index_pairs (l0 ++ l1 ++ l2) 0) channel out.
Proof.
  rewrite class_to_codec_pairs, !index_pairs_app, !fmap_app. unfold copy_pairs. rewrite !foldM_app.
  destruct (foldM _ (_ <$> index_pairs l0 _) _) as [c|]; [cbn [mbind option_bind]|done].
  rewrite class_to_codec_pairs, foldM_app. unfold copy_pairs.
  destruct (foldM _ (_ <$> index_pairs l1 _) c) as [c'|]; [cbn [mbind option_bind]|done].
  rewrite class_to_codec_pairs. unfold copy_pairs. by destruct (foldM _ (_ <$> index_pairs l2 _) c').
Qed.

Lemma codec_to_channel_pairs codec :
  codec_to_channel codec = copy_pairs all_pairs codec (replicate 274 zero).
Proof. apply three_classes_to_channel. Qed.

Lemma channel_to_codec_pairs channel :
  channel_to_codec channel = copy_pairs (swap_pair <$> all_pairs) channel (replicate 274 zero).
Proof. apply three_classes_to_codec. Qed.

(** Both index columns enumerate 0 .. 273. *)
Lemma all_pairs_channel : all_pairs.*1 = seq 0 274.
Proof. vm_compute. reflexivity. Qed.

Lemma all_pairs_codec : NoDup all_pairs.*2 ∧ Forall (λ d, d < 274) all_pairs.*2.
Proof.
  split; [apply (bool_decide_unpack _)|apply (bool_decide_unpack _)]; vm_compute; exact I.
Qed.

Lemma all_pairs_bounds d s : (d, s) ∈ all_pairs → d < 274 ∧ s < 274.
Proof.
  intros Hin. split.
  - assert (d ∈ all_pairs.*1) as Hd by (apply list_elem_of_fmap; by exists (d, s)).
    rewrite all_pairs_channel in Hd. apply elem_of_seq in Hd. lia.
  - apply (proj1 (Forall_forall _ _) (proj2 all_pairs_codec)). apply list_elem_of_fmap. by exists (d, s).
Qed.

(** An enumeration of all 274 positions. *)
Lemma all_codec_positions i : i < 274 → i ∈ all_pairs.*2.
Proof.
  intros Hi. destruct all_pairs_codec as [Hnd Hlt].
  assert (all_pairs.*2 ⊆+ seq 0 274) as Hsub.
  { apply NoDup_submseteq; [done|]. intros x Hx. apply elem_of_seq.
    pose proof (proj1 (Forall_forall _ _) Hlt x Hx) as Hx'. cbv beta in Hx'. lia. }
  assert (all_pairs.*2 ≡ₚ seq 0 274) as Hperm.
  { apply submseteq_length_Permutation; [done|].
    pose proof (f_equal length all_pairs_channel) as Hl. rewrite length_fmap in Hl |- *. lia. }
  rewrite Hperm. apply elem_of_seq. lia.
Qed.

Lemma swap_pairs_fst : (swap_pair <$> all_pairs).*1 = all_pairs.*2.
Proof. by rewrite <-list_fmap_compose. Qed.

Lemma codec_to_channel_ok codec : length codec = 274 →
  ∃ channel, codec_to_channel codec = Some channel ∧ length channel = 274 ∧
    ∀ d s, (d, s) ∈ all_pairs → channel !! d = codec !! s.
Proof.
  intros Hl. rewrite codec_to_channel_pairs.
  destruct (copy_pairs_spec all_pairs codec (replicate 274 zero)) as (out & Heq & Hlen & Hin & _).
  - rewrite all_pairs_channel. apply NoDup_seq.
  - apply Forall_forall. intros [d s] Hds%all_pairs_bounds. rewrite length_replicate. simpl. lia.
  - exists out. rewrite length_replicate in Hlen. done.
Qed.

Lemma channel_to_codec_ok channel : length channel = 274 →
  ∃ codec, channel_to_codec channel = Some codec ∧ length codec = 274 ∧
    ∀ d s, (d, s) ∈ all_pairs → codec !! s = channel !! d.
Proof.
  intros Hl. rewrite channel_to_codec_pairs.
  destruct (copy_pairs_spec (swap_pair <$> all_pairs) channel (replicate 274 zero))
    as (out & Heq & Hlen & Hin & _).
  - rewrite swap_pairs_fst. apply all_pairs_codec.
  - apply Forall_fmap, Forall_forall. intros [d s] Hds%all_pairs_bounds.
    unfold compose. rewrite length_replicate. simpl. lia.
  - exists out. rewrite length_replicate in Hlen. split_and!; [done..|].
    intros d s Hds. apply Hin, list_elem_of_fmap. by exists (d, s).
Qed.

Lemma codec_channel_codec codec : length codec = 274 →
  ∃ channel, codec_to_channel codec = Some channel ∧ length channel = 274 ∧
    channel_to_codec channel = Some codec.
Proof.
  intros Hl. destruct (codec_to_channel_ok codec Hl) as (channel & Heq & Hcl & Hin).
  destruct (channel_to_codec_ok channel Hcl) as (codec' & Heq' & Hl' & Hin').
  exists channel. split_and!; [done..|]. rewrite Heq'. f_equal. apply list_eq. intros i.
  destruct (decide (i < 274)) as [Hi|Hi].
  - apply all_codec_positions, list_elem_of_fmap in Hi as ([d s] & -> & Hds). simpl.
    by rewrite (Hin' d s Hds), (Hin d s Hds).
  - by rewrite !lookup_ge_None_2 by lia.
Qed.

Lemma channel_codec_channel channel : length channel = 274 →
  ∃ codec, channel_to_codec channel = Some codec ∧ length codec = 274 ∧
    codec_to_channel codec = Some channel.
Proof.
  intros Hl. destruct (channel_to_codec_ok channel Hl) as (codec & Heq & Hcl & Hin).
  destruct (codec_to_channel_ok codec Hcl) as (channel' & Heq' & Hl' & Hin').
  exists codec. split_and!; [done..|]. rewrite Heq'. f_equal. apply list_eq. intros i.
  destruct (decide (i < 274)) as [Hi|Hi].
  - assert (i ∈ all_pairs.*1) as Hin0 by (rewrite all_pairs_channel; apply elem_of_seq; lia).
    apply list_elem_of_fmap in Hin0 as ([d s] & -> & Hds). simpl. by rewrite (Hin' d s Hds), (Hin d s Hds).
  - by rewrite !lookup_ge_None_2 by lia.
Qed.

(** The two reorderings are inverse to each other on every 274-bit block. *)
Theorem reorder_bijection x : length x = 274 →
  (∃ y, codec_to_channel x = Some y ∧ channel_to_codec y = Some x) ∧
  (∃ z, channel_to_codec x = Some z ∧ codec_to_channel z = Some x).
Proof.
  intros Hl. destruct (codec_channel_codec x Hl) as (y & Hy & _ & Hyx).
  destruct (channel_codec_channel x Hl) as (z & Hz & _ & Hzx).
  split; [by exists y|by exists z].
Qed.
End reorder.

Lemma reorder_bijection_witness :
  (∃ y, codec_to_channel 0 (seq 0 274) = Some y ∧ channel_to_codec 0 y = Some (seq 0 274)) ∧
  (∃ z, channel_to_codec 0 (seq 0 274) = Some z ∧ codec_to_channel 0 z = Some (seq 0 274)).
Proof. apply (reorder_bijection 0 (seq 0 274)). reflexivity. Defined.
