(* ===== verification/ErrorControlSpec.v ===== *)
(** lmac/components/errorcontrol.rs with errorcontrol_params.rs and the logical
    channels of tetra-saps: the channel coding chains from type-1 to type-5 bits
    and back.  [None] is a panic (failed assertion, index out of range or
    [unimplemented!]).  Arrays are one bit per byte, as in the source.

    End-to-end properties of the channel coding chains of errorcontrol.rs. *)
From S2P Require Import Prelude Bits Core BitBuffer BitBufferSpec BitCodec BitBufferThms Arrays Crc16 Scrambler Interleaver Rm3014 ConvEnc ViterbiSpec TchReorder.

(** * Logical channels and their parameters *)

Inductive LogicalChannel : Type :=
| Aach | SchHd | SchF | Stch | SchHu | TchS | Tch24 | Tch48 | Tch72 | Bsch | Bnch | Blch | Clch.

#[export] Instance LogicalChannel_eq_dec : EqDecision LogicalChannel.
Proof. solve_decision. Defined.

Definition is_traffic (c : LogicalChannel) : bool :=
  match c with TchS | Tch24 | Tch48 | Tch72 => true | _ => false end.

Definition is_control_channel (c : LogicalChannel) : bool :=
  match c with Aach | Bsch | Bnch | SchHd | SchF | Stch | SchHu => true | _ => false end.

Definition is_linearization_channel (c : LogicalChannel) : bool :=
  bool_decide (c = Clch) || bool_decide (c = Blch).

Definition is_dl_channel (c : LogicalChannel) : bool :=
  match c with SchHu | Clch => false | _ => true end.

Definition is_ul_channel (c : LogicalChannel) : bool :=
  match c with Aach | SchHd | Bsch | Bnch | Blch => false | _ => true end.

Inductive PhyBlockType : Type := BBK | SB1 | SB2 | NDB | NUB | SSN1 | SSN2.

#[export] Instance PhyBlockType_eq_dec : EqDecision PhyBlockType.
Proof. solve_decision. Defined.

Record ErrorControlParams : Type := mkParams {
  type345_bits : nat;
  type2_bits : nat;
  type1_bits : nat;
  interleave_a : nat;
  have_crc16 : bool
}.

Definition BSCH_PARAMS := mkParams 120 80 60 11 true.
Definition SCH_HD_PARAMS := mkParams 216 144 124 101 true.
Definition AACH_PARAMS := mkParams 30 30 14 0 false.
Definition SCH_F_PARAMS := mkParams 432 288 268 103 true.
Definition SCH_HU_PARAMS := mkParams 168 112 92 13 true.
Definition TCH_S_PARAMS := mkParams 432 288 274 103 false.

Definition get_params (lchan : LogicalChannel) : option ErrorControlParams :=
  match lchan with
  | Bsch => Some BSCH_PARAMS
  | SchHd | Stch | Bnch => Some SCH_HD_PARAMS
  | Aach => Some AACH_PARAMS
  | SchF => Some SCH_F_PARAMS
  | SchHu => Some SCH_HU_PARAMS
  | TchS => Some TCH_S_PARAMS
  | Tch24 | Tch48 | Tch72 | Blch | Clch => None
  end.

(** * Primitives (the fields the coder uses) *)

Record TmvUnitdataReq : Type := mkTmvReq {
  mac_block : BitBuffer;
  logical_channel : LogicalChannel;
  scrambling_code : Z
}.

Record TpUnitdataInd : Type := mkTpInd { block_type : PhyBlockType; block : BitBuffer }.

Definition MAX_TYPE1_BITS : nat := 274.
Definition MAX_TYPE2_BITS : nat := 288.
Definition MAX_TYPE345_BITS : nat := 432.
Definition MAX_TYPE345_HALFSLOT_BITS : nat := 216.

(** * Control plane *)

(** [type2_arr[params.type1_bits + i] = (crc >> (15 - i)) & 1] for [i] in [0..16]. *)
Definition append_crc (n : nat) (crc : Z) (type2_arr : list Z) : option (list Z) :=
  foldM (λ i type2_arr, arr_set (n + i) (wrap 8 (Z.land (Z.shiftr crc (15 - Z.of_nat i)) 1)) type2_arr)
    (seq 0 16) type2_arr.

Definition encode_cp (prim : TmvUnitdataReq) : option BitBuffer :=
  let lchan := logical_channel prim in
  check (is_control_channel lchan && bool_decide (lchan ≠ Aach)) ;;
  params ← get_params lchan;
  check (get_len (mac_block prim) =? type1_bits params) ;;
  '(type1, _) ← exec (seek 0;; to_bitarr (type1_bits params)) (mac_block prim);
  type2_arr ← copy_from_slice 0 type1 (replicate MAX_TYPE2_BITS 0%Z);
  check (have_crc16 params) ;;
  protected ← arr_range 0 (type1_bits params) type2_arr;
  let crc := Z.lxor (crc16_ccitt_bits protected (type1_bits params)) 0xffff in
  type2_arr ← append_crc (type1_bits params) crc type2_arr;
  type2 ← arr_range 0 (type2_bits params) type2_arr;
  '(_, type3dp_arr) ← encode conv_new type2 (replicate (MAX_TYPE345_BITS * 4) 0%Z);
  type3_arr ← get_punctured_rate Rate2_3 type3dp_arr (replicate MAX_TYPE345_BITS 0%Z);
  type4_arr ← block_interleave (type345_bits params) (interleave_a params) type3_arr
                (replicate MAX_TYPE345_BITS 0%Z);
  type4_bits ← arr_range 0 (type345_bits params) type4_arr;
  type4 ← from_bitarr type4_bits;
  '(_, type5) ← exec (tetra_scramb_bits (scrambling_code prim)) type4;
  Some type5.

Definition decode_cp (lchan : LogicalChannel) (prim : TpUnitdataInd)
    (default_scramb_code : option Z) : option (option BitBuffer * bool) :=
  check (is_control_channel lchan && bool_decide (lchan ≠ Aach)) ;;
  params ← get_params lchan;
  match (if bool_decide (block_type prim = SB1) then Some SCRAMB_INIT else default_scramb_code) with
  | None => Some (None, false)
  | Some scrambling_code =>
      '(_, type4) ← exec (tetra_scramb_bits scrambling_code) (block prim);
      '(type4_bits, _) ← exec (to_bitarr (type345_bits params)) type4;
      type4_arr ← copy_from_slice 0 type4_bits (replicate MAX_TYPE345_BITS 0%Z);
      type3_arr ← block_deinterleave (type345_bits params) (interleave_a params) type4_arr
                    (replicate MAX_TYPE345_BITS 0%Z);
      type3dp_arr ← tetra_rcpc_depunct Rate2_3 type3_arr (type345_bits params)
                      (replicate (MAX_TYPE345_BITS * 4) 0xff%Z);
      type2_arr ← dec_sb1 type3dp_arr (replicate MAX_TYPE2_BITS 0%Z) (type2_bits params);
      check (have_crc16 params) ;;
      type1_arr ← arr_range 0 (type1_bits params) type2_arr;
      let crc := crc16_ccitt_bits type2_arr (type1_bits params + 16) in
      let crc_ok := (crc =? TETRA_CRC_OK)%Z in
      type1bits ← from_bitarr type1_arr;
      Some (Some type1bits, crc_ok)
  end.

(** * Traffic plane *)

(** The reduction loop [for d in (7..67).rev()]. *)
Definition speech_crc_reduce (w : list Z) : option (list Z) :=
  foldM (λ d w,
    wd ← w !! d;
    if (wd =? 1)%Z then
      w ← arr_set d (Z.lxor wd 1) w;
      w4 ← w !! (d - 4);
      w ← arr_set (d - 4) (Z.lxor w4 1) w;
      w7 ← w !! (d - 7);
      arr_set (d - 7) (Z.lxor w7 1) w
    else Some w) (reverse (seq 7 60)) w.

Definition speech_crc (class2_bits : list Z) : option (list Z) :=
  w ← copy_from_slice 7 ((λ b, Z.land b 1) <$> take 60 class2_bits) (replicate 67 0%Z);
  check (60 <=? length class2_bits) ;;
  w ← speech_crc_reduce w;
  let result := take 7 w in
  let parity := foldl (λ parity bit, Z.lxor parity (Z.land bit 1)) 0%Z class2_bits in
  let parity := foldl (λ parity bit, Z.lxor parity bit) parity result in
  Some (result ++ [parity]).

Definition CLASS0_BITS : nat := 102.
Definition CLASS1_BITS : nat := 112.
Definition CLASS2_BITS : nat := 60.
Definition CLASS2_TYPE2 : nat := 72.
Definition CLASS1_TYPE3 : nat := 168.
Definition CLASS2_TYPE3 : nat := 162.

(** Type-1 bits in channel order to the 432 type-3 bits. *)
Definition encode_tp_type3 (type1_arr : list Z) : option (list Z) :=
  class0 ← arr_range 0 CLASS0_BITS type1_arr;
  type3_arr ← copy_from_slice 0 class0 (replicate MAX_TYPE345_BITS 0%Z);
  class1_input ← arr_range CLASS0_BITS (CLASS0_BITS + CLASS1_BITS) type1_arr;
  '(ces, mother_buf) ← speech_encode conv_new class1_input (replicate (CLASS1_BITS * 3) 0%Z);
  punct_buf ← get_punctured_rate Rate112_168 mother_buf (replicate 168 0%Z);
  type3_arr ← copy_from_slice CLASS0_BITS punct_buf type3_arr;
  class2_data ← arr_range (CLASS0_BITS + CLASS1_BITS) (CLASS0_BITS + CLASS1_BITS + CLASS2_BITS) type1_arr;
  class2_type2 ← copy_from_slice 0 class2_data (replicate CLASS2_TYPE2 0%Z);
  crc_bits ← speech_crc class2_data;
  class2_type2 ← copy_from_slice CLASS2_BITS crc_bits class2_type2;
  '(_, mother_buf) ← speech_encode ces class2_type2 (replicate (CLASS2_TYPE2 * 3) 0%Z);
  punct_buf ← get_punctured_rate Rate72_162 mother_buf (replicate 162 0%Z);
  copy_from_slice (CLASS0_BITS + 168) punct_buf type3_arr.

Definition encode_tp (prim : TmvUnitdataReq) (blk_num : Z) : option BitBuffer :=
  let lchan := logical_channel prim in
  params ← get_params lchan;
  let type1_len := get_len (mac_block prim) `min` type1_bits params in
  '(type1, _) ← exec (seek 0;; to_bitarr type1_len) (mac_block prim);
  type1_arr ← copy_from_slice 0 type1 (replicate MAX_TYPE1_BITS 0%Z);
  type1_arr ←
    (if bool_decide (lchan = TchS) && (type1_len =? 274) then
       codec_bits ← arr_range 0 274 type1_arr;
       channel_bits ← codec_to_channel 0%Z codec_bits;
       copy_from_slice 0 channel_bits type1_arr
     else Some type1_arr);
  type3_arr ← encode_tp_type3 type1_arr;
  type4_arr ← matrix_interleave 24 18 type3_arr (replicate MAX_TYPE345_BITS 0%Z);
  type4_bits ← arr_range 0 (type345_bits params) type4_arr;
  type4 ← from_bitarr type4_bits;
  '(_, type4) ← exec (tetra_scramb_bits (scrambling_code prim)) type4;
  if (blk_num =? 1)%Z then Some type4
  else
    '(full, _) ← exec (seek 0;; to_bitarr (type345_bits params)) type4;
    full_arr ← copy_from_slice 0 full (replicate MAX_TYPE345_BITS 0%Z);
    half ← arr_range MAX_TYPE345_HALFSLOT_BITS (type345_bits params) full_arr;
    from_bitarr half.

(** The 432 type-3 bits to type-1 bits in channel order, with the CRC verdict. *)
Definition decode_tp_type3 (type3_arr : list Z) : option (list Z * bool) :=
  class0 ← arr_range 0 CLASS0_BITS type3_arr;
  type1_arr ← copy_from_slice 0 class0 (replicate MAX_TYPE1_BITS 0%Z);
  class1_type3 ← arr_range CLASS0_BITS (CLASS0_BITS + CLASS1_TYPE3) type3_arr;
  mother_class1 ← tetra_rcpc_depunct Rate112_168 class1_type3 CLASS1_TYPE3
                    (replicate (CLASS1_BITS * 3) 0xff%Z);
  class2_type3 ← arr_range (CLASS0_BITS + CLASS1_TYPE3) (CLASS0_BITS + CLASS1_TYPE3 + CLASS2_TYPE3) type3_arr;
  mother_class2 ← tetra_rcpc_depunct Rate72_162 class2_type3 CLASS2_TYPE3
                    (replicate (CLASS2_TYPE2 * 3) 0xff%Z);
  combined_mother ← copy_from_slice 0 mother_class1
                      (replicate ((CLASS1_BITS + CLASS2_TYPE2) * 3) 0xff%Z);
  combined_mother ← copy_from_slice (CLASS1_BITS * 3) mother_class2 combined_mother;
  let decoded := ViterbiSpec.decode TetraCodecViterbiDecoder_new (soft_bit <$> combined_mother) in
  class1 ← arr_range 0 CLASS1_BITS decoded;
  type1_arr ← copy_from_slice CLASS0_BITS class1 type1_arr;
  class2_decoded ← arr_range CLASS1_BITS (length decoded) decoded;
  data ← arr_range 0 CLASS2_BITS class2_decoded;
  received_crc ← arr_range CLASS2_BITS (CLASS2_BITS + 8) class2_decoded;
  expected_crc ← speech_crc data;
  let crc_ok := bool_decide (expected_crc = received_crc) in
  type1_arr ← copy_from_slice (CLASS0_BITS + CLASS1_BITS) data type1_arr;
  Some (type1_arr, crc_ok).

Definition decode_tp (lchan : LogicalChannel) (type5_block : BitBuffer) (scrambling_code : Z)
    : option (option BitBuffer * bool) :=
  check (bool_decide (lchan = TchS)) ;;
  params ← get_params lchan;
  '(_, type4) ← exec (tetra_scramb_bits scrambling_code) type5_block;
  '(type4_bits, _) ← exec (seek 0;; to_bitarr (type345_bits params)) type4;
  type4_arr ← copy_from_slice 0 type4_bits (replicate MAX_TYPE345_BITS 0%Z);
  type3_arr ← matrix_deinterleave 24 18 type4_arr (replicate MAX_TYPE345_BITS 0%Z);
  '(type1_arr, crc_ok) ← decode_tp_type3 type3_arr;
  channel_bits ← arr_range 0 274 type1_arr;
  codec_bits ← channel_to_codec 0%Z channel_bits;
  result ← from_bitarr codec_bits;
  Some (Some result, crc_ok).

(** * AACH *)

Definition encode_aach (buf : BitBuffer) (scrambling_code : Z) : option BitBuffer :=
  check (get_len_remaining buf =? 14) ;;
  '(o, _) ← exec (read_bits 14) buf;
  v ← o;
  let type1_int := wrap 16 v in
  let type2_int := tetra_rm3014_compute type1_int in
  '(_, type2) ← exec (write_bits type2_int 30;; seek 0) (BitBuffer.new 30);
  '(_, type5) ← exec (tetra_scramb_bits scrambling_code) type2;
  Some type5.

Definition decode_aach (buf : BitBuffer) (scrambling_code : Z) : option BitBuffer :=
  check (get_len_remaining buf =? 30) ;;
  '(_, type2) ← exec (tetra_scramb_bits scrambling_code) buf;
  '(o, type2) ← exec (read_bits 30) type2;
  x ← o;
  let y := tetra_rm3014_decode_limited_ecc (wrap 32 x) in
  '(_, type1) ← exec (set_raw_start 0;; set_raw_pos 0;; set_raw_end 14;; write_bits y 14;; seek 0) type2;
  Some type1.

(** Results of the array stages keep 0/1 entries. *)
Abbreviation is01 := (Forall (λ x : Z, x = 0%Z ∨ x = 1%Z)).

Lemma get_punctured_rate_01 pu input output out :
  is01 input → is01 output → get_punctured_rate pu input output = Some out → is01 out.
Proof.
  intros Hi Ho. unfold get_punctured_rate. apply foldM_inv; [|done].
  intros j s s' _ Hs. destruct (punct_k pu j); [cbn|done]. by apply copy_at_Forall.
Qed.

Lemma block_interleave_01 k a input output out :
  is01 input → is01 output → block_interleave k a input output = Some out → is01 out.
Proof.
  intros Hi Ho. unfold block_interleave. case_match; [|done]. apply foldM_inv; [|done].
  intros j s s' _ Hs. by apply copy_at_Forall.
Qed.

Lemma matrix_interleave_01 lines columns input output out :
  is01 input → is01 output → matrix_interleave lines columns input output = Some out → is01 out.
Proof.
  intros Hi Ho. unfold matrix_interleave. case_match; [|done]. apply foldM_inv; [|done].
  intros i s s' _ Hs. apply foldM_inv; [|done]. intros j s1 s2 _ Hs1. by apply copy_at_Forall.
Qed.

Lemma mother_bits_01 f exp s us : table_matches f exp → s < 16 →
  is01 (mother_bits f (st_of s) (bitarr us)).1 ∧
  (mother_bits f (st_of s) (bitarr us)).2 = st_of (path_end us s).
Proof.
  intros Hm. revert s. induction us as [|u us IH]; intros s Hs; [done|].
  cbn [bitarr fmap list_fmap mother_bits path_end]. change (Z.b2z <$> us) with (bitarr us).
  destruct (Hm s u Hs) as (Hst & _ & H01). destruct (f (st_of s) (Z.b2z u)) as [g st']. cbn [fst snd] in Hst, H01. subst.
  specialize (IH _ (next_state_lt s u Hs)).
  destruct (mother_bits f (st_of (next_state s u)) (bitarr us)) as [out st'']. cbn [fst snd] in *.
  destruct IH as [IH1 IH2]. split; [|exact IH2]. apply Forall_app. by split.
Qed.

(** * Puncturing keeps a symbol of every trellis step *)

Definition keeps (pu : RcpcPunctMode) (w n T : nat) : Prop :=
  ∀ i, i < T → ∃ j x, 1 ≤ j ≤ n ∧ x < w ∧ punct_pos pu j = i * w + x + 1.

(** Depuncturing what was punctured from [mother]: every symbol right or erased. *)
Lemma depunct_received pu mother n type3 dp L w T :
  is01 mother → length mother = T * w → T * w ≤ L → (1 ≤ n → punct_pos pu n ≤ T * w) →
  n ≤ length type3 →
  (∀ j, 1 ≤ j ≤ n → type3 !! (j - 1) = mother !! (punct_pos pu j - 1)) →
  tetra_rcpc_depunct pu type3 n (replicate L 0xff%Z) = Some dp → keeps pu w n T →
  length dp = L ∧ Forall2 received_ok (take (T * w) dp) mother ∧
  ∀ i, i < T → some_symbol (slice (i * w) w dp).
Proof.
  intros H01 Hm HL Hfit Hn H3 Heq Hk.
  destruct (tetra_rcpc_depunct_spec pu type3 n (replicate L 0xff%Z)) as (dp' & Heq' & Hl & Hin & Hout);
    [done|rewrite length_replicate; intros; specialize (Hfit ltac:(done)); lia|].
  rewrite Heq in Heq'. injection Heq' as <-. rewrite length_replicate in Hl. split_and!; [done| |].
  - apply Forall2_same_length_lookup_2; [rewrite length_take; lia|].
    intros i d m Hd Hmi. pose proof (lookup_lt_Some _ _ _ Hmi) as Hi.
    rewrite lookup_take_lt in Hd by lia.
    destruct (decide (i ∈ ((λ j, punct_pos pu j - 1) <$> seq 1 n))) as [Hin'|Hnin].
    + apply list_elem_of_fmap in Hin' as (j & -> & Hj%elem_of_seq). left.
      rewrite Hin, H3 in Hd by lia. congruence.
    + right. rewrite Hout in Hd; [rewrite lookup_replicate_2 in Hd by lia; congruence|].
      intros j Hj ->. apply Hnin, list_elem_of_fmap. exists j. split; [done|]. apply elem_of_seq. lia.
  - intros i Hi. destruct (Hk i Hi) as (j & x & Hj & Hx & Hpos). apply Exists_exists.
    destruct (lookup_lt_is_Some_2 mother (i * w + x)) as [b Hb]; [nia|].
    exists b. split.
    + apply list_elem_of_lookup. exists x. rewrite lookup_slice, decide_True by done.
      specialize (Hin j Hj). specialize (H3 j Hj). rewrite Hpos in Hin, H3.
      replace (i * w + x + 1 - 1) with (i * w + x) in * by lia. congruence.
    + destruct (Forall_lookup_1 _ _ _ _ H01 Hb) as [-> | ->]; done.
Qed.

(** * Control channels *)

Definition cp_params_ok (p : ErrorControlParams) : Prop :=
  have_crc16 p = true ∧ type2_bits p = type1_bits p + 20 ∧ type2_bits p ≤ 288 ∧
  (∃ h, type2_bits p = 2 * S h ∧ type345_bits p = 3 * S h) ∧
  good_params (type345_bits p) (interleave_a p).

Lemma cp_params lchan : is_control_channel lchan = true → lchan ≠ Aach →
  ∃ p, get_params lchan = Some p ∧ cp_params_ok p.
Proof.
  intros Hc Ha. destruct lchan; try done; eexists; (split; [reflexivity|]);
    (split_and!; [reflexivity|reflexivity|simpl; lia| |]).
  all: try (unfold good_params; split_and!; reflexivity).
  - by exists 71.
  - by exists 143.
  - by exists 71.
  - by exists 55.
  - by exists 39.
  - by exists 71.
Qed.

Lemma keeps_rate2_3 h : keeps Rate2_3 4 (3 * S h) (2 * S h).
Proof.
  intros i Hi. pose proof (Nat.div_mod_eq i 2) as Hdm.
  pose proof (Nat.mod_upper_bound i 2 ltac:(lia)) as Hm.
  destruct (decide (i mod 2 = 0)) as [H0|H1].
  - exists (3 * (i / 2) + 1), 0. split_and!; [lia|lia|lia|]. unfold punct_pos, punct_k.
    cbn [get_puncturer pu_i_func pu_t pu_period pu_p]. unfold i_equals.
    replace ((3 * (i / 2) + 1 - 1) / 3) with (i / 2).
    2: { replace (3 * (i / 2) + 1 - 1) with (i / 2 * 3) by lia. by rewrite Nat.div_mul. }
    replace (3 * (i / 2) + 1 - 3 * (i / 2)) with 1 by lia. cbn -[Nat.mul Nat.div]. lia.
  - exists (3 * (i / 2) + 3), 0. split_and!; [lia|lia|lia|]. unfold punct_pos, punct_k.
    cbn [get_puncturer pu_i_func pu_t pu_period pu_p]. unfold i_equals.
    replace ((3 * (i / 2) + 3 - 1) / 3) with (i / 2).
    2: { replace (3 * (i / 2) + 3 - 1) with (2 + i / 2 * 3) by lia. rewrite Nat.div_add by lia. done. }
    replace (3 * (i / 2) + 3 - 3 * (i / 2)) with 3 by lia. cbn -[Nat.mul Nat.div]. lia.
Qed.

Lemma punct_pos_rate2_3 h : punct_pos Rate2_3 (3 * S h) ≤ 2 * S h * 4.
Proof.
  unfold punct_pos, punct_k. cbn [get_puncturer pu_i_func pu_t pu_period pu_p]. unfold i_equals.
  replace ((3 * S h - 1) / 3) with h.
  2: { replace (3 * S h - 1) with (2 + h * 3) by lia. rewrite Nat.div_add by lia. done. }
  replace (3 * S h - 3 * h) with 3 by lia. cbn -[Nat.mul Nat.div]. lia.
Qed.

(** The mother code of [us], and the punctured block. *)
Lemma cch_encode_ok us : length us ≤ 288 →
  ∃ st mother dp3 t3,
    encode conv_new (bitarr us) (replicate (MAX_TYPE345_BITS * 4) 0%Z) = Some (st, dp3) ∧
    get_punctured_rate Rate2_3 dp3 (replicate MAX_TYPE345_BITS 0%Z) = Some t3 ∧
    (mother_bits (λ st bit, (encode_bit st bit).1) (st_of 0) (bitarr us)).1 = mother ∧
    is01 mother ∧ length mother = length us * 4 ∧ is01 t3 ∧ length t3 = 432 ∧
    ∀ j, 1 ≤ j ≤ 432 → punct_pos Rate2_3 j ≤ length mother →
      t3 !! (j - 1) = mother !! (punct_pos Rate2_3 j - 1).
Proof.
  intros Hus. set (f := λ st bit, (encode_bit st bit).1). unfold MAX_TYPE345_BITS.
  destruct (mother_bits_01 f _ 0 us cch_table_matches ltac:(lia)) as [H01 _].
  pose proof (length_mother_bits 4 f (st_of 0) (bitarr us) ltac:(done)) as Hml.
  rewrite length_bitarr in Hml.
  pose proof (encode_ok (bitarr us) conv_new (replicate (432 * 4) 0%Z)) as Henc.
  rewrite length_replicate, length_bitarr in Henc. specialize (Henc ltac:(lia)). fold f in Henc.
  change conv_new with (st_of 0) in Henc at 2.
  destruct (mother_bits f (st_of 0) (bitarr us)) as [mother st]. cbn [fst] in *.
  set (dp3 := mother ++ _) in Henc.
  assert (is01 dp3) as H01'.
  { apply Forall_app. split; [done|]. apply Forall_drop, replicate_0_01. }
  assert (length dp3 = 432 * 4) as Hl3.
  { unfold dp3. rewrite length_app, length_drop, length_replicate. lia. }
  destruct (get_punctured_rate_spec Rate2_3 dp3 (replicate 432 0%Z)) as (t3 & Heq3 & Hlt3 & Hin3).
  { intros _. rewrite length_replicate, Hl3. apply Nat.leb_le. reflexivity. }
  rewrite length_replicate in Hlt3, Hin3. exists st, mother, dp3, t3. split_and!; try done.
  - eapply get_punctured_rate_01; [exact H01'|apply replicate_0_01|exact Heq3].
  - intros j Hj Hp. rewrite Hin3 by done. unfold dp3. apply lookup_app_l.
    pose proof (proj2 (punct_k_pos Rate2_3 j ltac:(lia))). lia.
Qed.

(** Depuncturing and decoding a block that agrees with the punctured one. *)
Lemma cch_decode_ok p us mother t3 : cp_params_ok p → length us = type2_bits p → path_end us 0 = 0 →
  (mother_bits (λ st bit, (encode_bit st bit).1) (st_of 0) (bitarr us)).1 = mother →
  is01 mother → length mother = length us * 4 → type345_bits p ≤ length t3 →
  (∀ j, 1 ≤ j ≤ type345_bits p → t3 !! (j - 1) = mother !! (punct_pos Rate2_3 j - 1)) →
  ∃ dp, tetra_rcpc_depunct Rate2_3 t3 (type345_bits p) (replicate (MAX_TYPE345_BITS * 4) 0xff%Z) = Some dp ∧
    dec_sb1 dp (replicate MAX_TYPE2_BITS 0%Z) (type2_bits p) =
      Some (bitarr us ++ drop (type2_bits p) (replicate MAX_TYPE2_BITS 0%Z)).
Proof.
  intros (_ & _ & Hmax & (h & Hh2 & Hh3) & _) Hus Hend Hmother H01 Hml Hl3 H3.
  unfold MAX_TYPE345_BITS, MAX_TYPE2_BITS. set (k := type345_bits p) in *. set (n := type2_bits p) in *.
  pose proof (punct_pos_rate2_3 h) as Hfit. rewrite <-Hh3, <-Hh2 in Hfit.
  destruct (tetra_rcpc_depunct_spec Rate2_3 t3 k (replicate (432 * 4) 0xff%Z)) as (dp & Heqdp & _);
    [done|rewrite length_replicate; lia|].
  exists dp. split; [done|].
  destruct (depunct_received Rate2_3 mother k t3 dp (432 * 4) 4 n) as (Hldp & Hrec & Hsome);
    [done|lia|lia|done..| |].
  { rewrite Hh2, Hh3. apply keeps_rate2_3. }
  destruct (flat_reception _ TetraViterbiDecoder_new cch_table_matches 4 0 us (take (n * 4) dp))
    as (dss & Hdss & Hrcp & Hldss); [done|lia|lia|by rewrite Hmother| |].
  { intros i Hi. rewrite slice_take by lia. apply Hsome. lia. }
  assert (ViterbiSpec.decode TetraViterbiDecoder_new (soft_bit <$> take (n * 4) dp) = bitarr us) as Hdec.
  { rewrite Hdss. eapply decode_reception;
      [exact cch_table_matches|apply good_rows_new|by apply Nat.ltb_lt|exact Hrcp|done|].
    change (length TetraViterbiDecoder_new) with 4. rewrite Hldss. change (METRIC_MAX / 2)%Z with 16383%Z. lia. }
  unfold dec_sb1. rewrite length_replicate, Hldp.
  rewrite (proj2 (Nat.leb_le n 864)), (proj2 (Nat.leb_le (n * 4) (432 * 4))), (proj2 (Nat.leb_le n 288)) by lia.
  cbn [andb]. cbv zeta. rewrite Hdec, length_bitarr, Hus, Nat.leb_refl.
  rewrite take_ge by (rewrite length_bitarr; lia). done.
Qed.

(** The coding stages between type 2 and type 4, and their inverse. *)
Lemma cch_chain p us : cp_params_ok p → length us = type2_bits p → path_end us 0 = 0 →
  ∃ st dp3 t3 t4 bs4 t3' dp,
    encode conv_new (bitarr us) (replicate (MAX_TYPE345_BITS * 4) 0%Z) = Some (st, dp3) ∧
    get_punctured_rate Rate2_3 dp3 (replicate MAX_TYPE345_BITS 0%Z) = Some t3 ∧
    block_interleave (type345_bits p) (interleave_a p) t3 (replicate MAX_TYPE345_BITS 0%Z) = Some t4 ∧
    arr_range 0 (type345_bits p) t4 = Some (bitarr bs4) ∧ length bs4 = type345_bits p ∧
    block_deinterleave (type345_bits p) (interleave_a p)
      (bitarr bs4 ++ drop (type345_bits p) (replicate MAX_TYPE345_BITS 0%Z))
      (replicate MAX_TYPE345_BITS 0%Z) = Some t3' ∧
    tetra_rcpc_depunct Rate2_3 t3' (type345_bits p) (replicate (MAX_TYPE345_BITS * 4) 0xff%Z) = Some dp ∧
    dec_sb1 dp (replicate MAX_TYPE2_BITS 0%Z) (type2_bits p) =
      Some (bitarr us ++ drop (type2_bits p) (replicate MAX_TYPE2_BITS 0%Z)).
Proof.
  intros Hp Hus Hend. pose proof Hp as (_ & _ & Hmax & (h & Hh2 & Hh3) & Hgood).
  destruct (cch_encode_ok us) as (st & mother & dp3 & t3 & Henc & Hpun & Hmo & H01 & Hml & H013 & Hl3 & Hin3);
    [lia|]. unfold MAX_TYPE345_BITS in *. set (k := type345_bits p) in *.
  destruct (block_interleave_spec k (interleave_a p) t3 (replicate 432 0%Z)) as (t4 & Heq4 & Hlt4 & _);
    [done|lia|rewrite length_replicate; lia|].
  rewrite length_replicate in Hlt4.
  assert (is01 t4) as H014 by (eapply block_interleave_01; [exact H013|apply replicate_0_01|exact Heq4]).
  destruct (bitarr_inv (take k t4)) as [bs4 Hbs4]; [by apply Forall_take|].
  assert (length bs4 = k) as Hlb4 by (rewrite <-length_bitarr, <-Hbs4, length_take; lia).
  destruct (block_deinterleave_interleave k (interleave_a p) t3 (replicate 432 0%Z)
      (bitarr bs4 ++ drop k (replicate 432 0%Z)) (replicate 432 0%Z))
    as (t4' & t3' & Heq4' & _ & Heqd & Hlt3' & Htake); [done|lia|rewrite ?length_replicate; lia..| |].
  { rewrite length_app, length_bitarr, length_drop, length_replicate. lia. }
  rewrite Heq4 in Heq4'. injection Heq4' as <-. rewrite length_replicate in Hlt3'.
  rewrite take_app_length' in Htake by (rewrite length_bitarr; lia). specialize (Htake (eq_sym Hbs4)).
  destruct (cch_decode_ok p us mother t3') as (dp & Hdp & Hdec); [done..|lia| |].
  { fold k. intros j Hj. rewrite <-(lookup_take_lt t3' k), Htake, lookup_take_lt by lia. apply Hin3; [lia|].
    pose proof (punct_pos_le Rate2_3 j k ltac:(lia)). pose proof (punct_pos_rate2_3 h) as Hfit.
    rewrite <-Hh3, <-Hh2 in Hfit. lia. }
  exists st, dp3, t3, t4, bs4, t3', dp. split_and!; try done.
  rewrite arr_range_Some by lia. by rewrite drop_0, Nat.sub_0_r, Hbs4.
Qed.

(** * Buffers at the ends of the chains *)

Lemma seek_0_ok bb : wf bb → seek 0 bb = Ok tt (set_pos (bb_start bb) bb).
Proof.
  intros [_ Hs Hp _ Hu]. unfold seek, try_seek, mbind, M_bind, get.
  rewrite checked_add_spec, decide_True by lia. rewrite Nat.add_0_r.
  by rewrite (proj2 (Nat.ltb_ge _ _)) by lia.
Qed.

Lemma exec_window bb : wf bb →
  ∃ bb', exec (seek 0;; to_bitarr (get_len bb)) bb = Some (bitarr (window bb), bb').
Proof.
  intros Hwf. pose proof (wf_start _ Hwf). pose proof (wf_pos _ Hwf).
  assert (wf (set_pos (bb_start bb) bb)) as Hwf' by (apply wf_set_pos; [done|lia]).
  eexists. apply exec_ok. erewrite bind_ok by (by apply seek_0_ok).
  rewrite to_bitarr_spec by done. do 2 f_equal. apply take_ge.
  change (remaining (set_pos (bb_start bb) bb)) with (window bb). by rewrite length_window.
Qed.

Lemma exec_scramble code bb bs : holds bb bs →
  ∃ bb', exec (tetra_scramb_bits code) bb = Some (tt, bb') ∧
    holds bb' (xor_bits bs (keystream code (length bs))).
Proof.
  intros Hh. pose proof (holds_len _ _ Hh) as (_ & Hl & Hr & _ & Hp & Hs). destruct Hh as [Hwf Habs].
  destruct (tetra_scramb_bits_spec code bb Hwf) as (bb' & Heq & Hwf' & Habs').
  exists bb'. split; [by apply exec_ok|]. split; [done|].
  rewrite Habs', Hl, Hr, Hp, Hs. f_equal. exact (f_equal a_auto Habs).
Qed.

(** Scrambling twice with one code. *)
Lemma exec_scramble_twice code bb bs : holds bb bs → 
  ∃ bb5 bb4, exec (tetra_scramb_bits code) bb = Some (tt, bb5) ∧
    exec (tetra_scramb_bits code) bb5 = Some (tt, bb4) ∧ holds bb4 bs.
Proof.
  intros Hh. destruct (exec_scramble code bb bs Hh) as (bb5 & Heq5 & H5).
  destruct (exec_scramble code bb5 _ H5) as (bb4 & Heq4 & H4). exists bb5, bb4. split_and!; [done..|].
  rewrite length_xor_bits, xor_bits_invol in H4 by (by rewrite length_keystream). done.
Qed.

Lemma exec_to_bitarr bb bs n : holds bb bs → n = length bs →
  ∃ bb', exec (to_bitarr n) bb = Some (bitarr bs, bb').
Proof.
  intros Hh ->. pose proof (holds_len _ _ Hh) as (_ & Hl & Hr & _). destruct Hh as [Hwf _].
  eexists. apply exec_ok. rewrite to_bitarr_spec by (done || lia). rewrite Hr, take_ge by done. done.
Qed.

Lemma foldM_arr_set (g : nat → Z) n off m (pre rest : list Z) : length pre = n + off → m ≤ length rest →
  foldM (λ i l, arr_set (n + i) (g i) l) (seq off m) (pre ++ rest) =
    Some (pre ++ (g <$> seq off m) ++ drop m rest).
Proof.
  revert off pre rest. induction m as [|m IH]; intros off pre rest Hpre Hrest; [done|].
  destruct rest as [|x rest]; simpl in Hrest; [lia|]. cbn [seq foldM].
  rewrite arr_set_Some by (rewrite length_app; simpl; lia). cbn [mbind option_bind].
  rewrite insert_app_r_alt, Hpre, Nat.sub_diag by lia. cbn [insert list_insert].
  rewrite (cons_middle (g off)), app_assoc. rewrite IH by (rewrite ?length_app; simpl; lia).
  by rewrite <-app_assoc.
Qed.

Lemma append_crc_ok bs rest crc : 16 ≤ length rest →
  append_crc (length bs) crc (bitarr bs ++ rest) =
    Some (bitarr (bs ++ bits_of_Z 16 crc) ++ drop 16 rest).
Proof.
  intros Hr. unfold append_crc. rewrite foldM_arr_set by (rewrite ?length_bitarr; lia).
  rewrite bitarr_app, <-app_assoc. do 3 f_equal. apply list_eq. intros i.
  rewrite list_lookup_fmap, lookup_bitarr, lookup_bits_of_Z. case_decide as Hi.
  - rewrite lookup_seq_lt by done. cbn [fmap option_fmap option_map]. f_equal.
    rewrite land_shiftr_1 by lia. rewrite wrap_small.
    + f_equal. f_equal. lia.
    + pose proof (b2z_is_u (Z.testbit crc (15 - Z.of_nat (0 + i)))). unfold is_u in *. lia.
  - by rewrite lookup_seq_ge by lia.
Qed.

(** The type-2 block: message, checksum and tail. *)
Definition type2_block (bs : list bool) : list bool :=
  bs ++ bits_of_Z 16 (Z.lxor (crc_run 0xffff bs) 0xffff) ++ replicate 4 false.

Lemma length_type2_block bs : length (type2_block bs) = length bs + 20.
Proof. unfold type2_block. rewrite !length_app, length_bits_of_Z, length_replicate. lia. Qed.

Lemma type2_block_end bs : path_end (type2_block bs) 0 = 0.
Proof. unfold type2_block. rewrite app_assoc. apply path_end_tail. lia. Qed.

Lemma type2_block_crc bs rest :
  crc16_ccitt_bits (bitarr (type2_block bs) ++ rest) (length bs + 16) = TETRA_CRC_OK.
Proof.
  unfold crc16_ccitt_bits, crc16_itut_bits. rewrite take_app_le.
  2: { rewrite length_bitarr, length_type2_block. lia. }
  change (crc16_itut_bits 0xffff (bitarr (type2_block bs)) (length bs + 16) = TETRA_CRC_OK).
  rewrite crc16_itut_bits_run. unfold type2_block. rewrite app_assoc.
  rewrite take_app_length' by (rewrite length_app, length_bits_of_Z; lia).
  rewrite crc_run_app. by apply crc_run_not, crc_run_is_u.
Qed.

(** What the encoder builds before the convolutional code. *)
Lemma encode_cp_type2 p bs : cp_params_ok p → length bs = type1_bits p →
  ∃ arr1 arr2, copy_from_slice 0 (bitarr bs) (replicate MAX_TYPE2_BITS 0%Z) = Some arr1 ∧
    arr_range 0 (type1_bits p) arr1 = Some (bitarr bs) ∧
    append_crc (type1_bits p) (Z.lxor (crc16_ccitt_bits (bitarr bs) (type1_bits p)) 0xffff) arr1 = Some arr2 ∧
    arr_range 0 (type2_bits p) arr2 = Some (bitarr (type2_block bs)).
Proof.
  intros (_ & H2 & Hmax & _) Hl. unfold MAX_TYPE2_BITS.
  rewrite (copy_from_slice_0 _ _ (type1_bits p)) by (rewrite ?length_bitarr, ?length_replicate; lia).
  eexists _, _. split; [done|]. split; [apply arr_range_0_app; by rewrite length_bitarr|].
  unfold crc16_ccitt_bits. rewrite crc16_itut_bits_run, take_ge, <-Hl by lia.
  split; [apply append_crc_ok; rewrite length_drop, length_replicate; lia|].
  rewrite drop_drop, drop_replicate.
  replace (288 - (length bs + 16)) with (4 + (288 - (length bs + 20))) by lia.
  rewrite replicate_add, app_assoc. unfold type2_block.
  rewrite (app_assoc bs), (bitarr_app _ (replicate 4 false)), bitarr_replicate.
  apply arr_range_0_app. rewrite length_app, length_bitarr, length_app, length_bits_of_Z, length_replicate. lia.
Qed.

Lemma check_true b : b = true → check b = Some tt.
Proof. by intros ->. Qed.

Lemma check_cp lchan : is_control_channel lchan = true → lchan ≠ Aach →
  check (is_control_channel lchan && bool_decide (lchan ≠ Aach)) = Some tt.
Proof. intros Hc Ha. by rewrite Hc, bool_decide_eq_true_2. Qed.

Section control_plane.
Context (lchan : LogicalChannel) (p : ErrorControlParams) (code : Z).
Context (Hc : is_control_channel lchan = true) (Ha : lchan ≠ Aach).
Context (Hpar : get_params lchan = Some p) (Hp : cp_params_ok p).

(** The encoder, given the results of its stages. *)
Lemma encode_cp_stages bb st dp3 t3 t4 bs4 bb4 bb5 : wf bb → get_len bb = type1_bits p →
  encode conv_new (bitarr (type2_block (window bb))) (replicate (MAX_TYPE345_BITS * 4) 0%Z) = Some (st, dp3) →
  get_punctured_rate Rate2_3 dp3 (replicate MAX_TYPE345_BITS 0%Z) = Some t3 →
  block_interleave (type345_bits p) (interleave_a p) t3 (replicate MAX_TYPE345_BITS 0%Z) = Some t4 →
  arr_range 0 (type345_bits p) t4 = Some (bitarr bs4) → from_bitarr (bitarr bs4) = Some bb4 →
  exec (tetra_scramb_bits code) bb4 = Some (tt, bb5) →
  encode_cp (mkTmvReq bb lchan code) = Some bb5.
Proof using Hc Ha Hpar Hp.
  intros Hwf Hlen He Hpu Hi Hr Hb4 Hs5. pose proof Hp as (Hcrc & _).
  destruct (encode_cp_type2 p (window bb) Hp) as (arr1 & arr2 & E1 & E2 & E3 & E4);
    [by rewrite length_window|].
  destruct (exec_window bb Hwf) as (bbw & Ew). rewrite Hlen in Ew.
  unfold encode_cp. cbn [logical_channel mac_block scrambling_code].
  ostep (check_cp lchan Hc Ha). ostep Hpar. ostep (check_true _ (proj2 (Nat.eqb_eq _ _) Hlen)).
  ostep Ew. ostep E1. ostep (check_true _ Hcrc). ostep E2. ostep E3. ostep E4.
  ostep He. ostep Hpu. ostep Hi. ostep Hr. ostep Hb4. ostep Hs5. done.
Qed.

(** The decoder, given the results of its stages. *)
Lemma decode_cp_stages bt dflt bb5 bb4 bs4 bb4' t3 dp bs bb1 :
  (if bool_decide (bt = SB1) then Some SCRAMB_INIT else dflt) = Some code →
  exec (tetra_scramb_bits code) bb5 = Some (tt, bb4) →
  exec (to_bitarr (type345_bits p)) bb4 = Some (bitarr bs4, bb4') → length bs4 = type345_bits p →
  block_deinterleave (type345_bits p) (interleave_a p)
    (bitarr bs4 ++ drop (type345_bits p) (replicate MAX_TYPE345_BITS 0%Z))
    (replicate MAX_TYPE345_BITS 0%Z) = Some t3 →
  tetra_rcpc_depunct Rate2_3 t3 (type345_bits p) (replicate (MAX_TYPE345_BITS * 4) 0xff%Z) = Some dp →
  dec_sb1 dp (replicate MAX_TYPE2_BITS 0%Z) (type2_bits p) =
    Some (bitarr (type2_block bs) ++ drop (type2_bits p) (replicate MAX_TYPE2_BITS 0%Z)) →
  length bs = type1_bits p → from_bitarr (bitarr bs) = Some bb1 →
  decode_cp lchan (mkTpInd bt bb5) dflt = Some (Some bb1, true).
Proof using Hc Ha Hpar Hp.
  intros Hcode Hs Ht Hl4 Hi Hd Hv Hl H1. pose proof Hp as (Hcrc & H2 & Hmax & (h & Hh2 & Hh3) & _).
  unfold decode_cp. cbn [block_type block].
  ostep (check_cp lchan Hc Ha). ostep Hpar. rewrite Hcode. ostep Hs. ostep Ht.
  rewrite (copy_from_slice_0 _ _ (type345_bits p))
    by (rewrite ?length_bitarr, ?length_replicate; unfold MAX_TYPE345_BITS; lia). cbn [mbind option_bind].
  ostep Hi. ostep Hd. ostep Hv. ostep (check_true _ Hcrc).
  rewrite <-Hl, type2_block_crc. unfold type2_block at 1. rewrite bitarr_app, <-app_assoc.
  rewrite arr_range_0_app by (by rewrite length_bitarr). cbn [mbind option_bind]. by ostep H1.
Qed.
End control_plane.

Lemma cp_roundtrip lchan p code bb bt dflt :
  is_control_channel lchan = true → lchan ≠ Aach → get_params lchan = Some p →
  wf bb → get_len bb = type1_bits p →
  (if bool_decide (bt = SB1) then Some SCRAMB_INIT else dflt) = Some code →
  ∃ bb5 bb1, encode_cp (mkTmvReq bb lchan code) = Some bb5 ∧
    decode_cp lchan (mkTpInd bt bb5) dflt = Some (Some bb1, true) ∧ holds bb1 (window bb) ∧
    get_len bb5 = type345_bits p.
Proof.
  intros Hc Ha Hpar Hwf Hlen Hcode.
  destruct (cp_params lchan Hc Ha) as (p' & Hpar' & Hp). rewrite Hpar in Hpar'. injection Hpar' as <-.
  assert (length (window bb) = type1_bits p) as Hl by (by rewrite length_window).
  pose proof Hp as (_ & H2 & Hmax & (h & Hh2 & Hh3) & _).
  destruct (cch_chain p (type2_block (window bb)))
    as (st & dp3 & t3 & t4 & bs4 & t3' & dp & He & Hpu & Hi & Hr & Hl4 & Hdi & Hdp & Hv);
    [done|rewrite length_type2_block; lia|apply type2_block_end|].
  destruct (from_bitarr_ok bs4) as (bb4 & Hb4 & Hh4); [apply fits_small; lia|].
  destruct (from_bitarr_ok (window bb)) as (bb1 & Hb1 & Hh1); [apply fits_small; lia|].
  destruct (exec_scramble code bb4 bs4 Hh4) as (bb5 & Hs5 & Hh5).
  destruct (exec_scramble code bb5 _ Hh5) as (bb4' & Hs4 & Hh4').
  rewrite length_xor_bits, xor_bits_invol in Hh4' by (by rewrite length_keystream).
  destruct (exec_to_bitarr bb4' bs4 (type345_bits p) Hh4' (eq_sym Hl4)) as (bb4'' & Ht4).
  exists bb5, bb1. split_and!; [|by eapply decode_cp_stages|done|].
  - eapply encode_cp_stages; eauto.
  - destruct (holds_len _ _ Hh5) as [-> _]. by rewrite length_xor_bits by (by rewrite length_keystream).
Qed.

(** C1: for every control channel, every message of the channel's type-1 length
    and every scrambling code, decoding what [encode_cp] produced succeeds with
    a correct CRC and returns exactly the message. *)
Theorem decode_cp_encode_cp lchan p code bb bt dflt :
  is_control_channel lchan = true → lchan ≠ Aach → get_params lchan = Some p →
  wf bb → get_len bb = type1_bits p →
  (if bool_decide (bt = SB1) then Some SCRAMB_INIT else dflt) = Some code →
  ∃ bb5 bb1, encode_cp (mkTmvReq bb lchan code) = Some bb5 ∧
    decode_cp lchan (mkTpInd bt bb5) dflt = Some (Some bb1, true) ∧ holds bb1 (window bb).
Proof. intros. destruct (cp_roundtrip lchan p code bb bt dflt) as (bb5 & bb1 & ? & ? & ? & _); try done. by exists bb5, bb1. Qed.

Lemma decode_cp_encode_cp_witness :
  ∃ bb5 bb1, encode_cp (mkTmvReq (new 60) Bsch SCRAMB_INIT) = Some bb5 ∧
    decode_cp Bsch (mkTpInd SB1 bb5) None = Some (Some bb1, true) ∧ holds bb1 (window (new 60)).
Proof.
  apply (decode_cp_encode_cp Bsch BSCH_PARAMS SCRAMB_INIT (new 60) SB1 None); try done.
  apply wf_new. unfold usize_max. simpl. lia.
Defined.

(** * AACH *)

Lemma xor_bits_swap l k e : xor_bits (xor_bits l k) e = xor_bits (xor_bits l e) k.
Proof.
  revert k e. induction l as [|b l IH]; intros [|c k] [|d e]; try done. simpl.
  f_equal; [by destruct b, c, d|apply IH].
Qed.

Lemma is_u_compute m : is_u 30 (tetra_rm3014_compute m).
Proof.
  rewrite tetra_rm3014_compute_lincomb.
  assert (Forall (is_u 30) RM_30_14_ROWS_PRECOMPUTED) as Hf.
  { repeat (apply Forall_cons; split; [unfold is_u; lia|]). by constructor. }
  induction Hf as [|c cols Hc Hf IH]; cbn [lincomb]; [unfold is_u; lia|].
  apply is_u_lxor; [lia| |done]. case_match; [done|]. unfold is_u; lia.
Qed.

(** The tail of [decode_aach]: shrink the window to 14 bits and overwrite it. *)
Lemma aach_rewrite bb y : wf bb → bb_autoexpand bb = false → 14 ≤ bb_end bb → is_u 14 y →
  ∃ bb', exec (set_raw_start 0;; set_raw_pos 0;; set_raw_end 14;; write_bits y 14;; seek 0) bb =
    Some (tt, bb') ∧ holds bb' (bits_of_Z 14 y).
Proof.
  intros Hwf Hauto He Hy. pose proof Hwf as [Hb Hs Hp Hl Hu].
  set (bb0 := set_end 14 (set_pos 0 (set_start 0 bb))).
  assert (wf bb0) as Hwf0 by (unfold bb0; constructor; cbn; lia || done).
  destruct (writes_bits y 14 ltac:(lia) Hy bb0 Hwf0) as (bb1 & Heq1 & Hwf1 & Habs1).
  { split; [left|]; cbn; unfold usize_max; lia. }
  exists (set_pos (bb_start bb1) bb1). split.
  - apply exec_ok. erewrite bind_ok by (apply set_raw_start_ok; lia).
    erewrite bind_ok by (apply set_raw_pos_ok; cbn; lia).
    erewrite bind_ok by (apply set_raw_end_ok; cbn; lia).
    erewrite bind_ok by exact Heq1. by apply seek_0_ok.
  - split.
    + apply wf_set_pos; [done|]. pose proof (wf_start _ Hwf1). pose proof (wf_pos _ Hwf1). lia.
    + change (abs (set_pos (bb_start bb1) bb1)) with (a_seek (a_start (abs bb1)) (abs bb1)).
      rewrite Habs1. unfold a_seek, a_write, splice, bb0. cbn [a_bits a_pos a_start a_auto abs
        bb_buffer bb_start bb_pos bb_end bb_autoexpand set_start set_pos set_end].
      rewrite Hauto. f_equal. rewrite length_bits_of_Z, drop_ge, app_nil_r; [done|].
      rewrite length_take. lia.
Qed.

Lemma aach_decode_ok rx code m err bs :
  is_u 14 m → bits_of_Z 14 m = bs → single_error err →
  holds rx (xor_bits (xor_bits (bits_of_Z 30 (tetra_rm3014_compute m)) (keystream code 30)) (bits_of_Z 30 err)) →
  ∃ bb1, decode_aach rx code = Some bb1 ∧ holds bb1 bs.
Proof.
  intros Hm Hbs Herr Hrx. set (c := tetra_rm3014_compute m) in *.
  assert (is_u 30 err) as Hue.
  { destruct Herr as [-> | (b & Hb & ->)]; [unfold is_u; lia|]. split; [lia|]. apply Z.pow_lt_mono_r; lia. }
  assert (is_u 30 (Z.lxor c err)) as Hue' by (apply is_u_lxor; [lia|apply is_u_compute|done]).
  rewrite xor_bits_swap, xor_bits_of_Z in Hrx.
  destruct (exec_scramble code _ _ Hrx) as (bb2 & Heq2 & Hh2).
  pose proof (holds_len _ _ Hrx) as (_ & Hlr & _).
  rewrite length_xor_bits, xor_bits_invol, length_bits_of_Z in *
    by (by rewrite length_bits_of_Z, length_keystream).
  pose proof (holds_len _ _ Hh2) as (_ & Hl2 & Hr2 & _ & _ & Hs2). rewrite length_bits_of_Z in Hl2.
  destruct Hh2 as [Hwf2 Habs2]. pose proof (wf_pos _ Hwf2).
  destruct (aach_rewrite (advance 30 bb2) m) as (bb1 & Heq1 & Hh1).
  { apply wf_advance; [done|lia]. }
  { exact (f_equal a_auto Habs2). }
  { unfold get_len_remaining in Hl2. cbn. lia. }
  { done. }
  exists bb1. rewrite <-Hbs. split; [|done]. unfold decode_aach.
  ostep (check_true _ (proj2 (Nat.eqb_eq _ _) Hlr)). ostep Heq2.
  rewrite (exec_ok _ _ (Some (Z.lxor c err)) (advance 30 bb2)).
  2: { rewrite read_bits_spec, decide_True by (done || lia).
       by rewrite Hr2, take_ge, Z_of_bits_of_Z_small by (rewrite ?length_bits_of_Z; done || lia). }
  cbn [mbind option_bind]. rewrite (wrap_small 32) by (unfold is_u in *; lia).
  unfold c. rewrite rm3014_decode_ok by done. by ostep Heq1.
Qed.

Lemma aach_error_ok buf code :
  wf buf → get_len_remaining buf = 14 →
  ∃ bb5 bits5, encode_aach buf code = Some bb5 ∧ holds bb5 bits5 ∧ length bits5 = 30 ∧
    ∀ rx err, single_error err →
      holds rx (xor_bits bits5 (bits_of_Z 30 err)) →
      ∃ bb1, decode_aach rx code = Some bb1 ∧ holds bb1 (remaining buf).
Proof.
  intros Hwf Hlen. set (m := Z_of_bits (remaining buf)).
  assert (length (remaining buf) = 14) as Hl by (by rewrite length_remaining).
  assert (is_u 14 m) as Hm by (exact (Z_of_bits_is_u_len _ 14 Hl)).
  set (c := tetra_rm3014_compute m). pose proof (is_u_compute m) as Hc. fold c in Hc.
  destruct (writes_bits c 30 ltac:(lia) Hc (new 30)) as (bb2 & Heq2 & Hwf2 & Habs2);
    [apply wf_new, fits_small; lia|split; [left|]; cbn; unfold usize_max; lia|].
  assert (holds (set_pos (bb_start bb2) bb2) (bits_of_Z 30 c)) as Hh2.
  { split.
    - apply wf_set_pos; [done|]. pose proof (wf_start _ Hwf2). pose proof (wf_pos _ Hwf2). lia.
    - change (abs (set_pos (bb_start bb2) bb2)) with (a_seek (a_start (abs bb2)) (abs bb2)).
      by rewrite Habs2, abs_new. }
  destruct (exec_scramble code _ _ Hh2) as (bb5 & Heq5 & Hh5). rewrite length_bits_of_Z in Hh5.
  exists bb5, (xor_bits (bits_of_Z 30 c) (keystream code 30)). split_and!; [|done| |].
  - unfold encode_aach. ostep (check_true _ (proj2 (Nat.eqb_eq _ _) Hlen)).
    rewrite (exec_ok _ _ (Some m) (advance 14 buf)).
    2: { rewrite read_bits_spec, decide_True by (done || lia). by rewrite take_ge by lia. }
    cbn [mbind option_bind]. rewrite (wrap_small 16 m) by (unfold is_u in *; lia). fold c.
    rewrite (exec_ok _ _ tt (set_pos (bb_start bb2) bb2)).
    2: { erewrite bind_ok by exact Heq2. by apply seek_0_ok. }
    cbn [mbind option_bind]. by ostep Heq5.
  - by rewrite length_xor_bits; rewrite length_bits_of_Z, ?length_keystream.
  - intros rx err Herr Hrx. apply (aach_decode_ok rx code m err); try done.
    unfold m. rewrite <-Hl. apply bits_of_Z_of_bits.
Qed.

(** The AACH chain.  Whatever 14-bit message is encoded, the receiver gets
    it back, also when any single one of the 30 transmitted bits is flipped. *)
Theorem aach_single_error_roundtrip buf code :
  wf buf → get_len_remaining buf = 14 →
  ∃ bb5 bits5, encode_aach buf code = Some bb5 ∧ holds bb5 bits5 ∧ length bits5 = 30 ∧
    ∀ rx err, single_error err →
      holds rx (xor_bits bits5 (bits_of_Z 30 err)) →
      ∃ bb1, decode_aach rx code = Some bb1 ∧ holds bb1 (remaining buf).
Proof. apply aach_error_ok. Qed.

Lemma aach_single_error_roundtrip_witness :
  ∃ bb5 bits5, encode_aach (new 14) 0x83 = Some bb5 ∧ holds bb5 bits5 ∧ length bits5 = 30 ∧
    ∀ rx err, single_error err →
      holds rx (xor_bits bits5 (bits_of_Z 30 err)) →
      ∃ bb1, decode_aach rx 0x83 = Some bb1 ∧ holds bb1 (remaining (new 14)).
Proof.
  apply (aach_single_error_roundtrip (new 14) 0x83); [|reflexivity].
  apply wf_new, fits_small. lia.
Defined.

(** * Traffic channel *)

Lemma lxor_01 a b : (a = 0 ∨ a = 1)%Z → (b = 0 ∨ b = 1)%Z → (Z.lxor a b = 0 ∨ Z.lxor a b = 1)%Z.
Proof. intros [-> | ->] [-> | ->]; auto. Qed.

Lemma arr_set_01 i x l : i < length l → (x = 0 ∨ x = 1)%Z → is01 l →
  ∃ l', arr_set i x l = Some l' ∧ is01 l' ∧ length l' = length l.
Proof.
  intros Hi Hx Hl. exists (<[i:=x]> l). rewrite arr_set_Some by done. split_and!; [done| |by rewrite length_insert].
  by apply Forall_insert.
Qed.

Lemma lookup_01 l i : is01 l → i < length l → ∃ x, l !! i = Some x ∧ (x = 0 ∨ x = 1)%Z.
Proof.
  intros Hl Hi. destruct (lookup_lt_is_Some_2 l i Hi) as [x Hx]. exists x. split; [done|].
  by eapply (Forall_lookup_1 _ _ _ _ Hl).
Qed.

Lemma speech_crc_reduce_ok w : is01 w → length w = 67 →
  ∃ w', speech_crc_reduce w = Some w' ∧ is01 w' ∧ length w' = 67.
Proof.
  intros H01 Hl. unfold speech_crc_reduce.
  destruct (foldM_total (λ w, is01 w ∧ length w = 67) (λ d w,
    wd ← w !! d;
    if (wd =? 1)%Z then
      w ← arr_set d (Z.lxor wd 1) w; w4 ← w !! (d - 4); w ← arr_set (d - 4) (Z.lxor w4 1) w;
      w7 ← w !! (d - 7); arr_set (d - 7) (Z.lxor w7 1) w
    else Some w) (reverse (seq 7 60)) w) as (w' & Heq & H01' & Hl'); [|done|by exists w'].
  intros d s Hd%elem_of_reverse%elem_of_seq [Hs Hls].
  destruct (lookup_01 s d Hs ltac:(lia)) as (x & -> & Hx). cbn [mbind option_bind].
  destruct (x =? 1)%Z; [|by exists s].
  destruct (arr_set_01 d (Z.lxor x 1) s) as (s1 & -> & Hs1 & Hl1); [lia|by apply lxor_01; auto|done|].
  cbn [mbind option_bind]. destruct (lookup_01 s1 (d - 4) Hs1 ltac:(lia)) as (x4 & -> & Hx4).
  cbn [mbind option_bind].
  destruct (arr_set_01 (d - 4) (Z.lxor x4 1) s1) as (s2 & -> & Hs2 & Hl2); [lia|by apply lxor_01; auto|done|].
  cbn [mbind option_bind]. destruct (lookup_01 s2 (d - 7) Hs2 ltac:(lia)) as (x7 & -> & Hx7).
  cbn [mbind option_bind].
  destruct (arr_set_01 (d - 7) (Z.lxor x7 1) s2) as (s3 & -> & Hs3 & Hl3); [lia|by apply lxor_01; auto|done|].
  exists s3. split_and!; [done..|lia].
Qed.

Lemma parity_01 (g : Z → Z) l acc : (∀ x, x ∈ l → g x = 0 ∨ g x = 1)%Z → (acc = 0 ∨ acc = 1)%Z →
  (foldl (λ a x, Z.lxor a (g x)) acc l = 0 ∨ foldl (λ a x, Z.lxor a (g x)) acc l = 1)%Z.
Proof.
  revert acc. induction l as [|x l IH]; intros acc Hl Hacc; [done|]. apply IH.
  - intros y Hy. apply Hl. by right.
  - apply lxor_01; [done|]. apply Hl. by left.
Qed.

Lemma speech_crc_ok ds : length ds = 60 → ∃ cs, speech_crc (bitarr ds) = Some (bitarr cs) ∧ length cs = 8.
Proof.
  intros Hl. unfold speech_crc. rewrite take_ge by (rewrite length_bitarr; lia).
  assert ((λ b, Z.land b 1) <$> bitarr ds = bitarr ds) as ->.
  { unfold bitarr. rewrite <-list_fmap_compose. apply list_fmap_ext. intros _ b _. by destruct b. }
  rewrite copy_from_slice_Some by (rewrite length_bitarr, length_replicate; lia). cbn [mbind option_bind].
  rewrite check_true by (apply Nat.leb_le; rewrite length_bitarr; lia). cbn [mbind option_bind].
  destruct (speech_crc_reduce_ok (take 7 (replicate 67 0%Z) ++ bitarr ds ++
      drop (7 + length (bitarr ds)) (replicate 67 0%Z))) as (w & -> & H01 & Hlw).
  { repeat apply Forall_app_2; [apply Forall_take, replicate_0_01|apply bitarr_01|apply Forall_drop, replicate_0_01]. }
  { rewrite !length_app, length_take, length_drop, length_bitarr, length_replicate. lia. }
  cbn [mbind option_bind]. cbv zeta. set (par := foldl _ (foldl _ _ _) _).
  assert (is01 (take 7 w)) as H01' by (by apply Forall_take).
  assert (par = 0 ∨ par = 1)%Z as Hpar.
  { unfold par. apply (parity_01 (λ x, x)).
    - intros x Hx. by apply (proj1 (Forall_forall _ _) H01').
    - apply (parity_01 (λ x, Z.land x 1)); [|by left].
      intros x Hx. destruct (proj1 (Forall_forall _ _) (bitarr_01 ds) x Hx) as [-> | ->]; auto. }
  destruct (bitarr_inv (take 7 w ++ [par])) as [cs Hcs].
  { apply Forall_app. split; [done|]. by apply Forall_singleton. }
  exists cs. rewrite Hcs. split; [done|].
  rewrite <-length_bitarr, <-Hcs, length_app, length_take, Hlw. done.
Qed.

(** The transmitted symbol of trellis step [i], as a table lookup. *)
Lemma keeps_by pu w n T (jf : nat → nat) : 0 < w →
  forallb (λ i, (1 <=? jf i) && (jf i <=? n) && (punct_pos pu (jf i) =? i * w + 1)) (seq 0 T) = true →
  keeps pu w n T.
Proof.
  intros Hw Hall i Hi. rewrite forallb_forall in Hall.
  specialize (Hall i). rewrite in_seq, !andb_true_iff, !Nat.leb_le, Nat.eqb_eq in Hall.
  destruct Hall as [[H1 H2] H3]; [lia|]. exists (jf i), 0. split_and!; lia.
Qed.

Lemma keeps_class1 : keeps Rate112_168 3 168 112.
Proof. apply (keeps_by _ _ _ _ (λ i, 3 * (i / 2) + 1 + 2 * (i mod 2))); [lia|]. vm_compute. reflexivity. Qed.

Lemma keeps_class2 : keeps Rate72_162 3 162 72.
Proof.
  apply (keeps_by _ _ _ _ (λ i, 9 * (i / 4) + default 0 ([1; 4; 6; 8] !! (i mod 4)))); [lia|].
  vm_compute. reflexivity.
Qed.

(** One protected class: encode, puncture, depuncture. *)
Lemma speech_class pu s us n w0 : s < 16 → 1 ≤ n → keeps pu 3 n (length us) →
  punct_pos pu n ≤ length us * 3 → w0 = length us * 3 →
  ∃ mother type3 dp,
    speech_encode (st_of s) (bitarr us) (replicate w0 0%Z) = Some (st_of (path_end us s), mother) ∧
    mother = (mother_bits speech_encode_bit (st_of s) (bitarr us)).1 ∧
    get_punctured_rate pu mother (replicate n 0%Z) = Some type3 ∧ length type3 = n ∧ is01 type3 ∧
    tetra_rcpc_depunct pu type3 n (replicate w0 0xff%Z) = Some dp ∧ length dp = w0 ∧
    Forall2 received_ok dp mother ∧ ∀ i, i < length us → some_symbol (slice (i * 3) 3 dp).
Proof.
  intros Hs Hn Hk Hfit ->.
  destruct (mother_bits_01 speech_encode_bit _ s us speech_table_matches Hs) as [H01 Hst].
  pose proof (length_mother_bits 3 speech_encode_bit (st_of s) (bitarr us) ltac:(done)) as Hml.
  rewrite length_bitarr in Hml.
  pose proof (speech_encode_ok (bitarr us) (st_of s) (replicate (length us * 3) 0%Z)) as Henc.
  rewrite length_replicate, length_bitarr, drop_ge in Henc by (rewrite length_replicate; lia).
  specialize (Henc ltac:(lia)).
  destruct (mother_bits speech_encode_bit (st_of s) (bitarr us)) as [mother st]. cbn [fst snd] in *. subst st.
  rewrite app_nil_r in Henc.
  destruct (get_punctured_rate_spec pu mother (replicate n 0%Z)) as (type3 & Heq3 & Hl3 & Hin3).
  { rewrite length_replicate. lia. }
  rewrite length_replicate in Hl3, Hin3.
  destruct (tetra_rcpc_depunct_spec pu type3 n (replicate (length us * 3) 0xff%Z)) as (dp & Heqd & _);
    [lia|rewrite length_replicate; lia|].
  destruct (depunct_received pu mother n type3 dp (length us * 3) 3 (length us)) as (Hld & Hrec & Hsome);
    [done|lia|lia|lia|lia|done|done|done|].
  rewrite take_ge in Hrec by lia. exists mother, type3, dp. split_and!; try done.
  eapply get_punctured_rate_01; [exact H01|apply replicate_0_01|exact Heq3].
Qed.

Lemma mother_bits_app f st l k :
  (mother_bits f st (l ++ k)).1 =
    (mother_bits f st l).1 ++ (mother_bits f (mother_bits f st l).2 k).1.
Proof.
  revert st. induction l as [|b l IH]; intros st; [done|]. cbn [app mother_bits].
  destruct (f st b) as [g st']. specialize (IH st').
  destruct (mother_bits f st' (l ++ k)) as [o1 s1], (mother_bits f st' l) as [o2 s2]. cbn [fst snd] in *.
  by rewrite IH, app_assoc.
Qed.

(** Decoding the two protected classes as one stream. *)
Lemma speech_decode_ok us1 us2 mo1 mo2 dp1 dp2 :
  mo1 = (mother_bits speech_encode_bit (st_of 0) (bitarr us1)).1 →
  mo2 = (mother_bits speech_encode_bit (st_of (path_end us1 0)) (bitarr us2)).1 →
  Forall2 received_ok dp1 mo1 → Forall2 received_ok dp2 mo2 →
  length dp1 = length us1 * 3 → length us1 + length us2 ≤ 1000 →
  (∀ i, i < length us1 → some_symbol (slice (i * 3) 3 dp1)) →
  (∀ i, i < length us2 → some_symbol (slice (i * 3) 3 dp2)) →
  path_end (us1 ++ us2) 0 = 0 →
  ViterbiSpec.decode TetraCodecViterbiDecoder_new (soft_bit <$> dp1 ++ dp2) = bitarr (us1 ++ us2).
Proof.
  intros Hm1 Hm2 Hr1 Hr2 Hl1 Hmax Hs1 Hs2 Hend.
  destruct (mother_bits_01 speech_encode_bit _ 0 us1 speech_table_matches ltac:(lia)) as [_ Hst].
  destruct (flat_reception speech_encode_bit TetraCodecViterbiDecoder_new speech_table_matches 3 0
    (us1 ++ us2) (dp1 ++ dp2)) as (dss & Hdss & Hrcp & Hldss); [done|lia|lia| | |].
  { rewrite bitarr_app, mother_bits_app, Hst, <-Hm1, <-Hm2. by apply Forall2_app. }
  { intros i Hi. rewrite length_app in Hi. destruct (decide (i < length us1)).
    - rewrite slice_app_l by lia. by apply Hs1.
    - rewrite slice_app_r by lia. replace (i * 3 - length dp1) with ((i - length us1) * 3) by lia.
      apply Hs2. lia. }
  rewrite Hdss. eapply decode_reception;
    [exact speech_table_matches|apply good_rows_new|by apply Nat.ltb_lt|exact Hrcp|done|].
  change (length TetraCodecViterbiDecoder_new) with 3. rewrite Hldss, length_app.
  change (METRIC_MAX / 2)%Z with 16383%Z. lia.
Qed.

(** The class-2 block: data, CRC, tail. *)
Lemma class2_type2_ok c2 cs : length c2 = 60 → length cs = 8 →
  (a ← copy_from_slice 0 (bitarr c2) (replicate CLASS2_TYPE2 0%Z); copy_from_slice CLASS2_BITS (bitarr cs) a)
  = Some (bitarr (c2 ++ cs ++ replicate 4 false)).
Proof.
  intros H2 Hc. change (replicate CLASS2_TYPE2 0%Z) with ([] ++ replicate 60 0%Z ++ replicate 12 0%Z).
  rewrite copy_from_slice_mid by (rewrite ?length_bitarr, ?length_replicate; done). cbn [mbind option_bind app].
  change (replicate 12 0%Z) with (replicate 8 0%Z ++ replicate 4 0%Z).
  rewrite copy_from_slice_mid by (rewrite ?length_bitarr, ?length_replicate; done).
  by rewrite !bitarr_app, bitarr_replicate.
Qed.

(** The type-3 block of a type-1 block in channel order, given its stages. *)
Lemma encode_tp_type3_stages c0 c1 c2 cs mo1 mo2 p1 p2 st1 st2 :
  length c0 = 102 → length c1 = 112 → length c2 = 60 → length cs = 8 →
  speech_crc (bitarr c2) = Some (bitarr cs) →
  speech_encode conv_new (bitarr c1) (replicate (CLASS1_BITS * 3) 0%Z) = Some (st1, mo1) →
  get_punctured_rate Rate112_168 mo1 (replicate 168 0%Z) = Some p1 → length p1 = 168 →
  speech_encode st1 (bitarr (c2 ++ cs ++ replicate 4 false)) (replicate (CLASS2_TYPE2 * 3) 0%Z) = Some (st2, mo2) →
  get_punctured_rate Rate72_162 mo2 (replicate 162 0%Z) = Some p2 → length p2 = 162 →
  encode_tp_type3 (bitarr (c0 ++ c1 ++ c2)) = Some (bitarr c0 ++ p1 ++ p2).
Proof.
  intros H0 H1 H2 Hlc Hcs He1 Hp1 Hl1 He2 Hp2 Hl2. unfold encode_tp_type3. rewrite !bitarr_app.
  pose proof (length_bitarr c0) as L0. pose proof (length_bitarr c1) as L1. pose proof (length_bitarr c2) as L2.
  rewrite H0 in L0. rewrite H1 in L1. rewrite H2 in L2.
  unfold CLASS0_BITS, CLASS1_BITS, CLASS2_BITS, MAX_TYPE345_BITS in *.
  rewrite arr_range_0_app by done. cbn [mbind option_bind].
  change (replicate 432 0%Z) with ([] ++ replicate 102 0%Z ++ replicate 168 0%Z ++ replicate 162 0%Z).
  rewrite copy_from_slice_mid by (rewrite ?length_replicate; done). cbn [mbind option_bind app].
  rewrite (arr_range_mid (bitarr c0) (bitarr c1) (bitarr c2) 102 (102 + 112)) by (rewrite ?L0, ?L1; done). cbn [mbind option_bind].
  ostep He1. ostep Hp1.
  rewrite copy_from_slice_mid by (rewrite ?length_replicate; done). cbn [mbind option_bind].
  rewrite arr_range_end by (rewrite ?L0, ?L1, ?L2; done). cbn [mbind option_bind].
  pose proof (class2_type2_ok c2 cs H2 Hlc) as Ht2. unfold CLASS2_BITS in Ht2.
  destruct (copy_from_slice 0 (bitarr c2) _) as [a|]; [|done]. cbn [mbind option_bind] in Ht2 |- *.
  ostep Hcs. ostep Ht2. ostep He2. ostep Hp2.
  by rewrite copy_from_slice_end by (rewrite ?length_replicate, ?L0, ?Hl1; done).
Qed.

(** The decoder, given the results of its stages. *)
Lemma decode_tp_type3_stages c0 c1 c2 cs p1 p2 dp1 dp2 :
  length c0 = 102 → length c1 = 112 → length c2 = 60 → length cs = 8 →
  speech_crc (bitarr c2) = Some (bitarr cs) → length p1 = 168 → length p2 = 162 →
  tetra_rcpc_depunct Rate112_168 p1 168 (replicate (CLASS1_BITS * 3) 0xff%Z) = Some dp1 → length dp1 = 336 →
  tetra_rcpc_depunct Rate72_162 p2 162 (replicate (CLASS2_TYPE2 * 3) 0xff%Z) = Some dp2 → length dp2 = 216 →
  ViterbiSpec.decode TetraCodecViterbiDecoder_new (soft_bit <$> dp1 ++ dp2) =
    bitarr (c1 ++ c2 ++ cs ++ replicate 4 false) →
  decode_tp_type3 (bitarr c0 ++ p1 ++ p2) = Some (bitarr (c0 ++ c1 ++ c2), true).
Proof.
  intros H0 H1 H2 Hlc Hcs Hl1 Hl2 Hd1 Hld1 Hd2 Hld2 Hdec. unfold decode_tp_type3.
  pose proof (length_bitarr c0) as L0. pose proof (length_bitarr c1) as L1. pose proof (length_bitarr c2) as L2.
  pose proof (length_bitarr cs) as Lc. rewrite H0 in L0. rewrite H1 in L1. rewrite H2 in L2. rewrite Hlc in Lc.
  unfold CLASS0_BITS, CLASS1_BITS, CLASS2_BITS, CLASS1_TYPE3, CLASS2_TYPE3, CLASS2_TYPE2, MAX_TYPE1_BITS in *.
  rewrite arr_range_0_app by done. cbn [mbind option_bind].
  change (replicate 274 0%Z) with ([] ++ replicate 102 0%Z ++ replicate 112 0%Z ++ replicate 60 0%Z).
  rewrite copy_from_slice_mid by (rewrite ?length_replicate; done). cbn [mbind option_bind app].
  rewrite (arr_range_mid (bitarr c0) p1 p2 102 (102 + 168)) by (rewrite ?L0, ?Hl1; done). cbn [mbind option_bind].
  ostep Hd1. rewrite arr_range_end by (rewrite ?L0, ?Hl1, ?Hl2; done). cbn [mbind option_bind]. ostep Hd2.
  change (replicate ((112 + 72) * 3) 0xff%Z) with ([] ++ replicate 336 0xff%Z ++ replicate 216 0xff%Z).
  rewrite copy_from_slice_mid by (rewrite ?length_replicate; done). cbn [mbind option_bind app].
  rewrite copy_from_slice_tail by (rewrite ?length_replicate, ?Hld1; done). cbn [mbind option_bind app].
  rewrite Hdec, !bitarr_app. cbv zeta.
  rewrite arr_range_0_app by done. cbn [mbind option_bind].
  rewrite copy_from_slice_mid by (rewrite ?length_replicate, ?L0, ?L1; done). cbn [mbind option_bind].
  set (tail := bitarr (replicate 4 false)).
  rewrite arr_range_tail by (rewrite ?length_app, ?L1; done). cbn [mbind option_bind].
  rewrite arr_range_0_app by done. cbn [mbind option_bind].
  rewrite arr_range_mid by (rewrite ?L2, ?Lc; done). cbn [mbind option_bind]. ostep Hcs.
  rewrite bool_decide_eq_true_2 by done.
  by rewrite copy_from_slice_end by (rewrite ?length_replicate, ?L0, ?L1; done).
Qed.

Lemma tp_type3_roundtrip c0 c1 c2 : length c0 = 102 → length c1 = 112 → length c2 = 60 →
  ∃ t3, encode_tp_type3 (bitarr (c0 ++ c1 ++ c2)) = Some t3 ∧ length t3 = 432 ∧ is01 t3 ∧
    decode_tp_type3 t3 = Some (bitarr (c0 ++ c1 ++ c2), true).
Proof.
  intros H0 H1 H2. destruct (speech_crc_ok c2 H2) as (cs & Hcs & Hlc).
  set (us2 := c2 ++ cs ++ replicate 4 false).
  assert (length us2 = 72) as Hl2 by (unfold us2; rewrite !length_app, length_replicate; lia).
  destruct (speech_class Rate112_168 0 c1 168 (CLASS1_BITS * 3))
    as (mo1 & p1 & dp1 & He1 & Hm1 & Hp1 & Hlp1 & H01p1 & Hd1 & Hld1 & Hr1 & Hs1);
    [lia|lia|rewrite H1; apply keeps_class1|rewrite H1; by apply Nat.leb_le|by rewrite H1|].
  destruct (speech_class Rate72_162 (path_end c1 0) us2 162 (CLASS2_TYPE2 * 3))
    as (mo2 & p2 & dp2 & He2 & Hm2 & Hp2 & Hlp2 & H01p2 & Hd2 & Hld2 & Hr2 & Hs2);
    [apply path_end_lt; lia|lia|rewrite Hl2; apply keeps_class2|rewrite Hl2; by apply Nat.leb_le|by rewrite Hl2|].
  exists (bitarr c0 ++ p1 ++ p2). split_and!.
  - by eapply encode_tp_type3_stages.
  - rewrite !length_app, length_bitarr. lia.
  - repeat apply Forall_app_2; [apply bitarr_01|done|done].
  - eapply decode_tp_type3_stages; try done. fold us2.
    eapply speech_decode_ok; try done; [by rewrite H1|lia|].
    unfold us2. rewrite !app_assoc. apply path_end_tail. lia.
Qed.

Lemma reorder_bits bs : length bs = 274 →
  ∃ ch, codec_to_channel 0%Z (bitarr bs) = Some (bitarr ch) ∧ length ch = 274 ∧
    channel_to_codec 0%Z (bitarr ch) = Some (bitarr bs).
Proof.
  intros Hl. destruct (codec_channel_codec 0%Z (bitarr bs)) as (channel & Hch & Hlc & Hback).
  { by rewrite length_bitarr. }
  destruct (bitarr_inv channel) as [ch ->].
  { rewrite codec_to_channel_pairs in Hch. revert Hch. unfold copy_pairs. apply foldM_inv; [|apply replicate_0_01].
    intros i s s' _ Hs. apply copy_at_Forall; [apply bitarr_01|done]. }
  rewrite length_bitarr in Hlc. by exists ch.
Qed.

(** Matrix interleaving of a type-3 block, and back from the descrambled buffer. *)
Lemma tp_interleave t3 : length t3 = 432 → is01 t3 →
  ∃ t4 bs4, matrix_interleave 24 18 t3 (replicate 432 0%Z) = Some t4 ∧
    arr_range 0 432 t4 = Some (bitarr bs4) ∧ length bs4 = 432 ∧
    matrix_deinterleave 24 18 (bitarr bs4) (replicate 432 0%Z) = Some t3.
Proof.
  intros Hl H01.
  destruct (matrix_interleave_spec 24 18 t3 (replicate 432 0%Z)) as (t4 & Heq4 & Hl4 & _);
    [rewrite Hl; apply Nat.leb_le; done|apply Nat.leb_le; done|].
  rewrite length_replicate in Hl4.
  destruct (bitarr_inv t4) as [bs4 ->].
  { eapply matrix_interleave_01; [exact H01|apply replicate_0_01|exact Heq4]. }
  rewrite length_bitarr in Hl4.
  destruct (matrix_deinterleave_interleave 24 18 t3 (replicate 432 0%Z) (bitarr bs4) (replicate 432 0%Z))
    as (t4' & t3' & Heq4' & _ & Heq3 & Hl3 & Htake);
    [rewrite ?Hl, ?length_bitarr, ?length_replicate, ?Hl4; apply Nat.leb_le; done..|].
  rewrite Heq4 in Heq4'. injection Heq4' as <-. specialize (Htake eq_refl).
  rewrite length_replicate in Hl3. rewrite !take_ge in Htake by (rewrite ?Hl3, ?Hl; apply Nat.leb_le; done).
  exists (bitarr bs4), bs4. subst t3'. split_and!; try done.
  rewrite arr_range_Some by (rewrite ?length_bitarr; lia). rewrite drop_0, Nat.sub_0_r, take_ge; [done|].
  rewrite length_bitarr. lia.
Qed.

Lemma exec_seek_to_bitarr bb bs n : holds bb bs → n = length bs →
  ∃ bb', exec (seek 0;; to_bitarr n) bb = Some (bitarr bs, bb').
Proof.
  intros Hh ->. pose proof (holds_len _ _ Hh) as (Hl & _ & _ & Hw & _).
  destruct (exec_window bb (proj1 Hh)) as (bb' & Heq). rewrite Hl, Hw in Heq. by exists bb'.
Qed.

(** The traffic encoder up to the scrambled full-slot block. *)
Lemma encode_tp_ok bb code : wf bb → get_len bb = 274 →
  ∃ ch t3 bs4 bb5,
    channel_to_codec 0%Z (bitarr ch) = Some (bitarr (window bb)) ∧ length ch = 274 ∧
    decode_tp_type3 t3 = Some (bitarr ch, true) ∧
    matrix_deinterleave 24 18 (bitarr bs4) (replicate 432 0%Z) = Some t3 ∧ length bs4 = 432 ∧
    holds bb5 (xor_bits bs4 (keystream code 432)) ∧
    ∀ blk, encode_tp (mkTmvReq bb TchS code) blk =
      (if (blk =? 1)%Z then Some bb5
       else from_bitarr (drop 216 (bitarr (xor_bits bs4 (keystream code 432))))).
Proof.
  intros Hwf Hlen. assert (length (window bb) = 274) as Hl by (by rewrite length_window).
  destruct (reorder_bits (window bb) Hl) as (ch & Hch & Hlch & Hback).
  assert (ch = take 102 ch ++ take 112 (drop 102 ch) ++ drop 214 ch) as Hsplit.
  { rewrite <-(take_drop 102 ch) at 1. f_equal. rewrite <-(take_drop 112 (drop 102 ch)) at 1.
    by rewrite drop_drop. }
  destruct (tp_type3_roundtrip (take 102 ch) (take 112 (drop 102 ch)) (drop 214 ch)) as (t3 & He3 & Hl3 & H013 & Hd3);
    [rewrite ?length_take, ?length_drop; lia..|]. rewrite <-Hsplit in He3, Hd3.
  destruct (tp_interleave t3 Hl3 H013) as (t4 & bs4 & Hi4 & Hr4 & Hl4 & Hd4).
  destruct (from_bitarr_ok bs4) as (bb4 & Hb4 & Hh4); [apply fits_small; lia|].
  destruct (exec_scramble code bb4 bs4 Hh4) as (bb5 & Hs5 & Hh5). rewrite Hl4 in Hh5.
  exists ch, t3, bs4, bb5. split_and!; try done. intros blk.
  destruct (exec_window bb Hwf) as (bbw & Ew). rewrite Hlen in Ew.
  unfold encode_tp. cbn [logical_channel mac_block scrambling_code get_params mbind option_bind].
  rewrite Hlen. change (274 `min` type1_bits TCH_S_PARAMS) with 274. ostep Ew.
  change MAX_TYPE1_BITS with 274.
  rewrite (copy_from_slice_0 _ _ 274) by (rewrite ?length_bitarr, ?length_replicate; lia).
  cbn [mbind option_bind]. rewrite drop_ge, app_nil_r by (rewrite length_replicate; lia).
  rewrite bool_decide_eq_true_2 by done. rewrite Nat.eqb_refl. cbn [andb].
  rewrite arr_range_Some by (rewrite ?length_bitarr; lia). cbn [mbind option_bind].
  rewrite drop_0, Nat.sub_0_r, take_ge by (rewrite length_bitarr; lia). ostep Hch.
  rewrite (copy_from_slice_0 _ _ 274) by (rewrite ?length_bitarr; lia). cbn [mbind option_bind].
  rewrite drop_ge, app_nil_r by (rewrite length_bitarr; lia). ostep He3.
  unfold MAX_TYPE345_BITS. ostep Hi4. change (type345_bits TCH_S_PARAMS) with 432. ostep Hr4. ostep Hb4. ostep Hs5.
  destruct (blk =? 1)%Z; [done|].
  assert (length (xor_bits bs4 (keystream code 432)) = 432) as Hlx.
  { by rewrite length_xor_bits by (by rewrite length_keystream). }
  destruct (exec_seek_to_bitarr bb5 _ 432 Hh5 (eq_sym Hlx)) as (bb5' & E5). ostep E5.
  rewrite (copy_from_slice_0 _ _ 432) by (rewrite ?length_bitarr, ?length_replicate; lia).
  cbn [mbind option_bind]. rewrite (drop_ge (replicate 432 _)), app_nil_r by (rewrite length_replicate; lia).
  unfold MAX_TYPE345_HALFSLOT_BITS. rewrite arr_range_Some by (rewrite ?length_bitarr; lia). cbn [mbind option_bind].
  by rewrite take_ge by (rewrite length_drop, length_bitarr; lia).
Qed.

Lemma tp_roundtrip bb code : wf bb → get_len bb = 274 →
  ∃ bb5 bb1, encode_tp (mkTmvReq bb TchS code) 1 = Some bb5 ∧
    decode_tp TchS bb5 code = Some (Some bb1, true) ∧ holds bb1 (window bb) ∧ get_len bb5 = 432.
Proof.
  intros Hwf Hlen. assert (length (window bb) = 274) as Hl by (by rewrite length_window).
  destruct (encode_tp_ok bb code Hwf Hlen) as (ch & t3 & bs4 & bb5 & Hback & Hlch & Hd3 & Hd4 & Hl4 & Hh5 & He).
  destruct (from_bitarr_ok (window bb)) as (bb1 & Hb1 & Hh1); [apply fits_small; lia|].
  destruct (exec_scramble code bb5 _ Hh5) as (bb4 & Hs4 & Hh4).
  rewrite length_xor_bits, Hl4, xor_bits_invol in Hh4 by (by rewrite length_keystream).
  exists bb5, bb1. split_and!; [done| |done|destruct (holds_len _ _ Hh5) as [-> _]; rewrite length_xor_bits by (by rewrite length_keystream); done].
  destruct (exec_seek_to_bitarr bb4 bs4 432 Hh4 (eq_sym Hl4)) as (bb4' & E4).
  unfold decode_tp. rewrite bool_decide_eq_true_2 by done. cbn [check mbind option_bind get_params].
  ostep Hs4. change (type345_bits TCH_S_PARAMS) with 432. ostep E4. unfold MAX_TYPE345_BITS.
  rewrite (copy_from_slice_0 _ _ 432) by (rewrite ?length_bitarr, ?length_replicate; lia).
  cbn [mbind option_bind]. rewrite (drop_ge (replicate 432 _)), app_nil_r by (rewrite length_replicate; lia).
  ostep Hd4. ostep Hd3. rewrite arr_range_Some by (rewrite ?length_bitarr; lia). cbn [mbind option_bind].
  rewrite drop_0, Nat.sub_0_r, take_ge by (rewrite length_bitarr; lia). ostep Hback. by ostep Hb1.
Qed.

(** Full-slot speech.  Decoding what [encode_tp] produced for a 274-bit ACELP
    block gives back the block, with a correct speech CRC. *)
Theorem decode_tp_encode_tp bb code : wf bb → get_len bb = 274 →
  ∃ bb5 bb1, encode_tp (mkTmvReq bb TchS code) 1 = Some bb5 ∧
    decode_tp TchS bb5 code = Some (Some bb1, true) ∧ holds bb1 (window bb).
Proof. intros. destruct (tp_roundtrip bb code) as (bb5 & bb1 & ? & ? & ? & _); try done. by exists bb5, bb1. Qed.

Lemma decode_tp_encode_tp_witness :
  ∃ bb5 bb1, encode_tp (mkTmvReq (new 274) TchS 0x83) 1 = Some bb5 ∧
    decode_tp TchS bb5 0x83 = Some (Some bb1, true) ∧ holds bb1 (window (new 274)).
Proof. apply (decode_tp_encode_tp (new 274) 0x83); [apply wf_new, fits_small; lia|reflexivity]. Defined.

(** A half slot of speech (the first half stolen for signalling) is the
    second half of the full-slot block. *)
Theorem encode_tp_half_slot bb code blk : wf bb → get_len bb = 274 → blk ≠ 1%Z →
  ∃ full half bits, encode_tp (mkTmvReq bb TchS code) 1 = Some full ∧ holds full bits ∧
    encode_tp (mkTmvReq bb TchS code) blk = Some half ∧ holds half (drop 216 bits).
Proof.
  intros Hwf Hlen Hblk.
  destruct (encode_tp_ok bb code Hwf Hlen) as (ch & t3 & bs4 & bb5 & _ & _ & _ & _ & Hl4 & Hh5 & He).
  set (bits := xor_bits bs4 (keystream code 432)) in *.
  destruct (from_bitarr_ok (drop 216 bits)) as (half & Hhalf & Hhh).
  { apply fits_small. unfold bits. rewrite length_drop, length_xor_bits; rewrite ?length_keystream; lia. }
  exists bb5, half, bits. split_and!; [by rewrite He|done| |done].
  rewrite He, (proj2 (Z.eqb_neq _ _) Hblk). unfold bitarr. by rewrite <-fmap_drop.
Qed.

Lemma encode_tp_half_slot_witness :
  ∃ full half bits, encode_tp (mkTmvReq (new 274) TchS 0x83) 1 = Some full ∧ holds full bits ∧
    encode_tp (mkTmvReq (new 274) TchS 0x83) 2 = Some half ∧ holds half (drop 216 bits).
Proof. apply (encode_tp_half_slot (new 274) 0x83 2); [apply wf_new, fits_small; lia|reflexivity|done]. Defined.
