(* ===== verification/Fillbits.v ===== *)
(** Fill bits ([tetra-entities/src/umac/subcomp/fillbits.rs]): a MAC PDU that
    does not end on the boundary it is padded to is followed by a 1 and zeroes.

    [isize] indices of the source are [nat]: the loop that counts [index] down
    to the cursor is a recursion on [index + 1]. *)
From S2P Require Import Prelude Bits Core BitBuffer BitBufferSpec BitCodec BitBufferThms.

(** * Removal *)

(** [while index >= bitbuf.get_pos()], with [n = index + 1]. *)
Fixpoint fill_scan (n pdu_len_bits : nat) : B nat :=
  match n with
  | O => mret 0
  | S index =>
      bb ← get;
      if get_pos bb <=? index then
        ov ← peek_bits_startoffset index 1;
        bit ← unwrap ov;
        if (bit =? 0)%Z then fill_scan index pdu_len_bits else mret (pdu_len_bits - index)
      else mret 0
  end.

Definition get_num_fill_bits (pdu_len_bits : nat) : B nat := fill_scan pdu_len_bits pdu_len_bits.

(** * Addition *)

Definition compute_required_bytealigned (total_pdu_sdu_len_bits : nat) : nat :=
  (8 - total_pdu_sdu_len_bits mod 8) mod 8.

Definition compute_required (total_pdu_sdu_len_bits dest_cap_left : nat) : nat :=
  if dest_cap_left <=? total_pdu_sdu_len_bits then 0
  else
    let bytealigned_fill_bits := compute_required_bytealigned total_pdu_sdu_len_bits in
    if total_pdu_sdu_len_bits + bytealigned_fill_bits <=? dest_cap_left
    then bytealigned_fill_bits
    else dest_cap_left - total_pdu_sdu_len_bits.

Definition fill_write (num_fill_bits : option nat) : B unit :=
  match num_fill_bits with
  | Some num_fill_bits =>
      if 0 <? num_fill_bits then write_bit 1;; write_zeroes (num_fill_bits - 1) else mret tt
  | None =>
      bb ← get;
      if 0 <? get_len_remaining bb then
        write_bit 1;;
        bb ← get;
        write_zeroes (get_len_remaining bb)
      else mret tt
  end.

(** * Specifications *)

(** The pattern of [k] fill bits. *)
Definition fill_pattern (k : nat) : list bool :=
  match k with O => [] | S k => true :: replicate k false end.

Lemma length_fill_pattern k : length (fill_pattern k) = k.
Proof. destruct k; [done|]. simpl. by rewrite length_replicate. Qed.

Lemma writes_fill k : writes (fill_write (Some k)) (fill_pattern k).
Proof.
  destruct k as [|k]; [apply writes_ret|]. unfold fill_write. cbn [Nat.ltb Nat.leb].
  apply (writes_bind _ _ [true] (replicate k false)); [exact (writes_bit true)|].
  replace (S k - 1) with k by lia. apply writes_zeroes.
Qed.

(** Without a count, a buffer of fixed size is filled to its end. *)
Lemma fill_write_rest bb : wf bb → bb_autoexpand bb = false →
  ∃ bb', fill_write None bb = Ok tt bb' ∧ wf bb' ∧
    abs bb' = a_write (fill_pattern (get_len_remaining bb)) (abs bb).
Proof.
  intros Hwf Hfix. unfold fill_write. erewrite (bind_ok get) by done.
  destruct (Nat.ltb_spec 0 (get_len_remaining bb)) as [Hr|Hr].
  2: { exists bb. replace (get_len_remaining bb) with 0 by lia. by rewrite a_write_nil. }
  unfold get_len_remaining in *. pose proof (wf_usize _ Hwf).
  destruct (writes_bit true bb) as (bb1 & Heq1 & Hwf1 & Habs1); [done|split; [left; simpl; lia|simpl; lia]|].
  destruct (wrote_fixed bb Hwf Hfix bb1 [true]) as (Hf1 & He1 & Hp1); [done..|simpl; lia|]. simpl in Hp1.
  change (Z.b2z true) with 1%Z in Heq1. erewrite bind_ok by exact Heq1. erewrite (bind_ok get) by done.
  unfold get_len_remaining. rewrite He1, Hp1.
  destruct (writes_zeroes (bb_end bb - (bb_pos bb + 1)) bb1) as (bb2 & Heq2 & Hwf2 & Habs2); [done| |].
  { rewrite length_replicate. split; [left; lia|lia]. }
  exists bb2. split; [done|]. split; [done|]. rewrite Habs2, Habs1, a_write_app by (by apply abs_pos_le).
  replace (bb_end bb - bb_pos bb) with (S (bb_end bb - (bb_pos bb + 1))) by lia. done.
Qed.

Lemma peek_one_bit bb i b : wf bb → a_bits (abs bb) !! (bb_start bb + i) = Some b →
  peek_bits_startoffset i 1 bb = Ok (Some (Z.b2z b)) bb.
Proof.
  intros Hwf Hb. assert (bb_start bb + i < bb_end bb).
  { rewrite <-(length_abs bb) by done. by eapply lookup_lt_Some. }
  rewrite peek_bits_startoffset_spec, decide_True by (done || lia).
  unfold slice. rewrite (drop_S _ b) by done. by destruct b.
Qed.

(** One turn of the loop, at or above the cursor. *)
Lemma fill_scan_step bb i len (b : bool) : wf bb → get_pos bb ≤ i →
  a_bits (abs bb) !! (bb_start bb + i) = Some b →
  fill_scan (S i) len bb = if b then Ok (len - i) bb else fill_scan i len bb.
Proof.
  intros Hwf Hi Hb. cbn [fill_scan]. erewrite (bind_ok get) by done.
  rewrite (proj2 (Nat.leb_le _ _)) by lia.
  erewrite bind_ok by (by apply peek_one_bit). erewrite bind_ok by done. by destruct b.
Qed.

(** Scanning back over [j] zeroes that follow a 1. *)
Lemma fill_scan_zeroes bb i j len : wf bb → get_pos bb ≤ i →
  a_bits (abs bb) !! (bb_start bb + i) = Some true →
  (∀ m, m < j → a_bits (abs bb) !! (bb_start bb + (S i + m)) = Some false) →
  fill_scan (S i + j) len bb = Ok (len - i) bb.
Proof.
  intros Hwf Hi H1 Hz. induction j as [|j IH].
  - rewrite Nat.add_0_r. by rewrite (fill_scan_step _ _ _ true).
  - replace (S i + S j) with (S (S i + j)) by lia.
    rewrite (fill_scan_step _ _ _ false); [|done|lia|apply Hz; lia].
    apply IH. intros m Hm. apply Hz. lia.
Qed.

Lemma fill_pattern_lookup k i : i < k →
  fill_pattern k !! i = Some (bool_decide (i = 0)).
Proof.
  intros Hi. destruct k as [|k]; [lia|]. destruct i as [|i]; [done|].
  change (replicate k false !! i = Some (bool_decide (S i = 0))).
  rewrite lookup_replicate_2 by lia. by rewrite bool_decide_false by lia.
Qed.

(** Fill bits are found again.  After [k > 0] fill bits are written at the
    cursor (with the count given, or to the end of a buffer of fixed size), the
    receiver that scans the PDU back from its end, from any read position at or
    before the first fill bit, counts exactly [k]. *)
Theorem fill_bits_roundtrip bb k p :
  wf bb → 0 < k → can_write bb k → bb_start bb ≤ p ≤ bb_pos bb →
  ∃ bb', fill_write (Some k) bb = Ok tt bb' ∧ wf bb' ∧
    abs bb' = a_write (fill_pattern k) (abs bb) ∧
    get_num_fill_bits (get_pos bb') (set_pos p bb') = Ok k (set_pos p bb') ∧
    (bb_autoexpand bb = false → k = get_len_remaining bb →
       ∃ bb'', fill_write None bb = Ok tt bb'' ∧ abs bb'' = abs bb').
Proof.
  intros Hwf Hk Hcan Hp.
  destruct (writes_fill k bb) as (bb' & Heq & Hwf' & Habs); [done|by rewrite length_fill_pattern|].
  exists bb'. do 3 (split; [done|]). split.
  2: { intros Hfix ->. destruct (fill_write_rest bb) as (bb'' & ? & _ & ?); [done..|].
       exists bb''. split; [done|congruence]. }
  assert (bb_start bb' = bb_start bb) as Hst by exact (f_equal a_start Habs).
  assert (bb_pos bb' = bb_pos bb + k) as Hps.
  { rewrite <-(length_fill_pattern k). exact (f_equal a_pos Habs). }
  pose proof (abs_pos_le _ Hwf) as Hle. change (a_pos (abs bb)) with (bb_pos bb) in Hle.
  assert (∀ i, i < k → a_bits (abs bb') !! (bb_pos bb + i) = Some (bool_decide (i = 0))) as Hpat.
  { intros i Hi. rewrite Habs. cbn [a_write a_bits]. change (a_pos (abs bb)) with (bb_pos bb).
    rewrite lookup_splice, length_fill_pattern, decide_True by lia.
    rewrite <-(fill_pattern_lookup k) by done. f_equal. lia. }
  pose proof (wf_pos _ Hwf'). set (b := set_pos p bb').
  assert (wf b) as Hwfb by (apply wf_set_pos; [done|lia]).
  unfold get_num_fill_bits, get_pos.
  replace (bb_pos bb' - bb_start bb') with (S (get_pos bb) + (k - 1)) by (unfold get_pos; lia).
  rewrite (fill_scan_zeroes b (get_pos bb)).
  - f_equal. lia.
  - done.
  - unfold get_pos, b. cbn [bb_pos bb_start set_pos]. lia.
  - change (abs b) with (a_seek p (abs bb')). cbn [a_bits a_seek]. change (bb_start b) with (bb_start bb').
    replace (bb_start bb' + get_pos bb) with (bb_pos bb + 0) by (unfold get_pos; lia). by apply Hpat.
  - intros m Hm. change (abs b) with (a_seek p (abs bb')). cbn [a_bits a_seek].
    change (bb_start b) with (bb_start bb').
    replace (bb_start bb' + (S (get_pos bb) + m)) with (bb_pos bb + S m) by (unfold get_pos; lia).
    rewrite Hpat by lia. done.
Qed.

Lemma fill_bits_roundtrip_witness : ∃ bb',
  fill_write (Some 5) (set_pos 3 (new 8)) = Ok tt bb' ∧
  get_num_fill_bits (get_pos bb') (set_pos 0 bb') = Ok 5 (set_pos 0 bb').
Proof.
  destruct (fill_bits_roundtrip (set_pos 3 (new 8)) 5 0) as (bb' & H1 & _ & _ & H2 & _).
  - apply wf_set_pos; [|simpl; lia]. apply wf_new. unfold usize_max. vm_compute. congruence.
  - lia.
  - split; [left; simpl; lia|]. unfold usize_max. simpl. lia.
  - simpl. lia.
  - by exists bb'.
Defined.

(** The computed padding never overflows the slot, is less than one byte,
    and ends the PDU on a byte boundary or exactly at the end of the slot; no
    smaller padding does. *)
Theorem compute_required_correct len cap : len ≤ cap →
  let k := compute_required len cap in
  len + k ≤ cap ∧ k < 8 ∧ ((len + k) mod 8 = 0 ∨ len + k = cap) ∧
  ∀ j, j < k → (len + j) mod 8 ≠ 0 ∧ len + j ≠ cap.
Proof.
  intros Hle k. unfold k, compute_required, compute_required_bytealigned.
  pose proof (Nat.div_mod_eq len 8) as Hd. pose proof (Nat.mod_upper_bound len 8 ltac:(lia)) as Hm.
  destruct (Nat.leb_spec cap len).
  { assert (len = cap) as -> by lia. rewrite Nat.add_0_r. split_and!; [lia..|auto|intros; lia]. }
  assert ((8 - len mod 8) mod 8 = if decide (len mod 8 = 0) then 0 else 8 - len mod 8) as ->.
  { case_decide as E; [by rewrite E|]. apply Nat.mod_small. lia. }
  assert (∀ j, j < 8 - len mod 8 → (len + j) mod 8 = len mod 8 + j) as Hsmall.
  { intros j Hj. rewrite Hd at 1. replace (8 * (len / 8) + len mod 8 + j) with (len mod 8 + j + len / 8 * 8) by lia.
    rewrite Nat.Div0.mod_add. apply Nat.mod_small. lia. }
  case_decide as E.
  - rewrite Nat.add_0_r. destruct (Nat.leb_spec len cap); [|lia]. rewrite Nat.add_0_r.
    split_and!; [lia..|auto|intros; lia].
  - destruct (Nat.leb_spec (len + (8 - len mod 8)) cap).
    + split_and!; [lia|lia| |].
      * left. rewrite Hd at 1. replace (8 * (len / 8) + len mod 8 + (8 - len mod 8)) with ((len / 8 + 1) * 8) by lia.
        apply Nat.Div0.mod_mul.
      * intros j Hj. rewrite Hsmall by lia. lia.
    + split_and!; [lia|lia|lia|]. intros j Hj. rewrite Hsmall by lia. lia.
Qed.
