(* ===== verification/DefragSpec.v ===== *)
(** What the base station's defragmenter promises: the PDU it returns is the
    concatenation of the fragments received since the start of the burst, the
    number of contexts is bounded whatever the radio sends, and no sequence of
    fragments makes it panic.

    Reassembly of fragmented uplink PDUs in the base station
    ([tetra-entities/src/umac/subcomp/defrag.rs] and [bs_defrag.rs]).

    One map of reassembly buffers per timeslot, indexed by the SSI of the
    sender.  A [HashMap] is a [gmap]; the order in which it is iterated, which
    decides among equally old contexts which one is evicted, is the argument
    [iter] of the section, any enumeration of the map.  [None] is a panic: an
    array index out of range or an assertion of the bit buffer.  The log lines
    of the source are left out. *)
From S2P Require Import Prelude Bits Core BitBuffer BitBufferSpec BitCodec BitBufferThms TdmaTime Arrays.

(** * Buffers *)

Definition DEFRAG_BUF_INITIAL_LEN : nat := 512.

Inductive DefragBufferState : Type := Inactive | Active | Complete.

#[global] Instance DefragBufferState_eq_dec : EqDecision DefragBufferState.
Proof. solve_decision. Defined.

Record DefragBuffer : Type := mkDefrag {
  db_state : DefragBufferState;
  db_addr : TetraAddress;
  db_t_first : TdmaTime;
  db_t_last : TdmaTime;
  db_num_frags : nat;
  db_aie_info : option Z;
  db_buffer : BitBuffer
}.

Definition defrag_new : DefragBuffer :=
  mkDefrag Inactive (mkAddr 0 Issi) tdma_default tdma_default 0 None
    (new_autoexpand DEFRAG_BUF_INITIAL_LEN).

Definition defrag_reset (b : DefragBuffer) : DefragBuffer :=
  mkDefrag Inactive (mkAddr 0 Issi) tdma_default tdma_default 0 None
    (new_autoexpand DEFRAG_BUF_INITIAL_LEN).

(** [buf.buffer.copy_bits(bitbuffer, bitbuffer.get_len_remaining())]: the
    buffer after the call, and the source after it. *)
Definition append_fragment (bitbuffer : BitBuffer) (b : DefragBuffer) :
    option (BitBuffer * DefragBuffer) :=
  match copy_bits bitbuffer (get_len_remaining bitbuffer) (db_buffer b) with
  | Ok src dst =>
      Some (src, mkDefrag (db_state b) (db_addr b) (db_t_first b) (db_t_last b)
                   (db_num_frags b) (db_aie_info b) dst)
  | _ => None
  end.

(** * The defragmenter *)

Definition DEFRAG_BUF_MAX_LEN : nat := 4096.
Definition DEFRAG_TS_BEFORE_TIMEOUT : Z := multiframes 1.
Definition DEFRAG_MAX_CONTEXTS_PER_TS : nat := 32.

Record BsDefrag : Type := mkBsDefrag { buffers : list (gmap Z DefragBuffer) }.

Definition bs_new : BsDefrag := mkBsDefrag [∅; ∅; ∅; ∅].

Definition bs_reset (d : BsDefrag) : BsDefrag := mkBsDefrag ((λ _, ∅) <$> buffers d).

(** [(t.t - 1) as usize], and the indexing [self.buffers[ts]]: a [t.t] of 0
    underflows or indexes out of range, a panic either way. *)
Definition ts_index (t : TdmaTime) : option nat :=
  if (tt_t t <? 1)%Z then None else Some (Z.to_nat (tt_t t - 1)).

Definition ts_map (ts : nat) (d : BsDefrag) : option (gmap Z DefragBuffer) := buffers d !! ts.

Definition set_ts_map (ts : nat) (m : gmap Z DefragBuffer) (d : BsDefrag) : BsDefrag :=
  mkBsDefrag (<[ts:=m]> (buffers d)).

(** [Iterator::max_by_key]: of the maximal entries, the last one. *)
Definition max_by_key_step {V} (f : V → Z) (best : option (Z * Z)) (kv : Z * V) : option (Z * Z) :=
  match best with
  | Some (k, x) => if (x <=? f kv.2)%Z then Some (kv.1, f kv.2) else Some (k, x)
  | None => Some (kv.1, f kv.2)
  end.

Definition max_by_key {V} (f : V → Z) (l : list (Z * V)) : option (Z * Z) :=
  foldl (max_by_key_step f) None l.

Section defrag.
Context (iter : gmap Z DefragBuffer → list (Z * DefragBuffer)).

(** [t.diff(b.t_last)]; [diff] always returns ([diff_total]). *)
Definition frag_age (t : TdmaTime) (b : DefragBuffer) : Z := default 0%Z (diff t (db_t_last b)).

(** [map.retain(|_, b| t.diff(b.t_last) <= ..)] on each of the four maps. *)
Definition age_buffers (t : TdmaTime) (d : BsDefrag) : BsDefrag :=
  mkBsDefrag
    ((λ m : gmap Z DefragBuffer,
        filter (λ kv, (frag_age t kv.2 ≤ DEFRAG_TS_BEFORE_TIMEOUT)%Z) m) <$> buffers d).

(** [iter().max_by_key(|(_, b)| t.diff(b.t_last))]: the last of the maximal entries. *)
Definition oldest (t : TdmaTime) (m : gmap Z DefragBuffer) : option Z :=
  fst <$> max_by_key (frag_age t) (iter m).

(** [while len >= DEFRAG_MAX_CONTEXTS_PER_TS { .. remove(&oldest) }]; each turn
    removes an entry, so as many turns as the map has entries are enough. *)
Fixpoint evict (fuel : nat) (t : TdmaTime) (m : gmap Z DefragBuffer) : gmap Z DefragBuffer :=
  if size m <? DEFRAG_MAX_CONTEXTS_PER_TS then m
  else match fuel with
       | O => m
       | S fuel =>
           match oldest t m with
           | None => m
           | Some k => evict fuel t (delete k m)
           end
       end.

Definition insert_first (bitbuffer : BitBuffer) (t : TdmaTime) (addr : TetraAddress)
    (aie_info : option Z) (d : BsDefrag) : option (BitBuffer * BsDefrag) :=
  ts ← ts_index t;
  m ← ts_map ts d;
  let buf := match m !! ssi addr with
             | Some buf => defrag_reset buf
             | None => defrag_new
             end in
  let m := delete (ssi addr) m in
  let buf := mkDefrag Active addr t t 1 aie_info (db_buffer buf) in
  '(bitbuffer, buf) ← append_fragment bitbuffer buf;
  let m := evict (size m) t m in
  Some (bitbuffer, set_ts_map ts (<[ssi addr:=buf]> m) d).

Definition insert_next (bitbuffer : BitBuffer) (ssi : Z) (t : TdmaTime) (d : BsDefrag) :
    option (BitBuffer * BsDefrag) :=
  ts ← ts_index t;
  m ← ts_map ts d;
  match m !! ssi with
  | None => Some (bitbuffer, d)
  | Some buf =>
      if decide (db_state buf ≠ Active) then Some (bitbuffer, d)
      else if DEFRAG_BUF_MAX_LEN <? get_len (db_buffer buf) + get_len_remaining bitbuffer then
        Some (bitbuffer, set_ts_map ts (<[ssi:=defrag_reset buf]> m) d)
      else
        let buf := mkDefrag (db_state buf) (db_addr buf) (db_t_first buf) t
                     (db_num_frags buf + 1) (db_aie_info buf) (db_buffer buf) in
        '(bitbuffer, buf) ← append_fragment bitbuffer buf;
        Some (bitbuffer, set_ts_map ts (<[ssi:=buf]> m) d)
  end.

Definition insert_last (bitbuffer : BitBuffer) (ssi : Z) (t : TdmaTime) (d : BsDefrag) :
    option (option DefragBuffer * BitBuffer * BsDefrag) :=
  '(bitbuffer, d) ← insert_next bitbuffer ssi t d;
  ts ← ts_index t;
  m ← ts_map ts d;
  match m !! ssi with
  | None => Some (None, bitbuffer, d)
  | Some buf =>
      match set_raw_pos 0 (db_buffer buf) with
      | Ok _ b =>
          Some (Some (mkDefrag Complete (db_addr buf) (db_t_first buf) (db_t_last buf)
                        (db_num_frags buf) (db_aie_info buf) b),
                bitbuffer, set_ts_map ts (delete ssi m) d)
      | _ => None
      end
  end.

Definition get_aie_info (ssi : Z) (t : TdmaTime) (d : BsDefrag) : option (option Z) :=
  ts ← ts_index t;
  m ← ts_map ts d;
  match m !! ssi with
  | None => Some None
  | Some buf => if decide (db_state buf = Inactive) then Some None else Some (db_aie_info buf)
  end.
End defrag.

(** * Runs *)

Inductive frag_op : Type :=
| OFirst (frag : BitBuffer) (t : TdmaTime) (addr : TetraAddress) (aie : option Z)
| ONext (frag : BitBuffer) (ssi : Z) (t : TdmaTime)
| OLast (frag : BitBuffer) (ssi : Z) (t : TdmaTime)
| OAge (t : TdmaTime)
| OReset.

Definition op_frag_ok (op : frag_op) : Prop :=
  match op with
  | OFirst frag t _ _ | ONext frag _ t | OLast frag _ t => wf frag ∧ (1 ≤ tt_t t ≤ 4)%Z
  | OAge _ | OReset => True
  end.

Section runs.
Context (iter : gmap Z DefragBuffer → list (Z * DefragBuffer)).

Definition step (op : frag_op) (d : BsDefrag) : option BsDefrag :=
  match op with
  | OFirst frag t addr aie => snd <$> insert_first iter frag t addr aie d
  | ONext frag ssi t => snd <$> insert_next frag ssi t d
  | OLast frag ssi t => snd <$> insert_last frag ssi t d
  | OAge t => Some (age_buffers t d)
  | OReset => Some (bs_reset d)
  end.

Definition run (ops : list frag_op) : option BsDefrag := foldM step ops bs_new.
End runs.

(** The bits received for [(ts, k)] since the last first fragment. *)
Definition track (ts : nat) (k : Z) (acc : list bool) (op : frag_op) : list bool :=
  match op with
  | OFirst frag t addr _ =>
      if decide (ts_index t = Some ts ∧ ssi addr = k) then remaining frag else acc
  | ONext frag s t | OLast frag s t =>
      if decide (ts_index t = Some ts ∧ s = k) then acc ++ remaining frag else acc
  | OAge _ | OReset => acc
  end.

Definition fragments (ts : nat) (k : Z) (ops : list frag_op) : list bool :=
  foldl (track ts k) [] ops.

Definition context (d : BsDefrag) (ts : nat) (k : Z) : option DefragBuffer :=
  m ← ts_map ts d; m !! k.

(** * Invariant *)

Record entry_ok (k : Z) (b : DefragBuffer) : Prop := {
  e_wf : wf (db_buffer b);
  e_auto : bb_autoexpand (db_buffer b) = true;
  e_start : bb_start (db_buffer b) = 0;
  e_full : bb_pos (db_buffer b) = bb_end (db_buffer b);
  e_state : (db_state b = Active ∧ ssi (db_addr b) = k) ∨
            (db_state b = Inactive ∧ window (db_buffer b) = [])
}.

Definition inv (content : nat → Z → list bool) (d : BsDefrag) : Prop :=
  length (buffers d) = 4 ∧
  ∀ ts m, ts_map ts d = Some m → size m ≤ DEFRAG_MAX_CONTEXTS_PER_TS ∧
    ∀ k b, m !! k = Some b → entry_ok k b ∧
      (db_state b = Active → window (db_buffer b) = content ts k).

(** * Appending a fragment *)

Lemma append_fragment_ok frag b : wf frag →
  wf (db_buffer b) → bb_autoexpand (db_buffer b) = true → bb_start (db_buffer b) = 0 →
  bb_pos (db_buffer b) = bb_end (db_buffer b) →
  (Z.of_nat (get_len (db_buffer b) + get_len_remaining frag) ≤ usize_max)%Z →
  ∃ b' frag', append_fragment frag b = Some (frag', b') ∧
    db_state b' = db_state b ∧ db_addr b' = db_addr b ∧ db_t_last b' = db_t_last b ∧
    wf (db_buffer b') ∧ bb_autoexpand (db_buffer b') = true ∧ bb_start (db_buffer b') = 0 ∧
    bb_pos (db_buffer b') = bb_end (db_buffer b') ∧
    window (db_buffer b') = window (db_buffer b) ++ remaining frag.
Proof.
  intros Hf Hwf Hauto Hst Hfull Hlen. unfold get_len in Hlen. unfold append_fragment.
  destruct (copy_bits_spec frag (db_buffer b) (get_len_remaining frag))
    as (dst & Heq & Hwf' & Habs); [done|lia|done|split; [by right|lia]|].
  rewrite Heq. eexists _, _. split; [done|]. cbn [db_state db_addr db_t_last db_buffer].
  do 3 (split; [done|]). split; [done|].
  rewrite <-(length_remaining frag) in Habs by done. rewrite take_ge in Habs by done.
  pose proof (length_abs _ Hwf) as Hl. pose proof (length_abs _ Hwf') as Hl'.
  assert (a_bits (abs dst) = a_bits (abs (db_buffer b)) ++ remaining frag) as Hbits.
  { rewrite Habs. cbn [a_write a_bits]. change (a_pos _) with (bb_pos (db_buffer b)).
    by rewrite Hfull, <-Hl, splice_end. }
  split; [rewrite <-Hauto; exact (f_equal a_auto Habs)|].
  assert (bb_start dst = 0) as Hst' by (rewrite <-Hst; exact (f_equal a_start Habs)).
  split; [done|]. split.
  - rewrite <-Hl', Hbits, length_app, Hl, <-Hfull. exact (f_equal a_pos Habs).
  - unfold window, a_window. cbn [a_start abs]. change (take (bb_end dst) _) with (a_bits (abs dst)).
    rewrite Hst', Hst, !drop_0. exact Hbits.
Qed.

Lemma fresh_entry_ok : wf (db_buffer defrag_new) ∧ window (db_buffer defrag_new) = [].
Proof. split; [apply wf_new_autoexpand|done]. Qed.

(** * Eviction *)

Lemma foldl_max_spec {V} (f : V → Z) l best :
  match foldl (max_by_key_step f) best l with
  | Some (k, x) =>
      (best = Some (k, x) ∨ ∃ b, (k, b) ∈ l ∧ f b = x) ∧
      (∀ k' x', best = Some (k', x') → (x' ≤ x)%Z) ∧
      (∀ k' b', (k', b') ∈ l → (f b' ≤ x)%Z)
  | None => best = None ∧ l = []
  end.
Proof.
  revert best. induction l as [|[k b] l IH]; intros best; cbn [foldl].
  { destruct best as [[k x]|]; [|done]. split; [by left|]. split; [naive_solver lia|].
    intros ? ? []%not_elem_of_nil. }
  specialize (IH (max_by_key_step f best (k, b))). destruct (foldl _ _ l) as [[k1 x1]|] eqn:E.
  2: { destruct IH as [IH _]. unfold max_by_key_step in IH. cbn in IH. by destruct best as [[]|]; [case_match|]. }
  destruct IH as (Hmem & Hbest & Hl). unfold max_by_key_step in Hmem, Hbest. cbn [fst snd] in *.
  split; [|split].
  - destruct Hmem as [Hmem|(b1 & ? & ?)]; [|right; exists b1; split; [by right|done]].
    destruct best as [[k0 x0]|].
    + destruct (Z.leb_spec x0 (f b)); simplify_eq.
      * right. exists b. split; [left|done].
      * by left.
    + simplify_eq. right. exists b. split; [left|done].
  - intros k' x' ->. destruct (Z.leb_spec x' (f b)).
    + etrans; [done|]. by eapply Hbest.
    + by eapply Hbest.
  - intros k' b' [[= -> ->]|Hin]%elem_of_cons; [|by eapply Hl].
    destruct best as [[k0 x0]|]; [|by eapply Hbest].
    destruct (Z.leb_spec x0 (f b)); [by eapply Hbest|].
    etrans; [|by eapply Hbest]. lia.
Qed.

Section eviction.
Context (iter : gmap Z DefragBuffer → list (Z * DefragBuffer)).
Context (iter_perm : ∀ m, iter m ≡ₚ map_to_list m).

(** The evicted context is one of those fed longest ago. *)
Lemma oldest_spec t m : m ≠ ∅ →
  ∃ k b, oldest iter t m = Some k ∧ m !! k = Some b ∧
    ∀ k' b', m !! k' = Some b' → (frag_age t b' ≤ frag_age t b)%Z.
Proof.
  intros Hm. unfold oldest, max_by_key.
  pose proof (foldl_max_spec (frag_age t) (iter m) None) as Hs.
  destruct (foldl _ _ _) as [[k dt]|].
  - destruct Hs as ([|(b & Hin & <-)] & _ & Hmax); [done|].
    rewrite iter_perm, elem_of_map_to_list in Hin. exists k, b. split_and!; [done..|].
    intros k' b' Hk. apply (Hmax k'). by rewrite iter_perm, elem_of_map_to_list.
  - destruct Hs as [_ Hnil]. pose proof (iter_perm m) as Hp. rewrite Hnil in Hp.
    apply Permutation_nil_l in Hp. symmetry in Hp. by apply map_to_list_empty_iff in Hp.
Qed.

Lemma evict_spec fuel t m : size m ≤ fuel + (DEFRAG_MAX_CONTEXTS_PER_TS - 1) →
  evict iter fuel t m ⊆ m ∧ size (evict iter fuel t m) < DEFRAG_MAX_CONTEXTS_PER_TS.
Proof.
  revert m. induction fuel as [|fuel IH]; intros m Hsz; cbn [evict];
    destruct (Nat.ltb_spec (size m) DEFRAG_MAX_CONTEXTS_PER_TS) as [|Hge]; [done| |done|].
  { unfold DEFRAG_MAX_CONTEXTS_PER_TS in *. lia. }
  destruct (oldest_spec t m) as (k & b & -> & Hk & _).
  { intros ->. rewrite map_size_empty in Hge. unfold DEFRAG_MAX_CONTEXTS_PER_TS in Hge. lia. }
  destruct (IH (delete k m)) as [Hsub Hlt].
  { rewrite map_size_delete_Some by (by eexists). unfold DEFRAG_MAX_CONTEXTS_PER_TS in *. lia. }
  split; [|done]. etrans; [exact Hsub|]. apply delete_subseteq.
Qed.

(** From a map within bounds, at most one context goes, one of the oldest. *)
Lemma evict_one fuel t m : size m ≤ DEFRAG_MAX_CONTEXTS_PER_TS → size m ≤ fuel →
  (size m < DEFRAG_MAX_CONTEXTS_PER_TS ∧ evict iter fuel t m = m) ∨
  (∃ k b, size m = DEFRAG_MAX_CONTEXTS_PER_TS ∧ m !! k = Some b ∧ evict iter fuel t m = delete k m ∧
    ∀ k' b', m !! k' = Some b' → (frag_age t b' ≤ frag_age t b)%Z).
Proof.
  intros Hsz Hf. unfold DEFRAG_MAX_CONTEXTS_PER_TS in *. destruct (decide (size m < 32)) as [Hlt|Hge].
  { left. split; [done|]. destruct fuel; cbn [evict]; by rewrite (proj2 (Nat.ltb_lt _ _)). }
  right. destruct fuel as [|fuel]; [lia|]. cbn [evict].
  rewrite (proj2 (Nat.ltb_ge _ _)) by (unfold DEFRAG_MAX_CONTEXTS_PER_TS; lia).
  destruct (oldest_spec t m) as (k & b & -> & Hk & Hmax).
  { intros ->. rewrite map_size_empty in Hge. lia. }
  exists k, b. split; [lia|]. split; [done|]. split; [|done].
  destruct fuel; cbn [evict]; rewrite (proj2 (Nat.ltb_lt _ _)); try done;
    rewrite map_size_delete_Some by (by eexists); unfold DEFRAG_MAX_CONTEXTS_PER_TS; lia.
Qed.
End eviction.

(** * Preservation *)

Lemma ts_index_Some t : (1 ≤ tt_t t ≤ 4)%Z → ∃ ts, ts_index t = Some ts ∧ ts < 4.
Proof.
  intros Ht. unfold ts_index. destruct (Z.ltb_spec (tt_t t) 1); [lia|].
  eexists. split; [done|]. lia.
Qed.

Lemma ts_map_Some content d ts : inv content d → ts < 4 → ∃ m, ts_map ts d = Some m.
Proof. intros [Hl _] Hts. apply lookup_lt_is_Some_2. lia. Qed.

(** The map and the index a handler at time [t] works on. *)
Lemma ts_map_at content d t : inv content d → (1 ≤ tt_t t ≤ 4)%Z →
  ∃ ts m, ts_index t = Some ts ∧ ts_map ts d = Some m.
Proof.
  intros Hinv Ht. destruct (ts_index_Some t Ht) as (ts & Hts & Hlt).
  destruct (ts_map_Some content d ts) as [m Hm]; [done..|]. by exists ts, m.
Qed.

(** Replacing one map by one whose entries are fine keeps the invariant. *)
Lemma inv_set content content' d ts m m' : inv content d → ts_map ts d = Some m →
  size m' ≤ DEFRAG_MAX_CONTEXTS_PER_TS →
  (∀ k b, m' !! k = Some b → entry_ok k b ∧ (db_state b = Active → window (db_buffer b) = content' ts k)) →
  (∀ ts' k, ts' ≠ ts → content' ts' k = content ts' k) →
  inv content' (set_ts_map ts m' d).
Proof.
  intros [Hl Hinv] Hm Hsz Hent Hcont. split.
  { unfold set_ts_map. cbn [buffers]. by rewrite length_insert. }
  intros ts' m1 Hm1. unfold ts_map, set_ts_map in Hm1. cbn [buffers] in Hm1.
  destruct (decide (ts' = ts)) as [->|Hne].
  - rewrite list_lookup_insert_eq in Hm1 by (by eapply lookup_lt_Some). simplify_eq. done.
  - rewrite list_lookup_insert_ne in Hm1 by done. destruct (Hinv ts' m1 Hm1) as [? He].
    split; [done|]. intros k b Hk. rewrite Hcont by done. by apply He.
Qed.

Lemma inv_ext content content' d : inv content d →
  (∀ ts k b, context d ts k = Some b → content' ts k = content ts k) → inv content' d.
Proof.
  intros [Hl Hinv] Hext. split; [done|]. intros ts m Hm. destruct (Hinv ts m Hm) as [? He].
  split; [done|]. intros k b Hk. destruct (He k b Hk) as [? Hw]. split; [done|]. intros Ha.
  rewrite Hw by done. symmetry. eapply Hext. unfold context. rewrite Hm. exact Hk.
Qed.

Lemma inv_entry content d ts m k b : inv content d → ts_map ts d = Some m → m !! k = Some b →
  entry_ok k b ∧ (db_state b = Active → window (db_buffer b) = content ts k).
Proof. intros [_ Hinv] Hm. by apply Hinv. Qed.

Section preservation.
Context (iter : gmap Z DefragBuffer → list (Z * DefragBuffer)).
Context (iter_perm : ∀ m, iter m ≡ₚ map_to_list m).
Context (content : nat → Z → list bool) (d : BsDefrag) (Hinv : inv content d).

(** The contents after an operation. *)
Let tracked (op : frag_op) (ts : nat) (k : Z) : list bool := track ts k (content ts k) op.

Lemma insert_first_ok frag t addr aie : wf frag → (1 ≤ tt_t t ≤ 4)%Z →
  ∃ frag' d' ts m buf, insert_first iter frag t addr aie d = Some (frag', d') ∧
    ts_index t = Some ts ∧ ts_map ts d = Some m ∧
    d' = set_ts_map ts (<[ssi addr:=buf]> (evict iter (size (delete (ssi addr) m)) t (delete (ssi addr) m))) d ∧
    entry_ok (ssi addr) buf ∧ db_state buf = Active ∧ db_t_last buf = t ∧
    window (db_buffer buf) = remaining frag.
Proof.
  intros Hf Ht. destruct (ts_map_at content d t) as (ts & m & Hts & Hm); [done..|].
  unfold insert_first. rewrite Hts. cbn [mbind option_bind]. rewrite Hm. cbn [mbind option_bind].
  set (b0 := match m !! ssi addr with Some b => defrag_reset b | None => defrag_new end).
  assert (db_buffer b0 = new_autoexpand DEFRAG_BUF_INITIAL_LEN) as Hb0 by (unfold b0; by case_match).
  destruct (append_fragment_ok frag (mkDefrag Active addr t t 1 aie (db_buffer b0)))
    as (b' & frag' & Heq & Hst & Ha & Htl & Hwf & Hau & Hs & Hfull & Hw);
    [done|cbn [db_buffer]; rewrite Hb0; (done || apply wf_new_autoexpand)..| |].
  { cbn [db_buffer]. rewrite Hb0. pose proof (wf_usize _ Hf). unfold get_len, get_len_remaining. cbn. lia. }
  rewrite Heq. cbn [mbind option_bind db_state db_addr db_t_last db_buffer] in *.
  rewrite Hb0 in Hw. eexists _, _, ts, m, b'. split; [done|]. do 3 (split; [done|]).
  split_and!; [|congruence|congruence|done]. split; [done..|]. left. split; congruence.
Qed.

Lemma size_delete_le k (m : gmap Z DefragBuffer) : size (delete k m) ≤ size m.
Proof.
  destruct (m !! k) as [b|] eqn:E.
  - rewrite map_size_delete_Some by (by eexists). lia.
  - by rewrite delete_id.
Qed.

Lemma inv_insert_first frag t addr aie : wf frag → (1 ≤ tt_t t ≤ 4)%Z →
  ∃ d', step iter (OFirst frag t addr aie) d = Some d' ∧ inv (tracked (OFirst frag t addr aie)) d'.
Proof.
  intros Hf Ht.
  destruct (insert_first_ok frag t addr aie) as (frag' & d' & ts & m & buf & Heq & Hts & Hm & -> & He & Ha & _ & Hw);
    [done..|].
  eexists. cbn [step]. rewrite Heq. split; [done|].
  destruct (evict_spec iter iter_perm (size (delete (ssi addr) m)) t (delete (ssi addr) m))
    as [Hsub Hsz]; [lia|].
  eapply inv_set; [done..| | |].
  - rewrite map_size_insert_None; [lia|].
    eapply lookup_weaken_None; [|done]. apply lookup_delete_eq.
  - intros k b [[<- <-]|[Hne Hk]]%lookup_insert_Some.
    + split; [done|]. intros _. unfold tracked. cbn [track]. by rewrite decide_True.
    + eapply lookup_weaken in Hk; [|exact Hsub]. rewrite lookup_delete_ne in Hk by done.
      unfold tracked. cbn [track]. rewrite decide_False by (intros [??]; congruence).
      by eapply inv_entry.
  - intros ts' k Hne. unfold tracked. cbn [track]. rewrite decide_False; [done|].
    intros [??]; congruence.
Qed.

(** The burst goes on: it is active and the fragment still fits. *)
Definition accepts (frag : BitBuffer) (b : DefragBuffer) : Prop :=
  db_state b = Active ∧ get_len (db_buffer b) + get_len_remaining frag ≤ DEFRAG_BUF_MAX_LEN.

#[global] Instance accepts_dec frag b : Decision (accepts frag b).
Proof. unfold accepts. apply _. Defined.

Lemma set_ts_map_id ts m k b : ts_map ts d = Some m → m !! k = Some b →
  set_ts_map ts (<[k:=b]> m) d = d.
Proof.
  intros Hm Hk. unfold set_ts_map. rewrite insert_id by done.
  rewrite list_insert_id by done. by destruct d.
Qed.

Lemma reset_ok k b : entry_ok k (defrag_reset b) ∧ window (db_buffer (defrag_reset b)) = [].
Proof. split; [split; [apply wf_new_autoexpand|done..|by right]|done]. Qed.

Lemma insert_next_ok frag k t : wf frag → (1 ≤ tt_t t ≤ 4)%Z →
  ∃ frag' d' ts m, insert_next frag k t d = Some (frag', d') ∧
    ts_index t = Some ts ∧ ts_map ts d = Some m ∧
    match m !! k with
    | None => d' = d
    | Some b =>
        ∃ b', d' = set_ts_map ts (<[k:=b']> m) d ∧ entry_ok k b' ∧
          (db_state b' = Active ↔ accepts frag b) ∧
          window (db_buffer b') =
            if decide (accepts frag b) then window (db_buffer b) ++ remaining frag else []
    end.
Proof.
  intros Hf Ht. destruct (ts_map_at content d t) as (ts & m & Hts & Hm); [done..|].
  unfold insert_next. rewrite Hts. cbn [mbind option_bind]. rewrite Hm. cbn [mbind option_bind].
  destruct (m !! k) as [b|] eqn:Hk; [|by eexists _, _, ts, m; rewrite Hk].
  destruct (inv_entry content d ts m k b) as [He _]; [done..|].
  destruct (decide (db_state b ≠ Active)) as [Hna|Ha].
  { eexists _, _, ts, m. rewrite Hk. do 3 (split; [done|]).
    destruct (e_state _ _ He) as [[]|[Hin Hw]]; [done|].
    exists b. rewrite set_ts_map_id by done. unfold accepts. split; [done|]. split; [done|].
    split; [split; [congruence|intros [??]; congruence]|].
    by rewrite decide_False by (intros [??]; congruence). }
  apply dec_stable in Ha.
  destruct (Nat.ltb_spec DEFRAG_BUF_MAX_LEN (get_len (db_buffer b) + get_len_remaining frag)).
  { eexists _, _, ts, m. rewrite Hk. do 3 (split; [done|]).
    exists (defrag_reset b). split; [done|]. destruct (reset_ok k b) as [? Hw]. split; [done|].
    unfold accepts. rewrite Hw, decide_False by (intros [??]; lia).
    split; [|done]. split; [done|intros [??]; lia]. }
  assert (accepts frag b) as Hacc by done.
  destruct (append_fragment_ok frag (mkDefrag (db_state b) (db_addr b) (db_t_first b) t
    (db_num_frags b + 1) (db_aie_info b) (db_buffer b)))
    as (b' & frag' & Heq & Hst & Had & Htl & Hwf & Hau & Hs & Hfull & Hw); [done|by apply He..| |].
  { cbn [db_buffer]. unfold DEFRAG_BUF_MAX_LEN, usize_max in *. lia. }
  rewrite Heq. cbn [mbind option_bind db_state db_addr db_t_last db_buffer] in *.
  eexists _, _, ts, m. rewrite Hk. do 3 (split; [done|]).
  exists b'. split; [done|]. rewrite decide_True, Hst by done. split; [|done].
  split; [done..|]. left. rewrite Hst, Had. split; [done|].
  destruct (e_state _ _ He) as [[]|[? _]]; congruence.
Qed.

(** Feeding a fragment to [(ts, k)] keeps the invariant, whichever handler feeds it. *)
Lemma inv_fed frag k t op ts m b b' :
  op = ONext frag k t ∨ op = OLast frag k t →
  ts_index t = Some ts → ts_map ts d = Some m → m !! k = Some b →
  entry_ok k b' → (db_state b' = Active ↔ accepts frag b) →
  window (db_buffer b') =
    (if decide (accepts frag b) then window (db_buffer b) ++ remaining frag else []) →
  inv (tracked op) (set_ts_map ts (<[k:=b']> m) d).
Proof.
  intros Hop Hts Hm Hk He Ha Hw. destruct (Hinv) as [_ Hi]. destruct (Hi ts m Hm) as [Hsz Hent].
  destruct (Hent k b Hk) as [_ Hcb].
  assert (∀ ts' k', (ts_index t = Some ts' ∧ k = k' → False) → tracked op ts' k' = content ts' k') as Hother.
  { intros ts' k' Hn. unfold tracked. destruct Hop as [-> | ->]; cbn [track]; by rewrite decide_False. }
  eapply inv_set; [done..| | |].
  - by rewrite map_size_insert_Some by (by eexists).
  - intros k' b1 [[<- <-]|[Hne Hk']]%lookup_insert_Some.
    + split; [done|]. intros Hact. apply Ha in Hact as Hacc. rewrite Hw, decide_True by done.
      rewrite Hcb by apply Hacc. unfold tracked.
      destruct Hop as [-> | ->]; cbn [track]; by rewrite decide_True.
    + rewrite Hother by (intros [? ?]; congruence). by apply Hent.
  - intros ts' k' Hne. apply Hother. intros [? ?]; congruence.
Qed.

Lemma inv_delete ts m k : ts_map ts d = Some m → inv content (set_ts_map ts (delete k m) d).
Proof.
  intros Hm. destruct (Hinv) as [_ Hi]. destruct (Hi ts m Hm) as [Hsz Hent].
  eapply inv_set; [done..| | |done].
  - pose proof (size_delete_le k m). lia.
  - intros k' b [_ Hk]%lookup_delete_Some. by apply Hent.
Qed.
End preservation.

(** * Whole runs *)

Lemma inv_new : inv (λ _ _, []) bs_new.
Proof.
  split; [done|]. intros ts m Hm. assert (m = ∅) as ->.
  { unfold ts_map, bs_new in Hm. cbn [buffers] in Hm.
    do 4 (destruct ts as [|ts]; [by injection Hm as <-|]). done. }
  rewrite map_size_empty. unfold DEFRAG_MAX_CONTEXTS_PER_TS. split; [lia|].
  intros k b Hk. by rewrite lookup_empty in Hk.
Qed.

Lemma inv_fmap content d (f : gmap Z DefragBuffer → gmap Z DefragBuffer) :
  (∀ m, f m ⊆ m) → inv content d → inv content (mkBsDefrag (f <$> buffers d)).
Proof.
  intros Hf [Hl Hi]. split; [cbn [buffers]; by rewrite length_fmap|]. intros ts m Hm.
  unfold ts_map in Hm. cbn [buffers] in Hm. rewrite list_lookup_fmap in Hm.
  destruct (buffers d !! ts) as [m0|] eqn:Hm0; [|done]. injection Hm as <-.
  destruct (Hi ts m0 Hm0) as [Hsz Hent]. split.
  - etrans; [|exact Hsz]. by apply map_subseteq_size.
  - intros k b Hk. apply Hent. by eapply lookup_weaken.
Qed.

Section whole_runs.
Context (iter : gmap Z DefragBuffer → list (Z * DefragBuffer)).
Context (iter_perm : ∀ m, iter m ≡ₚ map_to_list m).

(** What [insert_last] returns, and the state it leaves. *)
Lemma insert_last_ok content d frag k t : inv content d → wf frag → (1 ≤ tt_t t ≤ 4)%Z →
  ∃ r frag' d' ts m, insert_last frag k t d = Some (r, frag', d') ∧
    ts_index t = Some ts ∧ ts_map ts d = Some m ∧
    d' = set_ts_map ts (delete k m) d ∧ inv content d' ∧
    match m !! k with
    | None => r = None
    | Some b => ∃ buf, r = Some buf ∧ db_state buf = Complete ∧ wf (db_buffer buf) ∧
        get_pos (db_buffer buf) = 0 ∧
        remaining (db_buffer buf) =
          if decide (accepts frag b) then content ts k ++ remaining frag else []
    end.
Proof.
  intros Hinv Hf Ht.
  destruct (insert_next_ok content d Hinv frag k t) as (frag' & d1 & ts & m & Heq & Hts & Hm & Hres);
    [done..|].
  unfold insert_last. rewrite Heq. cbn [mbind option_bind]. rewrite Hts. cbn [mbind option_bind].
  destruct (m !! k) as [b|] eqn:Hk.
  - destruct Hres as (b' & -> & He & _ & Hw). unfold ts_map, set_ts_map. cbn [buffers].
    rewrite list_lookup_insert_eq by (by eapply lookup_lt_Some). cbn [mbind option_bind].
    rewrite lookup_insert_eq. pose proof (wf_pos _ (e_wf _ _ He)). pose proof (e_start _ _ He).
    rewrite set_raw_pos_ok by lia. eexists _, _, _, ts, m. rewrite Hk.
    split; [done|]. do 2 (split; [done|]).
    rewrite list_insert_insert_eq, delete_insert_eq. split; [done|].
    split; [by apply inv_delete|]. eexists. split; [done|]. split; [done|]. cbn [db_buffer].
    split; [apply wf_set_pos; [apply He|lia]|]. split; [unfold get_pos; cbn; lia|].
    destruct (inv_entry content d ts m k b) as [_ Hcb]; [done..|].
    transitivity (window (db_buffer b')).
    { unfold remaining, window, a_remaining, a_window. cbn [abs a_pos a_start a_bits set_pos bb_pos bb_end bb_buffer].
      congruence. }
    rewrite Hw. case_decide as Hacc; [|done]. by rewrite Hcb by apply Hacc.
  - subst d1. rewrite Hm. cbn [mbind option_bind]. rewrite Hk. eexists _, _, _, ts, m. rewrite Hk.
    split; [done|]. do 2 (split; [done|]).
    assert (set_ts_map ts (delete k m) d = d) as ->.
    { unfold set_ts_map. rewrite delete_id by done. rewrite list_insert_id by done. by destruct d. }
    done.
Qed.

Lemma inv_step content d op : inv content d → op_frag_ok op →
  ∃ d', step iter op d = Some d' ∧ inv (λ ts k, track ts k (content ts k) op) d'.
Proof.
  intros Hinv Hop. destruct op as [frag t addr aie|frag k t|frag k t|t|]; cbn [op_frag_ok] in Hop.
  - destruct Hop. by apply inv_insert_first.
  - destruct (insert_next_ok content d Hinv frag k t) as (frag' & d' & ts & m & Heq & Hts & Hm & Hres);
      [apply Hop..|].
    exists d'. cbn [step]. rewrite Heq. split; [done|]. destruct (m !! k) as [b|] eqn:Hk.
    + destruct Hres as (b' & -> & ? & ? & ?). by eapply (inv_fed content d Hinv frag k t); [left|..].
    + subst d'. eapply inv_ext; [done|]. intros ts' k' b' Hc. cbn [track].
      rewrite decide_False; [done|]. intros [? <-]. unfold context in Hc.
      assert (ts' = ts) as -> by congruence. rewrite Hm in Hc. cbn in Hc. congruence.
  - destruct (insert_last_ok content d frag k t) as (r & frag' & d' & ts & m & Heq & Hts & Hm & -> & Hi & _);
      [done|apply Hop..|].
    eexists. cbn [step]. rewrite Heq. split; [done|]. eapply inv_ext; [exact Hi|].
    intros ts' k' b Hc. cbn [track]. rewrite decide_False; [done|]. intros [? <-].
    assert (ts' = ts) as -> by congruence.
    change (<[ts:=delete k m]> (buffers d) !! ts ≫= lookup k = Some b) in Hc.
    rewrite list_lookup_insert_eq in Hc by (by eapply lookup_lt_Some).
    change (delete k m !! k = Some b) in Hc. by rewrite lookup_delete_eq in Hc.
  - eexists. split; [done|]. apply (inv_fmap content); [|done]. intros m. apply map_filter_subseteq.
  - eexists. split; [done|]. apply (inv_fmap content); [|done]. intros m. apply map_empty_subseteq.
Qed.

Lemma inv_run ops : Forall op_frag_ok ops →
  ∃ d, run iter ops = Some d ∧ inv (λ ts k, fragments ts k ops) d.
Proof.
  induction ops as [|op ops IH] using rev_ind; [exists bs_new; split; [done|apply inv_new]|].
  intros [Hops Hop]%Forall_app. destruct IH as (d & Hrun & Hinv); [done|].
  destruct (inv_step _ d op Hinv) as (d' & Hstep & Hinv'); [by apply Forall_inv in Hop|].
  exists d'. split.
  - unfold run in *. rewrite foldM_app, Hrun. cbn. by rewrite Hstep.
  - eapply inv_ext; [exact Hinv'|]. intros ts k b _. unfold fragments. by rewrite foldl_app.
Qed.
End whole_runs.

(** * Theorems *)

Lemma context_set d ts m k : ts_map ts d = Some m →
  context (set_ts_map ts m d) ts k = m !! k ∧ (∀ m', context (set_ts_map ts m' d) ts k = m' !! k).
Proof.
  intros Hm. assert (∀ m', context (set_ts_map ts m' d) ts k = m' !! k) as H; [|done].
  intros m'. change (<[ts:=m']> (buffers d) !! ts ≫= lookup k = m' !! k).
  by rewrite list_lookup_insert_eq by (by eapply lookup_lt_Some).
Qed.

Lemma context_map d ts m k : ts_map ts d = Some m → context d ts k = m !! k.
Proof. unfold context. by intros ->. Qed.

(** C5: reassembly.  After any sequence of fragments from any stations on any
    timeslots (bursts interleaved, restarted, lost, timed out or evicted) no
    step panics, and a last fragment for a station with a burst in progress
    returns a completed PDU, cursor at its first bit, whose bits are all the
    fragments of that station on that timeslot since its burst began, in
    order; without a burst in progress nothing is returned.  When the burst
    would exceed 4096 bits (or had before) the returned PDU is empty. *)
Theorem defrag_reassembles iter ops frag k t :
  (∀ m, iter m ≡ₚ map_to_list m) → Forall op_frag_ok ops → wf frag → (1 ≤ tt_t t ≤ 4)%Z →
  ∃ d r frag' d' ts, run iter ops = Some d ∧ ts_index t = Some ts ∧
    insert_last frag k t d = Some (r, frag', d') ∧ context d' ts k = None ∧
    match context d ts k with
    | None => r = None
    | Some b => ∃ buf, r = Some buf ∧ db_state buf = Complete ∧ get_pos (db_buffer buf) = 0 ∧
        remaining (db_buffer buf) =
          if decide (accepts frag b) then fragments ts k ops ++ remaining frag else []
    end.
Proof.
  intros Hiter Hops Hf Ht. destruct (inv_run iter Hiter ops Hops) as (d & Hrun & Hinv).
  destruct (insert_last_ok _ d frag k t Hinv Hf Ht)
    as (r & frag' & d' & ts & m & Heq & Hts & Hm & -> & _ & Hres).
  exists d, r, frag', (set_ts_map ts (delete k m) d), ts. do 3 (split; [done|]).
  split; [rewrite (proj2 (context_set d ts m k Hm)); apply lookup_delete_eq|].
  rewrite (context_map d ts m) by done. destruct (m !! k) as [b|]; [|done].
  destruct Hres as (buf & ? & ? & _ & ? & ?). by exists buf.
Qed.

Definition test_frag (bs : list bool) : BitBuffer :=
  default (new 0) (from_bitarr (bitarr bs)).

Lemma test_frag_ok bs : length bs ≤ 4096 → holds (test_frag bs) bs.
Proof.
  intros Hl. destruct (from_bitarr_ok bs) as (bb & Heq & Hh); [by apply fits_small|].
  unfold test_frag. by rewrite Heq.
Qed.

Definition test_ops : list frag_op :=
  [OFirst (test_frag [false; false; false]) (mkTime 3 1 1 0) (issi 1234) None;
   OFirst (test_frag [true]) (mkTime 3 1 1 0) (issi 77) None;
   ONext (test_frag [true; true; true]) 1234 (mkTime 3 2 1 0)].

Lemma test_ops_ok : Forall op_frag_ok test_ops.
Proof.
  repeat (apply Forall_cons; split); [..|by apply Forall_nil];
    (split; [apply test_frag_ok; simpl; lia|simpl; lia]).
Qed.

Lemma defrag_reassembles_witness : ∃ d buf frag' d',
  run map_to_list test_ops = Some d ∧
  insert_last (test_frag [false; false; true; true]) 1234 (mkTime 3 3 1 0) d = Some (Some buf, frag', d') ∧
  remaining (db_buffer buf) = [false; false; false; true; true; true; false; false; true; true].
Proof.
  destruct (defrag_reassembles map_to_list test_ops (test_frag [false; false; true; true]) 1234
    (mkTime 3 3 1 0)) as (d & r & frag' & d' & ts & Hrun & Hts & Heq & _ & Hres).
  - done.
  - apply test_ops_ok.
  - apply test_frag_ok. simpl. lia.
  - simpl. lia.
  - assert (ts = 2) as -> by (vm_compute in Hts; congruence).
    assert (∃ b, context d 2 1234 = Some b ∧
      accepts (test_frag [false; false; true; true]) b) as (b & Hb & Hacc).
    { vm_compute in Hrun. injection Hrun as <-. eexists. split; [vm_compute; reflexivity|].
      split; [done|]. vm_compute. lia. }
    rewrite Hb in Hres. destruct Hres as (buf & -> & _ & _ & Hrem).
    exists d, buf, frag', d'. split; [done|]. split; [done|].
    rewrite Hrem, decide_True by done. vm_compute. reflexivity.
Defined.

(** Bounded memory.  Whatever is received, no timeslot ever has more than 32
    reassembly contexts; a new burst starts a fresh context, and to make room it
    drops at most one other context of its timeslot, only when 32 others are
    there, and one that has gone longest without a fragment. *)
Theorem defrag_contexts_bounded iter ops :
  (∀ m, iter m ≡ₚ map_to_list m) → Forall op_frag_ok ops →
  ∃ d, run iter ops = Some d ∧
  (∀ ts m, ts_map ts d = Some m → size m ≤ DEFRAG_MAX_CONTEXTS_PER_TS) ∧
  ∀ frag t addr aie ts, wf frag → (1 ≤ tt_t t ≤ 4)%Z → ts_index t = Some ts →
    ∃ frag' d' buf, insert_first iter frag t addr aie d = Some (frag', d') ∧
      context d' ts (ssi addr) = Some buf ∧ window (db_buffer buf) = remaining frag ∧
      ((∀ k, k ≠ ssi addr → context d' ts k = context d ts k) ∨
       ∃ victim b m, ts_map ts d = Some m ∧
         size (delete (ssi addr) m) = DEFRAG_MAX_CONTEXTS_PER_TS ∧ victim ≠ ssi addr ∧
         context d ts victim = Some b ∧ context d' ts victim = None ∧
         (∀ k, k ≠ ssi addr → k ≠ victim → context d' ts k = context d ts k) ∧
         (∀ k b', k ≠ ssi addr → context d ts k = Some b' → (frag_age t b' ≤ frag_age t b)%Z)).
Proof.
  intros Hiter Hops. destruct (inv_run iter Hiter ops Hops) as (d & Hrun & Hinv).
  exists d. split; [done|]. split; [intros ts m Hm; by apply (proj2 Hinv ts)|].
  intros frag t addr aie ts Hf Ht Hts.
  destruct (insert_first_ok iter _ d Hinv frag t addr aie Hf Ht)
    as (frag' & d' & ts' & m & buf & Heq & Hts' & Hm & -> & _ & _ & _ & Hw).
  assert (ts' = ts) as -> by congruence. set (m0 := delete (ssi addr) m) in *.
  assert (∀ m' k, context (set_ts_map ts m' d) ts k = m' !! k) as Hctx
    by (intros m' k; apply (context_set d ts m k Hm)).
  assert (∀ k, k ≠ ssi addr → context d ts k = m0 !! k) as Hctx0.
  { intros k Hk. rewrite (context_map d ts m) by done. unfold m0. by rewrite lookup_delete_ne. }
  assert (size m0 ≤ DEFRAG_MAX_CONTEXTS_PER_TS) as Hsz.
  { etrans; [apply size_delete_le|]. by apply (proj2 Hinv ts). }
  eexists _, _, buf. split; [done|]. rewrite Hctx, lookup_insert_eq. do 2 (split; [done|]).
  destruct (evict_one iter Hiter (size m0) t m0 Hsz)
    as [[_ ->]|(victim & b & Hfull & Hv & -> & Hmax)]; [done| |].
  { left. intros k Hk. by rewrite Hctx, lookup_insert_ne, Hctx0. }
  assert (victim ≠ ssi addr) as Hne by (intros ->; unfold m0 in Hv; by rewrite lookup_delete_eq in Hv).
  right. exists victim, b, m. rewrite Hctx0, Hctx, lookup_insert_ne, lookup_delete_eq by done.
  do 5 (split; [done|]). split.
  - intros k Hk Hkv. by rewrite Hctx, lookup_insert_ne, lookup_delete_ne, Hctx0.
  - intros k b' Hk Hb'. apply (Hmax k). by rewrite <-Hctx0.
Qed.

Lemma defrag_contexts_bounded_witness : ∃ d, run map_to_list test_ops = Some d ∧
  ∀ ts m, ts_map ts d = Some m → size m ≤ 32.
Proof.
  destruct (defrag_contexts_bounded map_to_list test_ops) as (d & Hrun & Hsz & _).
  - done.
  - apply test_ops_ok.
  - exists d. split; [exact Hrun|exact Hsz].
Defined.

(** An oversized burst is handed up as an empty PDU.  When the last fragment
    takes an active burst over 4096 bits, the burst is discarded, yet
    [insert_last] still returns a buffer marked complete, with no bits in it,
    instead of reporting the failure. *)
Theorem oversized_burst_completes_empty iter ops frag k t ts d b :
  (∀ m, iter m ≡ₚ map_to_list m) → Forall op_frag_ok ops → run iter ops = Some d →
  wf frag → (1 ≤ tt_t t ≤ 4)%Z → ts_index t = Some ts → context d ts k = Some b →
  DEFRAG_BUF_MAX_LEN < get_len (db_buffer b) + get_len_remaining frag →
  ∃ buf frag' d', insert_last frag k t d = Some (Some buf, frag', d') ∧
    db_state buf = Complete ∧ remaining (db_buffer buf) = [].
Proof.
  intros Hiter Hops Hrun Hf Ht Hts Hc Hlen. destruct (inv_run iter Hiter ops Hops) as (d0 & Hrun0 & Hinv).
  assert (d0 = d) as -> by congruence.
  destruct (insert_last_ok _ d frag k t Hinv Hf Ht)
    as (r & frag' & d' & ts' & m & Heq & Hts' & Hm & -> & _ & Hres).
  assert (ts' = ts) as -> by congruence. rewrite (context_map d ts m) in Hc by done. rewrite Hc in Hres.
  destruct Hres as (buf & -> & Hst & _ & _ & Hrem). rewrite decide_False in Hrem by (intros [_ ?]; lia).
  by exists buf, frag', (set_ts_map ts (delete k m) d).
Qed.
