(* ===== verification/UmacCircuitMgr.v ===== *)
(** The UMAC's circuit manager
    ([tetra-entities/src/umac/subcomp/circuit_mgr.rs]): which traffic circuits
    are open on each carrier and timeslot, and the downlink voice blocks queued
    for them.

    The [HashMap]s are [gmap]s keyed by (carrier, timeslot); a [VecDeque] is a
    list, front first; blocks are byte lists.  [u64] additions wrap. *)
From S2P Require Import Prelude Bits.

(** * Data *)

Inductive Direction : Type := DirNone | Ul | Dl | Both.

#[global] Instance Direction_eq_dec : EqDecision Direction.
Proof. solve_decision. Defined.

Inductive CircuitModeType : Type :=
| TchS | Tch72 | Tch48n1 | Tch48n4 | Tch48n8 | Tch24n1 | Tch24n4 | Tch24n8.

Definition circuit_mode_try_from (x : Z) : option CircuitModeType :=
  match x with
  | 0 => Some TchS | 1 => Some Tch72 | 2 => Some Tch48n1 | 3 => Some Tch48n4
  | 4 => Some Tch48n8 | 5 => Some Tch24n1 | 6 => Some Tch24n4 | 7 => Some Tch24n8
  | _ => None
  end%Z.

Definition circuit_mode_into_raw (m : CircuitModeType) : Z :=
  match m with
  | TchS => 0 | Tch72 => 1 | Tch48n1 => 2 | Tch48n4 => 3
  | Tch48n8 => 4 | Tch24n1 => 5 | Tch24n4 => 6 | Tch24n8 => 7
  end.

Inductive CircuitDlMediaSource : Type := LocalLoopback | SwMI.

Record Circuit : Type := mkCircuit {
  c_direction : Direction;
  c_ts : Z;
  c_carrier_num : Z;
  c_peer_carrier_num : option Z;
  c_peer_ts : option Z;
  c_usage : Z;
  c_circuit_mode : CircuitModeType;
  c_speech_service : option Z;
  c_etee_encrypted : bool;
  c_dl_media_source : CircuitDlMediaSource
}.

Definition MAX_QUEUED_DL_BLOCKS : nat := 4.

Abbreviation key := (Z * Z)%type.
Abbreviation block := (list Z).

Record CircuitMgr : Type := mkMgr {
  cm_dl : gmap key Circuit;
  cm_ul : gmap key Circuit;
  cm_tx_data : gmap key (list block);
  cm_tx_data_drops : gmap key Z
}.

(** * Operations *)

Definition cm_new : CircuitMgr := mkMgr ∅ ∅ ∅ ∅.

Definition is_active (dir : Direction) (carrier_num ts : Z) (s : CircuitMgr) : bool :=
  let k := (carrier_num, ts) in
  match dir with
  | Dl => bool_decide (is_Some (cm_dl s !! k))
  | Ul => bool_decide (is_Some (cm_ul s !! k))
  | _ => false
  end.

Definition get_usage (dir : Direction) (carrier_num ts : Z) (s : CircuitMgr) : option Z :=
  let k := (carrier_num, ts) in
  match dir with
  | Dl => c_usage <$> cm_dl s !! k
  | Ul => c_usage <$> cm_ul s !! k
  | _ => None
  end.

Definition get_ul_peer_route (carrier_num ts : Z) (s : CircuitMgr) : option (Z * Z) :=
  let k := (carrier_num, ts) in
  let circuit :=
    match cm_dl s !! k with
    | Some dl => if decide (c_direction dl = Both) then Some dl else cm_ul s !! k
    | None => cm_ul s !! k
    end in
  c ← circuit;
  peer_ts ← c_peer_ts c;
  Some (default carrier_num (c_peer_carrier_num c), peer_ts).

Definition get_dl_media_source (carrier_num ts : Z) (s : CircuitMgr) : option CircuitDlMediaSource :=
  c_dl_media_source <$> cm_dl s !! (carrier_num, ts).

Definition close_circuit (dir : Direction) (carrier_num ts : Z) (s : CircuitMgr) :
    option Circuit * CircuitMgr :=
  let k := (carrier_num, ts) in
  match dir with
  | Dl => (cm_dl s !! k,
           mkMgr (delete k (cm_dl s)) (cm_ul s) (delete k (cm_tx_data s))
             (delete k (cm_tx_data_drops s)))
  | Ul => (cm_ul s !! k,
           mkMgr (cm_dl s) (delete k (cm_ul s)) (cm_tx_data s) (cm_tx_data_drops s))
  | _ => (None, s)
  end.

Definition is_empty (q : list block) : bool := match q with [] => true | _ => false end.

Definition create_circuit (dir : Direction) (circuit : Circuit) (s : CircuitMgr) : CircuitMgr :=
  let k := (c_carrier_num circuit, c_ts circuit) in
  let s := if is_active dir (c_carrier_num circuit) (c_ts circuit) s
           then snd (close_circuit dir (c_carrier_num circuit) (c_ts circuit) s) else s in
  match dir with
  | Dl =>
      let tx_data :=
        match cm_tx_data s !! k with
        | Some queue => if is_empty queue then cm_tx_data s else delete k (cm_tx_data s)
        | None => cm_tx_data s
        end in
      mkMgr (<[k:=circuit]> (cm_dl s)) (cm_ul s) tx_data (delete k (cm_tx_data_drops s))
  | Ul => mkMgr (cm_dl s) (<[k:=circuit]> (cm_ul s)) (cm_tx_data s) (cm_tx_data_drops s)
  | _ => s
  end.

Definition put_block (carrier_num ts : Z) (b : block) (s : CircuitMgr) : CircuitMgr :=
  if negb (is_active Dl carrier_num ts s) then s
  else
    let k := (carrier_num, ts) in
    let queue := default [] (cm_tx_data s !! k) ++ [b] in
    let overflow := length queue - MAX_QUEUED_DL_BLOCKS in
    if overflow =? 0 then
      mkMgr (cm_dl s) (cm_ul s) (<[k:=queue]> (cm_tx_data s)) (cm_tx_data_drops s)
    else
      let queue := drop overflow queue in
      let drops := default 0%Z (cm_tx_data_drops s !! k) in
      mkMgr (cm_dl s) (cm_ul s) (<[k:=queue]> (cm_tx_data s))
        (<[k:=wrap 64 (drops + Z.of_nat overflow)]> (cm_tx_data_drops s)).

Definition queued_block_count (carrier_num ts : Z) (s : CircuitMgr) : nat :=
  match cm_tx_data s !! (carrier_num, ts) with Some q => length q | None => 0 end.

Definition take_block (carrier_num ts : Z) (s : CircuitMgr) : option block * CircuitMgr :=
  if negb (is_active Dl carrier_num ts s) then (None, s)
  else
    let k := (carrier_num, ts) in
    match cm_tx_data s !! k with
    | Some (b :: q) =>
        (Some b, mkMgr (cm_dl s) (cm_ul s) (<[k:=q]> (cm_tx_data s)) (cm_tx_data_drops s))
    | _ => (None, s)
    end.

(** * Specification: one bounded queue per open downlink circuit *)

(** An open downlink circuit: the queued blocks, oldest first, and the number dropped. *)
Record voice_queue : Type := mkVq { vq_blocks : list block; vq_drops : Z }.

(** Keep the newest four blocks. *)
Definition vq_put (b : block) (q : voice_queue) : voice_queue :=
  if length (vq_blocks q) <? MAX_QUEUED_DL_BLOCKS
  then mkVq (vq_blocks q ++ [b]) (vq_drops q)
  else mkVq (tail (vq_blocks q) ++ [b]) (wrap 64 (vq_drops q + 1)).

Inductive cm_op : Type :=
| CCreate (dir : Direction) (c : Circuit)
| CClose (dir : Direction) (carrier_num ts : Z)
| CPut (carrier_num ts : Z) (b : block)
| CTake (carrier_num ts : Z).

Definition cm_exec (op : cm_op) (s : CircuitMgr) : option block * CircuitMgr :=
  match op with
  | CCreate dir c => (None, create_circuit dir c s)
  | CClose dir cn ts => (None, snd (close_circuit dir cn ts s))
  | CPut cn ts b => (None, put_block cn ts b s)
  | CTake cn ts => take_block cn ts s
  end.

(** The same operations on the queue of one carrier and timeslot. *)
Definition vq_exec (k : key) (op : cm_op) (q : option voice_queue) : option block * option voice_queue :=
  match op with
  | CCreate Dl c => (None, if decide ((c_carrier_num c, c_ts c) = k) then Some (mkVq [] 0) else q)
  | CClose Dl cn ts => (None, if decide ((cn, ts) = k) then None else q)
  | CPut cn ts b => (None, if decide ((cn, ts) = k) then vq_put b <$> q else q)
  | CTake cn ts =>
      if decide ((cn, ts) = k) then
        match q with
        | Some (mkVq (b :: bs) n) => (Some b, Some (mkVq bs n))
        | _ => (None, q)
        end
      else (None, q)
  | _ => (None, q)
  end.

(** The queue of [k] in a state of the manager. *)
Definition view (k : key) (s : CircuitMgr) : option voice_queue :=
  match cm_dl s !! k with
  | Some _ => Some (mkVq (default [] (cm_tx_data s !! k)) (default 0%Z (cm_tx_data_drops s !! k)))
  | None => None
  end.

(** Queues are bounded, and only open circuits have one. *)
Record cm_inv (s : CircuitMgr) : Prop := {
  inv_len k q : cm_tx_data s !! k = Some q → length q ≤ MAX_QUEUED_DL_BLOCKS;
  inv_open k : cm_dl s !! k = None → cm_tx_data s !! k = None
}.

Definition op_key (op : cm_op) : key :=
  match op with
  | CCreate _ c => (c_carrier_num c, c_ts c)
  | CClose _ cn ts | CPut cn ts _ | CTake cn ts => (cn, ts)
  end.

(** An operation simulates its counterpart on every queue. *)
Definition simulates (op : cm_op) (s : CircuitMgr) : Prop :=
  cm_inv (cm_exec op s).2 ∧
  (∀ k, view k (cm_exec op s).2 = (vq_exec k op (view k s)).2) ∧
  (cm_exec op s).1 = (vq_exec (op_key op) op (view (op_key op) s)).1.

Lemma view_ext k s s' : cm_dl s' !! k = cm_dl s !! k → cm_tx_data s' !! k = cm_tx_data s !! k →
  cm_tx_data_drops s' !! k = cm_tx_data_drops s !! k → view k s' = view k s.
Proof. unfold view. by intros -> -> ->. Qed.

Lemma simulates_close dir cn ts s : cm_inv s → simulates (CClose dir cn ts) s.
Proof.
  intros [Hl Ho]. unfold simulates. cbn [cm_exec fst snd].
  destruct dir; cbn [close_circuit vq_exec fst snd]; split_and!; try done.
  - split; cbn [cm_tx_data cm_dl].
    + intros k q [_ Hq]%lookup_delete_Some. by eapply Hl.
    + intros k. destruct (decide ((cn, ts) = k)) as [<-|]; [by rewrite !lookup_delete_eq|].
      rewrite !lookup_delete_ne by done. apply Ho.
  - intros k. case_decide as E; [subst k; unfold view; cbn [cm_dl]; by rewrite lookup_delete_eq|].
    apply view_ext; cbn [cm_dl cm_tx_data cm_tx_data_drops]; by rewrite lookup_delete_ne.
Qed.

(** An open circuit that is created again is closed first. *)
Lemma create_after_close dir c s : cm_inv s → ∃ s0, cm_inv s0 ∧
  (∀ k, k ≠ (c_carrier_num c, c_ts c) → view k s0 = view k s) ∧
  (dir ≠ Dl → ∀ k, view k s0 = view k s) ∧
  (dir = Dl → cm_dl s0 !! (c_carrier_num c, c_ts c) = None) ∧
  s0 = (if is_active dir (c_carrier_num c) (c_ts c) s
        then snd (close_circuit dir (c_carrier_num c) (c_ts c) s) else s).
Proof.
  intros Hinv. eexists. split; [|split; [|split; [|split; [|reflexivity]]]].
  all: destruct (is_active _ _ _ s) eqn:Ha; try done.
  all: destruct (simulates_close dir (c_carrier_num c) (c_ts c) s Hinv) as (Hi & Hv & _);
    cbn [cm_exec fst snd] in Hi, Hv.
  - done.
  - intros k Hk. rewrite Hv. destruct dir; cbn [vq_exec snd]; try done. by rewrite decide_False.
  - intros Hd k. rewrite Hv. by destruct dir.
  - intros ->. cbn [close_circuit snd cm_dl]. apply lookup_delete_eq.
  - intros ->. cbn [is_active] in Ha. apply bool_decide_eq_false in Ha. by apply eq_None_not_Some.
Qed.

Lemma simulates_create dir c s : cm_inv s → simulates (CCreate dir c) s.
Proof.
  intros Hinv. destruct (create_after_close dir c s Hinv) as (s0 & [Hl Ho] & Hv & Hnd & Hd & E).
  unfold simulates. cbn [cm_exec fst snd]. unfold create_circuit. cbv zeta. rewrite <-E. clear E.
  destruct dir; cbn [vq_exec fst snd]; split_and!; try done; try (intros k; by apply Hnd).
  - rewrite (Ho _ (Hd eq_refl)). split; cbn [cm_tx_data cm_dl]; [done|].
    intros k [Hk _]%lookup_insert_None. by apply Ho.
  - rewrite (Ho _ (Hd eq_refl)). intros k. case_decide as E.
    + subst k. unfold view. cbn [cm_dl cm_tx_data cm_tx_data_drops].
      by rewrite lookup_insert_eq, lookup_delete_eq, (Ho _ (Hd eq_refl)).
    + rewrite <-Hv by done. apply view_ext; cbn [cm_dl cm_tx_data cm_tx_data_drops]; try done.
      * by rewrite lookup_insert_ne.
      * by rewrite lookup_delete_ne.
Qed.

Lemma view_active cn ts s : is_active Dl cn ts s = true →
  ∃ c, cm_dl s !! (cn, ts) = Some c ∧
    view (cn, ts) s = Some (mkVq (default [] (cm_tx_data s !! (cn, ts)))
                              (default 0%Z (cm_tx_data_drops s !! (cn, ts)))).
Proof.
  intros [c Hc]%bool_decide_eq_true. exists c. split; [done|]. unfold view. by rewrite Hc.
Qed.

Lemma view_inactive cn ts s : is_active Dl cn ts s = false → view (cn, ts) s = None.
Proof. intros Hc%bool_decide_eq_false%eq_None_not_Some. unfold view. by rewrite Hc. Qed.

(** Replacing the queue and the drop counter of one open circuit. *)
Lemma set_queue_ok cn ts c q n s : cm_inv s → cm_dl s !! (cn, ts) = Some c →
  length q ≤ MAX_QUEUED_DL_BLOCKS →
  let s' := mkMgr (cm_dl s) (cm_ul s) (<[(cn, ts):=q]> (cm_tx_data s)) n in
  (∀ k, k ≠ (cn, ts) → n !! k = cm_tx_data_drops s !! k) →
  cm_inv s' ∧ ∀ k, view k s' = if decide ((cn, ts) = k)
                               then Some (mkVq q (default 0%Z (n !! (cn, ts)))) else view k s.
Proof.
  intros [Hl Ho] Hc Hq s' Hn. unfold s'. clear s'. split; [split; cbn [cm_tx_data cm_dl]|].
  - intros k q' [[<- <-]|[_ ?]]%lookup_insert_Some; [done|by eapply Hl].
  - intros k Hk. rewrite lookup_insert_ne by congruence. by apply Ho.
  - intros k. case_decide as E.
    + subst k. unfold view. cbn [cm_dl cm_tx_data cm_tx_data_drops]. by rewrite Hc, lookup_insert_eq.
    + apply view_ext; cbn [cm_dl cm_tx_data cm_tx_data_drops]; [done|by rewrite lookup_insert_ne|].
      by apply Hn.
Qed.

Lemma put_block_ok cn ts b c s : cm_inv s → cm_dl s !! (cn, ts) = Some c →
  cm_inv (put_block cn ts b s) ∧
  ∀ k, view k (put_block cn ts b s) = if decide ((cn, ts) = k) then vq_put b <$> view k s else view k s.
Proof.
  intros Hinv Hc. assert (is_active Dl cn ts s = true) as Ha by (by apply bool_decide_eq_true).
  destruct (view_active cn ts s Ha) as (_ & _ & Hv).
  unfold put_block. rewrite Ha. cbn [negb]. cbv zeta.
  set (q := default [] (cm_tx_data s !! (cn, ts))) in *.
  assert (length q ≤ MAX_QUEUED_DL_BLOCKS) as Hlen.
  { unfold q. destruct (cm_tx_data s !! (cn, ts)) as [q0|] eqn:E; [by eapply inv_len|].
    simpl. unfold MAX_QUEUED_DL_BLOCKS. lia. }
  rewrite length_app. cbn [length].
  assert (∀ k, (if decide ((cn, ts) = k) then vq_put b <$> view k s else view k s) =
    if decide ((cn, ts) = k)
    then Some (vq_put b (mkVq q (default 0%Z (cm_tx_data_drops s !! (cn, ts))))) else view k s) as Hspec.
  { intros k. case_decide; [|done]. subst k. by rewrite Hv. }
  setoid_rewrite Hspec. clear Hspec. unfold vq_put. cbn [vq_blocks vq_drops].
  destruct (Nat.eqb_spec (length q + 1 - MAX_QUEUED_DL_BLOCKS) 0) as [E|E];
    destruct (Nat.ltb_spec (length q) MAX_QUEUED_DL_BLOCKS); try (unfold MAX_QUEUED_DL_BLOCKS in *; lia).
  - eapply set_queue_ok; [done..| |done]. rewrite length_app. simpl. lia.
  - assert (length q + 1 - MAX_QUEUED_DL_BLOCKS = 1) as -> by (unfold MAX_QUEUED_DL_BLOCKS in *; lia).
    assert (drop 1 (q ++ [b]) = tail q ++ [b]) as ->.
    { destruct q; [unfold MAX_QUEUED_DL_BLOCKS in *; simpl in *; lia|done]. }
    destruct (set_queue_ok cn ts c (tail q ++ [b])
      (<[(cn, ts):=wrap 64 (default 0%Z (cm_tx_data_drops s !! (cn, ts)) + Z.of_nat 1)]> (cm_tx_data_drops s))
      s Hinv Hc) as [Hi Hs].
    + destruct q; [unfold MAX_QUEUED_DL_BLOCKS in *; simpl in *; lia|].
      rewrite length_app. simpl in *. lia.
    + intros k Hk. by rewrite lookup_insert_ne.
    + split; [done|]. intros k. rewrite Hs, lookup_insert_eq. done.
Qed.

Lemma simulates_put cn ts b s : cm_inv s → simulates (CPut cn ts b) s.
Proof.
  intros Hinv. unfold simulates. cbn [cm_exec vq_exec op_key fst snd].
  destruct (is_active Dl cn ts s) eqn:Ha.
  - destruct (view_active _ _ _ Ha) as (c & Hc & _). destruct (put_block_ok cn ts b c s) as [Hi Hv]; [done..|].
    split; [done|]. split; [|done]. intros k. by rewrite Hv.
  - unfold put_block. rewrite Ha. cbn [negb]. split; [done|]. split; [|done].
    intros k. case_decide as E; [|done]. subst k. by rewrite (view_inactive _ _ _ Ha).
Qed.

Lemma simulates_take cn ts s : cm_inv s → simulates (CTake cn ts) s.
Proof.
  intros Hinv. unfold simulates. cbn [cm_exec vq_exec op_key fst snd].
  rewrite decide_True by done. unfold take_block.
  destruct (is_active Dl cn ts s) eqn:Ha; cbn [negb].
  2: { rewrite (view_inactive _ _ _ Ha). split; [done|]. split; [|done]. intros k.
       cbn [fst snd]. case_decide as E; [|done]. subst k. by rewrite (view_inactive _ _ _ Ha). }
  destruct (view_active _ _ _ Ha) as (c & Hc & Hv). rewrite Hv. cbv zeta.
  destruct (cm_tx_data s !! (cn, ts)) as [[|b q]|] eqn:E; cbn [default from_option].
  1,3: split; [done|]; split; [|done]; intros k; cbn [fst snd]; case_decide as Ek; [|done]; subst k; rewrite Hv; done.
  destruct (set_queue_ok cn ts c q (cm_tx_data_drops s) s Hinv Hc) as [Hi Hs]; [|done|].
  { pose proof (inv_len _ Hinv _ _ E). simpl in *. lia. }
  split; [done|]. split; [|done]. cbn [snd]. intros k. rewrite Hs. case_decide as Ek; [|done].
  subst k. by rewrite Hv.
Qed.

Lemma simulates_op op s : cm_inv s → simulates op s.
Proof.
  destruct op; [apply simulates_create|apply simulates_close|apply simulates_put|apply simulates_take].
Qed.

(** Runs, with the block each step returns. *)
Fixpoint cm_run (ops : list cm_op) (s : CircuitMgr) : list (option block) * CircuitMgr :=
  match ops with
  | [] => ([], s)
  | op :: ops =>
      let '(r, s) := cm_exec op s in
      let '(rs, s) := cm_run ops s in (r :: rs, s)
  end.

Definition vq_run (k : key) (ops : list cm_op) (q : option voice_queue) : option voice_queue :=
  foldl (λ q op, snd (vq_exec k op q)) q ops.

(** The downlink voice path is one bounded queue per open circuit.  After
    any sequence of operations on any carriers and timeslots, the queue of each
    carrier and timeslot is what a queue of its own would be: empty when the
    circuit was opened, holding the newest four blocks in order, gone when the
    circuit is closed; a block taken next is the oldest one still held, so
    circuits never see each other's blocks or those of an earlier call. *)
Theorem voice_queues_refined ops :
  let s := snd (cm_run ops cm_new) in
  (∀ k, view k s = vq_run k ops None) ∧
  (∀ cn ts, fst (take_block cn ts s) = fst (vq_exec (cn, ts) (CTake cn ts) (vq_run (cn, ts) ops None))) ∧
  (∀ cn ts, queued_block_count cn ts s =
     match vq_run (cn, ts) ops None with Some q => length (vq_blocks q) | None => 0 end ∧
     queued_block_count cn ts s ≤ MAX_QUEUED_DL_BLOCKS).
Proof.
  assert (∀ ops s, cm_inv s → cm_inv (snd (cm_run ops s)) ∧
    ∀ k, view k (snd (cm_run ops s)) = vq_run k ops (view k s)) as Hrun.
  { clear ops. induction ops as [|op ops IH]; intros s Hinv; [done|]. cbn [cm_run].
    destruct (simulates_op op s Hinv) as (Hi & Hv & _). destruct (cm_exec op s) as [r s1]. cbn in Hi, Hv.
    destruct (IH s1 Hi) as [Hi2 Hv2]. destruct (cm_run ops s1) as [rs s2]. cbn in *.
    split; [done|]. intros k. by rewrite Hv2, Hv. }
  assert (cm_inv cm_new) as H0 by (split; [intros k q Hk; cbn [cm_new cm_tx_data] in Hk; by rewrite lookup_empty in Hk|done]).
  destruct (Hrun ops cm_new H0) as [Hinv Hview]. intros s. fold s in Hinv, Hview.
  assert (∀ k, view k s = vq_run k ops None) as Hv by (intros k; rewrite Hview; done).
  split; [done|]. split.
  - intros cn ts. destruct (simulates_take cn ts s Hinv) as (_ & _ & Hr). rewrite <-Hv. exact Hr.
  - intros cn ts. rewrite <-Hv. unfold queued_block_count, view.
    destruct (cm_tx_data s !! (cn, ts)) as [q|] eqn:E.
    + split; [|by eapply inv_len]. destruct (cm_dl s !! (cn, ts)) eqn:Ed; [done|].
      rewrite (inv_open _ Hinv _ Ed) in E. done.
    + split; [|lia]. by destruct (cm_dl s !! (cn, ts)).
Qed.

(** Five blocks put, one taken: the first was dropped, the second is returned. *)
Example voice_queue_drops_oldest :
  let c := mkCircuit Dl 2 100 None None 4 TchS None false LocalLoopback in
  fst (take_block 100 2 (snd (cm_run
    ([CCreate Dl c] ++ ((λ i, CPut 100 2 [i]) <$> [1; 2; 3; 4; 5]%Z)) cm_new))) = Some [2%Z].
Proof. vm_compute. reflexivity. Qed.

Lemma circuit_mode_roundtrip m : circuit_mode_try_from (circuit_mode_into_raw m) = Some m.
Proof. by destruct m. Qed.
