(* ===== verification/EventLabelStore.v ===== *)
(** Event labels ([tetra-entities/src/umac/subcomp/event_label_store.rs]): short
    MAC-level names for subscriber addresses, handed out in a cycle of 511.

    [EventLabel] is a [u16].  The order in which [labels.values()] is searched
    is the argument [iter] of the section: any enumeration of the map. *)
From S2P Require Import Prelude Core Bits.

Local Open Scope Z_scope.

Record EventLabelMapping : Type := mkMapping { elm_addr : TetraAddress; elm_label : Z }.

Record EventLabelStore : Type := mkStore {
  labels : gmap Z EventLabelMapping;
  next_label : Z
}.

Definition store_new : EventLabelStore := mkStore ∅ 1.

Definition get_free_label (s : EventLabelStore) : Z * EventLabelStore :=
  (next_label s, mkStore (labels s) (wrap 16 (next_label s + 1) mod 0x1FF)).

Definition get_addr_by_label (label : Z) (s : EventLabelStore) : option TetraAddress :=
  elm_addr <$> labels s !! label.

Section store.
Context (iter : gmap Z EventLabelMapping → list (Z * EventLabelMapping)).

Definition get_label_by_ssi (q : Z) (s : EventLabelStore) : option Z :=
  (λ kv, elm_label kv.2.2) <$> list_find (λ kv : Z * EventLabelMapping, ssi (elm_addr kv.2) = q) (iter (labels s)).

(** [None]: the assertion that the address has no label yet fails. *)
Definition create_label_for_addr (addr : TetraAddress) (s : EventLabelStore) :
    option (Z * EventLabelStore) :=
  match get_label_by_ssi (ssi addr) s with
  | Some _ => None
  | None =>
      let '(label, s) := get_free_label s in
      Some (label, mkStore (<[label:=mkMapping addr label]> (labels s)) (next_label s))
  end.

Fixpoint create_labels (addrs : list TetraAddress) (s : EventLabelStore) :
    option (list Z * EventLabelStore) :=
  match addrs with
  | [] => Some ([], s)
  | a :: addrs =>
      '(l, s) ← create_label_for_addr a s;
      '(ls, s) ← create_labels addrs s;
      Some (l :: ls, s)
  end.

Context (iter_perm : ∀ m, iter m ≡ₚ map_to_list m).

(** The label of the [i]-th address that got one. *)
Definition nth_label (i : nat) : Z := (Z.of_nat i + 1) mod 511.

(** After labels for [addrs]: those of the last 511 addresses are in the store. *)
Definition store_after (addrs : list TetraAddress) (s : EventLabelStore) : Prop :=
  next_label s = nth_label (length addrs) ∧
  ∀ l m, labels s !! l = Some m ↔
    ∃ i a, addrs !! i = Some a ∧ (length addrs ≤ i + 511)%nat ∧ l = nth_label i ∧ m = mkMapping a l.

Lemma nth_label_range i : 0 ≤ nth_label i < 511.
Proof. apply Z.mod_pos_bound. lia. Qed.

Lemma nth_label_inj i j : (i ≤ j)%nat → (j < i + 511)%nat → nth_label i = nth_label j → i = j.
Proof.
  unfold nth_label. intros H1 H2 E. apply (f_equal (λ x, (x - (Z.of_nat i + 1) mod 511) mod 511)) in E.
  rewrite Z.sub_diag, <-Zminus_mod in E. replace (Z.of_nat j + 1 - (Z.of_nat i + 1)) with (Z.of_nat (j - i)) in E by lia.
  rewrite Z.mod_0_l, (Z.mod_small (Z.of_nat (j - i))) in E by lia. lia.
Qed.

Lemma nth_label_511 i : nth_label (i + 511) = nth_label i.
Proof.
  unfold nth_label. replace (Z.of_nat (i + 511) + 1) with (Z.of_nat i + 1 + 1 * 511) by lia.
  by rewrite Z.mod_add.
Qed.

Lemma get_label_by_ssi_None q s : (∀ l m, labels s !! l = Some m → ssi (elm_addr m) ≠ q) →
  get_label_by_ssi q s = None.
Proof.
  intros H. unfold get_label_by_ssi. rewrite (proj2 (list_find_None _ _)); [done|].
  rewrite iter_perm. apply Forall_forall. intros [l m] Hin%elem_of_map_to_list. by apply (H l).
Qed.

Lemma create_label_after addrs a s : NoDup (ssi <$> addrs ++ [a]) → store_after addrs s →
  ∃ s', create_label_for_addr a s = Some (nth_label (length addrs), s') ∧ store_after (addrs ++ [a]) s'.
Proof.
  rewrite fmap_app, NoDup_app. intros (_ & Hnew & _) [Hnext Hs].
  unfold create_label_for_addr. rewrite get_label_by_ssi_None.
  2: { intros l m (i & b & Hi & _ & _ & ->)%Hs E. cbn [elm_addr] in E.
       apply (Hnew (ssi b)); [|rewrite E; by left].
       rewrite list_elem_of_fmap. exists b. split; [done|]. by eapply list_elem_of_lookup_2. }
  cbn [get_free_label]. unfold get_free_label. cbn. rewrite Hnext. eexists. split; [done|].
  unfold store_after. rewrite length_app. cbn [length]. split; cbn [next_label labels].
  - pose proof (nth_label_range (length addrs)). rewrite wrap_small by (unfold is_u; lia).
    unfold nth_label. change 0x1FF with 511. rewrite Zplus_mod_idemp_l. f_equal. lia.
  - intros l m. rewrite lookup_insert_Some, Hs. split.
    + intros [[<- <-]|[Hne (i & b & Hi & Hlt & -> & ->)]].
      * exists (length addrs), a. rewrite lookup_app_r, Nat.sub_diag by lia. simpl.
        split_and!; [done|lia|done|done].
      * exists i, b. rewrite lookup_app_l by (by eapply lookup_lt_Some).
        split_and!; [done| |done|done]. destruct (decide (length addrs = i + 511)%nat) as [E|]; [|lia].
        destruct Hne. by rewrite E, nth_label_511.
    + intros (i & b & Hi & Hlt & -> & ->). 
      apply lookup_app_Some in Hi as [Hi|[Hge Hi]].
      * right. apply lookup_lt_Some in Hi as Hil. split; [|by exists i, b; split_and!; [done|lia|done|done]].
        intros E. symmetry in E. apply nth_label_inj in E; lia.
      * destruct (i - length addrs)%nat eqn:E; [|done]. cbn in Hi. injection Hi as ->.
        left. by replace i with (length addrs) by lia.
Qed.

Lemma create_labels_after addrs : ∀ pre s, NoDup (ssi <$> pre ++ addrs) → store_after pre s →
  ∃ s', create_labels addrs s = Some (nth_label <$> seq (length pre) (length addrs), s') ∧
    store_after (pre ++ addrs) s'.
Proof.
  induction addrs as [|a addrs IH]; intros pre s Hnd Hs.
  { exists s. by rewrite app_nil_r. }
  assert (pre ++ a :: addrs = (pre ++ [a]) ++ addrs) as E by (by rewrite <-app_assoc).
  rewrite E in Hnd. destruct (create_label_after pre a s) as (s1 & Heq1 & Hs1); [|done|].
  { rewrite fmap_app, NoDup_app in Hnd. by apply Hnd. }
  destruct (IH (pre ++ [a]) s1 Hnd Hs1) as (s2 & Heq2 & Hs2).
  exists s2. cbn [create_labels length seq fmap list_fmap]. rewrite Heq1. cbn [mbind option_bind].
  rewrite Heq2. cbn [mbind option_bind]. rewrite E, length_app. simpl. by rewrite Nat.add_1_r.
Qed.

(** Event labels identify addresses for one cycle.  Labelling any number of
    stations (with different SSIs) never fails the assertion; station [i] gets
    label [(i + 1) mod 511], and that label resolves to the station as long as
    at most 510 stations were labelled after it.  The next station takes the
    label over silently: it resolves to the new station, not to an error. *)
Theorem event_labels_cycle addrs : NoDup (ssi <$> addrs) →
  ∃ ls s, create_labels addrs store_new = Some (ls, s) ∧ length ls = length addrs ∧
    ∀ i a, addrs !! i = Some a → ls !! i = Some (nth_label i) ∧
      (get_addr_by_label (nth_label i) s = Some a ↔ (length addrs ≤ i + 511)%nat).
Proof.
  intros Hnd. destruct (create_labels_after addrs [] store_new) as (s & Heq & _ & Hs); [done| |].
  { split; [done|]. intros l m. cbn [store_new labels]. rewrite lookup_empty. split; [done|]. by intros (i & a & ? & _). }
  eexists _, s. split; [exact Heq|]. rewrite length_fmap, length_seq. split; [done|].
  intros i a Hi. apply lookup_lt_Some in Hi as Hlt. split.
  { rewrite list_lookup_fmap, lookup_seq_lt by done. done. }
  unfold get_addr_by_label. rewrite fmap_Some. split.
  - intros (m & (j & b & Hj & Hle & _ & ->)%Hs & ->). cbn [elm_addr] in Hi.
    replace i with j; [done|]. eapply (NoDup_lookup (ssi <$> addrs)); [done| |].
    + rewrite list_lookup_fmap. cbn [app] in Hj. by rewrite Hj.
    + rewrite list_lookup_fmap. by rewrite Hi.
  - intros Hle. exists (mkMapping a (nth_label i)). split; [|done]. apply Hs. by exists i, a.
Qed.
End store.

Lemma event_labels_cycle_witness : ∃ ls s,
  create_labels map_to_list [issi 7; issi 1000; issi 3] store_new = Some (ls, s) ∧
  get_addr_by_label 2 s = Some (issi 1000).
Proof.
  destruct (event_labels_cycle map_to_list (λ _, Permutation_refl _) [issi 7; issi 1000; issi 3])
    as (ls & s & H1 & _ & H2).
  - repeat constructor; set_solver.
  - exists ls, s. split; [exact H1|]. apply (H2 1%nat (issi 1000)); [done|simpl; lia].
Defined.
