(* ===== verification/MacDl.v ===== *)
(** Downlink MAC PDU headers (tetra-pdus/src/umac): MAC-RESOURCE, MAC-FRAG and
    MAC-END with the slot grant and channel allocation elements they carry.

    [assert!] and [unimplemented!] are panics; [debug_assert!] too, as in a
    debug build.  Enums with fixed discriminants have the [try_from] and
    [into_raw] of the source; [x as u64] of such an enum is its [into_raw]. *)
From S2P Require Import Prelude Bits Core BitBuffer BitBufferSpec BitCodec BitBufferThms.
From S2P Require Import FieldCodec.

(** [T::try_from(val).map_err(|_| InvalidValue { field, value })?] *)
Definition try_enum {A} (o : option A) (field : string) (value : Z) : B A :=
  ok_or o (InvalidValue field value).

(** * Basic slot granting element *)

Inductive BasicSlotgrantCapAlloc : Type :=
| FirstSubslotGranted | Grant1Slot | Grant2Slots | Grant3Slots | Grant4Slots | Grant5Slots
| Grant6Slots | Grant8Slots | Grant10Slots | Grant13Slots | Grant17Slots | Grant24Slots
| Grant34Slots | Grant51Slots | Grant68Slots | SecondSubslotGranted.

Definition cap_alloc_try_from (x : Z) : option BasicSlotgrantCapAlloc :=
  match x with
  | 0 => Some FirstSubslotGranted | 1 => Some Grant1Slot | 2 => Some Grant2Slots
  | 3 => Some Grant3Slots | 4 => Some Grant4Slots | 5 => Some Grant5Slots
  | 6 => Some Grant6Slots | 7 => Some Grant8Slots | 8 => Some Grant10Slots
  | 9 => Some Grant13Slots | 10 => Some Grant17Slots | 11 => Some Grant24Slots
  | 12 => Some Grant34Slots | 13 => Some Grant51Slots | 14 => Some Grant68Slots
  | 15 => Some SecondSubslotGranted | _ => None
  end%Z.

Definition cap_alloc_into_raw (c : BasicSlotgrantCapAlloc) : Z :=
  match c with
  | FirstSubslotGranted => 0 | Grant1Slot => 1 | Grant2Slots => 2 | Grant3Slots => 3
  | Grant4Slots => 4 | Grant5Slots => 5 | Grant6Slots => 6 | Grant8Slots => 7
  | Grant10Slots => 8 | Grant13Slots => 9 | Grant17Slots => 10 | Grant24Slots => 11
  | Grant34Slots => 12 | Grant51Slots => 13 | Grant68Slots => 14 | SecondSubslotGranted => 15
  end.

(** [None]: the [panic!] for a count no grant can express. *)
Definition from_req_slotcount (req : nat) : option BasicSlotgrantCapAlloc :=
  if req =? 0 then Some FirstSubslotGranted
  else if req =? 1 then Some Grant1Slot else if req =? 2 then Some Grant2Slots
  else if req =? 3 then Some Grant3Slots else if req =? 4 then Some Grant4Slots
  else if req =? 5 then Some Grant5Slots else if req =? 6 then Some Grant6Slots
  else if req <=? 8 then Some Grant8Slots else if req <=? 10 then Some Grant10Slots
  else if req <=? 13 then Some Grant13Slots else if req <=? 17 then Some Grant17Slots
  else if req <=? 24 then Some Grant24Slots else if req <=? 34 then Some Grant34Slots
  else if req <=? 51 then Some Grant51Slots else if req <=? 68 then Some Grant68Slots
  else if req =? 99 then Some SecondSubslotGranted else None.

Definition to_req_slotcount (c : BasicSlotgrantCapAlloc) : option nat :=
  match c with
  | FirstSubslotGranted => None
  | Grant1Slot => Some 1 | Grant2Slots => Some 2 | Grant3Slots => Some 3 | Grant4Slots => Some 4
  | Grant5Slots => Some 5 | Grant6Slots => Some 6 | Grant8Slots => Some 8 | Grant10Slots => Some 10
  | Grant13Slots => Some 13 | Grant17Slots => Some 17 | Grant24Slots => Some 24
  | Grant34Slots => Some 34 | Grant51Slots => Some 51 | Grant68Slots => Some 68
  | SecondSubslotGranted => None
  end.

Inductive BasicSlotgrantGrantingDelay : Type :=
| CapAllocAtNextOpportunity
| DelayNOpportunities (n : Z)
| AllocStartsAtOpportunityInFr18
| WaitForAnotherSlotgrantMessage.

Definition granting_delay_try_from (x : Z) : option BasicSlotgrantGrantingDelay :=
  if (x =? 0)%Z then Some CapAllocAtNextOpportunity
  else if (1 <=? x)%Z && (x <=? 13)%Z then Some (DelayNOpportunities (wrap 8 x))
  else if (x =? 14)%Z then Some AllocStartsAtOpportunityInFr18
  else if (x =? 15)%Z then Some WaitForAnotherSlotgrantMessage
  else None.

(** The range of N is a [debug_assert!]; a release build clamps. *)
Definition granting_delay_into_raw (d : BasicSlotgrantGrantingDelay) : B Z :=
  match d with
  | CapAllocAtNextOpportunity => mret 0%Z
  | DelayNOpportunities n =>
      assert_ ((1 <=? n) && (n <=? 13))%Z;;
      mret (Z.max 1 (Z.min n 13))
  | AllocStartsAtOpportunityInFr18 => mret 14%Z
  | WaitForAnotherSlotgrantMessage => mret 15%Z
  end.

Record BasicSlotgrant : Type := mkSlotgrant {
  sg_capacity_allocation : BasicSlotgrantCapAlloc;
  sg_granting_delay : BasicSlotgrantGrantingDelay
}.

Definition slotgrant_from_bitbuf : B BasicSlotgrant :=
  cap_alloc_val ← read_field 4 "capacity_allocation";
  capacity_allocation ← try_enum (cap_alloc_try_from cap_alloc_val) "capacity_allocation" cap_alloc_val;
  granting_delay_val ← read_field 4 "granting_delay";
  granting_delay ← try_enum (granting_delay_try_from granting_delay_val) "granting_delay" granting_delay_val;
  mret (mkSlotgrant capacity_allocation granting_delay).

Definition slotgrant_to_bitbuf (g : BasicSlotgrant) : B unit :=
  write_bits (cap_alloc_into_raw (sg_capacity_allocation g)) 4;;
  raw ← granting_delay_into_raw (sg_granting_delay g);
  write_bits raw 4.

(** * Channel allocation element *)

Inductive ChanAllocType : Type := Replace | Additional | QuitAndGo | ReplaceWithCarrierSignalling.

#[global] Instance ChanAllocType_eq_dec : EqDecision ChanAllocType.
Proof. solve_decision. Defined.

Definition alloc_type_try_from (x : Z) : option ChanAllocType :=
  match x with
  | 0 => Some Replace | 1 => Some Additional | 2 => Some QuitAndGo
  | 3 => Some ReplaceWithCarrierSignalling | _ => None
  end%Z.

Definition alloc_type_into_raw (t : ChanAllocType) : Z :=
  match t with Replace => 0 | Additional => 1 | QuitAndGo => 2 | ReplaceWithCarrierSignalling => 3 end.

Inductive UlDlAssignment : Type := UdAugmented | UdDl | UdUl | UdBoth.

#[global] Instance UlDlAssignment_eq_dec : EqDecision UlDlAssignment.
Proof. solve_decision. Defined.

Definition ul_dl_try_from (x : Z) : option UlDlAssignment :=
  match x with
  | 0 => Some UdAugmented | 1 => Some UdDl | 2 => Some UdUl | 3 => Some UdBoth | _ => None
  end%Z.

Definition ul_dl_into_raw (t : UlDlAssignment) : Z :=
  match t with UdAugmented => 0 | UdDl => 1 | UdUl => 2 | UdBoth => 3 end.

(** [ts_assigned] is an array of four; [ext] is the unsupported extension. *)
Record ChanAllocElement : Type := mkChanAlloc {
  ca_alloc_type : ChanAllocType;
  ca_ts1 : bool; ca_ts2 : bool; ca_ts3 : bool; ca_ts4 : bool;
  ca_ul_dl_assigned : UlDlAssignment;
  ca_clch_permission : bool;
  ca_cell_change_flag : bool;
  ca_carrier_num : Z;
  ca_ext : option Z;
  ca_mon_pattern : Z;
  ca_frame18_mon_pattern : option Z
}.

Definition bit_set (bitmap mask : Z) : bool := negb (Z.land bitmap mask =? 0)%Z.

Definition chan_alloc_from_bitbuf : B ChanAllocElement :=
  val ← read_field 2 "alloc_type";
  alloc_type ← try_enum (alloc_type_try_from val) "alloc_type" val;
  bitmap ← read_field 4 "ts_assigned";
  let bitmap := wrap 8 bitmap in
  val ← read_field 2 "ul_dl_assigned";
  ul_dl_assigned ← try_enum (ul_dl_try_from val) "ul_dl_assigned" val;
  clch_permission ← read_field 1 "clch_permission";
  cell_change_flag ← read_field 1 "cell_change_flag";
  carrier_num ← read_field 12 "carrier_num";
  ext_carrier_num_flag ← read_field 1 "ext_carrier_num_flag";
  assert_ (negb (ext_carrier_num_flag =? 1)%Z);;
  mon_pattern ← read_field 2 "mon_pattern";
  let mon_pattern := wrap 8 mon_pattern in
  frame18_mon_pattern ←
    (if (mon_pattern =? 0)%Z then v ← read_field 2 "frame18_mon_pattern"; mret (Some (wrap 8 v))
     else mret None);
  assert_ (bool_decide (ul_dl_assigned ≠ UdAugmented));;
  mret (mkChanAlloc alloc_type (bit_set bitmap 8) (bit_set bitmap 4) (bit_set bitmap 2) (bit_set bitmap 1)
          ul_dl_assigned (negb (clch_permission =? 0)%Z) (negb (cell_change_flag =? 0)%Z)
          (wrap 16 carrier_num) None mon_pattern frame18_mon_pattern).

Definition chan_alloc_to_bitbuf (c : ChanAllocElement) : B unit :=
  write_bits (alloc_type_into_raw (ca_alloc_type c)) 2;;
  write_bits (Z.b2z (ca_ts1 c)) 1;;
  write_bits (Z.b2z (ca_ts2 c)) 1;;
  write_bits (Z.b2z (ca_ts3 c)) 1;;
  write_bits (Z.b2z (ca_ts4 c)) 1;;
  write_bits (ul_dl_into_raw (ca_ul_dl_assigned c)) 2;;
  write_bits (Z.b2z (ca_clch_permission c)) 1;;
  write_bits (Z.b2z (ca_cell_change_flag c)) 1;;
  write_bits (ca_carrier_num c) 12;;
  match ca_ext c with Some _ => write_bits 1 1;; panic | None => write_bits 0 1 end;;
  write_bits (ca_mon_pattern c) 2;;
  (if (ca_mon_pattern c =? 0)%Z then v ← unwrap (ca_frame18_mon_pattern c); write_bits v 2
   else mret tt);;
  assert_ (bool_decide (ca_ul_dl_assigned c ≠ UdAugmented)).

Definition chan_alloc_compute_len (c : ChanAllocElement) : option nat :=
  let len := 2 + 4 + 2 + 1 + 1 + 12 + 1 in
  match ca_ext c with
  | Some _ => None
  | None =>
      let len := len + 2 in
      let len := if (ca_mon_pattern c =? 0)%Z then len + 2 else len in
      if bool_decide (ca_ul_dl_assigned c = UdAugmented) then None else Some len
  end.

(** * MAC-FRAG and MAC-END *)

Record MacFragDl : Type := mkMacFragDl { mf_fill_bits : bool }.

Definition mac_frag_from_bitbuf : B MacFragDl :=
  mac_pdu_type ← read_field 2 "mac_pdu_type";
  assert_ (mac_pdu_type =? 1)%Z;;
  pdu_subtype ← read_field 1 "pdu_subtype";
  assert_ (pdu_subtype =? 0)%Z;;
  fill_bits ← read_field 1 "fill_bits";
  mret (mkMacFragDl (negb (fill_bits =? 0)%Z)).

Definition mac_frag_to_bitbuf (p : MacFragDl) : B unit :=
  write_bits 1 2;;
  write_bits 0 1;;
  write_bits (Z.b2z (mf_fill_bits p)) 1.

Record MacEndDl : Type := mkMacEndDl {
  me_fill_bits : bool;
  me_pos_of_grant : Z;
  me_length_ind : Z;
  me_slot_granting_element : option BasicSlotgrant;
  me_chan_alloc_element : option ChanAllocElement
}.

Definition mac_end_from_bitbuf : B MacEndDl :=
  mac_pdu_type ← read_field 2 "mac_pdu_type";
  assert_ (mac_pdu_type =? 1)%Z;;
  pdu_subtype ← read_field 1 "pdu_subtype";
  assert_ (pdu_subtype =? 1)%Z;;
  fill_bits ← read_field 1 "fill_bits";
  pos_of_grant ← read_field 1 "pos_of_grant";
  length_ind ← read_field 6 "length_ind";
  slot_granting_element ← read_opt "slot_granting_flag" slotgrant_from_bitbuf;
  chan_alloc_element ← read_opt "chan_alloc_flag" chan_alloc_from_bitbuf;
  mret (mkMacEndDl (negb (fill_bits =? 0)%Z) (wrap 8 pos_of_grant) (wrap 8 length_ind)
          slot_granting_element chan_alloc_element).

Definition mac_end_compute_hdr_len (has_slotgrant has_chanalloc : bool) : option nat :=
  if has_chanalloc then None
  else Some (2 + 1 + 1 + 1 + 6 + 1 + (if has_slotgrant then 6 else 0) + 1).

Definition mac_end_to_bitbuf (p : MacEndDl) : B unit :=
  write_bits 1 2;;
  write_bits 1 1;;
  write_bits (Z.b2z (me_fill_bits p)) 1;;
  write_bits (me_pos_of_grant p) 1;;
  write_bits (me_length_ind p) 6;;
  write_opt (me_slot_granting_element p) slotgrant_to_bitbuf;;
  write_opt (me_chan_alloc_element p) chan_alloc_to_bitbuf.

(** * MAC-RESOURCE *)

Inductive MacResourceAddrType : Type :=
| AtNullPdu | AtSsi | AtEventLabel | AtUssi | AtSmi | AtSsiAndEventLabel | AtSsiAndUsageMarker
| AtSmiAndEventLabel.

#[global] Instance MacResourceAddrType_eq_dec : EqDecision MacResourceAddrType.
Proof. solve_decision. Defined.

Definition addr_type_try_from (x : Z) : option MacResourceAddrType :=
  match x with
  | 0 => Some AtNullPdu | 1 => Some AtSsi | 2 => Some AtEventLabel | 3 => Some AtUssi
  | 4 => Some AtSmi | 5 => Some AtSsiAndEventLabel | 6 => Some AtSsiAndUsageMarker
  | 7 => Some AtSmiAndEventLabel | _ => None
  end%Z.

Definition addr_type_into_raw (t : MacResourceAddrType) : Z :=
  match t with
  | AtNullPdu => 0 | AtSsi => 1 | AtEventLabel => 2 | AtUssi => 3 | AtSmi => 4
  | AtSsiAndEventLabel => 5 | AtSsiAndUsageMarker => 6 | AtSmiAndEventLabel => 7
  end.

Record MacResource : Type := mkMacResource {
  mr_fill_bits : bool;
  mr_pos_of_grant : Z;
  mr_encryption_mode : Z;
  mr_random_access_flag : bool;
  mr_length_ind : Z;
  mr_addr : option TetraAddress;
  mr_event_label : option Z;
  mr_usage_marker : option Z;
  mr_power_control_element : option Z;
  mr_slot_granting_element : option BasicSlotgrant;
  mr_chan_alloc_element : option ChanAllocElement
}.

Definition null_pdu : MacResource :=
  mkMacResource false 0 0 false 2 None None None None None None.

(** The address fields that follow the address type: address, event label, usage marker. *)
Definition read_address (t : MacResourceAddrType) : B (option TetraAddress * option Z * option Z) :=
  match t with
  | AtNullPdu => mret (None, None, None)
  | AtSsi => a ← read_field 24 "ssi"; mret (Some (mkAddr (wrap 32 a) Ssi), None, None)
  | AtEventLabel => e ← read_field 10 "event_label"; mret (None, Some (wrap 16 e), None)
  | AtUssi => a ← read_field 24 "ussi"; mret (Some (mkAddr (wrap 32 a) Ussi), None, None)
  | AtSmi => a ← read_field 24 "smi"; mret (Some (mkAddr (wrap 32 a) Smi), None, None)
  | AtSsiAndEventLabel =>
      a ← read_field 24 "ssi"; e ← read_field 10 "event_label";
      mret (Some (mkAddr (wrap 32 a) Ssi), Some (wrap 16 e), None)
  | AtSsiAndUsageMarker =>
      a ← read_field 24 "ssi"; u ← read_field 6 "usage_marker";
      mret (Some (mkAddr (wrap 32 a) Ssi), None, Some (wrap 8 u))
  | AtSmiAndEventLabel =>
      a ← read_field 24 "smi"; e ← read_field 10 "event_label";
      mret (Some (mkAddr (wrap 32 a) Smi), Some (wrap 16 e), None)
  end.

Definition mac_resource_from_bitbuf : B MacResource :=
  mac_pdu_type ← read_field 2 "mac_pdu_type";
  assert_ (mac_pdu_type =? 0)%Z;;
  fill_bits ← read_field 1 "fill_bits";
  pos_of_grant ← read_field 1 "pos_of_grant";
  encryption_mode ← read_field 2 "encryption_mode";
  random_access_flag ← read_field 1 "random_access_flag";
  length_ind ← read_field 6 "length_ind";
  bits ← read_field 3 "addr_type";
  addr_type ← try_enum (addr_type_try_from bits) "addr_type" bits;
  '(addr, event_label, usage_marker) ← read_address addr_type;
  if decide (addr_type = AtNullPdu) then
    mret (mkMacResource false 0 0 false (wrap 8 length_ind) addr event_label usage_marker
            None None None)
  else
    power_control_element ←
      read_opt "power_control_flag" (v ← read_field 4 "power_control_element"; mret (wrap 8 v));
    slot_granting_element ← read_opt "slot_granting_flag" slotgrant_from_bitbuf;
    chan_alloc_element ← read_opt "chan_alloc_flag" chan_alloc_from_bitbuf;
    mret (mkMacResource (negb (fill_bits =? 0)%Z) (wrap 8 pos_of_grant) (wrap 8 encryption_mode)
            (negb (random_access_flag =? 0)%Z) (wrap 8 length_ind) addr event_label usage_marker
            power_control_element slot_granting_element chan_alloc_element).

Definition is_none {A} (o : option A) : bool := match o with None => true | Some _ => false end.

Definition is_null_pdu (r : MacResource) : bool :=
  is_none (mr_addr r) && is_none (mr_event_label r) && is_none (mr_usage_marker r).

(** The address type a header is written with; panics on a combination that has none. *)
Definition derive_addr_type (r : MacResource) : B MacResourceAddrType :=
  if is_null_pdu r then
    assert_ (negb (mr_fill_bits r));;
    assert_ (mr_pos_of_grant r =? 0)%Z;;
    assert_ (mr_encryption_mode r =? 0)%Z;;
    assert_ (negb (mr_random_access_flag r));;
    mret AtNullPdu
  else match mr_addr r with
  | Some addr =>
      if bool_decide (ssi_type addr = Ssi ∨ ssi_type addr = Gssi ∨ ssi_type addr = Issi) then
        if is_none (mr_event_label r) && is_none (mr_usage_marker r) then mret AtSsi
        else if negb (is_none (mr_event_label r)) && is_none (mr_usage_marker r) then mret AtSsiAndEventLabel
        else if negb (is_none (mr_usage_marker r)) && is_none (mr_event_label r) then mret AtSsiAndUsageMarker
        else panic
      else if bool_decide (ssi_type addr = Ussi) && is_none (mr_event_label r) && is_none (mr_usage_marker r)
      then mret AtUssi
      else if bool_decide (ssi_type addr = Smi) then
        assert_ (is_none (mr_usage_marker r));;
        (if negb (is_none (mr_event_label r)) then mret AtSmiAndEventLabel else mret AtSmi)
      else panic
  | None =>
      assert_ (is_none (mr_usage_marker r));;
      assert_ (negb (is_none (mr_event_label r)));;
      (if is_none (mr_event_label r) then mret AtNullPdu else mret AtEventLabel)
  end.

Definition write_ssi (r : MacResource) : B unit :=
  addr ← unwrap (mr_addr r);
  assert_ (Bool.eqb (bool_decide (ssi_type addr = Esi)) (negb (mr_encryption_mode r =? 0)%Z));;
  write_bits (ssi addr) 24.

Definition write_address (t : MacResourceAddrType) (r : MacResource) : B unit :=
  match t with
  | AtNullPdu => mret tt
  | AtSsi | AtUssi | AtSmi => write_ssi r
  | AtEventLabel => e ← unwrap (mr_event_label r); write_bits e 10
  | AtSsiAndEventLabel | AtSmiAndEventLabel =>
      write_ssi r;; e ← unwrap (mr_event_label r); write_bits e 10
  | AtSsiAndUsageMarker =>
      write_ssi r;; u ← unwrap (mr_usage_marker r); write_bits u 6
  end.

Definition mac_resource_to_bitbuf (r : MacResource) : B unit :=
  assert_ (0 <? mr_length_ind r)%Z;;
  write_bits 0 2;;
  write_bits (Z.b2z (mr_fill_bits r)) 1;;
  write_bits (mr_pos_of_grant r) 1;;
  write_bits (mr_encryption_mode r) 2;;
  write_bits (Z.b2z (mr_random_access_flag r)) 1;;
  write_bits (mr_length_ind r) 6;;
  addr_type ← derive_addr_type r;
  write_bits (addr_type_into_raw addr_type) 3;;
  write_address addr_type r;;
  if decide (addr_type = AtNullPdu) then mret tt
  else
    write_opt (mr_power_control_element r) (λ v, write_bits v 4);;
    write_opt (mr_slot_granting_element r) slotgrant_to_bitbuf;;
    write_opt (mr_chan_alloc_element r) chan_alloc_to_bitbuf.

Definition compute_header_len (r : MacResource) : option nat :=
  let ret := 16 in
  if is_null_pdu r then Some ret
  else
    let ret := if is_none (mr_event_label r) then ret else ret + 10 in
    let ret := if is_none (mr_usage_marker r) then ret else ret + 6 in
    let ret := if is_none (mr_addr r) then ret else ret + 24 in
    let ret := ret + 1 in
    let ret := if is_none (mr_power_control_element r) then ret else ret + 4 in
    let ret := ret + 1 in
    let ret := if is_none (mr_slot_granting_element r) then ret else ret + 8 in
    let ret := ret + 1 in
    match mr_chan_alloc_element r with
    | None => Some ret
    | Some chan_alloc => len ← chan_alloc_compute_len chan_alloc; Some (ret + len)
    end.

Definition set_len_fill (length_ind : Z) (fill_bits : bool) (r : MacResource) : MacResource :=
  mkMacResource fill_bits (mr_pos_of_grant r) (mr_encryption_mode r) (mr_random_access_flag r)
    length_ind (mr_addr r) (mr_event_label r) (mr_usage_marker r) (mr_power_control_element r)
    (mr_slot_granting_element r) (mr_chan_alloc_element r).

Definition update_len_and_fill_ind (sdu_len : nat) (r : MacResource) : option (nat * MacResource) :=
  hdr_len ← compute_header_len r;
  let total_len := hdr_len + sdu_len in
  let total_len_bytes := div_ceil total_len 8 in
  let num_fill_bits := (8 - total_len mod 8) mod 8 in
  Some (num_fill_bits,
        set_len_fill (wrap 8 (Z.of_nat total_len_bytes)) (negb (num_fill_bits =? 0)) r).
