(* ===== verification/MacDlSpec.v ===== *)
(** Downlink MAC headers on the wire: the layout of each header, that writing
    and parsing follow it, and that the length the fragmenter computes for a
    MAC-RESOURCE header is the length that is written. *)
From S2P Require Import Prelude Bits Core BitBuffer BitBufferSpec BitCodec BitBufferThms.
From S2P Require Import FieldCodec MacDl.

(** * Slot grants *)

Definition slotgrant_valid (g : BasicSlotgrant) : Prop :=
  match sg_granting_delay g with DelayNOpportunities n => (1 ≤ n ≤ 13)%Z | _ => True end.

Definition granting_delay_raw (d : BasicSlotgrantGrantingDelay) : Z :=
  match d with
  | CapAllocAtNextOpportunity => 0 | DelayNOpportunities n => n
  | AllocStartsAtOpportunityInFr18 => 14 | WaitForAnotherSlotgrantMessage => 15
  end.

Definition slotgrant_fields (g : BasicSlotgrant) : fields :=
  [(cap_alloc_into_raw (sg_capacity_allocation g), 4); (granting_delay_raw (sg_granting_delay g), 4)].

Lemma cap_alloc_ok c : cap_alloc_try_from (cap_alloc_into_raw c) = Some c ∧
  is_u 4 (cap_alloc_into_raw c).
Proof. split; [by destruct c|]. destruct c; unfold is_u; simpl; lia. Qed.

Lemma granting_delay_ok g : slotgrant_valid g →
  let d := sg_granting_delay g in
  granting_delay_try_from (granting_delay_raw d) = Some d ∧ is_u 4 (granting_delay_raw d) ∧
  pure_step (granting_delay_into_raw d) (granting_delay_raw d).
Proof.
  unfold slotgrant_valid. destruct (sg_granting_delay g) as [|n| |]; cbn zeta; cbn [granting_delay_raw].
  1,3,4: intros _; (split; [done|]; split; [unfold is_u; lia|done]).
  intros Hn. split; [|split; [unfold is_u; lia|]].
  - unfold granting_delay_try_from.
    destruct (Z.eqb_spec n 0), (Z.leb_spec 1 n), (Z.leb_spec n 13); try lia. cbn [andb].
    by rewrite wrap_small by (unfold is_u; lia).
  - intros bb. cbn [granting_delay_into_raw].
    destruct (Z.leb_spec 1 n), (Z.leb_spec n 13); try lia. cbn [andb].
    erewrite bind_ok by done. unfold mret, M_ret. f_equal. lia.
Qed.

Lemma slotgrant_writes g : slotgrant_valid g →
  writes (slotgrant_to_bitbuf g) (fields_bits (slotgrant_fields g)).
Proof.
  intros Hv. destruct (granting_delay_ok g Hv) as (_ & Hd & Hp).
  destruct (cap_alloc_ok (sg_capacity_allocation g)) as [_ Hc].
  unfold slotgrant_to_bitbuf, slotgrant_fields. wstep. eapply writes_pure; [done|]. wstep.
Qed.

Lemma reads_enum {A C} (o : option A) s v a (k : A → B C) bs c : o = Some a → reads (k a) bs c →
  reads (try_enum o s v ≫= k) bs c.
Proof. intros ->. by apply reads_pure. Qed.

Lemma slotgrant_reads g : slotgrant_valid g →
  reads slotgrant_from_bitbuf (fields_bits (slotgrant_fields g)) g.
Proof.
  intros Hv. destruct (granting_delay_ok g Hv) as (Ht & Hd & _).
  destruct (cap_alloc_ok (sg_capacity_allocation g)) as [Hct Hc].
  unfold slotgrant_from_bitbuf, slotgrant_fields. rstep. eapply reads_enum; [done|].
  rstep. eapply reads_enum; [done|]. destruct g. rstep.
Qed.

(** * Channel allocation *)

Record chan_alloc_valid (c : ChanAllocElement) : Prop := {
  cav_ext : ca_ext c = None;
  cav_uldl : ca_ul_dl_assigned c ≠ UdAugmented;
  cav_carrier : is_u 12 (ca_carrier_num c);
  cav_mon : is_u 2 (ca_mon_pattern c);
  cav_f18 : if decide (ca_mon_pattern c = 0%Z)
            then ∃ f, ca_frame18_mon_pattern c = Some f ∧ is_u 2 f
            else ca_frame18_mon_pattern c = None
}.

Definition ts_bitmap (c : ChanAllocElement) : Z :=
  Z_of_bits [ca_ts1 c; ca_ts2 c; ca_ts3 c; ca_ts4 c].

Definition chan_alloc_fields (c : ChanAllocElement) : fields :=
  [(alloc_type_into_raw (ca_alloc_type c), 2); (ts_bitmap c, 4);
   (ul_dl_into_raw (ca_ul_dl_assigned c), 2); (Z.b2z (ca_clch_permission c), 1);
   (Z.b2z (ca_cell_change_flag c), 1); (ca_carrier_num c, 12); (0%Z, 1); (ca_mon_pattern c, 2)] ++
  (if decide (ca_mon_pattern c = 0%Z) then [(default 0%Z (ca_frame18_mon_pattern c), 2)] else []).

Lemma alloc_type_ok t : alloc_type_try_from (alloc_type_into_raw t) = Some t ∧ is_u 2 (alloc_type_into_raw t).
Proof. split; [by destruct t|]. destruct t; unfold is_u; simpl; lia. Qed.

Lemma ul_dl_ok t : ul_dl_try_from (ul_dl_into_raw t) = Some t ∧ is_u 2 (ul_dl_into_raw t).
Proof. split; [by destruct t|]. destruct t; unfold is_u; simpl; lia. Qed.

Lemma ts_bitmap_ok c : is_u 4 (ts_bitmap c) ∧
  bit_set (wrap 8 (ts_bitmap c)) 8 = ca_ts1 c ∧ bit_set (wrap 8 (ts_bitmap c)) 4 = ca_ts2 c ∧
  bit_set (wrap 8 (ts_bitmap c)) 2 = ca_ts3 c ∧ bit_set (wrap 8 (ts_bitmap c)) 1 = ca_ts4 c.
Proof.
  split; [apply (Z_of_bits_is_u [_; _; _; _])|]. unfold ts_bitmap.
  destruct (ca_ts1 c), (ca_ts2 c), (ca_ts3 c), (ca_ts4 c); done.
Qed.

(** The four slot bits are written one by one and parsed as one field. *)
Lemma ts_bitmap_bits c fs : fields_bits ((ts_bitmap c, 4) :: fs) =
  fields_bits ((Z.b2z (ca_ts1 c), 1) :: (Z.b2z (ca_ts2 c), 1) :: (Z.b2z (ca_ts3 c), 1) ::
               (Z.b2z (ca_ts4 c), 1) :: fs).
Proof.
  rewrite !fields_bits_cons, !app_assoc. f_equal. unfold ts_bitmap.
  destruct (ca_ts1 c), (ca_ts2 c), (ca_ts3 c), (ca_ts4 c); done.
Qed.

Lemma chan_alloc_writes c : chan_alloc_valid c →
  writes (chan_alloc_to_bitbuf c) (fields_bits (chan_alloc_fields c)).
Proof.
  intros [Hext Hud Hcar Hmon Hf]. destruct (alloc_type_ok (ca_alloc_type c)) as [_ Ha].
  destruct (ul_dl_ok (ca_ul_dl_assigned c)) as [_ Hu].
  unfold chan_alloc_to_bitbuf, chan_alloc_fields. rewrite Hext. cbn [app].
  wstep. rewrite ts_bitmap_bits. do 10 wstep.
  rewrite (bool_decide_true (ca_ul_dl_assigned c ≠ UdAugmented)) by done.
  rewrite <-(app_nil_r (if decide _ then _ else _)). apply writes_elem; [|wstep].
  destruct (decide (ca_mon_pattern c = 0%Z)) as [E|E].
  - destruct Hf as (f & Hf & Hfu). rewrite E, Hf. eapply writes_pure; [done|]. wstep.
  - rewrite (proj2 (Z.eqb_neq _ _)) by done. wstep.
Qed.

Lemma chan_alloc_reads c : chan_alloc_valid c →
  reads chan_alloc_from_bitbuf (fields_bits (chan_alloc_fields c)) c.
Proof.
  intros [Hext Hud Hcar Hmon Hf]. destruct (alloc_type_ok (ca_alloc_type c)) as [Hat Ha].
  destruct (ul_dl_ok (ca_ul_dl_assigned c)) as [Hut Hu].
  destruct (ts_bitmap_ok c) as (Hb & H1 & H2 & H3 & H4).
  unfold chan_alloc_from_bitbuf, chan_alloc_fields. cbn [app].
  rstep. eapply reads_enum; [done|]. rstep. cbv zeta. rstep. eapply reads_enum; [done|].
  do 6 rstep. rewrite (wrap_fits 2 8 (ca_mon_pattern c)) by (done || lia).
  rewrite H1, H2, H3, H4, !b2z_nonzero, (wrap_fits 12 16) by (done || lia).
  rewrite (bool_decide_true (ca_ul_dl_assigned c ≠ UdAugmented)) by done.
  apply (reads_last _ _ _ (ca_frame18_mon_pattern c)).
  - destruct (decide (ca_mon_pattern c = 0%Z)) as [E|E].
    + destruct Hf as (f & Hf & Hfu). rewrite E, Hf. change (default 0%Z (Some f)) with f. cbn [Z.eqb].
      rstep. rewrite (wrap_fits 2 8 f) by (done || lia). rstep.
    + rewrite (proj2 (Z.eqb_neq _ _)), Hf by done. rstep.
  - apply reads_check; [done|]. destruct c; cbn in *. subst. apply reads_done.
Qed.

Lemma chan_alloc_len c : chan_alloc_valid c →
  chan_alloc_compute_len c = Some (fields_len (chan_alloc_fields c)).
Proof.
  intros [Hext Hud _ _ _]. unfold chan_alloc_compute_len, chan_alloc_fields. rewrite Hext.
  rewrite (bool_decide_false (ca_ul_dl_assigned c = UdAugmented)) by done.
  destruct (Z.eqb_spec (ca_mon_pattern c) 0); [rewrite decide_True by done|rewrite decide_False by done]; done.
Qed.

(** * MAC-FRAG and MAC-END *)

Definition mac_frag_fields (p : MacFragDl) : fields := [(1%Z, 2); (0%Z, 1); (Z.b2z (mf_fill_bits p), 1)].

Lemma mac_frag_writes p : writes (mac_frag_to_bitbuf p) (fields_bits (mac_frag_fields p)).
Proof. unfold mac_frag_to_bitbuf, mac_frag_fields. repeat wstep. Qed.

Lemma mac_frag_reads p : reads mac_frag_from_bitbuf (fields_bits (mac_frag_fields p)) p.
Proof.
  unfold mac_frag_from_bitbuf, mac_frag_fields. do 5 rstep. rewrite b2z_nonzero. destruct p. rstep.
Qed.

Record mac_end_valid (p : MacEndDl) : Prop := {
  mev_pos : is_u 1 (me_pos_of_grant p);
  mev_len : is_u 6 (me_length_ind p);
  mev_grant g : me_slot_granting_element p = Some g → slotgrant_valid g;
  mev_chan c : me_chan_alloc_element p = Some c → chan_alloc_valid c
}.

Definition mac_end_fields (p : MacEndDl) : fields :=
  [(1%Z, 2); (1%Z, 1); (Z.b2z (me_fill_bits p), 1); (me_pos_of_grant p, 1); (me_length_ind p, 6)] ++
  opt_fields (me_slot_granting_element p) slotgrant_fields ++
  opt_fields (me_chan_alloc_element p) chan_alloc_fields.

Lemma mac_end_writes p : mac_end_valid p → writes (mac_end_to_bitbuf p) (fields_bits (mac_end_fields p)).
Proof.
  intros [Hp Hl Hg Hc]. unfold mac_end_to_bitbuf, mac_end_fields. cbn [app]. do 5 wstep.
  apply writes_elem; apply writes_opt; intros a Ha; [by apply slotgrant_writes, Hg|by apply chan_alloc_writes, Hc].
Qed.

Lemma mac_end_reads p : mac_end_valid p → reads mac_end_from_bitbuf (fields_bits (mac_end_fields p)) p.
Proof.
  intros [Hp Hl Hg Hc]. unfold mac_end_from_bitbuf, mac_end_fields. cbn [app]. do 7 rstep.
  rewrite b2z_nonzero, (wrap_fits 1 8 (me_pos_of_grant p)), (wrap_fits 6 8) by (done || lia).
  eapply reads_elem; [apply reads_opt; intros a Ha; by apply slotgrant_reads, Hg|].
  eapply reads_last; [apply reads_opt; intros a Ha; by apply chan_alloc_reads, Hc|].
  destruct p. rstep.
Qed.

(** * MAC-RESOURCE *)

(** Individual and group identities travel as plain SSIs. *)
Definition plain_ssi (a : TetraAddress) : Prop :=
  ssi_type a = Ssi ∨ ssi_type a = Gssi ∨ ssi_type a = Issi.

(** The combinations of address fields that have an address type. *)
Inductive mr_shape (r : MacResource) : MacResourceAddrType → Prop :=
| shape_null : mr_addr r = None → mr_event_label r = None → mr_usage_marker r = None →
    mr_fill_bits r = false → mr_pos_of_grant r = 0%Z → mr_encryption_mode r = 0%Z →
    mr_random_access_flag r = false → mr_power_control_element r = None →
    mr_slot_granting_element r = None → mr_chan_alloc_element r = None → mr_shape r AtNullPdu
| shape_ssi a : mr_addr r = Some a → plain_ssi a → mr_event_label r = None →
    mr_usage_marker r = None → mr_encryption_mode r = 0%Z → mr_shape r AtSsi
| shape_ussi a : mr_addr r = Some a → ssi_type a = Ussi → mr_event_label r = None →
    mr_usage_marker r = None → mr_encryption_mode r = 0%Z → mr_shape r AtUssi
| shape_smi a : mr_addr r = Some a → ssi_type a = Smi → mr_event_label r = None →
    mr_usage_marker r = None → mr_encryption_mode r = 0%Z → mr_shape r AtSmi
| shape_event e : mr_addr r = None → mr_event_label r = Some e → mr_usage_marker r = None →
    mr_shape r AtEventLabel
| shape_ssi_event a e : mr_addr r = Some a → plain_ssi a → mr_event_label r = Some e →
    mr_usage_marker r = None → mr_encryption_mode r = 0%Z → mr_shape r AtSsiAndEventLabel
| shape_ssi_usage a u : mr_addr r = Some a → plain_ssi a → mr_event_label r = None →
    mr_usage_marker r = Some u → mr_encryption_mode r = 0%Z → mr_shape r AtSsiAndUsageMarker
| shape_smi_event a e : mr_addr r = Some a → ssi_type a = Smi → mr_event_label r = Some e →
    mr_usage_marker r = None → mr_encryption_mode r = 0%Z → mr_shape r AtSmiAndEventLabel.

Record mr_valid (r : MacResource) : Prop := {
  mrv_pos : is_u 1 (mr_pos_of_grant r);
  mrv_enc : is_u 2 (mr_encryption_mode r);
  mrv_len : is_u 6 (mr_length_ind r) ∧ (0 < mr_length_ind r)%Z;
  mrv_addr a : mr_addr r = Some a → is_u 24 (ssi a);
  mrv_event e : mr_event_label r = Some e → is_u 10 e;
  mrv_usage u : mr_usage_marker r = Some u → is_u 6 u;
  mrv_power v : mr_power_control_element r = Some v → is_u 4 v;
  mrv_grant g : mr_slot_granting_element r = Some g → slotgrant_valid g;
  mrv_chan c : mr_chan_alloc_element r = Some c → chan_alloc_valid c
}.

Definition ssi_fields (r : MacResource) : fields :=
  match mr_addr r with Some a => [(ssi a, 24)] | None => [] end.
Definition event_fields (r : MacResource) : fields :=
  match mr_event_label r with Some e => [(e, 10)] | None => [] end.
Definition usage_fields (r : MacResource) : fields :=
  match mr_usage_marker r with Some u => [(u, 6)] | None => [] end.

Definition mr_tail_fields (r : MacResource) : fields :=
  opt_fields (mr_power_control_element r) (λ v, [(v, 4)]) ++
  opt_fields (mr_slot_granting_element r) slotgrant_fields ++
  opt_fields (mr_chan_alloc_element r) chan_alloc_fields.

Definition mr_fields (t : MacResourceAddrType) (r : MacResource) : fields :=
  [(0%Z, 2); (Z.b2z (mr_fill_bits r), 1); (mr_pos_of_grant r, 1); (mr_encryption_mode r, 2);
   (Z.b2z (mr_random_access_flag r), 1); (mr_length_ind r, 6); (addr_type_into_raw t, 3)] ++
  (ssi_fields r ++ event_fields r ++ usage_fields r) ++
  (if decide (t = AtNullPdu) then [] else mr_tail_fields r).

(** The header as its receiver sees it. *)
Definition canon_addr (a : TetraAddress) : TetraAddress :=
  mkAddr (ssi a) (match ssi_type a with Gssi | Issi => Ssi | t => t end).

Definition mr_canon (r : MacResource) : MacResource :=
  mkMacResource (mr_fill_bits r) (mr_pos_of_grant r) (mr_encryption_mode r) (mr_random_access_flag r)
    (mr_length_ind r) (canon_addr <$> mr_addr r) (mr_event_label r) (mr_usage_marker r)
    (mr_power_control_element r) (mr_slot_granting_element r) (mr_chan_alloc_element r).

Lemma addr_type_ok t : addr_type_try_from (addr_type_into_raw t) = Some t ∧ is_u 3 (addr_type_into_raw t).
Proof. split; [by destruct t|]. destruct t; unfold is_u; simpl; lia. Qed.

Lemma derive_addr_type_ok r t : mr_shape r t → pure_step (derive_addr_type r) t.
Proof.
  unfold plain_ssi. intros Hs bb. unfold derive_addr_type, is_null_pdu.
  destruct Hs as [Ha He Hu Hf Hp Hm Hr _ _ _|a Ha Ht He Hu _|a Ha Ht He Hu _|a Ha Ht He Hu _|e Ha He Hu
                 |a e Ha Ht He Hu _|a u Ha Ht He Hu _|a e Ha Ht He Hu _]; rewrite Ha, He, Hu; cbn [is_none andb].
  1: by rewrite Hf, Hp, Hm, Hr.
  1,5,6: by rewrite (bool_decide_true _ Ht).
  1,2,4: rewrite Ht; done.
  done.
Qed.

Lemma write_ssi_writes r a : mr_valid r → mr_addr r = Some a → ssi_type a ≠ Esi → mr_encryption_mode r = 0%Z →
  writes (write_ssi r) (fields_bits (ssi_fields r)).
Proof.
  intros Hv Ha Ht Hm. unfold write_ssi, ssi_fields. rewrite Ha, Hm.
  eapply writes_pure; [done|]. apply writes_check; [by rewrite bool_decide_false|].
  pose proof (mrv_addr _ Hv a Ha). wstep.
Qed.

Lemma write_address_writes r t : mr_valid r → mr_shape r t →
  writes (write_address t r) (fields_bits (ssi_fields r ++ event_fields r ++ usage_fields r)).
Proof.
  intros Hv Hs. pose proof (mrv_event _ Hv) as Hev. pose proof (mrv_usage _ Hv) as Hus.
  destruct Hs as [Ha He Hu _ _ _ _ _ _ _|a Ha Ht He Hu Hm|a Ha Ht He Hu Hm|a Ha Ht He Hu Hm|e Ha He Hu
                 |a e Ha Ht He Hu Hm|a u Ha Ht He Hu Hm|a e Ha Ht He Hu Hm]; cbn [write_address].
  - unfold ssi_fields, event_fields, usage_fields. rewrite Ha, He, Hu. wstep.
  - unfold event_fields, usage_fields. rewrite He, Hu, !app_nil_r.
    eapply write_ssi_writes; [done..| |done]. by destruct Ht as [Ht|[Ht|Ht]]; rewrite Ht.
  - unfold event_fields, usage_fields. rewrite He, Hu, !app_nil_r.
    eapply write_ssi_writes; [done..| |done]. by rewrite Ht.
  - unfold event_fields, usage_fields. rewrite He, Hu, !app_nil_r.
    eapply write_ssi_writes; [done..| |done]. by rewrite Ht.
  - unfold ssi_fields, event_fields, usage_fields. rewrite Ha, He, Hu. specialize (Hev e He).
    eapply writes_pure; [done|]. wstep.
  - apply writes_elem.
    + eapply write_ssi_writes; [done..| |done]. by destruct Ht as [Ht|[Ht|Ht]]; rewrite Ht.
    + unfold event_fields, usage_fields. rewrite He, Hu. specialize (Hev e He).
      eapply writes_pure; [done|]. wstep.
  - apply writes_elem.
    + eapply write_ssi_writes; [done..| |done]. by destruct Ht as [Ht|[Ht|Ht]]; rewrite Ht.
    + unfold event_fields, usage_fields. rewrite He, Hu. specialize (Hus u Hu).
      eapply writes_pure; [done|]. wstep.
  - apply writes_elem.
    + eapply write_ssi_writes; [done..| |done]. by rewrite Ht.
    + unfold event_fields, usage_fields. rewrite He, Hu. specialize (Hev e He).
      eapply writes_pure; [done|]. wstep.
Qed.

Lemma mr_writes r t : mr_valid r → mr_shape r t →
  writes (mac_resource_to_bitbuf r) (fields_bits (mr_fields t r)).
Proof.
  intros Hv Hs. destruct (Hv) as [Hp He [Hl Hl0] _ _ _ Hpw Hg Hc]. destruct (addr_type_ok t) as [_ Ht].
  unfold mac_resource_to_bitbuf, mr_fields. cbn [app].
  apply writes_check; [by apply Z.ltb_lt|]. do 6 wstep.
  eapply writes_pure; [by apply derive_addr_type_ok|]. wstep.
  apply writes_elem; [by apply write_address_writes|].
  destruct (decide (t = AtNullPdu)); [wstep|]. unfold mr_tail_fields.
  apply writes_elem; [apply writes_opt; intros v Hv'; specialize (Hpw v Hv'); wstep|].
  apply writes_elem; apply writes_opt; intros x Hx; [by apply slotgrant_writes, Hg|by apply chan_alloc_writes, Hc].
Qed.

Lemma canon_plain a : plain_ssi a → canon_addr a = mkAddr (ssi a) Ssi.
Proof. unfold plain_ssi, canon_addr. by intros [->|[->| ->]]. Qed.

Lemma canon_other a t : ssi_type a = t → t = Ussi ∨ t = Smi → canon_addr a = mkAddr (ssi a) t.
Proof. unfold canon_addr. intros ->. by intros [->| ->]. Qed.

Lemma read_address_reads r t : mr_valid r → mr_shape r t →
  reads (read_address t) (fields_bits (ssi_fields r ++ event_fields r ++ usage_fields r))
    (canon_addr <$> mr_addr r, mr_event_label r, mr_usage_marker r).
Proof.
  intros Hv Hs. pose proof (mrv_addr _ Hv) as Had. pose proof (mrv_event _ Hv) as Hev.
  pose proof (mrv_usage _ Hv) as Hus. unfold ssi_fields, event_fields, usage_fields.
  destruct Hs as [Ha He Hu _ _ _ _ _ _ _|a Ha Ht He Hu Hm|a Ha Ht He Hu Hm|a Ha Ht He Hu Hm|e Ha He Hu
                 |a e Ha Ht He Hu Hm|a u Ha Ht He Hu Hm|a e Ha Ht He Hu Hm];
    rewrite Ha, He, Hu; cbn [read_address app fmap option_fmap option_map];
    try specialize (Had a Ha); try specialize (Hev e He); try specialize (Hus u Hu);
    repeat (apply reads_field_then; [lia|done|]);
    rewrite ?(wrap_fits 24 32), ?(wrap_fits 10 16), ?(wrap_fits 6 8) by (done || lia).
  all: try (rewrite (canon_plain a Ht); apply reads_done).
  all: try (rewrite (canon_other a _ Ht) by auto; apply reads_done).
  all: apply reads_done.
Qed.

Lemma mr_reads r t : mr_valid r → mr_shape r t →
  reads mac_resource_from_bitbuf (fields_bits (mr_fields t r)) (mr_canon r).
Proof.
  intros Hv Hs. destruct (Hv) as [Hp He [Hl Hl0] _ _ _ Hpw Hg Hc]. destruct (addr_type_ok t) as [Htt Ht].
  unfold mac_resource_from_bitbuf, mr_fields. cbn [app]. do 8 rstep.
  eapply reads_enum; [done|]. eapply reads_elem; [by apply read_address_reads|]. cbv beta iota.
  rewrite !b2z_nonzero, (wrap_fits 1 8 (mr_pos_of_grant r)), (wrap_fits 2 8 (mr_encryption_mode r)),
    (wrap_fits 6 8 (mr_length_ind r)) by (done || lia).
  destruct (decide (t = AtNullPdu)) as [->|Hnn].
  - inversion Hs as [Ha Hev Hu Hf Hpos Hm Hr Hpc Hsg Hca| | | | | | |].
    destruct r; cbn in *; subst. apply reads_done.
  - unfold mr_tail_fields. eapply reads_elem.
    { apply (reads_opt _ _ (mr_power_control_element r)). intros v Hv'. specialize (Hpw v Hv').
      apply reads_field_then; [lia|done|]. rewrite (wrap_fits 4 8) by (done || lia). apply reads_done. }
    eapply reads_elem; [apply reads_opt; intros g Hg'; by apply slotgrant_reads, Hg|].
    eapply reads_last; [apply reads_opt; intros c Hc'; by apply chan_alloc_reads, Hc|]. apply reads_done.
Qed.

(** The computed header length is the length of the layout. *)
Lemma mr_len r t : mr_valid r → mr_shape r t → compute_header_len r = Some (fields_len (mr_fields t r)).
Proof.
  intros Hv Hs. pose proof (mrv_chan _ Hv) as Hc.
  unfold compute_header_len, is_null_pdu, mr_fields. rewrite !fields_len_app.
  unfold ssi_fields, event_fields, usage_fields.
  assert (t ≠ AtNullPdu → fields_len (mr_tail_fields r) =
    3 + (if is_none (mr_power_control_element r) then 0 else 4) +
    (if is_none (mr_slot_granting_element r) then 0 else 8) +
    match mr_chan_alloc_element r with Some c => fields_len (chan_alloc_fields c) | None => 0 end) as Htail.
  { intros _. unfold mr_tail_fields. rewrite !fields_len_app, !fields_len_opt.
    destruct (mr_power_control_element r), (mr_slot_granting_element r), (mr_chan_alloc_element r);
      cbn [is_none]; change (fields_len [(_, 4)]) with 4; change (fields_len (slotgrant_fields _)) with 8; lia. }
  change (fields_len [(_, 2); (_, 1); (_, 1); (_, 2); (_, 1); (_, 6); (_, 3)]) with 16.
  destruct Hs as [Ha He Hu _ _ _ _ _ _ _|a Ha Ht He Hu Hm|a Ha Ht He Hu Hm|a Ha Ht He Hu Hm|e Ha He Hu
                 |a e Ha Ht He Hu Hm|a u Ha Ht He Hu Hm|a e Ha Ht He Hu Hm]; rewrite Ha, He, Hu;
    cbn [is_none andb]; try done; rewrite decide_False, Htail by done;
    destruct (mr_chan_alloc_element r) as [c|] eqn:E;
    try (rewrite (chan_alloc_len c) by (by apply Hc)); cbn [mbind option_bind];
    destruct (is_none (mr_power_control_element r)), (is_none (mr_slot_granting_element r));
    f_equal; unfold fields_len at 1 2 3; cbn [fmap list_fmap snd sum_list_with]; lia.
Qed.

Lemma mr_len_16 r t : mr_shape r t → 16 ≤ fields_len (mr_fields t r).
Proof.
  intros _. unfold mr_fields. rewrite fields_len_app.
  change (fields_len [(_, 2); (_, 1); (_, 1); (_, 2); (_, 1); (_, 6); (_, 3)]) with 16. lia.
Qed.

(** * Properties *)

(** A MAC-RESOURCE header that has one of the eight address types survives
    the air interface: what [to_bitbuf] writes is parsed by [from_bitbuf] to the
    same header, up to group and individual addresses that arrive as plain SSIs,
    and [compute_header_len] gives exactly the number of bits written. *)
Theorem mac_resource_roundtrip r t : mr_valid r → mr_shape r t →
  ∃ bs, writes (mac_resource_to_bitbuf r) bs ∧ reads mac_resource_from_bitbuf bs (mr_canon r) ∧
    compute_header_len r = Some (length bs).
Proof.
  intros Hv Hs. exists (fields_bits (mr_fields t r)). split_and!;
    [by apply mr_writes|by apply mr_reads|rewrite length_fields_bits; by apply mr_len].
Qed.

Definition test_grant : BasicSlotgrant := mkSlotgrant Grant2Slots (DelayNOpportunities 3).

Definition test_header : MacResource :=
  mkMacResource true 0 0 true 12 (Some (mkAddr 16777184 Gssi)) None (Some 5%Z) (Some 3%Z) (Some test_grant) None.

Lemma mac_resource_roundtrip_witness : ∃ bs,
  writes (mac_resource_to_bitbuf test_header) bs ∧ reads mac_resource_from_bitbuf bs (mr_canon test_header) ∧
  Some 61 = Some (length bs).
Proof.
  apply (mac_resource_roundtrip test_header AtSsiAndUsageMarker).
  - split; cbn; try done; intros; simplify_eq; unfold is_u, slotgrant_valid; cbn; lia.
  - eapply (shape_ssi_usage _ (mkAddr 16777184 Gssi) 5); try done. by right; left.
Defined.

(** MAC-END headers survive too, but [compute_hdr_len] counts six bits for a slot
    grant of eight: with a slot grant the computed length is two bits short. *)
Theorem mac_end_hdr_len_short p g : mac_end_valid p → me_slot_granting_element p = Some g →
  me_chan_alloc_element p = None →
  ∃ bs n, writes (mac_end_to_bitbuf p) bs ∧ reads mac_end_from_bitbuf bs p ∧
    mac_end_compute_hdr_len true false = Some n ∧ length bs = n + 2.
Proof.
  intros Hv Hg Hc. exists (fields_bits (mac_end_fields p)), 19.
  split_and!; [by apply mac_end_writes|by apply mac_end_reads|done|].
  rewrite length_fields_bits. unfold mac_end_fields. by rewrite Hg, Hc.
Qed.
