(* ===== verification/BsFragSpec.v ===== *)
(** Downlink fragmentation: what each MAC block carries, and that the chunks
    together carry the SDU, once, in order, and to the end.

    Downlink fragmentation (tetra-entities/src/umac/subcomp/bs_frag.rs): an SDU
    is sent as one MAC-RESOURCE when it fits the MAC block, and otherwise as a
    MAC-RESOURCE, MAC-FRAGs and a MAC-END over several blocks.

    [None] is a panic.  The receipt that is shared with the sender of the SDU is
    part of the fragmenter's state. *)
From S2P Require Import Prelude Bits Core BitBuffer Fillbits TxReceipt MacDl BitBufferSpec BitCodec BitBufferThms FieldCodec Arrays MacDlSpec.

Record BsFragger : Type := mkFragger {
  bf_resource : MacResource;
  bf_mac_hdr_is_written : bool;
  bf_is_fully_transmitted : bool;
  bf_sdu : BitBuffer;
  bf_tx_reporter : option TxReporter
}.

Definition MIN_SLOT_CAP_FOR_RES_FRAG_START : nat := 32.
Definition MIN_SLOT_CAP_FOR_FRAG : nat := 16.

Definition fragger_new (resource : MacResource) (sdu : BitBuffer) (tx_reporter : option TxReporter) :
    option BsFragger :=
  check (get_pos sdu =? 0) ;;
  Some (mkFragger resource false false sdu tx_reporter).

(** The state after a header was written: [mac_hdr_is_written] set, [resource] and [sdu] updated. *)
Definition hdr_written (resource : MacResource) (sdu : BitBuffer) (f : BsFragger) : BsFragger :=
  mkFragger resource true (bf_is_fully_transmitted f) sdu (bf_tx_reporter f).

Definition set_sdu (sdu : BitBuffer) (f : BsFragger) : BsFragger :=
  mkFragger (bf_resource f) (bf_mac_hdr_is_written f) (bf_is_fully_transmitted f) sdu (bf_tx_reporter f).

Definition get_resource_chunk (f : BsFragger) (mac_block : BitBuffer) :
    option (bool * BsFragger * BitBuffer) :=
  let sdu := bf_sdu f in
  check (get_pos sdu =? 0) ;;
  check (negb (bf_mac_hdr_is_written f)) ;;
  check (negb (is_null_pdu (bf_resource f) && (0 <? get_len_remaining sdu))) ;;
  hdr_len_bits ← compute_header_len (bf_resource f);
  let sdu_len_bits := get_len_remaining sdu in
  let slot_cap_bits := get_len_remaining mac_block in
  let num_fill_bits := compute_required (hdr_len_bits + sdu_len_bits) slot_cap_bits in
  let total_len_bits := hdr_len_bits + sdu_len_bits + num_fill_bits in
  let total_len_bytes := total_len_bits / 8 in
  if total_len_bits <=? slot_cap_bits then
    check ((total_len_bits mod 8 =? 0) || (total_len_bits =? get_len_remaining mac_block)) ;;
    let resource := set_len_fill (wrap 8 (Z.of_nat total_len_bytes)) (0 <? num_fill_bits) (bf_resource f) in
    '(_, mac_block) ← exec (mac_resource_to_bitbuf resource) mac_block;
    '(sdu, mac_block) ← exec (copy_bits sdu sdu_len_bits) mac_block;
    '(_, mac_block) ← exec (fill_write (Some num_fill_bits)) mac_block;
    Some (true, hdr_written resource sdu f, mac_block)
  else if (slot_cap_bits <? MIN_SLOT_CAP_FOR_RES_FRAG_START) || (slot_cap_bits <? hdr_len_bits) then
    Some (false, f, mac_block)
  else
    let resource := set_len_fill 63 false (bf_resource f) in
    check (num_fill_bits =? 0) ;;
    let sdu_bits := slot_cap_bits - hdr_len_bits in
    '(_, mac_block) ← exec (mac_resource_to_bitbuf resource) mac_block;
    '(sdu, mac_block) ← exec (copy_bits sdu sdu_bits) mac_block;
    '(_, mac_block) ← exec (fill_write None) mac_block;
    Some (false, hdr_written resource sdu f, mac_block).

(** [if num_fill_bits > 0 { write_bit(1); write_zeroes(num_fill_bits - 1) }] *)
Definition write_fill (num_fill_bits : nat) : B unit :=
  if 0 <? num_fill_bits then write_bit 1;; write_zeroes (num_fill_bits - 1) else mret tt.

Definition get_frag_or_end_chunk (f : BsFragger) (mac_block : BitBuffer) :
    option (bool * BsFragger * BitBuffer) :=
  check (bf_mac_hdr_is_written f) ;;
  let sdu := bf_sdu f in
  let sdu_bits := get_len_remaining sdu in
  hdr_len ← mac_end_compute_hdr_len false false;
  let macend_len_bits := hdr_len + sdu_bits in
  let macend_len_bytes := (macend_len_bits + 7) / 8 in
  let slot_cap_bits := get_len_remaining mac_block in
  if macend_len_bytes * 8 <=? slot_cap_bits then
    let num_fill_bits := compute_required macend_len_bits slot_cap_bits in
    let pdu := mkMacEndDl (0 <? num_fill_bits) 0 (wrap 8 (Z.of_nat macend_len_bytes)) None None in
    '(_, mac_block) ← exec (mac_end_to_bitbuf pdu) mac_block;
    '(sdu, mac_block) ← exec (copy_bits sdu sdu_bits) mac_block;
    '(_, mac_block) ← exec (write_fill num_fill_bits) mac_block;
    Some (true, set_sdu sdu f, mac_block)
  else if slot_cap_bits <? MIN_SLOT_CAP_FOR_FRAG then
    Some (false, f, mac_block)
  else
    let macfrag_hdr_len := 4 in
    let sdu_bits_in_frag := (slot_cap_bits - macfrag_hdr_len) `min` sdu_bits in
    let num_fill_bits := slot_cap_bits - macfrag_hdr_len - sdu_bits_in_frag in
    let pdu := mkMacFragDl (0 <? num_fill_bits) in
    '(_, mac_block) ← exec (mac_frag_to_bitbuf pdu) mac_block;
    '(sdu, mac_block) ← exec (copy_bits sdu sdu_bits_in_frag) mac_block;
    '(_, mac_block) ← exec (write_fill num_fill_bits) mac_block;
    Some (false, set_sdu sdu f, mac_block).

Definition get_next_chunk (f : BsFragger) (mac_block : BitBuffer) :
    option (bool * BsFragger * BitBuffer) :=
  check (negb (bf_is_fully_transmitted f)) ;;
  check ((get_len_written mac_block mod 8 =? 0) || (get_len_remaining mac_block =? 0)) ;;
  '(is_fully_transmitted, f, mac_block) ←
    (if negb (bf_mac_hdr_is_written f) then get_resource_chunk f mac_block
     else get_frag_or_end_chunk f mac_block);
  tx_reporter ←
    match bf_tx_reporter f with
    | Some r => if (is_fully_transmitted : bool) then Some <$> mark_transmitted r else Some (Some r)
    | None => Some None
    end;
  Some (is_fully_transmitted,
        mkFragger (bf_resource f) (bf_mac_hdr_is_written f) is_fully_transmitted (bf_sdu f) tx_reporter,
        mac_block).

(** [drop]: the receipt after the fragmenter is gone. *)
Definition fragger_drop (f : BsFragger) : option (option TxReporter) :=
  match bf_tx_reporter f with
  | Some r =>
      if negb (bf_is_fully_transmitted f) && bool_decide (get_state r = Pending)
      then Some <$> mark_discarded r else Some (Some r)
  | None => Some None
  end.

(** * Chunks *)

(** What a block gets: a header, a part of the SDU and fill bits. *)
Inductive dl_chunk : Type :=
| ChResource (r : MacResource) (part : list bool) (fill : nat)
| ChFrag (part : list bool) (fill : nat)
| ChEnd (length_ind : Z) (part : list bool) (fill : nat).

Definition chunk_part (c : dl_chunk) : list bool :=
  match c with ChResource _ p _ | ChFrag p _ | ChEnd _ p _ => p end.

Definition is_resource (c : dl_chunk) : bool :=
  match c with ChResource _ _ _ => true | _ => false end.

(** The header says whether there are fill bits; the last chunk says how long it is. *)
Definition chunk_bits (t : MacResourceAddrType) (c : dl_chunk) : list bool :=
  match c with
  | ChResource r p k => fields_bits (mr_fields t r) ++ p ++ fill_pattern k
  | ChFrag p k => fields_bits (mac_frag_fields (mkMacFragDl (0 <? k))) ++ p ++ fill_pattern k
  | ChEnd l p k => fields_bits (mac_end_fields (mkMacEndDl (0 <? k) 0 l None None)) ++ p ++ fill_pattern k
  end.

(** The length field covers the chunk: whole bytes, or up to the end of the
    slot; a resource that starts a fragmented SDU has the reserved value 63. *)
Definition chunk_ok (t : MacResourceAddrType) (r0 : MacResource) (last : bool) (cap : nat) (c : dl_chunk) : Prop :=
  length (chunk_bits t c) ≤ cap ∧
  match c with
  | ChResource r p k =>
      r = set_len_fill (mr_length_ind r) (0 <? k) r0 ∧
      (if last then mr_length_ind r = Z.of_nat (length (chunk_bits t c) / 8) ∧ mr_length_ind r ≠ 63%Z ∧
                    k < 8 ∧ (length (chunk_bits t c) mod 8 = 0 ∨ length (chunk_bits t c) = cap)
       else mr_length_ind r = 63%Z ∧ k = 0 ∧ length (chunk_bits t c) = cap)
  | ChFrag p k => last = false ∧ length (chunk_bits t c) = cap
  | ChEnd l p k => last = true ∧ (8 * l = Z.of_nat (length (chunk_bits t c)))%Z
  end.

(** * Writing a chunk *)

Lemma write_fill_eq k : write_fill k = fill_write (Some k).
Proof. done. Qed.

(** A header, then [n] bits of the SDU. *)
Lemma emit_hdr w hdr sdu n block : wf block → bb_autoexpand block = false → wf sdu →
  n ≤ get_len_remaining sdu → writes w hdr → length hdr + n ≤ get_len_remaining block →
  ∃ b1 b2, exec w block = Some (tt, b1) ∧ exec (copy_bits sdu n) b1 = Some (advance n sdu, b2) ∧
    wf b2 ∧ bb_autoexpand b2 = false ∧ bb_end b2 = bb_end block ∧
    bb_pos b2 = bb_pos block + (length hdr + n) ∧
    abs b2 = a_write (hdr ++ take n (remaining sdu)) (abs block).
Proof.
  intros Hwf Hfix Hsdu Hn Hw Hlen. unfold get_len_remaining in Hlen. pose proof (wf_usize _ Hwf). pose proof (wf_pos _ Hwf).
  destruct (Hw block) as (b1 & Heq1 & Hwf1 & Habs1); [done|split; [left; lia|lia]|].
  destruct (wrote_fixed block Hwf Hfix b1 hdr Hwf1 Habs1) as (Hf1 & He1 & Hp1); [lia|].
  destruct (copy_bits_spec sdu b1 n) as (b2 & Heq2 & Hwf2 & Habs2); [done|done|done|split; [left; lia|lia]|].
  assert (length (take n (remaining sdu)) = n) as Hl.
  { rewrite length_take, length_remaining by done. lia. }
  destruct (wrote_fixed b1 Hwf1 Hf1 b2 _ Hwf2 Habs2) as (Hf2 & He2 & Hp2); [lia|].
  exists b1, b2. rewrite (exec_ok _ _ _ _ Heq1), (exec_ok _ _ _ _ Heq2).
  split_and!; try done; try lia. rewrite Habs2, Habs1. apply a_write_app. by apply abs_pos_le.
Qed.

(** A whole chunk with [k] fill bits. *)
Lemma emit_ok w hdr sdu n k block : wf block → bb_autoexpand block = false → wf sdu →
  n ≤ get_len_remaining sdu → writes w hdr → length hdr + n + k ≤ get_len_remaining block →
  ∃ b1 b2 b3, exec w block = Some (tt, b1) ∧ exec (copy_bits sdu n) b1 = Some (advance n sdu, b2) ∧
    exec (fill_write (Some k)) b2 = Some (tt, b3) ∧
    wf b3 ∧ bb_autoexpand b3 = false ∧ bb_end b3 = bb_end block ∧
    bb_pos b3 = bb_pos block + (length hdr + n + k) ∧
    abs b3 = a_write (hdr ++ take n (remaining sdu) ++ fill_pattern k) (abs block).
Proof.
  intros Hwf Hfix Hsdu Hn Hw Hlen.
  destruct (emit_hdr w hdr sdu n block) as (b1 & b2 & E1 & E2 & Hwf2 & Hf2 & He2 & Hp2 & Habs2); [done..|lia|].
  unfold get_len_remaining in Hlen. pose proof (wf_usize _ Hwf). pose proof (wf_pos _ Hwf).
  destruct (writes_fill k b2) as (b3 & Heq3 & Hwf3 & Habs3); [done|rewrite length_fill_pattern; split; [left; lia|lia]|].
  destruct (wrote_fixed b2 Hwf2 Hf2 b3 _ Hwf3 Habs3) as (Hf3 & He3 & Hp3); [rewrite length_fill_pattern; lia|].
  rewrite length_fill_pattern in Hp3.
  exists b1, b2, b3. rewrite (exec_ok _ _ _ _ Heq3). split_and!; try done; try lia.
  rewrite Habs3, Habs2, a_write_app by (by apply abs_pos_le). by rewrite <-app_assoc.
Qed.

(** * Headers with a new length and fill indication *)

(** The address fields of the resource are fine; length and fill bits are set per chunk. *)
Definition hdr_ok (r : MacResource) (t : MacResourceAddrType) : Prop :=
  mr_valid (set_len_fill 1 false r) ∧ mr_shape (set_len_fill 1 false r) t.

Definition hdr_len (r : MacResource) (t : MacResourceAddrType) : nat := fields_len (mr_fields t r).

Lemma hdr_ok_set r t l fl : hdr_ok r t → (0 < l < 64)%Z → (t = AtNullPdu → fl = false) →
  mr_valid (set_len_fill l fl r) ∧ mr_shape (set_len_fill l fl r) t.
Proof.
  intros [Hv Hs] Hl Hfl. split.
  - destruct Hv. split; try done. cbn. unfold is_u. lia.
  - inversion Hs; subst t; cbn in *; econstructor; cbn; eauto.
Qed.

Lemma hdr_len_set r t l fl : fields_len (mr_fields t (set_len_fill l fl r)) = hdr_len r t.
Proof. done. Qed.

Lemma hdr_ok_len r t : hdr_ok r t → compute_header_len r = Some (hdr_len r t).
Proof. intros [Hv Hs]. exact (mr_len _ _ Hv Hs). Qed.

Lemma hdr_len_16 r t : hdr_ok r t → 16 ≤ hdr_len r t.
Proof. intros [_ Hs]. exact (mr_len_16 _ _ Hs). Qed.

Lemma hdr_is_null r t : hdr_ok r t → is_null_pdu r = true → t = AtNullPdu.
Proof.
  intros [_ Hs]. unfold is_null_pdu.
  inversion Hs as [Ha|a Ha|a Ha|a Ha|e Ha He|a e Ha|a u Ha|a e Ha]; cbn in Ha; rewrite Ha; try done.
  cbn in He. by rewrite He.
Qed.

Lemma hdr_null r t : hdr_ok r t → t = AtNullPdu → is_null_pdu r = true ∧ hdr_len r t = 16.
Proof.
  intros [_ Hs] ->. inversion Hs as [Ha He Hu Hf Hp Hm Hr Hpc Hsg Hca| | | | | | |]. cbn in *.
  unfold is_null_pdu. rewrite Ha, He, Hu. split; [done|].
  unfold hdr_len, mr_fields, ssi_fields, event_fields, usage_fields. by rewrite Ha, He, Hu.
Qed.

(** * The two kinds of chunks *)

Record frag_inv (f : BsFragger) (t : MacResourceAddrType) : Prop := {
  fi_hdr : hdr_ok (bf_resource f) t;
  fi_sdu : wf (bf_sdu f);
  fi_first : bf_mac_hdr_is_written f = false → get_pos (bf_sdu f) = 0;
  fi_null : t = AtNullPdu → remaining (bf_sdu f) = []
}.

(** A MAC block: fixed size, shorter than 63 bytes (the length field has six
    bits, and 63 marks a fragmented PDU), and filled up to a byte boundary. *)
Record block_ok (b : BitBuffer) : Prop := {
  bo_wf : wf b;
  bo_fixed : bb_autoexpand b = false;
  bo_cap : get_len_remaining b < 504;
  bo_aligned : get_len_written b mod 8 = 0 ∨ get_len_remaining b = 0
}.

(** Chunk [c] was written to [block], and [f] went on to [f']. *)
Record emitted (t : MacResourceAddrType) (f f' : BsFragger) (last : bool) (block block' : BitBuffer)
    (c : dl_chunk) : Prop := {
  em_chunk : chunk_ok t (bf_resource f) last (get_len_remaining block) c;
  em_wf : wf block';
  em_fixed : bb_autoexpand block' = false;
  em_end : bb_end block' = bb_end block;
  em_abs : abs block' = a_write (chunk_bits t c) (abs block);
  em_sdu : remaining (bf_sdu f) = chunk_part c ++ remaining (bf_sdu f');
  em_inv : frag_inv f' t;
  em_written : bf_mac_hdr_is_written f' = true;
  em_last : last = true → remaining (bf_sdu f') = [];
  em_kind : is_resource c = negb (bf_mac_hdr_is_written f);
  em_hdr_len : hdr_len (bf_resource f') t = hdr_len (bf_resource f) t;
  em_progress : bf_mac_hdr_is_written f = true → last = false → 0 < get_len_remaining (bf_sdu f) ∧
    length (chunk_part c) = (get_len_remaining block - 4) `min` get_len_remaining (bf_sdu f);
  em_tx : bf_tx_reporter f' = bf_tx_reporter f ∧ bf_is_fully_transmitted f' = bf_is_fully_transmitted f
}.

Lemma length_chunk_parts (hdr part : list bool) k :
  length (hdr ++ part ++ fill_pattern k) = length hdr + length part + k.
Proof. rewrite !length_app, length_fill_pattern. lia. Qed.

Lemma remaining_split sdu n : remaining sdu = take n (remaining sdu) ++ remaining (advance n sdu).
Proof. rewrite remaining_advance. by rewrite take_drop. Qed.

Section chunk.
Context (f : BsFragger) (t : MacResourceAddrType) (block : BitBuffer).
Context (Hinv : frag_inv f t) (Hblock : block_ok block).

Let sdu := bf_sdu f.
Let cap := get_len_remaining block.
Let hl := hdr_len (bf_resource f) t.

(** The state after [n] bits of the SDU went out under a (new) header. *)
Lemma frag_inv_sent n l fl : n ≤ get_len_remaining sdu →
  frag_inv (hdr_written (set_len_fill l fl (bf_resource f)) (advance n sdu) f) t ∧
  (bf_mac_hdr_is_written f = true → frag_inv (set_sdu (advance n sdu) f) t).
Proof.
  intros Hn. destruct Hinv as [Hh Hs Hf Hnull].
  assert (wf (advance n sdu)) as Hw by (by apply wf_advance).
  assert (t = AtNullPdu → remaining (advance n sdu) = []) as Hn'.
  { intros Ht. rewrite remaining_advance. unfold sdu. by rewrite Hnull, drop_nil. }
  split; [split; [done..|done|done]|]. intros E. split; cbn; try done. congruence.
Qed.


(** What every chunk of the SDU has in common. *)
Lemma resource_asserts {A} (k : unit → option A) : bf_mac_hdr_is_written f = false →
  (check (get_pos sdu =? 0) ;; check (negb (bf_mac_hdr_is_written f)) ;;
   check (negb (is_null_pdu (bf_resource f) && (0 <? get_len_remaining sdu))) ≫= k) = k tt.
Proof.
  intros Hw. destruct Hinv as [Hh Hs Hf Hnull]. unfold sdu. rewrite Hf, Hw by done.
  assert (is_null_pdu (bf_resource f) && (0 <? get_len_remaining (bf_sdu f)) = false) as ->; [|done].
  destruct (is_null_pdu (bf_resource f)) eqn:En; [|done].
  by rewrite <-length_remaining, Hnull by eauto using hdr_is_null.
Qed.

(** The whole SDU fits: one MAC-RESOURCE. *)
Lemma resource_fits : bf_mac_hdr_is_written f = false → hl + get_len_remaining sdu ≤ cap →
  ∃ f' block' c, get_resource_chunk f block = Some (true, f', block') ∧
    emitted t f f' true block block' c.
Proof.
  intros Hw Hfit. destruct Hinv as [Hh Hs Hf Hnull]. destruct Hblock as [Hb Hfix Hc _].
  fold sdu in Hs, Hf, Hnull. fold cap in Hc. pose proof (hdr_len_16 _ _ Hh) as H16. fold hl in H16.
  destruct (compute_required_correct (hl + get_len_remaining sdu) cap Hfit) as (Hle & Hk8 & Hend & Hmin).
  set (k := compute_required (hl + get_len_remaining sdu) cap) in *.
  set (total := hl + get_len_remaining sdu + k) in *.
  assert (2 ≤ total / 8 < 63) as Hbytes.
  { split; [apply Nat.div_le_lower_bound; lia|apply Nat.Div0.div_lt_upper_bound; lia]. }
  assert (t = AtNullPdu → (0 <? k) = false) as Hkn.
  { intros Ht. destruct (hdr_null _ _ Hh Ht) as [_ E]. fold hl in E. apply Nat.ltb_ge.
    destruct k as [|k']; [lia|]. destruct (Hmin 0 ltac:(lia)) as [Hne _]. exfalso. apply Hne.
    rewrite <-(length_remaining sdu), Hnull, E by done. done. }
  set (l := wrap 8 (Z.of_nat (total / 8))).
  assert (l = Z.of_nat (total / 8)) as Hl by (apply wrap_small; unfold is_u; lia).
  set (r := set_len_fill l (0 <? k) (bf_resource f)).
  destruct (hdr_ok_set _ _ l (0 <? k) Hh) as [Hv Hsh]; [lia|done|]. fold r in Hv, Hsh.
  assert (length (fields_bits (mr_fields t r)) = hl) as Hhl by (by rewrite length_fields_bits).
  destruct (emit_ok (mac_resource_to_bitbuf r) (fields_bits (mr_fields t r)) sdu (get_len_remaining sdu) k block)
    as (b1 & b2 & b3 & E1 & E2 & E3 & Hwf3 & Hf3 & He3 & _ & Habs3); [done..|by apply mr_writes| |].
  { rewrite Hhl. exact Hle. }
  rewrite take_ge in Habs3 by (rewrite length_remaining by done; lia).
  exists (hdr_written r (advance (get_len_remaining sdu) sdu) f), b3, (ChResource r (remaining sdu) k). split.
  - unfold get_resource_chunk. rewrite resource_asserts by done. rewrite (hdr_ok_len _ t Hh).
    cbn [mbind option_bind]. fold sdu hl cap. fold k. fold total. rewrite (proj2 (Nat.leb_le _ _) Hle).
    assert ((total mod 8 =? 0) || (total =? cap) = true) as ->.
    { destruct Hend as [->| ->]; [done|]. by rewrite Nat.eqb_refl, orb_true_r. }
    cbn [check mbind option_bind]. fold l r. rewrite E1. cbn [mbind option_bind]. rewrite E2.
    cbn [mbind option_bind]. by rewrite E3.
  - assert (length (chunk_bits t (ChResource r (remaining sdu) k)) = total) as Hlen.
    { cbn [chunk_bits]. rewrite length_chunk_parts, Hhl, length_remaining by done. done. }
    assert (remaining (advance (get_len_remaining sdu) sdu) = []) as Hrest.
    { rewrite remaining_advance. apply drop_ge. rewrite length_remaining by done. lia. }
    split; try done.
    + split; rewrite Hlen; [done|]. split; [done|]. split_and!; [done|cbn; lia|done|done].
    + cbn [chunk_part hdr_written bf_sdu]. by rewrite Hrest, app_nil_r.
    + by apply frag_inv_sent.
    + by rewrite Hw.
Qed.

(** It does not: a block with too little room is left alone, another one is
    filled with the start of the SDU. *)
Lemma resource_does_not_fit : bf_mac_hdr_is_written f = false → cap < hl + get_len_remaining sdu →
  (cap < 32 ∨ cap < hl) ∧ get_resource_chunk f block = Some (false, f, block) ∨
  (32 ≤ cap ∧ hl ≤ cap) ∧ ∃ f' block' c, get_resource_chunk f block = Some (false, f', block') ∧
    emitted t f f' false block block' c.
Proof.
  intros Hw Hfit. destruct Hinv as [Hh Hs Hf Hnull]. destruct Hblock as [Hb Hfix Hc _].
  fold sdu in Hs, Hf, Hnull. fold cap in Hc.
  assert (compute_required (hl + get_len_remaining sdu) cap = 0) as Hk.
  { unfold compute_required. by rewrite (proj2 (Nat.leb_le _ _)) by lia. }
  unfold get_resource_chunk. rewrite resource_asserts by done. rewrite (hdr_ok_len _ t Hh).
  cbn [mbind option_bind]. fold sdu hl cap. rewrite Hk, Nat.add_0_r, (proj2 (Nat.leb_gt _ _) Hfit).
  unfold MIN_SLOT_CAP_FOR_RES_FRAG_START.
  destruct (Nat.ltb_spec cap 32); [left; split; [by left|done]|].
  destruct (Nat.ltb_spec cap hl); [left; split; [by right|done]|]. right. split; [done|]. cbn [orb].
  set (r := set_len_fill 63 false (bf_resource f)).
  destruct (hdr_ok_set _ _ 63 false Hh) as [Hv Hsh]; [lia|done|]. fold r in Hv, Hsh.
  assert (length (fields_bits (mr_fields t r)) = hl) as Hhl by (by rewrite length_fields_bits).
  destruct (emit_hdr (mac_resource_to_bitbuf r) (fields_bits (mr_fields t r)) sdu (cap - hl) block)
    as (b1 & b2 & E1 & E2 & Hwf2 & Hf2 & He2 & Hp2 & Habs2); [done..|lia|by apply mr_writes| |].
  { rewrite Hhl. fold cap. lia. }
  assert (get_len_remaining b2 = 0) as Hfull.
  { unfold get_len_remaining. rewrite He2, Hp2, Hhl. unfold cap, get_len_remaining. lia. }
  assert (fill_write None b2 = Ok tt b2) as E3.
  { unfold fill_write. erewrite (bind_ok get) by done. by rewrite Hfull. }
  exists (hdr_written r (advance (cap - hl) sdu) f), b2, (ChResource r (take (cap - hl) (remaining sdu)) 0). split.
  - cbn [check Nat.eqb mbind option_bind]. fold r. rewrite E1. cbn [mbind option_bind]. rewrite E2.
    cbn [mbind option_bind]. by rewrite (exec_ok _ _ _ _ E3).
  - assert (length (chunk_bits t (ChResource r (take (cap - hl) (remaining sdu)) 0)) = cap) as Hlen.
    { cbn [chunk_bits]. rewrite length_chunk_parts, Hhl, length_take, length_remaining by done. lia. }
    split; try done.
    + split; rewrite Hlen; [done|]. split; [done|]. done.
    + cbn [chunk_bits fill_pattern]. by rewrite app_nil_r.
    + apply remaining_split.
    + apply frag_inv_sent. lia.
    + by rewrite Hw.
    + congruence.
Qed.

Lemma mac_end_len_eq : mac_end_compute_hdr_len false false = Some 13.
Proof. done. Qed.

(** The rest fits, header and padding included: a MAC-END. *)
Lemma end_fits : bf_mac_hdr_is_written f = true → (13 + get_len_remaining sdu + 7) / 8 * 8 ≤ cap →
  ∃ f' block' c, get_frag_or_end_chunk f block = Some (true, f', block') ∧
    emitted t f f' true block block' c.
Proof.
  intros Hw Hfit. destruct Hinv as [Hh Hs Hf Hnull]. destruct Hblock as [Hb Hfix Hc _].
  fold sdu in Hs, Hf, Hnull. fold cap in Hc. set (n := 13 + get_len_remaining sdu) in *.
  pose proof (Nat.div_mod_eq (n + 7) 8) as Hd. pose proof (Nat.mod_upper_bound (n + 7) 8 ltac:(lia)) as Hm.
  destruct (compute_required_correct n cap) as (Hle & Hk8 & Hend & Hmin); [lia|].
  set (k := compute_required n cap) in *. set (bytes := (n + 7) / 8) in *.
  assert (n + k = bytes * 8) as Hk.
  { destruct (decide (bytes * 8 - n < k)) as [Hlt|Hge].
    - destruct (Hmin _ Hlt) as [H0 _]. exfalso. apply H0.
      replace (n + (bytes * 8 - n)) with (bytes * 8) by lia. apply Nat.Div0.mod_mul.
    - destruct Hend as [E|E]; [|lia]. apply Nat.Div0.mod_divides in E as [m Hm8]. lia. }
  assert (2 ≤ bytes < 63) as Hbytes by lia.
  set (l := wrap 8 (Z.of_nat bytes)).
  assert (l = Z.of_nat bytes) as Hl by (apply wrap_small; unfold is_u; lia).
  set (p := mkMacEndDl (0 <? k) 0 l None None).
  assert (mac_end_valid p) as Hv by (split; cbn; try done; unfold is_u; lia).
  destruct (emit_ok (mac_end_to_bitbuf p) (fields_bits (mac_end_fields p)) sdu (get_len_remaining sdu) k block)
    as (b1 & b2 & b3 & E1 & E2 & E3 & Hwf3 & Hf3 & He3 & _ & Habs3); [done..|by apply mac_end_writes| |].
  { rewrite length_fields_bits. change (n + k ≤ cap). lia. }
  rewrite take_ge in Habs3 by (rewrite length_remaining by done; lia).
  exists (set_sdu (advance (get_len_remaining sdu) sdu) f), b3, (ChEnd l (remaining sdu) k). split.
  - unfold get_frag_or_end_chunk. rewrite Hw, mac_end_len_eq. cbn [check mbind option_bind].
    fold sdu cap. fold n. fold bytes. rewrite (proj2 (Nat.leb_le _ _) Hfit). fold k l. fold p.
    rewrite E1. cbn [mbind option_bind]. rewrite E2. cbn [mbind option_bind]. by rewrite write_fill_eq, E3.
  - assert (length (chunk_bits t (ChEnd l (remaining sdu) k)) = n + k) as Hlen.
    { cbn [chunk_bits]. rewrite length_chunk_parts, length_remaining, length_fields_bits by done. done. }
    assert (remaining (advance (get_len_remaining sdu) sdu) = []) as Hrest.
    { rewrite remaining_advance. apply drop_ge. rewrite length_remaining by done. lia. }
    split; try done.
    + split; rewrite Hlen; [lia|]. split; [done|]. lia.
    + cbn [chunk_part set_sdu bf_sdu]. by rewrite Hrest, app_nil_r.
    + by apply (frag_inv_sent _ 0 false).
    + by rewrite Hw.
Qed.

(** It does not: the block is filled with a MAC-FRAG, if it has any room. *)
Lemma end_does_not_fit : bf_mac_hdr_is_written f = true → cap < (13 + get_len_remaining sdu + 7) / 8 * 8 →
  cap < 16 ∧ get_frag_or_end_chunk f block = Some (false, f, block) ∨
  16 ≤ cap ∧ ∃ f' block' c, get_frag_or_end_chunk f block = Some (false, f', block') ∧
    emitted t f f' false block block' c.
Proof.
  intros Hw Hfit. destruct Hinv as [Hh Hs Hf Hnull]. destruct Hblock as [Hb Hfix Hc _].
  fold sdu in Hs, Hf, Hnull. fold cap in Hc.
  unfold get_frag_or_end_chunk. rewrite Hw, mac_end_len_eq. cbn [check mbind option_bind].
  fold sdu cap. rewrite (proj2 (Nat.leb_gt _ _) Hfit). unfold MIN_SLOT_CAP_FOR_FRAG.
  destruct (Nat.ltb_spec cap 16); [by left|]. right. split; [done|].
  assert (0 < get_len_remaining sdu) as Hpos.
  { destruct (get_len_remaining sdu); [|lia]. change ((13 + 0 + 7) / 8 * 8) with 16 in Hfit. lia. }
  set (n := (cap - 4) `min` get_len_remaining sdu). set (k := cap - 4 - n).
  set (p := mkMacFragDl (0 <? k)).
  assert (n ≤ get_len_remaining sdu) as Hn by (unfold n; lia).
  destruct (emit_ok (mac_frag_to_bitbuf p) (fields_bits (mac_frag_fields p)) sdu n k block)
    as (b1 & b2 & b3 & E1 & E2 & E3 & Hwf3 & Hf3 & He3 & _ & Habs3); [done..|by apply mac_frag_writes| |].
  { rewrite length_fields_bits. change (4 + n + k ≤ cap). unfold k, n. lia. }
  assert (length (take n (remaining sdu)) = n) as Htake.
  { rewrite length_take, length_remaining by done. lia. }
  exists (set_sdu (advance n sdu) f), b3, (ChFrag (take n (remaining sdu)) k). split.
  - rewrite E1. cbn [mbind option_bind]. rewrite E2. cbn [mbind option_bind]. by rewrite write_fill_eq, E3.
  - assert (length (chunk_bits t (ChFrag (take n (remaining sdu)) k)) = cap) as Hlen.
    { cbn [chunk_bits]. rewrite length_chunk_parts, Htake, length_fields_bits.
      change (4 + n + k = cap). unfold k, n. lia. }
    split; try done.
    + split; rewrite Hlen; [done|]. by split.
    + apply remaining_split.
    + by apply (frag_inv_sent _ 0 false).
    + by rewrite Hw.
Qed.
End chunk.

(** * One block *)

(** A receipt that is still waiting for its transmission. *)
Definition tx_pending (f : BsFragger) : Prop :=
  match bf_tx_reporter f with Some r => tx_state r = tx_raw Pending | None => True end.

Definition transmitted (o : option TxReporter) : option TxReporter :=
  (λ r, mkReporter (expects_ack r) (tx_raw Transmitted)) <$> o.

(** [get_next_chunk] after the chunk itself: done or not, and the receipt. *)
Definition finish (d : bool) (f : BsFragger) : BsFragger :=
  mkFragger (bf_resource f) (bf_mac_hdr_is_written f) d (bf_sdu f)
    (if d then transmitted (bf_tx_reporter f) else bf_tx_reporter f).

(** Room for a chunk at all. *)
Definition room (w : bool) (hl cap : nat) : Prop := if w then 16 ≤ cap else 32 ≤ cap ∧ hl ≤ cap.

Inductive sent (t : MacResourceAddrType) (f : BsFragger) (block : BitBuffer) :
    bool → BsFragger → BitBuffer → Prop :=
| sent_chunk d f' block' c : emitted t f f' d block block' c → sent t f block d (finish d f') block'
| sent_nothing : ¬ room (bf_mac_hdr_is_written f) (hdr_len (bf_resource f) t) (get_len_remaining block) →
    sent t f block false f block.

Lemma finish_ok f d (block' : BitBuffer) : bf_is_fully_transmitted f = false → tx_pending f →
  (tx_reporter ←
     match bf_tx_reporter f with
     | Some r => if (d : bool) then Some <$> mark_transmitted r else Some (Some r)
     | None => Some None
     end;
   Some (d, mkFragger (bf_resource f) (bf_mac_hdr_is_written f) d (bf_sdu f) tx_reporter, block')) =
  Some (d, finish d f, block') ∧ finish false f = f.
Proof.
  intros Ht Hp. unfold finish, tx_pending, mark_transmitted, mark in *. destruct f as [r w ft s o]. cbn in *. subst.
  split; [|done]. destruct o as [r'|]; [|by destruct d]. rewrite Hp. by destruct d.
Qed.

Lemma get_next_chunk_ok f t block : frag_inv f t → block_ok block → bf_is_fully_transmitted f = false →
  tx_pending f → ∃ d f' block', get_next_chunk f block = Some (d, f', block') ∧ sent t f block d f' block'.
Proof.
  intros Hinv Hb Hft Htx. unfold get_next_chunk.
  assert ((get_len_written block mod 8 =? 0) || (get_len_remaining block =? 0) = true) as ->.
  { destruct (bo_aligned _ Hb) as [->| ->]; [done|apply orb_true_r]. }
  rewrite Hft. cbn [negb check mbind option_bind].
  assert (∃ d f0 block', (if negb (bf_mac_hdr_is_written f) then get_resource_chunk f block
      else get_frag_or_end_chunk f block) = Some (d, f0, block') ∧ bf_is_fully_transmitted f0 = false ∧
      tx_pending f0 ∧ sent t f block d (finish d f0) block') as (d & f0 & block' & -> & Hft0 & Htx0 & Hsent).
  2: { exists d, (finish d f0), block'. split; [|done]. by apply (finish_ok f0 d block'). }
  assert (∀ d f0 block' c, emitted t f f0 d block block' c → bf_is_fully_transmitted f0 = false ∧
    tx_pending f0 ∧ sent t f block d (finish d f0) block') as Hem.
  { intros d f0 block' c He. destruct (em_tx _ _ _ _ _ _ _ He) as [Hr Hf]. split_and!; [congruence| |by econstructor].
    unfold tx_pending. by rewrite Hr. }
  assert (¬ room (bf_mac_hdr_is_written f) (hdr_len (bf_resource f) t) (get_len_remaining block) →
    sent t f block false (finish false f) block) as Hno.
  { intros Hr. destruct (finish_ok f false block) as [_ ->]; [done..|]. by constructor. }
  destruct (bf_mac_hdr_is_written f) eqn:Hw; cbn [negb].
  - destruct (decide ((13 + get_len_remaining (bf_sdu f) + 7) / 8 * 8 ≤ get_len_remaining block)) as [Hfit|Hfit].
    + destruct (end_fits f t block Hinv Hb Hw Hfit) as (f' & b' & c & -> & He). eauto 10.
    + destruct (end_does_not_fit f t block Hinv Hb Hw ltac:(lia)) as [[Hc ->]|(_ & f' & b' & c & -> & He)]; [|eauto 10].
      eexists _, _, _. split_and!; [done..|]. apply Hno. unfold room. lia.
  - destruct (decide (hdr_len (bf_resource f) t + get_len_remaining (bf_sdu f) ≤ get_len_remaining block)) as [Hfit|Hfit].
    + destruct (resource_fits f t block Hinv Hb Hw Hfit) as (f' & b' & c & -> & He). eauto 10.
    + destruct (resource_does_not_fit f t block Hinv Hb Hw ltac:(lia)) as [[Hc ->]|(_ & f' & b' & c & -> & He)]; [|eauto 10].
      eexists _, _, _. split_and!; [done..|]. apply Hno. unfold room. lia.
Qed.

(** * A sequence of blocks *)

(** The scheduler offers its blocks to a fragmenter until that is done. *)
Fixpoint send_blocks (f : BsFragger) (blocks : list BitBuffer) : option (bool * BsFragger * list BitBuffer) :=
  match blocks with
  | [] => Some (false, f, [])
  | block :: blocks =>
      '(d, f, block) ← get_next_chunk f block;
      if (d : bool) then Some (true, f, block :: blocks)
      else '(d, f, blocks) ← send_blocks f blocks; Some (d, f, block :: blocks)
  end.

(** What is promised of the blocks: [delivery w blocks blocks' sdu rest d] says
    that the blocks were turned into [blocks'] and carry [sdu] up to [rest], in
    order, as one PDU or as a start, fragments and an end; [w] tells whether the
    start was sent before, [d] whether the end is there. *)
Inductive delivery (t : MacResourceAddrType) (r0 : MacResource) (hl : nat) :
    bool → list BitBuffer → list BitBuffer → list bool → list bool → bool → Prop :=
| delivery_nil w sdu : delivery t r0 hl w [] [] sdu sdu false
| delivery_skip w b bs bs' sdu rest d : ¬ room w hl (get_len_remaining b) →
    delivery t r0 hl w bs bs' sdu rest d → delivery t r0 hl w (b :: bs) (b :: bs') sdu rest d
| delivery_last w b b' bs c : is_resource c = negb w → chunk_ok t r0 true (get_len_remaining b) c →
    abs b' = a_write (chunk_bits t c) (abs b) →
    delivery t r0 hl w (b :: bs) (b' :: bs) (chunk_part c) [] true
| delivery_more w b b' bs bs' c sdu rest d : is_resource c = negb w →
    chunk_ok t r0 false (get_len_remaining b) c → abs b' = a_write (chunk_bits t c) (abs b) →
    delivery t r0 hl true bs bs' sdu rest d →
    delivery t r0 hl w (b :: bs) (b' :: bs') (chunk_part c ++ sdu) rest d.

(** Blocks that are enough for the rest of an SDU, if each has room: one for its
    end, one for every 12 bits before, one for the start. *)
Definition blocks_needed (w : bool) (len : nat) : nat := (len + 11) / 12 + (if w then 1 else 2).

Lemma blocks_needed_sent len n : 12 `min` len ≤ n → n ≤ len →
  blocks_needed true (len - n) < blocks_needed true len ∨ len = 0.
Proof.
  intros Hn Hle. destruct (decide (len = 0)); [by right|]. left. unfold blocks_needed.
  enough ((len - n + 11) / 12 + 1 ≤ (len + 11) / 12) by lia.
  replace ((len - n + 11) / 12 + 1) with ((len - n + 11 + 1 * 12) / 12) by (rewrite Nat.div_add by lia; lia).
  destruct (decide (len ≤ n)) as [H|H].
  - replace (len - n) with 0 by lia. change ((0 + 11 + 1 * 12) / 12) with 1. apply Nat.div_le_lower_bound; lia.
  - apply Nat.Div0.div_le_mono. lia.
Qed.

(** Only a resource chunk depends on the resource. *)
Lemma chunk_ok_resource t r r' last cap c : chunk_ok t r last cap c → is_resource c = false ∨ r = r' →
  chunk_ok t r' last cap c.
Proof. intros H [E| ->]; [|done]. destruct c; done. Qed.

Lemma emitted_len t f f' d b b' c : emitted t f f' d b b' c → wf (bf_sdu f) →
  get_len_remaining (bf_sdu f') = get_len_remaining (bf_sdu f) - length (chunk_part c) ∧
  length (chunk_part c) ≤ get_len_remaining (bf_sdu f).
Proof.
  intros He Hw. pose proof (f_equal length (em_sdu _ _ _ _ _ _ _ He)) as Hl.
  rewrite length_app, !length_remaining in Hl; [lia|apply (em_inv _ _ _ _ _ _ _ He)|done].
Qed.

Lemma frag_inv_finish f t d : frag_inv f t → frag_inv (finish d f) t.
Proof. by intros []. Qed.

Lemma send_blocks_ok t r0 hl blocks : ∀ f, frag_inv f t → Forall block_ok blocks →
  bf_is_fully_transmitted f = false → tx_pending f → hdr_len (bf_resource f) t = hl →
  (bf_mac_hdr_is_written f = false → bf_resource f = r0) →
  ∃ d f' blocks', send_blocks f blocks = Some (d, f', blocks') ∧
    delivery t r0 hl (bf_mac_hdr_is_written f) blocks blocks' (remaining (bf_sdu f)) (remaining (bf_sdu f')) d ∧
    bf_is_fully_transmitted f' = d ∧
    bf_tx_reporter f' = (if d then transmitted (bf_tx_reporter f) else bf_tx_reporter f) ∧
    (Forall (λ b, 32 `max` hl ≤ get_len_remaining b) blocks →
     blocks_needed (bf_mac_hdr_is_written f) (get_len_remaining (bf_sdu f)) ≤ length blocks → d = true).
Proof.
  induction blocks as [|b bs IH]; intros f Hinv Hall Hft Htx Hhl Hr0.
  { exists false, f, []. split_and!; try done; [constructor|]. intros _. unfold blocks_needed. cbn.
    destruct (bf_mac_hdr_is_written f); lia. }
  apply Forall_cons in Hall as [Hb Hall].
  destruct (get_next_chunk_ok f t b Hinv Hb Hft Htx) as (d & f1 & b1 & Heq & Hsent).
  cbn [send_blocks]. rewrite Heq. cbn [mbind option_bind].
  destruct Hsent as [d f1 b1 c He|Hroom].
  2: { destruct (IH f) as (d & f' & bs' & -> & Hdel & Hd & Htx' & _); [done..|].
       exists d, f', (b :: bs'). split_and!; try done; [by apply delivery_skip; [rewrite <-Hhl|]|].
       intros [Hcap _]%Forall_cons _. exfalso. apply Hroom. rewrite Hhl. unfold room.
       destruct (bf_mac_hdr_is_written f); lia. }
  assert (chunk_ok t r0 d (get_len_remaining b) c) as Hchunk.
  { eapply chunk_ok_resource; [apply He|]. rewrite (em_kind _ _ _ _ _ _ _ He).
    destruct (bf_mac_hdr_is_written f); [by left|right; by apply Hr0]. }
  pose proof (emitted_len _ _ _ _ _ _ _ He (fi_sdu _ _ Hinv)) as [Hlen Hle].
  destruct He as [_ _ _ _ Habs Hsdu Hinv' Hw' Hlast Hkind Hhl1 Hprog [Htx1 Hft1]].
  rewrite Hsdu. destruct d.
  - exists true, (finish true f1), (b1 :: bs). rewrite Hlast, app_nil_r by done. split_and!; try done.
    + cbn [finish bf_sdu]. rewrite Hlast by done. by apply delivery_last.
    + cbn [finish bf_tx_reporter]. by rewrite Htx1.
  - destruct (IH (finish false f1)) as (d & f' & bs' & -> & Hdel & Hd & Htx' & Hterm);
      [by apply frag_inv_finish|done|done|unfold tx_pending; cbn; by rewrite Htx1|by rewrite <-Hhl|cbn; congruence|].
    cbn [finish bf_sdu bf_mac_hdr_is_written bf_tx_reporter] in *. rewrite Hw' in Hdel, Hterm.
    exists d, f', (b1 :: bs'). split_and!; try done; [by apply delivery_more|by rewrite <-Htx1|].
    intros [Hcap Hcaps]%Forall_cons Hneed. apply Hterm; [done|]. rewrite Hlen. cbn [length] in Hneed.
    destruct (bf_mac_hdr_is_written f).
    + destruct Hprog as [Hpos Hpart]; [done..|].
      destruct (blocks_needed_sent (get_len_remaining (bf_sdu f)) (length (chunk_part c))); lia.
    + unfold blocks_needed in *. enough ((get_len_remaining (bf_sdu f) - length (chunk_part c) + 11) / 12 ≤
        (get_len_remaining (bf_sdu f) + 11) / 12) by lia. apply Nat.Div0.div_le_mono. lia.
Qed.

Definition discarded (o : option TxReporter) : option TxReporter :=
  (λ r, mkReporter (expects_ack r) (tx_raw Discarded)) <$> o.

(** * Properties *)

(** C26: an SDU is delivered.  Whatever blocks a new fragmenter is offered, it
    does not panic; the blocks it used carry the SDU in order and without gaps
    or repetition, either whole in one MAC-RESOURCE or as a MAC-RESOURCE,
    MAC-FRAGs and a MAC-END whose headers describe their length and fill bits;
    blocks with too little room stay as they are.  The receipt becomes
    Transmitted exactly when the end was sent, and Discarded when the
    fragmenter is dropped before.  With at least 32 bits, and room for the
    header, in every block, a number of blocks linear in the SDU's length is
    enough for the end to be sent. *)
Theorem sdu_is_delivered r t sdu tx blocks : hdr_ok r t → wf sdu → get_pos sdu = 0 →
  (t = AtNullPdu → get_len_remaining sdu = 0) →
  (∀ rep, tx = Some rep → get_state rep = Pending ∧ reporter_ok rep) → Forall block_ok blocks →
  ∃ f d f' blocks', fragger_new r sdu tx = Some f ∧ send_blocks f blocks = Some (d, f', blocks') ∧
    delivery t r (hdr_len r t) false blocks blocks' (remaining sdu) (remaining (bf_sdu f')) d ∧
    bf_tx_reporter f' = (if d then transmitted tx else tx) ∧
    fragger_drop f' = Some (if d then transmitted tx else discarded tx) ∧
    (Forall (λ b, 32 `max` hdr_len r t ≤ get_len_remaining b) blocks →
     (get_len_remaining sdu + 11) / 12 + 2 ≤ length blocks → d = true).
Proof.
  intros Hh Hs Hpos Hnull Htx Hall. set (f := mkFragger r false false sdu tx).
  assert (frag_inv f t) as Hinv.
  { split; try done. intros Ht. change (bf_sdu f) with sdu. apply length_zero_iff_nil. rewrite length_remaining by done. by apply Hnull. }
  assert (tx_pending f) as Hpend.
  { unfold tx_pending. cbn. destruct tx as [rep|]; [|done]. destruct (Htx rep) as [E1 E2]; [done|].
    unfold reporter_ok in E2. by rewrite E2, E1. }
  destruct (send_blocks_ok t r (hdr_len r t) blocks f) as (d & f' & bs' & Hrun & Hdel & Hd & Htx' & Hterm); [done..|].
  exists f, d, f', bs'. split_and!; try done.
  - unfold fragger_new. by rewrite Hpos.
  - unfold fragger_drop. rewrite Htx', Hd. change (bf_tx_reporter f) with tx. unfold tx_pending in Hpend.
    change (bf_tx_reporter f) with tx in Hpend. destruct d; [by destruct tx|]. destruct tx as [rep|]; [|done].
    destruct (Htx rep) as [E1 _]; [done|]. rewrite (bool_decide_true _ E1). cbn [negb andb].
    unfold mark_discarded, mark. by rewrite Hpend.
Qed.

Definition test_resource : MacResource :=
  mkMacResource false 0 0 false 1 (Some (mkAddr 1000001 Issi)) None None None None None.

Lemma new_block_ok n : 0 < n < 504 → block_ok (new n).
Proof.
  intros Hn. split; [apply wf_new|done|cbn; lia|by left].
  enough (div_ceil n 8 ≤ 64) by (unfold usize_max; lia). unfold div_ceil.
  pose proof (Nat.Div0.div_lt_upper_bound n 8 63 ltac:(lia)). destruct (_ =? _); lia.
Qed.

(** 300 bits in half slots: three blocks are needed, 27 are surely enough. *)
Lemma sdu_is_delivered_witness : ∃ f d f' blocks',
  fragger_new test_resource (new 300) (Some new_reporter) = Some f ∧
  send_blocks f (replicate 27 (new 124)) = Some (d, f', blocks') ∧ d = true ∧
  fragger_drop f' = Some (Some (mkReporter true 2)) ∧
  delivery AtSsi test_resource 43 false (replicate 27 (new 124)) blocks' (remaining (new 300)) (remaining (bf_sdu f')) d.
Proof.
  destruct (sdu_is_delivered test_resource AtSsi (new 300) (Some new_reporter) (replicate 27 (new 124)))
    as (f & d & f' & bs' & H1 & H2 & H3 & _ & H4 & H5).
  - split; [split; cbn; try done; intros; simplify_eq; unfold is_u; cbn; lia|].
    eapply (shape_ssi _ (mkAddr 1000001 Issi)); try done. by right; right.
  - apply wf_new. by vm_compute.
  - reflexivity.
  - done.
  - intros rep [= <-]. by vm_compute.
  - apply Forall_replicate, new_block_ok. lia.
  - assert (d = true) as ->.
    { apply H5; [apply Forall_replicate|]; apply Nat.leb_le; by vm_compute. }
    exists f, true, f', bs'. split_and!; try done.
Defined.
