(* ===== verification/MsDefrag.v ===== *)
(** Reassembly of fragmented downlink PDUs in a terminal
    ([tetra-entities/src/umac/subcomp/ms_defrag.rs]).

    One reassembly buffer per timeslot.  [None] is a panic: an array index out of
    range or an assertion of the bit buffer.  The file ends with the downlink as a
    whole: what the base station's fragmenter put into MAC blocks comes back. *)
From S2P Require Import Prelude Bits Core BitBuffer BitBufferSpec BitCodec.
From S2P Require Import BitBufferThms TdmaTime Arrays FieldCodec TxReceipt DefragSpec MacDl MacDlSpec BsFragSpec.

(** * Definitions *)

Definition MS_DEFRAG_BUF_MAX_LEN : nat := 4096.
Definition MS_DEFRAG_TS_BEFORE_TIMEOUT : Z := 10 * 4.

Record MsDefrag : Type := mkMsDefrag { ms_buffers : list DefragBuffer }.

Definition ms_new : MsDefrag := mkMsDefrag [defrag_new; defrag_new; defrag_new; defrag_new].

Definition ms_reset (d : MsDefrag) : MsDefrag := mkMsDefrag (defrag_reset <$> ms_buffers d).

Definition ms_set (ts : nat) (b : DefragBuffer) (d : MsDefrag) : MsDefrag := mkMsDefrag (<[ts := b]> (ms_buffers d)).

Definition ms_age_one (t : TdmaTime) (b : DefragBuffer) : option DefragBuffer :=
  if bool_decide (db_state b ≠ Inactive) then
    d ← diff t (db_t_last b);
    Some (if (MS_DEFRAG_TS_BEFORE_TIMEOUT <? d)%Z then defrag_reset b else b)
  else Some b.

Definition ms_age_buffers (t : TdmaTime) (d : MsDefrag) : option MsDefrag :=
  bs ← mapM (ms_age_one t) (ms_buffers d);
  Some (mkMsDefrag bs).

Definition ms_insert_first (bitbuffer : BitBuffer) (t : TdmaTime) (addr : TetraAddress)
    (aie_info : option Z) (d : MsDefrag) : option (BitBuffer * MsDefrag) :=
  ts ← ts_index t;
  b ← ms_buffers d !! ts;
  let b := if bool_decide (db_state b ≠ Inactive) then defrag_reset b else b in
  '(bitbuffer, b) ← append_fragment bitbuffer (mkDefrag Active addr t t 1 aie_info (db_buffer b));
  Some (bitbuffer, ms_set ts b d).

(** [insert_next] and [insert_last] differ in the state they leave. *)
Definition ms_insert_more (state : DefragBufferState) (bitbuffer : BitBuffer) (t : TdmaTime) (d : MsDefrag) :
    option (BitBuffer * MsDefrag) :=
  ts ← ts_index t;
  b ← ms_buffers d !! ts;
  if bool_decide (db_state b ≠ Active) then Some (bitbuffer, d)
  else if MS_DEFRAG_BUF_MAX_LEN <? get_len (db_buffer b) + get_len_remaining bitbuffer then
    Some (bitbuffer, ms_set ts defrag_new d)
  else
    '(bitbuffer, b) ← append_fragment bitbuffer
      (mkDefrag state (db_addr b) (db_t_first b) t (db_num_frags b + 1) (db_aie_info b) (db_buffer b));
    Some (bitbuffer, ms_set ts b d).

Definition ms_insert_next := ms_insert_more Active.
Definition ms_insert_last := ms_insert_more Complete.

Definition ms_get_aie_info (t : TdmaTime) (d : MsDefrag) : option (option Z) :=
  ts ← ts_index t;
  b ← ms_buffers d !! ts;
  Some (if bool_decide (db_state b ≠ Active) then None else db_aie_info b).

Definition take_defragged_buf (t : TdmaTime) (d : MsDefrag) : option (option DefragBuffer * MsDefrag) :=
  ts ← ts_index t;
  b ← ms_buffers d !! ts;
  if bool_decide (db_state b ≠ Complete) then Some (None, d)
  else
    '(_, buf) ← exec (set_raw_end (bb_pos (db_buffer b));; seek 0) (db_buffer b);
    Some (Some (mkDefrag (db_state b) (db_addr b) (db_t_first b) (db_t_last b) (db_num_frags b) (db_aie_info b) buf),
          ms_set ts defrag_new d).

(** * Specification *)

(** What a timeslot has received: nothing, a start, or a whole PDU. *)
Record burst : Type := mkBurst { bu_addr : TetraAddress; bu_last : TdmaTime; bu_aie : option Z; bu_bits : list bool }.
Inductive ms_slot : Type := SlotIdle | SlotOpen (b : burst) | SlotDone (b : burst).

(** The operations, each on the timeslot of its time. *)
Inductive ms_op : Type :=
| MsFirst (frag : BitBuffer) (t : TdmaTime) (addr : TetraAddress) (aie : option Z)
| MsNext (frag : BitBuffer) (t : TdmaTime)
| MsLast (frag : BitBuffer) (t : TdmaTime)
| MsTake (t : TdmaTime)
| MsAge (t : TdmaTime)
| MsReset.

(** Observable result: who sent the PDU that is handed out, and its bits. *)
Definition ms_out : Type := option (TetraAddress * list bool).

Definition no_out {A} (o : option (A * MsDefrag)) : option (ms_out * MsDefrag) :=
  match o with Some (_, d) => Some (None, d) | None => None end.

Definition ms_exec (op : ms_op) (d : MsDefrag) : option (ms_out * MsDefrag) :=
  match op with
  | MsFirst frag t addr aie => no_out (ms_insert_first frag t addr aie d)
  | MsNext frag t => no_out (ms_insert_next frag t d)
  | MsLast frag t => no_out (ms_insert_last frag t d)
  | MsTake t =>
      match take_defragged_buf t d with
      | Some (Some b, d) => Some (Some (db_addr b, remaining (db_buffer b)), d)
      | Some (None, d) => Some (None, d)
      | None => None
      end
  | MsAge t => match ms_age_buffers t d with Some d => Some (None, d) | None => None end
  | MsReset => Some (None, ms_reset d)
  end.

Definition more (done : bool) (frag : BitBuffer) (t : TdmaTime) (s : ms_slot) : ms_slot :=
  match s with
  | SlotOpen b =>
      let bits := bu_bits b ++ remaining frag in
      if length bits <=? 4096 then
        let b := mkBurst (bu_addr b) t (bu_aie b) bits in if done then SlotDone b else SlotOpen b
      else SlotIdle
  | _ => s
  end.

Definition expire (t : TdmaTime) (s : ms_slot) : ms_slot :=
  match s with
  | SlotOpen b | SlotDone b =>
      match diff t (bu_last b) with Some d => if (40 <? d)%Z then SlotIdle else s | None => s end
  | SlotIdle => s
  end.

Definition spec_slot (op : ms_op) (ts : Z) (s : ms_slot) : ms_slot :=
  match op with
  | MsFirst frag t addr aie => if (tt_t t =? ts)%Z then SlotOpen (mkBurst addr t aie (remaining frag)) else s
  | MsNext frag t => if (tt_t t =? ts)%Z then more false frag t s else s
  | MsLast frag t => if (tt_t t =? ts)%Z then more true frag t s else s
  | MsTake t => if (tt_t t =? ts)%Z then match s with SlotDone _ => SlotIdle | _ => s end else s
  | MsAge t => expire t s
  | MsReset => SlotIdle
  end.

Definition spec_out (op : ms_op) (slots : Z → ms_slot) : ms_out :=
  match op with
  | MsTake t => match slots (tt_t t) with SlotDone b => Some (bu_addr b, bu_bits b) | _ => None end
  | _ => None
  end.

Definition op_ok (op : ms_op) : Prop :=
  match op with
  | MsFirst frag t _ _ | MsNext frag t | MsLast frag t => wf frag ∧ (1 ≤ tt_t t ≤ 4)%Z
  | MsTake t => (1 ≤ tt_t t ≤ 4)%Z
  | _ => True
  end.

(** * Refinement *)

Definition burst_of (b : DefragBuffer) : burst :=
  mkBurst (db_addr b) (db_t_last b) (db_aie_info b) (window (db_buffer b)).

Definition slot_of (b : DefragBuffer) : ms_slot :=
  match db_state b with Inactive => SlotIdle | Active => SlotOpen (burst_of b) | Complete => SlotDone (burst_of b) end.

Record ms_buf_ok (b : DefragBuffer) : Prop := {
  mb_wf : wf (db_buffer b);
  mb_auto : bb_autoexpand (db_buffer b) = true;
  mb_start : bb_start (db_buffer b) = 0;
  mb_full : bb_pos (db_buffer b) = bb_end (db_buffer b);
  mb_idle : db_state b = Inactive → window (db_buffer b) = []
}.

(** The four buffers implement the four slots. *)
Definition refines (d : MsDefrag) (slots : Z → ms_slot) : Prop :=
  length (ms_buffers d) = 4 ∧
  ∀ ts b, ms_buffers d !! ts = Some b → ms_buf_ok b ∧ slot_of b = slots (Z.of_nat ts + 1)%Z.

Lemma new_buf_ok : ms_buf_ok defrag_new.
Proof. split; [apply wf_new_autoexpand|done..]. Qed.

Lemma append_fragment_aie frag b frag' b' : append_fragment frag b = Some (frag', b') → db_aie_info b' = db_aie_info b.
Proof. unfold append_fragment. case_match; [|done..]. by intros [= <- <-]. Qed.

Lemma ts_index_ok t : (1 ≤ tt_t t ≤ 4)%Z → ∃ ts, ts_index t = Some ts ∧ ts < 4 ∧ (Z.of_nat ts + 1 = tt_t t)%Z.
Proof.
  intros Ht. unfold ts_index. destruct (Z.ltb_spec (tt_t t) 1); [lia|]. eexists. split; [done|]. lia.
Qed.

(** The buffer of a timeslot. *)
Lemma refines_slot d slots t : refines d slots → (1 ≤ tt_t t ≤ 4)%Z →
  ∃ ts b, ts_index t = Some ts ∧ ms_buffers d !! ts = Some b ∧ ms_buf_ok b ∧ slot_of b = slots (tt_t t) ∧
    ∀ b' slots', ms_buf_ok b' → slot_of b' = slots' (tt_t t) → (∀ s, s ≠ tt_t t → slots' s = slots s) →
      refines (ms_set ts b' d) slots'.
Proof.
  intros [Hlen Hall] Ht. destruct (ts_index_ok t Ht) as (ts & Hts & Hlt & Heq).
  destruct (lookup_lt_is_Some_2 (ms_buffers d) ts) as [b Hb]; [lia|].
  destruct (Hall ts b Hb) as [Hok Hs]. rewrite Heq in Hs. exists ts, b. split_and!; [done..|].
  intros b' slots' Hok' Hs' Hoth. split; [cbn; by rewrite length_insert|]. cbn. intros ts' b0 Hb0.
  destruct (decide (ts' = ts)) as [->|Hne].
  - rewrite list_lookup_insert_eq in Hb0 by lia. injection Hb0 as <-. by rewrite Heq.
  - rewrite list_lookup_insert_ne in Hb0 by done. destruct (Hall ts' b0 Hb0) as [? Hs0].
    split; [done|]. rewrite Hs0. symmetry. apply Hoth. lia.
Qed.

Lemma window_len b : ms_buf_ok b → length (window (db_buffer b)) = get_len (db_buffer b).
Proof. intros []. by apply length_window. Qed.

Lemma refines_keep d slots t slots' : refines d slots → slots' (tt_t t) = slots (tt_t t) →
  (∀ s, s ≠ tt_t t → slots' s = slots s) → refines d slots'.
Proof.
  intros [Hlen Hall] He Ho. split; [done|]. intros ts b Hb. destruct (Hall ts b Hb) as [? ->]. split; [done|].
  destruct (decide (Z.of_nat ts + 1 = tt_t t)%Z) as [->|Hne]; [done|]. by rewrite Ho.
Qed.

Lemma first_ok frag t addr aie d slots : refines d slots → wf frag → (1 ≤ tt_t t ≤ 4)%Z →
  ∃ frag' d', ms_insert_first frag t addr aie d = Some (frag', d') ∧
    refines d' (λ s, spec_slot (MsFirst frag t addr aie) s (slots s)).
Proof.
  intros Hr Hf Ht. destruct (refines_slot d slots t Hr Ht) as (ts & b & Hts & Hb & Hok & Hs & Hset).
  unfold ms_insert_first. rewrite Hts. cbn [mbind option_bind]. rewrite Hb. cbn [mbind option_bind]. cbv zeta.
  set (b0 := if bool_decide _ then _ else _).
  assert (ms_buf_ok b0 ∧ window (db_buffer b0) = []) as [Hok0 Hw0].
  { unfold b0. case_bool_decide as Hst; [split; [apply new_buf_ok|done]|]. split; [done|]. apply Hok.
    destruct (decide (db_state b = Inactive)); [done|tauto]. }
  destruct (append_fragment_ok frag (mkDefrag Active addr t t 1 aie (db_buffer b0)))
    as (b' & frag' & Heq & Hst & Had & Htl & Hwf & Hau & Hst0 & Hfull & Hw); [done|apply Hok0..| |].
  { cbn [db_buffer]. rewrite <-window_len, Hw0 by done. pose proof (wf_usize _ Hf). unfold get_len_remaining. cbn. lia. }
  cbn [db_state db_addr db_t_last db_buffer] in *. rewrite Heq. exists frag', (ms_set ts b' d). split; [done|]. apply Hset.
  - split; try done. by rewrite Hst.
  - cbn [spec_slot]. rewrite Z.eqb_refl. unfold slot_of, burst_of. rewrite Hst, Had, Htl, Hw, Hw0.
    by rewrite (append_fragment_aie _ _ _ _ Heq).
  - intros s Hne. cbn [spec_slot]. by rewrite (proj2 (Z.eqb_neq _ _) (not_eq_sym Hne)).
Qed.

Lemma more_ok (done_ : bool) frag t d slots : refines d slots → wf frag → (1 ≤ tt_t t ≤ 4)%Z →
  ∃ frag' d', ms_insert_more (if done_ then Complete else Active) frag t d = Some (frag', d') ∧
    refines d' (λ s, if (tt_t t =? s)%Z then more done_ frag t (slots s) else slots s).
Proof.
  intros Hr Hf Ht. destruct (refines_slot d slots t Hr Ht) as (ts & b & Hts & Hb & Hok & Hs & Hset).
  set (slots' := λ s, if (tt_t t =? s)%Z then more done_ frag t (slots s) else slots s).
  assert (slots' (tt_t t) = more done_ frag t (slot_of b)) as Hhere by (unfold slots'; by rewrite Z.eqb_refl, Hs).
  assert (∀ s, s ≠ tt_t t → slots' s = slots s) as Hoth.
  { intros s Hne. unfold slots'. by rewrite (proj2 (Z.eqb_neq _ _) (not_eq_sym Hne)). }
  unfold ms_insert_more. rewrite Hts. cbn [mbind option_bind]. rewrite Hb. cbn [mbind option_bind].
  case_bool_decide as Hst.
  { exists frag, d. split; [done|]. eapply refines_keep; [exact Hr| |exact Hoth].
    rewrite Hhere, <-Hs. unfold slot_of. destruct (db_state b); (done || by destruct Hst). }
  assert (db_state b = Active) as Hact by (destruct (decide (db_state b = Active)); tauto).
  assert (slot_of b = SlotOpen (burst_of b)) as Hopen by (unfold slot_of; by rewrite Hact).
  rewrite Hopen in Hhere. cbn [more burst_of bu_bits bu_addr bu_aie] in Hhere.
  rewrite length_app, window_len, length_remaining in Hhere by done.
  unfold MS_DEFRAG_BUF_MAX_LEN.
  destruct (Nat.ltb_spec 4096 (get_len (db_buffer b) + get_len_remaining frag)) as [Hlt|Hle].
  { rewrite (proj2 (Nat.leb_gt _ _)) in Hhere by lia. exists frag, (ms_set ts defrag_new d). split; [done|].
    apply Hset; [apply new_buf_ok|by rewrite Hhere|done]. }
  rewrite (proj2 (Nat.leb_le _ _)) in Hhere by lia.
  destruct (append_fragment_ok frag (mkDefrag (if done_ then Complete else Active) (db_addr b) (db_t_first b) t
    (db_num_frags b + 1) (db_aie_info b) (db_buffer b)))
    as (b' & frag' & Heq & Hst' & Had & Htl & Hwf & Hau & Hst0 & Hfull & Hw); [done|apply Hok..| |].
  { cbn [db_buffer]. unfold usize_max. lia. }
  cbn [db_state db_addr db_t_last db_buffer] in *. rewrite Heq. exists frag', (ms_set ts b' d). split; [done|].
  apply Hset; [split; try done; rewrite Hst'; by destruct done_| |done].
  rewrite Hhere. unfold slot_of, burst_of. rewrite Hst', Had, Htl, Hw, (append_fragment_aie _ _ _ _ Heq). by destruct done_.
Qed.

Lemma take_ok t d slots : refines d slots → (1 ≤ tt_t t ≤ 4)%Z →
  ∃ d', ms_exec (MsTake t) d = Some (spec_out (MsTake t) slots, d') ∧
    refines d' (λ s, spec_slot (MsTake t) s (slots s)).
Proof.
  intros Hr Ht. destruct (refines_slot d slots t Hr Ht) as (ts & b & Hts & Hb & Hok & Hs & Hset).
  assert (∀ s, s ≠ tt_t t → spec_slot (MsTake t) s (slots s) = slots s) as Hoth.
  { intros s Hne. cbn [spec_slot]. by rewrite (proj2 (Z.eqb_neq _ _) (not_eq_sym Hne)). }
  cbn [ms_exec]. unfold take_defragged_buf. rewrite Hts. cbn [mbind option_bind]. rewrite Hb. cbn [mbind option_bind].
  case_bool_decide as Hst.
  { exists d. unfold spec_out. rewrite <-Hs.
    assert ((match slot_of b with SlotDone b0 => Some (bu_addr b0, bu_bits b0) | _ => None end : ms_out) = None) as ->.
    { unfold slot_of. destruct (db_state b); (done || by destruct Hst). }
    split; [done|]. eapply refines_keep; [exact Hr| |exact Hoth]. cbn [spec_slot]. rewrite Z.eqb_refl, <-Hs.
    unfold slot_of. destruct (db_state b); (done || by destruct Hst). }
  assert (db_state b = Complete) as Hcomp by (destruct (decide (db_state b = Complete)); tauto).
  assert (slot_of b = SlotDone (burst_of b)) as Hdone by (unfold slot_of; by rewrite Hcomp).
  destruct (Hok) as [Hwf Hau Hst0 Hfull _]. pose proof (wf_end _ Hwf) as Hend. pose proof (wf_pos _ Hwf).
  assert (exec (set_raw_end (bb_pos (db_buffer b));; seek 0) (db_buffer b) = Some (tt, set_pos 0 (db_buffer b))) as ->.
  { apply exec_ok. erewrite bind_ok by (apply set_raw_end_ok; lia).
    assert (set_end (bb_pos (db_buffer b)) (db_buffer b) = db_buffer b) as ->.
    { rewrite Hfull. by destruct (db_buffer b). }
    pose proof (seek_pos (db_buffer b) 0 Hwf) as Hseek. rewrite Hst0 in Hseek. apply Hseek. lia. }
  cbn [mbind option_bind db_addr db_buffer]. unfold spec_out. rewrite <-Hs, Hdone. cbn [burst_of bu_addr bu_bits].
  exists (ms_set ts defrag_new d). split.
  - do 4 f_equal. unfold remaining, window, a_remaining, a_window. cbn. by rewrite Hst0.
  - apply Hset; [apply new_buf_ok| |done]. cbn [spec_slot]. rewrite Z.eqb_refl, <-Hs, Hdone. done.
Qed.

Lemma age_one_ok t b : ms_buf_ok b → ∃ b', ms_age_one t b = Some b' ∧ ms_buf_ok b' ∧ slot_of b' = expire t (slot_of b).
Proof.
  intros Hok. unfold ms_age_one. case_bool_decide as Hst.
  - destruct (diff_total t (db_t_last b)) as [x Hx]. rewrite Hx. cbn [mbind option_bind].
    unfold MS_DEFRAG_TS_BEFORE_TIMEOUT. change (10 * 4)%Z with 40%Z. eexists. split; [reflexivity|].
    assert (expire t (slot_of b) = if (40 <? x)%Z then SlotIdle else slot_of b) as ->.
    { unfold slot_of. destruct (db_state b); cbn [expire burst_of bu_last]; rewrite ?Hx; (done || by destruct Hst). }
    destruct (40 <? x)%Z; [split; [apply new_buf_ok|done]|done].
  - exists b. split_and!; [done..|]. unfold slot_of. destruct (db_state b); (done || by destruct Hst).
Qed.

Lemma age_ok t d slots : refines d slots →
  ∃ d', ms_age_buffers t d = Some d' ∧ refines d' (λ s, expire t (slots s)).
Proof.
  intros [Hlen Hall]. unfold ms_age_buffers.
  assert (∃ bs, mapM (ms_age_one t) (ms_buffers d) = Some bs) as [bs Hbs].
  { apply mapM_is_Some_2, Forall_lookup. intros i b Hb. destruct (age_one_ok t b) as (b' & Hb' & _); [by apply (Hall i)|].
    by exists b'. }
  rewrite Hbs. eexists. split; [reflexivity|]. apply mapM_Some in Hbs.
  split; [cbn; by rewrite <-(Forall2_length _ _ _ Hbs)|]. cbn. intros ts b' Hb'.
  destruct (Forall2_lookup_r _ _ _ _ _ Hbs Hb') as (b & Hb & Hage). destruct (Hall ts b Hb) as [Hok <-].
  destruct (age_one_ok t b Hok) as (b2 & Hage2 & ? & ?). by assert (b2 = b') as -> by congruence.
Qed.

(** One operation. *)
Lemma ms_exec_ok op d slots : refines d slots → op_ok op →
  ∃ d', ms_exec op d = Some (spec_out op slots, d') ∧ refines d' (λ s, spec_slot op s (slots s)).
Proof.
  intros Hr Hop. destruct op as [frag t addr aie|frag t|frag t|t|t|]; cbn [op_ok] in Hop.
  - destruct (first_ok frag t addr aie d slots) as (frag' & d' & Heq & Hr'); [done|apply Hop..|].
    exists d'. cbn [ms_exec]. by rewrite Heq.
  - destruct (more_ok false frag t d slots) as (frag' & d' & Heq & Hr'); [done|apply Hop..|].
    exists d'. cbn [ms_exec]. unfold ms_insert_next. by rewrite Heq.
  - destruct (more_ok true frag t d slots) as (frag' & d' & Heq & Hr'); [done|apply Hop..|].
    exists d'. cbn [ms_exec]. unfold ms_insert_last. by rewrite Heq.
  - by apply take_ok.
  - destruct (age_ok t d slots Hr) as (d' & Heq & Hr'). exists d'. cbn [ms_exec]. by rewrite Heq.
  - exists (ms_reset d). split; [done|]. destruct Hr as [Hlen Hall]. split; [cbn; by rewrite length_fmap|].
    cbn. intros ts b Hb. apply list_lookup_fmap_Some in Hb as (b0 & -> & _). split; [apply new_buf_ok|done].
Qed.

(** * Properties *)

Fixpoint ms_run (ops : list ms_op) (d : MsDefrag) : option (list ms_out * MsDefrag) :=
  match ops with
  | [] => Some ([], d)
  | op :: ops =>
      match ms_exec op d with
      | Some (o, d) => match ms_run ops d with Some (os, d) => Some (o :: os, d) | None => None end
      | None => None
      end
  end.

Fixpoint spec_run (ops : list ms_op) (slots : Z → ms_slot) : list ms_out :=
  match ops with
  | [] => []
  | op :: ops => spec_out op slots :: spec_run ops (λ s, spec_slot op s (slots s))
  end.

Lemma ms_run_ok ops : ∀ d slots, refines d slots → Forall op_ok ops →
  ∃ d', ms_run ops d = Some (spec_run ops slots, d').
Proof.
  induction ops as [|op ops IH]; intros d slots Hr Hops; [by eexists|]. apply Forall_cons in Hops as [Hop Hops].
  destruct (ms_exec_ok op d slots Hr Hop) as (d1 & Heq & Hr1).
  destruct (IH d1 _ Hr1 Hops) as (d' & Heq'). exists d'. cbn [ms_run spec_run]. by rewrite Heq, Heq'.
Qed.

Lemma refines_new : refines ms_new (λ _, SlotIdle).
Proof.
  split; [done|]. intros ts b Hb. assert (b = defrag_new) as ->; [|split; [apply new_buf_ok|done]].
  do 4 (destruct ts as [|ts]; [cbn in Hb; congruence|]). cbn in Hb. by destruct ts.
Qed.

(** The terminal's defragmenter refines one slot per timeslot that is idle,
    open with the bits received since the burst began, or done.  Whatever the
    order of first, next and last fragments, takes, ageing and resets in the four
    timeslots, no operation panics and every take returns exactly what the
    slots say: the address and all the bits of a completed burst (of at most
    4096 bits, no fragment more than 40 slots old), or nothing. *)
Theorem ms_defrag_refines_slots ops : Forall op_ok ops →
  ∃ d, ms_run ops ms_new = Some (spec_run ops (λ _, SlotIdle), d).
Proof. apply ms_run_ok, refines_new. Qed.

Definition test_burst : list ms_op :=
  [MsFirst (mkBitBuffer [0]%Z 0 0 3 false) (mkTime 3 1 1 0) (mkAddr 1234 Issi) None;
   MsNext (mkBitBuffer [255]%Z 0 0 3 false) (mkTime 3 2 1 0);
   MsLast (mkBitBuffer [48]%Z 0 0 4 false) (mkTime 3 3 1 0); MsTake (mkTime 3 3 1 0)].

Lemma ms_defrag_refines_slots_witness : ∃ d, ms_run test_burst ms_new =
  Some ([None; None; None; Some (mkAddr 1234 Issi, [false; false; false; true; true; true; false; false; true; true])], d).
Proof.
  apply (ms_defrag_refines_slots test_burst). repeat constructor; cbn; try lia; try (by vm_compute);
    repeat constructor; unfold is_u; lia.
Defined.

(** * The downlink *)

(** The pieces of an SDU in the order of their blocks. *)
Definition pieces (t : MacResourceAddrType) (r : MacResource) (w : bool) (bs bs' : list BitBuffer) (cs : list dl_chunk) : Prop :=
  cs ≠ [] ∧ ∀ i c, cs !! i = Some c → is_resource c = negb w && (i =? 0) ∧
    ∃ b b', b ∈ bs ∧ b' ∈ bs' ∧ abs b' = a_write (chunk_bits t c) (abs b) ∧
      chunk_ok t r (S i =? length cs) (get_len_remaining b) c.

Lemma pieces_skip t r w b bs bs' cs : pieces t r w bs bs' cs → pieces t r w (b :: bs) (b :: bs') cs.
Proof.
  intros [Hne Hcs]. split; [done|]. intros i c Hc. destruct (Hcs i c Hc) as (? & x & x' & ? & ? & ?).
  split; [done|]. exists x, x'. split; [by right|]. split; [by right|done].
Qed.

Lemma delivery_pieces t r hl w bs bs' sdu rest d : delivery t r hl w bs bs' sdu rest d → d = true →
  ∃ cs, sdu = mjoin (chunk_part <$> cs) ∧ pieces t r w bs bs' cs.
Proof.
  induction 1 as [w sdu|w b bs bs' sdu rest d _ _ IH|w b b' bs c Hr Hok Habs|w b b' bs bs' c sdu rest d Hr Hok Habs _ IH];
    intros Hd; [done| | |].
  - destruct (IH Hd) as (cs & ? & ?). exists cs. split; [done|by apply pieces_skip].
  - exists [c]. split; [cbn; by rewrite app_nil_r|]. split; [done|]. intros [|i] x Hx; [|done].
    injection Hx as <-. split; [by rewrite andb_true_r|]. exists b, b'. split; [by left|]. split; [by left|done].
  - destruct (IH Hd) as (cs & -> & Hne & Hcs). exists (c :: cs). split; [done|]. split; [done|].
    intros [|i] x Hx.
    + injection Hx as <-. split; [by rewrite andb_true_r|]. exists b, b'. split; [by left|]. split; [by left|].
      split; [done|]. by destruct cs.
    + destruct (Hcs i x Hx) as (Hres & y & y' & ? & ? & ? & ?). split; [by rewrite Hres, andb_false_r|].
      exists y, y'. split; [by right|]. split; [by right|done].
Qed.

(** A burst: the first fragment, the next ones, the last, and taking the result. *)
Fixpoint burst_rest (frags : list (BitBuffer * TdmaTime)) : list ms_op :=
  match frags with
  | [] => []
  | [(f, t)] => [MsLast f t; MsTake t]
  | (f, t) :: frags => MsNext f t :: burst_rest frags
  end.

Definition burst_ops (addr : TetraAddress) (aie : option Z) (frags : list (BitBuffer * TdmaTime)) : list ms_op :=
  match frags with [] => [] | (f, t) :: frags => MsFirst f t addr aie :: burst_rest frags end.

Definition frag_at (ts : Z) (ft : BitBuffer * TdmaTime) : Prop := wf ft.1 ∧ tt_t ft.2 = ts.
Definition frag_bits (frags : list (BitBuffer * TdmaTime)) : list bool := mjoin ((λ ft, remaining ft.1) <$> frags).

Lemma spec_burst_rest ts frags : ∀ slots b, frags ≠ [] → Forall (frag_at ts) frags → slots ts = SlotOpen b →
  length (bu_bits b ++ frag_bits frags) ≤ 4096 →
  ∃ outs, spec_run (burst_rest frags) slots = outs ++ [Some (bu_addr b, bu_bits b ++ frag_bits frags)].
Proof.
  induction frags as [|[f t] frags IH]; intros slots b Hne Hall Hs Hlen; [done|].
  apply Forall_cons in Hall as [[_ Ht] Hall]. cbn [fst snd] in Ht.
  assert (frag_bits ((f, t) :: frags) = remaining f ++ frag_bits frags) as Hfb by done. rewrite Hfb in *.
  assert (length (bu_bits b ++ remaining f) ≤ 4096) as Hle by (rewrite !length_app in *; lia).
  destruct frags as [|ft frags].
  - cbn [burst_rest spec_run spec_out spec_slot]. rewrite !Ht, Z.eqb_refl, Hs. cbn [more].
    rewrite (proj2 (Nat.leb_le _ _) Hle). cbn [bu_addr bu_bits]. exists [None].
    unfold frag_bits. cbn. by rewrite app_nil_r.
  - destruct (IH (λ s, spec_slot (MsNext f t) s (slots s)) (mkBurst (bu_addr b) t (bu_aie b) (bu_bits b ++ remaining f)))
      as [outs Houts]; [done|done| | |].
    { cbn [spec_slot]. rewrite Ht, Z.eqb_refl, Hs. cbn [more]. by rewrite (proj2 (Nat.leb_le _ _) Hle). }
    { cbn [bu_bits]. by rewrite <-app_assoc. }
    exists (None :: outs). cbn [bu_bits bu_addr] in Houts. rewrite <-app_assoc in Houts. cbn [app]. rewrite <-Houts. done.
Qed.

Lemma spec_run_app ops1 ops2 slots : ∃ slots', spec_run (ops1 ++ ops2) slots = spec_run ops1 slots ++ spec_run ops2 slots'.
Proof.
  revert slots. induction ops1 as [|op ops1 IH]; intros slots; [by exists slots|].
  destruct (IH (λ s, spec_slot op s (slots s))) as [slots' H]. exists slots'. cbn [app spec_run]. by rewrite H.
Qed.

Lemma burst_ops_ok ts addr aie frags : (1 ≤ ts ≤ 4)%Z → Forall (frag_at ts) frags → Forall op_ok (burst_ops addr aie frags).
Proof.
  intros Hts Hall. assert (∀ l, Forall (frag_at ts) l → Forall op_ok (burst_rest l)) as Hrest.
  { intros l Hl. induction l as [|[f t] l IH]; [constructor|]. apply Forall_cons in Hl as [[Hf Ht] Hl]. cbn [fst snd] in *.
    assert (1 ≤ tt_t t ≤ 4)%Z by lia. destruct l as [|ft l].
    - apply Forall_cons. split; [done|]. by apply Forall_singleton.
    - apply Forall_cons. split; [done|by apply IH]. }
  destruct frags as [|[f t] frags]; [constructor|]. apply Forall_cons in Hall as [[Hf Ht] Hl]. cbn [fst snd] in *.
  constructor; [cbn; split; [done|lia]|by apply Hrest].
Qed.

(** C27: the downlink delivers SDUs.  An SDU that the base station's fragmenter
    has sent to the end is the concatenation of the pieces in its MAC blocks, a
    MAC-RESOURCE first, then MAC-FRAGs and a MAC-END.  A terminal that receives
    these pieces (two or more, at most 4096 bits in all) in one timeslot,
    whatever it received before, hands out exactly the SDU. *)
Theorem downlink_delivers_sdu r t sdu tx blocks f f' blocks' : hdr_ok r t → wf sdu → get_pos sdu = 0 →
  (t = AtNullPdu → get_len_remaining sdu = 0) →
  (∀ rep, tx = Some rep → get_state rep = Pending ∧ reporter_ok rep) → Forall block_ok blocks →
  fragger_new r sdu tx = Some f → send_blocks f blocks = Some (true, f', blocks') →
  ∃ cs, remaining sdu = mjoin (chunk_part <$> cs) ∧ pieces t r false blocks blocks' cs ∧
    (2 ≤ length cs → get_len_remaining sdu ≤ 4096 →
     ∀ before ts addr aie frags, Forall op_ok before → (1 ≤ ts ≤ 4)%Z → Forall (frag_at ts) frags →
       (λ ft, remaining ft.1) <$> frags = chunk_part <$> cs →
       ∃ outs d, ms_run (before ++ burst_ops addr aie frags) ms_new = Some (outs ++ [Some (addr, remaining sdu)], d)).
Proof.
  intros Hh Hs Hpos Hnull Htx Hall Hnew Hsend.
  assert (f = mkFragger r false false sdu tx) as ->.
  { unfold fragger_new in Hnew. rewrite Hpos in Hnew. cbn in Hnew. congruence. }
  destruct (send_blocks_ok t r (hdr_len r t) blocks (mkFragger r false false sdu tx))
    as (d & f2 & bs2 & Hrun & Hdel & _); [|done|done| |done|done|].
  { split; try done. intros Ht. apply length_zero_iff_nil. cbn [bf_sdu]. rewrite length_remaining by done. by apply Hnull. }
  { unfold tx_pending. cbn. destruct tx as [rep|]; [|done]. destruct (Htx rep) as [E1 E2]; [done|].
    unfold reporter_ok in E2. by rewrite E2, E1. }
  rewrite Hsend in Hrun. injection Hrun as <- <- <-. cbn [bf_mac_hdr_is_written bf_sdu] in Hdel.
  destruct (delivery_pieces _ _ _ _ _ _ _ _ _ Hdel eq_refl) as (cs & Hcs & Hpc). exists cs. split_and!; [done..|].
  intros H2 Hlen before ts addr aie frags Hbef Hts Hfr Hparts.
  assert (frag_bits frags = remaining sdu) as Hbits by (unfold frag_bits; by rewrite Hparts, Hcs).
  destruct (ms_run_ok (before ++ burst_ops addr aie frags) ms_new (λ _, SlotIdle) refines_new) as [d Hd].
  { apply Forall_app. split; [done|]. by eapply burst_ops_ok. }
  destruct (spec_run_app before (burst_ops addr aie frags) (λ _, SlotIdle)) as [slots Hsplit].
  assert (length frags = length cs) as Hlf by (rewrite <-(length_fmap chunk_part cs), <-Hparts; by rewrite length_fmap).
  destruct frags as [|[f0 t0] frags]; [cbn in Hlf; lia|]. destruct frags as [|ft frags]; [cbn in Hlf; lia|].
  apply Forall_cons in Hfr as [[_ Ht0] Hfr]. cbn [fst snd] in Ht0.
  destruct (spec_burst_rest ts (ft :: frags) (λ s, spec_slot (MsFirst f0 t0 addr aie) s (slots s))
    (mkBurst addr t0 aie (remaining f0))) as [outs Houts]; [done|done| | |].
  { cbn [spec_slot]. by rewrite Ht0, Z.eqb_refl. }
  { cbn [bu_bits]. change (remaining f0 ++ frag_bits (ft :: frags)) with (frag_bits ((f0, t0) :: ft :: frags)).
    by rewrite Hbits, length_remaining. }
  exists (spec_run before (λ _, SlotIdle) ++ None :: outs), d. rewrite Hd, Hsplit. do 2 f_equal. rewrite <-app_assoc.
  f_equal. cbn [bu_bits bu_addr] in Houts.
  change (remaining f0 ++ frag_bits (ft :: frags)) with (frag_bits ((f0, t0) :: ft :: frags)) in Houts.
  rewrite Hbits in Houts. exact (f_equal (cons None) Houts).
Qed.

(** An SDU longer than every block is not sent in one piece. *)
Lemma pieces_two t r w bs bs' cs : pieces t r w bs bs' cs →
  Forall (λ b, get_len_remaining b < length (mjoin (chunk_part <$> cs))) bs → 2 ≤ length cs.
Proof.
  intros [Hne Hcs] Hbs. destruct cs as [|c [|c' cs]]; [done| |cbn; lia].
  destruct (Hcs 0 c eq_refl) as (_ & b & b' & Hb & _ & _ & Hlen & _). rewrite Forall_forall in Hbs. specialize (Hbs b Hb).
  cbn in Hbs. rewrite app_nil_r in Hbs.
  assert (length (chunk_part c) ≤ length (chunk_bits t c)) by (destruct c; cbn [chunk_part chunk_bits]; rewrite !length_app; lia). lia.
Qed.

(** Buffers with given bits, received in one timeslot. *)
Lemma frags_with x bits : length (mjoin bits) ≤ 4096 →
  ∃ frags, Forall (frag_at (tt_t x)) frags ∧ (λ ft, remaining ft.1) <$> frags = bits.
Proof.
  induction bits as [|l bits IH]; intros Hlen; [by exists []|]. change (mjoin (l :: bits)) with (l ++ mjoin bits) in Hlen. rewrite length_app in Hlen.
  destruct IH as (frags & Hall & <-); [lia|]. destruct (from_bitarr_ok l) as (bb & _ & Hbb); [apply fits_small; lia|].
  exists ((bb, x) :: frags). split; [by constructor; [split; [apply Hbb|]|]|]. cbn. f_equal. by apply holds_len.
Qed.

(** * Example *)

(** 300 bits, sent in blocks of 124 bits to a terminal that is in the middle of
    another burst in the same timeslot. *)
Definition test_sdu : BitBuffer := default (new 300) (from_bitarr (bitarr ((λ i, i * i / 3 mod 2 =? 1) <$> seq 0 300))).
Definition test_slot : TdmaTime := mkTime 2 5 7 0.
Definition test_before : list ms_op := [MsFirst (new 40) test_slot (mkAddr 77 Issi) None; MsNext (new 40) test_slot].

Lemma test_resource_ok : hdr_ok test_resource AtSsi.
Proof.
  split; [split; cbn; try done; intros; simplify_eq; unfold is_u; cbn; lia|].
  eapply (shape_ssi _ (mkAddr 1000001 Issi)); try done. by right; right.
Qed.

Lemma test_sdu_wf : wf test_sdu.
Proof.
  destruct (from_bitarr_ok ((λ i, i * i / 3 mod 2 =? 1) <$> seq 0 300)) as (bb & E & Hbb & _); [apply fits_small; by vm_compute; lia|].
  unfold test_sdu. by rewrite E.
Qed.

Lemma downlink_delivers_sdu_witness : ∃ f f' bs' cs frags outs d,
  fragger_new test_resource test_sdu None = Some f ∧ send_blocks f (replicate 27 (new 124)) = Some (true, f', bs') ∧
  pieces AtSsi test_resource false (replicate 27 (new 124)) bs' cs ∧ 2 ≤ length cs ∧ (λ ft, remaining ft.1) <$> frags = chunk_part <$> cs ∧
  ms_run (test_before ++ burst_ops (mkAddr 1000001 Issi) None frags) ms_new = Some (outs ++ [Some (mkAddr 1000001 Issi, remaining test_sdu)], d).
Proof.
  assert (∃ f f' bs', fragger_new test_resource test_sdu None = Some f ∧
    send_blocks f (replicate 27 (new 124)) = Some (true, f', bs')) as (f & f' & bs' & Hf & Hs).
  { eexists (mkFragger test_resource false false test_sdu None), _, _. split; [by vm_compute|]. vm_compute. reflexivity. }
  destruct (downlink_delivers_sdu test_resource AtSsi test_sdu None (replicate 27 (new 124)) f f' bs')
    as (cs & H1 & H2 & H3).
  - exact test_resource_ok.
  - exact test_sdu_wf.
  - by vm_compute.
  - discriminate.
  - discriminate.
  - apply Forall_replicate. apply new_block_ok. lia.
  - exact Hf.
  - exact Hs.
  - assert (length (mjoin (chunk_part <$> cs)) = 300) as Hlen by (rewrite <-H1; by vm_compute).
    assert (2 ≤ length cs) as Hcs.
    { eapply pieces_two; [exact H2|]. rewrite Hlen. apply Forall_replicate. cbn. lia. }
    destruct (frags_with test_slot (chunk_part <$> cs)) as (frags & Hfr & Hbits); [lia|].
    destruct (H3 Hcs ltac:(vm_compute; lia) test_before (tt_t test_slot) (mkAddr 1000001 Issi) None frags) as (outs & d & Hrun).
    + repeat constructor; cbn; try lia; apply wf_new; by vm_compute.
    + cbn. lia.
    + exact Hfr.
    + exact Hbits.
    + exists f, f', bs', cs, frags, outs, d. exact (conj Hf (conj Hs (conj H2 (conj Hcs (conj Hbits Hrun))))).
Defined.
