(* ===== verification/MacBcast.v ===== *)
(** Broadcast PDUs of the downlink (tetra-pdus): ACCESS-ASSIGN of the broadcast
    block, MAC-SYNC and MAC-SYSINFO with their elements (umac/pdus, umac/fields),
    and the MLE parts D-MLE-SYNC and D-MLE-SYSINFO that complete them (mle).

    [assert!], [unwrap] on [None] and [panic!] are panics; [assert_warn!] only
    logs.  [bool as u64] is [Z.b2z]. *)
From S2P Require Import Prelude Bits Core BitBuffer BitBufferSpec BitCodec BitBufferThms.
From S2P Require Import FieldCodec TdmaTime MacDl.

Definition read_flag (s : string) : B bool := v ← read_field 1 s; mret (negb (v =? 0)%Z).
Definition write_flag (b : bool) : B unit := write_bits (Z.b2z b) 1.

(** * Usage of a timeslot *)

Inductive AccessAssignDlUsage : Type :=
| DuUnallocated | DuAssignedControl | DuCommonControl | DuCommonAndAssigned | DuTraffic (chan : Z).

#[global] Instance AccessAssignDlUsage_eq_dec : EqDecision AccessAssignDlUsage.
Proof. solve_decision. Defined.

Definition du_from_usage_marker (field : Z) : AccessAssignDlUsage :=
  match field with
  | 0 => DuUnallocated | 1 => DuAssignedControl | 2 => DuCommonControl | 3 => DuCommonAndAssigned
  | _ => DuTraffic field
  end%Z.

Definition du_to_usage_marker (u : AccessAssignDlUsage) : Z :=
  match u with
  | DuUnallocated => 0 | DuAssignedControl => 1 | DuCommonControl => 2 | DuCommonAndAssigned => 3
  | DuTraffic chan => chan
  end.

Inductive AccessAssignUlUsage : Type :=
| UuCommonOnly | UuCommonAndAssigned | UuAssignedOnly | UuUnallocated | UuTraffic (chan : Z).

#[global] Instance AccessAssignUlUsage_eq_dec : EqDecision AccessAssignUlUsage.
Proof. solve_decision. Defined.

Definition uu_from_usage_marker (field : Z) : option AccessAssignUlUsage :=
  if (field =? 0)%Z then Some UuUnallocated
  else if (field <? 4)%Z then None else Some (UuTraffic field).

Definition uu_to_usage_marker (u : AccessAssignUlUsage) : option Z :=
  match u with UuUnallocated => Some 0%Z | UuTraffic chan => Some chan | _ => None end.

Definition uu_is_traffic (u : AccessAssignUlUsage) : bool :=
  match u with UuTraffic _ => true | _ => false end.

(** * ACCESS-ASSIGN *)

Record AccessField : Type := mkAccessField { af_access_code : Z; af_base_frame_len : Z }.

Record AccessAssign : Type := mkAccessAssign {
  aa_header : Z;
  aa_dl_usage : AccessAssignDlUsage;
  aa_ul_usage : AccessAssignUlUsage;
  aa_f1_af1 : option AccessField;
  aa_f2_af2 : option AccessField;
  aa_f2_af : option AccessField
}.

Definition access_assign_default : AccessAssign :=
  mkAccessAssign 0 DuCommonControl UuCommonOnly None None None.

(** [AccessField { access_code: (field >> 4) & 0x3, base_frame_len: field & 0xF }] *)
Definition split_access_field (field : Z) : AccessField :=
  mkAccessField (Z.land (Z.shiftr field 4) 3) (Z.land field 15).

Definition access_assign_from_bitbuf : B AccessAssign :=
  _header ← read_field 2 "_header";
  field1 ← read_field 6 "field1";
  field2 ← read_field 6 "field2";
  let f1 := split_access_field field1 in
  let f2 := split_access_field field2 in
  match wrap 8 _header with
  | 0 => mret (mkAccessAssign 0 DuCommonControl UuCommonOnly (Some f1) (Some f2) None)
  | 1 => mret (mkAccessAssign 1 (du_from_usage_marker (wrap 8 field1)) UuCommonAndAssigned None None (Some f2))
  | 2 => mret (mkAccessAssign 2 (du_from_usage_marker (wrap 8 field1)) UuAssignedOnly None None (Some f2))
  | 3 => ul_usage ← ok_or (uu_from_usage_marker (wrap 8 field2)) (InvalidValue "ul_usage" field2);
         mret (mkAccessAssign 3 (du_from_usage_marker (wrap 8 field1)) ul_usage None None None)
  | _ => panic
  end%Z.

Definition DEFAULT_AF : AccessField := mkAccessField 0 4.

Definition write_access_field (af : AccessField) : B unit :=
  write_bits (af_access_code af) 2;; write_bits (af_base_frame_len af) 4.

Definition access_assign_to_bitbuf (p : AccessAssign) : B unit :=
  if bool_decide (aa_dl_usage p = DuCommonControl) && bool_decide (aa_ul_usage p = UuCommonOnly) then
    assert_ (is_some (aa_f1_af1 p) && is_some (aa_f2_af2 p));;
    assert_ (is_none (aa_f2_af p));;
    write_bits 0 2;;
    af1 ← unwrap (aa_f1_af1 p); write_access_field af1;;
    af2 ← unwrap (aa_f2_af2 p); write_access_field af2
  else if bool_decide (aa_ul_usage p = UuCommonAndAssigned) then
    write_bits 1 2;;
    write_bits (du_to_usage_marker (aa_dl_usage p)) 6;;
    write_access_field (default DEFAULT_AF (aa_f2_af p))
  else if bool_decide (aa_ul_usage p = UuAssignedOnly) then
    write_bits 2 2;;
    write_bits (du_to_usage_marker (aa_dl_usage p)) 6;;
    write_access_field (default DEFAULT_AF (aa_f2_af p))
  else
    write_bits 3 2;;
    ul_usage ← unwrap (uu_to_usage_marker (aa_ul_usage p));
    write_bits (du_to_usage_marker (aa_dl_usage p)) 6;;
    write_bits ul_usage 6.

(** * ACCESS-ASSIGN of frame 18 *)

Record AccessAssignFr18 : Type := mkAccessAssignFr18 {
  af18_header : Z;
  af18_ul_usage : AccessAssignUlUsage;
  af18_f1_af1 : option AccessField;
  af18_f1_traf_um : option AccessAssignUlUsage;
  af18_f2_af2 : option AccessField;
  af18_f2_af : option AccessField
}.

Definition access_assign_fr18_from_bitbuf : B AccessAssignFr18 :=
  _header ← read_field 2 "_header";
  field1 ← read_field 6 "field1";
  field2 ← read_field 6 "field2";
  let f1 := split_access_field field1 in
  let f2 := split_access_field field2 in
  match wrap 8 _header with
  | 0 => mret (mkAccessAssignFr18 0 UuCommonOnly (Some f1) None (Some f2) None)
  | 1 => mret (mkAccessAssignFr18 1 UuCommonAndAssigned (Some f1) None (Some f2) None)
  | 2 => mret (mkAccessAssignFr18 2 UuAssignedOnly (Some f1) None (Some f2) None)
  | 3 => ul_usage ← ok_or (uu_from_usage_marker (wrap 8 field1)) (InvalidValue "ul_usage" field1);
         if negb (uu_is_traffic ul_usage) then fail (InvalidValue "ul_usage" field1)
         else mret (mkAccessAssignFr18 3 ul_usage None None None (Some f2))
  | _ => panic
  end%Z.

(** The three branches without traffic: the header and both access fields. *)
Definition write_two_access_fields (header : Z) (p : AccessAssignFr18) : B unit :=
  write_bits header 2;;
  af1 ← unwrap (af18_f1_af1 p); write_access_field af1;;
  af2 ← unwrap (af18_f2_af2 p); write_access_field af2;;
  assert_ (is_none (af18_f2_af p)).

Definition access_assign_fr18_to_bitbuf (p : AccessAssignFr18) : B unit :=
  match af18_ul_usage p with
  | UuCommonOnly => write_two_access_fields 0 p
  | UuCommonAndAssigned => write_two_access_fields 1 p
  | UuAssignedOnly => write_two_access_fields 2 p
  | UuTraffic _ =>
      write_bits 3 2;;
      ul_usage ← unwrap (uu_to_usage_marker (af18_ul_usage p));
      write_bits ul_usage 6;;
      af ← unwrap (af18_f2_af p); write_access_field af;;
      assert_ (is_none (af18_f1_af1 p));;
      assert_ (is_none (af18_f2_af2 p))
  | UuUnallocated => panic
  end.

(** * MAC-SYNC and D-MLE-SYNC *)

Record MacSync : Type := mkMacSync {
  ms_system_code : Z;
  ms_colour_code : Z;
  ms_time : TdmaTime;
  ms_sharing_mode : Z;
  ms_ts_reserved_frames : Z;
  ms_u_plane_dtx : bool;
  ms_frame_18_ext : bool
}.

Definition mac_sync_from_bitbuf : B MacSync :=
  system_code ← read_field 4 "system_code";
  colour_code ← read_field 6 "colour_code";
  t ← read_field 2 "timeslot_number";
  f ← read_field 5 "frame_number";
  m ← read_field 6 "multiframe_number";
  sharing_mode ← read_field 2 "sharing_mode";
  ts_reserved_frames ← read_field 3 "ts_reserved_frames";
  u_plane_dtx ← read_flag "u_plane_dtx";
  frame_18_ext ← read_flag "frame_18_ext";
  _ ← read_field 1 "reserved";
  mret (mkMacSync (wrap 8 system_code) (wrap 8 colour_code) (mkTime (wrap 8 t + 1) (wrap 8 f) (wrap 8 m) 0)
          (wrap 8 sharing_mode) (wrap 8 ts_reserved_frames) u_plane_dtx frame_18_ext).

(** [self.time.t as u64 - 1]: the subtraction panics for timeslot 0. *)
Definition mac_sync_to_bitbuf (p : MacSync) : B unit :=
  write_bits (ms_system_code p) 4;;
  write_bits (ms_colour_code p) 6;;
  assert_ (1 <=? tt_t (ms_time p))%Z;;
  write_bits (tt_t (ms_time p) - 1) 2;;
  write_bits (tt_f (ms_time p)) 5;;
  write_bits (tt_m (ms_time p)) 6;;
  write_bits (ms_sharing_mode p) 2;;
  write_bits (ms_ts_reserved_frames p) 3;;
  write_flag (ms_u_plane_dtx p);;
  write_flag (ms_frame_18_ext p);;
  write_bits 0 1.

Record DMleSync : Type := mkDMleSync {
  dms_mcc : Z;
  dms_mnc : Z;
  dms_neighbor_cell_broadcast : Z;
  dms_cell_load_ca : Z;
  dms_late_entry_supported : bool
}.

Definition d_mle_sync_from_bitbuf : B DMleSync :=
  mcc ← read_field 10 "mcc";
  mnc ← read_field 14 "mnc";
  neighbor_cell_broadcast ← read_field 2 "neighbor_cell_broadcast";
  cell_load_ca ← read_field 2 "cell_load_ca";
  late_entry_supported ← read_flag "late_entry_supported";
  mret (mkDMleSync (wrap 16 mcc) (wrap 16 mnc) (wrap 8 neighbor_cell_broadcast) (wrap 8 cell_load_ca)
          late_entry_supported).

Definition d_mle_sync_to_bitbuf (p : DMleSync) : B unit :=
  write_bits (dms_mcc p) 10;;
  write_bits (dms_mnc p) 14;;
  write_bits (dms_neighbor_cell_broadcast p) 2;;
  write_bits (dms_cell_load_ca p) 2;;
  write_flag (dms_late_entry_supported p).

(** * Elements of MAC-SYSINFO *)

Record TsCommonFrames : Type := mkTsCommonFrames {
  tcf1 : bool; tcf2 : bool; tcf3 : bool; tcf4 : bool; tcf5 : bool; tcf6 : bool;
  tcf7 : bool; tcf8 : bool; tcf9 : bool; tcf10 : bool; tcf11 : bool; tcf12 : bool;
  tcf13 : bool; tcf14 : bool; tcf15 : bool; tcf16 : bool; tcf17 : bool; tcf18 : bool
}.

Definition ts_common_frames_from_bitbuf : B TsCommonFrames :=
  f1 ← read_flag "f1"; f2 ← read_flag "f2"; f3 ← read_flag "f3"; f4 ← read_flag "f4";
  f5 ← read_flag "f5"; f6 ← read_flag "f6"; f7 ← read_flag "f7"; f8 ← read_flag "f8";
  f9 ← read_flag "f9"; f10 ← read_flag "f10"; f11 ← read_flag "f11"; f12 ← read_flag "f12";
  f13 ← read_flag "f13"; f14 ← read_flag "f14"; f15 ← read_flag "f15"; f16 ← read_flag "f16";
  f17 ← read_flag "f17"; f18 ← read_flag "f18";
  _ ← read_field 2 "reserved";
  mret (mkTsCommonFrames f1 f2 f3 f4 f5 f6 f7 f8 f9 f10 f11 f12 f13 f14 f15 f16 f17 f18).

Definition ts_common_frames_to_bitbuf (p : TsCommonFrames) : B unit :=
  write_flag (tcf1 p);; write_flag (tcf2 p);; write_flag (tcf3 p);; write_flag (tcf4 p);;
  write_flag (tcf5 p);; write_flag (tcf6 p);; write_flag (tcf7 p);; write_flag (tcf8 p);;
  write_flag (tcf9 p);; write_flag (tcf10 p);; write_flag (tcf11 p);; write_flag (tcf12 p);;
  write_flag (tcf13 p);; write_flag (tcf14 p);; write_flag (tcf15 p);; write_flag (tcf16 p);;
  write_flag (tcf17 p);; write_flag (tcf18 p);;
  write_bits 0 2.

Record SysinfoDefaultDefForAccessCodeA : Type := mkAccessCodeA {
  sda_imm : Z; sda_wt : Z; sda_nu : Z; sda_fl_factor : bool; sda_ts_ptr : Z; sda_min_pdu_prio : Z
}.

Definition access_code_a_from_bitbuf : B SysinfoDefaultDefForAccessCodeA :=
  imm ← read_field 4 "imm";
  wt ← read_field 4 "wt";
  nu ← read_field 4 "nu";
  fl_factor ← read_flag "fl_factor";
  ts_ptr ← read_field 4 "ts_ptr";
  min_pdu_prio ← read_field 3 "min_pdu_prio";
  mret (mkAccessCodeA (wrap 8 imm) (wrap 8 wt) (wrap 8 nu) fl_factor (wrap 8 ts_ptr) (wrap 8 min_pdu_prio)).

Definition access_code_a_to_bitbuf (p : SysinfoDefaultDefForAccessCodeA) : B unit :=
  write_bits (sda_imm p) 4;;
  write_bits (sda_wt p) 4;;
  write_bits (sda_nu p) 4;;
  write_flag (sda_fl_factor p);;
  write_bits (sda_ts_ptr p) 4;;
  write_bits (sda_min_pdu_prio p) 3.

Record SysinfoExtendedServices : Type := mkExtServices {
  ses_auth_required : bool;
  ses_class1_supported : bool;
  ses_class2_supported : bool;
  ses_class3_supported : bool;
  ses_sck_n : option Z;
  ses_dck_retrieval_during_cell_select : option bool;
  ses_dck_retrieval_during_cell_reselect : option bool;
  ses_linked_gck_crypto_periods : option bool;
  ses_short_gck_vn : option Z;
  ses_sdstl_addressing_method : Z;
  ses_gck_supported : bool;
  ses_section : Z;
  ses_section_data : Z
}.

Definition ext_services_from_bitbuf (aie_enabled : bool) : B SysinfoExtendedServices :=
  auth_required ← read_flag "auth_required";
  '(class1_supported, class2_supported, class3_supported) ←
    (if aie_enabled then
       class1 ← read_field 1 "class1_supported";
       class2 ← read_field 1 "class2_supported";
       mret (class1 =? 1, class2 =? 0, negb (class2 =? 0))%Z
     else _ ← read_field 2 "security_classes_reserved"; mret (false, false, false));
  '(sck_n, dck_select, dck_reselect, linked_gck, short_gck) ←
    (if (class2_supported : bool) then
       sck ← read_field 5 "sck_n"; mret (Some (wrap 8 sck), None, None, None, None)
     else if (class3_supported : bool) then
       dck_select ← read_flag "dck_retrieval_during_cell_select";
       dck_reselect ← read_flag "dck_retrieval_during_cell_reselect";
       linked_gck ← read_flag "linked_gck_crypto_periods";
       short_gck ← read_field 2 "short_gck_vn";
       mret (None, Some dck_select, Some dck_reselect, Some linked_gck, Some (wrap 8 short_gck))
     else _ ← read_field 5 "security_info_reserved"; mret (None, None, None, None, None));
  sdstl_addressing_method ← read_field 2 "sdstl_addressing_method";
  gck_supported ← read_flag "gck_supported";
  section ← read_field 2 "section";
  section_data ← read_field 7 "section_data";
  mret (mkExtServices auth_required class1_supported class2_supported class3_supported sck_n dck_select
          dck_reselect linked_gck short_gck (wrap 8 sdstl_addressing_method) gck_supported (wrap 8 section)
          (wrap 8 section_data)).

Definition ext_services_to_bitbuf (p : SysinfoExtendedServices) : B unit :=
  assert_ (negb (ses_class2_supported p && ses_class3_supported p));;
  write_flag (ses_auth_required p);;
  write_flag (ses_class1_supported p);;
  write_flag (ses_class3_supported p);;
  (if ses_class2_supported p then sck_n ← unwrap (ses_sck_n p); write_bits sck_n 5
   else if ses_class3_supported p then
     a ← unwrap (ses_dck_retrieval_during_cell_select p); write_flag a;;
     b ← unwrap (ses_dck_retrieval_during_cell_reselect p); write_flag b;;
     c ← unwrap (ses_linked_gck_crypto_periods p); write_flag c;;
     d ← unwrap (ses_short_gck_vn p); write_bits d 2
   else write_bits 0 5);;
  write_bits (ses_sdstl_addressing_method p) 2;;
  write_flag (ses_gck_supported p);;
  write_bits (ses_section p) 2;;
  write_bits (ses_section_data p) 7.

(** * MAC-SYSINFO *)

Inductive SysinfoOptFieldFlag : Type :=
| EvenMfDefForTsMode | OddMfDefForTsMode | DefaultDefForAccCodeA | ExtServicesBroadcast.

Definition opt_field_try_from (x : Z) : option SysinfoOptFieldFlag :=
  match x with
  | 0 => Some EvenMfDefForTsMode | 1 => Some OddMfDefForTsMode
  | 2 => Some DefaultDefForAccCodeA | 3 => Some ExtServicesBroadcast | _ => None
  end%Z.

Definition opt_field_into_raw (f : SysinfoOptFieldFlag) : Z :=
  match f with
  | EvenMfDefForTsMode => 0 | OddMfDefForTsMode => 1 | DefaultDefForAccCodeA => 2 | ExtServicesBroadcast => 3
  end.

Record MacSysinfo : Type := mkMacSysinfo {
  si_main_carrier : Z;
  si_freq_band : Z;
  si_freq_offset_index : Z;
  si_duplex_spacing : Z;
  si_reverse_operation : bool;
  si_num_of_csch : Z;
  si_ms_txpwr_max_cell : Z;
  si_rxlev_access_min : Z;
  si_access_parameter : Z;
  si_radio_dl_timeout : Z;
  si_cck_id : option Z;
  si_hyperframe_number : option Z;
  si_option_field : SysinfoOptFieldFlag;
  si_ts_common_frames : option TsCommonFrames;
  si_default_access_code : option SysinfoDefaultDefForAccessCodeA;
  si_ext_services : option SysinfoExtendedServices
}.

(** The definitions for TS mode are skipped ([seek_rel(20)]). *)
Definition mac_sysinfo_from_bitbuf : B MacSysinfo :=
  _ ← read_field 2 "pdu_type";
  _ ← read_field 2 "pdu_subtype";
  main_carrier ← read_field 12 "main_carrier";
  freq_band ← read_field 4 "freq_band";
  freq_offset_index ← read_field 2 "freq_offset";
  duplex_spacing ← read_field 3 "duplex_spacing";
  reverse_operation ← read_flag "reverse_operation";
  num_of_csch ← read_field 2 "num_of_csch";
  ms_txpwr_max_cell ← read_field 3 "ms_txpwr_max_cell";
  rxlev_access_min ← read_field 4 "rxlev_access_min";
  access_parameter ← read_field 4 "access_parameter";
  radio_dl_timeout ← read_field 4 "radio_dl_timeout";
  has_cck_field ← read_field 1 "has_cck_field";
  '(cck_id, hyperframe_number) ←
    (if (has_cck_field =? 1)%Z then v ← read_field 16 "cck_id"; mret (Some (wrap 16 v), None)
     else v ← read_field 16 "hyperframe_number"; mret (None, Some (wrap 16 v)));
  bits ← read_field 2 "option_field";
  option_field ← try_enum (opt_field_try_from bits) "option_field" bits;
  '(default_access_code, ext_services) ←
    match option_field with
    | EvenMfDefForTsMode => seek_rel 20;; mret (None, None)
    | OddMfDefForTsMode => seek_rel 20;; mret (None, None)
    | DefaultDefForAccCodeA => a ← access_code_a_from_bitbuf; mret (Some a, None)
    | ExtServicesBroadcast => e ← ext_services_from_bitbuf true; mret (None, Some e)
    end;
  mret (mkMacSysinfo (wrap 16 main_carrier) (wrap 8 freq_band) (wrap 8 freq_offset_index) (wrap 8 duplex_spacing)
          reverse_operation (wrap 8 num_of_csch) (wrap 8 ms_txpwr_max_cell) (wrap 8 rxlev_access_min)
          (wrap 8 access_parameter) (wrap 8 radio_dl_timeout) cck_id hyperframe_number option_field None
          default_access_code ext_services).

Definition write_option_field (p : MacSysinfo) : B unit :=
  match si_option_field p with
  | EvenMfDefForTsMode =>
      assert_ (is_none (si_default_access_code p));; assert_ (is_none (si_ext_services p))
  | OddMfDefForTsMode =>
      assert_ (is_none (si_default_access_code p));; assert_ (is_none (si_ext_services p));;
      f ← unwrap (si_ts_common_frames p); ts_common_frames_to_bitbuf f
  | DefaultDefForAccCodeA =>
      assert_ (is_none (si_ts_common_frames p));; assert_ (is_none (si_ext_services p));;
      a ← unwrap (si_default_access_code p); access_code_a_to_bitbuf a
  | ExtServicesBroadcast =>
      assert_ (is_none (si_ts_common_frames p));; assert_ (is_none (si_default_access_code p));;
      e ← unwrap (si_ext_services p); ext_services_to_bitbuf e
  end.

Definition mac_sysinfo_to_bitbuf (p : MacSysinfo) : B unit :=
  write_bits 2 2;;
  write_bits 0 2;;
  write_bits (si_main_carrier p) 12;;
  write_bits (si_freq_band p) 4;;
  write_bits (si_freq_offset_index p) 2;;
  write_bits (si_duplex_spacing p) 3;;
  write_flag (si_reverse_operation p);;
  write_bits (si_num_of_csch p) 2;;
  write_bits (si_ms_txpwr_max_cell p) 3;;
  write_bits (si_rxlev_access_min p) 4;;
  write_bits (si_access_parameter p) 4;;
  write_bits (si_radio_dl_timeout p) 4;;
  assert_ (xorb (is_some (si_cck_id p)) (is_some (si_hyperframe_number p)));;
  (match si_cck_id p with
   | Some cck_id => write_bits 1 1;; write_bits cck_id 16
   | None => write_bits 0 1;; h ← unwrap (si_hyperframe_number p); write_bits h 16
   end);;
  write_bits (opt_field_into_raw (si_option_field p)) 2;;
  write_option_field p.

(** * D-MLE-SYSINFO *)

Record BsServiceDetails : Type := mkBsServiceDetails {
  bsd_registration : bool;
  bsd_deregistration : bool;
  bsd_priority_cell : bool;
  bsd_no_minimum_mode : bool;
  bsd_migration : bool;
  bsd_system_wide_services : bool;
  bsd_voice_service : bool;
  bsd_circuit_mode_data_service : bool;
  bsd_sndcp_service : bool;
  bsd_aie_service : bool;
  bsd_advanced_link : bool
}.

Definition bs_service_details_from_bitbuf : B BsServiceDetails :=
  registration ← read_flag "registration";
  deregistration ← read_flag "deregistration";
  priority_cell ← read_flag "priority_cell";
  no_minimum_mode ← read_flag "no_minimum_mode";
  migration ← read_flag "migration";
  system_wide_services ← read_flag "system_wide_services";
  voice_service ← read_flag "voice_service";
  circuit_mode_data_service ← read_flag "circuit_mode_data_service";
  _ ← read_field 1 "reserved";
  sndcp_service ← read_flag "sndcp_service";
  aie_service ← read_flag "aie_service";
  advanced_link ← read_flag "advanced_link";
  mret (mkBsServiceDetails registration deregistration priority_cell no_minimum_mode migration
          system_wide_services voice_service circuit_mode_data_service sndcp_service aie_service advanced_link).

Definition bs_service_details_to_bitbuf (p : BsServiceDetails) : B unit :=
  write_flag (bsd_registration p);;
  write_flag (bsd_deregistration p);;
  write_flag (bsd_priority_cell p);;
  write_flag (bsd_no_minimum_mode p);;
  write_flag (bsd_migration p);;
  write_flag (bsd_system_wide_services p);;
  write_flag (bsd_voice_service p);;
  write_flag (bsd_circuit_mode_data_service p);;
  write_bits 0 1;;
  write_flag (bsd_sndcp_service p);;
  write_flag (bsd_aie_service p);;
  write_flag (bsd_advanced_link p).

Record DMleSysinfo : Type := mkDMleSysinfo {
  dmi_location_area : Z;
  dmi_subscriber_class : Z;
  dmi_bs_service_details : BsServiceDetails
}.

Definition d_mle_sysinfo_from_bitbuf : B DMleSysinfo :=
  location_area ← read_field 14 "location_area";
  subscriber_class ← read_field 16 "subscriber_class";
  bs_service_details ← bs_service_details_from_bitbuf;
  mret (mkDMleSysinfo (wrap 16 location_area) (wrap 16 subscriber_class) bs_service_details).

Definition d_mle_sysinfo_to_bitbuf (p : DMleSysinfo) : B unit :=
  write_bits (dmi_location_area p) 14;;
  write_bits (dmi_subscriber_class p) 16;;
  bs_service_details_to_bitbuf (dmi_bs_service_details p).
