(* ===== verification/MacBcastSpec.v ===== *)
(** Broadcast PDUs on the wire: the layout of each PDU, and that writing and
    parsing follow it.  The broadcast block of a slot is 14 bits long, the
    synchronisation block 60 bits, the system information block 124 bits. *)
From S2P Require Import Prelude Bits Core BitBuffer BitBufferSpec BitCodec BitBufferThms.
From S2P Require Import FieldCodec PduCodec TdmaTime MacDl MacDlSpec MacBcast.

(** * Walking along a layout *)

Lemma reads_flag_then {C} b s (k : bool → B C) fs c : reads (k b) (fields_bits fs) c →
  reads (read_flag s ≫= k) (fields_bits ((Z.b2z b, 1) :: fs)) c.
Proof.
  intros Hk bb Hwf Hpre. unfold read_flag. rewrite bind_assoc. revert bb Hwf Hpre.
  apply reads_field_then; [lia|apply b2z_is_u|]. intros bb Hwf Hpre. erewrite bind_ok by done.
  rewrite b2z_nonzero. by apply Hk.
Qed.

(** [x as u8] or [x as u16] of parsed values that fit. *)
Ltac fits := rewrite ?(wrap_fits _ 8), ?(wrap_fits _ 16) by (eassumption || lia).

Ltac wwalk := unfold write_flag, write_access_field; repeat first
  [ wstep | eapply writes_pure; [apply pure_unwrap; first [done|eassumption]|] ].
Ltac rwalk := repeat first [ apply reads_flag_then | rstep ].

(** * ACCESS-ASSIGN *)

Definition af_ok (a : AccessField) : Prop := is_u 2 (af_access_code a) ∧ is_u 4 (af_base_frame_len a).
Definition af_val (a : AccessField) : Z := (af_access_code a * 16 + af_base_frame_len a)%Z.

Lemma af_val_ok a : af_ok a → is_u 6 (af_val a) ∧ split_access_field (af_val a) = a.
Proof.
  intros [[Hc1 Hc2] [Hb1 Hb2]]. destruct a as [c b]. unfold af_val, split_access_field.
  cbn [af_access_code af_base_frame_len] in *. change (2 ^ 2)%Z with 4%Z in *. change (2 ^ 4)%Z with 16%Z in *.
  split; [unfold is_u; lia|]. f_equal.
  - rewrite Z.shiftr_div_pow2 by lia. change 3%Z with (Z.ones 2). rewrite Z.land_ones by lia.
    change (2 ^ 4)%Z with 16%Z. change (2 ^ 2)%Z with 4%Z. rewrite Z.div_add_l, (Z.div_small b) by lia.
    rewrite Z.add_0_r, Z.mod_small; lia.
  - change 15%Z with (Z.ones 4). rewrite Z.land_ones by lia. change (2 ^ 4)%Z with 16%Z.
    rewrite Z.add_comm, Z.mod_add, Z.mod_small; lia.
Qed.

Lemma af_bits a fs : af_ok a →
  fields_bits ((af_access_code a, 2) :: (af_base_frame_len a, 4) :: fs) = fields_bits ((af_val a, 6) :: fs).
Proof.
  intros [[Hc1 Hc2] [Hb1 Hb2]]. rewrite !fields_bits_cons, app_assoc. f_equal.
  change 6 with (2 + 4). rewrite bits_of_Z_app. f_equal; apply bits_of_Z_ext; intros i Hi; unfold af_val.
  - rewrite Z.shiftr_div_pow2 by lia. change (2 ^ Z.of_nat 4)%Z with 16%Z. change (2 ^ 4)%Z with 16%Z in *.
    by rewrite Z.div_add_l, (Z.div_small (af_base_frame_len a)), Z.add_0_r by lia.
  - rewrite <-(Z.mod_pow2_bits_low _ 4) by lia.
    rewrite <-(Z.mod_pow2_bits_low (_ * 16 + _) 4) by lia. change (2 ^ 4)%Z with 16%Z.
    by rewrite Z.add_comm, Z.mod_add by lia.
Qed.

(** A usage marker that names its usage: 0 to 3 have meanings of their own. *)
Definition du_ok (u : AccessAssignDlUsage) : Prop := match u with DuTraffic c => (4 ≤ c < 64)%Z | _ => True end.
Definition uu_ok (u : AccessAssignUlUsage) : Prop := match u with UuTraffic c => (4 ≤ c < 64)%Z | _ => True end.

Lemma du_marker u : du_ok u → is_u 6 (du_to_usage_marker u) ∧ du_from_usage_marker (du_to_usage_marker u) = u.
Proof.
  destruct u as [| | | |c]; cbn; [split; [unfold is_u; lia|done]..|]. intros Hc. split; [unfold is_u; lia|].
  unfold du_from_usage_marker. destruct c as [|[[?|?|]|[?|?|]|]|]; try lia; done.
Qed.

Lemma uu_marker c : (4 ≤ c < 64)%Z → is_u 6 c ∧ uu_from_usage_marker c = Some (UuTraffic c).
Proof.
  intros Hc. split; [unfold is_u; lia|]. unfold uu_from_usage_marker.
  destruct (Z.eqb_spec c 0), (Z.ltb_spec c 4); try lia. done.
Qed.

Record aa_valid (p : AccessAssign) : Prop := {
  aav_dl : du_ok (aa_dl_usage p);
  aav_ul : uu_ok (aa_ul_usage p);
  aav_af1 a : aa_f1_af1 p = Some a → af_ok a;
  aav_af2 a : aa_f2_af2 p = Some a → af_ok a;
  aav_af a : aa_f2_af p = Some a → af_ok a;
  aav_common : aa_ul_usage p = UuCommonOnly → aa_dl_usage p = DuCommonControl ∧
    is_Some (aa_f1_af1 p) ∧ is_Some (aa_f2_af2 p) ∧ aa_f2_af p = None
}.

(** What a terminal sees: the access fields the header has room for. *)
Definition aa_canon (p : AccessAssign) : AccessAssign :=
  match aa_ul_usage p with
  | UuCommonOnly => mkAccessAssign 0 DuCommonControl UuCommonOnly (aa_f1_af1 p) (aa_f2_af2 p) None
  | UuCommonAndAssigned =>
      mkAccessAssign 1 (aa_dl_usage p) UuCommonAndAssigned None None (Some (default DEFAULT_AF (aa_f2_af p)))
  | UuAssignedOnly =>
      mkAccessAssign 2 (aa_dl_usage p) UuAssignedOnly None None (Some (default DEFAULT_AF (aa_f2_af p)))
  | u => mkAccessAssign 3 (aa_dl_usage p) u None None None
  end.

Definition opt_af_val (o : option AccessField) : Z := from_option af_val 0%Z o.

Definition aa_fields (p : AccessAssign) : fields :=
  match aa_ul_usage p with
  | UuCommonOnly => [(0%Z, 2); (opt_af_val (aa_f1_af1 p), 6); (opt_af_val (aa_f2_af2 p), 6)]
  | UuCommonAndAssigned =>
      [(1%Z, 2); (du_to_usage_marker (aa_dl_usage p), 6); (af_val (default DEFAULT_AF (aa_f2_af p)), 6)]
  | UuAssignedOnly =>
      [(2%Z, 2); (du_to_usage_marker (aa_dl_usage p), 6); (af_val (default DEFAULT_AF (aa_f2_af p)), 6)]
  | u => [(3%Z, 2); (du_to_usage_marker (aa_dl_usage p), 6); (default 0%Z (uu_to_usage_marker u), 6)]
  end.

Lemma aa_fields_len p : fields_len (aa_fields p) = 14.
Proof. unfold aa_fields. by destruct (aa_ul_usage p). Qed.

Lemma default_af_ok p : aa_valid p → af_ok (default DEFAULT_AF (aa_f2_af p)).
Proof.
  intros Hv. destruct (aa_f2_af p) as [a|] eqn:Ha; [by apply (aav_af _ Hv)|].
  split; unfold is_u; cbn; lia.
Qed.

Lemma write_af_field a (k : unit → B unit) fs : af_ok a → writes (k tt) (fields_bits fs) →
  writes (write_access_field a ≫= k) (fields_bits ((af_val a, 6) :: fs)).
Proof.
  intros Ha Hk. rewrite <-af_bits by done. destruct Ha.
  change ((af_access_code a, 2) :: (af_base_frame_len a, 4) :: fs)
    with ([(af_access_code a, 2); (af_base_frame_len a, 4)] ++ fs).
  apply writes_elem; [|done]. unfold write_access_field. wstep. wstep.
Qed.

Lemma write_last_af a : af_ok a → writes (write_access_field a) (fields_bits [(af_val a, 6)]).
Proof. intros Ha. rewrite <-af_bits by done. destruct Ha. unfold write_access_field. wstep. wstep. Qed.

Lemma aa_writes p : aa_valid p → writes (access_assign_to_bitbuf p) (fields_bits (aa_fields p)).
Proof.
  intros Hv. pose proof (default_af_ok p Hv) as Haf. destruct (du_marker _ (aav_dl _ Hv)) as [Hd _].
  pose proof (aav_ul _ Hv) as Hu. pose proof (aav_common _ Hv) as Hc.
  unfold access_assign_to_bitbuf, aa_fields. destruct (aa_ul_usage p) as [| | | |c] eqn:Eu.
  - destruct Hc as (Hdl & [a1 H1] & [a2 H2] & H3); [done|]. rewrite Hdl, H1, H2, H3.
    rewrite !bool_decide_true by done. cbn [andb]. do 2 (apply writes_check; [done|]). wstep.
    eapply writes_pure; [by apply pure_unwrap|]. apply write_af_field; [by apply (aav_af1 _ Hv)|].
    eapply writes_pure; [by apply pure_unwrap|]. apply write_last_af; by apply (aav_af2 _ Hv).
  - rewrite (bool_decide_false (UuCommonAndAssigned = UuCommonOnly)), andb_false_r by done.
    rewrite bool_decide_true by done. do 2 wstep. by apply write_last_af.
  - rewrite (bool_decide_false (UuAssignedOnly = UuCommonOnly)), andb_false_r by done.
    rewrite bool_decide_false, bool_decide_true by done. do 2 wstep. by apply write_last_af.
  - rewrite (bool_decide_false (UuUnallocated = UuCommonOnly)), andb_false_r by done.
    rewrite !bool_decide_false by done. wstep. eapply writes_pure; [by apply pure_unwrap|]. do 2 wstep.
  - rewrite (bool_decide_false (UuTraffic c = UuCommonOnly)), andb_false_r by done.
    rewrite !bool_decide_false by done. cbn in Hu.
    wstep. eapply writes_pure; [by apply pure_unwrap|]. change (default 0%Z (uu_to_usage_marker (UuTraffic c))) with c. do 2 wstep.
Qed.

Lemma aa_reads p : aa_valid p → reads access_assign_from_bitbuf (fields_bits (aa_fields p)) (aa_canon p).
Proof.
  intros Hv. destruct (af_val_ok _ (default_af_ok p Hv)) as [Haf Hs]. destruct (du_marker _ (aav_dl _ Hv)) as [Hd Hdm].
  pose proof (aav_ul _ Hv) as Hu. pose proof (aav_common _ Hv) as Hc.
  unfold access_assign_from_bitbuf, aa_fields, aa_canon. destruct (aa_ul_usage p) as [| | | |c] eqn:Eu.
  - destruct Hc as (Hdl & [a1 H1] & [a2 H2] & H3); [done|]. rewrite H1, H2. cbn [opt_af_val from_option].
    destruct (af_val_ok a1) as [? Ha1]; [by apply (aav_af1 _ Hv)|].
    destruct (af_val_ok a2) as [? Ha2]; [by apply (aav_af2 _ Hv)|]. do 3 rstep.
    cbv zeta. rewrite Ha1, Ha2. rstep.
  - do 3 rstep. cbv zeta. rewrite Hs, (wrap_fits 6 8 (du_to_usage_marker _)), Hdm by (done || lia). rstep.
  - do 3 rstep. cbv zeta. rewrite Hs, (wrap_fits 6 8 (du_to_usage_marker _)), Hdm by (done || lia). rstep.
  - do 3 rstep. cbv zeta. rewrite (wrap_fits 6 8 (du_to_usage_marker _)), Hdm by (done || lia). eapply reads_pure; [by apply pure_ok_or|]. rstep.
  - destruct (uu_marker c Hu) as [Hc6 Hcm]. change (default 0%Z (uu_to_usage_marker (UuTraffic c))) with c. do 3 rstep. cbv zeta.
    rewrite (wrap_fits 6 8 (du_to_usage_marker _)), (wrap_fits 6 8 c), Hdm by (done || lia). eapply reads_pure; [by apply pure_ok_or|]. rstep.
Qed.

(** * ACCESS-ASSIGN of frame 18 *)

Record aa18_valid (p : AccessAssignFr18) : Prop := {
  aa18v_ul : af18_ul_usage p ≠ UuUnallocated ∧ uu_ok (af18_ul_usage p);
  aa18v_af1 a : af18_f1_af1 p = Some a → af_ok a;
  aa18v_af2 a : af18_f2_af2 p = Some a → af_ok a;
  aa18v_af a : af18_f2_af p = Some a → af_ok a;
  aa18v_which : if uu_is_traffic (af18_ul_usage p)
    then af18_f1_af1 p = None ∧ af18_f2_af2 p = None ∧ is_Some (af18_f2_af p)
    else is_Some (af18_f1_af1 p) ∧ is_Some (af18_f2_af2 p) ∧ af18_f2_af p = None
}.

Definition uu_header (u : AccessAssignUlUsage) : Z :=
  match u with UuCommonOnly => 0 | UuCommonAndAssigned => 1 | UuAssignedOnly => 2 | _ => 3 end.

Definition aa18_canon (p : AccessAssignFr18) : AccessAssignFr18 :=
  mkAccessAssignFr18 (uu_header (af18_ul_usage p)) (af18_ul_usage p) (af18_f1_af1 p) None (af18_f2_af2 p) (af18_f2_af p).

Definition aa18_fields (p : AccessAssignFr18) : fields :=
  (uu_header (af18_ul_usage p), 2) ::
  if uu_is_traffic (af18_ul_usage p)
  then [(default 0%Z (uu_to_usage_marker (af18_ul_usage p)), 6); (opt_af_val (af18_f2_af p), 6)]
  else [(opt_af_val (af18_f1_af1 p), 6); (opt_af_val (af18_f2_af2 p), 6)].

Lemma aa18_fields_len p : fields_len (aa18_fields p) = 14.
Proof. unfold aa18_fields. by destruct (uu_is_traffic _). Qed.

Lemma writes_end_check b bs : b = true → writes (mret tt) bs → writes (assert_ b) bs.
Proof. by intros ->. Qed.

Lemma write_two_ok h p a1 a2 : is_u 2 h → af18_f1_af1 p = Some a1 → af18_f2_af2 p = Some a2 → af18_f2_af p = None →
  af_ok a1 → af_ok a2 → writes (write_two_access_fields h p) (fields_bits [(h, 2); (af_val a1, 6); (af_val a2, 6)]).
Proof.
  intros Hh H1 H2 H3 Ha1 Ha2. unfold write_two_access_fields. rewrite H1, H2, H3. wstep.
  eapply writes_pure; [by apply pure_unwrap|]. apply write_af_field; [done|].
  eapply writes_pure; [by apply pure_unwrap|]. apply write_af_field; [done|].
  apply writes_end_check; [done|]. wstep.
Qed.

Lemma aa18_writes p : aa18_valid p → writes (access_assign_fr18_to_bitbuf p) (fields_bits (aa18_fields p)).
Proof.
  intros Hv. pose proof (aa18v_which _ Hv) as Hw. destruct (aa18v_ul _ Hv) as [Hn Hu].
  unfold access_assign_fr18_to_bitbuf, aa18_fields. destruct (af18_ul_usage p) as [| | | |c] eqn:Eu; cbn in Hw;
    try (destruct Hw as ([a1 H1] & [a2 H2] & H3); cbn [uu_is_traffic uu_header]; rewrite H1, H2;
      apply write_two_ok; [unfold is_u; lia|done..|by apply (aa18v_af1 _ Hv)|by apply (aa18v_af2 _ Hv)]).
  - done.
  - destruct Hw as (H1 & H2 & [a H3]). cbn in Hu. cbn [uu_is_traffic uu_header].
    change (default 0%Z (uu_to_usage_marker (UuTraffic c))) with c.
    rewrite H1, H2, H3. wstep. eapply writes_pure; [by apply pure_unwrap|]. wstep.
    eapply writes_pure; [by apply pure_unwrap|]. apply write_af_field; [by apply (aa18v_af _ Hv)|].
    apply writes_check; [done|]. apply writes_end_check; [done|]. wstep.
Qed.

Lemma aa18_reads p : aa18_valid p → reads access_assign_fr18_from_bitbuf (fields_bits (aa18_fields p)) (aa18_canon p).
Proof.
  intros Hv. pose proof (aa18v_which _ Hv) as Hw. destruct (aa18v_ul _ Hv) as [Hn Hu].
  unfold access_assign_fr18_from_bitbuf, aa18_fields, aa18_canon. destruct (af18_ul_usage p) as [| | | |c] eqn:Eu; cbn in Hw;
    try (destruct Hw as ([a1 H1] & [a2 H2] & H3); cbn [uu_is_traffic uu_header]; rewrite H1, H2, H3;
      destruct (af_val_ok a1) as [? Ha1]; [by apply (aa18v_af1 _ Hv)|];
      destruct (af_val_ok a2) as [? Ha2]; [by apply (aa18v_af2 _ Hv)|];
      cbn [opt_af_val from_option]; do 3 rstep; cbv zeta; rewrite Ha1, Ha2; rstep).
  - done.
  - destruct Hw as (H1 & H2 & [a H3]). cbn in Hu. destruct (uu_marker c Hu) as [Hc6 Hcm].
    destruct (af_val_ok a) as [? Ha]; [by apply (aa18v_af _ Hv)|].
    cbn [uu_is_traffic uu_header].
    change (default 0%Z (uu_to_usage_marker (UuTraffic c))) with c. rewrite H1, H2, H3. cbn [opt_af_val from_option].
    do 3 rstep. cbv zeta. rewrite (wrap_fits 6 8 c), Ha by (done || lia).
    eapply reads_pure; [by apply pure_ok_or|]. cbn [uu_is_traffic negb]. rstep.
Qed.

(** * Synchronisation *)

Record mac_sync_valid (p : MacSync) : Prop := {
  msv_system : is_u 4 (ms_system_code p);
  msv_colour : is_u 6 (ms_colour_code p);
  msv_time : valid_time (ms_time p);
  msv_sharing : is_u 2 (ms_sharing_mode p);
  msv_reserved : is_u 3 (ms_ts_reserved_frames p)
}.

Definition mac_sync_fields (p : MacSync) : fields :=
  [(ms_system_code p, 4); (ms_colour_code p, 6); ((tt_t (ms_time p) - 1)%Z, 2); (tt_f (ms_time p), 5);
   (tt_m (ms_time p), 6); (ms_sharing_mode p, 2); (ms_ts_reserved_frames p, 3); (Z.b2z (ms_u_plane_dtx p), 1);
   (Z.b2z (ms_frame_18_ext p), 1); (0%Z, 1)].

Lemma mac_sync_writes p : mac_sync_valid p → writes (mac_sync_to_bitbuf p) (fields_bits (mac_sync_fields p)).
Proof.
  intros [? ? Ht%valid_time_ranges ? ?]. unfold mac_sync_to_bitbuf, mac_sync_fields. do 2 wstep.
  apply writes_check; [apply Z.leb_le; lia|]. unfold write_flag. repeat wstep.
Qed.

(** The hyperframe is not part of the PDU. *)
Lemma mac_sync_reads p : mac_sync_valid p → reads mac_sync_from_bitbuf (fields_bits (mac_sync_fields p))
  (mkMacSync (ms_system_code p) (ms_colour_code p) (mkTime (tt_t (ms_time p)) (tt_f (ms_time p)) (tt_m (ms_time p)) 0)
     (ms_sharing_mode p) (ms_ts_reserved_frames p) (ms_u_plane_dtx p) (ms_frame_18_ext p)).
Proof.
  intros [? ? Ht%valid_time_ranges ? ?]. unfold mac_sync_from_bitbuf, mac_sync_fields. rwalk.
  rewrite !(wrap_small 8) by (unfold is_u in *; lia). replace (tt_t (ms_time p) - 1 + 1)%Z with (tt_t (ms_time p)) by lia.
  rstep.
Qed.

Record d_mle_sync_valid (p : DMleSync) : Prop := {
  dmsv_mcc : is_u 10 (dms_mcc p);
  dmsv_mnc : is_u 14 (dms_mnc p);
  dmsv_ncb : is_u 2 (dms_neighbor_cell_broadcast p);
  dmsv_load : is_u 2 (dms_cell_load_ca p)
}.

Definition d_mle_sync_fields (p : DMleSync) : fields :=
  [(dms_mcc p, 10); (dms_mnc p, 14); (dms_neighbor_cell_broadcast p, 2); (dms_cell_load_ca p, 2);
   (Z.b2z (dms_late_entry_supported p), 1)].

Lemma d_mle_sync_writes p : d_mle_sync_valid p → writes (d_mle_sync_to_bitbuf p) (fields_bits (d_mle_sync_fields p)).
Proof. intros []. unfold d_mle_sync_to_bitbuf, d_mle_sync_fields, write_flag. repeat wstep. Qed.

Lemma d_mle_sync_reads p : d_mle_sync_valid p → reads d_mle_sync_from_bitbuf (fields_bits (d_mle_sync_fields p)) p.
Proof.
  intros []. unfold d_mle_sync_from_bitbuf, d_mle_sync_fields. rwalk.
  rewrite !(wrap_small 8), !(wrap_small 16) by (unfold is_u in *; lia). destruct p. rstep.
Qed.

(** * System information *)

Definition access_code_a_valid (p : SysinfoDefaultDefForAccessCodeA) : Prop :=
  is_u 4 (sda_imm p) ∧ is_u 4 (sda_wt p) ∧ is_u 4 (sda_nu p) ∧ is_u 4 (sda_ts_ptr p) ∧ is_u 3 (sda_min_pdu_prio p).

Definition access_code_a_fields (p : SysinfoDefaultDefForAccessCodeA) : fields :=
  [(sda_imm p, 4); (sda_wt p, 4); (sda_nu p, 4); (Z.b2z (sda_fl_factor p), 1); (sda_ts_ptr p, 4);
   (sda_min_pdu_prio p, 3)].

Lemma access_code_a_writes p : access_code_a_valid p →
  writes (access_code_a_to_bitbuf p) (fields_bits (access_code_a_fields p)).
Proof. intros (? & ? & ? & ? & ?). unfold access_code_a_to_bitbuf, access_code_a_fields, write_flag. repeat wstep. Qed.

Lemma access_code_a_reads p : access_code_a_valid p →
  reads access_code_a_from_bitbuf (fields_bits (access_code_a_fields p)) p.
Proof.
  intros (? & ? & ? & ? & ?). unfold access_code_a_from_bitbuf, access_code_a_fields. rwalk.
  rewrite !(wrap_small 8) by (unfold is_u in *; lia). destruct p. rstep.
Qed.

(** Exactly one of the classes 2 and 3 is supported, with the keys that belong to it. *)
Inductive security_shape (p : SysinfoExtendedServices) : fields → Prop :=
| sec_class2 n : ses_class2_supported p = true → ses_class3_supported p = false → ses_sck_n p = Some n → is_u 5 n →
    ses_dck_retrieval_during_cell_select p = None → ses_dck_retrieval_during_cell_reselect p = None →
    ses_linked_gck_crypto_periods p = None → ses_short_gck_vn p = None → security_shape p [(n, 5)]
| sec_class3 a b c n : ses_class2_supported p = false → ses_class3_supported p = true → ses_sck_n p = None →
    ses_dck_retrieval_during_cell_select p = Some a → ses_dck_retrieval_during_cell_reselect p = Some b →
    ses_linked_gck_crypto_periods p = Some c → ses_short_gck_vn p = Some n → is_u 2 n →
    security_shape p [(Z.b2z a, 1); (Z.b2z b, 1); (Z.b2z c, 1); (n, 2)].

Definition ext_services_valid (p : SysinfoExtendedServices) : Prop :=
  is_u 2 (ses_sdstl_addressing_method p) ∧ is_u 2 (ses_section p) ∧ is_u 7 (ses_section_data p).

Definition ext_services_fields (p : SysinfoExtendedServices) (sec : fields) : fields :=
  (Z.b2z (ses_auth_required p), 1) :: (Z.b2z (ses_class1_supported p), 1) :: (Z.b2z (ses_class3_supported p), 1) ::
  sec ++ [(ses_sdstl_addressing_method p, 2); (Z.b2z (ses_gck_supported p), 1); (ses_section p, 2);
          (ses_section_data p, 7)].

Lemma ext_services_writes p sec : ext_services_valid p → security_shape p sec →
  writes (ext_services_to_bitbuf p) (fields_bits (ext_services_fields p sec)).
Proof.
  intros (? & ? & ?) Hs. unfold ext_services_to_bitbuf, ext_services_fields.
  apply writes_check; [by destruct Hs as [? -> ->|? ? ? ? -> ->]|]. unfold write_flag. do 3 wstep.
  apply writes_elem; [|repeat wstep].
  destruct Hs as [n H2 H3 Hn Hu|a b c n H2 H3 _ Ha Hb Hc Hn Hu]; rewrite H2, ?H3.
  - eapply writes_pure; [by apply pure_unwrap|]. wstep.
  - do 4 (eapply writes_pure; [by apply pure_unwrap|]; wstep).
Qed.

Lemma ext_services_reads p sec : ext_services_valid p → security_shape p sec →
  reads (ext_services_from_bitbuf true) (fields_bits (ext_services_fields p sec)) p.
Proof.
  intros (? & ? & ?) Hs. unfold ext_services_from_bitbuf, ext_services_fields. apply reads_flag_then.
  change ((Z.b2z (ses_class1_supported p), 1) :: (Z.b2z (ses_class3_supported p), 1) :: ?x)
    with ([(Z.b2z (ses_class1_supported p), 1); (Z.b2z (ses_class3_supported p), 1)] ++ x).
  eapply reads_elem.
  { do 2 rstep. apply reads_done. }
  cbn beta iota. set (k := λ x : option Z * option bool * option bool * option bool * option Z, _).
  destruct Hs as [n H2 H3 Hn Hu H4 H5 H6 H7|a b c n H2 H3 H4 Ha Hb Hc Hn Hu]; rewrite H3; cbn [Z.b2z Z.eqb negb].
  - eapply (reads_elem _ k _ _ (Some n, None, None, None, None)).
    { rstep. rewrite (wrap_fits 5 8) by (done || lia). rstep. }
    unfold k. rwalk. rewrite !(wrap_small 8) by (unfold is_u in *; lia).
    destruct p as [au [] c2 c3 ? ? ? ? ? ? ? ? ?]; cbn in *; subst; rstep.
  - eapply (reads_elem _ k _ _ (None, Some a, Some b, Some c, Some n)).
    { rwalk. rewrite (wrap_fits 2 8) by (done || lia). rstep. }
    unfold k. rwalk. rewrite !(wrap_small 8) by (unfold is_u in *; lia).
    destruct p as [au [] c2 c3 ? ? ? ? ? ? ? ? ?]; cbn in *; subst; rstep.
Qed.

Definition ts_common_fields (p : TsCommonFrames) : fields :=
  ((λ b, (Z.b2z b, 1)) <$> [tcf1 p; tcf2 p; tcf3 p; tcf4 p; tcf5 p; tcf6 p; tcf7 p; tcf8 p; tcf9 p; tcf10 p; tcf11 p;
     tcf12 p; tcf13 p; tcf14 p; tcf15 p; tcf16 p; tcf17 p; tcf18 p]) ++ [(0%Z, 2)].

Lemma ts_common_writes p : writes (ts_common_frames_to_bitbuf p) (fields_bits (ts_common_fields p)).
Proof. unfold ts_common_frames_to_bitbuf, ts_common_fields, write_flag. cbn [fmap list_fmap app]. repeat wstep. Qed.

Lemma ts_common_reads p : reads ts_common_frames_from_bitbuf (fields_bits (ts_common_fields p)) p.
Proof. unfold ts_common_frames_from_bitbuf, ts_common_fields. cbn [fmap list_fmap app]. rwalk. destruct p. rstep. Qed.

(** The 20 bits of the option field; those of the even multiframe are not written. *)
Inductive option_shape (p : MacSysinfo) : fields → Prop :=
| opt_odd f : si_option_field p = OddMfDefForTsMode → si_ts_common_frames p = Some f →
    si_default_access_code p = None → si_ext_services p = None → option_shape p (ts_common_fields f)
| opt_code_a a : si_option_field p = DefaultDefForAccCodeA → si_ts_common_frames p = None →
    si_default_access_code p = Some a → si_ext_services p = None → access_code_a_valid a →
    option_shape p (access_code_a_fields a)
| opt_ext e sec : si_option_field p = ExtServicesBroadcast → si_ts_common_frames p = None →
    si_default_access_code p = None → si_ext_services p = Some e → ext_services_valid e → security_shape e sec →
    option_shape p (ext_services_fields e sec).

Lemma option_shape_len p fs : option_shape p fs → fields_len fs = 20.
Proof. intros [| |e sec ? ? ? ? ? []]; done. Qed.

Record mac_sysinfo_valid (p : MacSysinfo) : Prop := {
  siv_carrier : is_u 12 (si_main_carrier p);
  siv_band : is_u 4 (si_freq_band p);
  siv_offset : is_u 2 (si_freq_offset_index p);
  siv_spacing : is_u 3 (si_duplex_spacing p);
  siv_csch : is_u 2 (si_num_of_csch p);
  siv_txpwr : is_u 3 (si_ms_txpwr_max_cell p);
  siv_rxlev : is_u 4 (si_rxlev_access_min p);
  siv_access : is_u 4 (si_access_parameter p);
  siv_timeout : is_u 4 (si_radio_dl_timeout p);
  siv_cck : match si_cck_id p, si_hyperframe_number p with
            | Some c, None => is_u 16 c | None, Some h => is_u 16 h | _, _ => False
            end
}.

Definition cck_fields (p : MacSysinfo) : fields :=
  match si_cck_id p with
  | Some c => [(1%Z, 1); (c, 16)] | None => [(0%Z, 1); (default 0%Z (si_hyperframe_number p), 16)]
  end.

Definition mac_sysinfo_fields (p : MacSysinfo) (opt : fields) : fields :=
  [(2%Z, 2); (0%Z, 2); (si_main_carrier p, 12); (si_freq_band p, 4); (si_freq_offset_index p, 2);
   (si_duplex_spacing p, 3); (Z.b2z (si_reverse_operation p), 1); (si_num_of_csch p, 2); (si_ms_txpwr_max_cell p, 3);
   (si_rxlev_access_min p, 4); (si_access_parameter p, 4); (si_radio_dl_timeout p, 4)] ++ cck_fields p ++
  (opt_field_into_raw (si_option_field p), 2) :: opt.

Lemma opt_field_fits f : is_u 2 (opt_field_into_raw f).
Proof. unfold is_u. destruct f; cbn; lia. Qed.

Lemma write_option_ok p opt : option_shape p opt → writes (write_option_field p) (fields_bits opt).
Proof.
  unfold write_option_field. intros [f -> Hf Ha He|a -> Hf Ha He Hv|e sec -> Hf Ha He Hv Hs]; rewrite ?Hf, ?Ha, ?He;
    do 2 (apply writes_check; [done|]); (eapply writes_pure; [by apply pure_unwrap|]);
    [apply ts_common_writes|by apply access_code_a_writes|by apply ext_services_writes].
Qed.

Lemma mac_sysinfo_writes p opt : mac_sysinfo_valid p → option_shape p opt →
  writes (mac_sysinfo_to_bitbuf p) (fields_bits (mac_sysinfo_fields p opt)).
Proof.
  intros [? ? ? ? ? ? ? ? ? Hc] Ho. unfold mac_sysinfo_to_bitbuf, mac_sysinfo_fields, write_flag. cbn [app]. do 12 wstep.
  apply writes_check; [by destruct (si_cck_id p), (si_hyperframe_number p)|]. apply writes_elem.
  - unfold cck_fields. destruct (si_cck_id p), (si_hyperframe_number p) as [h|]; try done; [repeat wstep|]. wstep.
    eapply writes_pure; [by apply pure_unwrap|].
    change (default 0%Z (Some h)) with h. wstep.
  - pose proof (opt_field_fits (si_option_field p)). wstep. by apply write_option_ok.
Qed.

(** Nothing is kept of the multiframe definitions for TS mode. *)
Lemma mac_sysinfo_reads p opt : mac_sysinfo_valid p → option_shape p opt → si_option_field p ≠ OddMfDefForTsMode →
  reads mac_sysinfo_from_bitbuf (fields_bits (mac_sysinfo_fields p opt)) p.
Proof.
  intros [? ? ? ? ? ? ? ? ? Hc] Ho Hodd. unfold mac_sysinfo_from_bitbuf, mac_sysinfo_fields. cbn [app].
  do 12 first [apply reads_flag_then|rstep].
  assert (∀ {C} (k : option Z * option Z → B C) fs c, reads (k (si_cck_id p, si_hyperframe_number p)) (fields_bits fs) c →
    reads (has_cck_field ← read_field 1 "has_cck_field";
      (if (has_cck_field =? 1)%Z then v ← read_field 16 "cck_id"; mret (Some (wrap 16 v), None)
       else v ← read_field 16 "hyperframe_number"; mret (None, Some (wrap 16 v))) ≫= k)
      (fields_bits (cck_fields p ++ fs)) c) as Hcck.
  { intros C k fs c Hk. unfold cck_fields. destruct (si_cck_id p) as [i|], (si_hyperframe_number p) as [h|]; try done;
      cbn [app]; (rstep; cbn [Z.eqb Pos.eqb]; eapply (reads_elem _ k [_]); [rstep; rewrite wrap_small by done; rstep|done]). }
  apply Hcck. clear Hcck. cbn beta iota.
  pose proof (opt_field_fits (si_option_field p)). rstep.
  destruct Ho as [f Hf|a Hf ? Ha He Hv|e sec Hf ? Ha He Hv Hs]; [done|..]; rewrite Hf;
    (eapply reads_enum; [done|]); cbn beta iota;
    (eapply reads_last; [eapply reads_last; [by first [apply access_code_a_reads|apply ext_services_reads]|apply reads_done]|]);
    cbn beta iota; rewrite !(wrap_small 8), !(wrap_small 16) by (unfold is_u in *; lia);
    destruct p; cbn in *; subst; rstep.
Qed.

(** * The MLE part of the system information *)

Definition service_fields (p : BsServiceDetails) : fields :=
  [(Z.b2z (bsd_registration p), 1); (Z.b2z (bsd_deregistration p), 1); (Z.b2z (bsd_priority_cell p), 1);
   (Z.b2z (bsd_no_minimum_mode p), 1); (Z.b2z (bsd_migration p), 1); (Z.b2z (bsd_system_wide_services p), 1);
   (Z.b2z (bsd_voice_service p), 1); (Z.b2z (bsd_circuit_mode_data_service p), 1); (0%Z, 1);
   (Z.b2z (bsd_sndcp_service p), 1); (Z.b2z (bsd_aie_service p), 1); (Z.b2z (bsd_advanced_link p), 1)].

Definition d_mle_sysinfo_valid (p : DMleSysinfo) : Prop := is_u 14 (dmi_location_area p) ∧ is_u 16 (dmi_subscriber_class p).

Definition d_mle_sysinfo_fields (p : DMleSysinfo) : fields :=
  (dmi_location_area p, 14) :: (dmi_subscriber_class p, 16) :: service_fields (dmi_bs_service_details p).

Lemma d_mle_sysinfo_writes p : d_mle_sysinfo_valid p →
  writes (d_mle_sysinfo_to_bitbuf p) (fields_bits (d_mle_sysinfo_fields p)).
Proof.
  intros []. unfold d_mle_sysinfo_to_bitbuf, d_mle_sysinfo_fields. do 2 wstep.
  unfold bs_service_details_to_bitbuf, service_fields, write_flag. repeat wstep.
Qed.

Lemma d_mle_sysinfo_reads p : d_mle_sysinfo_valid p →
  reads d_mle_sysinfo_from_bitbuf (fields_bits (d_mle_sysinfo_fields p)) p.
Proof.
  intros []. unfold d_mle_sysinfo_from_bitbuf, d_mle_sysinfo_fields. do 2 rstep.
  eapply (reads_last _ _ _ (dmi_bs_service_details p)).
  - unfold bs_service_details_from_bitbuf, service_fields. rwalk. destruct (dmi_bs_service_details p). rstep.
  - rewrite !(wrap_small 16) by (unfold is_u in *; lia). destruct p. rstep.
Qed.

(** * Where the PDUs differ from what they mean *)

(** Extended services without security class 2 or 3 are read as class 2. *)
Lemma no_class_reads_as_class2 :
  let p := mkExtServices false true false false None None None None None 2 false 0 0 in
  ('(_, bb) ← exec (ext_services_to_bitbuf p;; seek 0) (new 20);
   '(q, _) ← exec (ext_services_from_bitbuf true) bb;
   Some (ses_class2_supported q, ses_sck_n q)) = Some (true, Some 0%Z).
Proof. vm_compute. reflexivity. Qed.

(** A SYSINFO that ends before its optional field makes the parser panic instead of reporting an error. *)
Lemma short_sysinfo_panics : mac_sysinfo_from_bitbuf (new 62) = Panic.
Proof. vm_compute. reflexivity. Qed.
