(* ===== verification/MlePdus.v ===== *)
(** The MLE PDUs ([tetra-pdus/src/mle]): their enumerations, the neighbour cell
    element, D-NWRK-BROADCAST, which the base station sends, and the others,
    translated statement by statement; and that the finished ones survive
    writing and parsing.

    Code after an [unimplemented!()] is unreachable and left out; the macro is a
    panic. *)
From S2P Require Import Prelude Bits Core BitBuffer BitBufferSpec BitCodec BitBufferThms FieldCodec TypedFieldsSpec PduCodec MacBcast.

(** * Enumerations *)

Inductive MlePduTypeDl : Type :=
| MlePduTypeDl_DNewCell
| MlePduTypeDl_DPrepareFail
| MlePduTypeDl_DNwrkBroadcast
| MlePduTypeDl_DNwrkBroadcastExt
| MlePduTypeDl_DRestoreAck
| MlePduTypeDl_DRestoreFail
| MlePduTypeDl_DChannelResponse
| MlePduTypeDl_ExtPdu.

Definition mle_pdu_type_dl_try_from (x : Z) : option MlePduTypeDl :=
  match x with
  | 0 => Some MlePduTypeDl_DNewCell
  | 1 => Some MlePduTypeDl_DPrepareFail
  | 2 => Some MlePduTypeDl_DNwrkBroadcast
  | 3 => Some MlePduTypeDl_DNwrkBroadcastExt
  | 4 => Some MlePduTypeDl_DRestoreAck
  | 5 => Some MlePduTypeDl_DRestoreFail
  | 6 => Some MlePduTypeDl_DChannelResponse
  | 7 => Some MlePduTypeDl_ExtPdu
  | _ => None
  end%Z.

Definition mle_pdu_type_dl_into_raw (e : MlePduTypeDl) : Z :=
  match e with
  | MlePduTypeDl_DNewCell => 0
  | MlePduTypeDl_DPrepareFail => 1
  | MlePduTypeDl_DNwrkBroadcast => 2
  | MlePduTypeDl_DNwrkBroadcastExt => 3
  | MlePduTypeDl_DRestoreAck => 4
  | MlePduTypeDl_DRestoreFail => 5
  | MlePduTypeDl_DChannelResponse => 6
  | MlePduTypeDl_ExtPdu => 7
  end.

#[global] Instance mle_pdu_type_dl_raw : RawEnum 3 mle_pdu_type_dl_into_raw mle_pdu_type_dl_try_from.
Proof. raw_enum. Qed.
#[global] Instance mle_pdu_type_dl_total : TotalEnum 3 mle_pdu_type_dl_try_from.
Proof. total_enum. Qed.

Inductive MlePduTypeUl : Type :=
| MlePduTypeUl_UPrepare
| MlePduTypeUl_UPrepareDa
| MlePduTypeUl_UIrregularChannelAdvice
| MlePduTypeUl_UChannelClassAdvice
| MlePduTypeUl_URestore
| MlePduTypeUl_UChannelRequest
| MlePduTypeUl_ExtPdu.

Definition mle_pdu_type_ul_try_from (x : Z) : option MlePduTypeUl :=
  match x with
  | 0 => Some MlePduTypeUl_UPrepare
  | 1 => Some MlePduTypeUl_UPrepareDa
  | 2 => Some MlePduTypeUl_UIrregularChannelAdvice
  | 3 => Some MlePduTypeUl_UChannelClassAdvice
  | 4 => Some MlePduTypeUl_URestore
  | 6 => Some MlePduTypeUl_UChannelRequest
  | 7 => Some MlePduTypeUl_ExtPdu
  | _ => None
  end%Z.

Definition mle_pdu_type_ul_into_raw (e : MlePduTypeUl) : Z :=
  match e with
  | MlePduTypeUl_UPrepare => 0
  | MlePduTypeUl_UPrepareDa => 1
  | MlePduTypeUl_UIrregularChannelAdvice => 2
  | MlePduTypeUl_UChannelClassAdvice => 3
  | MlePduTypeUl_URestore => 4
  | MlePduTypeUl_UChannelRequest => 6
  | MlePduTypeUl_ExtPdu => 7
  end.

#[global] Instance mle_pdu_type_ul_raw : RawEnum 3 mle_pdu_type_ul_into_raw mle_pdu_type_ul_try_from.
Proof. raw_enum. Qed.

Inductive MleProtocolDiscriminator : Type :=
| MleProtocolDiscriminator_Mm
| MleProtocolDiscriminator_Cmce
| MleProtocolDiscriminator_Sndcp
| MleProtocolDiscriminator_Mle
| MleProtocolDiscriminator_TetraManagementEntity.

Definition mle_protocol_discriminator_try_from (x : Z) : option MleProtocolDiscriminator :=
  match x with
  | 1 => Some MleProtocolDiscriminator_Mm
  | 2 => Some MleProtocolDiscriminator_Cmce
  | 4 => Some MleProtocolDiscriminator_Sndcp
  | 5 => Some MleProtocolDiscriminator_Mle
  | 6 => Some MleProtocolDiscriminator_TetraManagementEntity
  | _ => None
  end%Z.

Definition mle_protocol_discriminator_into_raw (e : MleProtocolDiscriminator) : Z :=
  match e with
  | MleProtocolDiscriminator_Mm => 1
  | MleProtocolDiscriminator_Cmce => 2
  | MleProtocolDiscriminator_Sndcp => 4
  | MleProtocolDiscriminator_Mle => 5
  | MleProtocolDiscriminator_TetraManagementEntity => 6
  end.

#[global] Instance mle_protocol_discriminator_raw : RawEnum 3 mle_protocol_discriminator_into_raw mle_protocol_discriminator_try_from.
Proof. raw_enum. Qed.

(** * Neighbour cells *)

Record NeighbourCellInformationForCa : Type := mkNeighbour {
  nci_cell_identifier_ca : Z;
  nci_cell_reselection_types_supported : Z;
  nci_neighbour_cell_synchronized : bool;
  nci_cell_load_ca : Z;
  nci_main_carrier_number : Z;
  nci_main_carrier_number_extension : option Z;
  nci_mcc : option Z;
  nci_mnc : option Z;
  nci_location_area : option Z;
  nci_maximum_ms_transmit_power : option Z;
  nci_minimum_rx_access_level : option Z;
  nci_subscriber_class : option Z;
  nci_bs_service_details : option BsServiceDetails;
  nci_timeshare_cell_information_or_security_parameters : option Z;
  nci_tdma_frame_offset : option Z
}.

Definition neighbour_from_bitbuf : B NeighbourCellInformationForCa :=
  cell_identifier_ca ← read_field 5 "cell_identifier_ca";
  cell_reselection_types_supported ← read_field 2 "cell_reselection_types_supported";
  neighbour_cell_synchronized ← read_field 1 "neighbour_cell_synchronized";
  cell_load_ca ← read_field 2 "cell_load_ca";
  main_carrier_number ← read_field 12 "main_carrier_number";
  obit ← read_obit;
  main_carrier_number_extension ← parse_type2_generic obit 10 "main_carrier_number_extension";
  mcc ← parse_type2_generic obit 10 "mcc";
  mnc ← parse_type2_generic obit 14 "mnc";
  location_area ← parse_type2_generic obit 14 "location_area";
  maximum_ms_transmit_power ← parse_type2_generic obit 3 "maximum_ms_transmit_power";
  minimum_rx_access_level ← parse_type2_generic obit 4 "minimum_rx_access_level";
  subscriber_class ← parse_type2_generic obit 16 "subscriber_class";
  bs_service_details ← parse_type2_struct obit bs_service_details_from_bitbuf;
  timeshare ← parse_type2_generic obit 5 "timeshare_cell_information_or_security_parameters";
  tdma_frame_offset ← parse_type2_generic obit 6 "tdma_frame_offset";
  mret (mkNeighbour (wrap 8 cell_identifier_ca) (wrap 8 cell_reselection_types_supported)
    (negb (neighbour_cell_synchronized =? 0)%Z) (wrap 8 cell_load_ca) (wrap 16 main_carrier_number)
    (wrap 16 <$> main_carrier_number_extension) (wrap 16 <$> mcc) (wrap 16 <$> mnc) (wrap 16 <$> location_area)
    (wrap 8 <$> maximum_ms_transmit_power) (wrap 8 <$> minimum_rx_access_level) (wrap 16 <$> subscriber_class)
    bs_service_details (wrap 8 <$> timeshare) (wrap 8 <$> tdma_frame_offset)).

Definition ensure_bits (value : Z) (bits : nat) (field : string) : B unit :=
  let max := if 64 <=? bits then (2 ^ 64 - 1)%Z else (wrap 64 (Z.shiftl 1 (Z.of_nat bits)) - 1)%Z in
  if (value >? max)%Z then fail (InvalidValue field value) else mret tt.

Definition ensure_opt_bits (value : option Z) (bits : nat) (field : string) : B unit :=
  match value with Some v => ensure_bits v bits field | None => mret tt end.

Definition neighbour_checks (self : NeighbourCellInformationForCa) : B unit :=
  ensure_bits (nci_cell_identifier_ca self) 5 "cell_identifier_ca";;
  ensure_bits (nci_cell_reselection_types_supported self) 2 "cell_reselection_types_supported";;
  ensure_bits (nci_cell_load_ca self) 2 "cell_load_ca";;
  ensure_bits (nci_main_carrier_number self) 12 "main_carrier_number";;
  ensure_opt_bits (nci_main_carrier_number_extension self) 10 "main_carrier_number_extension";;
  ensure_opt_bits (nci_mcc self) 10 "mcc";;
  ensure_opt_bits (nci_mnc self) 14 "mnc";;
  ensure_opt_bits (nci_location_area self) 14 "location_area";;
  ensure_opt_bits (nci_maximum_ms_transmit_power self) 3 "maximum_ms_transmit_power";;
  ensure_opt_bits (nci_minimum_rx_access_level self) 4 "minimum_rx_access_level";;
  ensure_opt_bits (nci_subscriber_class self) 16 "subscriber_class";;
  ensure_opt_bits (nci_timeshare_cell_information_or_security_parameters self) 5
    "timeshare_cell_information_or_security_parameters";;
  ensure_opt_bits (nci_tdma_frame_offset self) 6 "tdma_frame_offset".

Definition neighbour_obit (self : NeighbourCellInformationForCa) : bool :=
  is_some (nci_main_carrier_number_extension self) || is_some (nci_mcc self) || is_some (nci_mnc self)
  || is_some (nci_location_area self) || is_some (nci_maximum_ms_transmit_power self)
  || is_some (nci_minimum_rx_access_level self) || is_some (nci_subscriber_class self)
  || is_some (nci_bs_service_details self) || is_some (nci_timeshare_cell_information_or_security_parameters self)
  || is_some (nci_tdma_frame_offset self).

(** The optional elements; they are visited also when the o-bit is 0. *)
Definition neighbour_options (self : NeighbourCellInformationForCa) (obit : bool) : B unit :=
  write_type2_generic obit (nci_main_carrier_number_extension self) 10;;
  write_type2_generic obit (nci_mcc self) 10;;
  write_type2_generic obit (nci_mnc self) 14;;
  write_type2_generic obit (nci_location_area self) 14;;
  write_type2_generic obit (nci_maximum_ms_transmit_power self) 3;;
  write_type2_generic obit (nci_minimum_rx_access_level self) 4;;
  write_type2_generic obit (nci_subscriber_class self) 16;;
  write_type2_struct obit (nci_bs_service_details self) bs_service_details_to_bitbuf;;
  write_type2_generic obit (nci_timeshare_cell_information_or_security_parameters self) 5;;
  write_type2_generic obit (nci_tdma_frame_offset self) 6.

Definition neighbour_to_bitbuf (self : NeighbourCellInformationForCa) : B unit :=
  neighbour_checks self;;
  write_bits (nci_cell_identifier_ca self) 5;;
  write_bits (nci_cell_reselection_types_supported self) 2;;
  write_bits (Z.b2z (nci_neighbour_cell_synchronized self)) 1;;
  write_bits (nci_cell_load_ca self) 2;;
  write_bits (nci_main_carrier_number self) 12;;
  let obit := neighbour_obit self in
  write_obit (Z.b2z obit);;
  neighbour_options self obit.

(** * D-NWRK-BROADCAST *)

Record DNwrkBroadcast : Type := mkDNwrkBroadcast {
  dnb_cell_re_select_parameters : Z;
  dnb_cell_load_ca : Z;
  dnb_tetra_network_time : option Z;
  dnb_number_of_ca_neighbour_cells : option Z;
  dnb_neighbour_cell_information_for_ca : list NeighbourCellInformationForCa
}.

(** [for _ in 0..count { vec.push(parse(buffer)?) }] *)
Fixpoint parse_times {A} (count : nat) (parse : B A) : B (list A) :=
  match count with
  | 0 => mret []
  | S count => x ← parse; xs ← parse_times count parse; mret (x :: xs)
  end.

Fixpoint write_each {A} (write : A → B unit) (xs : list A) : B unit :=
  match xs with
  | [] => mret tt
  | x :: xs => write x;; write_each write xs
  end.

Definition d_nwrk_broadcast_from_bitbuf : B DNwrkBroadcast :=
  pdu_type ← read_field 3 "pdu_type";
  expect_pdu_type pdu_type (mle_pdu_type_dl_into_raw MlePduTypeDl_DNwrkBroadcast);;
  cell_re_select_parameters ← read_field 16 "cell_re_select_parameters";
  cell_load_ca ← read_field 2 "cell_load_ca";
  obit ← read_obit;
  tetra_network_time ← parse_type2_generic obit 48 "tetra_network_time";
  number ← parse_type2_generic obit 3 "number_of_ca_neighbour_cells";
  let number_of_ca_neighbour_cells := wrap 8 <$> number in
  neighbours ← (match number_of_ca_neighbour_cells with
    | Some count =>
        if (count >? 7)%Z then fail (InvalidValue "number_of_ca_neighbour_cells" count)
        else parse_times (Z.to_nat count) neighbour_from_bitbuf
    | None => mret []
    end);
  mret (mkDNwrkBroadcast (wrap 16 cell_re_select_parameters) (wrap 8 cell_load_ca) tetra_network_time
    number_of_ca_neighbour_cells neighbours).

(** The consistency checks at the start of [to_bitbuf]. *)
Definition d_nwrk_broadcast_checks (self : DNwrkBroadcast) : B unit :=
  let neighbour_count := length (dnb_neighbour_cell_information_for_ca self) in
  match dnb_number_of_ca_neighbour_cells self with
  | Some count =>
      if negb (count =? Z.of_nat neighbour_count)%Z then
        fail (Inconsistency "number_of_ca_neighbour_cells"
          "count does not match neighbour_cell_information_for_ca length")
      else if (count >? 7)%Z then fail (InvalidValue "number_of_ca_neighbour_cells" count)
      else mret tt
  | None =>
      if 0 <? neighbour_count then
        fail (Inconsistency "neighbour_cell_information_for_ca" "missing number_of_ca_neighbour_cells")
      else mret tt
  end.

Definition d_nwrk_broadcast_to_bitbuf (self : DNwrkBroadcast) : B unit :=
  d_nwrk_broadcast_checks self;;
  write_bits (mle_pdu_type_dl_into_raw MlePduTypeDl_DNwrkBroadcast) 3;;
  write_bits (dnb_cell_re_select_parameters self) 16;;
  write_bits (dnb_cell_load_ca self) 2;;
  let obit := is_some (dnb_tetra_network_time self) || is_some (dnb_number_of_ca_neighbour_cells self) in
  write_obit (Z.b2z obit);;
  if negb obit then mret tt else
  write_type2_generic obit (dnb_tetra_network_time self) 48;;
  write_type2_generic obit (dnb_number_of_ca_neighbour_cells self) 3;;
  if (default 0 (dnb_number_of_ca_neighbour_cells self) >? 0)%Z then
    write_each neighbour_to_bitbuf (dnb_neighbour_cell_information_for_ca self)
  else mret tt.

(** * D-CHANNEL-RESPONSE and D-RESTORE-FAIL *)

Record DChannelResponse : Type := mkDChannelResponse {
  dcr_channel_response_type : bool;
  dcr_reason_for_the_channel_request : Z;
  dcr_channel_request_retry_delay : Z;
  dcr_reserved1 : option Z;
  dcr_reserved2 : option Z
}.

Definition d_channel_response_from_bitbuf : B DChannelResponse :=
  pdu_type ← read_field 3 "pdu_type";
  expect_pdu_type pdu_type (mle_pdu_type_dl_into_raw MlePduTypeDl_DChannelResponse);;
  channel_response_type ← read_field 1 "channel_response_type";
  let channel_response_type := negb (channel_response_type =? 0)%Z in
  reason_for_the_channel_request ← read_field 3 "reason_for_the_channel_request";
  let reason_for_the_channel_request := wrap 8 reason_for_the_channel_request in
  channel_request_retry_delay ← read_field 4 "channel_request_retry_delay";
  let channel_request_retry_delay := wrap 8 channel_request_retry_delay in
  obit ← read_obit;
  reserved1 ← parse_type2_generic obit 8 "reserved1";
  reserved2 ← parse_type2_generic obit 8 "reserved2";
  finish obit (mkDChannelResponse channel_response_type reason_for_the_channel_request channel_request_retry_delay
    reserved1 reserved2).

Definition d_channel_response_to_bitbuf (self : DChannelResponse) : B unit :=
  write_bits (mle_pdu_type_dl_into_raw MlePduTypeDl_DChannelResponse) 3;;
  write_bits (Z.b2z (dcr_channel_response_type self)) 1;;
  write_bits (dcr_reason_for_the_channel_request self) 3;;
  write_bits (dcr_channel_request_retry_delay self) 4;;
  let obit := is_some (dcr_reserved1 self) || is_some (dcr_reserved2 self) in
  write_obit (Z.b2z obit);;
  if negb obit then mret tt else
  write_type2_generic obit (dcr_reserved1 self) 8;;
  write_type2_generic obit (dcr_reserved2 self) 8;;
  write_mbit 0.

Record DRestoreFail : Type := mkDRestoreFail { drf_fail_cause : Z }.

Definition d_restore_fail_from_bitbuf : B DRestoreFail :=
  pdu_type ← read_field 3 "pdu_type";
  expect_pdu_type pdu_type (mle_pdu_type_dl_into_raw MlePduTypeDl_DRestoreFail);;
  fail_cause ← read_field 2 "fail_cause";
  let fail_cause := wrap 8 fail_cause in
  obit ← read_obit;
  finish obit (mkDRestoreFail fail_cause).

Definition d_restore_fail_to_bitbuf (self : DRestoreFail) : B unit :=
  write_bits (mle_pdu_type_dl_into_raw MlePduTypeDl_DRestoreFail) 3;;
  write_bits (drf_fail_cause self) 2;;
  write_mbit 0.

(** * The unfinished PDUs *)

(** [Some(buffer.read_field(buffer.get_len_remaining() - 1, "sdu")?)] when
    anything remains. *)
Definition read_sdu_todo : B (option Z) :=
  bb ← get;
  if 0 <? get_len_remaining bb then v ← read_field (get_len_remaining bb - 1) "sdu"; mret (Some v) else mret None.

(** [if let Some(ref value) = o { unimplemented!() }] *)
Definition write_todo (o : option Z) : B unit := match o with Some _ => panic | None => mret tt end.

Record DNewCell : Type := mkDNewCell { dnc_channel_command_valid : Z; dnc_sdu : option Z }.

Definition d_new_cell_from_bitbuf : B DNewCell :=
  pdu_type ← read_field 3 "pdu_type";
  expect_pdu_type pdu_type (mle_pdu_type_dl_into_raw MlePduTypeDl_DNewCell);;
  channel_command_valid ← read_field 2 "channel_command_valid";
  obit ← read_obit;
  sdu ← read_sdu_todo;
  panic.

Definition d_new_cell_to_bitbuf (self : DNewCell) : B unit :=
  write_bits (mle_pdu_type_dl_into_raw MlePduTypeDl_DNewCell) 3;;
  write_bits (dnc_channel_command_valid self) 2;;
  write_todo (dnc_sdu self);;
  write_mbit 0.

Record DPrepareFail : Type := mkDPrepareFail { dpf_fail_cause : Z; dpf_sdu : option Z }.

Definition d_prepare_fail_from_bitbuf : B DPrepareFail :=
  pdu_type ← read_field 3 "pdu_type";
  expect_pdu_type pdu_type (mle_pdu_type_dl_into_raw MlePduTypeDl_DPrepareFail);;
  fail_cause ← read_field 2 "fail_cause";
  obit ← read_obit;
  sdu ← read_sdu_todo;
  panic.

Definition d_prepare_fail_to_bitbuf (self : DPrepareFail) : B unit :=
  write_bits (mle_pdu_type_dl_into_raw MlePduTypeDl_DPrepareFail) 3;;
  write_bits (dpf_fail_cause self) 2;;
  write_todo (dpf_sdu self);;
  write_mbit 0.

Record DRestoreAck : Type := mkDRestoreAck { dra_sdu : option Z }.

Definition d_restore_ack_from_bitbuf : B DRestoreAck :=
  pdu_type ← read_field 3 "pdu_type";
  expect_pdu_type pdu_type (mle_pdu_type_dl_into_raw MlePduTypeDl_DRestoreAck);;
  obit ← read_obit;
  sdu ← read_sdu_todo;
  panic.

Definition d_restore_ack_to_bitbuf (self : DRestoreAck) : B unit :=
  write_bits (mle_pdu_type_dl_into_raw MlePduTypeDl_DRestoreAck) 3;;
  write_todo (dra_sdu self);;
  write_mbit 0.

Record DNwrkBroadcastRemove : Type := mkDNwrkBroadcastRemove {
  dbr_pdu_type_extension : Z;
  dbr_number_of_ca_cells_for_removal : option Z;
  dbr_removal_data_for_ca_cell : option Z;
  dbr_number_of_da_cells_for_removal : option Z;
  dbr_removal_data_for_da_cell : option Z;
  dbr_removal_data_for_serving_cell : option Z;
  dbr_reserved1 : option Z;
  dbr_reserved2 : option Z;
  dbr_reserved3 : option Z;
  dbr_reserved4 : option Z
}.

Definition d_nwrk_broadcast_remove_from_bitbuf : B DNwrkBroadcastRemove :=
  pdu_type ← read_field 3 "pdu_type";
  expect_pdu_type pdu_type (mle_pdu_type_dl_into_raw MlePduTypeDl_ExtPdu);;
  pdu_type_extension ← read_field 4 "pdu_type_extension";
  obit ← read_obit;
  number_of_ca_cells_for_removal ← parse_type2_generic obit 5 "number_of_ca_cells_for_removal";
  panic.

Definition d_nwrk_broadcast_remove_to_bitbuf (self : DNwrkBroadcastRemove) : B unit :=
  write_bits (mle_pdu_type_dl_into_raw MlePduTypeDl_ExtPdu) 3;;
  write_bits (dbr_pdu_type_extension self) 4;;
  let obit := is_some (dbr_number_of_ca_cells_for_removal self) || is_some (dbr_number_of_da_cells_for_removal self)
    || is_some (dbr_reserved1 self) || is_some (dbr_reserved2 self) || is_some (dbr_reserved3 self)
    || is_some (dbr_reserved4 self) in
  write_obit (Z.b2z obit);;
  if negb obit then mret tt else
  write_type2_generic obit (dbr_number_of_ca_cells_for_removal self) 5;;
  write_todo (dbr_removal_data_for_ca_cell self);;
  write_type2_generic obit (dbr_number_of_da_cells_for_removal self) 8;;
  write_todo (dbr_removal_data_for_da_cell self);;
  write_todo (dbr_removal_data_for_serving_cell self);;
  write_type2_generic obit (dbr_reserved1 self) 8;;
  write_type2_generic obit (dbr_reserved2 self) 8;;
  write_type2_generic obit (dbr_reserved3 self) 16;;
  write_type2_generic obit (dbr_reserved4 self) 32;;
  write_mbit 0.

Record UChannelClassAdvice : Type := mkUChannelClassAdvice {
  uca_number_of_channel_class_identifiers : Z;
  uca_channel_class_identifier : option Z;
  uca_discriminator_for_sdu_protocol_present : bool;
  uca_protocol_discriminator : option Z;
  uca_data_priority : option Z;
  uca_sdu : option Z
}.

Definition u_channel_class_advice_from_bitbuf : B UChannelClassAdvice :=
  pdu_type ← read_field 3 "pdu_type";
  expect_pdu_type pdu_type (mle_pdu_type_ul_into_raw MlePduTypeUl_UChannelClassAdvice);;
  number_of_channel_class_identifiers ← read_field 2 "number_of_channel_class_identifiers";
  panic.

Definition u_channel_class_advice_to_bitbuf (self : UChannelClassAdvice) : B unit :=
  write_bits (mle_pdu_type_ul_into_raw MlePduTypeUl_UChannelClassAdvice) 3;;
  write_bits (uca_number_of_channel_class_identifiers self) 2;;
  (match uca_channel_class_identifier self with Some value => write_bits value 4 | None => mret tt end);;
  write_bits (Z.b2z (uca_discriminator_for_sdu_protocol_present self)) 1;;
  (match uca_protocol_discriminator self with Some value => write_bits value 3 | None => mret tt end);;
  let obit := is_some (uca_data_priority self) in
  write_obit (Z.b2z obit);;
  if negb obit then mret tt else
  write_type2_generic obit (uca_data_priority self) 3;;
  write_todo (uca_sdu self);;
  write_mbit 0.

Record UPrepare : Type := mkUPrepare { upr_cell_identifier_ca : option Z; upr_sdu : option Z }.

Definition u_prepare_from_bitbuf : B UPrepare :=
  pdu_type ← read_field 3 "pdu_type";
  expect_pdu_type pdu_type (mle_pdu_type_ul_into_raw MlePduTypeUl_UPrepare);;
  obit ← read_obit;
  cell_identifier_ca ← parse_type2_generic obit 5 "cell_identifier_ca";
  panic.

Definition u_prepare_to_bitbuf (self : UPrepare) : B unit :=
  write_bits (mle_pdu_type_ul_into_raw MlePduTypeUl_UPrepare) 3;;
  let obit := is_some (upr_cell_identifier_ca self) in
  write_obit (Z.b2z obit);;
  if negb obit then mret tt else
  write_type2_generic obit (upr_cell_identifier_ca self) 5;;
  write_todo (upr_sdu self);;
  write_mbit 0.

Record URestore : Type := mkURestore {
  ure_mcc : option Z; ure_mnc : option Z; ure_la : option Z; ure_sdu : option Z
}.

Definition u_restore_from_bitbuf : B URestore :=
  pdu_type ← read_field 3 "pdu_type";
  expect_pdu_type pdu_type (mle_pdu_type_ul_into_raw MlePduTypeUl_URestore);;
  obit ← read_obit;
  mcc ← parse_type2_generic obit 10 "mcc";
  mnc ← parse_type2_generic obit 14 "mnc";
  la ← parse_type2_generic obit 14 "la";
  panic.

Definition u_restore_to_bitbuf (self : URestore) : B unit :=
  write_bits (mle_pdu_type_ul_into_raw MlePduTypeUl_URestore) 3;;
  let obit := is_some (ure_mcc self) || is_some (ure_mnc self) || is_some (ure_la self) in
  write_obit (Z.b2z obit);;
  if negb obit then mret tt else
  write_type2_generic obit (ure_mcc self) 10;;
  write_type2_generic obit (ure_mnc self) 14;;
  write_type2_generic obit (ure_la self) 14;;
  write_todo (ure_sdu self);;
  write_mbit 0.
(** * Round trips *)

Definition service_bits (d : BsServiceDetails) : list bool :=
  [bsd_registration d; bsd_deregistration d; bsd_priority_cell d; bsd_no_minimum_mode d; bsd_migration d;
   bsd_system_wide_services d; bsd_voice_service d; bsd_circuit_mode_data_service d; false; bsd_sndcp_service d;
   bsd_aie_service d; bsd_advanced_link d].

Lemma writes_flag b (k : unit → B unit) bs : writes (k tt) bs → writes (write_flag b ≫= k) (b :: bs).
Proof.
  intros Hk. apply (writes_bind _ (λ u, k u) [b]); [|done]. unfold write_flag. rewrite <- (bits_of_Z_b2z b).
  apply writes_bits; [lia|apply b2z_is_u].
Qed.

Lemma reads_flag {C} b s (k : bool → B C) bs c : reads (k b) bs c → reads (read_flag s ≫= k) (b :: bs) c.
Proof.
  intros Hk. apply (reads_bind _ _ [b] _ b); [|done]. unfold read_flag.
  eapply reads_bind_eq; [symmetry; apply app_nil_r|rewrite <- (bits_of_Z_b2z b); apply reads_field; [lia|apply b2z_is_u]|].
  apply reads_ret_eq, b2z_nonzero.
Qed.

#[global] Instance bs_service_details_codec :
  BitCodec (λ _, True) service_bits bs_service_details_to_bitbuf bs_service_details_from_bitbuf.
Proof.
  split; intros d _; unfold service_bits.
  - do 8 apply writes_flag. apply (writes_bind _ _ [false]); [apply (writes_bits 0 1); [lia|done]|].
    do 2 apply writes_flag. rewrite <- (bits_of_Z_b2z (bsd_advanced_link d)). apply writes_bits; [lia|apply b2z_is_u].
  - do 8 apply reads_flag. apply (reads_bind _ _ [false] _ 0%Z); [apply (reads_field 1 _ 0%Z); [lia|done]|].
    do 3 apply reads_flag. destruct d. apply reads_ret.
Qed.

Lemma bs_service_details_safe : parser_safe bs_service_details_from_bitbuf.
Proof. unfold bs_service_details_from_bitbuf, read_flag. pdu_safe. Qed.
#[export] Hint Resolve bs_service_details_safe : parser_safe.

Lemma opt_ok_True {T} (o : option T) : opt_ok (λ _, True) o.
Proof. by destruct o. Qed.
#[export] Hint Resolve opt_ok_True : pdu.

(** The fields of a neighbour cell fit their widths on the air. *)
Definition neighbour_ok (n : NeighbourCellInformationForCa) : Prop :=
  is_u 5 (nci_cell_identifier_ca n) ∧ is_u 2 (nci_cell_reselection_types_supported n) ∧ is_u 2 (nci_cell_load_ca n) ∧
  is_u 12 (nci_main_carrier_number n) ∧ t2_ok 10 (nci_main_carrier_number_extension n) ∧ t2_ok 10 (nci_mcc n) ∧
  t2_ok 14 (nci_mnc n) ∧ t2_ok 14 (nci_location_area n) ∧ t2_ok 3 (nci_maximum_ms_transmit_power n) ∧
  t2_ok 4 (nci_minimum_rx_access_level n) ∧ t2_ok 16 (nci_subscriber_class n) ∧
  t2_ok 5 (nci_timeshare_cell_information_or_security_parameters n) ∧ t2_ok 6 (nci_tdma_frame_offset n).

Definition neighbour_bits (n : NeighbourCellInformationForCa) : list bool :=
  bits_of_Z 5 (nci_cell_identifier_ca n) ++ bits_of_Z 2 (nci_cell_reselection_types_supported n) ++
  bits_of_Z 1 (Z.b2z (nci_neighbour_cell_synchronized n)) ++ bits_of_Z 2 (nci_cell_load_ca n) ++
  bits_of_Z 12 (nci_main_carrier_number n) ++
  obit_bits (neighbour_obit n)
    (t2_bits 10 (nci_main_carrier_number_extension n) ++ t2_bits 10 (nci_mcc n) ++ t2_bits 14 (nci_mnc n) ++
     t2_bits 14 (nci_location_area n) ++ t2_bits 3 (nci_maximum_ms_transmit_power n) ++
     t2_bits 4 (nci_minimum_rx_access_level n) ++ t2_bits 16 (nci_subscriber_class n) ++
     enc_type2 service_bits (nci_bs_service_details n) ++
     t2_bits 5 (nci_timeshare_cell_information_or_security_parameters n) ++ t2_bits 6 (nci_tdma_frame_offset n)).

Lemma ensure_bits_spec v n field bb : n < 64 → (0 ≤ v)%Z → ensure_bits v n field bb =
  if decide (is_u (Z.of_nat n) v) then Ok tt bb else Err (InvalidValue field v) bb.
Proof.
  intros Hn Hv. unfold ensure_bits. rewrite (proj2 (Nat.leb_gt 64 n)) by lia. cbv zeta.
  assert (wrap 64 (Z.shiftl 1 (Z.of_nat n)) = 2 ^ Z.of_nat n)%Z as ->.
  { rewrite Z.shiftl_1_l. apply wrap_small. split; [lia|]. apply Z.pow_lt_mono_r; lia. }
  unfold is_u. rewrite Z.gtb_ltb. destruct (Z.ltb_spec (2 ^ Z.of_nat n - 1) v); case_decide; [lia|done|done|lia].
Qed.

Lemma pure_ensure v n field : n < 64 → is_u (Z.of_nat n) v → pure_step (ensure_bits v n field) tt.
Proof. intros Hn Hv bb. rewrite ensure_bits_spec by (done || apply Hv). by rewrite decide_True. Qed.

Lemma pure_ensure_opt o n field : n < 64 → t2_ok n o → pure_step (ensure_opt_bits o n field) tt.
Proof. intros Hn Ho. destruct o; [by apply pure_ensure|done]. Qed.

Lemma pure_seq (m k : B unit) : pure_step m tt → pure_step k tt → pure_step (m;; k) tt.
Proof. intros Hm Hk bb. erewrite bind_ok by apply Hm. apply Hk. Qed.

Lemma neighbour_checks_pass n : neighbour_ok n → pure_step (neighbour_checks n) tt.
Proof.
  intros (? & ? & ? & ? & ? & ? & ? & ? & ? & ? & ? & ? & ?). unfold neighbour_checks.
  repeat apply pure_seq; first [apply pure_ensure; [lia|done]|apply pure_ensure_opt; [lia|done]].
Qed.

Lemma t2_wrap n w o : t2_ok n o → n ≤ w → wrap (Z.of_nat w) <$> o = o.
Proof. intros Ho Hw. destruct o; cbn; [|done]. f_equal. eapply wrap_fits; [exact Ho|lia]. Qed.

#[global] Instance neighbour_codec : BitCodec neighbour_ok neighbour_bits neighbour_to_bitbuf neighbour_from_bitbuf.
Proof.
  split; intros n Hok; unfold neighbour_bits.
  - eapply writes_pure; [by apply neighbour_checks_pass|]. destruct Hok as (? & ? & ? & ? & ? & ? & ? & ? & ? & ? & ? & ? & ?).
    do 5 (eapply writes_bind; [pdu_write|]). destruct (neighbour_obit n) eqn:Ho; cbn [obit_bits].
    + apply (writes_bind _ _ [true]); [apply writes_obit|]. unfold neighbour_options. pdu_writes.
    + revert Ho. destruct n. unfold neighbour_obit. cbn in *. pdu_none. apply (writes_bind _ _ [false] []); [apply writes_obit|]. apply writes_ret.
  - destruct Hok as (? & ? & ? & ? & ? & ? & ? & ? & ? & ? & ? & ? & ?). unfold neighbour_from_bitbuf.
    do 5 (eapply reads_step; [pdu_read|]). cbv beta. eapply reads_tail; intros Ho.
    + rewrite <- (app_nil_r (t2_bits 6 _)). do 10 (eapply reads_step; [pdu_read|]). apply reads_ret_eq.
      destruct n; cbn in *. f_equal; first [by eapply wrap_fits; [eassumption|lia]|by apply b2z_nonzero|done|by eapply (t2_wrap _ 16); [eassumption|lia]|by eapply (t2_wrap _ 8); [eassumption|lia]].
    + revert Ho. unfold neighbour_obit. destruct n; cbn in *. pdu_none. do 10 (eapply reads_pure; [pdu_pure|]).
      apply reads_ret_eq. cbn. f_equal; first [by eapply wrap_fits; [eassumption|lia]|by apply b2z_nonzero|done].
Qed.

Lemma neighbour_safe : parser_safe neighbour_from_bitbuf.
Proof. pdu_safe. Qed.
#[export] Hint Resolve neighbour_safe : parser_safe.

(** A list of elements of one kind, one after the other. *)
Section elements.
Context {A : Type} (valid : A → Prop) (enc : A → list bool) (to_bitbuf : A → B unit) (from_bitbuf : B A).
Context `{!BitCodec valid enc to_bitbuf from_bitbuf}.

Lemma writes_each xs : Forall valid xs → writes (write_each to_bitbuf xs) (mjoin (enc <$> xs)).
Proof. induction 1; [apply writes_ret|]. eapply writes_bind; [by apply codec_writes|done]. Qed.

Lemma reads_times xs : Forall valid xs → reads (parse_times (length xs) from_bitbuf) (mjoin (enc <$> xs)) xs.
Proof.
  induction 1; [apply reads_ret|]. eapply reads_bind; [by apply codec_reads|].
  eapply reads_bind_eq; [symmetry; apply app_nil_r|done|apply reads_ret].
Qed.

Lemma safe_times n : parser_safe from_bitbuf → parser_safe (parse_times n from_bitbuf).
Proof. intros Hs. induction n; [apply safe_ret|]. apply safe_bind; [done|]. intros. apply safe_bind; [done|]. intros. apply safe_ret. Qed.
End elements.

Definition d_nwrk_broadcast_ok (p : DNwrkBroadcast) : Prop :=
  is_u 16 (dnb_cell_re_select_parameters p) ∧ is_u 2 (dnb_cell_load_ca p) ∧ t2_ok 48 (dnb_tetra_network_time p) ∧
  Forall neighbour_ok (dnb_neighbour_cell_information_for_ca p) ∧
  length (dnb_neighbour_cell_information_for_ca p) ≤ 7 ∧
  match dnb_number_of_ca_neighbour_cells p with
  | Some c => c = Z.of_nat (length (dnb_neighbour_cell_information_for_ca p))
  | None => dnb_neighbour_cell_information_for_ca p = []
  end.

Definition d_nwrk_broadcast_bits (p : DNwrkBroadcast) : list bool :=
  bits_of_Z 3 2 ++ bits_of_Z 16 (dnb_cell_re_select_parameters p) ++ bits_of_Z 2 (dnb_cell_load_ca p) ++
  obit_bits (is_some (dnb_tetra_network_time p) || is_some (dnb_number_of_ca_neighbour_cells p))
    (t2_bits 48 (dnb_tetra_network_time p) ++ t2_bits 3 (dnb_number_of_ca_neighbour_cells p) ++
     mjoin (neighbour_bits <$> dnb_neighbour_cell_information_for_ca p)).

Lemma d_nwrk_broadcast_count_ok p : d_nwrk_broadcast_ok p → t2_ok 3 (dnb_number_of_ca_neighbour_cells p).
Proof. intros (_ & _ & _ & _ & Hl & Hc). destruct (dnb_number_of_ca_neighbour_cells p); [|done]. subst. unfold t2_ok, is_u. lia. Qed.

Lemma d_nwrk_broadcast_checks_pass p : d_nwrk_broadcast_ok p → pure_step (d_nwrk_broadcast_checks p) tt.
Proof.
  intros (_ & _ & _ & _ & Hl & Hc) bb. unfold d_nwrk_broadcast_checks. destruct (dnb_number_of_ca_neighbour_cells p).
  - subst. rewrite Z.eqb_refl. cbn [negb]. rewrite Z.gtb_ltb, (proj2 (Z.ltb_ge _ _)) by lia. done.
  - by rewrite Hc.
Qed.

#[global] Instance d_nwrk_broadcast_codec :
  BitCodec d_nwrk_broadcast_ok d_nwrk_broadcast_bits d_nwrk_broadcast_to_bitbuf d_nwrk_broadcast_from_bitbuf.
Proof.
  split; intros p Hok; pose proof (d_nwrk_broadcast_count_ok p Hok) as Hcount.
  - eapply writes_pure; [by apply d_nwrk_broadcast_checks_pass|]. destruct Hok as (? & ? & ? & Hn & Hl & Hc).
    do 3 (eapply writes_bind; [pdu_write|]). cbv zeta. eapply writes_tail. intros Ho. rewrite Ho.
    do 2 (eapply writes_bind; [pdu_write|]). destruct (dnb_number_of_ca_neighbour_cells p) as [c|]; cbn [default].
    + subst c. destruct (dnb_neighbour_cell_information_for_ca p) eqn:E; [apply writes_ret|]. cbn [length id].
      rewrite Z.gtb_ltb, (proj2 (Z.ltb_lt _ _)) by lia. by apply (writes_each neighbour_ok neighbour_bits neighbour_to_bitbuf neighbour_from_bitbuf).
    + rewrite Hc. apply writes_ret.
  - destruct Hok as (? & ? & ? & Hn & Hl & Hc). unfold d_nwrk_broadcast_from_bitbuf.
    eapply reads_step; [pdu_read|]. eapply reads_pure; [pdu_pure|]. do 2 (eapply reads_step; [pdu_read|]). cbv beta.
    eapply reads_tail; intros Ho.
    + do 2 (eapply reads_step; [pdu_read|]). cbv zeta. rewrite (t2_wrap 3 8) by (done || lia).
      eapply reads_bind_eq; [symmetry; apply app_nil_r| |]; [|apply reads_ret_eq].
      * instantiate (1 := dnb_neighbour_cell_information_for_ca p).
        destruct (dnb_number_of_ca_neighbour_cells p) as [c|]; [|rewrite Hc; apply reads_ret].
        subst c. rewrite Z.gtb_ltb, (proj2 (Z.ltb_ge _ _)), Nat2Z.id by lia. by apply (reads_times neighbour_ok neighbour_bits neighbour_to_bitbuf neighbour_from_bitbuf).
      * destruct p; cbn in *. f_equal; by eapply wrap_fits; [eassumption|lia].
    + destruct p; cbn in *. pdu_none. subst. do 2 (eapply reads_pure; [pdu_pure|]). eapply reads_pure; [apply pure_ret|].
      apply reads_ret_eq. f_equal; by eapply wrap_fits; [eassumption|lia].
Qed.

Lemma d_nwrk_broadcast_safe : parser_safe d_nwrk_broadcast_from_bitbuf.
Proof.
  apply safe_field_bind. intros. apply safe_bind; [apply safe_expect|]. intros.
  repeat first [apply safe_field_bind; intros|apply safe_t2_bind; intros|apply safe_bind; [apply safe_read_obit|intros]].
  cbv zeta. apply safe_bind; [|intros; apply safe_ret]. case_match; [|apply safe_ret]. case_match; [apply safe_fail|].
  apply safe_times, neighbour_safe.
Qed.

(** A broadcast that does not fit its PDU is refused before anything is written. *)
Lemma d_nwrk_broadcast_refused p bb : (7 < Z.of_nat (length (dnb_neighbour_cell_information_for_ca p)))%Z →
  ∃ e, d_nwrk_broadcast_to_bitbuf p bb = Err e bb.
Proof.
  intros Hl. unfold d_nwrk_broadcast_to_bitbuf, d_nwrk_broadcast_checks.
  destruct (dnb_number_of_ca_neighbour_cells p) as [c|].
  - destruct (Z.eqb_spec c (Z.of_nat (length (dnb_neighbour_cell_information_for_ca p)))) as [->|]; [|by eexists].
    cbn [negb]. rewrite (Z.gtb_ltb _ 7), (proj2 (Z.ltb_lt 7 _)) by lia. by eexists.
  - rewrite (proj2 (Nat.ltb_lt _ _)) by lia. by eexists.
Qed.

Definition d_channel_response_ok (p : DChannelResponse) : Prop :=
  is_u 3 (dcr_reason_for_the_channel_request p) ∧ is_u 4 (dcr_channel_request_retry_delay p) ∧
  t2_ok 8 (dcr_reserved1 p) ∧ t2_ok 8 (dcr_reserved2 p).

(** The finished PDUs round trip; a received D-RESTORE-FAIL or
    D-CHANNEL-RESPONSE never panics. *)
Lemma mle_finished_roundtrip p q r :
  (d_nwrk_broadcast_ok p → roundtrips (d_nwrk_broadcast_to_bitbuf p) d_nwrk_broadcast_from_bitbuf p) ∧
  (d_channel_response_ok q → roundtrips (d_channel_response_to_bitbuf q) d_channel_response_from_bitbuf q) ∧
  (is_u 2 (drf_fail_cause r) → roundtrips (d_restore_fail_to_bitbuf r) d_restore_fail_from_bitbuf r).
Proof.
  split_and!.
  - intros Hp. exists (d_nwrk_broadcast_bits p). split; [by apply codec_writes|by apply codec_reads].
  - destruct q as [t r' d o1 o2]. unfold d_channel_response_ok, d_channel_response_to_bitbuf, d_channel_response_from_bitbuf.
    cbn [dcr_channel_response_type dcr_reason_for_the_channel_request dcr_channel_request_retry_delay dcr_reserved1
      dcr_reserved2]. intros (? & ? & ? & ?). eexists; split; [pdu_writes|pdu_reads].
  - intros Hr. eexists. split; [unfold d_restore_fail_to_bitbuf; pdu_writes|].
    unfold d_restore_fail_from_bitbuf. destruct r as [c]. cbn [drf_fail_cause] in *. eapply reads_step; [pdu_read|]. eapply reads_pure; [pdu_pure|].
    eapply reads_step; [pdu_read|]. cbv beta zeta. apply (reads_step _ _ [false] [] false); [apply reads_reads_then, reads_obit|].
    apply (reads_finish false). f_equal. by eapply wrap_fits; [eassumption|lia].
Qed.

Lemma mle_finished_safe : parser_safe d_nwrk_broadcast_from_bitbuf ∧ parser_safe d_channel_response_from_bitbuf ∧
  parser_safe d_restore_fail_from_bitbuf.
Proof. split_and!; [apply d_nwrk_broadcast_safe|pdu_safe|pdu_safe]. Qed.

(** The parsers of the unfinished PDUs never return a PDU. *)
Lemma mle_unfinished_never_parse bb :
  (∀ p bb', d_new_cell_from_bitbuf bb ≠ Ok p bb') ∧ (∀ p bb', d_prepare_fail_from_bitbuf bb ≠ Ok p bb') ∧
  (∀ p bb', d_restore_ack_from_bitbuf bb ≠ Ok p bb') ∧ (∀ p bb', d_nwrk_broadcast_remove_from_bitbuf bb ≠ Ok p bb') ∧
  (∀ p bb', u_channel_class_advice_from_bitbuf bb ≠ Ok p bb') ∧ (∀ p bb', u_prepare_from_bitbuf bb ≠ Ok p bb') ∧
  (∀ p bb', u_restore_from_bitbuf bb ≠ Ok p bb').
Proof.
  split_and!; intros p bb' H; match type of H with ?f _ = _ => unfold f in H end; repeat match type of H with
    | (_ ≫= _) _ = Ok _ _ => let x := fresh in let s := fresh in apply bind_ok_inv in H as (x & s & _ & H) end;
    discriminate H.
Qed.
