(* ===== verification/BsSchedUlSpec.v ===== *)
(** The uplink side of the scheduler
    (tetra-entities/src/umac/subcomp/bs_sched.rs): which terminal may use which
    uplink slot.

    [UlScheduler] holds the three fields of [BsChannelScheduler] this part of
    the code works on.  [None] is a panic: a failed assertion, an index out of
    range, or an unsigned subtraction below zero.

    The uplink scheduler against its specification: a capacity request gets the
    first run of free opportunities that is long enough, within the delay a
    slot grant can express, and a granted slot stays with its terminal until it
    has passed, whatever else is requested in the meantime. *)
From S2P Require Import Prelude Bits Core TdmaTime MacDl MacDlSpec MacBcast MacBcastSpec.

(** * Capacity requests (tetra-pdus/src/umac/enums/reservation_requirement.rs) *)

Inductive ReservationRequirement : Type :=
| Req1Subslot | Req1Slot | Req2Slots | Req3Slots | Req4Slots | Req5Slots | Req6Slots | Req8Slots
| Req10Slots | Req13Slots | Req17Slots | Req24Slots | Req34Slots | Req51Slots | Req68Slots | ReqOver68.

#[global] Instance ReservationRequirement_eq_dec : EqDecision ReservationRequirement.
Proof. solve_decision. Defined.

Definition res_req_try_from (x : Z) : option ReservationRequirement :=
  match x with
  | 0 => Some Req1Subslot | 1 => Some Req1Slot | 2 => Some Req2Slots | 3 => Some Req3Slots
  | 4 => Some Req4Slots | 5 => Some Req5Slots | 6 => Some Req6Slots | 7 => Some Req8Slots
  | 8 => Some Req10Slots | 9 => Some Req13Slots | 10 => Some Req17Slots | 11 => Some Req24Slots
  | 12 => Some Req34Slots | 13 => Some Req51Slots | 14 => Some Req68Slots | 15 => Some ReqOver68
  | _ => None
  end%Z.

Definition res_req_into_raw (r : ReservationRequirement) : Z :=
  match r with
  | Req1Subslot => 0 | Req1Slot => 1 | Req2Slots => 2 | Req3Slots => 3 | Req4Slots => 4 | Req5Slots => 5
  | Req6Slots => 6 | Req8Slots => 7 | Req10Slots => 8 | Req13Slots => 9 | Req17Slots => 10
  | Req24Slots => 11 | Req34Slots => 12 | Req51Slots => 13 | Req68Slots => 14 | ReqOver68 => 15
  end.

Definition res_req_from_req_slotcount (req : nat) : ReservationRequirement :=
  if req =? 0 then Req1Subslot
  else if req =? 1 then Req1Slot else if req =? 2 then Req2Slots else if req =? 3 then Req3Slots
  else if req =? 4 then Req4Slots else if req =? 5 then Req5Slots else if req =? 6 then Req6Slots
  else if req <=? 8 then Req8Slots else if req <=? 10 then Req10Slots else if req <=? 13 then Req13Slots
  else if req <=? 17 then Req17Slots else if req <=? 24 then Req24Slots else if req <=? 34 then Req34Slots
  else if req <=? 51 then Req51Slots else if req <=? 68 then Req68Slots else ReqOver68.

Definition res_req_to_req_slotcount (r : ReservationRequirement) : nat :=
  match r with
  | Req1Subslot => 0 | Req1Slot => 1 | Req2Slots => 2 | Req3Slots => 3 | Req4Slots => 4 | Req5Slots => 5
  | Req6Slots => 6 | Req8Slots => 8 | Req10Slots => 10 | Req13Slots => 13 | Req17Slots => 17
  | Req24Slots => 24 | Req34Slots => 34 | Req51Slots => 51 | Req68Slots => 68 | ReqOver68 => 68
  end.

(** * The schedule *)

Definition MACSCHED_NUM_FRAMES : nat := 18.
Definition MAX_GRANTING_DELAY_OPPORTUNITIES : nat := 13.

Record TimeslotSchedule : Type := mkSlotSched {
  tsl_ul1 : option Z;
  tsl_ul2 : option Z;
  tsl_usage_marker : option Z
}.

#[global] Instance TimeslotSchedule_eq_dec : EqDecision TimeslotSchedule.
Proof. solve_decision. Defined.

Definition EMPTY_SCHED_ELEM : TimeslotSchedule := mkSlotSched None None None.
Definition EMPTY_SCHED_CHANNEL : list TimeslotSchedule := replicate MACSCHED_NUM_FRAMES EMPTY_SCHED_ELEM.
Definition EMPTY_SCHED : list (list TimeslotSchedule) := replicate 4 EMPTY_SCHED_CHANNEL.

Record UlScheduler : Type := mkUl {
  ul_cur_dltime : TdmaTime;
  ul_ulsched : list (list TimeslotSchedule);
  ul_next_usage_marker : list Z
}.

(** The fields as [BsChannelScheduler::new] sets them. *)
Definition ul_new : UlScheduler := mkUl (mkTime 0 0 0 0) EMPTY_SCHED [4; 4; 4; 4]%Z.

(** The uplink part of [set_dl_time], which calls [purge_schedule]. *)
Definition ul_purge_schedule (s : UlScheduler) : UlScheduler :=
  mkUl (ul_cur_dltime s) EMPTY_SCHED (ul_next_usage_marker s).
Definition ul_set_dl_time (new_ts : TdmaTime) (s : UlScheduler) : UlScheduler :=
  ul_purge_schedule (mkUl new_ts (ul_ulsched s) (ul_next_usage_marker s)).

Definition ul_ts_to_sched_index (ts : TdmaTime) : option nat :=
  check (1 <=? tt_f ts)%Z;;
  check (1 <=? tt_m ts)%Z;;
  let to_index := ((tt_f ts - 1) + ((tt_m ts - 1) * 18) + (tt_h ts * 18 * 60))%Z in
  Some (Z.to_nat (to_index mod Z.of_nat MACSCHED_NUM_FRAMES)).

(** [ulsched[t - 1][index]] *)
Definition sched_get (t : Z) (index : nat) (sched : list (list TimeslotSchedule)) : option TimeslotSchedule :=
  check (1 <=? t)%Z;;
  row ← sched !! Z.to_nat (t - 1);
  row !! index.

(** Assignment to [ulsched[t - 1][index]], where that exists. *)
Definition sched_set (t : Z) (index : nat) (e : TimeslotSchedule) (sched : list (list TimeslotSchedule)) :
    list (list TimeslotSchedule) :=
  alter (λ row, <[index:=e]> row) (Z.to_nat (t - 1)) sched.

(** * Granting *)

(** The loop of [ul_find_grant_opportunity] over the distances still to look at. *)
Fixpoint ul_find_loop (sched : list (list TimeslotSchedule)) (first_opportunity : TdmaTime) (t : Z) (num_slots : nat)
    (is_halfslot : bool) (dists : list nat) (opportunities_skipped : nat) (grant_timeslots : list TdmaTime) :
    option (option (nat * list TdmaTime)) :=
  match dists with
  | [] => Some None
  | dist :: dists =>
      let candidate_t := add_timeslots first_opportunity (Z.of_nat dist * 4) in
      check (tt_t candidate_t =? tt_t first_opportunity)%Z;;
      if is_mandatory_clch candidate_t then
        ul_find_loop sched first_opportunity t num_slots is_halfslot dists opportunities_skipped grant_timeslots
      else if (tt_f candidate_t =? 18)%Z then
        ul_find_loop sched first_opportunity t num_slots is_halfslot dists opportunities_skipped grant_timeslots
      else
        index ← ul_ts_to_sched_index candidate_t;
        elem ← sched_get t index sched;
        let '(opportunities_skipped, grant_timeslots) :=
          if (is_none (tsl_ul1 elem) && is_none (tsl_ul2 elem)) ||
             (is_halfslot && (is_none (tsl_ul1 elem) || is_none (tsl_ul2 elem)))
          then (opportunities_skipped, grant_timeslots ++ [candidate_t])
          else (opportunities_skipped + (length grant_timeslots + 1), []) in
        if length grant_timeslots =? num_slots then Some (Some (opportunities_skipped, grant_timeslots))
        else ul_find_loop sched first_opportunity t num_slots is_halfslot dists opportunities_skipped grant_timeslots
  end.

Definition ul_find_grant_opportunity (t : Z) (num_slots : nat) (is_halfslot : bool) (s : UlScheduler) :
    option (option (nat * list TdmaTime)) :=
  let first_opportunity := forward_to_timeslot (ul_cur_dltime s) t in
  check (negb is_halfslot || (num_slots =? 1));;
  ul_find_loop (ul_ulsched s) first_opportunity t num_slots is_halfslot
    (seq 0 (MACSCHED_NUM_FRAMES - 1)) 0 [].

(** The loop of [ul_reserve_grant]; the result is the returned subslot. *)
Fixpoint ul_reserve_loop (ssi : Z) (grant_timestamps : list TdmaTime) (is_halfslot : bool) (usage_marker : option Z)
    (sched : list (list TimeslotSchedule)) : option (Z * list (list TimeslotSchedule)) :=
  match grant_timestamps with
  | [] => Some (0%Z, sched)
  | ts :: grant_timestamps =>
      index ← ul_ts_to_sched_index ts;
      elem ← sched_get (tt_t ts) index sched;
      let marker := match usage_marker with Some m => Some m | None => tsl_usage_marker elem end in
      if is_halfslot then
        if is_none (tsl_ul1 elem) then
          Some (1%Z, sched_set (tt_t ts) index (mkSlotSched (Some ssi) (tsl_ul2 elem) marker) sched)
        else
          check (is_none (tsl_ul2 elem));;
          Some (2%Z, sched_set (tt_t ts) index (mkSlotSched (tsl_ul1 elem) (Some ssi) marker) sched)
      else
        check (is_none (tsl_ul1 elem));;
        check (is_none (tsl_ul2 elem));;
        ul_reserve_loop ssi grant_timestamps is_halfslot usage_marker
          (sched_set (tt_t ts) index (mkSlotSched (Some ssi) (Some ssi) marker) sched)
  end.

Definition ul_reserve_grant (ssi : Z) (grant_timestamps : list TdmaTime) (is_halfslot : bool) (usage_marker : option Z)
    (s : UlScheduler) : option (Z * UlScheduler) :=
  check (negb (bool_decide (grant_timestamps = [])));;
  check (negb is_halfslot || (length grant_timestamps =? 1));;
  '(subslot, sched) ← ul_reserve_loop ssi grant_timestamps is_halfslot usage_marker (ul_ulsched s);
  Some (subslot, mkUl (ul_cur_dltime s) sched (ul_next_usage_marker s)).

Definition alloc_usage_marker (timeslot : Z) (s : UlScheduler) : option (Z * UlScheduler) :=
  check (1 <=? timeslot)%Z;;
  let idx := Z.to_nat (timeslot - 1) `min` 3 in
  marker ← ul_next_usage_marker s !! idx;
  let next := if (62 <=? marker)%Z then 4%Z else (marker + 1)%Z in
  Some (marker, mkUl (ul_cur_dltime s) (ul_ulsched s) (<[idx:=next]> (ul_next_usage_marker s))).

Definition ul_process_cap_req (timeslot : Z) (addr : TetraAddress) (res_req : ReservationRequirement)
    (s : UlScheduler) : option (option (BasicSlotgrant * option Z) * UlScheduler) :=
  let is_halfslot := bool_decide (res_req = Req1Subslot) in
  let requested_cap := if is_halfslot then 1 else res_req_to_req_slotcount res_req in
  grant_op ← ul_find_grant_opportunity timeslot requested_cap is_halfslot s;
  match grant_op with
  | Some (skips, grant_timestamps) =>
      if MAX_GRANTING_DELAY_OPPORTUNITIES <? skips then Some (None, s)
      else
        '(usage_marker, s) ←
          (if negb is_halfslot && (2 <=? requested_cap)
           then '(m, s) ← alloc_usage_marker timeslot s; Some (Some m, s) else Some (None, s));
        '(subslot, s) ← ul_reserve_grant (ssi addr) grant_timestamps is_halfslot usage_marker s;
        cap_alloc ←
          (if bool_decide (res_req = Req1Subslot) then
             if (subslot =? 1)%Z then Some FirstSubslotGranted
             else if (subslot =? 2)%Z then Some SecondSubslotGranted else None
           else from_req_slotcount requested_cap);
        let grant_delay :=
          if skips =? 0 then CapAllocAtNextOpportunity else DelayNOpportunities (wrap 8 (Z.of_nat skips)) in
        Some (Some (mkSlotgrant cap_alloc grant_delay, usage_marker), s)
  | None => Some (None, s)
  end.

(** * Queries *)

Inductive PhyBlockNum : Type := PbBoth | PbBlock1 | PbBlock2 | PbUndefined.

Definition ul_get_slot_owner (ts : TdmaTime) (slot : PhyBlockNum) (s : UlScheduler) : option (option Z) :=
  index ← ul_ts_to_sched_index ts;
  sched ← sched_get (tt_t ts) index (ul_ulsched s);
  match slot with
  | PbBlock1 => Some (tsl_ul1 sched)
  | PbBlock2 => Some (tsl_ul2 sched)
  | PbBoth => if bool_decide (tsl_ul1 sched = tsl_ul2 sched) then Some (tsl_ul1 sched) else Some None
  | PbUndefined => None
  end.

Definition ul_get_usage (ts : TdmaTime) (s : UlScheduler) : option AccessAssignUlUsage :=
  index ← ul_ts_to_sched_index ts;
  ul_sched ← sched_get (tt_t ts) index (ul_ulsched s);
  match tsl_ul1 ul_sched, tsl_ul2 ul_sched with
  | Some _, Some _ =>
      Some (match tsl_usage_marker ul_sched with Some marker => UuTraffic marker | None => UuAssignedOnly end)
  | Some _, None =>
      Some (match tsl_usage_marker ul_sched with Some marker => UuTraffic marker | None => UuCommonAndAssigned end)
  | None, None => Some UuCommonOnly
  | None, Some _ => None
  end.

(** * The passing of time *)

Definition clear_ul_schedule_for_tx_time (ts : TdmaTime) (s : UlScheduler) : option UlScheduler :=
  index ← ul_ts_to_sched_index (add_timeslots ts (-4));
  _ ← sched_get (tt_t ts) index (ul_ulsched s);
  Some (mkUl (ul_cur_dltime s) (sched_set (tt_t ts) index EMPTY_SCHED_ELEM (ul_ulsched s)) (ul_next_usage_marker s)).

(** [self.cur_dltime = self.cur_dltime.add_timeslots(1)] and the assertion of [tick_start]. *)
Definition ul_tick_start (ts : TdmaTime) (s : UlScheduler) : option UlScheduler :=
  let cur_dltime := add_timeslots (ul_cur_dltime s) 1 in
  check (bool_decide (ts = cur_dltime));;
  Some (mkUl cur_dltime (ul_ulsched s) (ul_next_usage_marker s)).

(** * Positions in the ring *)

(** The schedule repeats after 72 slots: 18 frames of 4 timeslots. *)
Definition ring_pos (x : TdmaTime) : Z := (tt_t x - 1) + 4 * (tt_f x - 1).

Lemma ring_pos_index x : valid_time x → ring_pos x = (slot_index x mod 72)%Z ∧ (0 ≤ ring_pos x < 72)%Z.
Proof.
  intros Hv%valid_time_ranges. unfold ring_pos, slot_index. split; [|lia].
  replace (tt_t x - 1 + 4 * (tt_f x - 1 + 18 * (tt_m x - 1 + 60 * tt_h x)))%Z
    with (tt_t x - 1 + 4 * (tt_f x - 1) + (tt_m x - 1 + 60 * tt_h x) * 72)%Z by lia.
  rewrite Z.mod_add, Z.mod_small by lia. done.
Qed.

Lemma add_valid x n : valid_time (add_timeslots x n).
Proof. apply from_int_valid. Qed.
#[local] Hint Resolve add_valid : core.
#[local] Opaque add_timeslots forward_to_timeslot slot_index.

Lemma ring_pos_add x n : valid_time x → (-1000 ≤ n ≤ 1000)%Z → ring_pos (add_timeslots x n) = ((ring_pos x + n) mod 72)%Z.
Proof.
  intros Hv Hn. destruct (ring_pos_index x Hv) as [-> _], (ring_pos_index _ (add_valid x n)) as [-> _].
  rewrite add_timeslots_index by (done || (unfold TIME_INT_WRAP; lia)).
  rewrite Zplus_mod_idemp_l. change TIME_INT_WRAP with (3932160 * 72)%Z.
  rewrite Z.mul_comm, Z.rem_mul_r by lia. rewrite Z.mul_comm, Z.mod_add, Z.mod_mod by lia. done.
Qed.

Lemma ring_pos_fields x : valid_time x →
  tt_t x = (ring_pos x mod 4 + 1)%Z ∧ tt_f x = (ring_pos x / 4 + 1)%Z.
Proof.
  intros Hv%valid_time_ranges. unfold ring_pos. split.
  - rewrite Z.mul_comm, Z.mod_add, Z.mod_small by lia. lia.
  - rewrite Z.mul_comm, Z.div_add, Z.div_small by lia. lia.
Qed.

(** * Entries by time *)

Abbreviation ulsched := (list (list TimeslotSchedule)).

Definition time_index (x : TdmaTime) : nat := Z.to_nat (tt_f x - 1).
Definition slot_at (x : TdmaTime) (sched : ulsched) : option TimeslotSchedule := sched_get (tt_t x) (time_index x) sched.

Definition shape (sched : ulsched) : Prop := length sched = 4 ∧ Forall (λ row, length row = 18) sched.

Lemma sched_index x : valid_time x → ul_ts_to_sched_index x = Some (time_index x).
Proof.
  intros Hv%valid_time_ranges. unfold ul_ts_to_sched_index, time_index.
  destruct (Z.leb_spec 1 (tt_f x)), (Z.leb_spec 1 (tt_m x)); try lia. cbn [check mbind option_bind].
  change (Z.of_nat MACSCHED_NUM_FRAMES) with 18%Z.
  replace (tt_f x - 1 + (tt_m x - 1) * 18 + tt_h x * 18 * 60)%Z
    with (tt_f x - 1 + (tt_m x - 1 + tt_h x * 60) * 18)%Z by lia.
  rewrite Z.mod_add, Z.mod_small by lia. done.
Qed.

Lemma slot_at_Some x sched : valid_time x → shape sched → is_Some (slot_at x sched).
Proof.
  intros Hv%valid_time_ranges [Hl Hr]. unfold slot_at, sched_get.
  destruct (Z.leb_spec 1 (tt_t x)); [|lia]. cbn [check mbind option_bind].
  destruct (lookup_lt_is_Some_2 sched (Z.to_nat (tt_t x - 1))) as [row Hrow]; [lia|]. rewrite Hrow. cbn [mbind option_bind].
  apply lookup_lt_is_Some_2. rewrite Forall_lookup in Hr. rewrite (Hr _ _ Hrow). unfold time_index. lia.
Qed.

Lemma shape_set t i e sched : shape sched → shape (sched_set t i e sched).
Proof.
  intros [Hl Hr]. unfold sched_set. split; [by rewrite length_alter|]. rewrite Forall_lookup in *. intros j row Hj.
  destruct (decide (j = Z.to_nat (t - 1))) as [->|Hne].
  - rewrite list_lookup_alter_eq in Hj. destruct (sched !! _) as [row'|] eqn:E; [|done]. cbn in Hj. simplify_eq.
    rewrite length_insert. eauto.
  - rewrite list_lookup_alter_ne in Hj by done. eauto.
Qed.

Lemma slot_at_set x y e sched : valid_time x → valid_time y → shape sched →
  slot_at x (sched_set (tt_t y) (time_index y) e sched) =
  if decide (ring_pos x = ring_pos y) then Some e else slot_at x sched.
Proof.
  intros Hx Hy Hs. destruct (slot_at_Some x sched Hx Hs) as [e0 He0], (slot_at_Some y sched Hy Hs) as [e1 He1].
  apply valid_time_ranges in Hx, Hy. unfold slot_at, sched_get, sched_set in *.
  destruct (Z.leb_spec 1 (tt_t x)), (Z.leb_spec 1 (tt_t y)); try lia. cbn [check mbind option_bind] in *.
  destruct (decide (tt_t x = tt_t y)) as [Ht|Ht].
  - rewrite <-Ht, list_lookup_alter_eq in *. destruct (sched !! _) as [row|] eqn:E; [|done]. cbn [mbind option_bind fmap option_fmap option_map] in *.
    unfold time_index in *. destruct (decide (tt_f x = tt_f y)) as [Hf|Hf].
    + rewrite decide_True by (unfold ring_pos; lia). rewrite Hf. apply list_lookup_insert_eq. by apply lookup_lt_Some in He1.
    + rewrite decide_False by (unfold ring_pos; lia). by rewrite list_lookup_insert_ne by lia.
  - rewrite list_lookup_alter_ne by lia. by rewrite decide_False by (unfold ring_pos; lia).
Qed.

(** * The invariant *)

(** A subslot is taken from the front; a marker belongs to a slot that one terminal owns alone. *)
Definition slot_ok (e : TimeslotSchedule) : Prop :=
  match tsl_ul1 e, tsl_ul2 e, tsl_usage_marker e with
  | None, None, None | Some _, None, None | Some _, Some _, None => True
  | Some a, Some b, Some m => a = b ∧ (4 ≤ m ≤ 62)%Z
  | _, _, _ => False
  end.

Record ul_inv (s : UlScheduler) : Prop := {
  ui_time : valid_time (ul_cur_dltime s);
  ui_shape : shape (ul_ulsched s);
  ui_slots x e : valid_time x → slot_at x (ul_ulsched s) = Some e → slot_ok e;
  ui_markers : length (ul_next_usage_marker s) = 4 ∧ Forall (λ m, 4 ≤ m ≤ 62)%Z (ul_next_usage_marker s)
}.

Lemma slot_at_empty x : valid_time x → slot_at x EMPTY_SCHED = Some EMPTY_SCHED_ELEM.
Proof.
  intros Hx. destruct (slot_at_Some x EMPTY_SCHED Hx) as [e He]; [by split; [|repeat constructor]|]. rewrite He. f_equal.
  unfold slot_at, sched_get in He. destruct (check _); [|done]. cbn [mbind option_bind] in He.
  destruct (EMPTY_SCHED !! _) as [row|] eqn:E; [|done]. cbn in He. unfold EMPTY_SCHED, EMPTY_SCHED_CHANNEL in E.
  apply lookup_replicate in E as [-> _]. by apply lookup_replicate in He as [-> _].
Qed.

Lemma ul_set_dl_time_inv x s : valid_time x → length (ul_next_usage_marker s) = 4 →
  Forall (λ m, 4 ≤ m ≤ 62)%Z (ul_next_usage_marker s) → ul_inv (ul_set_dl_time x s).
Proof.
  intros Hx Hl Hm. constructor; cbn; [done|by split; [|repeat constructor]| |done].
  intros y e Hy. rewrite slot_at_empty by done. by intros [= <-].
Qed.

(** * First fit *)

(** [n] free places in a row, from place [k] on. *)
Definition is_window {A} (free : A → bool) (n : nat) (l : list A) (k : nat) : Prop :=
  k + n ≤ length l ∧ ∀ i x, i < n → l !! (k + i) = Some x → free x = true.

(** The first window, if there is one. *)
Definition first_window {A} (free : A → bool) (n : nat) (l : list A) (r : option (nat * list A)) : Prop :=
  match r with
  | Some (k, g) => is_window free n l k ∧ g = take n (drop k l) ∧ ∀ j, j < k → ¬ is_window free n l j
  | None => ∀ j, ¬ is_window free n l j
  end.

Section first_fit.
Context {A : Type} (free : A → bool) (n : nat).

(** State of a search after the places [p]: the places from [k] on are free but too few. *)
Record searching (p : list A) (k : nat) : Prop := {
  se_k : k ≤ length p < k + n;
  se_busy : k = 0 ∨ ∃ x, p !! (k - 1) = Some x ∧ free x = false;
  se_free i x : k ≤ i → p !! i = Some x → free x = true;
  se_none j : ¬ is_window free n p j
}.

Lemma window_app p l k : k + n ≤ length p → is_window free n (p ++ l) k ↔ is_window free n p k.
Proof.
  intros Hk. unfold is_window. rewrite length_app. split; intros [_ H]; (split; [lia|]); intros i x Hi Hx; apply (H i x Hi).
  - by rewrite lookup_app_l by lia.
  - by rewrite lookup_app_l in Hx by lia.
Qed.

(** A window that ends with the last place starts [n] before the end. *)
Lemma window_snoc p x j : is_window free n (p ++ [x]) j → ¬ is_window free n p j → j + n = length p + 1.
Proof.
  intros Hw Hn. pose proof (proj1 Hw) as Hl. rewrite length_app in Hl. cbn in Hl.
  destruct (decide (j + n ≤ length p)) as [Hle|]; [|lia]. by apply (window_app p [x] j Hle) in Hw.
Qed.

Lemma searching_free p k x : searching p k → free x = true →
  if length (drop k p ++ [x]) =? n then is_window free n (p ++ [x]) k ∧ ∀ j, j < k → ¬ is_window free n (p ++ [x]) j
  else searching (p ++ [x]) k.
Proof.
  intros [Hk Hb Hf Hn] Hx. rewrite length_app, length_drop. cbn [length].
  assert (∀ i y, k ≤ i → (p ++ [x]) !! i = Some y → free y = true) as Hf'.
  { intros i y Hi [Hy|[? Hy]]%lookup_app_Some; [by eapply Hf|]. by apply list_lookup_singleton_Some in Hy as [_ ->]. }
  destruct (Nat.eqb_spec (length p - k + 1) n) as [He|He].
  - split.
    + split; [rewrite length_app; cbn; lia|]. intros i y Hi Hy. apply (Hf' (k + i)); [lia|done].
    + intros j Hj Hw. pose proof (window_snoc p x j Hw (Hn j)). lia.
  - constructor; [rewrite length_app; cbn; lia| |done|].
    + destruct Hb as [Hb|(y & Hy & Hby)]; [by left|]. right. exists y. split; [|done]. by apply lookup_app_l_Some.
    + intros j Hw. pose proof (window_snoc p x j Hw (Hn j)) as Hj. destruct Hb as [->|(y & Hy & Hby)]; [lia|].
      destruct Hw as [_ Hw]. pose proof (lookup_lt_Some _ _ _ Hy). rewrite (Hw (k - 1 - j) y) in Hby; [done|lia|].
      replace (j + (k - 1 - j)) with (k - 1) by lia. by apply lookup_app_l_Some.
Qed.

Lemma searching_busy p k x : 0 < n → searching p k → free x = false →
  searching (p ++ [x]) (k + (length (drop k p) + 1)).
Proof.
  intros H0 [Hk Hb Hf Hn] Hx. rewrite length_drop. replace (k + (length p - k + 1)) with (length (p ++ [x]))
    by (rewrite length_app; cbn; lia).
  assert ((p ++ [x]) !! (length (p ++ [x]) - 1) = Some x) as Hlast.
  { rewrite length_app. cbn. replace (length p + 1 - 1) with (length p) by lia. by apply list_lookup_middle. }
  constructor; [lia|right; by exists x| |].
  - intros i y Hi Hy. apply lookup_lt_Some in Hy. lia.
  - intros j Hw. pose proof (window_snoc p x j Hw (Hn j)) as Hj. destruct Hw as [Hl Hw].
    rewrite (Hw (n - 1) x) in Hx; [done|lia|]. rewrite <-Hlast. f_equal. rewrite length_app. cbn. lia.
Qed.

Lemma searching_nil : 0 < n → searching [] 0.
Proof. intros Hn. constructor; [cbn; lia|by left|done|]. intros j [Hl _]. cbn in Hl. lia. Qed.

Lemma first_window_app p l k : is_window free n p k → (∀ j, j < k → ¬ is_window free n p j) →
  first_window free n (p ++ l) (Some (k, take n (drop k p))).
Proof.
  intros Hw Hj. pose proof (proj1 Hw) as Hl. split_and!.
  - by apply window_app.
  - rewrite drop_app_le, take_app_le; [done|rewrite length_drop; lia|lia].
  - intros j Hlt Hw'. apply (Hj j Hlt). by apply window_app in Hw'; [|lia].
Qed.
End first_fit.

(** * The search of the scheduler *)

Definition free_at (is_halfslot : bool) (sched : ulsched) (x : TdmaTime) : bool :=
  match slot_at x sched with
  | Some e => (is_none (tsl_ul1 e) && is_none (tsl_ul2 e)) ||
              (is_halfslot && (is_none (tsl_ul1 e) || is_none (tsl_ul2 e)))
  | None => false
  end.

(** The uplink slots a terminal counts as opportunities: those of its timeslot
    from now on, except in frame 18, for the 17 frames the schedule covers. *)
Definition candidate (first : TdmaTime) (dist : nat) : TdmaTime := add_timeslots first (Z.of_nat dist * 4).
Definition eligible (x : TdmaTime) : Prop := tt_f x ≠ 18%Z.
#[global] Instance eligible_dec x : Decision (eligible x).
Proof. unfold eligible. apply _. Defined.

Definition opportunities (t : Z) (s : UlScheduler) : list TdmaTime :=
  filter eligible (candidate (forward_to_timeslot (ul_cur_dltime s) t) <$> seq 0 17).

Lemma clch_frame_18 x : is_mandatory_clch x = true → tt_f x = 18%Z.
Proof. unfold is_mandatory_clch. intros [H _]%andb_true_iff. by apply Z.eqb_eq. Qed.

Lemma candidate_t first d : valid_time first → d < 18 → tt_t (candidate first d) = tt_t first.
Proof.
  intros Hv Hd. unfold candidate. destruct (ring_pos_fields _ (add_valid first (Z.of_nat d * 4))) as [-> _].
  destruct (ring_pos_fields _ Hv) as [Ht _]. rewrite ring_pos_add by (done || lia). rewrite Ht. f_equal.
  rewrite Z.mod_mod_divide by (by exists 18%Z). by rewrite Z.mod_add by lia.
Qed.

Section search.
Context (sched : ulsched) (first : TdmaTime) (n : nat) (half : bool).
Context (Hshape : shape sched) (Hfirst : valid_time first) (Hn : 0 < n).
Let free := free_at half sched.

Lemma ul_find_loop_ok dists : Forall (λ d, d < 18) dists → ∀ p k, searching free n p k →
  ∃ r, ul_find_loop sched first (tt_t first) n half dists k (drop k p) = Some r ∧
    first_window free n (p ++ filter eligible (candidate first <$> dists)) r.
Proof.
  induction 1 as [|d dists Hd _ IH]; intros p k Hse; cbn [ul_find_loop].
  { exists None. split; [done|]. intros j. cbn [fmap list_fmap]. rewrite filter_nil, app_nil_r. apply Hse. }
  fold (candidate first d). rewrite candidate_t by done. rewrite Z.eqb_refl. cbn [check mbind option_bind].
  assert (valid_time (candidate first d)) as Hc by apply add_valid.
  rewrite fmap_cons, filter_cons. destruct (is_mandatory_clch (candidate first d)) eqn:E1.
  { apply clch_frame_18 in E1. rewrite decide_False by (unfold eligible; lia). by apply IH. }
  destruct (Z.eqb_spec (tt_f (candidate first d)) 18) as [E2|E2].
  { rewrite decide_False by (unfold eligible; lia). by apply IH. }
  rewrite decide_True by done. rewrite sched_index by done. cbn [mbind option_bind].
  destruct (slot_at_Some _ sched Hc Hshape) as [e He]. 
  assert (sched_get (tt_t first) (time_index (candidate first d)) sched = Some e) as Hg
    by (by rewrite <-(candidate_t first d)).
  rewrite Hg. cbn [mbind option_bind]. rewrite (cons_middle (candidate first d) p), (app_assoc p).
  assert (free (candidate first d) = (is_none (tsl_ul1 e) && is_none (tsl_ul2 e)) ||
              (half && (is_none (tsl_ul1 e) || is_none (tsl_ul2 e)))) as Hfree by (unfold free, free_at; by rewrite He).
  rewrite <-Hfree. destruct (free (candidate first d)) eqn:Ef; cbn beta iota.
  - pose proof (searching_free free n p k _ Hse Ef) as Hnext. pose proof (se_k _ _ _ _ Hse).
    rewrite <-(drop_app_le p [candidate first d] k) in * by lia.
    destruct (Nat.eqb_spec (length (drop k (p ++ [candidate first d]))) n) as [Hlen|].
    + destruct Hnext as [Hw Hj]. eexists. split; [done|].
      rewrite <-(take_ge (drop k (p ++ [candidate first d])) n) by lia. by apply first_window_app.
    + by apply IH.
  - pose proof (searching_busy free n p k _ Hn Hse Ef) as Hnext. cbn [length].
    destruct (Nat.eqb_spec 0 n); [lia|]. destruct (IH _ _ Hnext) as (r & Hr & Hfw).
    rewrite (drop_ge (p ++ [candidate first d])) in Hr; [exists r; split; [exact Hr|exact Hfw]|]. rewrite length_app, length_drop. cbn. pose proof (se_k _ _ _ _ Hse). lia.
Qed.
End search.

Lemma ul_find_ok s t n half : ul_inv s → (1 ≤ t ≤ 4)%Z → 0 < n → (half = true → n = 1) →
  ∃ r, ul_find_grant_opportunity t n half s = Some r ∧ first_window (free_at half (ul_ulsched s)) n (opportunities t s) r.
Proof.
  intros Hinv Ht Hn Hh. destruct (forward_to_timeslot_next _ t (ui_time _ Hinv) Ht) as (Hft & m & Hm & Hf).
  unfold ul_find_grant_opportunity.
  assert (negb half || (n =? 1) = true) as -> by (destruct half; [rewrite Hh by done|]; done). cbn [check mbind option_bind].
  set (first := forward_to_timeslot (ul_cur_dltime s) t) in *.
  destruct (ul_find_loop_ok (ul_ulsched s) first n half (ui_shape _ Hinv) ltac:(rewrite Hf; apply add_valid) Hn (seq 0 17)
    ltac:(apply Forall_forall; intros x [? ?]%elem_of_seq; lia) [] 0 (searching_nil _ _ Hn)) as (r & Hr & Hfw).
  exists r. rewrite Hft in Hr. split; [exact Hr|].
  rewrite app_nil_l in Hfw. unfold opportunities. fold first. exact Hfw.
Qed.

(** * Reserving *)

Lemma candidate_pos_inj first d d' : valid_time first → d < 18 → d' < 18 →
  ring_pos (candidate first d) = ring_pos (candidate first d') → d = d'.
Proof.
  intros Hv Hd Hd'. unfold candidate. rewrite !ring_pos_add by (done || lia).
  destruct (ring_pos_index _ Hv) as [_ Hr]. intros Heq.
  pose proof (Z.div_mod (ring_pos first + Z.of_nat d * 4) 72 ltac:(lia)).
  pose proof (Z.div_mod (ring_pos first + Z.of_nat d' * 4) 72 ltac:(lia)). lia.
Qed.

Lemma candidates_NoDup first ds : valid_time first → NoDup ds → Forall (λ d, d < 18) ds →
  NoDup (ring_pos <$> (candidate first <$> ds)).
Proof.
  intros Hv. induction 1 as [|d ds Hd Hnd IH]; intros Hds; [constructor|]. apply Forall_cons in Hds as [Hd' Hds].
  rewrite !fmap_cons. constructor; [|by apply IH]. intros (x & Hx & (d2 & -> & Hd2)%list_elem_of_fmap)%list_elem_of_fmap.
  apply candidate_pos_inj in Hx; [congruence|done..|]. rewrite Forall_forall in Hds. by apply Hds.
Qed.

Lemma add_add x n m : valid_time x → (-1000 ≤ n ≤ 1000)%Z → (-1000 ≤ m ≤ 1000)%Z →
  add_timeslots (add_timeslots x n) m = add_timeslots x (n + m).
Proof.
  intros Hx Hn Hm. apply slot_index_inj; [apply add_valid..|].
  rewrite !add_timeslots_index by (done || apply add_valid || (unfold TIME_INT_WRAP; lia)).
  rewrite Zplus_mod_idemp_l. f_equal. lia.
Qed.

Lemma candidate_dist x m d first : valid_time x → (0 ≤ m < 4)%Z → d < 17 → first = add_timeslots x m →
  valid_time (candidate first d) ∧ tt_t (candidate first d) = tt_t first ∧
  ∃ n, (0 ≤ n ≤ 67)%Z ∧ candidate first d = add_timeslots x n.
Proof.
  intros Hx Hm Hd ->. split; [apply add_valid|]. split; [apply candidate_t; [apply add_valid|lia]|].
  exists (m + Z.of_nat d * 4)%Z. split; [lia|]. apply add_add; [done|lia..].
Qed.

(** Opportunities are different places of the ring. *)
Lemma opportunities_ok s t g : ul_inv s → (1 ≤ t ≤ 4)%Z → g `sublist_of` opportunities t s →
  NoDup (ring_pos <$> g) ∧ Forall (λ x, valid_time x ∧ tt_t x = t ∧
    ∃ d, (0 ≤ d ≤ 67)%Z ∧ x = add_timeslots (ul_cur_dltime s) d) g.
Proof.
  intros Hinv Ht Hg. destruct (forward_to_timeslot_next _ t (ui_time _ Hinv) Ht) as (Hft & m & Hm & Hf).
  unfold opportunities in Hg. remember (forward_to_timeslot (ul_cur_dltime s) t) as first eqn:E. clear E.
  assert (valid_time first) as Hv by (rewrite Hf; apply add_valid).
  remember (seq 0 17) as ds eqn:Hds.
  assert (NoDup ds ∧ Forall (λ d, d < 17) ds) as [Hnd Hlt].
  { subst ds. split; [apply NoDup_seq|]. apply Forall_forall. intros x [? ?]%elem_of_seq. lia. }
  clear Hds. assert (g `sublist_of` (candidate first <$> ds)) as Hg'.
  { etrans; [exact Hg|apply sublist_filter]. }
  split.
  - eapply sublist_NoDup; [|by apply (fmap_sublist ring_pos), Hg'].
    apply candidates_NoDup; [done..|]. eapply Forall_impl; [exact Hlt|]. cbn. lia.
  - apply Forall_forall. intros x Hx. pose proof (sublist_subseteq _ _ Hg' x Hx) as Hin.
    apply list_elem_of_fmap in Hin as (d & -> & Hd). rewrite Forall_forall in Hlt. apply Hlt in Hd.
    rewrite <-Hft. by apply (candidate_dist _ m); [apply (ui_time _ Hinv)| | |].
Qed.

(** What a grant does to the entry of a slot it covers. *)
Definition reserve_entry (ssi : Z) (half : bool) (um : option Z) (e : TimeslotSchedule) : TimeslotSchedule :=
  if half then
    if is_none (tsl_ul1 e) then mkSlotSched (Some ssi) (tsl_ul2 e) (tsl_usage_marker e)
    else mkSlotSched (tsl_ul1 e) (Some ssi) (tsl_usage_marker e)
  else mkSlotSched (Some ssi) (Some ssi) um.

(** [sched'] is [sched] with the slots [g] reserved. *)
Definition reserved (ssi : Z) (half : bool) (um : option Z) (g : list TdmaTime) (sched sched' : ulsched) : Prop :=
  shape sched' ∧ ∀ x, valid_time x → slot_at x sched' =
    if decide (ring_pos x ∈ ring_pos <$> g) then reserve_entry ssi half um <$> slot_at x sched else slot_at x sched.

Lemma slot_at_pos x y sched : valid_time x → valid_time y → ring_pos x = ring_pos y → slot_at x sched = slot_at y sched.
Proof.
  intros Hx Hy Hp. destruct (ring_pos_fields _ Hx) as [Hx1 Hx2], (ring_pos_fields _ Hy) as [Hy1 Hy2].
  unfold slot_at, time_index. by rewrite Hx1, Hx2, Hy1, Hy2, Hp.
Qed.

Lemma reserve_full_ok ssi um g : NoDup (ring_pos <$> g) → Forall valid_time g → ∀ sched, shape sched →
  Forall (λ x, slot_at x sched = Some EMPTY_SCHED_ELEM) g →
  ∃ sched', ul_reserve_loop ssi g false um sched = Some (0%Z, sched') ∧ reserved ssi false um g sched sched'.
Proof.
  induction g as [|x g IH]; intros Hnd Hv sched Hs Hf; cbn [ul_reserve_loop].
  { exists sched. split; [done|]. split; [done|]. intros y _. by rewrite decide_False by apply not_elem_of_nil. }
  rewrite fmap_cons, NoDup_cons in Hnd. destruct Hnd as [Hx Hnd]. apply Forall_cons in Hv as [Hvx Hv], Hf as [Hfx Hf].
  rewrite sched_index by done. cbn [mbind option_bind]. change (sched_get _ _ _) with (slot_at x sched). rewrite Hfx.
  cbn [mbind option_bind EMPTY_SCHED_ELEM tsl_ul1 tsl_ul2 tsl_usage_marker is_none check].
  replace (match um with Some m => Some m | None => None end) with um by (by destruct um).
  set (sched1 := sched_set _ _ _ sched).
  assert (∀ y, valid_time y → slot_at y sched1 =
    if decide (ring_pos y = ring_pos x) then Some (mkSlotSched (Some ssi) (Some ssi) um) else slot_at y sched) as H1.
  { intros y Hy. by apply slot_at_set. }
  destruct (IH Hnd Hv sched1) as (sched' & Hr & Hs' & Hres).
  { by apply shape_set. }
  { rewrite Forall_forall in *. intros y Hy. rewrite H1 by eauto. rewrite decide_False; [eauto|].
    intros Heq. apply Hx. rewrite <-Heq. by apply list_elem_of_fmap_2. }
  exists sched'. split; [done|]. split; [done|]. intros y Hy. rewrite Hres, H1 by done.
  destruct (decide (ring_pos y = ring_pos x)) as [Heq|Hne].
  - rewrite decide_False by (by rewrite Heq). rewrite decide_True by (rewrite fmap_cons, Heq; by left).
    rewrite (slot_at_pos y x), Hfx by done. done.
  - destruct (decide (ring_pos y ∈ ring_pos <$> g)) as [Hin|Hin].
    + by rewrite decide_True by (rewrite fmap_cons; by right).
    + by rewrite decide_False by (rewrite fmap_cons, not_elem_of_cons; done).
Qed.

Lemma reserve_half_ok ssi x sched : valid_time x → shape sched → free_at true sched x = true →
  ∃ k sched', ul_reserve_loop ssi [x] true None sched = Some (k, sched') ∧ reserved ssi true None [x] sched sched' ∧
    k = (if is_none (slot_at x sched ≫= tsl_ul1) then 1 else 2)%Z.
Proof.
  intros Hx Hs Hf. destruct (slot_at_Some x sched Hx Hs) as [e He]. cbn [ul_reserve_loop].
  rewrite sched_index by done. cbn [mbind option_bind]. change (sched_get _ _ _) with (slot_at x sched).
  unfold free_at in Hf. rewrite He in *. cbn [mbind option_bind andb] in *.
  assert (∀ e', reserve_entry ssi true None e = e' →
    reserved ssi true None [x] sched (sched_set (tt_t x) (time_index x) e' sched)) as Hres.
  { intros e' He'. split; [by apply shape_set|]. intros y Hy. rewrite slot_at_set by done. cbn [fmap list_fmap].
    destruct (decide (ring_pos y = ring_pos x)) as [Heq|Hne].
    - rewrite decide_True by (rewrite Heq; by left). rewrite (slot_at_pos y x), He by done. by rewrite <-He'.
    - rewrite decide_False; [done|]. by intros Hin%list_elem_of_singleton. }
  unfold reserve_entry in Hres. destruct (is_none (tsl_ul1 e)) eqn:E1.
  - eexists _, _. split; [done|]. split; [by apply Hres|done].
  - destruct (is_none (tsl_ul2 e)) eqn:E2; [|done]. cbn [check mbind option_bind].
    eexists _, _. split; [done|]. split; [by apply Hres|done].
Qed.

(** * Capacity requests *)

(** The half that is granted. *)
Definition granted_half (x : TdmaTime) (sched : ulsched) : BasicSlotgrantCapAlloc :=
  if is_none (slot_at x sched ≫= tsl_ul1) then FirstSubslotGranted else SecondSubslotGranted.

Definition slots_wanted (req : ReservationRequirement) : nat :=
  if decide (req = Req1Subslot) then 1 else res_req_to_req_slotcount req.

(** A grant [g] with marker [um] for request [req] of [ssi], that starts after [k] opportunities. *)
Record granted (t ssi : Z) (req : ReservationRequirement) (s s' : UlScheduler) (g : BasicSlotgrant)
    (um : option Z) (k : nat) : Prop := {
  gr_delay : k ≤ 13 ∧ sg_granting_delay g =
    if decide (k = 0) then CapAllocAtNextOpportunity else DelayNOpportunities (Z.of_nat k);
  gr_window : is_window (free_at (bool_decide (req = Req1Subslot)) (ul_ulsched s)) (slots_wanted req) (opportunities t s) k;
  gr_first j : j < k →
    ¬ is_window (free_at (bool_decide (req = Req1Subslot)) (ul_ulsched s)) (slots_wanted req) (opportunities t s) j;
  gr_reserved : reserved ssi (bool_decide (req = Req1Subslot)) um (take (slots_wanted req) (drop k (opportunities t s)))
    (ul_ulsched s) (ul_ulsched s');
  gr_capacity : if decide (req = Req1Subslot)
    then ∃ x, opportunities t s !! k = Some x ∧ sg_capacity_allocation g = granted_half x (ul_ulsched s)
    else to_req_slotcount (sg_capacity_allocation g) = Some (slots_wanted req);
  gr_marker : if decide (2 ≤ slots_wanted req) then ∃ m, um = Some m ∧ (4 ≤ m ≤ 62)%Z else um = None;
  gr_time : ul_cur_dltime s' = ul_cur_dltime s
}.

Lemma reserved_inv ssi half um g s sched' ms : ul_inv s → reserved ssi half um g (ul_ulsched s) sched' →
  Forall (λ x, valid_time x ∧ free_at half (ul_ulsched s) x = true) g →
  (half = true → um = None) → (∀ m, um = Some m → (4 ≤ m ≤ 62)%Z) →
  length ms = 4 → Forall (λ m, 4 ≤ m ≤ 62)%Z ms → ul_inv (mkUl (ul_cur_dltime s) sched' ms).
Proof.
  intros Hinv [Hs Hres] Hg Hh Hum Hl Hms. constructor; cbn [ul_cur_dltime ul_ulsched ul_next_usage_marker];
    [apply Hinv|done| |done].
  intros x e Hx. rewrite Hres by done. destruct (decide _) as [Hin|_]; [|by apply (ui_slots _ Hinv)].
  apply list_elem_of_fmap in Hin as (y & Hp & Hy). rewrite Forall_forall in Hg. destruct (Hg y Hy) as [Hvy Hfy].
  rewrite (slot_at_pos x y) by done. unfold free_at in Hfy. destruct (slot_at y (ul_ulsched s)) as [e0|] eqn:E; [|done].
  pose proof (ui_slots _ Hinv y e0 Hvy E) as Hok. cbn. intros [= <-]. unfold slot_ok, reserve_entry in *.
  destruct half; [|cbn; destruct um as [m|]; [split; [done|by apply Hum]|done]].
  destruct e0 as [[a|] [b|] [m|]]; cbn in *; done.
Qed.

Lemma slots_wanted_pos req : 0 < slots_wanted req ∧ (req = Req1Subslot → slots_wanted req = 1).
Proof. unfold slots_wanted. destruct (decide (req = Req1Subslot)); [split; [lia|done]|]. by destruct req; cbn; split; try lia. Qed.

Lemma alloc_usage_marker_ok t s : ul_inv s → (1 ≤ t ≤ 4)%Z → ∃ m ms,
  alloc_usage_marker t s = Some (m, mkUl (ul_cur_dltime s) (ul_ulsched s) ms) ∧ (4 ≤ m ≤ 62)%Z ∧
  length ms = 4 ∧ Forall (λ m, 4 ≤ m ≤ 62)%Z ms.
Proof.
  intros Hinv Ht. destruct (ui_markers _ Hinv) as [Hl Hm]. unfold alloc_usage_marker.
  destruct (Z.leb_spec 1 t); [|lia]. cbn [check mbind option_bind].
  destruct (lookup_lt_is_Some_2 (ul_next_usage_marker s) (Z.to_nat (t - 1) `min` 3)) as [m Hlook]; [lia|].
  rewrite Hlook. cbn [mbind option_bind]. pose proof (Forall_lookup_1 _ _ _ _ Hm Hlook) as Hr. cbn in Hr.
  eexists m, _. split; [done|]. split; [done|]. split; [by rewrite length_insert|].
  apply Forall_insert; [done|]. destruct (Z.leb_spec 62 m); lia.
Qed.

Lemma window_free {A} (free : A → bool) n l k : is_window free n l k → Forall (λ x, free x = true) (take n (drop k l)).
Proof.
  intros [_ Hw]. apply Forall_lookup_2. intros i x Hi. apply lookup_take_Some in Hi as [Hi Hlt].
  rewrite lookup_drop in Hi. by apply (Hw i).
Qed.

Lemma window_one {A} (free : A → bool) l k : is_window free 1 l k → ∃ x, take 1 (drop k l) = [x] ∧ l !! k = Some x.
Proof.
  intros [Hl _]. destruct (lookup_lt_is_Some_2 l k) as [x Hx]; [lia|]. exists x. split; [|done].
  rewrite (drop_S _ _ _ Hx). cbn. by rewrite take_0.
Qed.

Lemma free_is_empty s x : ul_inv s → valid_time x → free_at false (ul_ulsched s) x = true →
  slot_at x (ul_ulsched s) = Some EMPTY_SCHED_ELEM.
Proof.
  intros Hinv Hx Hf. unfold free_at in Hf. destruct (slot_at x _) as [e|] eqn:E; [|done].
  pose proof (ui_slots _ Hinv x e Hx E) as Hok. unfold slot_ok in Hok. by destruct e as [[] [] []].
Qed.

Lemma from_slotcount_wanted req : req ≠ Req1Subslot →
  ∃ c, from_req_slotcount (res_req_to_req_slotcount req) = Some c ∧ to_req_slotcount c = Some (res_req_to_req_slotcount req).
Proof. by destruct req; intros ?; try done; eexists; split. Qed.

Definition cap_req_outcome (t ssi : Z) (req : ReservationRequirement) (s : UlScheduler)
    (res : option (BasicSlotgrant * option Z)) (s' : UlScheduler) : Prop :=
  match res with
  | Some (g, um) => ∃ k, granted t ssi req s s' g um k
  | None => s' = s ∧ ∀ k, k ≤ 13 →
      ¬ is_window (free_at (bool_decide (req = Req1Subslot)) (ul_ulsched s)) (slots_wanted req) (opportunities t s) k
  end.

(** The reservation step, for a window that was found. *)
Lemma reserve_window t ssi req s um ms k : ul_inv s → (1 ≤ t ≤ 4)%Z →
  let half := bool_decide (req = Req1Subslot) in
  let g := take (slots_wanted req) (drop k (opportunities t s)) in
  is_window (free_at half (ul_ulsched s)) (slots_wanted req) (opportunities t s) k →
  (half = true → um = None) → (∀ m, um = Some m → (4 ≤ m ≤ 62)%Z) →
  length ms = 4 → Forall (λ m, 4 ≤ m ≤ 62)%Z ms →
  ∃ sub sched', ul_reserve_grant ssi g half um (mkUl (ul_cur_dltime s) (ul_ulsched s) ms) =
      Some (sub, mkUl (ul_cur_dltime s) sched' ms) ∧
    reserved ssi half um g (ul_ulsched s) sched' ∧ ul_inv (mkUl (ul_cur_dltime s) sched' ms) ∧
    (half = true → ∃ x, opportunities t s !! k = Some x ∧
       sub = if is_none (slot_at x (ul_ulsched s) ≫= tsl_ul1) then 1%Z else 2%Z).
Proof.
  intros Hinv Ht half g Hw Hh Hum Hl Hms. destruct (slots_wanted_pos req) as [Hpos Hone].
  assert (g `sublist_of` opportunities t s) as Hsub by (etrans; [apply sublist_take|apply sublist_drop]).
  destruct (opportunities_ok s t g Hinv Ht Hsub) as [Hnd Hg].
  assert (Forall (λ x, valid_time x ∧ free_at half (ul_ulsched s) x = true) g) as Hgf.
  { apply Forall_and. split; [by eapply Forall_impl; [exact Hg|]; intros x (? & _)|by apply window_free]. }
  assert (length g = slots_wanted req) as Hlen by (unfold g; rewrite length_take, length_drop; destruct Hw; lia).
  assert (∃ sub sched', ul_reserve_loop ssi g half um (ul_ulsched s) = Some (sub, sched') ∧
    reserved ssi half um g (ul_ulsched s) sched' ∧ (half = true → ∃ x, opportunities t s !! k = Some x ∧
       sub = if is_none (slot_at x (ul_ulsched s) ≫= tsl_ul1) then 1%Z else 2%Z))
    as (sub & sched' & Hr & Hres & Hsubslot).
  { unfold half in *. destruct (bool_decide_reflect (req = Req1Subslot)) as [E|E].
    - unfold g in *. rewrite Hone in * by done. destruct (window_one _ _ _ Hw) as (x & Hx & Hxk). rewrite Hx in *.
      apply Forall_singleton in Hgf as [Hvx Hfx]. rewrite Hh by done.
      destruct (reserve_half_ok ssi x (ul_ulsched s) Hvx (ui_shape _ Hinv) Hfx) as (sub & sched' & Hr & Hres & Hsub').
      exists sub, sched'. split_and!; [done..|]. intros _. by exists x.
    - destruct (reserve_full_ok ssi um g) with (sched := ul_ulsched s) as (sched' & Hr & Hres); [done| | | |].
      + by eapply Forall_impl; [exact Hgf|]; intros x [].
      + apply Hinv.
      + eapply Forall_impl; [exact Hgf|]. intros x [Hv Hf]. by apply free_is_empty.
      + by eexists _, sched'. }
  exists sub, sched'. split_and!; [|done|by eapply reserved_inv|done].
  unfold ul_reserve_grant. rewrite bool_decide_false by (intros ->; cbn in Hlen; lia). cbn [negb check mbind option_bind].
  assert (negb half || (length g =? 1) = true) as ->.
  { rewrite Hlen. unfold half. destruct (bool_decide_reflect (req = Req1Subslot)) as [E|E]; [|done]. by rewrite Hone. }
  cbn [check mbind option_bind ul_ulsched]. by rewrite Hr.
Qed.

Lemma cap_req_ok t addr req s : ul_inv s → (1 ≤ t ≤ 4)%Z → ∃ res s',
  ul_process_cap_req t addr req s = Some (res, s') ∧ ul_inv s' ∧ cap_req_outcome t (ssi addr) req s res s'.
Proof.
  intros Hinv Ht. destruct (slots_wanted_pos req) as [Hpos Hone]. unfold ul_process_cap_req.
  assert ((if bool_decide (req = Req1Subslot) then 1 else res_req_to_req_slotcount req) = slots_wanted req) as ->.
  { unfold slots_wanted. by destruct (bool_decide_reflect (req = Req1Subslot)), (decide (req = Req1Subslot)). }
  destruct (ul_find_ok s t (slots_wanted req) (bool_decide (req = Req1Subslot)) Hinv Ht Hpos)
    as (r & Hr & Hfw); [by intros ?%bool_decide_eq_true; apply Hone|]. rewrite Hr. cbn [mbind option_bind].
  destruct r as [[k g]|]; [|by exists None, s]. destruct Hfw as (Hw & -> & Hfirst).
  destruct (Nat.ltb_spec MAX_GRANTING_DELAY_OPPORTUNITIES k) as [Hk|Hk]; unfold MAX_GRANTING_DELAY_OPPORTUNITIES in Hk.
  { exists None, s. split_and!; [done..|]. split; [done|]. intros j Hj. apply Hfirst. lia. }
  assert (∃ um ms, (if negb (bool_decide (req = Req1Subslot)) && (2 <=? slots_wanted req)
           then '(m, s) ← alloc_usage_marker t s; Some (Some m, s) else Some (None, s)) =
       Some (um, mkUl (ul_cur_dltime s) (ul_ulsched s) ms) ∧
     (if decide (2 ≤ slots_wanted req) then ∃ m, um = Some m ∧ (4 ≤ m ≤ 62)%Z else um = None) ∧
     length ms = 4 ∧ Forall (λ m, 4 ≤ m ≤ 62)%Z ms) as (um & ms & -> & Hum & Hl & Hms).
  { destruct (bool_decide_reflect (req = Req1Subslot)) as [E|E], (Nat.leb_spec 2 (slots_wanted req)) as [H2|H2];
      try (rewrite Hone in H2 by done; lia); cbn [negb andb].
    2: { destruct (alloc_usage_marker_ok t s Hinv Ht) as (m & ms & -> & Hm & ?). cbn [mbind option_bind].
         exists (Some m), ms. rewrite decide_True by done. split_and!; [done|by exists m|by destruct_and?..]. }
    all: exists None, (ul_next_usage_marker s); rewrite decide_False by lia; destruct (ui_markers _ Hinv), s; done. }
  cbn [mbind option_bind]. destruct (reserve_window t (ssi addr) req s um ms k) as (sub & sched' & -> & Hres & Hinv' & Hsub);
    [done|done|done| | |done|done|].
  { intros E%bool_decide_eq_true. rewrite decide_False in Hum; [done|]. rewrite Hone by done. lia. }
  { intros m ->. destruct (decide _); [|done]. by destruct Hum as (? & [= ->] & ?). }
  cbn [mbind option_bind].
  assert (∃ c, (if bool_decide (req = Req1Subslot) then
      if (sub =? 1)%Z then Some FirstSubslotGranted else if (sub =? 2)%Z then Some SecondSubslotGranted else None
    else from_req_slotcount (slots_wanted req)) = Some c ∧
    if decide (req = Req1Subslot) then ∃ x, opportunities t s !! k = Some x ∧ c = granted_half x (ul_ulsched s)
    else to_req_slotcount c = Some (slots_wanted req)) as (c & -> & Hc).
  { destruct (bool_decide_reflect (req = Req1Subslot)) as [E|E].
    - destruct Hsub as (x & Hx & ->); [done|]. exists (granted_half x (ul_ulsched s)). rewrite decide_True by done.
      split; [|by exists x]. unfold granted_half. by destruct (is_none _).
    - unfold slots_wanted. destruct (decide (req = Req1Subslot)); [done|]. by apply from_slotcount_wanted. }
  cbn [mbind option_bind]. eexists _, _. split; [done|]. split; [done|]. exists k.
  constructor; cbn [sg_granting_delay sg_capacity_allocation ul_cur_dltime ul_ulsched]; try assumption; [|reflexivity].
  split; [lia|]. destruct (Nat.eqb_spec k 0); [by rewrite decide_True|]. rewrite decide_False by done.
  by rewrite wrap_small by (unfold is_u; lia).
Qed.

(** * Runs *)

(** What happens to the schedule: the clock advances, a slot is finalized for
    transmission, a terminal asks for capacity. *)
Inductive ul_op : Type :=
| UlTick
| UlFinalize
| UlCapReq (t : Z) (addr : TetraAddress) (req : ReservationRequirement).

Definition ul_exec (op : ul_op) (s : UlScheduler) : option UlScheduler :=
  match op with
  | UlTick => ul_tick_start (add_timeslots (ul_cur_dltime s) 1) s
  | UlFinalize => clear_ul_schedule_for_tx_time (add_timeslots (ul_cur_dltime s) 1) s
  | UlCapReq t addr req => snd <$> ul_process_cap_req t addr req s
  end.

Fixpoint ul_run (ops : list ul_op) (s : UlScheduler) : option UlScheduler :=
  match ops with [] => Some s | op :: ops => s ← ul_exec op s; ul_run ops s end.

Definition ul_op_ok (op : ul_op) : Prop := match op with UlCapReq t _ _ => (1 ≤ t ≤ 4)%Z | _ => True end.
Definition is_tick (op : ul_op) : bool := match op with UlTick => true | _ => false end.
Definition ticks (ops : list ul_op) : Z := Z.of_nat (length (filter (λ op, is_tick op = true) ops)).

(** The reservations in [e] are still there in [e']. *)
Definition extends (e e' : TimeslotSchedule) : Prop :=
  (is_Some (tsl_ul1 e) → tsl_ul1 e' = tsl_ul1 e) ∧ (is_Some (tsl_ul2 e) → tsl_ul2 e' = tsl_ul2 e) ∧
  (is_Some (tsl_usage_marker e) → tsl_usage_marker e' = tsl_usage_marker e).

Lemma extends_refl e : extends e e.
Proof. done. Qed.

Lemma extends_trans e1 e2 e3 : extends e1 e2 → extends e2 e3 → extends e1 e3.
Proof.
  intros (H1 & H2 & H3) (H1' & H2' & H3'). unfold extends in *. split_and!; intros H;
    [rewrite H1', H1|rewrite H2', H2|rewrite H3', H3]; try done; by (rewrite H1 || rewrite H2 || rewrite H3).
Qed.

(** One operation, seen from a slot [d] slots ahead of the clock. *)
Definition op_advance (op : ul_op) (d : Z) : Z := if is_tick op then d - 1 else d.

Lemma reserve_extends ssi half um e : slot_ok e →
  (is_none (tsl_ul1 e) && is_none (tsl_ul2 e)) || (half && (is_none (tsl_ul1 e) || is_none (tsl_ul2 e))) = true →
  extends e (reserve_entry ssi half um e).
Proof. unfold slot_ok, reserve_entry, extends. by destruct e as [[] [] []], half; cbn; intros; split_and!; intros []. Qed.

Lemma grant_extends t ssi req s s' g um k x e : ul_inv s → (1 ≤ t ≤ 4)%Z → granted t ssi req s s' g um k →
  valid_time x → slot_at x (ul_ulsched s) = Some e → ∃ e', slot_at x (ul_ulsched s') = Some e' ∧ extends e e'.
Proof.
  intros Hinv Ht Hg Hx He. destruct (gr_reserved _ _ _ _ _ _ _ _ Hg) as [_ Hres]. rewrite Hres, He by done.
  destruct (decide _) as [Hin|_]; [|by exists e]. eexists. split; [done|].
  apply list_elem_of_fmap in Hin as (y & Hp & Hy).
  pose proof (window_free _ _ _ _ (gr_window _ _ _ _ _ _ _ _ Hg)) as Hf. rewrite Forall_forall in Hf.
  specialize (Hf y Hy). 
  destruct (opportunities_ok s t (take (slots_wanted req) (drop k (opportunities t s))) Hinv Ht) as [_ Hv].
  { etrans; [apply sublist_take|apply sublist_drop]. }
  rewrite Forall_forall in Hv. destruct (Hv y Hy) as [Hvy _].
  unfold free_at in Hf. rewrite <-(slot_at_pos x y), He in Hf by done.
  apply reserve_extends; [by apply (ui_slots _ Hinv x)|done].
Qed.

Lemma ul_exec_ok op s x e d : ul_inv s → ul_op_ok op → x = add_timeslots (ul_cur_dltime s) d → (-2 ≤ d ≤ 67)%Z →
  slot_at x (ul_ulsched s) = Some e → ∃ s' e', ul_exec op s = Some s' ∧ ul_inv s' ∧
    x = add_timeslots (ul_cur_dltime s') (op_advance op d) ∧ slot_at x (ul_ulsched s') = Some e' ∧ extends e e'.
Proof.
  intros Hinv Hop -> Hd He. pose proof (ui_time _ Hinv) as Hv. pose proof (ui_shape _ Hinv) as Hs.
  destruct op as [| |t addr req]; cbn [ul_exec op_advance is_tick].
  - unfold ul_tick_start. rewrite bool_decide_true by done. cbn [check mbind option_bind]. eexists _, e.
    split; [done|]. cbn [ul_cur_dltime ul_ulsched]. split; [|split; [|by split]].
    + constructor; [apply add_valid|apply Hinv..].
    + rewrite add_add by (done || lia). f_equal. lia.
  - unfold clear_ul_schedule_for_tx_time.
    assert (add_timeslots (add_timeslots (ul_cur_dltime s) 1) (-4) = add_timeslots (ul_cur_dltime s) (-3)) as Hadd
      by (by apply add_add; [|lia..]).
    assert (tt_t (add_timeslots (ul_cur_dltime s) 1) = tt_t (add_timeslots (ul_cur_dltime s) (-3))) as Ht.
    { destruct (ring_pos_fields _ (add_valid (ul_cur_dltime s) 1)) as [-> _],
        (ring_pos_fields _ (add_valid (ul_cur_dltime s) (-3))) as [-> _]. rewrite !ring_pos_add by (done || lia).
      rewrite !Z.mod_mod_divide by (by exists 18%Z). f_equal.
      replace (ring_pos (ul_cur_dltime s) + 1)%Z with (ring_pos (ul_cur_dltime s) + -3 + 1 * 4)%Z by lia.
      by rewrite Z.mod_add by lia. }
    rewrite Hadd, Ht, sched_index by done. cbn [mbind option_bind].
    change (sched_get _ _ _) with (slot_at (add_timeslots (ul_cur_dltime s) (-3)) (ul_ulsched s)).
    destruct (slot_at_Some _ _ (add_valid (ul_cur_dltime s) (-3)) Hs) as [e0 ->]. cbn [mbind option_bind].
    assert (∀ y, valid_time y → slot_at y (sched_set (tt_t (add_timeslots (ul_cur_dltime s) (-3)))
        (time_index (add_timeslots (ul_cur_dltime s) (-3))) EMPTY_SCHED_ELEM (ul_ulsched s)) =
        if decide (ring_pos y = ring_pos (add_timeslots (ul_cur_dltime s) (-3))) then Some EMPTY_SCHED_ELEM
        else slot_at y (ul_ulsched s)) as Hset by (intros y Hy; by apply slot_at_set).
    eexists _, e. split; [done|]. cbn [ul_cur_dltime ul_ulsched]. split; [|split; [done|split; [|done]]].
    + constructor; cbn [ul_cur_dltime ul_ulsched ul_next_usage_marker]; [done|by apply shape_set| |apply Hinv].
      intros y e' Hy. rewrite Hset by done. destruct (decide _); [by intros [= <-]|by apply (ui_slots _ Hinv)].
    + rewrite Hset by done. rewrite decide_False; [done|]. rewrite !ring_pos_add by (done || lia).
      destruct (ring_pos_index _ Hv) as [_ Hr]. intros Heq.
      pose proof (Z.div_mod (ring_pos (ul_cur_dltime s) + d) 72 ltac:(lia)).
      pose proof (Z.div_mod (ring_pos (ul_cur_dltime s) + -3) 72 ltac:(lia)). lia.
  - destruct (cap_req_ok t addr req s Hinv Hop) as (res & s' & -> & Hinv' & Hout). cbn [fmap option_fmap option_map snd].
    destruct res as [[g um]|]; unfold cap_req_outcome in Hout.
    + destruct Hout as [k Hg]. destruct (grant_extends _ _ _ _ _ _ _ _ _ _ Hinv Hop Hg (add_valid _ _) He) as (e' & He' & Hext).
      exists s', e'. split; [done|]. split; [done|]. rewrite (gr_time _ _ _ _ _ _ _ _ Hg). done.
    + destruct Hout as [-> _]. by exists s, e.
Qed.

Lemma ul_run_ok ops : ∀ s x e d, ul_inv s → Forall ul_op_ok ops → x = add_timeslots (ul_cur_dltime s) d → (d ≤ 67)%Z →
  (ticks ops ≤ d + 2)%Z → slot_at x (ul_ulsched s) = Some e → ∃ s' e', ul_run ops s = Some s' ∧ ul_inv s' ∧
    slot_at x (ul_ulsched s') = Some e' ∧ extends e e' ∧ x = add_timeslots (ul_cur_dltime s') (d - ticks ops).
Proof.
  unfold ticks. induction ops as [|op ops IH]; intros s x e d Hinv Hops Hx Hd Ht He; cbn [ul_run].
  { exists s, e. cbn. rewrite Z.sub_0_r. by split_and!. }
  apply Forall_cons in Hops as [Hop Hops]. rewrite filter_cons in Ht |- *.
  assert (Z.of_nat (length (filter (λ op, is_tick op = true) ops)) ≤ op_advance op d + 2)%Z as Ht'.
  { unfold op_advance. destruct (decide (is_tick op = true)) as [Hi|Hi]; destruct (is_tick op); try done; cbn in Ht; lia. }
  destruct (ul_exec_ok op s x e d) as (s1 & e1 & -> & Hinv1 & Hx1 & He1 & Hext1); [done..| |done|].
  { destruct (decide (is_tick op = true)); cbn in Ht; lia. }
  cbn [mbind option_bind]. assert (op_advance op d ≤ 67)%Z by (unfold op_advance; destruct (is_tick op); lia).
  destruct (IH s1 x e1 (op_advance op d)) as (s' & e' & Hr & Hinv' & He' & Hext' & Hx'); [done..|].
  exists s', e'. split_and!; [done..|by eapply extends_trans|]. rewrite Hx'. f_equal. unfold op_advance.
  destruct (decide (is_tick op = true)) as [Hi|Hi]; destruct (is_tick op); try done; cbn; lia.
Qed.

(** * Properties *)

(** C25: A capacity request never panics.  It is granted the first run of free
    opportunities of its timeslot that is long enough, if that starts within the
    13 opportunities a slot grant can announce; the grant carries exactly the
    delay, the capacity and (for several slots) a usage marker in 4..62, the
    slots of the run are reserved for the terminal, and no other slot changes.
    Otherwise the schedule is left alone. *)
Theorem cap_req_first_fit t addr req s : ul_inv s → (1 ≤ t ≤ 4)%Z → ∃ res s',
  ul_process_cap_req t addr req s = Some (res, s') ∧ ul_inv s' ∧ cap_req_outcome t (ssi addr) req s res s'.
Proof. apply cap_req_ok. Qed.

Definition ul_start (x : TdmaTime) : UlScheduler := ul_set_dl_time x ul_new.

Lemma ul_start_inv x : valid_time x → ul_inv (ul_start x).
Proof. intros Hx. apply ul_set_dl_time_inv; [done|done|]. repeat constructor; lia. Qed.

Lemma cap_req_first_fit_witness :
  let s := ul_start (mkTime 2 16 60 65535) in
  (∃ res s', ul_process_cap_req 1 (issi 77) Req3Slots s = Some (res, s') ∧ ul_inv s' ∧
     cap_req_outcome 1 77 Req3Slots s res s') ∧
  fst <$> ul_process_cap_req 1 (issi 77) Req3Slots s =
    Some (Some (mkSlotgrant Grant3Slots CapAllocAtNextOpportunity, Some 4%Z)).
Proof.
  split; [|vm_compute; reflexivity].
  apply (cap_req_first_fit 1 (issi 77) Req3Slots); [|lia]. apply ul_start_inv. apply valid_time_ranges. cbn. lia.
Defined.

(** The slots a terminal derives from its grant: it counts opportunities. *)
Definition delay_count (d : BasicSlotgrantGrantingDelay) : nat :=
  match d with DelayNOpportunities n => Z.to_nat n | _ => 0 end.

Definition granted_slots (t : Z) (req : ReservationRequirement) (g : BasicSlotgrant) (s : UlScheduler) : list TdmaTime :=
  take (slots_wanted req) (drop (delay_count (sg_granting_delay g)) (opportunities t s)).

Definition granted_block (req : ReservationRequirement) (g : BasicSlotgrant) : PhyBlockNum :=
  match req, sg_capacity_allocation g with
  | Req1Subslot, FirstSubslotGranted => PbBlock1
  | Req1Subslot, _ => PbBlock2
  | _, _ => PbBoth
  end.

Lemma owner_of_extension x req g um ssi s e e' sched : valid_time x → slot_ok e →
  free_at (bool_decide (req = Req1Subslot)) sched x = true → slot_at x sched = Some e →
  (if decide (req = Req1Subslot) then sg_capacity_allocation g = granted_half x sched else True) →
  slot_at x (ul_ulsched s) = Some e' → extends (reserve_entry ssi (bool_decide (req = Req1Subslot)) um e) e' →
  (2 ≤ slots_wanted req ∨ um = None) →
  ul_get_slot_owner x (granted_block req g) s = Some (Some ssi) ∧
  (∀ m, um = Some m → ul_get_usage x s = Some (UuTraffic m)).
Proof.
  intros Hx Hok Hf He Hc He' Hext Hum. unfold ul_get_slot_owner, ul_get_usage. rewrite sched_index by done.
  cbn [mbind option_bind]. change (sched_get _ _ _) with (slot_at x (ul_ulsched s)). rewrite He'. cbn [mbind option_bind].
  destruct (bool_decide_reflect (req = Req1Subslot)) as [->|Hr].
  - rewrite decide_True in Hc by done. destruct Hum as [Hum|Hum]; [cbv in Hum; lia|]. split; [|congruence].
    unfold granted_block. rewrite Hc. unfold granted_half, free_at in *. rewrite He in *. cbn [mbind option_bind] in *.
    unfold reserve_entry, extends, slot_ok in *. destruct e as [[] [] []], e' as [? ? ?]; cbn in *; try done; destruct_and!;
      repeat match goal with H : is_Some _ → _ |- _ => rewrite H by eauto; clear H end; done.
  - assert (granted_block req g = PbBoth) as -> by (by destruct req). unfold reserve_entry, extends in Hext. cbn in Hext.
    destruct Hext as (H1 & H2 & H3). rewrite H1, H2 by eauto. rewrite bool_decide_true by done. split; [done|].
    intros m ->. by rewrite H3 by eauto.
Qed.

Lemma granted_slots_ok t addr req s g um s1 : ul_inv s → (1 ≤ t ≤ 4)%Z →
  ul_process_cap_req t addr req s = Some (Some (g, um), s1) →
  length (granted_slots t req g s) = slots_wanted req ∧
  Forall (λ x, ∃ d, x = add_timeslots (ul_cur_dltime s1) d ∧ (0 ≤ d ≤ 67)%Z ∧
    ∀ ops, Forall ul_op_ok ops → (ticks ops ≤ d + 2)%Z →
    ∃ s2, ul_run ops s1 = Some s2 ∧ ul_inv s2 ∧
      ul_get_slot_owner x (granted_block req g) s2 = Some (Some (ssi addr)) ∧
      (∀ m, um = Some m → ul_get_usage x s2 = Some (UuTraffic m)) ∧
      x = add_timeslots (ul_cur_dltime s2) (d - ticks ops)) (granted_slots t req g s).
Proof.
  intros Hinv Ht Hreq. destruct (cap_req_ok t addr req s Hinv Ht) as (res & s' & Hreq' & Hinv1 & Hout).
  rewrite Hreq in Hreq'. injection Hreq' as <- <-. destruct Hout as [k Hg].
  assert (delay_count (sg_granting_delay g) = k) as Hk.
  { destruct (gr_delay _ _ _ _ _ _ _ _ Hg) as [_ ->]. by destruct (decide (k = 0)); cbn; [|lia]. }
  unfold granted_slots. rewrite Hk. pose proof (gr_window _ _ _ _ _ _ _ _ Hg) as Hw.
  destruct (slots_wanted_pos req) as [Hpos Hone].
  split; [rewrite length_take, length_drop; destruct Hw; lia|].
  destruct (opportunities_ok s t (take (slots_wanted req) (drop k (opportunities t s))) Hinv Ht) as [_ Hall].
  { etrans; [apply sublist_take|apply sublist_drop]. }
  pose proof (window_free _ _ _ _ Hw) as Hfree. rewrite Forall_forall in Hall, Hfree. apply Forall_forall. intros x Hx.
  destruct (Hall x Hx) as (Hvx & _ & d & Hd & Hxd). specialize (Hfree x Hx). exists d.
  rewrite (gr_time _ _ _ _ _ _ _ _ Hg). split; [done|]. split; [done|]. intros ops Hops Hticks.
  destruct (slot_at_Some x _ Hvx (ui_shape _ Hinv)) as [e He].
  destruct (gr_reserved _ _ _ _ _ _ _ _ Hg) as [_ Hres]. specialize (Hres x Hvx).
  rewrite decide_True, He in Hres by (by apply list_elem_of_fmap_2). cbn [fmap option_fmap option_map] in Hres.
  destruct (ul_run_ok ops s1 x _ d Hinv1 Hops ltac:(by rewrite (gr_time _ _ _ _ _ _ _ _ Hg)) ltac:(lia) Hticks Hres)
    as (s2 & e' & Hrun & Hinv2 & He' & Hext & Hx2). exists s2. split; [done|]. split; [done|].
  enough (ul_get_slot_owner x (granted_block req g) s2 = Some (Some (ssi addr)) ∧
    (∀ m, um = Some m → ul_get_usage x s2 = Some (UuTraffic m))) as [Ho Hm] by (by split_and!).
  eapply (owner_of_extension x req g um (ssi addr) s2 e e' (ul_ulsched s)); try assumption.
  - by apply (ui_slots _ Hinv x).
  - pose proof (gr_capacity _ _ _ _ _ _ _ _ Hg) as Hc. destruct (decide (req = Req1Subslot)) as [Er|]; [|done].
    destruct Hc as (y & Hy & ->). rewrite Hone in Hx, Hw by done. destruct (window_one _ _ _ Hw) as (z & Hz & Hzk).
    rewrite Hz in Hx. apply list_elem_of_singleton in Hx as ->. congruence.
  - pose proof (gr_marker _ _ _ _ _ _ _ _ Hg) as Hm. destruct (decide (2 ≤ slots_wanted req)); [by left|by right].
Qed.

(** A granted slot stays with its terminal until it is over.  Take the slots
    a terminal derives from its grant by counting opportunities.  Whatever
    capacity requests, clock ticks and finalized slots follow the grant, in
    whatever order, none of them panics, and until the clock has gone more than
    two slots past such a slot, the slot (or the granted half of it) belongs to
    the terminal, and if the grant has a marker the slot is announced with it;
    the clock is the number of ticks nearer to the slot. *)
Theorem granted_slots_kept t addr req s g um s1 : ul_inv s → (1 ≤ t ≤ 4)%Z →
  ul_process_cap_req t addr req s = Some (Some (g, um), s1) →
  length (granted_slots t req g s) = slots_wanted req ∧
  Forall (λ x, ∃ d, x = add_timeslots (ul_cur_dltime s1) d ∧ (0 ≤ d ≤ 67)%Z ∧
    ∀ ops, Forall ul_op_ok ops → (ticks ops ≤ d + 2)%Z →
    ∃ s2, ul_run ops s1 = Some s2 ∧ ul_inv s2 ∧
      ul_get_slot_owner x (granted_block req g) s2 = Some (Some (ssi addr)) ∧
      (∀ m, um = Some m → ul_get_usage x s2 = Some (UuTraffic m)) ∧
      x = add_timeslots (ul_cur_dltime s2) (d - ticks ops)) (granted_slots t req g s).
Proof. apply granted_slots_ok. Qed.

Lemma granted_slots_kept_witness :
  let s := ul_start (mkTime 2 16 60 65535) in
  ∃ g um s1, ul_process_cap_req 3 (issi 77) Req2Slots s = Some (Some (g, um), s1) ∧
  length (granted_slots 3 Req2Slots g s) = 2 ∧
  Forall (λ x, ∃ d, x = add_timeslots (ul_cur_dltime s1) d ∧ (0 ≤ d ≤ 67)%Z ∧
    ∀ ops, Forall ul_op_ok ops → (ticks ops ≤ d + 2)%Z →
    ∃ s2, ul_run ops s1 = Some s2 ∧ ul_inv s2 ∧
      ul_get_slot_owner x (granted_block Req2Slots g) s2 = Some (Some 77%Z) ∧
      (∀ m, um = Some m → ul_get_usage x s2 = Some (UuTraffic m)) ∧
      x = add_timeslots (ul_cur_dltime s2) (d - ticks ops)) (granted_slots 3 Req2Slots g s).
Proof.
  intros s. destruct (ul_process_cap_req 3 (issi 77) Req2Slots s) as [[[[g um]|] s1]|] eqn:E;
    [|vm_compute in E; discriminate..].
  exists g, um, s1. split; [done|].
  apply (granted_slots_kept 3 (issi 77) Req2Slots s g um s1); [|lia|exact E].
  apply ul_start_inv. apply valid_time_ranges. cbn. lia.
Defined.
