(* ===== verification/MacUl.v ===== *)
(** Uplink MAC PDU headers (tetra-pdus/src/umac/pdus): MAC-ACCESS, MAC-DATA,
    MAC-FRAG, MAC-END in a full and in a half slot, MAC-U-SIGNAL and MAC-U-BLCK,
    and the remaining MAC headers MAC-D-BLCK and ACCESS-DEFINE.

    [read_ul_address] and [write_ul_address] are the code that MAC-ACCESS and
    MAC-DATA share; the names they pass only label errors. *)
From S2P Require Import Prelude Bits Core BitBuffer FieldCodec MacDl BsSchedUlSpec.

Inductive MacPduType : Type := MacResourceMacData | MacFragMacEnd | Broadcast | SuppMacUSignal.

Definition mac_pdu_type_try_from (x : Z) : option MacPduType :=
  match x with
  | 0 => Some MacResourceMacData | 1 => Some MacFragMacEnd | 2 => Some Broadcast | 3 => Some SuppMacUSignal
  | _ => None
  end%Z.
Definition mac_pdu_type_into_raw (t : MacPduType) : Z :=
  match t with MacResourceMacData => 0 | MacFragMacEnd => 1 | Broadcast => 2 | SuppMacUSignal => 3 end.

Inductive BroadcastType : Type := BtSysinfo | BtAccessDefine | BtSysinfoDa.

Definition broadcast_type_try_from (x : Z) : option BroadcastType :=
  match x with 0 => Some BtSysinfo | 1 => Some BtAccessDefine | 2 => Some BtSysinfoDa | _ => None end%Z.
Definition broadcast_type_into_raw (t : BroadcastType) : Z :=
  match t with BtSysinfo => 0 | BtAccessDefine => 1 | BtSysinfoDa => 2 end.

(** * Addresses *)

(** The [match addr_type]: two bits, so the last branch is not reached. *)
Definition read_ul_address (n0 n2 n3 : string) (addr_type : Z) : B (option TetraAddress * option Z) :=
  if (addr_type =? 0)%Z then ssi ← read_field 24 n0; mret (Some (mkAddr (wrap 32 ssi) Issi), None)
  else if (addr_type =? 1)%Z then l ← read_field 10 "event_label"; mret (None, Some (wrap 16 l))
  else if (addr_type =? 2)%Z then ssi ← read_field 24 n2; mret (Some (mkAddr (wrap 32 ssi) Ussi), None)
  else if (addr_type =? 3)%Z then ssi ← read_field 24 n3; mret (Some (mkAddr (wrap 32 ssi) Smi), None)
  else fail (InvalidValue "addr_type" addr_type).

Definition write_ul_address (encrypted : bool) (addr : TetraAddress) : B unit :=
  assert_ (Bool.eqb (bool_decide (ssi_type addr = Esi)) encrypted);;
  match ssi_type addr with
  | Ssi | Issi | Gssi => write_bits 0 2;; write_bits (ssi addr) 24
  | Ussi => write_bits 2 2;; write_bits (ssi addr) 24
  | Smi => write_bits 3 2;; write_bits (ssi addr) 24
  | _ => panic
  end.

Definition read_res_req (name : string) : B ReservationRequirement :=
  val ← read_field 4 name;
  try_enum (res_req_try_from val) name val.

(** * MAC-ACCESS *)

Record MacAccess : Type := mkMacAccess {
  ma_fill_bits : bool;
  ma_encrypted : bool;
  ma_addr : option TetraAddress;
  ma_event_label : option Z;
  ma_length_ind : option Z;
  ma_frag_flag : option bool;
  ma_reservation_req : option ReservationRequirement
}.

Definition mac_access_from_bitbuf : B MacAccess :=
  mac_pdu_type ← read_field 1 "mac_pdu_type";
  expect_value mac_pdu_type 0 "mac_pdu_type";;
  fill_bits ← read_field 1 "fill_bits";
  encrypted ← read_field 1 "encrypted";
  addr_type ← read_field 2 "addr_type";
  '(addr, event_label) ← read_ul_address "ssi" "ussi" "smi" (wrap 8 addr_type);
  optional_field_flag ← read_field 1 "optional_field_flag";
  '(length_ind, frag_flag, reservation_req) ←
    (if negb (optional_field_flag =? 0)%Z then
       length_ind_or_cap_req ← read_field 1 "length_ind_or_cap_req";
       if (length_ind_or_cap_req =? 0)%Z then
         len ← read_field 5 "length_ind";
         mret (Some (wrap 8 len), None, None)
       else
         frag ← read_field 1 "frag_flag";
         res_req ← read_res_req "reservation_req";
         mret (None, Some (negb (frag =? 0)%Z), Some res_req)
     else mret (None, None, None));
  mret (mkMacAccess (negb (fill_bits =? 0)%Z) (negb (encrypted =? 0)%Z) addr event_label
          length_ind frag_flag reservation_req).

Definition mac_access_to_bitbuf (p : MacAccess) : B unit :=
  write_bits 0 1;;
  write_bits (Z.b2z (ma_fill_bits p)) 1;;
  write_bits (Z.b2z (ma_encrypted p)) 1;;
  match ma_addr p with
  | Some addr => write_ul_address (ma_encrypted p) addr
  | None =>
      match ma_event_label p with
      | Some event_label => write_bits 1 2;; write_bits event_label 10
      | None => panic
      end
  end;;
  if is_some (ma_length_ind p) || is_some (ma_frag_flag p) || is_some (ma_reservation_req p) then
    assert_ (negb (is_some (ma_length_ind p) && is_some (ma_frag_flag p) && is_some (ma_reservation_req p)));;
    write_bits 1 1;;
    match ma_length_ind p with
    | Some length_ind => write_bits 0 1;; write_bits length_ind 5
    | None =>
        write_bits 1 1;;
        frag_flag ← unwrap (ma_frag_flag p);
        write_bits (Z.b2z frag_flag) 1;;
        reservation_req ← unwrap (ma_reservation_req p);
        write_bits (res_req_into_raw reservation_req) 4
    end
  else write_bits 0 1.

Definition ma_is_null_pdu (p : MacAccess) : bool := (default 1%Z (ma_length_ind p) =? 0)%Z.
Definition ma_is_frag_start (p : MacAccess) : bool := default false (ma_frag_flag p).

(** * MAC-DATA *)

Record MacData : Type := mkMacData {
  mda_fill_bits : bool;
  mda_encrypted : bool;
  mda_addr : option TetraAddress;
  mda_event_label : option Z;
  mda_length_ind : option Z;
  mda_frag_flag : option bool;
  mda_reservation_req : option ReservationRequirement
}.

Definition mac_data_from_bitbuf : B MacData :=
  mac_pdu_type ← read_field 2 "mac_pdu_type";
  expect_value mac_pdu_type 0 "mac_pdu_type";;
  fill_bits ← read_field 1 "fill_bits";
  encrypted ← read_field 1 "encrypted";
  addr_type ← read_field 2 "addr_type";
  '(addr, event_label) ← read_ul_address "ssi" "ssi" "ssi" (wrap 8 addr_type);
  length_ind_or_cap_req ← read_field 1 "length_ind_or_cap_req";
  '(length_ind, frag_flag, reservation_req) ←
    (if (length_ind_or_cap_req =? 0)%Z then
       len ← read_field 6 "length_ind";
       mret (Some (wrap 8 len), None, None)
     else
       frag_flag ← read_field 1 "frag_flag";
       res_req ← read_res_req "reservation_requirement";
       read_bits 1;;
       mret (None, Some (negb (frag_flag =? 0)%Z), Some res_req));
  mret (mkMacData (negb (fill_bits =? 0)%Z) (negb (encrypted =? 0)%Z) addr event_label
          length_ind frag_flag reservation_req).

Definition mac_data_to_bitbuf (p : MacData) : B unit :=
  write_bits 0 2;;
  write_bits (Z.b2z (mda_fill_bits p)) 1;;
  write_bits (Z.b2z (mda_encrypted p)) 1;;
  assert_ (xorb (is_some (mda_addr p)) (is_some (mda_event_label p)));;
  match mda_addr p with
  | Some addr => write_ul_address (mda_encrypted p) addr
  | None =>
      match mda_event_label p with
      | Some event_label => write_bits 1 2;; write_bits event_label 10
      | None => panic
      end
  end;;
  match mda_length_ind p with
  | Some length_ind => write_bits 0 1;; write_bits length_ind 6
  | None =>
      assert_ (is_some (mda_frag_flag p) && is_some (mda_reservation_req p));;
      write_bits 1 1;;
      frag_flag ← unwrap (mda_frag_flag p);
      write_bits (Z.b2z frag_flag) 1;;
      reservation_req ← unwrap (mda_reservation_req p);
      write_bits (res_req_into_raw reservation_req) 4;;
      write_bits 0 1
  end.

(** * MAC-END in a half slot *)

Record MacEndHu : Type := mkMacEndHu {
  meh_fill_bits : bool;
  meh_length_ind : option Z;
  meh_reservation_req : option ReservationRequirement
}.

Definition mac_end_hu_from_bitbuf : B MacEndHu :=
  mac_pdu_type ← read_field 1 "mac_pdu_type";
  expect_value mac_pdu_type 1 "mac_pdu_type";;
  fill_bits ← read_field 1 "fill_bits";
  length_ind_or_cap_req ← read_field 1 "length_ind_or_cap_req";
  '(length_ind, reservation_req) ←
    (if (length_ind_or_cap_req =? 0)%Z then
       len ← read_field 4 "length_ind";
       mret (Some (wrap 8 len), None)
     else
       res_req ← read_res_req "reservation_req";
       mret (None, Some res_req));
  mret (mkMacEndHu (negb (fill_bits =? 0)%Z) length_ind reservation_req).

Definition mac_end_hu_to_bitbuf (p : MacEndHu) : B unit :=
  assert_ (is_some (meh_length_ind p) || is_some (meh_reservation_req p));;
  assert_ (negb (is_some (meh_length_ind p) && is_some (meh_reservation_req p)));;
  write_bits 1 1;;
  write_bits (Z.b2z (meh_fill_bits p)) 1;;
  match meh_length_ind p with
  | Some v => write_bits 0 1;; write_bits v 4
  | None =>
      write_bits 1 1;;
      reservation_req ← unwrap (meh_reservation_req p);
      write_bits (res_req_into_raw reservation_req) 4
  end.

(** * MAC-END and MAC-FRAG in a full slot *)

Record MacEndUl : Type := mkMacEndUl {
  meu_fill_bits : bool;
  meu_length_ind : option Z;
  meu_reservation_req : option ReservationRequirement
}.

Definition mac_end_ul_from_bitbuf : B MacEndUl :=
  mac_pdu_type ← read_field 2 "mac_pdu_type";
  expect_value mac_pdu_type 1 "mac_pdu_type";;
  pdu_subtype ← read_field 1 "pdu_subtype";
  expect_value pdu_subtype 1 "pdu_subtype";;
  fill_bits ← read_field 1 "fill_bits";
  length_ind_cap_req ← read_field 6 "length_ind_cap_req";
  '(length_ind, reservation_req) ←
    (if (length_ind_cap_req =? 0)%Z then fail (InvalidValue "length_ind_cap_req reserved value" length_ind_cap_req)
     else if (length_ind_cap_req <? 47)%Z then mret (Some (wrap 8 length_ind_cap_req), None)
     else if (length_ind_cap_req <? 48)%Z then fail (InvalidValue "length_ind_cap_req reserved value" length_ind_cap_req)
     else
       let val := Z.land length_ind_cap_req 15 in
       res_req ← try_enum (res_req_try_from val) "reservation_req" val;
       mret (None, Some res_req));
  mret (mkMacEndUl (negb (fill_bits =? 0)%Z) length_ind reservation_req).

Definition mac_end_ul_to_bitbuf (p : MacEndUl) : B unit :=
  write_bits 1 2;;
  write_bits 1 1;;
  write_bits (Z.b2z (meu_fill_bits p)) 1;;
  expect_value (Z.b2z (xorb (is_some (meu_length_ind p)) (is_some (meu_reservation_req p)))) 1
    "length_ind xor reservation_req must be present";;
  match meu_length_ind p with
  | Some length_ind =>
      expect_value (Z.b2z (0 <? length_ind)%Z) 1 "length_ind zero";;
      expect_value (Z.b2z (length_ind <? 46)%Z) 1 "length_ind over 0b101110";;
      write_bits length_ind 6
  | None =>
      match meu_reservation_req p with
      | Some reservation_req => write_bits 3 2;; write_bits (res_req_into_raw reservation_req) 4
      | None => mret tt
      end
  end.

Record MacFragUl : Type := mkMacFragUl { mfu_fill_bits : bool }.

Definition mac_frag_ul_from_bitbuf : B MacFragUl :=
  mac_pdu_type ← read_field 2 "mac_pdu_type";
  expect_value mac_pdu_type 1 "mac_pdu_type";;
  pdu_subtype ← read_field 1 "pdu_subtype";
  expect_value pdu_subtype 0 "pdu_subtype";;
  fill_bits ← read_field 1 "fill_bits";
  mret (mkMacFragUl (negb (fill_bits =? 0)%Z)).

Definition mac_frag_ul_to_bitbuf (p : MacFragUl) : B unit :=
  write_bits 1 2;;
  write_bits 0 1;;
  write_bits (Z.b2z (mfu_fill_bits p)) 1.

(** * Supplementary PDUs *)

Record MacUSignal : Type := mkMacUSignal { mus_second_half_stolen : bool }.

Definition mac_u_signal_from_bitbuf : B MacUSignal :=
  mac_pdu_type ← read_field 2 "mac_pdu_type";
  expect_value mac_pdu_type 3 "mac_pdu_type";;
  second_half_stolen ← read_field 1 "second_half_stolen";
  mret (mkMacUSignal (negb (second_half_stolen =? 0)%Z)).

Definition mac_u_signal_to_bitbuf (p : MacUSignal) : B unit :=
  write_bits 3 2;;
  write_bits (Z.b2z (mus_second_half_stolen p)) 1.

Record MacUBlck : Type := mkMacUBlck {
  mub_fill_bits : bool;
  mub_encrypted : bool;
  mub_event_label : Z;
  mub_reservation_req : Z
}.

Definition mac_u_blck_from_bitbuf : B MacUBlck :=
  mac_pdu_type ← read_field 2 "mac_pdu_type";
  expect_value mac_pdu_type 3 "mac_pdu_type";;
  supp_pdu_subtype ← read_field 1 "supp_pdu_subtype";
  expect_value supp_pdu_subtype 0 "supp_pdu_subtype";;
  fill_bits ← read_field 1 "fill_bits";
  encrypted ← read_field 1 "encrypted";
  event_label ← read_field 10 "event_label";
  reservation_req ← read_field 4 "reservation_req";
  mret (mkMacUBlck (negb (fill_bits =? 0)%Z) (negb (encrypted =? 0)%Z) (wrap 16 event_label) (wrap 8 reservation_req)).

Definition mac_u_blck_to_bitbuf (p : MacUBlck) : B unit :=
  write_bits 3 2;;
  write_bits 0 1;;
  write_bits (Z.b2z (mub_fill_bits p)) 1;;
  write_bits (Z.b2z (mub_encrypted p)) 1;;
  write_bits (mub_event_label p) 10;;
  write_bits (mub_reservation_req p) 4.

(** * MAC-D-BLCK *)

Record MacDBlck : Type := mkMacDBlck {
  mdb_fill_bits : bool;
  mdb_encryption_mode : Z;
  mdb_event_label : Z;
  mdb_imm_napping_permission : bool;
  mdb_slot_granting_element : option BasicSlotgrant
}.

Definition mac_d_blck_from_bitbuf : B MacDBlck :=
  mac_pdu_type ← read_field 2 "mac_pdu_type";
  assert_ (mac_pdu_type =? 3)%Z;;
  pdu_subtype ← read_field 1 "pdu_subtype";
  assert_ (pdu_subtype =? 0)%Z;;
  fill_bits ← read_field 1 "fill_bits";
  encryption_mode ← read_field 2 "encryption_mode";
  event_label ← read_field 10 "event_label";
  imm_napping_permission ← read_field 1 "imm_napping_permission";
  slot_granting_element ← read_opt "slot_granting_flag" slotgrant_from_bitbuf;
  mret (mkMacDBlck (negb (fill_bits =? 0)%Z) (wrap 8 encryption_mode) (wrap 16 event_label)
          (negb (imm_napping_permission =? 0)%Z) slot_granting_element).

Definition mac_d_blck_to_bitbuf (p : MacDBlck) : B unit :=
  write_bits 3 2;;
  write_bits 0 1;;
  write_bits (Z.b2z (mdb_fill_bits p)) 1;;
  write_bits (mdb_encryption_mode p) 2;;
  write_bits (mdb_event_label p) 10;;
  write_bits (Z.b2z (mdb_imm_napping_permission p)) 1;;
  write_opt (mdb_slot_granting_element p) slotgrant_to_bitbuf.

(** * ACCESS-DEFINE *)

Record AccessDefine : Type := mkAccessDefine {
  ad_common_or_assigned_control : bool;
  ad_access_code : Z;
  ad_imm : Z;
  ad_wt : Z;
  ad_nu : Z;
  ad_frame_len_factor : bool;
  ad_ts_pointer : Z;
  ad_min_pdu_prio : Z;
  ad_opt_field_flag : Z;
  ad_subscriber_class : option Z;
  ad_gssi : option Z
}.

Definition access_define_from_bitbuf : B AccessDefine :=
  mac_pdu_type ← read_field 2 "mac_pdu_type";
  assert_ (mac_pdu_type =? 2)%Z;;
  broadcast_type ← read_field 2 "broadcast_type";
  assert_ (broadcast_type =? 1)%Z;;
  common_or_assigned_control ← read_field 1 "common_or_assigned_control";
  access_code ← read_field 2 "access_code";
  imm ← read_field 4 "imm";
  wt ← read_field 4 "wt";
  nu ← read_field 4 "nu";
  frame_len_factor ← read_field 1 "frame_len_factor";
  ts_pointer ← read_field 4 "ts_pointer";
  min_pdu_prio ← read_field 3 "min_pdu_prio";
  opt_field_flag ← read_field 2 "opt_field_flag";
  subscriber_class ←
    (if (opt_field_flag =? 1)%Z then v ← read_field 16 "subscriber_class"; mret (Some (wrap 16 v)) else mret None);
  gssi ←
    (if (opt_field_flag =? 2)%Z then v ← read_field 24 "gssi"; mret (Some (wrap 32 v)) else mret None);
  filler ← read_field 3 "filler";
  assert_ (filler =? 4)%Z;;
  mret (mkAccessDefine (negb (common_or_assigned_control =? 0)%Z) (wrap 8 access_code) (wrap 8 imm) (wrap 8 wt) (wrap 8 nu)
          (negb (frame_len_factor =? 0)%Z) (wrap 8 ts_pointer) (wrap 8 min_pdu_prio) (wrap 8 opt_field_flag)
          subscriber_class gssi).

Definition access_define_to_bitbuf (p : AccessDefine) : B unit :=
  write_bits 2 2;;
  write_bits 1 2;;
  write_bits (Z.b2z (ad_common_or_assigned_control p)) 1;;
  write_bits (ad_access_code p) 2;;
  write_bits (ad_imm p) 4;;
  write_bits (ad_wt p) 4;;
  write_bits (ad_nu p) 4;;
  write_bits (Z.b2z (ad_frame_len_factor p)) 1;;
  write_bits (ad_ts_pointer p) 4;;
  write_bits (ad_min_pdu_prio p) 3;;
  write_bits (ad_opt_field_flag p) 2;;
  match ad_subscriber_class p with Some v => write_bits v 16 | None => mret tt end;;
  match ad_gssi p with Some v => write_bits v 24 | None => mret tt end;;
  write_bits 4 3.
