(* ===== verification/MacUlSpec.v ===== *)
(** The uplink MAC headers: what their parsers accept and consume on any bits,
    and that each header survives writing and parsing. *)
From S2P Require Import Prelude Bits Core BitBuffer BitBufferSpec BitCodec BitBufferThms.
From S2P Require Import FieldCodec PduCodec MacDl MacDlSpec BsSchedUlSpec MacUl.

(** * Parsers and what they consume *)

(** [p] never panics, stays in the buffer, and what it accepts after [n] bits satisfies [P n]. *)
Definition consumes {A} (p : B A) (P : nat → A → Prop) : Prop := ∀ bb, wf bb →
  match p bb with
  | Ok a bb' => ∃ n, n ≤ get_len_remaining bb ∧ bb' = advance n bb ∧ P n a
  | Err _ bb' => ∃ n, n ≤ get_len_remaining bb ∧ bb' = advance n bb
  | Panic => False
  end.

Section consumes.
Context {A C : Type}.

Lemma consumes_ret (a : A) (P : nat → A → Prop) : P 0 a → consumes (mret a) P.
Proof. intros HP bb _. exists 0. rewrite advance_0. split_and!; [lia|done..]. Qed.

Lemma consumes_fail e (P : nat → A → Prop) : consumes (fail e) P.
Proof. intros bb _. exists 0. rewrite advance_0. split; [lia|done]. Qed.

Lemma consumes_bind (p : B A) (k : A → B C) Q P : consumes p Q →
  (∀ n a, Q n a → consumes (k a) (λ m c, P (n + m) c)) → consumes (p ≫= k) P.
Proof.
  intros Hp Hk bb Hwf. specialize (Hp bb Hwf). unfold mbind, M_bind. destruct (p bb) as [a bb1|e bb1|]; [|done..].
  destruct Hp as (n & Hn & -> & HQ). specialize (Hk n a HQ (advance n bb) (wf_advance _ _ Hwf Hn)).
  rewrite get_len_remaining_advance in Hk.
  destruct (k a (advance n bb)); [|by destruct Hk as (m & Hm & ->); exists (n + m); rewrite advance_advance; split; [lia|]|done].
  destruct Hk as (m & Hm & -> & HP). exists (n + m). rewrite advance_advance. split_and!; [lia|done..].
Qed.

Lemma consumes_mono (p : B A) (P Q : nat → A → Prop) : consumes p P → (∀ n a, P n a → Q n a) → consumes p Q.
Proof.
  intros Hp HPQ bb Hwf. specialize (Hp bb Hwf). destruct (p bb); [|done..]. destruct Hp as (n & ? & ? & ?). exists n. auto.
Qed.
End consumes.

Lemma consumes_bits n : consumes (read_bits n) (λ m _, m ≤ n).
Proof.
  intros bb Hwf. rewrite read_bits_spec by done. case_decide.
  - exists n. split_and!; [lia|done|lia].
  - exists 0. rewrite advance_0. split_and!; [lia|done|lia].
Qed.

Lemma consumes_field {C} n s (k : Z → B C) P : n ≤ 64 →
  (∀ v, is_u (Z.of_nat n) v → consumes (k v) (λ m c, P (n + m) c)) → consumes (read_field n s ≫= k) P.
Proof.
  intros Hn Hk. apply (consumes_bind _ _ (λ m v, m = n ∧ is_u (Z.of_nat n) v)); [|intros ? ? [-> ?]; auto].
  intros bb Hwf. unfold read_field, mbind, M_bind. rewrite read_bits_spec by done. case_decide.
  - exists n. split_and!; [lia|done|done|]. pose proof (Z_of_bits_is_u (take n (remaining bb))) as Hu.
    rewrite length_take, length_remaining in Hu by done. by rewrite Nat.min_l in Hu by lia.
  - exists 0. rewrite advance_0. split; [lia|done].
Qed.

Lemma consumes_expect {C} v e s (k : B C) P : (v = e → consumes k P) → consumes (expect_value v e s ≫= λ _, k) P.
Proof.
  intros Hk. apply (consumes_bind _ _ (λ m _, m = 0 ∧ v = e)); [|intros ? _ [-> ?]; auto].
  unfold expect_value. case_decide; [by apply consumes_ret|apply consumes_fail].
Qed.

(** One step of a parser made of fields and checks. *)
Ltac cstep := first
  [ apply consumes_field; [lia|intros ? ?] | apply consumes_expect; intros ->
  | apply consumes_fail | apply consumes_ret ].

(** An uplink address: an identity of 24 bits, or a label. *)
Definition ul_address (n : nat) (x : option TetraAddress * option Z) : Prop :=
  match x with
  | (Some a, None) => n = 24 ∧ is_u 24 (ssi a) ∧ (ssi_type a = Issi ∨ ssi_type a = Ussi ∨ ssi_type a = Smi)
  | (None, Some e) => n = 10 ∧ is_u 10 e
  | _ => False
  end.

Lemma consumes_address n0 n2 n3 t : consumes (read_ul_address n0 n2 n3 t) ul_address.
Proof.
  assert (∀ v, is_u (Z.of_nat 24) v → wrap 32 v = v) as H32 by (intros v Hv; eapply wrap_fits; [exact Hv|lia]).
  unfold read_ul_address. destruct (t =? 0)%Z, (t =? 1)%Z, (t =? 2)%Z, (t =? 3)%Z; repeat cstep; unfold ul_address; cbn [ssi ssi_type].
  all: try (rewrite H32 by done; split_and!; [done|done|tauto]).
  all: split; [done|]; by rewrite (wrap_fits (Z.of_nat 10)) by (done || lia).
Qed.

Lemma consumes_res_req s : consumes (read_res_req s) (λ n _, n = 4).
Proof.
  unfold read_res_req. cstep. unfold try_enum, ok_or. destruct (res_req_try_from _); cstep. done.
Qed.

Lemma consumes_access : consumes mac_access_from_bitbuf (λ n p, ∃ m, ul_address m (ma_addr p, ma_event_label p) ∧
  match ma_length_ind p with
  | Some l => is_u 5 l ∧ n = m + 12 ∧ ma_frag_flag p = None ∧ ma_reservation_req p = None
  | None => is_some (ma_frag_flag p) = is_some (ma_reservation_req p)
  end).
Proof.
  unfold mac_access_from_bitbuf. do 5 cstep. eapply consumes_bind; [apply consumes_address|]. intros m [a e] Ha. cstep.
  apply (consumes_bind _ _ (λ n x, match x with
    | (Some l, f, r) => is_u 5 l ∧ n = 6 ∧ f = None ∧ r = None
    | (None, f, r) => is_some f = is_some r end)).
  - destruct (negb _); [|by cstep]. cstep. destruct (_ =? 0)%Z.
    + do 2 cstep. rewrite (wrap_fits (Z.of_nat 5)) by (done || lia). done.
    + cstep. eapply consumes_bind; [apply consumes_res_req|]. intros ? r ->. by cstep.
  - intros n [[l f] r] Hx. cstep. exists m. cbn [ma_addr ma_event_label ma_length_ind ma_frag_flag ma_reservation_req].
    split; [done|]. destruct l as [l|]; [|done]. destruct Hx as (? & -> & -> & ->). split_and!; [done|lia|done..].
Qed.

Lemma consumes_data : consumes mac_data_from_bitbuf (λ n p, ∃ m, ul_address m (mda_addr p, mda_event_label p) ∧
  match mda_length_ind p with
  | Some l => is_u 6 l ∧ n = m + 13 ∧ mda_frag_flag p = None ∧ mda_reservation_req p = None
  | None => is_Some (mda_frag_flag p) ∧ is_Some (mda_reservation_req p)
  end).
Proof.
  unfold mac_data_from_bitbuf. do 5 cstep. eapply consumes_bind; [apply consumes_address|]. intros m [a e] Ha. cstep.
  apply (consumes_bind _ _ (λ n x, match x with
    | (Some l, f, r) => is_u 6 l ∧ n = 6 ∧ f = None ∧ r = None
    | (None, f, r) => is_Some f ∧ is_Some r end)).
  - destruct (_ =? 0)%Z.
    + do 2 cstep. rewrite (wrap_fits (Z.of_nat 6)) by (done || lia). done.
    + cstep. eapply consumes_bind; [apply consumes_res_req|]. intros ? r ->.
      eapply consumes_bind; [apply consumes_bits|]. intros. cstep. done.
  - intros n [[l f] r] Hx. cstep. exists m. cbn [mda_addr mda_event_label mda_length_ind mda_frag_flag mda_reservation_req].
    split; [done|]. destruct l as [l|]; [|done]. destruct Hx as (? & -> & -> & ->). split_and!; [done|lia|done..].
Qed.

Lemma consumes_end_hu : consumes mac_end_hu_from_bitbuf (λ n p, n = 7 ∧
  match meh_length_ind p with Some l => is_u 4 l ∧ meh_reservation_req p = None | None => True end).
Proof.
  unfold mac_end_hu_from_bitbuf. do 4 cstep.
  apply (consumes_bind _ _ (λ n x, n = 4 ∧ match x with (Some l, r) => is_u 4 l ∧ r = None | _ => True end)).
  - destruct (_ =? 0)%Z; [do 2 cstep; rewrite (wrap_fits (Z.of_nat 4)) by (done || lia); done|].
    eapply consumes_bind; [apply consumes_res_req|]. intros ? r ->. by cstep.
  - intros n [l r] [-> Hx]. by cstep.
Qed.

Lemma consumes_end_ul : consumes mac_end_ul_from_bitbuf (λ n p, n = 10 ∧
  match meu_length_ind p with Some l => (1 ≤ l ≤ 46)%Z ∧ meu_reservation_req p = None | None => True end).
Proof.
  unfold mac_end_ul_from_bitbuf. do 6 cstep.
  apply (consumes_bind _ _ (λ n x, n = 0 ∧ match x with (Some l, r) => (1 ≤ l ≤ 46)%Z ∧ r = None | _ => True end)).
  - destruct (Z.eqb_spec v0 0) as [?|?]; [cstep|]. destruct (Z.ltb_spec v0 47) as [?|?].
    + cstep. rewrite (wrap_fits (Z.of_nat 6)) by (done || lia). split_and!; [done|..]; unfold is_u in *; lia || done.
    + destruct (_ <? _)%Z; [cstep|]. unfold try_enum, ok_or. destruct (res_req_try_from _); by cstep.
  - intros n [l r] [-> Hx]. by cstep.
Qed.

Lemma consumes_frag_ul : consumes mac_frag_ul_from_bitbuf (λ n _, n = 4).
Proof. unfold mac_frag_ul_from_bitbuf. by repeat cstep. Qed.

Lemma consumes_u_signal : consumes mac_u_signal_from_bitbuf (λ n _, n = 3).
Proof. unfold mac_u_signal_from_bitbuf. by repeat cstep. Qed.

Lemma consumes_u_blck : consumes mac_u_blck_from_bitbuf (λ n p, n = 19 ∧ is_u 10 (mub_event_label p) ∧ is_u 4 (mub_reservation_req p)).
Proof.
  unfold mac_u_blck_from_bitbuf. repeat cstep.
  by rewrite (wrap_fits (Z.of_nat 10)), (wrap_fits (Z.of_nat 4)) by (done || lia).
Qed.

(** * Layouts *)

Definition ul_address_fields (a : option TetraAddress) (e : option Z) : fields :=
  match a with
  | Some a => [(match ssi_type a with Ussi => 2 | Smi => 3 | _ => 0 end%Z, 2); (ssi a, 24)]
  | None => [(1%Z, 2); (default 0%Z e, 10)]
  end.

(** Either an identity or a label; what is read back of a plain SSI is an ISSI. *)
Definition ul_address_ok (a : option TetraAddress) (e : option Z) : Prop :=
  match a, e with
  | Some a, None => is_u 24 (ssi a) ∧ (plain_ssi a ∨ ssi_type a = Ussi ∨ ssi_type a = Smi)
  | None, Some e => is_u 10 e
  | _, _ => False
  end.
Definition ul_canon (a : TetraAddress) : TetraAddress :=
  mkAddr (ssi a) (match ssi_type a with Ussi => Ussi | Smi => Smi | _ => Issi end).

Lemma res_req_ok r : res_req_try_from (res_req_into_raw r) = Some r ∧ is_u 4 (res_req_into_raw r).
Proof. split; [by destruct r|]. destruct r; unfold is_u; simpl; lia. Qed.

Lemma writes_address_then a e enc k fs : ul_address_ok a e → enc = false → writes (k tt) (fields_bits fs) →
  writes (match a with
          | Some addr => write_ul_address enc addr
          | None => match e with Some l => write_bits 1 2;; write_bits l 10 | None => panic end
          end ≫= k) (fields_bits (ul_address_fields a e ++ fs)).
Proof.
  intros Ha -> Hk. apply writes_elem; [|done]. destruct a as [a|], e as [e|]; try done; cbn [ul_address_fields].
  2: { by repeat wstep. }
  destruct Ha as [Hu Ht]. unfold write_ul_address. apply writes_check.
  - rewrite bool_decide_false; [done|]. destruct Ht as [Ht|[Ht|Ht]]; [unfold plain_ssi in Ht; by destruct Ht as [->|[->| ->]]|by rewrite Ht..].
  - unfold plain_ssi in Ht. destruct (ssi_type a); try (destruct Ht as [[?|[?|?]]|[?|?]]; done); repeat wstep.
Qed.

Lemma reads_address_then {C} n0 n2 n3 a e (k : option TetraAddress * option Z → B C) fs c : ul_address_ok a e →
  reads (k (ul_canon <$> a, e)) (fields_bits fs) c →
  reads (t ← read_field 2 "addr_type"; read_ul_address n0 n2 n3 (wrap 8 t) ≫= k) (fields_bits (ul_address_fields a e ++ fs)) c.
Proof.
  intros Ha Hk. assert (∀ s v t, is_u 24 v →
    reads (x ← read_field 24 s; mret (Some (mkAddr (wrap 32 x) t), @None Z)) (fields_bits [(v, 24)]) (Some (mkAddr v t), None)) as Hid.
  { intros s v t Hv. rstep. rewrite (wrap_fits 24) by (done || lia). rstep. }
  destruct a as [a|], e as [e|]; try done; cbn [ul_address_fields app]; try change (default 0%Z (Some e)) with e.
  - destruct Ha as [Hu Ht]. unfold plain_ssi in Ht.
    assert (reads (k (Some (ul_canon a), None)) (fields_bits fs) c) as Hk' by exact Hk. unfold ul_canon in Hk'.
    apply reads_field_then; [lia|unfold is_u; destruct (ssi_type a); cbn; lia|].
    change ((ssi a, 24) :: fs) with ([(ssi a, 24)] ++ fs). eapply reads_elem; [|exact Hk'].
    destruct (ssi_type a); try (destruct Ht as [[?|[?|?]]|[?|?]]; done); [apply (Hid n0)|apply (Hid n0)|apply (Hid n0)|apply (Hid n2)|apply (Hid n3)]; done.
  - apply reads_field_then; [lia|unfold is_u; cbn; lia|]. change ((e, 10) :: fs) with ([(e, 10)] ++ fs). eapply reads_elem; [|exact Hk].
    change (reads (l ← read_field 10 "event_label"; mret (@None TetraAddress, Some (wrap 16 l))) (fields_bits [(e, 10)]) (None, Some e)).
    rstep. rewrite (wrap_fits 10) by (done || lia). rstep.
Qed.

(** * MAC-DATA *)

Record mac_data_valid (p : MacData) : Prop := {
  mdv_addr : ul_address_ok (mda_addr p) (mda_event_label p);
  mdv_clear : mda_encrypted p = false;
  mdv_len : match mda_length_ind p with
            | Some l => is_u 6 l ∧ mda_frag_flag p = None ∧ mda_reservation_req p = None
            | None => is_Some (mda_frag_flag p) ∧ is_Some (mda_reservation_req p)
            end
}.

Definition mac_data_fields (p : MacData) : fields :=
  [(0%Z, 2); (Z.b2z (mda_fill_bits p), 1); (0%Z, 1)] ++ ul_address_fields (mda_addr p) (mda_event_label p) ++
  match mda_length_ind p with
  | Some l => [(0%Z, 1); (l, 6)]
  | None => [(1%Z, 1); (Z.b2z (default false (mda_frag_flag p)), 1);
             (res_req_into_raw (default Req1Subslot (mda_reservation_req p)), 4); (0%Z, 1)]
  end.

Definition mac_data_canon (p : MacData) : MacData :=
  mkMacData (mda_fill_bits p) (mda_encrypted p) (ul_canon <$> mda_addr p) (mda_event_label p) (mda_length_ind p)
    (mda_frag_flag p) (mda_reservation_req p).

Lemma mac_data_writes p : mac_data_valid p → writes (mac_data_to_bitbuf p) (fields_bits (mac_data_fields p)).
Proof.
  intros [Ha Hc Hl]. unfold mac_data_to_bitbuf, mac_data_fields. cbn [app]. rewrite Hc. do 3 wstep. apply writes_check.
  { destruct (mda_addr p), (mda_event_label p); done. }
  apply writes_address_then; [done..|]. destruct (mda_length_ind p) as [l|].
  - destruct Hl as [Hl _]. repeat wstep.
  - destruct Hl as [[f ->] [r ->]]. destruct (res_req_ok r) as [_ Hr]. wstep. wstep. eapply writes_pure; [by intros ?|].
    wstep. eapply writes_pure; [by intros ?|]. cbn [default]. repeat wstep.
Qed.

Lemma reads_res_req_then {C} r s (k : ReservationRequirement → B C) fs c : reads (k r) (fields_bits fs) c →
  reads (read_res_req s ≫= k) (fields_bits ((res_req_into_raw r, 4) :: fs)) c.
Proof.
  intros Hk. destruct (res_req_ok r) as [Ht Hr]. change (fields_bits (?x :: fs)) with (fields_bits ([x] ++ fs)).
  eapply reads_elem; [|exact Hk]. unfold read_res_req. rstep. unfold try_enum, ok_or. rewrite Ht. rstep.
Qed.

Lemma reads_bits_then {C} v n (k : option Z → B C) fs c : n ≤ 64 → is_u (Z.of_nat n) v → reads (k (Some v)) (fields_bits fs) c →
  reads (read_bits n ≫= k) (fields_bits ((v, n) :: fs)) c.
Proof. intros Hn Hv Hk. rewrite fields_bits_cons. eapply reads_bind; [by apply reads_bits|done]. Qed.

Lemma mac_data_reads p : mac_data_valid p → reads mac_data_from_bitbuf (fields_bits (mac_data_fields p)) (mac_data_canon p).
Proof.
  intros [Ha Hc Hl]. unfold mac_data_from_bitbuf, mac_data_fields. cbn [app].
  rstep. eapply reads_pure; [by apply pure_expect_value|]. rstep. rstep. apply reads_address_then; [done|].
  rewrite b2z_nonzero. destruct (mda_length_ind p) as [l|] eqn:El.
  - destruct Hl as (Hl & Hf & Hr). rstep. eapply reads_last; [|].
    + cbn [Z.eqb]. rstep. apply reads_done.
    + cbv beta iota. unfold mac_data_canon. rewrite (wrap_fits 6), El, Hf, Hr, Hc by (done || lia). apply reads_done.
  - destruct Hl as [[f Hf] [r Hr]]. rewrite Hf, Hr. cbn [default]. rstep. eapply reads_last; [|].
    + cbn [Z.eqb]. rstep. apply reads_res_req_then. apply reads_bits_then; [lia|done|]. apply reads_done.
    + cbv beta iota. unfold mac_data_canon. rewrite b2z_nonzero, El, Hf, Hr, Hc. apply reads_done.
Qed.

(** * MAC-ACCESS *)

Record mac_access_valid (p : MacAccess) : Prop := {
  mav_addr : ul_address_ok (ma_addr p) (ma_event_label p);
  mav_clear : ma_encrypted p = false;
  mav_len : match ma_length_ind p with
            | Some l => is_u 5 l ∧ ma_frag_flag p = None ∧ ma_reservation_req p = None
            | None => is_some (ma_frag_flag p) = is_some (ma_reservation_req p)
            end
}.

Definition mac_access_fields (p : MacAccess) : fields :=
  [(0%Z, 1); (Z.b2z (ma_fill_bits p), 1); (0%Z, 1)] ++ ul_address_fields (ma_addr p) (ma_event_label p) ++
  match ma_length_ind p, ma_frag_flag p, ma_reservation_req p with
  | Some l, _, _ => [(1%Z, 1); (0%Z, 1); (l, 5)]
  | None, Some f, Some r => [(1%Z, 1); (1%Z, 1); (Z.b2z f, 1); (res_req_into_raw r, 4)]
  | _, _, _ => [(0%Z, 1)]
  end.

Definition mac_access_canon (p : MacAccess) : MacAccess :=
  mkMacAccess (ma_fill_bits p) (ma_encrypted p) (ul_canon <$> ma_addr p) (ma_event_label p) (ma_length_ind p)
    (ma_frag_flag p) (ma_reservation_req p).

Lemma mac_access_writes p : mac_access_valid p → writes (mac_access_to_bitbuf p) (fields_bits (mac_access_fields p)).
Proof.
  intros [Ha Hc Hl]. unfold mac_access_to_bitbuf, mac_access_fields. cbn [app]. rewrite Hc. do 3 wstep.
  apply writes_address_then; [done..|]. destruct (ma_length_ind p) as [l|].
  - destruct Hl as (Hl & -> & ->). cbn [is_some orb]. repeat wstep.
  - destruct (ma_frag_flag p) as [f|], (ma_reservation_req p) as [r|]; try done; cbn [is_some orb]; [|wstep].
    destruct (res_req_ok r) as [_ Hr]. do 2 wstep. eapply writes_pure; [by intros ?|]. wstep. eapply writes_pure; [by intros ?|]. wstep.
Qed.

Lemma mac_access_reads p : mac_access_valid p →
  reads mac_access_from_bitbuf (fields_bits (mac_access_fields p)) (mac_access_canon p).
Proof.
  intros [Ha Hc Hl]. unfold mac_access_from_bitbuf, mac_access_fields. cbn [app].
  rstep. eapply reads_pure; [by apply pure_expect_value|]. rstep. rstep. apply reads_address_then; [done|].
  rewrite b2z_nonzero. unfold mac_access_canon. rewrite Hc. destruct (ma_length_ind p) as [l|].
  - destruct Hl as (Hl & -> & ->). rstep. eapply reads_last.
    + cbn [Z.eqb negb]. rstep. cbn [Z.eqb]. rstep. apply reads_done.
    + cbv beta iota. rewrite (wrap_fits 5) by (done || lia). apply reads_done.
  - destruct (ma_frag_flag p) as [f|], (ma_reservation_req p) as [r|]; try done; rstep; (eapply reads_last; [|]).
    + cbn [Z.eqb negb]. rstep. cbn [Z.eqb]. rstep. apply reads_res_req_then. apply reads_done.
    + cbv beta iota. rewrite b2z_nonzero. apply reads_done.
    + cbn [Z.eqb negb]. apply reads_done.
    + cbv beta iota. apply reads_done.
Qed.

(** * MAC-END and MAC-FRAG *)

Definition end_hu_valid (p : MacEndHu) : Prop :=
  match meh_length_ind p, meh_reservation_req p with
  | Some l, None => is_u 4 l
  | None, Some _ => True
  | _, _ => False
  end.
Definition end_hu_fields (p : MacEndHu) : fields :=
  [(1%Z, 1); (Z.b2z (meh_fill_bits p), 1)] ++
  match meh_length_ind p with
  | Some l => [(0%Z, 1); (l, 4)]
  | None => [(1%Z, 1); (res_req_into_raw (default Req1Subslot (meh_reservation_req p)), 4)]
  end.

Lemma end_hu_writes p : end_hu_valid p → writes (mac_end_hu_to_bitbuf p) (fields_bits (end_hu_fields p)).
Proof.
  unfold end_hu_valid, mac_end_hu_to_bitbuf, end_hu_fields. destruct (meh_length_ind p) as [l|], (meh_reservation_req p) as [r|]; try done;
    intros Hv; cbn [app];
    repeat (apply writes_check; [done|]); do 2 wstep; [by repeat wstep|]. wstep. eapply writes_pure; [by intros ?|]. destruct (res_req_ok r). change (default Req1Subslot (Some r)) with r. wstep.
Qed.

Lemma end_hu_reads p : end_hu_valid p → reads mac_end_hu_from_bitbuf (fields_bits (end_hu_fields p)) p.
Proof.
  unfold end_hu_valid, mac_end_hu_from_bitbuf, end_hu_fields. intros Hv. cbn [app].
  rstep. eapply reads_pure; [by apply pure_expect_value|]. rstep. rewrite b2z_nonzero. destruct p as [fb [l|] [r|]]; try done; cbn [meh_length_ind meh_reservation_req meh_fill_bits] in *;
    try change (default Req1Subslot (Some r)) with r; rstep;
    (eapply reads_last; [|]).
  - cbn [Z.eqb]. rstep. apply reads_done.
  - cbv beta iota. rewrite (wrap_fits 4) by (done || lia). apply reads_done.
  - cbn [Z.eqb]. apply reads_res_req_then. apply reads_done.
  - cbv beta iota. apply reads_done.
Qed.

(** The writer refuses the largest length the parser accepts. *)
Definition end_ul_valid (p : MacEndUl) : Prop :=
  match meu_length_ind p, meu_reservation_req p with
  | Some l, None => (1 ≤ l ≤ 45)%Z
  | None, Some _ => True
  | _, _ => False
  end.
Definition end_ul_fields (p : MacEndUl) : fields :=
  [(1%Z, 2); (1%Z, 1); (Z.b2z (meu_fill_bits p), 1);
   (match meu_length_ind p with Some l => l | None => 48 + res_req_into_raw (default Req1Subslot (meu_reservation_req p)) end%Z, 6)].

Lemma split_cap_req r : fields_bits [(3%Z, 2); (res_req_into_raw r, 4)] = fields_bits [((48 + res_req_into_raw r)%Z, 6)].
Proof. by destruct r. Qed.

Lemma end_ul_writes p : end_ul_valid p → writes (mac_end_ul_to_bitbuf p) (fields_bits (end_ul_fields p)).
Proof.
  unfold end_ul_valid, mac_end_ul_to_bitbuf, end_ul_fields. destruct (meu_length_ind p) as [l|], (meu_reservation_req p) as [r|]; try done;
    intros Hv; do 3 wstep; (eapply writes_pure; [by apply pure_expect_value|]).
  - eapply writes_pure; [apply pure_expect_value; destruct (Z.ltb_spec 0 l); [done|lia]|].
    eapply writes_pure; [apply pure_expect_value; destruct (Z.ltb_spec l 46); [done|lia]|]. wstep.
  - change (default Req1Subslot (Some r)) with r. rewrite <-split_cap_req. destruct (res_req_ok r). repeat wstep.
Qed.

Lemma end_ul_reads p : end_ul_valid p → reads mac_end_ul_from_bitbuf (fields_bits (end_ul_fields p)) p.
Proof.
  unfold end_ul_valid, mac_end_ul_from_bitbuf, end_ul_fields. intros Hv.
  rstep. eapply reads_pure; [by apply pure_expect_value|]. rstep. eapply reads_pure; [by apply pure_expect_value|]. rstep. rewrite b2z_nonzero.
  destruct p as [fb [l|] [r|]]; try done; cbn [meu_length_ind meu_reservation_req meu_fill_bits] in *.
  - rstep. eapply reads_last; [|].
    + destruct (Z.eqb_spec l 0); [lia|]. destruct (Z.ltb_spec l 47); [|lia]. rewrite wrap_small by (unfold is_u; lia). apply reads_done.
    + apply reads_done.
  - change (default Req1Subslot (Some r)) with r. apply reads_field_then; [lia|destruct r; unfold is_u; cbn; lia|]. eapply reads_last; [|].
    + instantiate (1 := (None, Some r)). destruct r; apply reads_done.
    + apply reads_done.
Qed.

Lemma frag_ul_writes p : writes (mac_frag_ul_to_bitbuf p) (fields_bits [(1%Z, 2); (0%Z, 1); (Z.b2z (mfu_fill_bits p), 1)]).
Proof. unfold mac_frag_ul_to_bitbuf. repeat wstep. Qed.

Lemma frag_ul_reads p : reads mac_frag_ul_from_bitbuf (fields_bits [(1%Z, 2); (0%Z, 1); (Z.b2z (mfu_fill_bits p), 1)]) p.
Proof.
  unfold mac_frag_ul_from_bitbuf. rstep. eapply reads_pure; [by apply pure_expect_value|]. rstep.
  eapply reads_pure; [by apply pure_expect_value|]. rstep. rewrite b2z_nonzero. destruct p. rstep.
Qed.

(** * Supplementary PDUs *)

Lemma u_signal_writes p : writes (mac_u_signal_to_bitbuf p) (fields_bits [(3%Z, 2); (Z.b2z (mus_second_half_stolen p), 1)]).
Proof. unfold mac_u_signal_to_bitbuf. repeat wstep. Qed.

Lemma u_signal_reads p : reads mac_u_signal_from_bitbuf (fields_bits [(3%Z, 2); (Z.b2z (mus_second_half_stolen p), 1)]) p.
Proof.
  unfold mac_u_signal_from_bitbuf. rstep. eapply reads_pure; [by apply pure_expect_value|]. rstep. rewrite b2z_nonzero. destruct p. rstep.
Qed.

Definition u_blck_valid (p : MacUBlck) : Prop := is_u 10 (mub_event_label p) ∧ is_u 4 (mub_reservation_req p).
Definition u_blck_fields (p : MacUBlck) : fields :=
  [(3%Z, 2); (0%Z, 1); (Z.b2z (mub_fill_bits p), 1); (Z.b2z (mub_encrypted p), 1); (mub_event_label p, 10); (mub_reservation_req p, 4)].

Lemma u_blck_writes p : u_blck_valid p → writes (mac_u_blck_to_bitbuf p) (fields_bits (u_blck_fields p)).
Proof. intros []. unfold mac_u_blck_to_bitbuf, u_blck_fields. repeat wstep. Qed.

Lemma u_blck_reads p : u_blck_valid p → reads mac_u_blck_from_bitbuf (fields_bits (u_blck_fields p)) p.
Proof.
  intros []. unfold mac_u_blck_from_bitbuf, u_blck_fields. rstep. eapply reads_pure; [by apply pure_expect_value|]. rstep.
  eapply reads_pure; [by apply pure_expect_value|]. do 4 rstep. rewrite !b2z_nonzero, (wrap_fits 10), (wrap_fits 4) by (done || lia). destruct p. rstep.
Qed.

Record d_blck_valid (p : MacDBlck) : Prop := {
  dbv_enc : is_u 2 (mdb_encryption_mode p);
  dbv_label : is_u 10 (mdb_event_label p);
  dbv_grant g : mdb_slot_granting_element p = Some g → slotgrant_valid g
}.
Definition d_blck_fields (p : MacDBlck) : fields :=
  [(3%Z, 2); (0%Z, 1); (Z.b2z (mdb_fill_bits p), 1); (mdb_encryption_mode p, 2); (mdb_event_label p, 10);
   (Z.b2z (mdb_imm_napping_permission p), 1)] ++ opt_fields (mdb_slot_granting_element p) slotgrant_fields.

Lemma d_blck_writes p : d_blck_valid p → writes (mac_d_blck_to_bitbuf p) (fields_bits (d_blck_fields p)).
Proof.
  intros [? ? Hg]. unfold mac_d_blck_to_bitbuf, d_blck_fields. cbn [app]. do 6 wstep. apply writes_opt. intros g E. by apply slotgrant_writes, Hg.
Qed.

Lemma d_blck_reads p : d_blck_valid p → reads mac_d_blck_from_bitbuf (fields_bits (d_blck_fields p)) p.
Proof.
  intros [? ? Hg]. unfold mac_d_blck_from_bitbuf, d_blck_fields. cbn [app]. do 8 rstep. eapply reads_last.
  - apply (reads_opt _ _ (mdb_slot_granting_element p)). intros g E. by apply slotgrant_reads, Hg.
  - rewrite !b2z_nonzero, (wrap_fits 2), (wrap_fits 10) by (done || lia). destruct p. rstep.
Qed.

(** * ACCESS-DEFINE *)

Record access_define_valid (p : AccessDefine) : Prop := {
  adv_code : is_u 2 (ad_access_code p);
  adv_imm : is_u 4 (ad_imm p);
  adv_wt : is_u 4 (ad_wt p);
  adv_nu : is_u 4 (ad_nu p);
  adv_ts : is_u 4 (ad_ts_pointer p);
  adv_prio : is_u 3 (ad_min_pdu_prio p);
  adv_opt : is_u 2 (ad_opt_field_flag p);
  adv_class : if (ad_opt_field_flag p =? 1)%Z then ∃ v, ad_subscriber_class p = Some v ∧ is_u 16 v else ad_subscriber_class p = None;
  adv_gssi : if (ad_opt_field_flag p =? 2)%Z then ∃ v, ad_gssi p = Some v ∧ is_u 24 v else ad_gssi p = None
}.
Definition access_define_fields (p : AccessDefine) : fields :=
  [(2%Z, 2); (1%Z, 2); (Z.b2z (ad_common_or_assigned_control p), 1); (ad_access_code p, 2); (ad_imm p, 4); (ad_wt p, 4); (ad_nu p, 4);
   (Z.b2z (ad_frame_len_factor p), 1); (ad_ts_pointer p, 4); (ad_min_pdu_prio p, 3); (ad_opt_field_flag p, 2)] ++
  match ad_subscriber_class p with Some v => [(v, 16)] | None => [] end ++
  match ad_gssi p with Some v => [(v, 24)] | None => [] end ++ [(4%Z, 3)].

Lemma access_define_writes p : access_define_valid p → writes (access_define_to_bitbuf p) (fields_bits (access_define_fields p)).
Proof.
  intros [? ? ? ? ? ? ? Hc Hg]. unfold access_define_to_bitbuf, access_define_fields. cbn [app]. do 11 wstep.
  apply writes_elem; [|apply writes_elem; [|wstep]].
  - destruct (_ =? 1)%Z; [destruct Hc as (v & -> & ?)|rewrite Hc]; wstep.
  - destruct (_ =? 2)%Z; [destruct Hg as (v & -> & ?)|rewrite Hg]; wstep.
Qed.

Lemma access_define_reads p : access_define_valid p → reads access_define_from_bitbuf (fields_bits (access_define_fields p)) p.
Proof.
  intros [? ? ? ? ? ? ? Hc Hg]. unfold access_define_from_bitbuf, access_define_fields. cbn [app]. do 13 rstep.
  eapply (reads_elem _ _ _ _ (ad_subscriber_class p)); [|eapply (reads_elem _ _ _ _ (ad_gssi p))].
  - destruct (_ =? 1)%Z; [destruct Hc as (v & -> & ?)|rewrite Hc; apply reads_done]. rstep. rewrite (wrap_fits 16) by (done || lia). rstep.
  - destruct (_ =? 2)%Z; [destruct Hg as (v & -> & ?)|rewrite Hg; apply reads_done]. rstep. rewrite (wrap_fits 24) by (done || lia). rstep.
  - do 2 rstep. rewrite !b2z_nonzero, (wrap_fits 2 8), (wrap_fits 4 8 (ad_imm p)), (wrap_fits 4 8 (ad_wt p)), (wrap_fits 4 8 (ad_nu p)),
      (wrap_fits 4 8 (ad_ts_pointer p)), (wrap_fits 3 8), (wrap_fits 2 8) by (done || lia). destruct p. rstep.
Qed.

(** * All MAC headers *)

(** The headers the code writes and parses, with the address type of a MAC-RESOURCE. *)
Inductive mac_header : Type :=
| HdResource (r : MacResource) (t : MacResourceAddrType) | HdFragDl (p : MacFragDl) | HdEndDl (p : MacEndDl) | HdDBlck (p : MacDBlck)
| HdAccessDefine (p : AccessDefine) | HdAccess (p : MacAccess) | HdData (p : MacData) | HdEndHu (p : MacEndHu) | HdEndUl (p : MacEndUl)
| HdFragUl (p : MacFragUl) | HdUSignal (p : MacUSignal) | HdUBlck (p : MacUBlck).

Definition header_valid (h : mac_header) : Prop :=
  match h with
  | HdResource r t => mr_valid r ∧ mr_shape r t | HdEndDl p => mac_end_valid p | HdDBlck p => d_blck_valid p
  | HdAccessDefine p => access_define_valid p | HdAccess p => mac_access_valid p | HdData p => mac_data_valid p
  | HdEndHu p => end_hu_valid p | HdEndUl p => end_ul_valid p | HdUBlck p => u_blck_valid p
  | HdFragDl _ | HdFragUl _ | HdUSignal _ => True
  end.

Definition header_write (h : mac_header) : B unit :=
  match h with
  | HdResource r _ => mac_resource_to_bitbuf r | HdFragDl p => mac_frag_to_bitbuf p | HdEndDl p => mac_end_to_bitbuf p
  | HdDBlck p => mac_d_blck_to_bitbuf p | HdAccessDefine p => access_define_to_bitbuf p | HdAccess p => mac_access_to_bitbuf p
  | HdData p => mac_data_to_bitbuf p | HdEndHu p => mac_end_hu_to_bitbuf p | HdEndUl p => mac_end_ul_to_bitbuf p
  | HdFragUl p => mac_frag_ul_to_bitbuf p | HdUSignal p => mac_u_signal_to_bitbuf p | HdUBlck p => mac_u_blck_to_bitbuf p
  end.

(** The parser of a header's kind finds the header, addresses as they arrive. *)
Definition header_parsed (h : mac_header) (bs : list bool) : Prop :=
  match h with
  | HdResource r _ => reads mac_resource_from_bitbuf bs (mr_canon r) ∧ compute_header_len r = Some (length bs)
  | HdFragDl p => reads mac_frag_from_bitbuf bs p | HdEndDl p => reads mac_end_from_bitbuf bs p
  | HdDBlck p => reads mac_d_blck_from_bitbuf bs p | HdAccessDefine p => reads access_define_from_bitbuf bs p
  | HdAccess p => reads mac_access_from_bitbuf bs (mac_access_canon p) | HdData p => reads mac_data_from_bitbuf bs (mac_data_canon p)
  | HdEndHu p => reads mac_end_hu_from_bitbuf bs p | HdEndUl p => reads mac_end_ul_from_bitbuf bs p
  | HdFragUl p => reads mac_frag_ul_from_bitbuf bs p | HdUSignal p => reads mac_u_signal_from_bitbuf bs p
  | HdUBlck p => reads mac_u_blck_from_bitbuf bs p
  end.

(** C40: The MAC headers survive the air interface.  Every header with its fields in
    range, downlink (MAC-RESOURCE with any of its eight address types and any
    elements, MAC-FRAG, MAC-END, MAC-D-BLCK, ACCESS-DEFINE) or uplink (MAC-ACCESS,
    MAC-DATA, MAC-END and MAC-END-HU, MAC-FRAG, MAC-U-SIGNAL, MAC-U-BLCK), is written
    as some bits at which its parser stops having found the same header, up to the
    kind of identity that an address arrives as, whatever follows; the header length
    computed for a MAC-RESOURCE is the number of bits written. *)
Theorem mac_headers_roundtrip h : header_valid h → ∃ bs, writes (header_write h) bs ∧ header_parsed h bs.
Proof.
  intros Hv. destruct h; cbn [header_valid header_write header_parsed] in *; eexists.
  - destruct Hv as [Hv Hs]. split; [by apply mr_writes|]. split; [by apply mr_reads|]. rewrite length_fields_bits. by apply mr_len.
  - split; [apply mac_frag_writes|apply mac_frag_reads].
  - split; [by apply mac_end_writes|by apply mac_end_reads].
  - split; [by apply d_blck_writes|by apply d_blck_reads].
  - split; [by apply access_define_writes|by apply access_define_reads].
  - split; [by apply mac_access_writes|by apply mac_access_reads].
  - split; [by apply mac_data_writes|by apply mac_data_reads].
  - split; [by apply end_hu_writes|by apply end_hu_reads].
  - split; [by apply end_ul_writes|by apply end_ul_reads].
  - split; [apply frag_ul_writes|apply frag_ul_reads].
  - split; [apply u_signal_writes|apply u_signal_reads].
  - split; [by apply u_blck_writes|by apply u_blck_reads].
Qed.

Definition access_header : MacAccess := mkMacAccess true false (Some (mkAddr 77 Issi)) None None (Some true) (Some Req2Slots).

Lemma mac_headers_roundtrip_witness : ∃ bs, writes (header_write (HdAccess access_header)) bs ∧ header_parsed (HdAccess access_header) bs.
Proof.
  apply (mac_headers_roundtrip (HdAccess access_header)). constructor; [|reflexivity|reflexivity]. cbn. unfold is_u, plain_ssi. cbn. split; [lia|tauto].
Defined.

(** The writer of MAC-END refuses the largest length its parser accepts. *)
Lemma end_ul_writer_narrower : exec (mac_end_ul_to_bitbuf (mkMacEndUl false (Some 46%Z) None)) (new 10) = None ∧
  fst <$> exec mac_end_ul_from_bitbuf (mkBitBuffer [107; 128]%Z 0 0 10 false) = Some (mkMacEndUl false (Some 46%Z) None).
Proof. split; vm_compute; reflexivity. Qed.
