(* ===== verification/BsSched.v ===== *)
(** The scheduler of the base station's UMAC
    (tetra-entities/src/umac/subcomp/bs_sched.rs): queues of signalling for the
    four timeslots of a carrier, slot grants, voice traffic and stealing, and
    the assembly of each downlink slot.

    [BsChannelScheduler] has the fields of the source; [cur_dltime], [ulsched]
    and [next_usage_marker] are in the record of the uplink part (file
    BsSchedUl).  The receipt of a queued message is kept in its queue element;
    when the element is dropped, its receipt goes to [bs_retired], which records
    the state in which the scheduler leaves the receipts it was handed.
    [None] is a panic. *)
From S2P Require Import Prelude Bits Core BitBuffer TdmaTime TxReceipt MacDl BsFragSpec.
From S2P Require Import Scrambler ErrorControlSpec UmacCircuitMgr MacBcast BsSchedUlSpec.

(** * Data *)

Definition MACSCHED_TX_AHEAD : Z := 1.
Definition NULL_PDU_LEN_BITS : nat := 16.
Definition SCH_HD_CAP : nat := 124.
Definition SCH_F_CAP : nat := 268.
Definition TCH_S_CAP : nat := 274.
Definition NUM_TIMESLOTS : nat := 4.

Inductive CarrierDownlinkMode : Type := PrimaryMcch | SecondaryBcchNoMcch | TrafficOnly.

Definition emit_bcch (m : CarrierDownlinkMode) : bool :=
  match m with PrimaryMcch | SecondaryBcchNoMcch => true | TrafficOnly => false end.
Definition mode_allow_mcch (m : CarrierDownlinkMode) : bool :=
  match m with PrimaryMcch => true | _ => false end.
Definition mode_allow_common_control_aach (m : CarrierDownlinkMode) : bool :=
  match m with PrimaryMcch => true | _ => false end.
Definition allow_assigned_traffic_ts1 (m : CarrierDownlinkMode) : bool :=
  match m with SecondaryBcchNoMcch | TrafficOnly => true | PrimaryMcch => false end.

Record PrecomputedUmacPdus : Type := mkPrecomps {
  pc_mac_sysinfo1 : MacSysinfo;
  pc_mac_sysinfo2 : MacSysinfo;
  pc_mle_sysinfo : DMleSysinfo;
  pc_mac_sync : MacSync;
  pc_mle_sync : DMleSync
}.

Inductive DlSchedElem : Type :=
| EBroadcast (todo : Z)
| ERandomAccessAck (addr : TetraAddress)
| EGrant (addr : TetraAddress) (grant : BasicSlotgrant) (usage_marker : option Z)
| EResource (pdu : MacResource) (sdu : BitBuffer) (tx_reporter : option TxReporter)
| EFragBuf (fragger : BsFragger)
| EStealing (block : BitBuffer) (tx_reporter : option TxReporter).

Record BsChannelScheduler : Type := mkBs {
  bs_ul : UlScheduler;
  bs_carrier_num : Z;
  bs_downlink_mode : CarrierDownlinkMode;
  bs_scrambling_code : Z;
  bs_precomps : PrecomputedUmacPdus;
  bs_dltx_next_slot_queue : list DlSchedElem;
  bs_dltx_queues : list (list DlSchedElem);
  bs_circuits : CircuitMgr;
  bs_hangtime : list bool;
  bs_pending_ra_acks : list (list Z);
  bs_mcch_chan_alloc_sent_this_frame : bool;
  bs_retired : list TxReporter
}.

Inductive PhysicalChannel : Type := Tp | Cp | PcUnallocated.

Record TmvUnitdataReqSlot : Type := mkSlot {
  sl_carrier_num : Z;
  sl_ts : TdmaTime;
  sl_ul_phy_chan : PhysicalChannel;
  sl_blk1 : option TmvUnitdataReq;
  sl_blk2 : option TmvUnitdataReq;
  sl_bbk : option TmvUnitdataReq
}.

(** * Field updates *)

Definition with_ul (v : UlScheduler) (s : BsChannelScheduler) : BsChannelScheduler :=
  mkBs v (bs_carrier_num s) (bs_downlink_mode s) (bs_scrambling_code s) (bs_precomps s) (bs_dltx_next_slot_queue s)
    (bs_dltx_queues s) (bs_circuits s) (bs_hangtime s) (bs_pending_ra_acks s)
    (bs_mcch_chan_alloc_sent_this_frame s) (bs_retired s).
Definition with_precomps (v : PrecomputedUmacPdus) (s : BsChannelScheduler) : BsChannelScheduler :=
  mkBs (bs_ul s) (bs_carrier_num s) (bs_downlink_mode s) (bs_scrambling_code s) v (bs_dltx_next_slot_queue s)
    (bs_dltx_queues s) (bs_circuits s) (bs_hangtime s) (bs_pending_ra_acks s)
    (bs_mcch_chan_alloc_sent_this_frame s) (bs_retired s).
Definition with_next_slot_queue (v : list DlSchedElem) (s : BsChannelScheduler) : BsChannelScheduler :=
  mkBs (bs_ul s) (bs_carrier_num s) (bs_downlink_mode s) (bs_scrambling_code s) (bs_precomps s) v
    (bs_dltx_queues s) (bs_circuits s) (bs_hangtime s) (bs_pending_ra_acks s)
    (bs_mcch_chan_alloc_sent_this_frame s) (bs_retired s).
Definition with_queues (v : list (list DlSchedElem)) (s : BsChannelScheduler) : BsChannelScheduler :=
  mkBs (bs_ul s) (bs_carrier_num s) (bs_downlink_mode s) (bs_scrambling_code s) (bs_precomps s)
    (bs_dltx_next_slot_queue s) v (bs_circuits s) (bs_hangtime s) (bs_pending_ra_acks s)
    (bs_mcch_chan_alloc_sent_this_frame s) (bs_retired s).
Definition with_circuits (v : CircuitMgr) (s : BsChannelScheduler) : BsChannelScheduler :=
  mkBs (bs_ul s) (bs_carrier_num s) (bs_downlink_mode s) (bs_scrambling_code s) (bs_precomps s)
    (bs_dltx_next_slot_queue s) (bs_dltx_queues s) v (bs_hangtime s) (bs_pending_ra_acks s)
    (bs_mcch_chan_alloc_sent_this_frame s) (bs_retired s).
Definition with_hangtime (v : list bool) (s : BsChannelScheduler) : BsChannelScheduler :=
  mkBs (bs_ul s) (bs_carrier_num s) (bs_downlink_mode s) (bs_scrambling_code s) (bs_precomps s)
    (bs_dltx_next_slot_queue s) (bs_dltx_queues s) (bs_circuits s) v (bs_pending_ra_acks s)
    (bs_mcch_chan_alloc_sent_this_frame s) (bs_retired s).
Definition with_pending_ra_acks (v : list (list Z)) (s : BsChannelScheduler) : BsChannelScheduler :=
  mkBs (bs_ul s) (bs_carrier_num s) (bs_downlink_mode s) (bs_scrambling_code s) (bs_precomps s)
    (bs_dltx_next_slot_queue s) (bs_dltx_queues s) (bs_circuits s) (bs_hangtime s) v
    (bs_mcch_chan_alloc_sent_this_frame s) (bs_retired s).
Definition with_mcch_flag (v : bool) (s : BsChannelScheduler) : BsChannelScheduler :=
  mkBs (bs_ul s) (bs_carrier_num s) (bs_downlink_mode s) (bs_scrambling_code s) (bs_precomps s)
    (bs_dltx_next_slot_queue s) (bs_dltx_queues s) (bs_circuits s) (bs_hangtime s) (bs_pending_ra_acks s)
    v (bs_retired s).

(** The receipt of a dropped element, in the state it is left in. *)
Definition retire (tx : option TxReporter) (s : BsChannelScheduler) : BsChannelScheduler :=
  mkBs (bs_ul s) (bs_carrier_num s) (bs_downlink_mode s) (bs_scrambling_code s) (bs_precomps s)
    (bs_dltx_next_slot_queue s) (bs_dltx_queues s) (bs_circuits s) (bs_hangtime s) (bs_pending_ra_acks s)
    (bs_mcch_chan_alloc_sent_this_frame s) (bs_retired s ++ option_list tx).

(** [arr[ts as usize - 1]] *)
Definition at_ts {A} (ts : Z) (l : list A) : option A := check (1 <=? ts)%Z;; l !! Z.to_nat (ts - 1).
Definition set_ts {A} (ts : Z) (x : A) (l : list A) : list A := <[Z.to_nat (ts - 1) := x]> l.

Definition queue_of (ts : Z) (s : BsChannelScheduler) : option (list DlSchedElem) := at_ts ts (bs_dltx_queues s).
Definition set_queue (ts : Z) (q : list DlSchedElem) (s : BsChannelScheduler) : BsChannelScheduler :=
  with_queues (set_ts ts q (bs_dltx_queues s)) s.
(** [self.dltx_queues[ts as usize - 1].push(elem)] *)
Definition push_queue (ts : Z) (e : DlSchedElem) (s : BsChannelScheduler) : option BsChannelScheduler :=
  q ← queue_of ts s; Some (set_queue ts (q ++ [e]) s).

(** [(1..=4).contains(&ts)] *)
Definition ts_1_4 (ts : Z) : bool := (1 <=? ts)%Z && (ts <=? 4)%Z.

(** * Construction and simple accessors *)

Definition sched_new (scrambling_code : Z) (precomps : PrecomputedUmacPdus) : BsChannelScheduler :=
  mkBs ul_new (si_main_carrier (pc_mac_sysinfo1 precomps)) PrimaryMcch scrambling_code precomps
    [] [[]; []; []; []] cm_new [false; false; false; false] [[]; []; []; []] false [].

Definition set_carrier_num (carrier_num : Z) (s : BsChannelScheduler) : BsChannelScheduler :=
  mkBs (bs_ul s) carrier_num (bs_downlink_mode s) (bs_scrambling_code s) (bs_precomps s) (bs_dltx_next_slot_queue s)
    (bs_dltx_queues s) (bs_circuits s) (bs_hangtime s) (bs_pending_ra_acks s)
    (bs_mcch_chan_alloc_sent_this_frame s) (bs_retired s).
Definition set_downlink_mode (downlink_mode : CarrierDownlinkMode) (s : BsChannelScheduler) : BsChannelScheduler :=
  mkBs (bs_ul s) (bs_carrier_num s) downlink_mode (bs_scrambling_code s) (bs_precomps s) (bs_dltx_next_slot_queue s)
    (bs_dltx_queues s) (bs_circuits s) (bs_hangtime s) (bs_pending_ra_acks s)
    (bs_mcch_chan_alloc_sent_this_frame s) (bs_retired s).

Definition allow_mcch (s : BsChannelScheduler) : bool := mode_allow_mcch (bs_downlink_mode s).
Definition allow_common_control_aach (s : BsChannelScheduler) : bool := mode_allow_common_control_aach (bs_downlink_mode s).

Definition set_system_wide_services_state (enabled : bool) (s : BsChannelScheduler) : BsChannelScheduler :=
  let p := bs_precomps s in
  let m := pc_mle_sysinfo p in
  let d := dmi_bs_service_details m in
  if bool_decide (bsd_system_wide_services d = enabled) then s
  else
    let d := mkBsServiceDetails (bsd_registration d) (bsd_deregistration d) (bsd_priority_cell d)
      (bsd_no_minimum_mode d) (bsd_migration d) enabled (bsd_voice_service d) (bsd_circuit_mode_data_service d)
      (bsd_sndcp_service d) (bsd_aie_service d) (bsd_advanced_link d) in
    with_precomps (mkPrecomps (pc_mac_sysinfo1 p) (pc_mac_sysinfo2 p)
      (mkDMleSysinfo (dmi_location_area m) (dmi_subscriber_class m) d) (pc_mac_sync p) (pc_mle_sync p)) s.

(** Dropping an element as it is: a fragmenter reports an unfinished SDU, other receipts are let go. *)
Definition drop_elem (e : DlSchedElem) (s : BsChannelScheduler) : option BsChannelScheduler :=
  match e with
  | EResource _ _ tx => Some (retire tx s)
  | EStealing _ tx => Some (retire tx s)
  | EFragBuf f => tx ← fragger_drop f; Some (retire tx s)
  | _ => Some s
  end.

Fixpoint drop_elems (l : list DlSchedElem) (s : BsChannelScheduler) : option BsChannelScheduler :=
  match l with [] => Some s | e :: l => s ← drop_elem e s; drop_elems l s end.

Definition purge_schedule (s : BsChannelScheduler) : option BsChannelScheduler :=
  s ← drop_elems (mjoin (bs_dltx_queues s)) s;
  Some (with_ul (ul_purge_schedule (bs_ul s)) (with_queues [[]; []; []; []] s)).

Definition set_dl_time (new_ts : TdmaTime) (s : BsChannelScheduler) : option BsChannelScheduler :=
  let u := bs_ul s in
  purge_schedule (with_ul (mkUl new_ts (ul_ulsched u) (ul_next_usage_marker u)) s).

(** * Hangtime *)

Definition is_stealing (e : DlSchedElem) : bool := match e with EStealing _ _ => true | _ => false end.

(** What happens to a discarded element: receipts are reported, acknowledgements remembered. *)
Definition discard_elem (timeslot : Z) (e : DlSchedElem) (s : BsChannelScheduler) : option BsChannelScheduler :=
  match e with
  | EResource _ _ (Some tx) => tx ← mark_discarded tx; Some (retire (Some tx) s)
  | EFragBuf f => tx ← fragger_drop f; Some (retire tx s)
  | ERandomAccessAck addr =>
      pending ← at_ts timeslot (bs_pending_ra_acks s);
      Some (with_pending_ra_acks (set_ts timeslot (pending ++ [ssi addr]) (bs_pending_ra_acks s)) s)
  | EStealing _ _ => None
  | _ => Some s
  end.

(** The loop of [dl_drop_all_except_stolen] over the elements still to look at;
    [kept] are the elements passed over. *)
Fixpoint drop_loop (timeslot : Z) (queue kept : list DlSchedElem) (item_was_discarded : bool)
    (s : BsChannelScheduler) : option (bool * BsChannelScheduler) :=
  match queue with
  | [] => Some (item_was_discarded, set_queue timeslot kept s)
  | e :: queue =>
      if is_stealing e then drop_loop timeslot queue (kept ++ [e]) item_was_discarded s
      else s ← discard_elem timeslot e s; drop_loop timeslot queue kept true s
  end.

Definition dl_drop_all_except_stolen (timeslot : Z) (s : BsChannelScheduler) : option (bool * BsChannelScheduler) :=
  queue ← queue_of timeslot s;
  drop_loop timeslot queue [] false s.

Definition set_hangtime (ts : Z) (active : bool) (s : BsChannelScheduler) : option BsChannelScheduler :=
  if negb (ts_1_4 ts) then Some s
  else
    let s := with_hangtime (set_ts ts active (bs_hangtime s)) s in
    if active then Some s else snd <$> dl_drop_all_except_stolen ts s.

Definition is_hangtime (ts : Z) (s : BsChannelScheduler) : option bool :=
  if negb (ts_1_4 ts) then Some false else at_ts ts (bs_hangtime s).

(** [ts as usize - 1] panics for 0; [get] is total. *)
Definition has_pending_stealing (ts : Z) (s : BsChannelScheduler) : option bool :=
  check (1 <=? ts)%Z;;
  Some (match bs_dltx_queues s !! Z.to_nat (ts - 1) with Some q => existsb is_stealing q | None => false end).

Definition is_hangtime_effective (ts : Z) (s : BsChannelScheduler) : option bool :=
  if negb (ts_1_4 ts) then Some false
  else
    h ← at_ts ts (bs_hangtime s);
    if negb h then Some false else negb <$> has_pending_stealing ts s.

Definition supports_assigned_traffic_ts (ts : Z) (s : BsChannelScheduler) : bool :=
  if (ts =? 1)%Z then allow_assigned_traffic_ts1 (bs_downlink_mode s)
  else (2 <=? ts)%Z && (ts <=? 4)%Z.

Definition can_deliver_stealing (ts : Z) (s : BsChannelScheduler) : bool :=
  supports_assigned_traffic_ts ts s && is_active Dl (bs_carrier_num s) ts (bs_circuits s).

(** * Enqueueing *)

Definition dl_queue_depth (s : BsChannelScheduler) : nat :=
  sum_list (length <$> bs_dltx_queues s) + length (bs_dltx_next_slot_queue s).

(** Timeslot 1 of a carrier without MCCH takes signalling only for an open circuit. *)
Definition ignores_ts1 (ts : Z) (s : BsChannelScheduler) : bool :=
  (ts =? 1)%Z && negb (allow_mcch s) && negb (is_active Dl (bs_carrier_num s) ts (bs_circuits s)).

Definition dl_enqueue_grant (ts : Z) (addr : TetraAddress) (grant : BasicSlotgrant) (usage_marker : option Z)
    (s : BsChannelScheduler) : option BsChannelScheduler :=
  if ignores_ts1 ts s then Some s else push_queue ts (EGrant addr grant usage_marker) s.

Definition dl_enqueue_random_access_ack (ts : Z) (addr : TetraAddress) (s : BsChannelScheduler) :
    option BsChannelScheduler :=
  if ignores_ts1 ts s then Some s else push_queue ts (ERandomAccessAck addr) s.

Definition identify_timeslots_for_ssi (addr : option TetraAddress) (link_id : Z) (s : BsChannelScheduler) : list Z :=
  match addr with
  | None => [0; 0; 0; 0]
  | Some addr =>
      if bool_decide (ssi_type addr = Gssi) || (link_id =? 0) then
        if allow_mcch s then [1; 0; 0; 0] else [0; 0; 0; 0]
      else if 255 <? link_id then
        if allow_mcch s then [1; 0; 0; 0] else [0; 0; 0; 0]
      else
        let link_ts := link_id in
        if negb ((1 <=? link_ts) && (link_ts <=? Z.of_nat NUM_TIMESLOTS)) then
          if allow_mcch s then [1; 0; 0; 0] else [0; 0; 0; 0]
        else if is_active Dl (bs_carrier_num s) link_ts (bs_circuits s) then
          if allow_mcch s then [1; 0; 0; 0] else [link_ts; 0; 0; 0]
        else if negb (allow_mcch s) && (link_ts =? 1) then [0; 0; 0; 0]
        else [link_ts; 0; 0; 0]
  end%Z.

(** The loop of [dl_enqueue_tma_on_timeslots]; its list is the rest of the
    timeslots, whose head [ts] is looked at and whose second is [next_ts].  A
    clone of the receipt shares its state with the original; this copies the
    value, which makes no difference as long as the element is queued once. *)
Fixpoint enqueue_loop (timeslots : list Z) (pdu : MacResource) (sdu : BitBuffer) (tx_reporter : option TxReporter)
    (s : BsChannelScheduler) : option BsChannelScheduler :=
  match timeslots with
  | [] => Some s
  | ts :: rest =>
      if (ts =? 0)%Z then Some (retire tx_reporter s)
      else
        let next_ts := default 0%Z (head rest) in
        let '(deferred, s) :=
          if (ts =? 1)%Z && allow_mcch s && is_some (mr_chan_alloc_element pdu) then
            if bs_mcch_chan_alloc_sent_this_frame s then (true, s) else (false, with_mcch_flag true s)
          else (false, s) in
        if deferred then
          Some (with_next_slot_queue (bs_dltx_next_slot_queue s ++ [EResource pdu sdu tx_reporter]) s)
        else if (0 <? next_ts)%Z then
          s ← push_queue ts (EResource pdu sdu tx_reporter) s;
          enqueue_loop rest pdu sdu tx_reporter s
        else push_queue ts (EResource pdu sdu tx_reporter) s
  end.

Definition dl_enqueue_tma_on_timeslots (timeslots : list Z) (pdu : MacResource) (sdu : BitBuffer)
    (tx_reporter : option TxReporter) (s : BsChannelScheduler) : option BsChannelScheduler :=
  enqueue_loop timeslots pdu sdu tx_reporter s.

Definition dl_enqueue_tma (pdu : MacResource) (sdu : BitBuffer) (tx_reporter : option TxReporter)
    (s : BsChannelScheduler) : option BsChannelScheduler :=
  dl_enqueue_tma_on_timeslots (identify_timeslots_for_ssi (mr_addr pdu) 0 s) pdu sdu tx_reporter s.

Definition dl_enqueue_tma_for_link (link_id : Z) (pdu : MacResource) (sdu : BitBuffer) (tx_reporter : option TxReporter)
    (s : BsChannelScheduler) : option BsChannelScheduler :=
  dl_enqueue_tma_on_timeslots (identify_timeslots_for_ssi (mr_addr pdu) link_id s) pdu sdu tx_reporter s.

(** Removing the first element that satisfies a test ([position] and [remove]). *)
Fixpoint remove_first {A} (p : A → bool) (l : list A) : option (A * list A) :=
  match l with
  | [] => None
  | x :: l => if p x then Some (x, l) else '(y, l) ← remove_first p l; Some (y, x :: l)
  end.

Definition take_pending_ra_ack (ts ssi : Z) (s : BsChannelScheduler) : option (bool * BsChannelScheduler) :=
  pending ← at_ts ts (bs_pending_ra_acks s);
  Some (match remove_first (λ x, x =? ssi)%Z pending with
        | Some (_, pending) => (true, with_pending_ra_acks (set_ts ts pending (bs_pending_ra_acks s)) s)
        | None => (false, s)
        end).

Definition dl_enqueue_stealing (ts : Z) (block : BitBuffer) (tx_reporter : option TxReporter) (s : BsChannelScheduler) :
    option BsChannelScheduler :=
  push_queue ts (EStealing block tx_reporter) s.

Definition dl_enqueue_tma_frag_next_frame (fragger : BsFragger) (s : BsChannelScheduler) : BsChannelScheduler :=
  with_next_slot_queue (bs_dltx_next_slot_queue s ++ [EFragBuf fragger]) s.

Definition dl_enqueue_tma_next_frame (pdu : MacResource) (sdu : BitBuffer) (tx_reporter : option TxReporter)
    (s : BsChannelScheduler) : BsChannelScheduler :=
  with_next_slot_queue (bs_dltx_next_slot_queue s ++ [EResource pdu sdu tx_reporter]) s.

(** * Circuits *)

Definition dl_schedule_tmd (ts : Z) (block : list Z) (s : BsChannelScheduler) : BsChannelScheduler :=
  with_circuits (put_block (bs_carrier_num s) ts block (bs_circuits s)) s.

Definition circuit_is_active (dir : Direction) (ts : Z) (s : BsChannelScheduler) : bool :=
  is_active dir (bs_carrier_num s) ts (bs_circuits s).

Definition dl_queued_block_count (ts : Z) (s : BsChannelScheduler) : nat :=
  queued_block_count (bs_carrier_num s) ts (bs_circuits s).
Definition duplex_peer_route (ts : Z) (s : BsChannelScheduler) : option (Z * Z) :=
  get_ul_peer_route (bs_carrier_num s) ts (bs_circuits s).
Definition dl_media_source (ts : Z) (s : BsChannelScheduler) : option CircuitDlMediaSource :=
  get_dl_media_source (bs_carrier_num s) ts (bs_circuits s).

(** [if (1..=4).contains(&ts) { self.hangtime[ts as usize - 1] = false; }] *)
Definition clear_hangtime (ts : Z) (s : BsChannelScheduler) : BsChannelScheduler :=
  if ts_1_4 ts then with_hangtime (set_ts ts false (bs_hangtime s)) s else s.

Definition bs_close_circuit (dir : Direction) (ts : Z) (s : BsChannelScheduler) : option Circuit * BsChannelScheduler :=
  let s := clear_hangtime ts s in
  let '(c, circuits) := close_circuit dir (bs_carrier_num s) ts (bs_circuits s) in
  (c, with_circuits circuits s).

Definition bs_create_circuit (dir : Direction) (circuit : Circuit) (s : BsChannelScheduler) : BsChannelScheduler :=
  if negb (supports_assigned_traffic_ts (c_ts circuit) s) then s
  else
    let s := clear_hangtime (c_ts circuit) s in
    with_circuits (create_circuit dir circuit (bs_circuits s)) s.

(** * Grants and acknowledgements *)

(** Writing one PDU into a block. *)
Definition write_pdu (w : B unit) (b : BitBuffer) : option BitBuffer := '(_, b) ← exec w b; Some b.

Definition is_grant_or_ack (e : DlSchedElem) : bool :=
  match e with EGrant _ _ _ | ERandomAccessAck _ => true | _ => false end.

(** The loop of [dl_take_all_grants_and_acks]: what is taken, what stays. *)
Fixpoint take_loop (queue : list DlSchedElem) : list DlSchedElem * list DlSchedElem :=
  match queue with
  | [] => ([], [])
  | e :: queue =>
      let '(taken, rest) := take_loop queue in
      if is_grant_or_ack e then (e :: taken, rest) else (taken, e :: rest)
  end.

Definition dl_take_all_grants_and_acks (timeslot : Z) (s : BsChannelScheduler) :
    option (list DlSchedElem * BsChannelScheduler) :=
  queue ← queue_of timeslot s;
  let '(taken, rest) := take_loop queue in
  Some (taken, set_queue timeslot rest s).

(** [dl_get_scheduled_resource_for_ssi]: the place of the resource it returns a reference to. *)
Fixpoint find_resource (addr : TetraAddress) (queue : list DlSchedElem) : option nat :=
  match queue with
  | [] => None
  | EResource pdu _ _ :: queue =>
      match mr_addr pdu with
      | Some pdu_ssi => if (ssi pdu_ssi =? ssi addr)%Z then Some 0 else S <$> find_resource addr queue
      | None => S <$> find_resource addr queue
      end
  | _ :: queue => S <$> find_resource addr queue
  end.

Definition dl_get_scheduled_resource_for_ssi (ts : TdmaTime) (addr : TetraAddress) (s : BsChannelScheduler) :
    option (option nat) :=
  queue ← queue_of (tt_t ts) s; Some (find_resource addr queue).

Definition dl_make_minimal_resource (addr : TetraAddress) (grant : option BasicSlotgrant) (random_access_ack : bool) :
    option MacResource :=
  '(_, pdu) ← update_len_and_fill_ind 0
    (mkMacResource false 0 0 random_access_ack 0 (Some addr) None None None grant None);
  Some pdu.

Definition set_usage_marker (um : option Z) (r : MacResource) : MacResource :=
  mkMacResource (mr_fill_bits r) (mr_pos_of_grant r) (mr_encryption_mode r) (mr_random_access_flag r)
    (mr_length_ind r) (mr_addr r) (mr_event_label r) um (mr_power_control_element r)
    (mr_slot_granting_element r) (mr_chan_alloc_element r).

(** The resource with the grant or the acknowledgement added. *)
Definition integrate_grant (grant : BasicSlotgrant) (usage_marker : option Z) (r : MacResource) : MacResource :=
  let r := mkMacResource (mr_fill_bits r) (mr_pos_of_grant r) (mr_encryption_mode r) (mr_random_access_flag r)
    (mr_length_ind r) (mr_addr r) (mr_event_label r) (mr_usage_marker r) (mr_power_control_element r)
    (Some grant) (mr_chan_alloc_element r) in
  if is_none (mr_usage_marker r) then set_usage_marker usage_marker r else r.
Definition integrate_ack (r : MacResource) : MacResource :=
  mkMacResource (mr_fill_bits r) (mr_pos_of_grant r) (mr_encryption_mode r) true
    (mr_length_ind r) (mr_addr r) (mr_event_label r) (mr_usage_marker r) (mr_power_control_element r)
    (mr_slot_granting_element r) (mr_chan_alloc_element r).

(** One turn of the loop of [dl_integrate_sched_elems_for_timeslot]. *)
Definition integrate_one (ts : TdmaTime) (elem : DlSchedElem) (s : BsChannelScheduler) : option BsChannelScheduler :=
  addr ← match elem with EGrant addr _ _ | ERandomAccessAck addr => Some addr | _ => None end;
  mac_resource ← dl_get_scheduled_resource_for_ssi ts addr s;
  queue ← queue_of (tt_t ts) s;
  match mac_resource with
  | Some i =>
      match queue !! i with
      | Some (EResource pdu sdu tx) =>
          pdu ← match elem with
                | EGrant _ grant usage_marker => Some (integrate_grant grant usage_marker pdu)
                | ERandomAccessAck _ => Some (integrate_ack pdu)
                | _ => None
                end;
          Some (set_queue (tt_t ts) (<[i := EResource pdu sdu tx]> queue) s)
      | _ => None
      end
  | None =>
      pdu ← match elem with
            | EGrant _ grant usage_marker =>
                pdu ← dl_make_minimal_resource addr (Some grant) false; Some (set_usage_marker usage_marker pdu)
            | ERandomAccessAck _ => dl_make_minimal_resource addr None true
            | _ => None
            end;
      push_queue (tt_t ts) (EResource pdu (new 0) None) s
  end.

Fixpoint integrate_loop (ts : TdmaTime) (elems : list DlSchedElem) (s : BsChannelScheduler) : option BsChannelScheduler :=
  match elems with [] => Some s | e :: elems => s ← integrate_one ts e s; integrate_loop ts elems s end.

Definition dl_integrate_sched_elems_for_timeslot (ts : TdmaTime) (s : BsChannelScheduler) : option BsChannelScheduler :=
  '(grants_and_acks, s) ← dl_take_all_grants_and_acks (tt_t ts) s;
  integrate_loop ts grants_and_acks s.

(** * Signalling blocks *)

Definition is_grant (e : DlSchedElem) : bool := match e with EGrant _ _ _ => true | _ => false end.
Definition is_fragbuf (e : DlSchedElem) : bool := match e with EFragBuf _ => true | _ => false end.
Definition is_resource_elem (e : DlSchedElem) : bool := match e with EResource _ _ _ => true | _ => false end.

Definition dl_take_prioritized_sched_item (ts : TdmaTime) (s : BsChannelScheduler) :
    option DlSchedElem * BsChannelScheduler :=
  if (tt_f ts =? 18)%Z then (None, s)
  else if (tt_t ts <? 1)%Z || (Z.of_nat (length (bs_dltx_queues s)) <? tt_t ts)%Z then (None, s)
  else
    match bs_dltx_queues s !! Z.to_nat (tt_t ts - 1) with
    | None => (None, s)
    | Some q =>
        match remove_first is_grant q with
        | Some (e, q) => (Some e, set_queue (tt_t ts) q s)
        | None =>
            match remove_first is_fragbuf q with
            | Some (e, q) => (Some e, set_queue (tt_t ts) q s)
            | None =>
                match remove_first is_resource_elem q with
                | Some (e, q) => (Some e, set_queue (tt_t ts) q s)
                | None =>
                    match remove_first is_stealing q with
                    | Some (e, q) => (Some e, set_queue (tt_t ts) q s)
                    | None => (None, s)
                    end
                end
            end
        end
    end.

(** A fragmenter writes its next chunk to the block; it is queued again when it
    has more to send and dropped when it is done. *)
Definition feed_block (fragger : BsFragger) (buf_opt : option BitBuffer) (s : BsChannelScheduler) :
    option (option BitBuffer * BsChannelScheduler) :=
  let buf := match buf_opt with Some buf => buf | None => new SCH_F_CAP end in
  '(done, fragger, buf) ← get_next_chunk fragger buf;
  if (done : bool) then tx ← fragger_drop fragger; Some (Some buf, retire tx s)
  else Some (Some buf, dl_enqueue_tma_frag_next_frame fragger s).

(** What the build loop does with an element it took. *)
Definition build_one (sched_elem : DlSchedElem) (buf_opt : option BitBuffer) (s : BsChannelScheduler) :
    option (option BitBuffer * BsChannelScheduler) :=
  match sched_elem with
  | EResource pdu sdu tx_reporter => f ← fragger_new pdu sdu tx_reporter; feed_block f buf_opt s
  | EFragBuf fragger => feed_block fragger buf_opt s
  | EStealing _ tx_reporter =>
      match tx_reporter with
      | Some tx => tx ← mark_discarded tx; Some (buf_opt, retire (Some tx) s)
      | None => Some (buf_opt, s)
      end
  | EBroadcast _ | EGrant _ _ _ | ERandomAccessAck _ => Some (buf_opt, s)
  end.

(** [while !queue.is_empty()]: every turn takes an element or ends the loop. *)
Fixpoint build_loop (fuel : nat) (ts : TdmaTime) (buf_opt : option BitBuffer) (s : BsChannelScheduler) :
    option (option BitBuffer * BsChannelScheduler) :=
  queue ← queue_of (tt_t ts) s;
  match queue with
  | [] => Some (buf_opt, s)
  | _ :: _ =>
      match fuel with
      | O => None
      | S fuel =>
          let '(opt, s) := dl_take_prioritized_sched_item ts s in
          match opt with
          | Some sched_elem => '(buf_opt, s) ← build_one sched_elem buf_opt s; build_loop fuel ts buf_opt s
          | None => Some (buf_opt, s)
          end
      end
  end.

Definition dl_build_block_from_signalling_schedule (ts : TdmaTime) (s : BsChannelScheduler) :
    option (option BitBuffer * BsChannelScheduler) :=
  queue ← queue_of (tt_t ts) s;
  '(buf_opt, s) ← build_loop (length queue) ts None s;
  match bs_dltx_next_slot_queue s with
  | [] => Some (buf_opt, s)
  | merged => current ← queue_of (tt_t ts) s; Some (buf_opt, set_queue (tt_t ts) (merged ++ current) (with_next_slot_queue [] s))
  end.

(** * Traffic blocks *)

(** The speech of a slot: a queued block cut to size, or silence. *)
Definition voice_block (block : option (list Z)) : option BitBuffer :=
  match block with
  | Some block =>
      if TCH_S_CAP <=? length block * 8 then
        let buf := from_vec block in
        '(_, buf) ← exec (set_raw_end (bb_start buf + TCH_S_CAP)) buf; Some buf
      else Some (new TCH_S_CAP)
  | None => Some (new TCH_S_CAP)
  end.

Definition dl_build_traffic_block (ts : TdmaTime) (s : BsChannelScheduler) :
    option (BitBuffer * option BitBuffer * BsChannelScheduler) :=
  let '(block, circuits) := take_block (bs_carrier_num s) (tt_t ts) (bs_circuits s) in
  let s := with_circuits circuits s in
  tch_buf ← voice_block block;
  q ← queue_of (tt_t ts) s;
  match remove_first is_stealing q with
  | Some (EStealing buf tx_reporter, q) =>
      let s := set_queue (tt_t ts) q s in
      tx ← match tx_reporter with Some tx => Some <$> mark_transmitted tx | None => Some None end;
      Some (tch_buf, Some buf, retire tx s)
  | Some _ => None
  | None => Some (tch_buf, None, s)
  end.

(** * Idle and broadcast blocks *)

Definition generate_hangtime_idle_schf : option BitBuffer := write_pdu (mac_resource_to_bitbuf null_pdu) (new SCH_F_CAP).

Definition try_add_null_pdus (blk : option TmvUnitdataReq) : option (option TmvUnitdataReq) :=
  match blk with
  | Some b =>
      if bool_decide (logical_channel b = SchHd) || bool_decide (logical_channel b = SchF) then
        if NULL_PDU_LEN_BITS <=? get_len_remaining (mac_block b) then
          '(_, pdu) ← update_len_and_fill_ind 0 null_pdu;
          mb ← write_pdu (mac_resource_to_bitbuf pdu) (mac_block b);
          Some (Some (mkTmvReq mb (logical_channel b) (scrambling_code b)))
        else Some (Some b)
      else Some (Some b)
  | None => Some None
  end.

(** The access assignment of a traffic timeslot, in hangtime or not. *)
Definition traffic_aach (in_hangtime : bool) (dl_traffic_usage ul_traffic_usage : option Z) (aach : AccessAssign) :
    AccessAssign :=
  if in_hangtime && (is_some dl_traffic_usage || is_some ul_traffic_usage) then
    mkAccessAssign (aa_header aach) DuAssignedControl UuAssignedOnly (aa_f1_af1 aach) (aa_f2_af2 aach)
      (Some (mkAccessField 0 4))
  else
    mkAccessAssign (aa_header aach)
      (match dl_traffic_usage with Some usage => DuTraffic usage | None => DuUnallocated end)
      (match ul_traffic_usage with Some usage => UuTraffic usage | None => UuUnallocated end)
      (aa_f1_af1 aach) (aa_f2_af2 aach) (aa_f2_af aach).

(** The [match ts.t] of [generate_bbk_block]; the inner [None] is its error arm. *)
Definition make_aach (ts : TdmaTime) (ul_traffic_usage dl_traffic_usage : option Z) (s : BsChannelScheduler) :
    option (option AccessAssign) :=
  let aach := access_assign_default in
  if (tt_t ts =? 1)%Z then
    if allow_common_control_aach s then
      ul_usage_for_slot ← ul_get_usage ts (bs_ul s);
      match ul_usage_for_slot with
      | UuTraffic _ =>
          Some (Some (mkAccessAssign (aa_header aach) DuCommonControl ul_usage_for_slot (aa_f1_af1 aach)
                        (aa_f2_af2 aach) (aa_f2_af aach)))
      | _ =>
          Some (Some (mkAccessAssign (aa_header aach) DuCommonControl UuCommonOnly (Some (mkAccessField 0 4))
                        (Some (mkAccessField 0 4)) (aa_f2_af aach)))
      end
    else
      in_hangtime ← (if supports_assigned_traffic_ts (tt_t ts) s then at_ts (tt_t ts) (bs_hangtime s) else Some false);
      Some (Some (traffic_aach in_hangtime dl_traffic_usage ul_traffic_usage aach))
  else if (2 <=? tt_t ts)%Z && (tt_t ts <=? 4)%Z then
    in_hangtime ← at_ts (tt_t ts) (bs_hangtime s);
    Some (Some (traffic_aach in_hangtime dl_traffic_usage ul_traffic_usage aach))
  else Some None.

Definition fr18_aach (s : BsChannelScheduler) : AccessAssignFr18 :=
  if allow_common_control_aach s
  then mkAccessAssignFr18 0 UuCommonOnly (Some (mkAccessField 0 1)) None (Some (mkAccessField 0 0)) None
  else mkAccessAssignFr18 0 UuAssignedOnly (Some (mkAccessField 0 0)) None (Some (mkAccessField 0 0)) None.

Definition generate_bbk_block (ts : TdmaTime) (s : BsChannelScheduler) : option TmvUnitdataReq :=
  let '(ul_traffic_usage, dl_traffic_usage) :=
    if (tt_f ts =? 18)%Z then (None, None)
    else (get_usage Ul (bs_carrier_num s) (tt_t ts) (bs_circuits s),
          get_usage Dl (bs_carrier_num s) (tt_t ts) (bs_circuits s)) in
  if negb (tt_f ts =? 18)%Z then
    aach ← make_aach ts ul_traffic_usage dl_traffic_usage s;
    match aach with
    | Some aach =>
        bb ← write_pdu (access_assign_to_bitbuf aach) (new 14);
        Some (mkTmvReq bb Aach (bs_scrambling_code s))
    | None => Some (mkTmvReq (new 14) Aach (bs_scrambling_code s))
    end
  else
    bb ← write_pdu (access_assign_fr18_to_bitbuf (fr18_aach s)) (new 14);
    Some (mkTmvReq bb Aach (bs_scrambling_code s)).

Definition generate_default_blks (ts : TdmaTime) (s : BsChannelScheduler) : option TmvUnitdataReq :=
  let fr_1_17 := (1 <=? tt_f ts)%Z && (tt_f ts <=? 17)%Z in
  if fr_1_17 && (tt_t ts =? 1)%Z then
    if negb (allow_mcch s) || (tt_f ts mod 2 =? 0)%Z then
      buf1 ← write_pdu (mac_resource_to_bitbuf null_pdu) (new SCH_HD_CAP);
      Some (mkTmvReq buf1 SchHd (bs_scrambling_code s))
    else
      buf ← write_pdu (mac_resource_to_bitbuf null_pdu) (new SCH_F_CAP);
      Some (mkTmvReq buf SchF (bs_scrambling_code s))
  else if (fr_1_17 && (2 <=? tt_t ts)%Z && (tt_t ts <=? 4)%Z) || (tt_f ts =? 18)%Z then
    buf ← write_pdu (mac_sync_to_bitbuf (pc_mac_sync (bs_precomps s));;
                     d_mle_sync_to_bitbuf (pc_mle_sync (bs_precomps s))) (new 60);
    Some (mkTmvReq buf Bsch SCRAMB_INIT)
  else None.

(** * Ticks *)

Definition sched_tick_start (ts : TdmaTime) (s : BsChannelScheduler) : option BsChannelScheduler :=
  ul ← ul_tick_start ts (bs_ul s); Some (with_ul ul s).

Definition cur_dltime (s : BsChannelScheduler) : TdmaTime := ul_cur_dltime (bs_ul s).

Definition set_sync_time (ts : TdmaTime) (p : MacSync) : MacSync :=
  mkMacSync (ms_system_code p) (ms_colour_code p) ts (ms_sharing_mode p) (ms_ts_reserved_frames p)
    (ms_u_plane_dtx p) (ms_frame_18_ext p).
Definition set_hyperframe (h : Z) (p : MacSysinfo) : MacSysinfo :=
  mkMacSysinfo (si_main_carrier p) (si_freq_band p) (si_freq_offset_index p) (si_duplex_spacing p)
    (si_reverse_operation p) (si_num_of_csch p) (si_ms_txpwr_max_cell p) (si_rxlev_access_min p)
    (si_access_parameter p) (si_radio_dl_timeout p) (si_cck_id p) (Some h) (si_option_field p)
    (si_ts_common_frames p) (si_default_access_code p) (si_ext_services p).

(** [self.precomps.mac_sync.time = ts], and the hyperframe of both SYSINFO PDUs. *)
Definition set_precomp_times (ts : TdmaTime) (s : BsChannelScheduler) : BsChannelScheduler :=
  let p := bs_precomps s in
  with_precomps (mkPrecomps (set_hyperframe (tt_h ts) (pc_mac_sysinfo1 p)) (set_hyperframe (tt_h ts) (pc_mac_sysinfo2 p))
    (pc_mle_sysinfo p) (set_sync_time ts (pc_mac_sync p)) (pc_mle_sync p)) s.

(** The first part of [finalize_ts_for_tick_inner]: the slot with what is scheduled for it. *)
Definition build_slot (emit_bcch : bool) (ts : TdmaTime) (s : BsChannelScheduler) :
    option (TmvUnitdataReqSlot * BsChannelScheduler) :=
  let carrier_num := bs_carrier_num s in
  let dl_circuit_active := is_active Dl carrier_num (tt_t ts) (bs_circuits s) && negb (tt_f ts =? 18)%Z in
  let ul_circuit_active := is_active Ul carrier_num (tt_t ts) (bs_circuits s) && negb (tt_f ts =? 18)%Z in
  hang_effective ← (if supports_assigned_traffic_ts (tt_t ts) s then is_hangtime_effective (tt_t ts) s else Some false);
  let dl_is_traffic := dl_circuit_active && negb hang_effective in
  let ul_is_traffic := ul_circuit_active && negb hang_effective in
  let ul_phy := if ul_is_traffic then Tp else Cp in
  let slot blk1 blk2 := mkSlot carrier_num ts ul_phy blk1 blk2 None in
  let req buf lchan := Some (mkTmvReq buf lchan (bs_scrambling_code s)) in
  if dl_is_traffic then
    '(tch_buf, stch_opt, s) ← dl_build_traffic_block ts s;
    match stch_opt with
    | Some stch_buf => Some (slot (req stch_buf Stch) (req tch_buf ErrorControlSpec.TchS), s)
    | None => Some (slot (req tch_buf ErrorControlSpec.TchS) None, s)
    end
  else
    s ← dl_integrate_sched_elems_for_timeslot ts s;
    '(buf, s) ← dl_build_block_from_signalling_schedule ts s;
    match buf with
    | Some buf => Some (slot (req buf SchF) None, s)
    | None =>
        if hang_effective && dl_circuit_active then
          idle ← generate_hangtime_idle_schf; Some (slot (req idle SchF) None, s)
        else if negb emit_bcch then
          idle ← generate_hangtime_idle_schf; Some (slot (req idle SchF) None, s)
        else Some (slot None None, s)
    end.

(** SYSINFO for the second half of the slot. *)
Definition make_sysinfo_block (ts : TdmaTime) (s : BsChannelScheduler) : option BitBuffer :=
  let p := bs_precomps s in
  write_pdu (mac_sysinfo_to_bitbuf (if (tt_t ts mod 2 =? 1)%Z then pc_mac_sysinfo1 p else pc_mac_sysinfo2 p);;
             d_mle_sysinfo_to_bitbuf (pc_mle_sysinfo p)) (new 124).

(** The second block of a slot whose first block is [blk1]. *)
Definition fill_blk2 (ts : TdmaTime) (blk1 : TmvUnitdataReq) (blk2 : option TmvUnitdataReq) (s : BsChannelScheduler) :
    option (option TmvUnitdataReq) :=
  let blk1_lchan := logical_channel blk1 in
  if bool_decide (blk1_lchan = Stch) then check (is_some blk2);; Some blk2
  else if is_none blk2 && (bool_decide (blk1_lchan = Bsch) || bool_decide (blk1_lchan = SchHd)) then
    check (get_len (mac_block blk1) <=? 124);;
    buf ← make_sysinfo_block ts s;
    Some (Some (mkTmvReq buf Bnch (bs_scrambling_code s)))
  else if is_none blk2 then check (268 <=? get_len (mac_block blk1));; Some blk2
  else Some blk2.

(** [mac_block.seek(0)] *)
Definition rewind (b : TmvUnitdataReq) : option TmvUnitdataReq :=
  '(_, mb) ← exec (seek 0) (mac_block b); Some (mkTmvReq mb (logical_channel b) (scrambling_code b)).

(** The rest of [finalize_ts_for_tick_inner]: broadcast block, default blocks, null PDUs. *)
Definition complete_slot (emit_bcch : bool) (ts : TdmaTime) (elem : TmvUnitdataReqSlot) (s : BsChannelScheduler) :
    option TmvUnitdataReqSlot :=
  (if is_some (sl_blk1 elem) && emit_bcch then check (negb (tt_f ts =? 18)%Z) else Some tt);;
  check (is_none (sl_bbk elem));;
  bbk ← generate_bbk_block ts s;
  blk1 ← (match sl_blk1 elem with Some b => Some b | None => generate_default_blks ts s end);
  blk2 ← fill_blk2 ts blk1 (sl_blk2 elem) s;
  blk1 ← try_add_null_pdus (Some blk1);
  blk2 ← try_add_null_pdus blk2;
  bbk ← rewind bbk;
  blk1 ← blk1;
  blk1 ← rewind blk1;
  blk2 ← match blk2 with Some b => Some <$> rewind b | None => Some None end;
  Some (mkSlot (sl_carrier_num elem) (sl_ts elem) (sl_ul_phy_chan elem) (Some blk1) blk2 (Some bbk)).

(** The start of [finalize_ts_for_tick_inner]: the per-frame flag and the times of the broadcast PDUs. *)
Definition start_slot (ts : TdmaTime) (s : BsChannelScheduler) : BsChannelScheduler :=
  set_precomp_times ts (if (tt_t ts =? 1)%Z && allow_mcch s then with_mcch_flag false s else s).

Definition finish_slot (emit_bcch : bool) (ts : TdmaTime) (s : BsChannelScheduler) :
    option (TmvUnitdataReqSlot * BsChannelScheduler) :=
  '(elem, s) ← build_slot emit_bcch ts s;
  elem ← complete_slot emit_bcch ts elem s;
  ul ← clear_ul_schedule_for_tx_time ts (bs_ul s);
  Some (elem, with_ul ul s).

Definition finalize_ts_for_tick_inner (emit_bcch : bool) (s : BsChannelScheduler) :
    option (TmvUnitdataReqSlot * BsChannelScheduler) :=
  let ts := add_timeslots (cur_dltime s) MACSCHED_TX_AHEAD in
  finish_slot emit_bcch ts (start_slot ts s).

Definition finalize_ts_for_tick (s : BsChannelScheduler) : option (TmvUnitdataReqSlot * BsChannelScheduler) :=
  finalize_ts_for_tick_inner true s.

Definition finalize_secondary_ts_for_tick (s : BsChannelScheduler) : option (TmvUnitdataReqSlot * BsChannelScheduler) :=
  finalize_ts_for_tick_inner (emit_bcch (bs_downlink_mode s)) s.
