(* ===== verification/BsSchedSpec.v ===== *)
(** The scheduler's invariant: what may be queued, what the precomputed PDUs and
    the circuits look like; every operation keeps it and none panics.  A
    finalized slot consists of blocks the channel coder accepts. *)
From S2P Require Import Prelude Bits Core BitBuffer BitBufferSpec BitCodec BitBufferThms.
From S2P Require Import FieldCodec PduCodec Arrays TdmaTime TxReceipt Fillbits MacDl MacDlSpec BsFragSpec.
From S2P Require Import Scrambler ErrorControlSpec UmacCircuitMgr MacBcast MacBcastSpec BsSchedUlSpec BsSched.

(** * Blocks under construction *)

(** A block of [n] bits that is being filled. *)
Record blk_inv (n : nat) (b : BitBuffer) : Prop := {
  bk_wf : wf b;
  bk_fixed : bb_autoexpand b = false;
  bk_start : bb_start b = 0;
  bk_end : bb_end b = n
}.

Lemma blk_new n : n ≤ 4096 → blk_inv n (new n).
Proof. intros Hn. split; [by apply wf_new, fits_small|done..]. Qed.

Lemma write_pdu_ok n b w bs : blk_inv n b → writes w bs → bb_pos b + length bs ≤ n →
  ∃ b', write_pdu w b = Some b' ∧ blk_inv n b' ∧ bb_pos b' = bb_pos b + length bs ∧ abs b' = a_write bs (abs b).
Proof.
  intros [Hwf Hfix Hst He] Hw Hlen. pose proof (wf_usize _ Hwf).
  destruct (Hw b) as (b' & Heq & Hwf' & Habs); [done|split; [left; lia|lia]|].
  destruct (wrote_fixed b Hwf Hfix b' bs Hwf' Habs) as (Hf' & He' & Hp'); [lia|].
  exists b'. unfold write_pdu. rewrite (exec_ok _ _ _ _ Heq). cbn [mbind option_bind].
  split_and!; [done| |done..]. split; [done..| |lia].
  rewrite <-Hst. exact (f_equal a_start Habs).
Qed.

(** A PDU that fills a new block. *)
Lemma write_whole_ok w bs n : n = length bs → n ≤ 4096 → writes w bs → ∃ b, write_pdu w (new n) = Some b ∧
  blk_inv n b ∧ bb_pos b = n ∧ abs b = a_write bs (abs (new (length bs))).
Proof.
  intros -> Hn Hw. destruct (write_pdu_ok (length bs) (new (length bs)) w bs) as (b & Heq & Hb & Hp & Habs);
    [by apply blk_new|done|cbn; lia|]. exists b. split_and!; try done.
Qed.

(** A block the channel coder accepts: the type-1 bits of its logical channel, from the start. *)
Definition fits_channel (b : TmvUnitdataReq) : Prop :=
  wf (mac_block b) ∧ get_pos (mac_block b) = 0 ∧
  ∃ p, get_params (logical_channel b) = Some p ∧ get_len (mac_block b) = type1_bits p.

Lemma rewind_ok b : wf (mac_block b) → ∃ b', rewind b = Some b' ∧ wf (mac_block b') ∧ get_pos (mac_block b') = 0 ∧
  mac_block b' = set_pos (bb_start (mac_block b)) (mac_block b) ∧ get_len (mac_block b') = get_len (mac_block b) ∧
  logical_channel b' = logical_channel b ∧ scrambling_code b' = scrambling_code b.
Proof.
  intros Hwf. pose proof (wf_start _ Hwf). pose proof (wf_pos _ Hwf).
  pose proof (seek_pos (mac_block b) (bb_start (mac_block b)) Hwf ltac:(lia)) as Hs. rewrite Nat.sub_diag in Hs.
  eexists. unfold rewind. rewrite (exec_ok _ _ _ _ Hs). cbn [mbind option_bind]. split; [done|]. cbn [mac_block logical_channel scrambling_code].
  split_and!; try done; [apply wf_set_pos; [done|lia]|]. unfold get_pos. cbn. lia.
Qed.

(** * Elements *)

Definition addr_ok (a : TetraAddress) : Prop := plain_ssi a ∧ is_u 24 (ssi a).

(** Resources are addressed to an SSI, with or without a usage marker. *)
Definition res_ok (r : MacResource) : Prop :=
  hdr_ok r (if is_none (mr_usage_marker r) then AtSsi else AtSsiAndUsageMarker).

Definition pending (tx : option TxReporter) : Prop := ∀ r, tx = Some r → tx_state r = tx_raw Pending.

Definition frag_ok (f : BsFragger) : Prop :=
  (∃ t, frag_inv f t ∧ t ≠ AtNullPdu) ∧ bf_is_fully_transmitted f = false ∧ pending (bf_tx_reporter f).

Definition elem_ok (e : DlSchedElem) : Prop :=
  match e with
  | EBroadcast _ => True
  | ERandomAccessAck a => addr_ok a
  | EGrant a g um => addr_ok a ∧ slotgrant_valid g ∧ (∀ m, um = Some m → is_u 6 m)
  | EResource r sdu tx => res_ok r ∧ wf sdu ∧ get_pos sdu = 0 ∧ pending tx
  | EFragBuf f => frag_ok f
  | EStealing b tx => wf b ∧ get_len b = 124 ∧ pending tx
  end.

Lemma pending_tx f : pending (bf_tx_reporter f) → tx_pending f.
Proof. unfold pending, tx_pending. destruct (bf_tx_reporter f); auto. Qed.

Lemma res_ok_plain r : res_ok r → ∃ a, mr_addr r = Some a ∧ addr_ok a ∧ mr_event_label r = None ∧ mr_encryption_mode r = 0%Z.
Proof.
  unfold res_ok. intros [Hv Hs]. destruct (is_none (mr_usage_marker r)); inversion Hs; eexists; (split; [eassumption|]);
    (split; [split; [done|]|by split]); by apply (mrv_addr _ Hv).
Qed.

(** Adding a grant, an acknowledgement or a marker keeps a resource well formed. *)
Lemma res_ok_intro r a : mr_addr r = Some a → plain_ssi a → mr_event_label r = None → mr_encryption_mode r = 0%Z →
  mr_valid (set_len_fill 1 false r) → res_ok r.
Proof.
  intros Ha Hp He Hm Hv. split; [done|]. destruct (mr_usage_marker r) as [u|] eqn:Eu; cbn [is_none].
  - by eapply shape_ssi_usage.
  - by eapply shape_ssi.
Qed.

Lemma integrate_grant_ok g um r : slotgrant_valid g → (∀ m, um = Some m → is_u 6 m) → res_ok r → res_ok (integrate_grant g um r).
Proof.
  intros Hg Hum Hr. destruct (res_ok_plain _ Hr) as (a & Ha & [Hp Hu] & He & Hm). destruct Hr as [Hv _].
  assert (∀ um', (∀ m, um' = Some m → is_u 6 m) → res_ok (set_usage_marker um' (integrate_grant g None r))) as Hres.
  { intros um' Hum'. apply (res_ok_intro _ a); try done; unfold integrate_grant; try (by destruct (is_none _)).
    destruct (is_none _); destruct Hv; constructor; cbn in *; try done; by intros ? [= <-]. }
  unfold integrate_grant in *. cbn in *. destruct (mr_usage_marker r) as [u|] eqn:Eu; cbn in *.
  - apply (Hres (Some u)). intros m [= <-]. by apply (mrv_usage _ Hv).
  - by apply Hres.
Qed.

Lemma integrate_ack_ok r : res_ok r → res_ok (integrate_ack r).
Proof.
  intros Hr. destruct (res_ok_plain _ Hr) as (a & Ha & [Hp Hu] & He & Hm). destruct Hr as [Hv _].
  apply (res_ok_intro _ a); try done. destruct Hv; by constructor.
Qed.

Lemma minimal_resource_ok a g ack um : addr_ok a → (∀ x, g = Some x → slotgrant_valid x) → (∀ m, um = Some m → is_u 6 m) →
  ∃ r, dl_make_minimal_resource a g ack = Some r ∧ res_ok (set_usage_marker um r) ∧ mr_usage_marker r = None.
Proof.
  intros [Hp Hu] Hg Hum. unfold dl_make_minimal_resource.
  set (r0 := mkMacResource false 0 0 ack 0 (Some a) None None None g None).
  assert (res_ok r0) as Hr0.
  { apply (res_ok_intro _ a); try done. constructor; cbn; try done; try (unfold is_u; lia); by intros ? [= <-]. }
  unfold update_len_and_fill_ind. rewrite (hdr_ok_len _ _ Hr0). cbn [mbind option_bind].
  eexists. split; [done|]. split; [|done]. destruct Hr0 as [Hv _]. apply (res_ok_intro _ a); try done.
  destruct Hv; constructor; cbn in *; try done; unfold is_u; lia.
Qed.

(** * The invariant *)

(** A SYSINFO PDU whose hyperframe number the scheduler fills in. *)
Definition sysinfo_ok (p : MacSysinfo) : Prop :=
  mac_sysinfo_valid (set_hyperframe 0 p) ∧ ∃ opt, option_shape p opt.

Record precomps_ok (p : PrecomputedUmacPdus) : Prop := {
  po_sysinfo1 : sysinfo_ok (pc_mac_sysinfo1 p);
  po_sysinfo2 : sysinfo_ok (pc_mac_sysinfo2 p);
  po_mle_sysinfo : d_mle_sysinfo_valid (pc_mle_sysinfo p);
  po_sync : mac_sync_valid (set_sync_time tdma_default (pc_mac_sync p));
  po_mle_sync : d_mle_sync_valid (pc_mle_sync p)
}.

(** Usage markers of circuits fit the broadcast block and name traffic; voice blocks are bytes. *)
Record circuits_ok (c : CircuitMgr) : Prop := {
  co_dl k x : cm_dl c !! k = Some x → (4 ≤ c_usage x < 64)%Z;
  co_ul k x : cm_ul c !! k = Some x → (4 ≤ c_usage x < 64)%Z;
  co_blocks k q : cm_tx_data c !! k = Some q → Forall (λ b, Forall (is_u 8) b ∧ length b ≤ 4096) q
}.

Record sched_inv (s : BsChannelScheduler) : Prop := {
  iv_ul : ul_inv (bs_ul s);
  iv_queues : length (bs_dltx_queues s) = 4;
  iv_elems : Forall (Forall elem_ok) (bs_dltx_queues s);
  iv_next : Forall elem_ok (bs_dltx_next_slot_queue s);
  iv_hangtime : length (bs_hangtime s) = 4;
  iv_pending : length (bs_pending_ra_acks s) = 4;
  iv_precomps : precomps_ok (bs_precomps s);
  iv_circuits : circuits_ok (bs_circuits s)
}.

Lemma at_ts_ok {A} t (l : list A) : (1 ≤ t ≤ 4)%Z → length l = 4 → ∃ x, at_ts t l = Some x ∧ l !! Z.to_nat (t - 1) = Some x.
Proof.
  intros Ht Hl. unfold at_ts. destruct (Z.leb_spec 1 t); [|lia]. cbn [check mbind option_bind].
  destruct (lookup_lt_is_Some_2 l (Z.to_nat (t - 1))) as [x Hx]; [lia|]. by exists x.
Qed.

Lemma at_set_ts {A} t x (l : list A) : (1 ≤ t ≤ 4)%Z → length l = 4 → at_ts t (set_ts t x l) = Some x.
Proof.
  intros Ht Hl. unfold at_ts, set_ts. destruct (Z.leb_spec 1 t); [|lia]. cbn [check mbind option_bind].
  apply list_lookup_insert_eq. lia.
Qed.

Lemma queue_of_ok t s : sched_inv s → (1 ≤ t ≤ 4)%Z → ∃ q, queue_of t s = Some q ∧ Forall elem_ok q.
Proof.
  intros Hs Ht. destruct (at_ts_ok t (bs_dltx_queues s) Ht (iv_queues _ Hs)) as (q & Hq & Hlook).
  exists q. split; [done|]. by eapply Forall_lookup_1; [apply (iv_elems _ Hs)|].
Qed.

Lemma queue_set_queue t q s : sched_inv s → (1 ≤ t ≤ 4)%Z → queue_of t (set_queue t q s) = Some q.
Proof. intros Hs Ht. apply at_set_ts; [done|apply Hs]. Qed.

(** The invariant after an update of the queues, the receipts or the deferred elements. *)
Lemma set_queue_inv t q s : sched_inv s → Forall elem_ok q → sched_inv (set_queue t q s).
Proof.
  intros [] Hq. constructor; cbn; try done; [unfold set_ts; by rewrite length_insert|]. by apply Forall_insert.
Qed.

Lemma retire_inv tx s : sched_inv s → sched_inv (retire tx s).
Proof. by intros []. Qed.

Lemma next_slot_inv l s : sched_inv s → Forall elem_ok l → sched_inv (with_next_slot_queue l s).
Proof. by intros []. Qed.

Lemma push_queue_ok t e s : sched_inv s → (1 ≤ t ≤ 4)%Z → elem_ok e →
  ∃ q, queue_of t s = Some q ∧ push_queue t e s = Some (set_queue t (q ++ [e]) s) ∧ sched_inv (set_queue t (q ++ [e]) s).
Proof.
  intros Hs Ht He. destruct (queue_of_ok t s Hs Ht) as (q & Hq & Hall). exists q. unfold push_queue. rewrite Hq.
  split_and!; [done..|]. apply set_queue_inv; [done|]. apply Forall_app. by split; [|constructor].
Qed.

(** The receipts of queued elements. *)
Definition elem_tx (e : DlSchedElem) : list TxReporter :=
  match e with
  | EResource _ _ tx | EStealing _ tx => option_list tx
  | EFragBuf f => option_list (bf_tx_reporter f)
  | _ => []
  end.
Definition elems_tx (q : list DlSchedElem) : list TxReporter := q ≫= elem_tx.

Lemma elems_tx_app q1 q2 : elems_tx (q1 ++ q2) = elems_tx q1 ++ elems_tx q2.
Proof. apply bind_app. Qed.

Lemma elems_tx_insert q i e e' : q !! i = Some e → elem_tx e' = elem_tx e → elems_tx (<[i:=e']> q) = elems_tx q.
Proof.
  intros Hi He. rewrite <-(take_drop_middle q i e Hi) at 2. rewrite insert_take_drop by (by eapply lookup_lt_Some).
  rewrite !elems_tx_app. f_equal. change (elem_tx e' ++ elems_tx (drop (S i) q) = elem_tx e ++ elems_tx (drop (S i) q)). by rewrite He.
Qed.

Lemma elems_tx_rest q : elems_tx (filter (λ e, is_grant_or_ack e = false) q) = elems_tx q.
Proof.
  induction q as [|e q IH]; [done|]. rewrite filter_cons. change (elems_tx (e :: q)) with (elem_tx e ++ elems_tx q).
  rewrite <-IH. by destruct e.
Qed.

(** * Grants and acknowledgements *)

Lemma Forall_filtered {A} (P Q : A → Prop) `{∀ x, Decision (Q x)} (l : list A) : Forall P l → Forall P (filter Q l).
Proof. intros Hl. rewrite Forall_forall in *. intros x [_ Hx]%list_elem_of_filter. by apply Hl. Qed.

Lemma take_loop_filter q : take_loop q = (filter (λ e, is_grant_or_ack e = true) q, filter (λ e, is_grant_or_ack e = false) q).
Proof.
  induction q as [|e q IH]; [done|]. cbn [take_loop]. rewrite IH, !filter_cons.
  by destruct (is_grant_or_ack e).
Qed.

Lemma find_resource_Some a q i : find_resource a q = Some i → ∃ r sdu tx b, q !! i = Some (EResource r sdu tx) ∧
  mr_addr r = Some b ∧ ssi b = ssi a.
Proof.
  revert i. induction q as [|e q IH]; intros i; cbn [find_resource]; [done|].
  assert (S <$> find_resource a q = Some i → ∃ r sdu tx b, (e :: q) !! i = Some (EResource r sdu tx) ∧
    mr_addr r = Some b ∧ ssi b = ssi a) as Hrec.
  { intros (j & Hj & ->)%fmap_Some. by apply IH. }
  destruct e as [| | |r sdu tx| |]; try exact Hrec. destruct (mr_addr r) as [b|] eqn:Eb; [|exact Hrec].
  destruct (Z.eqb_spec (ssi b) (ssi a)); [|exact Hrec]. intros [= <-]. by exists r, sdu, tx, b.
Qed.

Lemma integrate_one_ok ts e s : sched_inv s → (1 ≤ tt_t ts ≤ 4)%Z → elem_ok e → is_grant_or_ack e = true →
  ∃ q q', queue_of (tt_t ts) s = Some q ∧ integrate_one ts e s = Some (set_queue (tt_t ts) q' s) ∧ Forall elem_ok q' ∧
    elems_tx q' = elems_tx q.
Proof.
  intros Hs Ht He Hk. destruct (queue_of_ok _ s Hs Ht) as (q & Hq & Hall). exists q.
  assert (∃ a, addr_ok a ∧ (match e with EGrant addr _ _ | ERandomAccessAck addr => Some addr | _ => None end) = Some a)
    as (a & Ha & Hea) by (destruct e; try done; cbn in He; destruct_and?; eauto).
  unfold integrate_one, dl_get_scheduled_resource_for_ssi. rewrite Hea, Hq. cbn [mbind option_bind].
  destruct (find_resource a q) as [i|] eqn:Ei.
  - apply find_resource_Some in Ei as (r & sdu & tx & b & Hi & _). rewrite Hi.
    pose proof (Forall_lookup_1 _ _ _ _ Hall Hi) as (Hr & Hsdu).
    destruct e as [|a'|a' g um| | |]; try done; cbn [mbind option_bind]; eexists; (split; [done|]); (split; [done|]);
      (split; [|by eapply elems_tx_insert]); (apply Forall_insert; [done|]); (split; [|done]).
    + by apply integrate_ack_ok.
    + destruct He as (_ & Hg & Hum). by apply integrate_grant_ok.
  - assert (∀ r, res_ok r → Forall elem_ok (q ++ [EResource r (new 0) None])) as Hpush.
    { intros r Hr. apply Forall_app. split; [done|]. constructor; [|constructor]. split; [done|]. split; [by apply wf_new|]. done. }
    destruct e as [|a'|a' g um| | |]; try done; injection Hea as ->.
    + destruct (minimal_resource_ok a None true None) as (r & -> & Hr & Hn); [done..|]. cbn [mbind option_bind].
      unfold push_queue. rewrite Hq. eexists. split; [done|]. split; [done|]. split; [|by rewrite elems_tx_app, app_nil_r].
      apply Hpush. destruct r; cbn in Hn; subst; done.
    + destruct He as (_ & Hg & Hum). destruct (minimal_resource_ok a (Some g) false um) as (r & -> & Hr & Hn); [done|by intros ? [= <-]|done|].
      cbn [mbind option_bind]. unfold push_queue. rewrite Hq. eexists. split; [done|]. split; [done|].
      split; [by apply Hpush|by rewrite elems_tx_app, app_nil_r].
Qed.

Lemma set_set_queue t q q' s : set_queue t q (set_queue t q' s) = set_queue t q s.
Proof. unfold set_queue, with_queues, set_ts. cbn. by rewrite list_insert_insert_eq. Qed.

Lemma integrate_loop_ok ts es : Forall elem_ok es → Forall (λ e, is_grant_or_ack e = true) es → (1 ≤ tt_t ts ≤ 4)%Z →
  ∀ s q0, sched_inv s → queue_of (tt_t ts) s = Some q0 →
  ∃ q, integrate_loop ts es s = Some (set_queue (tt_t ts) q s) ∧ Forall elem_ok q ∧ elems_tx q = elems_tx q0.
Proof.
  intros Hes Hk Ht. induction Hes as [|e es He Hes IH]; intros s q0 Hs Hq0; cbn [integrate_loop].
  { destruct (queue_of_ok _ s Hs Ht) as (q & Hq & Hall). rewrite Hq0 in Hq. injection Hq as <-. exists q0. split_and!; try done.
    unfold set_queue, with_queues, set_ts. unfold queue_of, at_ts in Hq0. destruct (check _); [|done].
    cbn in Hq0. rewrite list_insert_id by done. by destruct s. }
  apply Forall_cons in Hk as [Hke Hk].
  destruct (integrate_one_ok ts e s Hs Ht He Hke) as (q1 & q & Hq1 & -> & Hq & Htx). cbn [mbind option_bind].
  rewrite Hq0 in Hq1. injection Hq1 as <-.
  destruct (IH Hk (set_queue (tt_t ts) q s) q) as (q' & -> & Hq' & Htx'); [by apply set_queue_inv|by apply queue_set_queue|].
  exists q'. rewrite set_set_queue. split_and!; [done..|congruence].
Qed.

Lemma integrate_ok ts s q : sched_inv s → (1 ≤ tt_t ts ≤ 4)%Z → queue_of (tt_t ts) s = Some q →
  ∃ q', dl_integrate_sched_elems_for_timeslot ts s = Some (set_queue (tt_t ts) q' s) ∧ Forall elem_ok q' ∧
    elems_tx q' = elems_tx q.
Proof.
  intros Hs Ht Hq. destruct (queue_of_ok _ s Hs Ht) as (q0 & Hq0 & Hall). rewrite Hq in Hq0. injection Hq0 as <-.
  unfold dl_integrate_sched_elems_for_timeslot, dl_take_all_grants_and_acks. rewrite Hq. cbn [mbind option_bind].
  rewrite take_loop_filter. cbn [mbind option_bind].
  set (rest := filter (λ e, is_grant_or_ack e = false) q).
  assert (Forall elem_ok rest) as Hrest by (by apply Forall_filtered).
  destruct (integrate_loop_ok ts (filter (λ e, is_grant_or_ack e = true) q)) with
    (s := set_queue (tt_t ts) rest s) (q0 := rest) as (q' & -> & Hq' & Htx);
    [by apply Forall_filtered|apply Forall_forall; by intros x [? _]%list_elem_of_filter|done|by apply set_queue_inv|by apply queue_set_queue|].
  exists q'. rewrite set_set_queue. split_and!; [done..|]. rewrite Htx. apply elems_tx_rest.
Qed.

(** * Progress of a step *)

(** The fields that building a block leaves alone. *)
Definition core (s : BsChannelScheduler) :=
  (bs_ul s, bs_carrier_num s, bs_downlink_mode s, bs_scrambling_code s, bs_precomps s, cm_dl (bs_circuits s), cm_ul (bs_circuits s),
   bs_hangtime s, bs_pending_ra_acks s, bs_mcch_chan_alloc_sent_this_frame s).

Lemma length_option_list {A} (x : A) : length (option_list (Some x)) = 1.
Proof. done. Qed.

Ltac fields_cbn := cbn [bs_dltx_queues bs_dltx_next_slot_queue bs_retired retire with_queues with_next_slot_queue
  dl_enqueue_tma_frag_next_frame set_queue] in *.

(** All receipts the scheduler was ever handed: still queued, or let go. *)
Definition tx_total (s : BsChannelScheduler) : nat :=
  length (elems_tx (mjoin (bs_dltx_queues s))) + length (elems_tx (bs_dltx_next_slot_queue s)) + length (bs_retired s).

Definition tx_final (r : TxReporter) : Prop := tx_state r = tx_raw Transmitted ∨ tx_state r = tx_raw Discarded.

(** A step for timeslot [t]: other queues and the rest of the state stay, and
    receipts are only let go in a final state; none is lost. *)
Record progress (t : Z) (s s' : BsChannelScheduler) : Prop := {
  pr_core : core s' = core s;
  pr_others t' : t' ≠ t → queue_of t' s' = queue_of t' s;
  pr_retired : ∃ l, bs_retired s' = bs_retired s ++ l ∧ Forall tx_final l;
  pr_count : tx_total s' = tx_total s;
  pr_inv : sched_inv s'
}.

Lemma progress_refl t s : sched_inv s → progress t s s.
Proof. intros Hs. split; try done. exists []. by rewrite app_nil_r. Qed.

Lemma progress_trans t s1 s2 s3 : progress t s1 s2 → progress t s2 s3 → progress t s1 s3.
Proof.
  intros [C1 O1 (l1 & R1 & F1) N1 I1] [C2 O2 (l2 & R2 & F2) N2 I2]. split; [congruence| | |congruence|done].
  - intros t' Ht. rewrite O2, O1; done.
  - exists (l1 ++ l2). rewrite R2, R1, app_assoc. split; [done|]. by apply Forall_app.
Qed.

(** The receipts of a queue, when the queue is replaced. *)
Lemma elems_tx_set t q q' s : sched_inv s → (1 ≤ t ≤ 4)%Z → queue_of t s = Some q →
  length (elems_tx (mjoin (set_ts t q' (bs_dltx_queues s)))) + length (elems_tx q) =
  length (elems_tx (mjoin (bs_dltx_queues s))) + length (elems_tx q').
Proof.
  intros Hs Ht Hq. unfold queue_of, at_ts in Hq. destruct (check _); [|done]. cbn in Hq.
  pose proof (take_drop_middle _ _ _ Hq) as Hsplit. unfold set_ts. rewrite <-Hsplit.
  rewrite insert_app_r_alt by (rewrite length_take; lia).
  replace (Z.to_nat (t - 1) - length (take (Z.to_nat (t - 1)) (bs_dltx_queues s))) with 0
    by (rewrite length_take; apply lookup_lt_Some in Hq; lia).
  cbn [list_insert insert]. rewrite !join_app, !elems_tx_app, !length_app. cbn [mjoin list_join].
  rewrite !elems_tx_app, !length_app. lia.
Qed.

Lemma tx_total_set t q q' s : sched_inv s → (1 ≤ t ≤ 4)%Z → queue_of t s = Some q →
  tx_total (set_queue t q' s) + length (elems_tx q) = tx_total s + length (elems_tx q').
Proof. intros Hs Ht Hq. pose proof (elems_tx_set t q q' s Hs Ht Hq). unfold tx_total, set_queue, with_queues.
  cbn [bs_dltx_queues bs_dltx_next_slot_queue bs_retired]. lia.
Qed.

Lemma queue_of_other t t' q s : (1 ≤ t)%Z → t' ≠ t → queue_of t' (set_queue t q s) = queue_of t' s.
Proof.
  intros Ht Hne. unfold queue_of, at_ts, set_queue, with_queues, set_ts. cbn. destruct (Z.leb_spec 1 t'); [|done]. cbn.
  by rewrite list_lookup_insert_ne by lia.
Qed.

(** * Taking elements *)

Lemma remove_first_Some {A} (p : A → bool) l x l' : remove_first p l = Some (x, l') →
  ∃ l1 l2, l = l1 ++ x :: l2 ∧ l' = l1 ++ l2 ∧ p x = true ∧ Forall (λ y, p y = false) l1.
Proof.
  revert l'. induction l as [|y l IH]; intros l'; cbn [remove_first]; [done|]. destruct (p y) eqn:Ey.
  - intros [= <- <-]. by exists [], l.
  - destruct (remove_first p l) as [[z l0]|]; [|done]. cbn. intros [= <- <-].
    destruct (IH l0 eq_refl) as (l1 & l2 & -> & -> & Hp & Hall). exists (y :: l1), l2. by split_and!; [..|constructor].
Qed.

Lemma remove_first_None {A} (p : A → bool) l : remove_first p l = None → Forall (λ y, p y = false) l.
Proof.
  induction l as [|y l IH]; cbn [remove_first]; [done|]. destruct (p y) eqn:Ey; [done|].
  destruct (remove_first p l) as [[]|]; [done|]. intros _. constructor; auto.
Qed.

(** How urgent an element is; a random access acknowledgement or a broadcast is never taken. *)
Definition priority (e : DlSchedElem) : option nat :=
  match e with
  | EGrant _ _ _ => Some 0 | EFragBuf _ => Some 1 | EResource _ _ _ => Some 2 | EStealing _ _ => Some 3 | _ => None
  end.

(** [e] is more urgent than [y]. *)
Definition before (e y : DlSchedElem) : Prop :=
  match priority e, priority y with Some a, Some b => a < b | Some _, None => True | None, _ => False end.

Lemma take_prioritized_ok ts s q : sched_inv s → (1 ≤ tt_t ts ≤ 4)%Z → queue_of (tt_t ts) s = Some q →
  (tt_f ts = 18%Z ∧ dl_take_prioritized_sched_item ts s = (None, s)) ∨
  (tt_f ts ≠ 18%Z ∧ dl_take_prioritized_sched_item ts s = (None, s) ∧ Forall (λ e, priority e = None) q) ∨
  ∃ e l1 l2, tt_f ts ≠ 18%Z ∧ q = l1 ++ e :: l2 ∧ is_Some (priority e) ∧
    Forall (before e) l1 ∧ Forall (λ y, before e y ∨ priority y = priority e) l2 ∧
    dl_take_prioritized_sched_item ts s = (Some e, set_queue (tt_t ts) (l1 ++ l2) s).
Proof.
  intros Hs Ht Hq. unfold queue_of, at_ts in Hq. destruct (check _); [|done]. cbn in Hq.
  unfold dl_take_prioritized_sched_item. destruct (Z.eqb_spec (tt_f ts) 18) as [Hf|Hf]; [by left|right].
  rewrite (iv_queues _ Hs). change (Z.of_nat 4) with 4%Z. destruct (Z.ltb_spec (tt_t ts) 1), (Z.ltb_spec 4 (tt_t ts)); try lia.
  cbn [orb]. rewrite Hq.
  assert (∀ (p : DlSchedElem → bool) e q', remove_first p q = Some (e, q') → is_Some (priority e) →
    (∀ y, p y = false → y ∈ q → before e y) → (∀ y, p y = true → priority y = priority e) →
    ∃ e0 l1 l2, tt_f ts ≠ 18%Z ∧ q = l1 ++ e0 :: l2 ∧ is_Some (priority e0) ∧
    Forall (before e0) l1 ∧ Forall (λ y, before e0 y ∨ priority y = priority e0) l2 ∧
    (Some e, set_queue (tt_t ts) q' s) = (Some e0, set_queue (tt_t ts) (l1 ++ l2) s)) as Hfound.
  { intros p e q' Hr Hp Hb Hsame. apply remove_first_Some in Hr as (l1 & l2 & -> & -> & He & Hl1).
    exists e, l1, l2. split_and!; try done.
    - rewrite Forall_forall in *. intros y Hy. apply Hb; [by apply Hl1|set_solver].
    - rewrite Forall_forall. intros y Hy. destruct (p y) eqn:Ey; [right; by apply Hsame|left; apply Hb; [done|set_solver]]. }
  destruct (remove_first is_grant q) as [[e q']|] eqn:E1.
  { right. pose proof (remove_first_Some _ _ _ _ E1) as (? & ? & _ & _ & He & _). destruct e; try done.
    eapply Hfound; [done|by eexists|by intros []; cbn; intros; try done; unfold before; cbn; try lia|by intros []]. }
  apply remove_first_None in E1. rewrite Forall_forall in E1.
  destruct (remove_first is_fragbuf q) as [[e q']|] eqn:E2.
  { right. pose proof (remove_first_Some _ _ _ _ E2) as (? & ? & _ & _ & He & _). destruct e; try done.
    eapply Hfound; [done|by eexists| |by intros []]. intros y Hy Hin. pose proof (E1 y Hin). by destruct y; unfold before; cbn; try lia. }
  apply remove_first_None in E2. rewrite Forall_forall in E2.
  destruct (remove_first is_resource_elem q) as [[e q']|] eqn:E3.
  { right. pose proof (remove_first_Some _ _ _ _ E3) as (? & ? & _ & _ & He & _). destruct e; try done.
    eapply Hfound; [done|by eexists| |by intros []]. intros y Hy Hin. pose proof (E1 y Hin). pose proof (E2 y Hin).
    by destruct y; unfold before; cbn; try lia. }
  apply remove_first_None in E3. rewrite Forall_forall in E3.
  destruct (remove_first is_stealing q) as [[e q']|] eqn:E4.
  { right. pose proof (remove_first_Some _ _ _ _ E4) as (? & ? & _ & _ & He & _). destruct e; try done.
    eapply Hfound; [done|by eexists| |by intros []]. intros y Hy Hin. pose proof (E1 y Hin). pose proof (E2 y Hin).
    pose proof (E3 y Hin). by destruct y; unfold before; cbn; try lia. }
  apply remove_first_None in E4. rewrite Forall_forall in E4. left. split_and!; try done.
  apply Forall_forall. intros y Hin. specialize (E1 y Hin). specialize (E2 y Hin). specialize (E3 y Hin). specialize (E4 y Hin).
  by destruct y.
Qed.

(** * Filling a signalling block *)

(** A full-slot block that carries the chunks [cs], each with the address type of its header. *)
Definition packed (cs : list (MacResourceAddrType * dl_chunk)) (b : BitBuffer) : Prop :=
  blk_inv SCH_F_CAP b ∧ block_ok b ∧ abs b = a_write (cs ≫= λ '(t, c), chunk_bits t c) (abs (new SCH_F_CAP)).

(** The buffer of the build loop, allocated by the first element that needs it. *)
Definition buf_ok (cs : list (MacResourceAddrType * dl_chunk)) (buf_opt : option BitBuffer) : Prop :=
  match buf_opt with Some b => packed cs b | None => cs = [] end.

Lemma packed_new : packed [] (new SCH_F_CAP).
Proof. split; [apply blk_new; unfold SCH_F_CAP; lia|]. split; [apply new_block_ok; unfold SCH_F_CAP; lia|]. by rewrite a_write_nil. Qed.

Lemma chunk_aligned t r last cap c : chunk_ok t r last cap c →
  length (chunk_bits t c) ≤ cap ∧ (length (chunk_bits t c) mod 8 = 0 ∨ length (chunk_bits t c) = cap).
Proof.
  intros [Hle Hc]. split; [done|]. destruct c as [r' p k|p k|l p k].
  - destruct Hc as [_ Hc]. destruct last; [by destruct Hc as (_ & _ & _ & ?)|by destruct Hc as (_ & _ & ?); right].
  - by destruct Hc; right.
  - destruct Hc as [_ Hc]. left. apply Nat2Z.inj. rewrite Nat2Z.inj_mod. change (Z.of_nat 8) with 8%Z. rewrite <-Hc.
    by rewrite Z.mul_comm, Z.mod_mul.
Qed.

Lemma packed_emit cs t f f' d b b' c : packed cs b → emitted t f f' d b b' c → packed (cs ++ [(t, c)]) b'.
Proof.
  intros (Hb & Hbo & Habs) He. destruct (chunk_aligned _ _ _ _ _ (em_chunk _ _ _ _ _ _ _ He)) as [Hle Hal].
  pose proof (em_abs _ _ _ _ _ _ _ He) as Habs'. pose proof (f_equal a_pos Habs') as Hpos. pose proof (f_equal a_start Habs') as Hst.
  cbn in Hpos, Hst. destruct Hb as [Hwf Hfix Hs0 He0]. pose proof (wf_pos _ Hwf) as Hp. pose proof (wf_start _ Hwf).
  pose proof (em_end _ _ _ _ _ _ _ He) as Hend. split_and!.
  - split; [apply He|apply He|congruence|congruence].
  - split; [apply He|apply He| |]; unfold get_len_remaining, get_len_written in *.
    + pose proof (bo_cap _ Hbo). unfold get_len_remaining in *. lia.
    + destruct Hal as [Hal|Hal]; [|right; lia]. destruct (bo_aligned _ Hbo) as [Ha|Ha].
      * left. rewrite Hpos, Hst, Hs0, Nat.sub_0_r. unfold get_len_written in Ha. rewrite Hs0, Nat.sub_0_r in Ha.
        rewrite Nat.Div0.add_mod, Ha, Hal. done.
      * right. unfold get_len_remaining in Ha. lia.
  - rewrite Habs', Habs, bind_app. cbn [mbind list_bind]. rewrite app_nil_r. apply a_write_app. rewrite abs_new. cbn. lia.
Qed.

(** What became of a fragmenter that was offered the block. *)
Inductive fed (f : BsFragger) (s : BsChannelScheduler) : BsChannelScheduler → Prop :=
| fed_done : fed f s (retire (transmitted (bf_tx_reporter f)) s)
| fed_more f' : frag_ok f' → bf_tx_reporter f' = bf_tx_reporter f → fed f s (dl_enqueue_tma_frag_next_frame f' s).

Lemma feed_block_ok f cs buf_opt s : frag_ok f → buf_ok cs buf_opt → ∃ cs' b s',
  feed_block f buf_opt s = Some (Some b, s') ∧ packed (cs ++ cs') b ∧ fed f s s'.
Proof.
  intros ((t & Hinv & Hnn) & Hft & Hp) Hbuf. unfold feed_block.
  assert (∃ b0, (match buf_opt with Some buf => buf | None => new SCH_F_CAP end) = b0 ∧ packed cs b0) as (b0 & -> & Hpk).
  { destruct buf_opt as [b0|]; [by exists b0|]. cbn in Hbuf. subst cs. eexists. split; [done|]. apply packed_new. }
  pose proof Hpk as (Hb & Hbo & _).
  destruct (get_next_chunk_ok f t b0 Hinv Hbo Hft (pending_tx _ Hp)) as (d & f' & b' & -> & Hsent).
  cbn [mbind option_bind]. destruct Hsent as [d f1 b' c He|Hroom].
  - destruct (em_tx _ _ _ _ _ _ _ He) as [Htx Hft1]. destruct d.
    + exists [(t, c)], b', (retire (transmitted (bf_tx_reporter f)) s).
      split_and!; [|by eapply packed_emit|constructor]. unfold fragger_drop, finish. cbn. rewrite Htx.
      by destruct (bf_tx_reporter f).
    + exists [(t, c)], b', (dl_enqueue_tma_frag_next_frame (finish false f1) s).
      split_and!; [done|by eapply packed_emit|]. apply fed_more; [|done]. split_and!; [|done|cbn; by rewrite Htx].
      exists t. split; [|done]. apply frag_inv_finish, He.
  - exists [], b0, (dl_enqueue_tma_frag_next_frame f s). rewrite app_nil_r. split_and!; [done..|]. apply fed_more; [|done].
    split_and!; [by exists t|done|done].
Qed.

Lemma transmitted_final tx : Forall tx_final (option_list (transmitted tx)).
Proof. destruct tx; cbn; constructor; [by left|done]. Qed.

(** An element taken from the queue of timeslot [t], and its fragmenter fed. *)
Lemma fed_progress t q q' e f s s' : sched_inv s → (1 ≤ t ≤ 4)%Z → queue_of t s = Some q →
  length (elems_tx q) = length (elem_tx e) + length (elems_tx q') → Forall elem_ok q' →
  elem_tx e = option_list (bf_tx_reporter f) → fed f (set_queue t q' s) s' → progress t s s' ∧ queue_of t s' = Some q'.
Proof.
  intros Hs Ht Hq Hlen Hq' He Hfed. pose proof (tx_total_set t q q' s Hs Ht Hq) as Htot.
  pose proof (set_queue_inv t q' s Hs Hq') as Hs1. pose proof (queue_set_queue t q' s Hs Ht) as Hqs.
  destruct Hfed as [|f' Hf' Htx]; (split; [|exact Hqs]).
  - split; [done|intros t' Hne; by apply (queue_of_other t t' q' s); [lia|]| | |by apply retire_inv].
    + eexists. split; [done|]. apply transmitted_final.
    + unfold tx_total in *. fields_cbn. rewrite length_app. rewrite He in Hlen. destruct (bf_tx_reporter f); cbn in *; lia.
  - split; [done|intros t' Hne; by apply (queue_of_other t t' q' s); [lia|]| | |].
    + exists []. by rewrite app_nil_r.
    + unfold tx_total in *. fields_cbn. rewrite elems_tx_app, length_app. rewrite He in Hlen.
      change (elems_tx [EFragBuf f']) with (option_list (bf_tx_reporter f') ++ []). rewrite app_nil_r, Htx. lia.
    + apply next_slot_inv; [done|]. apply Forall_app. split; [apply Hs1|]. by constructor.
Qed.

Lemma elems_tx_middle l1 e l2 : length (elems_tx (l1 ++ e :: l2)) = length (elem_tx e) + length (elems_tx (l1 ++ l2)).
Proof. rewrite !elems_tx_app, !length_app. change (elems_tx (e :: l2)) with (elem_tx e ++ elems_tx l2). rewrite length_app. lia. Qed.

Lemma build_one_ok t l1 e l2 cs buf_opt s : sched_inv s → (1 ≤ t ≤ 4)%Z → queue_of t s = Some (l1 ++ e :: l2) →
  buf_ok cs buf_opt → ∃ cs' buf' s', build_one e buf_opt (set_queue t (l1 ++ l2) s) = Some (buf', s') ∧
    buf_ok (cs ++ cs') buf' ∧ progress t s s' ∧ queue_of t s' = Some (l1 ++ l2).
Proof.
  intros Hs Ht Hq Hbuf. destruct (queue_of_ok t s Hs Ht) as (q0 & Hq0 & Hall). rewrite Hq in Hq0. injection Hq0 as <-.
  rewrite Forall_app, Forall_cons in Hall. destruct Hall as (Hl1 & He & Hl2).
  assert (Forall elem_ok (l1 ++ l2)) as Hl by (by apply Forall_app). pose proof (elems_tx_middle l1 e l2) as Hmid.
  pose proof (tx_total_set t _ (l1 ++ l2) s Hs Ht Hq) as Htot. pose proof (set_queue_inv t (l1 ++ l2) s Hs Hl) as Hs1.
  assert (∀ f, frag_ok f → elem_tx e = option_list (bf_tx_reporter f) → ∃ cs' buf' s',
    feed_block f buf_opt (set_queue t (l1 ++ l2) s) = Some (buf', s') ∧ buf_ok (cs ++ cs') buf' ∧ progress t s s' ∧
    queue_of t s' = Some (l1 ++ l2)) as Hfeed.
  { intros f Hf Htx. destruct (feed_block_ok f cs buf_opt (set_queue t (l1 ++ l2) s) Hf Hbuf) as (cs' & b & s' & Heq & Hpk & Hfed).
    destruct (fed_progress t _ (l1 ++ l2) e f s s' Hs Ht Hq Hmid Hl Htx Hfed). by exists cs', (Some b), s'. }
  assert (elem_tx e = [] → ∃ cs' buf' s', Some (buf_opt, set_queue t (l1 ++ l2) s) = Some (buf', s') ∧
    buf_ok (cs ++ cs') buf' ∧ progress t s s' ∧ queue_of t s' = Some (l1 ++ l2)) as Hdrop.
  { intros Hnil. exists [], buf_opt, (set_queue t (l1 ++ l2) s). rewrite app_nil_r. split_and!; [done..| |by apply queue_set_queue].
    split; [done|intros; by apply queue_of_other; [lia|]| | |done].
    - exists []. by rewrite app_nil_r.
    - rewrite Hnil in Hmid. cbn in Hmid. lia. }
  destruct e as [n|a|a g um|r sdu tx|f|b tx]; cbn [build_one]; try (by apply Hdrop).
  - destruct He as (Hr & Hsdu & Hpos & Hp). unfold fragger_new. rewrite Hpos, Nat.eqb_refl. cbn [check mbind option_bind].
    apply Hfeed; [|done]. split_and!; [|done|done].
    exists (if is_none (mr_usage_marker r) then AtSsi else AtSsiAndUsageMarker). split; [|by destruct (is_none _)].
    split; try done. by destruct (is_none _).
  - by apply Hfeed.
  - destruct He as (_ & _ & Hp). destruct tx as [tx|]; [|by apply Hdrop]. unfold mark_discarded, mark.
    rewrite (Hp tx eq_refl), Z.eqb_refl. cbn [mbind option_bind].
    eexists [], buf_opt, _. rewrite app_nil_r. split_and!; [done..| |by apply queue_set_queue].
    split; [done|intros; by apply queue_of_other; [lia|]| | |by apply retire_inv].
    + eexists. split; [done|]. constructor; [by right|constructor].
    + unfold tx_total in *. fields_cbn. rewrite length_app, length_option_list. cbn [elem_tx] in Hmid.
      rewrite length_option_list in Hmid. lia.
Qed.

Lemma build_loop_ok ts n : (1 ≤ tt_t ts ≤ 4)%Z → ∀ s q cs buf_opt, sched_inv s → queue_of (tt_t ts) s = Some q →
  length q ≤ n → buf_ok cs buf_opt → ∃ cs' buf' s' q', build_loop n ts buf_opt s = Some (buf', s') ∧
    buf_ok (cs ++ cs') buf' ∧ progress (tt_t ts) s s' ∧ queue_of (tt_t ts) s' = Some q' ∧
    (if decide (tt_f ts = 18%Z) then s' = s ∧ buf' = buf_opt
     else q' = filter (λ e, priority e = None) q).
Proof.
  intros Ht. induction n as [|n IH]; intros s q cs buf_opt Hs Hq Hn Hbuf.
  { destruct q; [|cbn in Hn; lia]. cbn [build_loop]. rewrite Hq. cbn [mbind option_bind]. exists [], buf_opt, s, [].
    rewrite app_nil_r. split_and!; [done..|by apply progress_refl|done|]. by destruct (decide _). }
  cbn [build_loop]. rewrite Hq. cbn [mbind option_bind]. destruct q as [|e0 q0].
  { exists [], buf_opt, s, []. rewrite app_nil_r. split_and!; [done..|by apply progress_refl|done|]. by destruct (decide _). }
  destruct (take_prioritized_ok ts s _ Hs Ht Hq) as [[Hf ->]|[(Hf & -> & Hnone)|(e & l1 & l2 & Hf & Hsplit & Hpr & _ & _ & ->)]].
  - exists [], buf_opt, s, (e0 :: q0). rewrite app_nil_r, decide_True by done.
    split_and!; [done..|by apply progress_refl|done|done|done].
  - exists [], buf_opt, s, (e0 :: q0). rewrite app_nil_r, decide_False by done.
    split_and!; [done..|by apply progress_refl|done|]. rewrite filter_all; [done|]. by apply Forall_forall.
  - rewrite Hsplit in Hq, Hn |- *. rewrite length_app in Hn. cbn [length] in Hn.
    destruct (build_one_ok (tt_t ts) l1 e l2 cs buf_opt s Hs Ht Hq Hbuf) as (cs1 & buf1 & s1 & -> & Hbuf1 & Hprog1 & Hq1).
    cbn [mbind option_bind]. destruct (IH s1 (l1 ++ l2) (cs ++ cs1) buf1) as (cs2 & buf' & s' & q' & -> & Hbuf' & Hprog & Hq' & Hend);
      [apply Hprog1|done|rewrite length_app; lia|done|].
    exists (cs1 ++ cs2), buf', s', q'. rewrite app_assoc. split_and!; [done..|by eapply progress_trans|done|].
    rewrite decide_False in Hend |- * by done. rewrite Hend, !filter_app, filter_cons, decide_False; [done|].
    by intros Hn'; rewrite Hn' in Hpr; destruct Hpr.
Qed.

Lemma build_signalling_ok ts s q : sched_inv s → (1 ≤ tt_t ts ≤ 4)%Z → queue_of (tt_t ts) s = Some q →
  ∃ cs buf s' q', dl_build_block_from_signalling_schedule ts s = Some (buf, s') ∧ buf_ok cs buf ∧
    progress (tt_t ts) s s' ∧ bs_dltx_next_slot_queue s' = [] ∧ queue_of (tt_t ts) s' = Some q' ∧
    (tt_f ts = 18%Z → buf = None ∧ q' = bs_dltx_next_slot_queue s ++ q).
Proof.
  intros Hs Ht Hq. unfold dl_build_block_from_signalling_schedule. rewrite Hq. cbn [mbind option_bind].
  destruct (build_loop_ok ts (length q) Ht s q [] None Hs Hq ltac:(lia) eq_refl)
    as (cs & buf & s1 & q1 & -> & Hbuf & Hprog & Hq1 & Hend). cbn [mbind option_bind app] in *.
  pose proof (pr_inv _ _ _ Hprog) as Hs1. destruct (bs_dltx_next_slot_queue s1) as [|e l] eqn:En.
  - exists cs, buf, s1, q1. split_and!; [done..|]. intros Hf. rewrite decide_True in Hend by done.
    destruct Hend as [-> ->]. rewrite En. split; [done|]. cbn. congruence.
  - rewrite Hq1. cbn [mbind option_bind]. set (m := (e :: l) ++ q1).
    assert (Forall elem_ok (e :: l)) as Hel by (rewrite <-En; apply Hs1).
    destruct (queue_of_ok _ s1 Hs1 Ht) as (q1' & Hq1' & Hall). rewrite Hq1 in Hq1'. injection Hq1' as <-.
    assert (sched_inv (with_next_slot_queue [] s1)) as Hs2 by (by apply next_slot_inv).
    eexists cs, buf, _, m. split; [done|]. split; [done|]. split_and!; [|done|by apply queue_set_queue|].
    + eapply progress_trans; [exact Hprog|].
      split; [done|intros; by apply (queue_of_other _ _ _ (with_next_slot_queue [] s1)); [lia|]| | |].
      * exists []. by rewrite app_nil_r.
      * pose proof (tx_total_set (tt_t ts) q1 m _ Hs2 Ht Hq1) as Htot. unfold m in *. rewrite elems_tx_app, length_app in Htot.
        unfold tx_total in *. fields_cbn.
        change (length (elems_tx [])) with 0 in *. change (e :: l ++ q1) with ((e :: l) ++ q1). rewrite En. lia.
      * apply set_queue_inv; [done|]. change (e :: l ++ q1) with m. unfold m. apply Forall_app. by split.
    + intros Hf. rewrite decide_True in Hend by done. destruct Hend as [-> ->]. split; [done|]. unfold m. rewrite En. congruence.
Qed.

(** * Traffic *)

Lemma voice_buf_ok block : Forall (is_u 8) block → length block ≤ 4096 → TCH_S_CAP ≤ length block * 8 →
  ∃ b, exec (set_raw_end (bb_start (from_vec block) + TCH_S_CAP)) (from_vec block) = Some (tt, b) ∧
    wf b ∧ get_len b = 274 ∧ bb_start b = 0.
Proof.
  intros Hb Hl Hc. unfold exec, set_raw_end. unfold TCH_S_CAP in *. cbn [from_vec bb_start Nat.add].
  erewrite (bind_ok get) by done.
  change (bb_buffer (from_vec block)) with block. rewrite (proj2 (Nat.leb_le 274 (length block * 8))) by lia. erewrite bind_ok by done. erewrite bind_ok by done. erewrite bind_ok by done.
  eexists. split; [done|]. split; [|done]. constructor; cbn [set_end from_vec bb_buffer bb_start bb_pos bb_end]; try done; try lia.
Qed.

Lemma take_block_ok c cn t b c' : circuits_ok c → take_block cn t c = (b, c') → circuits_ok c' ∧
  cm_dl c' = cm_dl c ∧ cm_ul c' = cm_ul c ∧ (∀ x, b = Some x → Forall (is_u 8) x ∧ length x ≤ 4096).
Proof.
  intros Hc. unfold take_block. destruct (negb _); [by intros [= <- <-]|].
  destruct (cm_tx_data c !! (cn, t)) as [[|x q]|] eqn:E; try (by intros [= <- <-]). intros [= <- <-].
  pose proof (co_blocks _ Hc _ _ E) as Hq. apply Forall_cons in Hq as [Hx Hq]. split; [|split_and!; [done..|by intros ? [= <-]]].
  constructor; cbn; [apply Hc..|]. intros k q'. destruct (decide (k = (cn, t))) as [->|Hne].
  - rewrite lookup_insert_eq. by intros [= <-].
  - rewrite lookup_insert_ne by done. apply Hc.
Qed.

Lemma build_traffic_ok ts s : sched_inv s → (1 ≤ tt_t ts ≤ 4)%Z → ∃ tch stch s',
  dl_build_traffic_block ts s = Some (tch, stch, s') ∧ wf tch ∧ get_len tch = 274 ∧
  (∀ b, stch = Some b → wf b ∧ get_len b = 124) ∧ progress (tt_t ts) s s'.
Proof.
  intros Hs Ht. unfold dl_build_traffic_block. destruct (take_block _ _ _) as [block circuits] eqn:E.
  destruct (take_block_ok _ _ _ _ _ (iv_circuits _ Hs) E) as (Hc & Hcd & Hcu & Hblk). clear E. set (s1 := with_circuits circuits s).
  assert (sched_inv s1) as Hs1 by (destruct Hs; by constructor).
  assert (∃ b, voice_block block = Some b ∧ wf b ∧ get_len b = 274) as (tch & Htch & Hwf & Hlen).
  { assert (wf (new TCH_S_CAP)) by (apply blk_new; unfold TCH_S_CAP; lia).
    destruct block as [x|]; [|by exists (new TCH_S_CAP)]. destruct (decide (TCH_S_CAP ≤ length x * 8));
      [|exists (new TCH_S_CAP); unfold voice_block; by rewrite (proj2 (Nat.leb_gt _ _)) by lia].
    destruct (Hblk x eq_refl) as [H8 Hl]. destruct (voice_buf_ok x H8 Hl) as (b & Hb & ? & ? & _); [done|].
    exists b. unfold voice_block. rewrite (proj2 (Nat.leb_le _ _)) by done. cbv zeta. by rewrite Hb. }
  rewrite Htch. cbn [mbind option_bind].
  destruct (queue_of_ok _ s1 Hs1 Ht) as (q & Hq & Hall). rewrite Hq. cbn [mbind option_bind].
  assert (progress (tt_t ts) s s1) as Hp1.
  { split; try done; [|exists []; by rewrite app_nil_r]. unfold core. cbn. by rewrite Hcd, Hcu. }
  destruct (remove_first is_stealing q) as [[e q']|] eqn:Er.
  2: { exists tch, None, s1. by split_and!. }
  apply remove_first_Some in Er as (l1 & l2 & -> & -> & He & _). destruct e as [| | | | |b tx]; try done.
  rewrite Forall_app, Forall_cons in Hall. destruct Hall as (Hl1 & (Hwfb & Hlb & Hp) & Hl2).
  assert (Forall elem_ok (l1 ++ l2)) as Hl by (by apply Forall_app).
  assert ((match tx with Some tx => Some <$> mark_transmitted tx | None => Some None end) = Some (transmitted tx)) as ->.
  { destruct tx as [tx|]; [|done]. unfold mark_transmitted, mark. by rewrite (Hp tx eq_refl). }
  cbn [mbind option_bind]. eexists tch, (Some b), _. split; [done|]. split_and!; [done..|by intros ? [= <-]|].
  eapply progress_trans; [exact Hp1|].
  destruct (fed_progress (tt_t ts) _ (l1 ++ l2) (EStealing b tx) (mkFragger null_pdu false false b tx) s1
    (retire (transmitted tx) (set_queue (tt_t ts) (l1 ++ l2) s1)) Hs1 Ht Hq) as [Hp2 _];
    [apply elems_tx_middle|done|done|apply fed_done|done].
Qed.

(** * Idle and broadcast blocks *)

Definition null_bits : list bool := fields_bits (mr_fields AtNullPdu null_pdu).

Lemma null_pdu_writes : writes (mac_resource_to_bitbuf null_pdu) null_bits.
Proof.
  apply mr_writes; [|by constructor]. constructor; cbn; try done; unfold is_u; lia.
Qed.

Lemma null_bits_len : length null_bits = 16.
Proof. done. Qed.

Lemma write_null_ok n b : blk_inv n b → 16 ≤ get_len_remaining b → ∃ b', write_pdu (mac_resource_to_bitbuf null_pdu) b = Some b' ∧
  blk_inv n b' ∧ bb_pos b' = bb_pos b + 16 ∧ abs b' = a_write null_bits (abs b).
Proof.
  intros Hb Hr. destruct (write_pdu_ok n b _ _ Hb null_pdu_writes) as (b' & ? & ? & ? & ?); [|by exists b'].
  rewrite null_bits_len. pose proof (bk_end _ _ Hb). unfold get_len_remaining in Hr. lia.
Qed.

Lemma new_remaining n : get_len_remaining (new n) = n.
Proof. unfold get_len_remaining. cbn [new bb_end bb_pos]. lia. Qed.

Lemma hangtime_idle_ok : ∃ b, generate_hangtime_idle_schf = Some b ∧ blk_inv SCH_F_CAP b.
Proof.
  destruct (write_null_ok SCH_F_CAP (new SCH_F_CAP)) as (b & Heq & Hb & _);
    [apply blk_new; unfold SCH_F_CAP; lia|rewrite new_remaining; unfold SCH_F_CAP; lia|].
  exists b. split; [exact Heq|exact Hb].
Qed.

(** A block before the final touches: full size, and filled from the start if it is for signalling. *)
Definition raw_blk (b : TmvUnitdataReq) : Prop :=
  wf (mac_block b) ∧ ∃ p, get_params (logical_channel b) = Some p ∧ get_len (mac_block b) = type1_bits p ∧
  (logical_channel b = SchHd ∨ logical_channel b = SchF → blk_inv (type1_bits p) (mac_block b)).

Lemma null_pdu_len : update_len_and_fill_ind 0 null_pdu = Some (0, null_pdu).
Proof. done. Qed.

Lemma add_null_ok b : raw_blk b → ∃ b', try_add_null_pdus (Some b) = Some (Some b') ∧ raw_blk b' ∧
  logical_channel b' = logical_channel b ∧ scrambling_code b' = scrambling_code b.
Proof.
  intros (Hwf & p & Hp & Hl & Hb). unfold try_add_null_pdus.
  destruct (bool_decide (logical_channel b = SchHd) || bool_decide (logical_channel b = SchF)) eqn:E.
  2: { exists b. split; [done|]. split; [split; [done|by exists p]|done]. }
  assert (logical_channel b = SchHd ∨ logical_channel b = SchF) as Hs.
  { apply orb_true_iff in E as [E|E]; apply bool_decide_eq_true in E; auto. }
  specialize (Hb Hs). destruct (Nat.leb_spec NULL_PDU_LEN_BITS (get_len_remaining (mac_block b))) as [Hr|Hr].
  2: { exists b. split; [done|]. split; [split; [done|by exists p]|done]. }
  rewrite null_pdu_len. cbn [mbind option_bind]. destruct (write_null_ok _ _ Hb Hr) as (mb & -> & Hmb & _).
  cbn [mbind option_bind]. eexists. split; [done|]. split_and!; [|done..]. split; [apply Hmb|].
  exists p. split; [done|]. split; [|done]. cbn. unfold get_len. destruct Hmb as [_ _ -> ->]. lia.
Qed.

Lemma raw_rewind b : raw_blk b → ∃ b', rewind b = Some b' ∧ fits_channel b' ∧ logical_channel b' = logical_channel b.
Proof.
  intros (Hwf & p & Hp & Hl & _). destruct (rewind_ok b Hwf) as (b' & Heq & Hwf' & Hpos & _ & Hlen & Hlc & _).
  exists b'. split_and!; [done| |done]. split_and!; [done..|]. exists p. split; congruence.
Qed.

(** * The broadcast block *)

Lemma usage_ok c dir cn t u : circuits_ok c → get_usage dir cn t c = Some u → (4 ≤ u < 64)%Z.
Proof.
  intros Hc. unfold get_usage. destruct dir; try done; intros (x & Hx & ->)%fmap_Some;
    [by eapply (co_ul _ Hc)|by eapply (co_dl _ Hc)].
Qed.

Lemma af_default_ok a b : (0 ≤ a < 4)%Z → (0 ≤ b < 16)%Z → af_ok (mkAccessField a b).
Proof. intros. split; unfold is_u; cbn; lia. Qed.

Lemma traffic_aach_ok h dl ul : (∀ u, dl = Some u → (4 ≤ u < 64)%Z) → (∀ u, ul = Some u → (4 ≤ u < 64)%Z) →
  aa_valid (traffic_aach h dl ul access_assign_default).
Proof.
  intros Hdl Hul. unfold traffic_aach. destruct (_ && _); constructor; cbn; try done.
  - intros a [= <-]. by apply af_default_ok.
  - destruct dl; cbn; auto.
  - destruct ul; cbn; auto.
  - by destruct ul.
Qed.

Lemma ul_usage_ok u x : ul_inv u → valid_time x → ∃ v, ul_get_usage x u = Some v ∧ uu_ok v.
Proof.
  intros Hu Hx. destruct (slot_at_Some x _ Hx (ui_shape _ Hu)) as [e He]. pose proof (ui_slots _ Hu x e Hx He) as Hok.
  unfold ul_get_usage. rewrite sched_index by done. cbn [mbind option_bind].
  change (sched_get _ _ _) with (slot_at x (ul_ulsched u)). rewrite He. cbn [mbind option_bind]. unfold slot_ok in Hok.
  destruct e as [[] [] []]; cbn in *; try done; eexists; (split; [reflexivity|]); cbn; try done; lia.
Qed.

Lemma make_aach_ok ts ul dl s : sched_inv s → valid_time ts → (∀ u, dl = Some u → (4 ≤ u < 64)%Z) →
  (∀ u, ul = Some u → (4 ≤ u < 64)%Z) → ∃ p, make_aach ts ul dl s = Some (Some p) ∧ aa_valid p.
Proof.
  intros Hs Hv Hdl Hul. pose proof Hv as Ht%valid_time_ranges. unfold make_aach. cbv zeta.
  destruct (at_ts_ok (tt_t ts) (bs_hangtime s) ltac:(lia) (iv_hangtime _ Hs)) as (h & Hh & _).
  destruct (Z.eqb_spec (tt_t ts) 1).
  - destruct (allow_common_control_aach s).
    + destruct (ul_usage_ok _ ts (iv_ul _ Hs) Hv) as (v & -> & Hvv). cbn [mbind option_bind].
      destruct v; eexists; (split; [done|]); constructor; cbn; try done; try (intros a [= <-]; by apply af_default_ok).
      all: intros _; split_and!; try done; by eexists.
    + assert (∃ h', (if supports_assigned_traffic_ts (tt_t ts) s then at_ts (tt_t ts) (bs_hangtime s) else Some false) = Some h')
        as (h' & ->) by (destruct (supports_assigned_traffic_ts _ _); eauto).
      cbn [mbind option_bind]. eexists. split; [done|]. by apply traffic_aach_ok.
  - destruct (Z.leb_spec 2 (tt_t ts)), (Z.leb_spec (tt_t ts) 4); try lia. cbn [andb]. rewrite Hh. cbn [mbind option_bind].
    eexists. split; [done|]. by apply traffic_aach_ok.
Qed.

Lemma fr18_aach_ok s : aa18_valid (fr18_aach s).
Proof.
  unfold fr18_aach. destruct (allow_common_control_aach s); constructor; cbn; try done; try (intros a [= <-]; by apply af_default_ok);
    split_and!; try done; by eexists.
Qed.

(** The broadcast block carries the access assignment of its slot. *)
Definition bbk_content (ts : TdmaTime) (s : BsChannelScheduler) (bits : list bool) : Prop :=
  if decide (tt_f ts = 18%Z) then bits = fields_bits (aa18_fields (fr18_aach s))
  else ∃ p, aa_valid p ∧ bits = fields_bits (aa_fields p) ∧
    make_aach ts (get_usage Ul (bs_carrier_num s) (tt_t ts) (bs_circuits s))
      (get_usage Dl (bs_carrier_num s) (tt_t ts) (bs_circuits s)) s = Some (Some p).

Lemma generate_bbk_ok ts s : sched_inv s → valid_time ts → ∃ b bits, generate_bbk_block ts s = Some b ∧
  logical_channel b = Aach ∧ blk_inv 14 (mac_block b) ∧ bbk_content ts s bits ∧ length bits = 14 ∧
  abs (mac_block b) = a_write bits (abs (new (length bits))).
Proof.
  intros Hs Hv. unfold generate_bbk_block, bbk_content. destruct (decide (tt_f ts = 18%Z)) as [Hf|Hf].
  - rewrite Hf. cbn [Z.eqb Pos.eqb negb].
    destruct (write_whole_ok (access_assign_fr18_to_bitbuf (fr18_aach s)) (fields_bits (aa18_fields (fr18_aach s))) 14) as (b & -> & Hb & Hp & Habs);
      [by rewrite length_fields_bits, aa18_fields_len|lia|apply aa18_writes, fr18_aach_ok|]. cbn [mbind option_bind].
    eexists _, _. split; [done|]. split_and!; try done; by rewrite length_fields_bits, aa18_fields_len.
  - rewrite (proj2 (Z.eqb_neq _ _)) by done. cbn [negb].
    destruct (make_aach_ok ts (get_usage Ul (bs_carrier_num s) (tt_t ts) (bs_circuits s))
      (get_usage Dl (bs_carrier_num s) (tt_t ts) (bs_circuits s)) s Hs Hv) as (p & Hp & Hval);
      [intros u; apply usage_ok, Hs..|]. rewrite Hp. cbn [mbind option_bind].
    destruct (write_whole_ok (access_assign_to_bitbuf p) (fields_bits (aa_fields p)) 14) as (b & -> & Hb & Hpos & Habs);
      [by rewrite length_fields_bits, aa_fields_len|lia|by apply aa_writes|]. cbn [mbind option_bind].
    eexists _, _. split; [done|]. split_and!; try done; [by exists p|by rewrite length_fields_bits, aa_fields_len].
Qed.
