(* ===== verification/BsSchedSlot.v ===== *)
(** Finalized slots: every tick yields a slot whose blocks the channel coder
    accepts, with the broadcast information a terminal can parse; no receipt is
    lost on the way. *)
From S2P Require Import Prelude Bits Core BitBuffer BitBufferSpec BitCodec BitBufferThms.
From S2P Require Import FieldCodec PduCodec Arrays TdmaTime TxReceipt Fillbits MacDl MacDlSpec BsFragSpec.
From S2P Require Import Scrambler ErrorControlSpec UmacCircuitMgr MacBcast MacBcastSpec BsSchedUlSpec BsSched BsSchedSpec.

#[local] Opaque add_timeslots forward_to_timeslot slot_index.

(** * Default blocks *)

(** The precomputed PDUs once the time of the slot is filled in. *)
Record timed_precomps (ts : TdmaTime) (p : PrecomputedUmacPdus) : Prop := {
  tp_sysinfo1 : mac_sysinfo_valid (pc_mac_sysinfo1 p) ∧ ∃ opt, option_shape (pc_mac_sysinfo1 p) opt;
  tp_sysinfo2 : mac_sysinfo_valid (pc_mac_sysinfo2 p) ∧ ∃ opt, option_shape (pc_mac_sysinfo2 p) opt;
  tp_mle_sysinfo : d_mle_sysinfo_valid (pc_mle_sysinfo p);
  tp_sync : mac_sync_valid (pc_mac_sync p) ∧ ms_time (pc_mac_sync p) = ts;
  tp_mle_sync : d_mle_sync_valid (pc_mle_sync p)
}.

Lemma sysinfo_timed h p : is_u 16 h → sysinfo_ok p →
  mac_sysinfo_valid (set_hyperframe h p) ∧ ∃ opt, option_shape (set_hyperframe h p) opt.
Proof.
  intros Hh [[] (opt & Ho)]. split.
  - constructor; cbn in *; try done. by destruct (si_cck_id p).
  - exists opt. destruct Ho; econstructor; done.
Qed.

Lemma set_times_ok ts s : sched_inv s → valid_time ts →
  sched_inv (set_precomp_times ts s) ∧ timed_precomps ts (bs_precomps (set_precomp_times ts s)).
Proof.
  intros Hs Hv. destruct (iv_precomps _ Hs) as [H1 H2 H3 H4 H5]. split.
  - destruct Hs. constructor; try done. constructor; try done; cbn.
    + destruct H1 as [Hv1 Ho]. split; [destruct Hv1; by constructor|]. destruct Ho as (opt & Ho). exists opt. destruct Ho; econstructor; done.
    + destruct H2 as [Hv2 Ho]. split; [destruct Hv2; by constructor|]. destruct Ho as (opt & Ho). exists opt. destruct Ho; econstructor; done.
  - assert (is_u 16 (tt_h ts)) by apply Hv. constructor; cbn; [by apply sysinfo_timed..|done| |done].
    split; [|done]. destruct H4; by constructor.
Qed.

Lemma mac_sysinfo_fields_len p opt : option_shape p opt → length (fields_bits (mac_sysinfo_fields p opt)) = 82.
Proof.
  intros Ho. rewrite length_fields_bits. unfold mac_sysinfo_fields. rewrite !fields_len_app. unfold cck_fields.
  assert (fields_len (match si_cck_id p with Some c => [(1%Z, 1); (c, 16)]
    | None => [(0%Z, 1); (default 0%Z (si_hyperframe_number p), 16)] end) = 17) as -> by (by destruct (si_cck_id p)).
  change ((opt_field_into_raw (si_option_field p), 2) :: opt) with ([(opt_field_into_raw (si_option_field p), 2)] ++ opt).
  rewrite fields_len_app, (option_shape_len _ _ Ho). done.
Qed.

(** The SYSINFO block of a slot: MAC-SYSINFO of either kind, then D-MLE-SYSINFO. *)
Definition sysinfo_of (ts : TdmaTime) (p : PrecomputedUmacPdus) : MacSysinfo :=
  if (tt_t ts mod 2 =? 1)%Z then pc_mac_sysinfo1 p else pc_mac_sysinfo2 p.

Lemma make_sysinfo_ok ts s : timed_precomps ts (bs_precomps s) → ∃ b opt, make_sysinfo_block ts s = Some b ∧
  blk_inv 124 b ∧ option_shape (sysinfo_of ts (bs_precomps s)) opt ∧ mac_sysinfo_valid (sysinfo_of ts (bs_precomps s)) ∧
  abs b = a_write (fields_bits (mac_sysinfo_fields (sysinfo_of ts (bs_precomps s)) opt) ++
                   fields_bits (d_mle_sysinfo_fields (pc_mle_sysinfo (bs_precomps s)))) (abs (new 124)).
Proof.
  intros [H1 H2 H3 _ _]. unfold make_sysinfo_block. cbv zeta. fold (sysinfo_of ts (bs_precomps s)).
  assert (mac_sysinfo_valid (sysinfo_of ts (bs_precomps s)) ∧ ∃ opt, option_shape (sysinfo_of ts (bs_precomps s)) opt)
    as [Hv (opt & Ho)] by (unfold sysinfo_of; by destruct (_ =? 1)%Z).
  set (bs := fields_bits (mac_sysinfo_fields (sysinfo_of ts (bs_precomps s)) opt) ++
                   fields_bits (d_mle_sysinfo_fields (pc_mle_sysinfo (bs_precomps s)))).
  assert (124 = length bs) as Hlen.
  { unfold bs. by rewrite length_app, mac_sysinfo_fields_len, length_fields_bits by done. }
  destruct (write_whole_ok (mac_sysinfo_to_bitbuf (sysinfo_of ts (bs_precomps s));;
             d_mle_sysinfo_to_bitbuf (pc_mle_sysinfo (bs_precomps s))) bs 124 Hlen) as (b & Hw & Hb & _ & Habs);
    [lia|by apply writes_bind; [apply mac_sysinfo_writes|apply d_mle_sysinfo_writes]|].
  exists b, opt. split_and!; try assumption. by rewrite Habs, <-Hlen.
Qed.

(** What the first block is when nothing is scheduled. *)
Definition default_shape (ts : TdmaTime) (s : BsChannelScheduler) (b : TmvUnitdataReq) : Prop :=
  if decide (tt_t ts = 1%Z ∧ tt_f ts ≠ 18%Z)
  then logical_channel b = (if negb (allow_mcch s) || (tt_f ts mod 2 =? 0)%Z then SchHd else SchF)
  else logical_channel b = Bsch ∧ scrambling_code b = SCRAMB_INIT ∧ abs (mac_block b) = a_write (fields_bits (mac_sync_fields (pc_mac_sync (bs_precomps s))) ++
         fields_bits (d_mle_sync_fields (pc_mle_sync (bs_precomps s)))) (abs (new 60)).

Lemma generate_default_ok ts s : timed_precomps ts (bs_precomps s) → valid_time ts →
  ∃ b, generate_default_blks ts s = Some b ∧ raw_blk b ∧ default_shape ts s b.
Proof.
  intros [_ _ _ [Hsync Htime] Hmle] Hv. pose proof Hv as Hr%valid_time_ranges. unfold generate_default_blks, default_shape.
  cbv zeta. destruct (decide (tt_t ts = 1%Z ∧ tt_f ts ≠ 18%Z)) as [[Ht Hf]|Hn].
  - rewrite Ht. destruct (Z.leb_spec 1 (tt_f ts)), (Z.leb_spec (tt_f ts) 17); try lia. cbn [andb Z.eqb Pos.eqb].
    destruct (negb (allow_mcch s) || (tt_f ts mod 2 =? 0)%Z).
    + destruct (write_null_ok SCH_HD_CAP (new SCH_HD_CAP)) as (b & -> & Hb & _);
        [apply blk_new; unfold SCH_HD_CAP; lia|rewrite new_remaining; unfold SCH_HD_CAP; lia|]. cbn [mbind option_bind].
      eexists. split; [reflexivity|]. split; [|reflexivity]. split; [apply Hb|]. exists SCH_HD_PARAMS. split; [reflexivity|].
      cbn [mac_block]. split; [|by intros _]. unfold get_len. destruct Hb as [_ _ -> ->]. reflexivity.
    + destruct (write_null_ok SCH_F_CAP (new SCH_F_CAP)) as (b & -> & Hb & _);
        [apply blk_new; unfold SCH_F_CAP; lia|rewrite new_remaining; unfold SCH_F_CAP; lia|]. cbn [mbind option_bind].
      eexists. split; [reflexivity|]. split; [|reflexivity]. split; [apply Hb|]. exists SCH_F_PARAMS. split; [reflexivity|].
      cbn [mac_block]. split; [|by intros _]. unfold get_len. destruct Hb as [_ _ -> ->]. reflexivity.
  - assert (((1 <=? tt_f ts) && (tt_f ts <=? 17) && (tt_t ts =? 1))%Z = false) as ->.
    { destruct (Z.leb_spec 1 (tt_f ts)), (Z.leb_spec (tt_f ts) 17), (Z.eqb_spec (tt_t ts) 1); try done; exfalso; apply Hn; lia. }
    assert (((1 <=? tt_f ts) && (tt_f ts <=? 17) && (2 <=? tt_t ts) && (tt_t ts <=? 4) || (tt_f ts =? 18))%Z = true) as ->.
    { destruct (Z.eqb_spec (tt_f ts) 18); [apply orb_true_r|]. destruct (Z.leb_spec 1 (tt_f ts)), (Z.leb_spec (tt_f ts) 17),
        (Z.leb_spec 2 (tt_t ts)), (Z.leb_spec (tt_t ts) 4); try lia; try done; exfalso; apply Hn; lia. }
    set (bs := fields_bits (mac_sync_fields (pc_mac_sync (bs_precomps s))) ++ fields_bits (d_mle_sync_fields (pc_mle_sync (bs_precomps s)))).
    assert (60 = length bs) as Hlen by (unfold bs; by rewrite length_app, !length_fields_bits).
    destruct (write_whole_ok (mac_sync_to_bitbuf (pc_mac_sync (bs_precomps s));;
      d_mle_sync_to_bitbuf (pc_mle_sync (bs_precomps s))) bs 60 Hlen) as (b & -> & Hb & _ & Habs);
      [lia|by apply writes_bind; [apply mac_sync_writes|apply d_mle_sync_writes]|]. cbn [mbind option_bind].
    eexists. split; [reflexivity|]. split; [|split; [reflexivity|split; [reflexivity|cbn [mac_block]; by rewrite Habs, <-Hlen]]].
    split; [apply Hb|]. exists BSCH_PARAMS. split; [reflexivity|]. cbn [mac_block logical_channel]. split; [|intros [|]; done].
    unfold get_len. destruct Hb as [_ _ -> ->]. reflexivity.
Qed.

(** * Building a slot *)

(** The blocks of a slot before broadcast and default blocks are added. *)
Definition built (blk1 blk2 : option TmvUnitdataReq) : Prop :=
  match blk1, blk2 with
  | Some b1, Some b2 => logical_channel b1 = Stch ∧ raw_blk b1 ∧ logical_channel b2 = ErrorControlSpec.TchS ∧ raw_blk b2
  | Some b1, None => (logical_channel b1 = ErrorControlSpec.TchS ∨ logical_channel b1 = SchF) ∧ raw_blk b1
  | None, None => True
  | None, Some _ => False
  end.

Lemma raw_schf b code : blk_inv SCH_F_CAP b → raw_blk (mkTmvReq b SchF code).
Proof.
  intros Hb. split; [apply Hb|]. exists SCH_F_PARAMS. split; [reflexivity|]. cbn [mac_block]. split; [|by intros _].
  unfold get_len. destruct Hb as [_ _ -> ->]. reflexivity.
Qed.

Lemma raw_len b lchan code p : wf b → get_params lchan = Some p → get_len b = type1_bits p →
  lchan ≠ SchHd → lchan ≠ SchF → raw_blk (mkTmvReq b lchan code).
Proof. intros Hw Hp Hl H1 H2. split; [done|]. exists p. split_and!; [done..|]. by intros [|]. Qed.

Lemma integrate_progress ts s q' q : sched_inv s → (1 ≤ tt_t ts ≤ 4)%Z → queue_of (tt_t ts) s = Some q → Forall elem_ok q' →
  elems_tx q' = elems_tx q → progress (tt_t ts) s (set_queue (tt_t ts) q' s).
Proof.
  intros Hs Ht Hq Hq' Htx. split; [done|intros; by apply queue_of_other; [lia|]| | |by apply set_queue_inv].
  - exists []. by rewrite app_nil_r.
  - pose proof (tx_total_set (tt_t ts) q q' s Hs Ht Hq) as Htot. rewrite Htx in Htot. lia.
Qed.

Lemma hangtime_effective_ok t s : sched_inv s → (1 ≤ t ≤ 4)%Z →
  ∃ h, (if supports_assigned_traffic_ts t s then is_hangtime_effective t s else Some false) = Some h.
Proof.
  intros Hs Ht. destruct (supports_assigned_traffic_ts t s); [|eauto]. unfold is_hangtime_effective, ts_1_4, has_pending_stealing.
  destruct (Z.leb_spec 1 t), (Z.leb_spec t 4); try lia. cbn [andb negb].
  destruct (at_ts_ok t (bs_hangtime s) Ht (iv_hangtime _ Hs)) as (h & -> & _). cbn [mbind option_bind].
  destruct h; cbn [negb]; [|eauto]. cbn. eauto.
Qed.

Lemma build_slot_ok emit ts s : sched_inv s → valid_time ts → ∃ elem s', build_slot emit ts s = Some (elem, s') ∧
  progress (tt_t ts) s s' ∧ sl_ts elem = ts ∧ sl_carrier_num elem = bs_carrier_num s ∧ sl_bbk elem = None ∧
  built (sl_blk1 elem) (sl_blk2 elem) ∧ (tt_f ts = 18%Z → emit = true → sl_blk1 elem = None).
Proof.
  intros Hs Hv. pose proof Hv as Hr%valid_time_ranges. assert (1 ≤ tt_t ts ≤ 4)%Z as Ht by lia.
  unfold build_slot. destruct (hangtime_effective_ok (tt_t ts) s Hs Ht) as (h & ->). cbn [mbind option_bind].
  destruct (is_active Dl (bs_carrier_num s) (tt_t ts) (bs_circuits s) && negb (tt_f ts =? 18)%Z) eqn:Edl; cbn [andb].
  - assert (tt_f ts ≠ 18%Z) as Hf by (apply andb_true_iff in Edl as [_ E]; by apply negb_true_iff, Z.eqb_neq in E).
    destruct h; cbn [negb].
    2: { destruct (build_traffic_ok ts s Hs Ht) as (tch & stch & s' & -> & Hwf & Hlen & Hst & Hp). cbn [mbind option_bind].
         assert (∀ code, raw_blk (mkTmvReq tch ErrorControlSpec.TchS code)) as Htch by (intros; by apply (raw_len _ _ _ TCH_S_PARAMS)).
         destruct stch as [stch|]; eexists _, s'; (split; [reflexivity|]); (split; [done|]); cbn [sl_ts sl_carrier_num sl_bbk sl_blk1 sl_blk2];
           split_and!; try done; [|by split; [left|]].
         destruct (Hst stch eq_refl). split_and!; try done. by apply (raw_len _ _ _ SCH_HD_PARAMS). }
    destruct (queue_of_ok _ s Hs Ht) as (q & Hq & _). destruct (integrate_ok ts s q Hs Ht Hq) as (q' & -> & Hq' & Htx).
    cbn [mbind option_bind]. pose proof (integrate_progress ts s q' q Hs Ht Hq Hq' Htx) as Hp1.
    destruct (build_signalling_ok ts _ q' (pr_inv _ _ _ Hp1) Ht (queue_set_queue _ _ _ Hs Ht)) as (cs & buf & s' & q2 & -> & Hbuf & Hp2 & _).
    cbn [mbind option_bind]. pose proof (progress_trans _ _ _ _ Hp1 Hp2) as Hp.
    destruct buf as [b|].
    + eexists _, s'. split; [reflexivity|]. split; [done|]. split_and!; try done. split; [by right|]. apply raw_schf, Hbuf.
    + cbn [andb]. destruct hangtime_idle_ok as (b & -> & Hb). cbn [mbind option_bind].
      eexists _, s'. split; [reflexivity|]. split; [done|]. split_and!; try done. split; [by right|]. by apply raw_schf.
  - destruct (queue_of_ok _ s Hs Ht) as (q & Hq & _). destruct (integrate_ok ts s q Hs Ht Hq) as (q' & -> & Hq' & Htx).
    cbn [mbind option_bind]. pose proof (integrate_progress ts s q' q Hs Ht Hq Hq' Htx) as Hp1.
    destruct (build_signalling_ok ts _ q' (pr_inv _ _ _ Hp1) Ht (queue_set_queue _ _ _ Hs Ht)) as (cs & buf & s' & q2 & -> & Hbuf & Hp2 & _ & _ & H18).
    cbn [mbind option_bind]. pose proof (progress_trans _ _ _ _ Hp1 Hp2) as Hp.
    destruct buf as [b|].
    + eexists _, s'. split; [reflexivity|]. split; [done|]. split_and!; try done; [split; [by right|]; apply raw_schf, Hbuf|].
      intros Hf. by destruct (H18 Hf).
    + rewrite andb_false_r. destruct emit; cbn [negb].
      * eexists _, s'. split; [reflexivity|]. split; [done|]. by split_and!.
      * destruct hangtime_idle_ok as (b & -> & Hb). cbn [mbind option_bind].
        eexists _, s'. split; [reflexivity|]. split; [done|]. split_and!; try done. split; [by right|]. by apply raw_schf.
Qed.

(** * Completing a slot *)

(** A slot the lower MAC can transmit: one full block, or two half blocks, each
    as long as its logical channel needs, and the broadcast block. *)
Definition complete (sl : TmvUnitdataReqSlot) : Prop :=
  ∃ b1 bbk, sl_blk1 sl = Some b1 ∧ sl_bbk sl = Some bbk ∧ fits_channel b1 ∧ fits_channel bbk ∧ logical_channel bbk = Aach ∧
  match logical_channel b1 with
  | Stch => ∃ b2, sl_blk2 sl = Some b2 ∧ fits_channel b2 ∧ logical_channel b2 = ErrorControlSpec.TchS
  | Bsch | SchHd => ∃ b2, sl_blk2 sl = Some b2 ∧ fits_channel b2 ∧ logical_channel b2 = Bnch
  | ErrorControlSpec.TchS | SchF => sl_blk2 sl = None
  | _ => False
  end.

Lemma fill_blk2_ok ts s b1 blk2 : timed_precomps ts (bs_precomps s) → raw_blk b1 →
  match blk2 with
  | Some b2 => logical_channel b1 = Stch ∧ raw_blk b2
  | None => logical_channel b1 = ErrorControlSpec.TchS ∨ logical_channel b1 = SchF ∨ logical_channel b1 = Bsch ∨ logical_channel b1 = SchHd
  end → ∃ blk2', fill_blk2 ts b1 blk2 s = Some blk2' ∧
  match logical_channel b1, blk2' with
  | Stch, _ => blk2' = blk2
  | (Bsch | SchHd), Some b2 => raw_blk b2 ∧ logical_channel b2 = Bnch
  | (ErrorControlSpec.TchS | SchF), None => True
  | _, _ => False
  end.
Proof.
  intros Hts (Hwf & p & Hp & Hl & _) Hb2. unfold fill_blk2. cbv zeta. destruct blk2 as [b2|].
  { destruct Hb2 as [Hlc Hb2]. rewrite Hlc. exists (Some b2). by rewrite bool_decide_true. }
  assert (∀ lc, logical_channel b1 = lc → bool_decide (logical_channel b1 = Stch) = bool_decide (lc = Stch)) as Hst by (by intros ? ->).
  destruct Hb2 as [Hlc|[Hlc|[Hlc|Hlc]]]; rewrite Hlc in Hp; injection Hp as <-; rewrite Hlc; cbn [is_none andb].
  3,4: destruct (make_sysinfo_ok ts s Hts) as (b & opt & Hmk & Hb & _); rewrite bool_decide_false by done;
    rewrite Hl; cbn; rewrite Hmk; cbn; eexists; (split; [reflexivity|]); (split; [|reflexivity]);
    (apply (raw_len _ _ _ SCH_HD_PARAMS); [apply Hb|reflexivity| |done..]); unfold get_len; destruct Hb as [_ _ -> ->]; reflexivity.
  all: rewrite !bool_decide_false by done; cbn [orb]; rewrite Hl; cbn; by eexists.
Qed.

Lemma complete_slot_ok emit ts elem s : sched_inv s → timed_precomps ts (bs_precomps s) → valid_time ts →
  sl_bbk elem = None → built (sl_blk1 elem) (sl_blk2 elem) → (tt_f ts = 18%Z → emit = true → sl_blk1 elem = None) →
  ∃ sl bbk bits, complete_slot emit ts elem s = Some sl ∧ complete sl ∧ sl_ts sl = sl_ts elem ∧
    sl_carrier_num sl = sl_carrier_num elem ∧ sl_bbk sl = Some bbk ∧ holds (mac_block bbk) bits ∧ bbk_content ts s bits.
Proof.
  intros Hs Hts Hv Hbbk Hbuilt H18. unfold complete_slot.
  assert ((if is_some (sl_blk1 elem) && emit then check (negb (tt_f ts =? 18)%Z) else Some tt) = Some tt) as ->.
  { destruct emit; [|by rewrite andb_false_r]. destruct (Z.eqb_spec (tt_f ts) 18) as [E|E]; [by rewrite H18|].
    by destruct (is_some _). }
  rewrite Hbbk. cbn [is_none check mbind option_bind].
  destruct (generate_bbk_ok ts s Hs Hv) as (bbk & bits & -> & Hlc & Hbk & Hcont & Hlen & Habs). cbn [mbind option_bind].
  assert (∃ b1, (match sl_blk1 elem with Some b => Some b | None => generate_default_blks ts s end) = Some b1 ∧ raw_blk b1 ∧
    match sl_blk2 elem with
    | Some b2 => logical_channel b1 = Stch ∧ raw_blk b2 ∧ logical_channel b2 = ErrorControlSpec.TchS
    | None => logical_channel b1 = ErrorControlSpec.TchS ∨ logical_channel b1 = SchF ∨ logical_channel b1 = Bsch ∨ logical_channel b1 = SchHd
    end) as (b1 & -> & Hb1 & Hsh).
  { unfold built in Hbuilt. destruct (sl_blk1 elem) as [b1|], (sl_blk2 elem) as [b2|]; try done.
    - exists b1. by destruct Hbuilt as (? & ? & ? & ?).
    - exists b1. destruct Hbuilt as [[?|?] ?]; auto.
    - destruct (generate_default_ok ts s Hts Hv) as (b1 & -> & Hb1 & Hd). exists b1. split_and!; try done.
      unfold default_shape in Hd. destruct (decide _); [destruct (_ || _); auto|]. destruct Hd; auto. }
  cbn [mbind option_bind]. destruct (fill_blk2_ok ts s b1 (sl_blk2 elem) Hts Hb1) as (blk2 & -> & Hblk2).
  { destruct (sl_blk2 elem); [by destruct Hsh as (? & ? & _)|done]. }
  cbn [mbind option_bind]. destruct (add_null_ok b1 Hb1) as (b1' & -> & Hb1' & Hlc1 & _). cbn [mbind option_bind].
  assert (∃ blk2', try_add_null_pdus blk2 = Some blk2' ∧ match logical_channel b1 with
    | Stch => ∃ b2, blk2' = Some b2 ∧ raw_blk b2 ∧ logical_channel b2 = ErrorControlSpec.TchS
    | Bsch | SchHd => ∃ b2, blk2' = Some b2 ∧ raw_blk b2 ∧ logical_channel b2 = Bnch
    | ErrorControlSpec.TchS | SchF => blk2' = None | _ => False end) as (blk2' & -> & Hblk2').
  { destruct blk2 as [b2|].
    - assert (raw_blk b2) as Hb2 by (destruct (logical_channel b1) eqn:El; try done; try (by destruct Hblk2);
        rewrite <-Hblk2 in Hsh; by destruct Hsh as (_ & ? & _)).
      destruct (add_null_ok b2 Hb2) as (b2' & -> & Hb2' & Hlc2 & _). exists (Some b2'). split; [done|].
      destruct (logical_channel b1) eqn:El; try done; exists b2'; rewrite Hlc2; try (by destruct Hblk2).
      rewrite <-Hblk2 in Hsh. by destruct Hsh as (_ & _ & Ht).
    - exists None. split; [done|]. destruct (logical_channel b1) eqn:El; try done.
      rewrite <-Hblk2 in Hsh. destruct Hsh as [Hsh|[Hsh|[Hsh|Hsh]]]; congruence. }
  cbn [mbind option_bind]. destruct (rewind_ok bbk (bk_wf _ _ Hbk)) as (bbk' & -> & Hwfk & Hpk & Hmb & Hlk & Hlck & _).
  cbn [mbind option_bind]. destruct (raw_rewind b1' Hb1') as (b1'' & -> & Hfit1 & Hlc1'). cbn [mbind option_bind].
  assert (∃ b2'', (match blk2' with Some b => Some <$> rewind b | None => Some None end) = Some b2'' ∧
    match logical_channel b1 with
    | Stch => ∃ b2, b2'' = Some b2 ∧ fits_channel b2 ∧ logical_channel b2 = ErrorControlSpec.TchS
    | Bsch | SchHd => ∃ b2, b2'' = Some b2 ∧ fits_channel b2 ∧ logical_channel b2 = Bnch
    | ErrorControlSpec.TchS | SchF => b2'' = None | _ => False end) as (b2'' & -> & Hfin).
  { destruct blk2' as [b2|].
    - assert (raw_blk b2) as Hb2 by (destruct (logical_channel b1); try done; by destruct Hblk2' as (? & [= <-] & ? & _)).
      destruct (raw_rewind b2 Hb2) as (b3 & -> & Hf3 & Hl3). cbn. eexists. split; [reflexivity|].
      destruct (logical_channel b1); try done; destruct Hblk2' as (? & [= <-] & _ & ?); exists b3; by rewrite Hl3.
    - exists None. split; [done|]. destruct (logical_channel b1); try done; by destruct Hblk2' as (? & ? & _). }
  cbn [mbind option_bind]. eexists _, bbk', bits. split; [reflexivity|]. cbn [sl_ts sl_carrier_num sl_bbk].
  split_and!; try done.
  - assert (fits_channel bbk') as Hfk.
    { split; [done|]. split; [done|]. exists AACH_PARAMS. rewrite Hlck, Hlc. split; [done|]. rewrite Hlk. unfold get_len.
      destruct Hbk as [_ _ -> ->]. done. }
    exists b1'', bbk'. cbn [sl_blk1 sl_bbk sl_blk2]. rewrite Hlc1', Hlc1, Hlck. by split_and!.
  - rewrite Hmb. apply holds_rewind; [apply Hbk|done].
Qed.

(** * Broadcast content *)

Definition sync_bits (p : PrecomputedUmacPdus) : list bool :=
  fields_bits (mac_sync_fields (pc_mac_sync p)) ++ fields_bits (d_mle_sync_fields (pc_mle_sync p)).

Definition sysinfo_bits (ts : TdmaTime) (p : PrecomputedUmacPdus) (opt : fields) : list bool :=
  fields_bits (mac_sysinfo_fields (sysinfo_of ts p) opt) ++ fields_bits (d_mle_sysinfo_fields (pc_mle_sysinfo p)).

(** The synchronisation and system information blocks of a slot carry the precomputed PDUs. *)
Definition announced (code : Z) (p : PrecomputedUmacPdus) (sl : TmvUnitdataReqSlot) : Prop :=
  (∀ b, sl_blk1 sl = Some b → logical_channel b = Bsch → scrambling_code b = SCRAMB_INIT ∧ holds (mac_block b) (sync_bits p)) ∧
  (∀ b, sl_blk2 sl = Some b → logical_channel b = Bnch → scrambling_code b = code ∧
     ∃ opt, option_shape (sysinfo_of (sl_ts sl) p) opt ∧ holds (mac_block b) (sysinfo_bits (sl_ts sl) p opt)).

Lemma add_null_other b b' : try_add_null_pdus (Some b) = Some (Some b') → logical_channel b' = Bsch ∨ logical_channel b' = Bnch →
  b' = b.
Proof.
  unfold try_add_null_pdus. destruct (bool_decide_reflect (logical_channel b = SchHd)) as [E1|E1],
    (bool_decide_reflect (logical_channel b = SchF)) as [E2|E2]; cbn [orb]; try (by intros [= <-]);
    (destruct (_ <=? _); [|by intros [= <-]]); rewrite null_pdu_len; cbn [mbind option_bind];
    (destruct (write_pdu _ _); [|done]); cbn [mbind option_bind]; intros [= <-]; cbn; rewrite ?E1, ?E2; by intros [|].
Qed.

Lemma add_null_lchan b b' : try_add_null_pdus (Some b) = Some b' → ∃ b'', b' = Some b'' ∧ logical_channel b'' = logical_channel b.
Proof.
  unfold try_add_null_pdus. destruct (_ || _); [|intros [= <-]; eauto]. destruct (_ <=? _); [|intros [= <-]; eauto].
  rewrite null_pdu_len. cbn [mbind option_bind]. destruct (write_pdu _ _); [|done]. cbn [mbind option_bind]. intros [= <-]. eauto.
Qed.

Lemma rewind_holds b b' bs : wf (mac_block b) → abs (mac_block b) = a_write bs (abs (new (length bs))) → rewind b = Some b' →
  holds (mac_block b') bs.
Proof.
  intros Hwf Habs Hr. destruct (rewind_ok b Hwf) as (b2 & Hr2 & _ & _ & Hmb & _). rewrite Hr in Hr2. injection Hr2 as <-.
  rewrite Hmb. by apply holds_rewind.
Qed.

Lemma rewind_same b b' : rewind b = Some b' → logical_channel b' = logical_channel b ∧ scrambling_code b' = scrambling_code b.
Proof. unfold rewind. destruct (exec _ _) as [[[] mb]|]; cbn [mbind option_bind]; [by intros [= <-]|done]. Qed.

Lemma fill_is_sysinfo ts blk1 blk2 s b : fill_blk2 ts blk1 blk2 s = Some (Some b) → blk2 ≠ Some b →
  ∃ buf, make_sysinfo_block ts s = Some buf ∧ b = mkTmvReq buf Bnch (bs_scrambling_code s).
Proof.
  unfold fill_blk2. cbv zeta. destruct (bool_decide (logical_channel blk1 = Stch)).
  { destruct (check _); [|done]. cbn [mbind option_bind]. congruence. }
  destruct (is_none blk2 && _).
  { destruct (check _); [|done]. cbn [mbind option_bind]. destruct (make_sysinfo_block ts s) as [buf|]; [|done].
    cbn [mbind option_bind]. intros [= <-] _. by exists buf. }
  destruct (is_none blk2); [|congruence]. destruct (check _); [|done]. cbn [mbind option_bind]. congruence.
Qed.

Lemma rewind_lchan b b' : rewind b = Some b' → logical_channel b' = logical_channel b.
Proof. intros H. by apply rewind_same. Qed.

(** The synchronisation block of a finished slot is a default block, its system information is the precomputed one. *)
Lemma complete_slot_origin emit ts elem s sl : built (sl_blk1 elem) (sl_blk2 elem) → complete_slot emit ts elem s = Some sl →
  (∀ b1, sl_blk1 sl = Some b1 → logical_channel b1 = Bsch → ∃ b, generate_default_blks ts s = Some b ∧ rewind b = Some b1) ∧
  (∀ b2, sl_blk2 sl = Some b2 → logical_channel b2 = Bnch →
     ∃ buf, make_sysinfo_block ts s = Some buf ∧ rewind (mkTmvReq buf Bnch (bs_scrambling_code s)) = Some b2) ∧
  (sl_blk1 elem = None → ∃ b b1, generate_default_blks ts s = Some b ∧ sl_blk1 sl = Some b1 ∧ logical_channel b1 = logical_channel b).
Proof.
  intros Hb. unfold complete_slot.
  repeat match goal with |- mbind _ ?m = Some _ → _ => let E := fresh "E" in destruct m eqn:E; cbn [mbind option_bind]; [|done] end.
  intros [= <-]. cbn [sl_blk1 sl_blk2]. split_and!.
  - intros b1 [= <-] Hlc. rewrite (rewind_lchan _ _ E8) in Hlc. apply add_null_other in E4 as ->; [|by left].
    destruct (sl_blk1 elem) as [b|]; [|by exists t0]. injection E2 as ->.
    unfold built in Hb. destruct (sl_blk2 elem); destruct Hb as [Hl _]; [|destruct Hl as [Hl|Hl]]; congruence.
  - intros b2 -> Hlc. destruct o1 as [b|]; [|done]. apply fmap_Some in E9 as (b3 & E9 & [= <-]).
    rewrite (rewind_lchan _ _ E9) in Hlc. destruct o as [b3|]; [|done]. apply add_null_other in E5 as ->; [|by right].
    destruct (fill_is_sysinfo _ _ _ _ _ E3) as (buf & Hbuf & ->); [|by exists buf].
    intros Eq. rewrite Eq in Hb. unfold built in Hb. destruct (sl_blk1 elem); [|done]. destruct Hb as (_ & _ & Hl & _). congruence.
  - intros Eq. rewrite Eq in E2. exists t0, t3. split; [done|]. split; [done|]. rewrite (rewind_lchan _ _ E8).
    apply add_null_lchan in E4 as (b & [= <-] & <-). done.
Qed.

(** In frame 18 the main carrier sends the synchronisation block. *)
Lemma frame_18_sync emit ts elem s sl : timed_precomps ts (bs_precomps s) → valid_time ts → built (sl_blk1 elem) (sl_blk2 elem) →
  complete_slot emit ts elem s = Some sl → sl_blk1 elem = None → tt_f ts = 18%Z → ∃ b, sl_blk1 sl = Some b ∧ logical_channel b = Bsch.
Proof.
  intros Htp Hv Hb Hc Hn H18. destruct (complete_slot_origin emit ts elem s sl Hb Hc) as (_ & _ & H3).
  destruct (H3 Hn) as (b & b1 & Hd & Hb1 & Hlc). exists b1. split; [done|]. rewrite Hlc.
  destruct (generate_default_ok ts s Htp Hv) as (b' & Hb' & _ & Hs). rewrite Hd in Hb'. injection Hb' as <-.
  unfold default_shape in Hs. rewrite decide_False in Hs by lia. apply Hs.
Qed.

Lemma announced_ok emit ts elem s sl : timed_precomps ts (bs_precomps s) → valid_time ts → built (sl_blk1 elem) (sl_blk2 elem) →
  complete_slot emit ts elem s = Some sl → sl_ts sl = ts → announced (bs_scrambling_code s) (bs_precomps s) sl.
Proof.
  intros Htp Hv Hb Hc Hts. destruct (complete_slot_origin emit ts elem s sl Hb Hc) as (H1 & H2 & _). split.
  - intros b1 E1 Hlc. destruct (H1 b1 E1 Hlc) as (b & Hb1 & Hr). destruct (generate_default_ok ts s Htp Hv) as (b' & Hb' & Hraw & Hd).
    rewrite Hb1 in Hb'. injection Hb' as <-. destruct (rewind_same _ _ Hr) as [Hl Hcode]. rewrite Hl in Hlc. rewrite Hcode.
    unfold default_shape in Hd. destruct (decide _); [rewrite Hlc in Hd; by destruct (_ || _)|]. destruct Hd as (_ & -> & Habs).
    split; [done|]. apply (rewind_holds b); [apply Hraw|by rewrite Habs|done].
  - intros b2 E2 Hlc. destruct (H2 b2 E2 Hlc) as (buf & Hbuf & Hr). destruct (make_sysinfo_ok ts s Htp) as (b & opt & Hb2 & Hi & Ho & _ & Habs).
    rewrite Hbuf in Hb2. injection Hb2 as <-. destruct (rewind_same _ _ Hr) as [_ ->]. split; [done|]. exists opt. rewrite Hts. split; [done|]. refine (rewind_holds _ _ _ _ _ Hr); [apply Hi|].
    cbn [mac_block]. rewrite Habs. unfold sysinfo_bits. by rewrite length_app, mac_sysinfo_fields_len, length_fields_bits by done.
Qed.

(** * A tick *)

(** The fields the broadcast block depends on. *)
Definition aach_view (s : BsChannelScheduler) :=
  (bs_ul s, bs_carrier_num s, bs_downlink_mode s, cm_dl (bs_circuits s), cm_ul (bs_circuits s), bs_hangtime s).

Lemma bbk_content_view ts s s' bits : aach_view s' = aach_view s → bbk_content ts s' bits → bbk_content ts s bits.
Proof.
  intros Hc. unfold bbk_content, fr18_aach, make_aach, allow_common_control_aach, supports_assigned_traffic_ts, get_usage.
  unfold aach_view in Hc. injection Hc as E1 E2 E3 E4 E5 E6. by rewrite E1, E2, E3, E4, E5, E6.
Qed.

Lemma core_view s s' : core s' = core s → aach_view s' = aach_view s ∧ bs_ul s' = bs_ul s ∧ bs_precomps s' = bs_precomps s ∧
  bs_scrambling_code s' = bs_scrambling_code s.
Proof. unfold core, aach_view. intros [= E1 E2 E3 E4 E5 E6 E7 E8 E9 E10]. split_and!; congruence. Qed.

(** What the scheduler holds and what is left of its receipts: untouched by the clock. *)
Definition queue_view (s : BsChannelScheduler) := (bs_dltx_queues s, bs_dltx_next_slot_queue s, bs_retired s).

Lemma queue_view_eq s s' : queue_view s' = queue_view s →
  tx_total s' = tx_total s ∧ bs_retired s' = bs_retired s ∧ ∀ t, queue_of t s' = queue_of t s.
Proof. unfold queue_view, tx_total, queue_of. intros [= -> -> ->]. done. Qed.

Lemma clear_ok ts u : ul_inv u → ts = add_timeslots (ul_cur_dltime u) 1 → ∃ u', clear_ul_schedule_for_tx_time ts u = Some u' ∧
  ul_inv u' ∧ ul_cur_dltime u' = ul_cur_dltime u.
Proof.
  intros Hu ->. destruct (slot_at_Some (add_timeslots (ul_cur_dltime u) 0) _ (add_valid _ _) (ui_shape _ Hu)) as [e He].
  destruct (ul_exec_ok UlFinalize u _ e 0 Hu I eq_refl ltac:(lia) He) as (u' & _ & Hex & Hinv & _).
  exists u'. split; [exact Hex|]. split; [done|]. cbn [ul_exec] in Hex. unfold clear_ul_schedule_for_tx_time in Hex.
  destruct (ul_ts_to_sched_index _); [|done]. cbn [mbind option_bind] in Hex. destruct (sched_get _ _ _); [|done].
  by injection Hex as <-.
Qed.

(** What a tick leaves alone besides the queues of other timeslots. *)
Definition config (s : BsChannelScheduler) :=
  (bs_carrier_num s, bs_downlink_mode s, cm_dl (bs_circuits s), cm_ul (bs_circuits s), bs_hangtime s).

(** What a tick did: the slot it yields, the receipts it let go, what it left alone. *)
Record ticked (s : BsChannelScheduler) (sl : TmvUnitdataReqSlot) (s' : BsChannelScheduler) : Prop := {
  tk_inv : sched_inv s';
  tk_complete : complete sl;
  tk_time : sl_ts sl = add_timeslots (cur_dltime s) 1 ∧ cur_dltime s' = cur_dltime s;
  tk_carrier : sl_carrier_num sl = bs_carrier_num s;
  tk_config : config s' = config s;
  tk_ul : clear_ul_schedule_for_tx_time (sl_ts sl) (bs_ul s) = Some (bs_ul s');
  tk_bbk : ∃ bbk bits, sl_bbk sl = Some bbk ∧ holds (mac_block bbk) bits ∧ bbk_content (sl_ts sl) s bits;
  tk_precomps : bs_precomps s' = bs_precomps (set_precomp_times (sl_ts sl) s) ∧ announced (bs_scrambling_code s) (bs_precomps s') sl ∧
    bs_scrambling_code s' = bs_scrambling_code s;
  tk_receipts : tx_total s' = tx_total s ∧ ∃ l, bs_retired s' = bs_retired s ++ l ∧ Forall tx_final l;
  tk_queues t : t ≠ tt_t (sl_ts sl) → queue_of t s' = queue_of t s
}.

Lemma start_slot_ok ts s : sched_inv s → valid_time ts → sched_inv (start_slot ts s) ∧
  timed_precomps ts (bs_precomps (start_slot ts s)) ∧ aach_view (start_slot ts s) = aach_view s ∧
  queue_view (start_slot ts s) = queue_view s ∧ bs_precomps (start_slot ts s) = bs_precomps (set_precomp_times ts s) ∧
  bs_scrambling_code (start_slot ts s) = bs_scrambling_code s.
Proof.
  intros Hs Hv. assert (sched_inv (if (tt_t ts =? 1)%Z && allow_mcch s then with_mcch_flag false s else s)) as Hs0
    by (destruct (_ && _); [destruct Hs; by constructor|done]).
  destruct (set_times_ok ts _ Hs0 Hv). split; [done|]. split; [done|]. unfold start_slot. by destruct (_ && _).
Qed.

Lemma end_of_tick s sl s1 s2 u ts bbk bits : ts = add_timeslots (cur_dltime s) 1 → aach_view s1 = aach_view s → queue_view s1 = queue_view s →
  progress (tt_t ts) s1 s2 → ul_inv u → clear_ul_schedule_for_tx_time ts (bs_ul s2) = Some u → ul_cur_dltime u = ul_cur_dltime (bs_ul s2) → complete sl → sl_ts sl = ts →
  sl_carrier_num sl = bs_carrier_num s1 → sl_bbk sl = Some bbk → holds (mac_block bbk) bits → bbk_content ts s2 bits →
  bs_precomps s2 = bs_precomps (set_precomp_times ts s) → announced (bs_scrambling_code s2) (bs_precomps s2) sl →
  bs_scrambling_code s2 = bs_scrambling_code s → ticked s sl (with_ul u s2).
Proof.
  intros Hts Hview Hqv Hp Hu Hclear Hcur Hcomp Hsl Hcn Hbbk Hholds Hcont Hpc Han Hcode.
  destruct (queue_view_eq _ _ Hqv) as (Htx & Hret & Hq). destruct (core_view _ _ (pr_core _ _ _ Hp)) as (Hv2 & Hul2 & _).
  assert (bs_ul s1 = bs_ul s ∧ bs_carrier_num s1 = bs_carrier_num s) as [Hul Hc] by (unfold aach_view in Hview; split; congruence).
  assert (queue_view (with_ul u s2) = queue_view s2) as Hqv2 by done. destruct (queue_view_eq _ _ Hqv2) as (Htx2 & Hret2 & Hq2).
  constructor.
  - destruct (pr_inv _ _ _ Hp). by constructor.
  - done.
  - rewrite Hsl. split; [done|]. unfold cur_dltime. cbn [with_ul bs_ul]. by rewrite Hcur, Hul2, Hul.
  - congruence.
  - unfold aach_view in *. unfold config, with_ul. cbn. congruence.
  - cbn. rewrite Hsl. congruence.
  - exists bbk, bits. split; [done|]. split; [done|]. rewrite Hsl. apply (bbk_content_view ts s s2); [congruence|done].
  - rewrite Hsl, <-Hcode. by split.
  - rewrite Htx2, Hret2. split; [rewrite (pr_count _ _ _ Hp); done|].
    destruct (pr_retired _ _ _ Hp) as (l & Hl & Hf). exists l. split; [congruence|done].
  - intros t Ht. rewrite Hsl in Ht. rewrite Hq2, (pr_others _ _ _ Hp) by done. apply Hq.
Qed.

Lemma finish_slot_ok emit ts s s1 : ts = add_timeslots (cur_dltime s) 1 → sched_inv s1 → timed_precomps ts (bs_precomps s1) →
  aach_view s1 = aach_view s → queue_view s1 = queue_view s → bs_precomps s1 = bs_precomps (set_precomp_times ts s) →
  bs_scrambling_code s1 = bs_scrambling_code s → ∃ sl s', finish_slot emit ts s1 = Some (sl, s') ∧ ticked s sl s' ∧
    (emit = true → tt_f ts = 18%Z → ∃ b, sl_blk1 sl = Some b ∧ logical_channel b = Bsch).
Proof.
  intros Ets Hs1 Htp Hview Hqv Hpre Hcd. assert (valid_time ts) as Hv by (rewrite Ets; apply add_valid). unfold finish_slot.
  destruct (build_slot_ok emit ts s1 Hs1 Hv) as (elem & s2 & -> & Hp & Hts & Hcn & Hnone & Hbuilt & H18). cbn [mbind option_bind].
  destruct (core_view _ _ (pr_core _ _ _ Hp)) as (Hview2 & Hul2 & Hpc & Hcd2). rewrite <-Hpc in Htp.
  destruct (complete_slot_ok emit ts elem s2 (pr_inv _ _ _ Hp) Htp Hv Hnone Hbuilt H18)
    as (sl & bbk & bits & Hcs & Hcomp & Hts' & Hcn' & Hbbk & Hholds & Hcont). rewrite Hcs. cbn [mbind option_bind].
  destruct (clear_ok ts (bs_ul s2) (iv_ul _ (pr_inv _ _ _ Hp))) as (u & Hclear & Hu & Hcur).
  { rewrite Ets, Hul2. unfold aach_view in Hview. unfold cur_dltime. congruence. }
  rewrite Hclear. cbn [mbind option_bind]. eexists sl, _. split; [reflexivity|].
  pose proof (announced_ok emit ts elem s2 sl Htp Hv Hbuilt Hcs) as Han.
  split; [|intros He H; apply (frame_18_sync emit ts elem s2 sl Htp Hv Hbuilt Hcs); auto].
  eapply (end_of_tick s sl s1 s2 u ts); try done; try congruence. apply Han. congruence.
Qed.

Lemma finalize_ok emit s : sched_inv s → ∃ sl s', finalize_ts_for_tick_inner emit s = Some (sl, s') ∧ ticked s sl s' ∧
  (emit = true → tt_f (add_timeslots (cur_dltime s) 1) = 18%Z → ∃ b, sl_blk1 sl = Some b ∧ logical_channel b = Bsch).
Proof.
  intros Hs. pose proof (add_valid (cur_dltime s) 1) as Hv. destruct (start_slot_ok _ s Hs Hv) as (H1 & H2 & H3 & H4 & H5 & H6).
  exact (finish_slot_ok emit _ s _ eq_refl H1 H2 H3 H4 H5 H6).
Qed.
