(* ===== verification/BsSchedRun.v ===== *)
(** The scheduler in use: the operations the UMAC calls, in any order and any
    number, never panic and keep the invariant; what the ticks in between send
    and what becomes of the receipts. *)
From S2P Require Import Prelude Bits Core BitBuffer BitBufferSpec BitCodec BitBufferThms.
From S2P Require Import FieldCodec PduCodec Arrays TdmaTime TxReceipt Fillbits MacDl MacDlSpec BsFragSpec.
From S2P Require Import Scrambler ErrorControlSpec UmacCircuitMgr MacBcast MacBcastSpec BsSchedUlSpec BsSched BsSchedSpec BsSchedSlot.

#[local] Opaque add_timeslots forward_to_timeslot slot_index.

(** * Hangtime *)

Lemma fragger_drop_ok f : frag_ok f → fragger_drop f = Some (discarded (bf_tx_reporter f)).
Proof.
  intros (_ & Hft & Hp). unfold fragger_drop. rewrite Hft. destruct (bf_tx_reporter f) as [r|] eqn:E; [|done].
  specialize (Hp r eq_refl). cbn [negb andb]. rewrite bool_decide_true by (unfold get_state; by rewrite Hp).
  unfold mark_discarded, mark. by rewrite Hp.
Qed.

(** What leaving hangtime does to an element that is not a stealing block. *)
Definition drop_receipts (e : DlSchedElem) : list TxReporter :=
  match e with
  | EResource _ _ tx => option_list (discarded tx)
  | EFragBuf f => option_list (discarded (bf_tx_reporter f))
  | _ => []
  end.
Definition drop_acks (e : DlSchedElem) : list Z := match e with ERandomAccessAck a => [ssi a] | _ => [] end.


Definition after_drop (t : Z) (acks : list Z) (rec : list TxReporter) (s : BsChannelScheduler) : BsChannelScheduler :=
  mkBs (bs_ul s) (bs_carrier_num s) (bs_downlink_mode s) (bs_scrambling_code s) (bs_precomps s)
    (bs_dltx_next_slot_queue s) (bs_dltx_queues s) (bs_circuits s) (bs_hangtime s)
    (alter (λ p, p ++ acks) (Z.to_nat (t - 1)) (bs_pending_ra_acks s))
    (bs_mcch_chan_alloc_sent_this_frame s) (bs_retired s ++ rec).

Lemma alter_nil i (l : list (list Z)) : alter (λ p, p ++ []) i l = l.
Proof.
  apply list_eq. intros j. destruct (decide (i = j)) as [->|Hne].
  - rewrite list_lookup_alter_eq. destruct (l !! j); cbn; by rewrite ?app_nil_r.
  - by rewrite list_lookup_alter_ne.
Qed.

Lemma after_drop_nil t s : after_drop t [] [] s = s.
Proof. unfold after_drop. rewrite alter_nil, app_nil_r. by destruct s. Qed.

Lemma after_drop_app t a1 r1 a2 r2 s : after_drop t a2 r2 (after_drop t a1 r1 s) = after_drop t (a1 ++ a2) (r1 ++ r2) s.
Proof.
  unfold after_drop. cbn. rewrite app_assoc. f_equal. apply list_eq. intros j.
  destruct (decide (Z.to_nat (t - 1) = j)) as [->|Hne].
  - rewrite !list_lookup_alter_eq. destruct (_ !! j); cbn; by rewrite ?app_assoc.
  - by rewrite !list_lookup_alter_ne.
Qed.

Lemma discard_ok t e s : (1 ≤ t ≤ 4)%Z → length (bs_pending_ra_acks s) = 4 → elem_ok e → is_stealing e = false →
  discard_elem t e s = Some (after_drop t (drop_acks e) (drop_receipts e) s).
Proof.
  intros Ht Hl He Hs. destruct (at_ts_ok t (bs_pending_ra_acks s) Ht Hl) as (p & Hp & Hlook).
  destruct e as [n|a|a g um|r sdu tx|f|b tx]; cbn [discard_elem drop_acks drop_receipts]; try done.
  - by rewrite after_drop_nil.
  - rewrite Hp. cbn [mbind option_bind]. unfold after_drop, with_pending_ra_acks, set_ts. rewrite app_nil_r. do 2 f_equal.
    apply list_eq. intros j. destruct (decide (Z.to_nat (t - 1) = j)) as [<-|Hne].
    + rewrite list_lookup_alter_eq, Hlook, list_lookup_insert_eq; [done|]. by eapply lookup_lt_Some.
    + by rewrite list_lookup_alter_ne, list_lookup_insert_ne.
  - by rewrite after_drop_nil.
  - destruct He as (_ & _ & _ & Hpend). destruct tx as [tx|]; [|by rewrite after_drop_nil].
    unfold mark_discarded, mark. rewrite (Hpend tx eq_refl), Z.eqb_refl. cbn [mbind option_bind].
    unfold after_drop, retire. by rewrite alter_nil.
  - rewrite fragger_drop_ok by done. cbn [mbind option_bind]. unfold after_drop, retire. by rewrite alter_nil.
Qed.

Lemma drop_loop_ok t q : (1 ≤ t ≤ 4)%Z → Forall elem_ok q → ∀ kept d s, length (bs_pending_ra_acks s) = 4 →
  let gone := filter (λ e, is_stealing e = false) q in
  drop_loop t q kept d s = Some (d || existsb (λ e, negb (is_stealing e)) q,
    set_queue t (kept ++ filter (λ e, is_stealing e = true) q)
      (after_drop t (gone ≫= drop_acks) (gone ≫= drop_receipts) s)).
Proof.
  intros Ht Hq. induction Hq as [|e q He Hq IH]; intros kept d s Hl; cbn [drop_loop existsb].
  { rewrite orb_false_r. change (filter (λ e, is_stealing e = true) []) with (@nil DlSchedElem). rewrite app_nil_r.
    change (Some (d, set_queue t kept s) = Some (d, set_queue t kept (after_drop t [] [] s))). by rewrite after_drop_nil. }
  cbv zeta in *. rewrite !filter_cons. destruct (is_stealing e) eqn:Es; cbn [negb orb].
  - rewrite IH by done. rewrite decide_True, decide_False by done. by rewrite <-app_assoc.
  - rewrite discard_ok by done. cbn [mbind option_bind]. rewrite IH by (cbn; by rewrite length_alter).
    rewrite after_drop_app, decide_False, decide_True by done. rewrite orb_true_r. done.
Qed.

Lemma drop_all_ok t s q : sched_inv s → (1 ≤ t ≤ 4)%Z → queue_of t s = Some q →
  let gone := filter (λ e, is_stealing e = false) q in
  let s' := set_queue t (filter (λ e, is_stealing e = true) q) (after_drop t (gone ≫= drop_acks) (gone ≫= drop_receipts) s) in
  dl_drop_all_except_stolen t s = Some (existsb (λ e, negb (is_stealing e)) q, s') ∧ sched_inv s'.
Proof.
  intros Hs Ht Hq gone s'. destruct (queue_of_ok t s Hs Ht) as (q0 & Hq0 & Hall). rewrite Hq in Hq0. injection Hq0 as <-.
  split.
  - unfold dl_drop_all_except_stolen. rewrite Hq. cbn [mbind option_bind]. rewrite drop_loop_ok; [done..|apply Hs].
  - apply set_queue_inv; [|by apply Forall_filtered]. destruct Hs. constructor; try done. cbn. by rewrite length_alter.
Qed.

Lemma drop_receipts_discarded l : Forall (λ r, tx_state r = tx_raw Discarded) (l ≫= drop_receipts).
Proof.
  induction l as [|e l IH]; [constructor|]. rewrite bind_cons. apply Forall_app. split; [|done].
  destruct e as [| | |r sdu tx|f|]; cbn; try (by constructor); [destruct tx|destruct (bf_tx_reporter f)]; by constructor.
Qed.

Lemma drop_receipts_final l : Forall tx_final (l ≫= drop_receipts).
Proof. eapply Forall_impl; [apply drop_receipts_discarded|]. intros r Hr. by right. Qed.

Lemma elems_tx_split q : length (elems_tx q) =
  length (elems_tx (filter (λ e, is_stealing e = false) q)) + length (elems_tx (filter (λ e, is_stealing e = true) q)).
Proof.
  induction q as [|e q IH]; [done|]. rewrite !filter_cons. change (elems_tx (e :: q)) with (elem_tx e ++ elems_tx q). rewrite length_app.
  destruct (is_stealing e); [rewrite decide_False, decide_True by done|rewrite decide_True, decide_False by done];
    change (elems_tx (e :: ?l)) with (elem_tx e ++ elems_tx l); rewrite length_app; lia.
Qed.

Lemma drop_receipts_length q : length (filter (λ e, is_stealing e = false) q ≫= drop_receipts) +
  length (elems_tx (filter (λ e, is_stealing e = true) q)) = length (elems_tx q).
Proof.
  induction q as [|e q IH]; [done|]. rewrite !filter_cons. change (elems_tx (e :: q)) with (elem_tx e ++ elems_tx q).
  destruct (is_stealing e) eqn:Es.
  - rewrite decide_False, decide_True by done. change (elems_tx (e :: ?l)) with (elem_tx e ++ elems_tx l).
    rewrite !length_app. lia.
  - rewrite decide_True, decide_False by done. rewrite bind_cons, !length_app.
    assert (length (drop_receipts e) = length (elem_tx e)) as -> by (destruct e as [| | |r sdu []|f|]; try done; cbn; by destruct (bf_tx_reporter f)).
    lia.
Qed.

(** * Operations *)

(** The calls the UMAC makes; a granted capacity request is queued as a slot grant. *)
Inductive sched_op : Type :=
| OpTick
| OpFinalize (emit : bool)
| OpCapReq (t : Z) (addr : TetraAddress) (req : ReservationRequirement)
| OpAck (t : Z) (addr : TetraAddress)
| OpTma (link_id : Z) (pdu : MacResource) (sdu : BitBuffer) (tx : option TxReporter)
| OpTmaNextFrame (pdu : MacResource) (sdu : BitBuffer) (tx : option TxReporter)
| OpStealing (t : Z) (block : BitBuffer) (tx : option TxReporter)
| OpHangtime (t : Z) (active : bool)
| OpTakeAck (t ssi : Z)
| OpCreate (dir : Direction) (c : Circuit)
| OpClose (dir : Direction) (t : Z)
| OpVoice (t : Z) (block : list Z)
| OpServices (enabled : bool)
| OpMode (carrier : Z) (m : CarrierDownlinkMode)
| OpSetTime (ts : TdmaTime).

Definition cap_req (t : Z) (addr : TetraAddress) (req : ReservationRequirement) (s : BsChannelScheduler) : option BsChannelScheduler :=
  '(res, ul) ← ul_process_cap_req t addr req (bs_ul s);
  match res with
  | Some (grant, um) => dl_enqueue_grant t addr grant um (with_ul ul s)
  | None => Some (with_ul ul s)
  end.

Definition sched_exec (op : sched_op) (s : BsChannelScheduler) : option BsChannelScheduler :=
  match op with
  | OpTick => sched_tick_start (add_timeslots (cur_dltime s) 1) s
  | OpFinalize emit => snd <$> finalize_ts_for_tick_inner emit s
  | OpCapReq t addr req => cap_req t addr req s
  | OpAck t addr => dl_enqueue_random_access_ack t addr s
  | OpTma link_id pdu sdu tx => dl_enqueue_tma_for_link link_id pdu sdu tx s
  | OpTmaNextFrame pdu sdu tx => Some (dl_enqueue_tma_next_frame pdu sdu tx s)
  | OpStealing t block tx => dl_enqueue_stealing t block tx s
  | OpHangtime t active => set_hangtime t active s
  | OpTakeAck t ssi => snd <$> take_pending_ra_ack t ssi s
  | OpCreate dir c => Some (bs_create_circuit dir c s)
  | OpClose dir t => Some (snd (bs_close_circuit dir t s))
  | OpVoice t block => Some (dl_schedule_tmd t block s)
  | OpServices enabled => Some (set_system_wide_services_state enabled s)
  | OpMode carrier m => Some (set_downlink_mode m (set_carrier_num carrier s))
  | OpSetTime ts => set_dl_time ts s
  end.

Fixpoint sched_run (ops : list sched_op) (s : BsChannelScheduler) : option BsChannelScheduler :=
  match ops with [] => Some s | op :: ops => s ← sched_exec op s; sched_run ops s end.

(** What the callers guarantee: timeslots 1 to 4, messages that fit their headers, fresh receipts. *)
Definition op_ok (op : sched_op) : Prop :=
  match op with
  | OpCapReq t addr _ | OpAck t addr => (1 ≤ t ≤ 4)%Z ∧ addr_ok addr
  | OpTma _ pdu sdu tx | OpTmaNextFrame pdu sdu tx => elem_ok (EResource pdu sdu tx)
  | OpStealing t block tx => (1 ≤ t ≤ 4)%Z ∧ elem_ok (EStealing block tx)
  | OpTakeAck t _ => (1 ≤ t ≤ 4)%Z
  | OpCreate _ c => (4 ≤ c_usage c < 64)%Z
  | OpVoice _ block => Forall (is_u 8) block ∧ length block ≤ 4096
  | OpSetTime ts => valid_time ts
  | _ => True
  end.

(** The receipt that is handed over. *)
Definition op_tx (op : sched_op) : list TxReporter :=
  match op with OpTma _ _ _ tx | OpTmaNextFrame _ _ tx | OpStealing _ _ tx => option_list tx | _ => [] end.

(** An operation for which every receipt that is let go was reported before. *)
Definition op_reports (op : sched_op) : bool :=
  match op with OpMode _ _ | OpSetTime _ => false | _ => true end.

(** What an operation does to the uplink schedule. *)
Definition ul_ops (op : sched_op) : list ul_op :=
  match op with
  | OpTick => [UlTick] | OpFinalize _ => [UlFinalize] | OpCapReq t addr req => [UlCapReq t addr req]
  | _ => []
  end.

(** The cell the precomputed PDUs announce: all of them but the time and the flag for system-wide services. *)
Definition cell_of (p : PrecomputedUmacPdus) : PrecomputedUmacPdus :=
  let m := pc_mle_sysinfo p in
  let d := dmi_bs_service_details m in
  mkPrecomps (set_hyperframe 0 (pc_mac_sysinfo1 p)) (set_hyperframe 0 (pc_mac_sysinfo2 p))
    (mkDMleSysinfo (dmi_location_area m) (dmi_subscriber_class m)
      (mkBsServiceDetails (bsd_registration d) (bsd_deregistration d) (bsd_priority_cell d)
        (bsd_no_minimum_mode d) (bsd_migration d) false (bsd_voice_service d) (bsd_circuit_mode_data_service d)
        (bsd_sndcp_service d) (bsd_aie_service d) (bsd_advanced_link d)))
    (set_sync_time tdma_default (pc_mac_sync p)) (pc_mle_sync p).
Definition cell (s : BsChannelScheduler) : Z * PrecomputedUmacPdus := (bs_scrambling_code s, cell_of (bs_precomps s)).

(** A step keeps the invariant, and every receipt is accounted for; what it lets
    go on the main carrier was reported. *)
Record stepped (op : sched_op) (s s' : BsChannelScheduler) : Prop := {
  sp_inv : sched_inv s';
  sp_count : tx_total s' = tx_total s + length (op_tx op);
  sp_retired : ∃ l, bs_retired s' = bs_retired s ++ l ∧ (op_reports op = true → allow_mcch s = true → Forall tx_final l);
  sp_mode : op_reports op = true → allow_mcch s' = allow_mcch s;
  sp_cell : cell s' = cell s;
  sp_ul : op_reports op = true → ul_run (ul_ops op) (bs_ul s) = Some (bs_ul s')
}.

(** Most operations neither queue nor drop a receipt. *)
Lemma stepped_quiet op s s' : sched_inv s' → op_tx op = [] → queue_view s' = queue_view s → allow_mcch s' = allow_mcch s →
  cell s' = cell s → ul_run (ul_ops op) (bs_ul s) = Some (bs_ul s') → stepped op s s'.
Proof.
  intros Hi Htx Hq Hm Hc Hu. destruct (queue_view_eq _ _ Hq) as (Ht & Hr & _). constructor; [done|rewrite Ht, Htx; cbn; lia| |done..].
  exists []. by rewrite app_nil_r.
Qed.

Lemma stepped_push op t e s : sched_inv s → (1 ≤ t ≤ 4)%Z → elem_ok e → op_tx op = elem_tx e → ul_ops op = [] →
  ∃ s', push_queue t e s = Some s' ∧ stepped op s s'.
Proof.
  intros Hs Ht He Htx Hul. destruct (push_queue_ok t e s Hs Ht He) as (q & Hq & -> & Hs'). eexists. split; [done|].
  constructor; [done| |exists []; by rewrite app_nil_r|done..|by rewrite Hul].
  pose proof (tx_total_set t q (q ++ [e]) s Hs Ht Hq) as Htot. rewrite elems_tx_app, length_app in Htot. rewrite Htx.
  change (elems_tx [e]) with (elem_tx e ++ []) in Htot. rewrite app_nil_r in Htot. lia.
Qed.

Lemma stepped_next op e s : sched_inv s → elem_ok e → op_tx op = elem_tx e → ul_ops op = [] →
  stepped op s (with_next_slot_queue (bs_dltx_next_slot_queue s ++ [e]) s).
Proof.
  intros Hs He Htx Hul. constructor; [| |exists []; by rewrite app_nil_r|done..|by rewrite Hul].
  - apply next_slot_inv; [done|]. apply Forall_app. split; [apply Hs|by constructor].
  - unfold tx_total. cbn [bs_dltx_queues bs_dltx_next_slot_queue bs_retired with_next_slot_queue]. rewrite elems_tx_app, length_app, Htx.
    change (elems_tx [e]) with (elem_tx e ++ []). rewrite app_nil_r. lia.
Qed.

Lemma identify_cases addr link_id s : ∃ t, identify_timeslots_for_ssi addr link_id s = [t; 0; 0; 0]%Z ∧ (0 ≤ t ≤ 4)%Z ∧
  (allow_mcch s = true → is_Some addr → t ≠ 0%Z).
Proof.
  assert (∀ b x : Z, (0 ≤ x ≤ 4)%Z → (0 ≤ b ≤ 4)%Z → (allow_mcch s = true → x ≠ 0%Z) → ∃ t,
    (if allow_mcch s then [x; 0; 0; 0]%Z else [b; 0; 0; 0]%Z) = [t; 0; 0; 0]%Z ∧ (0 ≤ t ≤ 4)%Z ∧
    (allow_mcch s = true → is_Some addr → t ≠ 0%Z)) as Hif.
  { intros b x Hx Hb Hxz. destruct (allow_mcch s); [exists x|exists b]; auto. }
  unfold identify_timeslots_for_ssi, NUM_TIMESLOTS. destruct addr as [a|].
  2: { exists 0%Z. split; [done|]. split; [lia|]. by intros _ [? ?]. }
  destruct (_ || _); [apply Hif; lia|]. destruct (255 <? link_id)%Z; [apply Hif; lia|]. cbv zeta.
  destruct (Z.leb_spec 1 link_id), (Z.leb_spec link_id (Z.of_nat 4)); cbn [andb negb]; try (apply Hif; lia).
  destruct (is_active _ _ _ _); [apply Hif; lia|].
  destruct (negb (allow_mcch s) && (link_id =? 1)%Z) eqn:E.
  - apply andb_true_iff in E as [E _]. exists 0%Z. split; [done|]. split; [lia|]. by destruct (allow_mcch s).
  - exists link_id. split; [done|]. split; [lia|]. lia.
Qed.

Lemma tma_ok link_id pdu sdu tx s : sched_inv s → elem_ok (EResource pdu sdu tx) →
  ∃ s', dl_enqueue_tma_for_link link_id pdu sdu tx s = Some s' ∧ stepped (OpTma link_id pdu sdu tx) s s'.
Proof.
  intros Hs He. unfold dl_enqueue_tma_for_link, dl_enqueue_tma_on_timeslots.
  destruct (identify_cases (mr_addr pdu) link_id s) as (t & -> & Ht & Hnz). cbn [enqueue_loop].
  destruct (Z.eqb_spec t 0) as [->|Hne].
  { eexists. split; [done|]. constructor; [by apply retire_inv|unfold tx_total; fields_cbn; rewrite length_app; cbn [op_tx]; lia| |done..].
    exists (option_list tx). split; [done|]. intros _ Hm. destruct He as (Hr & _). apply res_ok_plain in Hr as (a & Ha & _).
    destruct (Hnz Hm); eauto. }
  cbn [head default]. destruct (_ && _ && _); [destruct (bs_mcch_chan_alloc_sent_this_frame s)|].
  - eexists. split; [done|]. by apply stepped_next.
  - rewrite Z.ltb_irrefl. destruct (stepped_push (OpTma link_id pdu sdu tx) t (EResource pdu sdu tx) (with_mcch_flag true s)) as (s' & Hp & Hst);
      [by destruct Hs; constructor|lia|done..|]. exists s'. split; [done|]. by destruct Hst.
  - rewrite Z.ltb_irrefl. by apply stepped_push; [|lia|..].
Qed.

Lemma ignores_or_push op t e s : sched_inv s → (1 ≤ t ≤ 4)%Z → elem_ok e → op_tx op = [] → elem_tx e = [] → ul_ops op = [] →
  ∃ s', (if ignores_ts1 t s then Some s else push_queue t e s) = Some s' ∧ stepped op s s'.
Proof.
  intros Hs Ht He Ho Hx Hul. destruct (ignores_ts1 t s); [|apply stepped_push; congruence]. exists s. split; [done|].
  apply stepped_quiet; try done. by rewrite Hul.
Qed.

Lemma cap_req_step t addr req s : sched_inv s → (1 ≤ t ≤ 4)%Z → addr_ok addr →
  ∃ s', cap_req t addr req s = Some s' ∧ stepped (OpCapReq t addr req) s s'.
Proof.
  intros Hs Ht Ha. unfold cap_req. destruct (cap_req_ok t addr req (bs_ul s) (iv_ul _ Hs) Ht) as (res & u & Hreq & Hu & Hout).
  rewrite Hreq. cbn [mbind option_bind].
  assert (ul_run (ul_ops (OpCapReq t addr req)) (bs_ul s) = Some u) as Hrun by (cbn [ul_ops ul_run ul_exec]; by rewrite Hreq). assert (sched_inv (with_ul u s)) as Hs1 by (destruct Hs; by constructor).
  destruct res as [[g um]|]; [|eexists; split; [done|]; by apply stepped_quiet].
  destruct Hout as [k Hg]. pose proof (gr_delay _ _ _ _ _ _ _ _ Hg) as [Hk Hd]. pose proof (gr_marker _ _ _ _ _ _ _ _ Hg) as Hm.
  destruct (ignores_or_push (OpAck t addr) t (EGrant addr g um) (with_ul u s)) as (s' & Hp & Hst); try done.
  - split; [done|]. split.
    + unfold slotgrant_valid. rewrite Hd. destruct (decide (k = 0)); [done|lia].
    + intros m ->. destruct (decide (2 ≤ slots_wanted req)); [destruct Hm as (? & [= <-] & ?)|done]. unfold is_u. lia.
  - exists s'. split; [done|]. destruct Hst as [H1 H2 H3 H4 H5 H6]. constructor; try done. intros _. rewrite Hrun. by apply H6.
Qed.

Lemma stepped_finalize emit s : sched_inv s → ∃ s', snd <$> finalize_ts_for_tick_inner emit s = Some s' ∧ stepped (OpFinalize emit) s s'.
Proof.
  intros Hs. destruct (finalize_ok emit s Hs) as (sl & s' & -> & Hk & _). exists s'. split; [done|].
  destruct (tk_receipts _ _ _ Hk) as (Htot & l & Hl & Hfin). constructor; [apply Hk|rewrite Htot; cbn; lia|by exists l| | |].
  - pose proof (tk_config _ _ _ Hk) as Hc. intros _. unfold config in Hc. unfold allow_mcch. congruence.
  - destruct (tk_precomps _ _ _ Hk) as (Hpc & _ & Hcd). unfold cell. by rewrite Hpc, Hcd.
  - intros _. cbn [ul_ops ul_run ul_exec]. change (ul_cur_dltime (bs_ul s)) with (cur_dltime s).
    destruct (tk_time _ _ _ Hk) as [<- _]. by rewrite (tk_ul _ _ _ Hk).
Qed.

Lemma hangtime_step t a s : sched_inv s → ∃ s', set_hangtime t a s = Some s' ∧ stepped (OpHangtime t a) s s'.
Proof.
  intros Hs. unfold set_hangtime, ts_1_4. destruct (Z.leb_spec 1 t), (Z.leb_spec t 4); cbn [andb negb];
    try (exists s; split; [done|]; by apply stepped_quiet).
  cbv zeta. assert (sched_inv (with_hangtime (set_ts t a (bs_hangtime s)) s)) as Hs1.
  { destruct Hs. constructor; try done. cbn. unfold set_ts. by rewrite length_insert. }
  destruct a; [eexists; split; [done|]; by apply stepped_quiet|]. destruct (queue_of_ok t _ Hs1 ltac:(lia)) as (q & Hq & _).
  destruct (drop_all_ok t _ q Hs1 ltac:(lia) Hq) as [-> Hs2]. eexists. split; [done|]. cbn [snd] in *.
  constructor; [done| |by eexists; split; [|intros _ _; apply drop_receipts_final]|done..].
  pose proof (elems_tx_set t q (filter (λ e, is_stealing e = true) q) s Hs ltac:(lia) Hq).
  pose proof (drop_receipts_length q). unfold tx_total. cbn [set_queue with_queues after_drop bs_dltx_queues bs_dltx_next_slot_queue bs_retired with_hangtime op_tx].
  rewrite length_app. cbn. lia.
Qed.

(** * Purging *)

Lemma drop_elems_ok l : Forall elem_ok l → ∀ s, ∃ rec, drop_elems l s =
  Some (mkBs (bs_ul s) (bs_carrier_num s) (bs_downlink_mode s) (bs_scrambling_code s) (bs_precomps s)
    (bs_dltx_next_slot_queue s) (bs_dltx_queues s) (bs_circuits s) (bs_hangtime s) (bs_pending_ra_acks s)
    (bs_mcch_chan_alloc_sent_this_frame s) (bs_retired s ++ rec)) ∧ length rec = length (elems_tx l).
Proof.
  induction 1 as [|e l He Hl IH]; intros s; cbn [drop_elems]; [exists []; rewrite app_nil_r; by destruct s|].
  change (elems_tx (e :: l)) with (elem_tx e ++ elems_tx l). rewrite length_app.
  assert (∃ tx, drop_elem e s = Some (retire tx s) ∧ length (option_list tx) = length (elem_tx e)) as (tx & -> & Hlen).
  { assert (retire None s = s) as Hnone by (unfold retire; cbn; rewrite app_nil_r; by destruct s).
    destruct e as [| | |r sdu tx|f|b tx]; cbn [drop_elem elem_tx]; try (exists None; by rewrite Hnone); try by eexists.
    rewrite fragger_drop_ok by done. eexists. split; [done|]. by destruct (bf_tx_reporter f). }
  cbn [mbind option_bind]. destruct (IH (retire tx s)) as (rec & -> & Hrec). exists (option_list tx ++ rec).
  split; [unfold retire; cbn; by rewrite app_assoc|rewrite length_app; lia].
Qed.

Lemma set_dl_time_step ts s : sched_inv s → valid_time ts → ∃ s', set_dl_time ts s = Some s' ∧ stepped (OpSetTime ts) s s'.
Proof.
  intros Hs Hts. unfold set_dl_time, purge_schedule. cbv zeta. cbn [bs_dltx_queues with_ul].
  assert (Forall elem_ok (mjoin (bs_dltx_queues s))) as Hall by (apply Forall_join, Hs).
  destruct (drop_elems_ok _ Hall (with_ul (mkUl ts (ul_ulsched (bs_ul s)) (ul_next_usage_marker (bs_ul s))) s)) as (rec & -> & Hlen).
  cbn [mbind option_bind]. eexists. split; [done|].
  assert (ul_inv (ul_set_dl_time ts (bs_ul s))) as Hu by (apply ul_set_dl_time_inv; [done|apply Hs..]).
  constructor.
  - destruct Hs. constructor; try done. by repeat constructor.
  - unfold tx_total. cbn [with_ul with_queues bs_dltx_queues bs_dltx_next_slot_queue bs_retired op_tx]. rewrite length_app. cbn. lia.
  - eexists. split; [done|]. done.
  - done.
  - done.
  - done.
Qed.

(** * Circuits *)

Lemma circuits_ok_sub c c' : circuits_ok c → cm_dl c' ⊆ cm_dl c → cm_ul c' ⊆ cm_ul c → cm_tx_data c' ⊆ cm_tx_data c → circuits_ok c'.
Proof.
  intros Hc H1 H2 H3. constructor; intros k x Hk; [eapply (co_dl _ Hc)|eapply (co_ul _ Hc)|eapply (co_blocks _ Hc)];
    (eapply lookup_weaken; [exact Hk|done]).
Qed.

Lemma close_circuit_ok dir cn t c : circuits_ok c → circuits_ok (snd (close_circuit dir cn t c)).
Proof. intros Hc. apply (circuits_ok_sub c); [done|..]; destruct dir; cbn; try done; apply delete_subseteq. Qed.

Lemma create_circuit_ok dir x c : circuits_ok c → (4 ≤ c_usage x < 64)%Z → circuits_ok (create_circuit dir x c).
Proof.
  intros Hc Hx. unfold create_circuit. cbv zeta.
  assert (circuits_ok (if is_active dir (c_carrier_num x) (c_ts x) c then snd (close_circuit dir (c_carrier_num x) (c_ts x) c) else c)) as Hc1
    by (destruct (is_active _ _ _ _); [by apply close_circuit_ok|done]).
  revert Hc1. generalize (if is_active dir (c_carrier_num x) (c_ts x) c then snd (close_circuit dir (c_carrier_num x) (c_ts x) c) else c).
  intros c1 [H1 H2 H3]. destruct dir; try done; constructor; cbn; try done.
  - intros k y [[<- <-]|[_ Hy]]%lookup_insert_Some; [done|by eapply H2].
  - intros k y [[<- <-]|[_ Hy]]%lookup_insert_Some; [done|by eapply H1].
  - intros k q Hq. destruct (cm_tx_data c1 !! _) as [q'|]; [destruct (is_empty q')|]; try by eapply H3.
    apply lookup_delete_Some in Hq as [_ Hq]. by eapply H3.
Qed.

Lemma sched_put_block_ok cn t b c : circuits_ok c → Forall (is_u 8) b → length b ≤ 4096 → circuits_ok (put_block cn t b c).
Proof.
  intros [H1 H2 H3] Hb Hl. unfold put_block. destruct (negb _); [done|]. cbv zeta.
  set (queue := default [] (cm_tx_data c !! (cn, t)) ++ [b]).
  assert (Forall (λ b, Forall (is_u 8) b ∧ length b ≤ 4096) queue) as Hq.
  { apply Forall_app. split; [|apply Forall_cons; by split].
    destruct (cm_tx_data c !! (cn, t)) eqn:E; [by eapply H3|by constructor]. }
  destruct (_ =? 0); constructor; cbn; try done; intros k q [[_ <-]|[_ Hk]]%lookup_insert_Some; try done; try by eapply H3.
  by apply Forall_drop.
Qed.

Lemma with_circuits_inv c s : sched_inv s → circuits_ok c → sched_inv (with_circuits c s).
Proof. intros [] Hc. by constructor. Qed.

Lemma clear_hangtime_inv t s : sched_inv s → sched_inv (clear_hangtime t s) ∧ queue_view (clear_hangtime t s) = queue_view s ∧
  bs_downlink_mode (clear_hangtime t s) = bs_downlink_mode s ∧
  (cell (clear_hangtime t s) = cell s ∧ bs_ul (clear_hangtime t s) = bs_ul s) ∧ bs_circuits (clear_hangtime t s) = bs_circuits s.
Proof.
  intros Hs. unfold clear_hangtime. destruct (ts_1_4 t); [|done]. split_and!; try done. destruct Hs; constructor; try done.
  cbn. unfold set_ts. by rewrite length_insert.
Qed.

Lemma services_inv e s : sched_inv s → sched_inv (set_system_wide_services_state e s).
Proof.
  intros Hs. unfold set_system_wide_services_state. cbv zeta. destruct (bool_decide _); [done|]. pose proof (iv_precomps _ Hs) as [].
  destruct Hs; constructor; try done.
Qed.

(** * Runs *)

Lemma sched_exec_ok op s : sched_inv s → op_ok op → ∃ s', sched_exec op s = Some s' ∧ stepped op s s'.
Proof.
  intros Hs Hop. destruct op as [|emit|t a req|t a|l p sdu tx|p sdu tx|t b tx|t a|t x|dir c|dir t|t b|e|cn m|ts]; cbn [sched_exec op_ok] in *.
  - unfold sched_tick_start. change (cur_dltime s) with (ul_cur_dltime (bs_ul s)).
    destruct (slot_at_Some (add_timeslots (cur_dltime s) 0) _ (add_valid _ _) (ui_shape _ (iv_ul _ Hs))) as [e He].
    destruct (ul_exec_ok UlTick (bs_ul s) _ e 0 (iv_ul _ Hs) I eq_refl ltac:(lia) He) as (u & _ & Hu & Hinv & _).
    cbn [ul_exec] in Hu. rewrite Hu. cbn [mbind option_bind]. eexists. split; [done|].
    apply stepped_quiet; try done; [by destruct Hs|]. cbn [ul_ops ul_run ul_exec]. by rewrite Hu.
  - by apply stepped_finalize.
  - destruct Hop. by apply cap_req_step.
  - destruct Hop. unfold dl_enqueue_random_access_ack. by apply ignores_or_push.
  - by apply tma_ok.
  - eexists. split; [done|]. by apply stepped_next.
  - destruct Hop. unfold dl_enqueue_stealing. by apply stepped_push.
  - by apply hangtime_step.
  - unfold take_pending_ra_ack. destruct (at_ts_ok t _ Hop (iv_pending _ Hs)) as (q & -> & _). cbn [mbind option_bind].
    destruct (remove_first _ _) as [[y q']|]; (eexists; split; [done|]); apply stepped_quiet; try done.
    destruct Hs; constructor; try done. cbn. unfold set_ts. by rewrite length_insert.
  - eexists. split; [done|]. unfold bs_create_circuit. destruct (negb _); [by apply stepped_quiet|]. cbv zeta.
    destruct (clear_hangtime_inv (c_ts c) s Hs) as (H1 & H2 & H3 & [Hcell Hul] & H4). apply stepped_quiet; try done.
    + apply with_circuits_inv; [done|]. apply create_circuit_ok; [apply H1|done].
    + unfold allow_mcch. cbn. by rewrite H3.
    + cbn. by rewrite Hul.
  - eexists. split; [done|]. unfold bs_close_circuit. destruct (clear_hangtime_inv t s Hs) as (H1 & H2 & H3 & [Hcell Hul] & H4).
    pose proof (close_circuit_ok dir (bs_carrier_num (clear_hangtime t s)) t _ (iv_circuits _ H1)) as Hc.
    destruct (close_circuit _ _ _ _) as [x c]. cbn [snd] in *. apply stepped_quiet; try done; [by apply with_circuits_inv| |cbn; by rewrite Hul].
    unfold allow_mcch. cbn. by rewrite H3.
  - eexists. split; [done|]. apply stepped_quiet; try done. apply with_circuits_inv; [done|]. destruct Hop. apply sched_put_block_ok; [apply Hs|done..].
  - eexists. split; [done|]. pose proof (services_inv e s Hs). apply stepped_quiet; try done;
      unfold set_system_wide_services_state; cbv zeta; by destruct (bool_decide _).
  - eexists. split; [done|]. destruct Hs. constructor; [by constructor|change (tx_total s = tx_total s + 0); lia| |done..]. exists []. by rewrite app_nil_r.
  - by apply set_dl_time_step.
Qed.

(** The scheduler once it got its first time. *)
Definition bs_start (code : Z) (p : PrecomputedUmacPdus) (x : TdmaTime) : option BsChannelScheduler := set_dl_time x (sched_new code p).

Lemma bs_start_ok code p x : precomps_ok p → valid_time x → ∃ s, bs_start code p x = Some s ∧ sched_inv s ∧
  bs_downlink_mode s = PrimaryMcch ∧ tx_total s = 0 ∧ bs_retired s = [] ∧ cur_dltime s = x.
Proof.
  intros Hp Hx. eexists. split; [reflexivity|]. split_and!; try done. constructor; cbn [with_ul with_queues bs_ul sched_new ul_purge_schedule
    bs_dltx_queues bs_dltx_next_slot_queue bs_hangtime bs_pending_ra_acks bs_precomps bs_circuits]; try done; try (by repeat constructor).
  by apply ul_start_inv.
Qed.

(** What a run leaves behind: the receipts it was handed are queued or let go, on
    the main carrier those let go were reported. *)
Definition handed (ops : list sched_op) : list TxReporter := ops ≫= op_tx.

Lemma sched_run_ok ops : Forall op_ok ops → ∀ s, sched_inv s → ∃ s', sched_run ops s = Some s' ∧ sched_inv s' ∧ cell s' = cell s ∧
  tx_total s' = tx_total s + length (handed ops) ∧ ∃ l, bs_retired s' = bs_retired s ++ l ∧
  (Forall (λ op, op_reports op = true) ops → allow_mcch s = true → Forall tx_final l ∧ allow_mcch s' = true).
Proof.
  induction 1 as [|op ops Hop Hops IH]; intros s Hs; cbn [sched_run].
  { exists s. split; [done|]. split; [done|]. split; [done|]. split; [cbn; lia|]. exists []. by rewrite app_nil_r. }
  destruct (sched_exec_ok op s Hs Hop) as (s1 & -> & [Hs1 Hc1 (l1 & Hl1 & Hf1) Hm1 He1]). cbn [mbind option_bind].
  destruct (IH s1 Hs1) as (s2 & -> & Hs2 & He2 & Hc2 & l2 & Hl2 & Hf2).
  exists s2. split; [done|]. split; [done|]. split; [congruence|].
  unfold handed in *. rewrite bind_cons, length_app. split; [lia|]. exists (l1 ++ l2). rewrite Hl2, Hl1, app_assoc. split; [done|].
  intros [Hr Hrs]%Forall_cons Hm. specialize (Hm1 Hr). destruct Hf2 as [Hf2 Hm2]; [done|congruence|]. split; [|done].
  apply Forall_app. auto.
Qed.
