(* ===== verification/UmacCell.v ===== *)
(** The cell a base station announces: the broadcast PDUs the UMAC derives from
    the configuration (tetra-entities/src/umac/umac_bs.rs, [generate_precomps])
    and what a terminal that finds the carrier reads from the slots of the
    scheduler.

    [CfgCellInfo], [CfgNetInfo] and [UmacConfig] have the fields of the shared
    configuration that the UMAC reads; [uc_brew] says whether a Brew section is
    present, [uc_asterisk_enabled] is its section's flag and [uc_network_connected]
    that of the shared state. *)
From S2P Require Import Prelude Bits Core BitBuffer BitBufferSpec BitCodec BitBufferThms.
From S2P Require Import FieldCodec PduCodec Arrays TdmaTime Freqs TxReceipt MacDl MacDlSpec.
From S2P Require Import Scrambler ErrorControlSpec UmacCircuitMgr MacBcast MacBcastSpec BsSchedUlSpec BsSched BsSchedSpec BsSchedSlot BsSchedRun.

#[local] Opaque add_timeslots forward_to_timeslot slot_index.

(** * Configuration *)

Record CfgNetInfo : Type := mkCfgNet { cn_mcc : Z; cn_mnc : Z }.

Record CfgCellInfo : Type := mkCfgCell {
  cc_late_entry_supported : bool;
  cc_main_carrier : Z;
  cc_secondary_carrier : option Z;
  cc_freq_band : Z;
  cc_freq_offset_hz : Z;
  cc_duplex_spacing_id : Z;
  cc_reverse_operation : bool;
  cc_location_area : Z;
  cc_subscriber_class : Z;
  cc_registration : bool;
  cc_deregistration : bool;
  cc_priority_cell : bool;
  cc_no_minimum_mode : bool;
  cc_migration : bool;
  cc_system_wide_services : bool;
  cc_voice_service : bool;
  cc_circuit_mode_data_service : bool;
  cc_sndcp_service : bool;
  cc_aie_service : bool;
  cc_advanced_link : bool;
  cc_system_code : Z;
  cc_colour_code : Z;
  cc_sharing_mode : Z;
  cc_ts_reserved_frames : Z;
  cc_u_plane_dtx : bool;
  cc_frame_18_ext : bool;
  cc_ms_txpwr_max_cell : Z;
  cc_ul_inactivity_secs : Z
}.

Record UmacConfig : Type := mkUmacConfig {
  uc_net : CfgNetInfo;
  uc_cell : CfgCellInfo;
  uc_brew : bool;
  uc_network_connected : bool;
  uc_asterisk_enabled : bool
}.

(** * Precomputed PDUs *)

Definition get_system_wide_services_state (c : UmacConfig) : bool :=
  if uc_brew c then uc_network_connected c else cc_system_wide_services (uc_cell c).

Definition precomp_ext_services : SysinfoExtendedServices :=
  mkExtServices false true true false (Some 0%Z) None None None None 2 false 0 0.

Definition precomp_def_access : SysinfoDefaultDefForAccessCodeA := mkAccessCodeA 8 5 5 false 0 0.

(** The SYSINFO PDUs, which differ in the optional field; an offset that has no identifier panics. *)
Definition precomp_sysinfo (c : CfgCellInfo) (freq_offset_index : Z) (option_field : SysinfoOptFieldFlag)
    (default_access_code : option SysinfoDefaultDefForAccessCodeA) (ext_services : option SysinfoExtendedServices) : MacSysinfo :=
  mkMacSysinfo (cc_main_carrier c) (cc_freq_band c) freq_offset_index (cc_duplex_spacing_id c) (cc_reverse_operation c)
    0 (cc_ms_txpwr_max_cell c) 3 7 3 None (Some 0%Z) option_field None default_access_code ext_services.

Definition precomp_mle_sysinfo (c : CfgCellInfo) (system_wide_services : bool) : DMleSysinfo :=
  mkDMleSysinfo (cc_location_area c) (cc_subscriber_class c)
    (mkBsServiceDetails (cc_registration c) (cc_deregistration c) (cc_priority_cell c) (cc_no_minimum_mode c)
      (cc_migration c) system_wide_services (cc_voice_service c) (cc_circuit_mode_data_service c)
      (cc_sndcp_service c) (cc_aie_service c) (cc_advanced_link c)).

Definition precomp_mac_sync (c : CfgCellInfo) : MacSync :=
  mkMacSync (cc_system_code c) (cc_colour_code c) tdma_default (cc_sharing_mode c) (cc_ts_reserved_frames c)
    (cc_u_plane_dtx c) (cc_frame_18_ext c).

Definition precomp_mle_sync (net : CfgNetInfo) (c : CfgCellInfo) : DMleSync :=
  mkDMleSync (cn_mcc net) (cn_mnc net) 2 0 (cc_late_entry_supported c).

Definition generate_precomps (config : UmacConfig) : option PrecomputedUmacPdus :=
  let c := uc_cell config in
  freq_offset_index ← freq_offset_hz_to_id (cc_freq_offset_hz c);
  Some (mkPrecomps
    (precomp_sysinfo c freq_offset_index DefaultDefForAccCodeA (Some precomp_def_access) None)
    (precomp_sysinfo c freq_offset_index ExtServicesBroadcast None (Some precomp_ext_services))
    (precomp_mle_sysinfo c (get_system_wide_services_state config))
    (precomp_mac_sync c)
    (precomp_mle_sync (uc_net config) c)).

(** * Schedulers *)

(** The channel schedulers of [UmacBs::new]: the main carrier's and, with a second carrier, that one's. *)
Definition init_schedulers (config : UmacConfig) : option (BsChannelScheduler * list BsChannelScheduler) :=
  let c := uc_cell config in
  let scrambling_code := tetra_scramb_get_init (cn_mcc (uc_net config)) (cn_mnc (uc_net config)) (cc_colour_code c) in
  precomps ← generate_precomps config;
  let secondary :=
    match cc_secondary_carrier c with
    | Some secondary_carrier =>
        [set_downlink_mode SecondaryBcchNoMcch (set_carrier_num secondary_carrier (sched_new scrambling_code precomps))]
    | None => []
    end in
  Some (sched_new scrambling_code precomps, secondary).

(** * The cell is announced *)

(** A configuration whose values fit the fields they are broadcast in. *)
Record cfg_ok (c : UmacConfig) : Prop := {
  ck_mcc : is_u 10 (cn_mcc (uc_net c));
  ck_mnc : is_u 14 (cn_mnc (uc_net c));
  ck_carrier : is_u 12 (cc_main_carrier (uc_cell c));
  ck_band : is_u 4 (cc_freq_band (uc_cell c));
  ck_offset : is_Some (freq_offset_hz_to_id (cc_freq_offset_hz (uc_cell c)));
  ck_spacing : is_u 3 (cc_duplex_spacing_id (uc_cell c));
  ck_txpwr : is_u 3 (cc_ms_txpwr_max_cell (uc_cell c));
  ck_area : is_u 14 (cc_location_area (uc_cell c));
  ck_class : is_u 16 (cc_subscriber_class (uc_cell c));
  ck_system : is_u 4 (cc_system_code (uc_cell c));
  ck_colour : is_u 6 (cc_colour_code (uc_cell c));
  ck_sharing : is_u 2 (cc_sharing_mode (uc_cell c));
  ck_reserved : is_u 3 (cc_ts_reserved_frames (uc_cell c))
}.

Lemma precomp_sysinfo_ok c i o a e : cfg_ok c → is_u 2 i →
  (o = DefaultDefForAccCodeA ∧ a = Some precomp_def_access ∧ e = None ∨
   o = ExtServicesBroadcast ∧ a = None ∧ e = Some precomp_ext_services) →
  sysinfo_ok (precomp_sysinfo (uc_cell c) i o a e).
Proof.
  intros [] Hi Ho. split; [constructor; cbn; try done; unfold is_u; lia|].
  destruct Ho as [(-> & -> & ->)|(-> & -> & ->)]; eexists.
  - by eapply opt_code_a.
  - eapply opt_ext; try done. by apply (sec_class2 _ 0).
Qed.

Lemma generate_precomps_ok c : cfg_ok c → ∃ p, generate_precomps c = Some p ∧ precomps_ok p.
Proof.
  intros Hc. destruct (ck_offset _ Hc) as [i Hi]. unfold generate_precomps. rewrite Hi. cbn [mbind option_bind].
  pose proof (offset_id_range _ _ Hi) as Hir. eexists. split; [done|].
  constructor; cbn [pc_mac_sysinfo1 pc_mac_sysinfo2 pc_mle_sysinfo pc_mac_sync pc_mle_sync].
  - apply precomp_sysinfo_ok; auto.
  - apply precomp_sysinfo_ok; auto.
  - by split; apply Hc.
  - destruct Hc. by constructor.
  - destruct Hc. by constructor.
Qed.

(** * Cell acquisition *)

(** A terminal reads SYNC, then SYSINFO. *)
Definition read_sync : B (MacSync * DMleSync) :=
  a ← mac_sync_from_bitbuf; b ← d_mle_sync_from_bitbuf; mret (a, b).
Definition read_sysinfo : B (MacSysinfo * DMleSysinfo) :=
  a ← mac_sysinfo_from_bitbuf; b ← d_mle_sysinfo_from_bitbuf; mret (a, b).

(** What a terminal gets from the two blocks of a slot over a channel without
    errors.  The synchronisation block is scrambled with the fixed code; what is
    in it gives the code of the cell, with which the other block is decoded. *)
Definition acquire (sl : TmvUnitdataReqSlot) : option (MacSync * DMleSync * MacSysinfo * DMleSysinfo) :=
  b1 ← sl_blk1 sl;
  rx1 ← encode_cp b1;
  '(m1, ok1) ← decode_cp Bsch (mkTpInd SB1 rx1) None;
  check ok1;;
  m1 ← m1;
  '((sync, mle_sync), _) ← exec read_sync m1;
  let code := tetra_scramb_get_init (dms_mcc mle_sync) (dms_mnc mle_sync) (ms_colour_code sync) in
  b2 ← sl_blk2 sl;
  rx2 ← encode_cp b2;
  '(m2, ok2) ← decode_cp Bnch (mkTpInd SB2 rx2) (Some code);
  check ok2;;
  m2 ← m2;
  '((sysinfo, mle_sysinfo), _) ← exec read_sysinfo m2;
  Some (sync, mle_sync, sysinfo, mle_sysinfo).

(** One block through the channel, read by a parser. *)
Lemma block_received {A} (p : B A) bs a b lchan pr bt dflt : reads p bs a → holds (mac_block b) bs → logical_channel b = lchan →
  is_control_channel lchan = true → lchan ≠ Aach → get_params lchan = Some pr → length bs = type1_bits pr →
  (if bool_decide (bt = SB1) then Some SCRAMB_INIT else dflt) = Some (scrambling_code b) →
  ∃ rx m m', encode_cp b = Some rx ∧ decode_cp lchan (mkTpInd bt rx) dflt = Some (Some m, true) ∧ exec p m = Some (a, m').
Proof.
  intros Hr Hh Hl Hc Ha Hp Hlen Hcode. destruct (holds_len _ _ Hh) as (Hgl & _ & _ & Hw & _).
  destruct (cp_roundtrip lchan pr (scrambling_code b) (mac_block b) bt dflt Hc Ha Hp (proj1 Hh)) as (rx & m & He & Hd & Hm & _);
    [congruence|done|]. exists rx, m, (advance (length bs) m).
  split; [by destruct b; cbn in *; subst|]. split; [done|]. destruct (holds_len _ _ Hm) as (_ & _ & Hrem & _). apply exec_ok.
  apply Hr; [apply Hm|]. by rewrite Hrem, Hw.
Qed.

Lemma read_sync_reads p : mac_sync_valid (pc_mac_sync p) → d_mle_sync_valid (pc_mle_sync p) →
  let y := pc_mac_sync p in
  reads read_sync (sync_bits p)
    (mkMacSync (ms_system_code y) (ms_colour_code y) (mkTime (tt_t (ms_time y)) (tt_f (ms_time y)) (tt_m (ms_time y)) 0)
      (ms_sharing_mode y) (ms_ts_reserved_frames y) (ms_u_plane_dtx y) (ms_frame_18_ext y), pc_mle_sync p).
Proof.
  intros Hs Hm. unfold read_sync, sync_bits. eapply reads_bind; [by apply mac_sync_reads|].
  rewrite <-(app_nil_r (fields_bits (d_mle_sync_fields _))). eapply reads_bind; [by apply d_mle_sync_reads|]. apply reads_done.
Qed.

Lemma read_sysinfo_reads ts p opt : mac_sysinfo_valid (sysinfo_of ts p) → option_shape (sysinfo_of ts p) opt →
  si_option_field (sysinfo_of ts p) ≠ OddMfDefForTsMode → d_mle_sysinfo_valid (pc_mle_sysinfo p) →
  reads read_sysinfo (sysinfo_bits ts p opt) (sysinfo_of ts p, pc_mle_sysinfo p).
Proof.
  intros Hs Ho Hn Hm. unfold read_sysinfo, sysinfo_bits. eapply reads_bind; [by apply mac_sysinfo_reads|].
  rewrite <-(app_nil_r (fields_bits (d_mle_sysinfo_fields _))). eapply reads_bind; [by apply d_mle_sysinfo_reads|]. apply reads_done.
Qed.

(** What a terminal should know of a cell with configuration [cfg] after a slot at time [ts]. *)
Definition acquired (cfg : UmacConfig) (ts : TdmaTime) (r : MacSync * DMleSync * MacSysinfo * DMleSysinfo) : Prop :=
  let c := uc_cell cfg in
  let '(sync, mle_sync, sysinfo, mle_sysinfo) := r in
  sync = mkMacSync (cc_system_code c) (cc_colour_code c) (mkTime (tt_t ts) (tt_f ts) (tt_m ts) 0) (cc_sharing_mode c)
    (cc_ts_reserved_frames c) (cc_u_plane_dtx c) (cc_frame_18_ext c) ∧
  mle_sync = precomp_mle_sync (uc_net cfg) c ∧
  (∃ i o a e, freq_offset_hz_to_id (cc_freq_offset_hz c) = Some i ∧ o ≠ OddMfDefForTsMode ∧
    sysinfo = set_hyperframe (tt_h ts) (precomp_sysinfo c i o a e)) ∧
  ∃ sws, mle_sysinfo = precomp_mle_sysinfo c sws.

Lemma sysinfo_timed_of h p q : set_hyperframe 0 p = set_hyperframe 0 q → si_hyperframe_number p = Some h → p = set_hyperframe h q.
Proof. destruct p, q. cbn. intros [=] [=]. by subst. Qed.

(** The precomputed PDUs of a slot at [ts] are those of the configuration with the time filled in. *)
Lemma cell_at cfg p0 p ts : generate_precomps cfg = Some p0 → cell_of p = cell_of p0 → ms_time (pc_mac_sync p) = ts →
  si_hyperframe_number (pc_mac_sysinfo1 p) = Some (tt_h ts) → si_hyperframe_number (pc_mac_sysinfo2 p) = Some (tt_h ts) →
  let y := pc_mac_sync p in
  acquired cfg ts (mkMacSync (ms_system_code y) (ms_colour_code y) (mkTime (tt_t (ms_time y)) (tt_f (ms_time y)) (tt_m (ms_time y)) 0)
      (ms_sharing_mode y) (ms_ts_reserved_frames y) (ms_u_plane_dtx y) (ms_frame_18_ext y), pc_mle_sync p,
    sysinfo_of ts p, pc_mle_sysinfo p).
Proof.
  unfold generate_precomps. destruct (freq_offset_hz_to_id _) as [i|] eqn:Ei; [|done]. cbn [mbind option_bind].
  intros [= <-] Hc Ht Hh1 Hh2. unfold cell_of in Hc. cbn [pc_mac_sysinfo1 pc_mac_sysinfo2 pc_mle_sysinfo pc_mac_sync pc_mle_sync] in Hc.
  assert (set_hyperframe 0 (pc_mac_sysinfo1 p) = set_hyperframe 0 (precomp_sysinfo (uc_cell cfg) i DefaultDefForAccCodeA (Some precomp_def_access) None)) as E1 by congruence.
  assert (set_hyperframe 0 (pc_mac_sysinfo2 p) = set_hyperframe 0 (precomp_sysinfo (uc_cell cfg) i ExtServicesBroadcast None (Some precomp_ext_services))) as E2 by congruence.
  assert (set_sync_time tdma_default (pc_mac_sync p) = set_sync_time tdma_default (precomp_mac_sync (uc_cell cfg))) as E3 by congruence.
  apply (sysinfo_timed_of (tt_h ts)) in E1, E2; try done. cbn zeta. unfold acquired. split_and!.
  - rewrite Ht. unfold set_sync_time in E3. cbn in E3. congruence.
  - congruence.
  - exists i. unfold sysinfo_of. destruct (_ =? 1)%Z; rewrite ?E1, ?E2; repeat eexists; done.
  - exists (bsd_system_wide_services (dmi_bs_service_details (pc_mle_sysinfo p))). clear E1 E2 E3.
    destruct (pc_mle_sysinfo p) as [la sc []]. cbn in Hc |- *. unfold precomp_mle_sysinfo. congruence.
Qed.

Lemma acquire_ok cfg p0 ts code p sl : generate_precomps cfg = Some p0 → cell_of p = cell_of p0 → timed_precomps ts p →
  si_hyperframe_number (pc_mac_sysinfo1 p) = Some (tt_h ts) → si_hyperframe_number (pc_mac_sysinfo2 p) = Some (tt_h ts) →
  code = tetra_scramb_get_init (cn_mcc (uc_net cfg)) (cn_mnc (uc_net cfg)) (cc_colour_code (uc_cell cfg)) →
  complete sl → announced code p sl → sl_ts sl = ts → (∃ b, sl_blk1 sl = Some b ∧ logical_channel b = Bsch) →
  ∃ r, acquire sl = Some r ∧ acquired cfg ts r.
Proof.
  intros Hp0 Hcell Htp Hh1 Hh2 Hcode Hcomp [Han1 Han2] Hts (b1 & Hb1 & Hl1).
  pose proof (cell_at cfg p0 p ts Hp0 Hcell (proj2 (tp_sync _ _ Htp)) Hh1 Hh2) as Hacq.
  destruct Hcomp as (b1' & bbk & Hb1' & _ & _ & _ & _ & Hm). rewrite Hb1 in Hb1'. injection Hb1' as <-. rewrite Hl1 in Hm.
  destruct Hm as (b2 & Hb2 & _ & Hl2). destruct (Han1 _ Hb1 Hl1) as [Hc1 Hh]. destruct (Han2 _ Hb2 Hl2) as (Hc2 & opt & Ho & Hh').
  rewrite Hts in Ho, Hh'. eexists. split; [|exact Hacq]. unfold acquire. rewrite Hb1. cbn [mbind option_bind].
  pose proof (read_sync_reads p (proj1 (tp_sync _ _ Htp)) (tp_mle_sync _ _ Htp)) as Hr1. cbv zeta in Hr1.
  destruct (block_received read_sync _ _ b1 Bsch BSCH_PARAMS SB1 None Hr1 Hh Hl1) as (rx & m & m' & -> & Hd & He); try done;
    [by rewrite Hc1|].
  cbn [mbind option_bind]. rewrite Hd. cbn [mbind option_bind check]. rewrite He. cbn [mbind option_bind]. rewrite Hb2. cbn [mbind option_bind].
  assert (mac_sysinfo_valid (sysinfo_of ts p)) as Hv by (unfold sysinfo_of; destruct (_ =? 1)%Z; apply Htp).
  destruct Hacq as (Hsync & Hmle & (i & o & a & e & Hi & Ho' & Hsys) & _).
  assert (si_option_field (sysinfo_of ts p) ≠ OddMfDefForTsMode) as Hodd by (by rewrite Hsys).
  pose proof (read_sysinfo_reads ts p opt Hv Ho Hodd (tp_mle_sysinfo _ _ Htp)) as Hr2.
  destruct (block_received read_sysinfo _ _ b2 Bnch SCH_HD_PARAMS SB2
    (Some (tetra_scramb_get_init (dms_mcc (pc_mle_sync p)) (dms_mnc (pc_mle_sync p)) (ms_colour_code (pc_mac_sync p)))) Hr2 Hh' Hl2)
    as (rx2 & m2 & m2' & -> & Hd2 & He2); try done.
  { unfold sysinfo_bits. by rewrite length_app, mac_sysinfo_fields_len, length_fields_bits by done. }
  { rewrite bool_decide_false by done. rewrite Hc2, Hcode, Hmle. f_equal. f_equal. congruence. }
  cbn [mbind option_bind]. cbn [ms_colour_code] in *. rewrite Hd2. cbn [mbind option_bind check]. rewrite He2. done.
Qed.

Lemma fresh_start code p n m x : precomps_ok p → valid_time x →
  ∃ s, set_dl_time x (set_downlink_mode m (set_carrier_num n (sched_new code p))) = Some s ∧ sched_inv s ∧ cell s = (code, cell_of p).
Proof.
  intros Hp Hx. eexists. split; [reflexivity|]. split; [|done]. constructor; cbn [with_ul with_queues bs_ul sched_new ul_purge_schedule
    bs_dltx_queues bs_dltx_next_slot_queue bs_hangtime bs_pending_ra_acks bs_precomps bs_circuits set_downlink_mode set_carrier_num];
    try done; try (by repeat constructor). by apply ul_start_inv.
Qed.

Lemma cell_announced cfg p s : generate_precomps cfg = Some p → sched_inv s →
  cell s = (tetra_scramb_get_init (cn_mcc (uc_net cfg)) (cn_mnc (uc_net cfg)) (cc_colour_code (uc_cell cfg)), cell_of p) →
  tt_f (add_timeslots (cur_dltime s) 1) = 18%Z →
  ∃ sl s' r, finalize_ts_for_tick_inner true s = Some (sl, s') ∧ sl_ts sl = add_timeslots (cur_dltime s) 1 ∧
    acquire sl = Some r ∧ acquired cfg (sl_ts sl) r.
Proof.
  intros Hp Hs Hcell Hf. destruct (finalize_ok true s Hs) as (sl & s' & Hfin & Hk & H18). exists sl, s'.
  destruct (tk_time _ _ _ Hk) as [Hts _]. destruct (tk_precomps _ _ _ Hk) as (Hpc & Han & Hcode). pose proof (add_valid (cur_dltime s) 1) as Hv.
  destruct (set_times_ok (sl_ts sl) s Hs ltac:(by rewrite Hts)) as [_ Htp]. rewrite <-Hpc in Htp.
  destruct (acquire_ok cfg p (sl_ts sl) (bs_scrambling_code s) (bs_precomps s') sl Hp) as (r & Hr & Hacq); try done.
  - rewrite Hpc. exact (f_equal snd Hcell).
  - by rewrite Hpc.
  - by rewrite Hpc.
  - exact (f_equal fst Hcell).
  - apply Hk.
  - by apply H18.
  - exists r. by split_and!.
Qed.

(** C7: Cell acquisition.  Take a configuration whose values fit their broadcast
    fields, and any of the carriers it defines.  Whatever the carrier's scheduler
    was asked to do since it started, in every frame 18 it sends a slot from which
    a terminal that only knows the fixed scrambling code gets, over an error-free
    channel: the network and colour code, with them the cell's scrambling code,
    and then the main carrier, location area and services as configured, and the
    exact time of the slot (timeslot, frame and multiframe from SYNC, hyperframe
    from SYSINFO). *)
Theorem cell_acquisition cfg x ops : cfg_ok cfg → valid_time x → Forall op_ok ops →
  ∃ main secondary, init_schedulers cfg = Some (main, secondary) ∧
  Forall (λ sch, ∃ s, sched_run (OpSetTime x :: ops) sch = Some s ∧
    (tt_f (add_timeslots (cur_dltime s) 1) = 18%Z →
     ∃ sl s' r, finalize_ts_for_tick_inner true s = Some (sl, s') ∧ sl_ts sl = add_timeslots (cur_dltime s) 1 ∧
       acquire sl = Some r ∧ acquired cfg (sl_ts sl) r)) (main :: secondary).
Proof.
  intros Hcfg Hx Hops. destruct (generate_precomps_ok cfg Hcfg) as (p & Hp & Hok). unfold init_schedulers. rewrite Hp. cbn [mbind option_bind].
  eexists _, _. split; [done|].
  set (code := tetra_scramb_get_init _ _ _).
  assert (∀ n m, ∃ s, sched_run (OpSetTime x :: ops) (set_downlink_mode m (set_carrier_num n (sched_new code p))) = Some s ∧
    (tt_f (add_timeslots (cur_dltime s) 1) = 18%Z → ∃ sl s' r, finalize_ts_for_tick_inner true s = Some (sl, s') ∧
      sl_ts sl = add_timeslots (cur_dltime s) 1 ∧ acquire sl = Some r ∧ acquired cfg (sl_ts sl) r)) as Hall.
  { intros n m. destruct (fresh_start code p n m x Hok Hx) as (s0 & Hs0 & Hi & Hc). cbn [sched_run sched_exec]. rewrite Hs0.
    cbn [mbind option_bind]. destruct (sched_run_ok ops Hops s0 Hi) as (s & Hr & Hs & Hcell & _). exists s. split; [done|].
    apply (cell_announced cfg p s Hp Hs). rewrite Hcell. exact Hc. }
  apply Forall_cons. split.
  - apply (Hall (si_main_carrier (pc_mac_sysinfo1 p)) PrimaryMcch).
  - destruct (cc_secondary_carrier (uc_cell cfg)) as [n|]; [|done]. apply Forall_singleton, Hall.
Qed.

Definition test_cfg : UmacConfig :=
  mkUmacConfig (mkCfgNet 204 1337)
    (mkCfgCell true 1001 (Some 1003%Z) 4 6250 0 false 42 65535 true true false false false false true false false false false
      3 1 0 0 false false 4 3) true true false.

Lemma test_cfg_ok : cfg_ok test_cfg.
Proof. constructor; cbn; try (unfold is_u; lia). by eexists. Qed.

Lemma cell_acquisition_witness :
  ∃ main secondary, init_schedulers test_cfg = Some (main, secondary) ∧
  Forall (λ sch, ∃ s, sched_run [OpSetTime (mkTime 3 17 60 65535); OpTick; OpFinalize true] sch = Some s ∧
    (tt_f (add_timeslots (cur_dltime s) 1) = 18%Z →
     ∃ sl s' r, finalize_ts_for_tick_inner true s = Some (sl, s') ∧ sl_ts sl = add_timeslots (cur_dltime s) 1 ∧
       acquire sl = Some r ∧ acquired test_cfg (sl_ts sl) r)) (main :: secondary).
Proof.
  apply (cell_acquisition test_cfg (mkTime 3 17 60 65535) [OpTick; OpFinalize true]);
    [exact test_cfg_ok|apply valid_time_ranges; cbn; lia|repeat constructor].
Defined.

(** A colour code of seven bits does not fit SYNC: the block cannot be written. *)
Definition wide_colour_cfg : UmacConfig :=
  mkUmacConfig (mkCfgNet 204 1337)
    (mkCfgCell true 1001 None 4 0 0 false 42 65535 true true false false false false true false false false false
      3 64 0 0 false false 4 3) false false false.

Lemma wide_colour_code_panics : ∃ p, generate_precomps wide_colour_cfg = Some p ∧
  generate_default_blks (mkTime 1 18 1 0) (set_precomp_times (mkTime 1 18 1 0) (sched_new 0 p)) = None.
Proof. eexists. split; reflexivity. Qed.
