(* ===== verification/BsSchedThms.v ===== *)
(** Properties of the base station's scheduler as its callers and the terminals
    see it: it never panics and every tick yields a slot that can be transmitted;
    every receipt is accounted for; granted slots are announced; signalling goes
    out in order of priority; what leaving hangtime does. *)
From S2P Require Import Prelude Bits Core BitBuffer BitBufferSpec BitCodec BitBufferThms.
From S2P Require Import FieldCodec PduCodec Arrays TdmaTime TxReceipt Fillbits MacDl MacDlSpec BsFragSpec.
From S2P Require Import Rm3014 Crc16 Scrambler ErrorControlSpec UmacCircuitMgr MacBcast MacBcastSpec.
From S2P Require Import BsSchedUlSpec BsSched BsSchedSpec BsSchedSlot BsSchedRun UmacCell.

#[local] Opaque add_timeslots forward_to_timeslot slot_index.

(** * Runs *)

Definition queued_tx (s : BsChannelScheduler) : list TxReporter :=
  elems_tx (mjoin (bs_dltx_queues s)) ++ elems_tx (bs_dltx_next_slot_queue s).

Lemma elems_tx_pending q : Forall elem_ok q → Forall (λ r, tx_state r = tx_raw Pending) (elems_tx q).
Proof.
  induction 1 as [|e q He Hq IH]; [constructor|]. change (elems_tx (e :: q)) with (elem_tx e ++ elems_tx q). apply Forall_app. split; [|done].
  destruct e as [| | |r sdu tx|f|b tx]; cbn [elem_tx]; try constructor.
  - destruct He as (_ & _ & _ & Hp). destruct tx; constructor; [by apply Hp|done].
  - destruct He as (_ & _ & Hp). destruct (bf_tx_reporter f); constructor; [by apply Hp|done].
  - destruct He as (_ & _ & Hp). destruct tx; constructor; [by apply Hp|done].
Qed.

Lemma queued_pending s : sched_inv s → Forall (λ r, tx_state r = tx_raw Pending) (queued_tx s).
Proof. intros Hs. apply Forall_app. split; apply elems_tx_pending; [apply Forall_join|]; apply Hs. Qed.

(** C21: The main carrier's scheduler, in use.  However the UMAC mixes clock
    ticks, finalized slots, capacity requests, acknowledgements, messages, stolen
    half slots, hangtime, circuits and voice, no operation panics, the scheduler
    stays well formed, and every receipt it was handed is accounted for exactly
    once: either its message is still queued and the receipt is pending, or the
    receipt was let go after it was reported transmitted or discarded. *)
Theorem scheduler_run_safe code p x ops : precomps_ok p → valid_time x → Forall op_ok ops → Forall (λ op, op_reports op = true) ops →
  ∃ s0 s, bs_start code p x = Some s0 ∧ sched_run ops s0 = Some s ∧ sched_inv s ∧
    length (queued_tx s) + length (bs_retired s) = length (handed ops) ∧
    Forall (λ r, tx_state r = tx_raw Pending) (queued_tx s) ∧ Forall tx_final (bs_retired s).
Proof.
  intros Hp Hx Hops Hrep. destruct (bs_start_ok code p x Hp Hx) as (s0 & Hs0 & Hi & Hm & Ht & Hr & _). exists s0.
  destruct (sched_run_ok ops Hops s0 Hi) as (s & Hrun & Hs & _ & Htot & l & Hl & Hf). exists s. split_and!; try done.
  - unfold queued_tx. unfold tx_total in *. rewrite length_app. lia.
  - by apply queued_pending.
  - rewrite Hl, Hr. apply Hf; [done|]. unfold allow_mcch. by rewrite Hm.
Qed.

(** * Granted slots *)

Lemma ul_run_app ops1 ops2 s : ul_run (ops1 ++ ops2) s = ul_run ops1 s ≫= ul_run ops2.
Proof. revert s. induction ops1 as [|op ops1 IH]; intros s; cbn [app ul_run]; [done|]. destruct (ul_exec op s); cbn [mbind option_bind]; [apply IH|done]. Qed.

(** The uplink schedule inside the scheduler. *)
Lemma sched_run_ul ops : Forall op_ok ops → Forall (λ op, op_reports op = true) ops → ∀ s, sched_inv s →
  ∃ s', sched_run ops s = Some s' ∧ sched_inv s' ∧ allow_mcch s' = allow_mcch s ∧
    ul_run (ops ≫= ul_ops) (bs_ul s) = Some (bs_ul s').
Proof.
  induction 1 as [|op ops Hop Hops IH]; intros Hrep s Hs; cbn [sched_run]; [by exists s|]. apply Forall_cons in Hrep as [Hr Hrep].
  destruct (sched_exec_ok op s Hs Hop) as (s1 & -> & Hst). cbn [mbind option_bind].
  destruct (IH Hrep s1 (sp_inv _ _ _ Hst)) as (s2 & -> & Hs2 & Hm & Hu). exists s2. split; [done|]. split; [done|].
  rewrite Hm, (sp_mode _ _ _ Hst Hr). split; [done|]. rewrite bind_cons, ul_run_app, (sp_ul _ _ _ Hst Hr). exact Hu.
Qed.

Lemma ul_ops_ok ops : Forall op_ok ops → Forall ul_op_ok (ops ≫= ul_ops).
Proof.
  induction 1 as [|op ops Hop Hops IH]; [constructor|]. rewrite bind_cons. apply Forall_app. split; [|done].
  destruct op; cbn [ul_ops]; try constructor; try done; apply Hop.
Qed.

(** The slots that pass while operations run. *)
Definition sched_ticks (ops : list sched_op) : Z := ticks (ops ≫= ul_ops).

(** A terminal hears the uplink usage [u] in the broadcast block of a slot, even
    if one of the 30 transmitted bits is received wrong. *)
Definition hears_usage (sl : TmvUnitdataReqSlot) (u : AccessAssignUlUsage) : Prop :=
  ∃ bbk air bits, sl_bbk sl = Some bbk ∧ encode_aach (mac_block bbk) (scrambling_code bbk) = Some air ∧ holds air bits ∧
  ∀ rx err, single_error err → holds rx (xor_bits bits (bits_of_Z 30 err)) →
    ∃ bb bb' aach, decode_aach rx (scrambling_code bbk) = Some bb ∧ exec access_assign_from_bitbuf bb = Some (aach, bb') ∧
      aa_ul_usage aach = u.

(** The uplink usage a slot's circuits give it: blocked to common access in hangtime,
    else the usage of the uplink circuit. *)
Definition in_hangtime (ts : TdmaTime) (s : BsChannelScheduler) : bool :=
  supports_assigned_traffic_ts (tt_t ts) s && default false (at_ts (tt_t ts) (bs_hangtime s)).
Definition circuit_usage (ts : TdmaTime) (s : BsChannelScheduler) : AccessAssignUlUsage :=
  let ul := get_usage Ul (bs_carrier_num s) (tt_t ts) (bs_circuits s) in
  if in_hangtime ts s && (is_some (get_usage Dl (bs_carrier_num s) (tt_t ts) (bs_circuits s)) || is_some ul) then UuAssignedOnly
  else match ul with Some usage => UuTraffic usage | None => UuUnallocated end.

(** The slot is one of the control channel. *)
Definition on_mcch (t : Z) (s : BsChannelScheduler) : bool := (t =? 1)%Z && allow_mcch s.

(** What the broadcast block of a slot that is reserved with marker [m] says. *)
Lemma aach_usage ts s p m : (1 ≤ tt_t ts ≤ 4)%Z → ul_get_usage ts (bs_ul s) = Some (UuTraffic m) →
  make_aach ts (get_usage Ul (bs_carrier_num s) (tt_t ts) (bs_circuits s)) (get_usage Dl (bs_carrier_num s) (tt_t ts) (bs_circuits s)) s =
    Some (Some p) →
  aa_ul_usage p = if on_mcch (tt_t ts) s then UuTraffic m else circuit_usage ts s.
Proof.
  intros Ht Hu Hmk. assert (allow_common_control_aach s = allow_mcch s) as E
    by (unfold allow_mcch, allow_common_control_aach in *; by destruct (bs_downlink_mode s)).
  assert (∀ h ul dl, aa_ul_usage (traffic_aach h dl ul access_assign_default) =
    if h && (is_some dl || is_some ul) then UuAssignedOnly else match ul with Some usage => UuTraffic usage | None => UuUnallocated end) as Htr.
  { intros h ul dl. unfold traffic_aach. by destruct (h && _). }
  unfold make_aach in Hmk. unfold on_mcch, circuit_usage, in_hangtime. destruct (Z.eqb_spec (tt_t ts) 1) as [E1|Hne].
  - rewrite E in Hmk. destruct (allow_mcch s); cbn [andb].
    + rewrite Hu in Hmk. cbn [mbind option_bind] in Hmk. by injection Hmk as <-.
    + destruct (supports_assigned_traffic_ts (tt_t ts) s); [destruct (at_ts (tt_t ts) (bs_hangtime s)); [|done]|];
        cbn [mbind option_bind] in Hmk; injection Hmk as <-; apply Htr.
  - assert (supports_assigned_traffic_ts (tt_t ts) s = ((2 <=? tt_t ts)%Z && (tt_t ts <=? 4)%Z)) as Hsup.
    { unfold supports_assigned_traffic_ts. by rewrite (proj2 (Z.eqb_neq _ _) Hne). }
    rewrite Hsup. destruct ((2 <=? tt_t ts)%Z && (tt_t ts <=? 4)%Z); [|done].
    destruct (at_ts (tt_t ts) (bs_hangtime s)); [|done]. cbn [mbind option_bind] in Hmk. injection Hmk as <-. apply Htr.
Qed.

Lemma bbk_heard ts s sl bbk bits m : sl_bbk sl = Some bbk → holds (mac_block bbk) bits → bbk_content ts s bits →
  (1 ≤ tt_t ts ≤ 4)%Z → tt_f ts ≠ 18%Z → ul_get_usage ts (bs_ul s) = Some (UuTraffic m) →
  hears_usage sl (if on_mcch (tt_t ts) s then UuTraffic m else circuit_usage ts s).
Proof.
  intros Hbbk Hh Hc Ht Hf Hu. unfold bbk_content in Hc. rewrite decide_False in Hc by done. destruct Hc as (p & Hv & Hbits & Hmk).
  pose proof (aach_usage ts s p m Ht Hu Hmk) as Hp.
  destruct (holds_len _ _ Hh) as (_ & Hlen & Hrem & _).
  destruct (aach_error_ok (mac_block bbk) (scrambling_code bbk) (proj1 Hh)) as (air & bits5 & He & H5 & _ & Hdec).
  { by rewrite Hlen, Hbits, length_fields_bits, aa_fields_len. }
  exists bbk, air, bits5. split_and!; try done. intros rx err Herr Hrx. destruct (Hdec rx err Herr Hrx) as (bb & Hd & Hbb).
  rewrite Hrem in Hbb. exists bb, (advance (length bits) bb), (aa_canon p). split; [done|]. split.
  - apply exec_ok. rewrite Hbits. apply (aa_reads p Hv); [apply Hbb|]. destruct (holds_len _ _ Hbb) as (_ & _ & -> & _). by rewrite Hbits.
  - rewrite <- Hp. unfold aa_canon. by destruct (aa_ul_usage p).
Qed.

Lemma granted_slot_fields t req g u x : ul_inv u → (1 ≤ t ≤ 4)%Z → x ∈ granted_slots t req g u → tt_t x = t ∧ tt_f x ≠ 18%Z.
Proof.
  intros Hu Ht Hx. unfold granted_slots in Hx. set (g' := take _ _) in Hx.
  assert (g' `sublist_of` opportunities t u) as Hsub by (etrans; [apply sublist_take|apply sublist_drop]).
  destruct (opportunities_ok u t g' Hu Ht Hsub) as [_ Hall]. rewrite Forall_forall in Hall. destruct (Hall x Hx) as (_ & -> & _). split; [done|].
  apply (sublist_subseteq _ _ Hsub) in Hx. unfold opportunities in Hx. by apply list_elem_of_filter in Hx as [Hx _].
Qed.

(** C22: Granted slots.  Let a scheduler grant several slots of timeslot [t] to a
    terminal, with usage marker [m].  Then for each slot
    the terminal derives from its grant that still lies ahead: whatever the
    scheduler does until that slot is next, short of a new mode or time, the slot that is then sent carries
    the slot's number, the lower MAC can code its broadcast block, and what arrives
    in the slot will be attributed to the terminal.  On the control channel
    (timeslot 1 of a carrier with MCCH) a terminal
    that hears the block, even with one bit wrong, reads that the uplink slot belongs to
    [m]; on any other timeslot or carrier it reads only what the circuits of the timeslot say,
    and the reservation is not announced. *)
Theorem granted_slot_announced t s addr req g m u1 : (1 ≤ t ≤ 4)%Z → sched_inv s →
  ul_process_cap_req t addr req (bs_ul s) = Some (Some (g, Some m), u1) →
  length (granted_slots t req g (bs_ul s)) = slots_wanted req ∧
  Forall (λ x, ∃ d, x = add_timeslots (ul_cur_dltime u1) d ∧ (0 ≤ d ≤ 67)%Z ∧
    ∀ ops, Forall op_ok ops → Forall (λ op, op_reports op = true) ops → sched_ticks ops = (d - 1)%Z →
    ∃ s2 sl s3, sched_run ops (with_ul u1 s) = Some s2 ∧ finalize_ts_for_tick s2 = Some (sl, s3) ∧ sl_ts sl = x ∧
      hears_usage sl (if on_mcch t s then UuTraffic m else circuit_usage x s2) ∧
      ul_get_slot_owner x PbBoth (bs_ul s2) = Some (Some (ssi addr)))
    (granted_slots t req g (bs_ul s)).
Proof.
  intros Ht Hs Hreq. pose proof (iv_ul _ Hs) as Hu. destruct (granted_slots_ok t addr req (bs_ul s) g (Some m) u1 Hu Ht Hreq) as [Hlen Hall].
  split; [done|]. rewrite Forall_forall in Hall |- *. intros x Hx. destruct (Hall x Hx) as (d & Hxd & Hd & Hrun).
  destruct (granted_slot_fields t req g _ x Hu Ht Hx) as [Hxt Hf]. exists d. split; [done|]. split; [done|].
  intros ops Hops Hrep Hticks. destruct (cap_req_ok t addr req (bs_ul s) Hu Ht) as (res & u' & Hreq' & Hu1 & Hout).
  rewrite Hreq in Hreq'. injection Hreq' as <- <-. assert (sched_inv (with_ul u1 s)) as Hs1 by (by destruct Hs).
  destruct (sched_run_ul ops Hops Hrep _ Hs1) as (s2 & Hr2 & Hs2 & Hm2 & Hul2). unfold sched_ticks in Hticks.
  destruct (Hrun (ops ≫= ul_ops) (ul_ops_ok _ Hops) ltac:(lia)) as (u2 & Hru & _ & Hown & Husage & Hx2).
  change (bs_ul (with_ul u1 s)) with u1 in Hul2. rewrite Hul2 in Hru. injection Hru as <-. rewrite Hticks in Hx2.
  replace (d - (d - 1))%Z with 1%Z in Hx2 by lia.
  destruct (finalize_ok true s2 Hs2) as (sl & s3 & Hfin & Hk & _). exists s2, sl, s3. destruct (tk_time _ _ _ Hk) as [Hsl _].
  assert (sl_ts sl = x) as Hslx by (by rewrite Hsl). split_and!; try done.
  - destruct (tk_bbk _ _ _ Hk) as (bbk & bits & Hb & Hh & Hc). rewrite Hslx in Hc.
    assert (on_mcch t s = on_mcch (tt_t x) s2) as -> by (unfold on_mcch; rewrite Hxt, Hm2; done).
    apply (bbk_heard x s2 sl bbk bits m Hb Hh Hc); [by rewrite Hxt|done|by apply Husage].
  - destruct Hout as [k Hg]. pose proof (gr_marker _ _ _ _ _ _ _ _ Hg) as Hmk. assert (granted_block req g = PbBoth) as E.
    { destruct (decide (2 ≤ slots_wanted req)) as [Hw|]; [|done]. by destruct req; [cbv in Hw; lia|..]. }
    by rewrite <-E.
Qed.

(** * Order of signalling *)

(** The elements of a queue in the order in which they are sent: by kind, and in
    order of arrival within a kind. *)
Definition of_prio (k : nat) (q : list DlSchedElem) : list DlSchedElem := filter (λ e, priority e = Some k) q.
Definition prio_order (q : list DlSchedElem) : list DlSchedElem := of_prio 0 q ++ of_prio 1 q ++ of_prio 2 q ++ of_prio 3 q.

Fixpoint build_all (es : list DlSchedElem) (buf_opt : option BitBuffer) (s : BsChannelScheduler) :
    option (option BitBuffer * BsChannelScheduler) :=
  match es with [] => Some (buf_opt, s) | e :: es => '(buf_opt, s) ← build_one e buf_opt s; build_all es buf_opt s end.

Lemma of_prio_empty k e q : priority e = Some k → ∀ j, j < k → Forall (λ y, before e y ∨ priority y = priority e) q → of_prio j q = [].
Proof.
  intros Hk j Hj. induction 1 as [|y q Hy _ IH]; [done|]. unfold of_prio in *. rewrite filter_cons, decide_False; [done|].
  unfold before in Hy. rewrite Hk in Hy. intros E. rewrite E in Hy. destruct Hy as [Hy|[=]]; lia.
Qed.

Lemma of_prio_before k e q : priority e = Some k → Forall (before e) q → ∀ j, j ≤ k → of_prio j q = [].
Proof.
  intros Hk. induction 1 as [|y q Hy _ IH]; intros j Hj; [done|]. unfold of_prio in *. rewrite filter_cons, decide_False; [by apply IH|].
  unfold before in Hy. rewrite Hk in Hy. intros E. rewrite E in Hy. lia.
Qed.

Lemma of_prio_none k q : Forall (λ e, priority e = None) q → of_prio k q = [].
Proof. induction 1 as [|y l Hy _ IH]; [done|]. unfold of_prio in *. rewrite filter_cons, decide_False by congruence. exact IH. Qed.

(** The element taken first is the first in order. *)
Lemma prio_order_first e l1 l2 : is_Some (priority e) → Forall (before e) l1 → Forall (λ y, before e y ∨ priority y = priority e) l2 →
  prio_order (l1 ++ e :: l2) = e :: prio_order (l1 ++ l2).
Proof.
  intros [k Hk] H1 H2. unfold prio_order.
  assert (∀ j, of_prio j (l1 ++ e :: l2) = of_prio j l1 ++ (if decide (j = k) then [e] else []) ++ of_prio j l2) as Hsplit.
  { intros j. unfold of_prio. rewrite filter_app, filter_cons, Hk. f_equal. destruct (decide (j = k)) as [->|Hne].
    - by rewrite decide_True.
    - by rewrite decide_False by congruence. }
  assert (∀ j, of_prio j (l1 ++ l2) = of_prio j l1 ++ of_prio j l2) as Happ by (intros j; apply filter_app).
  rewrite !Hsplit, !Happ. pose proof (of_prio_before k e l1 Hk H1) as Hb. pose proof (of_prio_empty k e l2 Hk) as He.
  assert (k < 4) as Hk4 by (destruct e; cbn in Hk; simplify_eq; lia).
  destruct k as [|[|[|[|?]]]]; [..|lia]; cbn [decide]; repeat (rewrite Hb by lia); repeat (rewrite He by (done || lia)); done.
Qed.

(** Building from an element does not look at the queues. *)
Lemma feed_block_queue t q f buf s : feed_block f buf (set_queue t q s) = (λ '(b, s), (b, set_queue t q s)) <$> feed_block f buf s.
Proof.
  unfold feed_block. cbv zeta. destruct (get_next_chunk _ _) as [[[d f'] b']|]; [|done]. cbn [mbind option_bind].
  destruct d; [|done]. by destruct (fragger_drop f').
Qed.

Lemma build_one_queue t q e buf s : build_one e buf (set_queue t q s) = (λ '(b, s), (b, set_queue t q s)) <$> build_one e buf s.
Proof.
  destruct e as [| | |r sdu tx|f|b tx]; cbn [build_one]; try done.
  - destruct (fragger_new r sdu tx); [|done]. cbn [mbind option_bind]. apply feed_block_queue.
  - apply feed_block_queue.
  - destruct tx as [tx|]; [|done]. by destruct (mark_discarded tx).
Qed.

Lemma set_queue_id t q s : queue_of t s = Some q → set_queue t q s = s.
Proof.
  unfold queue_of, at_ts, set_queue, with_queues, set_ts. destruct (check _); [|done]. cbn. intros Hq. rewrite list_insert_id by done. by destruct s.
Qed.

Lemma build_loop_order ts n : (1 ≤ tt_t ts ≤ 4)%Z → tt_f ts ≠ 18%Z → ∀ s q cs buf, sched_inv s → queue_of (tt_t ts) s = Some q →
  length q ≤ n → buf_ok cs buf →
  build_loop n ts buf s = build_all (prio_order q) buf (set_queue (tt_t ts) (filter (λ e, priority e = None) q) s).
Proof.
  intros Ht Hf. induction n as [|n IH]; intros s q cs buf Hs Hq Hn Hbuf.
  { destruct q; [|cbn in Hn; lia]. cbn [build_loop]. rewrite Hq. cbn. by rewrite set_queue_id. }
  cbn [build_loop]. rewrite Hq. cbn [mbind option_bind]. destruct q as [|e0 q0].
  { change (prio_order []) with (@nil DlSchedElem). change (filter (λ e, priority e = None) []) with (@nil DlSchedElem).
    cbn [build_all]. by rewrite set_queue_id. }
  destruct (take_prioritized_ok ts s _ Hs Ht Hq) as [[? _]|[(_ & -> & Hnone)|(e & l1 & l2 & _ & Hsplit & Hpr & Hb1 & Hb2 & ->)]]; [done|..].
  - assert (prio_order (e0 :: q0) = []) as ->.
    { unfold prio_order. by rewrite !(of_prio_none _ _ Hnone). }
    cbn [build_all]. rewrite filter_all by (by apply Forall_forall). by rewrite set_queue_id.
  - rewrite Hsplit in Hq, Hn |- *. rewrite prio_order_first by done. rewrite length_app in Hn. cbn [length] in Hn.
    destruct (build_one_ok (tt_t ts) l1 e l2 cs buf s Hs Ht Hq Hbuf) as (cs1 & buf1 & s1 & Hone & Hbuf1 & Hprog & Hq1).
    rewrite Hone. cbn [mbind option_bind build_all].
    rewrite (IH s1 (l1 ++ l2) (cs ++ cs1) buf1); [|apply Hprog|done|rewrite length_app; lia|done].
    rewrite build_one_queue in Hone |- *. destruct (build_one e buf s) as [[b' s']|]; [|done]. cbn in Hone |- *. injection Hone as -> <-.
    rewrite set_set_queue. do 2 f_equal. rewrite !filter_app, filter_cons, decide_False; [done|]. intros E. rewrite E in Hpr. by destruct Hpr.
Qed.

(** C23: Signalling goes out by priority, and the loop that builds a block ends.
    Outside frame 18, whatever is queued for a timeslot, the loop stops after at
    most as many turns as there are elements, and does exactly what offering the
    block to the elements in order of priority would do: slot grants first, then
    messages already begun, then new messages, then stolen half slots, each in
    order of arrival.  It leaves only elements that have no place in a block, and
    packs what it sent without gaps into one full slot; in frame 18 it sends
    nothing. *)
Theorem signalling_in_priority_order ts s q n : sched_inv s → valid_time ts → queue_of (tt_t ts) s = Some q → length q ≤ n →
  ∃ cs buf s', build_loop n ts None s = Some (buf, s') ∧ buf_ok cs buf ∧ sched_inv s' ∧
  if decide (tt_f ts = 18%Z) then s' = s ∧ buf = None
  else build_all (prio_order q) None (set_queue (tt_t ts) (filter (λ e, priority e = None) q) s) = Some (buf, s') ∧
    queue_of (tt_t ts) s' = Some (filter (λ e, priority e = None) q).
Proof.
  intros Hs Hv%valid_time_ranges Hq Hn. assert (1 ≤ tt_t ts ≤ 4)%Z as Ht by lia.
  destruct (build_loop_ok ts n Ht s q [] None Hs Hq Hn eq_refl) as (cs & buf & s' & q' & Hl & Hbuf & Hp & Hq' & Hend).
  exists cs, buf, s'. split; [done|]. split; [done|]. split; [apply Hp|]. destruct (decide (tt_f ts = 18%Z)) as [|Hf]; [done|].
  rewrite <-Hend. split; [|done]. rewrite Hend. by rewrite <-(build_loop_order ts n Ht Hf s q [] None Hs Hq Hn eq_refl).
Qed.

(** * Hangtime *)

(** Leaving hangtime.  When a traffic timeslot leaves hangtime, its queue keeps
    exactly the stolen half slots, in order, and no other timeslot's queue is
    touched; every message that is dropped, begun or not, has its receipt marked
    discarded; and the terminals whose random access acknowledgement is dropped
    are remembered, in order, for the next message to them. *)
Theorem leaving_hangtime t s q : sched_inv s → (1 ≤ t ≤ 4)%Z → queue_of t s = Some q →
  let gone := filter (λ e, is_stealing e = false) q in
  ∃ s', set_hangtime t false s = Some s' ∧ sched_inv s' ∧ is_hangtime t s' = Some false ∧
    queue_of t s' = Some (filter (λ e, is_stealing e = true) q) ∧ (∀ t', t' ≠ t → queue_of t' s' = queue_of t' s) ∧
    bs_retired s' = bs_retired s ++ (gone ≫= drop_receipts) ∧ length (gone ≫= drop_receipts) = length (elems_tx gone) ∧
    Forall (λ r, tx_state r = tx_raw Discarded) (gone ≫= drop_receipts) ∧
    at_ts t (bs_pending_ra_acks s') = (λ p, p ++ (gone ≫= drop_acks)) <$> at_ts t (bs_pending_ra_acks s).
Proof.
  intros Hs Ht Hq gone. unfold set_hangtime, ts_1_4. destruct (Z.leb_spec 1 t), (Z.leb_spec t 4); try lia. cbn [andb negb]. cbv zeta.
  set (s1 := with_hangtime (set_ts t false (bs_hangtime s)) s).
  assert (sched_inv s1) as Hs1 by (destruct Hs; constructor; try done; cbn; unfold set_ts; by rewrite length_insert).
  destruct (drop_all_ok t s1 q Hs1 Ht Hq) as [-> Hs2]. eexists. split; [done|]. cbn [snd] in *. fold gone in Hs2 |- *.
  split; [done|]. split_and!.
  - unfold is_hangtime, ts_1_4. destruct (Z.leb_spec 1 t), (Z.leb_spec t 4); try lia. cbn [andb negb]. apply at_set_ts; [done|apply Hs].
  - apply (queue_set_queue t _ s1); done.
  - intros t' Hne. by apply (queue_of_other t t' _ s1); [lia|].
  - done.
  - pose proof (drop_receipts_length q). unfold gone in *. rewrite (elems_tx_split q) in *. lia.
  - apply drop_receipts_discarded.
  - unfold at_ts. destruct (check _); [|done]. cbn. by rewrite list_lookup_alter_eq.
Qed.

(** * Instances *)

Definition test_pdu (ca : option ChanAllocElement) : MacResource :=
  mkMacResource false 0 0 false 0 (Some (issi 77)) None None None None ca.
Definition test_tx : TxReporter := mkReporter false (tx_raw Pending).

Lemma test_elem_ok : elem_ok (EResource (test_pdu None) (new 20) (Some test_tx)).
Proof.
  split; [|split; [apply wf_new, fits_small; lia|split; [done|by intros r [= <-]]]].
  apply (res_ok_intro _ (issi 77)); try done; [by right; right|]. constructor; cbn; try done; try (unfold is_u; lia).
  intros a Ha. injection Ha as <-. unfold is_u. cbn. lia.
Qed.

Lemma test_start x : valid_time x → ∃ p s, generate_precomps test_cfg = Some p ∧ precomps_ok p ∧ bs_start 7 p x = Some s ∧
  sched_inv s ∧ allow_mcch s = true ∧ bs_ul s = ul_start x ∧ bs_dltx_queues s = [[]; []; []; []].
Proof.
  intros Hx. destruct (generate_precomps_ok test_cfg test_cfg_ok) as (p & Hp & Hok).
  destruct (bs_start_ok 7 p x Hok Hx) as (s & Hs & Hi & Hm & _). exists p, s. unfold allow_mcch. rewrite Hm.
  split_and!; try done; by injection Hs as <-.
Qed.

Definition test_time : TdmaTime := mkTime 2 16 60 65535.
Lemma test_time_ok : valid_time test_time.
Proof. apply valid_time_ranges. cbn. lia. Qed.

Definition test_ops : list sched_op :=
  [OpTma 0 (test_pdu None) (new 20) (Some test_tx); OpCapReq 1 (issi 77) Req3Slots; OpAck 3 (issi 78); OpHangtime 3 true;
   OpTick; OpFinalize true; OpHangtime 3 false; OpTakeAck 3 78; OpVoice 2 [1; 2]%Z; OpTick; OpFinalize true].

Lemma test_sched_ops_ok : Forall op_ok test_ops ∧ Forall (λ op, op_reports op = true) test_ops.
Proof.
  assert (∀ n, is_u 24 n → addr_ok (issi n)) as Ha by (by intros n Hn; split; [right; right|]).
  split; [|by repeat constructor]. repeat (apply Forall_cons; split); try done; cbn [op_ok].
  - apply test_elem_ok.
  - split; [lia|]. apply Ha. unfold is_u. lia.
  - split; [lia|]. apply Ha. unfold is_u. lia.
  - split; [|cbn; lia]. repeat (apply Forall_cons; split); try done; unfold is_u; lia.
Qed.

Lemma scheduler_run_safe_witness : ∃ p, generate_precomps test_cfg = Some p ∧
  ∃ s0 s, bs_start 7 p test_time = Some s0 ∧ sched_run test_ops s0 = Some s ∧ sched_inv s ∧
    length (queued_tx s) + length (bs_retired s) = 1 ∧
    Forall (λ r, tx_state r = tx_raw Pending) (queued_tx s) ∧ Forall tx_final (bs_retired s).
Proof.
  destruct (generate_precomps_ok test_cfg test_cfg_ok) as (p & Hp & Hok). exists p. split; [exact Hp|].
  destruct test_sched_ops_ok as [H1 H2]. exact (scheduler_run_safe 7 p test_time test_ops Hok test_time_ok H1 H2).
Defined.

Lemma granted_slot_announced_witness : ∃ s g m u1,
  ul_process_cap_req 1 (issi 77) Req3Slots (bs_ul s) = Some (Some (g, Some m), u1) ∧
  length (granted_slots 1 Req3Slots g (bs_ul s)) = 3 ∧
  Forall (λ x, ∃ d, x = add_timeslots (ul_cur_dltime u1) d ∧ (0 ≤ d ≤ 67)%Z ∧
    ∀ ops, Forall op_ok ops → Forall (λ op, op_reports op = true) ops → sched_ticks ops = (d - 1)%Z →
    ∃ s2 sl s3, sched_run ops (with_ul u1 s) = Some s2 ∧ finalize_ts_for_tick s2 = Some (sl, s3) ∧ sl_ts sl = x ∧
      hears_usage sl (UuTraffic m) ∧ ul_get_slot_owner x PbBoth (bs_ul s2) = Some (Some 77%Z))
    (granted_slots 1 Req3Slots g (bs_ul s)).
Proof.
  destruct (test_start test_time test_time_ok) as (p & s & _ & _ & _ & Hi & Hm & Hul & _). exists s.
  destruct (ul_process_cap_req 1 (issi 77) Req3Slots (bs_ul s)) as [[[[g [m|]]|] u1]|] eqn:E;
    [|rewrite Hul in E; vm_compute in E; discriminate..].
  exists g, m, u1. split; [reflexivity|]. pose proof (granted_slot_announced 1 s (issi 77) Req3Slots g m u1 ltac:(lia) Hi E) as H.
  assert (on_mcch 1 s = true) as Ho by (unfold on_mcch; rewrite Hm; reflexivity). rewrite Ho in H. exact H.
Defined.

Lemma signalling_in_priority_order_witness : ∃ s, sched_inv s ∧
  queue_of 3 s = Some [EResource (test_pdu None) (new 20) (Some test_tx); ERandomAccessAck (issi 5)] ∧
  ∃ cs buf s', build_loop 2 (mkTime 3 17 1 0) None s = Some (buf, s') ∧ buf_ok cs buf ∧ sched_inv s' ∧
  if decide (17 = 18)%Z then s' = s ∧ buf = None
  else build_all [EResource (test_pdu None) (new 20) (Some test_tx)] None (set_queue 3 [ERandomAccessAck (issi 5)] s) = Some (buf, s') ∧
    queue_of 3 s' = Some [ERandomAccessAck (issi 5)].
Proof.
  destruct (test_start test_time test_time_ok) as (p & s & _ & _ & _ & Hi & _ & _ & _).
  set (q := [EResource (test_pdu None) (new 20) (Some test_tx); ERandomAccessAck (issi 5)]). exists (set_queue 3 q s).
  assert (Forall elem_ok q) as Hq.
  { apply Forall_cons. split; [apply test_elem_ok|]. apply Forall_singleton. split; [by right; right|]. unfold is_u. cbn. lia. }
  assert (sched_inv (set_queue 3 q s)) as Hi' by (by apply set_queue_inv). split; [exact Hi'|].
  assert (queue_of 3 (set_queue 3 q s) = Some q) as Hqq by (by apply queue_set_queue). split; [exact Hqq|].
  apply (signalling_in_priority_order (mkTime 3 17 1 0) (set_queue 3 q s) q 2 Hi'); [apply valid_time_ranges; cbn; lia|exact Hqq|cbn; lia].
Defined.

Lemma leaving_hangtime_witness : ∃ s, sched_inv s ∧
  queue_of 3 s = Some [EResource (test_pdu None) (new 20) (Some test_tx); EStealing (new 124) None; ERandomAccessAck (issi 5)] ∧
  ∃ s', set_hangtime 3 false s = Some s' ∧ sched_inv s' ∧ is_hangtime 3 s' = Some false ∧
    queue_of 3 s' = Some [EStealing (new 124) None] ∧ (∀ t', t' ≠ 3%Z → queue_of t' s' = queue_of t' s) ∧
    bs_retired s' = bs_retired s ++ [mkReporter false (tx_raw Discarded)] ∧ 1 = 1 ∧
    Forall (λ r, tx_state r = tx_raw Discarded) [mkReporter false (tx_raw Discarded)] ∧
    at_ts 3 (bs_pending_ra_acks s') = (λ p, p ++ [5%Z]) <$> at_ts 3 (bs_pending_ra_acks s).
Proof.
  destruct (test_start test_time test_time_ok) as (p & s & _ & _ & _ & Hi & _ & _ & _).
  set (q := [EResource (test_pdu None) (new 20) (Some test_tx); EStealing (new 124) None; ERandomAccessAck (issi 5)]). exists (set_queue 3 q s).
  assert (Forall elem_ok q) as Hq.
  { apply Forall_cons. split; [apply test_elem_ok|]. apply Forall_cons. split; [by split; [apply wf_new, fits_small; lia|]|].
    apply Forall_singleton. split; [by right; right|]. unfold is_u. cbn. lia. }
  assert (sched_inv (set_queue 3 q s)) as Hi' by (by apply set_queue_inv). split; [exact Hi'|].
  assert (queue_of 3 (set_queue 3 q s) = Some q) as Hqq by (by apply queue_set_queue). split; [exact Hqq|].
  exact (leaving_hangtime 3 (set_queue 3 q s) q Hi' ltac:(lia) Hqq).
Defined.

(** * Where the scheduler differs from its documentation *)

Definition test_chan_alloc : ChanAllocElement :=
  mkChanAlloc Replace false true false false UdBoth false false 1001 None 0 None.

(** A second channel allocation for the control channel, deferred "to the next
    frame" of timeslot 1, is queued for whichever timeslot is finalized next: here
    timeslot 2, where no terminal listens for it. *)
Lemma deferred_alloc_misplaced :
  let pdu := test_pdu (Some test_chan_alloc) in
  (generate_precomps test_cfg ≫= λ p, bs_start 7 p (mkTime 1 1 1 0) ≫=
     sched_run [OpTma 0 pdu (new 8) None; OpTma 0 pdu (new 16) None; OpFinalize true]) ≫= (λ s, Some (bs_dltx_queues s)) =
  Some [[EResource pdu (new 8) None]; [EResource pdu (new 16) None]; []; []].
Proof. vm_compute. reflexivity. Qed.

(** A message that no timeslot can take is dropped and its receipt let go as it is:
    its sender never learns of it. *)
Lemma unroutable_not_reported pdu sdu tx s : allow_mcch s = false →
  dl_enqueue_tma pdu sdu (Some tx) s = Some (retire (Some tx) s).
Proof.
  intros Hm. unfold dl_enqueue_tma, dl_enqueue_tma_on_timeslots, identify_timeslots_for_ssi. rewrite Hm.
  destruct (mr_addr pdu); [|done]. rewrite Z.eqb_refl, orb_true_r. done.
Qed.

(** "Fully wipe the schedule" keeps what is deferred to the next slot. *)
Lemma purge_keeps_deferred s : sched_inv s → ∃ s', purge_schedule s = Some s' ∧ bs_dltx_queues s' = [[]; []; []; []] ∧
  bs_dltx_next_slot_queue s' = bs_dltx_next_slot_queue s.
Proof.
  intros Hs. unfold purge_schedule. destruct (drop_elems_ok (mjoin (bs_dltx_queues s))) with (s := s) as (rec & -> & _);
    [apply Forall_join, Hs|]. eexists. by split_and!.
Qed.
