(* ===== verification/LmacBsSpec.v ===== *)
(** The lower MAC against the scheduler above it and the terminals beyond the
    radio: slots of the scheduler are always transmitted, as full bursts, and
    what terminals send arrives at the UMAC.

    The lower MAC entity of the base station
    (tetra-entities/src/lmac/lmac_bs.rs): it codes the slots of the UMAC for the
    PHY and decodes the blocks the PHY received.

    [LmacBs] has the state of the entity less the shared configuration, of which
    it uses the main carrier number; the [HashMap]s are [gmap]s keyed by carrier
    and timeslot.  Handlers return the messages they push, in order, with their
    priority.  A received signal strength is a number that is only passed on.
    [None] is a panic. *)
From S2P Require Import Prelude Bits BitBuffer TdmaTime MacDl Scrambler ErrorControlSpec BsSchedUlSpec BsSched BitBufferSpec BitCodec BitBufferThms MacBcast BsSchedSpec BsSchedSlot BsSchedRun UmacCell.

(** * Data *)

Inductive BurstType : Type := BtCUB | BtNUB | BtNDB | BtSDB.

Inductive TrainingSequence : Type :=
| NormalTrainSeq1 | NormalTrainSeq2 | NormalTrainSeq3 | ExtendedTrainSeq | SyncTrainSeq | TrainNotFound.

#[global] Instance TrainingSequence_eq_dec : EqDecision TrainingSequence.
Proof. solve_decision. Defined.
#[global] Instance PhyBlockNum_eq_dec : EqDecision PhyBlockNum.
Proof. solve_decision. Defined.
#[global] Instance PhysicalChannel_eq_dec : EqDecision PhysicalChannel.
Proof. solve_decision. Defined.

(** A received block; [tp_ind] has its type and bits. *)
Record TpInd : Type := mkTpIndFull {
  tp_carrier_num : Z;
  tp_train_type : TrainingSequence;
  tp_burst_type : BurstType;
  tp_block_num : PhyBlockNum;
  tp_ind : TpUnitdataInd;
  tp_rssi_dbfs : Z
}.

Record TpUnitdataReqSlot : Type := mkTpSlot {
  ts_carrier_num : Z;
  ts_train_type : TrainingSequence;
  ts_burst_type : BurstType;
  ts_bbk : option BitBuffer;
  ts_blk1 : option BitBuffer;
  ts_blk2 : option BitBuffer
}.

Record TmvUnitdataInd : Type := mkTmvInd {
  ti_carrier_num : Z;
  ti_pdu : BitBuffer;
  ti_block_num : PhyBlockNum;
  ti_logical_channel : LogicalChannel;
  ti_crc_pass : bool;
  ti_scrambling_code : Z;
  ti_rssi_dbfs : Z
}.

Record TmdCircuitDataInd : Type := mkTmdInd { td_carrier_num : Z; td_ts : Z; td_data : list Z }.

(** The fields of [TmvConfigureReq] the entity looks at. *)
Record TmvConfigureReq : Type := mkTmvConfig {
  tcr_carrier_num : option Z;
  tcr_blk2_stolen : option bool;
  tcr_time : option TdmaTime
}.

Inductive LmacMsg : Type :=
| ToPhy (prim : TpUnitdataReqSlot)
| ToPhySlots (slots : list TpUnitdataReqSlot)
| ToUmacImmediate (prim : TmvUnitdataInd)
| ToUmacTraffic (prim : TmdCircuitDataInd).

Abbreviation slot_key := (Z * Z)%type.

Record LmacBs : Type := mkLmacBs {
  lm_dltime : TdmaTime;
  lm_scrambling_code : Z;
  lm_uplink_phy_chan : gmap slot_key PhysicalChannel;
  lm_blk2_stolen : gmap slot_key bool
}.

Definition lmac_new (mcc mnc colour_code : Z) : LmacBs :=
  mkLmacBs tdma_default (tetra_scramb_get_init mcc mnc colour_code) ∅ ∅.

Definition set_phy_chan (k : slot_key) (c : PhysicalChannel) (s : LmacBs) : LmacBs :=
  mkLmacBs (lm_dltime s) (lm_scrambling_code s) (<[k := c]> (lm_uplink_phy_chan s)) (lm_blk2_stolen s).
Definition set_blk2_stolen (k : slot_key) (b : bool) (s : LmacBs) : LmacBs :=
  mkLmacBs (lm_dltime s) (lm_scrambling_code s) (lm_uplink_phy_chan s) (<[k := b]> (lm_blk2_stolen s)).

(** * Reception *)

Definition determine_logical_channel_ul (blk : TpInd) (burst_is_traffic block2_stolen : bool) : LogicalChannel :=
  match tp_burst_type blk with
  | BtCUB => SchHu
  | BtNUB =>
      match tp_train_type blk with
      | NormalTrainSeq1 => if burst_is_traffic then TchS else SchF
      | NormalTrainSeq2 =>
          if bool_decide (tp_block_num blk = PbBlock1) then Stch
          else if bool_decide (tp_block_num blk = PbBlock2) then
            if negb burst_is_traffic || block2_stolen then Stch else TchS
          else Stch
      | _ => SchHu
      end
  | _ => SchHu
  end.

Definition rx_blk_traffic (blk : TpInd) (lchan : LogicalChannel) (ul_time : TdmaTime) (s : LmacBs) : option (list LmacMsg) :=
  if negb (bool_decide (lchan = TchS)) || negb (bool_decide (tp_block_num blk = PbBoth)) then Some []
  else
    '(decoded, _) ← decode_tp lchan (block (tp_ind blk)) (lm_scrambling_code s);
    match decoded with
    | None => Some []
    | Some acelp_bits =>
        '(data, _) ← exec (seek 0;; to_bitarr (get_len acelp_bits)) acelp_bits;
        Some [ToUmacTraffic (mkTmdInd (tp_carrier_num blk) (tt_t ul_time) data)]
    end.

Definition rx_blk_control (blk : TpInd) (lchan : LogicalChannel) (s : LmacBs) : option (list LmacMsg) :=
  if negb (is_control_channel lchan) || bool_decide (lchan = Aach) then Some []
  else
    '(type1bits, crc_pass) ← decode_cp lchan (tp_ind blk) (Some (lm_scrambling_code s));
    match type1bits with
    | None => Some []
    | Some type1bits =>
        if negb (crc_pass : bool) then Some []
        else Some [ToUmacImmediate (mkTmvInd (tp_carrier_num blk) type1bits (tp_block_num blk) lchan crc_pass
                                      (lm_scrambling_code s) (tp_rssi_dbfs blk))]
    end.

Definition rx_tp_prim (prim : TpInd) (s : LmacBs) : option (LmacBs * list LmacMsg) :=
  let msg_dltime := add_timeslots (lm_dltime s) (-2) in
  let key := (tp_carrier_num prim, tt_t msg_dltime) in
  let pchan := default PcUnallocated (lm_uplink_phy_chan s !! key) in
  let blk2_stolen := default false (lm_blk2_stolen s !! key) in
  let lchan := determine_logical_channel_ul prim (bool_decide (pchan = Tp)) blk2_stolen in
  let s := if bool_decide (tp_block_num prim = PbBlock1) && blk2_stolen then set_blk2_stolen key false s else s in
  if negb (bool_decide (pchan = Tp)) && blk2_stolen then Some (set_blk2_stolen key false s, [])
  else
    match lchan with
    | Clch => Some (s, [])
    | TchS | Tch24 | Tch48 | Tch72 => out ← rx_blk_traffic prim lchan msg_dltime s; Some (s, out)
    | SchF | SchHu | Stch => out ← rx_blk_control prim lchan s; Some (s, out)
    | _ => Some (s, [])
    end.

(** * Requests of the UMAC *)

(** [main_carrier] is the configured main carrier. *)
Definition rx_tmv_configure_req (main_carrier : Z) (prim : TmvConfigureReq) (s : LmacBs) : LmacBs :=
  let carrier_num := default main_carrier (tcr_carrier_num prim) in
  match tcr_time prim, tcr_blk2_stolen prim with
  | Some time, Some stolen => set_blk2_stolen (carrier_num, tt_t time) stolen s
  | _, _ => s
  end.

(** The burst for a slot, or a slot that is dropped. *)
Definition determine_burst (blk1 : TmvUnitdataReq) (blk2 : option TmvUnitdataReq) : option (BurstType * TrainingSequence) :=
  match logical_channel blk1 with
  | Bsch => if is_none blk2 then None else Some (BtSDB, SyncTrainSeq)
  | SchF | TchS | Tch24 | Tch48 | Tch72 => Some (BtNDB, NormalTrainSeq1)
  | SchHd | Stch | Bnch => if is_none blk2 then None else Some (BtNDB, NormalTrainSeq2)
  | _ => None
  end.

Definition encode_blk (b : TmvUnitdataReq) (blk_num : Z) : option BitBuffer :=
  if is_traffic (logical_channel b) then encode_tp b blk_num else encode_cp b.

(** The slot for the PHY; [Some None] is a dropped slot. *)
Definition encode_slot (prim : TmvUnitdataReqSlot) : option (option TpUnitdataReqSlot) :=
  match sl_bbk prim, sl_blk1 prim with
  | Some bbk, Some blk1 =>
      match determine_burst blk1 (sl_blk2 prim) with
      | Some (burst_type, train_type) =>
          bbk ← encode_aach (mac_block bbk) (scrambling_code bbk);
          b1 ← encode_blk blk1 1;
          b2 ← match sl_blk2 prim with Some blk2 => Some <$> encode_blk blk2 2 | None => Some None end;
          Some (Some (mkTpSlot (sl_carrier_num prim) train_type burst_type (Some bbk) (Some b1) b2))
      | None => Some None
      end
  | _, _ => Some None
  end.

Definition note_phy_chan (prim : TmvUnitdataReqSlot) (s : LmacBs) : LmacBs :=
  set_phy_chan (sl_carrier_num prim, tt_t (sl_ts prim)) (sl_ul_phy_chan prim) s.

Definition rx_tmv_unitdata_req_slot (prim : TmvUnitdataReqSlot) (s : LmacBs) : option (LmacBs * list LmacMsg) :=
  out ← encode_slot prim;
  Some (note_phy_chan prim s, match out with Some p => [ToPhy p] | None => [] end).

Fixpoint encode_slots (batch : list TmvUnitdataReqSlot) (s : LmacBs) : option (LmacBs * list TpUnitdataReqSlot) :=
  match batch with
  | [] => Some (s, [])
  | prim :: batch =>
      out ← encode_slot prim;
      '(s, slots) ← encode_slots batch (note_phy_chan prim s);
      Some (s, option_list out ++ slots)
  end.

Definition rx_tmv_unitdata_req_slots (batch : list TmvUnitdataReqSlot) (s : LmacBs) : option (LmacBs * list LmacMsg) :=
  '(s, phy_slots) ← encode_slots batch s;
  Some (s, [ToPhySlots phy_slots]).

Definition lmac_tick_start (ts : TdmaTime) (s : LmacBs) : LmacBs :=
  mkLmacBs ts (lm_scrambling_code s) (lm_uplink_phy_chan s) (lm_blk2_stolen s).

#[local] Opaque add_timeslots forward_to_timeslot slot_index.

(** * Transmission *)

Lemma encode_control b : fits_channel b → is_control_channel (logical_channel b) = true → logical_channel b ≠ Aach →
  ∃ bb p, encode_cp b = Some bb ∧ get_params (logical_channel b) = Some p ∧ get_len bb = type345_bits p.
Proof.
  intros (Hwf & Hpos & p & Hp & Hl) Hc Ha.
  destruct (cp_roundtrip (logical_channel b) p (scrambling_code b) (mac_block b) NDB (Some (scrambling_code b)) Hc Ha Hp Hwf Hl)
    as (bb & bb1 & He & _ & _ & Hlen); [done|]. exists bb, p. by split_and!.
Qed.

Lemma encode_speech b blk : fits_channel b → logical_channel b = TchS → ∃ bb, encode_tp b blk = Some bb ∧
  get_len bb = if (blk =? 1)%Z then 432 else 216.
Proof.
  intros (Hwf & Hpos & p & Hp & Hl) Hc. rewrite Hc in Hp. injection Hp as <-. destruct b as [bb lc code]. cbn in *. subst lc.
  destruct (Z.eqb_spec blk 1) as [->|Hne].
  - destruct (tp_roundtrip bb code Hwf Hl) as (bb5 & _ & He & _ & _ & Hlen). by exists bb5.
  - destruct (encode_tp_half_slot bb code blk Hwf Hl Hne) as (full & half & bits & Hf & Hh & He & Hhalf). exists half. split; [done|].
    destruct (tp_roundtrip bb code Hwf Hl) as (bb5 & _ & He5 & _ & _ & Hlen). rewrite Hf in He5. injection He5 as <-.
    destruct (holds_len _ _ Hh) as [Hlf _]. destruct (holds_len _ _ Hhalf) as [-> _]. rewrite length_drop. lia.
Qed.

(** The bursts of the downlink: 30 bits of the broadcast block, then the full
    slot of 432 bits in one or two blocks, or 120 bits of synchronisation and the
    other half. *)
Definition full_burst (p : TpUnitdataReqSlot) : Prop :=
  ∃ bbk b1, ts_bbk p = Some bbk ∧ ts_blk1 p = Some b1 ∧ get_len bbk = 30 ∧
  match ts_burst_type p, ts_train_type p with
  | BtSDB, SyncTrainSeq => get_len b1 = 120 ∧ ∃ b2, ts_blk2 p = Some b2 ∧ get_len b2 = 216
  | BtNDB, NormalTrainSeq1 => get_len b1 = 432 ∧ ts_blk2 p = None
  | BtNDB, NormalTrainSeq2 => get_len b1 = 216 ∧ ∃ b2, ts_blk2 p = Some b2 ∧ get_len b2 = 216
  | _, _ => False
  end.

Lemma encode_blk_ok b blk lc : fits_channel b → logical_channel b = lc → lc ≠ Aach → is_control_channel lc = true ∨ lc = TchS →
  ∃ bb, encode_blk b blk = Some bb ∧
    get_len bb = match lc with
      | TchS => if (blk =? 1)%Z then 432 else 216 | SchF => 432 | Bsch => 120 | SchHu => 168 | _ => 216 end.
Proof.
  intros Hf <- Ha Hk. unfold encode_blk. destruct Hk as [Hc|Hc].
  - destruct (encode_control b Hf Hc Ha) as (bb & p & He & Hp & Hl). exists bb.
    destruct (logical_channel b); try done; injection Hp as <-; done.
  - rewrite Hc. by apply encode_speech.
Qed.

Lemma encode_slot_ok sl : complete sl → ∃ p, encode_slot sl = Some (Some p) ∧ full_burst p ∧ ts_carrier_num p = sl_carrier_num sl.
Proof.
  intros (b1 & bbk & Hb1 & Hbbk & Hf1 & Hfk & Hlk & Hsh). unfold encode_slot. rewrite Hb1, Hbbk.
  assert (∃ k, encode_aach (mac_block bbk) (scrambling_code bbk) = Some k ∧ get_len k = 30) as (k & Hk & Hkl).
  { destruct Hfk as (Hwf & Hpos & p & Hp & Hl). rewrite Hlk in Hp. injection Hp as <-.
    destruct (aach_error_ok (mac_block bbk) (scrambling_code bbk) Hwf) as (k & bits & He & Hh & Hl30 & _).
    - unfold get_len, get_pos, get_len_remaining in *. cbn in Hl. pose proof (wf_start _ Hwf). pose proof (wf_pos _ Hwf). lia.
    - exists k. split; [done|]. by destruct (holds_len _ _ Hh) as [-> _]. }
  unfold determine_burst. destruct (logical_channel b1) eqn:E1; try done.
  all: destruct (encode_blk_ok b1 1 _ Hf1 E1) as (e1 & He1 & Hl1); [done|auto|].
  1, 3, 5: destruct Hsh as (b2 & Hb2 & Hf2 & Hl2); destruct (encode_blk_ok b2 2 _ Hf2 Hl2) as (e2 & He2 & Hle2); [done|auto|];
    rewrite Hb2, Hk, He1, He2; cbn; eexists; (split; [reflexivity|]); (split; [|reflexivity]);
    exists k, e1; split_and!; try done; cbn; split; [done|by exists e2].
  all: rewrite Hsh, Hk, He1; cbn; eexists; (split; [reflexivity|]); (split; [|reflexivity]); exists k, e1; by split_and!.
Qed.


(** C6: Every tick is transmitted.  From any well-formed state of the scheduler,
    finalizing a slot yields blocks of exactly the sizes the channel coder takes:
    the lower MAC neither drops the slot nor panics, remembers for the uplink
    whether the slot carries traffic, and hands the PHY a complete burst (30 bits
    of broadcast block and a full slot of data, or the two halves of a
    synchronisation burst) on the scheduler's carrier. *)
Theorem every_tick_transmitted emit s lm : sched_inv s → ∃ sl s' p lm',
  finalize_ts_for_tick_inner emit s = Some (sl, s') ∧ sched_inv s' ∧ sl_ts sl = add_timeslots (cur_dltime s) 1 ∧
  rx_tmv_unitdata_req_slot sl lm = Some (lm', [ToPhy p]) ∧ full_burst p ∧ ts_carrier_num p = bs_carrier_num s ∧
  lm_uplink_phy_chan lm' !! (bs_carrier_num s, tt_t (sl_ts sl)) = Some (sl_ul_phy_chan sl).
Proof.
  intros Hs. destruct (finalize_ok emit s Hs) as (sl & s' & Hf & Hk & _). destruct (encode_slot_ok sl (tk_complete _ _ _ Hk)) as (p & He & Hp & Hc).
  exists sl, s', p, (note_phy_chan sl lm). unfold rx_tmv_unitdata_req_slot. rewrite He. cbn [mbind option_bind].
  rewrite (tk_carrier _ _ _ Hk) in Hc. split_and!; try done; [apply Hk|apply (tk_time _ _ _ Hk)|].
  unfold note_phy_chan. cbn. rewrite (tk_carrier _ _ _ Hk). apply lookup_insert_eq.
Qed.

Lemma every_tick_transmitted_witness : ∃ s, (generate_precomps test_cfg ≫= λ p, bs_start 7 p (mkTime 4 18 60 65535)) = Some s ∧
  ∃ sl s' p lm', finalize_ts_for_tick_inner true s = Some (sl, s') ∧ sched_inv s' ∧ sl_ts sl = add_timeslots (cur_dltime s) 1 ∧
  rx_tmv_unitdata_req_slot sl (lmac_new 204 1337 1) = Some (lm', [ToPhy p]) ∧ full_burst p ∧ ts_carrier_num p = bs_carrier_num s ∧
  lm_uplink_phy_chan lm' !! (bs_carrier_num s, tt_t (sl_ts sl)) = Some (sl_ul_phy_chan sl).
Proof.
  destruct (generate_precomps_ok test_cfg test_cfg_ok) as (p & -> & Hp). cbn [mbind option_bind].
  destruct (bs_start_ok 7 p (mkTime 4 18 60 65535) Hp) as (s & Hs & Hi & _); [apply valid_time_ranges; cbn; lia|].
  exists s. split; [exact Hs|]. apply (every_tick_transmitted true s (lmac_new 204 1337 1)). exact Hi.
Defined.

(** * Reception *)

(** What the entity knows of the slot a burst arrives in. *)
Definition ul_key (carrier : Z) (lm : LmacBs) : slot_key := (carrier, tt_t (add_timeslots (lm_dltime lm) (-2))).
Definition ul_chan (carrier : Z) (lm : LmacBs) : PhysicalChannel := default PcUnallocated (lm_uplink_phy_chan lm !! ul_key carrier lm).
Definition ul_stolen (carrier : Z) (lm : LmacBs) : bool := default false (lm_blk2_stolen lm !! ul_key carrier lm).

(** The entity after a burst has been looked at: a first half slot clears the mark. *)
Definition settled (prim : TpInd) (lm : LmacBs) : LmacBs :=
  if bool_decide (tp_block_num prim = PbBlock1) && ul_stolen (tp_carrier_num prim) lm
  then set_blk2_stolen (ul_key (tp_carrier_num prim) lm) false lm else lm.

(** A mark that the second half slot is stolen, left over on a slot without traffic. *)
Definition stale_mark (carrier : Z) (lm : LmacBs) : bool :=
  negb (bool_decide (ul_chan carrier lm = Tp)) && ul_stolen carrier lm.

Lemma settled_clean prim lm : ul_stolen (tp_carrier_num prim) lm = false → settled prim lm = lm.
Proof. intros Hs. unfold settled. by rewrite Hs, andb_false_r. Qed.

Lemma settled_code prim lm : lm_scrambling_code (settled prim lm) = lm_scrambling_code lm.
Proof. unfold settled. by case_match. Qed.

(** Whatever the burst is, the mark costs it. *)
Lemma stale_dropped prim lm : stale_mark (tp_carrier_num prim) lm = true →
  ∃ lm', rx_tp_prim prim lm = Some (lm', []) ∧ ul_stolen (tp_carrier_num prim) lm' = false ∧
    lm_uplink_phy_chan lm' = lm_uplink_phy_chan lm ∧ lm_dltime lm' = lm_dltime lm.
Proof.
  intros Hs. unfold rx_tp_prim. cbv zeta. fold (ul_key (tp_carrier_num prim) lm) (ul_chan (tp_carrier_num prim) lm) (ul_stolen (tp_carrier_num prim) lm).
  unfold stale_mark in Hs. rewrite Hs. eexists. split; [reflexivity|]. set (b := bool_decide (tp_block_num prim = PbBlock1) && _).
  split_and!; [|by destruct b..]. unfold ul_stolen, ul_key. destruct b; cbn; by rewrite lookup_insert_eq.
Qed.

Lemma control_delivered prim lm lchan p bb : tp_burst_type prim = BtCUB ∨ tp_burst_type prim = BtNUB →
  determine_logical_channel_ul prim (bool_decide (ul_chan (tp_carrier_num prim) lm = Tp)) (ul_stolen (tp_carrier_num prim) lm) = lchan →
  stale_mark (tp_carrier_num prim) lm = false → is_control_channel lchan = true →
  get_params lchan = Some p → wf bb → get_len bb = type1_bits p → block_type (tp_ind prim) ≠ SB1 →
  encode_cp (mkTmvReq bb lchan (lm_scrambling_code lm)) = Some (block (tp_ind prim)) →
  ∃ pdu, rx_tp_prim prim lm = Some (settled prim lm, [ToUmacImmediate (mkTmvInd (tp_carrier_num prim) pdu (tp_block_num prim) lchan true
      (lm_scrambling_code lm) (tp_rssi_dbfs prim))]) ∧ holds pdu (window bb).
Proof.
  intros Hb Hl Hst Hc Hp Hwf Hlen Hbt He.
  assert (lchan = SchF ∨ lchan = SchHu ∨ lchan = Stch) as Hk.
  { subst lchan. unfold determine_logical_channel_ul in *. repeat case_match; auto; done. }
  assert (lchan ≠ Aach) as Ha by (by destruct Hk as [->|[->| ->]]).
  destruct (cp_roundtrip lchan p (lm_scrambling_code lm) bb (block_type (tp_ind prim)) (Some (lm_scrambling_code lm)) Hc Ha Hp Hwf Hlen)
    as (rx & pdu & He' & Hd & Hh & _); [by rewrite bool_decide_false|]. rewrite He in He'. injection He' as <-.
  exists pdu. split; [|done]. unfold rx_tp_prim. cbv zeta. fold (ul_key (tp_carrier_num prim) lm) (ul_chan (tp_carrier_num prim) lm) (ul_stolen (tp_carrier_num prim) lm).
  fold (settled prim lm). unfold stale_mark in Hst. rewrite Hl, Hst.
  assert (rx_blk_control prim lchan (settled prim lm) = Some [ToUmacImmediate (mkTmvInd (tp_carrier_num prim) pdu (tp_block_num prim) lchan true
      (lm_scrambling_code lm) (tp_rssi_dbfs prim))]) as Hrx.
  { unfold rx_blk_control. rewrite settled_code, Hc, bool_decide_false by done. cbn [negb orb]. destruct (tp_ind prim) as [bt b]. cbn [block_type block] in *.
    rewrite Hd. done. }
  destruct Hk as [->|[->| ->]]; cbn [mbind option_bind]; by rewrite Hrx.
Qed.

Lemma speech_delivered prim lm bb : tp_burst_type prim = BtNUB → tp_train_type prim = NormalTrainSeq1 → tp_block_num prim = PbBoth →
  ul_chan (tp_carrier_num prim) lm = Tp → wf bb → get_len bb = 274 →
  encode_tp (mkTmvReq bb TchS (lm_scrambling_code lm)) 1 = Some (block (tp_ind prim)) →
  rx_tp_prim prim lm = Some (lm, [ToUmacTraffic (mkTmdInd (tp_carrier_num prim) (tt_t (add_timeslots (lm_dltime lm) (-2))) (bitarr (window bb)))]).
Proof.
  intros Hb Ht Hn Hch Hwf Hlen He. unfold rx_tp_prim. cbv zeta.
  fold (ul_key (tp_carrier_num prim) lm) (ul_chan (tp_carrier_num prim) lm) (ul_stolen (tp_carrier_num prim) lm).
  unfold determine_logical_channel_ul. rewrite Hb, Ht, Hch, Hn. rewrite (bool_decide_true (Tp = Tp)) by done.
  rewrite (bool_decide_false (PbBoth = PbBlock1)) by done. cbn [negb andb].
  destruct (tp_roundtrip bb (lm_scrambling_code lm) Hwf Hlen) as (rx & pdu & He' & Hd & Hh & _). rewrite He in He'. injection He' as <-.
  unfold rx_blk_traffic. rewrite Hn. rewrite !bool_decide_true by done. cbn [negb orb]. rewrite Hd. cbn [mbind option_bind].
  destruct (holds_len _ _ Hh) as [Hl _]. destruct (exec_seek_to_bitarr pdu _ _ Hh eq_refl) as (pdu' & Hx). rewrite Hl, Hx. done.
Qed.

Lemma encode_slots_chan batch k : Forall (λ sl, (sl_carrier_num sl, tt_t (sl_ts sl)) ≠ k) batch → ∀ lm lm' out,
  encode_slots batch lm = Some (lm', out) → lm_uplink_phy_chan lm' !! k = lm_uplink_phy_chan lm !! k ∧
    lm_scrambling_code lm' = lm_scrambling_code lm ∧ lm_blk2_stolen lm' = lm_blk2_stolen lm.
Proof.
  induction 1 as [|sl batch Hne _ IH]; intros lm lm' out; cbn [encode_slots]; [by intros [= <- <-]|].
  destruct (encode_slot sl) as [o|]; [|done]. cbn [mbind option_bind].
  destruct (encode_slots batch (note_phy_chan sl lm)) as [[lm1 slots]|] eqn:E; [|done]. cbn [mbind option_bind]. intros [= <- <-].
  destruct (IH _ _ _ E) as (-> & -> & ->). split_and!; try done. cbn. by rewrite lookup_insert_ne.
Qed.

Lemma tt_t_add x d : valid_time x → (-1000 ≤ d ≤ 1000)%Z → tt_t (add_timeslots x d) = ((tt_t x - 1 + d) mod 4 + 1)%Z.
Proof.
  intros Hx Hd. destruct (ring_pos_fields _ (add_valid x d)) as [-> _]. rewrite ring_pos_add by done. unfold ring_pos.
  Z.div_mod_to_equations. lia.
Qed.

(** The slots that were sent up to two slots after [sl], when the bursts of [sl] arrive. *)
Definition sent_since (sl : TmvUnitdataReqSlot) (later : list TmvUnitdataReqSlot) : Prop :=
  Forall (λ sl', sl_carrier_num sl' ≠ sl_carrier_num sl ∨
    ∃ d, (1 ≤ d ≤ 3)%Z ∧ sl_ts sl' = add_timeslots (sl_ts sl) d) later.

Lemma chan_kept sl later lm0 lm1 out lm : valid_time (sl_ts sl) → sent_since sl later →
  encode_slots (sl :: later) lm0 = Some (lm1, out) → lm = lmac_tick_start (add_timeslots (sl_ts sl) 2) lm1 →
  ul_chan (sl_carrier_num sl) lm = sl_ul_phy_chan sl ∧ tt_t (add_timeslots (lm_dltime lm) (-2)) = tt_t (sl_ts sl) ∧
  lm_scrambling_code lm = lm_scrambling_code lm0.
Proof.
  intros Hv Hl Hs ->. pose proof Hv as Hr%valid_time_ranges.
  assert (tt_t (add_timeslots (add_timeslots (sl_ts sl) 2) (-2)) = tt_t (sl_ts sl)) as Ht.
  { rewrite add_add by (done || lia). rewrite tt_t_add by (done || lia). rewrite Z.mod_small by lia. lia. }
  cbn [encode_slots] in Hs. destruct (encode_slot sl) as [o|]; [|done]. cbn [mbind option_bind] in Hs.
  destruct (encode_slots later (note_phy_chan sl lm0)) as [[lm2 slots]|] eqn:E; [|done]. cbn [mbind option_bind] in Hs. injection Hs as <- <-.
  destruct (encode_slots_chan later (sl_carrier_num sl, tt_t (sl_ts sl))) with (2 := E) as (Hc & Hcode & _).
  { eapply Forall_impl; [exact Hl|]. intros sl' [Hne|(d & Hd & Heq)] [=]; [done|]. rewrite Heq, tt_t_add in * by (done || lia).
    assert ((tt_t (sl_ts sl) - 1 + d) mod 4 ≠ tt_t (sl_ts sl) - 1)%Z; [|lia]. Z.div_mod_to_equations. lia. }
  split_and!; [|done|done]. unfold ul_chan, ul_key. cbn [lmac_tick_start lm_dltime lm_uplink_phy_chan]. rewrite Ht, Hc.
  unfold note_phy_chan. cbn. by rewrite lookup_insert_eq.
Qed.

(** C24: The uplink.  Say the lower MAC has transmitted the slot [sl] and then the
    slots after it, up to three further on and on any carriers, and the clock is
    two slots past [sl], when the bursts of [sl] arrive.  If the UMAC marked the
    second half of this carrier's timeslot as stolen, the mark was not used up,
    and [sl] was not announced as traffic, the first burst that arrives is dropped,
    whatever it is, and the mark with it.  Otherwise what a terminal of
    the cell sends over an error-free channel reaches the UMAC bit for bit: a
    random access burst; a full slot of signalling where the scheduler had
    announced a control slot; and a full slot of speech, for the timeslot of
    [sl], where it had announced traffic. *)
Theorem uplink_delivered sl later lm0 lm1 out lm prim bb :
  valid_time (sl_ts sl) → sent_since sl later → encode_slots (sl :: later) lm0 = Some (lm1, out) →
  lm = lmac_tick_start (add_timeslots (sl_ts sl) 2) lm1 →
  tp_carrier_num prim = sl_carrier_num sl → wf bb → block_type (tp_ind prim) ≠ SB1 →
  if ul_stolen (sl_carrier_num sl) lm && negb (bool_decide (sl_ul_phy_chan sl = Tp)) then
    ∃ lm', rx_tp_prim prim lm = Some (lm', []) ∧ ul_stolen (sl_carrier_num sl) lm' = false
  else
    (tp_burst_type prim = BtCUB → get_len bb = 92 →
     encode_cp (mkTmvReq bb SchHu (lm_scrambling_code lm0)) = Some (block (tp_ind prim)) →
     ∃ pdu, holds pdu (window bb) ∧ rx_tp_prim prim lm = Some (settled prim lm, [ToUmacImmediate
       (mkTmvInd (sl_carrier_num sl) pdu (tp_block_num prim) SchHu true (lm_scrambling_code lm0) (tp_rssi_dbfs prim))])) ∧
    (tp_burst_type prim = BtNUB → tp_train_type prim = NormalTrainSeq1 → sl_ul_phy_chan sl ≠ Tp → get_len bb = 268 →
     encode_cp (mkTmvReq bb SchF (lm_scrambling_code lm0)) = Some (block (tp_ind prim)) →
     ∃ pdu, holds pdu (window bb) ∧ rx_tp_prim prim lm = Some (lm, [ToUmacImmediate
       (mkTmvInd (sl_carrier_num sl) pdu (tp_block_num prim) SchF true (lm_scrambling_code lm0) (tp_rssi_dbfs prim))])) ∧
    (tp_burst_type prim = BtNUB → tp_train_type prim = NormalTrainSeq1 → tp_block_num prim = PbBoth → sl_ul_phy_chan sl = Tp →
     get_len bb = 274 → encode_tp (mkTmvReq bb TchS (lm_scrambling_code lm0)) 1 = Some (block (tp_ind prim)) →
     rx_tp_prim prim lm = Some (lm, [ToUmacTraffic (mkTmdInd (sl_carrier_num sl) (tt_t (sl_ts sl)) (bitarr (window bb)))])).
Proof.
  intros Hv Hl Hs Hlm Hcn Hwf Hbt. destruct (chan_kept _ _ _ _ _ _ Hv Hl Hs Hlm) as (Hch & Ht & Hcode).
  rewrite <-Hcn, <-Hcode in *. rewrite <-Ht, andb_comm, <-Hch. fold (stale_mark (tp_carrier_num prim) lm).
  destruct (stale_mark (tp_carrier_num prim) lm) eqn:Hst; [destruct (stale_dropped prim lm Hst) as (lm' & ? & ? & _); by exists lm'|]. split_and!.
  - intros Hb Hlen He. destruct (control_delivered prim lm SchHu SCH_HU_PARAMS bb) as (pdu & Hrx & Hh); try done; [by left| |by exists pdu].
    unfold determine_logical_channel_ul. by rewrite Hb.
  - intros Hb Htr Hne Hlen He. destruct (control_delivered prim lm SchF SCH_F_PARAMS bb) as (pdu & Hrx & Hh); try done; [by right| |].
    + unfold determine_logical_channel_ul. rewrite Hb, Htr. by rewrite bool_decide_false.
    + exists pdu. split; [done|]. unfold stale_mark in Hst. rewrite bool_decide_false in Hst by done. by rewrite settled_clean in Hrx.
  - intros Hb Htr Hn Hc Hlen He. by apply speech_delivered.
Qed.

Lemma uplink_delivered_witness :
  let sl := mkSlot 1001 (mkTime 1 18 60 65535) Cp None None None in
  let lm0 := lmac_new 204 1337 1 in
  let lm := lmac_tick_start (add_timeslots (sl_ts sl) 2) (note_phy_chan sl lm0) in
  ∃ rx, encode_cp (mkTmvReq (new 92) SchHu (lm_scrambling_code lm0)) = Some rx ∧
    let prim := mkTpIndFull 1001 ExtendedTrainSeq BtCUB PbBlock1 (mkTpInd SSN1 rx) 0 in
    ∃ pdu, holds pdu (window (new 92)) ∧ rx_tp_prim prim lm = Some (lm, [ToUmacImmediate
     (mkTmvInd 1001 pdu PbBlock1 SchHu true (lm_scrambling_code lm0) 0)]).
Proof.
  intros sl lm0 lm. assert (wf (new 92)) as Hwf by (apply wf_new, fits_small; lia).
  destruct (cp_roundtrip SchHu SCH_HU_PARAMS (lm_scrambling_code lm0) (new 92) SSN1 (Some (lm_scrambling_code lm0))) as (rx & _ & Hrx & _);
    [reflexivity|discriminate|reflexivity|exact Hwf|reflexivity|reflexivity|]. exists rx. split; [exact Hrx|]. intros prim.
  pose proof (uplink_delivered sl [] lm0 (note_phy_chan sl lm0) [] lm prim (new 92)) as H.
  assert (ul_stolen (sl_carrier_num sl) lm = false) as Hst by (vm_compute; reflexivity). rewrite Hst in H. cbn [andb] in H.
  destruct H as (H & _); [apply valid_time_ranges; cbn; lia|constructor|reflexivity|reflexivity|reflexivity|exact Hwf|discriminate|].
  rewrite (settled_clean prim lm Hst) in H. apply H; [reflexivity|reflexivity|exact Hrx].
Defined.
