(* ===== verification/Saps.v ===== *)
(** Service primitives between the layers (tetra-saps, tetra-core/sap_fields.rs,
    tetra_common.rs, tetra_entities.rs), as far as the LLC, the MLE and SNDCP take
    part in them.

    A [TxReporter] in a message is a handle: all clones of one reporter share one
    atomic state, which lives in a store of receipts ([TxStore]).  [Todo] is an
    [i32], [EndpointId] and [LinkId] are [u32]s; all of them are [Z]. *)
From S2P Require Import Prelude Bits Core BitBuffer TdmaTime TxReceipt MacDl.

Inductive Sap : Type :=
| TpSap | TpcSap | TmvSap | TmaSap | TmdSap | TlaSap | TlmbSap | TlmcSap | LmmSap | LcmcSap
| TnccSap | TnssSap | TnsdsSap | TlpdSap | TnmmSap | ControlSap.

Inductive TetraEntity : Type :=
| Phy | Lmac | Umac | Llc_ | Mle | Mm | Cmce | Sndcp | User | Brew | Asterisk.

#[global] Instance TetraEntity_eq_dec : EqDecision TetraEntity.
Proof. solve_decision. Defined.

Inductive Layer2Service : Type := L2Todo | L2Acknowledged | L2Unacknowledged.

#[global] Instance Layer2Service_eq_dec : EqDecision Layer2Service.
Proof. solve_decision. Defined.

(** * Receipts *)

Abbreviation TxHandle := nat.
Abbreviation TxStore := (gmap TxHandle TxReporter).

(** * Primitives *)

Record CmceChanAllocReq : Type := mkChanAllocReq {
  car_usage : option Z;
  car_carrier : option Z;
  car_timeslots : list bool;
  car_alloc_type : ChanAllocType;
  car_ul_dl_assigned : UlDlAssignment
}.

Record TmaUnitdataReq : Type := mkTmaReq {
  tmar_carrier_num : option Z;
  tmar_req_handle : Z;
  tmar_pdu : BitBuffer;
  tmar_main_address : TetraAddress;
  tmar_link_id : Z;
  tmar_endpoint_id : Z;
  tmar_stealing_permission : bool;
  tmar_subscriber_class : Z;
  tmar_air_interface_encryption : option Z;
  tmar_stealing_repeats_flag : option bool;
  tmar_data_category : option Z;
  tmar_chan_alloc : option CmceChanAllocReq;
  tmar_tx_reporter : option TxHandle
}.

Record TmaUnitdataInd : Type := mkTmaInd {
  tmai_carrier_num : Z;
  tmai_pdu : option BitBuffer;
  tmai_main_address : TetraAddress;
  tmai_scrambling_code : Z;
  tmai_link_id : Z;
  tmai_endpoint_id : Z;
  tmai_new_endpoint_id : option Z;
  tmai_css_endpoint_id : option Z;
  tmai_air_interface_encryption : Z;
  tmai_chan_change_response_req : bool;
  tmai_chan_change_handle : option Z;
  tmai_chan_info : option Z
}.

Inductive TmaReport : Type :=
| ConfirmHandle | SuccessRandomAccess | SuccessReservedOrStealing | FailedTransfer
| FragmentationFailure | RandomAccessFailure.

Record TmaReportInd : Type := mkTmaReport { tmrp_req_handle : Z; tmrp_report : TmaReport }.

Record TlaTlDataReqBl : Type := mkTlDataReq {
  tldr_main_address : TetraAddress;
  tldr_link_id : Z;
  tldr_endpoint_id : Z;
  tldr_tl_sdu : BitBuffer;
  tldr_stealing_permission : bool;
  tldr_subscriber_class : Z;
  tldr_fcs_flag : bool;
  tldr_air_interface_encryption : option Z;
  tldr_stealing_repeats_flag : option bool;
  tldr_data_class_info : option Z;
  tldr_req_handle : Z;
  tldr_graceful_degradation : option Z;
  tldr_chan_alloc : option CmceChanAllocReq;
  tldr_tx_reporter : option TxHandle
}.

Record TlaTlUnitdataReqBl : Type := mkTlUnitdataReq {
  tlur_main_address : TetraAddress;
  tlur_link_id : Z;
  tlur_endpoint_id : Z;
  tlur_tl_sdu : BitBuffer;
  tlur_stealing_permission : bool;
  tlur_subscriber_class : Z;
  tlur_fcs_flag : bool;
  tlur_air_interface_encryption : option Z;
  tlur_packet_data_flag : bool;
  tlur_n_tlsdu_repeats : Z;
  tlur_data_class_info : option Z;
  tlur_req_handle : Z;
  tlur_chan_alloc : option CmceChanAllocReq;
  tlur_tx_reporter : option TxHandle
}.

Record TlaTlDataIndBl : Type := mkTlDataInd {
  tldi_main_address : TetraAddress;
  tldi_link_id : Z;
  tldi_endpoint_id : Z;
  tldi_new_endpoint_id : option Z;
  tldi_css_endpoint_id : option Z;
  tldi_tl_sdu : option BitBuffer;
  tldi_scrambling_code : Z;
  tldi_fcs_flag : bool;
  tldi_air_interface_encryption : Z;
  tldi_chan_change_resp_req : bool;
  tldi_chan_change_handle : option Z;
  tldi_chan_info : option Z;
  tldi_req_handle : Z
}.

Record TlaTlUnitdataIndBl : Type := mkTlUnitdataInd {
  tlui_main_address : TetraAddress;
  tlui_link_id : Z;
  tlui_endpoint_id : Z;
  tlui_new_endpoint_id : option Z;
  tlui_css_endpoint_id : option Z;
  tlui_tl_sdu : option BitBuffer;
  tlui_scrambling_code : Z;
  tlui_fcs_flag : bool;
  tlui_air_interface_encryption : Z;
  tlui_chan_change_resp_req : bool;
  tlui_chan_change_handle : option Z;
  tlui_chan_info : option Z;
  tlui_report : option Z
}.

Record LmmMleUnitdataReq : Type := mkLmmReq {
  lmmr_sdu : BitBuffer;
  lmmr_handle : Z;
  lmmr_address : TetraAddress;
  lmmr_layer2service : Layer2Service;
  lmmr_stealing_permission : bool;
  lmmr_stealing_repeats_flag : bool;
  lmmr_encryption_flag : bool;
  lmmr_is_null_pdu : bool;
  lmmr_tx_reporter : option TxHandle
}.

Record LmmMleUnitdataInd : Type := mkLmmInd {
  lmmi_sdu : BitBuffer;
  lmmi_handle : Z;
  lmmi_received_address : TetraAddress
}.

Record LcmcMleUnitdataReq : Type := mkLcmcReq {
  lcmr_sdu : BitBuffer;
  lcmr_handle : Z;
  lcmr_endpoint_id : Z;
  lcmr_link_id : Z;
  lcmr_layer2service : Layer2Service;
  lcmr_pdu_prio : Z;
  lcmr_layer2_qos : Z;
  lcmr_stealing_permission : bool;
  lcmr_stealing_repeats_flag : bool;
  lcmr_main_address : TetraAddress;
  lcmr_chan_alloc : option CmceChanAllocReq;
  lcmr_tx_reporter : option TxHandle
}.

Record LcmcMleUnitdataInd : Type := mkLcmcInd {
  lcmi_sdu : BitBuffer;
  lcmi_handle : Z;
  lcmi_endpoint_id : Z;
  lcmi_link_id : Z;
  lcmi_received_tetra_address : TetraAddress;
  lcmi_chan_change_resp_req : bool;
  lcmi_chan_change_handle : option Z
}.

Record LtpdMleUnitdataInd : Type := mkLtpdInd {
  ltpi_sdu : BitBuffer;
  ltpi_endpoint_id : Z;
  ltpi_link_id : Z;
  ltpi_received_tetra_address : TetraAddress;
  ltpi_chan_change_resp_req : bool;
  ltpi_chan_change_handle : option Z
}.

Inductive BrewSubscriberAction : Type :=
| BrewSubscriberAction_Register | BrewSubscriberAction_Deregister
| BrewSubscriberAction_Affiliate | BrewSubscriberAction_Deaffiliate.

#[global] Instance BrewSubscriberAction_eq_dec : EqDecision BrewSubscriberAction.
Proof. solve_decision. Defined.

Record MmSubscriberUpdate : Type := mkSubscriberUpdate {
  msu_issi : Z;
  msu_groups : list Z;
  msu_action : BrewSubscriberAction
}.

(** The primitives of the service access points of the LLC and the MLE and those
    MM exchanges with CMCE and the bridges; all other primitives of the source
    take the default branches of their handlers and are one constructor here.  A
    signal strength ([f32]) is kept as its bit pattern. *)
Inductive SapMsgInner : Type :=
| SmTmaUnitdataInd (p : TmaUnitdataInd)
| SmTmaUnitdataReq (p : TmaUnitdataReq)
| SmTmaReportInd (p : TmaReportInd)
| SmTlaTlDataIndBl (p : TlaTlDataIndBl)
| SmTlaTlDataReqBl (p : TlaTlDataReqBl)
| SmTlaTlUnitdataIndBl (p : TlaTlUnitdataIndBl)
| SmTlaTlUnitdataReqBl (p : TlaTlUnitdataReqBl)
| SmLmmMleUnitdataInd (p : LmmMleUnitdataInd)
| SmLmmMleUnitdataReq (p : LmmMleUnitdataReq)
| SmLcmcMleUnitdataInd (p : LcmcMleUnitdataInd)
| SmLcmcMleUnitdataReq (p : LcmcMleUnitdataReq)
| SmLtpdMleUnitdataInd (p : LtpdMleUnitdataInd)
| SmMmSubscriberUpdate (p : MmSubscriberUpdate)
| SmMmDgnaRequest (issi gssi : Z) (mnemonic : option string) (attachment_mode : Z) (attach : bool)
| SmCmceSsDgnaAssign (issi gssi : Z) (mnemonic : option string) (attachment_mode : Z) (route_gssi_hint : option Z)
    (attach : bool)
| SmMsRssiUpdate (issi rssi_dbfs : Z)
| SmBrewReconnected
| SmOther.

Record SapMsg : Type := mkSapMsg {
  sm_sap : Sap;
  sm_src : TetraEntity;
  sm_dest : TetraEntity;
  sm_msg : SapMsgInner
}.
