(* ===== verification/MleBs.v ===== *)
(** The MLE entity of the base station (tetra-entities/src/mle/mle_bs.rs) with
    its broadcast (components/broadcast.rs), the network time
    (components/network_time.rs) and the part of the configuration check that
    bears on it (tetra-config/src/bluestation/config.rs).

    Handlers return the messages they push, in order; [None] is a panic.  The
    entity's state changes only in [mle_tick_start].  [chrono] and [chrono_tz]
    are parameters: parsing a timezone name, the year of a time, the start of a
    year, whole seconds between two times and the local offset in seconds east
    of UTC. *)
From S2P Require Import Prelude Bits Core BitBuffer BitBufferSpec BitCodec BitBufferThms FieldCodec TypedFieldsSpec PduCodec TdmaTime.
From S2P Require Import TxReceipt MacDl MacBcast MlePdus Saps.

(** * Configuration *)

Record CfgNeighborCellCa : Type := mkCfgNeighbour {
  cnc_cell_identifier_ca : Z;
  cnc_cell_reselection_types_supported : Z;
  cnc_neighbor_cell_synchronized : bool;
  cnc_cell_load_ca : Z;
  cnc_main_carrier_number : Z;
  cnc_main_carrier_number_extension : option Z;
  cnc_mcc : option Z;
  cnc_mnc : option Z;
  cnc_location_area : option Z;
  cnc_maximum_ms_transmit_power : option Z;
  cnc_minimum_rx_access_level : option Z;
  cnc_subscriber_class : option Z;
  cnc_bs_service_details : option BsServiceDetails;
  cnc_timeshare_cell_information_or_security_parameters : option Z;
  cnc_tdma_frame_offset : option Z
}.

(** The fields of [CfgCellInfo] that the broadcast reads. *)
Record CfgBroadcast : Type := mkCfgBroadcast {
  cb_timezone : option string;
  cb_neighbor_cells_ca : list CfgNeighborCellCa
}.

(** [if let Some(v) = o && v > max] *)
Definition opt_above (o : option Z) (max : Z) : bool := match o with Some v => (v >? max)%Z | None => false end.

(** The range checks of one neighbour cell; [Some] is the error. *)
Definition validate_neighbour (cell : CfgNeighborCellCa) : option string :=
  if (cnc_cell_identifier_ca cell >? 31)%Z then Some "cell.neighbor_cells_ca: cell_identifier_ca must be 0-31"
  else if (cnc_cell_reselection_types_supported cell >? 3)%Z then
    Some "cell.neighbor_cells_ca: cell_reselection_types_supported must be 0-3"
  else if (cnc_cell_load_ca cell >? 3)%Z then Some "cell.neighbor_cells_ca: cell_load_ca must be 0-3"
  else if (cnc_main_carrier_number cell >? 4095)%Z then Some "cell.neighbor_cells_ca: main_carrier_number must be 0-4095"
  else if opt_above (cnc_main_carrier_number_extension cell) 1023 then
    Some "cell.neighbor_cells_ca: main_carrier_number_extension must be 0-1023"
  else if opt_above (cnc_mcc cell) 1023 then Some "cell.neighbor_cells_ca: mcc must be 0-1023"
  else if opt_above (cnc_mnc cell) 16383 then Some "cell.neighbor_cells_ca: mnc must be 0-16383"
  else if opt_above (cnc_location_area cell) 16383 then Some "cell.neighbor_cells_ca: location_area must be 0-16383"
  else if opt_above (cnc_maximum_ms_transmit_power cell) 7 then
    Some "cell.neighbor_cells_ca: maximum_ms_transmit_power must be 0-7"
  else if opt_above (cnc_minimum_rx_access_level cell) 15 then
    Some "cell.neighbor_cells_ca: minimum_rx_access_level must be 0-15"
  else if opt_above (cnc_timeshare_cell_information_or_security_parameters cell) 31 then
    Some "cell.neighbor_cells_ca: timeshare_cell_information_or_security_parameters must be 0-31"
  else if opt_above (cnc_tdma_frame_offset cell) 63 then Some "cell.neighbor_cells_ca: tdma_frame_offset must be 0-63"
  else None.

(** The loop over [seen_ids] and [seen_carriers]. *)
Fixpoint validate_duplicates (cells : list CfgNeighborCellCa) (seen_ids seen_carriers : gset Z) : option string :=
  match cells with
  | [] => None
  | cell :: cells =>
      if decide (cnc_cell_identifier_ca cell ∈ seen_ids) then
        Some "cell.neighbor_cells_ca: duplicate cell_identifier_ca — each neighbour must have a unique identifier"
      else if decide (cnc_main_carrier_number cell ∈ seen_carriers) then
        Some "cell.neighbor_cells_ca: duplicate main_carrier_number — each neighbour must be on a different carrier"
      else validate_duplicates cells ({[cnc_cell_identifier_ca cell]} ∪ seen_ids)
             ({[cnc_main_carrier_number cell]} ∪ seen_carriers)
  end.

Fixpoint validate_ranges (cells : list CfgNeighborCellCa) : option string :=
  match cells with
  | [] => None
  | cell :: cells => match validate_neighbour cell with Some e => Some e | None => validate_ranges cells end
  end.

(** * Broadcast state *)

Inductive BroadcastType : Type := BroadcastNone | BroadcastNetworkTime.

Record MleBroadcast : Type := mkMleBroadcast {
  mb_last_broadcast_type : BroadcastType;
  mb_time_broadcast : option string
}.

Record MleBs : Type := mkMleBs { mle_config : CfgBroadcast; mle_broadcast : MleBroadcast }.

Definition mle_broadcast_new (config : CfgBroadcast) : MleBroadcast := mkMleBroadcast BroadcastNone (cb_timezone config).
Definition mle_bs_new (config : CfgBroadcast) : MleBs := mkMleBs config (mle_broadcast_new config).

Definition MLE_BROADCAST_MULTIFRAMES : list Z := [20; 50]%Z.
Definition MLE_BROADCAST_FRAME : Z := 1.

Definition determine_next_broadcast_type (config : CfgBroadcast) (self : MleBroadcast) : BroadcastType :=
  match mb_last_broadcast_type self with
  | BroadcastNone =>
      if is_some (mb_time_broadcast self) || negb (bool_decide (cb_neighbor_cells_ca config = []))
      then BroadcastNetworkTime else BroadcastNone
  | BroadcastNetworkTime => BroadcastNetworkTime
  end.

(** The conversion of a configured neighbour to its element; the service details
    have the same fields in both. *)
Definition neighbour_of_cfg (c : CfgNeighborCellCa) : NeighbourCellInformationForCa :=
  mkNeighbour (cnc_cell_identifier_ca c) (cnc_cell_reselection_types_supported c) (cnc_neighbor_cell_synchronized c)
    (cnc_cell_load_ca c) (cnc_main_carrier_number c) (cnc_main_carrier_number_extension c) (cnc_mcc c) (cnc_mnc c)
    (cnc_location_area c) (cnc_maximum_ms_transmit_power c) (cnc_minimum_rx_access_level c) (cnc_subscriber_class c)
    (cnc_bs_service_details c) (cnc_timeshare_cell_information_or_security_parameters c) (cnc_tdma_frame_offset c).

(** A TL-SDU: the protocol discriminator and [len] bits of [src]. *)
Definition mle_tl_sdu (disc : MleProtocolDiscriminator) (src : BitBuffer) (len : nat) : option BitBuffer :=
  build (new (3 + len))
    (write_bits (mle_protocol_discriminator_into_raw disc) 3;; _ ← copy_bits src len; seek 0).

Definition broadcast_msg (tl_sdu : BitBuffer) : SapMsg :=
  mkSapMsg TlaSap Mle Llc_ (SmTlaTlUnitdataReqBl
    (mkTlUnitdataReq (mkAddr 16777215 Gssi) 0 0 tl_sdu false 0 false None false 0 None 0 None None)).

Definition transmit_pdu (pdu : DNwrkBroadcast) : option (list SapMsg) :=
  match d_nwrk_broadcast_to_bitbuf pdu (new_autoexpand 256) with
  | Panic => None
  | Err _ _ => Some []
  | Ok _ pdu_buf =>
      let pdu_len := get_pos pdu_buf in
      '(_, pdu_buf) ← exec (seek 0) pdu_buf;
      tl_sdu ← mle_tl_sdu MleProtocolDiscriminator_Mle pdu_buf pdu_len;
      Some [broadcast_msg tl_sdu]
  end.

Section chrono.
Context {DateTime Tz : Type} (tz_from_str : string → option Tz) (dt_year : DateTime → Z)
  (year_start : Z → option DateTime) (num_seconds : DateTime → DateTime → Z) (local_minus_utc : DateTime → Tz → Z).

Definition encode_tetra_network_time_inner (now_utc : DateTime) (tz : Tz) : option Z :=
  let year := dt_year now_utc in
  start ← year_start year;
  let secs_since_year_start := Z.max (num_seconds now_utc start) 0 in
  let utc_time := Z.land (Z.quot secs_since_year_start 2) 16777215 in
  let offset_secs := local_minus_utc now_utc tz in
  let offset_sign := if (offset_secs <? 0)%Z then 1%Z else 0%Z in
  let offset_magnitude := Z.land (Z.abs offset_secs / 900) 63 in
  let year_field := Z.land (wrap 64 (year - 2000)) 63 in
  Some (Z.lor (Z.lor (Z.lor (Z.lor (wrap 64 (Z.shiftl utc_time 24)) (Z.shiftl offset_sign 23))
    (Z.shiftl offset_magnitude 17)) (Z.shiftl year_field 11)) 2047).

(** [Utc::now()] is the argument [now_utc]. *)
Definition encode_tetra_network_time (now_utc : DateTime) (tz_name : string) : option Z :=
  tz ← tz_from_str tz_name; encode_tetra_network_time_inner now_utc tz.

(** The checks of [StackConfig::validate] on the timezone and the neighbour cells. *)
Definition validate_broadcast (config : CfgBroadcast) : option string :=
  if match cb_timezone config with Some tz => negb (is_some (tz_from_str tz)) | None => false end then
    Some "Invalid IANA timezone name in cell.timezone"
  else if 7 <? length (cb_neighbor_cells_ca config) then Some "cell.neighbor_cells_ca supports at most 7 entries"
  else match validate_duplicates (cb_neighbor_cells_ca config) ∅ ∅ with
       | Some e => Some e
       | None => validate_ranges (cb_neighbor_cells_ca config)
       end.

Definition send_d_nwrk_broadcast (config : CfgBroadcast) (self : MleBroadcast) (now_utc : DateTime) :
    option (list SapMsg) :=
  let time_value := mb_time_broadcast self ≫= encode_tetra_network_time now_utc in
  if negb (bool_decide (cb_neighbor_cells_ca config = [])) then
    let neighbour_cells := neighbour_of_cfg <$> cb_neighbor_cells_ca config in
    let neighbour_count := wrap 8 (Z.of_nat (length neighbour_cells)) in
    transmit_pdu (mkDNwrkBroadcast 0 0 time_value (Some neighbour_count) neighbour_cells)
  else
    match time_value with
    | Some time_value => transmit_pdu (mkDNwrkBroadcast 0 0 (Some time_value) (Some 0%Z) [])
    | None => Some []
    end.

Definition send_broadcast (config : CfgBroadcast) (self : MleBroadcast) (now_utc : DateTime) :
    option (MleBroadcast * list SapMsg) :=
  let broadcast_type := determine_next_broadcast_type config self in
  let self := mkMleBroadcast broadcast_type (mb_time_broadcast self) in
  match broadcast_type with
  | BroadcastNetworkTime => msgs ← send_d_nwrk_broadcast config self now_utc; Some (self, msgs)
  | BroadcastNone => Some (self, [])
  end.

Definition mle_tick_start (ts : TdmaTime) (now_utc : DateTime) (s : MleBs) : option (MleBs * list SapMsg) :=
  if bool_decide (tt_m ts ∈ MLE_BROADCAST_MULTIFRAMES) && (tt_f ts =? MLE_BROADCAST_FRAME)%Z && (tt_t ts =? 1)%Z then
    '(b, msgs) ← send_broadcast (mle_config s) (mle_broadcast s) now_utc;
    Some (mkMleBs (mle_config s) b, msgs)
  else Some (s, []).
End chrono.

(** * Primitives from the LLC *)

(** MLE's own PDUs; nothing is done with any of them. *)
Definition rx_tla_mle_pdu (message : SapMsg) : option (list SapMsg) :=
  match sm_msg message with
  | SmTlaTlDataIndBl prim =>
      match tldi_tl_sdu prim with
      | None => Some []
      | Some sdu =>
          '(o, _) ← exec (peek_bits 3) sdu;
          match o with
          | None => Some []
          | Some bits =>
              match mle_pdu_type_dl_try_from bits with
              | None => Some []
              | Some MlePduTypeDl_DNewCell | Some MlePduTypeDl_DPrepareFail | Some MlePduTypeDl_DNwrkBroadcast
              | Some MlePduTypeDl_DNwrkBroadcastExt | Some MlePduTypeDl_DRestoreAck | Some MlePduTypeDl_DRestoreFail
              | Some MlePduTypeDl_DChannelResponse | Some MlePduTypeDl_ExtPdu => Some []
              end
          end
      end
  | _ => Some []
  end.

(** [prim.tl_sdu.take()] leaves the primitive without its SDU. *)
Definition without_tl_sdu (p : TlaTlDataIndBl) : TlaTlDataIndBl :=
  mkTlDataInd (tldi_main_address p) (tldi_link_id p) (tldi_endpoint_id p) (tldi_new_endpoint_id p)
    (tldi_css_endpoint_id p) None (tldi_scrambling_code p) (tldi_fcs_flag p) (tldi_air_interface_encryption p)
    (tldi_chan_change_resp_req p) (tldi_chan_change_handle p) (tldi_chan_info p) (tldi_req_handle p).

(** The message to the entity of the discriminator; [prim] is without its SDU. *)
Definition dispatch_tl_sdu (message : SapMsg) (prim : TlaTlDataIndBl) (disc : MleProtocolDiscriminator)
    (sdu : BitBuffer) : option (list SapMsg) :=
  match disc with
  | MleProtocolDiscriminator_Mm =>
      Some [mkSapMsg LmmSap Mle Mm (SmLmmMleUnitdataInd (mkLmmInd sdu 0 (tldi_main_address prim)))]
  | MleProtocolDiscriminator_Cmce =>
      Some [mkSapMsg LcmcSap Mle Cmce (SmLcmcMleUnitdataInd
        (mkLcmcInd sdu 0 (tldi_endpoint_id prim) (tldi_link_id prim) (tldi_main_address prim) false None))]
  | MleProtocolDiscriminator_Sndcp =>
      Some [mkSapMsg TlpdSap Mle Sndcp (SmLtpdMleUnitdataInd
        (mkLtpdInd sdu (tldi_endpoint_id prim) (tldi_link_id prim) (tldi_main_address prim) false None))]
  | MleProtocolDiscriminator_Mle =>
      rx_tla_mle_pdu (mkSapMsg (sm_sap message) (sm_src message) (sm_dest message) (SmTlaTlDataIndBl prim))
  | MleProtocolDiscriminator_TetraManagementEntity => Some []
  end.

Definition rx_tla_data_ind_bl (message : SapMsg) : option (list SapMsg) :=
  match sm_msg message with
  | SmTlaTlDataIndBl prim =>
      match tldi_tl_sdu prim with
      | None => Some []
      | Some sdu =>
          sdu ← (if negb (get_pos sdu =? 0) then snd <$> exec (seek 0) sdu else Some sdu);
          '(o, sdu) ← exec (read_bits 3) sdu;
          match o with
          | None => Some []
          | Some bits =>
              match mle_protocol_discriminator_try_from bits with
              | None => Some []
              | Some disc => dispatch_tl_sdu message (without_tl_sdu prim) disc sdu
              end
          end
      end
  | _ => Some []
  end.

Definition mle_rx_tla_prim (message : SapMsg) : option (list SapMsg) :=
  match sm_msg message with
  | SmTlaTlDataIndBl _ => rx_tla_data_ind_bl message
  | SmTlaTlUnitdataIndBl _ => Some []
  | _ => Some []
  end.

(** * Requests from MM and CMCE *)

Definition rx_lmm_mle_unitdata_req (prim : LmmMleUnitdataReq) : option (list SapMsg) :=
  pdu ← mle_tl_sdu MleProtocolDiscriminator_Mm (lmmr_sdu prim) (get_len (lmmr_sdu prim));
  if bool_decide (lmmr_layer2service prim = L2Unacknowledged) then Some []
  else Some [mkSapMsg TlaSap Mle Llc_ (SmTlaTlDataReqBl
    (mkTlDataReq (lmmr_address prim) 0 0 pdu false 0 false None None None 0 None None (lmmr_tx_reporter prim)))].

Definition mle_rx_lmm_prim (message : SapMsg) : option (list SapMsg) :=
  match sm_msg message with
  | SmLmmMleUnitdataReq prim => rx_lmm_mle_unitdata_req prim
  | _ => Some []
  end.

Definition rx_lcmc_mle_unitdata_req (prim : LcmcMleUnitdataReq) : option (list SapMsg) :=
  pdu ← mle_tl_sdu MleProtocolDiscriminator_Cmce (lcmr_sdu prim) (get_len (lcmr_sdu prim));
  let chan_alloc := lcmr_chan_alloc prim in
  Some [mkSapMsg TlaSap Mle Llc_
    (if bool_decide (lcmr_layer2service prim = L2Unacknowledged) then
       SmTlaTlUnitdataReqBl (mkTlUnitdataReq (lcmr_main_address prim) (lcmr_link_id prim) (lcmr_endpoint_id prim) pdu
         (lcmr_stealing_permission prim) 0 false None false 0 None 0 chan_alloc (lcmr_tx_reporter prim))
     else
       SmTlaTlDataReqBl (mkTlDataReq (lcmr_main_address prim) (lcmr_link_id prim) (lcmr_endpoint_id prim) pdu
         (lcmr_stealing_permission prim) 0 false None None None 0 None chan_alloc (lcmr_tx_reporter prim)))].

Definition mle_rx_lcmc_prim (message : SapMsg) : option (list SapMsg) :=
  match sm_msg message with
  | SmLcmcMleUnitdataReq prim => rx_lcmc_mle_unitdata_req prim
  | _ => Some []
  end.

Definition mle_rx_prim (message : SapMsg) : option (list SapMsg) :=
  match sm_sap message with
  | TlaSap => mle_rx_tla_prim message
  | TlmbSap => Some []
  | TlmcSap => Some []
  | LmmSap => mle_rx_lmm_prim message
  | TlpdSap => Some []
  | LcmcSap => mle_rx_lcmc_prim message
  | _ => Some []
  end.
