(* ===== verification/SndcpBs.v ===== *)
(** SNDCP, packet data (tetra-entities/src/sndcp/sndcp_bs.rs): it answers a
    terminal's demand for a PDP context.

    The entity has no state.  A [&str] of '0' and '1' characters, as printed by
    [dump_bin_unformatted], is the list of its bits; [u64::from_str_radix(s, 2)]
    on it is [Z_of_bits].  [None] is a panic. *)
From S2P Require Import Prelude Bits Core BitBuffer BitBufferSpec BitCodec BitBufferThms FieldCodec TypedFieldsSpec PduCodec.
From S2P Require Import TxReceipt MacDl MlePdus Saps.

(** * Definitions *)

Definition MLE_DISCRIMINATOR_SNDCP : Z := 4.
Definition SN_PDU_ACTIVATE_PDP_CONTEXT : Z := 0.
Definition PDU_PRIORITY_MAX : Z := 4.
Definition READY_TIMER : Z := 8.
Definition STANDBY_TIMER : Z := 5.
Definition RESPONSE_WAIT_TIMER : Z := 8.
Definition TIA_IPV4_STATIC : Z := 1.
Definition TIA_IPV4_DYNAMIC : Z := 2.
Definition MTU_1500 : Z := 4.
Definition POOL_IPV4 : Z := 3232235956.
Definition PCO_TYPE34_ID : Z := 1.
Definition PPP_PROTO_CHAP : Z := 49699.
Definition PPP_CONFIG_PROTOCOL_PPP : Z := 0.
Definition CHAP_CODE_SUCCESS : Z := 3.
Definition PCO_CHAP_SUCCESS_BITS : Z := 60.

(** [raw_dump_bin] without markers. *)
Fixpoint raw_dump_bin (n i : nat) : B (list bool) :=
  match n with
  | 0 => mret []
  | S n => v ← read_bits_at_unchecked i 1; s ← raw_dump_bin n (i + 1); mret (negb (v =? 0)%Z :: s)
  end.
Definition dump_bin_unformatted : B (list bool) := bb ← get; raw_dump_bin (bb_end bb - bb_start bb) (bb_start bb).

(** [s.get(off..off + n)] and [s.get(from..)]. *)
Definition str_get (s : list bool) (off n : nat) : option (list bool) :=
  if off + n <=? length s then Some (take n (drop off s)) else None.
Definition str_from (s : list bool) (from : nat) : option (list bool) :=
  if from <=? length s then Some (drop from s) else None.

(** [s.find(pattern)] *)
Fixpoint str_find (pattern s : list bool) : option nat :=
  if decide (take (length pattern) s = pattern) then Some 0
  else match s with [] => None | _ :: s => S <$> str_find pattern s end.

(** The closures [bits] and [read]. *)
Definition str_bits (s : list bool) (off n : nat) : option Z := Z_of_bits <$> str_get s off n.

Definition CHAP_PROTO_ID : list bool := bits_of_Z 16 49699.

(** The [while let] loop; every turn moves [from] on, so [fuel] of the length of
    the demand is enough ([chap_scan_fuel]). *)
Fixpoint chap_scan (fuel : nat) (demand : list bool) (from : nat) (fallback : option Z) : option Z :=
  match fuel with
  | 0 => fallback
  | S fuel =>
      match str_from demand from ≫= str_find CHAP_PROTO_ID with
      | None => fallback
      | Some rel =>
          let marker := from + rel in
          match str_bits demand (marker + 16 + 8) 8, str_bits demand (marker + 16 + 16) 8 with
          | Some 2%Z, Some id => Some id
          | Some 1%Z, Some id =>
              chap_scan fuel demand (marker + length CHAP_PROTO_ID)
                (match fallback with None => Some id | Some _ => fallback end)
          | _, _ => chap_scan fuel demand (marker + length CHAP_PROTO_ID) fallback
          end
      end
  end.

Definition find_chap_response_id (demand : list bool) : option Z := chap_scan (S (length demand)) demand 0 None.

Definition chap_success_optional_section (chap_id : Z) : list bool :=
  [true] ++ [false; false; false] ++ [true] ++ bits_of_Z 4 PCO_TYPE34_ID ++ bits_of_Z 11 PCO_CHAP_SUCCESS_BITS ++
  bits_of_Z 4 PPP_CONFIG_PROTOCOL_PPP ++ bits_of_Z 16 PPP_PROTO_CHAP ++ bits_of_Z 8 4 ++ bits_of_Z 8 CHAP_CODE_SUCCESS ++
  bits_of_Z 8 chap_id ++ bits_of_Z 16 4 ++ [false].

(** [for bit in section.bytes() { sdu.write_bits(bit - b'0', 1) }] *)
Fixpoint write_section (s : list bool) : B unit :=
  match s with [] => mret tt | b :: s => write_bits (Z.b2z b) 1;; write_section s end.

Definition pdp_nsapi (demand : list bool) : Z := default 1%Z (str_bits demand 8 4).
Definition pdp_atid (demand : list bool) : Z := default 0%Z (str_bits demand 12 3).
Definition pdp_address (demand : list bool) : Z * Z :=
  if (pdp_atid demand =? 0)%Z then (TIA_IPV4_STATIC, default POOL_IPV4 (str_bits demand 15 32))
  else (TIA_IPV4_DYNAMIC, POOL_IPV4).

Definition write_pdp_accept (demand : list bool) : B unit :=
  let '(tia, ipv4) := pdp_address demand in
  write_bits MLE_DISCRIMINATOR_SNDCP 3;;
  write_bits SN_PDU_ACTIVATE_PDP_CONTEXT 4;;
  write_bits (pdp_nsapi demand) 4;;
  write_bits PDU_PRIORITY_MAX 3;;
  write_bits READY_TIMER 4;;
  write_bits STANDBY_TIMER 4;;
  write_bits RESPONSE_WAIT_TIMER 4;;
  write_bits tia 3;;
  write_bits ipv4 32;;
  write_bits 0 8;;
  write_bits MTU_1500 3;;
  match find_chap_response_id demand with
  | Some id => write_section (chap_success_optional_section id)
  | None => write_bits 0 1
  end.

Definition send_pdp_accept (ind : LtpdMleUnitdataInd) (demand : list bool) : option (list SapMsg) :=
  sdu ← build (new_autoexpand 16) (write_pdp_accept demand;; seek 0);
  Some [mkSapMsg TlaSap Sndcp Llc_ (SmTlaTlDataReqBl
    (mkTlDataReq (ltpi_received_tetra_address ind) (ltpi_link_id ind) (ltpi_endpoint_id ind) sdu false 0 false
       None None None 0 None None None))].

Definition sndcp_rx_prim (message : SapMsg) : option (list SapMsg) :=
  match sm_msg message with
  | SmLtpdMleUnitdataInd ind =>
      '(raw, _) ← exec dump_bin_unformatted (ltpi_sdu ind);
      let pdu := default [] (str_from raw 3) in
      let sn_type := str_bits pdu 0 4 in
      if bool_decide (sn_type = Some SN_PDU_ACTIVATE_PDP_CONTEXT) then send_pdp_accept ind pdu else Some []
  | _ => Some []
  end.

(** * The scan for CHAP *)

Lemma str_find_bound pattern s n : str_find pattern s = Some n → n + length pattern ≤ length s.
Proof.
  revert n. induction s as [|b s IH]; intros n; cbn [str_find].
  - case_decide as H; [|done]. intros [= <-]. rewrite take_nil in H. by rewrite <- H.
  - case_decide as H.
    + intros [= <-]. rewrite <- H. rewrite length_take. lia.
    + destruct (str_find pattern s) as [m|]; [|done]. intros [= <-]. specialize (IH m eq_refl). cbn. lia.
Qed.

Lemma str_find_first pattern s n : str_find pattern s = Some n →
  take (length pattern) (drop n s) = pattern ∧ ∀ m, m < n → take (length pattern) (drop m s) ≠ pattern.
Proof.
  revert n. induction s as [|b s IH]; intros n; cbn [str_find].
  - case_decide as H; [|done]. intros [= <-]. split; [done|lia].
  - case_decide as H; [intros [= <-]; split; [done|lia]|]. destruct (str_find pattern s) as [k|]; [|done].
    intros [= <-]. destruct (IH k eq_refl) as [H1 H2]. split; [done|]. intros [|m] Hm; [done|]. apply H2. lia.
Qed.

(** Enough fuel: the scan ends by itself. *)
Lemma chap_scan_fuel fuel fuel' demand from fallback : length demand < fuel + from → length demand < fuel' + from →
  chap_scan fuel demand from fallback = chap_scan fuel' demand from fallback.
Proof.
  revert fuel' from fallback. induction fuel as [|fuel IH]; intros fuel' from fallback Hf Hf'.
  - destruct fuel' as [|fuel']; [done|]. cbn [chap_scan]. unfold str_from. by rewrite (proj2 (Nat.leb_gt _ _)) by lia.
  - destruct fuel' as [|fuel'].
    + cbn [chap_scan]. unfold str_from. by rewrite (proj2 (Nat.leb_gt _ _)) by lia.
    + cbn [chap_scan]. destruct (str_from demand from ≫= str_find CHAP_PROTO_ID) as [rel|] eqn:E; [|done]. cbv zeta.
      assert (length CHAP_PROTO_ID = 16) as Hl by done.
      assert (∀ fb, chap_scan fuel demand (from + rel + length CHAP_PROTO_ID) fb =
        chap_scan fuel' demand (from + rel + length CHAP_PROTO_ID) fb) as Hnext by (intros fb; apply IH; lia).
      destruct (str_bits demand (from + rel + 16 + 8) 8) as [c|]; [|by apply Hnext].
      destruct (str_bits demand (from + rel + 16 + 16) 8) as [id|]; repeat case_match; try done; by apply Hnext.
Qed.

(** An identifier is an octet of the demand. *)
Lemma str_bits_u s off n v : str_bits s off n = Some v → is_u (Z.of_nat n) v.
Proof.
  unfold str_bits, str_get. destruct (Nat.leb_spec (off + n) (length s)); [|done]. cbn. intros [= <-].
  pose proof (Z_of_bits_is_u (take n (drop off s))) as Hu. rewrite length_take, length_drop, Nat.min_l in Hu by lia. done.
Qed.

Lemma chap_scan_octet fuel demand from fallback id : (∀ i, fallback = Some i → is_u 8 i) →
  chap_scan fuel demand from fallback = Some id → is_u 8 id.
Proof.
  revert from fallback. induction fuel as [|fuel IH]; intros from fallback Hfb; cbn [chap_scan]; [apply Hfb|].
  destruct (str_from demand from ≫= str_find CHAP_PROTO_ID) as [rel|]; [|apply Hfb]. cbv zeta.
  destruct (str_bits demand (from + rel + 16 + 8) 8) as [c|]; [|by apply IH].
  destruct (str_bits demand (from + rel + 16 + 16) 8) as [i|] eqn:Ei; [|repeat case_match; by apply IH].
  apply str_bits_u in Ei. repeat case_match; try (by apply IH); try (by intros [= <-]); apply IH; by intros ? [= <-].
Qed.

(** The positions at which the scan finds the identifier of CHAP. *)
Fixpoint chap_markers (fuel : nat) (demand : list bool) (from : nat) : list nat :=
  match fuel with
  | 0 => []
  | S fuel =>
      match str_from demand from ≫= str_find CHAP_PROTO_ID with
      | None => []
      | Some rel => (from + rel) :: chap_markers fuel demand (from + rel + 16)
      end
  end.

(** The identifier of a CHAP packet with the given code behind a marker. *)
Definition chap_packet (demand : list bool) (code : Z) (marker : nat) : option Z :=
  if decide (str_bits demand (marker + 24) 8 = Some code) then str_bits demand (marker + 32) 8 else None.

(** The scan takes the first Response, and else the first Challenge. *)
Lemma chap_scan_spec fuel demand from fallback : chap_scan fuel demand from fallback =
  match omap (chap_packet demand 2) (chap_markers fuel demand from) with
  | id :: _ => Some id
  | [] => match fallback with
          | Some i => Some i
          | None => head (omap (chap_packet demand 1) (chap_markers fuel demand from))
          end
  end.
Proof.
  revert from fallback. induction fuel as [|fuel IH]; intros from fallback; cbn [chap_scan chap_markers]; [by destruct fallback|].
  destruct (str_from demand from ≫= str_find CHAP_PROTO_ID) as [rel|]; [|by destruct fallback]. cbv zeta.
  change (length CHAP_PROTO_ID) with 16. rewrite <- !(Nat.add_assoc _ 16). change (16 + 8) with 24. change (16 + 16) with 32.
  cbn [omap list_omap].
  assert (∀ code, chap_packet demand code (from + rel) = if decide (str_bits demand (from + rel + 24) 8 = Some code) then
    str_bits demand (from + rel + 32) 8 else None) as Hcp by done. rewrite !Hcp. clear Hcp.
  destruct (str_bits demand (from + rel + 24) 8) as [c|] eqn:Ec; [|rewrite IH; by repeat case_decide].
  destruct (str_bits demand (from + rel + 32) 8) as [i|] eqn:Ei.
  2: { transitivity (chap_scan fuel demand (from + rel + 16) fallback); [by repeat case_match|]. rewrite IH. by repeat case_decide. }
  destruct (decide (c = 2)%Z) as [->|H2]; [by rewrite decide_True by done|].
  rewrite (decide_False (P := Some c = Some 2%Z)) by congruence. destruct (decide (c = 1)%Z) as [->|H1].
  - rewrite decide_True by done. rewrite IH. by destruct fallback.
  - rewrite decide_False by congruence. rewrite <- IH. by repeat case_match.
Qed.

Definition chap_identifier (demand : list bool) : option Z :=
  let markers := chap_markers (S (length demand)) demand 0 in
  match omap (chap_packet demand 2) markers with
  | id :: _ => Some id
  | [] => head (omap (chap_packet demand 1) markers)
  end.

Lemma find_chap_spec demand : find_chap_response_id demand = chap_identifier demand.
Proof. unfold find_chap_response_id. by rewrite chap_scan_spec. Qed.

Lemma find_chap_octet demand id : find_chap_response_id demand = Some id → is_u 8 id.
Proof. by apply chap_scan_octet. Qed.

(** * The reply *)

Lemma raw_dump_bin_ok bb n p : wf bb → p + n ≤ bb_end bb →
  raw_dump_bin n p bb = Ok (take n (drop p (a_bits (abs bb)))) bb.
Proof.
  intros Hwf. revert p. induction n as [|n IH]; intros p Hp; [done|]. cbn [raw_dump_bin].
  erewrite bind_ok by (apply read_bits_at_unchecked_ok; [done|lia|lia]). erewrite bind_ok by (apply IH; lia).
  unfold mret, M_ret. f_equal. destruct (lookup_lt_is_Some_2 (a_bits (abs bb)) p) as [b Hb]; [rewrite length_abs by done; lia|].
  unfold slice. rewrite (drop_S _ b) by done. cbn [take]. rewrite take_0, Z_of_bits_1, b2z_nonzero. by rewrite Nat.add_1_r.
Qed.

Lemma dump_ok bb : wf bb → exec dump_bin_unformatted bb = Some (window bb, bb).
Proof.
  intros Hwf. pose proof (wf_start _ Hwf). pose proof (wf_pos _ Hwf). unfold exec, dump_bin_unformatted. erewrite (bind_ok get) by done.
  rewrite raw_dump_bin_ok by (done || lia). f_equal. f_equal. unfold window, a_window. rewrite take_ge; [done|].
  rewrite length_drop, length_abs by done. done.
Qed.

Lemma writes_section s : writes (write_section s) s.
Proof.
  induction s as [|b s IH]; [apply writes_ret|]. apply (writes_bind _ _ [b] s); [|done].
  rewrite <- (bits_of_Z_b2z b). apply writes_bits; [lia|apply b2z_is_u].
Qed.

(** The optional part of an ACCEPT. *)
Definition accept_tail (chap : option Z) : list bool :=
  match chap with Some id => chap_success_optional_section id | None => [false] end.

(** SN-ACTIVATE PDP CONTEXT ACCEPT: the fields of its table in order. *)
Definition accept_bits (nsapi tia ipv4 : Z) (chap : option Z) : list bool :=
  bits_of_Z 3 4 ++ bits_of_Z 4 0 ++ bits_of_Z 4 nsapi ++ bits_of_Z 3 4 ++ bits_of_Z 4 8 ++ bits_of_Z 4 5 ++ bits_of_Z 4 8 ++
  bits_of_Z 3 tia ++ bits_of_Z 32 ipv4 ++ bits_of_Z 8 0 ++ bits_of_Z 3 4 ++ accept_tail chap.

Lemma default_bits_u s off n d : is_u (Z.of_nat n) d → is_u (Z.of_nat n) (default d (str_bits s off n)).
Proof. intros Hd. destruct (str_bits s off n) as [v|] eqn:E; [by apply str_bits_u in E|done]. Qed.

Lemma write_pdp_accept_writes demand : writes (write_pdp_accept demand)
  (accept_bits (pdp_nsapi demand) (pdp_address demand).1 (pdp_address demand).2 (chap_identifier demand)).
Proof.
  unfold write_pdp_accept, accept_bits.
  assert (is_u 4 (pdp_nsapi demand)) by (apply (default_bits_u _ _ 4); done).
  assert (is_u 3 (pdp_address demand).1 ∧ is_u 32 (pdp_address demand).2) as [Ht Hi].
  { unfold pdp_address. destruct (_ =? 0)%Z; cbn [fst snd]; split; try done. apply (default_bits_u _ _ 32). done. }
  destruct (pdp_address demand) as [tia ipv4]. cbn [fst snd] in *. rewrite <- find_chap_spec.
  do 11 (eapply writes_bind; [apply writes_bits; [lia|first [done|unfold is_u; lia]]|]).
  destruct (find_chap_response_id demand); [apply writes_section|]. apply (writes_bits 0 1); [lia|done].
Qed.

Lemma length_accept_bits n t i c : length (accept_bits n t i c) ≤ 155.
Proof. unfold accept_bits. rewrite !length_app, !length_bits_of_Z. destruct c; cbn [accept_tail]; [cbn|cbn]; lia. Qed.

(** The optional part as the element parsers read it: three type-2 elements and
    the protocol configuration options. *)
Definition accept_options : B (option Type3FieldGeneric) :=
  obit ← read_obit;
  _ ← parse_type2_generic obit 16 "sndcp_network_endpoint_id";
  _ ← parse_type2_generic obit 8 "swmi_ipv6_information";
  _ ← parse_type2_generic obit 8 "swmi_mobile_ipv4_information";
  pco ← parse_type3_generic obit PCO_TYPE34_ID;
  finish obit pco.

(** PPP, CHAP, four octets: code 3 (Success), the identifier, length 4. *)
Definition chap_success (id : Z) : list bool :=
  bits_of_Z 4 0 ++ bits_of_Z 16 49699 ++ bits_of_Z 8 4 ++ bits_of_Z 8 3 ++ bits_of_Z 8 id ++ bits_of_Z 16 4.

Lemma accept_tail_reads chap : reads accept_options (accept_tail chap)
  ((λ id, mkType3 PCO_TYPE34_ID 60 (Z_of_bits (chap_success id))) <$> chap).
Proof.
  destruct chap as [id|]; cbn [accept_tail fmap option_fmap option_map].
  - assert (length (chap_success id) = 60) as Hl by done.
    assert (chap_success_optional_section id = [true] ++ t2_bits 16 None ++ t2_bits 8 None ++ t2_bits 8 None ++
      enc_type3 PCO_TYPE34_ID (chap_success id) ++ [false]) as ->.
    { unfold chap_success_optional_section, enc_type3. rewrite Hl. unfold chap_success. by rewrite <- !app_assoc. }
    eapply reads_step; [apply reads_reads_then, reads_obit|]. do 3 (eapply reads_step; [apply reads_reads_then, reads_t2; [lia|done]|]).
    eapply reads_step; [apply reads_reads_then, reads_type3_generic; [done|rewrite Hl; lia]|].
    rewrite Hl, take_ge by (rewrite Hl; lia). by apply (reads_finish true).
  - apply (reads_step _ _ [false] [] false); [apply reads_reads_then, reads_obit|]. by apply (reads_finish false).
Qed.

(** What SNDCP sends back to the terminal of [ind]. *)
Definition accept_msg (ind : LtpdMleUnitdataInd) (sdu : BitBuffer) : SapMsg :=
  mkSapMsg TlaSap Sndcp Llc_ (SmTlaTlDataReqBl
    (mkTlDataReq (ltpi_received_tetra_address ind) (ltpi_link_id ind) (ltpi_endpoint_id ind) sdu false 0 false
       None None None 0 None None None)).

Lemma send_pdp_accept_ok ind demand : ∃ sdu, send_pdp_accept ind demand = Some [accept_msg ind sdu] ∧
  pdu_holds sdu (accept_bits (pdp_nsapi demand) (pdp_address demand).1 (pdp_address demand).2 (chap_identifier demand)).
Proof.
  destruct (build_ok 16 _ _ (write_pdp_accept_writes demand)) as (sdu & Hb & Hh).
  { pose proof (length_accept_bits (pdp_nsapi demand) (pdp_address demand).1 (pdp_address demand).2 (chap_identifier demand)).
    unfold usize_max. lia. }
  exists sdu. unfold send_pdp_accept. rewrite Hb. done.
Qed.

(** Any received SDU is answered or ignored, never a panic. *)
Lemma sndcp_rx_ok sap src dest ind : wf (ltpi_sdu ind) → let pdu := drop 3 (window (ltpi_sdu ind)) in
  sndcp_rx_prim (mkSapMsg sap src dest (SmLtpdMleUnitdataInd ind)) =
    if bool_decide (str_bits pdu 0 4 = Some 0%Z) then send_pdp_accept ind pdu else Some [].
Proof.
  intros Hwf. cbv zeta. unfold sndcp_rx_prim. cbn [sm_msg]. rewrite dump_ok by done. cbn [mbind option_bind].
  assert (default [] (str_from (window (ltpi_sdu ind)) 3) = drop 3 (window (ltpi_sdu ind))) as ->; [|done].
  unfold str_from. destruct (Nat.leb_spec 3 (length (window (ltpi_sdu ind)))); [done|]. cbn [default]. by rewrite drop_ge by lia.
Qed.

Lemma str_bits_app pre v n rest : is_u (Z.of_nat n) v → str_bits (pre ++ bits_of_Z n v ++ rest) (length pre) n = Some v.
Proof.
  intros Hv. unfold str_bits, str_get. rewrite !length_app, length_bits_of_Z, (proj2 (Nat.leb_le _ _)) by lia.
  rewrite drop_app_length, take_app_length' by (by rewrite length_bits_of_Z). cbn. by rewrite Z_of_bits_of_Z, wrap_small.
Qed.

(** A demand: PDU type 0, version, NSAPI, address type, the rest. *)
Definition demand_bits (version nsapi atid : Z) (rest : list bool) : list bool :=
  bits_of_Z 4 0 ++ bits_of_Z 4 version ++ bits_of_Z 4 nsapi ++ bits_of_Z 3 atid ++ rest.

Lemma demand_decoded version nsapi atid rest : is_u 4 nsapi → is_u 3 atid → (atid = 0%Z → 32 ≤ length rest) →
  let demand := demand_bits version nsapi atid rest in
  str_bits demand 0 4 = Some 0%Z ∧ pdp_nsapi demand = nsapi ∧
  pdp_address demand = if decide (atid = 0%Z) then (1%Z, Z_of_bits (take 32 rest)) else (2%Z, POOL_IPV4).
Proof.
  intros Hn Ha Hr. cbv zeta. unfold demand_bits, pdp_nsapi, pdp_address, pdp_atid. split; [by apply (str_bits_app [] 0 4)|].
  assert (str_bits (bits_of_Z 4 0 ++ bits_of_Z 4 version ++ bits_of_Z 4 nsapi ++ bits_of_Z 3 atid ++ rest) 8 4 = Some nsapi) as ->
    by (by apply (str_bits_app (bits_of_Z 4 0 ++ bits_of_Z 4 version) nsapi 4)). split; [done|].
  assert (str_bits (bits_of_Z 4 0 ++ bits_of_Z 4 version ++ bits_of_Z 4 nsapi ++ bits_of_Z 3 atid ++ rest) 12 3 = Some atid) as ->
    by (by apply (str_bits_app (bits_of_Z 4 0 ++ bits_of_Z 4 version ++ bits_of_Z 4 nsapi) atid 3)).
  cbn [default]. change (id atid) with atid. destruct (Z.eqb_spec atid 0) as [->|]; case_decide; try done. f_equal.
  unfold str_bits, str_get. set (pre := bits_of_Z 4 0 ++ bits_of_Z 4 version ++ bits_of_Z 4 nsapi ++ bits_of_Z 3 0).
  replace (bits_of_Z 4 0 ++ _) with (pre ++ rest) by (unfold pre; by rewrite <- !app_assoc).
  assert (length pre = 15) as Hp by done. rewrite length_app, (proj2 (Nat.leb_le _ _)), (drop_app_length' pre rest 15) by (rewrite ?Hp; auto with lia). done.
Qed.

(** C20: a terminal that demands a PDP context gets exactly one answer, whatever
    else its demand holds.  SNDCP never panics on a received SDU and answers
    nothing but demands.  A demand with an NSAPI and an address type is accepted
    with the same NSAPI and the requested IPv4 address, or the pool's for a
    dynamic one, sent to the address, link and endpoint it came from; its
    optional part parses to a CHAP Success with the identifier of the first
    CHAP Response (or else Challenge) found in the demand, or to nothing. *)
Theorem pdp_context_answered sap src dest ind : wf (ltpi_sdu ind) →
  ∃ msgs, sndcp_rx_prim (mkSapMsg sap src dest (SmLtpdMleUnitdataInd ind)) = Some msgs ∧
  (str_bits (drop 3 (window (ltpi_sdu ind))) 0 4 ≠ Some 0%Z → msgs = []) ∧
  ∀ version nsapi atid rest, drop 3 (window (ltpi_sdu ind)) = demand_bits version nsapi atid rest →
    is_u 4 nsapi → is_u 3 atid → (atid = 0%Z → 32 ≤ length rest) →
    ∃ sdu, msgs = [accept_msg ind sdu] ∧
      let chap := chap_identifier (demand_bits version nsapi atid rest) in
      pdu_holds sdu (accept_bits nsapi (if decide (atid = 0%Z) then 1 else 2)
        (if decide (atid = 0%Z) then Z_of_bits (take 32 rest) else POOL_IPV4) chap) ∧
      reads accept_options (accept_tail chap) ((λ id, mkType3 PCO_TYPE34_ID 60 (Z_of_bits (chap_success id))) <$> chap).
Proof.
  intros Hwf. pose proof (sndcp_rx_ok sap src dest ind Hwf) as Hrx. cbv zeta in Hrx. set (pdu := drop 3 _) in *.
  destruct (send_pdp_accept_ok ind pdu) as (sdu & Hsend & Hh).
  exists (if bool_decide (str_bits pdu 0 4 = Some 0%Z) then [accept_msg ind sdu] else []). split_and!.
  - rewrite Hrx, Hsend. by case_bool_decide.
  - intros H. by rewrite bool_decide_eq_false_2.
  - intros version nsapi atid rest Hp Hn Ha Hr. destruct (demand_decoded version nsapi atid rest Hn Ha Hr) as (H1 & H2 & H3).
    rewrite Hp, H2, H3 in *. rewrite bool_decide_eq_true_2 by done. exists sdu. cbv zeta. split; [done|]. split; [|apply accept_tail_reads].
    destruct (decide (atid = 0%Z)); exact Hh.
Qed.

(** The search for CHAP goes through the whole demand, the requested IPv4
    address included: a demand for 194.35.7.2 without any CHAP is answered with
    a CHAP Success. *)
Lemma address_taken_for_chap : find_chap_response_id (demand_bits 1 1 0 (bits_of_Z 32 3257075458 ++ replicate 40 false)) = Some 0%Z.
Proof. by vm_compute. Qed.

(** A static demand with NSAPI 2 for 10.0.0.7 and a CHAP Response 5. *)
Definition demo_demand : list bool :=
  demand_bits 1 2 0 (bits_of_Z 32 167772167 ++ bits_of_Z 4 1 ++ bits_of_Z 16 49699 ++ bits_of_Z 8 6 ++ bits_of_Z 8 2 ++ bits_of_Z 8 5).

Lemma pdp_context_answered_witness : ∃ sdu pdu, from_bitarr (bitarr (bits_of_Z 3 4 ++ demo_demand)) = Some sdu ∧
  sndcp_rx_prim (mkSapMsg TlpdSap Mle Sndcp (SmLtpdMleUnitdataInd (mkLtpdInd sdu 0 0 (issi 1001) false None))) =
    Some [accept_msg (mkLtpdInd sdu 0 0 (issi 1001) false None) pdu] ∧ pdu_holds pdu (accept_bits 2 1 167772167 (Some 5%Z)).
Proof.
  destruct (from_bitarr_ok (bits_of_Z 3 4 ++ demo_demand)) as (sdu & Hs & Hh); [apply fits_small; cbn; lia|].
  destruct (pdp_context_answered TlpdSap Mle Sndcp (mkLtpdInd sdu 0 0 (issi 1001) false None) (proj1 Hh)) as (msgs & Hrx & _ & Hd).
  destruct (holds_len _ _ Hh) as (_ & _ & _ & Hw & _).
  destruct (Hd 1%Z 2%Z 0%Z (bits_of_Z 32 167772167 ++ bits_of_Z 4 1 ++ bits_of_Z 16 49699 ++ bits_of_Z 8 6 ++ bits_of_Z 8 2 ++ bits_of_Z 8 5))
    as (pdu & Hm & Hp & _).
  - cbn [ltpi_sdu]. rewrite Hw. reflexivity.
  - unfold is_u. lia.
  - unfold is_u. lia.
  - intros _. cbn. lia.
  - exists sdu, pdu. split; [exact Hs|]. rewrite Hm in Hrx. split; [exact Hrx|]. exact Hp.
Defined.
