(* ===== verification/Router.v ===== *)
(** The message router (tetra-entities/src/messagerouter.rs), which runs the
    entities of the stack: it delivers their messages one at a time and gives
    them the start and the end of every timeslot.

    An entity is a value of [Ent]; its callbacks get the shared message queue and
    leave a new entity and a new queue, and may panic, in which case both are
    what the callback had made of them by then.  [fatal] is
    [panic_is_fatal()]: whether a caught panic is raised again, which ends the
    process ([Panic]).  The entities are in a [HashMap], whose iteration order is
    an argument of the ticks.  [mr_caught_panics] is the counter of the health
    registry.  The delivery loop has fuel; [Err] is its exhaustion. *)
From S2P Require Import Prelude TdmaTime TxReceipt Bits Core MacDl BitBuffer Saps.

#[global] Instance TetraEntity_countable : Countable TetraEntity.
Proof.
  refine (inj_countable' (λ e, match e with
    | Phy => 0 | Lmac => 1 | Umac => 2 | Llc_ => 3 | Mle => 4 | Mm => 5 | Cmce => 6 | Sndcp => 7 | User => 8 | Brew => 9
    | Asterisk => 10 end) (λ n, match n with
    | 0 => Phy | 1 => Lmac | 2 => Umac | 3 => Llc_ | 4 => Mle | 5 => Mm | 6 => Cmce | 7 => Sndcp | 8 => User | 9 => Brew
    | _ => Asterisk end) _). by intros [].
Defined.

(** [TetraEntityTrait]: the entity and the queue after the call, and whether it
    panicked.  The result of [tick_end] is not used. *)
Class EntityTrait (Ent : Type) : Type := {
  ent_id : Ent → TetraEntity;
  ent_rx_prim : SapMsg → Ent → list SapMsg → Ent * list SapMsg * bool;
  ent_tick_start : TdmaTime → Ent → list SapMsg → Ent * list SapMsg * bool;
  ent_tick_end : TdmaTime → Ent → list SapMsg → Ent * list SapMsg * bool
}.

Inductive MessagePrio : Type := PrioImmediate | PrioNormal.

Definition push_prio (messages : list SapMsg) (message : SapMsg) (prio : MessagePrio) : list SapMsg :=
  match prio with PrioImmediate => message :: messages | PrioNormal => messages ++ [message] end.

Section router.
Context {Ent : Type} `{!EntityTrait Ent}.

Record MessageRouter : Type := mkRouter {
  mr_entities : gmap TetraEntity Ent;
  mr_msg_queue : list SapMsg;
  mr_ts : TdmaTime;
  mr_caught_panics : nat
}.

Inductive OutOfFuel : Type := out_of_fuel.
Abbreviation R := (M MessageRouter OutOfFuel).

Definition router_set_dl_time (ts : TdmaTime) : R unit := λ r,
  Ok tt (mkRouter (mr_entities r) (mr_msg_queue r) ts (mr_caught_panics r)).

Definition register_entity (e : Ent) : R unit := λ r,
  Ok tt (mkRouter (<[ent_id e := e]> (mr_entities r)) (mr_msg_queue r) (mr_ts r) (mr_caught_panics r)).

Definition submit_message (m : SapMsg) : R unit := λ r,
  Ok tt (mkRouter (mr_entities r) (mr_msg_queue r ++ [m]) (mr_ts r) (mr_caught_panics r)).

Section running.
Context (fatal : bool).

(** Run a callback of the entity [id] under [catch_unwind]. *)
Definition guard_entity (id : TetraEntity) (f : Ent → list SapMsg → Ent * list SapMsg * bool) (e : Ent) : R unit := λ r,
  let '(e', queue, panicked) := f e (mr_msg_queue r) in
  if (panicked : bool) && fatal then Panic
  else Ok tt (mkRouter (<[id := e']> (mr_entities r)) queue (mr_ts r)
                (if panicked then S (mr_caught_panics r) else mr_caught_panics r)).

Definition pop_front : R (option SapMsg) := λ r,
  match mr_msg_queue r with
  | [] => Ok None r
  | m :: ms => Ok (Some m) (mkRouter (mr_entities r) ms (mr_ts r) (mr_caught_panics r))
  end.

Definition deliver_message : R unit :=
  message ← pop_front;
  match message with
  | Some message =>
      r ← get;
      match mr_entities r !! sm_dest message with
      | Some entity => guard_entity (sm_dest message) (ent_rx_prim message) entity
      | None => mret tt
      end
  | None => mret tt
  end.

Fixpoint deliver_all_messages (fuel : nat) : R unit :=
  r ← get;
  match mr_msg_queue r with
  | [] => mret tt
  | _ :: _ =>
      match fuel with
      | 0 => fail out_of_fuel
      | S fuel => deliver_message;; deliver_all_messages fuel
      end
  end.

(** [for entity in self.entities.values_mut()] in the order [ids], with the
    entities in [skip] left out. *)
Fixpoint for_entities (skip : list TetraEntity) (f : Ent → list SapMsg → Ent * list SapMsg * bool)
    (ids : list TetraEntity) : R unit :=
  match ids with
  | [] => mret tt
  | id :: ids =>
      r ← get;
      (match mr_entities r !! id with
       | Some entity => if decide (id ∈ skip) then mret tt else guard_entity id f entity
       | None => mret tt
       end);;
      for_entities skip f ids
  end.

Definition router_tick_start (ids : list TetraEntity) : R unit :=
  r ← get; for_entities [] (ent_tick_start (mr_ts r)) ids.

(** [if let Some(entity) = self.entities.get_mut(&target) { .. tick_end .. }] *)
Definition tick_end_of (target : TetraEntity) (ts : TdmaTime) : R unit :=
  r ← get;
  match mr_entities r !! target with
  | Some entity => guard_entity target (ent_tick_end ts) entity
  | None => mret tt
  end.

Definition router_tick_end (fuel : nat) (ids : list TetraEntity) : R unit :=
  r ← get;
  let ts := mr_ts r in
  tick_end_of Llc_ ts;;
  deliver_all_messages fuel;;
  tick_end_of Umac ts;;
  deliver_all_messages fuel;;
  for_entities [Llc_; Umac] (ent_tick_end ts) ids;;
  deliver_all_messages fuel;;
  r ← get;
  router_set_dl_time (add_timeslots (mr_ts r) 1).

(** One turn of the loop of [run_stack]. *)
Definition run_tick (fuel : nat) (ids_start ids_end : list TetraEntity) : R unit :=
  router_tick_start ids_start;;
  deliver_all_messages fuel;;
  router_tick_end fuel ids_end.

(** [run_stack(num_ticks, running)]: the flag and the iteration orders are read
    once per turn, [turn] counts from 0; [turns] bounds the loop. *)
Fixpoint run_stack (turns fuel : nat) (num_ticks : option nat) (running : nat → bool)
    (orders : nat → list TetraEntity * list TetraEntity) (turn : nat) : R unit :=
  match turns with
  | 0 => fail out_of_fuel
  | S turns =>
      if running turn then
        run_tick fuel (orders turn).1 (orders turn).2;;
        match num_ticks with
        | Some n => if n <=? S turn then mret tt else run_stack turns fuel num_ticks running orders (S turn)
        | None => run_stack turns fuel num_ticks running orders (S turn)
        end
      else mret tt
  end.
End running.
End router.
Arguments MessageRouter : clear implicits.

(** * Delivery *)

Section theory.
Context {Ent : Type} `{!EntityTrait Ent}.
Implicit Types (r : MessageRouter Ent) (q : list SapMsg).

(** More fuel does not change what the loop does. *)
Lemma deliver_all_mono fatal fuel fuel' r r' : deliver_all_messages fatal fuel r = Ok tt r' → fuel ≤ fuel' →
  deliver_all_messages fatal fuel' r = Ok tt r'.
Proof.
  revert fuel' r. induction fuel as [|fuel IH]; intros fuel' r Hd Hle.
  - destruct fuel' as [|fuel']; [done|]. cbn [deliver_all_messages] in *. erewrite bind_ok in Hd |- * by done.
    by destruct (mr_msg_queue r).
  - destruct fuel' as [|fuel']; [lia|]. cbn [deliver_all_messages] in *. erewrite bind_ok in Hd |- * by done.
    destruct (mr_msg_queue r); [done|]. apply bind_ok_inv in Hd as ([] & r1 & H1 & H2). erewrite bind_ok by exact H1.
    apply IH; [done|lia].
Qed.

(** A callback changes its entity and the queue. *)
Definition same_stack r r' : Prop :=
  dom (mr_entities r') = dom (mr_entities r) ∧ mr_ts r' = mr_ts r ∧ mr_caught_panics r ≤ mr_caught_panics r'.

#[local] Instance same_stack_preorder : PreOrder same_stack.
Proof. split; [by intros r|]. intros x y z (H1 & H2 & H3) (K1 & K2 & K3). split; [by rewrite K1|]. split; [by rewrite K2|lia]. Qed.

Lemma guard_entity_ok id f e r : mr_entities r !! id = Some e → ∃ r', guard_entity false id f e r = Ok tt r' ∧
  mr_entities r' = <[id := (f e (mr_msg_queue r)).1.1]> (mr_entities r) ∧ mr_msg_queue r' = (f e (mr_msg_queue r)).1.2 ∧
  mr_caught_panics r' = mr_caught_panics r + (if (f e (mr_msg_queue r)).2 then 1 else 0) ∧ same_stack r r'.
Proof.
  intros He. unfold guard_entity. destruct (f e (mr_msg_queue r)) as [[e' q] p]. rewrite andb_false_r. eexists. split; [reflexivity|].
  cbn. split_and!; [done|done|destruct p; lia|]. split; [|split; [done|destruct p; cbn; lia]]. cbn. apply dom_insert_lookup_L. by exists e.
Qed.

(** ** Cascades *)

(** What is still to be delivered, with the messages that each can cause. *)
Definition pending (weight : SapMsg → nat) (q : list SapMsg) : nat := sum_list ((λ m, S (weight m)) <$> q).

(** A message of some weight causes messages of less weight in all, whatever
    state the entity is in and also if it panics. *)
Definition cascades_end (weight : SapMsg → nat) : Prop :=
  ∀ m e q, pending weight (ent_rx_prim m e q).1.2 ≤ weight m + pending weight q.

Context (weight : SapMsg → nat).
Hypothesis Hweight : cascades_end weight.

Lemma deliver_message_ok r m q : mr_msg_queue r = m :: q → ∃ r', deliver_message false r = Ok tt r' ∧ same_stack r r' ∧
  (∀ id, id ≠ sm_dest m → mr_entities r' !! id = mr_entities r !! id) ∧
  pending weight (mr_msg_queue r') ≤ weight m + pending weight q.
Proof.
  intros Hq. unfold deliver_message. unfold pop_front at 1. unfold mbind at 1, M_bind at 1. rewrite Hq. cbv beta iota.
  erewrite bind_ok by done. cbn [mr_entities]. destruct (mr_entities r !! sm_dest m) as [e|] eqn:E.
  - destruct (guard_entity_ok (sm_dest m) (ent_rx_prim m) e (mkRouter (mr_entities r) q (mr_ts r) (mr_caught_panics r)) E)
      as (r' & Heq & He & Hq' & _ & Hs). cbn [mr_entities mr_msg_queue] in *. exists r'. split_and!; [done|exact Hs| |].
    + intros id Hne. by rewrite He, lookup_insert_ne by done.
    + rewrite Hq'. by apply Hweight.
  - eexists. split; [reflexivity|]. cbn [mr_entities mr_msg_queue]. split_and!; [done|done|lia].
Qed.

(** The loop empties the queue. *)
Lemma deliver_all_ok fuel r : pending weight (mr_msg_queue r) ≤ fuel →
  ∃ r', deliver_all_messages false fuel r = Ok tt r' ∧ mr_msg_queue r' = [] ∧ same_stack r r'.
Proof.
  revert r. induction fuel as [|fuel IH]; intros r Hf; cbn [deliver_all_messages]; erewrite bind_ok by done.
  - destruct (mr_msg_queue r) eqn:E; [by exists r|]. unfold pending in Hf. cbn in Hf. lia.
  - destruct (mr_msg_queue r) as [|m q] eqn:E; [by exists r|].
    destruct (deliver_message_ok r m q E) as (r1 & H1 & Hs & _ & Hp). unfold pending in Hf, Hp. cbn in Hf.
    destruct (IH r1) as (r2 & H2 & Hq & Hs2); [unfold pending; lia|]. exists r2. erewrite bind_ok by exact H1. split_and!; [done|done|].
    by etrans.
Qed.

Lemma deliver_all_enough r : ∃ F r', (∀ fuel, F ≤ fuel → deliver_all_messages false fuel r = Ok tt r') ∧
  mr_msg_queue r' = [] ∧ same_stack r r'.
Proof.
  destruct (deliver_all_ok (pending weight (mr_msg_queue r)) r) as (r' & H & ? & ?); [done|].
  exists (pending weight (mr_msg_queue r)), r'. split; [|done]. intros fuel Hf. by eapply deliver_all_mono.
Qed.

(** ** Ticks *)

Lemma for_entities_ok skip f ids r : ∃ r', for_entities false skip f ids r = Ok tt r' ∧ same_stack r r'.
Proof.
  revert r. induction ids as [|id ids IH]; intros r; [by exists r|]. cbn [for_entities]. erewrite bind_ok by done.
  assert (∃ r1, (match mr_entities r !! id with
    | Some entity => if decide (id ∈ skip) then mret tt else guard_entity false id f entity
    | None => mret tt end) r = Ok tt r1 ∧ same_stack r r1) as (r1 & H1 & Hs1).
  { destruct (mr_entities r !! id) as [e|] eqn:E; [|by exists r]. case_decide; [by exists r|].
    destruct (guard_entity_ok id f e r E) as (r1 & ? & _ & _ & _ & ?). by exists r1. }
  erewrite bind_ok by exact H1. destruct (IH r1) as (r2 & H2 & Hs2). exists r2. split; [done|by etrans].
Qed.

(** Every registered entity that is not skipped gets the call exactly once, the
    others are left alone. *)
Lemma for_entities_each skip f ids r r' : NoDup ids → for_entities false skip f ids r = Ok tt r' → ∀ id e,
  mr_entities r !! id = Some e →
  if decide (id ∈ ids ∧ id ∉ skip) then ∃ q, mr_entities r' !! id = Some (f e q).1.1 else mr_entities r' !! id = Some e.
Proof.
  intros Hnd. revert r. induction Hnd as [|i ids Hi Hnd IH]; intros r Hf id e He; cbn [for_entities] in Hf.
  { injection Hf as <-. rewrite decide_False; [done|]. intros [H _]. by apply not_elem_of_nil in H. }
  erewrite bind_ok in Hf by done. apply bind_ok_inv in Hf as ([] & r1 & H1 & H2).
  assert (if decide (id = i ∧ i ∉ skip) then ∃ q, mr_entities r1 !! id = Some (f e q).1.1 else mr_entities r1 !! id = Some e) as Hone.
  { destruct (mr_entities r !! i) as [x|] eqn:Ex.
    2: { injection H1 as <-. rewrite decide_False; [done|]. intros [-> _]. congruence. }
    case_decide as Hs; [injection H1 as <-; rewrite decide_False; [done|]; by intros [_ ?]|].
    destruct (guard_entity_ok i f x r Ex) as (r2 & Hg & Hent & _). rewrite Hg in H1. injection H1 as <-. rewrite Hent.
    destruct (decide (id = i)) as [->|Hne].
    - rewrite decide_True by done. exists (mr_msg_queue r). rewrite lookup_insert_eq. congruence.
    - rewrite decide_False by (by intros [? _]). by rewrite lookup_insert_ne. }
  destruct (decide (id = i)) as [->|Hne].
  - rewrite (decide_ext _ (i ∉ skip)) in Hone by (naive_solver).
    rewrite (decide_ext _ (i ∉ skip)) by (set_solver). case_decide.
    + destruct Hone as [q Hq]. exists q. specialize (IH r1 H2 i _ Hq). rewrite decide_False in IH; [done|]. by intros [? _].
    + specialize (IH r1 H2 i _ Hone). rewrite decide_False in IH; [done|]. by intros [? _].
  - rewrite decide_False in Hone by (by intros [? _]). specialize (IH r1 H2 id e Hone).
    rewrite (decide_ext _ (id ∈ ids ∧ id ∉ skip)) by (set_solver). done.
Qed.

Lemma tick_end_of_ok target ts r : ∃ r', tick_end_of false target ts r = Ok tt r' ∧ same_stack r r'.
Proof.
  unfold tick_end_of. erewrite bind_ok by done. destruct (mr_entities r !! target) as [e|] eqn:E; [|by exists r].
  destruct (guard_entity_ok target (ent_tick_end ts) e r E) as (r1 & ? & _ & _ & _ & ?). by exists r1.
Qed.

(** One turn: the queue is empty again, and the time is the next timeslot. *)
Lemma run_tick_ok ids ids' r : ∃ F r', (∀ fuel, F ≤ fuel → run_tick false fuel ids ids' r = Ok tt r') ∧
  mr_msg_queue r' = [] ∧ dom (mr_entities r') = dom (mr_entities r) ∧ mr_ts r' = add_timeslots (mr_ts r) 1 ∧
  mr_caught_panics r ≤ mr_caught_panics r'.
Proof.
  destruct (for_entities_ok [] (ent_tick_start (mr_ts r)) ids r) as (r1 & H1 & Hs1).
  destruct (deliver_all_enough r1) as (F1 & r2 & H2 & _ & Hs2).
  destruct (tick_end_of_ok Llc_ (mr_ts r2) r2) as (r3 & H3 & Hs3). destruct (deliver_all_enough r3) as (F2 & r4 & H4 & _ & Hs4).
  destruct (tick_end_of_ok Umac (mr_ts r2) r4) as (r5 & H5 & Hs5). destruct (deliver_all_enough r5) as (F3 & r6 & H6 & _ & Hs6).
  destruct (for_entities_ok [Llc_; Umac] (ent_tick_end (mr_ts r2)) ids' r6) as (r7 & H7 & Hs7).
  destruct (deliver_all_enough r7) as (F4 & r8 & H8 & Hq & Hs8).
  assert (same_stack r r8) as (Hd & Ht & Hc) by (repeat (etrans; [eassumption|]); done).
  exists (F1 + F2 + F3 + F4). eexists. split; [|split_and!; cycle 1].
  - intros fuel Hf. unfold run_tick. erewrite bind_ok by (unfold router_tick_start; erewrite bind_ok by done; exact H1).
    erewrite bind_ok by (apply H2; lia). unfold router_tick_end. erewrite bind_ok by done. cbv zeta. erewrite bind_ok by exact H3.
    erewrite bind_ok by (apply H4; lia). erewrite bind_ok by exact H5. erewrite bind_ok by (apply H6; lia).
    erewrite bind_ok by exact H7. erewrite bind_ok by (apply H8; lia). erewrite bind_ok by done. reflexivity.
  - exact Hd.
  - cbn. by rewrite Ht.
  - exact Hc.
  - exact Hq.
Qed.

Definition ticked (k : nat) (ts : TdmaTime) : TdmaTime := Nat.iter k (λ t, add_timeslots t 1) ts.

Lemma ticked_S k ts : ticked (S k) ts = ticked k (add_timeslots ts 1).
Proof. unfold ticked. by rewrite Nat.iter_succ_r. Qed.

(** [k] more turns of the loop. *)
Lemma run_stack_ok k turn running orders r : (∀ j, j < k → running (turn + j) = true) → 0 < k →
  ∃ F r', (∀ fuel, F ≤ fuel → run_stack false k fuel (Some (turn + k)) running orders turn r = Ok tt r') ∧
    mr_msg_queue r' = [] ∧ dom (mr_entities r') = dom (mr_entities r) ∧ mr_ts r' = ticked k (mr_ts r) ∧
    mr_caught_panics r ≤ mr_caught_panics r'.
Proof.
  revert turn r. induction k as [|k IH]; intros turn r Hrun Hk; [lia|].
  destruct (run_tick_ok (orders turn).1 (orders turn).2 r) as (F1 & r1 & H1 & Hq1 & Hd1 & Ht1 & Hc1).
  assert (running turn = true) as Hr by (rewrite <- (Nat.add_0_r turn); apply Hrun; lia).
  destruct k as [|k].
  - exists F1, r1. split; [|by split_and!]. intros fuel Hf. cbn [run_stack]. rewrite Hr. erewrite bind_ok by (by apply H1).
    by rewrite (proj2 (Nat.leb_le _ _)) by lia.
  - destruct (IH (S turn) r1) as (F2 & r2 & H2 & Hq2 & Hd2 & Ht2 & Hc2); [|lia|].
    { intros j Hj. replace (S turn + j) with (turn + S j) by lia. apply Hrun. lia. }
    exists (F1 + F2), r2. split; [|split_and!; [done|congruence|by rewrite ticked_S, Ht2, Ht1|lia]].
    intros fuel Hf. cbn [run_stack]. rewrite Hr. erewrite bind_ok by (apply H1; lia).
    rewrite (proj2 (Nat.leb_gt _ _)) by lia. replace (turn + S (S k)) with (S turn + S k) by lia. apply H2. lia.
Qed.
End theory.

(** C16: the stack keeps running.  Whatever entities are registered and in
    whatever order the router visits them, if panics are not fatal and no message
    sets off an endless cascade of others, every tick of [run_stack] ends: with
    enough fuel for the delivery loops, a run of [n] ticks (one, if [n] is 0)
    returns with all messages delivered, the time advanced by exactly that many
    timeslots and every entity still registered, however many callbacks
    panicked. *)
Theorem stack_keeps_running {Ent} `{!EntityTrait Ent} (weight : SapMsg → nat) n orders (r : MessageRouter Ent) :
  cascades_end (Ent := Ent) weight → ∃ F r',
    (∀ fuel, F ≤ fuel → run_stack false (1 `max` n) fuel (Some n) (λ _, true) orders 0 r = Ok tt r') ∧
    mr_msg_queue r' = [] ∧ dom (mr_entities r') = dom (mr_entities r) ∧ mr_ts r' = ticked (1 `max` n) (mr_ts r) ∧
    mr_caught_panics r ≤ mr_caught_panics r'.
Proof.
  intros Hw. destruct n as [|n].
  - destruct (run_tick_ok weight Hw (orders 0).1 (orders 0).2 r) as (F & r' & H & Hrest).
    exists F, r'. split; [|exact Hrest]. intros fuel Hf. change (1 `max` 0) with 1. cbn [run_stack]. erewrite bind_ok by (by apply H). done.
  - destruct (run_stack_ok weight Hw (S n) 0 (λ _, true) orders r) as (F & r' & H & Hrest); [done|lia|].
    rewrite Nat.max_r by lia. by exists F, r'.
Qed.

(** An entity that panics on every message, or on none. *)
Record FlakyEntity : Type := mkFlaky { fl_id : TetraEntity; fl_seen : nat; fl_panic : bool }.

#[local] Instance flaky_trait : EntityTrait FlakyEntity := {
  ent_id := fl_id;
  ent_rx_prim _ e q := (mkFlaky (fl_id e) (S (fl_seen e)) (fl_panic e), q, fl_panic e);
  ent_tick_start _ e q := (e, q, fl_panic e);
  ent_tick_end _ e q := (e, q, false)
}.

(** One message to an entity that panics, one to a healthy one. *)
Definition demo_router : MessageRouter FlakyEntity :=
  mkRouter (<[Mm := mkFlaky Mm 0 true]> (<[Cmce := mkFlaky Cmce 0 false]> ∅))
    [mkSapMsg TnmmSap User Mm SmOther; mkSapMsg TnmmSap User Cmce SmOther] (mkTime 1 1 1 0) 0.

Lemma stack_keeps_running_witness : ∃ F r',
  (∀ fuel, F ≤ fuel → run_stack false 2 fuel (Some 2) (λ _, true) (λ _, ([Mm; Cmce], [Cmce; Mm])) 0 demo_router = Ok tt r') ∧
  mr_msg_queue r' = [] ∧ mr_ts r' = mkTime 3 1 1 0 ∧
  mr_caught_panics r' = 3 ∧ mr_entities r' !! Cmce = Some (mkFlaky Cmce 1 false).
Proof.
  assert (cascades_end (Ent := FlakyEntity) (λ _, 0)) as Hw by (intros m e q; cbn [ent_rx_prim flaky_trait fst snd]; lia).
  destruct (stack_keeps_running (λ _, 0) 2 (λ _, ([Mm; Cmce], [Cmce; Mm])) demo_router Hw) as (F & r' & H1 & H2 & _ & H3 & _).
  exists F, r'. split; [exact H1|]. split; [exact H2|].
  assert (run_stack false 2 (F + 10) (Some 2) (λ _, true) (λ _, ([Mm; Cmce], [Cmce; Mm])) 0 demo_router = Ok tt r') as Hrun by (apply H1; lia).
  rewrite (Nat.add_comm F 10) in Hrun. cbn [Nat.add] in Hrun. split; [rewrite H3; by vm_compute|].
  vm_compute in Hrun. injection Hrun as <-. split; reflexivity.
Defined.
