(* ===== verification/UmacBs.v ===== *)
(** The upper MAC entity of the base station (tetra-entities/src/umac/umac_bs.rs).

    [UmacBs] has the state of the entity.  [um_retired] collects the receipts the
    entity itself lets go of, as [bs_retired] does in a scheduler.  Of the
    telemetry sink only its presence is kept; what is sent to it is among the
    messages.  [self_component], [endpoint_id] and [pending_stch] are never read.

    Handlers return the new state and the messages they push, in order; [None] is
    a panic.  A received block is the [BitBuffer] the handlers of its MAC PDUs
    share and move along; the rest of its primitive does not change.  A receipt
    that a request carries is passed next to it.  A signal strength is the bit
    pattern of an [f32].

    [HashMap]s are [gmap]s; [iter] and [iter_keys] are the orders in which the
    reassembly buffers and the deferred closes are enumerated. *)
From S2P Require Import Prelude Bits Core BitBuffer TdmaTime Freqs TxReceipt Fillbits MacDl BsFragSpec.
From S2P Require Import ErrorControlSpec DefragSpec UmacCircuitMgr BsSchedUlSpec BsSched BsSchedRun UmacCell LmacBsSpec Saps MacUl.

(** * State *)

Record PendingCircuitClose : Type := mkPendingClose { pcc_dl : bool; pcc_ul : bool }.

Record UmacBs : Type := mkUmacBs {
  um_config : UmacConfig;
  um_dltime : TdmaTime;
  um_system_wide_services : bool;
  um_defrag : BsDefrag;
  um_channel_scheduler : BsChannelScheduler;
  um_secondary_channel_schedulers : list BsChannelScheduler;
  um_last_ul_voice : gmap slot_key TdmaTime;
  um_ul_signal_owner : gmap slot_key Z;
  um_pending_circuit_closes : gmap slot_key PendingCircuitClose;
  um_telemetry : bool;
  um_retired : list TxReporter
}.

(** What the entity sends, and to whom. *)
Inductive UmacMsg : Type :=
| ToLlc (p : TmaUnitdataInd)
| ToLmacSlots (slots : list TmvUnitdataReqSlot)
| ToLmacConfigure (p : TmvConfigureReq)
| ToMmRssi (issi rssi_dbfs : Z)
| ToCmceUlInactivity (carrier_num ts : Z)
| ToBrewVoice (p : TmdCircuitDataInd)
| ToAsteriskVoice (p : TmdCircuitDataInd)
| ToTelemetryVoice (carrier_num ts : Z) (speaker_issi : option Z).

Definition umac_new (config : UmacConfig) (telemetry : bool) : option UmacBs :=
  '(main, secondary) ← init_schedulers config;
  Some (mkUmacBs config tdma_default (get_system_wide_services_state config) bs_new main secondary
          ∅ ∅ ∅ telemetry []).

(** Field updates. *)
Definition um_set_dltime (v : TdmaTime) (u : UmacBs) : UmacBs :=
  mkUmacBs (um_config u) v (um_system_wide_services u) (um_defrag u) (um_channel_scheduler u)
    (um_secondary_channel_schedulers u) (um_last_ul_voice u) (um_ul_signal_owner u) (um_pending_circuit_closes u) (um_telemetry u) (um_retired u).
Definition um_set_services (v : bool) (u : UmacBs) : UmacBs :=
  mkUmacBs (um_config u) (um_dltime u) v (um_defrag u) (um_channel_scheduler u)
    (um_secondary_channel_schedulers u) (um_last_ul_voice u) (um_ul_signal_owner u) (um_pending_circuit_closes u) (um_telemetry u) (um_retired u).
Definition um_set_defrag (v : BsDefrag) (u : UmacBs) : UmacBs :=
  mkUmacBs (um_config u) (um_dltime u) (um_system_wide_services u) v (um_channel_scheduler u)
    (um_secondary_channel_schedulers u) (um_last_ul_voice u) (um_ul_signal_owner u) (um_pending_circuit_closes u) (um_telemetry u) (um_retired u).
Definition um_set_schedulers (m : BsChannelScheduler) (l : list BsChannelScheduler) (u : UmacBs) : UmacBs :=
  mkUmacBs (um_config u) (um_dltime u) (um_system_wide_services u) (um_defrag u) m
    l (um_last_ul_voice u) (um_ul_signal_owner u) (um_pending_circuit_closes u) (um_telemetry u) (um_retired u).
Definition um_set_voice (v : gmap slot_key TdmaTime) (u : UmacBs) : UmacBs :=
  mkUmacBs (um_config u) (um_dltime u) (um_system_wide_services u) (um_defrag u) (um_channel_scheduler u)
    (um_secondary_channel_schedulers u) v (um_ul_signal_owner u) (um_pending_circuit_closes u) (um_telemetry u) (um_retired u).
Definition um_set_owner (v : gmap slot_key Z) (u : UmacBs) : UmacBs :=
  mkUmacBs (um_config u) (um_dltime u) (um_system_wide_services u) (um_defrag u) (um_channel_scheduler u)
    (um_secondary_channel_schedulers u) (um_last_ul_voice u) v (um_pending_circuit_closes u) (um_telemetry u) (um_retired u).
Definition um_set_closes (v : gmap slot_key PendingCircuitClose) (u : UmacBs) : UmacBs :=
  mkUmacBs (um_config u) (um_dltime u) (um_system_wide_services u) (um_defrag u) (um_channel_scheduler u)
    (um_secondary_channel_schedulers u) (um_last_ul_voice u) (um_ul_signal_owner u) v (um_telemetry u) (um_retired u).
Definition um_retire (tx : option TxReporter) (u : UmacBs) : UmacBs :=
  mkUmacBs (um_config u) (um_dltime u) (um_system_wide_services u) (um_defrag u) (um_channel_scheduler u)
    (um_secondary_channel_schedulers u) (um_last_ul_voice u) (um_ul_signal_owner u) (um_pending_circuit_closes u) (um_telemetry u)
    (um_retired u ++ option_list tx).

(** * Carriers *)

Definition main_carrier (u : UmacBs) : Z := cc_main_carrier (uc_cell (um_config u)).

Definition configured_carriers (u : UmacBs) : list Z :=
  main_carrier u :: option_list (cc_secondary_carrier (uc_cell (um_config u))).

(** The index of a secondary scheduler; [None] is the main one, also for an unknown carrier. *)
Definition scheduler_index (carrier_num : Z) (u : UmacBs) : option nat :=
  if (carrier_num =? main_carrier u)%Z then None
  else fst <$> list_find (λ sched, bs_carrier_num sched = carrier_num) (um_secondary_channel_schedulers u).

Definition scheduler_for (carrier_num : Z) (u : UmacBs) : BsChannelScheduler :=
  match scheduler_index carrier_num u with
  | Some i => default (um_channel_scheduler u) (um_secondary_channel_schedulers u !! i)
  | None => um_channel_scheduler u
  end.

(** [scheduler_for_mut(carrier_num)] with an operation on what it returns. *)
Definition scheduler_for_mut (carrier_num : Z) (f : BsChannelScheduler → option BsChannelScheduler) (u : UmacBs) : option UmacBs :=
  s ← f (scheduler_for carrier_num u);
  Some (match scheduler_index carrier_num u with
        | Some i => um_set_schedulers (um_channel_scheduler u) (<[i := s]> (um_secondary_channel_schedulers u)) u
        | None => um_set_schedulers s (um_secondary_channel_schedulers u) u
        end).

Definition refresh_system_wide_services (u : UmacBs) : UmacBs :=
  let is_effective := get_system_wide_services_state (um_config u) in
  if Bool.eqb is_effective (um_system_wide_services u) then u
  else um_set_services is_effective
    (um_set_schedulers (set_system_wide_services_state is_effective (um_channel_scheduler u))
       (set_system_wide_services_state is_effective <$> um_secondary_channel_schedulers u) u).

(** * Channel allocations *)

Definition validate_chan_alloc (chan_alloc : CmceChanAllocReq) (carrier_num : Z) (u : UmacBs) : option bool :=
  if bool_decide (car_alloc_type chan_alloc = ReplaceWithCarrierSignalling) then Some false
  else if (carrier_num =? main_carrier u)%Z then
    ts1 ← car_timeslots chan_alloc !! 0%nat;
    Some (negb ts1)
  else Some true.

Definition cmce_to_mac_chanalloc (chan_alloc : CmceChanAllocReq) (carrier_num : Z) (u : UmacBs) : option (option ChanAllocElement) :=
  valid ← validate_chan_alloc chan_alloc carrier_num u;
  if negb valid then Some None
  else
    let clch_permission :=
      (bool_decide (car_alloc_type chan_alloc = Replace) || bool_decide (car_alloc_type chan_alloc = Additional)) &&
      (bool_decide (car_ul_dl_assigned chan_alloc = UdUl) || bool_decide (car_ul_dl_assigned chan_alloc = UdBoth)) in
    match car_timeslots chan_alloc with
    | [t1; t2; t3; t4] =>
        Some (Some (mkChanAlloc (car_alloc_type chan_alloc) t1 t2 t3 t4 (car_ul_dl_assigned chan_alloc) clch_permission
                      false carrier_num None 0 (Some 0%Z)))
    | _ => None
    end.

(** * Reception *)

(** [f32::is_finite] on the bit pattern: the exponent is not all ones. *)
Definition is_finite (rssi_dbfs : Z) : bool := negb (Z.land (Z.shiftr rssi_dbfs 23) 255 =? 255)%Z.

(** What the handlers do between the header of a MAC PDU and its SDU: cut the
    length to the block, look for fill bits and end the window before them.
    Gives the length without fill bits, their number and the end of the block. *)
Definition trim_pdu (fill_bits : bool) (pdu_len_bits : nat) (pdu : BitBuffer) : option (nat * nat * nat * BitBuffer) :=
  let pdu_len_bits := if get_len pdu <? pdu_len_bits then get_len pdu else pdu_len_bits in
  '(num_fill_bits, pdu) ← exec (if fill_bits then get_num_fill_bits pdu_len_bits else mret 0) pdu;
  check (num_fill_bits <=? pdu_len_bits);;
  let pdu_len_bits := pdu_len_bits - num_fill_bits in
  let orig_end := bb_end pdu in
  '(_, pdu) ← exec (set_raw_end (bb_start pdu + pdu_len_bits)) pdu;
  Some (pdu_len_bits, num_fill_bits, orig_end, pdu).

(** Moving on to the next MAC PDU of the block. *)
Definition next_pdu (orig_end pdu_len_bits num_fill_bits : nat) (pdu : BitBuffer) : option BitBuffer :=
  '(_, pdu) ← exec (set_raw_end orig_end) pdu;
  '(_, pdu) ← exec (set_raw_pos (bb_start pdu + pdu_len_bits + num_fill_bits)) pdu;
  '(_, pdu) ← exec (set_raw_start (bb_pos pdu)) pdu;
  Some pdu.

Definition tma_unitdata_ind (prim : TmvUnitdataInd) (sdu : BitBuffer) (addr : TetraAddress) (t : Z) (encrypted : bool) : UmacMsg :=
  ToLlc (mkTmaInd (ti_carrier_num prim) (Some sdu) addr (ti_scrambling_code prim) t 0 None None (Z.b2z encrypted) false None None).

(** [if let Some(res_req) = .. { ul_process_cap_req(..); dl_enqueue_grant(..) }] *)
Definition grant_request (carrier_num t : Z) (addr : TetraAddress) (res_req : option ReservationRequirement) (u : UmacBs) : option UmacBs :=
  match res_req with
  | Some res_req => scheduler_for_mut carrier_num (cap_req t addr res_req) u
  | None => Some u
  end.

Definition signal_lmac_second_half_stolen (carrier_num : Z) (time : TdmaTime) : UmacMsg :=
  ToLmacConfigure (mkTmvConfig (Some carrier_num) (Some true) (Some time)).

Section umac.
Context (iter : gmap Z DefragBuffer → list (Z * DefragBuffer)).
Context (iter_keys : gmap slot_key PendingCircuitClose → list slot_key).

(** Passing the rest of the window up, unless there is none. *)
Definition deliver_sdu (prim : TmvUnitdataInd) (pdu : BitBuffer) (addr : TetraAddress) (t : Z) (encrypted : bool) : option (list UmacMsg) :=
  if get_len_remaining pdu =? 0 then Some []
  else sdu ← from_bitbuffer_pos pdu; Some [tma_unitdata_ind prim sdu addr t encrypted].

(** The length of a MAC-DATA: bits, start of fragmentation, second half stolen, null PDU. *)
Definition mac_data_len (p : MacData) (len : nat) : option (nat * bool * bool * bool) :=
  match mda_length_ind p with
  | Some len_ind =>
      if (len_ind =? 0)%Z then Some (if is_some (mda_event_label p) then 23 else 37, false, false, true)
      else if (2 <=? len_ind)%Z && (len_ind <? 56)%Z then Some (Z.to_nat len_ind * 8, false, false, false)
      else if (len_ind =? 62)%Z then Some (len, false, true, false)
      else if (len_ind =? 63)%Z then Some (len, true, false, false)
      else None
  | None => Some (len, default false (mda_frag_flag p), false, false)
  end.

Definition rx_mac_data (prim : TmvUnitdataInd) (pdu : BitBuffer) (u : UmacBs) : option (BitBuffer * UmacBs * list UmacMsg) :=
  check (get_pos pdu =? 0);;
  let carrier_num := ti_carrier_num prim in
  match mac_data_from_bitbuf pdu with
  | Panic => None
  | Err _ pdu => Some (pdu, u, [])
  | Ok p pdu =>
      match mda_event_label p, mda_addr p with
      | None, Some addr =>
          match mac_data_len p (get_len pdu) with
          | None => Some (pdu, u, [])
          | Some (pdu_len_bits, is_frag_start, second_half_stolen, is_null_pdu) =>
              let stolen := if second_half_stolen
                then [signal_lmac_second_half_stolen carrier_num (add_timeslots (um_dltime u) (-2))] else [] in
              '(pdu_len_bits, num_fill_bits, orig_end, pdu) ← trim_pdu (mda_fill_bits p) pdu_len_bits pdu;
              if is_null_pdu then Some (pdu, u, stolen)
              else if mda_encrypted p then Some (pdu, u, stolen)
              else
                let msg_dltime := add_timeslots (um_dltime u) (-2) in
                u ← grant_request carrier_num (tt_t msg_dltime) addr (mda_reservation_req p) u;
                '(pdu, u, out) ←
                  (if is_frag_start then
                     '(pdu, d) ← insert_first iter pdu msg_dltime addr None (um_defrag u);
                     Some (pdu, um_set_defrag d u, [])
                   else
                     out ← deliver_sdu prim pdu addr (tt_t msg_dltime) (mda_encrypted p);
                     Some (pdu, u, out));
                pdu ← next_pdu orig_end pdu_len_bits num_fill_bits pdu;
                Some (pdu, u, stolen ++ out)
          end
      | _, _ => Some (pdu, u, [])
      end
  end.

Definition mac_access_len (p : MacAccess) (len : nat) : nat :=
  match ma_length_ind p with
  | Some length_ind =>
      if (length_ind =? 0)%Z then (if is_some (ma_event_label p) then 22 else 36) else Z.to_nat length_ind * 8
  | None => len
  end.

Definition rx_mac_access (prim : TmvUnitdataInd) (pdu : BitBuffer) (u : UmacBs) : option (BitBuffer * UmacBs * list UmacMsg) :=
  check (get_pos pdu =? 0);;
  let carrier_num := ti_carrier_num prim in
  match mac_access_from_bitbuf pdu with
  | Panic => None
  | Err _ pdu => Some (pdu, u, [])
  | Ok p pdu =>
      match ma_event_label p, ma_addr p with
      | None, Some addr =>
          '(pdu_len_bits, num_fill_bits, orig_end, pdu) ← trim_pdu (ma_fill_bits p) (mac_access_len p (get_len pdu)) pdu;
          if ma_is_null_pdu p then Some (pdu, u, [])
          else
            let msg_dltime := add_timeslots (um_dltime u) (-2) in
            let t := tt_t msg_dltime in
            let sched := scheduler_for carrier_num u in
            if (t =? 1)%Z && negb (allow_mcch sched) && negb (circuit_is_active Dl t sched) then Some (pdu, u, [])
            else
              u ← (if negb (circuit_is_active Dl t sched)
                   then scheduler_for_mut carrier_num (dl_enqueue_random_access_ack t addr) u else Some u);
              let rssi := if is_finite (ti_rssi_dbfs prim) then [ToMmRssi (ssi addr) (ti_rssi_dbfs prim)] else [] in
              if ma_encrypted p then Some (pdu, u, rssi)
              else
                u ← grant_request carrier_num t addr (ma_reservation_req p) u;
                if ma_is_frag_start p then
                  '(pdu, d) ← insert_first iter pdu msg_dltime addr None (um_defrag u);
                  pdu ← next_pdu orig_end pdu_len_bits num_fill_bits pdu;
                  Some (pdu, um_set_defrag d u, rssi)
                else if get_len_remaining pdu =? 0 then Some (pdu, u, rssi)
                else
                  out ← deliver_sdu prim pdu addr t (ma_encrypted p);
                  pdu ← next_pdu orig_end pdu_len_bits num_fill_bits pdu;
                  Some (pdu, u, rssi ++ out)
      | _, _ => Some (pdu, u, [])
      end
  end.

Definition rx_mac_frag_ul (prim : TmvUnitdataInd) (pdu : BitBuffer) (u : UmacBs) : option (BitBuffer * UmacBs * list UmacMsg) :=
  check (get_pos pdu =? 0);;
  match mac_frag_ul_from_bitbuf pdu with
  | Panic => None
  | Err _ pdu => Some (pdu, u, [])
  | Ok p pdu =>
      '(_, _, _, pdu) ← trim_pdu (mfu_fill_bits p) (get_len pdu) pdu;
      let msg_dltime := add_timeslots (um_dltime u) (-2) in
      owner ← ul_get_slot_owner msg_dltime (ti_block_num prim) (bs_ul (scheduler_for (ti_carrier_num prim) u));
      match owner with
      | None => Some (pdu, u, [])
      | Some slot_owner =>
          aie_info ← get_aie_info slot_owner msg_dltime (um_defrag u);
          if is_some aie_info then Some (pdu, u, [])
          else
            '(pdu, d) ← insert_next pdu slot_owner msg_dltime (um_defrag u);
            Some (pdu, um_set_defrag d u, [])
      end
  end.

(** The common part of [rx_mac_end_ul] and [rx_mac_end_hu], after the length is known. *)
Definition rx_mac_end (fill_bits : bool) (pdu_len_bits : nat) (res_req : option ReservationRequirement)
    (prim : TmvUnitdataInd) (pdu : BitBuffer) (u : UmacBs) : option (BitBuffer * UmacBs * list UmacMsg) :=
  let carrier_num := ti_carrier_num prim in
  '(pdu_len_bits, num_fill_bits, orig_end, pdu) ← trim_pdu fill_bits pdu_len_bits pdu;
  let msg_dltime := add_timeslots (um_dltime u) (-2) in
  owner ← ul_get_slot_owner msg_dltime (ti_block_num prim) (bs_ul (scheduler_for carrier_num u));
  match owner with
  | None => Some (pdu, u, [])
  | Some slot_owner =>
      aie_info ← get_aie_info slot_owner msg_dltime (um_defrag u);
      if is_some aie_info then Some (pdu, u, [])
      else
        '(defragbuf, pdu, d) ← insert_last pdu slot_owner msg_dltime (um_defrag u);
        let u := um_set_defrag d u in
        match defragbuf with
        | None => Some (pdu, u, [])
        | Some defragbuf =>
            u ← grant_request carrier_num (tt_t msg_dltime) (db_addr defragbuf) res_req u;
            pdu ← next_pdu orig_end pdu_len_bits num_fill_bits pdu;
            Some (pdu, u, [tma_unitdata_ind prim (db_buffer defragbuf) (db_addr defragbuf) (tt_t msg_dltime) false])
        end
  end.

Definition rx_mac_end_ul (prim : TmvUnitdataInd) (pdu : BitBuffer) (u : UmacBs) : option (BitBuffer * UmacBs * list UmacMsg) :=
  check (get_pos pdu =? 0);;
  match mac_end_ul_from_bitbuf pdu with
  | Panic => None
  | Err _ pdu => Some (pdu, u, [])
  | Ok p pdu =>
      let pdu_len_bits := match meu_length_ind p with Some length_ind => Z.to_nat length_ind * 8 | None => get_len pdu end in
      rx_mac_end (meu_fill_bits p) pdu_len_bits (meu_reservation_req p) prim pdu u
  end.

Definition rx_mac_end_hu (prim : TmvUnitdataInd) (pdu : BitBuffer) (u : UmacBs) : option (BitBuffer * UmacBs * list UmacMsg) :=
  check (get_pos pdu =? 0);;
  match mac_end_hu_from_bitbuf pdu with
  | Panic => None
  | Err _ pdu => Some (pdu, u, [])
  | Ok p pdu =>
      match meh_length_ind p with
      | Some length_ind =>
          if (length_ind =? 0)%Z then Some (pdu, u, [])
          else
            let len := Z.to_nat length_ind * 8 in
            let len := if get_len pdu <? len then get_len pdu else len in
            rx_mac_end (meh_fill_bits p) len (meh_reservation_req p) prim pdu u
      | None => rx_mac_end (meh_fill_bits p) (get_len pdu) (meh_reservation_req p) prim pdu u
      end
  end.

Definition rx_ul_mac_u_signal (prim : TmvUnitdataInd) (pdu : BitBuffer) (u : UmacBs) : option (BitBuffer * UmacBs * list UmacMsg) :=
  match mac_u_signal_from_bitbuf pdu with
  | Panic => None
  | Err _ pdu => Some (pdu, u, [])
  | Ok p pdu =>
      if mus_second_half_stolen p then Some (pdu, u, [])
      else if get_len_remaining pdu =? 0 then Some (pdu, u, [])
      else
        sdu ← from_bitbuffer_pos pdu;
        let msg_dltime := add_timeslots (um_dltime u) (-2) in
        let key := (ti_carrier_num prim, tt_t msg_dltime) in
        owner ← ul_get_slot_owner msg_dltime (ti_block_num prim) (bs_ul (scheduler_for (ti_carrier_num prim) u));
        let owner_issi := default 0%Z (match owner with Some o => Some o | None => um_ul_signal_owner u !! key end) in
        Some (pdu, u, [tma_unitdata_ind prim sdu (mkAddr owner_issi Issi) (tt_t msg_dltime) false])
  end.

Definition rx_ul_mac_u_blck (pdu : BitBuffer) (u : UmacBs) : option (BitBuffer * UmacBs * list UmacMsg) :=
  match mac_u_blck_from_bitbuf pdu with
  | Panic => None
  | Err _ pdu | Ok _ pdu => Some (pdu, u, [])
  end.

(** The handler of the MAC PDU at the start of the window; [None] where the loop returns. *)
Definition rx_mac_pdu (prim : TmvUnitdataInd) (pdu : BitBuffer) (u : UmacBs) :
    option (option (BitBuffer * UmacBs * list UmacMsg)) :=
  '(bits, pdu) ← exec (peek_bits 3) pdu;
  match bits with
  | None => Some None
  | Some bits =>
      match ti_logical_channel prim with
      | SchF | Stch =>
          match mac_pdu_type_try_from (Z.shiftr bits 1) with
          | None => Some None
          | Some MacResourceMacData => Some <$> rx_mac_data prim pdu u
          | Some MacFragMacEnd =>
              if (Z.land bits 1 =? 0)%Z then Some <$> rx_mac_frag_ul prim pdu u else Some <$> rx_mac_end_ul prim pdu u
          | Some SuppMacUSignal =>
              if bool_decide (ti_logical_channel prim = Stch) then Some <$> rx_ul_mac_u_signal prim pdu u
              else if (Z.land bits 1 =? 0)%Z then Some <$> rx_ul_mac_u_blck pdu u
              else Some (Some (pdu, u, []))
          | Some Broadcast => Some (Some (pdu, u, []))
          end
      | SchHu =>
          let pdu_type := Z.land (Z.shiftr bits 2) 1 in
          if (pdu_type =? 0)%Z then Some <$> rx_mac_access prim pdu u
          else if (pdu_type =? 1)%Z then Some <$> rx_mac_end_hu prim pdu u
          else Some (Some (pdu, u, []))
      | _ => Some (Some (pdu, u, []))
      end
  end.

(** [loop { .. }] over the MAC PDUs of a block: a turn that goes on has moved the
    start of the window, so the bits of the block bound the turns. *)
Fixpoint rx_tmv_sch_loop (fuel : nat) (prim : TmvUnitdataInd) (pdu : BitBuffer) (u : UmacBs) : option (UmacBs * list UmacMsg) :=
  match fuel with
  | O => None
  | S fuel =>
      res ← rx_mac_pdu prim pdu u;
      match res with
      | None => Some (u, [])
      | Some (pdu', u, out) =>
          if negb (bb_start pdu' =? bb_start pdu) && (16 <=? get_len pdu') then
            '(u, out') ← rx_tmv_sch_loop fuel prim pdu' u;
            Some (u, out ++ out')
          else Some (u, out)
      end
  end.

Definition rx_tmv_sch (prim : TmvUnitdataInd) (u : UmacBs) : option (UmacBs * list UmacMsg) :=
  rx_tmv_sch_loop (S (get_len (ti_pdu prim))) prim (ti_pdu prim) u.

Definition rx_tmv_unitdata_ind (prim : TmvUnitdataInd) (u : UmacBs) : option (UmacBs * list UmacMsg) :=
  match ti_logical_channel prim with
  | SchF => if bool_decide (ti_block_num prim = PbBoth) then rx_tmv_sch prim u else Some (u, [])
  | Stch | SchHu =>
      match ti_block_num prim with
      | PbBlock1 | PbBlock2 => rx_tmv_sch prim u
      | _ => Some (u, [])
      end
  | _ => Some (u, [])
  end.

(** * Requests of the LLC *)

Definition STCH_CAP : nat := 124.

(** The first timeslot set in a request, from 1. *)
Definition first_timeslot (timeslots : list bool) : option Z :=
  (λ x, Z.of_nat (fst x) + 1)%Z <$> list_find (λ b, b = true) timeslots.

Definition find_stealing_ts (carrier_num : Z) (u : UmacBs) : option Z :=
  snd <$> list_find (λ t, can_deliver_stealing t (scheduler_for carrier_num u) = true) [1; 2; 3; 4]%Z.

(** A MAC-RESOURCE with neither grant nor label; its length is set later. *)
Definition plain_resource (random_access_flag : bool) (addr : TetraAddress) (usage_marker : option Z)
    (chan_alloc : option ChanAllocElement) : MacResource :=
  mkMacResource false 0 0 random_access_flag 0 (Some addr) None usage_marker None None chan_alloc.

(** A message that fits one stolen half slot. *)
Definition stch_block_of (mac_pdu : MacResource) (sdu : BitBuffer) : option BitBuffer :=
  let sdu_len := get_len sdu in
  '(num_fill_bits, mac_pdu) ← update_len_and_fill_ind sdu_len mac_pdu;
  '(_, stch_block) ← exec (mac_resource_to_bitbuf mac_pdu) (new STCH_CAP);
  '(_, sdu) ← exec (seek 0) sdu;
  '(_, stch_block) ← exec (copy_bits sdu sdu_len) stch_block;
  '(_, stch_block) ← exec (fill_write (Some num_fill_bits)) stch_block;
  Some stch_block.

(** The loop that cuts a message into stolen half slots, [produced < 32] on [n] more turns. *)
Fixpoint steal_fragments (n : nat) (carrier_num ts : Z) (fragger : BsFragger) (u : UmacBs) : option (BsFragger * UmacBs) :=
  match n with
  | O => Some (fragger, u)
  | S n =>
      '(fully, fragger, stch_block) ← get_next_chunk fragger (new STCH_CAP);
      u ← scheduler_for_mut carrier_num (dl_enqueue_stealing ts stch_block None) u;
      if (fully : bool) then Some (fragger, u) else steal_fragments n carrier_num ts fragger u
  end.

Definition take_ra_ack (carrier_num ts issi : Z) (u : UmacBs) : option (bool * UmacBs) :=
  '(has, _) ← take_pending_ra_ack ts issi (scheduler_for carrier_num u);
  u ← scheduler_for_mut carrier_num (λ s, snd <$> take_pending_ra_ack ts issi s) u;
  Some (has, u).

Definition send_stealing (carrier_num ts : Z) (prim : TmaUnitdataReq) (tx_reporter : option TxReporter) (u : UmacBs) : option UmacBs :=
  '(has_pending_ra, u) ← take_ra_ack carrier_num ts (ssi (tmar_main_address prim)) u;
  let mac_pdu := plain_resource has_pending_ra (tmar_main_address prim) None None in
  '(_, sdu) ← exec (seek 0) (tmar_pdu prim);
  hdr_len ← compute_header_len mac_pdu;
  if hdr_len + get_len sdu <=? STCH_CAP then
    stch_block ← stch_block_of mac_pdu sdu;
    scheduler_for_mut carrier_num (dl_enqueue_stealing ts stch_block tx_reporter) u
  else
    fragger ← fragger_new mac_pdu sdu tx_reporter;
    '(fragger, u) ← steal_fragments 32 carrier_num ts fragger u;
    tx ← fragger_drop fragger;
    Some (um_retire tx u).

(** Where a message with stealing permission goes, if anywhere. *)
Definition stealing_target (prim : TmaUnitdataReq) (preferred_carrier : Z) (u : UmacBs) : option (Z * Z) :=
  let requested_ts := tmar_chan_alloc prim ≫= λ ca, first_timeslot (car_timeslots ca) in
  let requested_carrier := default preferred_carrier (tmar_chan_alloc prim ≫= car_carrier) in
  let traffic_ts :=
    match requested_ts with
    | Some ts => if can_deliver_stealing ts (scheduler_for requested_carrier u) then Some ts else None
    | None => find_stealing_ts requested_carrier u
    end in
  ts ← traffic_ts;
  if circuit_is_active Dl ts (scheduler_for requested_carrier u) then Some (requested_carrier, ts) else None.

(** The usage marker and the channel allocation of a message; [None] if it is refused. *)
Definition resource_alloc (prim : TmaUnitdataReq) (preferred_carrier : Z) (u : UmacBs) : option (option (option Z * option ChanAllocElement)) :=
  match tmar_chan_alloc prim with
  | Some chan_alloc =>
      mac ← cmce_to_mac_chanalloc chan_alloc (default preferred_carrier (car_carrier chan_alloc)) u;
      Some (match mac with Some m => Some (car_usage chan_alloc, Some m) | None => None end)
  | None => Some (Some (None, None))
  end.

(** A message that is not stolen goes to the control channel's scheduler; one
    with a channel allocation that is refused is discarded. *)
Definition send_resource (prim : TmaUnitdataReq) (preferred_carrier : Z) (tx_reporter : option TxReporter) (u : UmacBs) : option UmacBs :=
  alloc ← resource_alloc prim preferred_carrier u;
  match alloc with
  | None =>
      match tx_reporter with
      | Some r => r ← mark_discarded r; Some (um_retire (Some r) u)
      | None => Some u
      end
  | Some (usage_marker, mac_chan_alloc) =>
      let is_random_access_response :=
        negb (bool_decide (ssi_type (tmar_main_address prim) = Gssi)) && negb (tmar_link_id prim =? 0)%Z in
      '(_, pdu) ← update_len_and_fill_ind (get_len (tmar_pdu prim))
        (plain_resource is_random_access_response (tmar_main_address prim) usage_marker mac_chan_alloc);
      s ← dl_enqueue_tma_for_link (tmar_link_id prim) pdu (tmar_pdu prim) tx_reporter (um_channel_scheduler u);
      Some (um_set_schedulers s (um_secondary_channel_schedulers u) u)
  end.

Definition rx_ul_tma_unitdata_req_carrier (prim : TmaUnitdataReq) (tx_reporter : option TxReporter) (u : UmacBs) : option UmacBs :=
  let preferred_carrier := default (main_carrier u) (tmar_carrier_num prim) in
  match (if tmar_stealing_permission prim then stealing_target prim preferred_carrier u else None) with
  | Some (carrier_num, ts) => send_stealing carrier_num ts prim tx_reporter u
  | None => send_resource prim preferred_carrier tx_reporter u
  end.

(** * Voice *)

(** Eight bits of an unpacked speech block from [chunk_idx * 8], those past the end as 0. *)
Definition pack_byte (bits : list Z) (chunk_idx : nat) : option Z :=
  foldl (λ acc bit,
    byte ← acc;
    let bit_idx := chunk_idx * 8 + bit in
    if bit_idx <? TCH_S_CAP then b ← bits !! bit_idx; Some (Z.lor byte (wrap 8 (Z.shiftl (Z.land b 1) (7 - Z.of_nat bit))))
    else Some byte) (Some 0%Z) (seq 0 8).

(** Outer [None]: an index out of range. *)
Definition pack_ul_acelp_bits (bits : list Z) : option (option (list Z)) :=
  let packed_tch_s_bytes := (TCH_S_CAP + 7) / 8 in
  if length bits =? packed_tch_s_bytes then Some (Some bits)
  else if length bits <? TCH_S_CAP then Some None
  else Some <$> mapM (pack_byte bits) (seq 0 packed_tch_s_bytes).

Definition rx_tmd_circuit_data_req (carrier_num ts : Z) (data : list Z) (u : UmacBs) : option UmacBs :=
  if circuit_is_active Dl ts (scheduler_for carrier_num u)
  then scheduler_for_mut carrier_num (λ s, Some (dl_schedule_tmd ts data s)) u
  else Some u.

Definition rx_tmd_circuit_data_ind (prim : TmdCircuitDataInd) (u : UmacBs) : option (UmacBs * list UmacMsg) :=
  let carrier_num := td_carrier_num prim in
  let ts := td_ts prim in
  let u := if ts_1_4 ts then um_set_voice (<[(carrier_num, ts) := um_dltime u]> (um_last_ul_voice u)) u else u in
  let telemetry := if um_telemetry u then [ToTelemetryVoice carrier_num ts (um_ul_signal_owner u !! (carrier_num, ts))] else [] in
  let ul_active := circuit_is_active Ul ts (scheduler_for carrier_num u) in
  let brew := if uc_brew (um_config u) && ul_active then [ToBrewVoice prim] else [] in
  let asterisk := if uc_asterisk_enabled (um_config u) && ul_active then [ToAsteriskVoice prim] else [] in
  let out := telemetry ++ brew ++ asterisk in
  let '(dl_target_carrier, dl_target_ts) := default (carrier_num, ts) (duplex_peer_route ts (scheduler_for carrier_num u)) in
  match dl_media_source dl_target_ts (scheduler_for dl_target_carrier u) with
  | Some SwMI => Some (u, out)
  | _ =>
      if circuit_is_active Dl dl_target_ts (scheduler_for dl_target_carrier u) then
        packed ← pack_ul_acelp_bits (td_data prim);
        match packed with
        | Some packed =>
            u ← scheduler_for_mut dl_target_carrier (λ s, Some (dl_schedule_tmd dl_target_ts packed s)) u;
            Some (u, out)
        | None => Some (u, out)
        end
      else Some (u, out)
  end.

(** * Call control *)

(** The requests of CMCE; those that only concern the network bridges are [CcNetwork]. *)
Inductive CallControl : Type :=
| CcOpen (c : Circuit)
| CcClose (dir : Direction) (ts : Z)
| CcCloseSlot (dir : Direction) (carrier_num ts : Z)
| CcFloorGranted (call_id source_issi dest_gssi carrier_num ts : Z)
| CcRemoteFloorGranted (call_id carrier_num ts : Z)
| CcFloorReleased (call_id carrier_num ts : Z)
| CcCallEnded (call_id carrier_num ts : Z)
| CcUlInactivityTimeout (carrier_num ts : Z)
| CcNetwork.

(** The single directions of a command; [None] for none, which is ignored. *)
Definition single_directions (dir : Direction) : option (list Direction) :=
  match dir with Both => Some [Dl; Ul] | Dl => Some [Dl] | Ul => Some [Ul] | _ => None end.

Definition cancel_pending_circuit_close (carrier_num ts : Z) (dir : Direction) (u : UmacBs) : UmacBs :=
  let k := (carrier_num, ts) in
  match um_pending_circuit_closes u !! k with
  | None => u
  | Some pending =>
      let taken := match dir with
                   | Dl => Some (mkPendingClose false (pcc_ul pending))
                   | Ul => Some (mkPendingClose (pcc_dl pending) false)
                   | _ => None
                   end in
      match taken with
      | None => u
      | Some pending =>
          um_set_closes (if negb (pcc_dl pending) && negb (pcc_ul pending) then delete k (um_pending_circuit_closes u)
                         else <[k := pending]> (um_pending_circuit_closes u)) u
      end
  end.

Definition open_direction (circuit : Circuit) (u : UmacBs) (d : Direction) : option UmacBs :=
  let ts := c_ts circuit in
  let carrier_num := c_carrier_num circuit in
  let u := cancel_pending_circuit_close carrier_num ts d u in
  u ← (if circuit_is_active d ts (scheduler_for carrier_num u)
       then scheduler_for_mut carrier_num (λ s, Some (snd (bs_close_circuit d ts s))) u else Some u);
  let c := mkCircuit d (c_ts circuit) carrier_num (c_peer_carrier_num circuit) (c_peer_ts circuit) (c_usage circuit)
             (c_circuit_mode circuit) (c_speech_service circuit) (c_etee_encrypted circuit) (c_dl_media_source circuit) in
  scheduler_for_mut carrier_num (λ s, Some (bs_create_circuit d c s)) u.

Definition rx_control_circuit_open (circuit : Circuit) (u : UmacBs) : option UmacBs :=
  match single_directions (c_direction circuit) with
  | Some dirs => foldl (λ u d, u ← u; open_direction circuit u d) (Some u) dirs
  | None => Some u
  end.

Definition close_direction (carrier_num ts : Z) (u : UmacBs) (d : Direction) : option UmacBs :=
  let closed := fst (bs_close_circuit d ts (scheduler_for carrier_num u)) in
  u ← scheduler_for_mut carrier_num (λ s, Some (snd (bs_close_circuit d ts s))) u;
  Some (if is_some closed && bool_decide (d = Ul) && ts_1_4 ts
        then um_set_voice (delete (carrier_num, ts) (um_last_ul_voice u)) u else u).

Definition close_circuit_now (dir : Direction) (carrier_num ts : Z) (u : UmacBs) : option UmacBs :=
  match single_directions dir with
  | Some dirs => foldl (λ u d, u ← u; close_direction carrier_num ts u d) (Some u) dirs
  | None => Some u
  end.

(** The entry is made before the direction is looked at. *)
Definition rx_control_circuit_close (dir : Direction) (carrier_num ts : Z) (u : UmacBs) : option UmacBs :=
  if (2 <=? ts)%Z && (ts <=? 4)%Z then
    let k := (carrier_num, ts) in
    let pending := default (mkPendingClose false false) (um_pending_circuit_closes u !! k) in
    let pending :=
      match dir with
      | Both => mkPendingClose true true
      | Dl => mkPendingClose true (pcc_ul pending)
      | Ul => mkPendingClose (pcc_dl pending) true
      | _ => pending
      end in
    Some (um_set_closes (<[k := pending]> (um_pending_circuit_closes u)) u)
  else close_circuit_now dir carrier_num ts u.

(** One turn of [process_pending_circuit_closes]; a key that is not in the map panics. *)
Definition process_pending_close (u : UmacBs) (k : slot_key) : option UmacBs :=
  pending ← um_pending_circuit_closes u !! k;
  let '(carrier_num, ts) := k in
  if negb (pcc_dl pending) && negb (pcc_ul pending) then Some u
  else
    waiting ← has_pending_stealing ts (scheduler_for carrier_num u);
    if (waiting : bool) then Some u
    else
      let u := um_set_closes (delete k (um_pending_circuit_closes u)) u in
      u ← (if pcc_dl pending then close_circuit_now Dl carrier_num ts u else Some u);
      if pcc_ul pending then close_circuit_now Ul carrier_num ts u else Some u.

Definition process_pending_circuit_closes (u : UmacBs) : option UmacBs :=
  foldl (λ u k, u ← u; process_pending_close u k) (Some u) (iter_keys (um_pending_circuit_closes u)).

Definition clear_floor (carrier_num ts : Z) (u : UmacBs) : UmacBs :=
  um_set_owner (delete (carrier_num, ts) (um_ul_signal_owner u))
    (um_set_voice (delete (carrier_num, ts) (um_last_ul_voice u)) u).

Definition rx_control (prim : CallControl) (u : UmacBs) : option UmacBs :=
  match prim with
  | CcOpen c => rx_control_circuit_open c u
  | CcClose dir ts => rx_control_circuit_close dir (main_carrier u) ts u
  | CcCloseSlot dir carrier_num ts => rx_control_circuit_close dir carrier_num ts u
  | CcFloorReleased _ carrier_num ts =>
      u ← scheduler_for_mut carrier_num (set_hangtime ts true) u; Some (clear_floor carrier_num ts u)
  | CcFloorGranted _ source_issi _ carrier_num ts =>
      u ← scheduler_for_mut carrier_num (set_hangtime ts false) u;
      Some (um_set_owner (<[(carrier_num, ts) := source_issi]> (um_ul_signal_owner u))
              (um_set_voice (<[(carrier_num, ts) := um_dltime u]> (um_last_ul_voice u)) u))
  | CcRemoteFloorGranted _ carrier_num ts | CcCallEnded _ carrier_num ts =>
      u ← scheduler_for_mut carrier_num (set_hangtime ts false) u; Some (clear_floor carrier_num ts u)
  | CcUlInactivityTimeout _ _ | CcNetwork => Some u
  end.

(** * Uplink inactivity *)

Definition ul_timed_out (limit : Z) (k : slot_key) (u : UmacBs) : option bool :=
  match um_last_ul_voice u !! k with
  | Some t => a ← age t (um_dltime u); Some (limit <? a)%Z
  | None => Some false
  end.

Definition check_ul_slot (limit : Z) (k : slot_key) (u : UmacBs) : option (UmacBs * list UmacMsg) :=
  let '(carrier_num, ts) := k in
  let sched := scheduler_for carrier_num u in
  if negb (circuit_is_active Ul ts sched) then Some (u, [])
  else if default false (pcc_ul <$> um_pending_circuit_closes u !! k) then Some (u, [])
  else
    hangtime ← is_hangtime ts sched;
    if (hangtime : bool) then Some (u, [])
    else
      timed_out ← ul_timed_out limit k u;
      if (timed_out : bool)
      then Some (um_set_voice (delete k (um_last_ul_voice u)) u, [ToCmceUlInactivity carrier_num ts])
      else Some (u, []).

Fixpoint check_ul_slots (limit : Z) (l : list slot_key) (u : UmacBs) : option (UmacBs * list UmacMsg) :=
  match l with
  | [] => Some (u, [])
  | k :: l =>
      '(u, out) ← check_ul_slot limit k u;
      '(u, out') ← check_ul_slots limit l u;
      Some (u, out ++ out')
  end.

Definition check_ul_inactivity (u : UmacBs) : option (UmacBs * list UmacMsg) :=
  limit ← as_i32 (i32 (cc_ul_inactivity_secs (uc_cell (um_config u))) * 18);
  limit ← as_i32 (limit * 4);
  check_ul_slots limit (carrier_num ← configured_carriers u; ts ← [1; 2; 3; 4]%Z; [(carrier_num, ts)]) u.

(** * The tick *)

Fixpoint finalize_secondary (l : list BsChannelScheduler) : option (list TmvUnitdataReqSlot * list BsChannelScheduler) :=
  match l with
  | [] => Some ([], [])
  | s :: l =>
      '(slot, s) ← finalize_secondary_ts_for_tick s;
      '(slots, l) ← finalize_secondary l;
      Some (slot :: slots, s :: l)
  end.

Definition advance_schedulers (ts : TdmaTime) (u : UmacBs) : option UmacBs :=
  let f := if negb (bool_decide (cur_dltime (um_channel_scheduler u) = ts)) &&
              bool_decide (cur_dltime (um_channel_scheduler u) = mkTime 0 0 0 0)
           then set_dl_time ts else sched_tick_start ts in
  main ← f (um_channel_scheduler u);
  secondary ← mapM f (um_secondary_channel_schedulers u);
  Some (um_set_schedulers main secondary u).

Definition umac_tick_start (ts : TdmaTime) (u : UmacBs) : option (UmacBs * list UmacMsg) :=
  let u := refresh_system_wide_services (um_set_dltime ts u) in
  let u := um_set_defrag (age_buffers ts (um_defrag u)) u in
  u ← advance_schedulers ts u;
  '(u, out) ← check_ul_inactivity u;
  '(slot, main) ← finalize_ts_for_tick (um_channel_scheduler u);
  '(slots, secondary) ← finalize_secondary (um_secondary_channel_schedulers u);
  let u := um_set_schedulers main secondary u in
  u ← process_pending_circuit_closes u;
  Some (u, out ++ [ToLmacSlots (slot :: slots)]).

(** * Primitives *)

(** The primitives the entity handles, with their service access point; it drops all others. *)
Inductive UmacPrim : Type :=
| UpTmvUnitdataInd (p : TmvUnitdataInd)
| UpTmaUnitdataReq (p : TmaUnitdataReq) (tx_reporter : option TxReporter)
| UpTmdCircuitDataReq (carrier_num ts : Z) (data : list Z)
| UpTmdCircuitDataInd (p : TmdCircuitDataInd)
| UpCallControl (c : CallControl)
| UpOther.

Definition umac_rx_prim (prim : UmacPrim) (u : UmacBs) : option (UmacBs * list UmacMsg) :=
  match prim with
  | UpTmvUnitdataInd p => rx_tmv_unitdata_ind p u
  | UpTmaUnitdataReq p tx => u ← rx_ul_tma_unitdata_req_carrier p tx u; Some (u, [])
  | UpTmdCircuitDataReq carrier_num ts data => u ← rx_tmd_circuit_data_req carrier_num ts data u; Some (u, [])
  | UpTmdCircuitDataInd p => rx_tmd_circuit_data_ind p u
  | UpCallControl c => u ← rx_control c u; Some (u, [])
  | UpOther => Some (u, [])
  end.
End umac.
