(* ===== verification/UmacBsSpec.v ===== *)
(** The upper MAC entity: its invariant and what every handler does to it.

    The handlers of received PDUs return whenever the header of the PDU is good
    ([header_good]): it names an ISSI, and its length indication covers the
    header. *)
From S2P Require Import Prelude Bits Core BitBuffer BitBufferSpec BitCodec BitBufferThms FieldCodec PduCodec.
From S2P Require Import Arrays TdmaTime Freqs TxReceipt Fillbits MacDl MacDlSpec BsFragSpec.
From S2P Require Import Scrambler ErrorControlSpec DefragSpec UmacCircuitMgr MacBcast MacBcastSpec BsSchedUlSpec MacUl MacUlSpec.
From S2P Require Import BsSched BsSchedSpec BsSchedSlot BsSchedRun UmacCell LmacBsSpec Saps UmacBs.

#[local] Opaque add_timeslots forward_to_timeslot slot_index.

(** * Windows *)

(** The window of the block from [s] on, and the same window ended early. *)
Definition window_at (s : nat) (b : BitBuffer) : BitBuffer :=
  mkBitBuffer (bb_buffer b) s s (bb_end b) (bb_autoexpand b).

Lemma wf_window s p e b : wf b → s ≤ p → p ≤ e → e ≤ bb_end b → wf (mkBitBuffer (bb_buffer b) s p e (bb_autoexpand b)).
Proof. intros [] ? ? ?. constructor; cbn; try done; lia. Qed.

Lemma exec_raw_end e b : e ≤ 8 * length (bb_buffer b) → bb_start b ≤ e → bb_pos b ≤ e → exec (set_raw_end e) b = Some (tt, set_end e b).
Proof.
  intros. apply exec_ok. unfold set_raw_end. erewrite (bind_ok get) by done. rewrite !(proj2 (Nat.leb_le _ _)) by lia. done.
Qed.
Lemma exec_raw_pos p b : bb_start b ≤ p → p ≤ bb_end b → exec (set_raw_pos p) b = Some (tt, set_pos p b).
Proof.
  intros. apply exec_ok. unfold set_raw_pos. erewrite (bind_ok get) by done. rewrite !(proj2 (Nat.leb_le _ _)) by lia. done.
Qed.
Lemma exec_raw_start s b : s ≤ bb_end b → s ≤ bb_pos b → exec (set_raw_start s) b = Some (tt, set_start s b).
Proof.
  intros. apply exec_ok. unfold set_raw_start. erewrite (bind_ok get) by done. rewrite !(proj2 (Nat.leb_le _ _)) by lia. done.
Qed.

Lemma fill_scan_safe n len b : wf b → n ≤ get_len b → n ≤ len →
  ∃ k, fill_scan n len b = Ok k b ∧ (k = 0 ∨ ∃ i, get_pos b ≤ i < n ∧ k = len - i).
Proof.
  intros Hwf. induction n as [|i IH]; intros Hn Hl; [exists 0; auto|]. cbn [fill_scan]. erewrite (bind_ok get) by done.
  destruct (Nat.leb_spec (get_pos b) i) as [Hi|Hi]; [|exists 0; auto].
  assert (is_Some (a_bits (abs b) !! (bb_start b + i))) as [x Hx].
  { apply lookup_lt_is_Some_2. rewrite length_abs by done. unfold get_len in Hn. lia. }
  erewrite bind_ok by (by apply peek_one_bit). erewrite bind_ok by done.
  destruct x; cbn [Z.b2z Z.eqb].
  - exists (len - i). split; [done|]. right. exists i. lia.
  - destruct IH as (k & -> & Hk); [lia..|]. exists k. split; [done|]. destruct Hk as [?|(j & ? & ?)]; [by left|]. right. exists j. lia.
Qed.

Lemma trim_pdu_ok fb n b : wf b → get_pos b ≤ n `min` get_len b → ∃ len k,
  trim_pdu fb n b = Some (len, k, bb_end b, set_end (bb_start b + len) b) ∧ get_pos b ≤ len ∧ len + k = n `min` get_len b ∧
  wf (set_end (bb_start b + len) b).
Proof.
  intros Hwf Hp. unfold trim_pdu. cbv zeta.
  assert ((if get_len b <? n then get_len b else n) = n `min` get_len b) as -> by (destruct (Nat.ltb_spec (get_len b) n); lia).
  set (m := n `min` get_len b) in *. assert (m ≤ get_len b) as Hm by lia.
  assert (∃ k, (if fb then get_num_fill_bits m else mret 0) b = Ok k b ∧ k ≤ m - get_pos b) as (k & Hk & Hkm).
  { destruct fb; [|exists 0; split; [done|lia]]. destruct (fill_scan_safe m m b Hwf Hm ltac:(lia)) as (k & Hk & Hc). exists k.
    split; [exact Hk|]. destruct Hc as [->|(i & ? & ->)]; lia. }
  rewrite (exec_ok _ _ _ _ Hk). cbn [mbind option_bind]. destruct (Nat.leb_spec k m); [|lia]. cbn [check mbind option_bind].
  exists (m - k), k. unfold get_pos, get_len in *. pose proof (wf_start _ Hwf). pose proof (wf_pos _ Hwf). pose proof (wf_end _ Hwf).
  rewrite exec_raw_end by lia. cbn [mbind option_bind].
  split; [done|]. split; [lia|]. split; [lia|]. apply wf_window; [done|lia..].
Qed.

(** [b0] is the block; [b] the same with the end and the cursor moved. *)
Lemma next_ok b0 b len k : wf b0 → bb_buffer b = bb_buffer b0 → bb_start b = bb_start b0 → bb_autoexpand b = bb_autoexpand b0 →
  bb_start b ≤ bb_pos b → bb_pos b ≤ bb_end b0 → bb_start b0 + len + k ≤ bb_end b0 →
  next_pdu (bb_end b0) len k b = Some (window_at (bb_start b0 + len + k) b0).
Proof.
  intros Hwf Hb Hs Ha H1 H2 H3. pose proof (wf_end _ Hwf). unfold next_pdu. rewrite exec_raw_end by (rewrite ?Hb; lia). cbn [mbind option_bind].
  rewrite exec_raw_pos by (cbn; lia). cbn [mbind option_bind]. rewrite exec_raw_start by (cbn; lia). cbn [mbind option_bind].
  unfold window_at, set_start, set_pos, set_end. cbn. by rewrite Hb, Hs, Ha.
Qed.

(** * Reassembly *)

(** Only the cursor moved, forward. *)
Definition moved (b b' : BitBuffer) : Prop := ∃ p, b' = set_pos p b ∧ bb_pos b ≤ p ≤ bb_end b.

Lemma moved_refl b : wf b → moved b b.
Proof. intros []. exists (bb_pos b). split; [by destruct b|lia]. Qed.

Lemma copy_moved fuel src n bb src' bb' : wf src → copy_bits_loop fuel src n bb = Ok src' bb' → moved src src'.
Proof.
  revert src n bb. induction fuel as [|fuel IH]; intros src n bb Hwf; cbn [copy_bits_loop]; destruct (n =? 0); try done.
  1, 2: intros [= <- _]; by apply moved_refl.
  set (c := n `min` 64). destruct (Nat.leb_spec c (get_len_remaining src)) as [Hc|Hc]; [|done].
  erewrite bind_ok by done. unfold on_buffer. unfold mbind at 1, M_bind at 1. rewrite read_bits_spec by (done || lia).
  rewrite decide_True by lia. cbv beta iota. erewrite bind_ok by done. unfold mbind, M_bind. destruct (write_bits _ _ bb) as [[] bb1| |]; try done.
  intros H. apply IH in H as (p & -> & Hp); [|by apply wf_advance]. exists p. unfold get_len_remaining, advance, set_pos in *. cbn in *. split; [done|lia].
Qed.

Lemma append_shape frag b frag' b' : wf frag → append_fragment frag b = Some (frag', b') → moved frag frag' ∧ db_addr b' = db_addr b.
Proof.
  intros Hwf. unfold append_fragment. destruct (copy_bits _ _ _) as [src dst| |] eqn:E; try done. intros [= <- <-].
  split; [by eapply copy_moved|done].
Qed.

(** Whose fragments are collected. *)
Definition frags_addr (d : BsDefrag) : Prop := ∀ ts m k b, ts_map ts d = Some m → m !! k = Some b → addr_ok (db_addr b).

Definition defrag_ok (d : BsDefrag) : Prop := (∃ content, inv content d) ∧ frags_addr d.

Lemma evict_sub iter fuel t m : evict iter fuel t m ⊆ m.
Proof.
  revert m. induction fuel as [|fuel IH]; intros m; cbn [evict]; [by destruct (_ <? _)|]. destruct (_ <? _); [done|].
  destruct (oldest iter t m); [|done]. etrans; [apply IH|apply delete_subseteq].
Qed.

Lemma frags_addr_set d ts m' : frags_addr d → (∀ k b, m' !! k = Some b → addr_ok (db_addr b)) → frags_addr (set_ts_map ts m' d).
Proof.
  intros Hd Hm ts' m k b Hm' Hk. unfold ts_map, set_ts_map in Hm'. cbn [buffers] in Hm'.
  apply list_lookup_insert_Some in Hm' as [(_ & <- & _)|[_ Hm']]; [by eapply Hm|by eapply (Hd ts' m)].
Qed.

Lemma reset_addr b : addr_ok (db_addr (defrag_reset b)).
Proof. split; [right; by right|unfold is_u; cbn; lia]. Qed.

Lemma first_shape iter frag t a aie d frag' d' : wf frag → frags_addr d → addr_ok a →
  insert_first iter frag t a aie d = Some (frag', d') → moved frag frag' ∧ frags_addr d'.
Proof.
  intros Hwf Hd Ha. unfold insert_first. destruct (ts_index t) as [ts|]; [|done]. cbn [mbind option_bind].
  destruct (ts_map ts d) as [m|] eqn:Hm; [|done]. cbn [mbind option_bind].
  destruct (append_fragment _ _) as [[f b]|] eqn:E; [|done]. apply append_shape in E as [Hmv Hb]; [|done]. cbn [mbind option_bind].
  intros [= <- <-]. split; [done|]. apply frags_addr_set; [done|]. intros k x [[<- <-]|[_ Hx]]%lookup_insert_Some; [by rewrite Hb|].
  eapply (Hd ts m k); [done|]. eapply lookup_weaken; [|etrans; [apply evict_sub|apply delete_subseteq]]. done.
Qed.

Lemma next_shape frag k t d frag' d' : wf frag → frags_addr d →
  insert_next frag k t d = Some (frag', d') → moved frag frag' ∧ frags_addr d'.
Proof.
  intros Hwf Hd. unfold insert_next. destruct (ts_index t) as [ts|]; [|done]. cbn [mbind option_bind].
  destruct (ts_map ts d) as [m|] eqn:Hm; [|done]. cbn [mbind option_bind].
  destruct (m !! k) as [b|] eqn:Hk; [|intros [= <- <-]; split; [by apply moved_refl|done]].
  destruct (decide _); [intros [= <- <-]; split; [by apply moved_refl|done]|].
  destruct (_ <? _).
  - intros [= <- <-]. split; [by apply moved_refl|]. apply frags_addr_set; [done|].
    intros k' x [[_ <-]|[_ Hx]]%lookup_insert_Some; [exact (reset_addr b)|eapply (Hd ts m k'); done].
  - destruct (append_fragment _ _) as [[f b']|] eqn:E; [|done]. apply append_shape in E as [Hmv Hb]; [|done]. cbn [mbind option_bind].
    intros [= <- <-]. split; [done|]. apply frags_addr_set; [done|].
    intros k' x [[_ <-]|[_ Hx]]%lookup_insert_Some; [rewrite Hb; exact (Hd ts m k b Hm Hk)|exact (Hd ts m k' x Hm Hx)].
Qed.

Lemma last_shape frag k t d r frag' d' : wf frag → frags_addr d → insert_last frag k t d = Some (r, frag', d') →
  moved frag frag' ∧ frags_addr d' ∧ (∀ b, r = Some b → addr_ok (db_addr b)).
Proof.
  intros Hwf Hd. unfold insert_last. destruct (insert_next frag k t d) as [[f d1]|] eqn:E; [|done]. apply next_shape in E as [Hmv Hd1]; [|done..].
  cbn [mbind option_bind]. destruct (ts_index t) as [ts|]; [|done]. cbn [mbind option_bind].
  destruct (ts_map ts d1) as [m|] eqn:Hm; [|done]. cbn [mbind option_bind].
  destruct (m !! k) as [b|] eqn:Hk; [|by intros [= <- <- <-]]. destruct (set_raw_pos _ _); try done. intros [= <- <- <-].
  split_and!; [done| |intros ? [= <-]; exact (Hd1 ts m k b Hm Hk)]. apply frags_addr_set; [done|].
  intros k' x [_ Hx]%lookup_delete_Some. exact (Hd1 ts m k' x Hm Hx).
Qed.

Section reassembly.
Context (iter : gmap Z DefragBuffer → list (Z * DefragBuffer)).
Context (iter_perm : ∀ m, iter m ≡ₚ map_to_list m).

Lemma defrag_first frag t a aie d : defrag_ok d → wf frag → (1 ≤ tt_t t ≤ 4)%Z → addr_ok a →
  ∃ frag' d', insert_first iter frag t a aie d = Some (frag', d') ∧ moved frag frag' ∧ defrag_ok d'.
Proof.
  intros [[content Hi] Hd] Hwf Ht Ha. destruct (inv_insert_first iter iter_perm content d Hi frag t a aie Hwf Ht) as (d' & Hs & Hi').
  cbn [step] in Hs. destruct (insert_first iter frag t a aie d) as [[f d1]|] eqn:E; [|done]. cbn in Hs. injection Hs as ->.
  destruct (first_shape iter frag t a aie d f d' Hwf Hd Ha E) as [? ?]. exists f, d'. split_and!; [done..|]. split; [by eexists|done].
Qed.

Lemma defrag_next frag k t d : defrag_ok d → wf frag → (1 ≤ tt_t t ≤ 4)%Z →
  ∃ frag' d', insert_next frag k t d = Some (frag', d') ∧ moved frag frag' ∧ defrag_ok d'.
Proof.
  intros [[content Hi] Hd] Hwf Ht. destruct (inv_step iter iter_perm content d (ONext frag k t) Hi) as (d' & Hs & Hi'); [done|].
  cbn [step] in Hs. destruct (insert_next frag k t d) as [[f d1]|] eqn:E; [|done]. cbn in Hs. injection Hs as ->.
  destruct (next_shape frag k t d f d' Hwf Hd E) as [? ?]. exists f, d'. split_and!; [done..|]. split; [by eexists|done].
Qed.

Lemma defrag_last frag k t d : defrag_ok d → wf frag → (1 ≤ tt_t t ≤ 4)%Z →
  ∃ r frag' d', insert_last frag k t d = Some (r, frag', d') ∧ moved frag frag' ∧ defrag_ok d' ∧
    (∀ b, r = Some b → addr_ok (db_addr b) ∧ wf (db_buffer b) ∧ get_pos (db_buffer b) = 0).
Proof.
  intros [[content Hi] Hd] Hwf Ht. destruct (insert_last_ok content d frag k t Hi Hwf Ht) as (r & f & d' & ts & m & E & _ & _ & _ & Hi' & Hr).
  destruct (last_shape frag k t d r f d' Hwf Hd E) as (? & ? & Ha). exists r, f, d'. split_and!; [done..|by split; [eexists|]|].
  intros b ->. split; [by apply Ha|]. destruct (m !! k); [|done]. destruct Hr as (? & [= <-] & _ & ? & ? & _). done.
Qed.

Lemma defrag_age t d : defrag_ok d → defrag_ok (age_buffers t d).
Proof.
  intros [[content Hi] Hd]. split.
  - exists content. apply inv_fmap; [|done]. intros m. apply map_filter_subseteq.
  - intros ts m k b Hm Hk. unfold ts_map, age_buffers in Hm. cbn [buffers] in Hm. rewrite list_lookup_fmap in Hm.
    destruct (buffers d !! ts) as [m0|] eqn:E; [|done]. injection Hm as <-. apply map_lookup_filter_Some in Hk as [Hk _]. by eapply Hd.
Qed.

Lemma aie_total k t d : defrag_ok d → (1 ≤ tt_t t ≤ 4)%Z → ∃ o, get_aie_info k t d = Some o.
Proof.
  intros [[content Hi] _] Ht. destruct (ts_map_at content d t Hi Ht) as (ts & m & Hts & Hm). unfold get_aie_info.
  rewrite Hts. cbn [mbind option_bind]. rewrite Hm. cbn [mbind option_bind]. destruct (m !! k); [destruct (decide _)|]; eauto.
Qed.
End reassembly.

(** * Headers of received PDUs *)

Inductive ul_header : Type :=
| HData (p : MacData) | HAccess (p : MacAccess) | HEndUl (p : MacEndUl) | HEndHu (p : MacEndHu) | HNone.

Definition parsed {A} (f : A → ul_header) (p : B A) (pdu : BitBuffer) : ul_header :=
  match p pdu with Ok a _ => f a | _ => HNone end.

(** The header the loop over a block looks at. *)
Definition header_of (lchan : LogicalChannel) (pdu : BitBuffer) : ul_header :=
  match peek_bits 3 pdu with
  | Ok (Some bits) _ =>
      match lchan with
      | SchF | Stch =>
          match mac_pdu_type_try_from (Z.shiftr bits 1) with
          | Some MacResourceMacData => parsed HData mac_data_from_bitbuf pdu
          | Some MacFragMacEnd => if (Z.land bits 1 =? 0)%Z then HNone else parsed HEndUl mac_end_ul_from_bitbuf pdu
          | _ => HNone
          end
      | SchHu =>
          if (Z.land (Z.shiftr bits 2) 1 =? 0)%Z then parsed HAccess mac_access_from_bitbuf pdu
          else parsed HEndHu mac_end_hu_from_bitbuf pdu
      | _ => HNone
      end
  | _ => HNone
  end.

(** How far the PDU reaches in a window of [len] bits; [None] if it ends the block. *)
Definition header_extent (h : ul_header) (len : nat) : option nat :=
  match h with
  | HData p => (λ x, x.1.1.1 `min` len) <$> mac_data_len p len
  | HAccess p => Some (mac_access_len p len `min` len)
  | HEndUl p => Some (match meu_length_ind p with Some l => Z.to_nat l * 8 | None => len end `min` len)
  | HEndHu p => Some (match meh_length_ind p with Some l => Z.to_nat l * 8 | None => len end `min` len)
  | HNone => None
  end.

Definition names_issi (a : option TetraAddress) : bool :=
  match a with Some a => bool_decide (ssi_type a = Issi) | None => true end.

(** The header names an ISSI, if anybody, and a length that covers it. *)
Definition header_good (h : ul_header) : bool :=
  match h with
  | HData p => names_issi (mda_addr p) && match mda_length_ind p with Some l => negb ((2 <=? l)%Z && (l <? 5)%Z) | None => true end
  | HAccess p => names_issi (ma_addr p) && match ma_length_ind p with Some l => negb ((1 <=? l)%Z && (l <? 5)%Z) | None => true end
  | HEndUl p => match meu_length_ind p with Some l => (2 <=? l)%Z | None => true end
  | _ => true
  end.

(** All headers of a block, as the loop meets them. *)
Fixpoint block_good (fuel : nat) (lchan : LogicalChannel) (pdu : BitBuffer) : bool :=
  match fuel with
  | O => true
  | S fuel =>
      let h := header_of lchan pdu in
      header_good h &&
      match header_extent h (get_len pdu) with
      | Some n => if 16 <=? get_len (window_at (bb_start pdu + n) pdu) then block_good fuel lchan (window_at (bb_start pdu + n) pdu) else true
      | None => true
      end
  end.

(** * Invariant *)

Definition sched_at (x : TdmaTime) (s : BsChannelScheduler) : Prop := sched_inv s ∧ cur_dltime s = x.

Record umac_inv (u : UmacBs) : Prop := {
  un_time : valid_time (um_dltime u);
  un_main : sched_at (um_dltime u) (um_channel_scheduler u);
  un_secondary : Forall (sched_at (um_dltime u)) (um_secondary_channel_schedulers u);
  un_frags : defrag_ok (um_defrag u);
  un_cfg : cfg_ok (um_config u);
  un_secs : (1 ≤ cc_ul_inactivity_secs (uc_cell (um_config u)) ≤ 30)%Z;
  un_closes k p : um_pending_circuit_closes u !! k = Some p → (2 ≤ k.2 ≤ 4)%Z
}.

(** What the receivers of the messages rely on. *)
Definition msg_ok (m : UmacMsg) : Prop :=
  match m with
  | ToLlc p => ∃ sdu, tmai_pdu p = Some sdu ∧ wf sdu ∧ get_pos sdu = 0 ∧ (1 ≤ tmai_link_id p ≤ 4)%Z
  | ToLmacSlots slots => Forall complete slots
  | ToLmacConfigure p => tcr_blk2_stolen p = Some true ∧ ∃ c t, tcr_carrier_num p = Some c ∧ tcr_time p = Some t ∧ valid_time t
  | ToMmRssi issi rssi => is_u 24 issi ∧ is_finite rssi = true
  | ToCmceUlInactivity _ ts => (1 ≤ ts ≤ 4)%Z
  | ToBrewVoice _ | ToAsteriskVoice _ | ToTelemetryVoice _ _ _ => True
  end.

(** * Schedulers *)

Definition put_scheduler (carrier_num : Z) (s : BsChannelScheduler) (u : UmacBs) : UmacBs :=
  match scheduler_index carrier_num u with
  | Some i => um_set_schedulers (um_channel_scheduler u) (<[i := s]> (um_secondary_channel_schedulers u)) u
  | None => um_set_schedulers s (um_secondary_channel_schedulers u) u
  end.

Lemma put_schedulers c s u : ∃ m l, put_scheduler c s u = um_set_schedulers m l u.
Proof. unfold put_scheduler. destruct (scheduler_index c u); eauto. Qed.

Lemma mut_eq c f u s : f (scheduler_for c u) = Some s → scheduler_for_mut c f u = Some (put_scheduler c s u).
Proof. intros Hf. unfold scheduler_for_mut, put_scheduler. rewrite Hf. cbn [mbind option_bind]. by destruct (scheduler_index c u). Qed.

Lemma scheduler_index_lt c u i : scheduler_index c u = Some i → ∃ s, um_secondary_channel_schedulers u !! i = Some s ∧ bs_carrier_num s = c.
Proof.
  unfold scheduler_index. destruct (_ =? _)%Z; [done|]. destruct (list_find _ _) as [[j s]|] eqn:E; [|done]. intros [= <-].
  apply list_find_Some in E as (? & ? & _). eauto.
Qed.

Lemma scheduler_for_at c u : umac_inv u → sched_at (um_dltime u) (scheduler_for c u).
Proof.
  intros Hu. unfold scheduler_for. destruct (scheduler_index c u) as [i|] eqn:E; [|apply Hu].
  apply scheduler_index_lt in E as (s & Hs & _). rewrite Hs. pose proof (un_secondary _ Hu) as H. rewrite Forall_lookup in H. by eapply H.
Qed.

Lemma put_inv c s u : umac_inv u → sched_at (um_dltime u) s → umac_inv (put_scheduler c s u).
Proof.
  intros [] Hs. unfold put_scheduler. destruct (scheduler_index c u) as [i|]; constructor; try done. cbn. by apply Forall_insert.
Qed.

(** The operations during a slot leave the clock alone. *)
Definition in_slot (op : sched_op) : bool := match op with OpTick | OpSetTime _ | OpMode _ _ => false | _ => true end.

Lemma alloc_time t s m s' : alloc_usage_marker t s = Some (m, s') → ul_cur_dltime s' = ul_cur_dltime s.
Proof.
  unfold alloc_usage_marker. destruct (check _); [|done]. cbn [mbind option_bind]. destruct (_ !! _); [|done]. by intros [= _ <-].
Qed.

Lemma reserve_time i l h m s n s' : ul_reserve_grant i l h m s = Some (n, s') → ul_cur_dltime s' = ul_cur_dltime s.
Proof.
  unfold ul_reserve_grant. destruct (check (negb (bool_decide _))); [|done]. cbn [mbind option_bind]. destruct (check (_ || _)); [|done]. cbn [mbind option_bind].
  destruct (ul_reserve_loop _ _ _ _ _) as [[? ?]|]; [|done]. by intros [= _ <-].
Qed.

Lemma cap_req_time t a r s res s' : ul_process_cap_req t a r s = Some (res, s') → ul_cur_dltime s' = ul_cur_dltime s.
Proof.
  unfold ul_process_cap_req. cbv zeta. set (cap := if bool_decide _ then _ else _). set (half := bool_decide (r = Req1Subslot)).
  destruct (ul_find_grant_opportunity _ _ _ _) as [[[skips l]|]|]; [|by intros [= _ <-]|done]. cbn [mbind option_bind].
  destruct (_ <? _); [by intros [= _ <-]|].
  destruct (if negb half && (2 <=? cap) then _ else _) as [[um s1]|] eqn:E; [|done]. cbn [mbind option_bind].
  assert (ul_cur_dltime s1 = ul_cur_dltime s) as <-.
  { destruct (negb half && (2 <=? cap)); [|by injection E as _ <-]. destruct (alloc_usage_marker t s) as [[m s2]|] eqn:Ea; [|done]. cbn in E.
    injection E as _ <-. by eapply alloc_time. }
  destruct (ul_reserve_grant _ _ _ _ _) as [[sub s2]|] eqn:Er; [|done]. cbn [mbind option_bind]. destruct (if half then _ else _); [|done].
  cbn [mbind option_bind]. intros [= _ <-]. by eapply reserve_time.
Qed.

Lemma stepped_time op s s' : in_slot op = true → stepped op s s' → (∀ e, op ≠ OpFinalize e) → cur_dltime s' = cur_dltime s.
Proof.
  intros Hop Hst Hne. pose proof (sp_ul _ _ _ Hst) as Hul. unfold cur_dltime.
  destruct op; try done; cbn [ul_ops ul_run] in Hul; try (by injection (Hul eq_refl) as ->); [by destruct (Hne emit)|].
  cbn [ul_exec] in Hul. specialize (Hul eq_refl). destruct (ul_process_cap_req _ _ _ _) as [[res ul]|] eqn:E; [|done]. cbn in Hul. injection Hul as <-.
  by eapply cap_req_time.
Qed.

(** A scheduler operation of a handler. *)
Lemma mut_ok c op u : umac_inv u → op_ok op → in_slot op = true → (∀ e, op ≠ OpFinalize e) →
  ∃ s, sched_exec op (scheduler_for c u) = Some s ∧ stepped op (scheduler_for c u) s ∧
    scheduler_for_mut c (sched_exec op) u = Some (put_scheduler c s u) ∧ umac_inv (put_scheduler c s u).
Proof.
  intros Hu Hop Hin Hne. destruct (scheduler_for_at c u Hu) as [Hs Ht]. destruct (sched_exec_ok op _ Hs Hop) as (s & He & Hst).
  exists s. split; [done|]. split; [done|]. split; [by apply mut_eq|]. apply put_inv; [done|]. split; [apply Hst|].
  rewrite <-Ht. by apply (stepped_time op).
Qed.

(** * What handlers rely on *)

Lemma put_same c s u : um_dltime (put_scheduler c s u) = um_dltime u ∧ um_defrag (put_scheduler c s u) = um_defrag u.
Proof. destruct (put_schedulers c s u) as (m & l & ->). done. Qed.

Lemma set_defrag_inv d u : umac_inv u → defrag_ok d → umac_inv (um_set_defrag d u).
Proof. intros [] ?. by constructor. Qed.

Lemma ul_slot_ok u : (1 ≤ tt_t (add_timeslots (um_dltime u) (-2)) ≤ 4)%Z.
Proof. pose proof (add_valid (um_dltime u) (-2)) as Hv. apply valid_time_ranges in Hv. lia. Qed.

Lemma grant_request_ok c t a rr u : umac_inv u → (1 ≤ t ≤ 4)%Z → addr_ok a → ∃ u', grant_request c t a rr u = Some u' ∧
  umac_inv u' ∧ um_dltime u' = um_dltime u ∧ um_defrag u' = um_defrag u.
Proof.
  intros Hu Ht Ha. destruct rr as [rr|]; [|by exists u]. destruct (mut_ok c (OpCapReq t a rr) u) as (s & _ & _ & He & Hi); try done.
  exists (put_scheduler c s u). split; [exact He|]. split; [done|]. apply put_same.
Qed.

Lemma enqueue_ack_ok c t a u : umac_inv u → (1 ≤ t ≤ 4)%Z → addr_ok a → ∃ u', scheduler_for_mut c (dl_enqueue_random_access_ack t a) u = Some u' ∧
  umac_inv u' ∧ um_dltime u' = um_dltime u ∧ um_defrag u' = um_defrag u.
Proof.
  intros Hu Ht Ha. destruct (mut_ok c (OpAck t a) u) as (s & _ & _ & He & Hi); try done.
  exists (put_scheduler c s u). split; [exact He|]. split; [done|]. apply put_same.
Qed.

Lemma remaining_sdu b : wf b → ∃ sdu, from_bitbuffer_pos b = Some sdu ∧ wf sdu ∧ get_pos sdu = 0 ∧ window sdu = remaining b.
Proof.
  intros Hwf. destruct (sub_buffers_keep_window b Hwf) as (b1 & _ & H1 & _ & Hwf1 & Hw1 & _). exists b1. split; [done|]. split; [done|]. split; [|done].
  unfold from_bitbuffer_pos in H1. destruct (decide _); [|done]. injection H1 as <-. unfold get_pos. cbn. lia.
Qed.

Lemma deliver_ok prim b a t e : wf b → (1 ≤ t ≤ 4)%Z → ∃ out, deliver_sdu prim b a t e = Some out ∧ Forall msg_ok out.
Proof.
  intros Hwf Ht. unfold deliver_sdu. destruct (_ =? 0); [by eexists|]. destruct (remaining_sdu b Hwf) as (sdu & -> & ? & ? & _).
  eexists. split; [done|]. constructor; [|done]. by exists sdu.
Qed.

Lemma owner_total x b s : ul_inv s → valid_time x → b ≠ PbUndefined → ∃ o, ul_get_slot_owner x b s = Some o.
Proof.
  intros Hs Hx Hb. unfold ul_get_slot_owner. rewrite sched_index by done. cbn [mbind option_bind].
  destruct (slot_at_Some x _ Hx (ui_shape _ Hs)) as [e He]. unfold slot_at in He. rewrite He. cbn [mbind option_bind].
  destruct b; try done; [destruct (bool_decide _)|..]; by eexists.
Qed.

Lemma scheduler_owner c b u : umac_inv u → b ≠ PbUndefined →
  ∃ o, ul_get_slot_owner (add_timeslots (um_dltime u) (-2)) b (bs_ul (scheduler_for c u)) = Some o.
Proof. intros Hu Hb. destruct (scheduler_for_at c u Hu) as [[] _]. by apply owner_total; [|apply add_valid|]. Qed.

(** * Handlers of received PDUs *)

(** A handler returned; the window is where it was or starts [n] bits later. *)
Definition handled (n : option nat) (u : UmacBs) (pdu : BitBuffer) (r : option (BitBuffer * UmacBs * list UmacMsg)) : Prop :=
  ∃ pdu' u' out, r = Some (pdu', u', out) ∧ umac_inv u' ∧ um_dltime u' = um_dltime u ∧ Forall msg_ok out ∧
    (bb_start pdu' = bb_start pdu ∨ ∃ k, n = Some k ∧ pdu' = window_at (bb_start pdu + k) pdu).

Lemma handled_stop n u pdu pdu' u' out : umac_inv u' → um_dltime u' = um_dltime u → Forall msg_ok out → bb_start pdu' = bb_start pdu →
  handled n u pdu (Some (pdu', u', out)).
Proof. intros. exists pdu', u', out. split_and!; [done..|by left]. Qed.

Lemma handled_next n u pdu k u' out : umac_inv u' → um_dltime u' = um_dltime u → Forall msg_ok out → n = Some k →
  handled n u pdu (Some (window_at (bb_start pdu + k) pdu, u', out)).
Proof. intros. eexists _, u', out. split_and!; [done..|]. right. by exists k. Qed.

(** The window after a header of [n] bits and cut to the PDU; [m] bits is how far it reaches. *)
Lemma cut_ok fb l n pdu : wf pdu → get_pos pdu = 0 → n ≤ get_len_remaining pdu → n ≤ l `min` get_len pdu → ∃ len k b,
  trim_pdu fb l (advance n pdu) = Some (len, k, bb_end pdu, b) ∧ wf b ∧ bb_start b = bb_start pdu ∧ len + k = l `min` get_len pdu ∧
  ∀ b', moved b b' → bb_start b' = bb_start pdu ∧ next_pdu (bb_end pdu) len k b' = Some (window_at (bb_start pdu + l `min` get_len pdu) pdu).
Proof.
  intros Hwf Hp Hn Hl. pose proof (wf_advance _ _ Hwf Hn) as Hwa. destruct (trim_pdu_ok fb l (advance n pdu) Hwa) as (len & k & -> & Hpl & Hlk & Hwt).
  { unfold get_pos, get_len, advance in *. cbn in *. lia. }
  exists len, k. eexists. split; [done|]. split; [done|]. split; [done|]. split; [done|]. intros b' (p & -> & Hmp). split; [done|].
  pose proof (wf_start _ Hwt). pose proof (wf_pos _ Hwf). pose proof (wf_start _ Hwf).
  assert (len + k = l `min` get_len pdu) as Hlk' by exact Hlk. assert (bb_start pdu + (len + k) ≤ bb_end pdu) by (unfold get_len in *; lia).
  rewrite (next_ok pdu); try done; cbn in *; try lia. rewrite <-Hlk'. do 2 f_equal. lia.
Qed.
