(* ===== verification/UmacBsRx.v ===== *)
(** The upper MAC entity: reception of blocks.

    Every handler of a received PDU returns and keeps the invariant; so does the
    loop over the PDUs of a block.  A terminal may put several MAC PDUs into one
    block, one after the other, each with its length; the loop over the block
    takes them apart again. *)
From S2P Require Import Prelude Bits Core BitBuffer BitBufferSpec BitCodec BitBufferThms FieldCodec PduCodec.
From S2P Require Import Arrays TdmaTime Freqs TxReceipt Fillbits MacDl MacDlSpec BsFragSpec.
From S2P Require Import Scrambler ErrorControlSpec DefragSpec UmacCircuitMgr MacBcast MacBcastSpec BsSchedUlSpec MacUl MacUlSpec.
From S2P Require Import BsSched BsSchedSpec BsSchedSlot BsSchedRun UmacCell LmacBsSpec Saps UmacBs UmacBsSpec.

#[local] Opaque add_timeslots forward_to_timeslot slot_index.

Section rx.
Context (iter : gmap Z DefragBuffer → list (Z * DefragBuffer)).
Context (iter_perm : ∀ m, iter m ≡ₚ map_to_list m).

Lemma ul_address_issi n a e : ul_address n (Some a, e) → names_issi (Some a) = true → n = 24 ∧ addr_ok a.
Proof.
  unfold ul_address, names_issi. destruct e; [done|]. intros (-> & Hu & _) Hi%bool_decide_eq_true. split; [done|]. split; [|done].
  unfold plain_ssi. tauto.
Qed.

Lemma start_advance n b : bb_start (advance n b) = bb_start b.
Proof. done. Qed.

Lemma len_advance n b : get_len (advance n b) = get_len b.
Proof. done. Qed.

(** [f] is the parser, [r] what the handler makes of a header. *)
Lemma parsed_handled {A} (f : B A) P n u pdu r : umac_inv u → wf pdu → consumes f P →
  (∀ p m, f pdu = Ok p (advance m pdu) → m ≤ get_len_remaining pdu → P m p → handled n u pdu (r p (advance m pdu))) →
  handled n u pdu (match f pdu with Panic => None | Err _ pdu => Some (pdu, u, []) | Ok p pdu => r p pdu end).
Proof.
  intros Hu Hwf Hf Hr. specialize (Hf pdu Hwf). destruct (f pdu) as [p b|e b|] eqn:E; [|by destruct Hf as (m & _ & ->); apply handled_stop|done].
  destruct Hf as (m & Hm & -> & HP). by apply Hr.
Qed.

Lemma check_pos pdu : get_pos pdu = 0 → check (get_pos pdu =? 0) = Some tt.
Proof. by intros ->. Qed.

Lemma mac_data_len_covers p len l fs ss np : mac_data_len p len = Some (l, fs, ss, np) → header_good (HData p) = true →
  mda_event_label p = None → 37 ≤ len → 37 ≤ l.
Proof.
  unfold mac_data_len. cbn [header_good]. intros Hl [_ Hg]%andb_true_iff He Hlen. rewrite He in Hl. cbn [is_some] in Hl.
  destruct (mda_length_ind p) as [li|]; [|by injection Hl as <- _ _ _].
  destruct (Z.eqb_spec li 0); [by injection Hl as <- _ _ _|].
  destruct (Z.leb_spec 2 li), (Z.ltb_spec li 56), (Z.ltb_spec li 5); cbn [andb negb] in *; try done; try (injection Hl as <- _ _ _; lia);
    (destruct (li =? 62)%Z; [|destruct (li =? 63)%Z; [|done]]); by injection Hl as <- _ _ _.
Qed.

Lemma rx_mac_data_ok prim pdu u : umac_inv u → wf pdu → get_pos pdu = 0 → header_good (parsed HData mac_data_from_bitbuf pdu) = true →
  handled (header_extent (parsed HData mac_data_from_bitbuf pdu) (get_len pdu)) u pdu (rx_mac_data iter prim pdu u).
Proof.
  intros Hu Hwf Hp Hg. unfold rx_mac_data. rewrite check_pos by done. cbn [mbind option_bind].
  eapply parsed_handled; [done..|apply consumes_data|]. intros p n E Hn (m & Ha & Hl). unfold parsed in *. rewrite E in *.
  assert (∀ out, Forall msg_ok out → ∀ x y, handled x u pdu (Some (advance y pdu, u, out))) as Hstop by (intros; by apply handled_stop).
  destruct (mda_event_label p) as [e|] eqn:Ee; [by apply Hstop|]. destruct (mda_addr p) as [a|] eqn:Eaddr; [|by apply Hstop].
  rewrite len_advance. cbn [header_extent]. destruct (mac_data_len p (get_len pdu)) as [[[[l fs] ss] np]|] eqn:El; [|by apply Hstop].
  cbn [fmap option_fmap option_map fst].
  pose proof Hg as Hg'. cbn [header_good] in Hg'. apply andb_true_iff in Hg' as [Hi _]. rewrite Eaddr in Hi.
  destruct (ul_address_issi m a None Ha Hi) as [-> Haok]. pose proof Hp as Hp0. pose proof Hn as Hn0. unfold get_pos, get_len_remaining in Hp0, Hn0. pose proof (wf_start _ Hwf).
  assert (n ≤ l `min` get_len pdu) as Hcov.
  { assert (n ≤ get_len pdu) as Hng by (unfold get_len; lia). destruct (mda_length_ind p) as [li|] eqn:Eli.
    - destruct Hl as (_ & -> & _). pose proof (mac_data_len_covers _ _ _ _ _ _ El Hg Ee). unfold get_len in *. lia.
    - unfold mac_data_len in El. rewrite Eli in El. injection El as <- _ _ _. lia. }
  set (stolen := if ss then _ else _).
  assert (Forall msg_ok stolen) as Hst.
  { unfold stolen. destruct ss; [|done]. constructor; [|done]. cbn. split; [done|]. do 2 eexists. split_and!; try done. apply add_valid. }
  destruct (cut_ok (mda_fill_bits p) l n pdu Hwf Hp Hn Hcov) as (len & k & b & -> & Hwb & Hbs & Hlk & Hnext). cbn [mbind option_bind].
  destruct np; [by apply handled_stop|]. destruct (mda_encrypted p); [by apply handled_stop|].
  pose proof (ul_slot_ok u) as Ht.
  destruct (grant_request_ok (ti_carrier_num prim) (tt_t (add_timeslots (um_dltime u) (-2))) a (mda_reservation_req p) u)
    as (u1 & -> & Hu1 & Hd1 & Hf1); [done..|]. cbn [mbind option_bind]. destruct fs.
  - destruct (defrag_first iter iter_perm b (add_timeslots (um_dltime u) (-2)) a None (um_defrag u1)) as (b' & d & -> & Hmv & Hd); try done; [apply Hu1|].
    cbn [mbind option_bind]. destruct (Hnext b' Hmv) as [_ ->]. cbn [mbind option_bind]. rewrite app_nil_r. by apply handled_next; [apply set_defrag_inv|..].
  - destruct (deliver_ok prim b a (tt_t (add_timeslots (um_dltime u) (-2))) false) as (out & -> & Hout); [done..|]. cbn [mbind option_bind].
    destruct (Hnext b (moved_refl _ Hwb)) as [_ ->]. cbn [mbind option_bind]. apply handled_next; try done. by apply Forall_app.
Qed.

Lemma rx_mac_access_ok prim pdu u : umac_inv u → wf pdu → get_pos pdu = 0 → header_good (parsed HAccess mac_access_from_bitbuf pdu) = true →
  handled (header_extent (parsed HAccess mac_access_from_bitbuf pdu) (get_len pdu)) u pdu (rx_mac_access iter prim pdu u).
Proof.
  intros Hu Hwf Hp Hg. unfold rx_mac_access. rewrite check_pos by done. cbn [mbind option_bind].
  eapply parsed_handled; [done..|apply consumes_access|]. intros p n E Hn (m & Ha & Hl). unfold parsed in *. rewrite E in *.
  destruct (ma_event_label p) as [e|] eqn:Ee; [by apply handled_stop|]. destruct (ma_addr p) as [a|] eqn:Eaddr; [|by apply handled_stop].
  rewrite len_advance. cbn [header_extent header_good] in *. apply andb_true_iff in Hg as [Hi Hg]. rewrite Eaddr in Hi.
  destruct (ul_address_issi m a None Ha Hi) as [-> Haok]. pose proof Hp as Hp0. pose proof Hn as Hn0. unfold get_pos, get_len_remaining in Hp0, Hn0. pose proof (wf_start _ Hwf).
  set (l := mac_access_len p (get_len pdu)) in *.
  assert (n ≤ l `min` get_len pdu) as Hcov.
  { assert (n ≤ get_len pdu) as Hng by (unfold get_len; lia). subst l. unfold mac_access_len. rewrite Ee. cbn [is_some].
    destruct (ma_length_ind p) as [li|]; [|lia]. destruct Hl as ([? _] & -> & _). destruct (Z.eqb_spec li 0); [lia|].
    destruct (Z.leb_spec 1 li), (Z.ltb_spec li 5); cbn [andb negb] in Hg; try done; lia. }
  destruct (cut_ok (ma_fill_bits p) l n pdu Hwf Hp Hn Hcov) as (len & k & b & -> & Hwb & Hbs & Hlk & Hnext). cbn [mbind option_bind].
  destruct (ma_is_null_pdu p); [by apply handled_stop|]. cbv zeta. destruct (_ && _ && _); [by apply handled_stop|].
  pose proof (ul_slot_ok u) as Ht. set (t := tt_t (add_timeslots (um_dltime u) (-2))) in *.
  assert (∃ u1, (if negb (circuit_is_active Dl t (scheduler_for (ti_carrier_num prim) u))
    then scheduler_for_mut (ti_carrier_num prim) (dl_enqueue_random_access_ack t a) u else Some u) = Some u1 ∧
    umac_inv u1 ∧ um_dltime u1 = um_dltime u ∧ um_defrag u1 = um_defrag u) as (u1 & -> & Hu1 & Hd1 & _)
    by (destruct (negb _); [by apply enqueue_ack_ok|by exists u]).
  cbn [mbind option_bind]. set (rssi := if is_finite _ then _ else _).
  assert (Forall msg_ok rssi) as Hr by (unfold rssi; destruct (is_finite _) eqn:?; repeat constructor; try done; apply Haok).
  destruct (ma_encrypted p); [by apply handled_stop|].
  destruct (grant_request_ok (ti_carrier_num prim) t a (ma_reservation_req p) u1) as (u2 & -> & Hu2 & Hd2 & Hf2); [done..|]. cbn [mbind option_bind].
  assert (um_dltime u2 = um_dltime u) as Hd by congruence. destruct (ma_is_frag_start p).
  - destruct (defrag_first iter iter_perm b (add_timeslots (um_dltime u) (-2)) a None (um_defrag u2)) as (b' & d & -> & Hmv & Hdf); try done; [apply Hu2|].
    cbn [mbind option_bind]. destruct (Hnext b' Hmv) as [_ ->]. cbn [mbind option_bind]. by apply handled_next; [apply set_defrag_inv|..].
  - destruct (get_len_remaining b =? 0); [by apply handled_stop|].
    destruct (deliver_ok prim b a t false) as (out & -> & Hout); [done..|]. cbn [mbind option_bind].
    destruct (Hnext b (moved_refl _ Hwb)) as [_ ->]. cbn [mbind option_bind]. apply handled_next; try done. by apply Forall_app.
Qed.

Lemma rx_mac_frag_ul_ok prim pdu u n : umac_inv u → wf pdu → get_pos pdu = 0 → ti_block_num prim ≠ PbUndefined →
  handled n u pdu (rx_mac_frag_ul prim pdu u).
Proof.
  intros Hu Hwf Hp Hb. unfold rx_mac_frag_ul. rewrite check_pos by done. cbn [mbind option_bind].
  eapply parsed_handled; [done..|apply consumes_frag_ul|]. intros p m E Hm ->. rewrite len_advance.
  destruct (cut_ok (mfu_fill_bits p) (get_len pdu) 4 pdu Hwf Hp Hm) as (len & k & b & -> & Hwb & Hbs & Hlk & Hnext).
  { pose proof (wf_start _ Hwf). unfold get_len, get_len_remaining in *. lia. }
  cbn [mbind option_bind]. destruct (scheduler_owner (ti_carrier_num prim) (ti_block_num prim) u Hu Hb) as [o ->]. cbn [mbind option_bind].
  destruct o as [o|]; [|by apply handled_stop]. pose proof (ul_slot_ok u) as Ht. pose proof (un_frags _ Hu) as Hf.
  destruct (aie_total o (add_timeslots (um_dltime u) (-2)) (um_defrag u) Hf Ht) as [aie ->]. cbn [mbind option_bind].
  destruct (is_some aie); [by apply handled_stop|].
  destruct (defrag_next iter iter_perm b o (add_timeslots (um_dltime u) (-2)) (um_defrag u)) as (b' & d & -> & Hmv & Hd); [done..|].
  cbn [mbind option_bind]. apply handled_stop; [by apply set_defrag_inv|done..|]. by apply Hnext.
Qed.

Lemma rx_mac_end_ok fb l rr prim pdu u n : umac_inv u → wf pdu → get_pos pdu = 0 → ti_block_num prim ≠ PbUndefined →
  n ≤ get_len_remaining pdu → n ≤ l `min` get_len pdu →
  handled (Some (l `min` get_len pdu)) u pdu (rx_mac_end fb l rr prim (advance n pdu) u).
Proof.
  intros Hu Hwf Hp Hb Hn Hl. unfold rx_mac_end. destruct (cut_ok fb l n pdu Hwf Hp Hn Hl) as (len & k & b & -> & Hwb & Hbs & Hlk & Hnext).
  cbn [mbind option_bind]. destruct (scheduler_owner (ti_carrier_num prim) (ti_block_num prim) u Hu Hb) as [o ->]. cbn [mbind option_bind].
  destruct o as [o|]; [|by apply handled_stop]. pose proof (ul_slot_ok u) as Ht. pose proof (un_frags _ Hu) as Hf.
  destruct (aie_total o (add_timeslots (um_dltime u) (-2)) (um_defrag u) Hf Ht) as [aie ->]. cbn [mbind option_bind].
  destruct (is_some aie); [by apply handled_stop|].
  destruct (defrag_last b o (add_timeslots (um_dltime u) (-2)) (um_defrag u)) as (r & b' & d & -> & Hmv & Hd & Hr); [done..|].
  cbn [mbind option_bind]. pose proof (set_defrag_inv d u Hu Hd) as Hu1. destruct r as [r|]; [|apply handled_stop; try done; by apply Hnext].
  destruct (Hr r eq_refl) as (Ha & Hwr & Hpr).
  destruct (grant_request_ok (ti_carrier_num prim) (tt_t (add_timeslots (um_dltime u) (-2))) (db_addr r) rr (um_set_defrag d u))
    as (u1 & -> & Hu2 & Hd1 & _); [done..|]. cbn [mbind option_bind]. destruct (Hnext b' Hmv) as [_ ->]. cbn [mbind option_bind].
  apply handled_next; try done. constructor; [|done]. by exists (db_buffer r).
Qed.

Lemma rx_mac_end_ul_ok prim pdu u : umac_inv u → wf pdu → get_pos pdu = 0 → ti_block_num prim ≠ PbUndefined →
  header_good (parsed HEndUl mac_end_ul_from_bitbuf pdu) = true →
  handled (header_extent (parsed HEndUl mac_end_ul_from_bitbuf pdu) (get_len pdu)) u pdu (rx_mac_end_ul prim pdu u).
Proof.
  intros Hu Hwf Hp Hb Hg. unfold rx_mac_end_ul. rewrite check_pos by done. cbn [mbind option_bind].
  eapply parsed_handled; [done..|apply consumes_end_ul|]. intros p m E Hm [-> Hl]. unfold parsed in *. rewrite E in *. rewrite len_advance.
  cbn [header_extent header_good] in *. apply rx_mac_end_ok; try done. pose proof (wf_start _ Hwf). unfold get_len, get_len_remaining in *.
  destruct (meu_length_ind p); [|lia]. apply Z.leb_le in Hg. lia.
Qed.

Lemma rx_mac_end_hu_ok prim pdu u : umac_inv u → wf pdu → get_pos pdu = 0 → ti_block_num prim ≠ PbUndefined →
  handled (header_extent (parsed HEndHu mac_end_hu_from_bitbuf pdu) (get_len pdu)) u pdu (rx_mac_end_hu prim pdu u).
Proof.
  intros Hu Hwf Hp Hb. unfold rx_mac_end_hu. rewrite check_pos by done. cbn [mbind option_bind].
  eapply parsed_handled; [done..|apply consumes_end_hu|]. intros p m E Hm [-> Hl]. unfold parsed in *. rewrite E in *. rewrite len_advance.
  cbn [header_extent]. pose proof (wf_start _ Hwf).
  destruct (meh_length_ind p) as [l|]; [|apply rx_mac_end_ok; try done; unfold get_len, get_len_remaining in *; lia].
  destruct Hl as [[Hl0 _] _]. destruct (Z.eqb_spec l 0); [by apply handled_stop|]. cbv zeta.
  assert ((if get_len pdu <? Z.to_nat l * 8 then get_len pdu else Z.to_nat l * 8) = (Z.to_nat l * 8) `min` get_len pdu) as ->
    by (destruct (Nat.ltb_spec (get_len pdu) (Z.to_nat l * 8)); lia).
  set (x := (Z.to_nat l * 8) `min` get_len pdu) in *. assert (x = x `min` get_len pdu) as Hx by lia. rewrite Hx at 1.
  apply rx_mac_end_ok; try done. unfold get_len, get_len_remaining in *. lia.
Qed.

Lemma rx_u_signal_ok prim pdu u n : umac_inv u → wf pdu → ti_block_num prim ≠ PbUndefined →
  handled n u pdu (rx_ul_mac_u_signal prim pdu u).
Proof.
  intros Hu Hwf Hb. unfold rx_ul_mac_u_signal. eapply parsed_handled; [done..|apply consumes_u_signal|]. intros p m E Hm _.
  destruct (mus_second_half_stolen p); [by apply handled_stop|]. destruct (_ =? 0); [by apply handled_stop|].
  destruct (remaining_sdu (advance m pdu) (wf_advance _ _ Hwf Hm)) as (sdu & -> & Hws & Hps & _). cbn [mbind option_bind].
  destruct (scheduler_owner (ti_carrier_num prim) (ti_block_num prim) u Hu Hb) as [o ->]. cbn [mbind option_bind].
  apply handled_stop; try done. constructor; [|done]. exists sdu. split_and!; try done; apply ul_slot_ok.
Qed.

Lemma rx_u_blck_ok pdu u n : umac_inv u → wf pdu → handled n u pdu (rx_ul_mac_u_blck pdu u).
Proof.
  intros Hu Hwf. unfold rx_ul_mac_u_blck. pose proof (consumes_u_blck pdu Hwf) as Hc.
  destruct (mac_u_blck_from_bitbuf pdu); [destruct Hc as (m & _ & -> & _)|destruct Hc as (m & _ & ->)|done]; by apply handled_stop.
Qed.

(** * A block *)

Lemma peek_3 b : wf b → ∃ o, peek_bits 3 b = Ok o b.
Proof. intros Hwf. unfold peek_bits. change 0%Z with (Z.of_nat 0). rewrite peek_bits_posoffset_spec by done. by eexists. Qed.

(** A turn of the loop: it ends the block, or a handler returned. *)
Definition turned (n : option nat) (u : UmacBs) (pdu : BitBuffer) (x : option (option (BitBuffer * UmacBs * list UmacMsg))) : Prop :=
  x = Some None ∨ ∃ r, x = Some (Some r) ∧ handled n u pdu (Some r).

Lemma turned_lift n u pdu r : handled n u pdu r → turned n u pdu (Some <$> r).
Proof. intros (p' & u' & out & -> & Hrest). right. exists (p', u', out). split; [done|]. by exists p', u', out. Qed.

Lemma turned_skip n u pdu : umac_inv u → turned n u pdu (Some (Some (pdu, u, []))).
Proof. intros Hu. right. eexists. split; [done|]. by apply handled_stop. Qed.

Lemma rx_mac_pdu_ok prim pdu u : umac_inv u → wf pdu → get_pos pdu = 0 → ti_block_num prim ≠ PbUndefined →
  header_good (header_of (ti_logical_channel prim) pdu) = true →
  turned (header_extent (header_of (ti_logical_channel prim) pdu) (get_len pdu)) u pdu (rx_mac_pdu iter prim pdu u).
Proof.
  intros Hu Hwf Hp Hb. unfold rx_mac_pdu, header_of. destruct (peek_3 pdu Hwf) as [o Ho]. rewrite (exec_ok _ _ _ _ Ho), Ho. cbn [mbind option_bind].
  destruct o as [bits|]; [|by left].
  destruct (ti_logical_channel prim) eqn:Elc; intros Hg; try apply (turned_skip _ _ _ Hu).
  - destruct (mac_pdu_type_try_from _) as [[]|]; [by apply turned_lift, rx_mac_data_ok| |apply (turned_skip _ _ _ Hu)| |by left].
    + destruct (_ =? 0)%Z; apply turned_lift; [by apply rx_mac_frag_ul_ok|by apply rx_mac_end_ul_ok].
    + rewrite bool_decide_false by done. destruct (_ =? 0)%Z; [by apply turned_lift, rx_u_blck_ok|apply (turned_skip _ _ _ Hu)].
  - destruct (mac_pdu_type_try_from _) as [[]|]; [by apply turned_lift, rx_mac_data_ok| |apply (turned_skip _ _ _ Hu)| |by left].
    + destruct (_ =? 0)%Z; apply turned_lift; [by apply rx_mac_frag_ul_ok|by apply rx_mac_end_ul_ok].
    + rewrite bool_decide_true by done. by apply turned_lift, rx_u_signal_ok.
  - cbv zeta. destruct (_ =? 0)%Z; [by apply turned_lift, rx_mac_access_ok|]. destruct (_ =? 1)%Z; [by apply turned_lift, rx_mac_end_hu_ok|apply (turned_skip _ _ _ Hu)].
Qed.

Lemma window_wf n b : wf b → n ≤ get_len b → wf (window_at (bb_start b + n) b).
Proof. intros Hwf Hn. pose proof (wf_start _ Hwf). pose proof (wf_pos _ Hwf). unfold get_len in Hn. apply wf_window; [done|lia..]. Qed.

Lemma extent_le h len n : header_extent h len = Some n → n ≤ len.
Proof. destruct h; cbn; try (intros [= <-]; lia). destruct (mac_data_len p len) as [[[[? ?] ?] ?]|]; [|done]. intros [= <-]. cbn. lia. Qed.

(** The loop ends before its fuel, which bounds the bits that are left. *)
Lemma rx_loop_ok prim : ti_block_num prim ≠ PbUndefined → ∀ fuel pdu u, umac_inv u → wf pdu → get_pos pdu = 0 → get_len pdu < fuel →
  block_good fuel (ti_logical_channel prim) pdu = true →
  ∃ u' out, rx_tmv_sch_loop iter fuel prim pdu u = Some (u', out) ∧ umac_inv u' ∧ um_dltime u' = um_dltime u ∧ Forall msg_ok out.
Proof.
  intros Hb fuel. induction fuel as [|fuel IH]; intros pdu u Hu Hwf Hp Hlen; [lia|]. cbn [block_good rx_tmv_sch_loop]. cbv zeta. intros [Hg Hrest]%andb_true_iff.
  destruct (rx_mac_pdu_ok prim pdu u Hu Hwf Hp Hb Hg) as [->|(r & -> & Hr)]; cbn [mbind option_bind]; [by exists u, []|].
  destruct Hr as (pdu' & u' & out & [= ->] & Hu' & Hd & Hout & Hw).
  destruct (Nat.eqb_spec (bb_start pdu') (bb_start pdu)) as [Heq|Hne]; cbn [negb andb]; [by exists u', out|].
  destruct Hw as [?|(n & Hn & ->)]; [done|]. rewrite Hn in Hrest. destruct (16 <=? _); [|by exists u', out].
  pose proof (extent_le _ _ _ Hn) as Hle. pose proof (window_wf n pdu Hwf Hle) as Hw.
  destruct (IH (window_at (bb_start pdu + n) pdu) u' Hu' Hw) as (u2 & out2 & -> & Hu2 & Hd2 & Hout2); try done.
  - unfold get_pos. cbn. lia.
  - unfold get_len in *. cbn in *. lia.
  - cbn [mbind option_bind]. eexists u2, _. split; [done|]. split; [done|]. split; [congruence|by apply Forall_app].
Qed.

(** What the lower MAC hands over: a buffer at its start, whose headers are good. *)
Definition tmv_ind_ok (p : TmvUnitdataInd) : Prop :=
  wf (ti_pdu p) ∧ get_pos (ti_pdu p) = 0 ∧ block_good (S (get_len (ti_pdu p))) (ti_logical_channel p) (ti_pdu p) = true.

Lemma rx_tmv_ok prim u : umac_inv u → tmv_ind_ok prim →
  ∃ u' out, rx_tmv_unitdata_ind iter prim u = Some (u', out) ∧ umac_inv u' ∧ um_dltime u' = um_dltime u ∧ Forall msg_ok out.
Proof.
  intros Hu (Hwf & Hp & Hg). assert (ti_block_num prim ≠ PbUndefined →
    ∃ u' out, rx_tmv_sch iter prim u = Some (u', out) ∧ umac_inv u' ∧ um_dltime u' = um_dltime u ∧ Forall msg_ok out) as Hrun.
  { intros Hb. unfold rx_tmv_sch. apply rx_loop_ok; try done. lia. }
  unfold rx_tmv_unitdata_ind. destruct (ti_logical_channel prim); try by exists u, [].
  - case_bool_decide as Hb; [apply Hrun; congruence|by exists u, []].
  - destruct (ti_block_num prim); try (by exists u, []); by apply Hrun.
  - destruct (ti_block_num prim); try (by exists u, []); by apply Hrun.
Qed.
End rx.

(** * What the terminal sends *)

(** The header of a MAC-DATA of an ISSI with its length in bytes. *)
Definition data_header (issi : Z) (fill_bits : bool) (length_ind : Z) : MacData :=
  mkMacData fill_bits false (Some (mkAddr issi Issi)) None (Some length_ind) None None.
Definition data_header_bits (issi : Z) (fill_bits : bool) (length_ind : Z) : list bool :=
  fields_bits (mac_data_fields (data_header issi fill_bits length_ind)).

(** The fill bits up to a byte boundary after [n] bits. *)
Definition fill_of (n : nat) : nat := (8 - n mod 8) mod 8.

(** A message as one MAC-DATA: header, SDU and fill bits. *)
Definition data_len (sdu : list bool) : nat := 37 + length sdu + fill_of (37 + length sdu).
Definition data_pdu (m : Z * list bool) : list bool :=
  let '(issi, sdu) := m in
  let k := fill_of (37 + length sdu) in
  data_header_bits issi (0 <? k) (Z.of_nat (data_len sdu / 8)) ++ sdu ++ fill_pattern k.

(** What ends a block: too few bits for a PDU, or a null PDU. *)
Definition ends_block (rest : list bool) : Prop :=
  length rest < 16 ∨ ∃ issi fill more, is_u 24 issi ∧ rest = data_header_bits issi fill 0 ++ more.

Lemma fill_of_ok n : fill_of n < 8 ∧ (n + fill_of n) mod 8 = 0.
Proof.
  unfold fill_of. pose proof (Nat.mod_upper_bound (8 - n mod 8) 8 ltac:(lia)). split; [done|].
  pose proof (Nat.mod_upper_bound n 8 ltac:(lia)). pose proof (Nat.div_mod_eq n 8) as Hn. destruct (decide (n mod 8 = 0)) as [E|E].
  - rewrite E. change ((8 - 0) mod 8) with 0. by rewrite Nat.add_0_r.
  - rewrite (Nat.mod_small (8 - n mod 8)) by lia. replace (n + (8 - n mod 8)) with ((n / 8 + 1) * 8) by lia. apply Nat.Div0.mod_mul.
Qed.

Lemma data_len_ok sdu : data_len sdu = data_len sdu / 8 * 8 ∧ 37 ≤ data_len sdu.
Proof.
  destruct (fill_of_ok (37 + length sdu)) as [_ H]. pose proof (Nat.div_mod_eq (data_len sdu) 8). unfold data_len in *. lia.
Qed.

Lemma mac_data_header_valid issi fb l : is_u 24 issi → is_u 6 l → mac_data_valid (data_header issi fb l).
Proof. intros Hi Hl. constructor; [split; [done|left; unfold plain_ssi; cbn; tauto]|done..]. Qed.

Lemma data_header_len issi fb l : length (data_header_bits issi fb l) = 37.
Proof. unfold data_header_bits. by rewrite length_fields_bits. Qed.

Lemma data_pdu_len issi sdu : length (data_pdu (issi, sdu)) = data_len sdu.
Proof. unfold data_pdu. rewrite !length_app, length_fill_pattern, data_header_len. unfold data_len. lia. Qed.

(** * One PDU *)

Lemma header_reads issi fb l b rest : wf b → is_u 24 issi → is_u 6 l → remaining b = data_header_bits issi fb l ++ rest →
  mac_data_from_bitbuf b = Ok (data_header issi fb l) (advance 37 b) ∧ 37 ≤ get_len_remaining b ∧
  exec (peek_bits 3) b = Some (Some (Z.b2z fb), b).
Proof.
  intros Hwf Hi Hl Hr. pose proof (length_remaining b Hwf) as Hlen. rewrite Hr, length_app, data_header_len in Hlen.
  split; [|split; [lia|]].
  - replace (advance 37 b) with (advance (length (data_header_bits issi fb l)) b) by (by rewrite data_header_len). apply (mac_data_reads _ (mac_data_header_valid issi fb l Hi Hl)); [done|]. rewrite Hr. by eexists.
  - apply exec_ok. unfold peek_bits. change 0%Z with (Z.of_nat 0). rewrite peek_bits_posoffset_spec by done. rewrite decide_True by lia.
    rewrite Hr. by destruct fb.
Qed.

Lemma window_start_len b : wf b → get_pos b = 0 → bb_pos b = bb_start b ∧ get_len_remaining b = get_len b.
Proof. intros Hwf Hp. pose proof (wf_start _ Hwf). unfold get_pos, get_len, get_len_remaining in *. lia. Qed.

(** The fill bits are found again. *)
Lemma trim_exact n k b bs : wf b → get_pos b ≤ n → n + k ≤ get_len b → length bs = n → bs ++ fill_pattern k `prefix_of` window b →
  trim_pdu (0 <? k) (n + k) b = Some (n, k, bb_end b, set_end (bb_start b + n) b).
Proof.
  intros Hwf Hp Hl Hbs [rest Hw]. unfold trim_pdu. cbv zeta. destruct (Nat.ltb_spec (get_len b) (n + k)); [lia|].
  assert ((if 0 <? k then get_num_fill_bits (n + k) else mret 0) b = Ok k b) as Hk.
  { destruct k as [|k]; [done|]. cbn [Nat.ltb Nat.leb].
    assert (∀ i, i < S k → a_bits (abs b) !! (bb_start b + (n + i)) = Some (bool_decide (i = 0))) as Hbits.
    { intros i Hi. change (a_bits (abs b) !! (bb_start b + (n + i))) with (a_bits (abs b) !! (a_start (abs b) + (n + i))).
      rewrite <-lookup_drop. change (drop _ _) with (window b). rewrite Hw, <-app_assoc, lookup_app_r, Hbs by lia.
      replace (n + i - n) with i by lia. rewrite lookup_app_l by (rewrite length_fill_pattern; lia). by apply fill_pattern_lookup. }
    unfold get_num_fill_bits. replace (n + S k) with (S n + k) at 1 by lia. rewrite (fill_scan_zeroes b n k (n + S k)); [do 2 f_equal; lia|done|done| |].
    - specialize (Hbits 0 ltac:(lia)). by rewrite Nat.add_0_r in Hbits.
    - intros m Hm. specialize (Hbits (S m) ltac:(lia)). by replace (n + S m) with (S n + m) in Hbits by lia. }
  rewrite (exec_ok _ _ _ _ Hk). cbn [mbind option_bind]. destruct (Nat.leb_spec k (n + k)); [|lia]. cbn [check mbind option_bind].
  unfold get_pos, get_len in *. pose proof (wf_start _ Hwf). pose proof (wf_pos _ Hwf). pose proof (wf_end _ Hwf).
  rewrite exec_raw_end by lia. cbn [mbind option_bind]. by replace (n + k - k) with n by lia.
Qed.

Lemma remaining_cut b h e : e ≤ bb_end b → remaining (set_end e (advance h b)) = take (e - (bb_pos b + h)) (drop h (remaining b)).
Proof.
  intros He. unfold remaining, a_remaining. cbn. rewrite drop_drop, !skipn_firstn_comm, firstn_firstn. f_equal. lia.
Qed.

Section dissociation.
Context (iter : gmap Z DefragBuffer → list (Z * DefragBuffer)).

(** What a message is to the LLC. *)
Definition delivers (prim : TmvUnitdataInd) (u : UmacBs) (m : Z * list bool) (msg : UmacMsg) : Prop :=
  ∃ sdu, msg = tma_unitdata_ind prim sdu (mkAddr m.1 Issi) (tt_t (add_timeslots (um_dltime u) (-2))) false ∧
    wf sdu ∧ get_pos sdu = 0 ∧ window sdu = m.2.

Lemma rx_one_pdu prim b u m rest : wf b → get_pos b = 0 → is_u 24 m.1 → m.2 ≠ [] → data_len m.2 < 448 → remaining b = data_pdu m ++ rest →
  ∃ msg, rx_mac_data iter prim b u = Some (window_at (bb_start b + data_len m.2) b, u, [msg]) ∧ delivers prim u m msg.
Proof.
  destruct m as [issi sdu]. cbn [fst snd]. intros Hwf Hp Hi Hne Hl Hr. destruct (window_start_len b Hwf Hp) as [Hps Hgl].
  set (k := fill_of (37 + length sdu)). set (n := 37 + length sdu). assert (data_len sdu = n + k) as Hnk by done.
  pose proof (length_remaining b Hwf) as Hlen. rewrite Hr, length_app, data_pdu_len, Hnk in Hlen.
  assert (is_u 6 (Z.of_nat (data_len sdu / 8))) as Hu6 by (destruct (data_len_ok sdu); unfold is_u; lia).
  unfold data_pdu in Hr. fold k in Hr. rewrite <-!app_assoc in Hr.
  destruct (header_reads issi (0 <? k) _ b _ Hwf Hi Hu6 Hr) as (Hread & H37 & _).
  unfold rx_mac_data. rewrite check_pos by done. cbn [mbind option_bind]. rewrite Hread. cbn [data_header mda_event_label mda_addr].
  unfold mac_data_len. cbn [data_header mda_length_ind mda_event_label mda_fill_bits mda_encrypted mda_reservation_req].
  destruct (data_len_ok sdu) as [Hd8 Hd37]. destruct (Z.eqb_spec (Z.of_nat (data_len sdu / 8)) 0); [lia|].
  destruct (Z.leb_spec 2 (Z.of_nat (data_len sdu / 8))), (Z.ltb_spec (Z.of_nat (data_len sdu / 8)) 56); try lia. cbn [andb].
  rewrite Nat2Z.id, <-Hd8, Hnk.
  rewrite (trim_exact n k (advance 37 b) (data_header_bits issi (0 <? k) (Z.of_nat (data_len sdu / 8)) ++ sdu)).
  2: by apply wf_advance.
  2: unfold get_pos, advance; cbn; lia.
  2: rewrite len_advance; lia.
  2: rewrite length_app, data_header_len; done.
  2: { exists rest. rewrite <-!app_assoc, <-Hr. change (window (advance 37 b)) with (window b). unfold remaining, window, a_remaining, a_window. cbn. by rewrite Hps. }
  cbn [mbind option_bind grant_request]. set (b2 := set_end _ _).
  assert (wf b2) as Hw2.
  { apply (wf_window (bb_start b) (bb_pos b + 37) (bb_start b + n) b); [done|lia..|]. unfold get_len in *. lia. }
  assert (remaining b2 = sdu) as Hrem.
  { unfold b2. rewrite start_advance. rewrite remaining_cut by (unfold get_len in *; lia). rewrite Hr, Hps.
    rewrite drop_app_length' by (by rewrite data_header_len). rewrite take_app_length'; [done|unfold n; lia]. }
  assert (get_len_remaining b2 = length sdu) as Hlr by (rewrite <-(length_remaining b2 Hw2); by rewrite Hrem).
  unfold deliver_sdu. destruct (Nat.eqb_spec (get_len_remaining b2) 0) as [E|_]; [destruct sdu; [done|cbn in *; lia]|].
  destruct (remaining_sdu b2 Hw2) as (x & -> & Hwx & Hpx & Hwin). cbn [mbind option_bind].
  assert (bb_start b + n + k ≤ bb_end b) as Hin by (unfold get_len in Hgl; lia).
  change (bb_end (advance 37 b)) with (bb_end b). rewrite (next_ok b b2 n k); try done; try (cbn; lia). cbn [mbind option_bind app].
  eexists. split; [by rewrite <-Nat.add_assoc|]. exists x. by rewrite Hwin, Hrem.
Qed.

Lemma rx_null_pdu prim b u issi fb rest : wf b → get_pos b = 0 → is_u 24 issi → remaining b = data_header_bits issi fb 0 ++ rest →
  ∃ b', rx_mac_data iter prim b u = Some (b', u, []) ∧ bb_start b' = bb_start b.
Proof.
  intros Hwf Hp Hi Hr. destruct (header_reads issi fb 0 b rest Hwf Hi ltac:(unfold is_u; lia) Hr) as (Hread & H37 & _).
  destruct (window_start_len b Hwf Hp) as [_ Hgl].
  unfold rx_mac_data. rewrite check_pos by done. cbn [mbind option_bind]. rewrite Hread.
  cbn [data_header mac_data_len mda_length_ind mda_event_label mda_addr mda_fill_bits Z.eqb is_some].
  destruct (cut_ok fb 37 37 b Hwf Hp H37) as (len & k & b' & -> & _ & Hbs & _); [lia|]. cbn [mbind option_bind]. by exists b'.
Qed.

Lemma window_remaining b n : wf b → get_pos b = 0 → n ≤ get_len b → remaining (window_at (bb_start b + n) b) = drop n (remaining b).
Proof. intros Hwf Hp Hn. destruct (window_start_len b Hwf Hp) as [E _]. unfold remaining, a_remaining. cbn. by rewrite drop_drop, E. Qed.

(** * The block *)

Lemma rx_block prim u msgs rest : ti_logical_channel prim = SchF ∨ ti_logical_channel prim = Stch → ends_block rest →
  Forall (λ m : Z * list bool, is_u 24 m.1 ∧ m.2 ≠ [] ∧ data_len m.2 < 448) msgs →
  ∀ fuel b, wf b → get_pos b = 0 → get_len b < fuel → remaining b = (msgs ≫= data_pdu) ++ rest → msgs ≠ [] ∨ 16 ≤ length rest →
  ∃ out, rx_tmv_sch_loop iter fuel prim b u = Some (u, out) ∧ Forall2 (delivers prim u) msgs out.
Proof.
  intros Hch Hend. induction 1 as [|m msgs (Hi & Hne & Hl) Hms IH]; intros fuel b Hwf Hp Hf Hr Hnn; (destruct fuel as [|fuel]; [lia|]); cbn [rx_tmv_sch_loop].
  all: unfold rx_mac_pdu.
  - destruct Hnn as [?|Hlen]; [done|]. destruct Hend as [?|(issi & fb & more & Hi & ->)]; [lia|]. cbn [mbind list_bind app] in Hr.
    destruct (header_reads issi fb 0 b more Hwf Hi ltac:(unfold is_u; lia) Hr) as (_ & _ & Hpk). rewrite Hpk. cbn [mbind option_bind].
    assert (mac_pdu_type_try_from (Z.shiftr (Z.b2z fb) 1) = Some MacResourceMacData) as -> by (by destruct fb).
    destruct (rx_null_pdu prim b u issi fb more Hwf Hp Hi Hr) as (b' & -> & Hs).
    exists []. split; [|constructor]. destruct Hch as [-> | ->]; cbn [fmap option_fmap option_map mbind option_bind]; by rewrite Hs, Nat.eqb_refl.
  - rewrite bind_cons, <-app_assoc in Hr. destruct (rx_one_pdu prim b u m ((msgs ≫= data_pdu) ++ rest) Hwf Hp Hi Hne Hl Hr) as (msg & Hrx & Hd).
    destruct m as [issi sdu]. cbn [fst snd] in *. pose proof (length_remaining b Hwf) as Hlen. destruct (window_start_len b Hwf Hp) as [_ Hgl].
    assert (data_len sdu ≤ get_len b) as Hle by (rewrite <-Hgl, <-Hlen, Hr, length_app, data_pdu_len; lia).
    assert (is_u 6 (Z.of_nat (data_len sdu / 8))) as Hu6 by (destruct (data_len_ok sdu); unfold is_u; lia).
    pose proof Hr as Hr'. unfold data_pdu at 1 in Hr'. rewrite <-!app_assoc in Hr'.
    destruct (header_reads issi _ _ b _ Hwf Hi Hu6 Hr') as (_ & _ & Hpk). rewrite Hpk. cbn [mbind option_bind].
    assert (∀ fb, mac_pdu_type_try_from (Z.shiftr (Z.b2z fb) 1) = Some MacResourceMacData) as -> by (by intros []).
    destruct (data_len_ok sdu) as [_ H37]. set (w := window_at (bb_start b + data_len sdu) b) in *.
    assert (remaining w = (msgs ≫= data_pdu) ++ rest) as Hrw.
    { unfold w. rewrite window_remaining, Hr by done. by rewrite drop_app_length' by (by rewrite data_pdu_len). }
    pose proof (window_wf (data_len sdu) b Hwf Hle) as Hww. assert (get_pos w = 0) as Hpw by (unfold get_pos; cbn; lia).
    assert (get_len w < fuel) as Hfw by (unfold get_len in *; cbn; lia).
    assert (∃ out, (if negb (bb_start w =? bb_start b) && (16 <=? get_len w) then
      '(u, out') ← rx_tmv_sch_loop iter fuel prim w u; Some (u, [msg] ++ out') else Some (u, [msg])) = Some (u, out) ∧
      Forall2 (delivers prim u) ((issi, sdu) :: msgs) out) as (out & Ho & H2).
    { destruct (Nat.eqb_spec (bb_start w) (bb_start b)) as [E|_]; [cbn in E; lia|]. cbn [negb andb].
      destruct (window_start_len w Hww Hpw) as [_ Hglw]. pose proof (length_remaining w Hww) as Hlw. rewrite Hrw, Hglw, length_app in Hlw.
      assert (msgs ≠ [] → 16 ≤ length (msgs ≫= data_pdu)) as Hm16.
      { destruct msgs as [|[i s] ?]; [done|]. intros _. rewrite bind_cons, length_app, data_pdu_len. destruct (data_len_ok s). lia. }
      destruct (Nat.leb_spec 16 (get_len w)) as [H16|H16].
      - destruct (IH fuel w Hww Hpw Hfw Hrw) as (out & -> & H2).
        { destruct msgs; [right; change (length ([] ≫= data_pdu)) with 0 in Hlw; lia|by left]. }
        cbn [mbind option_bind]. eexists. split; [done|]. by constructor.
      - assert (msgs = []) as -> by (destruct msgs; [done|]; specialize (Hm16 ltac:(done)); lia). eexists. split; [done|]. by repeat constructor. }
    exists out. split; [|done]. rewrite <-Ho. destruct Hch as [-> | ->]; cbn [fmap option_fmap option_map mbind option_bind]; by rewrite Hrx.
Qed.
End dissociation.
