(* ===== verification/UmacBsTx.v ===== *)
(** The upper MAC entity: requests of the LLC, voice, call control and the tick.

    A request returns when it is what the LLC may ask for ([req_ok]); voice
    blocks are bytes, circuits have the usage marker of traffic. *)
From S2P Require Import Prelude Bits Core BitBuffer BitBufferSpec BitCodec BitBufferThms FieldCodec PduCodec.
From S2P Require Import Arrays TdmaTime Freqs TxReceipt Fillbits MacDl MacDlSpec BsFragSpec.
From S2P Require Import Scrambler ErrorControlSpec DefragSpec UmacCircuitMgr MacBcast MacBcastSpec BsSchedUlSpec MacUl MacUlSpec.
From S2P Require Import BsSched BsSchedSpec BsSchedSlot BsSchedRun UmacCell LmacBsSpec Saps UmacBs UmacBsSpec.

#[local] Opaque add_timeslots forward_to_timeslot slot_index.

(** * Scheduler operations *)

(** A handler leaves the clock and the deferred closes alone. *)
Definition kept (u u' : UmacBs) : Prop :=
  umac_inv u' ∧ um_dltime u' = um_dltime u ∧ um_pending_circuit_closes u' = um_pending_circuit_closes u.

Lemma kept_refl u : umac_inv u → kept u u.
Proof. by split. Qed.

Lemma kept_trans u1 u2 u3 : kept u1 u2 → kept u2 u3 → kept u1 u3.
Proof. intros (? & ? & ?) (? & ? & ?). split; [done|]. split; congruence. Qed.

Lemma exec_kept c op u : umac_inv u → op_ok op → in_slot op = true → (∀ e, op ≠ OpFinalize e) →
  ∃ u', scheduler_for_mut c (sched_exec op) u = Some u' ∧ kept u u'.
Proof.
  intros Hu Hop Hin Hne. destruct (mut_ok c op u Hu Hop Hin Hne) as (s & _ & _ & -> & Hi). eexists. split; [done|].
  destruct (put_schedulers c s u) as (m & l & E). rewrite E in *. by split.
Qed.

Lemma retire_kept tx u : umac_inv u → kept u (um_retire tx u).
Proof. intros []. split; [by constructor|done]. Qed.
Lemma voice_kept v u : umac_inv u → kept u (um_set_voice v u).
Proof. intros []. split; [by constructor|done]. Qed.
Lemma owner_kept v u : umac_inv u → kept u (um_set_owner v u).
Proof. intros []. split; [by constructor|done]. Qed.

(** * Requests of the LLC *)

(** What the LLC may ask for.  A message of 78 to 81 bits cannot be stolen: with
    its header it fits a half slot, but not with its fill bits. *)
Record req_ok (p : TmaUnitdataReq) (tx : option TxReporter) : Prop := {
  rq_wf : wf (tmar_pdu p);
  rq_pos : get_pos (tmar_pdu p) = 0;
  rq_addr : addr_ok (tmar_main_address p);
  rq_tx : pending tx;
  rq_stealing : tmar_stealing_permission p = true → ¬ (78 ≤ get_len (tmar_pdu p) ≤ 81);
  rq_carrier c : tmar_carrier_num p = Some c → is_u 12 c;
  rq_timeslots a : tmar_chan_alloc p = Some a → length (car_timeslots a) = 4;
  rq_assigned a : tmar_chan_alloc p = Some a → car_ul_dl_assigned a ≠ UdAugmented;
  rq_alloc_carrier a c : tmar_chan_alloc p = Some a → car_carrier a = Some c → is_u 12 c;
  rq_usage a m : tmar_chan_alloc p = Some a → car_usage a = Some m → is_u 6 m
}.

Lemma plain_resource_ok f a um ca : addr_ok a → (∀ m, um = Some m → is_u 6 m) → (∀ c, ca = Some c → chan_alloc_valid c) →
  res_ok (plain_resource f a um ca).
Proof.
  intros [Hp Hu] Hum Hca. apply (res_ok_intro _ a); try done. constructor; cbn; try done; try (unfold is_u; lia); by intros ? [= <-].
Qed.

Lemma res_ok_set l fl r : res_ok r → res_ok (set_len_fill l fl r).
Proof. done. Qed.

Lemma seek_home b : wf b → get_pos b = 0 → seek 0 b = Ok tt b.
Proof.
  intros Hwf Hp. pose proof (wf_start _ Hwf). pose proof (wf_pos _ Hwf). unfold get_pos in Hp.
  replace 0 with (bb_pos b - bb_start b) by lia. rewrite seek_pos by (done || lia). by destruct b.
Qed.

Lemma plain_len f a : addr_ok a → hdr_len (plain_resource f a None None) AtSsi = 43.
Proof. done. Qed.

Lemma window_home b : wf b → get_pos b = 0 → remaining b = window b ∧ get_len_remaining b = get_len b.
Proof.
  intros Hwf Hp. pose proof (wf_start _ Hwf). unfold get_pos in Hp. assert (bb_pos b = bb_start b) as E by lia.
  unfold remaining, window, a_remaining, a_window, get_len_remaining, get_len. cbn. by rewrite E.
Qed.

(** A message that fits a half slot together with its fill bits: a MAC-RESOURCE
    that says its length, the message and the fill bits. *)
Definition stolen_bits (f : bool) (a : TetraAddress) (sdu : list bool) : list bool :=
  let len := 43 + length sdu in
  let k := (8 - len mod 8) mod 8 in
  fields_bits (mr_fields AtSsi (set_len_fill (Z.of_nat (div_ceil len 8)) (negb (k =? 0)) (plain_resource f a None None))) ++ sdu ++ fill_pattern k.

Lemma stch_block_ok f a sdu : addr_ok a → wf sdu → get_pos sdu = 0 → get_len sdu ≤ 77 →
  ∃ b, stch_block_of (plain_resource f a None None) sdu = Some b ∧ wf b ∧ get_len b = 124 ∧
    abs b = a_write (stolen_bits f a (window sdu)) (abs (new STCH_CAP)).
Proof.
  intros Ha Hwf Hp Hn. assert (hdr_ok (plain_resource f a None None) AtSsi) as Hh by (by apply plain_resource_ok).
  destruct (window_home sdu Hwf Hp) as [Hw Hl]. pose proof (length_remaining sdu Hwf) as Hlr. unfold stolen_bits. rewrite <-Hw, Hlr, Hl.
  unfold stch_block_of. unfold update_len_and_fill_ind. rewrite (hdr_ok_len _ _ Hh), (plain_len f a Ha). cbn [mbind option_bind].
  set (len := 43 + get_len sdu). set (k := (8 - len mod 8) mod 8). cbv zeta.
  assert (len + k ≤ 120 ∧ 0 < div_ceil len 8 ≤ 15) as [Hk Hd].
  { pose proof (Nat.div_mod_eq len 8) as Hdm. pose proof (Nat.mod_upper_bound len 8 ltac:(lia)) as Hmu.
    pose proof (Nat.div_mod_eq (8 - len mod 8) 8) as Hdm2. pose proof (Nat.mod_upper_bound (8 - len mod 8) 8 ltac:(lia)) as Hmu2. fold k in Hdm2, Hmu2.
    assert (len = 43 + get_len sdu) by done. unfold div_ceil. destruct (Nat.eqb_spec (len mod 8) 0); lia. }
  rewrite (wrap_small 8) by (unfold is_u; lia). destruct (hdr_ok_set _ _ (Z.of_nat (div_ceil len 8)) (negb (k =? 0)) Hh) as [Hv Hs]; [lia|done|].
  set (r := set_len_fill _ _ _) in *. assert (length (fields_bits (mr_fields AtSsi r)) = 43) as Hhl by (by rewrite length_fields_bits).
  destruct (emit_ok (mac_resource_to_bitbuf r) (fields_bits (mr_fields AtSsi r)) sdu (get_len sdu) k (new STCH_CAP))
    as (b1 & b2 & b3 & E1 & E2 & E3 & Hwf3 & Hf3 & He3 & _ & Habs3); try done.
  - apply blk_new. unfold STCH_CAP. lia.
  - lia.
  - by apply mr_writes.
  - rewrite Hhl, new_remaining. unfold STCH_CAP. lia.
  - rewrite E1. cbn [mbind option_bind]. rewrite (exec_ok _ _ _ _ (seek_home sdu Hwf Hp)). cbn [mbind option_bind]. rewrite E2. cbn [mbind option_bind].
    rewrite E3. cbn [mbind option_bind]. exists b3. split; [done|]. split; [done|].
    rewrite take_ge in Habs3 by (rewrite Hlr; lia). split; [|done]. pose proof (f_equal a_start Habs3) as Hst. cbn in Hst.
    unfold get_len. rewrite Hst, He3. done.
Qed.

(** Fragments are whole half slots. *)
Lemma chunk_stolen f : frag_ok f → ∃ d f' b, get_next_chunk f (new STCH_CAP) = Some (d, f', b) ∧ wf b ∧ get_len b = 124 ∧
  if d then bf_is_fully_transmitted f' = true ∧ bf_tx_reporter f' = transmitted (bf_tx_reporter f) else frag_ok f' ∧ bf_tx_reporter f' = bf_tx_reporter f.
Proof.
  intros ((t & Hinv & Hnn) & Hft & Hp). assert (block_ok (new STCH_CAP)) as Hbo by (apply new_block_ok; unfold STCH_CAP; lia).
  destruct (get_next_chunk_ok f t _ Hinv Hbo Hft (pending_tx _ Hp)) as (d & f' & b & -> & Hsent). exists d, f', b. split; [done|].
  destruct Hsent as [d f1 b c He|Hroom].
  - pose proof (f_equal a_start (em_abs _ _ _ _ _ _ _ He)) as Hst. cbn in Hst. split; [apply He|]. split.
    { unfold get_len. by rewrite Hst, (em_end _ _ _ _ _ _ _ He). }
    destruct (em_tx _ _ _ _ _ _ _ He) as [Htx Hft1]. destruct d; cbn; rewrite Htx; [done|]. split; [|done]. split_and!; [|done|cbn; by rewrite Htx].
    exists t. split; [|done]. apply frag_inv_finish, He.
  - split; [apply Hbo|]. split; [done|]. split; [|done]. split_and!; [by exists t|done|done].
Qed.

Lemma steal_fragments_ok n c ts : (1 ≤ ts ≤ 4)%Z → ∀ f u, umac_inv u → frag_ok f →
  ∃ f' u' tx, steal_fragments n c ts f u = Some (f', u') ∧ kept u u' ∧ fragger_drop f' = Some tx ∧
    (tx = transmitted (bf_tx_reporter f) ∨ tx = discarded (bf_tx_reporter f)).
Proof.
  intros Ht. induction n as [|n IH]; intros f u Hu Hf; cbn [steal_fragments].
  - exists f, u. eexists. split; [done|]. split; [by apply kept_refl|]. split; [by apply fragger_drop_ok|]. by right.
  - destruct (chunk_stolen f Hf) as (d & f1 & b & -> & Hwb & Hlb & Hd). cbn [mbind option_bind].
    destruct (exec_kept c (OpStealing ts b None) u) as (u1 & He & Hk); try done. change (scheduler_for_mut c (dl_enqueue_stealing ts b None) u = Some u1) in He.
    rewrite He. cbn [mbind option_bind]. destruct d.
    + destruct Hd as [Hd Htx]. exists f1, u1, (transmitted (bf_tx_reporter f)). split; [done|]. split; [done|]. unfold fragger_drop. rewrite Htx, Hd.
      destruct (bf_tx_reporter f); cbn; (split; [done|]); by left.
    + destruct Hd as [Hf1 Htx]. destruct (IH f1 u1) as (f' & u' & tx & -> & Hk' & Hdrop & Hc); [apply Hk|done|].
      exists f', u', tx. split; [done|]. split; [by eapply kept_trans|]. by rewrite <-Htx.
Qed.

Lemma take_ra_ack_ok c ts issi u : umac_inv u → (1 ≤ ts ≤ 4)%Z → ∃ h u', take_ra_ack c ts issi u = Some (h, u') ∧ kept u u'.
Proof.
  intros Hu Ht. destruct (mut_ok c (OpTakeAck ts issi) u) as (s & Hx & _ & _ & _); try done. cbn [sched_exec] in Hx.
  destruct (exec_kept c (OpTakeAck ts issi) u) as (u' & He & Hk); try done.
  unfold take_ra_ack. destruct (take_pending_ra_ack ts issi (scheduler_for c u)) as [[h s']|]; [|done]. cbn [mbind option_bind].
  change (scheduler_for_mut c (λ s, snd <$> take_pending_ra_ack ts issi s) u = Some u') in He. rewrite He. cbn [mbind option_bind]. by exists h, u'.
Qed.

Lemma send_stealing_ok c ts p tx u : umac_inv u → (1 ≤ ts ≤ 4)%Z → req_ok p tx → tmar_stealing_permission p = true →
  ∃ u', send_stealing c ts p tx u = Some u' ∧ kept u u'.
Proof.
  intros Hu Ht Hr Hs. destruct Hr. unfold send_stealing.
  destruct (take_ra_ack_ok c ts (ssi (tmar_main_address p)) u Hu Ht) as (h & u1 & -> & Hk1). cbn [mbind option_bind]. pose proof (proj1 Hk1) as Hu1.
  rewrite (exec_ok _ _ _ _ (seek_home _ rq_wf0 rq_pos0)). cbn [mbind option_bind].
  assert (hdr_ok (plain_resource h (tmar_main_address p) None None) AtSsi) as Hh by (by apply plain_resource_ok).
  rewrite (hdr_ok_len _ _ Hh), plain_len by done. cbn [mbind option_bind]. unfold STCH_CAP at 1.
  destruct (Nat.leb_spec (43 + get_len (tmar_pdu p)) 124) as [Hl|Hl].
  - specialize (rq_stealing0 Hs). destruct (stch_block_ok h (tmar_main_address p) (tmar_pdu p)) as (b & -> & Hwb & Hlb & _); [done..|lia|].
    cbn [mbind option_bind]. destruct (exec_kept c (OpStealing ts b tx) u1) as (u2 & He & Hk); try done.
    change (scheduler_for_mut c (dl_enqueue_stealing ts b tx) u1 = Some u2) in He. rewrite He. exists u2. split; [done|]. by eapply kept_trans.
  - unfold fragger_new. rewrite rq_pos0. cbn [Nat.eqb check mbind option_bind]. set (f := mkFragger _ _ _ _ _).
    assert (frag_ok f) as Hf by (split; [exists AtSsi; split; [by constructor|done]|done]).
    destruct (steal_fragments_ok 32 c ts Ht f u1 Hu1 Hf) as (f' & u2 & tx' & -> & Hk2 & Hd & _). cbn [mbind option_bind]. rewrite Hd. cbn [mbind option_bind].
    eexists. split; [done|]. eapply kept_trans; [exact Hk1|]. eapply kept_trans; [exact Hk2|]. apply retire_kept, Hk2.
Qed.

Lemma first_timeslot_range l t : length l = 4 → first_timeslot l = Some t → (1 ≤ t ≤ 4)%Z.
Proof.
  intros Hl. unfold first_timeslot. destruct (list_find _ l) as [[i b]|] eqn:E; [|done]. intros [= <-].
  apply list_find_Some in E as (Hi & _). apply lookup_lt_Some in Hi. cbn. lia.
Qed.

Lemma find_stealing_range c u t : find_stealing_ts c u = Some t → (1 ≤ t ≤ 4)%Z.
Proof.
  unfold find_stealing_ts. destruct (list_find _ _) as [[i x]|] eqn:El; [|done]. intros [= <-].
  apply list_find_Some in El as (Hi & _). repeat (destruct i as [|i]; [injection Hi as <-; cbn [snd]; lia|]). done.
Qed.

Lemma stealing_target_range p tx pc u c t : req_ok p tx → stealing_target p pc u = Some (c, t) → (1 ≤ t ≤ 4)%Z.
Proof.
  intros Hr. unfold stealing_target. cbv zeta. set (o := match _ with Some ts => _ | None => _ end).
  assert (∀ x, o = Some x → (1 ≤ x ≤ 4)%Z) as Ho.
  { intros x. unfold o. destruct (tmar_chan_alloc p) as [a|] eqn:Ea; cbn [mbind option_bind]; [|apply find_stealing_range].
    destruct (first_timeslot (car_timeslots a)) as [ts|] eqn:E; [|apply find_stealing_range].
    destruct (can_deliver_stealing _ _); [|done]. intros [= <-]. eapply first_timeslot_range; [|done]. by apply (rq_timeslots _ _ Hr). }
  destruct o as [x|]; [|done]. cbn [mbind option_bind]. destruct (circuit_is_active _ _ _); [|done]. intros [= _ <-]. by apply Ho.
Qed.

Lemma chanalloc_ok a c u : length (car_timeslots a) = 4 → car_ul_dl_assigned a ≠ UdAugmented → is_u 12 c →
  ∃ o, cmce_to_mac_chanalloc a c u = Some o ∧ ∀ m, o = Some m → chan_alloc_valid m.
Proof.
  intros Hl Hd Hc. unfold cmce_to_mac_chanalloc, validate_chan_alloc.
  destruct (car_timeslots a) as [|t1 [|t2 [|t3 [|t4 [|]]]]]; try done. cbn [lookup list_lookup mbind option_bind].
  assert (∀ b : bool, ∃ o, (if negb b then Some None else let clch := (bool_decide (car_alloc_type a = Replace) || bool_decide (car_alloc_type a = Additional)) &&
      (bool_decide (car_ul_dl_assigned a = UdUl) || bool_decide (car_ul_dl_assigned a = UdBoth)) in
      Some (Some (mkChanAlloc (car_alloc_type a) t1 t2 t3 t4 (car_ul_dl_assigned a) clch false c None 0 (Some 0%Z)))) = Some o ∧
      ∀ m, o = Some m → chan_alloc_valid m) as H.
  { intros []; cbn [negb]; [|by exists None]. eexists. split; [done|]. intros m [= <-]. constructor; cbn; try done. exists 0%Z. by split. }
  destruct (bool_decide (car_alloc_type a = ReplaceWithCarrierSignalling)); [apply (H false)|]. destruct (_ =? _)%Z; [apply (H (negb t1))|apply (H true)].
Qed.

Lemma resource_alloc_ok p tx pc u : req_ok p tx → is_u 12 pc → ∃ o, resource_alloc p pc u = Some o ∧
  ∀ um ca, o = Some (um, ca) → (∀ m, um = Some m → is_u 6 m) ∧ ∀ c, ca = Some c → chan_alloc_valid c.
Proof.
  intros Hr Hpc. unfold resource_alloc. destruct (tmar_chan_alloc p) as [a|] eqn:Ea; [|eexists; split; [done|]; by intros um ca [= <- <-]].
  assert (is_u 12 (default pc (car_carrier a))) as Hc.
  { destruct (car_carrier a) eqn:E; [|done]. by eapply (rq_alloc_carrier _ _ Hr). }
  destruct (chanalloc_ok a (default pc (car_carrier a)) u) as (o & -> & Ho); [by apply (rq_timeslots _ _ Hr)|by apply (rq_assigned _ _ Hr)|done|].
  cbn [mbind option_bind]. eexists. split; [done|]. destruct o as [m|]; [|done]. intros um ca [= <- <-].
  split; [intros x Hx; by eapply (rq_usage _ _ Hr)|intros c [= <-]; by apply Ho].
Qed.

Lemma main_kept op u : umac_inv u → op_ok op → in_slot op = true → (∀ e, op ≠ OpFinalize e) →
  ∃ s, sched_exec op (um_channel_scheduler u) = Some s ∧ kept u (um_set_schedulers s (um_secondary_channel_schedulers u) u).
Proof.
  intros Hu Hop Hin Hne. destruct (un_main _ Hu) as [Hs Ht]. destruct (sched_exec_ok op _ Hs Hop) as (s & He & Hst). exists s. split; [done|].
  assert (sched_at (um_dltime u) s) as Hs' by (split; [apply Hst|rewrite <-Ht; by apply (stepped_time op)]).
  destruct Hu. split; [by constructor|done].
Qed.

Lemma send_resource_ok p pc tx u : umac_inv u → req_ok p tx → is_u 12 pc → ∃ u', send_resource p pc tx u = Some u' ∧ kept u u'.
Proof.
  intros Hu Hr Hpc. unfold send_resource. destruct (resource_alloc_ok p tx pc u Hr Hpc) as (o & -> & Ho). cbn [mbind option_bind].
  destruct o as [[um ca]|].
  - destruct (Ho um ca eq_refl) as [Hum Hca]. cbv zeta. set (f := _ && _).
    pose proof (plain_resource_ok f (tmar_main_address p) um ca (rq_addr _ _ Hr) Hum Hca) as Hres.
    unfold update_len_and_fill_ind. rewrite (hdr_ok_len _ _ Hres). cbn [mbind option_bind].
    set (r := set_len_fill _ _ _). assert (elem_ok (EResource r (tmar_pdu p) tx)) as He by (split; [exact Hres|destruct Hr; done]).
    destruct (main_kept (OpTma (tmar_link_id p) r (tmar_pdu p) tx) u) as (s & Hs & Hk); try done. cbn [sched_exec] in Hs. rewrite Hs.
    cbn [mbind option_bind]. eexists. split; [done|]. exact Hk.
  - destruct tx as [r|]; [|by exists u; split; [|apply kept_refl]]. unfold mark_discarded, mark. rewrite (rq_tx _ _ Hr r eq_refl), Z.eqb_refl.
    cbn [mbind option_bind]. eexists. split; [done|]. by apply retire_kept.
Qed.

Lemma rx_request_ok p tx u : umac_inv u → req_ok p tx → ∃ u', rx_ul_tma_unitdata_req_carrier p tx u = Some u' ∧ kept u u'.
Proof.
  intros Hu Hr. unfold rx_ul_tma_unitdata_req_carrier. cbv zeta. set (pc := default _ _).
  assert (is_u 12 pc) as Hpc.
  { unfold pc. destruct (tmar_carrier_num p) eqn:E; [by apply (rq_carrier _ _ Hr)|]. apply (ck_carrier _ (un_cfg _ Hu)). }
  destruct (tmar_stealing_permission p) eqn:Es; [|by apply send_resource_ok].
  destruct (stealing_target p pc u) as [[c t]|] eqn:E; [|by apply send_resource_ok].
  apply send_stealing_ok; try done. by eapply stealing_target_range.
Qed.

(** * Voice *)

Lemma voice_exec c t b u : umac_inv u → Forall (is_u 8) b → length b ≤ 4096 →
  ∃ u', scheduler_for_mut c (λ s, Some (dl_schedule_tmd t b s)) u = Some u' ∧ kept u u'.
Proof. intros Hu Hb Hl. by apply (exec_kept c (OpVoice t b)). Qed.

(** The bits of a byte from [i] on, those past the end of the frame as 0. *)
Definition speech_byte (bits : list Z) (i : nat) : list bool :=
  (λ j, if i * 8 + j <? TCH_S_CAP then Z.odd (bits !!! (i * 8 + j)) else false) <$> seq 0 8.

Lemma pack_byte_ok bits i : TCH_S_CAP ≤ length bits → pack_byte bits i = Some (Z_of_bits (speech_byte bits i)).
Proof.
  intros Hl. unfold pack_byte, speech_byte.
  set (g := λ j, if i * 8 + j <? TCH_S_CAP then Z.odd (bits !!! (i * 8 + j)) else false). cbn [seq foldl fmap list_fmap].
  assert (∀ (j : nat) (y : Z), (byte ← Some y; if i * 8 + j <? TCH_S_CAP
      then b ← bits !! (i * 8 + j); Some (Z.lor byte (wrap 8 (Z.shiftl (Z.land b 1) (7 - Z.of_nat j)))) else Some byte) =
    Some (if g j then Z.lor y (wrap 8 (Z.shiftl 1 (7 - Z.of_nat j))) else y)) as Hstep.
  { intros j y. cbn [mbind option_bind]. unfold g. destruct (Nat.ltb_spec (i * 8 + j) TCH_S_CAP); [|done].
    destruct (lookup_lt_is_Some_2 bits (i * 8 + j)) as [b Hb]; [lia|]. rewrite Hb, (list_lookup_total_correct _ _ _ Hb). cbn [mbind option_bind].
    change 1%Z with (Z.ones 1) at 1. rewrite Z.land_ones by lia. rewrite Zmod_odd. destruct (Z.odd b); [done|]. rewrite Z.shiftl_0_l. by rewrite Z.lor_0_r. }
  rewrite !Hstep. clearbody g. f_equal. destruct (g 0), (g 1), (g 2), (g 3), (g 4), (g 5), (g 6), (g 7); reflexivity.
Qed.

Lemma speech_byte_u8 bits i : is_u 8 (Z_of_bits (speech_byte bits i)).
Proof. exact (Z_of_bits_is_u (speech_byte bits i)). Qed.

(** Packed speech: as it is if it was packed before, else 35 bytes of the 274 bits. *)
Lemma pack_ok bits : Forall (is_u 8) bits → ∃ o, pack_ul_acelp_bits bits = Some o ∧ ∀ p, o = Some p →
  Forall (is_u 8) p ∧ length p = 35 ∧ (p = bits ∨ TCH_S_CAP ≤ length bits ∧ p = (λ i, Z_of_bits (speech_byte bits i)) <$> seq 0 35).
Proof.
  intros Hb. unfold pack_ul_acelp_bits. change ((TCH_S_CAP + 7) / 8) with 35. destruct (Nat.eqb_spec (length bits) 35) as [He|He].
  { eexists. split; [done|]. intros p [= <-]. auto. }
  destruct (Nat.ltb_spec (length bits) TCH_S_CAP) as [Hl|Hl]; [by exists None|].
  assert (mapM (pack_byte bits) (seq 0 35) = Some ((λ i, Z_of_bits (speech_byte bits i)) <$> seq 0 35)) as ->.
  { apply mapM_Some_2. apply Forall2_fmap_r, Forall_Forall2_diag, Forall_true. intros i. by apply pack_byte_ok. }
  eexists. split; [done|]. intros p Hp. assert (p = (λ i, Z_of_bits (speech_byte bits i)) <$> seq 0 35) as -> by congruence.
  rewrite length_fmap, length_seq. split_and!; [|done|by right].
  apply Forall_fmap, Forall_true. intros i. apply speech_byte_u8.
Qed.

Lemma rx_voice_req_ok c t data u : umac_inv u → Forall (is_u 8) data → length data ≤ 4096 →
  ∃ u', rx_tmd_circuit_data_req c t data u = Some u' ∧ kept u u'.
Proof.
  intros Hu Hd Hl. unfold rx_tmd_circuit_data_req. destruct (circuit_is_active _ _ _); [by apply voice_exec|]. exists u. split; [done|by apply kept_refl].
Qed.

Lemma rx_voice_ind_ok p u : umac_inv u → Forall (is_u 8) (td_data p) →
  ∃ u' out, rx_tmd_circuit_data_ind p u = Some (u', out) ∧ kept u u' ∧ Forall msg_ok out.
Proof.
  intros Hu Hd. unfold rx_tmd_circuit_data_ind. cbv zeta.
  set (u0 := if ts_1_4 (td_ts p) then _ else _). assert (kept u u0) as Hk0 by (unfold u0; destruct (ts_1_4 _); [by apply voice_kept|by apply kept_refl]).
  set (out := (if um_telemetry u0 then _ else _) ++ _). assert (Forall msg_ok out) as Hout.
  { unfold out. repeat (apply Forall_app; split); [destruct (um_telemetry u0)|destruct (uc_brew _ && _)|destruct (uc_asterisk_enabled _ && _)]; by repeat constructor. }
  destruct (default _ _) as [tc tts]. clearbody out.
  assert (∃ u' out', Some (u0, out) = Some (u', out') ∧ kept u u' ∧ Forall msg_ok out') as Hstop by (by exists u0, out).
  assert (∃ u' out', (if circuit_is_active Dl tts (scheduler_for tc u0) then
      packed ← pack_ul_acelp_bits (td_data p);
      match packed with
      | Some packed => u ← scheduler_for_mut tc (λ s, Some (dl_schedule_tmd tts packed s)) u0; Some (u, out)
      | None => Some (u0, out)
      end else Some (u0, out)) = Some (u', out') ∧ kept u u' ∧ Forall msg_ok out') as Hgo.
  { destruct (circuit_is_active _ _ _); [|done]. destruct (pack_ok _ Hd) as (o & -> & Ho). cbn [mbind option_bind]. destruct o as [b|]; [|done].
    destruct (Ho b eq_refl) as (Hb & Hl & _). destruct (voice_exec tc tts b u0) as (u1 & -> & Hk1); [apply Hk0|done|lia|]. cbn [mbind option_bind].
    exists u1, out. split; [done|]. split; [by eapply kept_trans|done]. }
  destruct (dl_media_source _ _) as [[]|]; done.
Qed.

(** * Call control *)

Lemma set_closes_inv m u : umac_inv u → (∀ k p, m !! k = Some p → (2 ≤ k.2 ≤ 4)%Z) → umac_inv (um_set_closes m u).
Proof. intros [] ?. by constructor. Qed.

Lemma cancel_inv c t d u : umac_inv u → umac_inv (cancel_pending_circuit_close c t d u) ∧ um_dltime (cancel_pending_circuit_close c t d u) = um_dltime u.
Proof.
  intros Hu. unfold cancel_pending_circuit_close. destruct (_ !! (c, t)) as [p|] eqn:E; [|done]. pose proof (un_closes _ Hu) as Hc.
  pose proof (Hc _ _ E) as Hk. assert (∀ p', umac_inv (um_set_closes (if negb (pcc_dl p') && negb (pcc_ul p') then delete (c, t) (um_pending_circuit_closes u)
    else <[(c, t) := p']> (um_pending_circuit_closes u)) u)) as H.
  { intros p'. apply set_closes_inv; [done|]. intros k x. destruct (_ && _).
    - intros [_ Hx]%lookup_delete_Some. by eapply Hc.
    - intros [[<- _]|[_ Hx]]%lookup_insert_Some; [done|by eapply Hc]. }
  destruct d; (split; [first [exact Hu|exact (H (mkPendingClose false (pcc_ul p)))|exact (H (mkPendingClose (pcc_dl p) false))]|done]).
Qed.

Lemma fold_ok {A} (f : UmacBs → A → option UmacBs) (P : UmacBs → UmacBs → Prop) l : (∀ u, umac_inv u → P u u) →
  (∀ u1 u2 u3, P u1 u2 → P u2 u3 → P u1 u3) → (∀ u1 u2, P u1 u2 → umac_inv u2) →
  (∀ u x, umac_inv u → x ∈ l → ∃ u', f u x = Some u' ∧ P u u') → ∀ u, umac_inv u →
  ∃ u', foldl (λ u x, u ← u; f u x) (Some u) l = Some u' ∧ P u u'.
Proof.
  intros Hr Ht Hi. induction l as [|x l IH]; intros Hf u Hu; cbn [foldl]; [by exists u; auto|].
  destruct (Hf u x Hu ltac:(by left)) as (u1 & Hx & H1). cbn [mbind option_bind]. rewrite Hx.
  destruct (IH (λ u x Hu Hx, Hf u x Hu (list_elem_of_further _ _ _ Hx)) u1) as (u2 & -> & H2); [by eapply Hi|]. exists u2. split; [done|by eapply Ht].
Qed.

Definition timed (u u' : UmacBs) : Prop := umac_inv u' ∧ um_dltime u' = um_dltime u.

Lemma kept_timed u u' : kept u u' → timed u u'.
Proof. intros (? & ? & _). by split. Qed.

Lemma timed_trans u1 u2 u3 : timed u1 u2 → timed u2 u3 → timed u1 u3.
Proof. intros [? ?] [? ?]. split; [done|congruence]. Qed.

Lemma close_now_ok d c t u : umac_inv u → ∃ u', close_circuit_now d c t u = Some u' ∧ kept u u'.
Proof.
  intros Hu. unfold close_circuit_now. destruct (single_directions d) as [dirs|]; [|exists u; split; [done|by apply kept_refl]].
  apply (fold_ok (close_direction c t) kept); [apply kept_refl|apply kept_trans|by intros ? ? []| |done].
  clear u Hu. intros u x Hu _. unfold close_direction. cbv zeta. destruct (exec_kept c (OpClose x t) u) as (u1 & He & Hk); try done.
  change (scheduler_for_mut c (λ s, Some (snd (bs_close_circuit x t s))) u = Some u1) in He. rewrite He. cbn [mbind option_bind].
  eexists. split; [done|]. destruct (_ && _ && _); [|done]. eapply kept_trans; [exact Hk|]. apply voice_kept, Hk.
Qed.

Lemma circuit_open_ok x u : umac_inv u → (4 ≤ c_usage x < 64)%Z → ∃ u', rx_control_circuit_open x u = Some u' ∧ timed u u'.
Proof.
  intros Hu Hx. unfold rx_control_circuit_open. destruct (single_directions _) as [dirs|]; [|by exists u].
  apply (fold_ok (open_direction x) timed); [by split|apply timed_trans|by intros ? ? []| |done].
  clear u Hu. intros u d Hu _. unfold open_direction. cbv zeta.
  destruct (cancel_inv (c_carrier_num x) (c_ts x) d u Hu) as [Hu1 Hd1]. set (u1 := cancel_pending_circuit_close _ _ _ _) in *.
  assert (∃ u2, (if circuit_is_active d (c_ts x) (scheduler_for (c_carrier_num x) u1)
    then scheduler_for_mut (c_carrier_num x) (λ s, Some (snd (bs_close_circuit d (c_ts x) s))) u1 else Some u1) = Some u2 ∧ kept u1 u2) as (u2 & -> & Hk2).
  { destruct (circuit_is_active _ _ _); [|exists u1; split; [done|by apply kept_refl]]. by apply (exec_kept (c_carrier_num x) (OpClose d (c_ts x)) u1). }
  cbn [mbind option_bind]. set (c := mkCircuit _ _ _ _ _ _ _ _ _ _).
  destruct (exec_kept (c_carrier_num x) (OpCreate d c) u2) as (u3 & He & Hk3); try done; [apply Hk2|].
  exists u3. split; [exact He|]. split; [apply Hk3|]. destruct Hk2 as (_ & H2 & _), Hk3 as (_ & H3 & _). congruence.
Qed.

Lemma circuit_close_ok d c t u : umac_inv u → ∃ u', rx_control_circuit_close d c t u = Some u' ∧ timed u u'.
Proof.
  intros Hu. unfold rx_control_circuit_close. destruct (Z.leb_spec 2 t), (Z.leb_spec t 4); cbn [andb];
    try (destruct (close_now_ok d c t u Hu) as (u' & -> & Hk); exists u'; split; [done|by apply kept_timed]).
  cbv zeta. eexists. split; [done|]. split; [|done]. apply set_closes_inv; [done|].
  intros k p [[<- _]|[_ Hp]]%lookup_insert_Some; [cbn; lia|by eapply (un_closes _ Hu)].
Qed.

Definition control_ok (c : CallControl) : Prop := match c with CcOpen x => (4 ≤ c_usage x < 64)%Z | _ => True end.

Lemma floor_kept c t u : umac_inv u → kept u (clear_floor c t u).
Proof. intros Hu. unfold clear_floor. eapply kept_trans; [by apply voice_kept|]. by apply owner_kept, voice_kept. Qed.

Lemma rx_control_ok p u : umac_inv u → control_ok p → ∃ u', rx_control p u = Some u' ∧ timed u u'.
Proof.
  intros Hu Hp. assert (∀ c t a (g : UmacBs → UmacBs), (∀ u, umac_inv u → kept u (g u)) →
    ∃ u', (u ← scheduler_for_mut c (set_hangtime t a) u; Some (g u)) = Some u' ∧ timed u u') as Hhang.
  { intros c t a g Hg. destruct (exec_kept c (OpHangtime t a) u) as (u1 & He & Hk); try done.
    change (scheduler_for_mut c (set_hangtime t a) u = Some u1) in He. rewrite He. cbn [mbind option_bind]. eexists. split; [done|].
    eapply kept_timed, kept_trans; [exact Hk|]. apply Hg, Hk. }
  destruct p; cbn [rx_control control_ok] in *; try (by exists u); try (apply Hhang; intros; by apply floor_kept).
  - by apply circuit_open_ok.
  - by apply circuit_close_ok.
  - by apply circuit_close_ok.
  - apply (Hhang _ _ _ (λ u, um_set_owner (<[(carrier_num, ts) := source_issi]> (um_ul_signal_owner u))
      (um_set_voice (<[(carrier_num, ts) := um_dltime u]> (um_last_ul_voice u)) u))). intros v Hv.
    eapply kept_trans; [by apply voice_kept|]. by apply (owner_kept _ (um_set_voice _ v)), voice_kept.
Qed.

(** * Deferred closes *)

Section tick.
Context (iter_keys : gmap slot_key PendingCircuitClose → list slot_key).
Context (iter_keys_perm : ∀ m, iter_keys m ≡ₚ (map_to_list m).*1).

Lemma has_stealing_total t s : (1 ≤ t)%Z → ∃ b, has_pending_stealing t s = Some b.
Proof. intros Ht. unfold has_pending_stealing. destruct (Z.leb_spec 1 t); [|lia]. cbn [check mbind option_bind]. by eexists. Qed.

(** One deferred close: done, its entry removed, or left for later. *)
Lemma process_close_ok u k p : umac_inv u → um_pending_circuit_closes u !! k = Some p → ∃ u', process_pending_close u k = Some u' ∧ timed u u' ∧
  (um_pending_circuit_closes u' = um_pending_circuit_closes u ∨ um_pending_circuit_closes u' = delete k (um_pending_circuit_closes u)).
Proof.
  intros Hu Hk. unfold process_pending_close. rewrite Hk. cbn [mbind option_bind]. destruct k as [c t].
  destruct (_ && _); [exists u; split; [done|]; split; [by apply kept_timed, kept_refl|by left]|]. pose proof (un_closes _ Hu _ _ Hk) as Ht. cbn in Ht.
  destruct (has_stealing_total t (scheduler_for c u)) as [b ->]; [lia|]. cbn [mbind option_bind].
  destruct b; [exists u; split; [done|]; split; [by apply kept_timed, kept_refl|by left]|]. set (u1 := um_set_closes _ u).
  assert (umac_inv u1) as Hu1 by (apply set_closes_inv; [done|]; intros x y [_ Hx]%lookup_delete_Some; by eapply (un_closes _ Hu)).
  assert (∀ (b : bool) d v, umac_inv v → ∃ v', (if b then close_circuit_now d c t v else Some v) = Some v' ∧ kept v v') as Hclose.
  { intros [] d v Hv; [by apply close_now_ok|]. exists v. split; [done|by apply kept_refl]. }
  destruct (Hclose (pcc_dl p) Dl u1 Hu1) as (u2 & -> & Hk2). cbn [mbind option_bind].
  destruct (Hclose (pcc_ul p) Ul u2 (proj1 Hk2)) as (u3 & -> & Hk3). exists u3. split; [done|].
  destruct (kept_trans _ _ _ Hk2 Hk3) as (Hi & Hd & Hc). split; [by split|]. right. by rewrite Hc.
Qed.

Lemma process_closes_ok u : umac_inv u → ∃ u', process_pending_circuit_closes iter_keys u = Some u' ∧ timed u u'.
Proof.
  intros Hu. unfold process_pending_circuit_closes.
  assert (NoDup (iter_keys (um_pending_circuit_closes u)) ∧ ∀ k, k ∈ iter_keys (um_pending_circuit_closes u) → is_Some (um_pending_circuit_closes u !! k)) as [Hnd Hin].
  { split; [rewrite iter_keys_perm; apply NoDup_fst_map_to_list|]. intros k. rewrite iter_keys_perm. intros ([k' p] & -> & Hp)%list_elem_of_fmap.
    apply elem_of_map_to_list in Hp. by exists p. }
  revert Hnd Hin. generalize (iter_keys (um_pending_circuit_closes u)). intros l. revert u Hu. induction l as [|k l IH]; intros u Hu Hnd Hin; cbn [foldl]; [exists u; split; [done|by apply kept_timed, kept_refl]|].
  apply NoDup_cons in Hnd as [Hk Hnd]. destruct (Hin k ltac:(by left)) as [p Hp]. cbn [mbind option_bind].
  destruct (process_close_ok u k p Hu Hp) as (u1 & -> & [Hu1 Hd1] & Hc). destruct (IH u1 Hu1 Hnd) as (u2 & -> & Hk2).
  - intros k' Hk'. assert (k' ≠ k) by congruence. destruct Hc as [->| ->]; [|rewrite lookup_delete_ne by done]; apply Hin; by right.
  - exists u2. split; [done|]. by eapply timed_trans.
Qed.

(** * Uplink inactivity *)

Lemma check_slot_ok limit k u : umac_inv u → (1 ≤ k.2 ≤ 4)%Z → ∃ u' out, check_ul_slot limit k u = Some (u', out) ∧ kept u u' ∧ Forall msg_ok out.
Proof.
  intros Hu Hk. destruct k as [c t]. cbn in Hk. unfold check_ul_slot. cbv zeta.
  assert (∃ u' out, Some (u, []) = Some (u', out) ∧ kept u u' ∧ Forall msg_ok out) as Hstop by (exists u, []; split; [done|]; split; [by apply kept_refl|done]).
  destruct (negb _); [done|]. destruct (default _ _); [done|].
  destruct (scheduler_for_at c u Hu) as [Hs _]. assert (∃ h, is_hangtime t (scheduler_for c u) = Some h) as [h ->].
  { unfold is_hangtime, ts_1_4. destruct (negb _); [by eexists|]. destruct (at_ts_ok t _ Hk (iv_hangtime _ Hs)) as (x & -> & _). by eexists. }
  cbn [mbind option_bind]. destruct h; [done|]. assert (∃ b, ul_timed_out limit (c, t) u = Some b) as [b ->].
  { unfold ul_timed_out. destruct (_ !! _) as [x|]; [|by eexists]. unfold age. destruct (diff_total (um_dltime u) x) as [d ->]. cbn [mbind option_bind]. by eexists. }
  cbn [mbind option_bind]. destruct b; [|done]. eexists _, _. split; [done|]. split; [by apply voice_kept|]. by constructor.
Qed.

Lemma check_slots_ok limit l : Forall (λ k : slot_key, 1 ≤ k.2 ≤ 4)%Z l → ∀ u, umac_inv u →
  ∃ u' out, check_ul_slots limit l u = Some (u', out) ∧ kept u u' ∧ Forall msg_ok out.
Proof.
  induction 1 as [|k l Hk Hl IH]; intros u Hu; cbn [check_ul_slots]; [exists u, []; split; [done|]; split; [by apply kept_refl|done]|].
  destruct (check_slot_ok limit k u Hu Hk) as (u1 & o1 & -> & Hk1 & Ho1). cbn [mbind option_bind].
  destruct (IH u1 (proj1 Hk1)) as (u2 & o2 & -> & Hk2 & Ho2). cbn [mbind option_bind]. eexists _, _. split; [done|].
  split; [by eapply kept_trans|by apply Forall_app].
Qed.

Lemma inactivity_ok u : umac_inv u → ∃ u' out, check_ul_inactivity u = Some (u', out) ∧ kept u u' ∧ Forall msg_ok out.
Proof.
  intros Hu. unfold check_ul_inactivity. pose proof (un_secs _ Hu) as Hs. set (n := cc_ul_inactivity_secs _) in *.
  assert (i32 n = n) as -> by (unfold i32; rewrite Z.mod_small by lia; lia).
  assert (∀ v, (0 ≤ v ≤ 10000)%Z → as_i32 v = Some v) as Hi32.
  { intros v Hv. unfold as_i32. destruct (Z.leb_spec (- 2 ^ 31) v), (Z.ltb_spec v (2 ^ 31)); try lia. done. }
  rewrite (Hi32 (n * 18)%Z) by lia. cbn [mbind option_bind]. rewrite (Hi32 (n * 18 * 4)%Z) by lia. cbn [mbind option_bind].
  apply check_slots_ok; [|done]. apply Forall_bind, Forall_true. intros c. repeat constructor; cbn; lia.
Qed.

(** * The tick *)

Lemma finalize_emit emit x s : sched_at x s → ∃ sl s', finalize_ts_for_tick_inner emit s = Some (sl, s') ∧ sched_at x s' ∧ complete sl ∧
  sl_ts sl = add_timeslots x 1 ∧ sl_carrier_num sl = bs_carrier_num s.
Proof.
  intros [Hs <-]. destruct (finalize_ok emit s Hs) as (sl & s' & -> & Hk & _). exists sl, s'. split; [done|].
  destruct (tk_time _ _ _ Hk) as [Hts Hd]. split; [split; [apply Hk|done]|]. split; [apply Hk|]. split; [done|apply Hk].
Qed.

Lemma finalize_main x s : sched_at x s → ∃ sl s', finalize_ts_for_tick s = Some (sl, s') ∧ sched_at x s' ∧ complete sl ∧ sl_ts sl = add_timeslots x 1.
Proof. intros Hs. destruct (finalize_emit true x s Hs) as (sl & s' & He & H1 & H2 & H3 & _). exists sl, s'. by split_and!. Qed.

Lemma finalize_secondary_ok x l : Forall (sched_at x) l → ∃ sls l', finalize_secondary l = Some (sls, l') ∧ Forall (sched_at x) l' ∧
  Forall complete sls ∧ Forall (λ sl, sl_ts sl = add_timeslots x 1) sls ∧ sl_carrier_num <$> sls = bs_carrier_num <$> l.
Proof.
  induction 1 as [|s l Hs Hl IH]; cbn [finalize_secondary]; [by exists [], []|]. unfold finalize_secondary_ts_for_tick.
  destruct (finalize_emit (emit_bcch (bs_downlink_mode s)) x s Hs) as (sl & s' & -> & H1 & H2 & H3 & H4). cbn [mbind option_bind].
  destruct IH as (sls & l' & -> & H5 & H6 & H7 & H8). cbn [mbind option_bind]. exists (sl :: sls), (s' :: l').
  split; [done|]. split; [by constructor|]. split; [by constructor|]. split; [by constructor|]. cbn. by rewrite H4, H8.
Qed.

Lemma set_schedulers_inv m l u : umac_inv u → sched_at (um_dltime u) m → Forall (sched_at (um_dltime u)) l → umac_inv (um_set_schedulers m l u).
Proof. intros [] ? ?. by constructor. Qed.

(** Steps of a computation whose parts are large: no reduction, only equations. *)
Lemma step_pair {A B C} (x : option (A * B)) a b (f : A → B → option C) y : x = Some (a, b) → f a b = y → ('(p, q) ← x; f p q) = y.
Proof. by intros -> <-. Qed.
Lemma step_one {A C} (x : option A) a (f : A → option C) y : x = Some a → f a = y → (p ← x; f p) = y.
Proof. by intros -> <-. Qed.

(** What a tick does once the schedulers have the new time. *)
Lemma tick_rest_ok u : umac_inv u → ∃ u' out slots,
  ('(u, out) ← check_ul_inactivity u;
   '(slot, main) ← finalize_ts_for_tick (um_channel_scheduler u);
   '(slots, secondary) ← finalize_secondary (um_secondary_channel_schedulers u);
   let u := um_set_schedulers main secondary u in
   u ← process_pending_circuit_closes iter_keys u;
   Some (u, out ++ [ToLmacSlots (slot :: slots)])) = Some (u', out ++ [ToLmacSlots slots]) ∧
  timed u u' ∧ Forall msg_ok (out ++ [ToLmacSlots slots]) ∧ Forall (λ sl, sl_ts sl = add_timeslots (um_dltime u) 1) slots.
Proof.
  intros Hu. destruct (inactivity_ok u Hu) as (u1 & out & H1 & (Hu1 & Hd1 & _) & Hout).
  destruct (finalize_main _ _ (un_main _ Hu1)) as (sl & m & H2 & Hm & Hsl & Hts).
  destruct (finalize_secondary_ok _ _ (un_secondary _ Hu1)) as (sls & l & H3 & Hl & Hsls & Htss & _).
  destruct (process_closes_ok (um_set_schedulers m l u1)) as (u2 & H4 & [Hu2 Hd2]); [by apply set_schedulers_inv|].
  exists u2, out, (sl :: sls). split.
  { eapply step_pair; [exact H1|]. eapply step_pair; [exact H2|]. eapply step_pair; [exact H3|]. eapply step_one; [exact H4|]. reflexivity. }
  rewrite Hd1 in Hts, Htss. split; [split; [done|by rewrite Hd2]|]. split; [|by constructor].
  apply Forall_app. split; [done|]. constructor; [|done]. by constructor.
Qed.

Lemma services_time e s : cur_dltime (set_system_wide_services_state e s) = cur_dltime s.
Proof. unfold set_system_wide_services_state. cbv zeta. by destruct (bool_decide _). Qed.

Lemma services_at x e s : sched_at x s → sched_at x (set_system_wide_services_state e s).
Proof. intros [Hs Ht]. split; [by apply services_inv|by rewrite services_time]. Qed.

Lemma tick_time x s s' : sched_tick_start x s = Some s' → cur_dltime s' = x.
Proof.
  unfold sched_tick_start, ul_tick_start. cbv zeta. destruct (bool_decide_reflect (x = add_timeslots (ul_cur_dltime (bs_ul s)) 1)) as [->|]; [|done].
  by intros [= <-].
Qed.

Lemma tick_scheduler_ok x s : sched_at x s → ∃ s', sched_tick_start (add_timeslots x 1) s = Some s' ∧ sched_at (add_timeslots x 1) s'.
Proof.
  intros [Hs Ht]. destruct (sched_exec_ok OpTick s Hs I) as (s' & He & Hst). cbn [sched_exec] in He. rewrite Ht in He. exists s'. split; [exact He|].
  split; [apply Hst|]. by apply tick_time in He.
Qed.

Lemma mapM_ok {A B} (f : A → option B) (P : A → Prop) (Q : B → Prop) l : Forall P l → (∀ x, P x → ∃ y, f x = Some y ∧ Q y) →
  ∃ k, mapM f l = Some k ∧ Forall Q k.
Proof.
  intros Hl Hf. induction Hl as [|x l Hx Hl IH]; [by exists []|]. destruct (Hf x Hx) as (y & Hy & HQ). destruct IH as (k & Hk & Hk').
  exists (y :: k). split; [cbn; rewrite Hy; cbn; by rewrite Hk|by constructor].
Qed.

(** Everything but the schedulers' time. *)
Record shell_ok (P : BsChannelScheduler → Prop) (u : UmacBs) : Prop := {
  so_main : P (um_channel_scheduler u);
  so_secondary : Forall P (um_secondary_channel_schedulers u);
  so_frags : defrag_ok (um_defrag u);
  so_cfg : cfg_ok (um_config u);
  so_secs : (1 ≤ cc_ul_inactivity_secs (uc_cell (um_config u)) ≤ 30)%Z;
  so_closes k p : um_pending_circuit_closes u !! k = Some p → (2 ≤ k.2 ≤ 4)%Z
}.

Lemma refresh_ok P u : (∀ e s, P s → P (set_system_wide_services_state e s)) → shell_ok P u → shell_ok P (refresh_system_wide_services u) ∧
  um_dltime (refresh_system_wide_services u) = um_dltime u.
Proof.
  intros HP Hu. unfold refresh_system_wide_services. cbv zeta. destruct (Bool.eqb _ _); [done|]. split; [|done]. destruct Hu. constructor; cbn; try done; [by apply HP|].
  apply Forall_fmap. eapply Forall_impl; [done|]. intros s Hs. by apply HP.
Qed.

Lemma tick_ok x P u : shell_ok P u → valid_time x → (∀ e s, P s → P (set_system_wide_services_state e s)) →
  (let first s := negb (bool_decide (cur_dltime s = x)) && bool_decide (cur_dltime s = mkTime 0 0 0 0) in
   ∀ s, P s → ∀ s', P s' → ∃ s1, (if first s then set_dl_time x else sched_tick_start x) s' = Some s1 ∧ sched_at x s1) →
  ∃ u' out slots, umac_tick_start iter_keys x u = Some (u', out ++ [ToLmacSlots slots]) ∧ umac_inv u' ∧ um_dltime u' = x ∧
    Forall msg_ok (out ++ [ToLmacSlots slots]) ∧ Forall (λ sl, sl_ts sl = add_timeslots x 1) slots.
Proof.
  intros Hu Hx HP Hadv. unfold umac_tick_start. cbv zeta.
  assert (shell_ok P (um_set_dltime x u)) as Hu0 by (destruct Hu; by constructor).
  destruct (refresh_ok P _ HP Hu0) as [Hu1 Hd1]. set (u1 := refresh_system_wide_services _) in *. cbn in Hd1.
  set (u2 := um_set_defrag _ u1). unfold advance_schedulers. cbv zeta in *.
  set (f := if negb _ && _ then set_dl_time x else sched_tick_start x).
  assert (∀ s, P s → ∃ s1, f s = Some s1 ∧ sched_at x s1) as Hf by (intros s Hs; exact (Hadv _ (so_main _ _ Hu1) s Hs)).
  destruct (Hf (um_channel_scheduler u2) (so_main _ _ Hu1)) as (m & H1 & Hm).
  destruct (mapM_ok f P (sched_at x) (um_secondary_channel_schedulers u2) (so_secondary _ _ Hu1) Hf) as (l & H2 & Hl).
  set (u3 := um_set_schedulers m l u2). assert (um_dltime u3 = x) as Hd3 by exact Hd1.
  assert (umac_inv u3) as Hu3.
  { destruct Hu1. constructor; rewrite ?Hd3; try done. by apply defrag_age. }
  destruct (tick_rest_ok u3 Hu3) as (u4 & out & slots & H3 & [Hu4 Hd4] & Hout & Hts). exists u4, out, slots. rewrite Hd3 in Hts, Hd4. split; [|by split_and!].
  eapply step_one; [|exact H3]. eapply step_one; [exact H1|]. eapply step_one; [exact H2|]. reflexivity.
Qed.

(** The tick of the slot that follows. *)
Lemma next_tick_ok u : umac_inv u → ∃ u' out slots, umac_tick_start iter_keys (add_timeslots (um_dltime u) 1) u = Some (u', out ++ [ToLmacSlots slots]) ∧
  umac_inv u' ∧ um_dltime u' = add_timeslots (um_dltime u) 1 ∧ Forall msg_ok (out ++ [ToLmacSlots slots]) ∧
  Forall (λ sl, sl_ts sl = add_timeslots (um_dltime u) 2) slots.
Proof.
  intros Hu. destruct (tick_ok (add_timeslots (um_dltime u) 1) (sched_at (um_dltime u)) u) as (u' & out & slots & He & Hi & Hd & Ho & Hs).
  - by destruct Hu.
  - apply add_valid.
  - intros. by apply services_at.
  - cbv zeta. intros s [_ Hs] s' Hs'. rewrite Hs, (bool_decide_false (um_dltime u = mkTime 0 0 0 0)), andb_false_r; [by apply tick_scheduler_ok|].
    intros E. pose proof (un_time _ Hu) as Hv. rewrite E in Hv. by destruct Hv.
  - exists u', out, slots. split_and!; try done. eapply Forall_impl; [exact Hs|]. cbn. intros sl ->. by rewrite add_add by (done || apply Hu).
Qed.
End tick.

(** * Speech through the base station *)

Lemma speech_bits bits : TCH_S_CAP ≤ length bits →
  take TCH_S_CAP (buf_bits ((λ i, Z_of_bits (speech_byte bits i)) <$> seq 0 35)) = Z.odd <$> take TCH_S_CAP bits.
Proof.
  intros Hl. set (h := λ i, if i <? TCH_S_CAP then Z.odd (bits !!! i) else false).
  assert (buf_bits ((λ i, Z_of_bits (speech_byte bits i)) <$> seq 0 35) = h <$> seq 0 280) as ->.
  { trans (seq 0 35 ≫= λ i, (λ j, h (i * 8 + j)) <$> seq 0 8); [|clearbody h; reflexivity].
    generalize (seq 0 35). intros l. induction l as [|i l IH]; [done|]. rewrite bind_cons, <-IH. cbn [fmap list_fmap buf_bits]. f_equal.
    exact (bits_of_Z_of_bits (speech_byte bits i)). }
  apply list_eq. intros i. rewrite list_lookup_fmap. destruct (decide (i < TCH_S_CAP)) as [Hi|Hi].
  - rewrite !lookup_take_lt by done. rewrite list_lookup_fmap, lookup_seq_lt by (unfold TCH_S_CAP in *; lia). cbn [fmap option_fmap option_map Nat.add].
    unfold h. rewrite (proj2 (Nat.ltb_lt _ _) Hi). destruct (lookup_lt_is_Some_2 bits i) as [x Hx]; [lia|]. by rewrite Hx, (list_lookup_total_correct _ _ _ Hx).
  - by rewrite !lookup_take_ge by lia.
Qed.

Lemma voice_block_bits bytes : Forall (is_u 8) bytes → length bytes = 35 → ∃ b, voice_block (Some bytes) = Some b ∧ wf b ∧ window b = take TCH_S_CAP (buf_bits bytes).
Proof.
  intros Hb Hl. destruct (voice_buf_ok bytes Hb) as (b & He & Hwf & Hlen & Hs); [lia|unfold TCH_S_CAP; lia|]. exists b. unfold voice_block.
  rewrite (proj2 (Nat.leb_le _ _)) by (unfold TCH_S_CAP; lia). cbv zeta. rewrite He. split; [done|]. split; [done|].
  assert (b = set_end TCH_S_CAP (from_vec bytes)) as ->; [|done].
  rewrite exec_raw_end in He by (cbn; unfold TCH_S_CAP; lia). by injection He as <-.
Qed.

Lemma take_put cn t b c : is_active Dl cn t c = true → default [] (cm_tx_data c !! (cn, t)) = [] → fst (take_block cn t (put_block cn t b c)) = Some b.
Proof.
  intros Ha Hq. unfold put_block. rewrite Ha, Hq. cbn [negb app length Nat.sub]. change (1 - MAX_QUEUED_DL_BLOCKS =? 0) with true. cbv iota zeta.
  unfold take_block. change (is_active Dl cn t (mkMgr (cm_dl c) (cm_ul c) _ (cm_tx_data_drops c))) with (is_active Dl cn t c). rewrite Ha. cbn [negb cm_tx_data].
  by rewrite lookup_insert_eq.
Qed.

(** The scheduler that was put back is found again. *)
Lemma scheduler_for_put c s u : bs_carrier_num s = bs_carrier_num (scheduler_for c u) → scheduler_for c (put_scheduler c s u) = s.
Proof.
  unfold put_scheduler, scheduler_for. destruct (scheduler_index c u) as [i|] eqn:E.
  - destruct (scheduler_index_lt c u i E) as (s0 & Hs0 & Hc0). rewrite Hs0. change (default _ (Some s0)) with s0. intros Hs.
    unfold scheduler_index in *. change (main_carrier (um_set_schedulers _ _ u)) with (main_carrier u). destruct (_ =? main_carrier u)%Z; [done|].
    cbn [um_set_schedulers um_secondary_channel_schedulers]. destruct (list_find _ _) as [[j y]|] eqn:El; [|done]. injection E as <-.
    apply list_find_Some in El as (Hj & Hy & Hmin). assert (list_find (λ sched, bs_carrier_num sched = c) (<[j := s]> (um_secondary_channel_schedulers u)) = Some (j, s)) as ->.
    { apply list_find_Some. split; [apply list_lookup_insert_eq; by eapply lookup_lt_Some|]. split; [congruence|]. intros k z Hz Hk.
      rewrite list_lookup_insert_ne in Hz by lia. by eapply Hmin. }
    cbn [fmap option_fmap option_map fst]. rewrite list_lookup_insert_eq by (by eapply lookup_lt_Some). done.
  - intros _. unfold scheduler_index in *. change (main_carrier (um_set_schedulers _ _ u)) with (main_carrier u).
    change (um_secondary_channel_schedulers (um_set_schedulers s _ u)) with (um_secondary_channel_schedulers u). by rewrite E.
Qed.

Lemma speech_relayed_ok p u tc tts : TCH_S_CAP ≤ length (td_data p) → Forall (is_u 8) (td_data p) →
  default (td_carrier_num p, td_ts p) (duplex_peer_route (td_ts p) (scheduler_for (td_carrier_num p) u)) = (tc, tts) →
  let s := scheduler_for tc u in
  dl_media_source tts s ≠ Some SwMI → circuit_is_active Dl tts s = true → default [] (cm_tx_data (bs_circuits s) !! (bs_carrier_num s, tts)) = [] →
  ∃ u' out bytes tch, rx_tmd_circuit_data_ind p u = Some (u', out) ∧
    fst (take_block (bs_carrier_num (scheduler_for tc u')) tts (bs_circuits (scheduler_for tc u'))) = Some bytes ∧
    voice_block (Some bytes) = Some tch ∧ wf tch ∧ window tch = Z.odd <$> take TCH_S_CAP (td_data p).
Proof.
  intros Hl Hb Hroute s Hm Ha Hq. unfold rx_tmd_circuit_data_ind. cbv zeta.
  set (u0 := if ts_1_4 (td_ts p) then _ else _). assert (∀ c, scheduler_for c u0 = scheduler_for c u) as Hsame by (intros c; unfold u0; by destruct (ts_1_4 _)).
  rewrite !Hsame, Hroute. cbv beta iota. rewrite !Hsame. fold s. set (out := (if um_telemetry u0 then _ else _) ++ _). rewrite Ha.
  destruct (pack_ok _ Hb) as (o & Ho & Hp). assert (∃ bytes, o = Some bytes) as [bytes ->].
  { unfold pack_ul_acelp_bits in Ho. change ((TCH_S_CAP + 7) / 8) with 35 in Ho. destruct (_ =? 35); [injection Ho as <-; by eexists|].
    destruct (Nat.ltb_spec (length (td_data p)) TCH_S_CAP); [lia|]. destruct (mapM _ _); [|done]. injection Ho as <-. by eexists. }
  destruct (Hp bytes eq_refl) as (H8 & H35 & Hc). destruct Hc as [->|[_ Hc]]; [unfold TCH_S_CAP in *; lia|].
  destruct (voice_block_bits bytes H8 H35) as (tch & Hv & Hwt & Hw). rewrite Hc, speech_bits in Hw by done.
  set (s' := dl_schedule_tmd tts bytes s). pose proof (mut_eq tc (λ s, Some (dl_schedule_tmd tts bytes s)) u0 s') as Hmut.
  cbv beta in Hmut. rewrite Hsame in Hmut. specialize (Hmut eq_refl).
  exists (put_scheduler tc s' u0), out, bytes, tch. split.
  - rewrite Ho. cbn [mbind option_bind]. rewrite Hmut. cbn [mbind option_bind]. destruct (dl_media_source tts s) as [[]|]; done.
  - rewrite scheduler_for_put by (by rewrite Hsame). split; [|done]. by apply take_put.
Qed.

(** Received speech keeps only its own slot from timing out, not that of the peer
    of a duplex call. *)
Lemma speech_timer p u u' out : rx_tmd_circuit_data_ind p u = Some (u', out) →
  um_last_ul_voice u' = if ts_1_4 (td_ts p) then <[(td_carrier_num p, td_ts p) := um_dltime u]> (um_last_ul_voice u) else um_last_ul_voice u.
Proof.
  assert (∀ c f v v', scheduler_for_mut c f v = Some v' → um_last_ul_voice v' = um_last_ul_voice v) as Hmut.
  { intros c f v v'. unfold scheduler_for_mut. destruct (f _); [|done]. cbn [mbind option_bind]. destruct (scheduler_index c v); by intros [= <-]. }
  unfold rx_tmd_circuit_data_ind. cbv zeta. set (u0 := if ts_1_4 (td_ts p) then _ else _). set (out0 := (if um_telemetry u0 then _ else _) ++ _). intros H.
  assert (um_last_ul_voice u' = um_last_ul_voice u0) as ->; [|unfold u0; by destruct (ts_1_4 _)].
  destruct (default _ _) as [tc tts]. assert (Some (u0, out0) = Some (u', out) ∨ ∃ b, (u ← scheduler_for_mut tc (λ s, Some (dl_schedule_tmd tts b s)) u0; Some (u, out0)) = Some (u', out)) as [E|[b E]].
  { destruct (dl_media_source _ _) as [[]|]; [|by left|]; (destruct (circuit_is_active Dl tts _); [|by left]);
      (destruct (pack_ul_acelp_bits _) as [[b|]|]; [|by left|done]); right; by exists b. }
  - by injection E as <- _.
  - destruct (scheduler_for_mut _ _ _) as [v|] eqn:Em; [|done]. cbn [mbind option_bind] in E. injection E as <- _. by eapply Hmut.
Qed.
