(* ===== verification/UmacBsThms.v ===== *)
(** The upper MAC entity in use: any sequence of primitives and ticks.

    [umac_start] is the entity after its first tick; [umac_run] feeds it what the
    stack may: primitives, ticks of one timeslot, and changes of the network's
    state.  [ev_ok] says what each sender guarantees. *)
From S2P Require Import Prelude Bits Core BitBuffer BitBufferSpec BitCodec BitBufferThms FieldCodec PduCodec.
From S2P Require Import Arrays TdmaTime Freqs TxReceipt Fillbits MacDl MacDlSpec BsFragSpec.
From S2P Require Import Scrambler ErrorControlSpec DefragSpec UmacCircuitMgr MacBcast MacBcastSpec BsSchedUlSpec MacUl MacUlSpec.
From S2P Require Import BsSched BsSchedSpec BsSchedSlot BsSchedRun UmacCell LmacBsSpec Saps UmacBs UmacBsSpec UmacBsRx UmacBsTx.

#[local] Opaque add_timeslots forward_to_timeslot slot_index.

(** * Runs *)

Inductive umac_ev : Type :=
| EvPrim (p : UmacPrim)
| EvTick
| EvNetwork (connected : bool).

Definition prim_ok (p : UmacPrim) : Prop :=
  match p with
  | UpTmvUnitdataInd p => tmv_ind_ok p
  | UpTmaUnitdataReq p tx => req_ok p tx
  | UpTmdCircuitDataReq _ _ data => Forall (is_u 8) data ∧ length data ≤ 4096
  | UpTmdCircuitDataInd p => Forall (is_u 8) (td_data p)
  | UpCallControl c => control_ok c
  | UpOther => True
  end.

Definition ev_ok (e : umac_ev) : Prop := match e with EvPrim p => prim_ok p | _ => True end.

Definition um_set_network (connected : bool) (u : UmacBs) : UmacBs :=
  let c := um_config u in
  mkUmacBs (mkUmacConfig (uc_net c) (uc_cell c) (uc_brew c) connected (uc_asterisk_enabled c)) (um_dltime u) (um_system_wide_services u)
    (um_defrag u) (um_channel_scheduler u) (um_secondary_channel_schedulers u) (um_last_ul_voice u) (um_ul_signal_owner u)
    (um_pending_circuit_closes u) (um_telemetry u) (um_retired u).

Section run.
Context (iter : gmap Z DefragBuffer → list (Z * DefragBuffer)).
Context (iter_keys : gmap slot_key PendingCircuitClose → list slot_key).

Definition umac_exec (e : umac_ev) (u : UmacBs) : option (UmacBs * list UmacMsg) :=
  match e with
  | EvPrim p => umac_rx_prim iter p u
  | EvTick => umac_tick_start iter_keys (add_timeslots (um_dltime u) 1) u
  | EvNetwork connected => Some (um_set_network connected u, [])
  end.

Fixpoint umac_run (evs : list umac_ev) (u : UmacBs) : option (UmacBs * list UmacMsg) :=
  match evs with
  | [] => Some (u, [])
  | e :: evs => '(u, out) ← umac_exec e u; '(u, out') ← umac_run evs u; Some (u, out ++ out')
  end.

(** The entity and its first tick. *)
Definition umac_start (cfg : UmacConfig) (telemetry : bool) (x : TdmaTime) : option (UmacBs * list UmacMsg) :=
  u ← umac_new cfg telemetry; umac_tick_start iter_keys x u.

Context (iter_perm : ∀ m, iter m ≡ₚ map_to_list m).
Context (iter_keys_perm : ∀ m, iter_keys m ≡ₚ (map_to_list m).*1).

Lemma umac_prim_ok p u : umac_inv u → prim_ok p → ∃ u' out, umac_rx_prim iter p u = Some (u', out) ∧ timed u u' ∧ Forall msg_ok out.
Proof.
  intros Hu Hp. assert (∀ r, (∃ u', r = Some u' ∧ timed u u') → ∃ u' out, (u ← r; Some (u, [])) = Some (u', out) ∧ timed u u' ∧ Forall msg_ok out) as Hquiet.
  { intros r (u' & -> & Ht). exists u', []. split; [done|]. by split. }
  destruct p; cbn [umac_rx_prim prim_ok] in *.
  - destruct (rx_tmv_ok iter iter_perm p u Hu Hp) as (u' & out & He & Hi & Hd & Ho). exists u', out. by split_and!.
  - apply Hquiet. destruct (rx_request_ok p tx_reporter u Hu Hp) as (u' & He & Hk). exists u'. split; [done|by apply kept_timed].
  - apply Hquiet. destruct Hp. destruct (rx_voice_req_ok carrier_num ts data u) as (u' & He & Hk); [done..|]. exists u'. split; [done|by apply kept_timed].
  - destruct (rx_voice_ind_ok p u Hu Hp) as (u' & out & He & Hk & Ho). exists u', out. split; [done|]. split; [by apply kept_timed|done].
  - apply Hquiet. by apply rx_control_ok.
  - exists u, []. split; [done|]. split; [by apply kept_timed, kept_refl|done].
Qed.

Lemma network_inv b u : umac_inv u → umac_inv (um_set_network b u).
Proof. intros [H1 H2 H3 H4 H5 H6 H7]. constructor; try done. by destruct H5. Qed.

(** What a sequence of messages says of the batches in it: each is for the slot after the one before. *)
Lemma exec_ok_step e u : umac_inv u → ev_ok e → ∃ u' out, umac_exec e u = Some (u', out) ∧ umac_inv u' ∧ Forall msg_ok out ∧
  um_dltime u' = match e with EvTick => add_timeslots (um_dltime u) 1 | _ => um_dltime u end.
Proof.
  intros Hu He. destruct e as [p| |b]; cbn [umac_exec ev_ok] in *.
  - destruct (umac_prim_ok p u Hu He) as (u' & out & -> & [Hi Hd] & Ho). exists u', out. by split_and!.
  - destruct (next_tick_ok iter_keys iter_keys_perm u Hu) as (u' & out & slots & He' & Hi & Hd & Ho & _). eexists u', _. by split_and!.
  - eexists _, []. split; [done|]. split; [by apply network_inv|done].
Qed.

Lemma run_ok evs : Forall ev_ok evs → ∀ u, umac_inv u → ∃ u' out, umac_run evs u = Some (u', out) ∧ umac_inv u' ∧ Forall msg_ok out.
Proof.
  induction 1 as [|e evs He Hevs IH]; intros u Hu; cbn [umac_run]; [by exists u, []|].
  destruct (exec_ok_step e u Hu He) as (u1 & o1 & H1 & Hu1 & Ho1 & _). destruct (IH u1 Hu1) as (u2 & o2 & H2 & Hu2 & Ho2).
  exists u2, (o1 ++ o2). split; [|split; [done|by apply Forall_app]]. eapply step_pair; [exact H1|]. eapply step_pair; [exact H2|]. reflexivity.
Qed.

(** A scheduler as [new] makes it, but for the services it announces. *)
Definition fresh_sched (s : BsChannelScheduler) : Prop :=
  ∃ code p n m, precomps_ok p ∧ s = set_downlink_mode m (set_carrier_num n (sched_new code p)).

Lemma fresh_services e s : fresh_sched s → fresh_sched (set_system_wide_services_state e s).
Proof.
  intros (code & p & n & m & Hp & ->). unfold set_system_wide_services_state. cbv zeta. destruct (bool_decide _); [by exists code, p, n, m|].
  eexists code, _, n, m. split; [|reflexivity]. destruct Hp as [H1 H2 H3 H4 H5]. by constructor.
Qed.

Lemma fresh_first x s : valid_time x → fresh_sched s → cur_dltime s = mkTime 0 0 0 0 ∧ ∃ s', set_dl_time x s = Some s' ∧ sched_at x s'.
Proof.
  intros Hx (code & p & n & m & Hp & ->). split; [done|]. destruct (fresh_start code p n m x Hp Hx) as (s' & He & Hi & _). exists s'. split; [done|].
  split; [done|]. unfold set_dl_time, purge_schedule in He. cbv zeta in He. by injection He as <-.
Qed.

Lemma start_ok cfg tele x : cfg_ok cfg → (1 ≤ cc_ul_inactivity_secs (uc_cell cfg) ≤ 30)%Z → valid_time x →
  ∃ u out, umac_start cfg tele x = Some (u, out) ∧ umac_inv u ∧ um_dltime u = x ∧ Forall msg_ok out.
Proof.
  intros Hc Hs Hx. destruct (generate_precomps_ok cfg Hc) as (p & Hp & Hok). unfold umac_start, umac_new, init_schedulers. rewrite Hp. cbn [mbind option_bind].
  set (u0 := mkUmacBs _ _ _ _ _ _ _ _ _ _ _).
  assert (shell_ok fresh_sched u0) as Hu0.
  { constructor; try done.
    - eexists _, p, (si_main_carrier (pc_mac_sysinfo1 p)), PrimaryMcch. by split.
    - cbn. destruct (cc_secondary_carrier _); [|done]. apply Forall_singleton. eexists _, p, _, _. by split.
    - split; [exists (λ _ _, []); apply inv_new|]. intros ts m k b Hm Hk. unfold ts_map in Hm. cbn in Hm.
      repeat (destruct ts as [|ts]; [injection Hm as <-; done|]). done. }
  destruct (tick_ok iter_keys iter_keys_perm x fresh_sched u0 Hu0 Hx) as (u & out & slots & He & Hi & Hd & Ho & _).
  - intros. by apply fresh_services.
  - cbv zeta. intros s Hf s' Hf'. destruct (fresh_first x s Hx Hf) as [-> _]. assert (mkTime 0 0 0 0 ≠ x) as Hne by (intros <-; by destruct Hx).
    rewrite (bool_decide_false (mkTime 0 0 0 0 = x)), (bool_decide_true (mkTime 0 0 0 0 = mkTime 0 0 0 0)) by done. cbn [negb andb]. by apply fresh_first.
  - eexists u, _. by split_and!.
Qed.
End run.

(** C8: The base station's upper MAC in use.  Take any configuration that fits its
    broadcast fields, with 1 to 30 seconds until an uplink counts as inactive, and
    any first time.  Feed the entity after that, in any order and any number:
    - received blocks, each of whose headers names an ISSI, if anybody, and a
      length that covers the header;
    - requests of the LLC: a buffer at its start for a 24-bit identity, with a
      receipt still pending if any, 12-bit carriers, a channel allocation of four
      timeslots, not augmented, with a 6-bit usage marker, and not 78 to 81 bits with
      stealing permission ([stolen_message_panics]);
    - voice from the network, at most 4096 bytes, and from the lower MAC, any bytes;
    - call control, circuits opened with a usage marker of 4 to 63;
    - changes of the network's state, and ticks.
    It never panics, every loop ends, and its state stays well formed: all
    schedulers at the entity's time with their invariant, reassembly buffers
    whole, deferred closes only for the timeslots 2 to 4. *)
Theorem umac_run_safe iter iter_keys cfg tele x evs : (∀ m, iter m ≡ₚ map_to_list m) → (∀ m, iter_keys m ≡ₚ (map_to_list m).*1) →
  cfg_ok cfg → (1 ≤ cc_ul_inactivity_secs (uc_cell cfg) ≤ 30)%Z → valid_time x → Forall ev_ok evs →
  ∃ u0 out0 u out, umac_start iter_keys cfg tele x = Some (u0, out0) ∧ umac_run iter iter_keys evs u0 = Some (u, out) ∧ umac_inv u.
Proof.
  intros Hi Hk Hc Hs Hx He. destruct (start_ok iter_keys Hk cfg tele x Hc Hs Hx) as (u0 & out0 & H0 & Hu0 & _).
  destruct (run_ok iter iter_keys Hi Hk evs He u0 Hu0) as (u & out & H1 & Hu & _). by exists u0, out0, u, out.
Qed.

(** What the receiver of a message gets. *)
Definition well_received (m : UmacMsg) : Prop :=
  match m with
  | ToLlc p => ∃ sdu, tmai_pdu p = Some sdu ∧ wf sdu ∧ get_pos sdu = 0 ∧ (1 ≤ tmai_link_id p ≤ 4)%Z
  | ToLmacSlots slots => Forall (λ sl, ∃ p, encode_slot sl = Some (Some p) ∧ full_burst p ∧ ts_carrier_num p = sl_carrier_num sl) slots
  | ToLmacConfigure p => tcr_blk2_stolen p = Some true ∧ ∃ c t, tcr_carrier_num p = Some c ∧ tcr_time p = Some t ∧ valid_time t
  | ToMmRssi issi rssi => is_u 24 issi ∧ is_finite rssi = true
  | ToCmceUlInactivity _ ts => (1 ≤ ts ≤ 4)%Z
  | ToBrewVoice _ | ToAsteriskVoice _ | ToTelemetryVoice _ _ _ => True
  end.

Lemma msg_ok_received m : msg_ok m → well_received m.
Proof. destruct m; cbn; try done. intros Hs. eapply Forall_impl; [exact Hs|]. intros sl. apply encode_slot_ok. Qed.

(** C9: What the upper MAC hands on is well formed.  In any run as above, the LLC
    gets buffers at their start on a link that is one of the four timeslots, every
    slot sent to the lower MAC can be channel coded into a complete burst of its
    carrier, a stolen second half is announced with carrier and time, signal
    strengths are finite numbers of a 24-bit identity, and inactivity reports name
    a timeslot. *)
Theorem umac_messages_typed iter iter_keys cfg tele x evs u0 out0 u out : (∀ m, iter m ≡ₚ map_to_list m) → (∀ m, iter_keys m ≡ₚ (map_to_list m).*1) →
  cfg_ok cfg → (1 ≤ cc_ul_inactivity_secs (uc_cell cfg) ≤ 30)%Z → valid_time x → Forall ev_ok evs →
  umac_start iter_keys cfg tele x = Some (u0, out0) → umac_run iter iter_keys evs u0 = Some (u, out) → Forall well_received (out0 ++ out).
Proof.
  intros Hi Hk Hc Hs Hx He H0 H1. destruct (start_ok iter_keys Hk cfg tele x Hc Hs Hx) as (u0' & out0' & H0' & Hu0 & _ & Ho0).
  rewrite H0 in H0'. injection H0' as <- <-. destruct (run_ok iter iter_keys Hi Hk evs He u0 Hu0) as (u' & out' & H1' & _ & Ho).
  rewrite H1 in H1'. injection H1' as <- <-. apply Forall_app. split; (eapply Forall_impl; [eassumption|]; apply msg_ok_received).
Qed.

(** C10: Dissociation of an uplink block.  If a block of at most 268 bits, received in
    a full slot or a stolen half slot, is made of MAC-DATA PDUs, each with the header
    of an ISSI, its length, a non-empty SDU and the fill bits up to the next byte, and
    after them less than 16 bits or a null PDU, then the LLC gets exactly these SDUs,
    bit for bit and in order, each with its ISSI and the timeslot of the block, and
    nothing else changes. *)
Theorem uplink_block_dissociated iter prim u msgs rest :
  (ti_logical_channel prim = SchF ∧ ti_block_num prim = PbBoth ∨
   ti_logical_channel prim = Stch ∧ (ti_block_num prim = PbBlock1 ∨ ti_block_num prim = PbBlock2)) →
  holds (ti_pdu prim) ((msgs ≫= data_pdu) ++ rest) → length ((msgs ≫= data_pdu) ++ rest) ≤ 268 → msgs ≠ [] → ends_block rest →
  Forall (λ m : Z * list bool, is_u 24 m.1 ∧ m.2 ≠ []) msgs →
  ∃ out, rx_tmv_unitdata_ind iter prim u = Some (u, out) ∧ Forall2 (delivers prim u) msgs out.
Proof.
  intros Hch Hh Hlen Hne Hend Hms. destruct (holds_len _ _ Hh) as (Hgl & _ & Hrem & _).
  assert (Forall (λ m : Z * list bool, is_u 24 m.1 ∧ m.2 ≠ [] ∧ data_len m.2 < 448) msgs) as Hms'.
  { rewrite length_app in Hlen. assert (length (msgs ≫= data_pdu) ≤ 268) as Hm by lia. clear -Hms Hm. induction Hms as [|[i s] l [H1 H2] Hl IH]; [constructor|].
    rewrite bind_cons, length_app, data_pdu_len in Hm. constructor; [cbn in *; split_and!; [done..|lia]|apply IH; lia]. }
  assert (∃ out, rx_tmv_sch iter prim u = Some (u, out) ∧ Forall2 (delivers prim u) msgs out) as Hrun.
  { assert (get_pos (ti_pdu prim) = 0) as Hp0; [|unfold rx_tmv_sch; apply (rx_block iter prim u msgs rest); try done; try tauto; try lia; apply Hh].
    destruct Hh as [_ Habs]. pose proof (f_equal a_pos Habs) as E1. pose proof (f_equal a_start Habs) as E2. unfold get_pos. cbn in E1, E2. lia. }
  unfold rx_tmv_unitdata_ind. destruct Hch as [[-> Hb]|[-> [->| ->]]]; [by rewrite bool_decide_true|done..].
Qed.

(** C11: Speech through the cell.  A speech frame of 274 bits that a terminal sends on
    the uplink of a circuit comes out on the downlink unchanged: the slot of the
    circuit it is routed to (the peer of a duplex call, else the same slot), if open
    and not fed by the network and with nothing queued, transmits in its next
    traffic block exactly the bits received. *)
Theorem speech_relayed p u tc tts : TCH_S_CAP ≤ length (td_data p) → Forall (is_u 8) (td_data p) →
  default (td_carrier_num p, td_ts p) (duplex_peer_route (td_ts p) (scheduler_for (td_carrier_num p) u)) = (tc, tts) →
  let s := scheduler_for tc u in
  dl_media_source tts s ≠ Some SwMI → circuit_is_active Dl tts s = true → default [] (cm_tx_data (bs_circuits s) !! (bs_carrier_num s, tts)) = [] →
  ∃ u' out bytes tch, rx_tmd_circuit_data_ind p u = Some (u', out) ∧
    fst (take_block (bs_carrier_num (scheduler_for tc u')) tts (bs_circuits (scheduler_for tc u'))) = Some bytes ∧
    voice_block (Some bytes) = Some tch ∧ wf tch ∧ window tch = Z.odd <$> take TCH_S_CAP (td_data p).
Proof. exact (speech_relayed_ok p u tc tts). Qed.

(** * Examples *)

Fixpoint pack_bits (n : nat) (bs : list bool) : list Z :=
  match n with O => [] | S n => Z_of_bits (take 8 (bs ++ replicate 8 false)) :: pack_bits n (drop 8 bs) end.
Definition block_of (bs : list bool) : BitBuffer := mkBitBuffer (pack_bits (div_ceil (length bs) 8) bs) 0 0 (length bs) false.

Lemma block_of_wf bs : length bs ≤ 4096 → wf (block_of bs).
Proof.
  assert (∀ n bs, Forall (is_u 8) (pack_bits n bs) ∧ length (pack_bits n bs) = n) as Hp.
  { intros n. induction n as [|n IH]; intros l; cbn [pack_bits length]; [done|]. destruct (IH (drop 8 l)) as [H1 H2]. split; [|by rewrite H2].
    constructor; [|done]. apply (Z_of_bits_is_u_len _ 8). rewrite length_take, length_app, length_replicate. lia. }
  intros Hl. destruct (Hp (div_ceil (length bs) 8) bs) as [H1 H2]. constructor; cbn [block_of bb_buffer bb_start bb_pos bb_end]; try done; try lia.
  - rewrite H2. unfold div_ceil. pose proof (Nat.div_mod_eq (length bs) 8). pose proof (Nat.mod_upper_bound (length bs) 8 ltac:(lia)).
    destruct (Nat.eqb_spec (length bs mod 8) 0); lia.
  - unfold usize_max. lia.
Qed.

Definition keys_of (m : gmap slot_key PendingCircuitClose) : list slot_key := (map_to_list m).*1.
Definition start_time : TdmaTime := mkTime 2 16 60 65535.

(** Two messages and a null PDU; a random access of the same terminal. *)
Definition test_msgs : list (Z * list bool) := [(77%Z, replicate 30 true); (78%Z, [false; true; false; false])].
Definition test_rest : list bool := data_header_bits 1 false 0 ++ replicate 100 false.
Definition test_ind : TmvUnitdataInd := mkTmvInd 1001 (block_of ((test_msgs ≫= data_pdu) ++ test_rest)) PbBoth SchF true 7 0.
Definition access_bits : list bool := fields_bits (mac_access_fields (mkMacAccess false false (Some (mkAddr 77 Issi)) None None (Some false) (Some Req2Slots))).
Definition test_access : TmvUnitdataInd := mkTmvInd 1001 (block_of (access_bits ++ replicate (92 - length access_bits) true)) PbBlock1 SchHu true 7 0.
Definition test_circuit : Circuit := mkCircuit Both 2 1001 None None 5 TchS None false LocalLoopback.
Definition test_speech : TmdCircuitDataInd := mkTmdInd 1001 2 ((λ i, Z.of_nat (i mod 3 mod 2)) <$> seq 0 274).
Definition test_request : TmaUnitdataReq := mkTmaReq None 0 (new 200) (mkAddr 77 Issi) 1 0 true 0 None None None None None.
Definition test_evs : list umac_ev :=
  [EvPrim (UpTmvUnitdataInd test_ind); EvPrim (UpTmvUnitdataInd test_access); EvPrim (UpCallControl (CcOpen test_circuit)); EvTick;
   EvPrim (UpTmdCircuitDataInd test_speech); EvPrim (UpTmaUnitdataReq test_request (Some (mkReporter false (tx_raw Pending))));
   EvPrim (UpCallControl (CcClose Both 2)); EvNetwork false; EvTick].

Lemma test_ind_ok : tmv_ind_ok test_ind ∧ tmv_ind_ok test_access.
Proof.
  split; (split; [apply block_of_wf; apply Nat.leb_le; vm_compute; reflexivity|]); (split; [reflexivity|vm_compute; reflexivity]).
Qed.

Lemma test_request_ok : req_ok test_request (Some (mkReporter false (tx_raw Pending))).
Proof.
  constructor; cbn; try done.
  - apply wf_new, fits_small. lia.
  - split; [unfold plain_ssi; cbn; tauto|unfold is_u; cbn; lia].
  - by intros r [= <-].
  - intros _. unfold get_len. cbn. lia.
Qed.

Lemma test_speech_ok : Forall (is_u 8) (td_data test_speech).
Proof. apply Forall_fmap, Forall_true. intros i. cbn. unfold is_u. pose proof (Nat.mod_upper_bound (i mod 3) 2). lia. Qed.

Lemma test_evs_ok : Forall ev_ok test_evs.
Proof.
  destruct test_ind_ok as [H1 H2]. unfold test_evs. repeat (apply (List.Forall_cons ev_ok)); try done; [apply test_speech_ok|apply test_request_ok].
Qed.

Lemma test_secs : (1 ≤ cc_ul_inactivity_secs (uc_cell test_cfg) ≤ 30)%Z.
Proof. cbn. lia. Qed.

Lemma start_time_ok : valid_time start_time.
Proof. apply valid_time_ranges. cbn. lia. Qed.

Lemma umac_run_safe_witness : ∃ u0 out0 u out, umac_start keys_of test_cfg true start_time = Some (u0, out0) ∧
  umac_run map_to_list keys_of test_evs u0 = Some (u, out) ∧ umac_inv u.
Proof.
  apply (umac_run_safe map_to_list keys_of test_cfg true start_time test_evs);
    [reflexivity|reflexivity|exact test_cfg_ok|exact test_secs|exact start_time_ok|exact test_evs_ok].
Defined.

Lemma umac_messages_typed_witness : ∃ u0 out0 u out, umac_start keys_of test_cfg true start_time = Some (u0, out0) ∧
  umac_run map_to_list keys_of test_evs u0 = Some (u, out) ∧ Forall well_received (out0 ++ out).
Proof.
  destruct (start_ok keys_of ltac:(reflexivity) test_cfg true start_time test_cfg_ok test_secs start_time_ok) as (u0 & out0 & H0 & Hu0 & _).
  destruct (run_ok map_to_list keys_of ltac:(reflexivity) ltac:(reflexivity) test_evs test_evs_ok u0 Hu0) as (u & out & H1 & _).
  exists u0, out0, u, out. split; [exact H0|]. split; [exact H1|].
  apply (umac_messages_typed map_to_list keys_of test_cfg true start_time test_evs u0 out0 u out);
    [reflexivity|reflexivity|exact test_cfg_ok|exact test_secs|exact start_time_ok|exact test_evs_ok|exact H0|exact H1].
Defined.

Lemma block_of_holds bs : length bs ≤ 4096 → remaining (block_of bs) = bs → holds (block_of bs) bs.
Proof. intros Hl Hr. split; [by apply block_of_wf|]. unfold abs. f_equal. exact Hr. Qed.

Lemma uplink_block_dissociated_witness : ∃ u out, umac_new test_cfg true = Some u ∧ rx_tmv_unitdata_ind map_to_list test_ind u = Some (u, out) ∧
  Forall2 (delivers test_ind u) test_msgs out.
Proof.
  destruct (generate_precomps_ok test_cfg test_cfg_ok) as (p & Hp & _). unfold umac_new, init_schedulers. rewrite Hp. cbn [mbind option_bind].
  set (u := mkUmacBs _ _ _ _ _ _ _ _ _ _ _). exists u. enough (∃ out, rx_tmv_unitdata_ind map_to_list test_ind u = Some (u, out) ∧
    Forall2 (delivers test_ind u) test_msgs out) as (out & H1 & H2); [exists out; split; [reflexivity|split; [exact H1|exact H2]]|].
  apply (uplink_block_dissociated map_to_list test_ind u test_msgs test_rest).
  - left. split; reflexivity.
  - apply block_of_holds; [apply Nat.leb_le; vm_compute; reflexivity|vm_compute; reflexivity].
  - apply Nat.leb_le. vm_compute. reflexivity.
  - discriminate.
  - right. exists 1%Z, false, (replicate 100 false). split; [unfold is_u; lia|reflexivity].
  - repeat constructor; cbn; (unfold is_u; lia) || discriminate.
Defined.

Lemma speech_relayed_witness : ∃ u u' out bytes tch, (umac_new test_cfg true ≫= rx_control (CcOpen test_circuit)) = Some u ∧
  rx_tmd_circuit_data_ind test_speech u = Some (u', out) ∧
  fst (take_block (bs_carrier_num (scheduler_for 1001 u')) 2 (bs_circuits (scheduler_for 1001 u'))) = Some bytes ∧
  voice_block (Some bytes) = Some tch ∧ wf tch ∧ window tch = Z.odd <$> take TCH_S_CAP (td_data test_speech).
Proof.
  eassert (∃ u, (umac_new test_cfg true ≫= rx_control (CcOpen test_circuit)) = Some u ∧ duplex_peer_route 2 (scheduler_for 1001 u) = None ∧
    dl_media_source 2 (scheduler_for 1001 u) = Some LocalLoopback ∧ circuit_is_active Dl 2 (scheduler_for 1001 u) = true ∧
    default [] (cm_tx_data (bs_circuits (scheduler_for 1001 u)) !! (bs_carrier_num (scheduler_for 1001 u), 2%Z)) = []) as (u & Hu & H1 & H2 & H3 & H4)
    by (eexists; split; [vm_compute; reflexivity|]; vm_compute; repeat split).
  exists u. destruct (speech_relayed test_speech u 1001 2) as (u' & out & bytes & tch & Ha & Hb & Hc & Hd & He);
    [apply Nat.leb_le; vm_compute; reflexivity|exact test_speech_ok|cbn [test_speech td_carrier_num td_ts]; rewrite H1; reflexivity|
     rewrite H2; discriminate|exact H3|exact H4|].
  exists u', out, bytes, tch. exact (conj Hu (conj Ha (conj Hb (conj Hc (conj Hd He))))).
Defined.

(** * What the entity does not survive *)

(** A length indication that ends the PDU inside its header panics the base
    station: one to four bytes in a MAC-ACCESS, two to four in a MAC-DATA, one in a
    MAC-END; a terminal needs no registration to send it. *)
Definition short_access (l : Z) : TmvUnitdataInd :=
  mkTmvInd 1001 (block_of (fields_bits (mac_access_fields (mkMacAccess false false (Some (mkAddr 77 Issi)) None (Some l) None None)) ++ replicate 56 true))
    PbBlock1 SchHu true 7 0.
Definition short_data (l : Z) : TmvUnitdataInd :=
  mkTmvInd 1001 (block_of (data_header_bits 77 false l ++ replicate 231 true)) PbBoth SchF true 7 0.
Definition short_end : TmvUnitdataInd :=
  mkTmvInd 1001 (block_of (fields_bits (end_ul_fields (mkMacEndUl false (Some 1%Z) None)) ++ replicate 258 true)) PbBoth SchF true 7 0.

Lemma short_length_panics : (umac_new test_cfg true ≫= λ u, Some (existsb is_some
  ([rx_tmv_unitdata_ind map_to_list short_end u] ++ ((λ l, rx_tmv_unitdata_ind map_to_list (short_data l) u) <$> [2; 3; 4]%Z) ++
   ((λ l, rx_tmv_unitdata_ind map_to_list (short_access l) u) <$> [1; 2; 3; 4]%Z)))) = Some false.
Proof. vm_compute. reflexivity. Qed.

(** A terminal that names itself by a USSI and asks for two slots panics the base
    station when the grant is put into a slot. *)
Definition ussi_data : TmvUnitdataInd :=
  mkTmvInd 1001 (block_of (fields_bits (mac_data_fields (mkMacData false false (Some (mkAddr 77 Ussi)) None None (Some false) (Some Req2Slots))) ++ replicate 231 true))
    PbBoth SchF true 7 0.

Lemma ussi_grant_panics :
  ('(u, _) ← umac_start keys_of test_cfg true start_time; '(u, _) ← rx_tmv_unitdata_ind map_to_list ussi_data u;
   Some (is_some (umac_run map_to_list keys_of (replicate 4 EvTick) u))) = Some false.
Proof. vm_compute. reflexivity. Qed.

(** A message of 78 to 81 bits cannot be stolen: it passes the check for the size of
    a half slot, and its fill bits run over the end. *)
Lemma stolen_message_panics : existsb is_some
  ((λ n, stch_block_of (plain_resource false (mkAddr 77 Issi) None None) (new n)) <$> [78; 79; 80; 81]) = false.
Proof. vm_compute. reflexivity. Qed.
