(* ===== verification/CmceCircuitMgr.v ===== *)
(** The CMCE's circuit manager
    ([tetra-entities/src/cmce/components/circuit_mgr.rs]): the open circuits with
    their call identifiers and usage numbers, the periodic D-SETUP commands and
    the expiry of forgotten circuits.

    Operations run in [M CcMgr CircuitErr]; those that also take the shared
    timeslot allocator run on the pair of both.  The vectors [dl] and [ul_only]
    are lists in their order; the map of queued blocks is a [gmap].  The names
    that the UMAC's manager also uses carry the prefix [cc_]. *)
From S2P Require Import Prelude Bits Arrays TdmaTime TimeslotAlloc UmacCircuitMgr.

(** * Data *)

Definition D_SETUP_REPEATS : Z := 1.
Definition LATE_ENTRY_INTERVAL_TIMESLOTS : Z := multiframes 5.
Definition CIRCUIT_EXPIRY_TIMESLOTS : Z := 6 * 60 * 18 * 4.

Definition includes_ul (d : Direction) : bool := match d with Ul | Both => true | _ => false end.
Definition includes_dl (d : Direction) : bool := match d with Dl | Both => true | _ => false end.

Inductive CommunicationType : Type := P2p | P2Mp | P2MpAcked | Broadcast.

Record CmceCircuit : Type := mkCmceCircuit {
  ts_created : TdmaTime;
  direction : Direction;
  cts : Z;
  ccarrier_num : Z;
  call_id : Z;
  usage : Z;
  circuit_mode : CircuitModeType;
  comm_type : CommunicationType;
  simplex_duplex : bool;
  speech_service : option Z;
  etee_encrypted : bool
}.

Inductive CircuitErr : Type := NoCircuitFree | CircuitAlreadyInUse | CircuitNotActive.

Inductive CircuitMgrCmd : Type :=
| SendDSetup (call_id usage carrier_num ts : Z)
| SendClose (call_id : Z) (c : CmceCircuit).

Record CcMgr : Type := mkCc {
  cc_dltime : TdmaTime;
  cc_dl : list CmceCircuit;
  cc_ul_only : list CmceCircuit;
  cc_tx_data : gmap key (list block);
  next_call_identifier : Z;
  next_usage_number : Z
}.

Definition set_dltime (t : TdmaTime) (s : CcMgr) : CcMgr :=
  mkCc t (cc_dl s) (cc_ul_only s) (cc_tx_data s) (next_call_identifier s) (next_usage_number s).
Definition set_dl (l : list CmceCircuit) (s : CcMgr) : CcMgr :=
  mkCc (cc_dltime s) l (cc_ul_only s) (cc_tx_data s) (next_call_identifier s) (next_usage_number s).
Definition set_ul_only (l : list CmceCircuit) (s : CcMgr) : CcMgr :=
  mkCc (cc_dltime s) (cc_dl s) l (cc_tx_data s) (next_call_identifier s) (next_usage_number s).
Definition set_tx_data (m : gmap key (list block)) (s : CcMgr) : CcMgr :=
  mkCc (cc_dltime s) (cc_dl s) (cc_ul_only s) m (next_call_identifier s) (next_usage_number s).
Definition set_numbers (id u : Z) (s : CcMgr) : CcMgr :=
  mkCc (cc_dltime s) (cc_dl s) (cc_ul_only s) (cc_tx_data s) id u.

Abbreviation C := (M CcMgr CircuitErr).

Definition cc_new : CcMgr := mkCc tdma_default [] [] ∅ 4 4.

(** * Queries *)

(** The carrier and timeslot of a circuit, the key of every lookup. *)
Definition slot_key (c : CmceCircuit) : key := (ccarrier_num c, cts c).

Definition find_slot (k : key) (l : list CmceCircuit) : option CmceCircuit :=
  snd <$> list_find (λ c, slot_key c = k) l.
Definition find_dl (carrier_num ts : Z) (s : CcMgr) : option CmceCircuit := find_slot (carrier_num, ts) (cc_dl s).
Definition find_ul_only (carrier_num ts : Z) (s : CcMgr) : option CmceCircuit :=
  find_slot (carrier_num, ts) (cc_ul_only s).

(** [position] and [Vec::remove]. *)
Fixpoint take_slot (k : key) (l : list CmceCircuit) : option (CmceCircuit * list CmceCircuit) :=
  match l with
  | [] => None
  | c :: l => if decide (slot_key c = k) then Some (c, l)
              else match take_slot k l with Some (x, l') => Some (x, c :: l') | None => None end
  end.
Definition remove_dl (carrier_num ts : Z) (s : CcMgr) : option CmceCircuit * CcMgr :=
  match take_slot (carrier_num, ts) (cc_dl s) with
  | Some (c, l) => (Some c, set_dl l s) | None => (None, s)
  end.
Definition remove_ul_only (carrier_num ts : Z) (s : CcMgr) : option CmceCircuit * CcMgr :=
  match take_slot (carrier_num, ts) (cc_ul_only s) with
  | Some (c, l) => (Some c, set_ul_only l s) | None => (None, s)
  end.

Definition is_active_slot (carrier_num ts : Z) (s : CcMgr) : bool * bool :=
  match find_dl carrier_num ts s with
  | Some dl =>
      if decide (direction dl = Both) then (true, true) else (true, is_some (find_ul_only carrier_num ts s))
  | None => (false, is_some (find_ul_only carrier_num ts s))
  end.

Definition cc_is_active (ts : Z) (s : CcMgr) : bool * bool :=
  (existsb (λ c, bool_decide (cts c = ts)) (cc_dl s),
   existsb (λ c, bool_decide (cts c = ts)) (cc_ul_only s) ||
   existsb (λ c, bool_decide (cts c = ts) && bool_decide (direction c = Both)) (cc_dl s)).

Definition is_active_dir_slot (carrier_num ts : Z) (dir : Direction) (s : CcMgr) : bool :=
  match dir with
  | Dl => is_some (find_dl carrier_num ts s)
  | Ul => is_some (find_ul_only carrier_num ts s) ||
          match find_dl carrier_num ts s with Some dl => bool_decide (direction dl = Both) | None => false end
  | _ => false
  end.

Definition is_active_dir (ts : Z) (dir : Direction) (s : CcMgr) : bool :=
  match dir with
  | Dl => (cc_is_active ts s).1
  | Ul => (cc_is_active ts s).2
  | _ => false
  end.

Definition get_usage_slot (carrier_num ts : Z) (s : CcMgr) : option Z * option Z :=
  let '(dl_usage, dl_is_both) := match find_dl carrier_num ts s with
    | Some dl => (Some (usage dl), bool_decide (direction dl = Both))
    | None => (None, false)
    end in
  (dl_usage, if dl_is_both then dl_usage else usage <$> find_ul_only carrier_num ts s).

Definition find_ts (ts : Z) (l : list CmceCircuit) : option CmceCircuit := snd <$> list_find (λ c, cts c = ts) l.

Definition cc_get_usage (ts : Z) (s : CcMgr) : option Z * option Z :=
  match (match find_ts ts (cc_dl s) with Some c => Some c | None => find_ts ts (cc_ul_only s) end) with
  | Some c => get_usage_slot (ccarrier_num c) ts s
  | None => (None, None)
  end.

(** * Numbering *)

Definition next_id (n : Z) : Z := if (0x3FFF <? n + 1)%Z then 1 else n + 1.
Definition next_usage (n : Z) : Z := if (63 <? n + 1)%Z then 4 else n + 1.

Definition get_next_call_id : C Z := λ s,
  Ok (next_call_identifier s) (set_numbers (next_id (next_call_identifier s)) (next_usage_number s) s).
Definition get_next_usage_number : C Z := λ s,
  Ok (next_usage_number s) (set_numbers (next_call_identifier s) (next_usage (next_usage_number s)) s).

Definition make_circuit (dir : Direction) (slot : CarrierSlot) (id u : Z) (comm : CommunicationType) (sd : bool)
    (s : CcMgr) : CmceCircuit :=
  mkCmceCircuit (cc_dltime s) dir (ts slot) (carrier_num slot) id u TchS comm sd (Some 0%Z) false.

(** * Opening and closing *)

(** One turn of the search: [None] is the [unwrap] of a missing circuit. *)
Definition slot_suits (dir : Direction) (carrier_num ts : Z) (s : CcMgr) : option bool :=
  match dir, is_active_slot carrier_num ts s with
  | Dl, (false, _) => Some true
  | Ul, (false, false) => Some true
  | Ul, (true, false) =>
      match find_dl carrier_num ts s with
      | Some dl => Some (bool_decide (direction dl ≠ Both))
      | None => None
      end
  | Both, (false, false) => Some true
  | _, _ => Some false
  end.

Fixpoint scan_slots (dir : Direction) (slots : list CarrierSlot) : C CarrierSlot :=
  match slots with
  | [] => fail NoCircuitFree
  | k :: slots => λ s,
      match slot_suits dir (carrier_num k) (ts k) s with
      | Some true => Ok k s
      | Some false => scan_slots dir slots s
      | None => Panic
      end
  end.

(** The carriers that already have a circuit, then carrier 0. *)
Definition known_carriers (s : CcMgr) : list Z := (ccarrier_num <$> cc_dl s) ++ (ccarrier_num <$> cc_ul_only s) ++ [0%Z].

Definition get_free_slot (dir : Direction) : C CarrierSlot := λ s,
  scan_slots dir (cns ← known_carriers s; mkSlot cns <$> [2; 3; 4]%Z) s.

Definition is_empty_queue (o : option (list block)) : bool := match o with Some (_ :: _) => false | _ => true end.

Definition open_circuit (dir : Direction) (circuit : CmceCircuit) : C CmceCircuit := λ s,
  let '(dl_active, ul_active) := is_active_slot (ccarrier_num circuit) (cts circuit) s in
  if includes_dl dir && dl_active then Err CircuitAlreadyInUse s
  else if includes_ul dir && ul_active then Err CircuitAlreadyInUse s
  else match dir with
  | Dl | Both =>
      let k := slot_key circuit in
      let s1 := if is_empty_queue (cc_tx_data s !! k) then s else set_tx_data (delete k (cc_tx_data s)) s in
      Ok circuit (set_dl (cc_dl s1 ++ [circuit]) s1)
  | Ul => Ok circuit (set_ul_only (cc_ul_only s ++ [circuit]) s)
  | DirNone => Panic
  end.

Definition allocate_circuit (dir : Direction) (comm : CommunicationType) (sd : bool) : C CmceCircuit :=
  slot ← get_free_slot dir;
  id ← get_next_call_id;
  u ← get_next_usage_number;
  s ← get;
  open_circuit dir (make_circuit dir slot id u comm sd s).

Definition close_circuit_slot (dir : Direction) (carrier_num ts : Z) : C CmceCircuit := λ s,
  match dir with
  | Dl | Both =>
      let '(c, s') := remove_dl carrier_num ts (set_tx_data (delete (carrier_num, ts) (cc_tx_data s)) s) in
      match c with Some c => Ok c s' | None => Err CircuitNotActive s' end
  | Ul =>
      let '(c, s') := remove_ul_only carrier_num ts s in
      match c with Some c => Ok c s' | None => Err CircuitNotActive s' end
  | DirNone => Panic
  end.

Definition cc_close_circuit (dir : Direction) (ts : Z) : C CmceCircuit :=
  s ← get;
  c ← ok_or (find_ts ts (cc_dl s ++ cc_ul_only s)) CircuitNotActive;
  close_circuit_slot dir (ccarrier_num c) ts.

(** ** With the shared timeslot allocator *)

(** A step of the manager inside an operation on manager and allocator. *)
Definition on_mgr {A} (m : C A) (ta : TimeslotAllocator) (s : CcMgr) :
    outcome (CcMgr * TimeslotAllocator) CircuitErr A :=
  match m s with Ok a s' => Ok a (s', ta) | Err e s' => Err e (s', ta) | Panic => Panic end.

Definition allocate_circuit_with_allocator (dir : Direction) (comm : CommunicationType) (sd : bool)
    (owner : TimeslotOwner) : M (CcMgr * TimeslotAllocator) CircuitErr CmceCircuit := λ '(s, ta),
  match allocate_any_slot owner ta with
  | Ok (Some slot) ta' => on_mgr (
      id ← get_next_call_id;
      u ← get_next_usage_number;
      s ← get;
      open_circuit dir (make_circuit dir slot id u comm sd s)) ta' s
  | Ok None ta' => Err NoCircuitFree (s, ta')
  | _ => Panic
  end.

Definition allocate_circuit_for_call_with_allocator (id : Z) (dir : Direction) (comm : CommunicationType) (sd : bool)
    (owner : TimeslotOwner) : M (CcMgr * TimeslotAllocator) CircuitErr CmceCircuit := λ '(s, ta),
  match allocate_any_slot owner ta with
  | Ok (Some slot) ta' => on_mgr (
      u ← get_next_usage_number;
      s ← get;
      open_circuit dir (make_circuit dir slot id u comm sd s)) ta' s
  | Ok None ta' => Err NoCircuitFree (s, ta')
  | _ => Panic
  end.

(** * Queued blocks *)

Definition cc_put_block (carrier_num ts : Z) (b : block) : C unit := λ s,
  if is_active_dir_slot carrier_num ts Dl s then
    Ok tt (set_tx_data (<[(carrier_num, ts) := default [] (cc_tx_data s !! (carrier_num, ts)) ++ [b]]> (cc_tx_data s)) s)
  else Err CircuitNotActive s.

Definition cc_take_block (carrier_num ts : Z) : C (option block) := λ s,
  if is_active_dir_slot carrier_num ts Dl s then
    match cc_tx_data s !! (carrier_num, ts) with
    | Some (b :: q) => Ok (Some b) (set_tx_data (<[(carrier_num, ts) := q]> (cc_tx_data s)) s)
    | _ => Ok None s
    end
  else Err CircuitNotActive s.

(** * Every timeslot *)

(** [tasks.get_or_insert_with(Vec::new).push(c)] *)
Definition push_task (c : CircuitMgrCmd) (tasks : option (list CircuitMgrCmd)) : option (list CircuitMgrCmd) :=
  Some (default [] tasks ++ [c]).

(** The circuits of a vector that [close_expired_circuits] selects. *)
Fixpoint select_expired (now : TdmaTime) (l : list CmceCircuit) : option (list (Direction * Z * Z * Z)) :=
  match l with
  | [] => Some []
  | c :: l =>
      a ← age (ts_created c) now;
      rest ← select_expired now l;
      Some (if negb (simplex_duplex c) && (CIRCUIT_EXPIRY_TIMESLOTS <? a)%Z
            then (direction c, ccarrier_num c, cts c, call_id c) :: rest else rest)
  end.

Fixpoint close_all (l : list (Direction * Z * Z * Z)) (tasks : option (list CircuitMgrCmd)) :
    C (option (list CircuitMgrCmd)) :=
  match l with
  | [] => mret tasks
  | (dir, cn, t, id) :: l => λ s,
      match close_circuit_slot dir cn t s with
      | Ok c s' => close_all l (push_task (SendClose id c) tasks) s'
      | Err _ s' => close_all l tasks s'
      | Panic => Panic
      end
  end.

Definition close_expired_circuits (tasks : option (list CircuitMgrCmd)) : C (option (list CircuitMgrCmd)) :=
  s ← get;
  to_close ← unwrap (select_expired (cc_dltime s) (cc_dl s));
  to_close_ul ← unwrap (select_expired (cc_dltime s) (cc_ul_only s));
  close_all (to_close ++ to_close_ul) tasks.

Definition setup_due (a : Z) : bool :=
  (a <? frames D_SETUP_REPEATS)%Z || (Z.rem (Z.quot a 4) (Z.quot LATE_ENTRY_INTERVAL_TIMESLOTS 4) =? 0)%Z.

Fixpoint send_setups (now : TdmaTime) (l : list CmceCircuit) (tasks : option (list CircuitMgrCmd)) :
    option (option (list CircuitMgrCmd)) :=
  match l with
  | [] => Some tasks
  | c :: l =>
      a ← age (ts_created c) now;
      send_setups now l (if setup_due a then
        push_task (SendDSetup (call_id c) (usage c) (ccarrier_num c) (cts c)) tasks else tasks)
  end.

Definition cc_tick_start (t : TdmaTime) : C (option (list CircuitMgrCmd)) :=
  s ← get;
  put (set_dltime t s);;
  if (tt_t t =? 1)%Z then
    tasks ← close_expired_circuits None;
    s ← get;
    unwrap (send_setups t (cc_dl s) tasks)
  else mret None.
