(* ===== verification/CmceCircuitSpec.v ===== *)
(** The CMCE's circuit manager as a map of slots: the invariant of its vectors,
    the contract of every operation on the slot it touches, the composition with
    the shared timeslot allocator, the sweep of expired circuits and the
    repetition of D-SETUP. *)
From S2P Require Import Prelude Bits Arrays TdmaTime TimeslotAlloc UmacCircuitMgr CmceCircuitMgr.

(** * The manager as a map of slots *)

(** What a carrier's timeslot holds: its downlink (or two-way) circuit, its
    uplink-only circuit and the queued downlink blocks. *)
Record slot_state : Type := mkSlotState {
  sl_dl : option CmceCircuit;
  sl_ul : option CmceCircuit;
  sl_queue : list block
}.

Definition slot_view (s : CcMgr) (k : key) : slot_state :=
  mkSlotState (find_slot k (cc_dl s)) (find_slot k (cc_ul_only s)) (default [] (cc_tx_data s !! k)).

Definition ul_busy (st : slot_state) : bool :=
  is_some (sl_ul st) || match sl_dl st with Some c => bool_decide (direction c = Both) | None => false end.

(** A circuit of direction [dir] may be opened on the slot. *)
Definition suits (dir : Direction) (st : slot_state) : bool :=
  negb (includes_dl dir && is_some (sl_dl st)) && negb (includes_ul dir && ul_busy st).

(** The slot after opening and after closing a circuit. *)
Definition opened (dir : Direction) (c : CmceCircuit) (st : slot_state) : slot_state :=
  if includes_dl dir then mkSlotState (Some c) (sl_ul st) [] else mkSlotState (sl_dl st) (Some c) (sl_queue st).
Definition closed (dir : Direction) (st : slot_state) : slot_state :=
  if includes_dl dir then mkSlotState None (sl_ul st) [] else mkSlotState (sl_dl st) None (sl_queue st).
Definition circuit_of (dir : Direction) (st : slot_state) : option CmceCircuit :=
  if includes_dl dir then sl_dl st else sl_ul st.

(** [s'] is [s] with the slot [k] changed to [st]. *)
Definition slot_set (s s' : CcMgr) (k : key) (st : slot_state) : Prop :=
  ∀ k', slot_view s' k' = if decide (k' = k) then st else slot_view s k'.

Record cc_inv (s : CcMgr) : Prop := {
  ci_dl : NoDup (slot_key <$> cc_dl s);
  ci_ul : NoDup (slot_key <$> cc_ul_only s);
  ci_dl_dir c : c ∈ cc_dl s → direction c = Dl ∨ direction c = Both;
  ci_ul_dir c : c ∈ cc_ul_only s → direction c = Ul;
  ci_both c : c ∈ cc_dl s → direction c = Both → slot_key c ∉ slot_key <$> cc_ul_only s;
  ci_queue k : is_Some (cc_tx_data s !! k) → k ∈ slot_key <$> cc_dl s;
  ci_usage c : c ∈ cc_dl s ++ cc_ul_only s → (4 ≤ usage c ≤ 63)%Z;
  ci_next_usage : (4 ≤ next_usage_number s ≤ 63)%Z;
  ci_next_id : (1 ≤ next_call_identifier s ≤ 0x3FFF)%Z
}.

(** Projections of the updated records. *)
Ltac cc_cbn := cbn [cc_dl cc_ul_only cc_tx_data cc_dltime next_call_identifier next_usage_number set_dl set_ul_only
  set_tx_data set_numbers set_dltime sl_dl sl_ul sl_queue opened closed circuit_of includes_dl includes_ul].

(** ** Lists of circuits *)

Lemma find_slot_None k l : find_slot k l = None ↔ k ∉ slot_key <$> l.
Proof.
  unfold find_slot. rewrite fmap_None, list_find_None, Forall_forall, list_elem_of_fmap. split.
  - intros H (c & -> & Hc). by eapply H.
  - intros H c Hc Hk. apply H. eauto.
Qed.

Lemma find_slot_elem k l c : find_slot k l = Some c → c ∈ l ∧ slot_key c = k.
Proof.
  unfold find_slot. intros ([i c'] & (Hi & Hk & _)%list_find_Some & ->)%fmap_Some. cbn. split; [|done].
  by eapply list_elem_of_lookup_2.
Qed.

Lemma find_slot_Some k l c : NoDup (slot_key <$> l) → c ∈ l → slot_key c = k → find_slot k l = Some c.
Proof.
  intros Hnd Hc Hk. destruct (find_slot k l) as [c'|] eqn:Hf.
  - apply find_slot_elem in Hf as [Hc' Hk']. f_equal.
    apply list_elem_of_lookup in Hc as [i Hi], Hc' as [j Hj].
    assert (i = j) as ->; [|congruence].
    apply (NoDup_lookup (slot_key <$> l) i j k); [done| |]; rewrite list_lookup_fmap; [rewrite Hi|rewrite Hj]; cbn; congruence.
  - apply find_slot_None in Hf. destruct Hf. apply list_elem_of_fmap. eauto.
Qed.

Lemma find_slot_cons k c l : find_slot k (c :: l) = if decide (slot_key c = k) then Some c else find_slot k l.
Proof. unfold find_slot. cbn. case_decide; [done|]. by destruct (list_find _ l) as [[]|]. Qed.

Lemma find_slot_snoc k l c : slot_key c ∉ slot_key <$> l →
  find_slot k (l ++ [c]) = if decide (k = slot_key c) then Some c else find_slot k l.
Proof.
  induction l as [|x l IH]; intros Hc; cbn [app]; rewrite !find_slot_cons.
  - repeat case_decide; congruence.
  - rewrite fmap_cons, not_elem_of_cons in Hc. destruct Hc as [Hx Hc]. rewrite (IH Hc).
    repeat case_decide; congruence.
Qed.

Definition without (k : key) (l : list CmceCircuit) : list CmceCircuit := filter (λ c, slot_key c ≠ k) l.

Lemma take_slot_spec k l : NoDup (slot_key <$> l) →
  take_slot k l = match find_slot k l with Some c => Some (c, without k l) | None => None end.
Proof.
  intros Hnd. induction l as [|x l IH]; [done|]. rewrite fmap_cons in Hnd. apply NoDup_cons in Hnd as [Hx Hnd].
  cbn [take_slot]. unfold without. rewrite filter_cons. case_decide as Hk.
  - rewrite (find_slot_Some k _ x); [|by rewrite fmap_cons; apply NoDup_cons|by left|done].
    rewrite decide_False by (intros ?; done). rewrite filter_all; [done|].
    intros c Hc Hck. apply Hx, list_elem_of_fmap. exists c. split; [congruence|done].
  - rewrite decide_True by done. rewrite (IH Hnd).
    replace (find_slot k (x :: l)) with (find_slot k l); [by destruct (find_slot k l)|].
    destruct (find_slot k l) as [c|] eqn:Hf; symmetry.
    + apply find_slot_elem in Hf as [Hc Hck].
      apply find_slot_Some; [by rewrite fmap_cons; apply NoDup_cons|by right|done].
    + apply find_slot_None. rewrite fmap_cons, not_elem_of_cons. split; [congruence|by apply find_slot_None].
Qed.

Lemma find_slot_filter (P : CmceCircuit → Prop) `{∀ c, Decision (P c)} k l : NoDup (slot_key <$> l) →
  find_slot k (filter P l) = match find_slot k l with Some c => if decide (P c) then Some c else None | None => None end.
Proof.
  intros Hnd. assert (NoDup (slot_key <$> filter P l)) as Hnd'.
  { eapply sublist_NoDup; [exact Hnd|]. apply fmap_sublist, sublist_filter. }
  destruct (find_slot k l) as [c|] eqn:Hf.
  - apply find_slot_elem in Hf as [Hc Hk]. case_decide as HP.
    + apply find_slot_Some; [done| |done]. by apply list_elem_of_filter.
    + apply find_slot_None. intros (c' & -> & [HP' Hc']%list_elem_of_filter)%list_elem_of_fmap.
      pose proof (find_slot_Some _ _ _ Hnd Hc Hk). pose proof (find_slot_Some _ _ _ Hnd Hc' eq_refl). congruence.
  - apply find_slot_None. apply find_slot_None in Hf.
    intros (c' & -> & [HP' Hc']%list_elem_of_filter)%list_elem_of_fmap. apply Hf, list_elem_of_fmap. eauto.
Qed.

Lemma NoDup_keys_filter (P : CmceCircuit → Prop) `{∀ c, Decision (P c)} l :
  NoDup (slot_key <$> l) → NoDup (slot_key <$> filter P l).
Proof. intros Hnd. eapply sublist_NoDup; [exact Hnd|]. apply fmap_sublist, sublist_filter. Qed.

(** ** Opening *)

Lemma is_active_slot_view cn t s :
  is_active_slot cn t s = (is_some (sl_dl (slot_view s (cn, t))), ul_busy (slot_view s (cn, t))).
Proof.
  unfold is_active_slot, find_dl, find_ul_only, ul_busy. cbn. destruct (find_slot _ (cc_dl s)) as [c|]; cbn.
  - case_decide as Hd; [by rewrite bool_decide_true, orb_true_r|by rewrite bool_decide_false, orb_false_r].
  - by rewrite orb_false_r.
Qed.

Lemma queue_of_free s k : cc_inv s → find_slot k (cc_dl s) = None → cc_tx_data s !! k = None.
Proof.
  intros Hi Hf. destruct (cc_tx_data s !! k) eqn:Hq; [|done]. apply find_slot_None in Hf. destruct Hf.
  apply (ci_queue s Hi). by rewrite Hq.
Qed.

Lemma NoDup_keys_snoc c l : NoDup (slot_key <$> l) → find_slot (slot_key c) l = None →
  NoDup (slot_key <$> (l ++ [c])).
Proof.
  intros Hnd Hf%find_slot_None. rewrite fmap_app. apply NoDup_app. split_and!; [done| |apply NoDup_singleton].
  intros k Hk ->%list_elem_of_singleton. done.
Qed.

Lemma cc_inv_numbers id u t s : cc_inv s → (1 ≤ id ≤ 0x3FFF)%Z → (4 ≤ u ≤ 63)%Z →
  cc_inv (set_numbers id u (set_dltime t s)).
Proof. intros [] ??. by split. Qed.

Lemma cc_inv_open_dl c s : cc_inv s → find_slot (slot_key c) (cc_dl s) = None → (4 ≤ usage c ≤ 63)%Z →
  direction c = Dl ∨ (direction c = Both ∧ find_slot (slot_key c) (cc_ul_only s) = None) →
  cc_inv (set_dl (cc_dl s ++ [c]) s).
Proof.
  intros Hi Hf Hu Hdir. pose proof Hi as []. split; cc_cbn; try done.
  - by apply NoDup_keys_snoc.
  - intros x [Hx| ->%list_elem_of_singleton]%elem_of_app; [by apply ci_dl_dir0|]. naive_solver.
  - intros x [Hx|Hx%list_elem_of_singleton]%elem_of_app Hb; [by apply ci_both0|]. subst x.
    apply find_slot_None. destruct Hdir as [?|[_ ?]]; [congruence|done].
  - intros k Hk. rewrite fmap_app, elem_of_app. left. by apply ci_queue0.
  - intros x. rewrite !elem_of_app, list_elem_of_singleton. intros [[?| ->]|?]; [|done|].
    all: apply ci_usage0; rewrite elem_of_app; eauto.
Qed.

Lemma cc_inv_open_ul c s : cc_inv s → find_slot (slot_key c) (cc_ul_only s) = None → (4 ≤ usage c ≤ 63)%Z →
  direction c = Ul → (∀ d, find_slot (slot_key c) (cc_dl s) = Some d → direction d ≠ Both) →
  cc_inv (set_ul_only (cc_ul_only s ++ [c]) s).
Proof.
  intros Hi Hf Hu Hdir Hnb. pose proof Hi as []. split; cc_cbn; try done.
  - by apply NoDup_keys_snoc.
  - intros x [Hx| ->%list_elem_of_singleton]%elem_of_app; [by apply ci_ul_dir0|done].
  - intros x Hx Hb. rewrite fmap_app, not_elem_of_app. split; [by apply ci_both0|].
    intros Hk%list_elem_of_singleton. apply (Hnb x); [|done]. by apply find_slot_Some.
  - intros x. rewrite !elem_of_app, list_elem_of_singleton. intros [?|[?| ->]]; [| |done].
    all: apply ci_usage0; rewrite elem_of_app; eauto.
Qed.

(** Everything but the circuits and queues is as before. *)
Definition same_clock (s s' : CcMgr) : Prop :=
  cc_dltime s' = cc_dltime s ∧ next_call_identifier s' = next_call_identifier s ∧
  next_usage_number s' = next_usage_number s.

Lemma open_circuit_ok dir c s : cc_inv s → direction c = dir → dir ≠ DirNone → (4 ≤ usage c ≤ 63)%Z →
  if suits dir (slot_view s (slot_key c)) then
    ∃ s', open_circuit dir c s = Ok c s' ∧ cc_inv s' ∧ same_clock s s' ∧
      slot_set s s' (slot_key c) (opened dir c (slot_view s (slot_key c)))
  else open_circuit dir c s = Err CircuitAlreadyInUse s.
Proof.
  intros Hi <- Hd Hu. unfold open_circuit, suits. rewrite is_active_slot_view.
  change (ccarrier_num c, cts c) with (slot_key c). set (st := slot_view s (slot_key c)).
  destruct (includes_dl (direction c) && is_some (sl_dl st)) eqn:H1; [done|]. cbn [negb andb].
  destruct (includes_ul (direction c) && ul_busy st) eqn:H2; [done|]. cbn [negb andb].
  assert (∀ d, includes_dl (direction c) = true → sl_dl st = d → d = None) as Hfree.
  { intros d Hdl <-. rewrite Hdl in H1. by destruct (sl_dl st). }
  destruct (direction c) eqn:Hdir; [done|..].
  - cbn in H2. unfold ul_busy in H2. apply orb_false_iff in H2 as [Hul Hnb].
    destruct (find_slot (slot_key c) (cc_ul_only s)) eqn:Hf; [by cbn in Hul; rewrite Hf in Hul|].
    eexists. split_and!; [done| |done|].
    + apply cc_inv_open_ul; try done. intros d Hfd. cbn in Hnb. rewrite Hfd in Hnb.
      by apply bool_decide_eq_false in Hnb.
    + intros k. unfold slot_view, st. cc_cbn. rewrite find_slot_snoc by (by apply find_slot_None).
      by case_decide; subst.
  - specialize (Hfree _ eq_refl eq_refl). cbn in Hfree. rewrite (queue_of_free s _ Hi Hfree). cbn [is_empty_queue].
    eexists. split_and!; [done| |done|].
    + apply cc_inv_open_dl; try done. by left.
    + intros k. unfold slot_view, st. cc_cbn. rewrite find_slot_snoc by (by apply find_slot_None).
      case_decide; subst; [|done]. by rewrite (queue_of_free s _ Hi Hfree).
  - specialize (Hfree _ eq_refl eq_refl). cbn in Hfree. rewrite (queue_of_free s _ Hi Hfree). cbn [is_empty_queue].
    cbn in H2. unfold ul_busy in H2. apply orb_false_iff in H2 as [Hul _].
    destruct (find_slot (slot_key c) (cc_ul_only s)) eqn:Hf; [by cbn in Hul; rewrite Hf in Hul|].
    eexists. split_and!; [done| |done|].
    + apply cc_inv_open_dl; try done. by right.
    + intros k. unfold slot_view, st. cc_cbn. rewrite find_slot_snoc by (by apply find_slot_None).
      case_decide; subst; [|done]. by rewrite (queue_of_free s _ Hi Hfree).
Qed.

Lemma slot_suits_spec dir cn t s : dir ≠ DirNone → slot_suits dir cn t s = Some (suits dir (slot_view s (cn, t))).
Proof.
  intros Hd. unfold slot_suits, suits. rewrite is_active_slot_view.
  destruct dir; [done|..]; cbn [includes_dl includes_ul andb negb].
  - destruct (ul_busy (slot_view s (cn, t))) eqn:Hu; [by destruct (is_some _)|].
    destruct (is_some (sl_dl _)) eqn:Hs; [|done]. unfold ul_busy in Hu. apply orb_false_iff in Hu as [_ Hu].
    unfold find_dl. cbn in Hs, Hu. destruct (find_slot (cn, t) (cc_dl s)); [|done].
    apply bool_decide_eq_false in Hu. by rewrite bool_decide_true.
  - by destruct (is_some _).
  - by destruct (is_some _), (ul_busy _).
Qed.

Lemma scan_slots_spec dir slots s : dir ≠ DirNone →
  match scan_slots dir slots s with
  | Ok k s' => s' = s ∧ k ∈ slots ∧ suits dir (slot_view s (carrier_num k, ts k)) = true
  | Err e s' => e = NoCircuitFree ∧ s' = s ∧
      Forall (λ k, suits dir (slot_view s (carrier_num k, ts k)) = false) slots
  | Panic => False
  end.
Proof.
  intros Hd. induction slots as [|k slots IH]; cbn [scan_slots]; [done|]. rewrite slot_suits_spec by done.
  destruct (suits dir _) eqn:Hs; [split_and!; [done|by left|done]|].
  destruct (scan_slots dir slots s) as [k' s'|e s'|]; [|by destruct IH as (-> & -> & ?); repeat constructor|done].
  destruct IH as (-> & ? & ?). split_and!; [done|by right|done].
Qed.

Lemma next_usage_range n : (4 ≤ n ≤ 63)%Z → (4 ≤ next_usage n ≤ 63)%Z.
Proof. unfold next_usage. case_match; lia. Qed.
Lemma next_id_range n : (1 ≤ n ≤ 0x3FFF)%Z → (1 ≤ next_id n ≤ 0x3FFF)%Z.
Proof. unfold next_id. case_match; lia. Qed.

(** The numbers the manager hands out with the next circuit are used up; the
    call identifier only if the circuit starts a new call. *)
Definition numbered (id : Z) (s s' : CcMgr) : Prop :=
  cc_dltime s' = cc_dltime s ∧ next_call_identifier s' = id ∧ next_usage_number s' = next_usage (next_usage_number s).

(** What opening a new circuit on [slot] must give. *)
Definition opens (dir : Direction) (slot : CarrierSlot) (id id' : Z) (comm : CommunicationType) (sd : bool)
    (s : CcMgr) (c : CmceCircuit) (s' : CcMgr) : Prop :=
  c = make_circuit dir slot id (next_usage_number s) comm sd s ∧
  suits dir (slot_view s (slot_key c)) = true ∧ numbered id' s s' ∧ cc_inv s' ∧
  slot_set s s' (slot_key c) (opened dir c (slot_view s (slot_key c))).

Lemma open_numbered dir slot id id' comm sd s : cc_inv s → dir ≠ DirNone → (1 ≤ id' ≤ 0x3FFF)%Z →
  let c := make_circuit dir slot id (next_usage_number s) comm sd s in
  let s1 := set_numbers id' (next_usage (next_usage_number s)) s in
  if suits dir (slot_view s (slot_key c)) then
    ∃ s', open_circuit dir c s1 = Ok c s' ∧ opens dir slot id id' comm sd s c s'
  else open_circuit dir c s1 = Err CircuitAlreadyInUse s1.
Proof.
  intros Hi Hd Hid c s1. assert (cc_inv s1) as Hi1.
  { apply (cc_inv_numbers _ _ (cc_dltime s)); [done..|]. apply next_usage_range, (ci_next_usage s Hi). }
  pose proof (open_circuit_ok dir c s1 Hi1 eq_refl Hd (ci_next_usage s Hi)) as Ho.
  change (slot_view s1) with (slot_view s) in Ho. destruct (suits dir _) eqn:Hs; [|done].
  destruct Ho as (s' & Heq & Hi' & (Ht & Hn & Hu) & Hset). exists s'. split; [done|]. by split_and!.
Qed.

Definition allocate_contract (dir : Direction) (comm : CommunicationType) (sd : bool) (s : CcMgr)
    (r : outcome CcMgr CircuitErr CmceCircuit) : Prop :=
  match r with
  | Ok c s' => ∃ slot, carrier_num slot ∈ known_carriers s ∧ (2 ≤ ts slot ≤ 4)%Z ∧
      opens dir slot (next_call_identifier s) (next_id (next_call_identifier s)) comm sd s c s'
  | Err e s' => e = NoCircuitFree ∧ s' = s ∧
      ∀ cn t, cn ∈ known_carriers s → (2 ≤ t ≤ 4)%Z → suits dir (slot_view s (cn, t)) = false
  | Panic => False
  end.

Lemma elem_of_candidates slot (cns : list Z) :
  slot ∈ (cn ← cns; mkSlot cn <$> [2; 3; 4]%Z) ↔ carrier_num slot ∈ cns ∧ (2 ≤ ts slot ≤ 4)%Z.
Proof.
  rewrite list_elem_of_bind. setoid_rewrite list_elem_of_fmap. split.
  - intros (cn & (t & -> & Ht) & Hc). cbn. rewrite !elem_of_cons in Ht. split; [done|].
    destruct Ht as [->|[->|[->|[]%not_elem_of_nil]]]; lia.
  - intros [Hc Ht]. destruct slot as [cn t]. cbn in Hc, Ht. exists cn. split; [|done]. exists t. split; [done|].
    rewrite !elem_of_cons. lia.
Qed.

Lemma allocate_circuit_ok dir comm sd s : cc_inv s → dir ≠ DirNone →
  allocate_contract dir comm sd s (allocate_circuit dir comm sd s).
Proof.
  intros Hi Hd. unfold allocate_circuit, get_free_slot, mbind, M_bind.
  pose proof (scan_slots_spec dir (cns ← known_carriers s; mkSlot cns <$> [2; 3; 4]%Z) s Hd) as Hscan.
  unfold mbind in Hscan. destruct (scan_slots _ _ s) as [slot s'|e s'|]; [|cbn|done].
  - destruct Hscan as (-> & [Hc Ht]%elem_of_candidates & Hs). unfold get_next_call_id, get_next_usage_number, get.
    pose proof (open_numbered dir slot (next_call_identifier s) (next_id (next_call_identifier s)) comm sd s Hi Hd
      (next_id_range _ (ci_next_id s Hi))) as Ho. cbv zeta in Ho.
    unfold slot_key in Ho at 1. cbn [ccarrier_num cts make_circuit] in Ho. rewrite Hs in Ho.
    destruct Ho as (s' & Heq & Hop). change (allocate_contract dir comm sd s (open_circuit dir
      (make_circuit dir slot (next_call_identifier s) (next_usage_number s) comm sd s)
      (set_numbers (next_id (next_call_identifier s)) (next_usage (next_usage_number s)) s))).
    rewrite Heq. by exists slot.
  - destruct Hscan as (-> & -> & Hall). split_and!; [done..|]. intros cn t Hcn Ht.
    rewrite Forall_forall in Hall. apply (Hall (mkSlot cn t)), elem_of_candidates. done.
Qed.

(** ** Opening on a slot of the shared allocator *)

Definition slot_of (c : CmceCircuit) : CarrierSlot := mkSlot (ccarrier_num c) (cts c).

(** Every circuit lies on a slot that the allocator holds as taken. *)
Definition coupled (s : CcMgr) (ta : TimeslotAllocator) : Prop :=
  ∀ c, c ∈ cc_dl s ++ cc_ul_only s → slot_owner ta (slot_of c) ≠ None.

(** [id] is the circuit's call identifier and [id'] the next one afterwards.  A
    slot that is free for the allocator but not for the manager is lost: it
    stays allocated without a circuit. *)
Definition with_allocator_contract (dir : Direction) (comm : CommunicationType) (sd : bool) (o : TimeslotOwner)
    (id id' : Z) (s : CcMgr) (ta : TimeslotAllocator)
    (r : outcome (CcMgr * TimeslotAllocator) CircuitErr CmceCircuit) : Prop :=
  match r with
  | Ok c (s', ta') => ∃ slot, valid_slot ta slot ∧ slot_owner ta slot = None ∧
      slot_update ta ta' slot (Some o) ∧ opens dir slot id id' comm sd s c s' ∧
      (coupled s ta → coupled s' ta')
  | Err NoCircuitFree (s', ta') => s' = s ∧ ta' = ta ∧ ∀ slot, valid_slot ta slot → slot_owner ta slot ≠ None
  | Err CircuitAlreadyInUse (s', ta') => ¬ coupled s ta ∧
      s' = set_numbers id' (next_usage (next_usage_number s)) s ∧
      ∃ slot, slot_owner ta slot = None ∧ slot_update ta ta' slot (Some o)
  | _ => False
  end.

Lemma coupled_suits dir s ta slot : coupled s ta → slot_owner ta slot = None →
  suits dir (slot_view s (carrier_num slot, ts slot)) = true.
Proof.
  intros Hc Hfree. destruct slot as [cn t]. unfold suits, slot_view, ul_busy. cc_cbn. cbn [carrier_num ts].
  assert (∀ l, (∀ c, c ∈ l → c ∈ cc_dl s ++ cc_ul_only s) → find_slot (cn, t) l = None) as Hn.
  { intros l Hl. apply find_slot_None. intros (c & Hk & Hin)%list_elem_of_fmap. injection Hk as -> ->.
    by apply (Hc c), Hfree; eauto. }
  rewrite !Hn by (intros; rewrite elem_of_app; eauto). cbn. by rewrite !andb_false_r.
Qed.

Lemma opens_elem dir slot id id' comm sd s c s' x : opens dir slot id id' comm sd s c s' → cc_inv s →
  x ∈ cc_dl s' ++ cc_ul_only s' → x ∈ cc_dl s ++ cc_ul_only s ∨ x = c.
Proof.
  intros (_ & _ & _ & Hi' & Hset) Hi Hx. specialize (Hset (slot_key x)). rewrite elem_of_app in Hx |- *.
  destruct Hx as [Hx|Hx].
  - apply (f_equal sl_dl) in Hset. cbn [slot_view sl_dl] in Hset.
    rewrite (find_slot_Some _ _ x (ci_dl s' Hi')) in Hset by done.
    case_decide as Hk; [unfold opened in Hset; destruct (includes_dl dir)|]; cbn [sl_dl sl_ul slot_view] in Hset; [by right; injection Hset|..];
      symmetry in Hset; apply find_slot_elem in Hset as [? _]; eauto.
  - apply (f_equal sl_ul) in Hset. cbn [slot_view sl_ul] in Hset.
    rewrite (find_slot_Some _ _ x (ci_ul s' Hi')) in Hset by done.
    case_decide as Hk; [unfold opened in Hset; destruct (includes_dl dir)|]; cbn [sl_dl sl_ul slot_view] in Hset; [|by right; injection Hset|];
      symmetry in Hset; apply find_slot_elem in Hset as [? _]; eauto.
Qed.

Lemma coupled_opens dir slot id id' comm sd s c s' ta ta' o : cc_inv s → coupled s ta →
  opens dir slot id id' comm sd s c s' → slot_update ta ta' slot (Some o) → coupled s' ta'.
Proof.
  intros Hi Hc Hop [_ _ Hown] x Hx. rewrite Hown. case_decide as Hs; [done|].
  destruct (opens_elem _ _ _ _ _ _ _ _ _ _ Hop Hi Hx) as [?| ->]; [by apply Hc|].
  destruct Hop as (-> & _). by destruct slot.
Qed.

Lemma with_allocator_ok dir comm sd o id id' s ta slot ta' : cc_inv s → dir ≠ DirNone → (1 ≤ id' ≤ 0x3FFF)%Z →
  valid_slot ta slot → slot_owner ta slot = None → slot_update ta ta' slot (Some o) →
  with_allocator_contract dir comm sd o id id' s ta
    (on_mgr (open_circuit dir (make_circuit dir slot id (next_usage_number s) comm sd s)) ta'
       (set_numbers id' (next_usage (next_usage_number s)) s)).
Proof.
  intros Hi Hd Hid Hv Hfree Hupd. unfold on_mgr.
  pose proof (open_numbered dir slot id id' comm sd s Hi Hd Hid) as Ho. cbv zeta in Ho.
  unfold slot_key in Ho at 1. cbn [ccarrier_num cts make_circuit] in Ho.
  destruct (suits dir (slot_view s (carrier_num slot, ts slot))) eqn:Hs.
  - destruct Ho as (s' & Heq & Hop). rewrite Heq. exists slot. split_and!; try done.
    intros Hc. by eapply coupled_opens.
  - rewrite Ho. split_and!; [|done|by exists slot]. intros Hc.
    pose proof (coupled_suits dir s ta slot Hc Hfree). congruence.
Qed.

Lemma allocate_circuit_with_allocator_ok dir comm sd o s ta : cc_inv s → alloc_wf ta → dir ≠ DirNone →
  with_allocator_contract dir comm sd o (next_call_identifier s) (next_id (next_call_identifier s)) s ta
    (allocate_circuit_with_allocator dir comm sd o (s, ta)).
Proof.
  intros Hi Hwf Hd. unfold allocate_circuit_with_allocator. pose proof (allocate_any_slot_ok ta o Hwf) as Ha.
  destruct (allocate_any_slot o ta) as [[slot|] ta'|e ta'|]; cbn in Ha; [|by destruct Ha as [-> ?]|done..].
  destruct Ha as (Hv & Hfree & Hupd & _).
  exact (with_allocator_ok dir comm sd o _ _ s ta slot ta' Hi Hd (next_id_range _ (ci_next_id s Hi)) Hv Hfree Hupd).
Qed.

Lemma allocate_circuit_for_call_ok id dir comm sd o s ta : cc_inv s → alloc_wf ta → dir ≠ DirNone →
  with_allocator_contract dir comm sd o id (next_call_identifier s) s ta
    (allocate_circuit_for_call_with_allocator id dir comm sd o (s, ta)).
Proof.
  intros Hi Hwf Hd. unfold allocate_circuit_for_call_with_allocator. pose proof (allocate_any_slot_ok ta o Hwf) as Ha.
  destruct (allocate_any_slot o ta) as [[slot|] ta'|e ta'|]; cbn in Ha; [|by destruct Ha as [-> ?]|done..].
  destruct Ha as (Hv & Hfree & Hupd & _).
  exact (with_allocator_ok dir comm sd o id _ s ta slot ta' Hi Hd (ci_next_id s Hi) Hv Hfree Hupd).
Qed.

(** ** Closing *)

Definition close_state (dir : Direction) (k : key) (s : CcMgr) : CcMgr :=
  if includes_dl dir then set_dl (without k (cc_dl s)) (set_tx_data (delete k (cc_tx_data s)) s)
  else set_ul_only (without k (cc_ul_only s)) s.

Lemma close_circuit_slot_eq dir cn t s : cc_inv s → dir ≠ DirNone →
  close_circuit_slot dir cn t s = match circuit_of dir (slot_view s (cn, t)) with
    | Some c => Ok c (close_state dir (cn, t) s)
    | None => Err CircuitNotActive s
    end.
Proof.
  intros Hi Hd. assert (find_slot (cn, t) (cc_dl s) = None → set_tx_data (delete (cn, t) (cc_tx_data s)) s = s) as Hid.
  { intros Hf. rewrite delete_id by by apply queue_of_free. by destruct s. }
  unfold close_circuit_slot, remove_dl, remove_ul_only, slot_view.
  change (cc_dl (set_tx_data _ s)) with (cc_dl s). rewrite !take_slot_spec by apply Hi.
  destruct dir; [done|..]; cbn [circuit_of includes_dl sl_dl sl_ul].
  - by destruct (find_slot _ (cc_ul_only s)).
  - destruct (find_slot _ (cc_dl s)); [done|]. by rewrite Hid.
  - destruct (find_slot _ (cc_dl s)); [done|]. by rewrite Hid.
Qed.

Lemma keys_filter (P : CmceCircuit → Prop) `{∀ c, Decision (P c)} (k : key) (l : list CmceCircuit) :
  k ∈ slot_key <$> filter P l → k ∈ slot_key <$> l.
Proof. rewrite !list_elem_of_fmap. intros (c & -> & [_ ?]%list_elem_of_filter). eauto. Qed.

Lemma cc_inv_close dir k s : cc_inv s → cc_inv (close_state dir k s).
Proof.
  intros Hi. pose proof Hi as []. unfold close_state, without. destruct (includes_dl dir); split; cc_cbn; try done.
  - by apply NoDup_keys_filter.
  - intros c [_ Hc]%list_elem_of_filter. by apply ci_dl_dir0.
  - intros c [_ Hc]%list_elem_of_filter. by apply ci_both0.
  - intros k'. destruct (decide (k' = k)) as [->|Hne]; [by rewrite lookup_delete_eq; intros []|].
    rewrite lookup_delete_ne by done. intros (c & -> & Hc)%ci_queue0%list_elem_of_fmap.
    apply list_elem_of_fmap. exists c. split; [done|]. by apply list_elem_of_filter.
  - intros c. rewrite elem_of_app, list_elem_of_filter. intros H. apply ci_usage0, elem_of_app. naive_solver.
  - by apply NoDup_keys_filter.
  - intros c [_ Hc]%list_elem_of_filter. by apply ci_ul_dir0.
  - intros c Hc Hb Hk%keys_filter. by apply (ci_both0 c).
  - intros c. rewrite elem_of_app, list_elem_of_filter. intros H. apply ci_usage0, elem_of_app. naive_solver.
Qed.

Lemma find_slot_without k k' l : NoDup (slot_key <$> l) →
  find_slot k' (without k l) = if decide (k' = k) then None else find_slot k' l.
Proof.
  intros Hnd. unfold without. rewrite find_slot_filter by done. destruct (find_slot k' l) as [c|] eqn:Hf.
  - apply find_slot_elem in Hf as [_ <-]. repeat case_decide; congruence.
  - by case_decide.
Qed.

Lemma slot_set_close dir k s : cc_inv s → slot_set s (close_state dir k s) k (closed dir (slot_view s k)).
Proof.
  intros Hi k'. unfold close_state, closed, slot_view. destruct (includes_dl dir); cc_cbn.
  all: rewrite find_slot_without by apply Hi.
  - case_decide as Hk; [subst; by rewrite lookup_delete_eq|by rewrite lookup_delete_ne].
  - by case_decide; subst.
Qed.

Definition close_contract (dir : Direction) (k : key) (s : CcMgr) (r : outcome CcMgr CircuitErr CmceCircuit) : Prop :=
  match r with
  | Ok c s' => circuit_of dir (slot_view s k) = Some c ∧ slot_set s s' k (closed dir (slot_view s k)) ∧
      same_clock s s' ∧ cc_inv s'
  | Err e s' => e = CircuitNotActive ∧ circuit_of dir (slot_view s k) = None ∧ s' = s
  | Panic => False
  end.

Lemma close_circuit_slot_ok dir cn t s : cc_inv s → dir ≠ DirNone →
  close_contract dir (cn, t) s (close_circuit_slot dir cn t s).
Proof.
  intros Hi Hd. rewrite close_circuit_slot_eq by done. destruct (circuit_of dir _) eqn:Hc; [|done].
  split_and!; [done|by apply slot_set_close| |by apply cc_inv_close].
  unfold close_state. by destruct (includes_dl dir).
Qed.

(** ** Queued blocks *)

Definition put_contract (k : key) (b : block) (s : CcMgr) (r : outcome CcMgr CircuitErr unit) : Prop :=
  let st := slot_view s k in
  match r with
  | Ok _ s' => sl_dl st ≠ None ∧ slot_set s s' k (mkSlotState (sl_dl st) (sl_ul st) (sl_queue st ++ [b])) ∧
      same_clock s s' ∧ cc_inv s'
  | Err e s' => e = CircuitNotActive ∧ sl_dl st = None ∧ s' = s
  | Panic => False
  end.

Definition take_contract (k : key) (s : CcMgr) (r : outcome CcMgr CircuitErr (option block)) : Prop :=
  let st := slot_view s k in
  match r with
  | Ok o s' => sl_dl st ≠ None ∧ o = head (sl_queue st) ∧
      slot_set s s' k (mkSlotState (sl_dl st) (sl_ul st) (tail (sl_queue st))) ∧ same_clock s s' ∧ cc_inv s'
  | Err e s' => e = CircuitNotActive ∧ sl_dl st = None ∧ s' = s
  | Panic => False
  end.

Lemma cc_inv_queue k q s : cc_inv s → sl_dl (slot_view s k) ≠ None → cc_inv (set_tx_data (<[k := q]> (cc_tx_data s)) s).
Proof.
  intros [] Hk. split; try done. intros k'. cc_cbn. destruct (decide (k = k')) as [<-|Hne].
  - intros _. apply dec_stable. intros Hn. by apply find_slot_None in Hn.
  - rewrite lookup_insert_ne by done. apply ci_queue0.
Qed.

Lemma slot_set_queue k q s :
  slot_set s (set_tx_data (<[k := q]> (cc_tx_data s)) s) k (mkSlotState (sl_dl (slot_view s k)) (sl_ul (slot_view s k)) q).
Proof.
  intros k'. unfold slot_view. cc_cbn. case_decide as Hk; [subst; by rewrite lookup_insert_eq|].
  by rewrite lookup_insert_ne.
Qed.

Lemma cc_put_block_ok cn t b s : cc_inv s → put_contract (cn, t) b s (cc_put_block cn t b s).
Proof.
  intros Hi. unfold cc_put_block, is_active_dir_slot, find_dl, put_contract.
  destruct (find_slot (cn, t) (cc_dl s)) eqn:Hf; cbn [is_some]; cbn [sl_dl slot_view]; rewrite Hf; [|done].
  split_and!; [done| |done|].
  - pose proof (slot_set_queue (cn, t) (default [] (cc_tx_data s !! (cn, t)) ++ [b]) s) as H.
    cbn [sl_dl slot_view] in H. by rewrite Hf in H.
  - apply cc_inv_queue; [done|]. cbn [sl_dl slot_view]. by rewrite Hf.
Qed.

Lemma slot_set_same s k : slot_set s s k (slot_view s k).
Proof. intros k'. by case_decide; subst. Qed.

Lemma cc_take_block_ok cn t s : cc_inv s → take_contract (cn, t) s (cc_take_block cn t s).
Proof.
  intros Hi. unfold cc_take_block, is_active_dir_slot, find_dl, take_contract.
  destruct (find_slot (cn, t) (cc_dl s)) eqn:Hf; cbn [is_some]; cbn [sl_dl sl_queue slot_view]; rewrite Hf; [|done].
  pose proof (slot_set_same s (cn, t)) as Hsame. unfold slot_view in Hsame at 1. rewrite Hf in Hsame.
  destruct (cc_tx_data s !! (cn, t)) as [[|b q]|] eqn:Hq; cbn [default head tail]; [by split_and!| |by split_and!].
  split_and!; [done|done| |done|].
  - pose proof (slot_set_queue (cn, t) q s) as H. cbn [sl_dl slot_view] in H. by rewrite Hf in H.
  - apply cc_inv_queue; [done|]. cbn [sl_dl slot_view]. by rewrite Hf.
Qed.

(** ** Expiry and D-SETUP commands *)

(** The age of a circuit in timeslots; [age] always returns. *)
Definition circuit_age (now : TdmaTime) (c : CmceCircuit) : Z := default 0%Z (age (ts_created c) now).
Definition expired (now : TdmaTime) (c : CmceCircuit) : Prop :=
  simplex_duplex c = false ∧ (CIRCUIT_EXPIRY_TIMESLOTS < circuit_age now c)%Z.
#[global] Instance expired_dec now c : Decision (expired now c).
Proof. unfold expired. apply _. Defined.

Definition entry (c : CmceCircuit) : Direction * Z * Z * Z := (direction c, ccarrier_num c, cts c, call_id c).
Definition close_cmd (c : CmceCircuit) : CircuitMgrCmd := SendClose (call_id c) c.
Definition setup_cmd (c : CmceCircuit) : CircuitMgrCmd := SendDSetup (call_id c) (usage c) (ccarrier_num c) (cts c).

Lemma age_eq now c : age (ts_created c) now = Some (circuit_age now c).
Proof. unfold circuit_age, age. by destruct (diff_total now (ts_created c)) as [d ->]. Qed.

Lemma select_expired_eq now l : select_expired now l = Some (entry <$> filter (expired now) l).
Proof.
  induction l as [|c l IH]; [done|]. cbn [select_expired]. rewrite age_eq. cbn [mbind option_bind].
  rewrite IH. cbn [mbind option_bind]. rewrite filter_cons.
  destruct (negb (simplex_duplex c) && (CIRCUIT_EXPIRY_TIMESLOTS <? circuit_age now c)%Z) eqn:He.
  - apply andb_true_iff in He as [Hs%negb_true_iff Ha%Z.ltb_lt]. by rewrite decide_True.
  - rewrite decide_False; [done|]. intros [Hs Ha]. rewrite Hs in He. apply Z.ltb_ge in He. lia.
Qed.

Definition push_all (cmds : list CircuitMgrCmd) (tasks : option (list CircuitMgrCmd)) : option (list CircuitMgrCmd) :=
  match cmds with [] => tasks | _ => Some (default [] tasks ++ cmds) end.

Lemma push_all_cons c cmds tasks : push_all cmds (push_task c tasks) = push_all (c :: cmds) tasks.
Proof. unfold push_all, push_task. destruct cmds; [done|]. cbn. by rewrite <- app_assoc. Qed.

Lemma push_all_app cmds1 cmds2 tasks : push_all cmds2 (push_all cmds1 tasks) = push_all (cmds1 ++ cmds2) tasks.
Proof.
  destruct cmds1 as [|c cmds1]; [done|]. destruct cmds2 as [|c2 cmds2]; [by rewrite app_nil_r|].
  cbn. by rewrite <- app_assoc.
Qed.

Lemma send_setups_eq now l tasks : send_setups now l tasks =
  Some (push_all (setup_cmd <$> filter (λ c, setup_due (circuit_age now c) = true) l) tasks).
Proof.
  revert tasks. induction l as [|c l IH]; intros tasks; [done|]. cbn [send_setups]. rewrite age_eq.
  cbn [mbind option_bind]. rewrite IH, filter_cons. destruct (setup_due (circuit_age now c)) eqn:Hd.
  - rewrite decide_True by done. rewrite fmap_cons, <- push_all_cons. done.
  - by rewrite decide_False.
Qed.

(** The circuits of [l] without those on the slots [ks]. *)
Definition without_all (ks : list key) (l : list CmceCircuit) : list CmceCircuit := filter (λ c, slot_key c ∉ ks) l.
Definition delete_all {A} (ks : list key) (m : gmap key A) : gmap key A := foldl (λ m k, delete k m) m ks.

Lemma without_all_cons k ks l : without_all ks (without k l) = without_all (k :: ks) l.
Proof.
  unfold without_all, without. rewrite list_filter_filter. apply filter_ext_elem. intros c _.
  rewrite not_elem_of_cons. tauto.
Qed.

Lemma cc_ext s s' : cc_dltime s = cc_dltime s' → cc_dl s = cc_dl s' → cc_ul_only s = cc_ul_only s' →
  cc_tx_data s = cc_tx_data s' → next_call_identifier s = next_call_identifier s' →
  next_usage_number s = next_usage_number s' → s = s'.
Proof. destruct s, s'. cbn. congruence. Qed.

Lemma close_all_dl cs tasks l s : cc_inv s → (∀ c, c ∈ cs → c ∈ cc_dl s) → NoDup (slot_key <$> cs) →
  close_all ((entry <$> cs) ++ l) tasks s = close_all l (push_all (close_cmd <$> cs) tasks)
    (set_dl (without_all (slot_key <$> cs) (cc_dl s)) (set_tx_data (delete_all (slot_key <$> cs) (cc_tx_data s)) s)).
Proof.
  revert tasks s. induction cs as [|c cs IH]; intros tasks s Hi Hin Hnd.
  - cbn [fmap list_fmap app push_all]. f_equal. apply cc_ext; try done. cc_cbn. symmetry. apply filter_all.
    intros c _. apply not_elem_of_nil.
  - rewrite fmap_cons in Hnd. apply NoDup_cons in Hnd as [Hc Hnd].
    assert (c ∈ cc_dl s) as Hcd by (apply Hin; by left). assert (includes_dl (direction c) = true) as Hdl.
    { destruct (ci_dl_dir s Hi c Hcd) as [-> | ->]; done. }
    rewrite fmap_cons. change (entry c) with (direction c, ccarrier_num c, cts c, call_id c).
    cbn [app close_all]. rewrite close_circuit_slot_eq by (done || by destruct (direction c)).
    change (ccarrier_num c, cts c) with (slot_key c). unfold circuit_of, slot_view. cc_cbn. rewrite Hdl.
    rewrite (find_slot_Some _ _ c (ci_dl s Hi)) by done. rewrite IH; [|by apply cc_inv_close| |done].
    + unfold close_state. rewrite Hdl. rewrite push_all_cons. f_equal. apply cc_ext; try done. cc_cbn.
      rewrite fmap_cons. apply without_all_cons.
    + intros x Hx. unfold close_state. rewrite Hdl. cc_cbn. apply list_elem_of_filter. split; [|apply Hin; by right].
      intros Hk. apply Hc. rewrite <- Hk. apply list_elem_of_fmap. eauto.
Qed.

Lemma close_all_ul cs tasks s : cc_inv s → (∀ c, c ∈ cs → c ∈ cc_ul_only s) → NoDup (slot_key <$> cs) →
  close_all (entry <$> cs) tasks s = Ok (push_all (close_cmd <$> cs) tasks)
    (set_ul_only (without_all (slot_key <$> cs) (cc_ul_only s)) s).
Proof.
  revert tasks s. induction cs as [|c cs IH]; intros tasks s Hi Hin Hnd.
  - cbn [fmap list_fmap close_all push_all mret M_ret]. f_equal. apply cc_ext; try done. cc_cbn. symmetry.
    apply filter_all. intros c _. apply not_elem_of_nil.
  - rewrite fmap_cons in Hnd. apply NoDup_cons in Hnd as [Hc Hnd].
    assert (c ∈ cc_ul_only s) as Hcd by (apply Hin; by left). pose proof (ci_ul_dir s Hi c Hcd) as Hdir.
    rewrite fmap_cons. change (entry c) with (direction c, ccarrier_num c, cts c, call_id c).
    cbn [close_all]. rewrite close_circuit_slot_eq by (done || by rewrite Hdir).
    change (ccarrier_num c, cts c) with (slot_key c). unfold circuit_of, slot_view. cc_cbn. rewrite Hdir.
    cbn [includes_dl]. rewrite (find_slot_Some _ _ c (ci_ul s Hi)) by done.
    rewrite IH; [|by apply cc_inv_close| |done].
    + unfold close_state. cbn [includes_dl]. rewrite push_all_cons. f_equal. apply cc_ext; try done. cc_cbn.
      rewrite fmap_cons. apply without_all_cons.
    + intros x Hx. unfold close_state. cc_cbn. apply list_elem_of_filter. split; [|apply Hin; by right].
      intros Hk. apply Hc. rewrite <- Hk. apply list_elem_of_fmap. eauto.
Qed.

Lemma without_expired now l : NoDup (slot_key <$> l) →
  without_all (slot_key <$> filter (expired now) l) l = filter (λ c, ¬ expired now c) l.
Proof.
  intros Hnd. apply filter_ext_elem. intros c Hc. rewrite list_elem_of_fmap. split.
  - intros H He. apply H. exists c. split; [done|]. by apply list_elem_of_filter.
  - intros He (x & Hk & [Hx Hxl]%list_elem_of_filter). pose proof (find_slot_Some _ _ _ Hnd Hc eq_refl) as H1.
    rewrite (find_slot_Some _ _ x Hnd) in H1 by done. injection H1 as ->. done.
Qed.

Lemma delete_all_lookup {A} (ks : list key) (m : gmap key A) (k : key) : delete_all ks m !! k = if decide (k ∈ ks) then None else m !! k.
Proof.
  unfold delete_all. revert m. induction ks as [|k0 ks IH]; intros m; cbn [foldl].
  - rewrite decide_False by apply not_elem_of_nil. done.
  - rewrite IH. destruct (decide (k ∈ ks)); [by rewrite decide_True by (by right)|].
    destruct (decide (k = k0)) as [->|Hne]; [rewrite decide_True by (by left); by rewrite lookup_delete_eq|].
    rewrite decide_False by (rewrite not_elem_of_cons; done). by rewrite lookup_delete_ne.
Qed.

(** The manager after the sweep at timeslot 1. *)
Definition swept (now : TdmaTime) (s : CcMgr) : CcMgr :=
  mkCc now (filter (λ c, ¬ expired now c) (cc_dl s)) (filter (λ c, ¬ expired now c) (cc_ul_only s))
    (delete_all (slot_key <$> filter (expired now) (cc_dl s)) (cc_tx_data s))
    (next_call_identifier s) (next_usage_number s).

Definition live (now : TdmaTime) (o : option CmceCircuit) : option CmceCircuit :=
  match o with Some c => if decide (expired now c) then None else Some c | None => None end.
Definition aged (now : TdmaTime) (st : slot_state) : slot_state :=
  mkSlotState (live now (sl_dl st)) (live now (sl_ul st)) (if is_some (live now (sl_dl st)) then sl_queue st else []).

Lemma find_slot_live now k l : NoDup (slot_key <$> l) →
  find_slot k (filter (λ c, ¬ expired now c) l) = live now (find_slot k l).
Proof.
  intros Hnd. rewrite find_slot_filter by done. destruct (find_slot k l) as [c|]; [|done]. cbn.
  by repeat case_decide.
Qed.

Lemma swept_view now s k : cc_inv s → slot_view (swept now s) k = aged now (slot_view s k).
Proof.
  intros Hi. unfold slot_view, swept, aged. cc_cbn. rewrite !find_slot_live by apply Hi.
  f_equal. rewrite delete_all_lookup. destruct (find_slot k (cc_dl s)) as [c|] eqn:Hf; cbn [live].
  - apply find_slot_elem in Hf as [Hc <-]. case_decide as Hk.
    + apply list_elem_of_fmap in Hk as (x & Hk & [Hx Hxl]%list_elem_of_filter).
      pose proof (find_slot_Some _ _ _ (ci_dl s Hi) Hc eq_refl) as H1.
      rewrite (find_slot_Some _ _ x (ci_dl s Hi)) in H1 by done. injection H1 as ->. by rewrite decide_True.
    + rewrite decide_False; [done|]. intros He. apply Hk, list_elem_of_fmap. exists c. split; [done|].
      by apply list_elem_of_filter.
  - rewrite (queue_of_free s k Hi Hf). by case_decide.
Qed.

Lemma swept_inv now s : cc_inv s → cc_inv (swept now s).
Proof.
  intros Hi. pose proof Hi as []. split; unfold swept; cc_cbn; try done.
  - by apply NoDup_keys_filter.
  - by apply NoDup_keys_filter.
  - intros c [_ Hc]%list_elem_of_filter. by apply ci_dl_dir0.
  - intros c [_ Hc]%list_elem_of_filter. by apply ci_ul_dir0.
  - intros c [_ Hc]%list_elem_of_filter Hb Hk%keys_filter. by apply (ci_both0 c).
  - intros k [q Hq]. apply dec_stable. intros Hn%find_slot_None.
    pose proof (swept_view now s k Hi) as Hv. unfold swept, slot_view, aged in Hv. cc_cbn.
    rewrite delete_all_lookup in Hq. case_decide as Hk; [done|]. apply Hk.
    rewrite (find_slot_live now k _ ci_dl0) in Hn. destruct (find_slot k (cc_dl s)) as [c|] eqn:Hf.
    + apply find_slot_elem in Hf as [Hc <-]. apply list_elem_of_fmap. exists c. split; [done|].
      apply list_elem_of_filter. split; [|done]. cbn in Hn. by case_decide.
    + by rewrite (queue_of_free s k Hi Hf) in Hq.
  - intros c. rewrite elem_of_app, !list_elem_of_filter. intros H. apply ci_usage0, elem_of_app. naive_solver.
Qed.

Lemma close_expired_eq now s : cc_inv s → cc_dltime s = now →
  close_expired_circuits None s = Ok (push_all ((close_cmd <$> filter (expired now) (cc_dl s)) ++
    (close_cmd <$> filter (expired now) (cc_ul_only s))) None) (swept now s).
Proof.
  intros Hi <-. unfold close_expired_circuits, mbind, M_bind, get. rewrite !select_expired_eq.
  cbn [unwrap mret M_ret]. pose proof Hi as [].
  assert (∀ l, NoDup (slot_key <$> l) → NoDup (slot_key <$> filter (expired (cc_dltime s)) l)) as Hnd.
  { intros l. by apply NoDup_keys_filter. }
  rewrite close_all_dl; [|done|by intros c [_ ?]%list_elem_of_filter|by apply Hnd].
  rewrite close_all_ul; cc_cbn; [| |by intros c [_ ?]%list_elem_of_filter|by apply Hnd].
  - rewrite push_all_app. f_equal. rewrite !without_expired by done. done.
  - pose proof (swept_inv (cc_dltime s) s Hi) as [??????? _ _]. split; unfold swept in *; cbn [cc_dl cc_ul_only cc_tx_data] in *; cc_cbn;
      rewrite ?without_expired by done; try done.
    + intros c [_ Hc]%list_elem_of_filter. by apply ci_both0.
    + intros c. rewrite elem_of_app, list_elem_of_filter. intros H. apply ci_usage0, elem_of_app. naive_solver.
Qed.

(** The commands a tick at timeslot 1 must give: a close for every expired
    circuit, downlink ones first, then a D-SETUP for every downlink circuit that
    stays and is due. *)
Definition tick_commands (now : TdmaTime) (s : CcMgr) : list CircuitMgrCmd :=
  (close_cmd <$> filter (expired now) (cc_dl s)) ++ (close_cmd <$> filter (expired now) (cc_ul_only s)) ++
  (setup_cmd <$> filter (λ c, setup_due (circuit_age now c) = true) (filter (λ c, ¬ expired now c) (cc_dl s))).

Definition tick_contract (now : TdmaTime) (s : CcMgr) (r : outcome CcMgr CircuitErr (option (list CircuitMgrCmd))) : Prop :=
  match r with
  | Ok tasks s' => cc_inv s' ∧ cc_dltime s' = now ∧
      next_call_identifier s' = next_call_identifier s ∧ next_usage_number s' = next_usage_number s ∧
      if (tt_t now =? 1)%Z then
        tasks = match tick_commands now s with [] => None | l => Some l end ∧
        ∀ k, slot_view s' k = aged now (slot_view s k)
      else tasks = None ∧ ∀ k, slot_view s' k = slot_view s k
  | _ => False
  end.

Lemma cc_tick_start_ok now s : cc_inv s → tick_contract now s (cc_tick_start now s).
Proof.
  intros Hi. assert (cc_inv (set_dltime now s)) as Hi1 by (destruct Hi; by split).
  unfold cc_tick_start, mbind, M_bind, get, put, tick_contract. destruct (tt_t now =? 1)%Z; [|done].
  rewrite (close_expired_eq now) by done. cbn [swept cc_dl set_dltime]. rewrite send_setups_eq, push_all_app.
  unfold unwrap, mret, M_ret. split_and!; [by apply (swept_inv now (set_dltime now s))|done|done|done| |].
  - unfold push_all. rewrite <- app_assoc. change (cc_ul_only (set_dltime now s)) with (cc_ul_only s).
    fold (tick_commands now s). by destruct (tick_commands now s).
  - intros k. exact (swept_view now (set_dltime now s) k Hi1).
Qed.

(** * Reachable states *)

Inductive cc_op : Type :=
| CcAllocate (dir : Direction) (comm : CommunicationType) (sd : bool)
| CcAllocateWith (dir : Direction) (comm : CommunicationType) (sd : bool) (o : TimeslotOwner) (ta : TimeslotAllocator)
| CcAllocateFor (id : Z) (dir : Direction) (comm : CommunicationType) (sd : bool) (o : TimeslotOwner)
    (ta : TimeslotAllocator)
| CcCallId
| CcClose (dir : Direction) (ts : Z)
| CcCloseSlot (dir : Direction) (carrier_num ts : Z)
| CcPut (carrier_num ts : Z) (b : block)
| CcTake (carrier_num ts : Z)
| CcTick (now : TdmaTime).

(** The state an operation leaves, on success and on error; [None] is a panic. *)
Definition after {S E A} (r : outcome S E A) : option S :=
  match r with Ok _ s | Err _ s => Some s | Panic => None end.

Definition cc_exec (op : cc_op) (s : CcMgr) : option CcMgr :=
  match op with
  | CcAllocate dir comm sd => after (allocate_circuit dir comm sd s)
  | CcAllocateWith dir comm sd o ta => fst <$> after (allocate_circuit_with_allocator dir comm sd o (s, ta))
  | CcAllocateFor id dir comm sd o ta =>
      fst <$> after (allocate_circuit_for_call_with_allocator id dir comm sd o (s, ta))
  | CcCallId => after (get_next_call_id s)
  | CcClose dir t => after (cc_close_circuit dir t s)
  | CcCloseSlot dir cn t => after (close_circuit_slot dir cn t s)
  | CcPut cn t b => after (cc_put_block cn t b s)
  | CcTake cn t => after (cc_take_block cn t s)
  | CcTick now => after (cc_tick_start now s)
  end.

(** A direction is given, and the allocator is one that its own operations
    produce. *)
Definition cc_op_ok (op : cc_op) : Prop :=
  match op with
  | CcAllocate dir _ _ | CcClose dir _ | CcCloseSlot dir _ _ => dir ≠ DirNone
  | CcAllocateWith dir _ _ _ ta | CcAllocateFor _ dir _ _ _ ta => dir ≠ DirNone ∧ alloc_wf ta
  | _ => True
  end.

Lemma with_allocator_inv dir comm sd o id id' s ta r : cc_inv s → (1 ≤ id' ≤ 0x3FFF)%Z →
  with_allocator_contract dir comm sd o id id' s ta r → ∃ s', fst <$> after r = Some s' ∧ cc_inv s'.
Proof.
  intros Hi Hid Hr. destruct r as [c [s' ta']|[] [s' ta']|]; cbn in Hr |- *; try done; eexists; (split; [done|]).
  - by destruct Hr as (slot & _ & _ & _ & (_ & _ & _ & ? & _) & _).
  - by destruct Hr as [-> _].
  - destruct Hr as (_ & -> & _). apply (cc_inv_numbers _ _ (cc_dltime s)); [done..|].
    apply next_usage_range, (ci_next_usage s Hi).
Qed.

Lemma cc_exec_inv op s : cc_inv s → cc_op_ok op → ∃ s', cc_exec op s = Some s' ∧ cc_inv s'.
Proof.
  intros Hi Hop. destruct op as [dir comm sd|dir comm sd o ta|id dir comm sd o ta| |dir t|dir cn t|cn t b|cn t|now];
    cbn [cc_exec cc_op_ok] in *.
  - pose proof (allocate_circuit_ok dir comm sd s Hi Hop) as Hr.
    destruct (allocate_circuit dir comm sd s) as [c s'|e s'|]; cbn in Hr |- *; [|destruct Hr as (_ & -> & _); eauto|done].
    destruct Hr as (slot & _ & _ & _ & _ & _ & ? & _). eauto.
  - destruct Hop as [Hd Hwf]. eapply with_allocator_inv, allocate_circuit_with_allocator_ok; try done.
    apply next_id_range, (ci_next_id s Hi).
  - destruct Hop as [Hd Hwf]. eapply with_allocator_inv, allocate_circuit_for_call_ok; try done. apply (ci_next_id s Hi).
  - eexists. split; [done|]. apply (cc_inv_numbers _ _ (cc_dltime s)); [done| |apply (ci_next_usage s Hi)].
    apply next_id_range, (ci_next_id s Hi).
  - unfold cc_close_circuit, mbind, M_bind, get. destruct (find_ts t _) as [c|]; [|by exists s]. cbn [ok_or mret M_ret].
    rewrite close_circuit_slot_eq by done. destruct (circuit_of dir _); [|by exists s].
    eexists. split; [done|by apply cc_inv_close].
  - rewrite close_circuit_slot_eq by done. destruct (circuit_of dir _); [|by exists s].
    eexists. split; [done|by apply cc_inv_close].
  - pose proof (cc_put_block_ok cn t b s Hi) as Hr. destruct (cc_put_block cn t b s) as [[] s'|e s'|]; cbn in Hr |- *;
      [|destruct Hr as (_ & _ & ->); eauto|done]. destruct Hr as (_ & _ & _ & ?). eauto.
  - pose proof (cc_take_block_ok cn t s Hi) as Hr. destruct (cc_take_block cn t s) as [o s'|e s'|]; cbn in Hr |- *;
      [|destruct Hr as (_ & _ & ->); eauto|done]. destruct Hr as (_ & _ & _ & _ & ?). eauto.
  - pose proof (cc_tick_start_ok now s Hi) as Hr. destruct (cc_tick_start now s) as [o s'|e s'|]; cbn in Hr |- *; [|done..].
    destruct Hr as (? & _). eauto.
Qed.

Inductive cc_reach : CcMgr → Prop :=
| reach_new : cc_reach cc_new
| reach_op op s s' : cc_reach s → cc_op_ok op → cc_exec op s = Some s' → cc_reach s'.

Lemma cc_reach_inv s : cc_reach s → cc_inv s.
Proof.
  induction 1 as [|op s s' _ IH Hop Hex].
  - split; [apply NoDup_nil_2|apply NoDup_nil_2|by intros ? ?%not_elem_of_nil..| |by intros ? ?%not_elem_of_nil|done|done].
    intros k [q Hq]. change (cc_tx_data cc_new) with (∅ : gmap key (list block)) in Hq. by rewrite lookup_empty in Hq.
  - destruct (cc_exec_inv op s IH Hop) as (s'' & Heq & ?). congruence.
Qed.

(** * Properties *)

(** C32: in every reachable state the manager is a map of slots, each with at
    most one downlink and one uplink user and a queue of blocks.  Opening takes
    a suitable slot of a carrier in use (or fails if there is none), gives the
    circuit the next call identifier and usage number and touches no other
    slot; closing empties the slot's direction and drops its queue; blocks are
    queued first in, first out on open downlink circuits.  Errors change
    nothing, and nothing panics. *)
Theorem cmce_circuits_refine_slots s dir comm sd cn t b : cc_reach s → dir ≠ DirNone →
  allocate_contract dir comm sd s (allocate_circuit dir comm sd s) ∧
  close_contract dir (cn, t) s (close_circuit_slot dir cn t s) ∧
  put_contract (cn, t) b s (cc_put_block cn t b s) ∧
  take_contract (cn, t) s (cc_take_block cn t s).
Proof.
  intros Hi%cc_reach_inv Hd. split_and!; [by apply allocate_circuit_ok|by apply close_circuit_slot_ok|
    by apply cc_put_block_ok|by apply cc_take_block_ok].
Qed.

Lemma cc_reach_ops ops s s' : cc_reach s → Forall cc_op_ok ops → foldM cc_exec ops s = Some s' → cc_reach s'.
Proof.
  revert s. induction ops as [|op ops IH]; cbn [foldM]; intros s Hr Hops Heq; [by injection Heq as <-|].
  apply Forall_cons in Hops as [Hop Hops]. apply bind_Some in Heq as (s1 & H1 & H2).
  eapply IH; [|done|exact H2]. by eapply reach_op.
Qed.

Definition one_circuit_ops : list cc_op :=
  [CcTick (mkTime 1 3 5 7); CcAllocate Both P2Mp false; CcPut 0 2 [1; 2; 3]%Z].
Definition one_circuit : CcMgr := default cc_new (foldM cc_exec one_circuit_ops cc_new).

Lemma one_circuit_reach : cc_reach one_circuit.
Proof. apply (cc_reach_ops one_circuit_ops cc_new); [apply reach_new|by repeat constructor|by vm_compute]. Qed.

Lemma cmce_circuits_refine_slots_witness : dom (cc_tx_data one_circuit) = {[(0, 2)]}%Z ∧
  allocate_contract Dl P2p true one_circuit (allocate_circuit Dl P2p true one_circuit) ∧
  close_contract Dl (0, 2)%Z one_circuit (close_circuit_slot Dl 0 2 one_circuit) ∧
  put_contract (0, 2)%Z [4]%Z one_circuit (cc_put_block 0 2 [4]%Z one_circuit) ∧
  take_contract (0, 2)%Z one_circuit (cc_take_block 0 2 one_circuit).
Proof. split; [by vm_compute|]. apply (cmce_circuits_refine_slots one_circuit); [apply one_circuit_reach|done]. Defined.

(** The contract of opening through the allocator while the two are in step. *)
Definition coupled_contract (dir : Direction) (comm : CommunicationType) (sd : bool) (o : TimeslotOwner)
    (id id' : Z) (s : CcMgr) (ta : TimeslotAllocator)
    (r : outcome (CcMgr * TimeslotAllocator) CircuitErr CmceCircuit) : Prop :=
  match r with
  | Ok c (s', ta') => ∃ slot, valid_slot ta slot ∧ slot_owner ta slot = None ∧
      slot_update ta ta' slot (Some o) ∧ opens dir slot id id' comm sd s c s' ∧ coupled s' ta'
  | Err e (s', ta') => e = NoCircuitFree ∧ s' = s ∧ ta' = ta ∧ ∀ slot, valid_slot ta slot → slot_owner ta slot ≠ None
  | Panic => False
  end.

Lemma coupled_contract_of dir comm sd o id id' s ta r : coupled s ta →
  with_allocator_contract dir comm sd o id id' s ta r → coupled_contract dir comm sd o id id' s ta r.
Proof.
  intros Hc. destruct r as [c [s' ta']|[] [s' ta']|]; cbn; try done.
  - intros (slot & ? & ? & ? & ? & ?). exists slot. split_and!; auto.
  - by intros [? _].
Qed.

(** Opening a circuit through the shared allocator.  As long as every
    circuit lies on a slot the allocator holds as taken, allocation succeeds
    exactly if the allocator has a free slot, takes that slot in both
    components and nothing else, and keeps the two in step; it fails only with
    [NoCircuitFree], changing nothing.  It does so for a new call and for a
    further leg of the call [id]. *)
Theorem circuits_follow_allocator s ta dir comm sd o id : cc_reach s → alloc_wf ta → coupled s ta → dir ≠ DirNone →
  coupled_contract dir comm sd o (next_call_identifier s) (next_id (next_call_identifier s)) s ta
    (allocate_circuit_with_allocator dir comm sd o (s, ta)) ∧
  coupled_contract dir comm sd o id (next_call_identifier s) s ta
    (allocate_circuit_for_call_with_allocator id dir comm sd o (s, ta)).
Proof.
  intros Hi%cc_reach_inv Hwf Hc Hd. split; apply coupled_contract_of; try done.
  - by apply allocate_circuit_with_allocator_ok.
  - by apply allocate_circuit_for_call_ok.
Qed.

Definition one_taken : TimeslotAllocator := mkAlloc [0%Z] [[None; Some Cmce; None; None]].

Lemma circuits_follow_allocator_witness :
  coupled_contract Both P2Mp false Cmce 5 6 one_circuit one_taken
    (allocate_circuit_with_allocator Both P2Mp false Cmce (one_circuit, one_taken)).
Proof.
  apply (circuits_follow_allocator one_circuit one_taken Both P2Mp false Cmce 9).
  - apply one_circuit_reach.
  - split; cbn; [done|apply NoDup_singleton|done|by repeat constructor].
  - intros c. vm_compute cc_dl. vm_compute cc_ul_only. rewrite app_nil_r. intros ->%list_elem_of_singleton.
    by vm_compute.
  - done.
Defined.

(** A tick never panics.  At timeslot 1 it closes exactly the simplex
    circuits older than six minutes, with their queues, and commands, in this
    order, a close for each of them and a D-SETUP for each remaining downlink
    circuit that is due; at other timeslots it only records the time. *)
Theorem cmce_tick_sweeps_expired s now : cc_reach s → tick_contract now s (cc_tick_start now s).
Proof. intros Hi%cc_reach_inv. by apply cc_tick_start_ok. Qed.

Lemma cmce_tick_sweeps_expired_witness :
  tick_commands (add_timeslots (mkTime 1 3 5 7) (7 * 60 * 18 * 4)) one_circuit ≠ [] ∧
  tick_contract (add_timeslots (mkTime 1 3 5 7) (7 * 60 * 18 * 4)) one_circuit
    (cc_tick_start (add_timeslots (mkTime 1 3 5 7) (7 * 60 * 18 * 4)) one_circuit).
Proof. split; [by vm_compute|]. apply (cmce_tick_sweeps_expired one_circuit), one_circuit_reach. Defined.

(** The D-SETUP of a circuit is repeated once every five multiframes: from a
    frame on, exactly one of 90 consecutive frames is due. *)
Theorem late_entry_once_per_interval c n : valid_time (ts_created c) →
  (4 ≤ n)%Z → (n + 4 * 90 ≤ TIME_INT_WRAP / 2)%Z →
  ∃ i, (0 ≤ i < 90)%Z ∧ ∀ j, (0 ≤ j < 90)%Z →
    (setup_due (circuit_age (add_timeslots (ts_created c) (n + 4 * j)) c) = true ↔ j = i).
Proof.
  intros Hv Hn Hmax. exists ((- (n / 4)) mod 90)%Z. split; [apply Z.mod_pos_bound; lia|]. intros j Hj.
  unfold circuit_age, age. rewrite diff_add by (done || (change TIME_INT_WRAP with 283115520%Z in *; lia)).
  cbn [default from_option id]. unfold setup_due, id. change (Z.quot LATE_ENTRY_INTERVAL_TIMESLOTS 4) with 90%Z.
  change (frames D_SETUP_REPEATS) with 4%Z. rewrite (proj2 (Z.ltb_ge _ _)) by lia. cbn [orb].
  pose proof (Z.div_pos (n + 4 * j) 4 ltac:(lia) ltac:(lia)).
  rewrite Z.quot_div_nonneg, Z.rem_mod_nonneg by lia.
  replace (n + 4 * j)%Z with (n + j * 4)%Z by lia. rewrite Z.div_add, Z.eqb_eq by lia.
  pose proof (Z.div_mod (n / 4 + j) 90 ltac:(lia)). pose proof (Z.mod_pos_bound (n / 4 + j) 90 ltac:(lia)).
  pose proof (Z.div_mod (- (n / 4)) 90 ltac:(lia)). pose proof (Z.mod_pos_bound (- (n / 4)) 90 ltac:(lia)).
  split; intros; nia.
Qed.
