(* ===== verification/CmceEnums.v ===== *)
(** Enumerations and shared fields of the CMCE PDUs
    ([tetra-pdus/src/cmce/enums], [fields]).

    Each enumeration has the conversions of the source; the instances say that a
    value written is read back and, where the code unwraps, that every bit
    pattern is a value. *)
From S2P Require Import Prelude Bits Core BitBuffer BitBufferSpec BitCodec BitBufferThms FieldCodec TypedFieldsSpec PduCodec UmacCircuitMgr CmceCircuitMgr.

Inductive CallStatus : Type :=
| CallStatus_Callproceeding
| CallStatus_Callqueued
| CallStatus_Requestedsubscriberpaged
| CallStatus_Callcontinue
| CallStatus_Hangtimeexpired.

Definition call_status_try_from (x : Z) : option CallStatus :=
  match x with
  | 0 => Some CallStatus_Callproceeding
  | 1 => Some CallStatus_Callqueued
  | 2 => Some CallStatus_Requestedsubscriberpaged
  | 3 => Some CallStatus_Callcontinue
  | 4 => Some CallStatus_Hangtimeexpired
  | _ => None
  end%Z.

Definition call_status_into_raw (e : CallStatus) : Z :=
  match e with
  | CallStatus_Callproceeding => 0
  | CallStatus_Callqueued => 1
  | CallStatus_Requestedsubscriberpaged => 2
  | CallStatus_Callcontinue => 3
  | CallStatus_Hangtimeexpired => 4
  end.

#[global] Instance call_status_raw : RawEnum 3 call_status_into_raw call_status_try_from.
Proof. raw_enum. Qed.

Inductive CallTimeout : Type :=
| CallTimeout_Infinite
| CallTimeout_T30s
| CallTimeout_T45s
| CallTimeout_T60s
| CallTimeout_T2m
| CallTimeout_T3m
| CallTimeout_T4m
| CallTimeout_T5m
| CallTimeout_T6m
| CallTimeout_T8m
| CallTimeout_T10m
| CallTimeout_T12m
| CallTimeout_T15m
| CallTimeout_T20m
| CallTimeout_T30m
| CallTimeout_Reserved.

Definition call_timeout_try_from (x : Z) : option CallTimeout :=
  match x with
  | 0 => Some CallTimeout_Infinite
  | 1 => Some CallTimeout_T30s
  | 2 => Some CallTimeout_T45s
  | 3 => Some CallTimeout_T60s
  | 4 => Some CallTimeout_T2m
  | 5 => Some CallTimeout_T3m
  | 6 => Some CallTimeout_T4m
  | 7 => Some CallTimeout_T5m
  | 8 => Some CallTimeout_T6m
  | 9 => Some CallTimeout_T8m
  | 10 => Some CallTimeout_T10m
  | 11 => Some CallTimeout_T12m
  | 12 => Some CallTimeout_T15m
  | 13 => Some CallTimeout_T20m
  | 14 => Some CallTimeout_T30m
  | 15 => Some CallTimeout_Reserved
  | _ => None
  end%Z.

Definition call_timeout_into_raw (e : CallTimeout) : Z :=
  match e with
  | CallTimeout_Infinite => 0
  | CallTimeout_T30s => 1
  | CallTimeout_T45s => 2
  | CallTimeout_T60s => 3
  | CallTimeout_T2m => 4
  | CallTimeout_T3m => 5
  | CallTimeout_T4m => 6
  | CallTimeout_T5m => 7
  | CallTimeout_T6m => 8
  | CallTimeout_T8m => 9
  | CallTimeout_T10m => 10
  | CallTimeout_T12m => 11
  | CallTimeout_T15m => 12
  | CallTimeout_T20m => 13
  | CallTimeout_T30m => 14
  | CallTimeout_Reserved => 15
  end.

#[global] Instance call_timeout_raw : RawEnum 4 call_timeout_into_raw call_timeout_try_from.
Proof. raw_enum. Qed.
#[global] Instance call_timeout_total : TotalEnum 4 call_timeout_try_from.
Proof. total_enum. Qed.

Inductive CallTimeoutSetupPhase : Type :=
| CallTimeoutSetupPhase_Predefined
| CallTimeoutSetupPhase_T1s
| CallTimeoutSetupPhase_T2s
| CallTimeoutSetupPhase_T5s
| CallTimeoutSetupPhase_T10s
| CallTimeoutSetupPhase_T20s
| CallTimeoutSetupPhase_T30s
| CallTimeoutSetupPhase_T60s.

Definition call_timeout_setup_phase_try_from (x : Z) : option CallTimeoutSetupPhase :=
  match x with
  | 0 => Some CallTimeoutSetupPhase_Predefined
  | 1 => Some CallTimeoutSetupPhase_T1s
  | 2 => Some CallTimeoutSetupPhase_T2s
  | 3 => Some CallTimeoutSetupPhase_T5s
  | 4 => Some CallTimeoutSetupPhase_T10s
  | 5 => Some CallTimeoutSetupPhase_T20s
  | 6 => Some CallTimeoutSetupPhase_T30s
  | 7 => Some CallTimeoutSetupPhase_T60s
  | _ => None
  end%Z.

Definition call_timeout_setup_phase_into_raw (e : CallTimeoutSetupPhase) : Z :=
  match e with
  | CallTimeoutSetupPhase_Predefined => 0
  | CallTimeoutSetupPhase_T1s => 1
  | CallTimeoutSetupPhase_T2s => 2
  | CallTimeoutSetupPhase_T5s => 3
  | CallTimeoutSetupPhase_T10s => 4
  | CallTimeoutSetupPhase_T20s => 5
  | CallTimeoutSetupPhase_T30s => 6
  | CallTimeoutSetupPhase_T60s => 7
  end.

#[global] Instance call_timeout_setup_phase_raw : RawEnum 3 call_timeout_setup_phase_into_raw call_timeout_setup_phase_try_from.
Proof. raw_enum. Qed.
#[global] Instance call_timeout_setup_phase_total : TotalEnum 3 call_timeout_setup_phase_try_from.
Proof. total_enum. Qed.

Inductive CmcePduTypeDl : Type :=
| CmcePduTypeDl_DAlert
| CmcePduTypeDl_DCallProceeding
| CmcePduTypeDl_DConnect
| CmcePduTypeDl_DConnectAcknowledge
| CmcePduTypeDl_DDisconnect
| CmcePduTypeDl_DInfo
| CmcePduTypeDl_DRelease
| CmcePduTypeDl_DSetup
| CmcePduTypeDl_DStatus
| CmcePduTypeDl_DTxCeased
| CmcePduTypeDl_DTxContinue
| CmcePduTypeDl_DTxGranted
| CmcePduTypeDl_DTxWait
| CmcePduTypeDl_DTxInterrupt
| CmcePduTypeDl_DCallRestore
| CmcePduTypeDl_DSdsData
| CmcePduTypeDl_DFacility
| CmcePduTypeDl_CmceFunctionNotSupported.

Definition cmce_pdu_type_dl_try_from (x : Z) : option CmcePduTypeDl :=
  match x with
  | 0 => Some CmcePduTypeDl_DAlert
  | 1 => Some CmcePduTypeDl_DCallProceeding
  | 2 => Some CmcePduTypeDl_DConnect
  | 3 => Some CmcePduTypeDl_DConnectAcknowledge
  | 4 => Some CmcePduTypeDl_DDisconnect
  | 5 => Some CmcePduTypeDl_DInfo
  | 6 => Some CmcePduTypeDl_DRelease
  | 7 => Some CmcePduTypeDl_DSetup
  | 8 => Some CmcePduTypeDl_DStatus
  | 9 => Some CmcePduTypeDl_DTxCeased
  | 10 => Some CmcePduTypeDl_DTxContinue
  | 11 => Some CmcePduTypeDl_DTxGranted
  | 12 => Some CmcePduTypeDl_DTxWait
  | 13 => Some CmcePduTypeDl_DTxInterrupt
  | 14 => Some CmcePduTypeDl_DCallRestore
  | 15 => Some CmcePduTypeDl_DSdsData
  | 16 => Some CmcePduTypeDl_DFacility
  | 31 => Some CmcePduTypeDl_CmceFunctionNotSupported
  | _ => None
  end%Z.

Definition cmce_pdu_type_dl_into_raw (e : CmcePduTypeDl) : Z :=
  match e with
  | CmcePduTypeDl_DAlert => 0
  | CmcePduTypeDl_DCallProceeding => 1
  | CmcePduTypeDl_DConnect => 2
  | CmcePduTypeDl_DConnectAcknowledge => 3
  | CmcePduTypeDl_DDisconnect => 4
  | CmcePduTypeDl_DInfo => 5
  | CmcePduTypeDl_DRelease => 6
  | CmcePduTypeDl_DSetup => 7
  | CmcePduTypeDl_DStatus => 8
  | CmcePduTypeDl_DTxCeased => 9
  | CmcePduTypeDl_DTxContinue => 10
  | CmcePduTypeDl_DTxGranted => 11
  | CmcePduTypeDl_DTxWait => 12
  | CmcePduTypeDl_DTxInterrupt => 13
  | CmcePduTypeDl_DCallRestore => 14
  | CmcePduTypeDl_DSdsData => 15
  | CmcePduTypeDl_DFacility => 16
  | CmcePduTypeDl_CmceFunctionNotSupported => 31
  end.

#[global] Instance cmce_pdu_type_dl_raw : RawEnum 5 cmce_pdu_type_dl_into_raw cmce_pdu_type_dl_try_from.
Proof. raw_enum. Qed.

Inductive CmcePduTypeUl : Type :=
| CmcePduTypeUl_UAlert
| CmcePduTypeUl_UConnect
| CmcePduTypeUl_UDisconnect
| CmcePduTypeUl_UInfo
| CmcePduTypeUl_URelease
| CmcePduTypeUl_USetup
| CmcePduTypeUl_UStatus
| CmcePduTypeUl_UTxCeased
| CmcePduTypeUl_UTxDemand
| CmcePduTypeUl_UCallRestore
| CmcePduTypeUl_USdsData
| CmcePduTypeUl_UFacility
| CmcePduTypeUl_CmceFunctionNotSupported.

Definition cmce_pdu_type_ul_try_from (x : Z) : option CmcePduTypeUl :=
  match wrap 8 x with
  | 0 => Some CmcePduTypeUl_UAlert
  | 2 => Some CmcePduTypeUl_UConnect
  | 4 => Some CmcePduTypeUl_UDisconnect
  | 5 => Some CmcePduTypeUl_UInfo
  | 6 => Some CmcePduTypeUl_URelease
  | 7 => Some CmcePduTypeUl_USetup
  | 8 => Some CmcePduTypeUl_UStatus
  | 9 => Some CmcePduTypeUl_UTxCeased
  | 10 => Some CmcePduTypeUl_UTxDemand
  | 14 => Some CmcePduTypeUl_UCallRestore
  | 15 => Some CmcePduTypeUl_USdsData
  | 16 => Some CmcePduTypeUl_UFacility
  | 31 => Some CmcePduTypeUl_CmceFunctionNotSupported
  | _ => None
  end%Z.

Definition cmce_pdu_type_ul_into_raw (e : CmcePduTypeUl) : Z :=
  match e with
  | CmcePduTypeUl_UAlert => 0
  | CmcePduTypeUl_UConnect => 2
  | CmcePduTypeUl_UDisconnect => 4
  | CmcePduTypeUl_UInfo => 5
  | CmcePduTypeUl_URelease => 6
  | CmcePduTypeUl_USetup => 7
  | CmcePduTypeUl_UStatus => 8
  | CmcePduTypeUl_UTxCeased => 9
  | CmcePduTypeUl_UTxDemand => 10
  | CmcePduTypeUl_UCallRestore => 14
  | CmcePduTypeUl_USdsData => 15
  | CmcePduTypeUl_UFacility => 16
  | CmcePduTypeUl_CmceFunctionNotSupported => 31
  end.

#[global] Instance cmce_pdu_type_ul_raw : RawEnum 5 cmce_pdu_type_ul_into_raw cmce_pdu_type_ul_try_from.
Proof. raw_enum. Qed.

Inductive DisconnectCause : Type :=
| DisconnectCause_CauseNotDefinedOrUnknown
| DisconnectCause_UserRequestedDisconnection
| DisconnectCause_CalledPartyBusy
| DisconnectCause_CalledPartyNotReachable
| DisconnectCause_CalledPartyDoesNotSupportEncryption
| DisconnectCause_CongestionInInfrastructure
| DisconnectCause_NotAllowedTrafficCase
| DisconnectCause_IncompatibleTrafficCase
| DisconnectCause_RequestedServiceNotAvailable
| DisconnectCause_PreEmptiveUseOfResource
| DisconnectCause_InvalidCallIdentifier
| DisconnectCause_CallRejectedByTheCalledParty
| DisconnectCause_NoIdleCcEntity
| DisconnectCause_ExpiryOfTimer
| DisconnectCause_SwmiRequestedDisconnection
| DisconnectCause_AcknowledgedServiceNotComplete
| DisconnectCause_UnknownTetraIdentity
| DisconnectCause_SsSpecificDisconnection
| DisconnectCause_UnknownExternalSubscriberIdentity
| DisconnectCause_CallRestorationOfTheOtherUserFailed
| DisconnectCause_CalledPartyRequiresEncryption
| DisconnectCause_ConcurrentSetUpNotSupported
| DisconnectCause_CalledPartyIsUnderTheSameDmGateOfTheCallingParty
| DisconnectCause_NonCallOwnerRequestedDisconnection.

Definition disconnect_cause_try_from (x : Z) : option DisconnectCause :=
  match x with
  | 0 => Some DisconnectCause_CauseNotDefinedOrUnknown
  | 1 => Some DisconnectCause_UserRequestedDisconnection
  | 2 => Some DisconnectCause_CalledPartyBusy
  | 3 => Some DisconnectCause_CalledPartyNotReachable
  | 4 => Some DisconnectCause_CalledPartyDoesNotSupportEncryption
  | 5 => Some DisconnectCause_CongestionInInfrastructure
  | 6 => Some DisconnectCause_NotAllowedTrafficCase
  | 7 => Some DisconnectCause_IncompatibleTrafficCase
  | 8 => Some DisconnectCause_RequestedServiceNotAvailable
  | 9 => Some DisconnectCause_PreEmptiveUseOfResource
  | 10 => Some DisconnectCause_InvalidCallIdentifier
  | 11 => Some DisconnectCause_CallRejectedByTheCalledParty
  | 12 => Some DisconnectCause_NoIdleCcEntity
  | 13 => Some DisconnectCause_ExpiryOfTimer
  | 14 => Some DisconnectCause_SwmiRequestedDisconnection
  | 15 => Some DisconnectCause_AcknowledgedServiceNotComplete
  | 16 => Some DisconnectCause_UnknownTetraIdentity
  | 17 => Some DisconnectCause_SsSpecificDisconnection
  | 18 => Some DisconnectCause_UnknownExternalSubscriberIdentity
  | 19 => Some DisconnectCause_CallRestorationOfTheOtherUserFailed
  | 20 => Some DisconnectCause_CalledPartyRequiresEncryption
  | 21 => Some DisconnectCause_ConcurrentSetUpNotSupported
  | 22 => Some DisconnectCause_CalledPartyIsUnderTheSameDmGateOfTheCallingParty
  | 23 => Some DisconnectCause_NonCallOwnerRequestedDisconnection
  | _ => None
  end%Z.

Definition disconnect_cause_into_raw (e : DisconnectCause) : Z :=
  match e with
  | DisconnectCause_CauseNotDefinedOrUnknown => 0
  | DisconnectCause_UserRequestedDisconnection => 1
  | DisconnectCause_CalledPartyBusy => 2
  | DisconnectCause_CalledPartyNotReachable => 3
  | DisconnectCause_CalledPartyDoesNotSupportEncryption => 4
  | DisconnectCause_CongestionInInfrastructure => 5
  | DisconnectCause_NotAllowedTrafficCase => 6
  | DisconnectCause_IncompatibleTrafficCase => 7
  | DisconnectCause_RequestedServiceNotAvailable => 8
  | DisconnectCause_PreEmptiveUseOfResource => 9
  | DisconnectCause_InvalidCallIdentifier => 10
  | DisconnectCause_CallRejectedByTheCalledParty => 11
  | DisconnectCause_NoIdleCcEntity => 12
  | DisconnectCause_ExpiryOfTimer => 13
  | DisconnectCause_SwmiRequestedDisconnection => 14
  | DisconnectCause_AcknowledgedServiceNotComplete => 15
  | DisconnectCause_UnknownTetraIdentity => 16
  | DisconnectCause_SsSpecificDisconnection => 17
  | DisconnectCause_UnknownExternalSubscriberIdentity => 18
  | DisconnectCause_CallRestorationOfTheOtherUserFailed => 19
  | DisconnectCause_CalledPartyRequiresEncryption => 20
  | DisconnectCause_ConcurrentSetUpNotSupported => 21
  | DisconnectCause_CalledPartyIsUnderTheSameDmGateOfTheCallingParty => 22
  | DisconnectCause_NonCallOwnerRequestedDisconnection => 23
  end.

#[global] Instance disconnect_cause_raw : RawEnum 5 disconnect_cause_into_raw disconnect_cause_try_from.
Proof. raw_enum. Qed.

Inductive PartyTypeIdentifier : Type :=
| PartyTypeIdentifier_Sna
| PartyTypeIdentifier_Ssi
| PartyTypeIdentifier_Tsi
| PartyTypeIdentifier_Reserved.

Definition party_type_identifier_try_from (x : Z) : option PartyTypeIdentifier :=
  match x with
  | 0 => Some PartyTypeIdentifier_Sna
  | 1 => Some PartyTypeIdentifier_Ssi
  | 2 => Some PartyTypeIdentifier_Tsi
  | 3 => Some PartyTypeIdentifier_Reserved
  | _ => None
  end%Z.

Definition party_type_identifier_into_raw (e : PartyTypeIdentifier) : Z :=
  match e with
  | PartyTypeIdentifier_Sna => 0
  | PartyTypeIdentifier_Ssi => 1
  | PartyTypeIdentifier_Tsi => 2
  | PartyTypeIdentifier_Reserved => 3
  end.

#[global] Instance party_type_identifier_raw : RawEnum 2 party_type_identifier_into_raw party_type_identifier_try_from.
Proof. raw_enum. Qed.
#[global] Instance party_type_identifier_total : TotalEnum 2 party_type_identifier_try_from.
Proof. total_enum. Qed.

Inductive TransmissionGrant : Type :=
| TransmissionGrant_Granted
| TransmissionGrant_NotGranted
| TransmissionGrant_RequestQueued
| TransmissionGrant_GrantedToOtherUser.

Definition transmission_grant_try_from (x : Z) : option TransmissionGrant :=
  match x with
  | 0 => Some TransmissionGrant_Granted
  | 1 => Some TransmissionGrant_NotGranted
  | 2 => Some TransmissionGrant_RequestQueued
  | 3 => Some TransmissionGrant_GrantedToOtherUser
  | _ => None
  end%Z.

Definition transmission_grant_into_raw (e : TransmissionGrant) : Z :=
  match e with
  | TransmissionGrant_Granted => 0
  | TransmissionGrant_NotGranted => 1
  | TransmissionGrant_RequestQueued => 2
  | TransmissionGrant_GrantedToOtherUser => 3
  end.

#[global] Instance transmission_grant_raw : RawEnum 2 transmission_grant_into_raw transmission_grant_try_from.
Proof. raw_enum. Qed.
#[global] Instance transmission_grant_total : TotalEnum 2 transmission_grant_try_from.
Proof. total_enum. Qed.

Inductive CmceType3ElemId : Type :=
| CmceType3ElemId_Dtmf
| CmceType3ElemId_ExtSubscriberNum
| CmceType3ElemId_Facility
| CmceType3ElemId_PollResponseAddr
| CmceType3ElemId_TempAddr
| CmceType3ElemId_DmMsAddr
| CmceType3ElemId_Proprietary.

Definition cmce_type3_elem_id_try_from (x : Z) : option CmceType3ElemId :=
  match x with
  | 1 => Some CmceType3ElemId_Dtmf
  | 2 => Some CmceType3ElemId_ExtSubscriberNum
  | 3 => Some CmceType3ElemId_Facility
  | 4 => Some CmceType3ElemId_PollResponseAddr
  | 5 => Some CmceType3ElemId_TempAddr
  | 6 => Some CmceType3ElemId_DmMsAddr
  | 15 => Some CmceType3ElemId_Proprietary
  | _ => None
  end%Z.

Definition cmce_type3_elem_id_into_raw (e : CmceType3ElemId) : Z :=
  match e with
  | CmceType3ElemId_Dtmf => 1
  | CmceType3ElemId_ExtSubscriberNum => 2
  | CmceType3ElemId_Facility => 3
  | CmceType3ElemId_PollResponseAddr => 4
  | CmceType3ElemId_TempAddr => 5
  | CmceType3ElemId_DmMsAddr => 6
  | CmceType3ElemId_Proprietary => 15
  end.

#[global] Instance cmce_type3_elem_id_raw : RawEnum 4 cmce_type3_elem_id_into_raw cmce_type3_elem_id_try_from.
Proof. raw_enum. Qed.

Inductive ShortReportType : Type :=
| ShortReportType_ProtOrEncodingNotSupported
| ShortReportType_DestMemFull
| ShortReportType_MessageReceived
| ShortReportType_MessageConsumed.

Definition short_report_type_try_from (x : Z) : option ShortReportType :=
  match x with
  | 0 => Some ShortReportType_ProtOrEncodingNotSupported
  | 1 => Some ShortReportType_DestMemFull
  | 2 => Some ShortReportType_MessageReceived
  | 3 => Some ShortReportType_MessageConsumed
  | _ => None
  end%Z.

Definition short_report_type_into_raw (e : ShortReportType) : Z :=
  match e with
  | ShortReportType_ProtOrEncodingNotSupported => 0
  | ShortReportType_DestMemFull => 1
  | ShortReportType_MessageReceived => 2
  | ShortReportType_MessageConsumed => 3
  end.

#[global] Instance short_report_type_raw : RawEnum 2 short_report_type_into_raw short_report_type_try_from.
Proof. raw_enum. Qed.
#[global] Instance short_report_type_total : TotalEnum 2 short_report_type_try_from.
Proof. total_enum. Qed.

(** * Basic service information *)

Definition comm_type_try_from (x : Z) : option CommunicationType :=
  match x with 0 => Some P2p | 1 => Some P2Mp | 2 => Some P2MpAcked | 3 => Some Broadcast | _ => None end%Z.
Definition comm_type_into_raw (e : CommunicationType) : Z :=
  match e with P2p => 0 | P2Mp => 1 | P2MpAcked => 2 | Broadcast => 3 end.

#[global] Instance circuit_mode_raw : RawEnum 3 circuit_mode_into_raw circuit_mode_try_from.
Proof. raw_enum. Qed.
#[global] Instance circuit_mode_total : TotalEnum 3 circuit_mode_try_from.
Proof. total_enum. Qed.
#[global] Instance comm_type_raw : RawEnum 2 comm_type_into_raw comm_type_try_from.
Proof. raw_enum. Qed.
#[global] Instance comm_type_total : TotalEnum 2 comm_type_try_from.
Proof. total_enum. Qed.

Record BasicServiceInformation : Type := mkBasicServiceInformation {
  bsi_circuit_mode_type : CircuitModeType;
  bsi_encryption_flag : bool;
  bsi_communication_type : CommunicationType;
  bsi_slots_per_frame : option Z;
  bsi_speech_service : option Z
}.

Definition is_tch_s (m : CircuitModeType) : bool := match m with TchS => true | _ => false end.

Definition basic_service_information_from_bitbuf : B BasicServiceInformation :=
  val ← read_field 3 "circuit_mode_type";
  circuit_mode_type ← unwrap (circuit_mode_try_from val);
  val ← read_field 1 "encryption_flag";
  let encryption_flag := negb (val =? 0)%Z in
  val ← read_field 2 "communication_type";
  communication_type ← unwrap (comm_type_try_from val);
  if is_tch_s circuit_mode_type then
    speech_service ← read_field 2 "speech_service";
    mret (mkBasicServiceInformation circuit_mode_type encryption_flag communication_type None
      (Some (wrap 8 speech_service)))
  else
    slots_per_frame ← read_field 2 "slots_per_frame";
    mret (mkBasicServiceInformation circuit_mode_type encryption_flag communication_type
      (Some (wrap 8 slots_per_frame)) None).

Definition basic_service_information_to_bitbuf (self : BasicServiceInformation) : B unit :=
  write_bits (circuit_mode_into_raw (bsi_circuit_mode_type self)) 3;;
  write_bits (Z.b2z (bsi_encryption_flag self)) 1;;
  write_bits (comm_type_into_raw (bsi_communication_type self)) 2;;
  match bsi_circuit_mode_type self, bsi_slots_per_frame self, bsi_speech_service self with
  | TchS, None, Some _ => mret tt
  | _, Some _, None => mret tt
  | m, _, _ => fail (InvalidValue "circuit_mode_type" (circuit_mode_into_raw m))
  end;;
  match bsi_slots_per_frame self with Some v => write_bits v 2 | None => mret tt end;;
  match bsi_speech_service self with Some v => write_bits v 2 | None => mret tt end.

(** * Pre-coded status *)

Record SdsShortReport : Type := mkSdsShortReport { short_report_type : ShortReportType; message_reference : Z }.

Definition sds_short_report_from_u16 (val : Z) : SdsShortReport + PduParseErr :=
  if decide (Z.shiftr val 10 = 31)%Z then
    let raw := Z.land (Z.shiftr val 8) 3 in
    match short_report_type_try_from raw with
    | Some t => inl (mkSdsShortReport t (Z.land val 255))
    | None => inr (InvalidValue "short_report_type" raw)
    end
  else inr (InvalidValue "pdu_type" (Z.shiftr val 10)).

Definition sds_short_report_to_u16 (self : SdsShortReport) : B Z :=
  assert_ (short_report_type_into_raw (short_report_type self) <=? 3)%Z;;
  mret (Z.lor (Z.lor (Z.shiftl 31 10) (Z.shiftl (wrap 16 (short_report_type_into_raw (short_report_type self))) 8))
    (Z.land (message_reference self) 255)).

Inductive PreCodedStatus : Type :=
| PreCodedStatus_Emergency
| PreCodedStatus_Reserved (x : Z)
| PreCodedStatus_SdsTl (r : SdsShortReport)
| PreCodedStatus_NetworkUserSpecific (x : Z).

Definition pre_coded_status_from (x : Z) : PreCodedStatus :=
  if (x =? 0)%Z then PreCodedStatus_Emergency
  else if (x <=? 31743)%Z then PreCodedStatus_Reserved x
  else if (x <=? 32767)%Z then
    match sds_short_report_from_u16 x with
    | inl report => PreCodedStatus_SdsTl report
    | inr _ => PreCodedStatus_Reserved x
    end
  else PreCodedStatus_NetworkUserSpecific x.

Definition pre_coded_status_into_raw (self : PreCodedStatus) : B Z :=
  match self with
  | PreCodedStatus_Emergency => mret 0%Z
  | PreCodedStatus_Reserved x => mret x
  | PreCodedStatus_SdsTl x => sds_short_report_to_u16 x
  | PreCodedStatus_NetworkUserSpecific x => mret x
  end.

(** * SDS user data *)

Inductive SdsUserData : Type :=
| Type1 (value : Z)
| Type2 (value : Z)
| Type3 (value : Z)
| Type4 (len_bits : Z) (data : list Z).

Definition type_identifier (self : SdsUserData) : Z :=
  match self with Type1 _ => 0 | Type2 _ => 1 | Type3 _ => 2 | Type4 _ _ => 3 end.

(** [match short_data_type_identifier { .. }] of both SDS data parsers. *)
Definition sds_user_data_from (short_data_type_identifier : Z) : B SdsUserData :=
  match short_data_type_identifier with
  | 0 => v ← read_field 16 "user_defined_data_1"; mret (Type1 (wrap 16 v))
  | 1 => v ← read_field 32 "user_defined_data_2"; mret (Type2 (wrap 32 v))
  | 2 => v ← read_field 64 "user_defined_data_3"; mret (Type3 v)
  | 3 =>
      len_bits ← read_field 11 "length_indicator";
      let len_bits := wrap 16 len_bits in
      let num_bytes := div_ceil (Z.to_nat len_bits) 8 in
      let data := replicate num_bytes 0%Z in
      o ← read_bits_into_slice (Z.to_nat len_bits) data;
      data ← ok_or o (BufferEnded (Some "user_defined_data_4"));
      mret (Type4 len_bits data)
  | _ => panic
  end%Z.

(** [for i in i..i+n { buffer.write_bits(data[i] as u64, 8) }]. *)
Fixpoint write_sds_bytes (n i : nat) (data : list Z) : B unit :=
  match n with
  | O => mret tt
  | S n => b ← unwrap (data !! i); write_bits b 8;; write_sds_bytes n (i + 1) data
  end.

(** [match &self.user_defined_data { .. }] of both SDS data writers. *)
Definition sds_user_data_to (d : SdsUserData) : B unit :=
  match d with
  | Type1 value => write_bits value 16
  | Type2 value => write_bits value 32
  | Type3 value => write_bits value 64
  | Type4 len_bits data =>
      if (2047 <? len_bits)%Z then fail (InvalidValue "sds_type4_length_bits" len_bits)
      else
        let used_bits := Z.to_nat len_bits `min` (length data * 8) in
        write_bits len_bits 11;;
        let full_bytes := used_bits / 8 in
        let remaining_bits := used_bits mod 8 in
        write_sds_bytes full_bytes 0 data;;
        if 0 <? remaining_bits then
          b ← unwrap (data !! full_bytes);
          write_bits (Z.shiftr b (Z.of_nat (8 - remaining_bits))) remaining_bits
        else mret tt
  end.
