(* ===== verification/CmcePdus.v ===== *)
(** The CMCE PDUs ([tetra-pdus/src/cmce/pdus]): for each its record, parser and
    writer, translated statement by statement. *)
From S2P Require Import Prelude Bits Core BitBuffer BitBufferSpec BitCodec BitBufferThms FieldCodec TypedFieldsSpec PduCodec UmacCircuitMgr CmceCircuitMgr CmceEnums.

(** ** CmceFunctionNotSupported *)

Record CmceFunctionNotSupported : Type := mkCmceFunctionNotSupported {
  cmce_function_not_supported_not_supported_pdu_type : Z;
  cmce_function_not_supported_call_identifier_present : bool;
  cmce_function_not_supported_call_identifier : option Z;
  cmce_function_not_supported_function_not_supported_pointer : Z;
  cmce_function_not_supported_length_of_received_pdu_extract : option Z;
  cmce_function_not_supported_received_pdu_extract : option Z
}.

Definition cmce_function_not_supported_from_bitbuf : B CmceFunctionNotSupported :=
  pdu_type ← read_field 5 "pdu_type";
  expect_pdu_type pdu_type (cmce_pdu_type_dl_into_raw CmcePduTypeDl_CmceFunctionNotSupported);;
  not_supported_pdu_type ← read_field 5 "not_supported_pdu_type";
  let not_supported_pdu_type := wrap 8 not_supported_pdu_type in
  call_identifier_present ← read_field 1 "call_identifier_present";
  let call_identifier_present := negb (call_identifier_present =? 0)%Z in
  call_identifier ← (if call_identifier_present then v ← read_field 14 "call_identifier"; mret (Some (v)) else mret
    None);
  function_not_supported_pointer ← read_field 8 "function_not_supported_pointer";
  let function_not_supported_pointer := wrap 8 function_not_supported_pointer in
  length_of_received_pdu_extract ← (if negb (function_not_supported_pointer =? 0)%Z then v ← read_field 8
    "length_of_received_pdu_extract"; mret (Some (v)) else mret None);
  received_pdu_extract ← (if negb (function_not_supported_pointer =? 0)%Z then panic else mret None);
  obit ← read_obit;
  finish obit (mkCmceFunctionNotSupported not_supported_pdu_type call_identifier_present call_identifier
    function_not_supported_pointer length_of_received_pdu_extract received_pdu_extract).

Definition cmce_function_not_supported_to_bitbuf (self : CmceFunctionNotSupported) : B unit :=
  write_bits (cmce_pdu_type_dl_into_raw CmcePduTypeDl_CmceFunctionNotSupported) 5;;
  write_bits (cmce_function_not_supported_not_supported_pdu_type self) 5;;
  write_bits (Z.b2z (cmce_function_not_supported_call_identifier_present self)) 1;;
  match cmce_function_not_supported_call_identifier self with Some value => write_bits value 14 | None => mret tt
    end;;
  write_bits (cmce_function_not_supported_function_not_supported_pointer self) 8;;
  match cmce_function_not_supported_length_of_received_pdu_extract self with Some value => write_bits value 8 |
    None => mret tt end;;
  match cmce_function_not_supported_received_pdu_extract self with Some _ => panic | None => mret tt end;;
  write_mbit 0.

(** ** DAlert *)

Record DAlert : Type := mkDAlert {
  d_alert_call_identifier : Z;
  d_alert_call_time_out_set_up_phase : Z;
  d_alert_reserved : bool;
  d_alert_simplex_duplex_selection : bool;
  d_alert_call_queued : bool;
  d_alert_basic_service_information : option BasicServiceInformation;
  d_alert_notification_indicator : option Z;
  d_alert_facility : option Type3FieldGeneric;
  d_alert_proprietary : option Type3FieldGeneric
}.

Definition d_alert_from_bitbuf : B DAlert :=
  pdu_type ← read_field 5 "pdu_type";
  expect_pdu_type pdu_type (cmce_pdu_type_dl_into_raw CmcePduTypeDl_DAlert);;
  call_identifier ← read_field 14 "call_identifier";
  let call_identifier := wrap 16 call_identifier in
  call_time_out_set_up_phase ← read_field 3 "call_time_out_set_up_phase";
  let call_time_out_set_up_phase := wrap 8 call_time_out_set_up_phase in
  reserved ← read_field 1 "reserved";
  let reserved := negb (reserved =? 0)%Z in
  simplex_duplex_selection ← read_field 1 "simplex_duplex_selection";
  let simplex_duplex_selection := negb (simplex_duplex_selection =? 0)%Z in
  call_queued ← read_field 1 "call_queued";
  let call_queued := negb (call_queued =? 0)%Z in
  obit ← read_obit;
  basic_service_information ← parse_type2_struct obit basic_service_information_from_bitbuf;
  notification_indicator ← parse_type2_generic obit 6 "notification_indicator";
  facility ← parse_type3_generic obit (cmce_type3_elem_id_into_raw CmceType3ElemId_Facility);
  proprietary ← parse_type3_generic obit (cmce_type3_elem_id_into_raw CmceType3ElemId_Proprietary);
  finish obit (mkDAlert call_identifier call_time_out_set_up_phase reserved simplex_duplex_selection call_queued
    basic_service_information notification_indicator facility proprietary).

Definition d_alert_to_bitbuf (self : DAlert) : B unit :=
  write_bits (cmce_pdu_type_dl_into_raw CmcePduTypeDl_DAlert) 5;;
  write_bits (d_alert_call_identifier self) 14;;
  write_bits (d_alert_call_time_out_set_up_phase self) 3;;
  write_bits (Z.b2z (d_alert_reserved self)) 1;;
  write_bits (Z.b2z (d_alert_simplex_duplex_selection self)) 1;;
  write_bits (Z.b2z (d_alert_call_queued self)) 1;;
  let obit := is_some (d_alert_basic_service_information self) || is_some (d_alert_notification_indicator self) ||
    is_some (d_alert_facility self) || is_some (d_alert_proprietary self) in
  write_obit (Z.b2z obit);;
  if negb obit then mret tt else
  write_type2_struct obit (d_alert_basic_service_information self) basic_service_information_to_bitbuf;;
  write_type2_generic obit (d_alert_notification_indicator self) 6;;
  write_type3_generic obit (d_alert_facility self) (cmce_type3_elem_id_into_raw CmceType3ElemId_Facility);;
  write_type3_generic obit (d_alert_proprietary self) (cmce_type3_elem_id_into_raw CmceType3ElemId_Proprietary);;
  write_mbit 0.

(** ** DCallProceeding *)

Record DCallProceeding : Type := mkDCallProceeding {
  d_call_proceeding_call_identifier : Z;
  d_call_proceeding_call_time_out_set_up_phase : CallTimeoutSetupPhase;
  d_call_proceeding_hook_method_selection : bool;
  d_call_proceeding_simplex_duplex_selection : bool;
  d_call_proceeding_basic_service_information : option BasicServiceInformation;
  d_call_proceeding_call_status : option CallStatus;
  d_call_proceeding_notification_indicator : option Z;
  d_call_proceeding_facility : option Type3FieldGeneric;
  d_call_proceeding_proprietary : option Type3FieldGeneric
}.

Definition d_call_proceeding_from_bitbuf : B DCallProceeding :=
  pdu_type ← read_field 5 "pdu_type";
  expect_pdu_type pdu_type (cmce_pdu_type_dl_into_raw CmcePduTypeDl_DCallProceeding);;
  call_identifier ← read_field 14 "call_identifier";
  let call_identifier := wrap 16 call_identifier in
  val ← read_field 3 "call_time_out_set_up_phase";
  call_time_out_set_up_phase ← unwrap (call_timeout_setup_phase_try_from val);
  hook_method_selection ← read_field 1 "hook_method_selection";
  let hook_method_selection := negb (hook_method_selection =? 0)%Z in
  simplex_duplex_selection ← read_field 1 "simplex_duplex_selection";
  let simplex_duplex_selection := negb (simplex_duplex_selection =? 0)%Z in
  obit ← read_obit;
  basic_service_information ← parse_type2_struct obit basic_service_information_from_bitbuf;
  val ← parse_type2_generic obit 3 "call_status";
  call_status ← match val with
      | None => mret None
      | Some val => e ← ok_or (call_status_try_from val) (InvalidValue "call_status" val); mret (Some e)
      end;
  notification_indicator ← parse_type2_generic obit 6 "notification_indicator";
  facility ← parse_type3_generic obit (cmce_type3_elem_id_into_raw CmceType3ElemId_Facility);
  proprietary ← parse_type3_generic obit (cmce_type3_elem_id_into_raw CmceType3ElemId_Proprietary);
  finish obit (mkDCallProceeding call_identifier call_time_out_set_up_phase hook_method_selection
    simplex_duplex_selection basic_service_information call_status notification_indicator facility proprietary).

Definition d_call_proceeding_to_bitbuf (self : DCallProceeding) : B unit :=
  write_bits (cmce_pdu_type_dl_into_raw CmcePduTypeDl_DCallProceeding) 5;;
  write_bits (d_call_proceeding_call_identifier self) 14;;
  write_bits (call_timeout_setup_phase_into_raw (d_call_proceeding_call_time_out_set_up_phase self)) 3;;
  write_bits (Z.b2z (d_call_proceeding_hook_method_selection self)) 1;;
  write_bits (Z.b2z (d_call_proceeding_simplex_duplex_selection self)) 1;;
  let obit := is_some (d_call_proceeding_basic_service_information self) || is_some (d_call_proceeding_call_status
    self) || is_some (d_call_proceeding_notification_indicator self) || is_some (d_call_proceeding_facility self)
    || is_some (d_call_proceeding_proprietary self) in
  write_obit (Z.b2z obit);;
  if negb obit then mret tt else
  write_type2_struct obit (d_call_proceeding_basic_service_information self) basic_service_information_to_bitbuf;;
  write_type2_generic obit (call_status_into_raw <$> d_call_proceeding_call_status self) 3;;
  write_type2_generic obit (d_call_proceeding_notification_indicator self) 6;;
  write_type3_generic obit (d_call_proceeding_facility self) (cmce_type3_elem_id_into_raw
    CmceType3ElemId_Facility);;
  write_type3_generic obit (d_call_proceeding_proprietary self) (cmce_type3_elem_id_into_raw
    CmceType3ElemId_Proprietary);;
  write_mbit 0.

(** ** DCallRestore *)

Record DCallRestore : Type := mkDCallRestore {
  d_call_restore_call_identifier : Z;
  d_call_restore_transmission_grant : Z;
  d_call_restore_transmission_request_permission : bool;
  d_call_restore_reset_call_time_out_timer_t310_ : bool;
  d_call_restore_new_call_identifier : option Z;
  d_call_restore_call_time_out : option Z;
  d_call_restore_call_status : option Z;
  d_call_restore_modify : option Z;
  d_call_restore_notification_indicator : option Z;
  d_call_restore_facility : option Type3FieldGeneric;
  d_call_restore_temporary_address : option Type3FieldGeneric;
  d_call_restore_dm_ms_address : option Type3FieldGeneric;
  d_call_restore_proprietary : option Type3FieldGeneric
}.

Definition d_call_restore_from_bitbuf : B DCallRestore :=
  pdu_type ← read_field 5 "pdu_type";
  expect_pdu_type pdu_type (cmce_pdu_type_dl_into_raw CmcePduTypeDl_DCallRestore);;
  call_identifier ← read_field 14 "call_identifier";
  let call_identifier := wrap 16 call_identifier in
  transmission_grant ← read_field 2 "transmission_grant";
  let transmission_grant := wrap 8 transmission_grant in
  transmission_request_permission ← read_field 1 "transmission_request_permission";
  let transmission_request_permission := negb (transmission_request_permission =? 0)%Z in
  reset_call_time_out_timer_t310_ ← read_field 1 "reset_call_time_out_timer_t310_";
  let reset_call_time_out_timer_t310_ := negb (reset_call_time_out_timer_t310_ =? 0)%Z in
  obit ← read_obit;
  new_call_identifier ← parse_type2_generic obit 14 "new_call_identifier";
  call_time_out ← parse_type2_generic obit 4 "call_time_out";
  call_status ← parse_type2_generic obit 3 "call_status";
  modify ← parse_type2_generic obit 9 "modify";
  notification_indicator ← parse_type2_generic obit 6 "notification_indicator";
  facility ← parse_type3_generic obit (cmce_type3_elem_id_into_raw CmceType3ElemId_Facility);
  temporary_address ← parse_type3_generic obit (cmce_type3_elem_id_into_raw CmceType3ElemId_TempAddr);
  dm_ms_address ← parse_type3_generic obit (cmce_type3_elem_id_into_raw CmceType3ElemId_DmMsAddr);
  proprietary ← parse_type3_generic obit (cmce_type3_elem_id_into_raw CmceType3ElemId_Proprietary);
  finish obit (mkDCallRestore call_identifier transmission_grant transmission_request_permission
    reset_call_time_out_timer_t310_ new_call_identifier call_time_out call_status modify notification_indicator
    facility temporary_address dm_ms_address proprietary).

Definition d_call_restore_to_bitbuf (self : DCallRestore) : B unit :=
  write_bits (cmce_pdu_type_dl_into_raw CmcePduTypeDl_DCallRestore) 5;;
  write_bits (d_call_restore_call_identifier self) 14;;
  write_bits (d_call_restore_transmission_grant self) 2;;
  write_bits (Z.b2z (d_call_restore_transmission_request_permission self)) 1;;
  write_bits (Z.b2z (d_call_restore_reset_call_time_out_timer_t310_ self)) 1;;
  let obit := is_some (d_call_restore_new_call_identifier self) || is_some (d_call_restore_call_time_out self) ||
    is_some (d_call_restore_call_status self) || is_some (d_call_restore_modify self) || is_some
    (d_call_restore_notification_indicator self) || is_some (d_call_restore_facility self) || is_some
    (d_call_restore_temporary_address self) || is_some (d_call_restore_dm_ms_address self) || is_some
    (d_call_restore_proprietary self) in
  write_obit (Z.b2z obit);;
  if negb obit then mret tt else
  write_type2_generic obit (d_call_restore_new_call_identifier self) 14;;
  write_type2_generic obit (d_call_restore_call_time_out self) 4;;
  write_type2_generic obit (d_call_restore_call_status self) 3;;
  write_type2_generic obit (d_call_restore_modify self) 9;;
  write_type2_generic obit (d_call_restore_notification_indicator self) 6;;
  write_type3_generic obit (d_call_restore_facility self) (cmce_type3_elem_id_into_raw CmceType3ElemId_Facility);;
  write_type3_generic obit (d_call_restore_temporary_address self) (cmce_type3_elem_id_into_raw
    CmceType3ElemId_TempAddr);;
  write_type3_generic obit (d_call_restore_dm_ms_address self) (cmce_type3_elem_id_into_raw
    CmceType3ElemId_DmMsAddr);;
  write_type3_generic obit (d_call_restore_proprietary self) (cmce_type3_elem_id_into_raw
    CmceType3ElemId_Proprietary);;
  write_mbit 0.

(** ** DConnect *)

Record DConnect : Type := mkDConnect {
  d_connect_call_identifier : Z;
  d_connect_call_time_out : CallTimeout;
  d_connect_hook_method_selection : bool;
  d_connect_simplex_duplex_selection : bool;
  d_connect_transmission_grant : TransmissionGrant;
  d_connect_transmission_request_permission : bool;
  d_connect_call_ownership : bool;
  d_connect_call_priority : option Z;
  d_connect_basic_service_information : option BasicServiceInformation;
  d_connect_temporary_address : option Z;
  d_connect_notification_indicator : option Z;
  d_connect_facility : option Type3FieldGeneric;
  d_connect_proprietary : option Type3FieldGeneric
}.

Definition d_connect_from_bitbuf : B DConnect :=
  pdu_type ← read_field 5 "pdu_type";
  expect_pdu_type pdu_type (cmce_pdu_type_dl_into_raw CmcePduTypeDl_DConnect);;
  call_identifier ← read_field 14 "call_identifier";
  let call_identifier := wrap 16 call_identifier in
  val ← read_field 4 "call_time_out";
  call_time_out ← unwrap (call_timeout_try_from val);
  hook_method_selection ← read_field 1 "hook_method_selection";
  let hook_method_selection := negb (hook_method_selection =? 0)%Z in
  simplex_duplex_selection ← read_field 1 "simplex_duplex_selection";
  let simplex_duplex_selection := negb (simplex_duplex_selection =? 0)%Z in
  val ← read_field 2 "transmission_grant";
  transmission_grant ← unwrap (transmission_grant_try_from val);
  transmission_request_permission ← read_field 1 "transmission_request_permission";
  let transmission_request_permission := negb (transmission_request_permission =? 0)%Z in
  call_ownership ← read_field 1 "call_ownership";
  let call_ownership := negb (call_ownership =? 0)%Z in
  obit ← read_obit;
  call_priority ← parse_type2_generic obit 4 "call_priority";
  basic_service_information ← parse_type2_struct obit basic_service_information_from_bitbuf;
  temporary_address ← parse_type2_generic obit 24 "temporary_address";
  notification_indicator ← parse_type2_generic obit 6 "notification_indicator";
  facility ← parse_type3_generic obit (cmce_type3_elem_id_into_raw CmceType3ElemId_Facility);
  proprietary ← parse_type3_generic obit (cmce_type3_elem_id_into_raw CmceType3ElemId_Proprietary);
  finish obit (mkDConnect call_identifier call_time_out hook_method_selection simplex_duplex_selection
    transmission_grant transmission_request_permission call_ownership call_priority basic_service_information
    temporary_address notification_indicator facility proprietary).

Definition d_connect_to_bitbuf (self : DConnect) : B unit :=
  write_bits (cmce_pdu_type_dl_into_raw CmcePduTypeDl_DConnect) 5;;
  write_bits (d_connect_call_identifier self) 14;;
  write_bits (call_timeout_into_raw (d_connect_call_time_out self)) 4;;
  write_bits (Z.b2z (d_connect_hook_method_selection self)) 1;;
  write_bits (Z.b2z (d_connect_simplex_duplex_selection self)) 1;;
  write_bits (transmission_grant_into_raw (d_connect_transmission_grant self)) 2;;
  write_bits (Z.b2z (d_connect_transmission_request_permission self)) 1;;
  write_bits (Z.b2z (d_connect_call_ownership self)) 1;;
  let obit := is_some (d_connect_call_priority self) || is_some (d_connect_basic_service_information self) ||
    is_some (d_connect_temporary_address self) || is_some (d_connect_notification_indicator self) || is_some
    (d_connect_facility self) || is_some (d_connect_proprietary self) in
  write_obit (Z.b2z obit);;
  if negb obit then mret tt else
  write_type2_generic obit (d_connect_call_priority self) 4;;
  write_type2_struct obit (d_connect_basic_service_information self) basic_service_information_to_bitbuf;;
  write_type2_generic obit (d_connect_temporary_address self) 24;;
  write_type2_generic obit (d_connect_notification_indicator self) 6;;
  write_type3_generic obit (d_connect_facility self) (cmce_type3_elem_id_into_raw CmceType3ElemId_Facility);;
  write_type3_generic obit (d_connect_proprietary self) (cmce_type3_elem_id_into_raw CmceType3ElemId_Proprietary);;
  write_mbit 0.

(** ** DConnectAcknowledge *)

Record DConnectAcknowledge : Type := mkDConnectAcknowledge {
  d_connect_acknowledge_call_identifier : Z;
  d_connect_acknowledge_call_time_out : Z;
  d_connect_acknowledge_transmission_grant : Z;
  d_connect_acknowledge_transmission_request_permission : bool;
  d_connect_acknowledge_notification_indicator : option Z;
  d_connect_acknowledge_facility : option Type3FieldGeneric;
  d_connect_acknowledge_proprietary : option Type3FieldGeneric
}.

Definition d_connect_acknowledge_from_bitbuf : B DConnectAcknowledge :=
  pdu_type ← read_field 5 "pdu_type";
  expect_pdu_type pdu_type (cmce_pdu_type_dl_into_raw CmcePduTypeDl_DConnectAcknowledge);;
  call_identifier ← read_field 14 "call_identifier";
  let call_identifier := wrap 16 call_identifier in
  call_time_out ← read_field 4 "call_time_out";
  let call_time_out := wrap 8 call_time_out in
  transmission_grant ← read_field 2 "transmission_grant";
  let transmission_grant := wrap 8 transmission_grant in
  transmission_request_permission ← read_field 1 "transmission_request_permission";
  let transmission_request_permission := negb (transmission_request_permission =? 0)%Z in
  obit ← read_obit;
  notification_indicator ← parse_type2_generic obit 6 "notification_indicator";
  facility ← parse_type3_generic obit (cmce_type3_elem_id_into_raw CmceType3ElemId_Facility);
  proprietary ← parse_type3_generic obit (cmce_type3_elem_id_into_raw CmceType3ElemId_Proprietary);
  finish obit (mkDConnectAcknowledge call_identifier call_time_out transmission_grant
    transmission_request_permission notification_indicator facility proprietary).

Definition d_connect_acknowledge_to_bitbuf (self : DConnectAcknowledge) : B unit :=
  write_bits (cmce_pdu_type_dl_into_raw CmcePduTypeDl_DConnectAcknowledge) 5;;
  write_bits (d_connect_acknowledge_call_identifier self) 14;;
  write_bits (d_connect_acknowledge_call_time_out self) 4;;
  write_bits (d_connect_acknowledge_transmission_grant self) 2;;
  write_bits (Z.b2z (d_connect_acknowledge_transmission_request_permission self)) 1;;
  let obit := is_some (d_connect_acknowledge_notification_indicator self) || is_some
    (d_connect_acknowledge_facility self) || is_some (d_connect_acknowledge_proprietary self) in
  write_obit (Z.b2z obit);;
  if negb obit then mret tt else
  write_type2_generic obit (d_connect_acknowledge_notification_indicator self) 6;;
  write_type3_generic obit (d_connect_acknowledge_facility self) (cmce_type3_elem_id_into_raw
    CmceType3ElemId_Facility);;
  write_type3_generic obit (d_connect_acknowledge_proprietary self) (cmce_type3_elem_id_into_raw
    CmceType3ElemId_Proprietary);;
  write_mbit 0.

(** ** DDisconnect *)

Record DDisconnect : Type := mkDDisconnect {
  d_disconnect_call_identifier : Z;
  d_disconnect_disconnect_cause : DisconnectCause;
  d_disconnect_notification_indicator : option Z;
  d_disconnect_facility : option Type3FieldGeneric;
  d_disconnect_proprietary : option Type3FieldGeneric
}.

Definition d_disconnect_from_bitbuf : B DDisconnect :=
  pdu_type ← read_field 5 "pdu_type";
  expect_pdu_type pdu_type (cmce_pdu_type_dl_into_raw CmcePduTypeDl_DDisconnect);;
  call_identifier ← read_field 14 "call_identifier";
  let call_identifier := wrap 16 call_identifier in
  val ← read_field 5 "disconnect_cause";
  disconnect_cause ← ok_or (disconnect_cause_try_from val) (InvalidValue "disconnect_cause" val);
  obit ← read_obit;
  notification_indicator ← parse_type2_generic obit 6 "notification_indicator";
  facility ← parse_type3_generic obit (cmce_type3_elem_id_into_raw CmceType3ElemId_Facility);
  proprietary ← parse_type3_generic obit (cmce_type3_elem_id_into_raw CmceType3ElemId_Proprietary);
  finish obit (mkDDisconnect call_identifier disconnect_cause notification_indicator facility proprietary).

Definition d_disconnect_to_bitbuf (self : DDisconnect) : B unit :=
  write_bits (cmce_pdu_type_dl_into_raw CmcePduTypeDl_DDisconnect) 5;;
  write_bits (d_disconnect_call_identifier self) 14;;
  write_bits (disconnect_cause_into_raw (d_disconnect_disconnect_cause self)) 5;;
  let obit := is_some (d_disconnect_notification_indicator self) || is_some (d_disconnect_facility self) || is_some
    (d_disconnect_proprietary self) in
  write_obit (Z.b2z obit);;
  if negb obit then mret tt else
  write_type2_generic obit (d_disconnect_notification_indicator self) 6;;
  write_type3_generic obit (d_disconnect_facility self) (cmce_type3_elem_id_into_raw CmceType3ElemId_Facility);;
  write_type3_generic obit (d_disconnect_proprietary self) (cmce_type3_elem_id_into_raw
    CmceType3ElemId_Proprietary);;
  write_mbit 0.

(** ** DInfo *)

Record DInfo : Type := mkDInfo {
  d_info_call_identifier : Z;
  d_info_reset_call_time_out_timer_t310_ : bool;
  d_info_poll_request : bool;
  d_info_new_call_identifier : option Z;
  d_info_call_time_out : option Z;
  d_info_call_time_out_set_up_phase_t301_t302_ : option Z;
  d_info_call_ownership : option Z;
  d_info_modify : option Z;
  d_info_call_status : option Z;
  d_info_temporary_address : option Z;
  d_info_notification_indicator : option Z;
  d_info_poll_response_percentage : option Z;
  d_info_poll_response_number : option Z;
  d_info_dtmf : option Type3FieldGeneric;
  d_info_facility : option Type3FieldGeneric;
  d_info_poll_response_addresses : option Type3FieldGeneric;
  d_info_proprietary : option Type3FieldGeneric
}.

Definition d_info_from_bitbuf : B DInfo :=
  pdu_type ← read_field 5 "pdu_type";
  expect_pdu_type pdu_type (cmce_pdu_type_dl_into_raw CmcePduTypeDl_DInfo);;
  call_identifier ← read_field 14 "call_identifier";
  let call_identifier := wrap 16 call_identifier in
  reset_call_time_out_timer_t310_ ← read_field 1 "reset_call_time_out_timer_t310_";
  let reset_call_time_out_timer_t310_ := negb (reset_call_time_out_timer_t310_ =? 0)%Z in
  poll_request ← read_field 1 "poll_request";
  let poll_request := negb (poll_request =? 0)%Z in
  obit ← read_obit;
  new_call_identifier ← parse_type2_generic obit 14 "new_call_identifier";
  call_time_out ← parse_type2_generic obit 4 "call_time_out";
  call_time_out_set_up_phase_t301_t302_ ← parse_type2_generic obit 3 "call_time_out_set_up_phase_t301_t302_";
  call_ownership ← parse_type2_generic obit 1 "call_ownership";
  modify ← parse_type2_generic obit 9 "modify";
  call_status ← parse_type2_generic obit 3 "call_status";
  temporary_address ← parse_type2_generic obit 24 "temporary_address";
  notification_indicator ← parse_type2_generic obit 6 "notification_indicator";
  poll_response_percentage ← parse_type2_generic obit 6 "poll_response_percentage";
  poll_response_number ← parse_type2_generic obit 6 "poll_response_number";
  dtmf ← parse_type3_generic obit (cmce_type3_elem_id_into_raw CmceType3ElemId_Dtmf);
  facility ← parse_type3_generic obit (cmce_type3_elem_id_into_raw CmceType3ElemId_Facility);
  poll_response_addresses ← parse_type3_generic obit (cmce_type3_elem_id_into_raw CmceType3ElemId_PollResponseAddr);
  proprietary ← parse_type3_generic obit (cmce_type3_elem_id_into_raw CmceType3ElemId_Proprietary);
  finish obit (mkDInfo call_identifier reset_call_time_out_timer_t310_ poll_request new_call_identifier
    call_time_out call_time_out_set_up_phase_t301_t302_ call_ownership modify call_status temporary_address
    notification_indicator poll_response_percentage poll_response_number dtmf facility poll_response_addresses
    proprietary).

Definition d_info_to_bitbuf (self : DInfo) : B unit :=
  write_bits (cmce_pdu_type_dl_into_raw CmcePduTypeDl_DInfo) 5;;
  write_bits (d_info_call_identifier self) 14;;
  write_bits (Z.b2z (d_info_reset_call_time_out_timer_t310_ self)) 1;;
  write_bits (Z.b2z (d_info_poll_request self)) 1;;
  let obit := is_some (d_info_new_call_identifier self) || is_some (d_info_call_time_out self) || is_some
    (d_info_call_time_out_set_up_phase_t301_t302_ self) || is_some (d_info_call_ownership self) || is_some
    (d_info_modify self) || is_some (d_info_call_status self) || is_some (d_info_temporary_address self) || is_some
    (d_info_notification_indicator self) || is_some (d_info_poll_response_percentage self) || is_some
    (d_info_poll_response_number self) || is_some (d_info_dtmf self) || is_some (d_info_facility self) || is_some
    (d_info_poll_response_addresses self) || is_some (d_info_proprietary self) in
  write_obit (Z.b2z obit);;
  if negb obit then mret tt else
  write_type2_generic obit (d_info_new_call_identifier self) 14;;
  write_type2_generic obit (d_info_call_time_out self) 4;;
  write_type2_generic obit (d_info_call_time_out_set_up_phase_t301_t302_ self) 3;;
  write_type2_generic obit (d_info_call_ownership self) 1;;
  write_type2_generic obit (d_info_modify self) 9;;
  write_type2_generic obit (d_info_call_status self) 3;;
  write_type2_generic obit (d_info_temporary_address self) 24;;
  write_type2_generic obit (d_info_notification_indicator self) 6;;
  write_type2_generic obit (d_info_poll_response_percentage self) 6;;
  write_type2_generic obit (d_info_poll_response_number self) 6;;
  write_type3_generic obit (d_info_dtmf self) (cmce_type3_elem_id_into_raw CmceType3ElemId_Dtmf);;
  write_type3_generic obit (d_info_facility self) (cmce_type3_elem_id_into_raw CmceType3ElemId_Facility);;
  write_type3_generic obit (d_info_poll_response_addresses self) (cmce_type3_elem_id_into_raw
    CmceType3ElemId_PollResponseAddr);;
  write_type3_generic obit (d_info_proprietary self) (cmce_type3_elem_id_into_raw CmceType3ElemId_Proprietary);;
  write_mbit 0.

(** ** DRelease *)

Record DRelease : Type := mkDRelease {
  d_release_call_identifier : Z;
  d_release_disconnect_cause : DisconnectCause;
  d_release_notification_indicator : option Z;
  d_release_facility : option Type3FieldGeneric;
  d_release_proprietary : option Type3FieldGeneric
}.

Definition d_release_from_bitbuf : B DRelease :=
  pdu_type ← read_field 5 "pdu_type";
  expect_pdu_type pdu_type (cmce_pdu_type_dl_into_raw CmcePduTypeDl_DRelease);;
  call_identifier ← read_field 14 "call_identifier";
  let call_identifier := wrap 16 call_identifier in
  val ← read_field 5 "disconnect_cause";
  disconnect_cause ← ok_or (disconnect_cause_try_from val) (InvalidValue "disconnect_cause" val);
  obit ← read_obit;
  notification_indicator ← parse_type2_generic obit 6 "notification_indicator";
  facility ← parse_type3_generic obit (cmce_type3_elem_id_into_raw CmceType3ElemId_Facility);
  proprietary ← parse_type3_generic obit (cmce_type3_elem_id_into_raw CmceType3ElemId_Proprietary);
  finish obit (mkDRelease call_identifier disconnect_cause notification_indicator facility proprietary).

Definition d_release_to_bitbuf (self : DRelease) : B unit :=
  write_bits (cmce_pdu_type_dl_into_raw CmcePduTypeDl_DRelease) 5;;
  write_bits (d_release_call_identifier self) 14;;
  write_bits (disconnect_cause_into_raw (d_release_disconnect_cause self)) 5;;
  let obit := is_some (d_release_notification_indicator self) || is_some (d_release_facility self) || is_some
    (d_release_proprietary self) in
  write_obit (Z.b2z obit);;
  if negb obit then mret tt else
  write_type2_generic obit (d_release_notification_indicator self) 6;;
  write_type3_generic obit (d_release_facility self) (cmce_type3_elem_id_into_raw CmceType3ElemId_Facility);;
  write_type3_generic obit (d_release_proprietary self) (cmce_type3_elem_id_into_raw CmceType3ElemId_Proprietary);;
  write_mbit 0.

(** ** DSdsData *)

Record DSdsData : Type := mkDSdsData {
  d_sds_data_calling_party_type_identifier : PartyTypeIdentifier;
  d_sds_data_calling_party_address_ssi : option Z;
  d_sds_data_calling_party_extension : option Z;
  d_sds_data_user_defined_data : SdsUserData;
  d_sds_data_external_subscriber_number : option Type3FieldGeneric;
  d_sds_data_dm_ms_address : option Type3FieldGeneric
}.

Definition d_sds_data_from_bitbuf : B DSdsData :=
  pdu_type ← read_field 5 "pdu_type";
  expect_pdu_type pdu_type (cmce_pdu_type_dl_into_raw CmcePduTypeDl_DSdsData);;
  cpti_raw ← read_field 2 "calling_party_type_identifier";
  calling_party_type_identifier ← ok_or (party_type_identifier_try_from cpti_raw) (InvalidValue
    "calling_party_type_identifier" cpti_raw);
  calling_party_address_ssi ← (if (party_type_identifier_into_raw calling_party_type_identifier =?
    party_type_identifier_into_raw PartyTypeIdentifier_Ssi)%Z || (party_type_identifier_into_raw
    calling_party_type_identifier =? party_type_identifier_into_raw PartyTypeIdentifier_Tsi)%Z then v ← read_field
    24 "calling_party_address_ssi"; mret (Some (v)) else mret None);
  calling_party_extension ← (if (party_type_identifier_into_raw calling_party_type_identifier =?
    party_type_identifier_into_raw PartyTypeIdentifier_Tsi)%Z then v ← read_field 24 "calling_party_extension";
    mret (Some (v)) else mret None);
  short_data_type_identifier ← read_field 2 "short_data_type_identifier";
  let short_data_type_identifier := wrap 8 short_data_type_identifier in
  user_defined_data ← sds_user_data_from short_data_type_identifier;
  obit ← read_obit;
  external_subscriber_number ← parse_type3_generic obit (cmce_type3_elem_id_into_raw
    CmceType3ElemId_ExtSubscriberNum);
  dm_ms_address ← parse_type3_generic obit (cmce_type3_elem_id_into_raw CmceType3ElemId_DmMsAddr);
  finish obit (mkDSdsData calling_party_type_identifier calling_party_address_ssi calling_party_extension
    user_defined_data external_subscriber_number dm_ms_address).

Definition d_sds_data_to_bitbuf (self : DSdsData) : B unit :=
  write_bits (cmce_pdu_type_dl_into_raw CmcePduTypeDl_DSdsData) 5;;
  write_bits (party_type_identifier_into_raw (d_sds_data_calling_party_type_identifier self)) 2;;
  match d_sds_data_calling_party_address_ssi self with Some value => write_bits value 24 | None => mret tt end;;
  match d_sds_data_calling_party_extension self with Some value => write_bits value 24 | None => mret tt end;;
  let short_data_type_identifier := type_identifier (d_sds_data_user_defined_data self) in
  write_bits short_data_type_identifier 2;;
  sds_user_data_to (d_sds_data_user_defined_data self);;
  let obit := is_some (d_sds_data_external_subscriber_number self) || is_some (d_sds_data_dm_ms_address self) in
  write_obit (Z.b2z obit);;
  if negb obit then mret tt else
  write_type3_generic obit (d_sds_data_external_subscriber_number self) (cmce_type3_elem_id_into_raw
    CmceType3ElemId_ExtSubscriberNum);;
  write_type3_generic obit (d_sds_data_dm_ms_address self) (cmce_type3_elem_id_into_raw CmceType3ElemId_DmMsAddr);;
  write_mbit 0.

(** ** DSetup *)

Record DSetup : Type := mkDSetup {
  d_setup_call_identifier : Z;
  d_setup_call_time_out : CallTimeout;
  d_setup_hook_method_selection : bool;
  d_setup_simplex_duplex_selection : bool;
  d_setup_basic_service_information : BasicServiceInformation;
  d_setup_transmission_grant : TransmissionGrant;
  d_setup_transmission_request_permission : bool;
  d_setup_call_priority : Z;
  d_setup_notification_indicator : option Z;
  d_setup_temporary_address : option Z;
  d_setup_calling_party_address_ssi : option Z;
  d_setup_calling_party_extension : option Z;
  d_setup_external_subscriber_number : option Type3FieldGeneric;
  d_setup_facility : option Type3FieldGeneric;
  d_setup_dm_ms_address : option Type3FieldGeneric;
  d_setup_proprietary : option Type3FieldGeneric
}.

Definition d_setup_from_bitbuf : B DSetup :=
  pdu_type ← read_field 5 "pdu_type";
  expect_pdu_type pdu_type (cmce_pdu_type_dl_into_raw CmcePduTypeDl_DSetup);;
  call_identifier ← read_field 14 "call_identifier";
  let call_identifier := wrap 16 call_identifier in
  val ← read_field 4 "call_time_out";
  call_time_out ← unwrap (call_timeout_try_from val);
  hook_method_selection ← read_field 1 "hook_method_selection";
  let hook_method_selection := negb (hook_method_selection =? 0)%Z in
  simplex_duplex_selection ← read_field 1 "simplex_duplex_selection";
  let simplex_duplex_selection := negb (simplex_duplex_selection =? 0)%Z in
  basic_service_information ← basic_service_information_from_bitbuf;
  val ← read_field 2 "transmission_grant";
  transmission_grant ← unwrap (transmission_grant_try_from val);
  transmission_request_permission ← read_field 1 "transmission_request_permission";
  let transmission_request_permission := negb (transmission_request_permission =? 0)%Z in
  call_priority ← read_field 4 "call_priority";
  let call_priority := wrap 8 call_priority in
  obit ← read_obit;
  notification_indicator ← parse_type2_generic obit 6 "notification_indicator";
  temporary_address ← parse_type2_generic obit 24 "temporary_address";
  calling_party_type_identifier ← parse_type2_generic obit 2 "calling_party_type_identifier";
  calling_party_address_ssi ← (if obit && bool_decide (calling_party_type_identifier = Some 1%Z) || bool_decide
    (calling_party_type_identifier = Some 2%Z) then v ← read_field 24 "calling_party_address_ssi"; mret (Some (wrap
    32 v)) else mret None);
  calling_party_extension ← (if obit && bool_decide (calling_party_type_identifier = Some 2%Z) then v ← read_field
    24 "calling_party_extension"; mret (Some (wrap 32 v)) else mret None);
  external_subscriber_number ← parse_type3_generic obit (cmce_type3_elem_id_into_raw
    CmceType3ElemId_ExtSubscriberNum);
  facility ← parse_type3_generic obit (cmce_type3_elem_id_into_raw CmceType3ElemId_Facility);
  dm_ms_address ← parse_type3_generic obit (cmce_type3_elem_id_into_raw CmceType3ElemId_DmMsAddr);
  proprietary ← parse_type3_generic obit (cmce_type3_elem_id_into_raw CmceType3ElemId_Proprietary);
  finish obit (mkDSetup call_identifier call_time_out hook_method_selection simplex_duplex_selection
    basic_service_information transmission_grant transmission_request_permission call_priority
    notification_indicator temporary_address calling_party_address_ssi calling_party_extension
    external_subscriber_number facility dm_ms_address proprietary).

Definition d_setup_to_bitbuf (self : DSetup) : B unit :=
  write_bits (cmce_pdu_type_dl_into_raw CmcePduTypeDl_DSetup) 5;;
  write_bits (d_setup_call_identifier self) 14;;
  write_bits (call_timeout_into_raw (d_setup_call_time_out self)) 4;;
  write_bits (Z.b2z (d_setup_hook_method_selection self)) 1;;
  write_bits (Z.b2z (d_setup_simplex_duplex_selection self)) 1;;
  basic_service_information_to_bitbuf (d_setup_basic_service_information self);;
  write_bits (transmission_grant_into_raw (d_setup_transmission_grant self)) 2;;
  write_bits (Z.b2z (d_setup_transmission_request_permission self)) 1;;
  write_bits (d_setup_call_priority self) 4;;
  let obit := is_some (d_setup_notification_indicator self) || is_some (d_setup_temporary_address self) || is_some
    (d_setup_calling_party_address_ssi self) || is_some (d_setup_calling_party_extension self) || is_some
    (d_setup_external_subscriber_number self) || is_some (d_setup_facility self) || is_some (d_setup_dm_ms_address
    self) || is_some (d_setup_proprietary self) in
  write_obit (Z.b2z obit);;
  if negb obit then mret tt else
  write_type2_generic obit (d_setup_notification_indicator self) 6;;
  write_type2_generic obit (d_setup_temporary_address self) 24;;
  calling_party_type_identifier ← match d_setup_calling_party_address_ssi self, d_setup_calling_party_extension
    self with
      | None, None => mret None
      | Some _, None => mret (Some 1%Z)
      | Some _, Some _ => mret (Some 2%Z)
      | _, _ => fail (InvalidValue "calling_party_type_identifier" 0)
      end;
  write_type2_generic obit calling_party_type_identifier 2;;
  match d_setup_calling_party_address_ssi self with Some value => write_bits value 24 | None => mret tt end;;
  match d_setup_calling_party_extension self with Some value => write_bits value 24 | None => mret tt end;;
  write_type3_generic obit (d_setup_external_subscriber_number self) (cmce_type3_elem_id_into_raw
    CmceType3ElemId_ExtSubscriberNum);;
  write_type3_generic obit (d_setup_facility self) (cmce_type3_elem_id_into_raw CmceType3ElemId_Facility);;
  write_type3_generic obit (d_setup_dm_ms_address self) (cmce_type3_elem_id_into_raw CmceType3ElemId_DmMsAddr);;
  write_type3_generic obit (d_setup_proprietary self) (cmce_type3_elem_id_into_raw CmceType3ElemId_Proprietary);;
  write_mbit 0.

(** ** DStatus *)

Record DStatus : Type := mkDStatus {
  d_status_calling_party_type_identifier : PartyTypeIdentifier;
  d_status_calling_party_address_ssi : option Z;
  d_status_calling_party_extension : option Z;
  d_status_pre_coded_status : PreCodedStatus;
  d_status_external_subscriber_number : option Type3FieldGeneric;
  d_status_dm_ms_address : option Type3FieldGeneric
}.

Definition d_status_from_bitbuf : B DStatus :=
  pdu_type ← read_field 5 "pdu_type";
  expect_pdu_type pdu_type (cmce_pdu_type_dl_into_raw CmcePduTypeDl_DStatus);;
  cpti_raw ← read_field 2 "calling_party_type_identifier";
  calling_party_type_identifier ← ok_or (party_type_identifier_try_from cpti_raw) (InvalidValue
    "calling_party_type_identifier" cpti_raw);
  calling_party_address_ssi ← (if (party_type_identifier_into_raw calling_party_type_identifier =?
    party_type_identifier_into_raw PartyTypeIdentifier_Ssi)%Z || (party_type_identifier_into_raw
    calling_party_type_identifier =? party_type_identifier_into_raw PartyTypeIdentifier_Tsi)%Z then v ← read_field
    24 "calling_party_address_ssi"; mret (Some (v)) else mret None);
  calling_party_extension ← (if (party_type_identifier_into_raw calling_party_type_identifier =?
    party_type_identifier_into_raw PartyTypeIdentifier_Tsi)%Z then v ← read_field 24 "calling_party_extension";
    mret (Some (v)) else mret None);
  val ← read_field 16 "pre_coded_status";
  let val := wrap 16 val in
  let pre_coded_status := pre_coded_status_from val in
  obit ← read_obit;
  external_subscriber_number ← parse_type3_generic obit (cmce_type3_elem_id_into_raw
    CmceType3ElemId_ExtSubscriberNum);
  dm_ms_address ← parse_type3_generic obit (cmce_type3_elem_id_into_raw CmceType3ElemId_DmMsAddr);
  finish obit (mkDStatus calling_party_type_identifier calling_party_address_ssi calling_party_extension
    pre_coded_status external_subscriber_number dm_ms_address).

Definition d_status_to_bitbuf (self : DStatus) : B unit :=
  write_bits (cmce_pdu_type_dl_into_raw CmcePduTypeDl_DStatus) 5;;
  write_bits (party_type_identifier_into_raw (d_status_calling_party_type_identifier self)) 2;;
  match d_status_calling_party_address_ssi self with Some value => write_bits value 24 | None => mret tt end;;
  match d_status_calling_party_extension self with Some value => write_bits value 24 | None => mret tt end;;
  raw ← pre_coded_status_into_raw (d_status_pre_coded_status self);
  write_bits raw 16;;
  let obit := is_some (d_status_external_subscriber_number self) || is_some (d_status_dm_ms_address self) in
  write_obit (Z.b2z obit);;
  if negb obit then mret tt else
  write_type3_generic obit (d_status_external_subscriber_number self) (cmce_type3_elem_id_into_raw
    CmceType3ElemId_ExtSubscriberNum);;
  write_type3_generic obit (d_status_dm_ms_address self) (cmce_type3_elem_id_into_raw CmceType3ElemId_DmMsAddr);;
  write_mbit 0.

(** ** DTxCeased *)

Record DTxCeased : Type := mkDTxCeased {
  d_tx_ceased_call_identifier : Z;
  d_tx_ceased_transmission_request_permission : bool;
  d_tx_ceased_notification_indicator : option Z;
  d_tx_ceased_facility : option Type3FieldGeneric;
  d_tx_ceased_dm_ms_address : option Type3FieldGeneric;
  d_tx_ceased_proprietary : option Type3FieldGeneric
}.

Definition d_tx_ceased_from_bitbuf : B DTxCeased :=
  pdu_type ← read_field 5 "pdu_type";
  expect_pdu_type pdu_type (cmce_pdu_type_dl_into_raw CmcePduTypeDl_DTxCeased);;
  call_identifier ← read_field 14 "call_identifier";
  let call_identifier := wrap 16 call_identifier in
  transmission_request_permission ← read_field 1 "transmission_request_permission";
  let transmission_request_permission := negb (transmission_request_permission =? 0)%Z in
  obit ← read_obit;
  notification_indicator ← parse_type2_generic obit 6 "notification_indicator";
  facility ← parse_type3_generic obit (cmce_type3_elem_id_into_raw CmceType3ElemId_Facility);
  dm_ms_address ← parse_type3_generic obit (cmce_type3_elem_id_into_raw CmceType3ElemId_DmMsAddr);
  proprietary ← parse_type3_generic obit (cmce_type3_elem_id_into_raw CmceType3ElemId_Proprietary);
  finish obit (mkDTxCeased call_identifier transmission_request_permission notification_indicator facility
    dm_ms_address proprietary).

Definition d_tx_ceased_to_bitbuf (self : DTxCeased) : B unit :=
  write_bits (cmce_pdu_type_dl_into_raw CmcePduTypeDl_DTxCeased) 5;;
  write_bits (d_tx_ceased_call_identifier self) 14;;
  write_bits (Z.b2z (d_tx_ceased_transmission_request_permission self)) 1;;
  let obit := is_some (d_tx_ceased_notification_indicator self) || is_some (d_tx_ceased_facility self) || is_some
    (d_tx_ceased_dm_ms_address self) || is_some (d_tx_ceased_proprietary self) in
  write_obit (Z.b2z obit);;
  if negb obit then mret tt else
  write_type2_generic obit (d_tx_ceased_notification_indicator self) 6;;
  write_type3_generic obit (d_tx_ceased_facility self) (cmce_type3_elem_id_into_raw CmceType3ElemId_Facility);;
  write_type3_generic obit (d_tx_ceased_dm_ms_address self) (cmce_type3_elem_id_into_raw CmceType3ElemId_DmMsAddr);;
  write_type3_generic obit (d_tx_ceased_proprietary self) (cmce_type3_elem_id_into_raw
    CmceType3ElemId_Proprietary);;
  write_mbit 0.

(** ** DTxContinue *)

Record DTxContinue : Type := mkDTxContinue {
  d_tx_continue_call_identifier : Z;
  d_tx_continue_do_continue : bool;
  d_tx_continue_transmission_request_permission : bool;
  d_tx_continue_notification_indicator : option Z;
  d_tx_continue_facility : option Type3FieldGeneric;
  d_tx_continue_dm_ms_address : option Type3FieldGeneric;
  d_tx_continue_proprietary : option Type3FieldGeneric
}.

Definition d_tx_continue_from_bitbuf : B DTxContinue :=
  pdu_type ← read_field 5 "pdu_type";
  expect_pdu_type pdu_type (cmce_pdu_type_dl_into_raw CmcePduTypeDl_DTxContinue);;
  call_identifier ← read_field 14 "call_identifier";
  let call_identifier := wrap 16 call_identifier in
  do_continue ← read_field 1 "do_continue";
  let do_continue := negb (do_continue =? 0)%Z in
  transmission_request_permission ← read_field 1 "transmission_request_permission";
  let transmission_request_permission := negb (transmission_request_permission =? 0)%Z in
  obit ← read_obit;
  notification_indicator ← parse_type2_generic obit 6 "notification_indicator";
  facility ← parse_type3_generic obit (cmce_type3_elem_id_into_raw CmceType3ElemId_Facility);
  dm_ms_address ← parse_type3_generic obit (cmce_type3_elem_id_into_raw CmceType3ElemId_DmMsAddr);
  proprietary ← parse_type3_generic obit (cmce_type3_elem_id_into_raw CmceType3ElemId_Proprietary);
  finish obit (mkDTxContinue call_identifier do_continue transmission_request_permission notification_indicator
    facility dm_ms_address proprietary).

Definition d_tx_continue_to_bitbuf (self : DTxContinue) : B unit :=
  write_bits (cmce_pdu_type_dl_into_raw CmcePduTypeDl_DTxContinue) 5;;
  write_bits (d_tx_continue_call_identifier self) 14;;
  write_bits (Z.b2z (d_tx_continue_do_continue self)) 1;;
  write_bits (Z.b2z (d_tx_continue_transmission_request_permission self)) 1;;
  let obit := is_some (d_tx_continue_notification_indicator self) || is_some (d_tx_continue_facility self) ||
    is_some (d_tx_continue_dm_ms_address self) || is_some (d_tx_continue_proprietary self) in
  write_obit (Z.b2z obit);;
  if negb obit then mret tt else
  write_type2_generic obit (d_tx_continue_notification_indicator self) 6;;
  write_type3_generic obit (d_tx_continue_facility self) (cmce_type3_elem_id_into_raw CmceType3ElemId_Facility);;
  write_type3_generic obit (d_tx_continue_dm_ms_address self) (cmce_type3_elem_id_into_raw
    CmceType3ElemId_DmMsAddr);;
  write_type3_generic obit (d_tx_continue_proprietary self) (cmce_type3_elem_id_into_raw
    CmceType3ElemId_Proprietary);;
  write_mbit 0.

(** ** DTxGranted *)

Record DTxGranted : Type := mkDTxGranted {
  d_tx_granted_call_identifier : Z;
  d_tx_granted_transmission_grant : Z;
  d_tx_granted_transmission_request_permission : bool;
  d_tx_granted_encryption_control : bool;
  d_tx_granted_reserved : bool;
  d_tx_granted_notification_indicator : option Z;
  d_tx_granted_transmitting_party_type_identifier : option Z;
  d_tx_granted_transmitting_party_address_ssi : option Z;
  d_tx_granted_transmitting_party_extension : option Z;
  d_tx_granted_external_subscriber_number : option Type3FieldGeneric;
  d_tx_granted_facility : option Type3FieldGeneric;
  d_tx_granted_dm_ms_address : option Type3FieldGeneric;
  d_tx_granted_proprietary : option Type3FieldGeneric
}.

Definition d_tx_granted_from_bitbuf : B DTxGranted :=
  pdu_type ← read_field 5 "pdu_type";
  expect_pdu_type pdu_type (cmce_pdu_type_dl_into_raw CmcePduTypeDl_DTxGranted);;
  call_identifier ← read_field 14 "call_identifier";
  let call_identifier := wrap 16 call_identifier in
  transmission_grant ← read_field 2 "transmission_grant";
  let transmission_grant := wrap 8 transmission_grant in
  transmission_request_permission ← read_field 1 "transmission_request_permission";
  let transmission_request_permission := negb (transmission_request_permission =? 0)%Z in
  encryption_control ← read_field 1 "encryption_control";
  let encryption_control := negb (encryption_control =? 0)%Z in
  reserved ← read_field 1 "reserved";
  let reserved := negb (reserved =? 0)%Z in
  obit ← read_obit;
  notification_indicator ← parse_type2_generic obit 6 "notification_indicator";
  transmitting_party_type_identifier ← parse_type2_generic obit 2 "transmitting_party_type_identifier";
  transmitting_party_address_ssi ← (if obit && bool_decide (transmitting_party_type_identifier = Some 1%Z) ||
    bool_decide (transmitting_party_type_identifier = Some 2%Z) then v ← read_field 24
    "transmitting_party_address_ssi"; mret (Some (v)) else mret None);
  transmitting_party_extension ← (if obit && bool_decide (transmitting_party_type_identifier = Some 2%Z) then v ←
    read_field 24 "transmitting_party_extension"; mret (Some (v)) else mret None);
  external_subscriber_number ← parse_type3_generic obit (cmce_type3_elem_id_into_raw
    CmceType3ElemId_ExtSubscriberNum);
  facility ← parse_type3_generic obit (cmce_type3_elem_id_into_raw CmceType3ElemId_Facility);
  dm_ms_address ← parse_type3_generic obit (cmce_type3_elem_id_into_raw CmceType3ElemId_DmMsAddr);
  proprietary ← parse_type3_generic obit (cmce_type3_elem_id_into_raw CmceType3ElemId_Proprietary);
  finish obit (mkDTxGranted call_identifier transmission_grant transmission_request_permission encryption_control
    reserved notification_indicator transmitting_party_type_identifier transmitting_party_address_ssi
    transmitting_party_extension external_subscriber_number facility dm_ms_address proprietary).

Definition d_tx_granted_to_bitbuf (self : DTxGranted) : B unit :=
  write_bits (cmce_pdu_type_dl_into_raw CmcePduTypeDl_DTxGranted) 5;;
  write_bits (d_tx_granted_call_identifier self) 14;;
  write_bits (d_tx_granted_transmission_grant self) 2;;
  write_bits (Z.b2z (d_tx_granted_transmission_request_permission self)) 1;;
  write_bits (Z.b2z (d_tx_granted_encryption_control self)) 1;;
  write_bits (Z.b2z (d_tx_granted_reserved self)) 1;;
  let obit := is_some (d_tx_granted_notification_indicator self) || is_some
    (d_tx_granted_transmitting_party_type_identifier self) || is_some (d_tx_granted_external_subscriber_number
    self) || is_some (d_tx_granted_facility self) || is_some (d_tx_granted_dm_ms_address self) || is_some
    (d_tx_granted_proprietary self) in
  write_obit (Z.b2z obit);;
  if negb obit then mret tt else
  write_type2_generic obit (d_tx_granted_notification_indicator self) 6;;
  write_type2_generic obit (d_tx_granted_transmitting_party_type_identifier self) 2;;
  match d_tx_granted_transmitting_party_address_ssi self with Some value => write_bits value 24 | None => mret tt
    end;;
  match d_tx_granted_transmitting_party_extension self with Some value => write_bits value 24 | None => mret tt
    end;;
  write_type3_generic obit (d_tx_granted_external_subscriber_number self) (cmce_type3_elem_id_into_raw
    CmceType3ElemId_ExtSubscriberNum);;
  write_type3_generic obit (d_tx_granted_facility self) (cmce_type3_elem_id_into_raw CmceType3ElemId_Facility);;
  write_type3_generic obit (d_tx_granted_dm_ms_address self) (cmce_type3_elem_id_into_raw
    CmceType3ElemId_DmMsAddr);;
  write_type3_generic obit (d_tx_granted_proprietary self) (cmce_type3_elem_id_into_raw
    CmceType3ElemId_Proprietary);;
  write_mbit 0.

(** ** DTxInterrupt *)

Record DTxInterrupt : Type := mkDTxInterrupt {
  d_tx_interrupt_call_identifier : Z;
  d_tx_interrupt_transmission_grant : Z;
  d_tx_interrupt_transmission_request_permission : bool;
  d_tx_interrupt_encryption_control : bool;
  d_tx_interrupt_reserved : bool;
  d_tx_interrupt_notification_indicator : option Z;
  d_tx_interrupt_transmitting_party_type_identifier : option Z;
  d_tx_interrupt_transmitting_party_address_ssi : option Z;
  d_tx_interrupt_transmitting_party_extension : option Z;
  d_tx_interrupt_external_subscriber_number : option Type3FieldGeneric;
  d_tx_interrupt_facility : option Type3FieldGeneric;
  d_tx_interrupt_dm_ms_address : option Type3FieldGeneric;
  d_tx_interrupt_proprietary : option Type3FieldGeneric
}.

Definition d_tx_interrupt_from_bitbuf : B DTxInterrupt :=
  pdu_type ← read_field 5 "pdu_type";
  expect_pdu_type pdu_type (cmce_pdu_type_dl_into_raw CmcePduTypeDl_DTxInterrupt);;
  call_identifier ← read_field 14 "call_identifier";
  let call_identifier := wrap 16 call_identifier in
  transmission_grant ← read_field 2 "transmission_grant";
  let transmission_grant := wrap 8 transmission_grant in
  transmission_request_permission ← read_field 1 "transmission_request_permission";
  let transmission_request_permission := negb (transmission_request_permission =? 0)%Z in
  encryption_control ← read_field 1 "encryption_control";
  let encryption_control := negb (encryption_control =? 0)%Z in
  reserved ← read_field 1 "reserved";
  let reserved := negb (reserved =? 0)%Z in
  obit ← read_obit;
  notification_indicator ← parse_type2_generic obit 6 "notification_indicator";
  transmitting_party_type_identifier ← parse_type2_generic obit 2 "transmitting_party_type_identifier";
  transmitting_party_address_ssi ← parse_type2_generic obit 24 "transmitting_party_address_ssi";
  transmitting_party_extension ← parse_type2_generic obit 24 "transmitting_party_extension";
  external_subscriber_number ← parse_type3_generic obit (cmce_type3_elem_id_into_raw
    CmceType3ElemId_ExtSubscriberNum);
  facility ← parse_type3_generic obit (cmce_type3_elem_id_into_raw CmceType3ElemId_Facility);
  dm_ms_address ← parse_type3_generic obit (cmce_type3_elem_id_into_raw CmceType3ElemId_DmMsAddr);
  proprietary ← parse_type3_generic obit (cmce_type3_elem_id_into_raw CmceType3ElemId_Proprietary);
  finish obit (mkDTxInterrupt call_identifier transmission_grant transmission_request_permission encryption_control
    reserved notification_indicator transmitting_party_type_identifier transmitting_party_address_ssi
    transmitting_party_extension external_subscriber_number facility dm_ms_address proprietary).

Definition d_tx_interrupt_to_bitbuf (self : DTxInterrupt) : B unit :=
  write_bits (cmce_pdu_type_dl_into_raw CmcePduTypeDl_DTxInterrupt) 5;;
  write_bits (d_tx_interrupt_call_identifier self) 14;;
  write_bits (d_tx_interrupt_transmission_grant self) 2;;
  write_bits (Z.b2z (d_tx_interrupt_transmission_request_permission self)) 1;;
  write_bits (Z.b2z (d_tx_interrupt_encryption_control self)) 1;;
  write_bits (Z.b2z (d_tx_interrupt_reserved self)) 1;;
  let obit := is_some (d_tx_interrupt_notification_indicator self) || is_some
    (d_tx_interrupt_transmitting_party_type_identifier self) || is_some
    (d_tx_interrupt_transmitting_party_address_ssi self) || is_some (d_tx_interrupt_transmitting_party_extension
    self) || is_some (d_tx_interrupt_external_subscriber_number self) || is_some (d_tx_interrupt_facility self) ||
    is_some (d_tx_interrupt_dm_ms_address self) || is_some (d_tx_interrupt_proprietary self) in
  write_obit (Z.b2z obit);;
  if negb obit then mret tt else
  write_type2_generic obit (d_tx_interrupt_notification_indicator self) 6;;
  write_type2_generic obit (d_tx_interrupt_transmitting_party_type_identifier self) 2;;
  write_type2_generic obit (d_tx_interrupt_transmitting_party_address_ssi self) 24;;
  write_type2_generic obit (d_tx_interrupt_transmitting_party_extension self) 24;;
  write_type3_generic obit (d_tx_interrupt_external_subscriber_number self) (cmce_type3_elem_id_into_raw
    CmceType3ElemId_ExtSubscriberNum);;
  write_type3_generic obit (d_tx_interrupt_facility self) (cmce_type3_elem_id_into_raw CmceType3ElemId_Facility);;
  write_type3_generic obit (d_tx_interrupt_dm_ms_address self) (cmce_type3_elem_id_into_raw
    CmceType3ElemId_DmMsAddr);;
  write_type3_generic obit (d_tx_interrupt_proprietary self) (cmce_type3_elem_id_into_raw
    CmceType3ElemId_Proprietary);;
  write_mbit 0.

(** ** DTxWait *)

Record DTxWait : Type := mkDTxWait {
  d_tx_wait_call_identifier : Z;
  d_tx_wait_transmission_request_permission : bool;
  d_tx_wait_notification_indicator : option Z;
  d_tx_wait_facility : option Type3FieldGeneric;
  d_tx_wait_dm_ms_address : option Type3FieldGeneric;
  d_tx_wait_proprietary : option Type3FieldGeneric
}.

Definition d_tx_wait_from_bitbuf : B DTxWait :=
  pdu_type ← read_field 5 "pdu_type";
  expect_pdu_type pdu_type (cmce_pdu_type_dl_into_raw CmcePduTypeDl_DTxWait);;
  call_identifier ← read_field 14 "call_identifier";
  let call_identifier := wrap 16 call_identifier in
  transmission_request_permission ← read_field 1 "transmission_request_permission";
  let transmission_request_permission := negb (transmission_request_permission =? 0)%Z in
  obit ← read_obit;
  notification_indicator ← parse_type2_generic obit 6 "notification_indicator";
  facility ← parse_type3_generic obit (cmce_type3_elem_id_into_raw CmceType3ElemId_Facility);
  dm_ms_address ← parse_type3_generic obit (cmce_type3_elem_id_into_raw CmceType3ElemId_DmMsAddr);
  proprietary ← parse_type3_generic obit (cmce_type3_elem_id_into_raw CmceType3ElemId_Proprietary);
  finish obit (mkDTxWait call_identifier transmission_request_permission notification_indicator facility
    dm_ms_address proprietary).

Definition d_tx_wait_to_bitbuf (self : DTxWait) : B unit :=
  write_bits (cmce_pdu_type_dl_into_raw CmcePduTypeDl_DTxWait) 5;;
  write_bits (d_tx_wait_call_identifier self) 14;;
  write_bits (Z.b2z (d_tx_wait_transmission_request_permission self)) 1;;
  let obit := is_some (d_tx_wait_notification_indicator self) || is_some (d_tx_wait_facility self) || is_some
    (d_tx_wait_dm_ms_address self) || is_some (d_tx_wait_proprietary self) in
  write_obit (Z.b2z obit);;
  if negb obit then mret tt else
  write_type2_generic obit (d_tx_wait_notification_indicator self) 6;;
  write_type3_generic obit (d_tx_wait_facility self) (cmce_type3_elem_id_into_raw CmceType3ElemId_Facility);;
  write_type3_generic obit (d_tx_wait_dm_ms_address self) (cmce_type3_elem_id_into_raw CmceType3ElemId_DmMsAddr);;
  write_type3_generic obit (d_tx_wait_proprietary self) (cmce_type3_elem_id_into_raw CmceType3ElemId_Proprietary);;
  write_mbit 0.

(** ** UAlert *)

Record UAlert : Type := mkUAlert {
  u_alert_call_identifier : Z;
  u_alert_reserved : bool;
  u_alert_simplex_duplex_selection : bool;
  u_alert_basic_service_information : option BasicServiceInformation;
  u_alert_facility : option Type3FieldGeneric;
  u_alert_proprietary : option Type3FieldGeneric
}.

Definition u_alert_from_bitbuf : B UAlert :=
  pdu_type ← read_field 5 "pdu_type";
  expect_pdu_type pdu_type (cmce_pdu_type_ul_into_raw CmcePduTypeUl_UAlert);;
  call_identifier ← read_field 14 "call_identifier";
  let call_identifier := wrap 16 call_identifier in
  reserved ← read_field 1 "reserved";
  let reserved := negb (reserved =? 0)%Z in
  simplex_duplex_selection ← read_field 1 "simplex_duplex_selection";
  let simplex_duplex_selection := negb (simplex_duplex_selection =? 0)%Z in
  obit ← read_obit;
  basic_service_information ← parse_type2_struct obit basic_service_information_from_bitbuf;
  facility ← parse_type3_generic obit (cmce_type3_elem_id_into_raw CmceType3ElemId_Facility);
  proprietary ← parse_type3_generic obit (cmce_type3_elem_id_into_raw CmceType3ElemId_Proprietary);
  finish obit (mkUAlert call_identifier reserved simplex_duplex_selection basic_service_information facility
    proprietary).

Definition u_alert_to_bitbuf (self : UAlert) : B unit :=
  write_bits (cmce_pdu_type_ul_into_raw CmcePduTypeUl_UAlert) 5;;
  write_bits (u_alert_call_identifier self) 14;;
  write_bits (Z.b2z (u_alert_reserved self)) 1;;
  write_bits (Z.b2z (u_alert_simplex_duplex_selection self)) 1;;
  let obit := is_some (u_alert_basic_service_information self) || is_some (u_alert_facility self) || is_some
    (u_alert_proprietary self) in
  write_obit (Z.b2z obit);;
  if negb obit then mret tt else
  write_type2_struct obit (u_alert_basic_service_information self) basic_service_information_to_bitbuf;;
  write_type3_generic obit (u_alert_facility self) (cmce_type3_elem_id_into_raw CmceType3ElemId_Facility);;
  write_type3_generic obit (u_alert_proprietary self) (cmce_type3_elem_id_into_raw CmceType3ElemId_Proprietary);;
  write_mbit 0.

(** ** UCallRestore *)

Record UCallRestore : Type := mkUCallRestore {
  u_call_restore_call_identifier : Z;
  u_call_restore_request_to_transmit_send_data : bool;
  u_call_restore_other_party_type_identifier : Z;
  u_call_restore_other_party_short_number_address : option Z;
  u_call_restore_other_party_ssi : option Z;
  u_call_restore_other_party_extension : option Z;
  u_call_restore_basic_service_information : option BasicServiceInformation;
  u_call_restore_facility : option Type3FieldGeneric;
  u_call_restore_dm_ms_address : option Type3FieldGeneric;
  u_call_restore_proprietary : option Type3FieldGeneric
}.

Definition u_call_restore_from_bitbuf : B UCallRestore :=
  pdu_type ← read_field 5 "pdu_type";
  expect_pdu_type pdu_type (cmce_pdu_type_ul_into_raw CmcePduTypeUl_UCallRestore);;
  call_identifier ← read_field 14 "call_identifier";
  let call_identifier := wrap 16 call_identifier in
  request_to_transmit_send_data ← read_field 1 "request_to_transmit_send_data";
  let request_to_transmit_send_data := negb (request_to_transmit_send_data =? 0)%Z in
  other_party_type_identifier ← read_field 2 "other_party_type_identifier";
  let other_party_type_identifier := wrap 8 other_party_type_identifier in
  other_party_short_number_address ← (if (other_party_type_identifier =? 0)%Z then v ← read_field 8
    "other_party_short_number_address"; mret (Some (v)) else mret None);
  other_party_ssi ← (if (other_party_type_identifier =? 1)%Z || (other_party_type_identifier =? 2)%Z then v ←
    read_field 24 "other_party_ssi"; mret (Some (v)) else mret None);
  other_party_extension ← (if (other_party_type_identifier =? 2)%Z then v ← read_field 24 "other_party_extension";
    mret (Some (v)) else mret None);
  obit ← read_obit;
  basic_service_information ← parse_type2_struct obit basic_service_information_from_bitbuf;
  facility ← parse_type3_generic obit (cmce_type3_elem_id_into_raw CmceType3ElemId_Facility);
  dm_ms_address ← parse_type3_generic obit (cmce_type3_elem_id_into_raw CmceType3ElemId_DmMsAddr);
  proprietary ← parse_type3_generic obit (cmce_type3_elem_id_into_raw CmceType3ElemId_Proprietary);
  finish obit (mkUCallRestore call_identifier request_to_transmit_send_data other_party_type_identifier
    other_party_short_number_address other_party_ssi other_party_extension basic_service_information facility
    dm_ms_address proprietary).

Definition u_call_restore_to_bitbuf (self : UCallRestore) : B unit :=
  write_bits (cmce_pdu_type_ul_into_raw CmcePduTypeUl_UCallRestore) 5;;
  write_bits (u_call_restore_call_identifier self) 14;;
  write_bits (Z.b2z (u_call_restore_request_to_transmit_send_data self)) 1;;
  write_bits (u_call_restore_other_party_type_identifier self) 2;;
  match u_call_restore_other_party_short_number_address self with Some value => write_bits value 8 | None => mret
    tt end;;
  match u_call_restore_other_party_ssi self with Some value => write_bits value 24 | None => mret tt end;;
  match u_call_restore_other_party_extension self with Some value => write_bits value 24 | None => mret tt end;;
  let obit := is_some (u_call_restore_basic_service_information self) || is_some (u_call_restore_facility self) ||
    is_some (u_call_restore_dm_ms_address self) || is_some (u_call_restore_proprietary self) in
  write_obit (Z.b2z obit);;
  if negb obit then mret tt else
  write_type2_struct obit (u_call_restore_basic_service_information self) basic_service_information_to_bitbuf;;
  write_type3_generic obit (u_call_restore_facility self) (cmce_type3_elem_id_into_raw CmceType3ElemId_Facility);;
  write_type3_generic obit (u_call_restore_dm_ms_address self) (cmce_type3_elem_id_into_raw
    CmceType3ElemId_DmMsAddr);;
  write_type3_generic obit (u_call_restore_proprietary self) (cmce_type3_elem_id_into_raw
    CmceType3ElemId_Proprietary);;
  write_mbit 0.

(** ** UConnect *)

Record UConnect : Type := mkUConnect {
  u_connect_call_identifier : Z;
  u_connect_hook_method_selection : bool;
  u_connect_simplex_duplex_selection : bool;
  u_connect_basic_service_information : option BasicServiceInformation;
  u_connect_facility : option Type3FieldGeneric;
  u_connect_proprietary : option Type3FieldGeneric
}.

Definition u_connect_from_bitbuf : B UConnect :=
  pdu_type ← read_field 5 "pdu_type";
  expect_pdu_type pdu_type (cmce_pdu_type_ul_into_raw CmcePduTypeUl_UConnect);;
  call_identifier ← read_field 14 "call_identifier";
  let call_identifier := wrap 16 call_identifier in
  hook_method_selection ← read_field 1 "hook_method_selection";
  let hook_method_selection := negb (hook_method_selection =? 0)%Z in
  simplex_duplex_selection ← read_field 1 "simplex_duplex_selection";
  let simplex_duplex_selection := negb (simplex_duplex_selection =? 0)%Z in
  obit ← read_obit;
  basic_service_information ← parse_type2_struct obit basic_service_information_from_bitbuf;
  facility ← parse_type3_generic obit (cmce_type3_elem_id_into_raw CmceType3ElemId_Facility);
  proprietary ← parse_type3_generic obit (cmce_type3_elem_id_into_raw CmceType3ElemId_Proprietary);
  finish obit (mkUConnect call_identifier hook_method_selection simplex_duplex_selection basic_service_information
    facility proprietary).

Definition u_connect_to_bitbuf (self : UConnect) : B unit :=
  write_bits (cmce_pdu_type_ul_into_raw CmcePduTypeUl_UConnect) 5;;
  write_bits (u_connect_call_identifier self) 14;;
  write_bits (Z.b2z (u_connect_hook_method_selection self)) 1;;
  write_bits (Z.b2z (u_connect_simplex_duplex_selection self)) 1;;
  let obit := is_some (u_connect_basic_service_information self) || is_some (u_connect_facility self) || is_some
    (u_connect_proprietary self) in
  write_obit (Z.b2z obit);;
  if negb obit then mret tt else
  write_type2_struct obit (u_connect_basic_service_information self) basic_service_information_to_bitbuf;;
  write_type3_generic obit (u_connect_facility self) (cmce_type3_elem_id_into_raw CmceType3ElemId_Facility);;
  write_type3_generic obit (u_connect_proprietary self) (cmce_type3_elem_id_into_raw CmceType3ElemId_Proprietary);;
  write_mbit 0.

(** ** UDisconnect *)

Record UDisconnect : Type := mkUDisconnect {
  u_disconnect_call_identifier : Z;
  u_disconnect_disconnect_cause : DisconnectCause;
  u_disconnect_facility : option Type3FieldGeneric;
  u_disconnect_proprietary : option Type3FieldGeneric
}.

Definition u_disconnect_from_bitbuf : B UDisconnect :=
  pdu_type ← read_field 5 "pdu_type";
  expect_pdu_type pdu_type (cmce_pdu_type_ul_into_raw CmcePduTypeUl_UDisconnect);;
  call_identifier ← read_field 14 "call_identifier";
  let call_identifier := wrap 16 call_identifier in
  val ← read_field 5 "disconnect_cause";
  disconnect_cause ← ok_or (disconnect_cause_try_from val) (InvalidValue "disconnect_cause" val);
  obit ← read_obit;
  facility ← parse_type3_generic obit (cmce_type3_elem_id_into_raw CmceType3ElemId_Facility);
  proprietary ← parse_type3_generic obit (cmce_type3_elem_id_into_raw CmceType3ElemId_Proprietary);
  finish obit (mkUDisconnect call_identifier disconnect_cause facility proprietary).

Definition u_disconnect_to_bitbuf (self : UDisconnect) : B unit :=
  write_bits (cmce_pdu_type_ul_into_raw CmcePduTypeUl_UDisconnect) 5;;
  write_bits (u_disconnect_call_identifier self) 14;;
  write_bits (disconnect_cause_into_raw (u_disconnect_disconnect_cause self)) 5;;
  let obit := is_some (u_disconnect_facility self) || is_some (u_disconnect_proprietary self) in
  write_obit (Z.b2z obit);;
  if negb obit then mret tt else
  write_type3_generic obit (u_disconnect_facility self) (cmce_type3_elem_id_into_raw CmceType3ElemId_Facility);;
  write_type3_generic obit (u_disconnect_proprietary self) (cmce_type3_elem_id_into_raw
    CmceType3ElemId_Proprietary);;
  write_mbit 0.

(** ** UInfo *)

Record UInfo : Type := mkUInfo {
  u_info_call_identifier : Z;
  u_info_poll_response : bool;
  u_info_modify : option Z;
  u_info_dtmf : option Type3FieldGeneric;
  u_info_facility : option Type3FieldGeneric;
  u_info_proprietary : option Type3FieldGeneric
}.

Definition u_info_from_bitbuf : B UInfo :=
  pdu_type ← read_field 5 "pdu_type";
  expect_pdu_type pdu_type (cmce_pdu_type_ul_into_raw CmcePduTypeUl_UInfo);;
  call_identifier ← read_field 14 "call_identifier";
  let call_identifier := wrap 16 call_identifier in
  poll_response ← read_field 1 "poll_response";
  let poll_response := negb (poll_response =? 0)%Z in
  obit ← read_obit;
  modify ← parse_type2_generic obit 9 "modify";
  dtmf ← parse_type3_generic obit (cmce_type3_elem_id_into_raw CmceType3ElemId_Dtmf);
  facility ← parse_type3_generic obit (cmce_type3_elem_id_into_raw CmceType3ElemId_Facility);
  proprietary ← parse_type3_generic obit (cmce_type3_elem_id_into_raw CmceType3ElemId_Proprietary);
  finish obit (mkUInfo call_identifier poll_response modify dtmf facility proprietary).

Definition u_info_to_bitbuf (self : UInfo) : B unit :=
  write_bits (cmce_pdu_type_ul_into_raw CmcePduTypeUl_UInfo) 5;;
  write_bits (u_info_call_identifier self) 14;;
  write_bits (Z.b2z (u_info_poll_response self)) 1;;
  let obit := is_some (u_info_modify self) || is_some (u_info_dtmf self) || is_some (u_info_facility self) ||
    is_some (u_info_proprietary self) in
  write_obit (Z.b2z obit);;
  if negb obit then mret tt else
  write_type2_generic obit (u_info_modify self) 9;;
  write_type3_generic obit (u_info_dtmf self) (cmce_type3_elem_id_into_raw CmceType3ElemId_Dtmf);;
  write_type3_generic obit (u_info_facility self) (cmce_type3_elem_id_into_raw CmceType3ElemId_Facility);;
  write_type3_generic obit (u_info_proprietary self) (cmce_type3_elem_id_into_raw CmceType3ElemId_Proprietary);;
  write_mbit 0.

(** ** URelease *)

Record URelease : Type := mkURelease {
  u_release_call_identifier : Z;
  u_release_disconnect_cause : DisconnectCause;
  u_release_facility : option Type3FieldGeneric;
  u_release_proprietary : option Type3FieldGeneric
}.

Definition u_release_from_bitbuf : B URelease :=
  pdu_type ← read_field 5 "pdu_type";
  expect_pdu_type pdu_type (cmce_pdu_type_ul_into_raw CmcePduTypeUl_URelease);;
  call_identifier ← read_field 14 "call_identifier";
  let call_identifier := wrap 16 call_identifier in
  val ← read_field 5 "disconnect_cause";
  disconnect_cause ← ok_or (disconnect_cause_try_from val) (InvalidValue "disconnect_cause" val);
  obit ← read_obit;
  facility ← parse_type3_generic obit (cmce_type3_elem_id_into_raw CmceType3ElemId_Facility);
  proprietary ← parse_type3_generic obit (cmce_type3_elem_id_into_raw CmceType3ElemId_Proprietary);
  finish obit (mkURelease call_identifier disconnect_cause facility proprietary).

Definition u_release_to_bitbuf (self : URelease) : B unit :=
  write_bits (cmce_pdu_type_ul_into_raw CmcePduTypeUl_URelease) 5;;
  write_bits (u_release_call_identifier self) 14;;
  write_bits (disconnect_cause_into_raw (u_release_disconnect_cause self)) 5;;
  let obit := is_some (u_release_facility self) || is_some (u_release_proprietary self) in
  write_obit (Z.b2z obit);;
  if negb obit then mret tt else
  write_type3_generic obit (u_release_facility self) (cmce_type3_elem_id_into_raw CmceType3ElemId_Facility);;
  write_type3_generic obit (u_release_proprietary self) (cmce_type3_elem_id_into_raw CmceType3ElemId_Proprietary);;
  write_mbit 0.

(** ** USdsData *)

Record USdsData : Type := mkUSdsData {
  u_sds_data_area_selection : Z;
  u_sds_data_called_party_type_identifier : PartyTypeIdentifier;
  u_sds_data_called_party_short_number_address : option Z;
  u_sds_data_called_party_ssi : option Z;
  u_sds_data_called_party_extension : option Z;
  u_sds_data_user_defined_data : SdsUserData;
  u_sds_data_external_subscriber_number : option Type3FieldGeneric;
  u_sds_data_dm_ms_address : option Type3FieldGeneric
}.

Definition u_sds_data_from_bitbuf : B USdsData :=
  pdu_type ← read_field 5 "pdu_type";
  expect_pdu_type pdu_type (cmce_pdu_type_ul_into_raw CmcePduTypeUl_USdsData);;
  area_selection ← read_field 4 "area_selection";
  let area_selection := wrap 8 area_selection in
  cpti_raw ← read_field 2 "called_party_type_identifier";
  called_party_type_identifier ← ok_or (party_type_identifier_try_from cpti_raw) (InvalidValue
    "called_party_type_identifier" cpti_raw);
  called_party_short_number_address ← (if (party_type_identifier_into_raw called_party_type_identifier =?
    party_type_identifier_into_raw PartyTypeIdentifier_Sna)%Z then v ← read_field 8
    "called_party_short_number_address"; mret (Some (v)) else mret None);
  called_party_ssi ← (if (party_type_identifier_into_raw called_party_type_identifier =?
    party_type_identifier_into_raw PartyTypeIdentifier_Ssi)%Z || (party_type_identifier_into_raw
    called_party_type_identifier =? party_type_identifier_into_raw PartyTypeIdentifier_Tsi)%Z then v ← read_field
    24 "called_party_ssi"; mret (Some (v)) else mret None);
  called_party_extension ← (if (party_type_identifier_into_raw called_party_type_identifier =?
    party_type_identifier_into_raw PartyTypeIdentifier_Tsi)%Z then v ← read_field 24 "called_party_extension"; mret
    (Some (v)) else mret None);
  short_data_type_identifier ← read_field 2 "short_data_type_identifier";
  let short_data_type_identifier := wrap 8 short_data_type_identifier in
  user_defined_data ← sds_user_data_from short_data_type_identifier;
  obit ← read_obit;
  external_subscriber_number ← parse_type3_generic obit (cmce_type3_elem_id_into_raw
    CmceType3ElemId_ExtSubscriberNum);
  dm_ms_address ← parse_type3_generic obit (cmce_type3_elem_id_into_raw CmceType3ElemId_DmMsAddr);
  finish obit (mkUSdsData area_selection called_party_type_identifier called_party_short_number_address
    called_party_ssi called_party_extension user_defined_data external_subscriber_number dm_ms_address).

Definition u_sds_data_to_bitbuf (self : USdsData) : B unit :=
  write_bits (cmce_pdu_type_ul_into_raw CmcePduTypeUl_USdsData) 5;;
  write_bits (u_sds_data_area_selection self) 4;;
  write_bits (party_type_identifier_into_raw (u_sds_data_called_party_type_identifier self)) 2;;
  match u_sds_data_called_party_short_number_address self with Some value => write_bits value 8 | None => mret tt
    end;;
  match u_sds_data_called_party_ssi self with Some value => write_bits value 24 | None => mret tt end;;
  match u_sds_data_called_party_extension self with Some value => write_bits value 24 | None => mret tt end;;
  let short_data_type_identifier := type_identifier (u_sds_data_user_defined_data self) in
  write_bits short_data_type_identifier 2;;
  sds_user_data_to (u_sds_data_user_defined_data self);;
  let obit := is_some (u_sds_data_external_subscriber_number self) || is_some (u_sds_data_dm_ms_address self) in
  write_obit (Z.b2z obit);;
  if negb obit then mret tt else
  write_type3_generic obit (u_sds_data_external_subscriber_number self) (cmce_type3_elem_id_into_raw
    CmceType3ElemId_ExtSubscriberNum);;
  write_type3_generic obit (u_sds_data_dm_ms_address self) (cmce_type3_elem_id_into_raw CmceType3ElemId_DmMsAddr);;
  write_mbit 0.

(** ** USetup *)

Record USetup : Type := mkUSetup {
  u_setup_area_selection : Z;
  u_setup_hook_method_selection : bool;
  u_setup_simplex_duplex_selection : bool;
  u_setup_basic_service_information : BasicServiceInformation;
  u_setup_request_to_transmit_send_data : bool;
  u_setup_call_priority : Z;
  u_setup_clir_control : Z;
  u_setup_called_party_type_identifier : PartyTypeIdentifier;
  u_setup_called_party_short_number_address : option Z;
  u_setup_called_party_ssi : option Z;
  u_setup_called_party_extension : option Z;
  u_setup_external_subscriber_number : option Type3FieldGeneric;
  u_setup_facility : option Type3FieldGeneric;
  u_setup_dm_ms_address : option Type3FieldGeneric;
  u_setup_proprietary : option Type3FieldGeneric
}.

Definition u_setup_from_bitbuf : B USetup :=
  pdu_type ← read_field 5 "pdu_type";
  expect_pdu_type pdu_type (cmce_pdu_type_ul_into_raw CmcePduTypeUl_USetup);;
  area_selection ← read_field 4 "area_selection";
  let area_selection := wrap 8 area_selection in
  hook_method_selection ← read_field 1 "hook_method_selection";
  let hook_method_selection := negb (hook_method_selection =? 0)%Z in
  simplex_duplex_selection ← read_field 1 "simplex_duplex_selection";
  let simplex_duplex_selection := negb (simplex_duplex_selection =? 0)%Z in
  basic_service_information ← basic_service_information_from_bitbuf;
  request_to_transmit_send_data ← read_field 1 "request_to_transmit_send_data";
  let request_to_transmit_send_data := negb (request_to_transmit_send_data =? 0)%Z in
  call_priority ← read_field 4 "call_priority";
  let call_priority := wrap 8 call_priority in
  clir_control ← read_field 2 "clir_control";
  let clir_control := wrap 8 clir_control in
  cpti_raw ← read_field 2 "called_party_type_identifier";
  called_party_type_identifier ← ok_or (party_type_identifier_try_from cpti_raw) (InvalidValue
    "called_party_type_identifier" cpti_raw);
  called_party_short_number_address ← (if (party_type_identifier_into_raw called_party_type_identifier =?
    party_type_identifier_into_raw PartyTypeIdentifier_Sna)%Z then v ← read_field 8
    "called_party_short_number_address"; mret (Some (v)) else mret None);
  called_party_ssi ← (if (party_type_identifier_into_raw called_party_type_identifier =?
    party_type_identifier_into_raw PartyTypeIdentifier_Ssi)%Z || (party_type_identifier_into_raw
    called_party_type_identifier =? party_type_identifier_into_raw PartyTypeIdentifier_Tsi)%Z then v ← read_field
    24 "called_party_ssi"; mret (Some (v)) else mret None);
  called_party_extension ← (if (party_type_identifier_into_raw called_party_type_identifier =?
    party_type_identifier_into_raw PartyTypeIdentifier_Tsi)%Z then v ← read_field 24 "called_party_extension"; mret
    (Some (v)) else mret None);
  obit ← read_obit;
  external_subscriber_number ← parse_type3_generic obit (cmce_type3_elem_id_into_raw
    CmceType3ElemId_ExtSubscriberNum);
  facility ← parse_type3_generic obit (cmce_type3_elem_id_into_raw CmceType3ElemId_Facility);
  dm_ms_address ← parse_type3_generic obit (cmce_type3_elem_id_into_raw CmceType3ElemId_DmMsAddr);
  proprietary ← parse_type3_generic obit (cmce_type3_elem_id_into_raw CmceType3ElemId_Proprietary);
  finish obit (mkUSetup area_selection hook_method_selection simplex_duplex_selection basic_service_information
    request_to_transmit_send_data call_priority clir_control called_party_type_identifier
    called_party_short_number_address called_party_ssi called_party_extension external_subscriber_number facility
    dm_ms_address proprietary).

Definition u_setup_to_bitbuf (self : USetup) : B unit :=
  write_bits (cmce_pdu_type_ul_into_raw CmcePduTypeUl_USetup) 5;;
  write_bits (u_setup_area_selection self) 4;;
  write_bits (Z.b2z (u_setup_hook_method_selection self)) 1;;
  write_bits (Z.b2z (u_setup_simplex_duplex_selection self)) 1;;
  basic_service_information_to_bitbuf (u_setup_basic_service_information self);;
  write_bits (Z.b2z (u_setup_request_to_transmit_send_data self)) 1;;
  write_bits (u_setup_call_priority self) 4;;
  write_bits (u_setup_clir_control self) 2;;
  write_bits (party_type_identifier_into_raw (u_setup_called_party_type_identifier self)) 2;;
  match u_setup_called_party_short_number_address self with Some value => write_bits value 8 | None => mret tt end;;
  match u_setup_called_party_ssi self with Some value => write_bits value 24 | None => mret tt end;;
  match u_setup_called_party_extension self with Some value => write_bits value 24 | None => mret tt end;;
  let obit := is_some (u_setup_external_subscriber_number self) || is_some (u_setup_facility self) || is_some
    (u_setup_dm_ms_address self) || is_some (u_setup_proprietary self) in
  write_obit (Z.b2z obit);;
  if negb obit then mret tt else
  write_type3_generic obit (u_setup_external_subscriber_number self) (cmce_type3_elem_id_into_raw
    CmceType3ElemId_ExtSubscriberNum);;
  write_type3_generic obit (u_setup_facility self) (cmce_type3_elem_id_into_raw CmceType3ElemId_Facility);;
  write_type3_generic obit (u_setup_dm_ms_address self) (cmce_type3_elem_id_into_raw CmceType3ElemId_DmMsAddr);;
  write_type3_generic obit (u_setup_proprietary self) (cmce_type3_elem_id_into_raw CmceType3ElemId_Proprietary);;
  write_mbit 0.

(** ** UStatus *)

Record UStatus : Type := mkUStatus {
  u_status_area_selection : Z;
  u_status_called_party_type_identifier : PartyTypeIdentifier;
  u_status_called_party_short_number_address : option Z;
  u_status_called_party_ssi : option Z;
  u_status_called_party_extension : option Z;
  u_status_pre_coded_status : PreCodedStatus;
  u_status_external_subscriber_number : option Type3FieldGeneric;
  u_status_dm_ms_address : option Type3FieldGeneric
}.

Definition u_status_from_bitbuf : B UStatus :=
  pdu_type ← read_field 5 "pdu_type";
  expect_pdu_type pdu_type (cmce_pdu_type_ul_into_raw CmcePduTypeUl_UStatus);;
  area_selection ← read_field 4 "area_selection";
  let area_selection := wrap 8 area_selection in
  cpti_raw ← read_field 2 "called_party_type_identifier";
  called_party_type_identifier ← ok_or (party_type_identifier_try_from cpti_raw) (InvalidValue
    "called_party_type_identifier" cpti_raw);
  called_party_short_number_address ← (if (party_type_identifier_into_raw called_party_type_identifier =?
    party_type_identifier_into_raw PartyTypeIdentifier_Sna)%Z then v ← read_field 8
    "called_party_short_number_address"; mret (Some (v)) else mret None);
  called_party_ssi ← (if (party_type_identifier_into_raw called_party_type_identifier =?
    party_type_identifier_into_raw PartyTypeIdentifier_Ssi)%Z || (party_type_identifier_into_raw
    called_party_type_identifier =? party_type_identifier_into_raw PartyTypeIdentifier_Tsi)%Z then v ← read_field
    24 "called_party_ssi"; mret (Some (v)) else mret None);
  called_party_extension ← (if (party_type_identifier_into_raw called_party_type_identifier =?
    party_type_identifier_into_raw PartyTypeIdentifier_Tsi)%Z then v ← read_field 24 "called_party_extension"; mret
    (Some (v)) else mret None);
  val ← read_field 16 "pre_coded_status";
  let val := wrap 16 val in
  let pre_coded_status := pre_coded_status_from val in
  obit ← read_obit;
  external_subscriber_number ← parse_type3_generic obit (cmce_type3_elem_id_into_raw
    CmceType3ElemId_ExtSubscriberNum);
  dm_ms_address ← parse_type3_generic obit (cmce_type3_elem_id_into_raw CmceType3ElemId_DmMsAddr);
  finish obit (mkUStatus area_selection called_party_type_identifier called_party_short_number_address
    called_party_ssi called_party_extension pre_coded_status external_subscriber_number dm_ms_address).

Definition u_status_to_bitbuf (self : UStatus) : B unit :=
  write_bits (cmce_pdu_type_ul_into_raw CmcePduTypeUl_UStatus) 5;;
  write_bits (u_status_area_selection self) 4;;
  write_bits (party_type_identifier_into_raw (u_status_called_party_type_identifier self)) 2;;
  match u_status_called_party_short_number_address self with Some value => write_bits value 8 | None => mret tt
    end;;
  match u_status_called_party_ssi self with Some value => write_bits value 24 | None => mret tt end;;
  match u_status_called_party_extension self with Some value => write_bits value 24 | None => mret tt end;;
  raw ← pre_coded_status_into_raw (u_status_pre_coded_status self);
  write_bits raw 16;;
  let obit := is_some (u_status_external_subscriber_number self) || is_some (u_status_dm_ms_address self) in
  write_obit (Z.b2z obit);;
  if negb obit then mret tt else
  write_type3_generic obit (u_status_external_subscriber_number self) (cmce_type3_elem_id_into_raw
    CmceType3ElemId_ExtSubscriberNum);;
  write_type3_generic obit (u_status_dm_ms_address self) (cmce_type3_elem_id_into_raw CmceType3ElemId_DmMsAddr);;
  write_mbit 0.

(** ** UTxCeased *)

Record UTxCeased : Type := mkUTxCeased {
  u_tx_ceased_call_identifier : Z;
  u_tx_ceased_facility : option Type3FieldGeneric;
  u_tx_ceased_dm_ms_address : option Type3FieldGeneric;
  u_tx_ceased_proprietary : option Type3FieldGeneric
}.

Definition u_tx_ceased_from_bitbuf : B UTxCeased :=
  pdu_type ← read_field 5 "pdu_type";
  expect_pdu_type pdu_type (cmce_pdu_type_ul_into_raw CmcePduTypeUl_UTxCeased);;
  call_identifier ← read_field 14 "call_identifier";
  let call_identifier := wrap 16 call_identifier in
  obit ← read_obit;
  facility ← parse_type3_generic obit (cmce_type3_elem_id_into_raw CmceType3ElemId_Facility);
  dm_ms_address ← parse_type3_generic obit (cmce_type3_elem_id_into_raw CmceType3ElemId_DmMsAddr);
  proprietary ← parse_type3_generic obit (cmce_type3_elem_id_into_raw CmceType3ElemId_Proprietary);
  finish obit (mkUTxCeased call_identifier facility dm_ms_address proprietary).

Definition u_tx_ceased_to_bitbuf (self : UTxCeased) : B unit :=
  write_bits (cmce_pdu_type_ul_into_raw CmcePduTypeUl_UTxCeased) 5;;
  write_bits (u_tx_ceased_call_identifier self) 14;;
  let obit := is_some (u_tx_ceased_facility self) || is_some (u_tx_ceased_dm_ms_address self) || is_some
    (u_tx_ceased_proprietary self) in
  write_obit (Z.b2z obit);;
  if negb obit then mret tt else
  write_type3_generic obit (u_tx_ceased_facility self) (cmce_type3_elem_id_into_raw CmceType3ElemId_Facility);;
  write_type3_generic obit (u_tx_ceased_dm_ms_address self) (cmce_type3_elem_id_into_raw CmceType3ElemId_DmMsAddr);;
  write_type3_generic obit (u_tx_ceased_proprietary self) (cmce_type3_elem_id_into_raw
    CmceType3ElemId_Proprietary);;
  write_mbit 0.

(** ** UTxDemand *)

Record UTxDemand : Type := mkUTxDemand {
  u_tx_demand_call_identifier : Z;
  u_tx_demand_tx_demand_priority : Z;
  u_tx_demand_encryption_control : bool;
  u_tx_demand_reserved : bool;
  u_tx_demand_facility : option Type3FieldGeneric;
  u_tx_demand_dm_ms_address : option Type3FieldGeneric;
  u_tx_demand_proprietary : option Type3FieldGeneric
}.

Definition u_tx_demand_from_bitbuf : B UTxDemand :=
  pdu_type ← read_field 5 "pdu_type";
  expect_pdu_type pdu_type (cmce_pdu_type_ul_into_raw CmcePduTypeUl_UTxDemand);;
  call_identifier ← read_field 14 "call_identifier";
  let call_identifier := wrap 16 call_identifier in
  tx_demand_priority ← read_field 2 "tx_demand_priority";
  let tx_demand_priority := wrap 8 tx_demand_priority in
  encryption_control ← read_field 1 "encryption_control";
  let encryption_control := negb (encryption_control =? 0)%Z in
  reserved ← read_field 1 "reserved";
  let reserved := negb (reserved =? 0)%Z in
  obit ← read_obit;
  facility ← parse_type3_generic obit (cmce_type3_elem_id_into_raw CmceType3ElemId_Facility);
  dm_ms_address ← parse_type3_generic obit (cmce_type3_elem_id_into_raw CmceType3ElemId_DmMsAddr);
  proprietary ← parse_type3_generic obit (cmce_type3_elem_id_into_raw CmceType3ElemId_Proprietary);
  finish obit (mkUTxDemand call_identifier tx_demand_priority encryption_control reserved facility dm_ms_address
    proprietary).

Definition u_tx_demand_to_bitbuf (self : UTxDemand) : B unit :=
  write_bits (cmce_pdu_type_ul_into_raw CmcePduTypeUl_UTxDemand) 5;;
  write_bits (u_tx_demand_call_identifier self) 14;;
  write_bits (u_tx_demand_tx_demand_priority self) 2;;
  write_bits (Z.b2z (u_tx_demand_encryption_control self)) 1;;
  write_bits (Z.b2z (u_tx_demand_reserved self)) 1;;
  let obit := is_some (u_tx_demand_facility self) || is_some (u_tx_demand_dm_ms_address self) || is_some
    (u_tx_demand_proprietary self) in
  write_obit (Z.b2z obit);;
  if negb obit then mret tt else
  write_type3_generic obit (u_tx_demand_facility self) (cmce_type3_elem_id_into_raw CmceType3ElemId_Facility);;
  write_type3_generic obit (u_tx_demand_dm_ms_address self) (cmce_type3_elem_id_into_raw CmceType3ElemId_DmMsAddr);;
  write_type3_generic obit (u_tx_demand_proprietary self) (cmce_type3_elem_id_into_raw
    CmceType3ElemId_Proprietary);;
  write_mbit 0.

