(* ===== verification/CmcePdusSpec.v ===== *)
(** Every CMCE PDU survives writing and parsing, and no received bits make a
    parser panic. *)
From S2P Require Import Prelude Bits Core BitBuffer BitBufferSpec BitCodec BitBufferThms FieldCodec TypedFieldsSpec PduCodec UmacCircuitMgr CmceCircuitMgr CmceEnums CmcePdus.

(** * Basic service information *)

(** Speech circuits carry the speech service, data circuits the number of
    slots. *)
Definition basic_service_information_ok (self : BasicServiceInformation) : Prop :=
  if is_tch_s (bsi_circuit_mode_type self)
  then bsi_slots_per_frame self = None ∧ ∃ v, bsi_speech_service self = Some v ∧ is_u 2 v
  else bsi_speech_service self = None ∧ ∃ v, bsi_slots_per_frame self = Some v ∧ is_u 2 v.

Definition basic_service_information_bits (self : BasicServiceInformation) : list bool :=
  bits_of_Z 3 (circuit_mode_into_raw (bsi_circuit_mode_type self)) ++
  bits_of_Z 1 (Z.b2z (bsi_encryption_flag self)) ++
  bits_of_Z 2 (comm_type_into_raw (bsi_communication_type self)) ++
  match bsi_slots_per_frame self, bsi_speech_service self with
  | Some v, _ | None, Some v => bits_of_Z 2 v
  | None, None => []
  end.

#[global] Instance basic_service_information_codec : BitCodec basic_service_information_ok basic_service_information_bits
  basic_service_information_to_bitbuf basic_service_information_from_bitbuf.
Proof.
  split; intros [m e c sl sp]; unfold basic_service_information_ok; cbn [bsi_circuit_mode_type bsi_slots_per_frame
    bsi_speech_service]; intros Hok; unfold basic_service_information_bits, basic_service_information_to_bitbuf,
    basic_service_information_from_bitbuf; cbn [bsi_circuit_mode_type bsi_slots_per_frame bsi_speech_service
    bsi_encryption_flag bsi_communication_type].
  - do 3 (eapply writes_bind; [pdu_write|]). destruct (is_tch_s m) eqn:Hm; destruct Hok as (-> & v & -> & Hv).
    + destruct m; try done. eapply writes_pure; [done|]. eapply writes_pure; [done|]. pdu_write.
    + eapply writes_pure; [by destruct m|]. rewrite <- (app_nil_r (bits_of_Z 2 v)).
      apply writes_bind; [pdu_write|apply writes_ret].
  - repeat (cbv beta zeta; first [eapply reads_step; [pdu_read|] | eapply reads_pure; [pdu_pure|]]).
    destruct (is_tch_s m) eqn:Hm; destruct Hok as (-> & v & -> & Hv); rewrite <- (app_nil_r (bits_of_Z 2 v));
      (eapply reads_step; [pdu_read|]); apply reads_ret_eq; f_equal; try apply b2z_nonzero;
      f_equal; by eapply wrap_fits; [exact Hv|lia].
Qed.

Lemma basic_service_information_safe : parser_safe basic_service_information_from_bitbuf.
Proof. pdu_safe. Qed.
#[export] Hint Resolve basic_service_information_safe : parser_safe.

(** * Pre-coded status *)

(** Values that are read back: [Reserved] and [NetworkUserSpecific] stay in their
    ranges, a short report has a one-byte reference. *)
Definition pre_coded_status_ok (self : PreCodedStatus) : Prop :=
  match self with
  | PreCodedStatus_Emergency => True
  | PreCodedStatus_Reserved x => (1 ≤ x ≤ 31743)%Z
  | PreCodedStatus_SdsTl r => is_u 8 (message_reference r)
  | PreCodedStatus_NetworkUserSpecific x => (32768 ≤ x < 65536)%Z
  end.

Definition pre_coded_status_raw (self : PreCodedStatus) : Z :=
  match self with
  | PreCodedStatus_Emergency => 0
  | PreCodedStatus_Reserved x | PreCodedStatus_NetworkUserSpecific x => x
  | PreCodedStatus_SdsTl r => 31744 + 256 * short_report_type_into_raw (short_report_type r) + message_reference r
  end.

Lemma short_report_sum t m : (0 ≤ t < 4)%Z → (0 ≤ m < 256)%Z →
  Z.lor (Z.lor (Z.shiftl 31 10) (Z.shiftl t 8)) (Z.land m 255) = (31744 + 256 * t + m)%Z.
Proof.
  intros Ht Hm. change 255%Z with (Z.ones 8). rewrite Z.land_ones, Z.mod_small by lia.
  assert (Z.lor (Z.shiftl 31 10) (Z.shiftl t 8) = Z.shiftl (124 + t) 8) as ->;
    [|rewrite lor_shiftl_add by (unfold is_u; lia); lia].
  assert (t = 0 ∨ t = 1 ∨ t = 2 ∨ t = 3)%Z as [->|[->|[->| ->]]] by lia; reflexivity.
Qed.

Lemma pure_pre_coded p : pre_coded_status_ok p → pure_step (pre_coded_status_into_raw p) (pre_coded_status_raw p).
Proof.
  destruct p as [|x|[t m]|x]; [done|done| |done]. cbn [pre_coded_status_ok message_reference]. intros [H1 H2] bb.
  assert (0 ≤ short_report_type_into_raw t < 4)%Z by (by destruct t).
  cbn [pre_coded_status_into_raw pre_coded_status_raw]. unfold sds_short_report_to_u16. cbn [short_report_type message_reference].
  rewrite wrap_small by (unfold is_u; lia). rewrite short_report_sum by lia. by destruct t.
Qed.

Lemma pre_coded_fits p : pre_coded_status_ok p → is_u 16 (pre_coded_status_raw p).
Proof.
  destruct p as [|x|[t m]|x]; unfold is_u; cbn [pre_coded_status_ok pre_coded_status_raw message_reference short_report_type];
    unfold is_u; try lia. destruct t; cbn [short_report_type_into_raw]; lia.
Qed.

Lemma pre_coded_inverse p : pre_coded_status_ok p → pre_coded_status_from (wrap 16 (pre_coded_status_raw p)) = p.
Proof.
  intros Hp. rewrite wrap_small by (by apply pre_coded_fits). unfold pre_coded_status_from. revert Hp.
  destruct p as [|x|[t m]|x]; cbn [pre_coded_status_ok pre_coded_status_raw]; intros Hp.
  - done.
  - by rewrite (proj2 (Z.eqb_neq _ _)), (proj2 (Z.leb_le _ _)) by lia.
  - cbn [message_reference short_report_type] in *. destruct Hp as [H1 H2].
    assert (0 ≤ short_report_type_into_raw t < 4)%Z by (by destruct t).
    rewrite (proj2 (Z.eqb_neq _ _)), (proj2 (Z.leb_gt _ _)), (proj2 (Z.leb_le _ _)) by lia.
    unfold sds_short_report_from_u16. set (r := short_report_type_into_raw t) in *.
    rewrite !Z.shiftr_div_pow2 by lia. change 255%Z with (Z.ones 8). change 3%Z with (Z.ones 2). rewrite !Z.land_ones by lia.
    change (2 ^ 10)%Z with 1024%Z. change (2 ^ 8)%Z with 256%Z in *. change (2 ^ 2)%Z with 4%Z in *.
    rewrite decide_True by (Z.to_euclidean_division_equations; lia).
    replace (((31744 + 256 * r + m) / 256) `mod` 4)%Z with r by (Z.to_euclidean_division_equations; lia). unfold r. rewrite raw_inverse. do 2 f_equal. Z.to_euclidean_division_equations; lia.
  - by rewrite (proj2 (Z.eqb_neq _ _)), !(proj2 (Z.leb_gt _ _)) by lia.
Qed.

#[export] Hint Resolve pure_pre_coded pre_coded_fits pre_coded_inverse : pdu.

(** * Calling party of a D-SETUP *)

(** The type identifier follows from the address fields that are set. *)
Definition calling_party_type (ssi ext : option Z) : option Z :=
  match ssi, ext with None, _ => None | Some _, None => Some 1%Z | Some _, Some _ => Some 2%Z end.
(** An extension comes with an address. *)
Definition calling_party_ok (ssi ext : option Z) : Prop := is_some ext = true → is_some ssi = true.

Lemma pure_calling_party ssi ext : calling_party_ok ssi ext →
  pure_step (match ssi, ext with
    | None, None => mret None
    | Some _, None => mret (Some 1%Z)
    | Some _, Some _ => mret (Some 2%Z)
    | _, _ => fail (InvalidValue "calling_party_type_identifier" 0)
    end) (calling_party_type ssi ext).
Proof. destruct ssi, ext; unfold calling_party_ok; cbn [is_some]; intros H; [done..|by discriminate H|done]. Qed.

Lemma calling_party_type_fits ssi ext : t2_ok 2 (calling_party_type ssi ext).
Proof. by destruct ssi, ext. Qed.

Lemma calling_party_has_ssi ssi ext :
  bool_decide (calling_party_type ssi ext = Some 1%Z) || bool_decide (calling_party_type ssi ext = Some 2%Z) = is_some ssi.
Proof. by destruct ssi, ext. Qed.

Lemma calling_party_has_ext ssi ext : calling_party_ok ssi ext →
  bool_decide (calling_party_type ssi ext = Some 2%Z) = is_some ext.
Proof. destruct ssi, ext; unfold calling_party_ok; cbn [is_some]; intros H; [done..|by discriminate H|done]. Qed.
#[export] Hint Resolve pure_calling_party calling_party_type_fits calling_party_has_ssi calling_party_has_ext : pdu.

(** * SDS user data *)

(** The bytes of a type-4 message of [rem] bits: as many as are needed, the
    unused bits of the last one zero. *)
Fixpoint sds_bytes_ok (rem : nat) (data : list Z) : Prop :=
  match data with
  | [] => rem = 0
  | b :: data => let k := rem `min` 8 in
      0 < rem ∧ is_u 8 b ∧ (2 ^ Z.of_nat (8 - k) | b)%Z ∧ sds_bytes_ok (rem - k) data
  end.

Fixpoint sds_bytes_bits (rem : nat) (data : list Z) : list bool :=
  match data with
  | [] => []
  | b :: data => let k := rem `min` 8 in
      bits_of_Z k (Z.shiftr b (Z.of_nat (8 - k))) ++ sds_bytes_bits (rem - k) data
  end.

Definition sds_user_data_ok (d : SdsUserData) : Prop :=
  match d with
  | Type1 v => is_u 16 v
  | Type2 v => is_u 32 v
  | Type3 v => is_u 64 v
  | Type4 len_bits data => is_u 11 len_bits ∧ sds_bytes_ok (Z.to_nat len_bits) data
  end.

Definition sds_user_data_bits (d : SdsUserData) : list bool :=
  match d with
  | Type1 v => bits_of_Z 16 v
  | Type2 v => bits_of_Z 32 v
  | Type3 v => bits_of_Z 64 v
  | Type4 len_bits data => bits_of_Z 11 len_bits ++ sds_bytes_bits (Z.to_nat len_bits) data
  end.

Lemma div_ceil_8_step n : 0 < n → div_ceil n 8 = S (div_ceil (n - n `min` 8) 8).
Proof. intros. pose proof (div_ceil_8 n). pose proof (div_ceil_8 (n - n `min` 8)). lia. Qed.

Lemma length_sds_bytes rem data : sds_bytes_ok rem data → length data = div_ceil rem 8.
Proof.
  revert rem. induction data as [|b data IH]; intros rem; cbn [sds_bytes_ok length].
  - by intros ->.
  - intros (Hr & _ & _ & Hd). by rewrite (IH _ Hd), (div_ceil_8_step rem) by done.
Qed.

Lemma top_bits_fit b k : k ≤ 8 → is_u 8 b → is_u (Z.of_nat k) (Z.shiftr b (Z.of_nat (8 - k))).
Proof.
  intros Hk [H1 H2]. unfold is_u. rewrite Z.shiftr_div_pow2 by lia. split; [apply Z.div_pos; lia|].
  apply Z.div_lt_upper_bound; [lia|]. rewrite <- Z.pow_add_r by lia. by replace (Z.of_nat (8 - k) + Z.of_nat k)%Z with 8%Z by lia.
Qed.

Lemma top_bits_shift_back b k : k ≤ 8 → is_u 8 b → (2 ^ Z.of_nat (8 - k) | b)%Z →
  wrap 8 (Z.shiftl (wrap 8 (Z.shiftr b (Z.of_nat (8 - k)))) (Z.of_nat (8 - k))) = b.
Proof.
  intros Hk Hb Hd. rewrite (wrap_fits (Z.of_nat k) 8 (Z.shiftr b _)) by (try lia; by apply top_bits_fit).
  rewrite Z.shiftr_div_pow2, Z.shiftl_mul_pow2 by lia.
  rewrite (Z.mul_comm _ (2 ^ _)), <- Z_div_exact_full_2; [by apply wrap_small|lia|apply Z.mod_divide; [lia|done]].
Qed.

Lemma reads_into_slice_loop rem data pre n : sds_bytes_ok rem data → n = div_ceil rem 8 →
  reads (into_slice_loop n (length pre) rem (pre ++ replicate n 0%Z)) (sds_bytes_bits rem data) (Some (pre ++ data)).
Proof.
  revert rem pre n. induction data as [|b data IH]; intros rem pre n; cbn [sds_bytes_ok sds_bytes_bits].
  - intros -> ->. apply reads_ret.
  - intros (Hr & Hb & Hd & Hok) ->. rewrite (div_ceil_8_step rem) by done. cbn [into_slice_loop replicate]. set (k := rem `min` 8) in *.
    apply (reads_bind _ _ _ _ (Some (Z.shiftr b (Z.of_nat (8 - k))))); [apply reads_bits; [lia|by apply top_bits_fit; [lia|]]|].
    rewrite top_bits_shift_back by (done || lia).
    replace (<[length pre:=b]> (pre ++ 0%Z :: replicate (div_ceil (rem - k) 8) 0%Z))
      with ((pre ++ [b]) ++ replicate (div_ceil (rem - k) 8) 0%Z).
    2: { rewrite <- app_assoc. symmetry. replace (length pre) with (length pre + 0) at 1 by lia. by rewrite insert_app_r. }
    replace (length pre + 1) with (length (pre ++ [b])) by (rewrite length_app; done).
    rewrite (cons_middle b pre data), app_assoc. by apply IH.
Qed.

Lemma reads_into_slice rem data : sds_bytes_ok rem data →
  reads (read_bits_into_slice rem (replicate (div_ceil rem 8) 0%Z)) (sds_bytes_bits rem data) (Some data).
Proof.
  intros Hok. unfold read_bits_into_slice. rewrite length_replicate, Nat.ltb_irrefl. by apply (reads_into_slice_loop rem data []).
Qed.

Lemma writes_sds_bytes n i data : i + n ≤ length data → Forall (is_u 8) data →
  writes (write_sds_bytes n i data) (concat (bits_of_Z 8 <$> take n (drop i data))).
Proof.
  intros Hn Hu. revert i Hn. induction n as [|n IH]; intros i Hn; cbn [write_sds_bytes].
  - rewrite take_0. apply writes_ret.
  - destruct (lookup_lt_is_Some_2 data i ltac:(lia)) as [b Hb]. rewrite (drop_S data b i Hb), firstn_cons, fmap_cons. cbn [concat].
    eapply writes_pure; [by apply pure_unwrap|]. apply writes_bind; [apply writes_bits; [lia|]|].
    + by eapply Forall_lookup_1.
    + rewrite Nat.add_1_r. apply IH. lia.
Qed.

Lemma sds_bytes_split rem data : sds_bytes_ok rem data → sds_bytes_bits rem data =
  concat (bits_of_Z 8 <$> take (rem / 8) data) ++
  match data !! (rem / 8) with Some b => bits_of_Z (rem mod 8) (Z.shiftr b (Z.of_nat (8 - rem mod 8))) | None => [] end.
Proof.
  revert rem. induction data as [|b data IH]; intros rem; cbn [sds_bytes_ok sds_bytes_bits].
  - intros ->. done.
  - intros (Hr & Hb & _ & Hok). destruct (decide (rem < 8)) as [Hlt|Hge].
    + rewrite Nat.div_small, Nat.mod_small by done. rewrite Nat.min_l by lia. cbn [take fmap list_fmap concat app lookup list_lookup].
      rewrite Nat.min_l, Nat.sub_diag in Hok by lia. destruct data as [|c data]; [by rewrite app_nil_r|]. destruct Hok. lia.
    + rewrite Nat.min_r in * by lia. assert (rem / 8 = S ((rem - 8) / 8)) as ->.
      { replace rem with (rem - 8 + 1 * 8) at 1 by lia. rewrite Nat.div_add by lia. lia. }
      assert (rem mod 8 = (rem - 8) mod 8) as ->.
      { replace rem with (rem - 8 + 1 * 8) at 1 by lia. by rewrite Nat.Div0.mod_add. }
      rewrite firstn_cons, fmap_cons. cbn [concat]. rewrite <- app_assoc, (IH _ Hok), Z.shiftr_0_r. done.
Qed.

Lemma sds_bytes_u8 rem data : sds_bytes_ok rem data → Forall (is_u 8) data.
Proof. revert rem. induction data as [|b data IH]; intros rem; [constructor|]. intros (_ & Hb & _ & Hok). eauto. Qed.

Lemma writes_sds_user_data d : sds_user_data_ok d → writes (sds_user_data_to d) (sds_user_data_bits d).
Proof.
  destruct d as [v|v|v|len data]; cbn [sds_user_data_ok sds_user_data_to sds_user_data_bits]; [intros; by apply writes_bits; [lia|]..|].
  intros [Hl Hok]. rewrite (proj2 (Z.ltb_ge _ _)) by (unfold is_u in Hl; lia). pose proof (length_sds_bytes _ _ Hok) as Hlen.
  assert (Z.to_nat len `min` (length data * 8) = Z.to_nat len) as ->.
  { pose proof (div_ceil_8 (Z.to_nat len)). lia. }
  apply writes_bind; [by apply writes_bits; [lia|]|]. cbv zeta. rewrite (sds_bytes_split _ _ Hok).
  set (n := Z.to_nat len) in *. pose proof (Nat.div_mod_eq n 8) as Hn. pose proof (Nat.mod_upper_bound n 8 ltac:(done)) as Hm.
  assert (n / 8 ≤ length data ∧ (0 < n mod 8 → n / 8 < length data)) as [Hfull Hpart].
  { pose proof (div_ceil_8 n). lia. }
  apply writes_bind; [by apply (writes_sds_bytes _ 0); [|eapply sds_bytes_u8]|].
  destruct (Nat.ltb_spec 0 (n mod 8)) as [Hpos|Hz].
  - destruct (lookup_lt_is_Some_2 data (n / 8) (Hpart Hpos)) as [b Hb]. rewrite Hb. eapply writes_pure; [by apply pure_unwrap|].
    apply writes_bits; [lia|]. apply top_bits_fit; [lia|]. pose proof (sds_bytes_u8 _ _ Hok). by eapply Forall_lookup_1.
  - replace (n mod 8) with 0 by lia. destruct (data !! (n / 8)); apply writes_ret.
Qed.

Lemma reads_sds_user_data d : sds_user_data_ok d → reads (sds_user_data_from (wrap 8 (type_identifier d))) (sds_user_data_bits d) d.
Proof.
  rewrite (wrap_fits 2 8) by (lia || by destruct d).
  destruct d as [v|v|v|len data]; cbn [sds_user_data_ok type_identifier sds_user_data_from sds_user_data_bits];
    [intros; rewrite <- (app_nil_r (bits_of_Z _ v)); eapply reads_step; [pdu_read|]; apply reads_ret_eq; pdu_same..|].
  intros [Hl Hok]. eapply reads_step; [pdu_read|]. cbv zeta. rewrite (wrap_fits 11 16) by (done || lia).
  rewrite <- (app_nil_r (sds_bytes_bits _ _)). eapply reads_step; [apply reads_reads_then, reads_into_slice, Hok|].
  eapply reads_pure; [by apply pure_ok_or|apply reads_ret].
Qed.

Lemma type_identifier_fits d : is_u 2 (type_identifier d).
Proof. by destruct d. Qed.

Lemma safe_into_slice n i rem buf : parser_safe (into_slice_loop n i rem buf).
Proof.
  revert i rem buf. induction n as [|n IH]; intros i rem buf; cbn [into_slice_loop]; [apply safe_ret|].
  apply safe_bind; [apply safe_read_bits|]. intros [v|]; [apply IH|apply safe_ret].
Qed.

Lemma safe_sds_user_data v : is_u 2 v → parser_safe (sds_user_data_from (wrap 8 v)).
Proof.
  intros Hv. rewrite (wrap_fits 2 8) by (done || lia). assert (v = 0 ∨ v = 1 ∨ v = 2 ∨ v = 3)%Z as Hc by (unfold is_u in Hv; lia).
  destruct Hc as [->|[->|[->| ->]]]; unfold sds_user_data_from, read_bits_into_slice; cbv zeta;
    repeat (apply safe_bind; [first [apply safe_into_slice|apply safe_read_field|apply safe_ok_or|case_match; auto using safe_into_slice, safe_ret]|intros]);
    apply safe_ret.
Qed.
#[export] Hint Resolve safe_sds_user_data writes_sds_user_data reads_sds_user_data type_identifier_fits : pdu.

(** ** CmceFunctionNotSupported *)

Definition cmce_function_not_supported_ok (self : CmceFunctionNotSupported) : Prop :=
  is_u 5 (cmce_function_not_supported_not_supported_pdu_type self) ∧
  t2_ok 14 (cmce_function_not_supported_call_identifier self) ∧
  is_u 8 (cmce_function_not_supported_function_not_supported_pointer self) ∧
  t2_ok 8 (cmce_function_not_supported_length_of_received_pdu_extract self) ∧
  is_some (cmce_function_not_supported_call_identifier self) = cmce_function_not_supported_call_identifier_present self ∧
  cmce_function_not_supported_function_not_supported_pointer self = 0%Z ∧
  cmce_function_not_supported_length_of_received_pdu_extract self = None ∧
  cmce_function_not_supported_received_pdu_extract self = None.

Lemma cmce_function_not_supported_roundtrip self : cmce_function_not_supported_ok self →
  roundtrips (cmce_function_not_supported_to_bitbuf self) cmce_function_not_supported_from_bitbuf self.
Proof.
  destruct self as [not_supported_pdu_type call_identifier_present call_identifier function_not_supported_pointer
    length_of_received_pdu_extract received_pdu_extract]. unfold cmce_function_not_supported_ok,
    cmce_function_not_supported_to_bitbuf, cmce_function_not_supported_from_bitbuf. cbn
    [cmce_function_not_supported_not_supported_pdu_type cmce_function_not_supported_call_identifier_present
    cmce_function_not_supported_call_identifier cmce_function_not_supported_function_not_supported_pointer
    cmce_function_not_supported_length_of_received_pdu_extract cmce_function_not_supported_received_pdu_extract].
  intros Hok. destruct_and?. subst.
  eexists; split; [pdu_writes|]. pdu_reads. cbn [app].
  eapply (reads_step _ _ [false] [] false); [apply reads_reads_then, reads_obit|]. apply (reads_finish false). pdu_same.
Qed.

(** ** DAlert *)

Definition d_alert_ok (self : DAlert) : Prop :=
  is_u 14 (d_alert_call_identifier self) ∧
  is_u 3 (d_alert_call_time_out_set_up_phase self) ∧
  opt_ok basic_service_information_ok (d_alert_basic_service_information self) ∧
  t2_ok 6 (d_alert_notification_indicator self) ∧
  t3_ok (cmce_type3_elem_id_into_raw CmceType3ElemId_Facility) (d_alert_facility self) ∧
  t3_ok (cmce_type3_elem_id_into_raw CmceType3ElemId_Proprietary) (d_alert_proprietary self).

Lemma d_alert_roundtrip self : d_alert_ok self →
  roundtrips (d_alert_to_bitbuf self) d_alert_from_bitbuf self.
Proof.
  destruct self as [call_identifier call_time_out_set_up_phase reserved simplex_duplex_selection call_queued
    basic_service_information notification_indicator facility proprietary]. unfold d_alert_ok, d_alert_to_bitbuf,
    d_alert_from_bitbuf. cbn [d_alert_call_identifier d_alert_call_time_out_set_up_phase d_alert_reserved
    d_alert_simplex_duplex_selection d_alert_call_queued d_alert_basic_service_information
    d_alert_notification_indicator d_alert_facility d_alert_proprietary].
  intros Hok. destruct_and?. eexists; split; [pdu_writes|pdu_reads].
Qed.

Lemma d_alert_safe : parser_safe d_alert_from_bitbuf.
Proof. pdu_safe. Qed.

(** ** DCallProceeding *)

Definition d_call_proceeding_ok (self : DCallProceeding) : Prop :=
  is_u 14 (d_call_proceeding_call_identifier self) ∧
  opt_ok basic_service_information_ok (d_call_proceeding_basic_service_information self) ∧
  t2_ok 6 (d_call_proceeding_notification_indicator self) ∧
  t3_ok (cmce_type3_elem_id_into_raw CmceType3ElemId_Facility) (d_call_proceeding_facility self) ∧
  t3_ok (cmce_type3_elem_id_into_raw CmceType3ElemId_Proprietary) (d_call_proceeding_proprietary self).

Lemma d_call_proceeding_roundtrip self : d_call_proceeding_ok self →
  roundtrips (d_call_proceeding_to_bitbuf self) d_call_proceeding_from_bitbuf self.
Proof.
  destruct self as [call_identifier call_time_out_set_up_phase hook_method_selection simplex_duplex_selection
    basic_service_information call_status notification_indicator facility proprietary]. unfold
    d_call_proceeding_ok, d_call_proceeding_to_bitbuf, d_call_proceeding_from_bitbuf. cbn
    [d_call_proceeding_call_identifier d_call_proceeding_call_time_out_set_up_phase
    d_call_proceeding_hook_method_selection d_call_proceeding_simplex_duplex_selection
    d_call_proceeding_basic_service_information d_call_proceeding_call_status
    d_call_proceeding_notification_indicator d_call_proceeding_facility d_call_proceeding_proprietary].
  intros Hok. destruct_and?. eexists; split; [pdu_writes|pdu_reads].
Qed.

Lemma d_call_proceeding_safe : parser_safe d_call_proceeding_from_bitbuf.
Proof. pdu_safe. Qed.

(** ** DCallRestore *)

Definition d_call_restore_ok (self : DCallRestore) : Prop :=
  is_u 14 (d_call_restore_call_identifier self) ∧
  is_u 2 (d_call_restore_transmission_grant self) ∧
  t2_ok 14 (d_call_restore_new_call_identifier self) ∧
  t2_ok 4 (d_call_restore_call_time_out self) ∧
  t2_ok 3 (d_call_restore_call_status self) ∧
  t2_ok 9 (d_call_restore_modify self) ∧
  t2_ok 6 (d_call_restore_notification_indicator self) ∧
  t3_ok (cmce_type3_elem_id_into_raw CmceType3ElemId_Facility) (d_call_restore_facility self) ∧
  t3_ok (cmce_type3_elem_id_into_raw CmceType3ElemId_TempAddr) (d_call_restore_temporary_address self) ∧
  t3_ok (cmce_type3_elem_id_into_raw CmceType3ElemId_DmMsAddr) (d_call_restore_dm_ms_address self) ∧
  t3_ok (cmce_type3_elem_id_into_raw CmceType3ElemId_Proprietary) (d_call_restore_proprietary self).

Lemma d_call_restore_roundtrip self : d_call_restore_ok self →
  roundtrips (d_call_restore_to_bitbuf self) d_call_restore_from_bitbuf self.
Proof.
  destruct self as [call_identifier transmission_grant transmission_request_permission
    reset_call_time_out_timer_t310_ new_call_identifier call_time_out call_status modify notification_indicator
    facility temporary_address dm_ms_address proprietary]. unfold d_call_restore_ok, d_call_restore_to_bitbuf,
    d_call_restore_from_bitbuf. cbn [d_call_restore_call_identifier d_call_restore_transmission_grant
    d_call_restore_transmission_request_permission d_call_restore_reset_call_time_out_timer_t310_
    d_call_restore_new_call_identifier d_call_restore_call_time_out d_call_restore_call_status
    d_call_restore_modify d_call_restore_notification_indicator d_call_restore_facility
    d_call_restore_temporary_address d_call_restore_dm_ms_address d_call_restore_proprietary].
  intros Hok. destruct_and?. eexists; split; [pdu_writes|pdu_reads].
Qed.

Lemma d_call_restore_safe : parser_safe d_call_restore_from_bitbuf.
Proof. pdu_safe. Qed.

(** ** DConnect *)

Definition d_connect_ok (self : DConnect) : Prop :=
  is_u 14 (d_connect_call_identifier self) ∧
  t2_ok 4 (d_connect_call_priority self) ∧
  opt_ok basic_service_information_ok (d_connect_basic_service_information self) ∧
  t2_ok 24 (d_connect_temporary_address self) ∧
  t2_ok 6 (d_connect_notification_indicator self) ∧
  t3_ok (cmce_type3_elem_id_into_raw CmceType3ElemId_Facility) (d_connect_facility self) ∧
  t3_ok (cmce_type3_elem_id_into_raw CmceType3ElemId_Proprietary) (d_connect_proprietary self).

Lemma d_connect_roundtrip self : d_connect_ok self →
  roundtrips (d_connect_to_bitbuf self) d_connect_from_bitbuf self.
Proof.
  destruct self as [call_identifier call_time_out hook_method_selection simplex_duplex_selection transmission_grant
    transmission_request_permission call_ownership call_priority basic_service_information temporary_address
    notification_indicator facility proprietary]. unfold d_connect_ok, d_connect_to_bitbuf, d_connect_from_bitbuf.
    cbn [d_connect_call_identifier d_connect_call_time_out d_connect_hook_method_selection
    d_connect_simplex_duplex_selection d_connect_transmission_grant d_connect_transmission_request_permission
    d_connect_call_ownership d_connect_call_priority d_connect_basic_service_information
    d_connect_temporary_address d_connect_notification_indicator d_connect_facility d_connect_proprietary].
  intros Hok. destruct_and?. eexists; split; [pdu_writes|pdu_reads].
Qed.

Lemma d_connect_safe : parser_safe d_connect_from_bitbuf.
Proof. pdu_safe. Qed.

(** ** DConnectAcknowledge *)

Definition d_connect_acknowledge_ok (self : DConnectAcknowledge) : Prop :=
  is_u 14 (d_connect_acknowledge_call_identifier self) ∧
  is_u 4 (d_connect_acknowledge_call_time_out self) ∧
  is_u 2 (d_connect_acknowledge_transmission_grant self) ∧
  t2_ok 6 (d_connect_acknowledge_notification_indicator self) ∧
  t3_ok (cmce_type3_elem_id_into_raw CmceType3ElemId_Facility) (d_connect_acknowledge_facility self) ∧
  t3_ok (cmce_type3_elem_id_into_raw CmceType3ElemId_Proprietary) (d_connect_acknowledge_proprietary self).

Lemma d_connect_acknowledge_roundtrip self : d_connect_acknowledge_ok self →
  roundtrips (d_connect_acknowledge_to_bitbuf self) d_connect_acknowledge_from_bitbuf self.
Proof.
  destruct self as [call_identifier call_time_out transmission_grant transmission_request_permission
    notification_indicator facility proprietary]. unfold d_connect_acknowledge_ok, d_connect_acknowledge_to_bitbuf,
    d_connect_acknowledge_from_bitbuf. cbn [d_connect_acknowledge_call_identifier
    d_connect_acknowledge_call_time_out d_connect_acknowledge_transmission_grant
    d_connect_acknowledge_transmission_request_permission d_connect_acknowledge_notification_indicator
    d_connect_acknowledge_facility d_connect_acknowledge_proprietary].
  intros Hok. destruct_and?. eexists; split; [pdu_writes|pdu_reads].
Qed.

Lemma d_connect_acknowledge_safe : parser_safe d_connect_acknowledge_from_bitbuf.
Proof. pdu_safe. Qed.

(** ** DDisconnect *)

Definition d_disconnect_ok (self : DDisconnect) : Prop :=
  is_u 14 (d_disconnect_call_identifier self) ∧
  t2_ok 6 (d_disconnect_notification_indicator self) ∧
  t3_ok (cmce_type3_elem_id_into_raw CmceType3ElemId_Facility) (d_disconnect_facility self) ∧
  t3_ok (cmce_type3_elem_id_into_raw CmceType3ElemId_Proprietary) (d_disconnect_proprietary self).

Lemma d_disconnect_roundtrip self : d_disconnect_ok self →
  roundtrips (d_disconnect_to_bitbuf self) d_disconnect_from_bitbuf self.
Proof.
  destruct self as [call_identifier disconnect_cause notification_indicator facility proprietary]. unfold
    d_disconnect_ok, d_disconnect_to_bitbuf, d_disconnect_from_bitbuf. cbn [d_disconnect_call_identifier
    d_disconnect_disconnect_cause d_disconnect_notification_indicator d_disconnect_facility
    d_disconnect_proprietary].
  intros Hok. destruct_and?. eexists; split; [pdu_writes|pdu_reads].
Qed.

Lemma d_disconnect_safe : parser_safe d_disconnect_from_bitbuf.
Proof. pdu_safe. Qed.

(** ** DInfo *)

Definition d_info_ok (self : DInfo) : Prop :=
  is_u 14 (d_info_call_identifier self) ∧
  t2_ok 14 (d_info_new_call_identifier self) ∧
  t2_ok 4 (d_info_call_time_out self) ∧
  t2_ok 3 (d_info_call_time_out_set_up_phase_t301_t302_ self) ∧
  t2_ok 1 (d_info_call_ownership self) ∧
  t2_ok 9 (d_info_modify self) ∧
  t2_ok 3 (d_info_call_status self) ∧
  t2_ok 24 (d_info_temporary_address self) ∧
  t2_ok 6 (d_info_notification_indicator self) ∧
  t2_ok 6 (d_info_poll_response_percentage self) ∧
  t2_ok 6 (d_info_poll_response_number self) ∧
  t3_ok (cmce_type3_elem_id_into_raw CmceType3ElemId_Dtmf) (d_info_dtmf self) ∧
  t3_ok (cmce_type3_elem_id_into_raw CmceType3ElemId_Facility) (d_info_facility self) ∧
  t3_ok (cmce_type3_elem_id_into_raw CmceType3ElemId_PollResponseAddr) (d_info_poll_response_addresses self) ∧
  t3_ok (cmce_type3_elem_id_into_raw CmceType3ElemId_Proprietary) (d_info_proprietary self).

Lemma d_info_roundtrip self : d_info_ok self →
  roundtrips (d_info_to_bitbuf self) d_info_from_bitbuf self.
Proof.
  destruct self as [call_identifier reset_call_time_out_timer_t310_ poll_request new_call_identifier call_time_out
    call_time_out_set_up_phase_t301_t302_ call_ownership modify call_status temporary_address
    notification_indicator poll_response_percentage poll_response_number dtmf facility poll_response_addresses
    proprietary]. unfold d_info_ok, d_info_to_bitbuf, d_info_from_bitbuf. cbn [d_info_call_identifier
    d_info_reset_call_time_out_timer_t310_ d_info_poll_request d_info_new_call_identifier d_info_call_time_out
    d_info_call_time_out_set_up_phase_t301_t302_ d_info_call_ownership d_info_modify d_info_call_status
    d_info_temporary_address d_info_notification_indicator d_info_poll_response_percentage
    d_info_poll_response_number d_info_dtmf d_info_facility d_info_poll_response_addresses d_info_proprietary].
  intros Hok. destruct_and?. eexists; split; [pdu_writes|pdu_reads].
Qed.

Lemma d_info_safe : parser_safe d_info_from_bitbuf.
Proof. pdu_safe. Qed.

(** ** DRelease *)

Definition d_release_ok (self : DRelease) : Prop :=
  is_u 14 (d_release_call_identifier self) ∧
  t2_ok 6 (d_release_notification_indicator self) ∧
  t3_ok (cmce_type3_elem_id_into_raw CmceType3ElemId_Facility) (d_release_facility self) ∧
  t3_ok (cmce_type3_elem_id_into_raw CmceType3ElemId_Proprietary) (d_release_proprietary self).

Lemma d_release_roundtrip self : d_release_ok self →
  roundtrips (d_release_to_bitbuf self) d_release_from_bitbuf self.
Proof.
  destruct self as [call_identifier disconnect_cause notification_indicator facility proprietary]. unfold
    d_release_ok, d_release_to_bitbuf, d_release_from_bitbuf. cbn [d_release_call_identifier
    d_release_disconnect_cause d_release_notification_indicator d_release_facility d_release_proprietary].
  intros Hok. destruct_and?. eexists; split; [pdu_writes|pdu_reads].
Qed.

Lemma d_release_safe : parser_safe d_release_from_bitbuf.
Proof. pdu_safe. Qed.

(** ** DSdsData *)

Definition d_sds_data_ok (self : DSdsData) : Prop :=
  t2_ok 24 (d_sds_data_calling_party_address_ssi self) ∧
  is_some (d_sds_data_calling_party_address_ssi self) = (party_type_identifier_into_raw
    (d_sds_data_calling_party_type_identifier self) =? party_type_identifier_into_raw PartyTypeIdentifier_Ssi)%Z ||
    (party_type_identifier_into_raw (d_sds_data_calling_party_type_identifier self) =?
    party_type_identifier_into_raw PartyTypeIdentifier_Tsi)%Z ∧
  t2_ok 24 (d_sds_data_calling_party_extension self) ∧
  is_some (d_sds_data_calling_party_extension self) = (party_type_identifier_into_raw
    (d_sds_data_calling_party_type_identifier self) =? party_type_identifier_into_raw PartyTypeIdentifier_Tsi)%Z ∧
  sds_user_data_ok (d_sds_data_user_defined_data self) ∧
  t3_ok (cmce_type3_elem_id_into_raw CmceType3ElemId_ExtSubscriberNum) (d_sds_data_external_subscriber_number self) ∧
  t3_ok (cmce_type3_elem_id_into_raw CmceType3ElemId_DmMsAddr) (d_sds_data_dm_ms_address self).

Lemma d_sds_data_roundtrip self : d_sds_data_ok self →
  roundtrips (d_sds_data_to_bitbuf self) d_sds_data_from_bitbuf self.
Proof.
  destruct self as [calling_party_type_identifier calling_party_address_ssi calling_party_extension
    user_defined_data external_subscriber_number dm_ms_address]. unfold d_sds_data_ok, d_sds_data_to_bitbuf,
    d_sds_data_from_bitbuf. cbn [d_sds_data_calling_party_type_identifier d_sds_data_calling_party_address_ssi
    d_sds_data_calling_party_extension d_sds_data_user_defined_data d_sds_data_external_subscriber_number
    d_sds_data_dm_ms_address].
  intros Hok. destruct_and?. eexists; split; [pdu_writes|pdu_reads].
Qed.

Lemma d_sds_data_safe : parser_safe d_sds_data_from_bitbuf.
Proof. pdu_safe. Qed.

(** ** DSetup *)

Definition d_setup_ok (self : DSetup) : Prop :=
  is_u 14 (d_setup_call_identifier self) ∧
  basic_service_information_ok (d_setup_basic_service_information self) ∧
  is_u 4 (d_setup_call_priority self) ∧
  t2_ok 6 (d_setup_notification_indicator self) ∧
  t2_ok 24 (d_setup_temporary_address self) ∧
  t2_ok 24 (d_setup_calling_party_address_ssi self) ∧
  t2_ok 24 (d_setup_calling_party_extension self) ∧
  t3_ok (cmce_type3_elem_id_into_raw CmceType3ElemId_ExtSubscriberNum) (d_setup_external_subscriber_number self) ∧
  t3_ok (cmce_type3_elem_id_into_raw CmceType3ElemId_Facility) (d_setup_facility self) ∧
  t3_ok (cmce_type3_elem_id_into_raw CmceType3ElemId_DmMsAddr) (d_setup_dm_ms_address self) ∧
  t3_ok (cmce_type3_elem_id_into_raw CmceType3ElemId_Proprietary) (d_setup_proprietary self) ∧
  calling_party_ok (d_setup_calling_party_address_ssi self) (d_setup_calling_party_extension self).

Lemma d_setup_roundtrip self : d_setup_ok self →
  roundtrips (d_setup_to_bitbuf self) d_setup_from_bitbuf self.
Proof.
  destruct self as [call_identifier call_time_out hook_method_selection simplex_duplex_selection
    basic_service_information transmission_grant transmission_request_permission call_priority
    notification_indicator temporary_address calling_party_address_ssi calling_party_extension
    external_subscriber_number facility dm_ms_address proprietary]. unfold d_setup_ok, d_setup_to_bitbuf,
    d_setup_from_bitbuf. cbn [d_setup_call_identifier d_setup_call_time_out d_setup_hook_method_selection
    d_setup_simplex_duplex_selection d_setup_basic_service_information d_setup_transmission_grant
    d_setup_transmission_request_permission d_setup_call_priority d_setup_notification_indicator
    d_setup_temporary_address d_setup_calling_party_address_ssi d_setup_calling_party_extension
    d_setup_external_subscriber_number d_setup_facility d_setup_dm_ms_address d_setup_proprietary].
  intros Hok. destruct_and?. eexists; split; [pdu_writes|pdu_reads].
Qed.

Lemma d_setup_safe : parser_safe d_setup_from_bitbuf.
Proof. pdu_safe. Qed.

(** ** DStatus *)

Definition d_status_ok (self : DStatus) : Prop :=
  t2_ok 24 (d_status_calling_party_address_ssi self) ∧
  is_some (d_status_calling_party_address_ssi self) = (party_type_identifier_into_raw
    (d_status_calling_party_type_identifier self) =? party_type_identifier_into_raw PartyTypeIdentifier_Ssi)%Z ||
    (party_type_identifier_into_raw (d_status_calling_party_type_identifier self) =? party_type_identifier_into_raw
    PartyTypeIdentifier_Tsi)%Z ∧
  t2_ok 24 (d_status_calling_party_extension self) ∧
  is_some (d_status_calling_party_extension self) = (party_type_identifier_into_raw
    (d_status_calling_party_type_identifier self) =? party_type_identifier_into_raw PartyTypeIdentifier_Tsi)%Z ∧
  pre_coded_status_ok (d_status_pre_coded_status self) ∧
  t3_ok (cmce_type3_elem_id_into_raw CmceType3ElemId_ExtSubscriberNum) (d_status_external_subscriber_number self) ∧
  t3_ok (cmce_type3_elem_id_into_raw CmceType3ElemId_DmMsAddr) (d_status_dm_ms_address self).

Lemma d_status_roundtrip self : d_status_ok self →
  roundtrips (d_status_to_bitbuf self) d_status_from_bitbuf self.
Proof.
  destruct self as [calling_party_type_identifier calling_party_address_ssi calling_party_extension
    pre_coded_status external_subscriber_number dm_ms_address]. unfold d_status_ok, d_status_to_bitbuf,
    d_status_from_bitbuf. cbn [d_status_calling_party_type_identifier d_status_calling_party_address_ssi
    d_status_calling_party_extension d_status_pre_coded_status d_status_external_subscriber_number
    d_status_dm_ms_address].
  intros Hok. destruct_and?. eexists; split; [pdu_writes|pdu_reads].
Qed.

Lemma d_status_safe : parser_safe d_status_from_bitbuf.
Proof. pdu_safe. Qed.

(** ** DTxCeased *)

Definition d_tx_ceased_ok (self : DTxCeased) : Prop :=
  is_u 14 (d_tx_ceased_call_identifier self) ∧
  t2_ok 6 (d_tx_ceased_notification_indicator self) ∧
  t3_ok (cmce_type3_elem_id_into_raw CmceType3ElemId_Facility) (d_tx_ceased_facility self) ∧
  t3_ok (cmce_type3_elem_id_into_raw CmceType3ElemId_DmMsAddr) (d_tx_ceased_dm_ms_address self) ∧
  t3_ok (cmce_type3_elem_id_into_raw CmceType3ElemId_Proprietary) (d_tx_ceased_proprietary self).

Lemma d_tx_ceased_roundtrip self : d_tx_ceased_ok self →
  roundtrips (d_tx_ceased_to_bitbuf self) d_tx_ceased_from_bitbuf self.
Proof.
  destruct self as [call_identifier transmission_request_permission notification_indicator facility dm_ms_address
    proprietary]. unfold d_tx_ceased_ok, d_tx_ceased_to_bitbuf, d_tx_ceased_from_bitbuf. cbn
    [d_tx_ceased_call_identifier d_tx_ceased_transmission_request_permission d_tx_ceased_notification_indicator
    d_tx_ceased_facility d_tx_ceased_dm_ms_address d_tx_ceased_proprietary].
  intros Hok. destruct_and?. eexists; split; [pdu_writes|pdu_reads].
Qed.

Lemma d_tx_ceased_safe : parser_safe d_tx_ceased_from_bitbuf.
Proof. pdu_safe. Qed.

(** ** DTxContinue *)

Definition d_tx_continue_ok (self : DTxContinue) : Prop :=
  is_u 14 (d_tx_continue_call_identifier self) ∧
  t2_ok 6 (d_tx_continue_notification_indicator self) ∧
  t3_ok (cmce_type3_elem_id_into_raw CmceType3ElemId_Facility) (d_tx_continue_facility self) ∧
  t3_ok (cmce_type3_elem_id_into_raw CmceType3ElemId_DmMsAddr) (d_tx_continue_dm_ms_address self) ∧
  t3_ok (cmce_type3_elem_id_into_raw CmceType3ElemId_Proprietary) (d_tx_continue_proprietary self).

Lemma d_tx_continue_roundtrip self : d_tx_continue_ok self →
  roundtrips (d_tx_continue_to_bitbuf self) d_tx_continue_from_bitbuf self.
Proof.
  destruct self as [call_identifier do_continue transmission_request_permission notification_indicator facility
    dm_ms_address proprietary]. unfold d_tx_continue_ok, d_tx_continue_to_bitbuf, d_tx_continue_from_bitbuf. cbn
    [d_tx_continue_call_identifier d_tx_continue_do_continue d_tx_continue_transmission_request_permission
    d_tx_continue_notification_indicator d_tx_continue_facility d_tx_continue_dm_ms_address
    d_tx_continue_proprietary].
  intros Hok. destruct_and?. eexists; split; [pdu_writes|pdu_reads].
Qed.

Lemma d_tx_continue_safe : parser_safe d_tx_continue_from_bitbuf.
Proof. pdu_safe. Qed.

(** ** DTxGranted *)

Definition d_tx_granted_ok (self : DTxGranted) : Prop :=
  is_u 14 (d_tx_granted_call_identifier self) ∧
  is_u 2 (d_tx_granted_transmission_grant self) ∧
  t2_ok 6 (d_tx_granted_notification_indicator self) ∧
  t2_ok 2 (d_tx_granted_transmitting_party_type_identifier self) ∧
  t2_ok 24 (d_tx_granted_transmitting_party_address_ssi self) ∧
  is_some (d_tx_granted_transmitting_party_address_ssi self) = bool_decide
    ((d_tx_granted_transmitting_party_type_identifier self) = Some 1%Z) || bool_decide
    ((d_tx_granted_transmitting_party_type_identifier self) = Some 2%Z) ∧
  t2_ok 24 (d_tx_granted_transmitting_party_extension self) ∧
  is_some (d_tx_granted_transmitting_party_extension self) = bool_decide
    ((d_tx_granted_transmitting_party_type_identifier self) = Some 2%Z) ∧
  t3_ok (cmce_type3_elem_id_into_raw CmceType3ElemId_ExtSubscriberNum) (d_tx_granted_external_subscriber_number
    self) ∧
  t3_ok (cmce_type3_elem_id_into_raw CmceType3ElemId_Facility) (d_tx_granted_facility self) ∧
  t3_ok (cmce_type3_elem_id_into_raw CmceType3ElemId_DmMsAddr) (d_tx_granted_dm_ms_address self) ∧
  t3_ok (cmce_type3_elem_id_into_raw CmceType3ElemId_Proprietary) (d_tx_granted_proprietary self).

Lemma d_tx_granted_roundtrip self : d_tx_granted_ok self →
  roundtrips (d_tx_granted_to_bitbuf self) d_tx_granted_from_bitbuf self.
Proof.
  destruct self as [call_identifier transmission_grant transmission_request_permission encryption_control reserved
    notification_indicator transmitting_party_type_identifier transmitting_party_address_ssi
    transmitting_party_extension external_subscriber_number facility dm_ms_address proprietary]. unfold
    d_tx_granted_ok, d_tx_granted_to_bitbuf, d_tx_granted_from_bitbuf. cbn [d_tx_granted_call_identifier
    d_tx_granted_transmission_grant d_tx_granted_transmission_request_permission d_tx_granted_encryption_control
    d_tx_granted_reserved d_tx_granted_notification_indicator d_tx_granted_transmitting_party_type_identifier
    d_tx_granted_transmitting_party_address_ssi d_tx_granted_transmitting_party_extension
    d_tx_granted_external_subscriber_number d_tx_granted_facility d_tx_granted_dm_ms_address
    d_tx_granted_proprietary].
  intros Hok. destruct_and?. eexists; split; [pdu_writes|pdu_reads].
Qed.

Lemma d_tx_granted_safe : parser_safe d_tx_granted_from_bitbuf.
Proof. pdu_safe. Qed.

(** ** DTxInterrupt *)

Definition d_tx_interrupt_ok (self : DTxInterrupt) : Prop :=
  is_u 14 (d_tx_interrupt_call_identifier self) ∧
  is_u 2 (d_tx_interrupt_transmission_grant self) ∧
  t2_ok 6 (d_tx_interrupt_notification_indicator self) ∧
  t2_ok 2 (d_tx_interrupt_transmitting_party_type_identifier self) ∧
  t2_ok 24 (d_tx_interrupt_transmitting_party_address_ssi self) ∧
  t2_ok 24 (d_tx_interrupt_transmitting_party_extension self) ∧
  t3_ok (cmce_type3_elem_id_into_raw CmceType3ElemId_ExtSubscriberNum) (d_tx_interrupt_external_subscriber_number
    self) ∧
  t3_ok (cmce_type3_elem_id_into_raw CmceType3ElemId_Facility) (d_tx_interrupt_facility self) ∧
  t3_ok (cmce_type3_elem_id_into_raw CmceType3ElemId_DmMsAddr) (d_tx_interrupt_dm_ms_address self) ∧
  t3_ok (cmce_type3_elem_id_into_raw CmceType3ElemId_Proprietary) (d_tx_interrupt_proprietary self).

Lemma d_tx_interrupt_roundtrip self : d_tx_interrupt_ok self →
  roundtrips (d_tx_interrupt_to_bitbuf self) d_tx_interrupt_from_bitbuf self.
Proof.
  destruct self as [call_identifier transmission_grant transmission_request_permission encryption_control reserved
    notification_indicator transmitting_party_type_identifier transmitting_party_address_ssi
    transmitting_party_extension external_subscriber_number facility dm_ms_address proprietary]. unfold
    d_tx_interrupt_ok, d_tx_interrupt_to_bitbuf, d_tx_interrupt_from_bitbuf. cbn [d_tx_interrupt_call_identifier
    d_tx_interrupt_transmission_grant d_tx_interrupt_transmission_request_permission
    d_tx_interrupt_encryption_control d_tx_interrupt_reserved d_tx_interrupt_notification_indicator
    d_tx_interrupt_transmitting_party_type_identifier d_tx_interrupt_transmitting_party_address_ssi
    d_tx_interrupt_transmitting_party_extension d_tx_interrupt_external_subscriber_number d_tx_interrupt_facility
    d_tx_interrupt_dm_ms_address d_tx_interrupt_proprietary].
  intros Hok. destruct_and?. eexists; split; [pdu_writes|pdu_reads].
Qed.

Lemma d_tx_interrupt_safe : parser_safe d_tx_interrupt_from_bitbuf.
Proof. pdu_safe. Qed.

(** ** DTxWait *)

Definition d_tx_wait_ok (self : DTxWait) : Prop :=
  is_u 14 (d_tx_wait_call_identifier self) ∧
  t2_ok 6 (d_tx_wait_notification_indicator self) ∧
  t3_ok (cmce_type3_elem_id_into_raw CmceType3ElemId_Facility) (d_tx_wait_facility self) ∧
  t3_ok (cmce_type3_elem_id_into_raw CmceType3ElemId_DmMsAddr) (d_tx_wait_dm_ms_address self) ∧
  t3_ok (cmce_type3_elem_id_into_raw CmceType3ElemId_Proprietary) (d_tx_wait_proprietary self).

Lemma d_tx_wait_roundtrip self : d_tx_wait_ok self →
  roundtrips (d_tx_wait_to_bitbuf self) d_tx_wait_from_bitbuf self.
Proof.
  destruct self as [call_identifier transmission_request_permission notification_indicator facility dm_ms_address
    proprietary]. unfold d_tx_wait_ok, d_tx_wait_to_bitbuf, d_tx_wait_from_bitbuf. cbn [d_tx_wait_call_identifier
    d_tx_wait_transmission_request_permission d_tx_wait_notification_indicator d_tx_wait_facility
    d_tx_wait_dm_ms_address d_tx_wait_proprietary].
  intros Hok. destruct_and?. eexists; split; [pdu_writes|pdu_reads].
Qed.

Lemma d_tx_wait_safe : parser_safe d_tx_wait_from_bitbuf.
Proof. pdu_safe. Qed.

(** ** UAlert *)

Definition u_alert_ok (self : UAlert) : Prop :=
  is_u 14 (u_alert_call_identifier self) ∧
  opt_ok basic_service_information_ok (u_alert_basic_service_information self) ∧
  t3_ok (cmce_type3_elem_id_into_raw CmceType3ElemId_Facility) (u_alert_facility self) ∧
  t3_ok (cmce_type3_elem_id_into_raw CmceType3ElemId_Proprietary) (u_alert_proprietary self).

Lemma u_alert_roundtrip self : u_alert_ok self →
  roundtrips (u_alert_to_bitbuf self) u_alert_from_bitbuf self.
Proof.
  destruct self as [call_identifier reserved simplex_duplex_selection basic_service_information facility
    proprietary]. unfold u_alert_ok, u_alert_to_bitbuf, u_alert_from_bitbuf. cbn [u_alert_call_identifier
    u_alert_reserved u_alert_simplex_duplex_selection u_alert_basic_service_information u_alert_facility
    u_alert_proprietary].
  intros Hok. destruct_and?. eexists; split; [pdu_writes|pdu_reads].
Qed.

Lemma u_alert_safe : parser_safe u_alert_from_bitbuf.
Proof. pdu_safe. Qed.

(** ** UCallRestore *)

Definition u_call_restore_ok (self : UCallRestore) : Prop :=
  is_u 14 (u_call_restore_call_identifier self) ∧
  is_u 2 (u_call_restore_other_party_type_identifier self) ∧
  t2_ok 8 (u_call_restore_other_party_short_number_address self) ∧
  is_some (u_call_restore_other_party_short_number_address self) = ((u_call_restore_other_party_type_identifier
    self) =? 0)%Z ∧
  t2_ok 24 (u_call_restore_other_party_ssi self) ∧
  is_some (u_call_restore_other_party_ssi self) = ((u_call_restore_other_party_type_identifier self) =? 1)%Z ||
    ((u_call_restore_other_party_type_identifier self) =? 2)%Z ∧
  t2_ok 24 (u_call_restore_other_party_extension self) ∧
  is_some (u_call_restore_other_party_extension self) = ((u_call_restore_other_party_type_identifier self) =? 2)%Z ∧
  opt_ok basic_service_information_ok (u_call_restore_basic_service_information self) ∧
  t3_ok (cmce_type3_elem_id_into_raw CmceType3ElemId_Facility) (u_call_restore_facility self) ∧
  t3_ok (cmce_type3_elem_id_into_raw CmceType3ElemId_DmMsAddr) (u_call_restore_dm_ms_address self) ∧
  t3_ok (cmce_type3_elem_id_into_raw CmceType3ElemId_Proprietary) (u_call_restore_proprietary self).

Lemma u_call_restore_roundtrip self : u_call_restore_ok self →
  roundtrips (u_call_restore_to_bitbuf self) u_call_restore_from_bitbuf self.
Proof.
  destruct self as [call_identifier request_to_transmit_send_data other_party_type_identifier
    other_party_short_number_address other_party_ssi other_party_extension basic_service_information facility
    dm_ms_address proprietary]. unfold u_call_restore_ok, u_call_restore_to_bitbuf, u_call_restore_from_bitbuf. cbn
    [u_call_restore_call_identifier u_call_restore_request_to_transmit_send_data
    u_call_restore_other_party_type_identifier u_call_restore_other_party_short_number_address
    u_call_restore_other_party_ssi u_call_restore_other_party_extension u_call_restore_basic_service_information
    u_call_restore_facility u_call_restore_dm_ms_address u_call_restore_proprietary].
  intros Hok. destruct_and?. eexists; split; [pdu_writes|pdu_reads].
Qed.

Lemma u_call_restore_safe : parser_safe u_call_restore_from_bitbuf.
Proof. pdu_safe. Qed.

(** ** UConnect *)

Definition u_connect_ok (self : UConnect) : Prop :=
  is_u 14 (u_connect_call_identifier self) ∧
  opt_ok basic_service_information_ok (u_connect_basic_service_information self) ∧
  t3_ok (cmce_type3_elem_id_into_raw CmceType3ElemId_Facility) (u_connect_facility self) ∧
  t3_ok (cmce_type3_elem_id_into_raw CmceType3ElemId_Proprietary) (u_connect_proprietary self).

Lemma u_connect_roundtrip self : u_connect_ok self →
  roundtrips (u_connect_to_bitbuf self) u_connect_from_bitbuf self.
Proof.
  destruct self as [call_identifier hook_method_selection simplex_duplex_selection basic_service_information
    facility proprietary]. unfold u_connect_ok, u_connect_to_bitbuf, u_connect_from_bitbuf. cbn
    [u_connect_call_identifier u_connect_hook_method_selection u_connect_simplex_duplex_selection
    u_connect_basic_service_information u_connect_facility u_connect_proprietary].
  intros Hok. destruct_and?. eexists; split; [pdu_writes|pdu_reads].
Qed.

Lemma u_connect_safe : parser_safe u_connect_from_bitbuf.
Proof. pdu_safe. Qed.

(** ** UDisconnect *)

Definition u_disconnect_ok (self : UDisconnect) : Prop :=
  is_u 14 (u_disconnect_call_identifier self) ∧
  t3_ok (cmce_type3_elem_id_into_raw CmceType3ElemId_Facility) (u_disconnect_facility self) ∧
  t3_ok (cmce_type3_elem_id_into_raw CmceType3ElemId_Proprietary) (u_disconnect_proprietary self).

Lemma u_disconnect_roundtrip self : u_disconnect_ok self →
  roundtrips (u_disconnect_to_bitbuf self) u_disconnect_from_bitbuf self.
Proof.
  destruct self as [call_identifier disconnect_cause facility proprietary]. unfold u_disconnect_ok,
    u_disconnect_to_bitbuf, u_disconnect_from_bitbuf. cbn [u_disconnect_call_identifier
    u_disconnect_disconnect_cause u_disconnect_facility u_disconnect_proprietary].
  intros Hok. destruct_and?. eexists; split; [pdu_writes|pdu_reads].
Qed.

Lemma u_disconnect_safe : parser_safe u_disconnect_from_bitbuf.
Proof. pdu_safe. Qed.

(** ** UInfo *)

Definition u_info_ok (self : UInfo) : Prop :=
  is_u 14 (u_info_call_identifier self) ∧
  t2_ok 9 (u_info_modify self) ∧
  t3_ok (cmce_type3_elem_id_into_raw CmceType3ElemId_Dtmf) (u_info_dtmf self) ∧
  t3_ok (cmce_type3_elem_id_into_raw CmceType3ElemId_Facility) (u_info_facility self) ∧
  t3_ok (cmce_type3_elem_id_into_raw CmceType3ElemId_Proprietary) (u_info_proprietary self).

Lemma u_info_roundtrip self : u_info_ok self →
  roundtrips (u_info_to_bitbuf self) u_info_from_bitbuf self.
Proof.
  destruct self as [call_identifier poll_response modify dtmf facility proprietary]. unfold u_info_ok,
    u_info_to_bitbuf, u_info_from_bitbuf. cbn [u_info_call_identifier u_info_poll_response u_info_modify
    u_info_dtmf u_info_facility u_info_proprietary].
  intros Hok. destruct_and?. eexists; split; [pdu_writes|pdu_reads].
Qed.

Lemma u_info_safe : parser_safe u_info_from_bitbuf.
Proof. pdu_safe. Qed.

(** ** URelease *)

Definition u_release_ok (self : URelease) : Prop :=
  is_u 14 (u_release_call_identifier self) ∧
  t3_ok (cmce_type3_elem_id_into_raw CmceType3ElemId_Facility) (u_release_facility self) ∧
  t3_ok (cmce_type3_elem_id_into_raw CmceType3ElemId_Proprietary) (u_release_proprietary self).

Lemma u_release_roundtrip self : u_release_ok self →
  roundtrips (u_release_to_bitbuf self) u_release_from_bitbuf self.
Proof.
  destruct self as [call_identifier disconnect_cause facility proprietary]. unfold u_release_ok,
    u_release_to_bitbuf, u_release_from_bitbuf. cbn [u_release_call_identifier u_release_disconnect_cause
    u_release_facility u_release_proprietary].
  intros Hok. destruct_and?. eexists; split; [pdu_writes|pdu_reads].
Qed.

Lemma u_release_safe : parser_safe u_release_from_bitbuf.
Proof. pdu_safe. Qed.

(** ** USdsData *)

Definition u_sds_data_ok (self : USdsData) : Prop :=
  is_u 4 (u_sds_data_area_selection self) ∧
  t2_ok 8 (u_sds_data_called_party_short_number_address self) ∧
  is_some (u_sds_data_called_party_short_number_address self) = (party_type_identifier_into_raw
    (u_sds_data_called_party_type_identifier self) =? party_type_identifier_into_raw PartyTypeIdentifier_Sna)%Z ∧
  t2_ok 24 (u_sds_data_called_party_ssi self) ∧
  is_some (u_sds_data_called_party_ssi self) = (party_type_identifier_into_raw
    (u_sds_data_called_party_type_identifier self) =? party_type_identifier_into_raw PartyTypeIdentifier_Ssi)%Z ||
    (party_type_identifier_into_raw (u_sds_data_called_party_type_identifier self) =?
    party_type_identifier_into_raw PartyTypeIdentifier_Tsi)%Z ∧
  t2_ok 24 (u_sds_data_called_party_extension self) ∧
  is_some (u_sds_data_called_party_extension self) = (party_type_identifier_into_raw
    (u_sds_data_called_party_type_identifier self) =? party_type_identifier_into_raw PartyTypeIdentifier_Tsi)%Z ∧
  sds_user_data_ok (u_sds_data_user_defined_data self) ∧
  t3_ok (cmce_type3_elem_id_into_raw CmceType3ElemId_ExtSubscriberNum) (u_sds_data_external_subscriber_number self) ∧
  t3_ok (cmce_type3_elem_id_into_raw CmceType3ElemId_DmMsAddr) (u_sds_data_dm_ms_address self).

Lemma u_sds_data_roundtrip self : u_sds_data_ok self →
  roundtrips (u_sds_data_to_bitbuf self) u_sds_data_from_bitbuf self.
Proof.
  destruct self as [area_selection called_party_type_identifier called_party_short_number_address called_party_ssi
    called_party_extension user_defined_data external_subscriber_number dm_ms_address]. unfold u_sds_data_ok,
    u_sds_data_to_bitbuf, u_sds_data_from_bitbuf. cbn [u_sds_data_area_selection
    u_sds_data_called_party_type_identifier u_sds_data_called_party_short_number_address
    u_sds_data_called_party_ssi u_sds_data_called_party_extension u_sds_data_user_defined_data
    u_sds_data_external_subscriber_number u_sds_data_dm_ms_address].
  intros Hok. destruct_and?. eexists; split; [pdu_writes|pdu_reads].
Qed.

Lemma u_sds_data_safe : parser_safe u_sds_data_from_bitbuf.
Proof. pdu_safe. Qed.

(** ** USetup *)

Definition u_setup_ok (self : USetup) : Prop :=
  is_u 4 (u_setup_area_selection self) ∧
  basic_service_information_ok (u_setup_basic_service_information self) ∧
  is_u 4 (u_setup_call_priority self) ∧
  is_u 2 (u_setup_clir_control self) ∧
  t2_ok 8 (u_setup_called_party_short_number_address self) ∧
  is_some (u_setup_called_party_short_number_address self) = (party_type_identifier_into_raw
    (u_setup_called_party_type_identifier self) =? party_type_identifier_into_raw PartyTypeIdentifier_Sna)%Z ∧
  t2_ok 24 (u_setup_called_party_ssi self) ∧
  is_some (u_setup_called_party_ssi self) = (party_type_identifier_into_raw (u_setup_called_party_type_identifier
    self) =? party_type_identifier_into_raw PartyTypeIdentifier_Ssi)%Z || (party_type_identifier_into_raw
    (u_setup_called_party_type_identifier self) =? party_type_identifier_into_raw PartyTypeIdentifier_Tsi)%Z ∧
  t2_ok 24 (u_setup_called_party_extension self) ∧
  is_some (u_setup_called_party_extension self) = (party_type_identifier_into_raw
    (u_setup_called_party_type_identifier self) =? party_type_identifier_into_raw PartyTypeIdentifier_Tsi)%Z ∧
  t3_ok (cmce_type3_elem_id_into_raw CmceType3ElemId_ExtSubscriberNum) (u_setup_external_subscriber_number self) ∧
  t3_ok (cmce_type3_elem_id_into_raw CmceType3ElemId_Facility) (u_setup_facility self) ∧
  t3_ok (cmce_type3_elem_id_into_raw CmceType3ElemId_DmMsAddr) (u_setup_dm_ms_address self) ∧
  t3_ok (cmce_type3_elem_id_into_raw CmceType3ElemId_Proprietary) (u_setup_proprietary self).

Lemma u_setup_roundtrip self : u_setup_ok self →
  roundtrips (u_setup_to_bitbuf self) u_setup_from_bitbuf self.
Proof.
  destruct self as [area_selection hook_method_selection simplex_duplex_selection basic_service_information
    request_to_transmit_send_data call_priority clir_control called_party_type_identifier
    called_party_short_number_address called_party_ssi called_party_extension external_subscriber_number facility
    dm_ms_address proprietary]. unfold u_setup_ok, u_setup_to_bitbuf, u_setup_from_bitbuf. cbn
    [u_setup_area_selection u_setup_hook_method_selection u_setup_simplex_duplex_selection
    u_setup_basic_service_information u_setup_request_to_transmit_send_data u_setup_call_priority
    u_setup_clir_control u_setup_called_party_type_identifier u_setup_called_party_short_number_address
    u_setup_called_party_ssi u_setup_called_party_extension u_setup_external_subscriber_number u_setup_facility
    u_setup_dm_ms_address u_setup_proprietary].
  intros Hok. destruct_and?. eexists; split; [pdu_writes|pdu_reads].
Qed.

Lemma u_setup_safe : parser_safe u_setup_from_bitbuf.
Proof. pdu_safe. Qed.

(** ** UStatus *)

Definition u_status_ok (self : UStatus) : Prop :=
  is_u 4 (u_status_area_selection self) ∧
  t2_ok 8 (u_status_called_party_short_number_address self) ∧
  is_some (u_status_called_party_short_number_address self) = (party_type_identifier_into_raw
    (u_status_called_party_type_identifier self) =? party_type_identifier_into_raw PartyTypeIdentifier_Sna)%Z ∧
  t2_ok 24 (u_status_called_party_ssi self) ∧
  is_some (u_status_called_party_ssi self) = (party_type_identifier_into_raw (u_status_called_party_type_identifier
    self) =? party_type_identifier_into_raw PartyTypeIdentifier_Ssi)%Z || (party_type_identifier_into_raw
    (u_status_called_party_type_identifier self) =? party_type_identifier_into_raw PartyTypeIdentifier_Tsi)%Z ∧
  t2_ok 24 (u_status_called_party_extension self) ∧
  is_some (u_status_called_party_extension self) = (party_type_identifier_into_raw
    (u_status_called_party_type_identifier self) =? party_type_identifier_into_raw PartyTypeIdentifier_Tsi)%Z ∧
  pre_coded_status_ok (u_status_pre_coded_status self) ∧
  t3_ok (cmce_type3_elem_id_into_raw CmceType3ElemId_ExtSubscriberNum) (u_status_external_subscriber_number self) ∧
  t3_ok (cmce_type3_elem_id_into_raw CmceType3ElemId_DmMsAddr) (u_status_dm_ms_address self).

Lemma u_status_roundtrip self : u_status_ok self →
  roundtrips (u_status_to_bitbuf self) u_status_from_bitbuf self.
Proof.
  destruct self as [area_selection called_party_type_identifier called_party_short_number_address called_party_ssi
    called_party_extension pre_coded_status external_subscriber_number dm_ms_address]. unfold u_status_ok,
    u_status_to_bitbuf, u_status_from_bitbuf. cbn [u_status_area_selection u_status_called_party_type_identifier
    u_status_called_party_short_number_address u_status_called_party_ssi u_status_called_party_extension
    u_status_pre_coded_status u_status_external_subscriber_number u_status_dm_ms_address].
  intros Hok. destruct_and?. eexists; split; [pdu_writes|pdu_reads].
Qed.

Lemma u_status_safe : parser_safe u_status_from_bitbuf.
Proof. pdu_safe. Qed.

(** ** UTxCeased *)

Definition u_tx_ceased_ok (self : UTxCeased) : Prop :=
  is_u 14 (u_tx_ceased_call_identifier self) ∧
  t3_ok (cmce_type3_elem_id_into_raw CmceType3ElemId_Facility) (u_tx_ceased_facility self) ∧
  t3_ok (cmce_type3_elem_id_into_raw CmceType3ElemId_DmMsAddr) (u_tx_ceased_dm_ms_address self) ∧
  t3_ok (cmce_type3_elem_id_into_raw CmceType3ElemId_Proprietary) (u_tx_ceased_proprietary self).

Lemma u_tx_ceased_roundtrip self : u_tx_ceased_ok self →
  roundtrips (u_tx_ceased_to_bitbuf self) u_tx_ceased_from_bitbuf self.
Proof.
  destruct self as [call_identifier facility dm_ms_address proprietary]. unfold u_tx_ceased_ok,
    u_tx_ceased_to_bitbuf, u_tx_ceased_from_bitbuf. cbn [u_tx_ceased_call_identifier u_tx_ceased_facility
    u_tx_ceased_dm_ms_address u_tx_ceased_proprietary].
  intros Hok. destruct_and?. eexists; split; [pdu_writes|pdu_reads].
Qed.

Lemma u_tx_ceased_safe : parser_safe u_tx_ceased_from_bitbuf.
Proof. pdu_safe. Qed.

(** ** UTxDemand *)

Definition u_tx_demand_ok (self : UTxDemand) : Prop :=
  is_u 14 (u_tx_demand_call_identifier self) ∧
  is_u 2 (u_tx_demand_tx_demand_priority self) ∧
  t3_ok (cmce_type3_elem_id_into_raw CmceType3ElemId_Facility) (u_tx_demand_facility self) ∧
  t3_ok (cmce_type3_elem_id_into_raw CmceType3ElemId_DmMsAddr) (u_tx_demand_dm_ms_address self) ∧
  t3_ok (cmce_type3_elem_id_into_raw CmceType3ElemId_Proprietary) (u_tx_demand_proprietary self).

Lemma u_tx_demand_roundtrip self : u_tx_demand_ok self →
  roundtrips (u_tx_demand_to_bitbuf self) u_tx_demand_from_bitbuf self.
Proof.
  destruct self as [call_identifier tx_demand_priority encryption_control reserved facility dm_ms_address
    proprietary]. unfold u_tx_demand_ok, u_tx_demand_to_bitbuf, u_tx_demand_from_bitbuf. cbn
    [u_tx_demand_call_identifier u_tx_demand_tx_demand_priority u_tx_demand_encryption_control u_tx_demand_reserved
    u_tx_demand_facility u_tx_demand_dm_ms_address u_tx_demand_proprietary].
  intros Hok. destruct_and?. eexists; split; [pdu_writes|pdu_reads].
Qed.

Lemma u_tx_demand_safe : parser_safe u_tx_demand_from_bitbuf.
Proof. pdu_safe. Qed.

