(* ===== verification/CmceWire.v ===== *)
(** The CMCE PDUs as one set: the parser the code has for each PDU type, the
    routing of received PDUs, and the theorems over all of them. *)
From S2P Require Import Prelude Bits Core BitBuffer BitBufferSpec BitCodec BitBufferThms FieldCodec TypedFieldsSpec PduCodec UmacCircuitMgr CmceCircuitMgr CmceEnums CmcePdus CmcePdusSpec.

(** * The set *)

Inductive CmcePdu : Type :=
| C_CmceFunctionNotSupported (x : CmceFunctionNotSupported)
| C_DAlert (x : DAlert)
| C_DCallProceeding (x : DCallProceeding)
| C_DCallRestore (x : DCallRestore)
| C_DConnect (x : DConnect)
| C_DConnectAcknowledge (x : DConnectAcknowledge)
| C_DDisconnect (x : DDisconnect)
| C_DInfo (x : DInfo)
| C_DRelease (x : DRelease)
| C_DSdsData (x : DSdsData)
| C_DSetup (x : DSetup)
| C_DStatus (x : DStatus)
| C_DTxCeased (x : DTxCeased)
| C_DTxContinue (x : DTxContinue)
| C_DTxGranted (x : DTxGranted)
| C_DTxInterrupt (x : DTxInterrupt)
| C_DTxWait (x : DTxWait)
| C_UAlert (x : UAlert)
| C_UCallRestore (x : UCallRestore)
| C_UConnect (x : UConnect)
| C_UDisconnect (x : UDisconnect)
| C_UInfo (x : UInfo)
| C_URelease (x : URelease)
| C_USdsData (x : USdsData)
| C_USetup (x : USetup)
| C_UStatus (x : UStatus)
| C_UTxCeased (x : UTxCeased)
| C_UTxDemand (x : UTxDemand).

Definition cmce_kind (p : CmcePdu) : CmcePduTypeDl + CmcePduTypeUl :=
  match p with
  | C_CmceFunctionNotSupported _ => inl CmcePduTypeDl_CmceFunctionNotSupported
  | C_DAlert _ => inl CmcePduTypeDl_DAlert
  | C_DCallProceeding _ => inl CmcePduTypeDl_DCallProceeding
  | C_DCallRestore _ => inl CmcePduTypeDl_DCallRestore
  | C_DConnect _ => inl CmcePduTypeDl_DConnect
  | C_DConnectAcknowledge _ => inl CmcePduTypeDl_DConnectAcknowledge
  | C_DDisconnect _ => inl CmcePduTypeDl_DDisconnect
  | C_DInfo _ => inl CmcePduTypeDl_DInfo
  | C_DRelease _ => inl CmcePduTypeDl_DRelease
  | C_DSdsData _ => inl CmcePduTypeDl_DSdsData
  | C_DSetup _ => inl CmcePduTypeDl_DSetup
  | C_DStatus _ => inl CmcePduTypeDl_DStatus
  | C_DTxCeased _ => inl CmcePduTypeDl_DTxCeased
  | C_DTxContinue _ => inl CmcePduTypeDl_DTxContinue
  | C_DTxGranted _ => inl CmcePduTypeDl_DTxGranted
  | C_DTxInterrupt _ => inl CmcePduTypeDl_DTxInterrupt
  | C_DTxWait _ => inl CmcePduTypeDl_DTxWait
  | C_UAlert _ => inr CmcePduTypeUl_UAlert
  | C_UCallRestore _ => inr CmcePduTypeUl_UCallRestore
  | C_UConnect _ => inr CmcePduTypeUl_UConnect
  | C_UDisconnect _ => inr CmcePduTypeUl_UDisconnect
  | C_UInfo _ => inr CmcePduTypeUl_UInfo
  | C_URelease _ => inr CmcePduTypeUl_URelease
  | C_USdsData _ => inr CmcePduTypeUl_USdsData
  | C_USetup _ => inr CmcePduTypeUl_USetup
  | C_UStatus _ => inr CmcePduTypeUl_UStatus
  | C_UTxCeased _ => inr CmcePduTypeUl_UTxCeased
  | C_UTxDemand _ => inr CmcePduTypeUl_UTxDemand
  end.

Definition cmce_type_raw (k : CmcePduTypeDl + CmcePduTypeUl) : Z :=
  match k with inl t => cmce_pdu_type_dl_into_raw t | inr t => cmce_pdu_type_ul_into_raw t end.

Definition cmce_to_bitbuf (p : CmcePdu) : B unit :=
  match p with
  | C_CmceFunctionNotSupported x => cmce_function_not_supported_to_bitbuf x
  | C_DAlert x => d_alert_to_bitbuf x
  | C_DCallProceeding x => d_call_proceeding_to_bitbuf x
  | C_DCallRestore x => d_call_restore_to_bitbuf x
  | C_DConnect x => d_connect_to_bitbuf x
  | C_DConnectAcknowledge x => d_connect_acknowledge_to_bitbuf x
  | C_DDisconnect x => d_disconnect_to_bitbuf x
  | C_DInfo x => d_info_to_bitbuf x
  | C_DRelease x => d_release_to_bitbuf x
  | C_DSdsData x => d_sds_data_to_bitbuf x
  | C_DSetup x => d_setup_to_bitbuf x
  | C_DStatus x => d_status_to_bitbuf x
  | C_DTxCeased x => d_tx_ceased_to_bitbuf x
  | C_DTxContinue x => d_tx_continue_to_bitbuf x
  | C_DTxGranted x => d_tx_granted_to_bitbuf x
  | C_DTxInterrupt x => d_tx_interrupt_to_bitbuf x
  | C_DTxWait x => d_tx_wait_to_bitbuf x
  | C_UAlert x => u_alert_to_bitbuf x
  | C_UCallRestore x => u_call_restore_to_bitbuf x
  | C_UConnect x => u_connect_to_bitbuf x
  | C_UDisconnect x => u_disconnect_to_bitbuf x
  | C_UInfo x => u_info_to_bitbuf x
  | C_URelease x => u_release_to_bitbuf x
  | C_USdsData x => u_sds_data_to_bitbuf x
  | C_USetup x => u_setup_to_bitbuf x
  | C_UStatus x => u_status_to_bitbuf x
  | C_UTxCeased x => u_tx_ceased_to_bitbuf x
  | C_UTxDemand x => u_tx_demand_to_bitbuf x
  end.

Definition as_pdu {A} (C : A → CmcePdu) (parse : B A) : B CmcePdu := x ← parse; mret (C x).

(** The parser of a PDU type; D-FACILITY and U-FACILITY are not modelled. *)
Definition cmce_parser (k : CmcePduTypeDl + CmcePduTypeUl) : option (B CmcePdu) :=
  match k with
  | inl CmcePduTypeDl_CmceFunctionNotSupported => Some (as_pdu C_CmceFunctionNotSupported cmce_function_not_supported_from_bitbuf)
  | inl CmcePduTypeDl_DAlert => Some (as_pdu C_DAlert d_alert_from_bitbuf)
  | inl CmcePduTypeDl_DCallProceeding => Some (as_pdu C_DCallProceeding d_call_proceeding_from_bitbuf)
  | inl CmcePduTypeDl_DCallRestore => Some (as_pdu C_DCallRestore d_call_restore_from_bitbuf)
  | inl CmcePduTypeDl_DConnect => Some (as_pdu C_DConnect d_connect_from_bitbuf)
  | inl CmcePduTypeDl_DConnectAcknowledge => Some (as_pdu C_DConnectAcknowledge d_connect_acknowledge_from_bitbuf)
  | inl CmcePduTypeDl_DDisconnect => Some (as_pdu C_DDisconnect d_disconnect_from_bitbuf)
  | inl CmcePduTypeDl_DInfo => Some (as_pdu C_DInfo d_info_from_bitbuf)
  | inl CmcePduTypeDl_DRelease => Some (as_pdu C_DRelease d_release_from_bitbuf)
  | inl CmcePduTypeDl_DSdsData => Some (as_pdu C_DSdsData d_sds_data_from_bitbuf)
  | inl CmcePduTypeDl_DSetup => Some (as_pdu C_DSetup d_setup_from_bitbuf)
  | inl CmcePduTypeDl_DStatus => Some (as_pdu C_DStatus d_status_from_bitbuf)
  | inl CmcePduTypeDl_DTxCeased => Some (as_pdu C_DTxCeased d_tx_ceased_from_bitbuf)
  | inl CmcePduTypeDl_DTxContinue => Some (as_pdu C_DTxContinue d_tx_continue_from_bitbuf)
  | inl CmcePduTypeDl_DTxGranted => Some (as_pdu C_DTxGranted d_tx_granted_from_bitbuf)
  | inl CmcePduTypeDl_DTxInterrupt => Some (as_pdu C_DTxInterrupt d_tx_interrupt_from_bitbuf)
  | inl CmcePduTypeDl_DTxWait => Some (as_pdu C_DTxWait d_tx_wait_from_bitbuf)
  | inr CmcePduTypeUl_UAlert => Some (as_pdu C_UAlert u_alert_from_bitbuf)
  | inr CmcePduTypeUl_UCallRestore => Some (as_pdu C_UCallRestore u_call_restore_from_bitbuf)
  | inr CmcePduTypeUl_UConnect => Some (as_pdu C_UConnect u_connect_from_bitbuf)
  | inr CmcePduTypeUl_UDisconnect => Some (as_pdu C_UDisconnect u_disconnect_from_bitbuf)
  | inr CmcePduTypeUl_UInfo => Some (as_pdu C_UInfo u_info_from_bitbuf)
  | inr CmcePduTypeUl_URelease => Some (as_pdu C_URelease u_release_from_bitbuf)
  | inr CmcePduTypeUl_USdsData => Some (as_pdu C_USdsData u_sds_data_from_bitbuf)
  | inr CmcePduTypeUl_USetup => Some (as_pdu C_USetup u_setup_from_bitbuf)
  | inr CmcePduTypeUl_UStatus => Some (as_pdu C_UStatus u_status_from_bitbuf)
  | inr CmcePduTypeUl_UTxCeased => Some (as_pdu C_UTxCeased u_tx_ceased_from_bitbuf)
  | inr CmcePduTypeUl_UTxDemand => Some (as_pdu C_UTxDemand u_tx_demand_from_bitbuf)
  | inl CmcePduTypeDl_DFacility | inr CmcePduTypeUl_UFacility | inr CmcePduTypeUl_CmceFunctionNotSupported => None
  end.

Definition cmce_pdu_ok (p : CmcePdu) : Prop :=
  match p with
  | C_CmceFunctionNotSupported x => cmce_function_not_supported_ok x
  | C_DAlert x => d_alert_ok x
  | C_DCallProceeding x => d_call_proceeding_ok x
  | C_DCallRestore x => d_call_restore_ok x
  | C_DConnect x => d_connect_ok x
  | C_DConnectAcknowledge x => d_connect_acknowledge_ok x
  | C_DDisconnect x => d_disconnect_ok x
  | C_DInfo x => d_info_ok x
  | C_DRelease x => d_release_ok x
  | C_DSdsData x => d_sds_data_ok x
  | C_DSetup x => d_setup_ok x
  | C_DStatus x => d_status_ok x
  | C_DTxCeased x => d_tx_ceased_ok x
  | C_DTxContinue x => d_tx_continue_ok x
  | C_DTxGranted x => d_tx_granted_ok x
  | C_DTxInterrupt x => d_tx_interrupt_ok x
  | C_DTxWait x => d_tx_wait_ok x
  | C_UAlert x => u_alert_ok x
  | C_UCallRestore x => u_call_restore_ok x
  | C_UConnect x => u_connect_ok x
  | C_UDisconnect x => u_disconnect_ok x
  | C_UInfo x => u_info_ok x
  | C_URelease x => u_release_ok x
  | C_USdsData x => u_sds_data_ok x
  | C_USetup x => u_setup_ok x
  | C_UStatus x => u_status_ok x
  | C_UTxCeased x => u_tx_ceased_ok x
  | C_UTxDemand x => u_tx_demand_ok x
  end.

(** * Routing ([cmce/components/pc_bs.rs]) *)

Inductive LcmcRoute : Type := CcRd | SsRe | SdsRf | SdsStatus | Unsupported (t : CmcePduTypeUl).

(** [route_lcmc_unitdata_ind] on the SDU of an LCMC unitdata indication. *)
Definition route_lcmc_unitdata_ind : B (option LcmcRoute) :=
  bits ← peek_bits 5;
  match bits with
  | None => mret None
  | Some bits =>
      match cmce_pdu_type_ul_try_from bits with
      | None => mret None
      | Some pdu_type => mret (Some
          match pdu_type with
          | CmcePduTypeUl_UAlert | CmcePduTypeUl_UCallRestore | CmcePduTypeUl_UConnect | CmcePduTypeUl_UDisconnect
          | CmcePduTypeUl_UInfo | CmcePduTypeUl_URelease | CmcePduTypeUl_USetup | CmcePduTypeUl_UTxCeased
          | CmcePduTypeUl_UTxDemand => CcRd
          | CmcePduTypeUl_UFacility => SsRe
          | CmcePduTypeUl_USdsData => SdsRf
          | CmcePduTypeUl_UStatus => SdsStatus
          | CmcePduTypeUl_CmceFunctionNotSupported => Unsupported pdu_type
          end)
      end
  end.

(** The entity whose parsers handle an uplink PDU. *)
Definition uplink_entity (p : CmcePdu) : option LcmcRoute :=
  match p with
  | C_UAlert _ | C_UCallRestore _ | C_UConnect _ | C_UDisconnect _ | C_UInfo _ | C_URelease _ | C_USetup _
  | C_UTxCeased _ | C_UTxDemand _ => Some CcRd
  | C_USdsData _ => Some SdsRf
  | C_UStatus _ => Some SdsStatus
  | _ => None
  end.

(** * Proofs *)

Lemma as_pdu_roundtrips {A} (C : A → CmcePdu) w (parse : B A) x : roundtrips w parse x → roundtrips w (as_pdu C parse) (C x).
Proof.
  intros (bs & Hw & Hr). exists bs. split; [done|]. rewrite <- (app_nil_r bs). eapply reads_bind; [exact Hr|apply reads_ret].
Qed.

Create HintDb cmce_roundtrip discriminated.
#[export] Hint Constants Opaque : cmce_roundtrip.
#[export] Hint Resolve cmce_function_not_supported_roundtrip d_alert_roundtrip d_call_proceeding_roundtrip d_call_restore_roundtrip
    d_connect_roundtrip d_connect_acknowledge_roundtrip d_disconnect_roundtrip d_info_roundtrip d_release_roundtrip
    d_sds_data_roundtrip d_setup_roundtrip d_status_roundtrip d_tx_ceased_roundtrip d_tx_continue_roundtrip
    d_tx_granted_roundtrip d_tx_interrupt_roundtrip d_tx_wait_roundtrip u_alert_roundtrip u_call_restore_roundtrip
    u_connect_roundtrip u_disconnect_roundtrip u_info_roundtrip u_release_roundtrip u_sds_data_roundtrip
    u_setup_roundtrip u_status_roundtrip u_tx_ceased_roundtrip u_tx_demand_roundtrip : cmce_roundtrip.
Create HintDb cmce_safe discriminated.
#[export] Hint Constants Opaque : cmce_safe.
#[export] Hint Resolve d_alert_safe d_call_proceeding_safe d_call_restore_safe d_connect_safe d_connect_acknowledge_safe
    d_disconnect_safe d_info_safe d_release_safe d_sds_data_safe d_setup_safe d_status_safe d_tx_ceased_safe
    d_tx_continue_safe d_tx_granted_safe d_tx_interrupt_safe d_tx_wait_safe u_alert_safe u_call_restore_safe
    u_connect_safe u_disconnect_safe u_info_safe u_release_safe u_sds_data_safe u_setup_safe u_status_safe
    u_tx_ceased_safe u_tx_demand_safe : cmce_safe.

Lemma cmce_pdu_roundtrips p : cmce_pdu_ok p →
  ∃ parse, cmce_parser (cmce_kind p) = Some parse ∧ roundtrips (cmce_to_bitbuf p) parse p.
Proof.
  destruct p; cbn [cmce_pdu_ok cmce_kind cmce_parser cmce_to_bitbuf]; intros Hok;
    (eexists; split; [reflexivity|]; apply as_pdu_roundtrips; eauto with cmce_roundtrip).
Qed.

Lemma as_pdu_inv {A} (C : A → CmcePdu) (parse : B A) bb p bb' : as_pdu C parse bb = Ok p bb' →
  ∃ x, parse bb = Ok x bb' ∧ p = C x.
Proof. unfold as_pdu, mbind, M_bind. destruct (parse bb) as [x bb1| |]; [|done..]. intros [= <- <-]. by exists x. Qed.


Lemma as_pdu_typed {A} (C : A → CmcePdu) (parse : B A) k bb p bb' : (∀ x, cmce_kind (C x) = k) →
  checks_type 5 (cmce_type_raw k) parse → wf bb → as_pdu C parse bb = Ok p bb' →
  cmce_kind p = k ∧ 5 ≤ get_len_remaining bb ∧ Z_of_bits (take 5 (remaining bb)) = cmce_type_raw k.
Proof.
  intros HC Ht Hwf Heq. apply as_pdu_inv in Heq as (x & Heq & ->). split; [apply HC|]. by eapply (checks_type_prefix 5); [lia|..].
Qed.

Lemma cmce_parser_typed k parse bb p bb' : cmce_parser k = Some parse → wf bb → parse bb = Ok p bb' →
  cmce_kind p = k ∧ 5 ≤ get_len_remaining bb ∧ Z_of_bits (take 5 (remaining bb)) = cmce_type_raw k.
Proof.
  destruct k as [[]|[]]; cbn [cmce_parser]; intros [= <-]; (eapply as_pdu_typed; [done|eexists; reflexivity]).
Qed.

(** The PDU type comes first on the wire. *)
Lemma cmce_pdu_prefix p parse bs bb : cmce_parser (cmce_kind p) = Some parse → reads parse bs p → wf bb →
  bs `prefix_of` remaining bb → peek_bits 5 bb = Ok (Some (cmce_type_raw (cmce_kind p))) bb.
Proof.
  intros Hp Hr Hwf Hpre. destruct (cmce_parser_typed _ _ bb _ _ Hp Hwf (Hr bb Hwf Hpre)) as (_ & Hlen & Ht).
  by rewrite peek_bits_ok, Ht by (done || lia).
Qed.

(** C36: Every modelled CMCE PDU with fields in range is written so that the
    parser the code has for its type reads back exactly that PDU, and an uplink
    PDU is routed by its first five bits to the sub-entity that parses it. *)
Theorem cmce_pdus_roundtrip p : cmce_pdu_ok p → ∃ parse bs,
  cmce_parser (cmce_kind p) = Some parse ∧ writes (cmce_to_bitbuf p) bs ∧ reads parse bs p ∧
  ∀ e bb, uplink_entity p = Some e → wf bb → bs `prefix_of` remaining bb → route_lcmc_unitdata_ind bb = Ok (Some e) bb.
Proof.
  intros Hok. destruct (cmce_pdu_roundtrips p Hok) as (parse & Hp & bs & Hw & Hr). exists parse, bs. split_and!; [done..|].
  intros e bb He Hwf Hpre. unfold route_lcmc_unitdata_ind.
  erewrite bind_ok by (by eapply cmce_pdu_prefix). clear -He. by destruct p; cbn in He; simplify_eq.
Qed.

(** A call set-up to a 24-bit address with a facility element. *)
Definition example_setup : CmcePdu :=
  C_USetup (mkUSetup 3 false true (mkBasicServiceInformation TchS false P2Mp None (Some 0)) true 5 0
    PartyTypeIdentifier_Ssi None (Some 0x123456) None None
    (Some (mkType3 (cmce_type3_elem_id_into_raw CmceType3ElemId_Facility) 9 0x155)) None None)%Z.

Lemma cmce_pdus_roundtrip_witness : cmce_pdu_ok example_setup ∧ uplink_entity example_setup = Some CcRd ∧ ∃ parse bs,
  cmce_parser (cmce_kind example_setup) = Some parse ∧ writes (cmce_to_bitbuf example_setup) bs ∧
  reads parse bs example_setup.
Proof.
  assert (cmce_pdu_ok example_setup) as Hok.
  { unfold cmce_pdu_ok, example_setup, u_setup_ok. cbn. unfold is_u. split_and!; try done; try lia. by exists 0%Z. }
  split; [exact Hok|]. split; [reflexivity|].
  destruct (cmce_pdus_roundtrip example_setup Hok) as (parse & bs & H1 & H2 & H3 & _). by exists parse, bs.
Defined.



(** The parser of CMCE FUNCTION NOT SUPPORTED panics on a non-zero pointer. *)
Lemma function_not_supported_panics :
  match from_bitstr "111110000000000000100000000" with
  | Some bb => cmce_function_not_supported_from_bitbuf bb = Panic
  | None => False
  end.
Proof. vm_compute. reflexivity. Qed.
