(* ===== verification/Subscribers.v ===== *)
(** The registry of attached subscribers in the shared state
    (tetra-config/src/bluestation/state.rs), which MM keeps and CMCE and the
    bridges read: who is registered, with which groups, and the dynamic groups
    assigned to each.

    [HashMap]s and [BTreeMap]s are [gmap]s; the values of a [BTreeMap] come in the
    order of the keys.  The loops over a [HashSet] below do not depend on its
    order; a [Vec] collected from one is the set. *)
From S2P Require Import Prelude Bits.
From stdpp Require Import sorting.

(** * Data *)

Record Subscriber : Type := mkSubscriber { sub_issi : Z; sub_attached_groups : gset Z }.

Record DgnaGroup : Type := mkDgnaGroup {
  dg_gssi : Z;
  dg_mnemonic : option string;
  dg_attachment_mode : Z
}.

Record DeviceGroup : Type := mkDeviceGroup {
  dev_gssi : Z;
  dev_mnemonic : option string;
  dev_attachment_mode : option Z;
  dev_is_dynamic : bool;
  dev_is_attached : bool
}.

Record SubscriberRegistry : Type := mkRegistry {
  sr_subscribers : gmap Z Subscriber;
  sr_all_attached_groups : gset Z;
  sr_dgna_groups : gmap Z (gmap Z DgnaGroup)
}.

Definition key_le {A} (p q : Z * A) : Prop := (p.1 ≤ q.1)%Z.
#[export] Instance key_le_dec {A} (p q : Z * A) : Decision (key_le p q) := decide (p.1 ≤ q.1)%Z.

(** [BTreeMap::into_values]. *)
Definition btree_values {A} (m : gmap Z A) : list A := snd <$> merge_sort key_le (map_to_list m).

(** * Operations *)

Definition registry_new : SubscriberRegistry := mkRegistry ∅ ∅ ∅.

Definition is_registered (issi : Z) (r : SubscriberRegistry) : bool := is_some (sr_subscribers r !! issi).

(** [self.subscribers.values().any(|s| s.attached_groups.contains(gssi))] *)
Definition still_has_members (gssi : Z) (m : gmap Z Subscriber) : bool :=
  existsb (λ p, bool_decide (gssi ∈ sub_attached_groups p.2)) (map_to_list m).

Definition drop_if_unused (m : gmap Z Subscriber) (gssi : Z) (all : gset Z) : gset Z :=
  if still_has_members gssi m then all else all ∖ {[gssi]}.

Definition deregister (issi : Z) (r : SubscriberRegistry) : SubscriberRegistry :=
  match sr_subscribers r !! issi with
  | Some subscriber =>
      let subscribers := delete issi (sr_subscribers r) in
      mkRegistry subscribers
        (foldr (drop_if_unused subscribers) (sr_all_attached_groups r) (elements (sub_attached_groups subscriber)))
        (sr_dgna_groups r)
  | None => r
  end.

Definition register (issi : Z) (r : SubscriberRegistry) : SubscriberRegistry :=
  let r := deregister issi r in
  mkRegistry (<[issi := mkSubscriber issi ∅]> (sr_subscribers r)) (sr_all_attached_groups r) (sr_dgna_groups r).

(** [get_subscriber_mut]: the subscriber, created if there is none. *)
Definition get_subscriber (issi : Z) (r : SubscriberRegistry) : Subscriber :=
  default (mkSubscriber issi ∅) (sr_subscribers r !! issi).

Definition affiliate (issi gssi : Z) (r : SubscriberRegistry) : SubscriberRegistry :=
  let s := get_subscriber issi r in
  mkRegistry (<[issi := mkSubscriber (sub_issi s) (sub_attached_groups s ∪ {[gssi]})]> (sr_subscribers r))
    (sr_all_attached_groups r ∪ {[gssi]}) (sr_dgna_groups r).

Definition deaffiliate (issi gssi : Z) (r : SubscriberRegistry) : SubscriberRegistry :=
  let s := get_subscriber issi r in
  let subscribers := <[issi := mkSubscriber (sub_issi s) (sub_attached_groups s ∖ {[gssi]})]> (sr_subscribers r) in
  mkRegistry subscribers
    (if decide (gssi ∈ sub_attached_groups s) then drop_if_unused subscribers gssi (sr_all_attached_groups r)
     else sr_all_attached_groups r) (sr_dgna_groups r).

Definition has_group_members (gssi : Z) (r : SubscriberRegistry) : bool := bool_decide (gssi ∈ sr_all_attached_groups r).

Definition attached_groups_of (issi : Z) (r : SubscriberRegistry) : gset Z :=
  match sr_subscribers r !! issi with Some s => sub_attached_groups s | None => ∅ end.

Definition remember_dgna_group (issi gssi : Z) (mnemonic : option string) (attachment_mode : Z)
    (r : SubscriberRegistry) : SubscriberRegistry :=
  let groups := default ∅ (sr_dgna_groups r !! issi) in
  mkRegistry (sr_subscribers r) (sr_all_attached_groups r)
    (<[issi := <[gssi := mkDgnaGroup gssi mnemonic attachment_mode]> groups]> (sr_dgna_groups r)).

Definition forget_dgna_group (issi gssi : Z) (r : SubscriberRegistry) : bool * SubscriberRegistry :=
  match sr_dgna_groups r !! issi with
  | None => (false, r)
  | Some groups =>
      let removed := is_some (groups !! gssi) in
      let groups := delete gssi groups in
      (removed, mkRegistry (sr_subscribers r) (sr_all_attached_groups r)
        (if decide (groups = ∅) then delete issi (sr_dgna_groups r) else <[issi := groups]> (sr_dgna_groups r)))
  end.

Definition has_dgna_group (issi gssi : Z) (r : SubscriberRegistry) : bool :=
  match sr_dgna_groups r !! issi with Some groups => is_some (groups !! gssi) | None => false end.

Definition dgna_groups_of (issi : Z) (r : SubscriberRegistry) : list DgnaGroup :=
  match sr_dgna_groups r !! issi with Some groups => btree_values groups | None => [] end.

(** The dynamic groups are merged over the attached ones. *)
Definition device_groups_of (issi : Z) (r : SubscriberRegistry) : list DeviceGroup :=
  let attached := attached_groups_of issi r in
  let groups := foldr (λ g, <[g := mkDeviceGroup g None None false true]>) (∅ : gmap Z DeviceGroup) (elements attached) in
  let groups := match sr_dgna_groups r !! issi with
    | Some dynamic_groups =>
        map_fold (λ g d groups, <[g := match groups !! g with
          | Some entry => mkDeviceGroup (dev_gssi entry) (dg_mnemonic d) (Some (dg_attachment_mode d)) true (dev_is_attached entry)
          | None => mkDeviceGroup g (dg_mnemonic d) (Some (dg_attachment_mode d)) true (bool_decide (g ∈ attached))
          end]> groups) groups dynamic_groups
    | None => groups
    end in
  btree_values groups.

(** * Correctness *)

(** The set of attached groups is kept in step with the members. *)
Record registry_ok (r : SubscriberRegistry) : Prop := {
  ro_groups g : g ∈ sr_all_attached_groups r ↔ ∃ i s, sr_subscribers r !! i = Some s ∧ g ∈ sub_attached_groups s;
  ro_key i s : sr_subscribers r !! i = Some s → sub_issi s = i
}.

Lemma still_has_members_spec g m : still_has_members g m = true ↔ ∃ i s, m !! i = Some s ∧ g ∈ sub_attached_groups s.
Proof.
  unfold still_has_members. rewrite existsb_exists. split.
  - intros ([i s] & Hin%list_elem_of_In%elem_of_map_to_list & Hg%bool_decide_eq_true). eauto.
  - intros (i & s & Hm & Hg). exists (i, s). split; [by apply list_elem_of_In, elem_of_map_to_list|by apply bool_decide_eq_true].
Qed.

Lemma elem_of_drop_if_unused m g g' all : g' ∈ drop_if_unused m g all ↔ g' ∈ all ∧ (g' = g → still_has_members g m = true).
Proof. unfold drop_if_unused. destruct (still_has_members g m); set_solver. Qed.

Lemma elem_of_drop_unused m gs g' all : g' ∈ foldr (drop_if_unused m) all gs ↔ g' ∈ all ∧ (g' ∈ gs → still_has_members g' m = true).
Proof.
  induction gs as [|g gs IH]; cbn [foldr]; [set_solver|]. rewrite elem_of_drop_if_unused, IH, elem_of_cons. naive_solver.
Qed.

Lemma subscribers_deregister i r : sr_subscribers (deregister i r) = delete i (sr_subscribers r).
Proof. unfold deregister. destruct (_ !! i) eqn:E; [done|]. by rewrite delete_id. Qed.

Lemma subscribers_register i r : sr_subscribers (register i r) = <[i := mkSubscriber i ∅]> (sr_subscribers r).
Proof. unfold register. cbn. by rewrite subscribers_deregister, insert_delete_eq. Qed.

Lemma registry_new_ok : registry_ok registry_new.
Proof. split; set_solver. Qed.

Lemma deregister_ok i r : registry_ok r → registry_ok (deregister i r).
Proof.
  intros [Hg Hk]. split.
  - intros g. rewrite subscribers_deregister. unfold deregister. destruct (sr_subscribers r !! i) as [s|] eqn:E; cbn [sr_all_attached_groups].
    + rewrite elem_of_drop_unused, elem_of_elements, still_has_members_spec, Hg. split.
      * intros [(j & s' & Hj & Hs') Hm]. destruct (decide (i = j)) as [<-|Hne]; [|exists j, s'; by rewrite lookup_delete_ne].
        simplify_eq. by apply Hm.
      * intros (j & s' & (? & Hj)%lookup_delete_Some & Hs'). split; [eauto|]. intros _. exists j, s'. by rewrite lookup_delete_ne.
    + by rewrite Hg, delete_id.
  - intros j s. rewrite subscribers_deregister. intros (? & ?)%lookup_delete_Some. by apply Hk.
Qed.

Lemma register_ok i r : registry_ok r → registry_ok (register i r).
Proof.
  intros Hr%(deregister_ok i). destruct Hr as [Hg Hk]. split; cbn.
  - intros g. rewrite Hg. split; intros (j & s & Hj & Hs).
    + exists j, s. rewrite lookup_insert_ne; [done|]. intros <-. by rewrite subscribers_deregister, lookup_delete_eq in Hj.
    + apply lookup_insert_Some in Hj as [[<- <-]|[? Hj]]; [set_solver|eauto].
  - intros j s [[<- <-]|[? Hj]]%lookup_insert_Some; [done|by apply Hk].
Qed.

Lemma get_subscriber_groups i r : sub_attached_groups (get_subscriber i r) = attached_groups_of i r.
Proof. unfold get_subscriber, attached_groups_of. by destruct (_ !! i). Qed.

Lemma get_subscriber_issi i r : registry_ok r → sub_issi (get_subscriber i r) = i.
Proof. intros Hr. unfold get_subscriber. destruct (_ !! i) eqn:E; [by eapply ro_key|done]. Qed.

(** Membership in another subscriber's groups. *)
Lemma member_insert r i gs g : (∃ j s, <[i := mkSubscriber i gs]> (sr_subscribers r) !! j = Some s ∧ g ∈ sub_attached_groups s) ↔
  g ∈ gs ∨ ∃ j s, i ≠ j ∧ sr_subscribers r !! j = Some s ∧ g ∈ sub_attached_groups s.
Proof.
  split.
  - intros (j & s & [[<- <-]|[? Hj]]%lookup_insert_Some & Hs); naive_solver.
  - intros [Hg|(j & s & Hne & Hj & Hs)].
    + exists i, (mkSubscriber i gs). by rewrite lookup_insert_eq.
    + exists j, s. by rewrite lookup_insert_ne.
Qed.

Lemma member_split r i g : registry_ok r → g ∈ sr_all_attached_groups r ↔ g ∈ attached_groups_of i r ∨
  ∃ j s, i ≠ j ∧ sr_subscribers r !! j = Some s ∧ g ∈ sub_attached_groups s.
Proof.
  intros Hr. rewrite (ro_groups r Hr). unfold attached_groups_of. split.
  - intros (j & s & Hj & Hs). destruct (decide (i = j)) as [<-|]; [rewrite Hj; by left|right; eauto].
  - intros [Hs|(j & s & ? & ? & ?)]; [|eauto]. destruct (_ !! i) eqn:E; [eauto|set_solver].
Qed.

Lemma affiliate_ok i g r : registry_ok r → registry_ok (affiliate i g r).
Proof.
  intros Hr. unfold affiliate. rewrite get_subscriber_issi, get_subscriber_groups by done. split; cbn.
  - intros g'. rewrite member_insert, !elem_of_union, (member_split r i) by done. tauto.
  - intros j s [[<- <-]|[? Hj]]%lookup_insert_Some; [done|by eapply ro_key].
Qed.

Lemma deaffiliate_ok i g r : registry_ok r → registry_ok (deaffiliate i g r).
Proof.
  intros Hr. unfold deaffiliate. rewrite get_subscriber_issi, get_subscriber_groups by done. split; cbn.
  - intros g'. rewrite member_insert. case_decide as Hg;
      rewrite ?elem_of_drop_if_unused, ?still_has_members_spec, ?member_insert, (member_split r i) by done; rewrite ?elem_of_difference, !elem_of_singleton.
    + destruct (decide (g' = g)) as [->|]; naive_solver.
    + destruct (decide (g' = g)) as [->|]; naive_solver.
  - intros j s [[<- <-]|[? Hj]]%lookup_insert_Some; [done|by eapply ro_key].
Qed.

Lemma remember_ok i g mn mode r : registry_ok r → registry_ok (remember_dgna_group i g mn mode r).
Proof. by intros [? ?]. Qed.

Lemma forget_ok i g r : registry_ok r → registry_ok (forget_dgna_group i g r).2.
Proof. intros [? ?]. unfold forget_dgna_group. by destruct (_ !! i). Qed.

Create HintDb registry discriminated.
#[export] Hint Resolve registry_new_ok deregister_ok register_ok affiliate_ok deaffiliate_ok remember_ok forget_ok : registry.
