(* ===== verification/MmClients.v ===== *)
(** The MM client registry ([tetra-entities/src/mm/components/client_state.rs]):
    the registered terminals with their groups, energy-saving windows and
    registration timers, the rate limit and the size cap.

    The [HashMap]s and [HashSet]s are [gmap]s and [gset]s.  Where the code
    iterates over a map, the sequence of entries it meets is an argument.  An
    [Instant] is a count of nanoseconds; an operation that reads the clock takes
    the instant it reads, and readings within one call are taken to be equal.  A
    signal strength ([f32]) is only stored: it is kept as its bit pattern.  The
    telemetry sink is the list of the events sent, if there is one. *)
From S2P Require Import Prelude Bits TdmaTime Subscribers.

(** * Data *)

Inductive EnergySavingMode : Type := StayAlive | Eg1 | Eg2 | Eg3 | Eg4 | Eg5 | Eg6 | Eg7.

Definition esm_try_from (x : Z) : option EnergySavingMode :=
  match x with
  | 0 => Some StayAlive | 1 => Some Eg1 | 2 => Some Eg2 | 3 => Some Eg3
  | 4 => Some Eg4 | 5 => Some Eg5 | 6 => Some Eg6 | 7 => Some Eg7
  | _ => None
  end%Z.

Definition esm_into_raw (m : EnergySavingMode) : Z :=
  match m with
  | StayAlive => 0 | Eg1 => 1 | Eg2 => 2 | Eg3 => 3 | Eg4 => 4 | Eg5 => 5 | Eg6 => 6 | Eg7 => 7
  end.

(** Length of the monitoring cycle in frames; Eg4 to Eg7 are capped to Eg3. *)
Definition ee_cycle_frames (mode : EnergySavingMode) : option Z :=
  match mode with StayAlive => None | Eg1 => Some 2%Z | Eg2 => Some 3%Z | _ => Some 6%Z end.

Inductive ClientMgrErr : Type :=
| ClientNotFound (issi : Z)
| GroupNotFound (gssi : Z)
| IssiInGroupRange (issi : Z)
| GssiInClientRange (gssi : Z).

Inductive MmClientState : Type := Unknown | Attached | Detached.
#[export] Instance MmClientState_eq_dec : EqDecision MmClientState.
Proof. solve_decision. Defined.

(** Class of MS (tetra-pdus/src/mm/fields/class_of_ms.rs). *)
Record ClassOfMs : Type := mkClassOfMs {
  freq_simplex_duplex : bool;
  multislot_phase_mod : bool;
  concurrent_multicarrier : bool;
  voice : bool;
  e2e_encryption_not_supported : bool;
  circuit_mode_data : bool;
  tetra_packet_data : bool;
  fast_switching : bool;
  dck_encryption : bool;
  clch_needed : bool;
  concurrent_circuit_mode : bool;
  original_advanced_link : bool;
  minimum_mode : bool;
  carrier_specific_signalling : bool;
  authentication : bool;
  sck_encryption : bool;
  air_interface_version : Z;
  common_scch : bool;
  reserved_21 : bool;
  mac_d_blck : bool;
  extended_advanced_link : bool;
  d8psk : bool
}.

Record MmClientProperties : Type := mkClient {
  issi : Z;
  state : MmClientState;
  groups : gset Z;
  energy_saving_mode : EnergySavingMode;
  monitoring_frame : option Z;
  monitoring_multiframe : option Z;
  last_rssi : option Z;
  last_uplink_time : Z;
  last_registration_time : Z;
  class_of_ms : option ClassOfMs;
  last_handle : Z;
  tei : option Z;
  pending_command_sent : bool;
  grace_expires_at : option Z
}.

(** [MmClientProperties::new] at the instant [now]. *)
Definition client_new (now ssi : Z) : MmClientProperties :=
  mkClient ssi Unknown ∅ StayAlive None None None now now None 0 None false None.

(** Field assignments. *)
Definition with_state (st : MmClientState) (c : MmClientProperties) : MmClientProperties :=
  mkClient (issi c) st (groups c) (energy_saving_mode c) (monitoring_frame c) (monitoring_multiframe c) (last_rssi c)
    (last_uplink_time c) (last_registration_time c) (class_of_ms c) (last_handle c) (tei c) (pending_command_sent c)
    (grace_expires_at c).
Definition with_groups (gs : gset Z) (c : MmClientProperties) : MmClientProperties :=
  mkClient (issi c) (state c) gs (energy_saving_mode c) (monitoring_frame c) (monitoring_multiframe c) (last_rssi c)
    (last_uplink_time c) (last_registration_time c) (class_of_ms c) (last_handle c) (tei c) (pending_command_sent c)
    (grace_expires_at c).
Definition with_energy_saving_mode (m : EnergySavingMode) (c : MmClientProperties) : MmClientProperties :=
  mkClient (issi c) (state c) (groups c) m (monitoring_frame c) (monitoring_multiframe c) (last_rssi c)
    (last_uplink_time c) (last_registration_time c) (class_of_ms c) (last_handle c) (tei c) (pending_command_sent c)
    (grace_expires_at c).
Definition with_window (f mf : option Z) (c : MmClientProperties) : MmClientProperties :=
  mkClient (issi c) (state c) (groups c) (energy_saving_mode c) f mf (last_rssi c)
    (last_uplink_time c) (last_registration_time c) (class_of_ms c) (last_handle c) (tei c) (pending_command_sent c)
    (grace_expires_at c).
Definition with_rssi (now rssi : Z) (c : MmClientProperties) : MmClientProperties :=
  mkClient (issi c) (state c) (groups c) (energy_saving_mode c) (monitoring_frame c) (monitoring_multiframe c) (Some rssi)
    now (last_registration_time c) (class_of_ms c) (last_handle c) (tei c) (pending_command_sent c) (grace_expires_at c).
Definition with_timer (t : Z) (pending : bool) (grace : option Z) (c : MmClientProperties) : MmClientProperties :=
  mkClient (issi c) (state c) (groups c) (energy_saving_mode c) (monitoring_frame c) (monitoring_multiframe c) (last_rssi c)
    (last_uplink_time c) t (class_of_ms c) (last_handle c) (tei c) pending grace.
Definition with_class_of_ms (k : option ClassOfMs) (c : MmClientProperties) : MmClientProperties :=
  mkClient (issi c) (state c) (groups c) (energy_saving_mode c) (monitoring_frame c) (monitoring_multiframe c) (last_rssi c)
    (last_uplink_time c) (last_registration_time c) k (last_handle c) (tei c) (pending_command_sent c) (grace_expires_at c).
Definition with_tei (t : Z) (c : MmClientProperties) : MmClientProperties :=
  mkClient (issi c) (state c) (groups c) (energy_saving_mode c) (monitoring_frame c) (monitoring_multiframe c) (last_rssi c)
    (last_uplink_time c) (last_registration_time c) (class_of_ms c) (last_handle c) (Some t) (pending_command_sent c)
    (grace_expires_at c).
Definition with_handle (h : Z) (c : MmClientProperties) : MmClientProperties :=
  mkClient (issi c) (state c) (groups c) (energy_saving_mode c) (monitoring_frame c) (monitoring_multiframe c) (last_rssi c)
    (last_uplink_time c) (last_registration_time c) (class_of_ms c) h (tei c) (pending_command_sent c) (grace_expires_at c).

(** The telemetry events of MM; a vector of groups is a set.  The text of a DGNA
    status is left out. *)
Inductive TelemetryEvent : Type :=
| MsRegistration (issi : Z)
| MsDeregistration (issi : Z)
| MsGroupAttach (issi : Z) (gssis : gset Z)
| MsGroupDetach (issi : Z) (gssis : gset Z)
| MsEnergySaving (issi mode : Z)
| MsTimeoutDrop (issi : Z)
| MsGroupsSnapshot (issi : Z) (gssis : gset Z)
| MsGroupCatalogSnapshot (issi : Z) (groups : list DeviceGroup)
| DgnaStatus (issi gssi : Z) (attach accepted : bool)
| MsRssi (issi rssi_dbfs : Z).

Record MmClientMgr : Type := mkClients {
  clients : gmap Z MmClientProperties;
  telemetry_sink : option (list TelemetryEvent);
  max_clients : nat;
  registration_rate : gmap Z (Z * Z);
  registrations_per_window : Z
}.

Definition DEFAULT_MAX_REGISTERED_CLIENTS : nat := 2048.
Definition DEFAULT_REGISTRATION_RATE_LIMIT_PER_MIN : Z := 30.
Definition REGISTRATION_RATE_TABLE_CAP : Z := 8192.
Definition SECOND : Z := 10 ^ 9.
Definition REGISTRATION_RATE_WINDOW : Z := 60 * SECOND.

(** [now.duration_since(t)], which saturates at zero; [t.elapsed()] is this at
    the current instant. *)
Definition duration_since (now t : Z) : Z := Z.max 0 (now - t).

(** Stubs of the source. *)
Definition is_individual (_ : Z) : bool := true.
Definition in_group_range (_ : Z) : bool := true.
Definition is_group (_ : Z) : bool := true.
Definition may_attach (_ _ : Z) : bool := true.

Abbreviation R := (M MmClientMgr ClientMgrErr).

Definition set_clients (m : gmap Z MmClientProperties) (s : MmClientMgr) : MmClientMgr :=
  mkClients m (telemetry_sink s) (max_clients s) (registration_rate s) (registrations_per_window s).
Definition set_rate (m : gmap Z (Z * Z)) (s : MmClientMgr) : MmClientMgr :=
  mkClients (clients s) (telemetry_sink s) (max_clients s) m (registrations_per_window s).
(** [if let Some(sink) = &self.telemetry_sink { sink.send(e) }] *)
Definition send_event (e : TelemetryEvent) (s : MmClientMgr) : MmClientMgr :=
  mkClients (clients s) ((λ l, l ++ [e]) <$> telemetry_sink s) (max_clients s) (registration_rate s)
    (registrations_per_window s).

Definition clients_new (sink : option (list TelemetryEvent)) : MmClientMgr :=
  mkClients ∅ sink DEFAULT_MAX_REGISTERED_CLIENTS ∅ DEFAULT_REGISTRATION_RATE_LIMIT_PER_MIN.
Definition set_limits (cap : nat) (per_window : Z) (s : MmClientMgr) : MmClientMgr :=
  mkClients (clients s) (telemetry_sink s) cap (registration_rate s) per_window.

(** * Limits *)

Definition client_count (s : MmClientMgr) : nat := size (clients s).
Definition at_capacity (s : MmClientMgr) : bool :=
  negb (max_clients s =? 0) && (max_clients s <=? client_count s).

Definition allow_registration (now ssi : Z) (s : MmClientMgr) : bool * MmClientMgr :=
  if (registrations_per_window s =? 0)%Z then (true, s) else
  let table := if (REGISTRATION_RATE_TABLE_CAP <=? Z.of_nat (size (registration_rate s)))%Z
    then filter (λ p : Z * (Z * Z), (duration_since now p.2.1 < REGISTRATION_RATE_WINDOW)%Z) (registration_rate s)
    else registration_rate s in
  let entry := default (now, 0%Z) (table !! ssi) in
  let entry := if (REGISTRATION_RATE_WINDOW <=? duration_since now entry.1)%Z then (now, 0%Z) else entry in
  if (registrations_per_window s <=? entry.2)%Z then (false, set_rate (<[ssi := entry]> table) s)
  else (true, set_rate (<[ssi := (entry.1, entry.2 + 1)%Z]> table) s).

Definition remove_client (ssi : Z) (s : MmClientMgr) : option MmClientProperties * MmClientMgr :=
  match clients s !! ssi with
  | Some client => (Some client, send_event (MsDeregistration ssi) (set_clients (delete ssi (clients s)) s))
  | None => (None, s)
  end.

(** Sorting by the first component.  The sort of the source is not stable: with
    the sequence of map entries an argument, every sequence it can produce is
    one this sort produces for some order of the entries. *)
Fixpoint insert_by_time (x : Z * Z) (l : list (Z * Z)) : list (Z * Z) :=
  match l with
  | [] => [x]
  | y :: l => if (x.1 <=? y.1)%Z then x :: y :: l else y :: insert_by_time x l
  end.
Definition sort_by_time (l : list (Z * Z)) : list (Z * Z) := foldr insert_by_time [] l.

Fixpoint evict_loop (target : nat) (candidates : list (Z * Z)) (evicted : list Z) (s : MmClientMgr) :
    list Z * MmClientMgr :=
  match candidates with
  | [] => (evicted, s)
  | (_, ssi) :: candidates =>
      if client_count s <=? target then (evicted, s)
      else evict_loop target candidates (evicted ++ [ssi]) (remove_client ssi s).2
  end.

(** [values]: the values of the client map in the order of iteration. *)
Definition enforce_client_cap (values : list MmClientProperties) (protected : gset Z) (s : MmClientMgr) :
    list Z * MmClientMgr :=
  if (max_clients s =? 0) || (client_count s <? max_clients s) then ([], s) else
  let batch := max (max_clients s / 16) 1 in
  let target := max (max_clients s - batch) 1 in
  let candidates := (λ c, (last_uplink_time c, issi c)) <$>
    filter (λ c, groups c = ∅ ∧ issi c ∉ protected) values in
  evict_loop target (sort_by_time candidates) [] s.

(** * Single clients *)

Definition get_client_by_issi (ssi : Z) (s : MmClientMgr) : option MmClientProperties := clients s !! ssi.
Definition client_is_known (ssi : Z) (s : MmClientMgr) : bool := bool_decide (is_Some (clients s !! ssi)).
Definition is_registered_on_handle (ssi handle : Z) (s : MmClientMgr) : bool :=
  match clients s !! ssi with
  | Some c => bool_decide (state c = Attached) && (last_handle c =? handle)%Z
  | None => false
  end.

(** [if let Some(client) = self.clients.get_mut(&issi) { .. }] *)
Definition update_client (ssi : Z) (f : MmClientProperties → MmClientProperties) (s : MmClientMgr) : MmClientMgr :=
  match clients s !! ssi with Some c => set_clients (<[ssi := f c]> (clients s)) s | None => s end.
(** The same with [Err(ClientNotFound)] for an unknown client. *)
Definition modify_client (ssi : Z) (f : MmClientProperties → MmClientProperties) : R unit := λ s,
  match clients s !! ssi with Some _ => Ok tt (update_client ssi f s) | None => Err (ClientNotFound ssi) s end.

Definition set_client_state (ssi : Z) (st : MmClientState) : R unit := modify_client ssi (with_state st).
Definition set_client_energy_saving_mode (ssi : Z) (mode : EnergySavingMode) : R unit :=
  modify_client ssi (with_energy_saving_mode mode);;
  s ← get; put (send_event (MsEnergySaving ssi (esm_into_raw mode)) s).
Definition set_client_monitoring_window (ssi : Z) (frame multiframe : option Z) : R unit :=
  modify_client ssi (with_window frame multiframe).
Definition set_client_class_of_ms (ssi : Z) (class : option ClassOfMs) : R unit :=
  modify_client ssi (with_class_of_ms class).
Definition set_client_tei (ssi t : Z) : R unit := modify_client ssi (with_tei t).
Definition update_client_rssi (now ssi rssi : Z) : MmClientMgr → MmClientMgr := update_client ssi (with_rssi now rssi).
Definition reset_registration_timer (now ssi : Z) : MmClientMgr → MmClientMgr :=
  update_client ssi (with_timer now false None).
Definition set_pending_command (now ssi grace_secs : Z) : MmClientMgr → MmClientMgr :=
  update_client ssi (λ c, with_timer (last_registration_time c) true (Some (now + grace_secs * SECOND))%Z c).
Definition set_client_handle (ssi handle : Z) : MmClientMgr → MmClientMgr := update_client ssi (with_handle handle).

Definition heard_on_air_within (now ssi within : Z) (s : MmClientMgr) : bool :=
  match clients s !! ssi with Some c => (duration_since now (last_uplink_time c) <? within)%Z | None => false end.
Definition is_pending_command (ssi : Z) (s : MmClientMgr) : bool :=
  match clients s !! ssi with Some c => pending_command_sent c | None => false end.

Definition registration_expired (now threshold : Z) (c : MmClientProperties) : bool :=
  if pending_command_sent c then match grace_expires_at c with Some d => (d <=? now)%Z | None => true end
  else (threshold <? duration_since now (last_registration_time c))%Z.
(** [entries]: the entries of the client map in the order of iteration. *)
Definition collect_expired_registrations (now interval_secs : Z) (entries : list (Z * MmClientProperties)) : list Z :=
  if (interval_secs =? 0)%Z then []
  else fst <$> filter (λ p, registration_expired now (interval_secs * SECOND) p.2 = true) entries.

Definition should_send_t351_command_now (now ssi : Z) (t : TdmaTime) (interval_secs window_wait_secs : Z)
    (s : MmClientMgr) : bool :=
  match clients s !! ssi with
  | None => true
  | Some c =>
      let reachable_now := match ee_cycle_frames (energy_saving_mode c) with
        | None => true
        | Some cycle_len => match monitoring_frame c, monitoring_multiframe c with
            | Some f, Some mf => in_ee_monitoring_window t f mf cycle_len
            | _, _ => true
            end
        end in
      reachable_now ||
      (interval_secs + window_wait_secs <=? duration_since now (last_registration_time c) / SECOND)%Z
  end.

(** * Registration and groups *)

Definition try_register_client (now ssi : Z) (attached : bool) : R bool := λ s,
  if is_individual ssi then
    let elem := with_state (if attached then Attached else Unknown) (client_new now ssi) in
    Ok true (send_event (MsRegistration ssi) (set_clients (<[ssi := elem]> (delete ssi (clients s))) s))
  else Err (IssiInGroupRange ssi) s.

Definition all_known_issis (entries : list (Z * MmClientProperties)) : list Z := fst <$> entries.

Definition ee_window (c : MmClientProperties) : option (Z * Z * Z * Z) :=
  cycle_len ← ee_cycle_frames (energy_saving_mode c);
  frame ← monitoring_frame c;
  mframe ← monitoring_multiframe c;
  if (cycle_len <? 2)%Z || negb ((1 <=? frame) && (frame <=? 18))%Z || negb ((1 <=? mframe) && (mframe <=? 60))%Z
  then None else Some (issi c, frame, mframe, cycle_len).
Definition ee_monitoring_windows (values : list MmClientProperties) : list (Z * Z * Z * Z) := omap ee_window values.

Definition snapshot_for_recovery (values : list MmClientProperties) : list (Z * gset Z * EnergySavingMode) :=
  (λ c, (issi c, groups c, energy_saving_mode c)) <$> values.

Definition restore_client (now ssi : Z) (gs : list Z) (esm : EnergySavingMode) (s : MmClientMgr) : MmClientMgr :=
  let client := with_energy_saving_mode esm (with_state Detached (client_new now ssi)) in
  let client := foldl (λ c g, with_groups (groups c ∪ {[g]}) c) client gs in
  set_clients (<[ssi := client]> (clients s)) s.

Definition client_detach_all_groups (ssi : Z) : R bool := λ s,
  match clients s !! ssi with
  | Some client => Ok true (update_client ssi (with_groups ∅) (send_event (MsGroupDetach (issi client) (groups client)) s))
  | None => Err (ClientNotFound ssi) s
  end.

Definition client_group_attach (ssi gssi : Z) (do_attach : bool) : R bool := λ s,
  if negb (in_group_range gssi) then Err (GssiInClientRange gssi) s
  else if negb (is_group gssi) then Err (GroupNotFound gssi) s
  else if negb (may_attach ssi gssi) then Err (GroupNotFound gssi) s
  else match clients s !! ssi with
  | Some client =>
      if do_attach then
        Ok (bool_decide (gssi ∉ groups client))
          (update_client ssi (with_groups (groups client ∪ {[gssi]}))
            (send_event (MsGroupAttach (issi client) {[gssi]}) s))
      else Ok (bool_decide (gssi ∈ groups client)) (update_client ssi (with_groups (groups client ∖ {[gssi]})) s)
  | None => Err (ClientNotFound ssi) s
  end.

(** * Granting energy economy ([MmBs::grant_energy_saving] of mm_bs.rs) *)

Record EnergySavingInformation : Type := mkEsi {
  esi_mode : EnergySavingMode;
  esi_frame_number : option Z;
  esi_multiframe_number : option Z
}.

Definition grant_energy_saving (ssi : Z) (requested : EnergySavingMode) : EnergySavingInformation :=
  let granted := match requested with
    | StayAlive => StayAlive | Eg1 => Eg1 | Eg2 => Eg2 | Eg3 => Eg3 | _ => Eg3
    end in
  match ee_cycle_frames granted with
  | None => mkEsi granted None None
  | Some cycle =>
      let phase := (ssi mod cycle) mod 2 ^ 8 in
      mkEsi granted (Some (phase mod 18 + 1)) (Some (phase / 18 + 1))
  end%Z.
