(* ===== verification/MmClientsSpec.v ===== *)
(** The MM client registry: what the size cap and the rate limit guarantee, what
    survives a recovery, and when a registration command may be sent. *)
From stdpp Require Import sorting.
From S2P Require Import Prelude Bits TdmaTime MmClients.

(** * Invariant *)

(** Every client is stored under its own ISSI. *)
Definition clients_ok (s : MmClientMgr) : Prop := map_Forall (λ k c, issi c = k) (clients s).

(** [vs] and [es] are the values and entries of the client map in some order. *)
Definition values_of (s : MmClientMgr) (vs : list MmClientProperties) : Prop := vs ≡ₚ (map_to_list (clients s)).*2.
Definition entries_of (s : MmClientMgr) (es : list (Z * MmClientProperties)) : Prop := es ≡ₚ map_to_list (clients s).

Lemma elem_of_values s vs c : clients_ok s → values_of s vs → c ∈ vs ↔ clients s !! issi c = Some c.
Proof.
  intros Hok ->. rewrite list_elem_of_fmap. split.
  - intros ([k c'] & -> & Hc%elem_of_map_to_list). cbn. by rewrite (Hok k c' Hc).
  - intros Hc. exists (issi c, c). split; [done|]. by apply elem_of_map_to_list.
Qed.

Lemma NoDup_values s vs : clients_ok s → values_of s vs → NoDup (issi <$> vs).
Proof.
  intros Hok Hv. assert (issi <$> vs ≡ₚ (map_to_list (clients s)).*1) as ->; [|apply NoDup_fst_map_to_list].
  rewrite Hv, <- list_fmap_compose. apply Permutation_refl', list_fmap_ext. intros i [k c] Hi. cbn.
  apply (Hok k c), elem_of_map_to_list. by eapply list_elem_of_lookup_2.
Qed.

Inductive client_op : Type :=
| OpRegister (now ssi : Z) (attached : bool)
| OpRemove (ssi : Z)
| OpState (ssi : Z) (st : MmClientState)
| OpMode (ssi : Z) (mode : EnergySavingMode)
| OpWindow (ssi : Z) (f mf : option Z)
| OpClass (ssi : Z) (k : option ClassOfMs)
| OpTei (ssi t : Z)
| OpRssi (now ssi rssi : Z)
| OpTimer (now ssi : Z)
| OpPending (now ssi grace : Z)
| OpHandle (ssi h : Z)
| OpDetachAll (ssi : Z)
| OpAttach (ssi gssi : Z) (on : bool)
| OpRestore (now ssi : Z) (gs : list Z) (esm : EnergySavingMode)
| OpAllow (now ssi : Z)
| OpEnforce (vs : list MmClientProperties) (protected : gset Z)
| OpLimits (cap : nat) (per_window : Z).

(** The registry after an operation, whether it succeeded or not. *)
Definition registry_after {A} (r : outcome MmClientMgr ClientMgrErr A) (s : MmClientMgr) : MmClientMgr :=
  match r with Ok _ s' | Err _ s' => s' | Panic => s end.
Definition client_exec (op : client_op) (s : MmClientMgr) : MmClientMgr :=
  match op with
  | OpRegister now ssi a => registry_after (try_register_client now ssi a s) s
  | OpRemove ssi => (remove_client ssi s).2
  | OpState ssi st => registry_after (set_client_state ssi st s) s
  | OpMode ssi m => registry_after (set_client_energy_saving_mode ssi m s) s
  | OpWindow ssi f mf => registry_after (set_client_monitoring_window ssi f mf s) s
  | OpClass ssi k => registry_after (set_client_class_of_ms ssi k s) s
  | OpTei ssi t => registry_after (set_client_tei ssi t s) s
  | OpRssi now ssi r => update_client_rssi now ssi r s
  | OpTimer now ssi => reset_registration_timer now ssi s
  | OpPending now ssi g => set_pending_command now ssi g s
  | OpHandle ssi h => set_client_handle ssi h s
  | OpDetachAll ssi => registry_after (client_detach_all_groups ssi s) s
  | OpAttach ssi g on => registry_after (client_group_attach ssi g on s) s
  | OpRestore now ssi gs esm => restore_client now ssi gs esm s
  | OpAllow now ssi => (allow_registration now ssi s).2
  | OpEnforce vs protected => (enforce_client_cap vs protected s).2
  | OpLimits cap w => set_limits cap w s
  end.

Definition client_run (ops : list client_op) (s : MmClientMgr) : MmClientMgr := foldl (λ s op, client_exec op s) s ops.

Lemma update_client_ok ssi f s : (∀ c, issi (f c) = issi c) → clients_ok s → clients_ok (update_client ssi f s).
Proof.
  intros Hf Hok. unfold update_client. destruct (clients s !! ssi) as [c|] eqn:Hc; [|done].
  apply map_Forall_insert_2; [|done]. by rewrite Hf, (Hok ssi c Hc).
Qed.

Lemma modify_client_ok ssi f s : (∀ c, issi (f c) = issi c) → clients_ok s → clients_ok (registry_after (modify_client ssi f s) s).
Proof. intros Hf Hok. unfold modify_client. destruct (clients s !! ssi); [by apply update_client_ok|done]. Qed.

Lemma remove_client_ok ssi s : clients_ok s → clients_ok (remove_client ssi s).2.
Proof. intros Hok. unfold remove_client. destruct (clients s !! ssi); [by apply map_Forall_delete|done]. Qed.

Lemma evict_loop_ok target cs ev s : clients_ok s → clients_ok (evict_loop target cs ev s).2.
Proof.
  revert ev s. induction cs as [|[t i] cs IH]; intros ev s Hok; [done|]. cbn [evict_loop].
  case_match; [done|]. by apply IH, remove_client_ok.
Qed.

Lemma restored_groups gs c : foldl (λ c g, with_groups (groups c ∪ {[g]}) c) c gs = with_groups (groups c ∪ list_to_set gs) c.
Proof.
  revert c. induction gs as [|g gs IH]; intros c; cbn [foldl].
  - destruct c. unfold with_groups. cbn. f_equal. set_solver.
  - rewrite IH. unfold with_groups. cbn. f_equal. set_solver.
Qed.

Lemma client_exec_ok op s : clients_ok s → clients_ok (client_exec op s).
Proof.
  intros Hok. destruct op; cbn [client_exec]; try (by apply modify_client_ok); try (by apply update_client_ok); try done.
  - apply map_Forall_insert_2; [done|by apply map_Forall_delete].
  - by apply remove_client_ok.
  - unfold set_client_energy_saving_mode, mbind, M_bind, modify_client.
    destruct (clients s !! ssi); [by apply (update_client_ok ssi)|done].
  - unfold client_detach_all_groups. destruct (clients s !! ssi); [by apply update_client_ok|done].
  - unfold client_group_attach. cbn. destruct (clients s !! ssi); [|done].
    destruct on; by apply update_client_ok.
  - unfold restore_client. rewrite restored_groups. by apply map_Forall_insert_2.
  - unfold allow_registration. by repeat case_match.
  - unfold enforce_client_cap. case_match; [done|]. by apply evict_loop_ok.
Qed.

Lemma client_run_ok ops sink : clients_ok (client_run ops (clients_new sink)).
Proof.
  unfold client_run. assert (clients_ok (clients_new sink)) as Hok by apply map_Forall_empty. revert Hok.
  generalize (clients_new sink). induction ops as [|op ops IH]; intros s Hok; [done|]. cbn. by apply IH, client_exec_ok.
Qed.

(** * The size cap *)

Definition earlier (a b : Z * Z) : Prop := (a.1 ≤ b.1)%Z.

Lemma insert_by_time_perm x l : insert_by_time x l ≡ₚ x :: l.
Proof.
  induction l as [|y l IH]; [done|]. cbn [insert_by_time]. case_match; [done|]. rewrite IH. apply Permutation_swap.
Qed.

Lemma sort_by_time_perm l : sort_by_time l ≡ₚ l.
Proof. induction l as [|x l IH]; [done|]. cbn. by rewrite insert_by_time_perm, IH. Qed.

Lemma insert_by_time_sorted x l : StronglySorted earlier l → StronglySorted earlier (insert_by_time x l).
Proof.
  induction 1 as [|y l Hs IH Hy]; [by repeat constructor|]. cbn [insert_by_time].
  destruct (Z.leb_spec x.1 y.1) as [Hle|Hlt].
  - constructor; [by constructor|]. constructor; [done|].
    eapply Forall_impl; [exact Hy|]. intros z Hz. unfold earlier in *. lia.
  - constructor; [done|]. rewrite insert_by_time_perm. constructor; [unfold earlier; lia|done].
Qed.

Lemma sort_by_time_sorted l : StronglySorted earlier (sort_by_time l).
Proof. induction l; [constructor|by apply insert_by_time_sorted]. Qed.

Lemma sorted_take_drop l k a b : StronglySorted earlier l → a ∈ take k l → b ∈ drop k l → earlier a b.
Proof. intros Hs. rewrite <- (take_drop k l) in Hs. by apply StronglySorted_app_1_elem_of. Qed.

(** The clients that may be evicted. *)
Definition evictable (protected : gset Z) (c : MmClientProperties) : Prop := groups c = ∅ ∧ issi c ∉ protected.

Definition evict_target (s : MmClientMgr) : nat := max (max_clients s - max (max_clients s / 16) 1) 1.

Definition send_events (es : list TelemetryEvent) (s : MmClientMgr) : option (list TelemetryEvent) :=
  (λ l, l ++ es) <$> telemetry_sink s.

Definition without_clients (ks : list Z) (m : gmap Z MmClientProperties) : gmap Z MmClientProperties :=
  filter (λ p : Z * MmClientProperties, p.1 ∉ ks) m.

Lemma without_clients_cons k ks m : without_clients ks (delete k m) = without_clients (k :: ks) m.
Proof.
  apply map_eq. intros i. unfold without_clients. apply option_eq. intros c.
  rewrite !map_lookup_filter_Some, lookup_delete_Some, not_elem_of_cons. cbn. naive_solver.
Qed.

Lemma evict_loop_spec target cs ev s : NoDup cs.*2 → (∀ p, p ∈ cs → is_Some (clients s !! p.2)) →
  ∃ k s', k ≤ length cs ∧ evict_loop target cs ev s = (ev ++ take k cs.*2, s') ∧
    clients s' = without_clients (take k cs.*2) (clients s) ∧ client_count s' + k = client_count s ∧
    max_clients s' = max_clients s ∧ telemetry_sink s' = send_events (MsDeregistration <$> take k cs.*2) s ∧
    (k = length cs ∨ client_count s' ≤ target) ∧ (0 < k → target ≤ client_count s').
Proof.
  assert (∀ s : MmClientMgr, clients s = without_clients [] (clients s)) as Hnil.
  { intros s0. symmetry. apply map_filter_id. intros i c _. apply not_elem_of_nil. }
  assert (∀ s : MmClientMgr, telemetry_sink s = send_events [] s) as Htel.
  { intros s0. unfold send_events. destruct (telemetry_sink s0); [|done]. cbn. by rewrite app_nil_r. }
  revert ev s. induction cs as [|[t i] cs IH]; intros ev s Hnd Hin.
  - exists 0, s. cbn. rewrite app_nil_r. split_and!; auto with lia.
  - cbn [fmap list_fmap] in Hnd. apply NoDup_cons in Hnd as [Hi Hnd]. cbn [evict_loop].
    destruct (Nat.leb_spec (client_count s) target) as [Hle|Hgt].
    { exists 0, s. cbn. rewrite app_nil_r. split_and!; auto with lia. }
    destruct (Hin (t, i)) as [c Hc]; [by left|]. cbn in Hc. unfold remove_client. rewrite Hc. cbn [snd].
    set (s1 := send_event _ _). assert (client_count s = S (client_count s1)) as Hcount.
    { unfold client_count, s1 in *. cbn. rewrite map_size_delete_Some by (by exists c). lia. }
    destruct (IH (ev ++ [i]) s1) as (k & s' & Hk & Heq & Hcl & Hct & Hmax & Hev & Hstop & Hlow); [done| |].
    { intros [t' j] Hj. cbn. rewrite lookup_delete_ne; [apply (Hin (t', j)); by right|].
      intros <-. apply Hi, list_elem_of_fmap. by exists (t', i). }
    exists (S k), s'. cbn. split_and!; [lia| | |lia|done| | |].
    + rewrite Heq. by rewrite <- app_assoc.
    + rewrite Hcl. apply without_clients_cons.
    + rewrite Hev. unfold send_events, s1. cbn. destruct (telemetry_sink s); [|done]. cbn. by rewrite <- app_assoc.
    + destruct Hstop as [->|?]; [by left|by right].
    + intros _. destruct k; [lia|]. apply Hlow. lia.
Qed.

(** What enforcing the cap promises: only idle clients outside [protected] are
    evicted, the longest unheard first, each is deregistered; and if the
    registry is still full, nobody evictable is left (or the cap is one). *)
Record cap_enforced (protected : gset Z) (s : MmClientMgr) (evicted : list Z) (s' : MmClientMgr) : Prop := {
  ce_idle i : i ∈ evicted → ∃ c, clients s !! i = Some c ∧ evictable protected c;
  ce_nodup : NoDup evicted;
  ce_gone : clients s' = without_clients evicted (clients s);
  ce_told : telemetry_sink s' = send_events (MsDeregistration <$> evicted) s;
  ce_lru i c d : i ∈ evicted → clients s !! i = Some c → clients s' !! issi d = Some d → evictable protected d →
    (last_uplink_time c ≤ last_uplink_time d)%Z;
  ce_batch : evicted ≠ [] → at_capacity s = true ∧ evict_target s ≤ client_count s';
  ce_room : at_capacity s' = true → max_clients s = 1 ∨
    ∀ k d, clients s' !! k = Some d → ¬ evictable protected d
}.

Definition seen (c : MmClientProperties) : Z * Z := (last_uplink_time c, issi c).
(** The order in which clients are evicted. *)
Definition eviction_order (vs : list MmClientProperties) (protected : gset Z) : list (Z * Z) :=
  sort_by_time (seen <$> filter (λ c, groups c = ∅ ∧ issi c ∉ protected) vs).

Lemma elem_of_eviction_order vs protected s p : clients_ok s → values_of s vs →
  p ∈ eviction_order vs protected ↔ ∃ c, p = seen c ∧ clients s !! issi c = Some c ∧ evictable protected c.
Proof.
  intros Hok Hv. unfold eviction_order. rewrite sort_by_time_perm, list_elem_of_fmap.
  setoid_rewrite list_elem_of_filter. setoid_rewrite (elem_of_values s vs _ Hok Hv). unfold evictable. naive_solver.
Qed.

Lemma NoDup_eviction_order vs protected s : clients_ok s → values_of s vs → NoDup (eviction_order vs protected).*2.
Proof.
  intros Hok Hv. unfold eviction_order. rewrite sort_by_time_perm, <- list_fmap_compose.
  eapply sublist_NoDup; [|apply (fmap_sublist issi), sublist_filter]. by eapply NoDup_values.
Qed.

(** Below the cap nothing happens. *)
Lemma cap_not_reached protected s : at_capacity s = false → cap_enforced protected s [] s.
Proof.
  intros Hcap. split; try done.
  - by intros i ?%not_elem_of_nil.
  - apply NoDup_nil_2.
  - symmetry. apply map_filter_id. intros i c _. apply not_elem_of_nil.
  - unfold send_events. destruct (telemetry_sink s); [|done]. cbn. by rewrite app_nil_r.
  - by intros i c d ?%not_elem_of_nil.
  - congruence.
Qed.

(** At the cap, [k] clients have been evicted from the front of the order. *)
Lemma cap_reached vs protected s k s' : clients_ok s → values_of s vs → at_capacity s = true →
  let order := eviction_order vs protected in
  clients s' = without_clients (take k order.*2) (clients s) → client_count s' + k = client_count s →
  max_clients s' = max_clients s → telemetry_sink s' = send_events (MsDeregistration <$> take k order.*2) s →
  (k = length order ∨ client_count s' ≤ evict_target s) → (0 < k → evict_target s ≤ client_count s') →
  cap_enforced protected s (take k order.*2) s'.
Proof.
  intros Hok Hv Hcap order Hcl Hct Hmax Hev Hstop Hlow.
  assert (∀ p, p ∈ order ↔ ∃ c, p = seen c ∧ clients s !! issi c = Some c ∧ evictable protected c) as Hord.
  { intros p. by apply elem_of_eviction_order. }
  assert (∀ d, clients s' !! issi d = Some d → evictable protected d → seen d ∈ drop k order) as Hrest.
  { intros d Hd Hevd. rewrite Hcl in Hd. apply map_lookup_filter_Some in Hd as [Hd Hnot].
    assert (seen d ∈ order) as Hin by (apply Hord; eauto). rewrite <- (take_drop k order), elem_of_app in Hin.
    destruct Hin as [Hin|?]; [|done]. destruct Hnot. cbn. rewrite <- fmap_take. apply list_elem_of_fmap.
    by exists (seen d). }
  split; [|rewrite <- fmap_take..|]; try done.
  - intros i Hi. rewrite <- fmap_take in Hi. apply list_elem_of_fmap in Hi as (p & -> & Hp).
    apply elem_of_take in Hp as (n & Hn & _). apply list_elem_of_lookup_2, Hord in Hn as (c & -> & ? & ?). by exists c.
  - eapply sublist_NoDup; [by apply (NoDup_eviction_order vs protected s)|]. apply fmap_sublist, sublist_take.
  - by rewrite fmap_take.
  - by rewrite fmap_take.
  - intros i c d (p & -> & Hp)%list_elem_of_fmap Hc Hd Hevd.
    pose proof (sorted_take_drop order k p (seen d) (sort_by_time_sorted _) Hp (Hrest d Hd Hevd)) as Hle.
    apply elem_of_take in Hp as (n & Hn & _). apply list_elem_of_lookup_2, Hord in Hn as (c' & -> & Hc' & _).
    cbn in Hc. by simplify_eq.
  - intros Hne. split; [done|]. apply Hlow. destruct k; [by rewrite take_0 in Hne|lia].
  - intros Hcap'. destruct Hstop as [->|Hle].
    + right. intros i d Hd Hevd. assert (issi d = i) as <-.
      { rewrite Hcl in Hd. apply map_lookup_filter_Some in Hd as [Hd _]. by apply (Hok i d). }
      apply Hrest in Hevd; [|done]. rewrite drop_all in Hevd. by apply not_elem_of_nil in Hevd.
    + left. unfold at_capacity in Hcap'. apply andb_true_iff in Hcap' as [Hz%negb_true_iff%Nat.eqb_neq Hf%Nat.leb_le].
      rewrite Hmax in *. unfold evict_target in Hle. lia.
Qed.

Lemma enforce_cap_ok vs protected s : clients_ok s → values_of s vs →
  cap_enforced protected s (enforce_client_cap vs protected s).1 (enforce_client_cap vs protected s).2.
Proof.
  intros Hok Hv. unfold enforce_client_cap.
  destruct ((max_clients s =? 0) || (client_count s <? max_clients s)) eqn:Hcap.
  - cbn [fst snd]. apply cap_not_reached. unfold at_capacity. apply orb_true_iff in Hcap as [Hc|Hc%Nat.ltb_lt]; [by rewrite Hc|].
    rewrite (proj2 (Nat.leb_gt _ _) Hc). apply andb_false_r.
  - apply orb_false_iff in Hcap as [H0 Hfull%Nat.ltb_ge].
    destruct (evict_loop_spec (evict_target s) (eviction_order vs protected) [] s)
      as (k & s' & Hk & Heq & Hcl & Hct & Hmax & Hev & Hstop & Hlow).
    { by apply (NoDup_eviction_order vs protected s). }
    { intros p (c & -> & Hc & _)%(elem_of_eviction_order vs protected s p Hok Hv). by exists c. }
    unfold eviction_order, evict_target, seen in Heq. rewrite Heq. cbn [fst snd app].
    apply (cap_reached vs protected s k s'); try done. unfold at_capacity. rewrite H0. by apply Nat.leb_le.
Qed.

(** * The rate limit *)

(** A sequence of registration attempts, each an instant and an ISSI, with the
    answers they get. *)
Fixpoint rate_run (ats : list (Z * Z)) (s : MmClientMgr) : list bool * MmClientMgr :=
  match ats with
  | [] => ([], s)
  | (now, i) :: ats =>
      let '(b, s1) := allow_registration now i s in
      let '(bs, s2) := rate_run ats s1 in (b :: bs, s2)
  end.

(** The number of attempts of [i] from the instant [from] on that were accepted. *)
Definition accepted (i from : Z) (ats : list (Z * Z)) (bs : list bool) : nat :=
  length (filter (λ p : Z * Z * bool, p.1.2 = i ∧ (from ≤ p.1.1)%Z ∧ p.2 = true) (zip ats bs)).

Definition accepts (i from now j : Z) (b : bool) : nat := if decide (j = i ∧ (from ≤ now)%Z ∧ b = true) then 1 else 0.

Lemma accepted_cons i from now j ats b bs :
  accepted i from ((now, j) :: ats) (b :: bs) = accepts i from now j b + accepted i from ats bs.
Proof. unfold accepted, accepts. cbn [zip zip_with]. rewrite filter_cons. cbn. by case_decide. Qed.

Lemma rate_run_length ats s : length (rate_run ats s).1 = length ats.
Proof.
  revert s. induction ats as [|[now i] ats IH]; intros s; [done|]. cbn [rate_run].
  destruct (allow_registration now i s) as [b s1]. specialize (IH s1). by destruct (rate_run ats s1); cbn in *; rewrite IH.
Qed.

Lemma rate_run_app ats1 ats2 s :
  rate_run (ats1 ++ ats2) s = ((rate_run ats1 s).1 ++ (rate_run ats2 (rate_run ats1 s).2).1,
    (rate_run ats2 (rate_run ats1 s).2).2).
Proof.
  revert s. induction ats1 as [|[now i] ats1 IH]; intros s; cbn [app rate_run fst snd].
  - by destruct (rate_run ats2 s).
  - destruct (allow_registration now i s) as [b s1]. rewrite IH. by destruct (rate_run ats1 s1).
Qed.

(** The table entry of an ISSI that is still counting at [now]. *)
Definition counting (now : Z) (e : option (Z * Z)) : option (Z * Z) :=
  match e with
  | Some (st, n) => if decide (duration_since now st < REGISTRATION_RATE_WINDOW)%Z then Some (st, n) else None
  | None => None
  end.

(** One attempt in terms of entries: the window of [i] is continued or started
    anew, and other windows are kept as long as they count. *)
Lemma allow_spec now i s : (registrations_per_window s ≠ 0)%Z →
  let e := default (now, 0%Z) (counting now (registration_rate s !! i)) in
  let b := bool_decide (e.2 < registrations_per_window s)%Z in
  ∃ s', allow_registration now i s = (b, s') ∧
    registrations_per_window s' = registrations_per_window s ∧
    registration_rate s' !! i = Some (if b then (e.1, e.2 + 1)%Z else e) ∧
    ∀ j, j ≠ i → registration_rate s' !! j = registration_rate s !! j ∨
      (registration_rate s' !! j = None ∧ counting now (registration_rate s !! j) = None).
Proof.
  intros HL. unfold allow_registration. rewrite (proj2 (Z.eqb_neq _ _) HL).
  cbv zeta. set (table := if (REGISTRATION_RATE_TABLE_CAP <=? _)%Z then _ else _).
  assert (∀ j, table !! j = registration_rate s !! j ∨
    (table !! j = None ∧ counting now (registration_rate s !! j) = None)) as Htab.
  { intros j. unfold table. case_match; [|by left]. rewrite map_lookup_filter.
    destruct (registration_rate s !! j) as [[st n]|]; [|by left]. cbn [mbind option_bind].
    case_guard as Hg; [by left|right; split; [done|]]. unfold counting. by rewrite decide_False. }
  set (e0 := if (REGISTRATION_RATE_WINDOW <=? _)%Z then _ else _).
  assert (e0 = default (now, 0%Z) (counting now (registration_rate s !! i))) as He0.
  { unfold e0. destruct (Htab i) as [->|[-> ->]].
    - destruct (registration_rate s !! i) as [[st n]|]; [|by case_match]. unfold counting. cbn [default from_option fst id].
      destruct (Z.leb_spec REGISTRATION_RATE_WINDOW (duration_since now st)).
      + by rewrite decide_False by lia.
      + by rewrite decide_True by lia.
    - by case_match. }
  rewrite He0. set (e := default _ _). cbv zeta.
  destruct (Z.leb_spec (registrations_per_window s) e.2).
  - rewrite bool_decide_false by lia. eexists. split_and!; [done..| |].
    + cbn. by rewrite lookup_insert_eq.
    + intros j Hj. cbn. rewrite lookup_insert_ne by done. apply Htab.
  - rewrite bool_decide_true by lia. eexists. split_and!; [done..| |].
    + cbn. by rewrite lookup_insert_eq.
    + intros j Hj. cbn. rewrite lookup_insert_ne by done. apply Htab.
Qed.

(** How many more registrations of [i] can be accepted within the window that
    starts at [t]. *)
Definition budget (t L : Z) (e : option (Z * Z)) : Z :=
  match e with
  | Some (st, n) => Z.max 0 (L - n) + (if (t <=? st)%Z then 0 else L)
  | None => L
  end.

Definition counts_ok (s : MmClientMgr) : Prop := map_Forall (λ _ e, (0 ≤ e.2)%Z) (registration_rate s).

Lemma counting_recent t now st n : (t ≤ now < t + REGISTRATION_RATE_WINDOW)%Z → (t ≤ st)%Z →
  counting now (Some (st, n)) = Some (st, n).
Proof. intros Hn Hst. cbn. rewrite decide_True; [done|]. unfold duration_since. unfold REGISTRATION_RATE_WINDOW, SECOND in *. lia. Qed.

Lemma budget_counting t L now e : (0 < L)%Z → (t ≤ now < t + REGISTRATION_RATE_WINDOW)%Z →
  (budget t L (Some (default (now, 0%Z) (counting now e))) ≤ budget t L e)%Z.
Proof.
  intros HL Hn. destruct e as [[st n]|].
  - destruct (Z.leb_spec t st) as [Hle|Hlt]; [by rewrite (counting_recent t)|].
    cbn [counting]. case_decide; cbn; [done|]. rewrite (proj2 (Z.leb_le t now)), (proj2 (Z.leb_gt t st)) by lia. lia.
  - cbn. rewrite (proj2 (Z.leb_le t now)) by lia. lia.
Qed.

Lemma allow_budget t now j i s : (0 < registrations_per_window s)%Z → (t ≤ now < t + REGISTRATION_RATE_WINDOW)%Z →
  let '(b, s') := allow_registration now j s in
  registrations_per_window s' = registrations_per_window s ∧
  (Z.of_nat (accepts i t now j b) + budget t (registrations_per_window s) (registration_rate s' !! i) ≤
   budget t (registrations_per_window s) (registration_rate s !! i))%Z.
Proof.
  intros HL Hn. destruct (allow_spec now j s) as (s' & -> & HL' & Hj & Hoth); [lia|]. split; [done|].
  unfold accepts. destruct (decide (j = i)) as [->|Hne].
  - pose proof (budget_counting t _ now (registration_rate s !! i) HL Hn) as Hb. rewrite Hj.
    destruct (default _ _) as [st n]. cbn [fst snd] in *. case_bool_decide as Hlt.
    + rewrite decide_True by (split_and!; [done|lia|done]). cbn in Hb |- *. lia.
    + rewrite decide_False by naive_solver. lia.
  - rewrite decide_False by naive_solver. destruct (Hoth i) as [->|[-> Hc]]; [done|lia|].
    destruct (registration_rate s !! i) as [[st n]|]; [|cbn; lia].
    destruct (Z.leb_spec t st) as [Hle|Hlt]; [by rewrite (counting_recent t) in Hc|].
    cbn. rewrite (proj2 (Z.leb_gt t st)) by lia. lia.
Qed.

Lemma rate_run_budget t ats i s : (0 < registrations_per_window s)%Z →
  Forall (λ p : Z * Z, (t ≤ p.1 < t + REGISTRATION_RATE_WINDOW)%Z) ats →
  (Z.of_nat (accepted i t ats (rate_run ats s).1) ≤ budget t (registrations_per_window s) (registration_rate s !! i))%Z.
Proof.
  intros HL Hats. revert s HL. induction Hats as [|[now j] ats Hn _ IH]; intros s HL; cbn [rate_run].
  - cbn. destruct (registration_rate s !! i) as [[st n]|]; cbn; [|lia]. case_match; lia.
  - pose proof (allow_budget t now j i s HL Hn) as Hb. destruct (allow_registration now j s) as [b s1].
    destruct Hb as [HL1 Hb]. specialize (IH s1 ltac:(lia)). destruct (rate_run ats s1) as [bs s2].
    cbn [fst]. rewrite accepted_cons. rewrite HL1 in IH. cbn [fst] in IH. lia.
Qed.

(** The attempts in the order of time. *)
Definition in_order (ats : list (Z * Z)) : Prop := StronglySorted Z.le ats.*1.

(** The count of a window is at most the number of registrations accepted since
    it started, and windows start at attempts. *)
Definition counts_from (ats : list (Z * Z)) (bs : list bool) (s : MmClientMgr) : Prop :=
  map_Forall (λ i e, (e.2 ≤ Z.of_nat (accepted i e.1 ats bs))%Z ∧ e.1 ∈ ats.*1) (registration_rate s).

Lemma accepted_app i from ats bs ats' bs' : length ats = length bs →
  accepted i from (ats ++ ats') (bs ++ bs') = accepted i from ats bs + accepted i from ats' bs'.
Proof. intros Hl. unfold accepted. by rewrite zip_with_app, filter_app, length_app. Qed.

Lemma accepted_antitone i from from' ats bs : (from' ≤ from)%Z → accepted i from ats bs ≤ accepted i from' ats bs.
Proof.
  intros Hle. unfold accepted. apply sublist_length. generalize (zip ats bs). intros l.
  induction l as [|p l IH]; [done|]. rewrite !filter_cons. repeat case_decide.
  - by apply sublist_skip.
  - exfalso. naive_solver lia.
  - by apply sublist_cons.
  - done.
Qed.

Lemma counts_from_step ats bs now i s : length ats = length bs → Forall (λ t, (t ≤ now)%Z) ats.*1 →
  (registrations_per_window s ≠ 0)%Z → counts_from ats bs s →
  let '(b, s') := allow_registration now i s in counts_from (ats ++ [(now, i)]) (bs ++ [b]) s'.
Proof.
  intros Hl Hle HL Hc. destruct (allow_spec now i s HL) as (s' & -> & _ & Hi & Hoth). set (b := bool_decide _) in *.
  intros j [st n] Hj. rewrite accepted_app by done. rewrite fmap_app, elem_of_app.
  destruct (decide (j = i)) as [->|Hne].
  - rewrite Hi in Hj. unfold accepted at 2. cbn [zip zip_with]. rewrite filter_cons. cbn [fst snd].
    assert (∃ st' n', default (now, 0%Z) (counting now (registration_rate s !! i)) = (st', n') ∧ (st' ≤ now)%Z ∧
      (n' ≤ Z.of_nat (accepted i st' ats bs))%Z ∧ (st' ∈ ats.*1 ∨ st' = now)) as (st' & n' & He & Hst & Hn & Hin).
    { destruct (registration_rate s !! i) as [[st0 n0]|] eqn:Hlk; [|exists now, 0%Z; cbn; split_and!; auto with lia].
      unfold counting. case_decide; [|exists now, 0%Z; cbn; split_and!; auto with lia].
      destruct (Hc i _ Hlk) as [Hn0 Hin]. exists st0, n0. cbn in *. split_and!; [done| |done|by left].
      rewrite Forall_forall in Hle. by apply Hle. }
    rewrite He in Hj. cbn in Hj. assert (st' ∈ ats.*1 ∨ st' ∈ [(now, i)].*1) as Hin'.
    { destruct Hin as [?| ->]; [by left|right; by left]. }
    destruct b; injection Hj as <- <-; (split; [|done]).
    + rewrite decide_True by done. cbn. lia.
    + lia.
  - destruct (Hoth j Hne) as [Heq|[Heq _]]; rewrite Heq in Hj; [|done].
    destruct (Hc j _ Hj) as [Hn Hin]. split; [lia|by left].
Qed.

Lemma rate_run_limit ats s : (registrations_per_window s ≠ 0)%Z →
  registrations_per_window (rate_run ats s).2 = registrations_per_window s.
Proof.
  revert s. induction ats as [|[now i] ats IH]; intros s HL; [done|]. cbn [rate_run].
  destruct (allow_spec now i s HL) as (s1 & -> & HL1 & _). specialize (IH s1 ltac:(congruence)).
  destruct (rate_run ats s1). cbn in *. congruence.
Qed.

Lemma counts_from_run ats s : (registrations_per_window s ≠ 0)%Z → registration_rate s = ∅ → in_order ats →
  counts_from ats (rate_run ats s).1 (rate_run ats s).2.
Proof.
  intros HL H0. induction ats as [|[now i] ats IH] using rev_ind; intros Hord.
  - cbn. unfold counts_from. rewrite H0. apply map_Forall_empty.
  - unfold in_order in Hord. rewrite fmap_app in Hord. apply StronglySorted_app in Hord as (Hcross & Hord & _).
    rewrite rate_run_app. cbn [rate_run].
    pose proof (counts_from_step ats (rate_run ats s).1 now i (rate_run ats s).2) as Hstep.
    destruct (allow_registration now i _) as [b s']. cbn [fst snd]. apply Hstep.
    + by rewrite rate_run_length.
    + apply Forall_forall. intros t Ht. apply Hcross; [done|by left].
    + by rewrite rate_run_limit.
    + by apply IH.
Qed.

Lemma refused_after_limit ats now i s : (0 < registrations_per_window s)%Z → registration_rate s = ∅ → in_order ats →
  (allow_registration now i (rate_run ats s).2).1 = false →
  (registrations_per_window s ≤
   Z.of_nat (accepted i (now - REGISTRATION_RATE_WINDOW + 1) ats (rate_run ats s).1))%Z.
Proof.
  intros HL H0 Hord Hno. assert (registrations_per_window s ≠ 0)%Z as HL' by lia.
  pose proof (counts_from_run ats s HL' H0 Hord) as Hc. pose proof (rate_run_limit ats s HL') as HLr.
  destruct (allow_spec now i (rate_run ats s).2) as (s' & Heq & _); [congruence|].
  rewrite Heq in Hno. cbn [fst] in Hno. apply bool_decide_eq_false in Hno. rewrite HLr in Hno.
  destruct (registration_rate (rate_run ats s).2 !! i) as [[st n]|] eqn:Hlk; [|cbn in Hno; lia].
  unfold counting in Hno. case_decide as Hw; [|cbn in Hno; lia]. cbn in Hno.
  destruct (Hc i _ Hlk) as [Hn _]. cbn in Hn. unfold duration_since in Hw.
  pose proof (accepted_antitone i st (now - REGISTRATION_RATE_WINDOW + 1) ats (rate_run ats s).1 ltac:(lia)). lia.
Qed.

Lemma rate_run_counts ats s : (registrations_per_window s ≠ 0)%Z → counts_ok s → counts_ok (rate_run ats s).2.
Proof.
  revert s. induction ats as [|[now i] ats IH]; intros s HL Hok; [done|]. cbn [rate_run].
  destruct (allow_spec now i s HL) as (s1 & -> & HL1 & Hi & Hoth).
  assert (counts_ok s1) as Hok1.
  { intros j [st n] Hj. cbn. destruct (decide (j = i)) as [->|Hne].
    - rewrite Hi in Hj. set (e := default _ _) in Hj. assert (0 ≤ e.2)%Z as He.
      { clear Hj. unfold e, counting. destruct (registration_rate s !! i) as [[st0 n0]|] eqn:Hlk; [|cbn; lia].
        destruct (decide (duration_since now st0 < _)%Z); [exact (Hok i _ Hlk)|cbn; lia]. }
      destruct (bool_decide _); destruct e; cbn in *; simplify_eq; lia.
    - destruct (Hoth j Hne) as [Heq|[Heq _]]; rewrite Heq in Hj; [exact (Hok j _ Hj)|done]. }
  specialize (IH s1 ltac:(congruence) Hok1). by destruct (rate_run ats s1).
Qed.

Lemma budget_bound t L e : (0 < L)%Z → match e with Some p => 0 ≤ p.2 | None => True end%Z → (budget t L e ≤ 2 * L)%Z.
Proof. intros HL He. destruct e as [[st n]|]; cbn in *; [case_match|]; lia. Qed.

(** * Properties *)

(** C33: enforcing the cap on a reachable registry, whatever order its map is
    iterated in, evicts only terminals without groups that are not in a call,
    those heard longest ago first, and removes and reports exactly those; if
    the registry is no longer full afterwards, registering one more terminal
    keeps it within the cap. *)
Theorem registry_cap_holds ops sink vs protected : let s := client_run ops (clients_new sink) in values_of s vs →
  let '(evicted, s') := enforce_client_cap vs protected s in
  cap_enforced protected s evicted s' ∧
  ∀ now i a, max_clients s' ≠ 0 → at_capacity s' = false →
    client_count (registry_after (try_register_client now i a s') s') ≤ max_clients s'.
Proof.
  intros s Hv. pose proof (enforce_cap_ok vs protected s (client_run_ok ops sink) Hv) as Hc.
  destruct (enforce_client_cap vs protected s) as [evicted s']. split; [done|]. intros now i a Hmax Hcap.
  unfold at_capacity in Hcap. apply andb_false_iff in Hcap as [Hz%negb_false_iff%Nat.eqb_eq|Hlt%Nat.leb_gt]; [done|].
  unfold client_count in *. cbn. rewrite map_size_insert, lookup_delete_eq, map_size_delete.
  destruct (clients s' !! i); cbn; lia.
Qed.

(** Two idle terminals and one with a group, at a cap of three. *)
Definition full_ops : list client_op :=
  [OpLimits 3 30; OpRegister 50 7 true; OpRegister 20 8 true; OpRegister 30 9 true; OpAttach 8 91 true].
Definition full_values : list MmClientProperties :=
  (map_to_list (clients (client_run full_ops (clients_new None)))).*2.

Lemma registry_cap_holds_witness : (enforce_client_cap full_values ∅ (client_run full_ops (clients_new None))).1 = [9%Z] ∧
  let '(evicted, s') := enforce_client_cap full_values ∅ (client_run full_ops (clients_new None)) in
  cap_enforced ∅ (client_run full_ops (clients_new None)) evicted s' ∧
  ∀ now i a, max_clients s' ≠ 0 → at_capacity s' = false →
    client_count (registry_after (try_register_client now i a s') s') ≤ max_clients s'.
Proof. split; [by vm_compute|]. apply (registry_cap_holds full_ops None full_values ∅). apply Permutation_refl. Defined.

(** C34: with a limit of [L] registrations per minute and ISSI, no ISSI gets
    more than [2 * L] registrations accepted within any minute, however the
    attempts of all ISSIs are interleaved and whenever the table is pruned; and
    an attempt is refused only if [L] registrations of its ISSI were accepted
    within the last minute. *)
Theorem registration_rate_bounded s i : (0 < registrations_per_window s)%Z → registration_rate s = ∅ →
  (∀ pre seg t, Forall (λ p : Z * Z, (t ≤ p.1 < t + REGISTRATION_RATE_WINDOW)%Z) seg →
    (Z.of_nat (accepted i t seg (rate_run seg (rate_run pre s).2).1) ≤ 2 * registrations_per_window s)%Z) ∧
  (∀ ats now, in_order ats → (allow_registration now i (rate_run ats s).2).1 = false →
    (registrations_per_window s ≤
     Z.of_nat (accepted i (now - REGISTRATION_RATE_WINDOW + 1) ats (rate_run ats s).1))%Z).
Proof.
  intros HL H0. split; [|by intros; apply refused_after_limit].
  intros pre seg t Hseg. assert (registrations_per_window s ≠ 0)%Z as HL' by lia.
  pose proof (rate_run_limit pre s HL') as HLr.
  etrans; [apply rate_run_budget; [by rewrite HLr|done]|]. rewrite HLr. apply budget_bound; [done|].
  assert (counts_ok s) as Hok by (unfold counts_ok; rewrite H0; apply map_Forall_empty).
  pose proof (rate_run_counts pre s HL' Hok) as Hok'.
  destruct (registration_rate _ !! i) as [e|] eqn:He; [|done]. exact (Hok' i e He).
Qed.

Lemma registration_rate_bounded_witness :
  (allow_registration 5 7 (rate_run [(1, 7); (2, 7); (3, 8)]%Z (set_limits 0 2 (clients_new None))).2).1 = false ∧
  (2 ≤ Z.of_nat (accepted 7 (5 - REGISTRATION_RATE_WINDOW + 1) [(1, 7); (2, 7); (3, 8)]%Z
    (rate_run [(1, 7); (2, 7); (3, 8)]%Z (set_limits 0 2 (clients_new None))).1))%Z.
Proof.
  split; [by vm_compute|].
  apply (registration_rate_bounded (set_limits 0 2 (clients_new None)) 7); [done|done| |by vm_compute].
  repeat constructor; cbn; lia.
Defined.

(** Restoring every entry of a snapshot. *)
Definition restore_all (now : Z) (snap : list (Z * gset Z * EnergySavingMode)) (s : MmClientMgr) : MmClientMgr :=
  foldl (λ s '(i, gs, e), restore_client now i (elements gs) e s) s snap.

Definition restored (now : Z) (c : MmClientProperties) : MmClientProperties :=
  with_groups (groups c) (with_energy_saving_mode (energy_saving_mode c) (with_state Detached (client_new now (issi c)))).

Lemma restore_all_lookup now vs s i : NoDup (issi <$> vs) →
  clients (restore_all now (snapshot_for_recovery vs) s) !! i =
    match find (λ c, (issi c =? i)%Z) vs with Some c => Some (restored now c) | None => clients s !! i end.
Proof.
  revert s. induction vs as [|c vs IH]; intros s Hnd; [done|]. rewrite fmap_cons in Hnd. apply NoDup_cons in Hnd as [Hc Hnd].
  cbn [snapshot_for_recovery fmap list_fmap restore_all foldl find]. fold (snapshot_for_recovery vs).
  fold (restore_all now (snapshot_for_recovery vs) (restore_client now (issi c) (elements (groups c)) (energy_saving_mode c) s)).
  rewrite IH by done. unfold restore_client. rewrite restored_groups. cbn [clients set_clients].
  destruct (Z.eqb_spec (issi c) i) as [<-|Hne].
  - destruct (find _ vs) as [d|] eqn:Hf.
    { apply find_some in Hf as [Hd Hk%Z.eqb_eq]. destruct Hc. rewrite <- Hk. apply list_elem_of_fmap. exists d.
      split; [done|]. by apply list_elem_of_In. }
    rewrite lookup_insert_eq. f_equal. unfold restored, with_groups. cbn. f_equal.
    rewrite (left_id_L ∅ _), list_to_set_elements_L. done.
  - destruct (find _ vs); [done|]. by rewrite lookup_insert_ne.
Qed.

(** A registry rebuilt from the snapshot of another has the same
    terminals, each with its groups and energy-saving mode, all detached; the
    monitoring windows, handles, timers and the rest start afresh. *)
Theorem recovery_restores_clients ops sink sink' vs now : let s := client_run ops (clients_new sink) in values_of s vs →
  ∀ i, clients (restore_all now (snapshot_for_recovery vs) (clients_new sink')) !! i =
    restored now <$> clients s !! i.
Proof.
  intros s Hv i. pose proof (client_run_ok ops sink : clients_ok s) as Hok.
  rewrite restore_all_lookup by (by eapply NoDup_values). destruct (find _ vs) as [c|] eqn:Hf.
  - apply find_some in Hf as [Hc Hk%Z.eqb_eq]. apply list_elem_of_In in Hc. apply (elem_of_values s vs c Hok Hv) in Hc.
    subst i. by rewrite Hc.
  - change (clients (clients_new sink')) with (∅ : gmap Z MmClientProperties). rewrite lookup_empty.
    destruct (clients s !! i) as [c|] eqn:Hc; [|done]. pose proof (Hok i c Hc) as Hk. cbn in Hk. subst i.
    apply (elem_of_values s vs c Hok Hv), list_elem_of_In in Hc. pose proof (find_none _ _ Hf c Hc) as Hne.
    cbn in Hne. by rewrite Z.eqb_refl in Hne.
Qed.

Lemma recovery_restores_clients_witness :
  clients (restore_all 99 (snapshot_for_recovery full_values) (clients_new None)) !! 8%Z =
    restored 99 <$> clients (client_run full_ops (clients_new None)) !! 8%Z.
Proof. apply (recovery_restores_clients full_ops None None full_values 99). apply Permutation_refl. Defined.

(** The grant is stored with the client, as after a location update. *)
Definition store_grant (ssi : Z) (esi : EnergySavingInformation) : R unit :=
  set_client_energy_saving_mode ssi (esi_mode esi);;
  set_client_monitoring_window ssi (esi_frame_number esi) (esi_multiframe_number esi).

Lemma grant_window ssi req : (0 ≤ ssi)%Z →
  let esi := grant_energy_saving ssi req in
  match ee_cycle_frames (esi_mode esi) with
  | None => True
  | Some c => (0 < c ≤ 6)%Z ∧ (c | 1080)%Z ∧ ∃ f mf, esi_frame_number esi = Some f ∧ esi_multiframe_number esi = Some mf ∧
      (1 ≤ f ≤ 18)%Z ∧ (1 ≤ mf ≤ 60)%Z
  end.
Proof.
  intros Hs. assert (∀ c, (c = 2 ∨ c = 3 ∨ c = 6)%Z → (0 < c ≤ 6)%Z ∧ (c | 1080)%Z ∧
    (1 ≤ (ssi mod c) mod 2 ^ 8 mod 18 + 1 ≤ 18)%Z ∧ (1 ≤ (ssi mod c) mod 2 ^ 8 / 18 + 1 ≤ 60)%Z) as H.
  { intros c Hc. assert (0 ≤ ssi mod c < c)%Z as Hm by (apply Z.mod_pos_bound; lia).
    rewrite (Z.mod_small (ssi mod c) (2 ^ 8)), (Z.mod_small _ 18), (Z.div_small _ 18) by lia.
    split_and!; try lia. destruct Hc as [->|[->| ->]]; [by exists 540%Z|by exists 360%Z|by exists 180%Z]. }
  destruct req; cbn [grant_energy_saving ee_cycle_frames esi_mode]; [done|..].
  all: match goal with |- (0 < ?c ≤ 6)%Z ∧ _ => destruct (H c) as (? & ? & ? & ?); [lia|] end.
  all: split; [done|split; [done|]]; eexists _, _; split; [reflexivity|split; [reflexivity|done]].
Qed.

Lemma store_grant_ok ssi esi s s' : store_grant ssi esi s = Ok tt s' → ∃ c,
  clients s !! ssi = Some c ∧ clients s' !! ssi =
    Some (with_window (esi_frame_number esi) (esi_multiframe_number esi) (with_energy_saving_mode (esi_mode esi) c)).
Proof.
  unfold store_grant, set_client_energy_saving_mode, set_client_monitoring_window, modify_client, update_client,
    mbind, M_bind, get, put. destruct (clients s !! ssi) as [c|] eqn:Hc; [|done].
  cbn [clients send_event set_clients]. rewrite lookup_insert_eq. intros [= <-]. exists c. split; [done|].
  cbn [clients set_clients]. by rewrite lookup_insert_eq.
Qed.

(** The terminal has been due for so long that its window no longer matters. *)
Definition overdue (now interval wait : Z) (c : MmClientProperties) : Prop :=
  (interval + wait ≤ duration_since now (last_registration_time c) / SECOND)%Z.

(** C35: with the window that was granted to a terminal, a registration command
    may be sent in exactly one frame of each of its monitoring cycles, which are
    at most six frames long, and in every frame once the terminal is overdue; so
    a command is never deferred for more than five frames. *)
Theorem command_sent_once_per_cycle ssi req s s' t now interval wait : (0 ≤ ssi)%Z → valid_time t →
  store_grant ssi (grant_energy_saving ssi req) s = Ok tt s' →
  ∃ cycle k c, (0 ≤ k < cycle)%Z ∧ (cycle ≤ 6)%Z ∧ clients s' !! ssi = Some c ∧ ∀ j, (0 ≤ j < cycle)%Z →
    (should_send_t351_command_now now ssi (add_timeslots t (4 * j)) interval wait s' = true ↔
     j = k ∨ overdue now interval wait c).
Proof.
  intros Hs Ht Hst. apply store_grant_ok in Hst as (c & _ & Hc). pose proof (grant_window ssi req Hs) as Hg. cbv zeta in Hg.
  set (esi := grant_energy_saving ssi req) in *. set (c' := with_window _ _ _) in Hc.
  unfold should_send_t351_command_now. rewrite Hc. change (energy_saving_mode c') with (esi_mode esi).
  change (monitoring_frame c') with (esi_frame_number esi). change (monitoring_multiframe c') with (esi_multiframe_number esi).
  destruct (ee_cycle_frames (esi_mode esi)) as [cy|].
  - destruct Hg as ([H0 H6] & Hdiv & f & mf & -> & -> & Hf & Hmf).
    destruct (ee_window_unique t f mf cy Ht Hf Hmf H0 Hdiv) as (k & Hk & Huniq). exists cy, k, c'. split_and!; [lia..|done|].
    intros j Hj. rewrite orb_true_iff, Z.leb_le. by rewrite (Huniq j Hj).
  - exists 1%Z, 0%Z, c'. split_and!; [lia..|done|]. intros j Hj. cbn. split; [left; lia|done].
Qed.

Lemma command_sent_once_per_cycle_witness : ∃ s' cycle k c, (0 ≤ k < cycle)%Z ∧ (cycle ≤ 6)%Z ∧ clients s' !! 8%Z = Some c ∧
  ∀ j, (0 ≤ j < cycle)%Z →
    (should_send_t351_command_now 77 8 (add_timeslots (mkTime 1 17 60 65535) (4 * j)) 3600 30 s' = true ↔
     j = k ∨ overdue 77 3600 30 c).
Proof.
  destruct (store_grant 8 (grant_energy_saving 8 Eg2) (client_run full_ops (clients_new None))) as [[] s'|e s'|] eqn:H.
  - exists s'. apply (command_sent_once_per_cycle 8 Eg2 (client_run full_ops (clients_new None))).
    + done.
    + apply valid_time_ranges. cbn. lia.
    + exact H.
  - exfalso. by vm_compute in H.
  - exfalso. by vm_compute in H.
Defined.

(** * What the limits do not give *)

(** Registering does not look at the cap: a terminal that was not known always
    makes the registry larger. *)
Theorem register_ignores_cap now i a s : client_is_known i s = false →
  client_count (registry_after (try_register_client now i a s) s) = S (client_count s).
Proof.
  unfold client_is_known, client_count. rewrite bool_decide_eq_false. intros Hn. cbn.
  rewrite delete_id by (by apply eq_None_not_Some). rewrite map_size_insert.
  destruct (clients s !! i); [destruct Hn; eauto|done].
Qed.

(** With a cap of one, enforcing it never makes room. *)
Theorem cap_of_one_keeps_idle vs protected s : max_clients s = 1 → client_count s = 1 →
  enforce_client_cap vs protected s = ([], s) ∧ at_capacity s = true.
Proof.
  intros Hm Hc. unfold enforce_client_cap, at_capacity. rewrite Hm, Hc. cbn. split; [|done].
  destruct (sort_by_time _) as [|[u i] l]; cbn; [done|]. by rewrite Hc.
Qed.

(** The table of registration windows is not bounded by its cap: one attempt of
    each of any number of ISSIs at the same instant leaves as many entries. *)
Lemma rate_run_fresh now ids s : (registrations_per_window s ≠ 0)%Z → NoDup ids →
  (∀ i, i ∈ ids → registration_rate s !! i = None) → map_Forall (λ _ e, e.1 = now) (registration_rate s) →
  size (registration_rate (rate_run ((λ i, (now, i)) <$> ids) s).2) = size (registration_rate s) + length ids.
Proof.
  revert s. induction ids as [|i ids IH]; intros s HL Hnd Hnew Hst; [cbn; lia|].
  apply NoDup_cons in Hnd as [Hi Hnd]. cbn [fmap list_fmap rate_run].
  destruct (allow_spec now i s HL) as (s1 & -> & HL1 & Hl & Hoth).
  assert (∀ j, j ≠ i → registration_rate s1 !! j = registration_rate s !! j) as Hsame.
  { intros j Hj. destruct (Hoth j Hj) as [?|[Hn Hc]]; [done|]. rewrite Hn.
    destruct (registration_rate s !! j) as [[st n]|] eqn:Hlk; [|done].
    pose proof (Hst j _ Hlk) as Hnow. cbn in Hnow. subst st. unfold counting, duration_since in Hc.
    rewrite decide_True in Hc; [done|]. rewrite Z.sub_diag. done. }
  rewrite (Hnew i) in Hl by (by left). cbn [counting default from_option id fst snd] in Hl.
  assert (∃ e, e.1 = now ∧ registration_rate s1 = <[i := e]> (registration_rate s)) as (e & He & Hs1).
  { eexists. split; [|apply map_eq; intros j; destruct (decide (j = i)) as [->|Hj];
      [rewrite Hl, lookup_insert_eq; reflexivity|rewrite lookup_insert_ne by done; by apply Hsame]].
    by destruct (bool_decide _). }
  specialize (IH s1 ltac:(congruence) Hnd). destruct (rate_run _ s1) as [bs s2]. cbn [snd] in *. rewrite IH.
  - rewrite Hs1, map_size_insert_None by (apply Hnew; by left). cbn. lia.
  - intros j Hj. rewrite Hs1, lookup_insert_ne by (intros ->; done). apply Hnew. by right.
  - rewrite Hs1. by apply map_Forall_insert_2.
Qed.

Theorem rate_table_unbounded now ids : NoDup ids →
  size (registration_rate (rate_run ((λ i, (now, i)) <$> ids) (clients_new None)).2) = length ids.
Proof.
  intros Hnd. rewrite rate_run_fresh; [done|done|done| |apply map_Forall_empty]. intros i _. apply lookup_empty.
Qed.
