(* ===== verification/MmEnums.v ===== *)
(** Enumerations and shared fields of the MM PDUs
    ([tetra-pdus/src/mm/enums], [fields]). *)
From S2P Require Import Prelude Bits Core BitBuffer BitBufferSpec BitCodec BitBufferThms FieldCodec TypedFieldsSpec PduCodec MmClients.

Inductive LocationUpdateAcceptType : Type :=
| LocationUpdateAcceptType_RoamingLocationUpdating
| LocationUpdateAcceptType_TemporaryRegistration
| LocationUpdateAcceptType_PeriodicLocationUpdating
| LocationUpdateAcceptType_ItsiAttach
| LocationUpdateAcceptType_ServiceRestorationRoamingLocationUpdating
| LocationUpdateAcceptType_MigratingOrServiceRestorationMigratingLocationUpdating
| LocationUpdateAcceptType_DemandLocationUpdating
| LocationUpdateAcceptType_DisabledMsUpdating.

Definition location_update_accept_type_try_from (x : Z) : option LocationUpdateAcceptType :=
  match x with
  | 0 => Some LocationUpdateAcceptType_RoamingLocationUpdating
  | 1 => Some LocationUpdateAcceptType_TemporaryRegistration
  | 2 => Some LocationUpdateAcceptType_PeriodicLocationUpdating
  | 3 => Some LocationUpdateAcceptType_ItsiAttach
  | 4 => Some LocationUpdateAcceptType_ServiceRestorationRoamingLocationUpdating
  | 5 => Some LocationUpdateAcceptType_MigratingOrServiceRestorationMigratingLocationUpdating
  | 6 => Some LocationUpdateAcceptType_DemandLocationUpdating
  | 7 => Some LocationUpdateAcceptType_DisabledMsUpdating
  | _ => None
  end%Z.

Definition location_update_accept_type_into_raw (e : LocationUpdateAcceptType) : Z :=
  match e with
  | LocationUpdateAcceptType_RoamingLocationUpdating => 0
  | LocationUpdateAcceptType_TemporaryRegistration => 1
  | LocationUpdateAcceptType_PeriodicLocationUpdating => 2
  | LocationUpdateAcceptType_ItsiAttach => 3
  | LocationUpdateAcceptType_ServiceRestorationRoamingLocationUpdating => 4
  | LocationUpdateAcceptType_MigratingOrServiceRestorationMigratingLocationUpdating => 5
  | LocationUpdateAcceptType_DemandLocationUpdating => 6
  | LocationUpdateAcceptType_DisabledMsUpdating => 7
  end.

#[global] Instance location_update_accept_type_raw : RawEnum 3 location_update_accept_type_into_raw location_update_accept_type_try_from.
Proof. raw_enum. Qed.
#[global] Instance location_update_accept_type_total : TotalEnum 3 location_update_accept_type_try_from.
Proof. total_enum. Qed.

Inductive LocationUpdateType : Type :=
| LocationUpdateType_RoamingLocationUpdating
| LocationUpdateType_MigratingLocationUpdating
| LocationUpdateType_PeriodicLocationUpdating
| LocationUpdateType_ItsiAttach
| LocationUpdateType_ServiceRestorationRoamingLocationUpdating
| LocationUpdateType_ServiceRestorationMigratingLocationUpdating
| LocationUpdateType_DemandLocationUpdating
| LocationUpdateType_DisabledMsUpdating.

Definition location_update_type_try_from (x : Z) : option LocationUpdateType :=
  match x with
  | 0 => Some LocationUpdateType_RoamingLocationUpdating
  | 1 => Some LocationUpdateType_MigratingLocationUpdating
  | 2 => Some LocationUpdateType_PeriodicLocationUpdating
  | 3 => Some LocationUpdateType_ItsiAttach
  | 4 => Some LocationUpdateType_ServiceRestorationRoamingLocationUpdating
  | 5 => Some LocationUpdateType_ServiceRestorationMigratingLocationUpdating
  | 6 => Some LocationUpdateType_DemandLocationUpdating
  | 7 => Some LocationUpdateType_DisabledMsUpdating
  | _ => None
  end%Z.

Definition location_update_type_into_raw (e : LocationUpdateType) : Z :=
  match e with
  | LocationUpdateType_RoamingLocationUpdating => 0
  | LocationUpdateType_MigratingLocationUpdating => 1
  | LocationUpdateType_PeriodicLocationUpdating => 2
  | LocationUpdateType_ItsiAttach => 3
  | LocationUpdateType_ServiceRestorationRoamingLocationUpdating => 4
  | LocationUpdateType_ServiceRestorationMigratingLocationUpdating => 5
  | LocationUpdateType_DemandLocationUpdating => 6
  | LocationUpdateType_DisabledMsUpdating => 7
  end.

#[global] Instance location_update_type_raw : RawEnum 3 location_update_type_into_raw location_update_type_try_from.
Proof. raw_enum. Qed.
#[global] Instance location_update_type_total : TotalEnum 3 location_update_type_try_from.
Proof. total_enum. Qed.

Inductive MmPduTypeDl : Type :=
| MmPduTypeDl_DOtar
| MmPduTypeDl_DAuthentication
| MmPduTypeDl_DCkChangeDemand
| MmPduTypeDl_DDisable
| MmPduTypeDl_DEnable
| MmPduTypeDl_DLocationUpdateAccept
| MmPduTypeDl_DLocationUpdateCommand
| MmPduTypeDl_DLocationUpdateReject
| MmPduTypeDl_DLocationUpdateProceeding
| MmPduTypeDl_DAttachDetachGroupIdentity
| MmPduTypeDl_DAttachDetachGroupIdentityAcknowledgement
| MmPduTypeDl_DMmStatus
| MmPduTypeDl_MmPduFunctionNotSupported.

Definition mm_pdu_type_dl_try_from (x : Z) : option MmPduTypeDl :=
  match x with
  | 0 => Some MmPduTypeDl_DOtar
  | 1 => Some MmPduTypeDl_DAuthentication
  | 2 => Some MmPduTypeDl_DCkChangeDemand
  | 3 => Some MmPduTypeDl_DDisable
  | 4 => Some MmPduTypeDl_DEnable
  | 5 => Some MmPduTypeDl_DLocationUpdateAccept
  | 6 => Some MmPduTypeDl_DLocationUpdateCommand
  | 7 => Some MmPduTypeDl_DLocationUpdateReject
  | 9 => Some MmPduTypeDl_DLocationUpdateProceeding
  | 10 => Some MmPduTypeDl_DAttachDetachGroupIdentity
  | 11 => Some MmPduTypeDl_DAttachDetachGroupIdentityAcknowledgement
  | 12 => Some MmPduTypeDl_DMmStatus
  | 15 => Some MmPduTypeDl_MmPduFunctionNotSupported
  | _ => None
  end%Z.

Definition mm_pdu_type_dl_into_raw (e : MmPduTypeDl) : Z :=
  match e with
  | MmPduTypeDl_DOtar => 0
  | MmPduTypeDl_DAuthentication => 1
  | MmPduTypeDl_DCkChangeDemand => 2
  | MmPduTypeDl_DDisable => 3
  | MmPduTypeDl_DEnable => 4
  | MmPduTypeDl_DLocationUpdateAccept => 5
  | MmPduTypeDl_DLocationUpdateCommand => 6
  | MmPduTypeDl_DLocationUpdateReject => 7
  | MmPduTypeDl_DLocationUpdateProceeding => 9
  | MmPduTypeDl_DAttachDetachGroupIdentity => 10
  | MmPduTypeDl_DAttachDetachGroupIdentityAcknowledgement => 11
  | MmPduTypeDl_DMmStatus => 12
  | MmPduTypeDl_MmPduFunctionNotSupported => 15
  end.

#[global] Instance mm_pdu_type_dl_raw : RawEnum 4 mm_pdu_type_dl_into_raw mm_pdu_type_dl_try_from.
Proof. raw_enum. Qed.

Inductive MmPduTypeUl : Type :=
| MmPduTypeUl_UAuthentication
| MmPduTypeUl_UItsiDetach
| MmPduTypeUl_ULocationUpdateDemand
| MmPduTypeUl_UMmStatus
| MmPduTypeUl_UCkChangeResult
| MmPduTypeUl_UOtar
| MmPduTypeUl_UInformationProvide
| MmPduTypeUl_UAttachDetachGroupIdentity
| MmPduTypeUl_UAttachDetachGroupIdentityAcknowledgement
| MmPduTypeUl_UTeiProvide
| MmPduTypeUl_UDisableStatus
| MmPduTypeUl_MmPduFunctionNotSupported.

Definition mm_pdu_type_ul_try_from (x : Z) : option MmPduTypeUl :=
  match x with
  | 0 => Some MmPduTypeUl_UAuthentication
  | 1 => Some MmPduTypeUl_UItsiDetach
  | 2 => Some MmPduTypeUl_ULocationUpdateDemand
  | 3 => Some MmPduTypeUl_UMmStatus
  | 4 => Some MmPduTypeUl_UCkChangeResult
  | 5 => Some MmPduTypeUl_UOtar
  | 6 => Some MmPduTypeUl_UInformationProvide
  | 7 => Some MmPduTypeUl_UAttachDetachGroupIdentity
  | 8 => Some MmPduTypeUl_UAttachDetachGroupIdentityAcknowledgement
  | 9 => Some MmPduTypeUl_UTeiProvide
  | 11 => Some MmPduTypeUl_UDisableStatus
  | 15 => Some MmPduTypeUl_MmPduFunctionNotSupported
  | _ => None
  end%Z.

Definition mm_pdu_type_ul_into_raw (e : MmPduTypeUl) : Z :=
  match e with
  | MmPduTypeUl_UAuthentication => 0
  | MmPduTypeUl_UItsiDetach => 1
  | MmPduTypeUl_ULocationUpdateDemand => 2
  | MmPduTypeUl_UMmStatus => 3
  | MmPduTypeUl_UCkChangeResult => 4
  | MmPduTypeUl_UOtar => 5
  | MmPduTypeUl_UInformationProvide => 6
  | MmPduTypeUl_UAttachDetachGroupIdentity => 7
  | MmPduTypeUl_UAttachDetachGroupIdentityAcknowledgement => 8
  | MmPduTypeUl_UTeiProvide => 9
  | MmPduTypeUl_UDisableStatus => 11
  | MmPduTypeUl_MmPduFunctionNotSupported => 15
  end.

#[global] Instance mm_pdu_type_ul_raw : RawEnum 4 mm_pdu_type_ul_into_raw mm_pdu_type_ul_try_from.
Proof. raw_enum. Qed.

Inductive RejectCause : Type :=
| RejectCause_ItsiAtsiUnknown
| RejectCause_IllegalMs
| RejectCause_LaNotAllowed
| RejectCause_LaUnknown
| RejectCause_NetworkFailure
| RejectCause_Congestion
| RejectCause_ForwardRegistrationFailure
| RejectCause_ServiceNotSubscribed
| RejectCause_MandatoryElementError
| RejectCause_MessageConsistencyError
| RejectCause_RoamingNotSupported
| RejectCause_MigrationNotSupported
| RejectCause_NoCipherKsg
| RejectCause_IdentifiedCipherKsgNotSupported
| RejectCause_RequestedCipherKeyTypeNotAvailable
| RejectCause_IdentifiedCipherKeyNotAvailable
| RejectCause_ExpiryOfTimer
| RejectCause_CipheringRequired
| RejectCause_AuthenticationFailure
| RejectCause_UseCaCellNotPermitted
| RejectCause_UseDaCellNotPermitted.

Definition reject_cause_try_from (x : Z) : option RejectCause :=
  match x with
  | 1 => Some RejectCause_ItsiAtsiUnknown
  | 2 => Some RejectCause_IllegalMs
  | 3 => Some RejectCause_LaNotAllowed
  | 4 => Some RejectCause_LaUnknown
  | 5 => Some RejectCause_NetworkFailure
  | 6 => Some RejectCause_Congestion
  | 7 => Some RejectCause_ForwardRegistrationFailure
  | 8 => Some RejectCause_ServiceNotSubscribed
  | 9 => Some RejectCause_MandatoryElementError
  | 10 => Some RejectCause_MessageConsistencyError
  | 11 => Some RejectCause_RoamingNotSupported
  | 12 => Some RejectCause_MigrationNotSupported
  | 13 => Some RejectCause_NoCipherKsg
  | 14 => Some RejectCause_IdentifiedCipherKsgNotSupported
  | 15 => Some RejectCause_RequestedCipherKeyTypeNotAvailable
  | 16 => Some RejectCause_IdentifiedCipherKeyNotAvailable
  | 17 => Some RejectCause_ExpiryOfTimer
  | 18 => Some RejectCause_CipheringRequired
  | 19 => Some RejectCause_AuthenticationFailure
  | 20 => Some RejectCause_UseCaCellNotPermitted
  | 21 => Some RejectCause_UseDaCellNotPermitted
  | _ => None
  end%Z.

Definition reject_cause_into_raw (e : RejectCause) : Z :=
  match e with
  | RejectCause_ItsiAtsiUnknown => 1
  | RejectCause_IllegalMs => 2
  | RejectCause_LaNotAllowed => 3
  | RejectCause_LaUnknown => 4
  | RejectCause_NetworkFailure => 5
  | RejectCause_Congestion => 6
  | RejectCause_ForwardRegistrationFailure => 7
  | RejectCause_ServiceNotSubscribed => 8
  | RejectCause_MandatoryElementError => 9
  | RejectCause_MessageConsistencyError => 10
  | RejectCause_RoamingNotSupported => 11
  | RejectCause_MigrationNotSupported => 12
  | RejectCause_NoCipherKsg => 13
  | RejectCause_IdentifiedCipherKsgNotSupported => 14
  | RejectCause_RequestedCipherKeyTypeNotAvailable => 15
  | RejectCause_IdentifiedCipherKeyNotAvailable => 16
  | RejectCause_ExpiryOfTimer => 17
  | RejectCause_CipheringRequired => 18
  | RejectCause_AuthenticationFailure => 19
  | RejectCause_UseCaCellNotPermitted => 20
  | RejectCause_UseDaCellNotPermitted => 21
  end.

#[global] Instance reject_cause_raw : RawEnum 5 reject_cause_into_raw reject_cause_try_from.
Proof. raw_enum. Qed.

Inductive StatusDownlink : Type :=
| StatusDownlink_ChangeOfEnergySavingModeRequest
| StatusDownlink_ChangeOfEnergySavingModeResponse
| StatusDownlink_DualWatchModeResponse
| StatusDownlink_TerminatingDualWatchModeResponse
| StatusDownlink_ChangeOfDualWatchModeRequest
| StatusDownlink_MsFrequencyBandsRequest
| StatusDownlink_PeriodicDistanceReporting
| StatusDownlink_AcceptanceToStartDmGatewayOperation
| StatusDownlink_RejectionToStartDmGatewayOperation
| StatusDownlink_AcceptanceToContinueDmGatewayOperation
| StatusDownlink_RejectionToContinueDmGatewayOperation
| StatusDownlink_AcceptanceToStopDmGatewayOperation
| StatusDownlink_AcceptanceOfDmMsAddresses
| StatusDownlink_CommandToRemoveDmMsAddresses
| StatusDownlink_CommandToChangeRegistrationLabel
| StatusDownlink_CommandToStopDmGatewayOperation
| StatusDownlink_NetworkOrUserSpecific32
| StatusDownlink_NetworkOrUserSpecific33
| StatusDownlink_NetworkOrUserSpecific34
| StatusDownlink_NetworkOrUserSpecific35
| StatusDownlink_NetworkOrUserSpecific36
| StatusDownlink_NetworkOrUserSpecific37
| StatusDownlink_NetworkOrUserSpecific38
| StatusDownlink_NetworkOrUserSpecific39
| StatusDownlink_NetworkOrUserSpecific40
| StatusDownlink_NetworkOrUserSpecific41
| StatusDownlink_NetworkOrUserSpecific42
| StatusDownlink_NetworkOrUserSpecific43
| StatusDownlink_NetworkOrUserSpecific44
| StatusDownlink_NetworkOrUserSpecific45
| StatusDownlink_NetworkOrUserSpecific46
| StatusDownlink_NetworkOrUserSpecific47
| StatusDownlink_NetworkOrUserSpecific48
| StatusDownlink_NetworkOrUserSpecific49
| StatusDownlink_NetworkOrUserSpecific50
| StatusDownlink_NetworkOrUserSpecific51
| StatusDownlink_NetworkOrUserSpecific52
| StatusDownlink_NetworkOrUserSpecific53
| StatusDownlink_NetworkOrUserSpecific54
| StatusDownlink_NetworkOrUserSpecific55
| StatusDownlink_NetworkOrUserSpecific56
| StatusDownlink_NetworkOrUserSpecific57
| StatusDownlink_NetworkOrUserSpecific58
| StatusDownlink_NetworkOrUserSpecific59
| StatusDownlink_NetworkOrUserSpecific60
| StatusDownlink_NetworkOrUserSpecific61
| StatusDownlink_NetworkOrUserSpecific62
| StatusDownlink_NetworkOrUserSpecific63.

Definition status_downlink_try_from (x : Z) : option StatusDownlink :=
  match x with
  | 1 => Some StatusDownlink_ChangeOfEnergySavingModeRequest
  | 2 => Some StatusDownlink_ChangeOfEnergySavingModeResponse
  | 3 => Some StatusDownlink_DualWatchModeResponse
  | 4 => Some StatusDownlink_TerminatingDualWatchModeResponse
  | 5 => Some StatusDownlink_ChangeOfDualWatchModeRequest
  | 7 => Some StatusDownlink_MsFrequencyBandsRequest
  | 8 => Some StatusDownlink_PeriodicDistanceReporting
  | 16 => Some StatusDownlink_AcceptanceToStartDmGatewayOperation
  | 17 => Some StatusDownlink_RejectionToStartDmGatewayOperation
  | 18 => Some StatusDownlink_AcceptanceToContinueDmGatewayOperation
  | 19 => Some StatusDownlink_RejectionToContinueDmGatewayOperation
  | 20 => Some StatusDownlink_AcceptanceToStopDmGatewayOperation
  | 21 => Some StatusDownlink_AcceptanceOfDmMsAddresses
  | 22 => Some StatusDownlink_CommandToRemoveDmMsAddresses
  | 23 => Some StatusDownlink_CommandToChangeRegistrationLabel
  | 24 => Some StatusDownlink_CommandToStopDmGatewayOperation
  | 32 => Some StatusDownlink_NetworkOrUserSpecific32
  | 33 => Some StatusDownlink_NetworkOrUserSpecific33
  | 34 => Some StatusDownlink_NetworkOrUserSpecific34
  | 35 => Some StatusDownlink_NetworkOrUserSpecific35
  | 36 => Some StatusDownlink_NetworkOrUserSpecific36
  | 37 => Some StatusDownlink_NetworkOrUserSpecific37
  | 38 => Some StatusDownlink_NetworkOrUserSpecific38
  | 39 => Some StatusDownlink_NetworkOrUserSpecific39
  | 40 => Some StatusDownlink_NetworkOrUserSpecific40
  | 41 => Some StatusDownlink_NetworkOrUserSpecific41
  | 42 => Some StatusDownlink_NetworkOrUserSpecific42
  | 43 => Some StatusDownlink_NetworkOrUserSpecific43
  | 44 => Some StatusDownlink_NetworkOrUserSpecific44
  | 45 => Some StatusDownlink_NetworkOrUserSpecific45
  | 46 => Some StatusDownlink_NetworkOrUserSpecific46
  | 47 => Some StatusDownlink_NetworkOrUserSpecific47
  | 48 => Some StatusDownlink_NetworkOrUserSpecific48
  | 49 => Some StatusDownlink_NetworkOrUserSpecific49
  | 50 => Some StatusDownlink_NetworkOrUserSpecific50
  | 51 => Some StatusDownlink_NetworkOrUserSpecific51
  | 52 => Some StatusDownlink_NetworkOrUserSpecific52
  | 53 => Some StatusDownlink_NetworkOrUserSpecific53
  | 54 => Some StatusDownlink_NetworkOrUserSpecific54
  | 55 => Some StatusDownlink_NetworkOrUserSpecific55
  | 56 => Some StatusDownlink_NetworkOrUserSpecific56
  | 57 => Some StatusDownlink_NetworkOrUserSpecific57
  | 58 => Some StatusDownlink_NetworkOrUserSpecific58
  | 59 => Some StatusDownlink_NetworkOrUserSpecific59
  | 60 => Some StatusDownlink_NetworkOrUserSpecific60
  | 61 => Some StatusDownlink_NetworkOrUserSpecific61
  | 62 => Some StatusDownlink_NetworkOrUserSpecific62
  | 63 => Some StatusDownlink_NetworkOrUserSpecific63
  | _ => None
  end%Z.

Definition status_downlink_into_raw (e : StatusDownlink) : Z :=
  match e with
  | StatusDownlink_ChangeOfEnergySavingModeRequest => 1
  | StatusDownlink_ChangeOfEnergySavingModeResponse => 2
  | StatusDownlink_DualWatchModeResponse => 3
  | StatusDownlink_TerminatingDualWatchModeResponse => 4
  | StatusDownlink_ChangeOfDualWatchModeRequest => 5
  | StatusDownlink_MsFrequencyBandsRequest => 7
  | StatusDownlink_PeriodicDistanceReporting => 8
  | StatusDownlink_AcceptanceToStartDmGatewayOperation => 16
  | StatusDownlink_RejectionToStartDmGatewayOperation => 17
  | StatusDownlink_AcceptanceToContinueDmGatewayOperation => 18
  | StatusDownlink_RejectionToContinueDmGatewayOperation => 19
  | StatusDownlink_AcceptanceToStopDmGatewayOperation => 20
  | StatusDownlink_AcceptanceOfDmMsAddresses => 21
  | StatusDownlink_CommandToRemoveDmMsAddresses => 22
  | StatusDownlink_CommandToChangeRegistrationLabel => 23
  | StatusDownlink_CommandToStopDmGatewayOperation => 24
  | StatusDownlink_NetworkOrUserSpecific32 => 32
  | StatusDownlink_NetworkOrUserSpecific33 => 33
  | StatusDownlink_NetworkOrUserSpecific34 => 34
  | StatusDownlink_NetworkOrUserSpecific35 => 35
  | StatusDownlink_NetworkOrUserSpecific36 => 36
  | StatusDownlink_NetworkOrUserSpecific37 => 37
  | StatusDownlink_NetworkOrUserSpecific38 => 38
  | StatusDownlink_NetworkOrUserSpecific39 => 39
  | StatusDownlink_NetworkOrUserSpecific40 => 40
  | StatusDownlink_NetworkOrUserSpecific41 => 41
  | StatusDownlink_NetworkOrUserSpecific42 => 42
  | StatusDownlink_NetworkOrUserSpecific43 => 43
  | StatusDownlink_NetworkOrUserSpecific44 => 44
  | StatusDownlink_NetworkOrUserSpecific45 => 45
  | StatusDownlink_NetworkOrUserSpecific46 => 46
  | StatusDownlink_NetworkOrUserSpecific47 => 47
  | StatusDownlink_NetworkOrUserSpecific48 => 48
  | StatusDownlink_NetworkOrUserSpecific49 => 49
  | StatusDownlink_NetworkOrUserSpecific50 => 50
  | StatusDownlink_NetworkOrUserSpecific51 => 51
  | StatusDownlink_NetworkOrUserSpecific52 => 52
  | StatusDownlink_NetworkOrUserSpecific53 => 53
  | StatusDownlink_NetworkOrUserSpecific54 => 54
  | StatusDownlink_NetworkOrUserSpecific55 => 55
  | StatusDownlink_NetworkOrUserSpecific56 => 56
  | StatusDownlink_NetworkOrUserSpecific57 => 57
  | StatusDownlink_NetworkOrUserSpecific58 => 58
  | StatusDownlink_NetworkOrUserSpecific59 => 59
  | StatusDownlink_NetworkOrUserSpecific60 => 60
  | StatusDownlink_NetworkOrUserSpecific61 => 61
  | StatusDownlink_NetworkOrUserSpecific62 => 62
  | StatusDownlink_NetworkOrUserSpecific63 => 63
  end.

#[global] Instance status_downlink_raw : RawEnum 6 status_downlink_into_raw status_downlink_try_from.
Proof. raw_enum. Qed.

Inductive StatusUplink : Type :=
| StatusUplink_ChangeOfEnergySavingModeRequest
| StatusUplink_ChangeOfEnergySavingModeResponse
| StatusUplink_DualWatchModeRequest
| StatusUplink_TerminatingDualWatchModeRequest
| StatusUplink_ChangeOfDualWatchModeResponse
| StatusUplink_StartOfDirectModeOperation
| StatusUplink_MsFrequencyBandsInformation
| StatusUplink_RequestToStartDmGatewayOperation
| StatusUplink_RequestToContinuedmGatewayOperation
| StatusUplink_RequestToStopDmGatewayOperation
| StatusUplink_RequestToAddDmMsAddresses
| StatusUplink_RequestToRemoveDmMsAddresses
| StatusUplink_RequestToReplaceDmMsAddresses
| StatusUplink_AcceptanceToRemovalOfDmMsAddresses
| StatusUplink_AcceptanceToChangeRegistrationLabel
| StatusUplink_AcceptanceToStopDmGatewayOperation
| StatusUplink_NetworkOrUserSpecific32
| StatusUplink_NetworkOrUserSpecific33
| StatusUplink_NetworkOrUserSpecific34
| StatusUplink_NetworkOrUserSpecific35
| StatusUplink_NetworkOrUserSpecific36
| StatusUplink_NetworkOrUserSpecific37
| StatusUplink_NetworkOrUserSpecific38
| StatusUplink_NetworkOrUserSpecific39
| StatusUplink_NetworkOrUserSpecific40
| StatusUplink_NetworkOrUserSpecific41
| StatusUplink_NetworkOrUserSpecific42
| StatusUplink_NetworkOrUserSpecific43
| StatusUplink_NetworkOrUserSpecific44
| StatusUplink_NetworkOrUserSpecific45
| StatusUplink_NetworkOrUserSpecific46
| StatusUplink_NetworkOrUserSpecific47
| StatusUplink_NetworkOrUserSpecific48
| StatusUplink_NetworkOrUserSpecific49
| StatusUplink_NetworkOrUserSpecific50
| StatusUplink_NetworkOrUserSpecific51
| StatusUplink_NetworkOrUserSpecific52
| StatusUplink_NetworkOrUserSpecific53
| StatusUplink_NetworkOrUserSpecific54
| StatusUplink_NetworkOrUserSpecific55
| StatusUplink_NetworkOrUserSpecific56
| StatusUplink_NetworkOrUserSpecific57
| StatusUplink_NetworkOrUserSpecific58
| StatusUplink_NetworkOrUserSpecific59
| StatusUplink_NetworkOrUserSpecific60
| StatusUplink_NetworkOrUserSpecific61
| StatusUplink_NetworkOrUserSpecific62
| StatusUplink_NetworkOrUserSpecific63.

Definition status_uplink_try_from (x : Z) : option StatusUplink :=
  match x with
  | 1 => Some StatusUplink_ChangeOfEnergySavingModeRequest
  | 2 => Some StatusUplink_ChangeOfEnergySavingModeResponse
  | 3 => Some StatusUplink_DualWatchModeRequest
  | 4 => Some StatusUplink_TerminatingDualWatchModeRequest
  | 5 => Some StatusUplink_ChangeOfDualWatchModeResponse
  | 6 => Some StatusUplink_StartOfDirectModeOperation
  | 7 => Some StatusUplink_MsFrequencyBandsInformation
  | 16 => Some StatusUplink_RequestToStartDmGatewayOperation
  | 17 => Some StatusUplink_RequestToContinuedmGatewayOperation
  | 18 => Some StatusUplink_RequestToStopDmGatewayOperation
  | 19 => Some StatusUplink_RequestToAddDmMsAddresses
  | 20 => Some StatusUplink_RequestToRemoveDmMsAddresses
  | 21 => Some StatusUplink_RequestToReplaceDmMsAddresses
  | 22 => Some StatusUplink_AcceptanceToRemovalOfDmMsAddresses
  | 23 => Some StatusUplink_AcceptanceToChangeRegistrationLabel
  | 24 => Some StatusUplink_AcceptanceToStopDmGatewayOperation
  | 32 => Some StatusUplink_NetworkOrUserSpecific32
  | 33 => Some StatusUplink_NetworkOrUserSpecific33
  | 34 => Some StatusUplink_NetworkOrUserSpecific34
  | 35 => Some StatusUplink_NetworkOrUserSpecific35
  | 36 => Some StatusUplink_NetworkOrUserSpecific36
  | 37 => Some StatusUplink_NetworkOrUserSpecific37
  | 38 => Some StatusUplink_NetworkOrUserSpecific38
  | 39 => Some StatusUplink_NetworkOrUserSpecific39
  | 40 => Some StatusUplink_NetworkOrUserSpecific40
  | 41 => Some StatusUplink_NetworkOrUserSpecific41
  | 42 => Some StatusUplink_NetworkOrUserSpecific42
  | 43 => Some StatusUplink_NetworkOrUserSpecific43
  | 44 => Some StatusUplink_NetworkOrUserSpecific44
  | 45 => Some StatusUplink_NetworkOrUserSpecific45
  | 46 => Some StatusUplink_NetworkOrUserSpecific46
  | 47 => Some StatusUplink_NetworkOrUserSpecific47
  | 48 => Some StatusUplink_NetworkOrUserSpecific48
  | 49 => Some StatusUplink_NetworkOrUserSpecific49
  | 50 => Some StatusUplink_NetworkOrUserSpecific50
  | 51 => Some StatusUplink_NetworkOrUserSpecific51
  | 52 => Some StatusUplink_NetworkOrUserSpecific52
  | 53 => Some StatusUplink_NetworkOrUserSpecific53
  | 54 => Some StatusUplink_NetworkOrUserSpecific54
  | 55 => Some StatusUplink_NetworkOrUserSpecific55
  | 56 => Some StatusUplink_NetworkOrUserSpecific56
  | 57 => Some StatusUplink_NetworkOrUserSpecific57
  | 58 => Some StatusUplink_NetworkOrUserSpecific58
  | 59 => Some StatusUplink_NetworkOrUserSpecific59
  | 60 => Some StatusUplink_NetworkOrUserSpecific60
  | 61 => Some StatusUplink_NetworkOrUserSpecific61
  | 62 => Some StatusUplink_NetworkOrUserSpecific62
  | 63 => Some StatusUplink_NetworkOrUserSpecific63
  | _ => None
  end%Z.

Definition status_uplink_into_raw (e : StatusUplink) : Z :=
  match e with
  | StatusUplink_ChangeOfEnergySavingModeRequest => 1
  | StatusUplink_ChangeOfEnergySavingModeResponse => 2
  | StatusUplink_DualWatchModeRequest => 3
  | StatusUplink_TerminatingDualWatchModeRequest => 4
  | StatusUplink_ChangeOfDualWatchModeResponse => 5
  | StatusUplink_StartOfDirectModeOperation => 6
  | StatusUplink_MsFrequencyBandsInformation => 7
  | StatusUplink_RequestToStartDmGatewayOperation => 16
  | StatusUplink_RequestToContinuedmGatewayOperation => 17
  | StatusUplink_RequestToStopDmGatewayOperation => 18
  | StatusUplink_RequestToAddDmMsAddresses => 19
  | StatusUplink_RequestToRemoveDmMsAddresses => 20
  | StatusUplink_RequestToReplaceDmMsAddresses => 21
  | StatusUplink_AcceptanceToRemovalOfDmMsAddresses => 22
  | StatusUplink_AcceptanceToChangeRegistrationLabel => 23
  | StatusUplink_AcceptanceToStopDmGatewayOperation => 24
  | StatusUplink_NetworkOrUserSpecific32 => 32
  | StatusUplink_NetworkOrUserSpecific33 => 33
  | StatusUplink_NetworkOrUserSpecific34 => 34
  | StatusUplink_NetworkOrUserSpecific35 => 35
  | StatusUplink_NetworkOrUserSpecific36 => 36
  | StatusUplink_NetworkOrUserSpecific37 => 37
  | StatusUplink_NetworkOrUserSpecific38 => 38
  | StatusUplink_NetworkOrUserSpecific39 => 39
  | StatusUplink_NetworkOrUserSpecific40 => 40
  | StatusUplink_NetworkOrUserSpecific41 => 41
  | StatusUplink_NetworkOrUserSpecific42 => 42
  | StatusUplink_NetworkOrUserSpecific43 => 43
  | StatusUplink_NetworkOrUserSpecific44 => 44
  | StatusUplink_NetworkOrUserSpecific45 => 45
  | StatusUplink_NetworkOrUserSpecific46 => 46
  | StatusUplink_NetworkOrUserSpecific47 => 47
  | StatusUplink_NetworkOrUserSpecific48 => 48
  | StatusUplink_NetworkOrUserSpecific49 => 49
  | StatusUplink_NetworkOrUserSpecific50 => 50
  | StatusUplink_NetworkOrUserSpecific51 => 51
  | StatusUplink_NetworkOrUserSpecific52 => 52
  | StatusUplink_NetworkOrUserSpecific53 => 53
  | StatusUplink_NetworkOrUserSpecific54 => 54
  | StatusUplink_NetworkOrUserSpecific55 => 55
  | StatusUplink_NetworkOrUserSpecific56 => 56
  | StatusUplink_NetworkOrUserSpecific57 => 57
  | StatusUplink_NetworkOrUserSpecific58 => 58
  | StatusUplink_NetworkOrUserSpecific59 => 59
  | StatusUplink_NetworkOrUserSpecific60 => 60
  | StatusUplink_NetworkOrUserSpecific61 => 61
  | StatusUplink_NetworkOrUserSpecific62 => 62
  | StatusUplink_NetworkOrUserSpecific63 => 63
  end.

#[global] Instance status_uplink_raw : RawEnum 6 status_uplink_into_raw status_uplink_try_from.
Proof. raw_enum. Qed.

Inductive MmType34ElemIdDl : Type :=
| MmType34ElemIdDl_DefaultGroupAttachLifetime
| MmType34ElemIdDl_NewRegisteredArea
| MmType34ElemIdDl_SecurityDownlink
| MmType34ElemIdDl_GroupReportResponse
| MmType34ElemIdDl_GroupIdentityLocationAccept
| MmType34ElemIdDl_DmMsAddress
| MmType34ElemIdDl_GroupIdentityDownlink
| MmType34ElemIdDl_AuthenticationDownlink
| MmType34ElemIdDl_GroupIdentitySecurityRelatedInformation
| MmType34ElemIdDl_CellTypeControl
| MmType34ElemIdDl_Proprietary.

Definition mm_type34_elem_id_dl_try_from (x : Z) : option MmType34ElemIdDl :=
  match x with
  | 1 => Some MmType34ElemIdDl_DefaultGroupAttachLifetime
  | 2 => Some MmType34ElemIdDl_NewRegisteredArea
  | 3 => Some MmType34ElemIdDl_SecurityDownlink
  | 4 => Some MmType34ElemIdDl_GroupReportResponse
  | 5 => Some MmType34ElemIdDl_GroupIdentityLocationAccept
  | 6 => Some MmType34ElemIdDl_DmMsAddress
  | 7 => Some MmType34ElemIdDl_GroupIdentityDownlink
  | 10 => Some MmType34ElemIdDl_AuthenticationDownlink
  | 12 => Some MmType34ElemIdDl_GroupIdentitySecurityRelatedInformation
  | 13 => Some MmType34ElemIdDl_CellTypeControl
  | 15 => Some MmType34ElemIdDl_Proprietary
  | _ => None
  end%Z.

Definition mm_type34_elem_id_dl_into_raw (e : MmType34ElemIdDl) : Z :=
  match e with
  | MmType34ElemIdDl_DefaultGroupAttachLifetime => 1
  | MmType34ElemIdDl_NewRegisteredArea => 2
  | MmType34ElemIdDl_SecurityDownlink => 3
  | MmType34ElemIdDl_GroupReportResponse => 4
  | MmType34ElemIdDl_GroupIdentityLocationAccept => 5
  | MmType34ElemIdDl_DmMsAddress => 6
  | MmType34ElemIdDl_GroupIdentityDownlink => 7
  | MmType34ElemIdDl_AuthenticationDownlink => 10
  | MmType34ElemIdDl_GroupIdentitySecurityRelatedInformation => 12
  | MmType34ElemIdDl_CellTypeControl => 13
  | MmType34ElemIdDl_Proprietary => 15
  end.

#[global] Instance mm_type34_elem_id_dl_raw : RawEnum 4 mm_type34_elem_id_dl_into_raw mm_type34_elem_id_dl_try_from.
Proof. raw_enum. Qed.

Inductive MmType34ElemIdUl : Type :=
| MmType34ElemIdUl_GroupIdentityLocationDemand
| MmType34ElemIdUl_GroupReportResponse
| MmType34ElemIdUl_DmMsAddress
| MmType34ElemIdUl_GroupIdentityUplink
| MmType34ElemIdUl_AuthenticationUplink
| MmType34ElemIdUl_ExtendedCapabilities
| MmType34ElemIdUl_Proprietary.

Definition mm_type34_elem_id_ul_try_from (x : Z) : option MmType34ElemIdUl :=
  match x with
  | 3 => Some MmType34ElemIdUl_GroupIdentityLocationDemand
  | 4 => Some MmType34ElemIdUl_GroupReportResponse
  | 6 => Some MmType34ElemIdUl_DmMsAddress
  | 8 => Some MmType34ElemIdUl_GroupIdentityUplink
  | 9 => Some MmType34ElemIdUl_AuthenticationUplink
  | 11 => Some MmType34ElemIdUl_ExtendedCapabilities
  | 15 => Some MmType34ElemIdUl_Proprietary
  | _ => None
  end%Z.

Definition mm_type34_elem_id_ul_into_raw (e : MmType34ElemIdUl) : Z :=
  match e with
  | MmType34ElemIdUl_GroupIdentityLocationDemand => 3
  | MmType34ElemIdUl_GroupReportResponse => 4
  | MmType34ElemIdUl_DmMsAddress => 6
  | MmType34ElemIdUl_GroupIdentityUplink => 8
  | MmType34ElemIdUl_AuthenticationUplink => 9
  | MmType34ElemIdUl_ExtendedCapabilities => 11
  | MmType34ElemIdUl_Proprietary => 15
  end.

#[global] Instance mm_type34_elem_id_ul_raw : RawEnum 4 mm_type34_elem_id_ul_into_raw mm_type34_elem_id_ul_try_from.
Proof. raw_enum. Qed.

#[global] Instance esm_raw : RawEnum 3 esm_into_raw esm_try_from.
Proof. raw_enum. Qed.
#[global] Instance esm_total : TotalEnum 3 esm_try_from.
Proof. total_enum. Qed.

(** * Class of MS *)

(** [(val >> n) & 1 != 0]. *)
Definition class_bit (val n : Z) : bool := negb (Z.land (Z.shiftr val n) 1 =? 0)%Z.

Definition class_of_ms_from_bitbuf : B ClassOfMs :=
  val ← read_field 24 "class_of_ms";
  let val := wrap 32 val in
  mret (mkClassOfMs (class_bit val 23) (class_bit val 22) (class_bit val 21) (class_bit val 20) (class_bit val 19)
    (class_bit val 18) (class_bit val 17) (class_bit val 16) (class_bit val 15) (class_bit val 14) (class_bit val 13)
    (class_bit val 12) (class_bit val 11) (class_bit val 10) (class_bit val 9) (class_bit val 8)
    (wrap 8 (Z.land (Z.shiftr val 5) 7)) (class_bit val 4) (class_bit val 3) (class_bit val 2) (class_bit val 1)
    (class_bit val 0)).

(** [val |= (x as u32) << n]. *)
Definition or_bit (val : Z) (b : bool) (n : Z) : Z := Z.lor val (wrap 32 (Z.shiftl (Z.b2z b) n)).

(** [val] of the writer, after all assignments. *)
Definition class_of_ms_val (self : ClassOfMs) : Z :=
  let val := 0%Z in
  let val := or_bit val (freq_simplex_duplex self) 23 in
  let val := or_bit val (multislot_phase_mod self) 22 in
  let val := or_bit val (concurrent_multicarrier self) 21 in
  let val := or_bit val (voice self) 20 in
  let val := or_bit val (e2e_encryption_not_supported self) 19 in
  let val := or_bit val (circuit_mode_data self) 18 in
  let val := or_bit val (tetra_packet_data self) 17 in
  let val := or_bit val (fast_switching self) 16 in
  let val := or_bit val (dck_encryption self) 15 in
  let val := or_bit val (clch_needed self) 14 in
  let val := or_bit val (concurrent_circuit_mode self) 13 in
  let val := or_bit val (original_advanced_link self) 12 in
  let val := or_bit val (minimum_mode self) 11 in
  let val := or_bit val (carrier_specific_signalling self) 10 in
  let val := or_bit val (authentication self) 9 in
  let val := or_bit val (sck_encryption self) 8 in
  let val := Z.lor val (wrap 32 (Z.shiftl (Z.land (air_interface_version self) 7) 5)) in
  let val := or_bit val (common_scch self) 4 in
  let val := or_bit val (reserved_21 self) 3 in
  let val := or_bit val (mac_d_blck self) 2 in
  let val := or_bit val (extended_advanced_link self) 1 in
  Z.lor val (Z.b2z (d8psk self)).

Definition class_of_ms_to_bitbuf (self : ClassOfMs) : B unit := write_bits (class_of_ms_val self) 24.

(** * Energy saving information *)

Definition is_stay_alive (m : EnergySavingMode) : bool := match m with StayAlive => true | _ => false end.

Definition energy_saving_information_from_bitbuf : B EnergySavingInformation :=
  val ← read_field 3 "energy_saving_mode";
  let val := wrap 8 val in
  mode ← unwrap (esm_try_from val);
  fn_val ← read_field 5 "frame_number";
  let fn_val := wrap 8 fn_val in
  mn_val ← read_field 6 "multiframe_number";
  let mn_val := wrap 8 mn_val in
  if is_stay_alive mode then mret (mkEsi mode None None) else mret (mkEsi mode (Some fn_val) (Some mn_val)).

Definition energy_saving_information_to_bitbuf (self : EnergySavingInformation) : B unit :=
  write_bits (esm_into_raw (esi_mode self)) 3;;
  if is_stay_alive (esi_mode self) then
    match esi_frame_number self with Some f => fail (InvalidValue "frame_number" f) | None => mret tt end;;
    match esi_multiframe_number self with Some f => fail (InvalidValue "multiframe_number" f) | None => mret tt end;;
    write_bits 0 (5 + 6)
  else
    match esi_frame_number self with Some f => write_bits f 5 | None => fail (FieldNotPresent (Some "frame_number")) end;;
    match esi_multiframe_number self with
    | Some f => write_bits f 6
    | None => fail (FieldNotPresent (Some "multiframe_number"))
    end.

(** * Group identities *)

Record GroupIdentityAttachment : Type := mkGia { gia_lifetime : Z; gia_class_of_usage : Z }.

Definition group_identity_attachment_from_bitbuf : B GroupIdentityAttachment :=
  group_identity_attachment_lifetime ← read_field 2 "group_identity_attachment_lifetime";
  let group_identity_attachment_lifetime := wrap 8 group_identity_attachment_lifetime in
  class_of_usage ← read_field 3 "class_of_usage";
  let class_of_usage := wrap 8 class_of_usage in
  mret (mkGia group_identity_attachment_lifetime class_of_usage).

Definition group_identity_attachment_to_bitbuf (self : GroupIdentityAttachment) : B unit :=
  write_bits (gia_lifetime self) 2;;
  write_bits (gia_class_of_usage self) 3.

Record GroupIdentityDownlink : Type := mkGid {
  gid_attachment : option GroupIdentityAttachment;
  gid_detachment_uplink : option Z;
  gid_gssi : option Z;
  gid_address_extension : option Z;
  gid_vgssi : option Z
}.

Definition group_identity_downlink_from_bitbuf : B GroupIdentityDownlink :=
  attach_detach_type_identifier ← read_field 1 "attach_detach_type_identifier";
  let attach_detach_type_identifier := wrap 8 attach_detach_type_identifier in
  group_identity_attachment ← (if (attach_detach_type_identifier =? 0)%Z
    then v ← group_identity_attachment_from_bitbuf; mret (Some v) else mret None);
  group_identity_detachment_uplink ← (if (attach_detach_type_identifier =? 1)%Z
    then v ← read_field 2 "attach_detach_type_identifier"; mret (Some (wrap 8 v)) else mret None);
  address_type ← read_field 2 "address_type";
  let address_type := wrap 8 address_type in
  gssi ← (if (address_type =? 0)%Z || (address_type =? 1)%Z || (address_type =? 3)%Z
    then v ← read_field 24 "gssi"; mret (Some (wrap 32 v)) else mret None);
  address_extension ← (if (address_type =? 1)%Z || (address_type =? 3)%Z
    then v ← read_field 24 "address_extension"; mret (Some (wrap 32 v)) else mret None);
  vgssi ← (if (address_type =? 2)%Z || (address_type =? 3)%Z
    then v ← read_field 24 "vgssi"; mret (Some (wrap 32 v)) else mret None);
  mret (mkGid group_identity_attachment group_identity_detachment_uplink gssi address_extension vgssi).

Definition group_identity_downlink_to_bitbuf (self : GroupIdentityDownlink) : B unit :=
  assert_ (xorb (is_some (gid_attachment self)) (is_some (gid_detachment_uplink self)));;
  write_bits (if is_some (gid_attachment self) then 0 else 1) 1;;
  match gid_attachment self with Some v => group_identity_attachment_to_bitbuf v | None => mret tt end;;
  match gid_detachment_uplink self with Some v => write_bits v 2 | None => mret tt end;;
  address_type ← (if is_some (gid_gssi self) then
      if is_some (gid_address_extension self) then
        if is_some (gid_vgssi self) then mret 3%Z else mret 1%Z
      else
        if is_some (gid_vgssi self)
        then fail (Inconsistency "vgssi" "vgssi must be None if gssi is Some and address_extension is None")
        else mret 0%Z
    else
      if is_some (gid_address_extension self)
      then fail (Inconsistency "address_extension" "address_extension must be None if gssi is None")
      else if negb (is_some (gid_vgssi self)) then fail (Inconsistency "vgssi" "vgssi must be Some if gssi is None")
      else mret 2%Z);
  write_bits address_type 2;;
  match gid_gssi self with Some v => write_bits v 24 | None => mret tt end;;
  match gid_address_extension self with Some v => write_bits v 24 | None => mret tt end;;
  match gid_vgssi self with Some v => write_bits v 24 | None => mret tt end.

Record GroupIdentityUplink : Type := mkGiu {
  giu_class_of_usage : option Z;
  giu_detachment_uplink : option Z;
  giu_gssi : option Z;
  giu_address_extension : option Z;
  giu_vgssi : option Z
}.

Definition group_identity_uplink_from_bitbuf : B GroupIdentityUplink :=
  attach_detach_type_identifier ← read_field 1 "attach_detach_type_identifier";
  class_of_usage ← (if (attach_detach_type_identifier =? 0)%Z
    then v ← read_field 3 "class_of_usage"; mret (Some (wrap 8 v)) else mret None);
  group_identity_detachment_uplink ← (if (attach_detach_type_identifier =? 1)%Z
    then v ← read_field 2 "group_identity_detachment_uplink"; mret (Some (wrap 8 v)) else mret None);
  address_type ← read_field 2 "address_type";
  let address_type := wrap 8 address_type in
  gssi ← (if (address_type =? 0)%Z || (address_type =? 1)%Z
    then v ← read_field 24 "gssi"; mret (Some (wrap 32 v)) else mret None);
  address_extension ← (if (address_type =? 1)%Z
    then v ← read_field 24 "address_extension"; mret (Some (wrap 32 v)) else mret None);
  vgssi ← (if (address_type =? 2)%Z
    then v ← read_field 24 "vgssi"; mret (Some (wrap 32 v)) else mret None);
  mret (mkGiu class_of_usage group_identity_detachment_uplink gssi address_extension vgssi).

Definition group_identity_uplink_to_bitbuf (self : GroupIdentityUplink) : B unit :=
  assert_ (xorb (is_some (giu_class_of_usage self)) (is_some (giu_detachment_uplink self)));;
  write_bits (if is_some (giu_class_of_usage self) then 0 else 1) 1;;
  match giu_class_of_usage self with Some v => write_bits v 3 | None => mret tt end;;
  match giu_detachment_uplink self with Some v => write_bits v 2 | None => mret tt end;;
  address_type ← (if is_some (giu_gssi self) then
      assert_ (negb (is_some (giu_vgssi self)));;
      if is_some (giu_address_extension self) then mret 1%Z else mret 0%Z
    else
      assert_ (is_some (giu_vgssi self));;
      mret 2%Z);
  write_bits address_type 2;;
  match giu_gssi self with Some v => write_bits v 24 | None => mret tt end;;
  match giu_address_extension self with Some v => write_bits v 24 | None => mret tt end;;
  match giu_vgssi self with Some v => write_bits v 24 | None => mret tt end.
