(* ===== verification/MmPdus.v ===== *)
(** The MM PDUs ([tetra-pdus/src/mm/pdus]) and the two elements that are PDUs
    in themselves, translated statement by statement. *)
From S2P Require Import Prelude Bits Core BitBuffer BitBufferSpec BitCodec BitBufferThms FieldCodec TypedFieldsSpec PduCodec MmClients MmEnums.

(** ** GroupIdentityLocationAccept *)

Record GroupIdentityLocationAccept : Type := mkGroupIdentityLocationAccept {
  group_identity_location_accept_group_identity_accept_reject : Z;
  group_identity_location_accept_group_identity_downlink : option (list GroupIdentityDownlink)
}.

Definition group_identity_location_accept_from_bitbuf : B GroupIdentityLocationAccept :=
  group_identity_accept_reject ← read_field 1 "group_identity_accept_reject";
  let group_identity_accept_reject := wrap 8 group_identity_accept_reject in
  _reserved ← read_field 1 "reserved";
  let _reserved := negb (_reserved =? 0)%Z in
  obit ← read_obit;
  group_identity_downlink ← parse_type4_struct obit (mm_type34_elem_id_dl_into_raw
    MmType34ElemIdDl_GroupIdentityDownlink) group_identity_downlink_from_bitbuf;
  finish obit (mkGroupIdentityLocationAccept group_identity_accept_reject group_identity_downlink).

Definition group_identity_location_accept_to_bitbuf (self : GroupIdentityLocationAccept) : B unit :=
  write_bits (group_identity_location_accept_group_identity_accept_reject self) 1;;
  write_bits 0 1;;
  let obit := is_some (group_identity_location_accept_group_identity_downlink self) in
  write_obit (Z.b2z obit);;
  if negb obit then mret tt else
  write_type4_struct obit (group_identity_location_accept_group_identity_downlink self)
    (mm_type34_elem_id_dl_into_raw MmType34ElemIdDl_GroupIdentityDownlink) group_identity_downlink_to_bitbuf;;
  write_mbit 0.

(** ** GroupIdentityLocationDemand *)

Record GroupIdentityLocationDemand : Type := mkGroupIdentityLocationDemand {
  group_identity_location_demand_group_identity_attach_detach_mode : Z;
  group_identity_location_demand_group_identity_uplink : option (list GroupIdentityUplink)
}.

Definition group_identity_location_demand_from_bitbuf : B GroupIdentityLocationDemand :=
  reserved ← read_field 1 "reserved";
  expect_value reserved 0 "reserved";;
  group_identity_attach_detach_mode ← read_field 1 "group_identity_attach_detach_mode";
  let group_identity_attach_detach_mode := wrap 8 group_identity_attach_detach_mode in
  obit ← read_obit;
  group_identity_uplink ← parse_type4_struct obit (mm_type34_elem_id_ul_into_raw
    MmType34ElemIdUl_GroupIdentityUplink) group_identity_uplink_from_bitbuf;
  finish obit (mkGroupIdentityLocationDemand group_identity_attach_detach_mode group_identity_uplink).

Definition group_identity_location_demand_to_bitbuf (self : GroupIdentityLocationDemand) : B unit :=
  write_bits 0 1;;
  write_bits (group_identity_location_demand_group_identity_attach_detach_mode self) 1;;
  let obit := is_some (group_identity_location_demand_group_identity_uplink self) in
  write_obit (Z.b2z obit);;
  if negb obit then mret tt else
  write_type4_struct obit (group_identity_location_demand_group_identity_uplink self)
    (mm_type34_elem_id_ul_into_raw MmType34ElemIdUl_GroupIdentityUplink) group_identity_uplink_to_bitbuf;;
  write_mbit 0.

(** ** DAttachDetachGroupIdentity *)

Record DAttachDetachGroupIdentity : Type := mkDAttachDetachGroupIdentity {
  d_attach_detach_group_identity_group_identity_report : bool;
  d_attach_detach_group_identity_group_identity_acknowledgement_request : bool;
  d_attach_detach_group_identity_group_identity_attach_detach_mode : bool;
  d_attach_detach_group_identity_proprietary : option Type3FieldGeneric;
  d_attach_detach_group_identity_group_report_response : option Type3FieldGeneric;
  d_attach_detach_group_identity_group_identity_downlink : option (list GroupIdentityDownlink);
  d_attach_detach_group_identity_group_identity_security_related_information : option Type4FieldGeneric
}.

Definition d_attach_detach_group_identity_from_bitbuf : B DAttachDetachGroupIdentity :=
  pdu_type ← read_field 4 "pdu_type";
  expect_pdu_type pdu_type (mm_pdu_type_dl_into_raw MmPduTypeDl_DAttachDetachGroupIdentity);;
  group_identity_report ← read_field 1 "group_identity_report";
  let group_identity_report := negb (group_identity_report =? 0)%Z in
  group_identity_acknowledgement_request ← read_field 1 "group_identity_acknowledgement_request";
  let group_identity_acknowledgement_request := negb (group_identity_acknowledgement_request =? 0)%Z in
  group_identity_attach_detach_mode ← read_field 1 "group_identity_attach_detach_mode";
  let group_identity_attach_detach_mode := negb (group_identity_attach_detach_mode =? 0)%Z in
  obit ← read_obit;
  proprietary ← parse_type3_generic obit (mm_type34_elem_id_dl_into_raw MmType34ElemIdDl_Proprietary);
  group_report_response ← parse_type3_generic obit (mm_type34_elem_id_dl_into_raw
    MmType34ElemIdDl_GroupReportResponse);
  group_identity_downlink ← parse_type4_struct obit (mm_type34_elem_id_dl_into_raw
    MmType34ElemIdDl_GroupIdentityDownlink) group_identity_downlink_from_bitbuf;
  group_identity_security_related_information ← parse_type4_generic obit (mm_type34_elem_id_dl_into_raw
    MmType34ElemIdDl_GroupIdentitySecurityRelatedInformation);
  finish obit (mkDAttachDetachGroupIdentity group_identity_report group_identity_acknowledgement_request
    group_identity_attach_detach_mode proprietary group_report_response group_identity_downlink
    group_identity_security_related_information).

Definition d_attach_detach_group_identity_to_bitbuf (self : DAttachDetachGroupIdentity) : B unit :=
  write_bits (mm_pdu_type_dl_into_raw MmPduTypeDl_DAttachDetachGroupIdentity) 4;;
  write_bits (Z.b2z (d_attach_detach_group_identity_group_identity_report self)) 1;;
  write_bits (Z.b2z (d_attach_detach_group_identity_group_identity_acknowledgement_request self)) 1;;
  write_bits (Z.b2z (d_attach_detach_group_identity_group_identity_attach_detach_mode self)) 1;;
  let obit := is_some (d_attach_detach_group_identity_proprietary self) || is_some
    (d_attach_detach_group_identity_group_report_response self) || is_some
    (d_attach_detach_group_identity_group_identity_downlink self) || is_some
    (d_attach_detach_group_identity_group_identity_security_related_information self) in
  write_obit (Z.b2z obit);;
  if negb obit then mret tt else
  write_type3_generic obit (d_attach_detach_group_identity_proprietary self) (mm_type34_elem_id_dl_into_raw
    MmType34ElemIdDl_Proprietary);;
  write_type3_generic obit (d_attach_detach_group_identity_group_report_response self)
    (mm_type34_elem_id_dl_into_raw MmType34ElemIdDl_GroupReportResponse);;
  write_type4_struct obit (d_attach_detach_group_identity_group_identity_downlink self)
    (mm_type34_elem_id_dl_into_raw MmType34ElemIdDl_GroupIdentityDownlink) group_identity_downlink_to_bitbuf;;
  write_type4_todo obit (d_attach_detach_group_identity_group_identity_security_related_information self)
    (mm_type34_elem_id_dl_into_raw MmType34ElemIdDl_GroupIdentitySecurityRelatedInformation);;
  write_mbit 0.

(** ** DAttachDetachGroupIdentityAcknowledgement *)

Record DAttachDetachGroupIdentityAcknowledgement : Type := mkDAttachDetachGroupIdentityAcknowledgement {
  d_attach_detach_group_identity_acknowledgement_group_identity_accept_reject : Z;
  d_attach_detach_group_identity_acknowledgement_reserved : bool;
  d_attach_detach_group_identity_acknowledgement_proprietary : option Type3FieldGeneric;
  d_attach_detach_group_identity_acknowledgement_group_identity_downlink : option (list GroupIdentityDownlink);
  d_attach_detach_group_identity_acknowledgement_group_identity_security_related_information : option Type4FieldGeneric
}.

Definition d_attach_detach_group_identity_acknowledgement_from_bitbuf : B DAttachDetachGroupIdentityAcknowledgement :=
  pdu_type ← read_field 4 "pdu_type";
  expect_pdu_type pdu_type (mm_pdu_type_dl_into_raw MmPduTypeDl_DAttachDetachGroupIdentityAcknowledgement);;
  group_identity_accept_reject ← read_field 1 "group_identity_accept_reject";
  let group_identity_accept_reject := wrap 8 group_identity_accept_reject in
  reserved ← read_field 1 "reserved";
  let reserved := negb (reserved =? 0)%Z in
  obit ← read_obit;
  proprietary ← parse_type3_generic obit (mm_type34_elem_id_dl_into_raw MmType34ElemIdDl_Proprietary);
  group_identity_downlink ← parse_type4_struct obit (mm_type34_elem_id_dl_into_raw
    MmType34ElemIdDl_GroupIdentityDownlink) group_identity_downlink_from_bitbuf;
  group_identity_security_related_information ← parse_type4_generic obit (mm_type34_elem_id_dl_into_raw
    MmType34ElemIdDl_GroupIdentitySecurityRelatedInformation);
  finish obit (mkDAttachDetachGroupIdentityAcknowledgement group_identity_accept_reject reserved proprietary
    group_identity_downlink group_identity_security_related_information).

Definition d_attach_detach_group_identity_acknowledgement_to_bitbuf (self : DAttachDetachGroupIdentityAcknowledgement) : B unit :=
  write_bits (mm_pdu_type_dl_into_raw MmPduTypeDl_DAttachDetachGroupIdentityAcknowledgement) 4;;
  write_bits (d_attach_detach_group_identity_acknowledgement_group_identity_accept_reject self) 1;;
  write_bits (Z.b2z (d_attach_detach_group_identity_acknowledgement_reserved self)) 1;;
  let obit := is_some (d_attach_detach_group_identity_acknowledgement_proprietary self) || is_some
    (d_attach_detach_group_identity_acknowledgement_group_identity_downlink self) || is_some
    (d_attach_detach_group_identity_acknowledgement_group_identity_security_related_information self) in
  write_obit (Z.b2z obit);;
  if negb obit then mret tt else
  write_type3_generic obit (d_attach_detach_group_identity_acknowledgement_proprietary self)
    (mm_type34_elem_id_dl_into_raw MmType34ElemIdDl_Proprietary);;
  write_type4_struct obit (d_attach_detach_group_identity_acknowledgement_group_identity_downlink self)
    (mm_type34_elem_id_dl_into_raw MmType34ElemIdDl_GroupIdentityDownlink) group_identity_downlink_to_bitbuf;;
  write_type4_todo obit (d_attach_detach_group_identity_acknowledgement_group_identity_security_related_information
    self) (mm_type34_elem_id_dl_into_raw MmType34ElemIdDl_GroupIdentitySecurityRelatedInformation);;
  write_mbit 0.

(** ** DLocationUpdateAccept *)

Record DLocationUpdateAccept : Type := mkDLocationUpdateAccept {
  d_location_update_accept_location_update_accept_type : LocationUpdateType;
  d_location_update_accept_ssi : option Z;
  d_location_update_accept_address_extension : option Z;
  d_location_update_accept_subscriber_class : option Z;
  d_location_update_accept_energy_saving_information : option EnergySavingInformation;
  d_location_update_accept_scch_information_and_distribution_on_18th_frame : option Z;
  d_location_update_accept_new_registered_area : option Type4FieldGeneric;
  d_location_update_accept_security_downlink : option Type3FieldGeneric;
  d_location_update_accept_group_identity_location_accept : option GroupIdentityLocationAccept;
  d_location_update_accept_default_group_attachment_lifetime : option Type3FieldGeneric;
  d_location_update_accept_authentication_downlink : option Type3FieldGeneric;
  d_location_update_accept_group_identity_security_related_information : option Type4FieldGeneric;
  d_location_update_accept_cell_type_control : option Type3FieldGeneric;
  d_location_update_accept_proprietary : option Type3FieldGeneric
}.

Definition d_location_update_accept_from_bitbuf : B DLocationUpdateAccept :=
  pdu_type ← read_field 4 "pdu_type";
  expect_pdu_type pdu_type (mm_pdu_type_dl_into_raw MmPduTypeDl_DLocationUpdateAccept);;
  val ← read_field 3 "location_update_accept_type";
  location_update_accept_type ← ok_or (location_update_type_try_from val) (InvalidValue
    "location_update_accept_type" val);
  obit ← read_obit;
  ssi ← parse_type2_generic obit 24 "ssi";
  address_extension ← parse_type2_generic obit 24 "address_extension";
  subscriber_class ← parse_type2_generic obit 16 "subscriber_class";
  energy_saving_information ← parse_type2_struct obit energy_saving_information_from_bitbuf;
  scch_information_and_distribution_on_18th_frame ← parse_type2_generic obit 6
    "scch_information_and_distribution_on_18th_frame";
  new_registered_area ← parse_type4_generic obit (mm_type34_elem_id_dl_into_raw MmType34ElemIdDl_NewRegisteredArea);
  security_downlink ← parse_type3_generic obit (mm_type34_elem_id_dl_into_raw MmType34ElemIdDl_SecurityDownlink);
  group_identity_location_accept ← parse_type3_struct obit (mm_type34_elem_id_dl_into_raw
    MmType34ElemIdDl_GroupIdentityLocationAccept) group_identity_location_accept_from_bitbuf;
  default_group_attachment_lifetime ← parse_type3_generic obit (mm_type34_elem_id_dl_into_raw
    MmType34ElemIdDl_DefaultGroupAttachLifetime);
  authentication_downlink ← parse_type3_generic obit (mm_type34_elem_id_dl_into_raw
    MmType34ElemIdDl_AuthenticationDownlink);
  group_identity_security_related_information ← parse_type4_generic obit (mm_type34_elem_id_dl_into_raw
    MmType34ElemIdDl_GroupIdentitySecurityRelatedInformation);
  cell_type_control ← parse_type3_generic obit (mm_type34_elem_id_dl_into_raw MmType34ElemIdDl_CellTypeControl);
  proprietary ← parse_type3_generic obit (mm_type34_elem_id_dl_into_raw MmType34ElemIdDl_Proprietary);
  finish obit (mkDLocationUpdateAccept location_update_accept_type ssi address_extension subscriber_class
    energy_saving_information scch_information_and_distribution_on_18th_frame new_registered_area security_downlink
    group_identity_location_accept default_group_attachment_lifetime authentication_downlink
    group_identity_security_related_information cell_type_control proprietary).

Definition d_location_update_accept_to_bitbuf (self : DLocationUpdateAccept) : B unit :=
  write_bits (mm_pdu_type_dl_into_raw MmPduTypeDl_DLocationUpdateAccept) 4;;
  write_bits (location_update_type_into_raw (d_location_update_accept_location_update_accept_type self)) 3;;
  let obit := is_some (d_location_update_accept_ssi self) || is_some (d_location_update_accept_address_extension
    self) || is_some (d_location_update_accept_subscriber_class self) || is_some
    (d_location_update_accept_energy_saving_information self) || is_some
    (d_location_update_accept_scch_information_and_distribution_on_18th_frame self) || is_some
    (d_location_update_accept_new_registered_area self) || is_some (d_location_update_accept_security_downlink
    self) || is_some (d_location_update_accept_group_identity_location_accept self) || is_some
    (d_location_update_accept_default_group_attachment_lifetime self) || is_some
    (d_location_update_accept_authentication_downlink self) || is_some
    (d_location_update_accept_group_identity_security_related_information self) || is_some
    (d_location_update_accept_cell_type_control self) || is_some (d_location_update_accept_proprietary self) in
  write_obit (Z.b2z obit);;
  if negb obit then mret tt else
  write_type2_generic obit (d_location_update_accept_ssi self) 24;;
  write_type2_generic obit (d_location_update_accept_address_extension self) 24;;
  write_type2_generic obit (d_location_update_accept_subscriber_class self) 16;;
  write_type2_struct obit (d_location_update_accept_energy_saving_information self)
    energy_saving_information_to_bitbuf;;
  write_type2_generic obit (d_location_update_accept_scch_information_and_distribution_on_18th_frame self) 6;;
  write_type4_todo obit (d_location_update_accept_new_registered_area self) (mm_type34_elem_id_dl_into_raw
    MmType34ElemIdDl_NewRegisteredArea);;
  write_type3_generic obit (d_location_update_accept_security_downlink self) (mm_type34_elem_id_dl_into_raw
    MmType34ElemIdDl_SecurityDownlink);;
  write_type3_struct obit (d_location_update_accept_group_identity_location_accept self)
    (mm_type34_elem_id_dl_into_raw MmType34ElemIdDl_GroupIdentityLocationAccept)
    group_identity_location_accept_to_bitbuf;;
  write_type3_generic obit (d_location_update_accept_default_group_attachment_lifetime self)
    (mm_type34_elem_id_dl_into_raw MmType34ElemIdDl_DefaultGroupAttachLifetime);;
  write_type3_generic obit (d_location_update_accept_authentication_downlink self) (mm_type34_elem_id_dl_into_raw
    MmType34ElemIdDl_AuthenticationDownlink);;
  write_type4_todo obit (d_location_update_accept_group_identity_security_related_information self)
    (mm_type34_elem_id_dl_into_raw MmType34ElemIdDl_GroupIdentitySecurityRelatedInformation);;
  write_type3_generic obit (d_location_update_accept_cell_type_control self) (mm_type34_elem_id_dl_into_raw
    MmType34ElemIdDl_CellTypeControl);;
  write_type3_generic obit (d_location_update_accept_proprietary self) (mm_type34_elem_id_dl_into_raw
    MmType34ElemIdDl_Proprietary);;
  write_mbit 0.

(** ** DLocationUpdateCommand *)

Record DLocationUpdateCommand : Type := mkDLocationUpdateCommand {
  d_location_update_command_group_identity_report : bool;
  d_location_update_command_cipher_control : bool;
  d_location_update_command_ciphering_parameters : option Z;
  d_location_update_command_address_extension : option Z;
  d_location_update_command_cell_type_control : option Z;
  d_location_update_command_proprietary : option Z
}.

Definition d_location_update_command_from_bitbuf : B DLocationUpdateCommand :=
  pdu_type ← read_field 4 "pdu_type";
  expect_pdu_type pdu_type (mm_pdu_type_dl_into_raw MmPduTypeDl_DLocationUpdateCommand);;
  group_identity_report ← read_field 1 "group_identity_report";
  let group_identity_report := negb (group_identity_report =? 0)%Z in
  cipher_control ← read_field 1 "cipher_control";
  let cipher_control := negb (cipher_control =? 0)%Z in
  panic.

Definition d_location_update_command_to_bitbuf (self : DLocationUpdateCommand) : B unit :=
  write_bits (mm_pdu_type_dl_into_raw MmPduTypeDl_DLocationUpdateCommand) 4;;
  write_bits (Z.b2z (d_location_update_command_group_identity_report self)) 1;;
  write_bits (Z.b2z (d_location_update_command_cipher_control self)) 1;;
  match d_location_update_command_ciphering_parameters self with Some value => write_bits value 10 | None => mret
    tt end;;
  let obit := is_some (d_location_update_command_address_extension self) in
  write_obit (Z.b2z obit);;
  if negb obit then mret tt else
  write_type2_generic obit (d_location_update_command_address_extension self) 24;;
  match d_location_update_command_cell_type_control self with Some value => write_bits value 3 | None => mret tt
    end;;
  match d_location_update_command_proprietary self with Some value => write_bits value 3 | None => mret tt end;;
  write_mbit 0.

(** ** DLocationUpdateProceeding *)

Record DLocationUpdateProceeding : Type := mkDLocationUpdateProceeding {
  d_location_update_proceeding_ssi : Z;
  d_location_update_proceeding_address_extension : Z;
  d_location_update_proceeding_proprietary : option Type3FieldGeneric
}.

Definition d_location_update_proceeding_from_bitbuf : B DLocationUpdateProceeding :=
  pdu_type ← read_field 4 "pdu_type";
  expect_pdu_type pdu_type (mm_pdu_type_dl_into_raw MmPduTypeDl_DLocationUpdateProceeding);;
  ssi ← read_field 24 "ssi";
  let ssi := wrap 32 ssi in
  address_extension ← read_field 24 "address_extension";
  let address_extension := wrap 32 address_extension in
  obit ← read_obit;
  proprietary ← parse_type3_generic obit (mm_type34_elem_id_dl_into_raw MmType34ElemIdDl_Proprietary);
  finish obit (mkDLocationUpdateProceeding ssi address_extension proprietary).

Definition d_location_update_proceeding_to_bitbuf (self : DLocationUpdateProceeding) : B unit :=
  write_bits (mm_pdu_type_dl_into_raw MmPduTypeDl_DLocationUpdateProceeding) 4;;
  write_bits (d_location_update_proceeding_ssi self) 24;;
  write_bits (d_location_update_proceeding_address_extension self) 24;;
  let obit := is_some (d_location_update_proceeding_proprietary self) in
  write_obit (Z.b2z obit);;
  if negb obit then mret tt else
  write_type3_generic obit (d_location_update_proceeding_proprietary self) (mm_type34_elem_id_dl_into_raw
    MmType34ElemIdDl_Proprietary);;
  write_mbit 0.

(** ** DLocationUpdateReject *)

Record DLocationUpdateReject : Type := mkDLocationUpdateReject {
  d_location_update_reject_location_update_type : LocationUpdateType;
  d_location_update_reject_reject_cause : Z;
  d_location_update_reject_cipher_control : bool;
  d_location_update_reject_ciphering_parameters : option Z;
  d_location_update_reject_address_extension : option Z;
  d_location_update_reject_cell_type_control : option Type3FieldGeneric;
  d_location_update_reject_proprietary : option Type3FieldGeneric
}.

Definition d_location_update_reject_from_bitbuf : B DLocationUpdateReject :=
  pdu_type ← read_field 4 "pdu_type";
  expect_pdu_type pdu_type (mm_pdu_type_dl_into_raw MmPduTypeDl_DLocationUpdateReject);;
  location_update_type ← read_field 3 "location_update_type";
  location_update_type ← unwrap (location_update_type_try_from location_update_type);
  reject_cause ← read_field 5 "reject_cause";
  let reject_cause := wrap 8 reject_cause in
  cipher_control ← read_field 1 "cipher_control";
  let cipher_control := negb (cipher_control =? 0)%Z in
  panic.

Definition d_location_update_reject_to_bitbuf (self : DLocationUpdateReject) : B unit :=
  write_bits (mm_pdu_type_dl_into_raw MmPduTypeDl_DLocationUpdateReject) 4;;
  write_bits (location_update_type_into_raw (d_location_update_reject_location_update_type self)) 3;;
  write_bits (d_location_update_reject_reject_cause self) 5;;
  write_bits (Z.b2z (d_location_update_reject_cipher_control self)) 1;;
  match d_location_update_reject_ciphering_parameters self with Some value => write_bits value 10 | None => mret tt
    end;;
  let obit := is_some (d_location_update_reject_address_extension self) || is_some
    (d_location_update_reject_cell_type_control self) || is_some (d_location_update_reject_proprietary self) in
  write_obit (Z.b2z obit);;
  if negb obit then mret tt else
  write_type2_generic obit (d_location_update_reject_address_extension self) 24;;
  write_type3_generic obit (d_location_update_reject_cell_type_control self) (mm_type34_elem_id_dl_into_raw
    MmType34ElemIdDl_CellTypeControl);;
  write_type3_generic obit (d_location_update_reject_proprietary self) (mm_type34_elem_id_dl_into_raw
    MmType34ElemIdDl_Proprietary);;
  write_mbit 0.

(** ** DMmStatus *)

Record DMmStatus : Type := mkDMmStatus {
  d_mm_status_status_downlink : StatusDownlink;
  d_mm_status_energy_saving_information : option EnergySavingInformation
}.

Definition d_mm_status_from_bitbuf : B DMmStatus :=
  pdu_type ← read_field 4 "pdu_type";
  expect_pdu_type pdu_type (mm_pdu_type_dl_into_raw MmPduTypeDl_DMmStatus);;
  val ← read_field 6 "status_downlink";
  status_downlink ← ok_or (status_downlink_try_from val) (InvalidValue "status_downlink" val);
  energy_saving_information ← match status_downlink with
      | StatusDownlink_ChangeOfEnergySavingModeRequest | StatusDownlink_ChangeOfEnergySavingModeResponse =>
          v ← energy_saving_information_from_bitbuf; mret (Some v)
      | _ => panic
      end;
  mret (mkDMmStatus status_downlink energy_saving_information).

Definition d_mm_status_to_bitbuf (self : DMmStatus) : B unit :=
  write_bits (mm_pdu_type_dl_into_raw MmPduTypeDl_DMmStatus) 4;;
  write_bits (status_downlink_into_raw (d_mm_status_status_downlink self)) 6;;
  match d_mm_status_status_downlink self with
    | StatusDownlink_ChangeOfEnergySavingModeRequest | StatusDownlink_ChangeOfEnergySavingModeResponse =>
        match d_mm_status_energy_saving_information self with
        | Some esi => energy_saving_information_to_bitbuf esi
        | None => fail (FieldNotPresent (Some "energy_saving_information"))
        end
    | _ => panic
    end.

(** ** MmPduFunctionNotSupported *)

Record MmPduFunctionNotSupported : Type := mkMmPduFunctionNotSupported {
  mm_pdu_function_not_supported_not_supported_pdu_type : Z;
  mm_pdu_function_not_supported_not_supported_sub_pdu_type : option ((nat * Z))
}.

Definition mm_pdu_function_not_supported_from_bitbuf : B MmPduFunctionNotSupported :=
  pdu_type ← read_field 4 "pdu_type";
  expect_pdu_type pdu_type (mm_pdu_type_dl_into_raw MmPduTypeDl_MmPduFunctionNotSupported);;
  not_supported_pdu_type ← read_field 4 "not_supported_pdu_type";
  let not_supported_pdu_type := wrap 8 not_supported_pdu_type in
  obit ← read_obit;
  if negb obit then mret (mkMmPduFunctionNotSupported not_supported_pdu_type None) else
  fail (NotImplemented (Some "MmPduFunctionNotSupported")).

Definition mm_pdu_function_not_supported_to_bitbuf (self : MmPduFunctionNotSupported) : B unit :=
  write_bits (mm_pdu_type_dl_into_raw MmPduTypeDl_MmPduFunctionNotSupported) 4;;
  write_bits (mm_pdu_function_not_supported_not_supported_pdu_type self) 4;;
  let obit := is_some (mm_pdu_function_not_supported_not_supported_sub_pdu_type self) in
  write_obit (Z.b2z obit);;
  if negb obit then mret tt else
  lv ← unwrap (mm_pdu_function_not_supported_not_supported_sub_pdu_type self);
  write_type2_generic obit (Some lv.2) lv.1;;
  write_mbit 0.

(** ** UAttachDetachGroupIdentity *)

Record UAttachDetachGroupIdentity : Type := mkUAttachDetachGroupIdentity {
  u_attach_detach_group_identity_group_identity_report : bool;
  u_attach_detach_group_identity_group_identity_attach_detach_mode : bool;
  u_attach_detach_group_identity_group_report_response : option Type3FieldGeneric;
  u_attach_detach_group_identity_group_identity_uplink : option (list GroupIdentityUplink);
  u_attach_detach_group_identity_proprietary : option Type3FieldGeneric
}.

Definition u_attach_detach_group_identity_from_bitbuf : B UAttachDetachGroupIdentity :=
  pdu_type ← read_field 4 "pdu_type";
  expect_pdu_type pdu_type (mm_pdu_type_ul_into_raw MmPduTypeUl_UAttachDetachGroupIdentity);;
  group_identity_report ← read_field 1 "group_identity_report";
  let group_identity_report := negb (group_identity_report =? 0)%Z in
  group_identity_attach_detach_mode ← read_field 1 "group_identity_attach_detach_mode";
  let group_identity_attach_detach_mode := negb (group_identity_attach_detach_mode =? 0)%Z in
  obit ← read_obit;
  group_report_response ← parse_type3_generic obit (mm_type34_elem_id_ul_into_raw
    MmType34ElemIdUl_GroupReportResponse);
  group_identity_uplink ← parse_type4_struct obit (mm_type34_elem_id_ul_into_raw
    MmType34ElemIdUl_GroupIdentityUplink) group_identity_uplink_from_bitbuf;
  proprietary ← parse_type3_generic obit (mm_type34_elem_id_ul_into_raw MmType34ElemIdUl_Proprietary);
  finish obit (mkUAttachDetachGroupIdentity group_identity_report group_identity_attach_detach_mode
    group_report_response group_identity_uplink proprietary).

Definition u_attach_detach_group_identity_to_bitbuf (self : UAttachDetachGroupIdentity) : B unit :=
  write_bits (mm_pdu_type_ul_into_raw MmPduTypeUl_UAttachDetachGroupIdentity) 4;;
  write_bits (Z.b2z (u_attach_detach_group_identity_group_identity_report self)) 1;;
  write_bits (Z.b2z (u_attach_detach_group_identity_group_identity_attach_detach_mode self)) 1;;
  let obit := is_some (u_attach_detach_group_identity_group_report_response self) || is_some
    (u_attach_detach_group_identity_group_identity_uplink self) || is_some
    (u_attach_detach_group_identity_proprietary self) in
  write_obit (Z.b2z obit);;
  if negb obit then mret tt else
  write_type3_generic obit (u_attach_detach_group_identity_group_report_response self)
    (mm_type34_elem_id_ul_into_raw MmType34ElemIdUl_GroupReportResponse);;
  write_type4_struct obit (u_attach_detach_group_identity_group_identity_uplink self)
    (mm_type34_elem_id_ul_into_raw MmType34ElemIdUl_GroupIdentityUplink) group_identity_uplink_to_bitbuf;;
  write_type3_generic obit (u_attach_detach_group_identity_proprietary self) (mm_type34_elem_id_ul_into_raw
    MmType34ElemIdUl_Proprietary);;
  write_mbit 0.

(** ** UAttachDetachGroupIdentityAcknowledgement *)

Record UAttachDetachGroupIdentityAcknowledgement : Type := mkUAttachDetachGroupIdentityAcknowledgement {
  u_attach_detach_group_identity_acknowledgement_group_identity_acknowledgement_type : bool;
  u_attach_detach_group_identity_acknowledgement_group_identity_uplink : option (list GroupIdentityUplink);
  u_attach_detach_group_identity_acknowledgement_proprietary : option Type3FieldGeneric
}.

Definition u_attach_detach_group_identity_acknowledgement_from_bitbuf : B UAttachDetachGroupIdentityAcknowledgement :=
  pdu_type ← read_field 4 "pdu_type";
  expect_pdu_type pdu_type (mm_pdu_type_ul_into_raw MmPduTypeUl_UAttachDetachGroupIdentityAcknowledgement);;
  group_identity_acknowledgement_type ← read_field 1 "group_identity_acknowledgement_type";
  let group_identity_acknowledgement_type := negb (group_identity_acknowledgement_type =? 0)%Z in
  obit ← read_obit;
  group_identity_uplink ← parse_type4_struct obit (mm_type34_elem_id_ul_into_raw
    MmType34ElemIdUl_GroupIdentityUplink) group_identity_uplink_from_bitbuf;
  proprietary ← parse_type3_generic obit (mm_type34_elem_id_ul_into_raw MmType34ElemIdUl_Proprietary);
  finish obit (mkUAttachDetachGroupIdentityAcknowledgement group_identity_acknowledgement_type
    group_identity_uplink proprietary).

Definition u_attach_detach_group_identity_acknowledgement_to_bitbuf (self : UAttachDetachGroupIdentityAcknowledgement) : B unit :=
  write_bits (mm_pdu_type_ul_into_raw MmPduTypeUl_UAttachDetachGroupIdentityAcknowledgement) 4;;
  write_bits (Z.b2z (u_attach_detach_group_identity_acknowledgement_group_identity_acknowledgement_type self)) 1;;
  let obit := is_some (u_attach_detach_group_identity_acknowledgement_group_identity_uplink self) || is_some
    (u_attach_detach_group_identity_acknowledgement_proprietary self) in
  write_obit (Z.b2z obit);;
  if negb obit then mret tt else
  write_type4_struct obit (u_attach_detach_group_identity_acknowledgement_group_identity_uplink self)
    (mm_type34_elem_id_ul_into_raw MmType34ElemIdUl_GroupIdentityUplink) group_identity_uplink_to_bitbuf;;
  write_type3_generic obit (u_attach_detach_group_identity_acknowledgement_proprietary self)
    (mm_type34_elem_id_ul_into_raw MmType34ElemIdUl_Proprietary);;
  write_mbit 0.

(** ** UItsiDetach *)

Record UItsiDetach : Type := mkUItsiDetach {
  u_itsi_detach_address_extension : option Z;
  u_itsi_detach_proprietary : option Type3FieldGeneric
}.

Definition u_itsi_detach_from_bitbuf : B UItsiDetach :=
  pdu_type ← read_field 4 "pdu_type";
  expect_pdu_type pdu_type (mm_pdu_type_ul_into_raw MmPduTypeUl_UItsiDetach);;
  obit ← read_obit;
  address_extension ← parse_type2_generic obit 24 "address_extension";
  proprietary ← parse_type3_generic obit (mm_type34_elem_id_ul_into_raw MmType34ElemIdUl_Proprietary);
  finish obit (mkUItsiDetach address_extension proprietary).

Definition u_itsi_detach_to_bitbuf (self : UItsiDetach) : B unit :=
  write_bits (mm_pdu_type_ul_into_raw MmPduTypeUl_UItsiDetach) 4;;
  let obit := is_some (u_itsi_detach_address_extension self) || is_some (u_itsi_detach_proprietary self) in
  write_obit (Z.b2z obit);;
  if negb obit then mret tt else
  write_type2_generic obit (u_itsi_detach_address_extension self) 24;;
  write_type3_generic obit (u_itsi_detach_proprietary self) (mm_type34_elem_id_ul_into_raw
    MmType34ElemIdUl_Proprietary);;
  write_mbit 0.

(** ** ULocationUpdateDemand *)

Record ULocationUpdateDemand : Type := mkULocationUpdateDemand {
  u_location_update_demand_location_update_type : LocationUpdateType;
  u_location_update_demand_request_to_append_la : bool;
  u_location_update_demand_cipher_control : bool;
  u_location_update_demand_ciphering_parameters : option Z;
  u_location_update_demand_class_of_ms : option ClassOfMs;
  u_location_update_demand_energy_saving_mode : option EnergySavingMode;
  u_location_update_demand_la_information : option Z;
  u_location_update_demand_ssi : option Z;
  u_location_update_demand_address_extension : option Z;
  u_location_update_demand_group_identity_location_demand : option GroupIdentityLocationDemand;
  u_location_update_demand_group_report_response : option Type3FieldGeneric;
  u_location_update_demand_authentication_uplink : option Type3FieldGeneric;
  u_location_update_demand_extended_capabilities : option Type3FieldGeneric;
  u_location_update_demand_proprietary : option Type3FieldGeneric
}.

Definition u_location_update_demand_from_bitbuf : B ULocationUpdateDemand :=
  pdu_type ← read_field 4 "pdu_type";
  expect_pdu_type pdu_type (mm_pdu_type_ul_into_raw MmPduTypeUl_ULocationUpdateDemand);;
  val ← read_field 3 "location_update_type";
  location_update_type ← ok_or (location_update_type_try_from val) (InvalidValue "location_update_type" val);
  request_to_append_la ← read_field 1 "request_to_append_la";
  let request_to_append_la := negb (request_to_append_la =? 0)%Z in
  cipher_control ← read_field 1 "cipher_control";
  let cipher_control := negb (cipher_control =? 0)%Z in
  ciphering_parameters ← (if cipher_control then v ← read_field 10 "ciphering_parameters"; mret (Some (v)) else
    mret None);
  obit ← read_obit;
  class_of_ms ← parse_type2_struct obit class_of_ms_from_bitbuf;
  val ← parse_type2_generic obit 3 "energy_saving_mode";
  energy_saving_mode ← match val with
      | None => mret None
      | Some v => e ← unwrap (esm_try_from v); mret (Some e)
      end;
  la_information ← parse_type2_generic obit 15 "la_information";
  let la_information := (λ v, v / 2)%Z <$> la_information in
  ssi ← parse_type2_generic obit 24 "ssi";
  address_extension ← parse_type2_generic obit 24 "address_extension";
  group_identity_location_demand ← parse_type3_struct obit (mm_type34_elem_id_ul_into_raw
    MmType34ElemIdUl_GroupIdentityLocationDemand) group_identity_location_demand_from_bitbuf;
  group_report_response ← parse_type3_generic obit (mm_type34_elem_id_ul_into_raw
    MmType34ElemIdUl_GroupReportResponse);
  authentication_uplink ← parse_type3_generic obit (mm_type34_elem_id_ul_into_raw
    MmType34ElemIdUl_AuthenticationUplink);
  extended_capabilities ← parse_type3_generic obit (mm_type34_elem_id_ul_into_raw
    MmType34ElemIdUl_ExtendedCapabilities);
  proprietary ← parse_type3_generic obit (mm_type34_elem_id_ul_into_raw MmType34ElemIdUl_Proprietary);
  finish obit (mkULocationUpdateDemand location_update_type request_to_append_la cipher_control
    ciphering_parameters class_of_ms energy_saving_mode la_information ssi address_extension
    group_identity_location_demand group_report_response authentication_uplink extended_capabilities proprietary).

Definition u_location_update_demand_to_bitbuf (self : ULocationUpdateDemand) : B unit :=
  write_bits (mm_pdu_type_ul_into_raw MmPduTypeUl_ULocationUpdateDemand) 4;;
  write_bits (location_update_type_into_raw (u_location_update_demand_location_update_type self)) 3;;
  write_bits (Z.b2z (u_location_update_demand_request_to_append_la self)) 1;;
  write_bits (Z.b2z (u_location_update_demand_cipher_control self)) 1;;
  match u_location_update_demand_ciphering_parameters self with Some value => write_bits value 10 | None => mret tt
    end;;
  let obit := is_some (u_location_update_demand_class_of_ms self) || is_some
    (u_location_update_demand_energy_saving_mode self) || is_some (u_location_update_demand_la_information self) ||
    is_some (u_location_update_demand_ssi self) || is_some (u_location_update_demand_address_extension self) ||
    is_some (u_location_update_demand_group_identity_location_demand self) || is_some
    (u_location_update_demand_group_report_response self) || is_some
    (u_location_update_demand_authentication_uplink self) || is_some
    (u_location_update_demand_extended_capabilities self) || is_some (u_location_update_demand_proprietary self) in
  write_obit (Z.b2z obit);;
  if negb obit then mret tt else
  write_type2_struct obit (u_location_update_demand_class_of_ms self) class_of_ms_to_bitbuf;;
  write_type2_generic obit (esm_into_raw <$> u_location_update_demand_energy_saving_mode self) 3;;
  let la_and_zero_bit := (λ la, wrap 64 (Z.shiftl la 1)) <$> u_location_update_demand_la_information self in
  write_type2_generic obit la_and_zero_bit 15;;
  write_type2_generic obit (u_location_update_demand_ssi self) 24;;
  write_type2_generic obit (u_location_update_demand_address_extension self) 24;;
  write_type3_struct obit (u_location_update_demand_group_identity_location_demand self)
    (mm_type34_elem_id_ul_into_raw MmType34ElemIdUl_GroupIdentityLocationDemand)
    group_identity_location_demand_to_bitbuf;;
  write_type3_generic obit (u_location_update_demand_group_report_response self) (mm_type34_elem_id_ul_into_raw
    MmType34ElemIdUl_GroupReportResponse);;
  write_type3_generic obit (u_location_update_demand_authentication_uplink self) (mm_type34_elem_id_ul_into_raw
    MmType34ElemIdUl_AuthenticationUplink);;
  write_type3_generic obit (u_location_update_demand_extended_capabilities self) (mm_type34_elem_id_ul_into_raw
    MmType34ElemIdUl_ExtendedCapabilities);;
  write_type3_generic obit (u_location_update_demand_proprietary self) (mm_type34_elem_id_ul_into_raw
    MmType34ElemIdUl_Proprietary);;
  write_mbit 0.

(** ** UMmStatus *)

Record UMmStatus : Type := mkUMmStatus {
  u_mm_status_status_uplink : StatusUplink;
  u_mm_status_status_uplink_dependent_information : option Z;
  u_mm_status_status_uplink_dependent_information_len : option nat
}.

Definition u_mm_status_from_bitbuf : B UMmStatus :=
  pdu_type ← read_field 4 "pdu_type";
  expect_pdu_type pdu_type (mm_pdu_type_ul_into_raw MmPduTypeUl_UMmStatus);;
  val ← read_field 6 "status_uplink";
  status_uplink ← ok_or (status_uplink_try_from val) (InvalidValue "status_uplink" val);
  bits_left ← gets get_len_remaining;
  status_uplink_dependent_information ← (if 0 <? bits_left then v ← read_field bits_left
    "status_uplink_dependent_information"; mret (Some v) else mret None);
  mret (mkUMmStatus status_uplink status_uplink_dependent_information (if 0 <? bits_left then Some bits_left else
    None)).

Definition u_mm_status_to_bitbuf (self : UMmStatus) : B unit :=
  write_bits (mm_pdu_type_ul_into_raw MmPduTypeUl_UMmStatus) 4;;
  write_bits (status_uplink_into_raw (u_mm_status_status_uplink self)) 6;;
  match u_mm_status_status_uplink_dependent_information self with
    | Some value => len ← unwrap (u_mm_status_status_uplink_dependent_information_len self); write_bits value len
    | None => mret tt
    end.

(** ** UTeiProvide *)

Record UTeiProvide : Type := mkUTeiProvide {
  u_tei_provide_tei : Z;
  u_tei_provide_proprietary : option Type3FieldGeneric
}.

Definition u_tei_provide_from_bitbuf : B UTeiProvide :=
  pdu_type ← read_field 4 "pdu_type";
  expect_pdu_type pdu_type (mm_pdu_type_ul_into_raw MmPduTypeUl_UTeiProvide);;
  tei ← read_field 60 "tei";
  obit ← read_obit;
  proprietary ← parse_type3_generic obit (mm_type34_elem_id_ul_into_raw MmType34ElemIdUl_Proprietary);
  finish obit (mkUTeiProvide tei proprietary).

Definition u_tei_provide_to_bitbuf (self : UTeiProvide) : B unit :=
  write_bits (mm_pdu_type_ul_into_raw MmPduTypeUl_UTeiProvide) 4;;
  write_bits (u_tei_provide_tei self) 60;;
  let obit := is_some (u_tei_provide_proprietary self) in
  write_obit (Z.b2z obit);;
  if negb obit then mret tt else
  write_type3_generic obit (u_tei_provide_proprietary self) (mm_type34_elem_id_ul_into_raw
    MmType34ElemIdUl_Proprietary);;
  write_mbit 0.
