(* ===== verification/MmPdusSpec.v ===== *)
(** Every MM PDU survives writing and parsing, and no received bits make a
    parser panic that the base station runs.

    The MM PDUs as one set: the dispatch of received PDUs in MM and the theorems
    over all of them. *)
From S2P Require Import Prelude Bits Core BitBuffer BitBufferSpec BitCodec BitBufferThms FieldCodec TypedFieldsSpec PduCodec MmClients MmEnums MmPdus.

(** * Class of MS *)

Definition class_of_ms_ok (self : ClassOfMs) : Prop := is_u 3 (air_interface_version self).

Definition class_of_ms_bits (self : ClassOfMs) : list bool := bits_of_Z 24 (class_of_ms_val self).

Lemma class_bit_testbit v n : (0 ≤ n)%Z → class_bit v n = Z.testbit v n.
Proof.
  intros Hn. unfold class_bit. change 1%Z with (Z.ones 1). rewrite Z.land_ones by lia. change (2 ^ 1)%Z with 2%Z.
  rewrite <- Z.bit0_mod, Z.shiftr_spec by lia. rewrite Z.add_0_l. by destruct (Z.testbit v n).
Qed.

Lemma testbit_b2z b n : (0 ≤ n)%Z → Z.testbit (Z.b2z b) n = b && (n =? 0)%Z.
Proof.
  intros Hn. destruct (Z.eqb_spec n 0) as [->|Hne]; [by destruct b|]. rewrite andb_false_r.
  destruct b; [|apply Z.bits_0]. apply (Z.bits_above_log2 1); cbn; lia.
Qed.

Lemma or_bit_testbit v b k n : (0 ≤ k < 32)%Z → (0 ≤ n)%Z → Z.testbit (or_bit v b k) n = Z.testbit v n || (b && (n =? k)%Z).
Proof.
  intros Hk Hn. unfold or_bit. rewrite Z.lor_spec, wrap_testbit by lia. f_equal. rewrite Z.shiftl_spec by lia.
  case_decide; destruct (Z.eqb_spec n k) as [->|Hne]; [| |lia|by rewrite andb_false_r].
  - rewrite Z.sub_diag. by destruct b.
  - destruct (Z.ltb_spec (n - k) 0); [rewrite Z.testbit_neg_r by lia; by rewrite andb_false_r|].
    rewrite testbit_b2z by lia. by rewrite (proj2 (Z.eqb_neq _ _)) by lia.
Qed.

Lemma or_bit_fits v b k : is_u 24 v → (0 ≤ k < 24)%Z → is_u 24 (or_bit v b k).
Proof.
  intros Hv Hk. unfold or_bit. apply is_u_lor; [done|done|].
  assert (0 ≤ Z.shiftl (Z.b2z b) k < 2 ^ 24)%Z as Hs.
  { rewrite Z.shiftl_mul_pow2 by lia. destruct b; cbn [Z.b2z]; [|lia]. rewrite Z.mul_1_l. split; [lia|].
    apply Z.pow_lt_mono_r; lia. }
  rewrite wrap_small; [exact Hs|]. unfold is_u. change (2 ^ 32)%Z with (2 ^ 24 * 256)%Z. lia.
Qed.

Lemma version_bits a : is_u 3 a → wrap 32 (Z.shiftl (Z.land a 7) 5) = (a * 32)%Z ∧ (0 ≤ a * 32 < 256)%Z.
Proof.
  intros [H1 H2]. change 7%Z with (Z.ones 3). rewrite Z.land_ones, Z.mod_small, Z.shiftl_mul_pow2 by lia.
  split; [|lia]. apply wrap_small. unfold is_u. lia.
Qed.

Lemma version_testbit a n : is_u 3 a → (0 ≤ n)%Z →
  Z.testbit (wrap 32 (Z.shiftl (Z.land a 7) 5)) n = (5 <=? n)%Z && (n <? 8)%Z && Z.testbit a (n - 5).
Proof.
  intros Ha Hn. destruct (version_bits a Ha) as [-> Hr]. change 32%Z with (2 ^ 5)%Z. rewrite <- Z.shiftl_mul_pow2, Z.shiftl_spec by lia.
  destruct (Z.leb_spec 5 n); cbn [andb]; [|apply Z.testbit_neg_r; lia].
  destruct (Z.ltb_spec n 8); cbn [andb]; [done|]. apply (testbit_high 3); [done|lia].
Qed.

Lemma version_read v a : is_u 3 a → Z.testbit v 5 = Z.testbit a 0 → Z.testbit v 6 = Z.testbit a 1 →
  Z.testbit v 7 = Z.testbit a 2 → wrap 8 (Z.land (Z.shiftr v 5) 7) = a.
Proof.
  intros Ha H0 H1 H2. change 7%Z with (Z.ones 3). rewrite Z.land_ones by lia. fold (wrap 3 (Z.shiftr v 5)).
  rewrite (wrap_fits 3 8 (wrap 3 _)) by (lia || by apply wrap_is_u). apply Z.bits_inj'. intros n Hn. rewrite wrap_testbit by lia.
  case_decide; [|symmetry; by apply (testbit_high 3); [|lia]]. rewrite Z.shiftr_spec by lia.
  assert (n = 0 ∨ n = 1 ∨ n = 2)%Z as [->|[->| ->]] by lia; done.
Qed.

Ltac class_bits := rewrite ?class_bit_testbit by lia;
  repeat first [rewrite Z.lor_spec | rewrite or_bit_testbit by lia];
  rewrite ?version_testbit, ?testbit_b2z, ?Z.bits_0 by (done || lia);
  cbn [Z.eqb Z.leb Z.ltb Z.compare Pos.compare Pos.compare_cont Pos.eqb andb orb];
  repeat rewrite ?andb_false_r, ?andb_true_r, ?orb_false_r, ?orb_false_l.

Lemma class_of_ms_fits c : class_of_ms_ok c → is_u 24 (class_of_ms_val c).
Proof.
  intros Hc. unfold class_of_ms_val. cbv zeta. destruct (version_bits _ Hc) as [Hv Hr].
  apply is_u_lor; [done| |by destruct (d8psk c)]. repeat (apply or_bit_fits; [|lia]).
  apply is_u_lor; [done| |rewrite Hv; unfold is_u; lia]. repeat (apply or_bit_fits; [|lia]). done.
Qed.

Lemma class_of_ms_decoded c : class_of_ms_ok c → let val := class_of_ms_val c in
  mkClassOfMs (class_bit val 23) (class_bit val 22) (class_bit val 21) (class_bit val 20) (class_bit val 19)
    (class_bit val 18) (class_bit val 17) (class_bit val 16) (class_bit val 15) (class_bit val 14) (class_bit val 13)
    (class_bit val 12) (class_bit val 11) (class_bit val 10) (class_bit val 9) (class_bit val 8)
    (wrap 8 (Z.land (Z.shiftr val 5) 7)) (class_bit val 4) (class_bit val 3) (class_bit val 2) (class_bit val 1)
    (class_bit val 0) = c.
Proof.
  unfold class_of_ms_ok. destruct c as [b23 b22 b21 b20 b19 b18 b17 b16 b15 b14 b13 b12 b11 b10 b9 b8
    version b4 b3 b2 b1 b0]. cbn [air_interface_version]. intros Hc. unfold class_of_ms_val.
  cbv zeta. cbn [freq_simplex_duplex multislot_phase_mod concurrent_multicarrier voice e2e_encryption_not_supported
    circuit_mode_data tetra_packet_data fast_switching dck_encryption clch_needed concurrent_circuit_mode
    original_advanced_link minimum_mode carrier_specific_signalling authentication sck_encryption
    air_interface_version common_scch reserved_21 mac_d_blck extended_advanced_link d8psk].
  f_equal; try (class_bits; done). apply version_read; [done|class_bits; done..].
Qed.

#[global] Instance class_of_ms_codec : BitCodec class_of_ms_ok class_of_ms_bits class_of_ms_to_bitbuf class_of_ms_from_bitbuf.
Proof.
  split; intros c Hc; pose proof (class_of_ms_fits c Hc) as Hfit.
  - by apply writes_bits; [lia|].
  - unfold class_of_ms_from_bitbuf, class_of_ms_bits. rewrite <- (app_nil_r (bits_of_Z 24 _)).
    eapply reads_step; [pdu_read|]. cbv zeta. rewrite (wrap_fits 24 32) by (done || lia).
    apply reads_ret_eq. by apply class_of_ms_decoded.
Qed.

Lemma class_of_ms_safe : parser_safe class_of_ms_from_bitbuf.
Proof. pdu_safe. Qed.
#[export] Hint Resolve class_of_ms_safe : parser_safe.

(** * Energy saving information *)

(** Frame numbers are given exactly when the terminal may sleep. *)
Definition energy_saving_information_ok (self : EnergySavingInformation) : Prop :=
  if is_stay_alive (esi_mode self) then esi_frame_number self = None ∧ esi_multiframe_number self = None
  else ∃ f m, esi_frame_number self = Some f ∧ esi_multiframe_number self = Some m ∧ is_u 5 f ∧ is_u 6 m.

Definition energy_saving_information_bits (self : EnergySavingInformation) : list bool :=
  bits_of_Z 3 (esm_into_raw (esi_mode self)) ++
  bits_of_Z 5 (default 0%Z (esi_frame_number self)) ++ bits_of_Z 6 (default 0%Z (esi_multiframe_number self)).

#[global] Instance energy_saving_information_codec : BitCodec energy_saving_information_ok energy_saving_information_bits
  energy_saving_information_to_bitbuf energy_saving_information_from_bitbuf.
Proof.
  split; intros [m f mf]; unfold energy_saving_information_ok, energy_saving_information_bits,
    energy_saving_information_to_bitbuf, energy_saving_information_from_bitbuf; cbn [esi_mode esi_frame_number esi_multiframe_number];
    intros Hok.
  - eapply writes_bind; [pdu_write|]. destruct (is_stay_alive m).
    + destruct Hok as [-> ->]. eapply writes_pure; [apply pure_ret|]. eapply writes_pure; [apply pure_ret|].
      apply (writes_bits 0 (5 + 6)); [lia|done].
    + destruct Hok as (x & y & -> & -> & Hx & Hy). pdu_writes.
  - eapply reads_step; [pdu_read|]. cbv zeta. rewrite (wrap_fits 3 8) by (lia || by destruct m). eapply reads_pure; [pdu_pure|].
    destruct (is_stay_alive m).
    + destruct Hok as [-> ->]. rewrite <- (app_nil_r (bits_of_Z 6 _)). cbn [default]. do 2 (eapply reads_step; [pdu_read|]). apply reads_ret.
    + destruct Hok as (x & y & -> & -> & Hx & Hy). rewrite <- (app_nil_r (bits_of_Z 6 _)). cbn [default].
      do 2 (eapply reads_step; [pdu_read|]). apply reads_ret_eq. by rewrite (wrap_fits 5 8), (wrap_fits 6 8) by (done || lia).
Qed.

Lemma energy_saving_information_safe : parser_safe energy_saving_information_from_bitbuf.
Proof.
  apply safe_field_bind. intros v Hv. apply safe_bind; [|intros; pdu_safe]. apply safe_unwrap.
  cbv zeta. rewrite (wrap_fits 3 8) by (done || lia). by apply raw_total.
Qed.
#[export] Hint Resolve energy_saving_information_safe : parser_safe.

(** * Group identities *)

Definition group_identity_attachment_ok (self : GroupIdentityAttachment) : Prop :=
  is_u 2 (gia_lifetime self) ∧ is_u 3 (gia_class_of_usage self).
Definition group_identity_attachment_bits (self : GroupIdentityAttachment) : list bool :=
  bits_of_Z 2 (gia_lifetime self) ++ bits_of_Z 3 (gia_class_of_usage self).

#[global] Instance group_identity_attachment_codec : BitCodec group_identity_attachment_ok group_identity_attachment_bits
  group_identity_attachment_to_bitbuf group_identity_attachment_from_bitbuf.
Proof.
  split; intros [a b] [Ha Hb]; unfold group_identity_attachment_bits, group_identity_attachment_to_bitbuf,
    group_identity_attachment_from_bitbuf; cbn [gia_lifetime gia_class_of_usage] in *; [pdu_writes|].
  rewrite <- (app_nil_r (bits_of_Z 3 _)). pdu_reads.
Qed.

Lemma group_identity_attachment_safe : parser_safe group_identity_attachment_from_bitbuf.
Proof. pdu_safe. Qed.
#[export] Hint Resolve group_identity_attachment_safe : parser_safe.

(** The two-bit address type of a group identity; [None] where the writer refuses
    the combination. *)
Definition gid_address_type (gssi ext vgssi : option Z) : option Z :=
  match gssi, ext, vgssi with
  | Some _, Some _, Some _ => Some 3%Z
  | Some _, Some _, None => Some 1%Z
  | Some _, None, None => Some 0%Z
  | None, None, Some _ => Some 2%Z
  | _, _, _ => None
  end.

(** The uplink element has no type 3. *)
Definition giu_address_type (gssi ext vgssi : option Z) : option Z :=
  match gssi, ext, vgssi with
  | Some _, Some _, None => Some 1%Z
  | Some _, None, None => Some 0%Z
  | None, None, Some _ => Some 2%Z
  | _, _, _ => None
  end.

Definition addresses_ok (gssi ext vgssi : option Z) : Prop := t2_ok 24 gssi ∧ t2_ok 24 ext ∧ t2_ok 24 vgssi.

Definition group_identity_downlink_ok (self : GroupIdentityDownlink) : Prop :=
  xorb (is_some (gid_attachment self)) (is_some (gid_detachment_uplink self)) = true ∧
  opt_ok group_identity_attachment_ok (gid_attachment self) ∧ t2_ok 2 (gid_detachment_uplink self) ∧
  is_Some (gid_address_type (gid_gssi self) (gid_address_extension self) (gid_vgssi self)) ∧
  addresses_ok (gid_gssi self) (gid_address_extension self) (gid_vgssi self).

Definition address_bits (gssi ext vgssi : option Z) : list bool := opt_bits 24 gssi ++ opt_bits 24 ext ++ opt_bits 24 vgssi.

Definition group_identity_downlink_bits (self : GroupIdentityDownlink) : list bool :=
  bits_of_Z 1 (if is_some (gid_attachment self) then 0 else 1) ++
  (match gid_attachment self with Some a => group_identity_attachment_bits a | None => [] end) ++
  opt_bits 2 (gid_detachment_uplink self) ++
  bits_of_Z 2 (default 0%Z (gid_address_type (gid_gssi self) (gid_address_extension self) (gid_vgssi self))) ++
  address_bits (gid_gssi self) (gid_address_extension self) (gid_vgssi self).

Lemma reads_cond_codec {T} valid enc (to_bitbuf : T → B unit) from_bitbuf `{!BitCodec valid enc to_bitbuf from_bitbuf} (c : bool) o :
  opt_ok valid o → c = is_some o →
  reads (if c then v ← from_bitbuf; mret (Some v) else mret None) (match o with Some x => enc x | None => [] end) o.
Proof.
  intros Ho ->. destruct o as [x|]; cbn [is_some]; [|apply reads_ret]. rewrite <- (app_nil_r (enc x)).
  eapply reads_bind; [by apply codec_reads|apply reads_ret].
Qed.

Ltac address_cases := repeat match goal with
  | o : option _ |- _ => destruct o; try done
  end.
Ltac is_u_small := unfold is_u; cbn; lia.

#[global] Instance group_identity_downlink_codec : BitCodec group_identity_downlink_ok group_identity_downlink_bits
  group_identity_downlink_to_bitbuf group_identity_downlink_from_bitbuf.
Proof.
  split; intros [a d g e v] (Hx & Ha & Hd & [t Ht] & Hg & He & Hv); cbn [gid_attachment gid_detachment_uplink gid_gssi
    gid_address_extension gid_vgssi] in *; unfold group_identity_downlink_bits, group_identity_downlink_to_bitbuf,
    group_identity_downlink_from_bitbuf; cbn [gid_attachment gid_detachment_uplink gid_gssi gid_address_extension gid_vgssi];
    rewrite Ht; cbn [default]; assert (is_u 2 t) as Htu by (address_cases; injection Ht as <-; is_u_small).
  - apply writes_assert; [done|]. apply writes_bind; [apply writes_bits; [lia|destruct (is_some a); is_u_small]|].
    apply writes_bind; [destruct a; [by apply codec_writes|apply writes_ret]|]. apply writes_bind; [by apply writes_cond; [lia|]|].
    apply (writes_pure _ t); [clear -Ht; address_cases; injection Ht as <-; apply pure_ret|].
    apply writes_bind; [by apply writes_bits; [lia|]|]. unfold address_bits. pdu_writes.
  - eapply reads_step; [apply reads_reads_then, reads_field; [lia|destruct (is_some a); is_u_small]|]. cbv zeta.
    eapply reads_step; [apply reads_reads_then; eapply (reads_cond_codec _ _ _ _); [exact Ha|by destruct a]|].
    eapply reads_step; [apply reads_reads_then, reads_cond; [lia|done|by destruct a, d|pdu_fits]|].
    eapply reads_step; [pdu_read|]. cbv zeta. rewrite (wrap_fits 2 8) by (done || lia). unfold address_bits.
    eapply reads_step; [apply reads_reads_then, reads_cond; [lia|done|clear -Ht; address_cases; by injection Ht as <-|pdu_fits]|].
    eapply reads_step; [apply reads_reads_then, reads_cond; [lia|done|clear -Ht; address_cases; by injection Ht as <-|pdu_fits]|].
    rewrite <- (app_nil_r (opt_bits 24 v)).
    eapply reads_step; [apply reads_reads_then, reads_cond; [lia|done|clear -Ht; address_cases; by injection Ht as <-|pdu_fits]|].
    apply reads_ret.
Qed.

Lemma group_identity_downlink_safe : parser_safe group_identity_downlink_from_bitbuf.
Proof.
  unfold group_identity_downlink_from_bitbuf. apply safe_field_bind. intros. cbv zeta.
  apply safe_bind; [case_match; [apply safe_bind; auto with parser_safe|auto with parser_safe]|]. intros. pdu_safe.
Qed.

Definition group_identity_uplink_ok (self : GroupIdentityUplink) : Prop :=
  xorb (is_some (giu_class_of_usage self)) (is_some (giu_detachment_uplink self)) = true ∧
  t2_ok 3 (giu_class_of_usage self) ∧ t2_ok 2 (giu_detachment_uplink self) ∧
  is_Some (giu_address_type (giu_gssi self) (giu_address_extension self) (giu_vgssi self)) ∧
  addresses_ok (giu_gssi self) (giu_address_extension self) (giu_vgssi self).

Definition group_identity_uplink_bits (self : GroupIdentityUplink) : list bool :=
  bits_of_Z 1 (if is_some (giu_class_of_usage self) then 0 else 1) ++
  opt_bits 3 (giu_class_of_usage self) ++ opt_bits 2 (giu_detachment_uplink self) ++
  bits_of_Z 2 (default 0%Z (giu_address_type (giu_gssi self) (giu_address_extension self) (giu_vgssi self))) ++
  address_bits (giu_gssi self) (giu_address_extension self) (giu_vgssi self).

#[global] Instance group_identity_uplink_codec : BitCodec group_identity_uplink_ok group_identity_uplink_bits
  group_identity_uplink_to_bitbuf group_identity_uplink_from_bitbuf.
Proof.
  split; intros [a d g e v] (Hx & Ha & Hd & [t Ht] & Hg & He & Hv); cbn [giu_class_of_usage giu_detachment_uplink giu_gssi
    giu_address_extension giu_vgssi] in *; unfold group_identity_uplink_bits, group_identity_uplink_to_bitbuf,
    group_identity_uplink_from_bitbuf; cbn [giu_class_of_usage giu_detachment_uplink giu_gssi giu_address_extension giu_vgssi];
    rewrite Ht; cbn [default]; assert (is_u 2 t) as Htu by (address_cases; injection Ht as <-; is_u_small).
  - apply writes_assert; [done|]. apply writes_bind; [apply writes_bits; [lia|destruct (is_some a); is_u_small]|].
    do 2 (apply writes_bind; [by apply writes_cond; [lia|]|]).
    apply (writes_pure _ t); [clear -Ht; address_cases; injection Ht as <-; by intros bb|].
    apply writes_bind; [by apply writes_bits; [lia|]|]. unfold address_bits. pdu_writes.
  - eapply reads_step; [apply reads_reads_then, reads_field; [lia|destruct (is_some a); is_u_small]|]. cbv zeta.
    do 2 (eapply reads_step; [apply reads_reads_then, reads_cond; [lia|done|by destruct a, d|pdu_fits]|]).
    eapply reads_step; [pdu_read|]. cbv zeta. rewrite (wrap_fits 2 8) by (done || lia). unfold address_bits.
    rewrite <- (app_nil_r (opt_bits 24 v)).
    do 3 (eapply reads_step; [apply reads_reads_then, reads_cond; [lia|done|clear -Ht; address_cases; by injection Ht as <-|pdu_fits]|]).
    apply reads_ret.
Qed.

Lemma group_identity_uplink_safe : parser_safe group_identity_uplink_from_bitbuf.
Proof. pdu_safe. Qed.
#[export] Hint Resolve group_identity_downlink_safe group_identity_uplink_safe : parser_safe.

(** A received uplink group identity with address type 3 has no address and
    cannot be written again. *)
Lemma group_identity_uplink_type_3_panics :
  match from_bitstr "0001110000" with
  | Some bb => match group_identity_uplink_from_bitbuf bb with
      | Ok x _ => group_identity_uplink_to_bitbuf x (new_autoexpand 64) = Panic
      | _ => False
      end
  | None => False
  end.
Proof. vm_compute. reflexivity. Qed.

Definition group_identity_location_accept_ok (self : GroupIdentityLocationAccept) : Prop :=
  is_u 1 (group_identity_location_accept_group_identity_accept_reject self) ∧
  t4s_ok group_identity_downlink_ok group_identity_downlink_bits (group_identity_location_accept_group_identity_downlink self).
Definition group_identity_location_accept_bits (self : GroupIdentityLocationAccept) : list bool :=
  let o := group_identity_location_accept_group_identity_downlink self in
  bits_of_Z 1 (group_identity_location_accept_group_identity_accept_reject self) ++ bits_of_Z 1 0 ++
  obit_bits (is_some o) (t4s_bits group_identity_downlink_bits
    (mm_type34_elem_id_dl_into_raw MmType34ElemIdDl_GroupIdentityDownlink) o ++ [false]).

#[global] Instance group_identity_location_accept_codec : BitCodec group_identity_location_accept_ok
  group_identity_location_accept_bits group_identity_location_accept_to_bitbuf group_identity_location_accept_from_bitbuf.
Proof.
  split; intros [a o] [Ha Ho]; unfold group_identity_location_accept_bits, group_identity_location_accept_to_bitbuf,
    group_identity_location_accept_from_bitbuf; cbn [group_identity_location_accept_group_identity_accept_reject
    group_identity_location_accept_group_identity_downlink] in *; cbv zeta; [pdu_writes|pdu_reads].
Qed.

Lemma group_identity_location_accept_safe : parser_safe group_identity_location_accept_from_bitbuf.
Proof. pdu_safe. Qed.

Definition group_identity_location_demand_ok (self : GroupIdentityLocationDemand) : Prop :=
  is_u 1 (group_identity_location_demand_group_identity_attach_detach_mode self) ∧
  t4s_ok group_identity_uplink_ok group_identity_uplink_bits (group_identity_location_demand_group_identity_uplink self).
Definition group_identity_location_demand_bits (self : GroupIdentityLocationDemand) : list bool :=
  let o := group_identity_location_demand_group_identity_uplink self in
  bits_of_Z 1 0 ++ bits_of_Z 1 (group_identity_location_demand_group_identity_attach_detach_mode self) ++
  obit_bits (is_some o) (t4s_bits group_identity_uplink_bits
    (mm_type34_elem_id_ul_into_raw MmType34ElemIdUl_GroupIdentityUplink) o ++ [false]).

#[global] Instance group_identity_location_demand_codec : BitCodec group_identity_location_demand_ok
  group_identity_location_demand_bits group_identity_location_demand_to_bitbuf group_identity_location_demand_from_bitbuf.
Proof.
  split; intros [a o] [Ha Ho]; unfold group_identity_location_demand_bits, group_identity_location_demand_to_bitbuf,
    group_identity_location_demand_from_bitbuf; cbn [group_identity_location_demand_group_identity_attach_detach_mode
    group_identity_location_demand_group_identity_uplink] in *; cbv zeta; [pdu_writes|pdu_reads].
Qed.

Lemma group_identity_location_demand_safe : parser_safe group_identity_location_demand_from_bitbuf.
Proof. pdu_safe. Qed.
#[export] Hint Resolve group_identity_location_accept_safe group_identity_location_demand_safe : parser_safe.

(** * Location area of a demand *)

(** The area is sent with a zero bit behind it. *)
Lemma la_fits o : t2_ok 14 o → t2_ok 15 ((λ la, wrap 64 (Z.shiftl la 1)) <$> o).
Proof.
  destruct o as [v|]; [|done]. intros [H1 H2]. cbn. rewrite wrap_small; unfold is_u; rewrite Z.shiftl_mul_pow2; cbn in *; lia.
Qed.
Lemma la_inverse o : t2_ok 14 o → (λ v, v / 2)%Z <$> ((λ la, wrap 64 (Z.shiftl la 1)) <$> o) = o.
Proof.
  destruct o as [v|]; [|done]. intros [H1 H2]. cbn. f_equal. cbn in *.
  rewrite wrap_small; rewrite Z.shiftl_mul_pow2 by lia; [by apply Z.div_mul|unfold is_u; lia].
Qed.
#[export] Hint Resolve la_fits la_inverse : pdu.

(** ** DAttachDetachGroupIdentity *)

Definition d_attach_detach_group_identity_ok (self : DAttachDetachGroupIdentity) : Prop :=
  t3_ok (mm_type34_elem_id_dl_into_raw MmType34ElemIdDl_Proprietary) (d_attach_detach_group_identity_proprietary
    self) ∧
  t3_ok (mm_type34_elem_id_dl_into_raw MmType34ElemIdDl_GroupReportResponse)
    (d_attach_detach_group_identity_group_report_response self) ∧
  t4s_ok group_identity_downlink_ok group_identity_downlink_bits
    (d_attach_detach_group_identity_group_identity_downlink self) ∧
  d_attach_detach_group_identity_group_identity_security_related_information self = None.

Lemma d_attach_detach_group_identity_roundtrip self : d_attach_detach_group_identity_ok self →
  roundtrips (d_attach_detach_group_identity_to_bitbuf self) d_attach_detach_group_identity_from_bitbuf self.
Proof.
  destruct self as [group_identity_report group_identity_acknowledgement_request group_identity_attach_detach_mode
    proprietary group_report_response group_identity_downlink group_identity_security_related_information]. unfold
    d_attach_detach_group_identity_ok, d_attach_detach_group_identity_to_bitbuf,
    d_attach_detach_group_identity_from_bitbuf. cbn [d_attach_detach_group_identity_group_identity_report
    d_attach_detach_group_identity_group_identity_acknowledgement_request
    d_attach_detach_group_identity_group_identity_attach_detach_mode d_attach_detach_group_identity_proprietary
    d_attach_detach_group_identity_group_report_response d_attach_detach_group_identity_group_identity_downlink
    d_attach_detach_group_identity_group_identity_security_related_information].
  intros Hok. destruct_and?. subst. eexists; split; [pdu_writes|pdu_reads].
Qed.

Lemma d_attach_detach_group_identity_safe : parser_safe d_attach_detach_group_identity_from_bitbuf.
Proof. pdu_safe. Qed.

(** ** DAttachDetachGroupIdentityAcknowledgement *)

Definition d_attach_detach_group_identity_acknowledgement_ok (self : DAttachDetachGroupIdentityAcknowledgement) : Prop :=
  is_u 1 (d_attach_detach_group_identity_acknowledgement_group_identity_accept_reject self) ∧
  t3_ok (mm_type34_elem_id_dl_into_raw MmType34ElemIdDl_Proprietary)
    (d_attach_detach_group_identity_acknowledgement_proprietary self) ∧
  t4s_ok group_identity_downlink_ok group_identity_downlink_bits
    (d_attach_detach_group_identity_acknowledgement_group_identity_downlink self) ∧
  d_attach_detach_group_identity_acknowledgement_group_identity_security_related_information self = None.

Lemma d_attach_detach_group_identity_acknowledgement_roundtrip self : d_attach_detach_group_identity_acknowledgement_ok self →
  roundtrips (d_attach_detach_group_identity_acknowledgement_to_bitbuf self) d_attach_detach_group_identity_acknowledgement_from_bitbuf self.
Proof.
  destruct self as [group_identity_accept_reject reserved proprietary group_identity_downlink
    group_identity_security_related_information]. unfold d_attach_detach_group_identity_acknowledgement_ok,
    d_attach_detach_group_identity_acknowledgement_to_bitbuf,
    d_attach_detach_group_identity_acknowledgement_from_bitbuf. cbn
    [d_attach_detach_group_identity_acknowledgement_group_identity_accept_reject
    d_attach_detach_group_identity_acknowledgement_reserved
    d_attach_detach_group_identity_acknowledgement_proprietary
    d_attach_detach_group_identity_acknowledgement_group_identity_downlink
    d_attach_detach_group_identity_acknowledgement_group_identity_security_related_information].
  intros Hok. destruct_and?. subst. eexists; split; [pdu_writes|pdu_reads].
Qed.

Lemma d_attach_detach_group_identity_acknowledgement_safe : parser_safe d_attach_detach_group_identity_acknowledgement_from_bitbuf.
Proof. pdu_safe. Qed.

(** ** DLocationUpdateAccept *)

Definition d_location_update_accept_ok (self : DLocationUpdateAccept) : Prop :=
  t2_ok 24 (d_location_update_accept_ssi self) ∧
  t2_ok 24 (d_location_update_accept_address_extension self) ∧
  t2_ok 16 (d_location_update_accept_subscriber_class self) ∧
  opt_ok energy_saving_information_ok (d_location_update_accept_energy_saving_information self) ∧
  t2_ok 6 (d_location_update_accept_scch_information_and_distribution_on_18th_frame self) ∧
  d_location_update_accept_new_registered_area self = None ∧
  t3_ok (mm_type34_elem_id_dl_into_raw MmType34ElemIdDl_SecurityDownlink)
    (d_location_update_accept_security_downlink self) ∧
  t3s_ok group_identity_location_accept_ok group_identity_location_accept_bits
    (d_location_update_accept_group_identity_location_accept self) ∧
  t3_ok (mm_type34_elem_id_dl_into_raw MmType34ElemIdDl_DefaultGroupAttachLifetime)
    (d_location_update_accept_default_group_attachment_lifetime self) ∧
  t3_ok (mm_type34_elem_id_dl_into_raw MmType34ElemIdDl_AuthenticationDownlink)
    (d_location_update_accept_authentication_downlink self) ∧
  d_location_update_accept_group_identity_security_related_information self = None ∧
  t3_ok (mm_type34_elem_id_dl_into_raw MmType34ElemIdDl_CellTypeControl)
    (d_location_update_accept_cell_type_control self) ∧
  t3_ok (mm_type34_elem_id_dl_into_raw MmType34ElemIdDl_Proprietary) (d_location_update_accept_proprietary self).

Lemma d_location_update_accept_roundtrip self : d_location_update_accept_ok self →
  roundtrips (d_location_update_accept_to_bitbuf self) d_location_update_accept_from_bitbuf self.
Proof.
  destruct self as [location_update_accept_type ssi address_extension subscriber_class energy_saving_information
    scch_information_and_distribution_on_18th_frame new_registered_area security_downlink
    group_identity_location_accept default_group_attachment_lifetime authentication_downlink
    group_identity_security_related_information cell_type_control proprietary]. unfold d_location_update_accept_ok,
    d_location_update_accept_to_bitbuf, d_location_update_accept_from_bitbuf. cbn
    [d_location_update_accept_location_update_accept_type d_location_update_accept_ssi
    d_location_update_accept_address_extension d_location_update_accept_subscriber_class
    d_location_update_accept_energy_saving_information
    d_location_update_accept_scch_information_and_distribution_on_18th_frame
    d_location_update_accept_new_registered_area d_location_update_accept_security_downlink
    d_location_update_accept_group_identity_location_accept
    d_location_update_accept_default_group_attachment_lifetime d_location_update_accept_authentication_downlink
    d_location_update_accept_group_identity_security_related_information d_location_update_accept_cell_type_control
    d_location_update_accept_proprietary].
  intros Hok. destruct_and?. subst. eexists; split; [pdu_writes|pdu_reads].
Qed.

Lemma d_location_update_accept_safe : parser_safe d_location_update_accept_from_bitbuf.
Proof. pdu_safe. Qed.

(** ** DLocationUpdateProceeding *)

Definition d_location_update_proceeding_ok (self : DLocationUpdateProceeding) : Prop :=
  is_u 24 (d_location_update_proceeding_ssi self) ∧
  is_u 24 (d_location_update_proceeding_address_extension self) ∧
  t3_ok (mm_type34_elem_id_dl_into_raw MmType34ElemIdDl_Proprietary) (d_location_update_proceeding_proprietary self).

Lemma d_location_update_proceeding_roundtrip self : d_location_update_proceeding_ok self →
  roundtrips (d_location_update_proceeding_to_bitbuf self) d_location_update_proceeding_from_bitbuf self.
Proof.
  destruct self as [ssi address_extension proprietary]. unfold d_location_update_proceeding_ok,
    d_location_update_proceeding_to_bitbuf, d_location_update_proceeding_from_bitbuf. cbn
    [d_location_update_proceeding_ssi d_location_update_proceeding_address_extension
    d_location_update_proceeding_proprietary].
  intros Hok. destruct_and?. eexists; split; [pdu_writes|pdu_reads].
Qed.

Lemma d_location_update_proceeding_safe : parser_safe d_location_update_proceeding_from_bitbuf.
Proof. pdu_safe. Qed.

(** ** UAttachDetachGroupIdentity *)

Definition u_attach_detach_group_identity_ok (self : UAttachDetachGroupIdentity) : Prop :=
  t3_ok (mm_type34_elem_id_ul_into_raw MmType34ElemIdUl_GroupReportResponse)
    (u_attach_detach_group_identity_group_report_response self) ∧
  t4s_ok group_identity_uplink_ok group_identity_uplink_bits (u_attach_detach_group_identity_group_identity_uplink
    self) ∧
  t3_ok (mm_type34_elem_id_ul_into_raw MmType34ElemIdUl_Proprietary) (u_attach_detach_group_identity_proprietary
    self).

Lemma u_attach_detach_group_identity_roundtrip self : u_attach_detach_group_identity_ok self →
  roundtrips (u_attach_detach_group_identity_to_bitbuf self) u_attach_detach_group_identity_from_bitbuf self.
Proof.
  destruct self as [group_identity_report group_identity_attach_detach_mode group_report_response
    group_identity_uplink proprietary]. unfold u_attach_detach_group_identity_ok,
    u_attach_detach_group_identity_to_bitbuf, u_attach_detach_group_identity_from_bitbuf. cbn
    [u_attach_detach_group_identity_group_identity_report
    u_attach_detach_group_identity_group_identity_attach_detach_mode
    u_attach_detach_group_identity_group_report_response u_attach_detach_group_identity_group_identity_uplink
    u_attach_detach_group_identity_proprietary].
  intros Hok. destruct_and?. eexists; split; [pdu_writes|pdu_reads].
Qed.

Lemma u_attach_detach_group_identity_safe : parser_safe u_attach_detach_group_identity_from_bitbuf.
Proof. pdu_safe. Qed.

(** ** UAttachDetachGroupIdentityAcknowledgement *)

Definition u_attach_detach_group_identity_acknowledgement_ok (self : UAttachDetachGroupIdentityAcknowledgement) : Prop :=
  t4s_ok group_identity_uplink_ok group_identity_uplink_bits
    (u_attach_detach_group_identity_acknowledgement_group_identity_uplink self) ∧
  t3_ok (mm_type34_elem_id_ul_into_raw MmType34ElemIdUl_Proprietary)
    (u_attach_detach_group_identity_acknowledgement_proprietary self).

Lemma u_attach_detach_group_identity_acknowledgement_roundtrip self : u_attach_detach_group_identity_acknowledgement_ok self →
  roundtrips (u_attach_detach_group_identity_acknowledgement_to_bitbuf self) u_attach_detach_group_identity_acknowledgement_from_bitbuf self.
Proof.
  destruct self as [group_identity_acknowledgement_type group_identity_uplink proprietary]. unfold
    u_attach_detach_group_identity_acknowledgement_ok, u_attach_detach_group_identity_acknowledgement_to_bitbuf,
    u_attach_detach_group_identity_acknowledgement_from_bitbuf. cbn
    [u_attach_detach_group_identity_acknowledgement_group_identity_acknowledgement_type
    u_attach_detach_group_identity_acknowledgement_group_identity_uplink
    u_attach_detach_group_identity_acknowledgement_proprietary].
  intros Hok. destruct_and?. eexists; split; [pdu_writes|pdu_reads].
Qed.

Lemma u_attach_detach_group_identity_acknowledgement_safe : parser_safe u_attach_detach_group_identity_acknowledgement_from_bitbuf.
Proof. pdu_safe. Qed.

(** ** UItsiDetach *)

Definition u_itsi_detach_ok (self : UItsiDetach) : Prop :=
  t2_ok 24 (u_itsi_detach_address_extension self) ∧
  t3_ok (mm_type34_elem_id_ul_into_raw MmType34ElemIdUl_Proprietary) (u_itsi_detach_proprietary self).

Lemma u_itsi_detach_roundtrip self : u_itsi_detach_ok self →
  roundtrips (u_itsi_detach_to_bitbuf self) u_itsi_detach_from_bitbuf self.
Proof.
  destruct self as [address_extension proprietary]. unfold u_itsi_detach_ok, u_itsi_detach_to_bitbuf,
    u_itsi_detach_from_bitbuf. cbn [u_itsi_detach_address_extension u_itsi_detach_proprietary].
  intros Hok. destruct_and?. eexists; split; [pdu_writes|pdu_reads].
Qed.

Lemma u_itsi_detach_safe : parser_safe u_itsi_detach_from_bitbuf.
Proof. pdu_safe. Qed.

(** ** ULocationUpdateDemand *)

Definition u_location_update_demand_ok (self : ULocationUpdateDemand) : Prop :=
  t2_ok 10 (u_location_update_demand_ciphering_parameters self) ∧
  is_some (u_location_update_demand_ciphering_parameters self) = (u_location_update_demand_cipher_control self) ∧
  opt_ok class_of_ms_ok (u_location_update_demand_class_of_ms self) ∧
  t2_ok 14 (u_location_update_demand_la_information self) ∧
  t2_ok 24 (u_location_update_demand_ssi self) ∧
  t2_ok 24 (u_location_update_demand_address_extension self) ∧
  t3s_ok group_identity_location_demand_ok group_identity_location_demand_bits
    (u_location_update_demand_group_identity_location_demand self) ∧
  t3_ok (mm_type34_elem_id_ul_into_raw MmType34ElemIdUl_GroupReportResponse)
    (u_location_update_demand_group_report_response self) ∧
  t3_ok (mm_type34_elem_id_ul_into_raw MmType34ElemIdUl_AuthenticationUplink)
    (u_location_update_demand_authentication_uplink self) ∧
  t3_ok (mm_type34_elem_id_ul_into_raw MmType34ElemIdUl_ExtendedCapabilities)
    (u_location_update_demand_extended_capabilities self) ∧
  t3_ok (mm_type34_elem_id_ul_into_raw MmType34ElemIdUl_Proprietary) (u_location_update_demand_proprietary self).

Lemma u_location_update_demand_roundtrip self : u_location_update_demand_ok self →
  roundtrips (u_location_update_demand_to_bitbuf self) u_location_update_demand_from_bitbuf self.
Proof.
  destruct self as [location_update_type request_to_append_la cipher_control ciphering_parameters class_of_ms
    energy_saving_mode la_information ssi address_extension group_identity_location_demand group_report_response
    authentication_uplink extended_capabilities proprietary]. unfold u_location_update_demand_ok,
    u_location_update_demand_to_bitbuf, u_location_update_demand_from_bitbuf. cbn
    [u_location_update_demand_location_update_type u_location_update_demand_request_to_append_la
    u_location_update_demand_cipher_control u_location_update_demand_ciphering_parameters
    u_location_update_demand_class_of_ms u_location_update_demand_energy_saving_mode
    u_location_update_demand_la_information u_location_update_demand_ssi u_location_update_demand_address_extension
    u_location_update_demand_group_identity_location_demand u_location_update_demand_group_report_response
    u_location_update_demand_authentication_uplink u_location_update_demand_extended_capabilities
    u_location_update_demand_proprietary].
  intros Hok. destruct_and?. eexists; split; [pdu_writes|pdu_reads].
Qed.

Lemma u_location_update_demand_safe : parser_safe u_location_update_demand_from_bitbuf.
Proof. pdu_safe. Qed.

(** ** UTeiProvide *)

Definition u_tei_provide_ok (self : UTeiProvide) : Prop :=
  is_u 60 (u_tei_provide_tei self) ∧
  t3_ok (mm_type34_elem_id_ul_into_raw MmType34ElemIdUl_Proprietary) (u_tei_provide_proprietary self).

Lemma u_tei_provide_roundtrip self : u_tei_provide_ok self →
  roundtrips (u_tei_provide_to_bitbuf self) u_tei_provide_from_bitbuf self.
Proof.
  destruct self as [tei proprietary]. unfold u_tei_provide_ok, u_tei_provide_to_bitbuf, u_tei_provide_from_bitbuf.
    cbn [u_tei_provide_tei u_tei_provide_proprietary].
  intros Hok. destruct_and?. eexists; split; [pdu_writes|pdu_reads].
Qed.

Lemma u_tei_provide_safe : parser_safe u_tei_provide_from_bitbuf.
Proof. pdu_safe. Qed.

(** ** PDUs that end with the buffer *)

(** [reads] for a parser that takes everything that is left. *)
Definition reads_all {A} (p : B A) (bs : list bool) (a : A) : Prop := ∀ bb,
  wf bb → remaining bb = bs → p bb = Ok a (advance (length bs) bb).

Lemma reads_reads_all {A} (p : B A) bs a : reads p bs a → reads_all p bs a.
Proof. intros Hr bb Hwf <-. by apply Hr. Qed.

Lemma reads_all_step {A C} (p : B A) (k : A → B C) bs rest a c :
  reads p bs a → reads_all (k a) rest c → reads_all (p ≫= k) (bs ++ rest) c.
Proof.
  intros Hp Hk bb Hwf Hrem. erewrite bind_ok by (apply Hp; [done|rewrite Hrem; by exists rest]). rewrite Hk.
  - by rewrite advance_advance, length_app.
  - apply wf_advance; [done|]. rewrite <- length_remaining, Hrem, length_app by done. lia.
  - by rewrite remaining_advance, Hrem, drop_app_length.
Qed.

Lemma reads_all_pure {A C} (m : B A) a (k : A → B C) bs c : pure_step m a → reads_all (k a) bs c → reads_all (m ≫= k) bs c.
Proof. intros Hm Hk bb Hwf Hrem. erewrite bind_ok by apply Hm. by apply Hk. Qed.

(** ** UMmStatus *)

(** Dependent information comes with its length, of at most 64 bits. *)
Definition u_mm_status_ok (self : UMmStatus) : Prop :=
  match u_mm_status_status_uplink_dependent_information self, u_mm_status_status_uplink_dependent_information_len self with
  | Some v, Some n => 0 < n ≤ 64 ∧ is_u (Z.of_nat n) v
  | None, None => True
  | _, _ => False
  end.

Lemma u_mm_status_roundtrip self : u_mm_status_ok self → ∃ bs,
  writes (u_mm_status_to_bitbuf self) bs ∧ reads_all u_mm_status_from_bitbuf bs self.
Proof.
  destruct self as [status info len]. unfold u_mm_status_ok, u_mm_status_to_bitbuf, u_mm_status_from_bitbuf.
  cbn [u_mm_status_status_uplink u_mm_status_status_uplink_dependent_information
    u_mm_status_status_uplink_dependent_information_len]. intros Hok.
  exists (bits_of_Z 4 (mm_pdu_type_ul_into_raw MmPduTypeUl_UMmStatus) ++ bits_of_Z 6 (status_uplink_into_raw status) ++
    match info, len with Some v, Some n => bits_of_Z n v | _, _ => [] end).
  split.
  - do 2 (apply writes_bind; [pdu_write|]). destruct info as [v|], len as [n|]; try done.
    + destruct Hok as [Hn Hv]. eapply writes_pure; [by apply pure_unwrap|]. by apply writes_bits; [lia|].
    + apply writes_ret.
  - eapply reads_all_step; [apply reads_field; [lia|pdu_side]|]. eapply reads_all_pure; [pdu_pure|].
    eapply reads_all_step; [apply reads_field; [lia|pdu_side]|]. eapply reads_all_pure; [pdu_pure|].
    intros bb Hwf Hrem. pose proof (length_remaining bb Hwf) as Hlen. rewrite Hrem in Hlen. erewrite (bind_ok (gets _)) by done.
    destruct info as [v|], len as [n|]; try done.
    + destruct Hok as [Hn Hv]. rewrite length_bits_of_Z in Hlen. rewrite <- Hlen. rewrite (proj2 (Nat.ltb_lt 0 n)) by lia.
      assert (reads (read_field n "status_uplink_dependent_information" ≫= λ v, mret (Some v)) (bits_of_Z n v ++ []) (Some v)) as Hr.
      { eapply reads_bind; [by apply reads_field; [lia|]|apply reads_ret]. }
      rewrite app_nil_r in Hr. erewrite bind_ok by (apply Hr; [done|by rewrite Hrem]). done.
    + cbn in Hlen. rewrite <- Hlen. cbn [length]. by rewrite advance_0.
Qed.

Lemma u_mm_status_safe : parser_safe u_mm_status_from_bitbuf.
Proof. pdu_safe. Qed.

(** ** MmPduFunctionNotSupported *)

Definition mm_pdu_function_not_supported_ok (self : MmPduFunctionNotSupported) : Prop :=
  is_u 4 (mm_pdu_function_not_supported_not_supported_pdu_type self) ∧
  mm_pdu_function_not_supported_not_supported_sub_pdu_type self = None.

Lemma mm_pdu_function_not_supported_roundtrip self : mm_pdu_function_not_supported_ok self →
  roundtrips (mm_pdu_function_not_supported_to_bitbuf self) mm_pdu_function_not_supported_from_bitbuf self.
Proof.
  destruct self as [t sub]. unfold mm_pdu_function_not_supported_ok, mm_pdu_function_not_supported_to_bitbuf,
    mm_pdu_function_not_supported_from_bitbuf. cbn [mm_pdu_function_not_supported_not_supported_pdu_type
    mm_pdu_function_not_supported_not_supported_sub_pdu_type]. intros [Ht ->]. cbv zeta. cbn [is_some Z.b2z negb].
  eexists. split.
  - do 2 (eapply writes_bind; [pdu_write|]). eapply writes_bind; [apply (writes_obit false)|apply writes_ret].
  - eapply reads_step; [pdu_read|]. eapply reads_pure; [pdu_pure|]. eapply reads_step; [pdu_read|]. cbv zeta.
    eapply reads_step; [apply reads_reads_then, (reads_obit false)|]. cbn [negb]. apply reads_ret_eq. pdu_same.
Qed.

Lemma mm_pdu_function_not_supported_safe : parser_safe mm_pdu_function_not_supported_from_bitbuf.
Proof. pdu_safe. Qed.

(** ** DMmStatus *)

(** Only the two energy-saving statuses can be sent. *)
Definition d_mm_status_ok (self : DMmStatus) : Prop :=
  match d_mm_status_status_downlink self with
  | StatusDownlink_ChangeOfEnergySavingModeRequest | StatusDownlink_ChangeOfEnergySavingModeResponse =>
      ∃ esi, d_mm_status_energy_saving_information self = Some esi ∧ energy_saving_information_ok esi
  | _ => False
  end.

Lemma d_mm_status_roundtrip self : d_mm_status_ok self → roundtrips (d_mm_status_to_bitbuf self) d_mm_status_from_bitbuf self.
Proof.
  destruct self as [status info]. unfold d_mm_status_ok, d_mm_status_to_bitbuf, d_mm_status_from_bitbuf.
  cbn [d_mm_status_status_downlink d_mm_status_energy_saving_information]. intros Hok.
  destruct status; try done; destruct Hok as (esi & -> & Hesi); (eexists; split; [pdu_writes|]);
    (eapply reads_step; [pdu_read|]); (eapply reads_pure; [pdu_pure|]); (eapply reads_step; [pdu_read|]);
    (eapply reads_pure; [pdu_pure|]); rewrite <- (app_nil_r (energy_saving_information_bits esi));
    (eapply reads_step; [|apply reads_ret]); apply reads_reads_then; rewrite <- (app_nil_r (energy_saving_information_bits esi));
    (eapply reads_bind; [by apply codec_reads|apply reads_ret]).
Qed.

(** ** Downlink PDUs without a parser *)

(** D-LOCATION UPDATE COMMAND and REJECT are written by the base station; their
    parsers end in [unimplemented!] on every PDU of their type. *)
Lemma d_location_update_command_unparsable bb : wf bb → 6 ≤ get_len_remaining bb →
  Z_of_bits (take 4 (remaining bb)) = mm_pdu_type_dl_into_raw MmPduTypeDl_DLocationUpdateCommand →
  d_location_update_command_from_bitbuf bb = Panic.
Proof.
  intros Hwf Hlen Ht. unfold d_location_update_command_from_bitbuf. unfold mbind, M_bind.
  rewrite read_field_ok by (done || lia). unfold expect_pdu_type. rewrite decide_True by done. cbn [mret M_ret].
  assert (wf (advance 4 bb)) by (apply wf_advance; [done|lia]).
  rewrite read_field_ok by (done || lia || rewrite get_len_remaining_advance; lia). rewrite advance_advance.
  rewrite read_field_ok; [done|apply wf_advance; [done|lia]|lia|rewrite get_len_remaining_advance; lia].
Qed.

(** * The set *)

(** All PDUs that can be parsed. *)
Inductive MmPdu : Type :=
| M_DAttachDetachGroupIdentity (x : DAttachDetachGroupIdentity)
| M_DAttachDetachGroupIdentityAcknowledgement (x : DAttachDetachGroupIdentityAcknowledgement)
| M_DLocationUpdateAccept (x : DLocationUpdateAccept)
| M_DLocationUpdateProceeding (x : DLocationUpdateProceeding)
| M_DMmStatus (x : DMmStatus)
| M_MmPduFunctionNotSupported (x : MmPduFunctionNotSupported)
| M_UAttachDetachGroupIdentity (x : UAttachDetachGroupIdentity)
| M_UAttachDetachGroupIdentityAcknowledgement (x : UAttachDetachGroupIdentityAcknowledgement)
| M_UItsiDetach (x : UItsiDetach)
| M_ULocationUpdateDemand (x : ULocationUpdateDemand)
| M_UMmStatus (x : UMmStatus)
| M_UTeiProvide (x : UTeiProvide).

Definition mm_to_bitbuf (p : MmPdu) : B unit :=
  match p with
  | M_DAttachDetachGroupIdentity x => d_attach_detach_group_identity_to_bitbuf x
  | M_DAttachDetachGroupIdentityAcknowledgement x => d_attach_detach_group_identity_acknowledgement_to_bitbuf x
  | M_DLocationUpdateAccept x => d_location_update_accept_to_bitbuf x
  | M_DLocationUpdateProceeding x => d_location_update_proceeding_to_bitbuf x
  | M_DMmStatus x => d_mm_status_to_bitbuf x
  | M_MmPduFunctionNotSupported x => mm_pdu_function_not_supported_to_bitbuf x
  | M_UAttachDetachGroupIdentity x => u_attach_detach_group_identity_to_bitbuf x
  | M_UAttachDetachGroupIdentityAcknowledgement x => u_attach_detach_group_identity_acknowledgement_to_bitbuf x
  | M_UItsiDetach x => u_itsi_detach_to_bitbuf x
  | M_ULocationUpdateDemand x => u_location_update_demand_to_bitbuf x
  | M_UMmStatus x => u_mm_status_to_bitbuf x
  | M_UTeiProvide x => u_tei_provide_to_bitbuf x
  end.

Definition mm_pdu_ok (p : MmPdu) : Prop :=
  match p with
  | M_DAttachDetachGroupIdentity x => d_attach_detach_group_identity_ok x
  | M_DAttachDetachGroupIdentityAcknowledgement x => d_attach_detach_group_identity_acknowledgement_ok x
  | M_DLocationUpdateAccept x => d_location_update_accept_ok x
  | M_DLocationUpdateProceeding x => d_location_update_proceeding_ok x
  | M_DMmStatus x => d_mm_status_ok x
  | M_MmPduFunctionNotSupported x => mm_pdu_function_not_supported_ok x
  | M_UAttachDetachGroupIdentity x => u_attach_detach_group_identity_ok x
  | M_UAttachDetachGroupIdentityAcknowledgement x => u_attach_detach_group_identity_acknowledgement_ok x
  | M_UItsiDetach x => u_itsi_detach_ok x
  | M_ULocationUpdateDemand x => u_location_update_demand_ok x
  | M_UMmStatus x => u_mm_status_ok x
  | M_UTeiProvide x => u_tei_provide_ok x
  end.

Definition as_mm {A} (C : A → MmPdu) (parse : B A) : B MmPdu := x ← parse; mret (C x).

(** The parser of the PDU's type. *)
Definition mm_parser (p : MmPdu) : B MmPdu :=
  match p with
  | M_DAttachDetachGroupIdentity _ => as_mm M_DAttachDetachGroupIdentity d_attach_detach_group_identity_from_bitbuf
  | M_DAttachDetachGroupIdentityAcknowledgement _ => as_mm M_DAttachDetachGroupIdentityAcknowledgement d_attach_detach_group_identity_acknowledgement_from_bitbuf
  | M_DLocationUpdateAccept _ => as_mm M_DLocationUpdateAccept d_location_update_accept_from_bitbuf
  | M_DLocationUpdateProceeding _ => as_mm M_DLocationUpdateProceeding d_location_update_proceeding_from_bitbuf
  | M_DMmStatus _ => as_mm M_DMmStatus d_mm_status_from_bitbuf
  | M_MmPduFunctionNotSupported _ => as_mm M_MmPduFunctionNotSupported mm_pdu_function_not_supported_from_bitbuf
  | M_UAttachDetachGroupIdentity _ => as_mm M_UAttachDetachGroupIdentity u_attach_detach_group_identity_from_bitbuf
  | M_UAttachDetachGroupIdentityAcknowledgement _ => as_mm M_UAttachDetachGroupIdentityAcknowledgement u_attach_detach_group_identity_acknowledgement_from_bitbuf
  | M_UItsiDetach _ => as_mm M_UItsiDetach u_itsi_detach_from_bitbuf
  | M_ULocationUpdateDemand _ => as_mm M_ULocationUpdateDemand u_location_update_demand_from_bitbuf
  | M_UMmStatus _ => as_mm M_UMmStatus u_mm_status_from_bitbuf
  | M_UTeiProvide _ => as_mm M_UTeiProvide u_tei_provide_from_bitbuf
  end.

Definition mm_uplink (p : MmPdu) : bool :=
  match p with M_UAttachDetachGroupIdentity _ | M_UAttachDetachGroupIdentityAcknowledgement _ | M_UItsiDetach _ | M_ULocationUpdateDemand _ | M_UMmStatus _ | M_UTeiProvide _ => true | _ => false end.

(** * Dispatch ([MmBs::rx_lmm_mle_unitdata_ind] of mm_bs.rs) *)

(** The PDU type selects the handler, which starts by parsing; the PDU types
    that are only logged give [None]. *)
Definition mm_receive : B (option MmPdu) :=
  bits ← peek_bits 4;
  match bits with
  | None => mret None
  | Some bits =>
      match mm_pdu_type_ul_try_from bits with
      | None => mret None
      | Some pdu_type =>
          match pdu_type with
          | MmPduTypeUl_UAttachDetachGroupIdentity => x ← u_attach_detach_group_identity_from_bitbuf; mret (Some (M_UAttachDetachGroupIdentity x))
          | MmPduTypeUl_UAttachDetachGroupIdentityAcknowledgement => x ← u_attach_detach_group_identity_acknowledgement_from_bitbuf; mret (Some (M_UAttachDetachGroupIdentityAcknowledgement x))
          | MmPduTypeUl_UItsiDetach => x ← u_itsi_detach_from_bitbuf; mret (Some (M_UItsiDetach x))
          | MmPduTypeUl_ULocationUpdateDemand => x ← u_location_update_demand_from_bitbuf; mret (Some (M_ULocationUpdateDemand x))
          | MmPduTypeUl_UMmStatus => x ← u_mm_status_from_bitbuf; mret (Some (M_UMmStatus x))
          | MmPduTypeUl_UTeiProvide => x ← u_tei_provide_from_bitbuf; mret (Some (M_UTeiProvide x))
          | MmPduTypeUl_UAuthentication | MmPduTypeUl_UCkChangeResult | MmPduTypeUl_UOtar | MmPduTypeUl_UInformationProvide
          | MmPduTypeUl_UDisableStatus | MmPduTypeUl_MmPduFunctionNotSupported => mret None
          end
      end
  end.

(** * Proofs *)

Create HintDb mm_pdus discriminated.
#[export] Hint Constants Opaque : mm_pdus.
#[export] Hint Resolve d_attach_detach_group_identity_roundtrip d_attach_detach_group_identity_acknowledgement_roundtrip
    d_location_update_accept_roundtrip d_location_update_proceeding_roundtrip d_mm_status_roundtrip
    mm_pdu_function_not_supported_roundtrip u_attach_detach_group_identity_roundtrip
    u_attach_detach_group_identity_acknowledgement_roundtrip u_itsi_detach_roundtrip
    u_location_update_demand_roundtrip u_tei_provide_roundtrip : mm_pdus.
#[export] Hint Resolve d_attach_detach_group_identity_safe d_attach_detach_group_identity_acknowledgement_safe
    d_location_update_accept_safe d_location_update_proceeding_safe mm_pdu_function_not_supported_safe
    u_attach_detach_group_identity_safe u_attach_detach_group_identity_acknowledgement_safe u_itsi_detach_safe
    u_location_update_demand_safe u_mm_status_safe u_tei_provide_safe : mm_pdus.

Lemma as_mm_reads_all {A} (C : A → MmPdu) (parse : B A) bs x : reads_all parse bs x → reads_all (as_mm C parse) bs (C x).
Proof. intros Hr bb Hwf Hrem. unfold as_mm. by erewrite bind_ok by (by apply Hr). Qed.

Lemma as_mm_roundtrips {A} (C : A → MmPdu) w (parse : B A) x : roundtrips w parse x →
  ∃ bs, writes w bs ∧ reads_all (as_mm C parse) bs (C x).
Proof. intros (bs & Hw & Hr). exists bs. split; [done|]. by apply as_mm_reads_all, reads_reads_all. Qed.

Lemma mm_pdu_roundtrips p : mm_pdu_ok p → ∃ bs, writes (mm_to_bitbuf p) bs ∧ reads_all (mm_parser p) bs p.
Proof.
  destruct p; cbn [mm_pdu_ok mm_to_bitbuf mm_parser]; intros Hok; try (apply as_mm_roundtrips; solve [eauto with mm_pdus]).
  destruct (u_mm_status_roundtrip _ Hok) as (bs & Hw & Hr). exists bs. split; [done|]. by apply as_mm_reads_all.
Qed.

Lemma mm_peek {A} raw (parse : B A) bb x bb' : checks_type 4 raw parse → wf bb → parse bb = Ok x bb' →
  peek_bits 4 bb = Ok (Some raw) bb.
Proof.
  intros Ht Hwf Heq. destruct (checks_type_prefix 4 raw parse bb x bb' ltac:(lia) Ht Hwf Heq) as [Hlen <-].
  by apply peek_bits_ok; [lia|..].
Qed.

(** The dispatch runs the parser of the type it sees. *)
Lemma mm_receive_uplink p bb p' bb' : mm_uplink p = true → wf bb → mm_parser p bb = Ok p' bb' →
  mm_receive bb = Ok (Some p') bb'.
Proof.
  intros Hp Hwf Heq. destruct p; try done; cbn [mm_parser] in Heq; unfold as_mm in Heq;
    apply bind_ok_inv in Heq as (y & bb1 & Hy & Heq); injection Heq as <- <-; unfold mm_receive;
    (erewrite bind_ok; [|eapply mm_peek; [eexists; reflexivity|exact Hwf|exact Hy]]);
    cbn [mm_pdu_type_ul_into_raw mm_pdu_type_ul_try_from]; by erewrite bind_ok by exact Hy.
Qed.

(** C38: Every MM PDU the code can parse, with fields in range, is read back by
    its parser from the bits its writer wrote, and an uplink one by the dispatch
    of MM as well: the first four bits lead to the handler that parses it. *)
Theorem mm_pdus_roundtrip p : mm_pdu_ok p → ∃ bs, writes (mm_to_bitbuf p) bs ∧
  ∀ bb, wf bb → remaining bb = bs → mm_parser p bb = Ok p (advance (length bs) bb) ∧
    (mm_uplink p = true → mm_receive bb = Ok (Some p) (advance (length bs) bb)).
Proof.
  intros Hok. destruct (mm_pdu_roundtrips p Hok) as (bs & Hw & Hr). exists bs. split; [done|]. intros bb Hwf Hrem.
  split; [by apply Hr|]. intros Hu. by apply (mm_receive_uplink p); [| |apply Hr].
Qed.

(** A demand with class of MS, energy economy and a group to attach. *)
Definition example_demand : MmPdu :=
  M_ULocationUpdateDemand (mkULocationUpdateDemand LocationUpdateType_ItsiAttach false true (Some 0x155)
    (Some (mkClassOfMs true true false true true false true false false true false true false false true false 3
      true false true false true)) (Some Eg2) (Some 0x1234) (Some 0x123456) None
    (Some (mkGroupIdentityLocationDemand 0 (Some [mkGiu (Some 4) None (Some 0x10001) None None])))
    None None None None)%Z.

Lemma mm_pdus_roundtrip_witness : mm_pdu_ok example_demand ∧ ∃ bs, writes (mm_to_bitbuf example_demand) bs ∧
  ∀ bb, wf bb → remaining bb = bs → mm_receive bb = Ok (Some example_demand) (advance (length bs) bb).
Proof.
  assert (mm_pdu_ok example_demand) as Hok.
  { unfold mm_pdu_ok, example_demand, u_location_update_demand_ok, class_of_ms_ok. cbn. unfold is_u. split_and!; try done; try lia;
    repeat constructor; cbn; unfold is_u; try done; try lia; by exists 0%Z. }
  split; [exact Hok|]. destruct (mm_pdus_roundtrip example_demand Hok) as (bs & H1 & H2). exists bs. split; [exact H1|].
  intros bb Hwf Hrem. exact (proj2 (H2 bb Hwf Hrem) eq_refl).
Defined.

(** Whatever bits a terminal sends, the dispatch and parsing of an MM PDU
    ends without a panic and with the cursor inside the buffer. *)
Theorem mm_receive_safe : parser_safe mm_receive.
Proof.
  apply safe_bind; [apply safe_peek_bits|]. intros [bits|]; [|apply safe_ret]. case_match; [|apply safe_ret].
  case_match; first [apply safe_ret | apply safe_bind; [auto with mm_pdus|intros; apply safe_ret]].
Qed.
