(* ===== verification/MmBs.v ===== *)
(** The MM entity of the base station (tetra-entities/src/mm/mm_bs.rs) with its
    recovery cache (components/recovery_cache.rs), the parts of the configuration
    it reads and the rules for what is told to the Brew bridge
    (net_brew/components/brew_routable.rs).

    A handler runs on [MmWorld]: the entity, the part of the shared state it
    reads and writes, and the message queue.  It either returns or panics.  What
    a call takes from its surroundings is an [MmEnv]: the clock, and the orders
    in which it meets the elements of a set of groups and the entries of the
    client map.  The telemetry sink is a clone of the registry's: both send into
    one channel, kept in the registry's state.  The cache file is an argument of
    the operations that read or write it; its JSON codec and the file system are
    parameters. *)
From S2P Require Import Prelude Bits Core BitBuffer BitBufferSpec BitCodec BitBufferThms FieldCodec TypedFieldsSpec PduCodec TdmaTime.
From S2P Require Import SsiRanges Subscribers MmClients MmEnums MmPdus MmPdusSpec TxReceipt MacDl Saps.

(** * Configuration *)

Inductive WhitelistMode : Type := WhitelistAuto | WhitelistOpen | WhitelistEnforce.

Record CfgSecurity : Type := mkCfgSecurity {
  cs_issi_whitelist : list Z;
  cs_whitelist_mode : WhitelistMode;
  cs_honour_unauthenticated_detach : bool;
  cs_max_registered_clients : nat;
  cs_registration_rate_limit_per_min : Z
}.

Definition allows (sec : CfgSecurity) (issi : Z) (override_list : option (list Z)) : bool :=
  let list := default (cs_issi_whitelist sec) override_list in
  match cs_whitelist_mode sec with
  | WhitelistOpen => true
  | WhitelistAuto => bool_decide (list = []) || bool_decide (issi ∈ list)
  | WhitelistEnforce => bool_decide (issi ∈ list)
  end.

Definition is_issi_allowed (sec : CfgSecurity) (issi : Z) : bool := allows sec issi None.

(** The fields of [CfgRecovery] that MM reads. *)
Record CfgRecovery : Type := mkCfgRecovery {
  cr_issi_allowlist : list Z;
  cr_max_replay_attempts : Z;
  cr_replay_per_frame : Z;
  cr_debounce_secs : Z;
  cr_max_cached_issis : nat;
  cr_reactive_enabled : bool;
  cr_reactive_cooldown_secs : Z
}.

(** [apply_recovery_patch] on those fields. *)
Definition clamp (x lo hi : Z) : Z := Z.max lo (Z.min x hi).
Definition apply_recovery_patch (dto : CfgRecovery) : CfgRecovery :=
  mkCfgRecovery (cr_issi_allowlist dto) (clamp (cr_max_replay_attempts dto) 1 500) (clamp (cr_replay_per_frame dto) 1 18)
    (clamp (cr_debounce_secs dto) 1 300) (Z.to_nat (clamp (Z.of_nat (cr_max_cached_issis dto)) 1 65535))
    (cr_reactive_enabled dto) (clamp (cr_reactive_cooldown_secs dto) 2 120).

Record CfgBrew : Type := mkCfgBrew {
  cbr_host : string;
  cbr_whitelisted_ssis : option (list Z);
  cbr_pbx_gateway_issis : option (list Z)
}.

Record MmConfig : Type := mkMmConfig {
  mc_security : CfgSecurity;
  mc_recovery : CfgRecovery;
  mc_brew : option CfgBrew;
  mc_local_ssi_ranges : list SsiRange;
  mc_periodic_registration_secs : Z;
  mc_dgna_use_ss_facility : bool
}.

(** * What the Brew bridge is told *)

Definition is_tetrapack (config : MmConfig) : bool :=
  match mc_brew config with Some b => bool_decide (cbr_host b = "core.tetrapack.online"%string) | None => false end.

Definition is_pbx_gateway_issi (config : MmConfig) (issi : Z) : bool :=
  match mc_brew config ≫= cbr_pbx_gateway_issis with Some allowed => bool_decide (issi ∈ allowed) | None => false end.

Definition is_brew_gssi_routable (config : MmConfig) (ssi : Z) : bool :=
  match mc_brew config with
  | None => false
  | Some b =>
      if contains (mc_local_ssi_ranges config) ssi then false
      else match cbr_whitelisted_ssis b with Some whitelist => bool_decide (ssi ∈ whitelist) | None => true end
  end.

Definition is_brew_issi_routable (config : MmConfig) (issi : Z) : bool :=
  match mc_brew config with
  | None => false
  | Some _ =>
      if is_tetrapack config then
        (((1000000 <=? issi) && (issi <=? 9999999)) || (issi <? 1000000))%Z || is_pbx_gateway_issi config issi
      else true
  end.

(** * Recovery cache *)

Definition CACHE_VERSION : Z := 1.

Record TerminalRecord : Type := mkRecord {
  tr_issi : Z;
  tr_groups : list Z;
  tr_dgna_groups : list DgnaGroup;
  tr_energy_saving_mode : Z
}.

Record CacheFile : Type := mkCacheFile { cf_version : Z; cf_terminals : list TerminalRecord }.

(** The path is left out. *)
Record RecoveryCache : Type := mkCache { rc_dirty : bool; rc_last_flush : Z; rc_debounce : Z }.

Definition cache_new (now debounce : Z) : RecoveryCache := mkCache false now debounce.
Definition mark_dirty (c : RecoveryCache) : RecoveryCache := mkCache true (rc_last_flush c) (rc_debounce c).

Section cache_file.
(** The text of the file, [serde_json::from_str] and
    [serde_json::to_string_pretty]. *)
Context {Text : Type} (from_str : Text → option CacheFile) (to_string_pretty : CacheFile → option Text).

(** [file] is what [read_to_string] gives, if anything. *)
Definition cache_load (file : option Text) : list TerminalRecord :=
  match file with
  | None => []
  | Some text =>
      match from_str text with
      | Some cf => if (cf_version cf =? CACHE_VERSION)%Z then cf_terminals cf else []
      | None => []
      end
  end.

(** [write_ok]: whether [write_atomic] succeeds, which replaces the file whole. *)
Definition flush_now (now : Z) (write_ok : bool) (records : list TerminalRecord) (c : RecoveryCache) (file : option Text) :
    RecoveryCache * option Text :=
  match to_string_pretty (mkCacheFile CACHE_VERSION records) with
  | None => (c, file)
  | Some text =>
      if write_ok then (mkCache false now (rc_debounce c), Some text)
      else (mkCache (rc_dirty c) now (rc_debounce c), file)
  end.

Definition maybe_flush (now : Z) (write_ok : bool) (snapshot : list TerminalRecord) (c : RecoveryCache)
    (file : option Text) : RecoveryCache * option Text :=
  if negb (rc_dirty c) || (duration_since now (rc_last_flush c) <? rc_debounce c)%Z then (c, file)
  else flush_now now write_ok snapshot c file.
End cache_file.

(** * State *)

Record MmBs : Type := mkMmBs {
  mm_config : MmConfig;
  mm_client_mgr : MmClientMgr;
  mm_recovery : option RecoveryCache;
  mm_recovery_pending : list Z;
  mm_recovery_attempts : gmap Z Z;
  mm_recovery_last_frame : option Z;
  mm_reactive_recovery_cooldown : gmap Z Z
}.

(** The part of the shared [StackState] that MM reads and writes. *)
Record StackState : Type := mkStackState {
  st_subscribers : SubscriberRegistry;
  st_issi_whitelist_override : option (list Z);
  st_active_call_ts : gmap Z (Z * Z * Z);
  st_ee_monitoring_windows : gmap Z (Z * Z * Z)
}.

Record MmWorld : Type := mkMmWorld { mw_mm : MmBs; mw_state : StackState; mw_queue : list SapMsg }.

Record MmEnv : Type := mkMmEnv {
  env_now : Z;
  env_groups : gset Z → list Z;
  env_clients : gmap Z MmClientProperties → list (Z * MmClientProperties)
}.

(** The orders are orders of the elements. *)
Record env_ok (env : MmEnv) : Prop := {
  eo_groups gs : env_groups env gs ≡ₚ elements gs;
  eo_clients m : env_clients env m ≡ₚ map_to_list m
}.

Definition REACTIVE_RECOVERY_COOLDOWN_CAP : nat := 4096.

Abbreviation MM := (M MmWorld Empty_set).

Definition modify_mm (f : MmBs → MmBs) : MM unit := λ w, Ok tt (mkMmWorld (f (mw_mm w)) (mw_state w) (mw_queue w)).
Definition modify_state (f : StackState → StackState) : MM unit := λ w, Ok tt (mkMmWorld (mw_mm w) (f (mw_state w)) (mw_queue w)).
Definition push_back (m : SapMsg) : MM unit := λ w, Ok tt (mkMmWorld (mw_mm w) (mw_state w) (mw_queue w ++ [m])).
Definition config : MM MmConfig := gets (λ w, mm_config (mw_mm w)).
Definition client_mgr : MM MmClientMgr := gets (λ w, mm_client_mgr (mw_mm w)).
Definition subscribers : MM SubscriberRegistry := gets (λ w, st_subscribers (mw_state w)).

Definition set_client_mgr (c : MmClientMgr) (s : MmBs) : MmBs :=
  mkMmBs (mm_config s) c (mm_recovery s) (mm_recovery_pending s) (mm_recovery_attempts s) (mm_recovery_last_frame s)
    (mm_reactive_recovery_cooldown s).
Definition set_recovery (c : option RecoveryCache) (s : MmBs) : MmBs :=
  mkMmBs (mm_config s) (mm_client_mgr s) c (mm_recovery_pending s) (mm_recovery_attempts s) (mm_recovery_last_frame s)
    (mm_reactive_recovery_cooldown s).
Definition set_replay (pending : list Z) (attempts : gmap Z Z) (s : MmBs) : MmBs :=
  mkMmBs (mm_config s) (mm_client_mgr s) (mm_recovery s) pending attempts (mm_recovery_last_frame s)
    (mm_reactive_recovery_cooldown s).
Definition set_last_frame (frame : option Z) (s : MmBs) : MmBs :=
  mkMmBs (mm_config s) (mm_client_mgr s) (mm_recovery s) (mm_recovery_pending s) (mm_recovery_attempts s) frame
    (mm_reactive_recovery_cooldown s).
Definition set_cooldown (m : gmap Z Z) (s : MmBs) : MmBs :=
  mkMmBs (mm_config s) (mm_client_mgr s) (mm_recovery s) (mm_recovery_pending s) (mm_recovery_attempts s)
    (mm_recovery_last_frame s) m.

(** An operation of the registry that returns a [Result]. *)
Definition try_clients {A} (op : R A) : MM (A + ClientMgrErr) := λ w,
  match op (mm_client_mgr (mw_mm w)) with
  | Ok a c => Ok (inl a) (mkMmWorld (set_client_mgr c (mw_mm w)) (mw_state w) (mw_queue w))
  | Err e c => Ok (inr e) (mkMmWorld (set_client_mgr c (mw_mm w)) (mw_state w) (mw_queue w))
  | Panic => Panic
  end.
(** An operation that returns a value, and one that returns none. *)
Definition run_clients {A} (op : MmClientMgr → A * MmClientMgr) : MM A := λ w,
  let r := op (mm_client_mgr (mw_mm w)) in
  Ok r.1 (mkMmWorld (set_client_mgr r.2 (mw_mm w)) (mw_state w) (mw_queue w)).
Definition modify_clients (f : MmClientMgr → MmClientMgr) : MM unit := run_clients (λ c, (tt, f c)).
Definition modify_subscribers (f : SubscriberRegistry → SubscriberRegistry) : MM unit :=
  modify_state (λ s, mkStackState (f (st_subscribers s)) (st_issi_whitelist_override s) (st_active_call_ts s)
    (st_ee_monitoring_windows s)).
(** [if let Some(sink) = &self.telemetry { sink.send(e) }] *)
Definition emit (e : TelemetryEvent) : MM unit := modify_clients (send_event e).

(** [for x in l { body }] *)
Fixpoint for_each {A} (l : list A) (body : A → MM unit) : MM unit :=
  match l with
  | [] => mret tt
  | x :: l => body x;; for_each l body
  end.

(** [MmBs::new]. *)
Definition mm_bs_new (config : MmConfig) (sink : option (list TelemetryEvent)) : MmBs :=
  mkMmBs config (set_limits (cs_max_registered_clients (mc_security config))
    (cs_registration_rate_limit_per_min (mc_security config)) (clients_new sink)) None [] ∅ None ∅.

(** * Messages to the terminals *)

Definition lmm_req (sdu : BitBuffer) (handle : Z) (address : TetraAddress) (service : Layer2Service) : SapMsg :=
  mkSapMsg LmmSap Mm Mle (SmLmmMleUnitdataReq (mkLmmReq sdu handle address service false false false false None)).

(** [let mut sdu = BitBuffer::new_autoexpand(n); pdu.to_bitbuf(&mut sdu).unwrap(); sdu.seek(0);]
    and the push of the request. *)
Definition send_pdu (n : nat) (to_bitbuf : B unit) (handle issi : Z) : MM unit :=
  sdu ← unwrap (build (new_autoexpand n) (to_bitbuf;; seek 0));
  push_back (lmm_req sdu handle (Core.issi issi) L2Acknowledged).

(** The same where an error of [to_bitbuf] is not fatal. *)
Definition send_pdu_if_ok (n : nat) (to_bitbuf : B unit) (handle issi : Z) : MM unit :=
  match to_bitbuf (new_autoexpand n) with
  | Ok _ sdu => sdu ← unwrap (build sdu (seek 0)); push_back (lmm_req sdu handle (Core.issi issi) L2Acknowledged)
  | Err _ _ => mret tt
  | Panic => panic
  end.

Definition send_d_location_update_command (issi handle : Z) : MM unit :=
  send_pdu 16 (d_location_update_command_to_bitbuf (mkDLocationUpdateCommand true false None None None None)) handle issi.

Definition send_d_location_update_reject_cause (issi handle : Z) (location_update_type : LocationUpdateType)
    (address_extension : option Z) (reject_cause : RejectCause) : MM unit :=
  send_pdu 16 (d_location_update_reject_to_bitbuf (mkDLocationUpdateReject location_update_type
    (reject_cause_into_raw reject_cause) false None address_extension None None)) handle issi.

Definition send_d_location_update_reject_migration (issi handle : Z) (location_update_type : LocationUpdateType)
    (address_extension : option Z) : MM unit :=
  send_d_location_update_reject_cause issi handle location_update_type address_extension RejectCause_MigrationNotSupported.

Definition send_d_mm_status_energy_saving (issi handle : Z) (esi : EnergySavingInformation) : MM unit :=
  send_pdu 32 (d_mm_status_to_bitbuf (mkDMmStatus StatusDownlink_ChangeOfEnergySavingModeResponse (Some esi))) handle issi.

Definition send_d_attach_detach_ack_reject (issi handle : Z) : MM unit :=
  send_pdu 16 (d_attach_detach_group_identity_acknowledgement_to_bitbuf
    (mkDAttachDetachGroupIdentityAcknowledgement 1 false None None None)) handle issi.

Definition attached_gid (class_of_usage gssi : Z) : GroupIdentityDownlink :=
  mkGid (Some (mkGia 0 class_of_usage)) None (Some gssi) None None.
Definition detached_gid (detachment gssi : Z) : GroupIdentityDownlink :=
  mkGid None (Some detachment) (Some gssi) None None.

Definition send_d_attach_detach_ack (issi handle : Z) (groups : list Z) : MM unit :=
  let gid := attached_gid 4 <$> groups in
  send_pdu_if_ok 32 (d_attach_detach_group_identity_acknowledgement_to_bitbuf
    (mkDAttachDetachGroupIdentityAcknowledgement 0 false None (if decide (gid = []) then None else Some gid) None))
    handle issi.

(** [make_ul_mm_pdu_function_not_supported] and the push of its message. *)
Definition make_ul_mm_pdu_function_not_supported (handle : Z) (pdu_type : MmPduTypeUl) (pdu_subtype : option (nat * Z))
    (address : TetraAddress) : MM SapMsg :=
  sdu ← unwrap (build (new_autoexpand 14) (mm_pdu_function_not_supported_to_bitbuf
    (mkMmPduFunctionNotSupported (mm_pdu_type_ul_into_raw pdu_type) pdu_subtype);; seek 0));
  mret (lmm_req sdu handle address L2Todo).

(** * Helpers of the entity *)

Section entity.
Context (env : MmEnv).

Definition recovery_mark_dirty : MM unit := modify_mm (λ s, set_recovery (mark_dirty <$> mm_recovery s) s).

Definition recovery_confirm (issi : Z) : MM unit :=
  modify_mm (λ s, set_cooldown (delete issi (mm_reactive_recovery_cooldown s)) s);;
  modify_mm (λ s, match mm_recovery s with
    | None => s
    | Some _ => set_replay (filter (λ i, i ≠ issi) (mm_recovery_pending s)) (delete issi (mm_recovery_attempts s)) s
    end).

(** The loop of [drive_recovery_replay]; [n] turns are left. *)
Fixpoint replay_loop (n : nat) : MM unit :=
  match n with
  | O => mret tt
  | S n =>
      s ← gets mw_mm;
      match mm_recovery_pending s with
      | [] => mret tt
      | issi :: pending =>
          modify_mm (λ s, set_replay pending (mm_recovery_attempts s) s);;
          match mm_recovery_attempts s !! issi with
          | None => mret tt
          | Some attempts =>
              if (cr_max_replay_attempts (mc_recovery (mm_config s)) <=? attempts)%Z then
                modify_mm (λ s, set_replay (mm_recovery_pending s) (delete issi (mm_recovery_attempts s)) s)
              else
                send_d_location_update_command issi 0;;
                modify_mm (λ s, set_replay (mm_recovery_pending s ++ [issi])
                  (<[issi := wrap 32 (attempts + 1)]> (mm_recovery_attempts s)) s)
          end;;
          replay_loop n
      end
  end.

Definition drive_recovery_replay (ts : TdmaTime) : MM unit :=
  s ← gets mw_mm;
  if negb (is_some (mm_recovery s)) || bool_decide (mm_recovery_pending s = []) then mret tt
  else
    let frame := Z.quot (to_int ts) 4 in
    if bool_decide (mm_recovery_last_frame s = Some frame) then mret tt
    else
      modify_mm (set_last_frame (Some frame));;
      replay_loop (min (Z.to_nat (cr_replay_per_frame (mc_recovery (mm_config s)))) (length (mm_recovery_pending s))).

Definition maybe_reactive_recovery (issi : Z) : MM unit :=
  s ← gets mw_mm;
  if client_is_known issi (mm_client_mgr s) then mret tt
  else if is_some (mm_recovery_attempts s !! issi) then mret tt
  else
    let cfg := mm_config s in
    let rec := mc_recovery cfg in
    if negb (cr_reactive_enabled rec) then mret tt
    else
      let permitted := is_issi_allowed (mc_security cfg) issi &&
        (bool_decide (cr_issi_allowlist rec = []) || bool_decide (issi ∈ cr_issi_allowlist rec)) in
      if negb permitted then mret tt
      else
        let cooldown := (cr_reactive_cooldown_secs rec * SECOND)%Z in
        let now := env_now env in
        if match mm_reactive_recovery_cooldown s !! issi with
           | Some last => (duration_since now last <? cooldown)%Z | None => false end then mret tt
        else
          (if REACTIVE_RECOVERY_COOLDOWN_CAP <=? size (mm_reactive_recovery_cooldown s) then
             modify_mm (λ s, set_cooldown
               (filter (λ p : Z * Z, (duration_since now p.2 < cooldown)%Z) (mm_reactive_recovery_cooldown s)) s)
           else mret tt);;
          modify_mm (λ s, set_cooldown (<[issi := now]> (mm_reactive_recovery_cooldown s)) s);;
          send_d_location_update_command issi 0.

Definition subscriber_update (dest : TetraEntity) (issi : Z) (groups : list Z) (action : BrewSubscriberAction) : SapMsg :=
  mkSapMsg ControlSap Mm dest (SmMmSubscriberUpdate (mkSubscriberUpdate issi groups action)).

Definition emit_subscriber_update (issi : Z) (groups : list Z) (action : BrewSubscriberAction) : MM unit :=
  cfg ← config;
  (if is_some (mc_brew cfg) then
     let brew_groups := filter (λ gssi, is_brew_gssi_routable cfg gssi = true) groups in
     let should_send := match action with
       | BrewSubscriberAction_Register | BrewSubscriberAction_Deregister => is_brew_issi_routable cfg issi
       | BrewSubscriberAction_Affiliate | BrewSubscriberAction_Deaffiliate => negb (bool_decide (brew_groups = []))
       end in
     if should_send then push_back (subscriber_update Brew issi brew_groups action) else mret tt
   else mret tt);;
  push_back (subscriber_update Cmce issi groups action).

Definition issi_allowed (issi : Z) : MM bool :=
  w ← get; mret (allows (mc_security (mm_config (mw_mm w))) issi (st_issi_whitelist_override (mw_state w))).

Definition teardown_authorized (issi handle : Z) : MM bool :=
  s ← gets mw_mm;
  mret (if negb (cs_honour_unauthenticated_detach (mc_security (mm_config s))) then false
        else is_registered_on_handle issi handle (mm_client_mgr s)).

Definition call_protected_issis : MM (gset Z) := gets (λ w, dom (st_active_call_ts (mw_state w))).

(** [self.client_mgr.get_client_by_issi(issi).map(|c| c.groups..collect()).unwrap_or_default()] *)
Definition client_groups (issi : Z) : MM (list Z) :=
  c ← client_mgr; mret (match get_client_by_issi issi c with Some p => env_groups env (groups p) | None => [] end).

Definition emit_group_snapshots (issi : Z) : MM unit :=
  r ← subscribers;
  emit (MsGroupsSnapshot issi (attached_groups_of issi r));;
  emit (MsGroupCatalogSnapshot issi (device_groups_of issi r)).

Definition emit_dgna_status (issi gssi : Z) (attach accepted : bool) : MM unit :=
  emit (DgnaStatus issi gssi attach accepted).

Definition publish_monitoring_windows : MM unit :=
  c ← client_mgr;
  modify_state (λ s, mkStackState (st_subscribers s) (st_issi_whitelist_override s) (st_active_call_ts s)
    (foldl (λ m '(issi, frame, mframe, cycle_len), <[issi := (frame, mframe, cycle_len)]> m) ∅
      (ee_monitoring_windows (snd <$> env_clients env (clients c))))).

(** [deaffiliate] every group of a list. *)
Definition deaffiliate_all (issi : Z) (gs : list Z) : MM unit :=
  modify_subscribers (λ r, foldl (λ r gssi, deaffiliate issi gssi r) r gs).
Definition affiliate_all (issi : Z) (gs : list Z) : MM unit :=
  modify_subscribers (λ r, foldl (λ r gssi, affiliate issi gssi r) r gs).

(** * Received PDUs *)

(** [T::from_bitbuf(&mut prim.sdu)], an error being logged. *)
Definition parse {A} (from_bitbuf : B A) (sdu : BitBuffer) : MM (option A) :=
  match from_bitbuf sdu with Ok a _ => mret (Some a) | Err _ _ => mret None | Panic => panic end.

(** The teardown shared by U-ITSI-DETACH and a migrating location update. *)
Definition release_client (issi : Z) : MM unit :=
  detached ← run_clients (remove_client issi);
  match detached with
  | Some client =>
      modify_subscribers (deregister issi);;
      (if decide (groups client = ∅) then mret tt
       else emit_subscriber_update issi (env_groups env (groups client)) BrewSubscriberAction_Deaffiliate);;
      emit_subscriber_update issi [] BrewSubscriberAction_Deregister
  | None => mret tt
  end.

Definition rx_u_itsi_detach (prim : LmmMleUnitdataInd) : MM unit :=
  o ← parse u_itsi_detach_from_bitbuf (lmmi_sdu prim);
  match o with
  | None => mret tt
  | Some _ =>
      let issi := ssi (lmmi_received_address prim) in
      allowed ← issi_allowed issi;
      if negb allowed then mret tt
      else
        authorized ← teardown_authorized issi (lmmi_handle prim);
        if negb authorized then mret tt
        else release_client issi;; recovery_mark_dirty
  end.

(** One group of a request; [aff] and [deaff] collect the changed groups. *)
Definition attach_detach_group (issi : Z) (giu : GroupIdentityUplink)
    (acc : list GroupIdentityDownlink * list Z * list Z) : MM (list GroupIdentityDownlink * list Z * list Z) :=
  let '(accepted, aff, deaff) := acc in
  match giu_gssi giu with
  | None => mret acc
  | Some gssi =>
      if is_some (giu_vgssi giu) || is_some (giu_address_extension giu) then mret acc
      else match giu_detachment_uplink giu with
      | Some detachment =>
          r ← try_clients (client_group_attach issi gssi false);
          match r with
          | inl changed =>
              (if (changed : bool) then modify_subscribers (deaffiliate issi gssi) else mret tt);;
              mret (accepted ++ [detached_gid detachment gssi], aff, if (changed : bool) then deaff ++ [gssi] else deaff)
          | inr _ => mret acc
          end
      | None =>
          r ← try_clients (client_group_attach issi gssi true);
          match r with
          | inl changed =>
              (if (changed : bool) then modify_subscribers (affiliate issi gssi) else mret tt);;
              mret (accepted ++ [attached_gid (default 0%Z (giu_class_of_usage giu)) gssi],
                if (changed : bool) then aff ++ [gssi] else aff, deaff)
          | inr _ => mret acc
          end
      end
  end.

Fixpoint attach_detach_loop (issi : Z) (giu_vec : list GroupIdentityUplink)
    (acc : list GroupIdentityDownlink * list Z * list Z) : MM (list GroupIdentityDownlink * list Z * list Z) :=
  match giu_vec with
  | [] => mret acc
  | giu :: giu_vec => acc ← attach_detach_group issi giu acc; attach_detach_loop issi giu_vec acc
  end.

Definition try_attach_detach_groups (issi : Z) (giu_vec : list GroupIdentityUplink) : MM (list GroupIdentityDownlink) :=
  '(accepted, aff, deaff) ← attach_detach_loop issi giu_vec ([], [], []);
  (if decide (aff = []) then mret tt else emit_subscriber_update issi aff BrewSubscriberAction_Affiliate);;
  (if decide (deaff = []) then mret tt else emit_subscriber_update issi deaff BrewSubscriberAction_Deaffiliate);;
  emit_group_snapshots issi;;
  mret accepted.

Definition is_migrating (t : LocationUpdateType) : bool :=
  match t with
  | LocationUpdateType_MigratingLocationUpdating | LocationUpdateType_ServiceRestorationMigratingLocationUpdating => true
  | _ => false
  end.

Definition feature_check_u_location_update_demand (pdu : ULocationUpdateDemand) : bool :=
  negb match u_location_update_demand_location_update_type pdu with
    | LocationUpdateType_MigratingLocationUpdating | LocationUpdateType_DisabledMsUpdating => true | _ => false end &&
  negb (u_location_update_demand_request_to_append_la pdu) &&
  negb (u_location_update_demand_cipher_control pdu) &&
  negb (is_some (u_location_update_demand_ciphering_parameters pdu)).

Definition is_itsi_attach (t : LocationUpdateType) : bool :=
  match t with LocationUpdateType_ItsiAttach => true | _ => false end.

(** The stored groups are dropped ([client_detach_all_groups], the deaffiliations and
    their update), in both handlers that replace them; [false]: unknown terminal. *)
Definition drop_groups (issi : Z) : MM bool :=
  prior_groups ← client_groups issi;
  r ← try_clients (client_detach_all_groups issi);
  match r with
  | inl _ =>
      (if decide (prior_groups = []) then mret tt
       else deaffiliate_all issi prior_groups;; emit_subscriber_update issi prior_groups BrewSubscriberAction_Deaffiliate);;
      mret true
  | inr _ => mret false
  end.

(** The end of [rx_u_location_update_demand]: groups, class of MS and the answer. *)
Definition demand_groups (issi : Z) (gild : GroupIdentityLocationDemand) : MM GroupIdentityLocationAccept :=
  (if (group_identity_location_demand_group_identity_attach_detach_mode gild =? 1)%Z then
     _ ← drop_groups issi; mret tt
   else mret tt);;
  accepted_groups ← match group_identity_location_demand_group_identity_uplink gild with
    | Some giu => accepted ← try_attach_detach_groups issi giu; mret (Some accepted)
    | None => mret None
    end;
  mret (mkGroupIdentityLocationAccept 0 accepted_groups).

(** Stored groups are affiliated again when a known terminal reports none. *)
Definition reaffiliate_stored (issi : Z) : MM unit :=
  stored_groups ← client_groups issi;
  if decide (stored_groups = []) then mret tt
  else
    affiliate_all issi stored_groups;;
    emit_subscriber_update issi stored_groups BrewSubscriberAction_Affiliate;;
    emit_group_snapshots issi.

Definition accept_pdu (periodic_secs : Z) (issi : Z) (pdu : ULocationUpdateDemand) (esi : option EnergySavingInformation)
    (gila : option GroupIdentityLocationAccept) : DLocationUpdateAccept :=
  let update_type := u_location_update_demand_location_update_type pdu in
  let accept_type := if (0 <? periodic_secs)%Z && negb (is_itsi_attach update_type)
    then LocationUpdateType_PeriodicLocationUpdating else update_type in
  let scch_info := u_location_update_demand_class_of_ms pdu ≫= λ c,
    if clch_needed c || common_scch c then Some 1%Z else None in
  mkDLocationUpdateAccept accept_type (Some issi) None None esi scch_info None None gila None None None None None.

(** From the registration on; [esi] is the granted energy economy. *)
Definition complete_registration (issi handle : Z) (pdu : ULocationUpdateDemand) (esi : option EnergySavingInformation)
    (is_new : bool) : MM unit :=
  modify_clients (set_client_handle issi handle);;
  _ ← try_clients (set_client_energy_saving_mode issi (default StayAlive (esi_mode <$> esi)));
  _ ← try_clients (set_client_monitoring_window issi (esi ≫= esi_frame_number) (esi ≫= esi_multiframe_number));
  gila ← match u_location_update_demand_group_identity_location_demand pdu with
    | Some gild => gila ← demand_groups issi gild; mret (Some gila)
    | None => mret None
    end;
  let has_groups := is_some (u_location_update_demand_group_identity_location_demand pdu) in
  (if negb is_new && negb has_groups then reaffiliate_stored issi else mret tt);;
  _ ← try_clients (set_client_class_of_ms issi (u_location_update_demand_class_of_ms pdu));
  modify_clients (reset_registration_timer (env_now env) issi);;
  recovery_mark_dirty;;
  cfg ← config;
  send_pdu 34 (d_location_update_accept_to_bitbuf (accept_pdu (mc_periodic_registration_secs cfg) issi pdu esi gila))
    handle issi;;
  if is_new && negb (is_itsi_attach (u_location_update_demand_location_update_type pdu)) && negb has_groups
  then send_d_location_update_command issi handle else mret tt.

(** Registration or update of the client; [false] stops the handler. *)
Definition register_terminal (issi : Z) (pdu : ULocationUpdateDemand) (is_new : bool) : MM bool :=
  r ← subscribers;
  let was_dropped := negb is_new && negb (is_registered issi r) in
  (if negb is_new then modify_clients (reset_registration_timer (env_now env) issi) else mret tt);;
  let attaching := is_itsi_attach (u_location_update_demand_location_update_type pdu) in
  let needs_brew_register := is_new || (negb is_new && attaching) || was_dropped in
  ok ← (if is_new then
          r ← try_clients (try_register_client (env_now env) issi true);
          match r with inl _ => modify_subscribers (register issi);; mret true | inr _ => mret false end
        else
          r ← try_clients (set_client_state issi Attached);
          match r with inl _ => mret true | inr _ => mret false end);
  if negb ok then mret false
  else
    (if was_dropped then modify_subscribers (register issi);; emit (MsRegistration issi) else mret tt);;
    (if needs_brew_register then emit_subscriber_update issi [] BrewSubscriberAction_Register else mret tt);;
    mret true.

(** The eviction before a new terminal is registered. *)
Definition make_room : MM unit :=
  protected ← call_protected_issis;
  c ← client_mgr;
  evicted ← run_clients (enforce_client_cap (snd <$> env_clients env (clients c)) protected);
  for_each evicted (λ ssi,
    modify_subscribers (deregister ssi);; emit_subscriber_update ssi [] BrewSubscriberAction_Deregister).

(** Admission, from the energy economy on. *)
Definition admit_terminal (issi handle : Z) (pdu : ULocationUpdateDemand) : MM unit :=
  c ← client_mgr;
  let prior_esm := energy_saving_mode <$> get_client_by_issi issi c in
  let requested := match u_location_update_demand_energy_saving_mode pdu with
    | Some m => Some m | None => prior_esm end in
  let esi := grant_energy_saving issi <$> requested in
  let known := client_is_known issi c in
  (if known then mret tt else make_room);;
  c ← client_mgr;
  if negb known && at_capacity c then
    send_d_location_update_reject_cause issi handle (u_location_update_demand_location_update_type pdu)
      (u_location_update_demand_address_extension pdu) RejectCause_Congestion
  else
    recovery_confirm issi;;
    c ← client_mgr;
    let is_new := negb (client_is_known issi c) in
    go_on ← register_terminal issi pdu is_new;
    if negb go_on then mret tt else complete_registration issi handle pdu esi is_new.

Definition rx_u_location_update_demand (prim : LmmMleUnitdataInd) : MM unit :=
  o ← parse u_location_update_demand_from_bitbuf (lmmi_sdu prim);
  match o with
  | None => mret tt
  | Some pdu =>
      let issi := ssi (lmmi_received_address prim) in
      let handle := lmmi_handle prim in
      let update_type := u_location_update_demand_location_update_type pdu in
      let address_extension := u_location_update_demand_address_extension pdu in
      allowed ← issi_allowed issi;
      if negb allowed then
        send_d_location_update_reject_cause issi handle update_type address_extension RejectCause_ItsiAtsiUnknown
      else
        recovery_confirm issi;;
        if is_migrating update_type then
          authorized ← teardown_authorized issi handle;
          (if (authorized : bool) then release_client issi;; recovery_mark_dirty else mret tt);;
          send_d_location_update_reject_migration issi handle update_type address_extension
        else
          within_rate ← run_clients (allow_registration (env_now env) issi);
          if negb within_rate then mret tt
          else if negb (feature_check_u_location_update_demand pdu) then mret tt
          else admit_terminal issi handle pdu
  end.

Definition energy_request (pdu : UMmStatus) : EnergySavingMode :=
  match u_mm_status_status_uplink_dependent_information pdu with
  | Some dep_info =>
      let dep_len := default 0 (u_mm_status_status_uplink_dependent_information_len pdu) in
      if 3 <=? dep_len then default StayAlive (esm_try_from (Z.shiftr dep_info (Z.of_nat (dep_len - 3)))) else StayAlive
  | None => StayAlive
  end.

Definition rx_u_mm_status (prim : LmmMleUnitdataInd) : MM unit :=
  o ← parse u_mm_status_from_bitbuf (lmmi_sdu prim);
  match o with
  | None => mret tt
  | Some pdu =>
      let issi := ssi (lmmi_received_address prim) in
      match u_mm_status_status_uplink pdu with
      | StatusUplink_ChangeOfEnergySavingModeRequest =>
          let esi := grant_energy_saving issi (energy_request pdu) in
          _ ← try_clients (set_client_energy_saving_mode issi (esi_mode esi));
          _ ← try_clients (set_client_monitoring_window issi (esi_frame_number esi) (esi_multiframe_number esi));
          recovery_mark_dirty;;
          send_d_mm_status_energy_saving issi (lmmi_handle prim) esi
      | StatusUplink_ChangeOfEnergySavingModeResponse =>
          _ ← try_clients (set_client_energy_saving_mode issi (energy_request pdu));
          recovery_mark_dirty
      | _ =>
          msg ← make_ul_mm_pdu_function_not_supported (lmmi_handle prim) MmPduTypeUl_UMmStatus
            (Some (6, status_uplink_into_raw (u_mm_status_status_uplink pdu))) (lmmi_received_address prim);
          push_back msg
      end
  end.

Definition MAX_GROUPS_PER_ATTACH : nat := 12.

(** Attach/detach mode 1: the groups of a known terminal are dropped, an unknown
    terminal is registered; [false] stops the handler. *)
Definition replace_groups (issi handle : Z) : MM bool :=
  c ← client_mgr;
  if negb (client_is_known issi c) then
    r ← try_clients (try_register_client (env_now env) issi true);
    match r with
    | inl _ =>
        modify_subscribers (register issi);;
        emit_subscriber_update issi [] BrewSubscriberAction_Register;;
        mret true
    | inr _ => send_d_attach_detach_ack_reject issi handle;; mret false
    end
  else drop_groups issi.

Definition rx_u_attach_detach_group_identity (prim : LmmMleUnitdataInd) : MM unit :=
  let issi := ssi (lmmi_received_address prim) in
  let handle := lmmi_handle prim in
  o ← parse u_attach_detach_group_identity_from_bitbuf (lmmi_sdu prim);
  match o with
  | None => mret tt
  | Some pdu =>
      allowed ← issi_allowed issi;
      if negb allowed then send_d_attach_detach_ack_reject issi handle
      else match u_attach_detach_group_identity_group_identity_uplink pdu with
      | None => current_groups ← client_groups issi; send_d_attach_detach_ack issi handle current_groups
      | Some giu =>
          go_on ← (if u_attach_detach_group_identity_group_identity_attach_detach_mode pdu
                   then replace_groups issi handle else mret true);
          if negb go_on then mret tt
          else
            accepted_gid ← try_attach_detach_groups issi (take MAX_GROUPS_PER_ATTACH giu);
            recovery_mark_dirty;;
            send_pdu 32 (d_attach_detach_group_identity_acknowledgement_to_bitbuf
              (mkDAttachDetachGroupIdentityAcknowledgement 0 false None (Some accepted_gid) None)) handle issi
      end
  end.

Definition rx_u_attach_detach_group_identity_ack (prim : LmmMleUnitdataInd) : MM unit :=
  let issi := ssi (lmmi_received_address prim) in
  o ← parse u_attach_detach_group_identity_acknowledgement_from_bitbuf (lmmi_sdu prim);
  match o with
  | Some pdu =>
      match u_attach_detach_group_identity_acknowledgement_group_identity_uplink pdu with
      | Some gs => for_each gs (λ g, match giu_gssi g with
          | Some gssi => emit_dgna_status issi gssi (is_some (giu_class_of_usage g)) true
          | None => mret tt
          end)
      | None => emit_dgna_status issi 0 true true
      end
  | None => emit_dgna_status issi 0 true false
  end.

Definition rx_u_tei_provide (prim : LmmMleUnitdataInd) : MM unit :=
  o ← parse u_tei_provide_from_bitbuf (lmmi_sdu prim);
  match o with
  | None => mret tt
  | Some pdu => _ ← try_clients (set_client_tei (ssi (lmmi_received_address prim)) (u_tei_provide_tei pdu)); mret tt
  end.

Definition rx_lmm_mle_unitdata_ind (prim : LmmMleUnitdataInd) : MM unit :=
  '(bits, sdu) ← unwrap (exec (peek_bits 4) (lmmi_sdu prim));
  match (bits : option Z) ≫= mm_pdu_type_ul_try_from with
  | None => mret tt
  | Some pdu_type =>
      let prim := mkLmmInd sdu (lmmi_handle prim) (lmmi_received_address prim) in
      match pdu_type with
      | MmPduTypeUl_UItsiDetach => rx_u_itsi_detach prim
      | MmPduTypeUl_ULocationUpdateDemand => rx_u_location_update_demand prim
      | MmPduTypeUl_UMmStatus => rx_u_mm_status prim
      | MmPduTypeUl_UAttachDetachGroupIdentity => rx_u_attach_detach_group_identity prim
      | MmPduTypeUl_UAttachDetachGroupIdentityAcknowledgement => rx_u_attach_detach_group_identity_ack prim
      | MmPduTypeUl_UTeiProvide => rx_u_tei_provide prim
      | MmPduTypeUl_UAuthentication | MmPduTypeUl_UCkChangeResult | MmPduTypeUl_UOtar | MmPduTypeUl_UInformationProvide
      | MmPduTypeUl_UDisableStatus | MmPduTypeUl_MmPduFunctionNotSupported => mret tt
      end
  end.

(** * Dynamic group number assignment *)

(** [GroupIdentityAttachmentMode::try_from]. *)
Definition is_attachment_mode (x : Z) : bool := ((0 <=? x) && (x <=? 5))%Z.

Definition MAX_TETRA_SSI : Z := 16777215.
Definition DGNA_CLASS_OF_USAGE : Z := 4.

Definition send_d_attach_detach_group_identity (issi gssi : Z) (attach : bool) : MM unit :=
  let gid := if attach then attached_gid DGNA_CLASS_OF_USAGE gssi else detached_gid 0 gssi in
  let to_bitbuf := d_attach_detach_group_identity_to_bitbuf
    (mkDAttachDetachGroupIdentity false true false None None (Some [gid]) None) in
  match to_bitbuf (new_autoexpand 32) with
  | Ok _ sdu =>
      sdu ← unwrap (build sdu (seek 0));
      emit_dgna_status issi gssi attach true;;
      push_back (lmm_req sdu 0 (Core.issi issi) L2Acknowledged)
  | Err _ _ => mret tt
  | Panic => panic
  end.

Definition do_dgna (issi gssi : Z) (mnemonic : option string) (attachment_mode : Z) (attach : bool) : MM bool :=
  r ← subscribers;
  let is_dynamic := has_dgna_group issi gssi r in
  let is_attached := bool_decide (gssi ∈ attached_groups_of issi r) in
  let route_gssi_hint := if negb attach && is_attached then Some gssi else None in
  let reject := emit_dgna_status issi gssi attach false;; mret false in
  c ← client_mgr;
  if ((gssi =? 0) || (MAX_TETRA_SSI <? gssi))%Z then reject
  else if negb (client_is_known issi c) then reject
  else if attach && negb (is_attachment_mode attachment_mode) then reject
  else if negb attach && negb is_dynamic && negb is_attached then reject
  else
    r ← try_clients (client_group_attach issi gssi attach);
    match r with
    | inr _ => reject
    | inl _ =>
        (if attach then
           modify_subscribers (remember_dgna_group issi gssi mnemonic attachment_mode);;
           modify_subscribers (affiliate issi gssi);;
           emit_subscriber_update issi [gssi] BrewSubscriberAction_Affiliate
         else
           modify_subscribers (deaffiliate issi gssi);;
           (if is_dynamic then modify_subscribers (λ r, (forget_dgna_group issi gssi r).2) else mret tt);;
           emit_subscriber_update issi [gssi] BrewSubscriberAction_Deaffiliate);;
        emit_dgna_status issi gssi attach true;;
        cfg ← config;
        (if mc_dgna_use_ss_facility cfg then
           push_back (mkSapMsg ControlSap Mm Cmce
             (SmCmceSsDgnaAssign issi gssi mnemonic attachment_mode route_gssi_hint attach))
         else send_d_attach_detach_group_identity issi gssi attach);;
        recovery_mark_dirty;;
        emit_group_snapshots issi;;
        mret true
    end.

(** * Control messages *)

Definition rx_brew_reconnected : MM unit :=
  c ← client_mgr;
  for_each (all_known_issis (env_clients env (clients c))) (λ issi, send_d_location_update_command issi 0).

(** A kick: the terminal is told to register again and forgotten. *)
Definition rx_deregister (issi : Z) : MM unit :=
  send_d_location_update_command issi 0;;
  gs ← client_groups issi;
  (if decide (gs = []) then mret tt else emit_subscriber_update issi gs BrewSubscriberAction_Deaffiliate);;
  emit_subscriber_update issi [] BrewSubscriberAction_Deregister;;
  _ ← run_clients (remove_client issi);
  modify_subscribers (deregister issi);;
  recovery_mark_dirty.

Definition mm_rx_prim (message : SapMsg) : MM unit :=
  match sm_sap message with
  | LmmSap =>
      match sm_msg message with SmLmmMleUnitdataInd prim => rx_lmm_mle_unitdata_ind prim | _ => mret tt end
  | ControlSap =>
      match sm_msg message with
      | SmBrewReconnected => rx_brew_reconnected
      | SmMsRssiUpdate issi rssi_dbfs =>
          modify_clients (update_client_rssi (env_now env) issi rssi_dbfs);;
          maybe_reactive_recovery issi;;
          emit (MsRssi issi rssi_dbfs);;
          push_back (mkSapMsg ControlSap Mm Brew (SmMsRssiUpdate issi rssi_dbfs))
      | SmMmSubscriberUpdate update =>
          if bool_decide (msu_action update = BrewSubscriberAction_Deregister) then rx_deregister (msu_issi update)
          else mret tt
      | SmMmDgnaRequest issi gssi mnemonic attachment_mode attach =>
          _ ← do_dgna issi gssi mnemonic attachment_mode attach; mret tt
      | _ => mret tt
      end
  | _ => mret tt
  end.

(** * The tick *)

Definition T351_EE_WINDOW_WAIT_SECS : Z := 6.

(** An expired registration whose command was not answered. *)
Definition unanswered_command (issi interval_secs : Z) : MM unit :=
  send_d_location_update_command issi 0;;
  c ← client_mgr;
  let heard_on_air := heard_on_air_within (env_now env) issi (interval_secs * SECOND) c in
  r ← subscribers;
  (if is_registered issi r && negb heard_on_air then
     gs ← client_groups issi;
     (if decide (gs = []) then mret tt else emit_subscriber_update issi gs BrewSubscriberAction_Deaffiliate);;
     emit_subscriber_update issi [] BrewSubscriberAction_Deregister;;
     modify_subscribers (deregister issi);;
     emit (MsTimeoutDrop issi)
   else mret tt);;
  w ← get;
  let has_groups := match get_client_by_issi issi (mm_client_mgr (mw_mm w)) with Some p => negb (bool_decide (groups p = ∅)) | None => false end in
  let in_call := is_some (st_active_call_ts (mw_state w) !! issi) in
  if negb has_groups && negb in_call then
    _ ← run_clients (remove_client issi);
    modify_subscribers (deregister issi);;
    recovery_mark_dirty
  else
    modify_clients (reset_registration_timer (env_now env) issi);;
    recovery_mark_dirty.

Definition registration_expired_step (ts : TdmaTime) (interval_secs issi : Z) : MM unit :=
  s ← gets mw_mm;
  if is_some (mm_recovery_attempts s !! issi) then mret tt
  else if is_pending_command issi (mm_client_mgr s) then unanswered_command issi interval_secs
  else if should_send_t351_command_now (env_now env) issi ts interval_secs T351_EE_WINDOW_WAIT_SECS (mm_client_mgr s) then
    send_d_location_update_command issi 0;;
    modify_clients (set_pending_command (env_now env) issi 60)
  else mret tt.

(** What the control endpoint yields, as far as MM acts on it. *)
Inductive ControlCommand : Type :=
| CcDgna (issi gssi : Z) (mnemonic : option string) (attachment_mode : Z) (attach : bool)
| CcOther.

Definition run_command (cmd : ControlCommand) : MM unit :=
  match cmd with
  | CcDgna issi gssi mnemonic attachment_mode attach => _ ← do_dgna issi gssi mnemonic attachment_mode attach; mret tt
  | CcOther => mret tt
  end.

(** The records written to the cache. *)
Definition recovery_snapshot (w : MmWorld) : list TerminalRecord :=
  (λ '(issi, gs, esm), mkRecord issi (env_groups env gs) (dgna_groups_of issi (st_subscribers (mw_state w)))
     (esm_into_raw esm)) <$>
  snapshot_for_recovery (snd <$> env_clients env (clients (mm_client_mgr (mw_mm w)))).

Section file.
Context {Text : Type} (from_str : Text → option CacheFile) (to_string_pretty : CacheFile → option Text).

Definition recovery_maybe_flush (write_ok : bool) (file : option Text) : MM (option Text) :=
  w ← get;
  match mm_recovery (mw_mm w) with
  | None => mret file
  | Some cache =>
      let r := maybe_flush to_string_pretty (env_now env) write_ok (recovery_snapshot w) cache file in
      modify_mm (set_recovery (Some r.1));;
      mret r.2
  end.

(** [commands]: what the control endpoint yields.  The new contents of the cache
    file are returned. *)
Definition mm_tick_start (ts : TdmaTime) (commands : list ControlCommand) (write_ok : bool) (file : option Text) :
    MM (option Text) :=
  for_each commands run_command;;
  s ← gets mw_mm;
  let interval_secs := mc_periodic_registration_secs (mm_config s) in
  for_each (collect_expired_registrations (env_now env) interval_secs (env_clients env (clients (mm_client_mgr s))))
    (registration_expired_step ts interval_secs);;
  drive_recovery_replay ts;;
  file ← recovery_maybe_flush write_ok file;
  publish_monitoring_windows;;
  mret file.

(** One record of the cache. *)
Definition restore_record (rec : TerminalRecord) : MM unit :=
  s ← gets mw_mm;
  let cfg := mm_config s in
  let allowlist := cr_issi_allowlist (mc_recovery cfg) in
  if negb (is_issi_allowed (mc_security cfg) (tr_issi rec)) ||
     negb (bool_decide (allowlist = []) || bool_decide (tr_issi rec ∈ allowlist)) then mret tt
  else
    let esm := default StayAlive (esm_try_from (tr_energy_saving_mode rec)) in
    modify_clients (restore_client (env_now env) (tr_issi rec) (tr_groups rec) esm);;
    for_each (tr_dgna_groups rec) (λ g,
      if ((dg_gssi g =? 0) || (MAX_TETRA_SSI <? dg_gssi g))%Z then mret tt
      else if negb (is_attachment_mode (dg_attachment_mode g)) then mret tt
      else modify_subscribers (remember_dgna_group (tr_issi rec) (dg_gssi g) (dg_mnemonic g) (dg_attachment_mode g)));;
    modify_mm (λ s, set_replay (mm_recovery_pending s ++ [tr_issi rec]) (<[tr_issi rec := 0%Z]> (mm_recovery_attempts s)) s).

Definition init_recovery (file : option Text) : MM unit :=
  cfg ← config;
  let rec_cfg := mc_recovery cfg in
  let cache := cache_new (env_now env) (cr_debounce_secs rec_cfg * SECOND) in
  for_each (take (cr_max_cached_issis rec_cfg) (cache_load from_str file)) restore_record;;
  modify_mm (set_recovery (Some cache)).
End file.
End entity.

(** [set_config]. *)
Definition mm_set_config (config : MmConfig) : MM unit :=
  modify_mm (λ s, mkMmBs config
    (set_limits (cs_max_registered_clients (mc_security config)) (cs_registration_rate_limit_per_min (mc_security config))
      (mm_client_mgr s)) (mm_recovery s) (mm_recovery_pending s) (mm_recovery_attempts s) (mm_recovery_last_frame s)
    (mm_reactive_recovery_cooldown s)).
