(* ===== verification/MmBsSpec.v ===== *)
(** The MM entity: the invariant that ties the registry of terminals to the
    registry of subscribers the other entities read, what its
    parsers return and what the PDUs it sends hold. *)
From S2P Require Import Prelude Bits Core BitBuffer BitBufferSpec BitCodec BitBufferThms FieldCodec TypedFieldsSpec PduCodec TdmaTime.
From S2P Require Import SsiRanges Subscribers MmClients MmClientsSpec MmEnums MmPdus MmPdusSpec TxReceipt MacDl Saps MmBs.

(** * Terminals and subscribers *)

Abbreviation Clients := (gmap Z MmClientProperties).

Definition dgna_ok (g : Z) (d : DgnaGroup) : Prop :=
  dg_gssi d = g ∧ (1 ≤ g ≤ MAX_TETRA_SSI)%Z ∧ is_attachment_mode (dg_attachment_mode d) = true.

(** Every subscriber is a terminal MM knows, attached to groups the terminal
    holds; group numbers have 24 bits. *)
Record book_inv (cl : Clients) (r : SubscriberRegistry) : Prop := {
  bi_clients : map_Forall (λ i c, MmClients.issi c = i) cl;
  bi_registry : registry_ok r;
  bi_covered i s : sr_subscribers r !! i = Some s → ∃ c, cl !! i = Some c ∧ sub_attached_groups s ⊆ groups c;
  bi_groups i c g : cl !! i = Some c → g ∈ groups c → is_u 24 g;
  bi_dgna i gs : sr_dgna_groups r !! i = Some gs → map_Forall dgna_ok gs
}.

Lemma attached_groups_register i j r : attached_groups_of j (register i r) = if decide (i = j) then ∅ else attached_groups_of j r.
Proof.
  unfold attached_groups_of. rewrite subscribers_register. case_decide as E.
  - subst. by rewrite lookup_insert_eq.
  - by rewrite lookup_insert_ne.
Qed.

Lemma dgna_deregister i r : sr_dgna_groups (deregister i r) = sr_dgna_groups r.
Proof. unfold deregister. by destruct (_ !! i). Qed.

Lemma subscribers_affiliate i g r : sr_subscribers (affiliate i g r) =
  <[i := mkSubscriber (sub_issi (get_subscriber i r)) (attached_groups_of i r ∪ {[g]})]> (sr_subscribers r).
Proof. unfold affiliate. cbn. by rewrite get_subscriber_groups. Qed.

Lemma subscribers_deaffiliate i g r : sr_subscribers (deaffiliate i g r) =
  <[i := mkSubscriber (sub_issi (get_subscriber i r)) (attached_groups_of i r ∖ {[g]})]> (sr_subscribers r).
Proof. unfold deaffiliate. cbn. by rewrite get_subscriber_groups. Qed.

Section book.
Context (cl : Clients) (r : SubscriberRegistry) (Hb : book_inv cl r).

Lemma covered i c : cl !! i = Some c → attached_groups_of i r ⊆ groups c.
Proof.
  intros Hc. unfold attached_groups_of. destruct (sr_subscribers r !! i) as [s|] eqn:E; [|set_solver].
  destruct (bi_covered _ _ Hb i s E) as (c' & Hc' & Hs). by simplify_eq.
Qed.

Lemma unknown_unregistered i : cl !! i = None → sr_subscribers r !! i = None.
Proof. intros Hc. apply eq_None_not_Some. intros [s Hs]. destruct (bi_covered _ _ Hb i s Hs) as (c & ? & _). congruence. Qed.

(** A client replaced by one with other groups, and the registry with it. *)
Lemma book_set i c' r' : registry_ok r' → (∀ j, i ≠ j → sr_subscribers r' !! j = sr_subscribers r !! j) →
  (∀ j gs, sr_dgna_groups r' !! j = Some gs → map_Forall dgna_ok gs) →
  MmClients.issi c' = i → attached_groups_of i r' ⊆ groups c' → (∀ g, g ∈ groups c' → is_u 24 g) →
  book_inv (<[i := c']> cl) r'.
Proof.
  intros Hr Hother Hd Hi Hg Hu. split; [|done| | |done].
  - intros j c [[<- <-]|[? Hc]]%lookup_insert_Some; [done|by apply (bi_clients _ _ Hb)].
  - intros j s Hs. destruct (decide (i = j)) as [<-|Hne].
    + rewrite lookup_insert_eq. eexists. split; [done|]. unfold attached_groups_of in Hg. by rewrite Hs in Hg.
    + rewrite lookup_insert_ne by done. apply (bi_covered _ _ Hb). by rewrite <- Hother.
  - intros j c g [[<- <-]|[? Hc]]%lookup_insert_Some Hin; [by apply Hu|by eapply (bi_groups _ _ Hb)].
Qed.

Lemma book_registry r' : registry_ok r' → (∀ j s, sr_subscribers r' !! j = Some s → ∃ c, cl !! j = Some c ∧ sub_attached_groups s ⊆ groups c) →
  sr_dgna_groups r' = sr_dgna_groups r → book_inv cl r'.
Proof. intros Hr Hc Hd. split; [apply Hb|done|done|apply Hb|]. rewrite Hd. apply Hb. Qed.

Lemma book_register_known i c : cl !! i = Some c → book_inv cl (register i r).
Proof.
  intros Hc. apply book_registry; [apply register_ok, Hb| |exact (dgna_deregister i r)].
  intros j s. rewrite subscribers_register. intros [[<- <-]|[? Hs]]%lookup_insert_Some; [set_solver|by apply (bi_covered _ _ Hb)].
Qed.

Lemma book_deregister i : book_inv cl (deregister i r).
Proof.
  apply book_registry; [apply deregister_ok, Hb| |apply dgna_deregister].
  intros j s. rewrite subscribers_deregister. intros [? Hs]%lookup_delete_Some. by apply (bi_covered _ _ Hb).
Qed.

Lemma book_register_new i c : MmClients.issi c = i → groups c = ∅ → book_inv (<[i := c]> (delete i cl)) (register i r).
Proof.
  intros Hi Hg. rewrite insert_delete_eq. apply book_set; [apply register_ok, Hb|..|done| |].
  - intros j Hne. by rewrite subscribers_register, lookup_insert_ne.
  - unfold register. cbn [sr_dgna_groups]. rewrite dgna_deregister. apply Hb.
  - rewrite attached_groups_register, decide_True by done. set_solver.
  - rewrite Hg. set_solver.
Qed.

Lemma book_remove i : book_inv (delete i cl) (deregister i r).
Proof.
  split.
  - by apply map_Forall_delete, Hb.
  - apply deregister_ok, Hb.
  - intros j s. rewrite subscribers_deregister. intros [? Hs]%lookup_delete_Some. rewrite lookup_delete_ne by done.
    by apply (bi_covered _ _ Hb).
  - intros j c g [? Hc]%lookup_delete_Some. by apply (bi_groups _ _ Hb j).
  - rewrite dgna_deregister. apply Hb.
Qed.

Lemma book_affiliate i c g : cl !! i = Some c → g ∈ groups c → book_inv cl (affiliate i g r).
Proof.
  intros Hc Hg. apply book_registry; [apply affiliate_ok, Hb| |done].
  intros j s. rewrite subscribers_affiliate. intros [[<- <-]|[? Hs]]%lookup_insert_Some; [|by apply (bi_covered _ _ Hb)].
  exists c. split; [done|]. cbn. pose proof (covered i c Hc). set_solver.
Qed.

Lemma book_attach i c g : cl !! i = Some c → is_u 24 g → book_inv (<[i := with_groups (groups c ∪ {[g]}) c]> cl) r.
Proof.
  intros Hc Hg. apply book_set; [apply Hb|done|apply Hb|exact (bi_clients _ _ Hb i c Hc)| |]; cbn.
  - pose proof (covered i c Hc). set_solver.
  - intros g' [Hin|Hin]%elem_of_union; [by eapply (bi_groups _ _ Hb)|]. by apply elem_of_singleton in Hin as ->.
Qed.

Lemma book_remember i g mn mode : (1 ≤ g ≤ MAX_TETRA_SSI)%Z → is_attachment_mode mode = true →
  book_inv cl (remember_dgna_group i g mn mode r).
Proof.
  intros Hg Hm. split; [apply Hb|apply remember_ok, Hb|apply Hb|apply Hb|]. cbn.
  intros j gs [[<- <-]|[? Hs]]%lookup_insert_Some; [|by apply (bi_dgna _ _ Hb j)]. apply map_Forall_insert_2; [split; [done|split; done]|].
  destruct (sr_dgna_groups r !! i) as [gs|] eqn:E; [by apply (bi_dgna _ _ Hb i)|apply map_Forall_empty].
Qed.

Lemma book_forget i g : book_inv cl (forget_dgna_group i g r).2.
Proof.
  unfold forget_dgna_group. destruct (sr_dgna_groups r !! i) as [gs|] eqn:E; [|done]. cbn [snd].
  split; [apply Hb|split; apply Hb|apply Hb|apply Hb|]. cbn. intros j gs'. case_decide.
  - intros [? Hs]%lookup_delete_Some. by apply (bi_dgna _ _ Hb j).
  - intros [[<- <-]|[? Hs]]%lookup_insert_Some; [|by apply (bi_dgna _ _ Hb j)]. by apply map_Forall_delete, (bi_dgna _ _ Hb i).
Qed.
End book.

(** The invariant looks at numbers and groups only. *)
Definition identity (c : MmClientProperties) : Z * gset Z := (MmClients.issi c, groups c).
Definition same_clients (cl cl' : Clients) : Prop := ∀ i, identity <$> cl' !! i = identity <$> cl !! i.

Lemma same_clients_lookup cl cl' i c' : same_clients cl cl' → cl' !! i = Some c' →
  ∃ c, cl !! i = Some c ∧ MmClients.issi c' = MmClients.issi c ∧ groups c' = groups c.
Proof.
  intros Hs Hc. specialize (Hs i). rewrite Hc in Hs. destruct (cl !! i) as [c|]; [|done]. exists c. by injection Hs as ? ?.
Qed.

Lemma same_clients_sym cl cl' : same_clients cl cl' → same_clients cl' cl.
Proof. by intros H i. Qed.

Lemma same_clients_update cm i f : (∀ c, MmClients.issi (f c) = MmClients.issi c ∧ groups (f c) = groups c) →
  same_clients (clients cm) (clients (update_client i f cm)).
Proof.
  intros Hf j. unfold update_client. destruct (clients cm !! i) as [c|] eqn:E; [|done]. cbn.
  destruct (decide (i = j)) as [<-|]; [|by rewrite lookup_insert_ne]. rewrite lookup_insert_eq, E. cbn. unfold identity.
  by destruct (Hf c) as [-> ->].
Qed.

Lemma book_same_clients cl cl' r : same_clients cl cl' → book_inv cl r → book_inv cl' r.
Proof.
  intros Hs Hb. split; [| |..|apply Hb].
  - intros i c' (c & Hc & -> & _)%(same_clients_lookup cl). by apply (bi_clients _ _ Hb). done.
  - apply Hb.
  - intros i s (c & Hc & Hg)%(bi_covered _ _ Hb). destruct (same_clients_lookup cl' cl i c (same_clients_sym _ _ Hs) Hc) as (c' & Hc' & _ & Hg').
    exists c'. split; [done|]. by rewrite <- Hg'.
  - intros i c' g (c & Hc & _ & ->)%(same_clients_lookup cl); [by apply (bi_groups _ _ Hb i)|done].
Qed.

(** * Sequences of affiliations *)

Lemma attached_affiliate i g r : attached_groups_of i (affiliate i g r) = attached_groups_of i r ∪ {[g]}.
Proof. unfold attached_groups_of at 1. by rewrite subscribers_affiliate, lookup_insert_eq. Qed.

Lemma attached_deaffiliate i g r : attached_groups_of i (deaffiliate i g r) = attached_groups_of i r ∖ {[g]}.
Proof. unfold attached_groups_of at 1. by rewrite subscribers_deaffiliate, lookup_insert_eq. Qed.

Lemma deaffiliate_all_spec i gs r : let r' := foldl (λ r g, deaffiliate i g r) r gs in registry_ok r →
  registry_ok r' ∧ attached_groups_of i r' = attached_groups_of i r ∖ list_to_set gs ∧
  (∀ j, i ≠ j → sr_subscribers r' !! j = sr_subscribers r !! j) ∧ sr_dgna_groups r' = sr_dgna_groups r ∧
  (gs ≠ [] ∨ is_registered i r = true → is_registered i r' = true).
Proof.
  revert r. induction gs as [|g gs IH]; intros r; cbn [foldl list_to_set]; cbv zeta; intros Hr.
  - split_and!; [done|set_solver|done|done|]. by intros [?|?].
  - destruct (IH (deaffiliate i g r) (deaffiliate_ok i g r Hr)) as (H1 & H2 & H3 & H4 & H5). split_and!; [done| | |done|].
    + rewrite H2, attached_deaffiliate. set_solver.
    + intros j Hne. rewrite H3 by done. by rewrite subscribers_deaffiliate, lookup_insert_ne.
    + intros _. apply H5. right. unfold is_registered. by rewrite subscribers_deaffiliate, lookup_insert_eq.
Qed.

Lemma affiliate_all_spec i gs r : let r' := foldl (λ r g, affiliate i g r) r gs in registry_ok r →
  registry_ok r' ∧ attached_groups_of i r' = attached_groups_of i r ∪ list_to_set gs ∧
  (∀ j, i ≠ j → sr_subscribers r' !! j = sr_subscribers r !! j) ∧ sr_dgna_groups r' = sr_dgna_groups r ∧
  (gs ≠ [] ∨ is_registered i r = true → is_registered i r' = true).
Proof.
  revert r. induction gs as [|g gs IH]; intros r; cbn [foldl list_to_set]; cbv zeta; intros Hr.
  - split_and!; [done|set_solver|done|done|]. by intros [?|?].
  - destruct (IH (affiliate i g r) (affiliate_ok i g r Hr)) as (H1 & H2 & H3 & H4 & H5). split_and!; [done| | |done|].
    + rewrite H2, attached_affiliate. set_solver.
    + intros j Hne. rewrite H3 by done. by rewrite subscribers_affiliate, lookup_insert_ne.
    + intros _. apply H5. right. unfold is_registered. by rewrite subscribers_affiliate, lookup_insert_eq.
Qed.

(** * What the parsers return *)

Definition yields {A} (p : B A) (P : A → Prop) : Prop := ∀ bb a bb', wf bb → p bb = Ok a bb' → P a.

Lemma yields_bind {A C} (p : B A) (k : A → B C) P Q : parser_safe p → yields p P → (∀ a, P a → yields (k a) Q) → yields (p ≫= k) Q.
Proof.
  intros Hs Hp Hk bb c bb' Hwf (a & s & Ha & Hc)%bind_ok_inv. eapply Hk; [by eapply Hp| |exact Hc].
  specialize (Hs bb Hwf). unfold safe_at in Hs. rewrite Ha in Hs. destruct Hs as (n & Hn & ->). by apply wf_advance.
Qed.

Lemma yields_skip {A C} (p : B A) (k : A → B C) Q : parser_safe p → (∀ a, yields (k a) Q) → yields (p ≫= k) Q.
Proof. intros Hs Hk. apply (yields_bind p k (λ _, True)); [done|done|]. intros a _. apply Hk. Qed.

Lemma yields_ret {A} (a : A) (P : A → Prop) : P a → yields (mret a) P.
Proof. intros Ha bb a' bb' _ [= <- _]. done. Qed.

Lemma yields_finish {A} obit (a : A) (P : A → Prop) : P a → yields (finish obit a) P.
Proof. intros Ha bb a' bb' _. unfold finish. intros ([] & s & _ & H)%bind_ok_inv; [done|by injection H as <- _]. Qed.

Lemma yields_field n s : n ≤ 64 → yields (read_field n s) (is_u (Z.of_nat n)).
Proof.
  intros Hn bb v bb' Hwf H. destruct (decide (n ≤ get_len_remaining bb)).
  - rewrite read_field_ok in H by done. injection H as <- _. apply Z_of_bits_is_u_len. rewrite length_take, length_remaining by done. lia.
  - by rewrite read_field_err in H by (done || lia).
Qed.

Lemma yields_t2 obit n s : n ≤ 64 → yields (parse_type2_generic obit n s) (t2_ok n).
Proof.
  intros Hn. unfold parse_type2_generic. destruct obit; cbn [negb]; [|by apply yields_ret].
  apply yields_skip; [auto with parser_safe|]. intros []; [|by apply yields_ret].
  eapply yields_bind; [auto with parser_safe|by apply yields_field|]. intros v Hv. by apply yields_ret.
Qed.

(** [if c { Some(read_field(n) as uN) } else { None }] *)
Lemma yields_cond (c : bool) n m s : n ≤ 64 → (n ≤ m) → yields (if c then v ← read_field n s; mret (Some (wrap (Z.of_nat m) v)) else mret None) (t2_ok n).
Proof.
  intros Hn Hm. destruct c; [|by apply yields_ret]. eapply yields_bind; [auto with parser_safe|by apply yields_field|].
  intros v Hv. apply yields_ret. cbn. by rewrite (wrap_fits (Z.of_nat n)) by (done || lia).
Qed.

Lemma yields_elems {T} n (p : B T) P : parser_safe p → yields p P → yields (parse_elems n p) (λ es, Forall P es ∧ length es = n).
Proof.
  intros Hs Hp. induction n as [|n IH]; cbn [parse_elems]; [by apply yields_ret|].
  eapply yields_bind; [done|exact Hp|]. intros e He. eapply yields_bind; [by apply safe_parse_elems|exact IH|].
  intros es [Hes Hl]. apply yields_ret. split; [by constructor|cbn; lia].
Qed.

Lemma yields_type34 {A} id (absent_ k : B A) P : yields absent_ P → yields k P →
  yields (field_present ← peek_type34_mbit_and_id id; if negb field_present then absent_ else seek_rel 5;; k) P.
Proof.
  intros Ha Hk bb a bb' Hwf (b & s & Hp & H)%bind_ok_inv.
  destruct (peek_type34_cases bb id Hwf) as [(e & Heq & _)|[Heq|(Heq & H5 & _)]]; rewrite Heq in Hp; [done| |];
    injection Hp as <- <-; cbn [negb] in H; [by eapply Ha|].
  destruct (seek_rel_ok bb 5 Hwf H5) as [Hs _]. change (Z.of_nat 5) with 5%Z in Hs.
  rewrite (bind_ok _ _ _ _ _ Hs) in H. eapply Hk; [by apply wf_advance|exact H].
Qed.

Lemma yields_bits_or n s : n ≤ 64 → yields (read_bits_or n s) (is_u (Z.of_nat n)).
Proof.
  intros Hn bb v bb' Hwf (o & s' & H1 & H2)%bind_ok_inv. rewrite read_bits_spec in H1 by done.
  case_decide; injection H1 as <- <-; [|done]. injection H2 as <- _. apply Z_of_bits_is_u_len. rewrite length_take, length_remaining by done. lia.
Qed.

Lemma yields_type4_header id : yields (parse_type4_header id) (λ o, match o with Some (n, _) => n < 64 | None => True end).
Proof.
  apply yields_type34; [by apply yields_ret|]. apply yields_skip; [auto with parser_safe|]. intros x. cbv zeta.
  eapply yields_bind; [auto with parser_safe|by apply yields_bits_or; lia|]. intros y Hy.
  case_match; [by intros ????|]. apply yields_skip; [auto with parser_safe|]. intros bb. case_match; [by intros ????|].
  apply yields_ret. unfold is_u in Hy. cbn in Hy. lia.
Qed.

Lemma yields_type4_struct {T} obit id (p : B T) P : parser_safe p → yields p P →
  yields (parse_type4_struct obit id p) (opt_ok (λ es, Forall P es ∧ length es < 64)).
Proof.
  intros Hs Hp. unfold parse_type4_struct. destruct obit; cbn [negb]; [|by apply yields_ret].
  eapply yields_bind; [auto with parser_safe|apply yields_type4_header|]. intros [[n len]|] Hn; [|by apply yields_ret].
  apply yields_skip; [auto with parser_safe|]. intros pos. eapply yields_bind; [by apply safe_parse_elems|by apply yields_elems|].
  intros es [Hes Hl]. apply yields_skip; [auto with parser_safe|]. intros pos'. case_decide; [|by intros ????].
  apply yields_ret. split; [done|lia].
Qed.

Lemma yields_type3_struct {T} obit id (p : B T) P : parser_safe p → yields p P → yields (parse_type3_struct obit id p) (opt_ok P).
Proof.
  intros Hs Hp. unfold parse_type3_struct. destruct obit; cbn [negb]; [|by apply yields_ret].
  apply yields_type34; [by apply yields_ret|]. apply yields_skip; [auto with parser_safe|]. intros x.
  apply yields_skip; [auto with parser_safe|]. intros pos. eapply yields_bind; [done|exact Hp|]. intros a Ha.
  apply yields_skip; [auto with parser_safe|]. intros pos'. case_decide; [|by intros ????]. by apply yields_ret.
Qed.

(** A received group has its class, detachment and number within their fields. *)
Definition giu_sane (g : GroupIdentityUplink) : Prop :=
  t2_ok 3 (giu_class_of_usage g) ∧ t2_ok 2 (giu_detachment_uplink g) ∧ t2_ok 24 (giu_gssi g).

Lemma safe_cond (c : bool) n m s : parser_safe (if c then v ← read_field n s; mret (Some (wrap m v)) else mret None).
Proof. destruct c; [apply safe_bind|]; auto with parser_safe. Qed.

Lemma giu_yields : yields group_identity_uplink_from_bitbuf giu_sane.
Proof.
  unfold group_identity_uplink_from_bitbuf. apply yields_skip; [auto with parser_safe|]. intros t.
  eapply yields_bind; [apply safe_cond|apply (yields_cond _ 3 8); lia|]. intros cls Hc.
  eapply yields_bind; [apply safe_cond|apply (yields_cond _ 2 8); lia|]. intros det Hd.
  apply yields_skip; [auto with parser_safe|]. intros at_. cbv zeta.
  eapply yields_bind; [apply safe_cond|apply (yields_cond _ 24 32); lia|]. intros g Hg.
  do 2 (apply yields_skip; [apply safe_cond|]; intros). by apply yields_ret.
Qed.

Definition groups_sane (o : option (list GroupIdentityUplink)) : Prop := opt_ok (λ es, Forall giu_sane es ∧ length es < 64) o.

Lemma giu_list_yields obit id : yields (parse_type4_struct obit id group_identity_uplink_from_bitbuf) groups_sane.
Proof. apply yields_type4_struct; [apply group_identity_uplink_safe|apply giu_yields]. Qed.

Lemma gild_yields : yields group_identity_location_demand_from_bitbuf (λ d, groups_sane (group_identity_location_demand_group_identity_uplink d)).
Proof.
  unfold group_identity_location_demand_from_bitbuf. do 3 (apply yields_skip; [auto with parser_safe|]; intros). cbv zeta.
  apply yields_skip; [auto with parser_safe|]. intros obit.
  eapply yields_bind; [auto with parser_safe|apply giu_list_yields|]. intros o Ho. by apply yields_finish.
Qed.

Definition demand_sane (pdu : ULocationUpdateDemand) : Prop :=
  t2_ok 24 (u_location_update_demand_address_extension pdu) ∧
  opt_ok (λ d, groups_sane (group_identity_location_demand_group_identity_uplink d))
    (u_location_update_demand_group_identity_location_demand pdu).

Ltac yields_skip := apply yields_skip; [solve [auto with parser_safe pdu]|]; intros; cbv zeta.

Lemma demand_yields : yields u_location_update_demand_from_bitbuf demand_sane.
Proof.
  unfold u_location_update_demand_from_bitbuf. do 6 yields_skip.
  apply yields_skip; [case_match; [apply safe_bind; auto with parser_safe|auto with parser_safe]|]. intros ciph. do 2 yields_skip.
  eapply yields_bind; [auto with parser_safe|by apply yields_t2; lia|]. intros esm Hesm.
  apply yields_skip; [eapply safe_unwrap_opt; [apply _|eassumption]|]. intros mode. do 2 yields_skip.
  eapply yields_bind; [auto with parser_safe|by apply yields_t2; lia|]. intros ext Hext.
  eapply yields_bind; [auto with parser_safe|apply yields_type3_struct; [auto with parser_safe|apply gild_yields]|]. intros gild Hg.
  do 4 yields_skip. by apply yields_finish.
Qed.

Lemma attach_detach_yields : yields u_attach_detach_group_identity_from_bitbuf
  (λ pdu, groups_sane (u_attach_detach_group_identity_group_identity_uplink pdu)).
Proof.
  unfold u_attach_detach_group_identity_from_bitbuf. do 6 yields_skip.
  eapply yields_bind; [auto with parser_safe|apply giu_list_yields|]. intros o Ho. yields_skip. by apply yields_finish.
Qed.

(** * What MM sends *)

(** A request MLE can forward: its SDU is read from the start. *)
Definition out_ok (m : SapMsg) : Prop :=
  match sm_msg m with SmLmmMleUnitdataReq p => ∃ bs, pdu_holds (lmmr_sdu p) bs | _ => True end.

Lemma send_pdu_ok n w bs handle i s : writes w bs → (Z.of_nat (length bs) ≤ usize_max)%Z →
  ∃ sdu, pdu_holds sdu bs ∧ send_pdu n w handle i s = push_back (lmm_req sdu handle (Core.issi i) L2Acknowledged) s.
Proof. intros Hw Hl. destruct (build_ok n w bs Hw Hl) as (sdu & Hb & Hh). exists sdu. split; [done|]. unfold send_pdu. by rewrite Hb. Qed.

(** The command has no parser; it is written with the o-bit 0. *)
Definition command_bits : list bool := bits_of_Z 4 6 ++ [true; false; false].

Lemma command_writes : writes (d_location_update_command_to_bitbuf (mkDLocationUpdateCommand true false None None None None)) command_bits.
Proof.
  unfold d_location_update_command_to_bitbuf, command_bits. cbv zeta.
  apply (writes_bind _ _ (bits_of_Z 4 6)); [by apply (writes_bits 6 4); [lia|]|].
  apply (writes_bind _ _ [true]); [by apply (writes_bits 1 1); [lia|]|]. apply (writes_bind _ _ [false]); [by apply (writes_bits 0 1); [lia|]|].
  apply (writes_pure _ tt); [done|]. apply (writes_bind _ _ [false] []); [apply (writes_obit false)|apply writes_ret].
Qed.

(** Lengths of elements. *)
Lemma length_t2 n o : length (t2_bits n o) ≤ S n.
Proof. destruct o; cbn; rewrite ?length_bits_of_Z; lia. Qed.
Lemma length_t2s {T} (enc : T → list bool) k o : (∀ x, length (enc x) = k) → length (enc_type2 enc o) ≤ S k.
Proof. intros Hk. destruct o; cbn; rewrite ?Hk; lia. Qed.
Lemma length_t3s {T} valid (enc : T → list bool) id o : t3s_ok valid enc o → length (t3s_bits enc id o) ≤ 2063.
Proof. destruct o; [|cbn; lia]. intros [_ Hl]. cbn [t3s_bits]. unfold enc_type3, enc_type34_header. cbn [app length]. rewrite !length_app, !length_bits_of_Z. lia. Qed.
Lemma length_t4s {T} valid (enc : T → list bool) id o : t4s_ok valid enc o → length (t4s_bits enc id o) ≤ 2063.
Proof. destruct o; [|cbn; lia]. intros (_ & Hl & _). cbn [t4s_bits]. unfold enc_type4, enc_type34_header. cbn [app length]. rewrite !length_app, !length_bits_of_Z. lia. Qed.
Lemma length_obit b l : length (obit_bits b l) ≤ S (length l).
Proof. destruct b; cbn; lia. Qed.
Lemma length_esi x : length (energy_saving_information_bits x) = 14.
Proof. unfold energy_saving_information_bits. by rewrite !length_app, !length_bits_of_Z. Qed.

Ltac pdu_length := rewrite ?length_app, ?length_bits_of_Z; cbn [length];
  repeat match goal with
  | |- context [length (obit_bits ?b ?l)] => pose proof (length_obit b l); generalize dependent (length (obit_bits b l)); intros
  end; rewrite ?length_app in *; cbn [length] in *;
  repeat match goal with
  | H : context [length (t2_bits ?n ?o)] |- _ => pose proof (length_t2 n o); generalize dependent (length (t2_bits n o)); intros
  | H : context [length (t3_bits ?n None)] |- _ => change (length (t3_bits n None)) with 0 in H
  | H : context [length (enc_type2 energy_saving_information_bits ?o)] |- _ =>
      pose proof (length_t2s energy_saving_information_bits 14 o length_esi);
      generalize dependent (length (enc_type2 energy_saving_information_bits o)); intros
  | Ho : t3s_ok ?v ?e ?o, H : context [length (t3s_bits ?e ?id ?o)] |- _ =>
      pose proof (length_t3s v e id o Ho); generalize dependent (length (t3s_bits e id o)); intros
  | Ho : t4s_ok ?v ?e ?o, H : context [length (t4s_bits ?e ?id ?o)] |- _ =>
      pose proof (length_t4s v e id o Ho); generalize dependent (length (t4s_bits e id o)); intros
  end; lia.

(** Written in at most [n] bits and parsed back. *)
Definition carried {A} (n : nat) (w : B unit) (p : B A) (a : A) : Prop :=
  ∃ bs, writes w bs ∧ reads p bs a ∧ length bs ≤ n.

Lemma accept_carried t i esi scch gila : is_u 24 i → opt_ok energy_saving_information_ok esi → t2_ok 6 scch →
  t3s_ok group_identity_location_accept_ok group_identity_location_accept_bits gila →
  let pdu := mkDLocationUpdateAccept t (Some i) None None esi scch None None gila None None None None None in
  carried 3000 (d_location_update_accept_to_bitbuf pdu) d_location_update_accept_from_bitbuf pdu.
Proof.
  intros Hi He Hs Hg pdu. unfold pdu, d_location_update_accept_to_bitbuf, d_location_update_accept_from_bitbuf.
  cbn [d_location_update_accept_location_update_accept_type d_location_update_accept_ssi d_location_update_accept_address_extension d_location_update_accept_subscriber_class d_location_update_accept_energy_saving_information d_location_update_accept_scch_information_and_distribution_on_18th_frame d_location_update_accept_new_registered_area d_location_update_accept_security_downlink d_location_update_accept_group_identity_location_accept d_location_update_accept_default_group_attachment_lifetime d_location_update_accept_authentication_downlink d_location_update_accept_group_identity_security_related_information d_location_update_accept_cell_type_control d_location_update_accept_proprietary].
  eexists. split; [pdu_writes|split; [pdu_reads|]]. pdu_length.
Qed.

(** The group elements MM sends. *)
Definition gid_plain (g : GroupIdentityDownlink) : Prop :=
  (∃ c gssi, g = attached_gid c gssi ∧ is_u 3 c ∧ is_u 24 gssi) ∨ (∃ d gssi, g = detached_gid d gssi ∧ is_u 2 d ∧ is_u 24 gssi).

Lemma gid_plain_ok g : gid_plain g → group_identity_downlink_ok g ∧ length (group_identity_downlink_bits g) ≤ 32.
Proof.
  intros [(c & gssi & -> & Hc & Hg)|(d & gssi & -> & Hd & Hg)]; (split; [|vm_compute; lia]); unfold group_identity_downlink_ok; cbn;
    (split_and!; [done| | |by eexists|by split_and!]); done || (split; [is_u_small|done]).
Qed.

Lemma length_gids gs : Forall gid_plain gs → length (enc_elems group_identity_downlink_bits gs) ≤ 32 * length gs.
Proof.
  induction 1 as [|g gs Hg Hgs IH]; [done|].
  change (enc_elems group_identity_downlink_bits (g :: gs)) with (group_identity_downlink_bits g ++ enc_elems group_identity_downlink_bits gs).
  rewrite length_app. cbn [length]. pose proof (proj2 (gid_plain_ok g Hg)). lia.
Qed.

Lemma gids_fit gs : Forall gid_plain gs → length gs < 64 → t4s_ok group_identity_downlink_ok group_identity_downlink_bits (Some gs).
Proof.
  intros Hg Hl. split_and!; [eapply Forall_impl; [exact Hg|]; intros; by apply gid_plain_ok| |done].
  pose proof (length_gids gs Hg). lia.
Qed.

Definition opt_gids (o : option (list GroupIdentityDownlink)) : Prop := opt_ok (λ gs, Forall gid_plain gs ∧ length gs < 64) o.

Lemma opt_gids_fit o : opt_gids o → t4s_ok group_identity_downlink_ok group_identity_downlink_bits o.
Proof. destruct o as [gs|]; [|done]. intros [? ?]. by apply gids_fit. Qed.

Lemma gila_fits o : opt_gids o → t3s_ok group_identity_location_accept_ok group_identity_location_accept_bits (Some (mkGroupIdentityLocationAccept 0 o)).
Proof.
  intros Ho. split; [split; [is_u_small|by apply opt_gids_fit]|]. unfold group_identity_location_accept_bits. cbn [group_identity_location_accept_group_identity_accept_reject group_identity_location_accept_group_identity_downlink].
  destruct o as [gs|]; [|cbn; lia]. destruct Ho as [Hg Hl]. cbn [is_some obit_bits t4s_bits]. unfold enc_type4, enc_type34_header.
  rewrite !length_app. cbn [app length]. rewrite !length_app, !length_bits_of_Z. cbn [length].
  pose proof (length_gids gs Hg). lia.
Qed.

Lemma ack_carried ar o : is_u 1 ar → opt_gids o → let pdu := mkDAttachDetachGroupIdentityAcknowledgement ar false None o None in
  carried 3000 (d_attach_detach_group_identity_acknowledgement_to_bitbuf pdu) d_attach_detach_group_identity_acknowledgement_from_bitbuf pdu.
Proof.
  intros Ha Ho%opt_gids_fit pdu. unfold pdu, d_attach_detach_group_identity_acknowledgement_to_bitbuf, d_attach_detach_group_identity_acknowledgement_from_bitbuf.
  cbn [d_attach_detach_group_identity_acknowledgement_group_identity_accept_reject d_attach_detach_group_identity_acknowledgement_reserved
    d_attach_detach_group_identity_acknowledgement_proprietary d_attach_detach_group_identity_acknowledgement_group_identity_downlink
    d_attach_detach_group_identity_acknowledgement_group_identity_security_related_information].
  eexists. split; [pdu_writes|split; [pdu_reads|]]. pdu_length.
Qed.

Lemma dgna_carried gid : gid_plain gid → let pdu := mkDAttachDetachGroupIdentity false true false None None (Some [gid]) None in
  carried 3000 (d_attach_detach_group_identity_to_bitbuf pdu) d_attach_detach_group_identity_from_bitbuf pdu.
Proof.
  intros Hg pdu. assert (t4s_ok group_identity_downlink_ok group_identity_downlink_bits (Some [gid])) as Ho by (apply gids_fit; [by constructor|cbn; lia]).
  unfold pdu, d_attach_detach_group_identity_to_bitbuf, d_attach_detach_group_identity_from_bitbuf.
  cbn [d_attach_detach_group_identity_group_identity_report d_attach_detach_group_identity_group_identity_acknowledgement_request
    d_attach_detach_group_identity_group_identity_attach_detach_mode d_attach_detach_group_identity_proprietary
    d_attach_detach_group_identity_group_report_response d_attach_detach_group_identity_group_identity_downlink
    d_attach_detach_group_identity_group_identity_security_related_information].
  eexists. split; [pdu_writes|split; [pdu_reads|]]. pdu_length.
Qed.

Lemma reject_writes t cause ext : t2_ok 24 ext →
  ∃ bs, writes (d_location_update_reject_to_bitbuf (mkDLocationUpdateReject t (reject_cause_into_raw cause) false None ext None None)) bs ∧
    length bs ≤ 3000.
Proof.
  intros He. assert (is_u 5 (reject_cause_into_raw cause)) as Hc by (destruct cause; is_u_small).
  unfold d_location_update_reject_to_bitbuf. cbn [d_location_update_reject_location_update_type d_location_update_reject_reject_cause
    d_location_update_reject_cipher_control d_location_update_reject_ciphering_parameters d_location_update_reject_address_extension
    d_location_update_reject_cell_type_control d_location_update_reject_proprietary].
  eexists. split; [pdu_writes|]. pdu_length.
Qed.

Lemma grant_ok i m : (0 ≤ i)%Z → energy_saving_information_ok (grant_energy_saving i m).
Proof.
  intros Hi. unfold grant_energy_saving, energy_saving_information_ok. destruct m; cbn; try done;
    (eexists _, _; split; [reflexivity|split; [reflexivity|]]); split; unfold is_u; Z.to_euclidean_division_equations; lia.
Qed.

Lemma status_carried esi : energy_saving_information_ok esi →
  let pdu := mkDMmStatus StatusDownlink_ChangeOfEnergySavingModeResponse (Some esi) in
  carried 3000 (d_mm_status_to_bitbuf pdu) d_mm_status_from_bitbuf pdu.
Proof.
  intros He pdu. unfold pdu, d_mm_status_to_bitbuf, d_mm_status_from_bitbuf. cbn [d_mm_status_status_downlink d_mm_status_energy_saving_information].
  eexists. split; [pdu_writes|split].
  - eapply reads_step; [pdu_read|]. eapply reads_pure; [pdu_pure|]. eapply reads_step; [pdu_read|]. eapply reads_pure; [pdu_pure|].
    rewrite <- (app_nil_r (energy_saving_information_bits esi)). eapply reads_step; [|apply reads_ret]. apply reads_reads_then.
    rewrite <- (app_nil_r (energy_saving_information_bits esi)). eapply reads_bind; [by apply codec_reads|apply reads_ret].
  - rewrite !length_app, !length_bits_of_Z, length_esi. lia.
Qed.

Lemma not_supported_writes st : ∃ bs, writes (mm_pdu_function_not_supported_to_bitbuf
    (mkMmPduFunctionNotSupported (mm_pdu_type_ul_into_raw MmPduTypeUl_UMmStatus) (Some (6, status_uplink_into_raw st)))) bs ∧ length bs ≤ 3000.
Proof.
  assert (t2_ok 6 (Some (status_uplink_into_raw st))) as Hs by (destruct st; cbn; is_u_small).
  unfold mm_pdu_function_not_supported_to_bitbuf. cbn [mm_pdu_function_not_supported_not_supported_pdu_type
    mm_pdu_function_not_supported_not_supported_sub_pdu_type is_some negb]. cbv zeta. eexists. split.
  - do 2 (eapply writes_bind; [pdu_write|]). eapply writes_bind; [apply (writes_obit true)|]. cbn [negb].
    eapply (writes_pure _ (6, status_uplink_into_raw st)); [done|]. cbn [fst snd]. eapply writes_bind; [apply writes_t2; [lia|done]|apply writes_mbit_0].
  - rewrite !length_app, !length_bits_of_Z. cbn [length]. pose proof (length_t2 6 (Some (status_uplink_into_raw st))). lia.
Qed.
