(* ===== verification/MmBsRx.v ===== *)
(** The handlers of the MM entity: each returns and keeps the invariant
    ([keeps]), some change nothing but queue and telemetry ([quiet]), and the
    operations on groups change them in both registries ([client_step]). *)
From S2P Require Import Prelude Bits Core BitBuffer BitBufferSpec BitCodec BitBufferThms FieldCodec TypedFieldsSpec PduCodec TdmaTime.
From S2P Require Import SsiRanges Subscribers MmClients MmClientsSpec MmEnums MmPdus MmPdusSpec TxReceipt MacDl Saps MmBs MmBsSpec.

(** * Handlers *)

(** The handler returns, with a result and a world that satisfy [Q]. *)
Definition wp {A} (m : MM A) (Q : A → MmWorld → Prop) (w : MmWorld) : Prop :=
  match m w with Ok a w' => Q a w' | _ => False end.

Lemma wp_bind {A C} (m : MM A) (k : A → MM C) Q w : wp m (λ a, wp (k a) Q) w → wp (m ≫= k) Q w.
Proof. unfold wp, mbind, M_bind. by destruct (m w). Qed.

Lemma wp_mono {A} (m : MM A) (Q Q' : A → MmWorld → Prop) w : wp m Q w → (∀ a w', Q a w' → Q' a w') → wp m Q' w.
Proof. unfold wp. destruct (m w); [|done|done]. auto. Qed.

Lemma wp_run {A} (m : MM A) Q w : wp m Q w → ∃ a w', m w = Ok a w' ∧ Q a w'.
Proof. unfold wp. destruct (m w); [eauto|done|done]. Qed.

Definition clients_of (w : MmWorld) : Clients := clients (mm_client_mgr (mw_mm w)).
Definition subs_of (w : MmWorld) : SubscriberRegistry := st_subscribers (mw_state w).

Definition mm_inv (w : MmWorld) : Prop := book_inv (clients_of w) (subs_of w).

(** What a handler may do besides: the configuration, the whitelist and the calls
    stay, messages are only added, and no terminal is added but those in [new]. *)
Record grows (new : Z → Prop) (w w' : MmWorld) : Prop := {
  gr_config : mm_config (mw_mm w') = mm_config (mw_mm w);
  gr_override : st_issi_whitelist_override (mw_state w') = st_issi_whitelist_override (mw_state w);
  gr_calls : st_active_call_ts (mw_state w') = st_active_call_ts (mw_state w);
  gr_queue : ∃ msgs, mw_queue w' = mw_queue w ++ msgs ∧ Forall out_ok msgs;
  gr_clients i : is_Some (clients_of w' !! i) → is_Some (clients_of w !! i) ∨ new i
}.

Lemma grows_refl new w : grows new w w.
Proof. split; try done; [|by left]. exists []. by rewrite app_nil_r. Qed.

Lemma grows_trans new w1 w2 w3 : grows new w1 w2 → grows new w2 w3 → grows new w1 w3.
Proof.
  intros [H1 H2 H3 (q1 & H4 & H4') H5] [G1 G2 G3 (q2 & G4 & G4') G5]. split; [congruence..| |].
  - exists (q1 ++ q2). split; [by rewrite G4, H4, app_assoc|by apply Forall_app].
  - intros i [Hi|Hi]%G5; [by apply H5|by right].
Qed.

(** A handler that keeps the invariant. *)
Definition keeps (new : Z → Prop) {A} (m : MM A) : Prop := ∀ w, mm_inv w → wp m (λ _ w', mm_inv w' ∧ grows new w w') w.

Section keeps.
Context (new : Z → Prop).

Lemma keeps_ret {A} (a : A) : keeps new (mret a).
Proof. intros w Hw. split; [done|apply grows_refl]. Qed.

Lemma keeps_bind {A C} (m : MM A) (k : A → MM C) : keeps new m → (∀ a, keeps new (k a)) → keeps new (m ≫= k).
Proof.
  intros Hm Hk w Hw. apply wp_bind. eapply wp_mono; [by apply Hm|]. intros a w1 [Hw1 Hg]. eapply wp_mono; [by apply Hk|].
  intros c w2 [Hw2 Hg2]. split; [done|by eapply grows_trans].
Qed.

Lemma keeps_gets {A} (f : MmWorld → A) : keeps new (gets f).
Proof. intros w Hw. split; [done|apply grows_refl]. Qed.

Lemma keeps_get : keeps new get.
Proof. intros w Hw. split; [done|apply grows_refl]. Qed.

Lemma keeps_push m : out_ok m → keeps new (push_back m).
Proof. intros Hm w Hw. split; [done|]. split; try done; [|by left]. exists [m]. split; [done|by constructor]. Qed.

(** A change of the entity that leaves configuration and clients alone. *)
Lemma keeps_modify_mm f : (∀ s, mm_config (f s) = mm_config s ∧ mm_client_mgr (f s) = mm_client_mgr s) → keeps new (modify_mm f).
Proof.
  intros Hf w Hw. destruct (Hf (mw_mm w)) as [H1 H2]. unfold wp, modify_mm. split.
  - unfold mm_inv, clients_of, subs_of in *. cbn. by rewrite H2.
  - split; cbn; try done; [by exists []; rewrite app_nil_r|]. unfold clients_of. cbn. rewrite H2. by left.
Qed.

Lemma keeps_same_clients {A} (op : MmClientMgr → A * MmClientMgr) : (∀ c, same_clients (clients c) (clients (op c).2)) →
  keeps new (run_clients op).
Proof.
  intros Hop w Hw. specialize (Hop (mm_client_mgr (mw_mm w))). split; [by eapply book_same_clients|].
  split; try done; [by exists []; rewrite app_nil_r|]. intros i [c Hc]. left.
  destruct (same_clients_lookup _ _ i c Hop Hc) as (c' & Hc' & _). by exists c'.
Qed.

Definition benign {A} (op : R A) : Prop := ∀ s,
  match op s with Ok _ s' | Err _ s' => same_clients (clients s) (clients s') | Panic => False end.

Lemma keeps_benign {A} (op : R A) : benign op → keeps new (try_clients op).
Proof.
  intros Hop w Hw. specialize (Hop (mm_client_mgr (mw_mm w))). unfold wp, try_clients. destruct (op _) as [a s|e s|]; [| |done];
    (split; [by eapply book_same_clients|]); (split; try done; [by exists []; rewrite app_nil_r|]); intros i [c Hc]; left;
    destruct (same_clients_lookup _ _ i c Hop Hc) as (c' & Hc' & _); by exists c'.
Qed.

Lemma keeps_subscribers f : (∀ cl r, book_inv cl r → book_inv cl (f r)) → keeps new (modify_subscribers f).
Proof.
  intros Hf w Hw. split; [by apply Hf|]. split; try done; [by exists []; rewrite app_nil_r|by left].
Qed.
End keeps.

Lemma benign_modify i f : (∀ c, MmClients.issi (f c) = MmClients.issi c ∧ groups (f c) = groups c) → benign (modify_client i f).
Proof. intros Hf s. unfold modify_client. destruct (clients s !! i); [by apply same_clients_update|done]. Qed.

Lemma benign_esm i m : benign (set_client_energy_saving_mode i m).
Proof.
  intros s. unfold set_client_energy_saving_mode. pose proof (benign_modify i (with_energy_saving_mode m) (λ c, conj eq_refl eq_refl) s) as H.
  unfold mbind, M_bind. destruct (modify_client i _ s); done.
Qed.

Lemma out_ok_sdu sdu bs handle address service : pdu_holds sdu bs → out_ok (lmm_req sdu handle address service).
Proof. intros Hh. by exists bs. Qed.

Lemma short_enough n : n ≤ 3000 → (Z.of_nat n ≤ usize_max)%Z.
Proof. unfold usize_max. lia. Qed.

Lemma keeps_send new n w bs handle i : writes w bs → length bs ≤ 3000 → keeps new (send_pdu n w handle i).
Proof.
  intros Hw Hl s Hs. destruct (send_pdu_ok n w bs handle i s Hw (short_enough _ Hl)) as (sdu & Hh & Heq).
  unfold wp. rewrite Heq. by apply (keeps_push new _ (out_ok_sdu _ _ _ _ _ Hh)).
Qed.

Lemma keeps_carried new {A} n w (p : B A) a handle i : carried 3000 w p a → keeps new (send_pdu n w handle i).
Proof. intros (bs & Hw & _ & Hl). by eapply keeps_send. Qed.

Lemma keeps_command new i handle : keeps new (send_d_location_update_command i handle).
Proof. eapply keeps_send; [apply command_writes|cbn; lia]. Qed.

Lemma keeps_reject new i handle t ext cause : t2_ok 24 ext → keeps new (send_d_location_update_reject_cause i handle t ext cause).
Proof. intros He. destruct (reject_writes t cause ext He) as (bs & Hw & Hl). by eapply keeps_send. Qed.

Lemma keeps_emit new e : keeps new (emit e).
Proof. by apply keeps_same_clients. Qed.

Lemma keeps_if new {A} (b : bool) (m1 m2 : MM A) : keeps new m1 → keeps new m2 → keeps new (if b then m1 else m2).
Proof. by destruct b. Qed.

Lemma keeps_for_each new {A} (l : list A) body : (∀ x, keeps new (body x)) → keeps new (for_each l body).
Proof. intros Hb. induction l as [|x l IH]; cbn [for_each]; [apply keeps_ret|]. by apply keeps_bind. Qed.

Create HintDb keeps discriminated.
#[export] Hint Resolve keeps_ret keeps_gets keeps_get keeps_command keeps_emit keeps_if : keeps.

(** Steps that keep the invariant each. *)
Ltac keeps_step := first
  [ solve [auto with keeps]
  | apply keeps_bind; [|intros]
  | apply keeps_modify_mm; intros; split; solve [reflexivity | repeat case_match; reflexivity]
  | apply keeps_push; done
  | apply keeps_benign; first [apply benign_esm | apply benign_modify; done]
  | apply keeps_if | case_match ].
Ltac keeps := repeat (cbv beta zeta; keeps_step).

Lemma keeps_subscriber_update new i gs a : keeps new (emit_subscriber_update i gs a).
Proof. unfold emit_subscriber_update, config. keeps. Qed.

Lemma keeps_mark_dirty new : keeps new recovery_mark_dirty.
Proof. unfold recovery_mark_dirty. keeps. Qed.

Lemma keeps_confirm new i : keeps new (recovery_confirm i).
Proof. unfold recovery_confirm. keeps. Qed.

Lemma keeps_snapshots new i : keeps new (emit_group_snapshots i).
Proof. unfold emit_group_snapshots, subscribers. keeps. Qed.

Lemma keeps_replay_loop new n : keeps new (replay_loop n).
Proof. induction n as [|n IH]; cbn [replay_loop]; keeps; exact IH. Qed.

Lemma keeps_replay new ts : keeps new (drive_recovery_replay ts).
Proof. unfold drive_recovery_replay. keeps. apply keeps_replay_loop. Qed.

Lemma keeps_reactive new env i : keeps new (maybe_reactive_recovery env i).
Proof. unfold maybe_reactive_recovery. keeps. Qed.

Lemma keeps_windows new env : keeps new (publish_monitoring_windows env).
Proof. intros w Hw. split; [done|]. split; try done; [by exists []; rewrite app_nil_r|by left]. Qed.

#[export] Hint Resolve keeps_subscriber_update keeps_mark_dirty keeps_confirm keeps_snapshots keeps_replay keeps_reactive
  keeps_windows : keeps.

(** ** Terminals that leave *)

(** A step on clients and subscribers together. *)
Lemma keeps_two new {A} (op : MmClientMgr → A * MmClientMgr) f (k : A → MM unit) w :
  book_inv (clients (op (mm_client_mgr (mw_mm w))).2) (f (subs_of w)) →
  (∀ i, is_Some (clients (op (mm_client_mgr (mw_mm w))).2 !! i) → is_Some (clients_of w !! i) ∨ new i) →
  (∀ a, keeps new (k a)) →
  wp (a ← run_clients op; modify_subscribers f;; k a) (λ _ w', mm_inv w' ∧ grows new w w') w.
Proof.
  intros Hb Hn Hk. set (w1 := mkMmWorld (set_client_mgr (op (mm_client_mgr (mw_mm w))).2 (mw_mm w))
    (mkStackState (f (subs_of w)) (st_issi_whitelist_override (mw_state w)) (st_active_call_ts (mw_state w)) (st_ee_monitoring_windows (mw_state w))) (mw_queue w)).
  change (wp (k (op (mm_client_mgr (mw_mm w))).1) (λ _ w', mm_inv w' ∧ grows new w w') w1).
  eapply wp_mono; [apply Hk; exact Hb|]. intros a w' [Hw' Hg]. split; [done|]. eapply grows_trans; [|exact Hg].
  split; try done. exists []. by rewrite app_nil_r.
Qed.

Lemma clients_remove i c : clients (remove_client i c).2 = delete i (clients c).
Proof. unfold remove_client. destruct (clients c !! i) eqn:E; [done|]. cbn. by rewrite delete_id. Qed.

Lemma keeps_remove new i (k : option MmClientProperties → MM unit) : (∀ a, keeps new (k a)) →
  keeps new (a ← run_clients (remove_client i); modify_subscribers (deregister i);; k a).
Proof.
  intros Hk w Hw. apply keeps_two; [|intros j|done]; rewrite clients_remove.
  - by apply book_remove.
  - intros [c Hc]. apply lookup_delete_Some in Hc as [_ Hc]. left. by exists c.
Qed.

Lemma keeps_release new env i : keeps new (release_client env i).
Proof.
  intros w Hw. unfold release_client. destruct (clients_of w !! i) as [c|] eqn:E.
  - pose proof (keeps_remove new i (λ o, match o with Some client =>
      (if decide (groups client = ∅) then mret tt
       else emit_subscriber_update i (env_groups env (groups client)) BrewSubscriberAction_Deaffiliate);;
      emit_subscriber_update i [] BrewSubscriberAction_Deregister | None => mret tt end)) as Hk.
    assert (∀ a : option MmClientProperties, keeps new (match a with Some client =>
      (if decide (groups client = ∅) then mret tt
       else emit_subscriber_update i (env_groups env (groups client)) BrewSubscriberAction_Deaffiliate);;
      emit_subscriber_update i [] BrewSubscriberAction_Deregister | None => mret tt end)) as Hk' by (intros a; keeps).
    specialize (Hk Hk' w Hw). unfold wp in *. unfold mbind, M_bind, run_clients in *. cbn [fst snd] in *.
    assert ((remove_client i (mm_client_mgr (mw_mm w))).1 = Some c) as Hr by (unfold remove_client; unfold clients_of in E; by rewrite E).
    rewrite Hr in *. exact Hk.
  - assert (remove_client i (mm_client_mgr (mw_mm w)) = (None, mm_client_mgr (mw_mm w))) as Hr by (unfold remove_client; unfold clients_of in E; by rewrite E).
    unfold wp, mbind, M_bind, run_clients. rewrite Hr. cbn. split; [done|]. split; try done; [by exists []; rewrite app_nil_r|by left].
Qed.

(** ** Groups *)

Lemma client_attach_ok c i g p : clients c !! i = Some p →
  client_group_attach i g true c = Ok (bool_decide (g ∉ groups p))
    (update_client i (with_groups (groups p ∪ {[g]})) (send_event (MsGroupAttach (MmClients.issi p) {[g]}) c)).
Proof. intros Hc. unfold client_group_attach. cbn. by rewrite Hc. Qed.

Lemma client_detach_ok c i g p : clients c !! i = Some p →
  client_group_attach i g false c = Ok (bool_decide (g ∈ groups p)) (update_client i (with_groups (groups p ∖ {[g]})) c).
Proof. intros Hc. unfold client_group_attach. cbn. by rewrite Hc. Qed.

Lemma client_attach_unknown c i g b : clients c !! i = None → client_group_attach i g b c = Err (ClientNotFound i) c.
Proof. intros Hc. unfold client_group_attach. cbn. by rewrite Hc. Qed.

(** Nothing but the queue, the telemetry and the recovery bookkeeping changes. *)
Definition quiet {A} (m : MM A) : Prop := ∀ w,
  wp m (λ _ w', clients_of w' = clients_of w ∧ subs_of w' = subs_of w ∧ grows (λ _, False) w w') w.

Lemma quiet_ret {A} (a : A) : quiet (mret a).
Proof. intros w. split_and!; [done|done|apply grows_refl]. Qed.

Lemma quiet_bind {A C} (m : MM A) (k : A → MM C) : quiet m → (∀ a, quiet (k a)) → quiet (m ≫= k).
Proof.
  intros Hm Hk w. apply wp_bind. eapply wp_mono; [by apply Hm|]. intros a w1 (H1 & H2 & H3).
  eapply wp_mono; [apply Hk|]. intros c w2 (G1 & G2 & G3). split_and!; [congruence|congruence|by eapply grows_trans].
Qed.

Lemma quiet_gets {A} (f : MmWorld → A) : quiet (gets f).
Proof. intros w. split_and!; [done|done|apply grows_refl]. Qed.

Lemma quiet_get : quiet get.
Proof. intros w. split_and!; [done|done|apply grows_refl]. Qed.

Lemma quiet_push m : out_ok m → quiet (push_back m).
Proof. intros Hm w. split_and!; [done|done|]. split; try done; [|by left]. exists [m]. split; [done|by constructor]. Qed.

Lemma quiet_emit e : quiet (emit e).
Proof. intros w. split_and!; [done|done|]. split; try done; [by exists []; rewrite app_nil_r|by left]. Qed.

Lemma quiet_modify_mm f : (∀ s, mm_config (f s) = mm_config s ∧ mm_client_mgr (f s) = mm_client_mgr s) → quiet (modify_mm f).
Proof.
  intros Hf w. destruct (Hf (mw_mm w)) as [H1 H2]. unfold wp, modify_mm, clients_of.
  split_and!; [cbn; by rewrite H2|done|]. split; cbn; try done; [by exists []; rewrite app_nil_r|]. unfold clients_of. cbn. rewrite H2. by left.
Qed.

Lemma quiet_send n w bs handle i : writes w bs → length bs ≤ 3000 → quiet (send_pdu n w handle i).
Proof.
  intros Hw Hl s. destruct (send_pdu_ok n w bs handle i s Hw (short_enough _ Hl)) as (sdu & Hh & Heq).
  unfold wp. rewrite Heq. by apply (quiet_push _ (out_ok_sdu _ _ _ _ _ Hh)).
Qed.

Lemma quiet_command i handle : quiet (send_d_location_update_command i handle).
Proof. eapply quiet_send; [apply command_writes|cbn; lia]. Qed.

Create HintDb quiet discriminated.
#[export] Hint Resolve quiet_ret quiet_gets quiet_get quiet_emit quiet_command : quiet.
Ltac quiet_step := first
  [ solve [auto with quiet] | apply quiet_bind; [|intros]
  | apply quiet_modify_mm; intros; split; solve [reflexivity | repeat case_match; reflexivity]
  | apply quiet_push; done | case_match ].
Ltac quiet := repeat (cbv beta zeta; quiet_step).

Lemma quiet_subscriber_update i gs a : quiet (emit_subscriber_update i gs a).
Proof. unfold emit_subscriber_update, config. quiet. Qed.
Lemma quiet_snapshots i : quiet (emit_group_snapshots i).
Proof. unfold emit_group_snapshots, subscribers. quiet. Qed.
Lemma quiet_mark_dirty : quiet recovery_mark_dirty.
Proof. unfold recovery_mark_dirty. quiet. Qed.
Lemma quiet_confirm i : quiet (recovery_confirm i).
Proof. unfold recovery_confirm. quiet. Qed.
#[export] Hint Resolve quiet_subscriber_update quiet_snapshots quiet_mark_dirty quiet_confirm : quiet.

(** ** Steps on one terminal *)

Definition groups_in (i : Z) (w : MmWorld) : gset Z := from_option groups ∅ (clients_of w !! i).

(** The subscriber registry has all groups of the terminal. *)
Definition synced (i : Z) (w : MmWorld) : Prop := attached_groups_of i (subs_of w) = groups_in i w.

(** The record of terminal [i] changes by [F], its groups also among the
    subscribers, and no other terminal changes. *)
Record client_step (i : Z) (F : MmClientProperties → MmClientProperties) (w w' : MmWorld) : Prop := {
  cs_inv : mm_inv w';
  cs_grows : grows (λ _, False) w w';
  cs_others j : j ≠ i → clients_of w' !! j = clients_of w !! j ∧ sr_subscribers (subs_of w') !! j = sr_subscribers (subs_of w) !! j;
  cs_client : clients_of w' !! i = F <$> clients_of w !! i;
  cs_sync : synced i w → synced i w';
  cs_registered : is_registered i (subs_of w) = true → is_registered i (subs_of w') = true
}.

Lemma client_step_trans i F G w1 w2 w3 : client_step i F w1 w2 → client_step i G w2 w3 → client_step i (λ p, G (F p)) w1 w3.
Proof.
  intros [H1 H2 H3 H4 H5 H6] [G1 G2 G3 G4 G5 G6]. split; [done|by eapply grows_trans| |..|auto|auto].
  - intros j Hj. destruct (H3 j Hj) as [<- <-]. by apply G3.
  - rewrite G4, H4. by destruct (clients_of w1 !! i).
Qed.

Lemma client_step_ext i F G w w' : (∀ p, F p = G p) → client_step i F w w' → client_step i G w w'.
Proof. intros He [H1 H2 H3 H4 H5 H6]. split; try done. rewrite H4. by destruct (clients_of w !! i); cbn; rewrite ?He. Qed.

Lemma quiet_client_step i w w' : mm_inv w → clients_of w' = clients_of w → subs_of w' = subs_of w → grows (λ _, False) w w' →
  client_step i (λ p, p) w w'.
Proof.
  intros Hw H1 H2 H3. split; unfold mm_inv, synced, groups_in in *; rewrite ?H1, ?H2; try done. by destruct (clients_of w !! i).
Qed.

(** A handler that makes such a step; its result may depend on the record. *)
Definition steps (i : Z) (F : MmClientProperties → MmClientProperties) {A} (Q : option MmClientProperties → A → Prop) (m : MM A) : Prop :=
  ∀ w, mm_inv w → wp m (λ a w', Q (clients_of w !! i) a ∧ client_step i F w w') w.

Lemma steps_bind i F G {A C} Q R (m : MM A) (k : A → MM C) : steps i F Q m → (∀ a, steps i G (R a) (k a)) →
  steps i (λ p, G (F p)) (λ o c, ∃ a, Q o a ∧ R a (F <$> o) c) (m ≫= k).
Proof.
  intros Hm Hk w Hw. apply wp_bind. eapply wp_mono; [by apply Hm|]. intros a w1 [Ha H1].
  eapply wp_mono; [apply Hk, H1|]. intros c w2 [Hc H2]. rewrite (cs_client _ _ _ _ H1) in Hc.
  split; [by exists a|by eapply client_step_trans].
Qed.

Lemma steps_weaken i F G {A} (Q R : option MmClientProperties → A → Prop) (m : MM A) : (∀ p, F p = G p) → (∀ o a, Q o a → R o a) →
  steps i F Q m → steps i G R m.
Proof. intros HF HQ Hm w Hw. eapply wp_mono; [by apply Hm|]. intros a w' [??]. split; [auto|by eapply client_step_ext]. Qed.

Lemma steps_quiet i {A} (m : MM A) : quiet m → steps i (λ p, p) (λ _ _, True) m.
Proof. intros Hq w Hw. eapply wp_mono; [by apply Hq|]. intros a w' (?&?&?). split; [done|by apply quiet_client_step]. Qed.

Lemma steps_ret i {A} (a : A) : steps i (λ p, p) (λ _ a', a' = a) (mret a).
Proof. intros w Hw. split; [done|]. by apply quiet_client_step, grows_refl. Qed.

(** A quiet handler before or after. *)
Lemma steps_after i F {A C} Q (m : MM A) (k : A → MM C) : quiet m → (∀ a, steps i F Q (k a)) → steps i F Q (m ≫= k).
Proof.
  intros Hm Hk. eapply steps_weaken; [| |eapply (steps_bind i (λ p, p) F); [by apply steps_quiet|exact Hk]]; [done|].
  intros [p|] c (a & _ & HQ); exact HQ.
Qed.

(** The world with other registries. *)
Definition book_world (w : MmWorld) (c : MmClientMgr) (r : SubscriberRegistry) : MmWorld :=
  mkMmWorld (set_client_mgr c (mw_mm w)) (mkStackState r (st_issi_whitelist_override (mw_state w))
    (st_active_call_ts (mw_state w)) (st_ee_monitoring_windows (mw_state w))) (mw_queue w).

Lemma book_world_state w c : mkMmWorld (set_client_mgr c (mw_mm w)) (mw_state w) (mw_queue w) = book_world w c (subs_of w).
Proof. unfold book_world, subs_of. by destruct (mw_state w). Qed.

Lemma grows_book new w c r : (∀ j, is_Some (clients c !! j) → is_Some (clients_of w !! j) ∨ new j) → grows new w (book_world w c r).
Proof. intros Hc. split; try done. exists []. by rewrite app_nil_r. Qed.

Lemma step_book i F w c r : book_inv (clients c) r → clients c = alter F i (clients_of w) →
  (∀ j, i ≠ j → sr_subscribers r !! j = sr_subscribers (subs_of w) !! j) →
  (attached_groups_of i (subs_of w) = from_option groups ∅ (clients_of w !! i) →
    attached_groups_of i r = from_option groups ∅ (F <$> clients_of w !! i)) →
  (is_registered i (subs_of w) = true → is_registered i r = true) → client_step i F w (book_world w c r).
Proof.
  intros Hb Hc Hr Hs Hreg. assert (clients c !! i = F <$> clients_of w !! i) as Hi by (by rewrite Hc, lookup_alter_eq). split.
  - exact Hb.
  - apply grows_book. rewrite Hc. intros j [p Hp]. left. apply lookup_alter_Some in Hp as [(<- & q & Hq & _)|[_ Hp]]; by eexists.
  - intros j Hj. split; [|by apply Hr]. change (clients c !! j = clients_of w !! j). by rewrite Hc, lookup_alter_ne.
  - exact Hi.
  - unfold synced, groups_in. change (clients_of (book_world w c r)) with (clients c). rewrite Hi. exact Hs.
  - exact Hreg.
Qed.

(** A change of a record that keeps number and groups. *)
Definition plain_update (F : MmClientProperties → MmClientProperties) : Prop :=
  ∀ p, MmClients.issi (F p) = MmClients.issi p ∧ groups (F p) = groups p.

Lemma same_clients_alter cl i F : plain_update F → same_clients cl (alter F i cl).
Proof.
  intros HF j. destruct (decide (i = j)) as [<-|]; [|by rewrite lookup_alter_ne]. rewrite lookup_alter_eq.
  destruct (cl !! i) as [p|]; [|done]. cbn. unfold identity. by destruct (HF p) as [-> ->].
Qed.

Lemma step_plain i F w c : mm_inv w → plain_update F → clients c = alter F i (clients_of w) → client_step i F w (book_world w c (subs_of w)).
Proof.
  intros Hw HF Hc. apply step_book; try done.
  - rewrite Hc. eapply book_same_clients; [by apply same_clients_alter|done].
  - intros ->. destruct (clients_of w !! i) as [p|]; [|done]. symmetry. apply HF.
Qed.

Lemma clients_alter i F c : clients (update_client i F c) = alter F i (clients c).
Proof.
  unfold update_client. destruct (clients c !! i) as [p|] eqn:E; cbn; apply map_eq; intros j; (destruct (decide (i = j)) as [<-|]; [rewrite lookup_alter_eq, E|by rewrite lookup_alter_ne, ?lookup_insert_ne]).
  - by rewrite lookup_insert_eq.
  - done.
Qed.

Lemma steps_update i F : plain_update F → steps i F (λ _ _, True) (modify_clients (update_client i F)).
Proof.
  intros HF w Hw. unfold wp, modify_clients, run_clients. cbn [fst snd]. rewrite book_world_state. split; [done|].
  apply step_plain; [done|done|apply clients_alter].
Qed.

Lemma modify_client_run i F c : modify_client i F c =
  if client_is_known i c then Ok tt (update_client i F c) else Err (ClientNotFound i) (update_client i F c).
Proof.
  unfold modify_client, client_is_known, update_client. destruct (clients c !! i) eqn:E; [by rewrite bool_decide_true by (by eexists)|].
  by rewrite bool_decide_false by (by intros [??]).
Qed.

Definition known_result {A} (o : option MmClientProperties) (r : A + ClientMgrErr) : Prop :=
  match r with inl _ => is_Some o | inr _ => o = None end.

Lemma steps_modify i F : plain_update F → steps i F known_result (try_clients (modify_client i F)).
Proof.
  intros HF w Hw. unfold wp, try_clients. rewrite modify_client_run. unfold client_is_known. fold (clients_of w).
  case_bool_decide as Hk; rewrite book_world_state; (split; [|apply step_plain; [done|done|apply clients_alter]]).
  - exact Hk.
  - by apply eq_None_not_Some.
Qed.

Lemma steps_esm i m : steps i (with_energy_saving_mode m) known_result (try_clients (set_client_energy_saving_mode i m)).
Proof.
  intros w Hw. unfold wp, try_clients, set_client_energy_saving_mode, mbind, M_bind. rewrite modify_client_run. unfold client_is_known. fold (clients_of w).
  case_bool_decide as Hk; cbn; rewrite book_world_state; (split; [|apply step_plain; [done|done|apply clients_alter]]).
  - exact Hk.
  - by apply eq_None_not_Some.
Qed.

(** ** Groups *)

(** The group of a request, if MM supports its form, and what becomes of the
    terminal's groups and of the answer. *)
Definition giu_supported (giu : GroupIdentityUplink) : option Z :=
  gssi ← giu_gssi giu; if is_some (giu_vgssi giu) || is_some (giu_address_extension giu) then None else Some gssi.
Definition apply_giu (gs : gset Z) (giu : GroupIdentityUplink) : gset Z :=
  match giu_supported giu with
  | None => gs
  | Some g => match giu_detachment_uplink giu with Some _ => gs ∖ {[g]} | None => gs ∪ {[g]} end
  end.
Definition gid_of (giu : GroupIdentityUplink) : option GroupIdentityDownlink :=
  g ← giu_supported giu;
  Some (match giu_detachment_uplink giu with
    | Some d => detached_gid d g | None => attached_gid (default 0%Z (giu_class_of_usage giu)) g end).

Definition upd_groups (f : gset Z → gset Z) (p : MmClientProperties) : MmClientProperties := with_groups (f (groups p)) p.

Lemma with_groups_id p : with_groups (groups p) p = p.
Proof. by destruct p. Qed.

Lemma giu_supported_u giu g : giu_sane giu → giu_supported giu = Some g → is_u 24 g.
Proof.
  intros (_ & _ & Hg). unfold giu_supported. destruct (giu_gssi giu); [|done]. cbn. case_match; [done|]. by intros [= <-].
Qed.

Lemma gid_of_plain giu gid : giu_sane giu → gid_of giu = Some gid → gid_plain gid.
Proof.
  intros Hs. unfold gid_of. destruct (giu_supported giu) as [g|] eqn:E; [|done]. pose proof (giu_supported_u giu g Hs E) as Hg.
  destruct Hs as (Hc & Hd & _). cbn. intros [= <-]. destruct (giu_detachment_uplink giu) as [d|].
  - right. by exists d, g.
  - left. exists (default 0%Z (giu_class_of_usage giu)), g. split_and!; [done| |done]. destruct (giu_class_of_usage giu); [done|is_u_small].
Qed.

Lemma is_registered_affiliate i g r : is_registered i (affiliate i g r) = true.
Proof. unfold is_registered. by rewrite subscribers_affiliate, lookup_insert_eq. Qed.
Lemma is_registered_deaffiliate i g r : is_registered i (deaffiliate i g r) = true.
Proof. unfold is_registered. by rewrite subscribers_deaffiliate, lookup_insert_eq. Qed.

Lemma alter_insert {A} (f : A → A) i (m : gmap Z A) x : m !! i = Some x → alter f i m = <[i := f x]> m.
Proof.
  intros Hx. apply map_eq. intros j. destruct (decide (i = j)) as [<-|]; [by rewrite lookup_alter_eq, lookup_insert_eq, Hx|].
  by rewrite lookup_alter_ne, lookup_insert_ne.
Qed.

Lemma alter_unknown {A} (f : A → A) i (m : gmap Z A) : m !! i = None → alter f i m = m.
Proof. intros Hx. apply map_eq. intros j. destruct (decide (i = j)) as [<-|]; [by rewrite lookup_alter_eq, Hx|by rewrite lookup_alter_ne]. Qed.

(** A group added, and affiliated if [b]. *)
Lemma attach_step i g w p c (b : bool) : mm_inv w → clients_of w !! i = Some p → is_u 24 g → (g ∉ groups p → b = true) →
  clients c = alter (upd_groups (λ gs, gs ∪ {[g]})) i (clients_of w) →
  client_step i (upd_groups (λ gs, gs ∪ {[g]})) w (book_world w c (if b then affiliate i g (subs_of w) else subs_of w)).
Proof.
  intros Hw Hp Hg Hb Hc. pose proof Hc as Hc'. rewrite (alter_insert _ _ _ p Hp) in Hc'. unfold upd_groups in Hc' at 1.
  assert (book_inv (clients c) (subs_of w)) as Hinv by (rewrite Hc'; by apply book_attach).
  apply step_book; [|done|..].
  - destruct b; [|done]. eapply book_affiliate; [done|by rewrite Hc', lookup_insert_eq|cbn; set_solver].
  - intros j Hj. destruct b; [|done]. by rewrite subscribers_affiliate, lookup_insert_ne.
  - rewrite Hp. cbn. intros Ha. destruct b; [rewrite attached_affiliate; set_solver|].
    destruct (decide (g ∈ groups p)); [set_solver|]. by discriminate Hb.
  - destruct b; [|done]. intros _. apply is_registered_affiliate.
Qed.

(** A group removed, and deaffiliated if [b]. *)
Lemma detach_step i g w p c (b : bool) : mm_inv w → clients_of w !! i = Some p → (g ∈ groups p → b = true) →
  clients c = alter (upd_groups (λ gs, gs ∖ {[g]})) i (clients_of w) →
  client_step i (upd_groups (λ gs, gs ∖ {[g]})) w (book_world w c (if b then deaffiliate i g (subs_of w) else subs_of w)).
Proof.
  intros Hw Hp Hb Hc. pose proof (covered _ _ Hw i p Hp) as Hcov. pose proof Hc as Hc'. rewrite (alter_insert _ _ _ p Hp) in Hc'.
  apply step_book; [|done|..].
  - rewrite Hc'. destruct b.
    + apply (book_set _ _ Hw); [apply deaffiliate_ok, Hw| |apply Hw|exact (bi_clients _ _ Hw i p Hp)| |].
      * intros j Hne. by rewrite subscribers_deaffiliate, lookup_insert_ne.
      * rewrite attached_deaffiliate. cbn. set_solver.
      * cbn. intros g' Hg'. apply (bi_groups _ _ Hw i p); [done|set_solver].
    + unfold upd_groups. replace (groups p ∖ {[g]}) with (groups p).
      * rewrite with_groups_id. by rewrite insert_id.
      * destruct (decide (g ∈ groups p)); [by discriminate Hb|set_solver].
  - intros j Hj. destruct b; [|done]. by rewrite subscribers_deaffiliate, lookup_insert_ne.
  - rewrite Hp. cbn. intros Ha. destruct b; [rewrite attached_deaffiliate; set_solver|].
    destruct (decide (g ∈ groups p)); [by discriminate Hb|set_solver].
  - destruct b; [|done]. intros _. apply is_registered_deaffiliate.
Qed.

(** The two outcomes of a change of one group. *)
Lemma try_attach_known i g b w p : clients_of w !! i = Some p →
  ∃ c, try_clients (client_group_attach i g b) w =
      Ok (inl (if b then bool_decide (g ∉ groups p) else bool_decide (g ∈ groups p))) (book_world w c (subs_of w)) ∧
    clients c = alter (upd_groups (λ gs, if b then gs ∪ {[g]} else gs ∖ {[g]})) i (clients_of w).
Proof.
  intros Hp. unfold try_clients. destruct b.
  - rewrite (client_attach_ok _ i g p Hp), book_world_state. eexists. split; [done|]. rewrite clients_alter. cbn.
    change (clients (mm_client_mgr (mw_mm w))) with (clients_of w). by rewrite !(alter_insert _ _ _ p Hp).
  - rewrite (client_detach_ok _ i g p Hp), book_world_state. eexists. split; [done|]. rewrite clients_alter.
    change (clients (mm_client_mgr (mw_mm w))) with (clients_of w). by rewrite !(alter_insert _ _ _ p Hp).
Qed.

Lemma try_attach_unknown i g b w : clients_of w !! i = None → try_clients (client_group_attach i g b) w = Ok (inr (ClientNotFound i)) w.
Proof. intros Hp. unfold try_clients. rewrite client_attach_unknown by exact Hp. by destruct w as [[] ? ?]. Qed.

(** Nothing happens to an unknown terminal. *)
Lemma client_step_unknown i F w : mm_inv w → clients_of w !! i = None → client_step i F w w.
Proof. intros Hw Hn. split; try done; [apply grows_refl|]. by rewrite Hn. Qed.

Lemma client_step_refl i F w : mm_inv w → (∀ p, F p = p) → client_step i F w w.
Proof. intros Hw HF. eapply client_step_ext; [intros p; symmetry; apply HF|]. by apply quiet_client_step, grows_refl. Qed.

Lemma steps_attach_group i giu acc : giu_sane giu →
  steps i (upd_groups (λ gs, apply_giu gs giu))
    (λ o acc', acc'.1.1 = acc.1.1 ++ (if is_some o then option_list (gid_of giu) else [])) (attach_detach_group i giu acc).
Proof.
  intros Hs w Hw. unfold attach_detach_group. destruct acc as [[accepted aff] deaff]. unfold apply_giu, gid_of.
  destruct (giu_supported giu) as [g|] eqn:E; pose proof E as E'; unfold giu_supported in E'.
  - pose proof (giu_supported_u _ _ Hs E) as Hg. destruct (giu_gssi giu) as [g'|]; [|done]. cbn in E'.
    destruct (is_some (giu_vgssi giu) || is_some (giu_address_extension giu)); [done|]. injection E' as ->.
    destruct (clients_of w !! i) as [p|] eqn:Ep; cbn [is_some].
    + destruct (giu_detachment_uplink giu) as [d|]; apply wp_bind.
      * destruct (try_attach_known i g false w p Ep) as (c & Heq & Hc). unfold wp at 1. rewrite Heq. cbn [mbind option_bind option_list].
        pose proof (λ b Hb, detach_step i g w p c b Hw Ep Hb Hc) as Hd. case_bool_decide; (split; [done|]); [by apply (Hd true)|by apply (Hd false)].
      * destruct (try_attach_known i g true w p Ep) as (c & Heq & Hc). unfold wp at 1. rewrite Heq. cbn [mbind option_bind option_list].
        pose proof (λ b Hb, attach_step i g w p c b Hw Ep Hg Hb Hc) as Hd. case_bool_decide; (split; [done|]); [by apply (Hd true)|by apply (Hd false)].
    + destruct (giu_detachment_uplink giu); apply wp_bind; unfold wp at 1; rewrite try_attach_unknown by done;
        (split; [cbn; by rewrite app_nil_r|by apply client_step_unknown]).
  - assert (client_step i (upd_groups (λ gs, gs)) w w) by (apply client_step_refl; [done|apply with_groups_id]).
    destruct (giu_gssi giu) as [g'|]; cbn in E'.
    + destruct (is_some (giu_vgssi giu) || is_some (giu_address_extension giu)); [|done]. split; [|done]. cbn. case_match; by rewrite app_nil_r.
    + split; [|done]. cbn. case_match; by rewrite app_nil_r.
Qed.

Lemma steps_attach_loop i giu_vec acc : Forall giu_sane giu_vec →
  steps i (upd_groups (λ gs, foldl apply_giu gs giu_vec))
    (λ o acc', acc'.1.1 = acc.1.1 ++ (if is_some o then omap gid_of giu_vec else [])) (attach_detach_loop i giu_vec acc).
Proof.
  intros Hs. revert acc. induction Hs as [|giu giu_vec Hg Hs IH]; intros acc; cbn [attach_detach_loop].
  - eapply steps_weaken; [| |apply steps_ret]; [intros p; symmetry; apply with_groups_id|].
    intros o a ->. by destruct (is_some o); rewrite app_nil_r.
  - eapply steps_weaken; [| |eapply steps_bind; [by apply steps_attach_group|intros a; apply IH]]; [done|].
    intros o c (a & Ha & ->). rewrite Ha. destruct o; cbn [is_some fmap option_fmap option_map]; rewrite <- app_assoc; [|done].
    cbn. by destruct (gid_of giu).
Qed.

Lemma steps_attach_groups i giu_vec : Forall giu_sane giu_vec →
  steps i (upd_groups (λ gs, foldl apply_giu gs giu_vec))
    (λ o accepted, accepted = if is_some o then omap gid_of giu_vec else []) (try_attach_detach_groups i giu_vec).
Proof.
  intros Hs. unfold try_attach_detach_groups.
  eapply steps_weaken; [| |eapply (steps_bind i _ (λ p, p)); [by apply (steps_attach_loop i giu_vec ([], [], []))|]]; [done|..].
  2: { intros [[accepted aff] deaff]. instantiate (1 := λ acc _ a, a = acc.1.1). cbn beta.
    repeat (apply steps_after; [quiet|intros _]). apply steps_ret. }
  intros o c (a & Ha & ->). exact Ha.
Qed.

Section orders.
Context (env : MmEnv) (Henv : env_ok env).

Lemma env_groups_set gs : list_to_set (env_groups env gs) = gs.
Proof. rewrite (eo_groups env Henv gs). apply list_to_set_elements_L. Qed.

Lemma env_groups_nil gs : env_groups env gs = [] → gs = ∅.
Proof. intros Hn. by rewrite <- (env_groups_set gs), Hn. Qed.

Lemma client_groups_run i w : client_groups env i w = Ok (match clients_of w !! i with Some p => env_groups env (groups p) | None => [] end) w.
Proof. done. Qed.

(** All groups of a terminal dropped from both registries. *)
Lemma drop_step i w p c : mm_inv w → clients_of w !! i = Some p → clients c = alter (upd_groups (λ _, ∅)) i (clients_of w) →
  let w' := book_world w c (foldl (λ r g, deaffiliate i g r) (subs_of w) (env_groups env (groups p))) in
  client_step i (upd_groups (λ _, ∅)) w w' ∧ synced i w'.
Proof.
  intros Hw Hp Hc w'. pose proof (covered _ _ Hw i p Hp) as Hcov. pose proof Hc as Hc'. rewrite (alter_insert _ _ _ p Hp) in Hc'.
  destruct (deaffiliate_all_spec i (env_groups env (groups p)) (subs_of w) (bi_registry _ _ Hw)) as (H1 & H2 & H3 & H4 & H5).
  rewrite env_groups_set in H2. assert (attached_groups_of i (subs_of w) ∖ groups p = ∅) as H2' by set_solver. rewrite H2' in H2. split.
  - apply step_book; [|done|done| |by intros ?; apply H5; right].
    + rewrite Hc'. apply (book_set _ _ Hw); [done|done|rewrite H4; apply Hw|exact (bi_clients _ _ Hw i p Hp)| |].
      * rewrite H2. cbn. set_solver.
      * cbn. set_solver.
    + intros _. rewrite H2, Hp. done.
  - unfold synced, groups_in. change (clients_of w') with (clients c). rewrite Hc', lookup_insert_eq. exact H2.
Qed.

Lemma detach_all_run i w : ∃ c, try_clients (client_detach_all_groups i) w =
    Ok (if is_some (clients_of w !! i) then inl true else inr (ClientNotFound i)) (book_world w c (subs_of w)) ∧
  clients c = alter (upd_groups (λ _, ∅)) i (clients_of w).
Proof.
  unfold try_clients, client_detach_all_groups. change (clients (mm_client_mgr (mw_mm w))) with (clients_of w).
  destruct (clients_of w !! i) as [p|] eqn:Ep; rewrite book_world_state; eexists; (split; [done|]).
  - rewrite clients_alter. cbn. change (clients (mm_client_mgr (mw_mm w))) with (clients_of w). by rewrite !(alter_insert _ _ _ p Ep).
  - by rewrite alter_unknown.
Qed.

Lemma drop_groups_ok i w : mm_inv w → wp (drop_groups env i) (λ b w', b = is_some (clients_of w !! i) ∧
  client_step i (upd_groups (λ _, ∅)) w w' ∧ synced i w') w.
Proof.
  intros Hw. unfold drop_groups. apply wp_bind. unfold wp at 1. rewrite client_groups_run. apply wp_bind.
  destruct (detach_all_run i w) as (c & Heq & Hc). unfold wp at 1. rewrite Heq.
  destruct (clients_of w !! i) as [p|] eqn:Ep; cbn [is_some].
  - pose proof (drop_step i w p c Hw Ep Hc) as Hstep. cbv zeta in Hstep. apply wp_bind. case_decide as Hn.
    + rewrite Hn in Hstep. by split.
    + apply wp_bind. set (w1 := book_world w c (foldl (λ r g, deaffiliate i g r) (subs_of w) (env_groups env (groups p)))) in *. destruct Hstep as [Hs Hy].
      change (wp (emit_subscriber_update i (env_groups env (groups p)) BrewSubscriberAction_Deaffiliate)
        (λ _ w', wp (mret true) (λ b w', b = true ∧ client_step i (upd_groups (λ _, ∅)) w w' ∧ synced i w') w') w1).
      eapply wp_mono; [apply (steps_quiet i); [apply quiet_subscriber_update|apply Hs]|]. intros a w' [_ H2].
      split_and!; [done| |by apply (cs_sync _ _ _ _ H2)].
      by apply (client_step_ext _ _ _ _ _ (λ p, eq_refl) (client_step_trans _ _ _ _ _ _ Hs H2)).
  - rewrite alter_unknown in Hc by done. assert (client_step i (upd_groups (λ _, ∅)) w (book_world w c (subs_of w))) as Hs.
    { apply step_book; [by rewrite Hc|by rewrite alter_unknown|done|by rewrite Ep|done]. }
    split; [done|]. split; [done|]. apply (cs_sync _ _ _ _ Hs). unfold synced, groups_in. rewrite Ep. cbn. unfold attached_groups_of.
    by rewrite (unknown_unregistered _ _ Hw i Ep).
Qed.

(** The stored groups affiliated again. *)
Lemma reaffiliate_ok i w : mm_inv w → wp (reaffiliate_stored env i) (λ _ w', client_step i (λ p, p) w w' ∧ synced i w') w.
Proof.
  intros Hw. unfold reaffiliate_stored. apply wp_bind. unfold wp at 1. rewrite client_groups_run.
  assert (client_step i (λ p, p) w w) as Hr by (by apply client_step_refl).
  destruct (clients_of w !! i) as [p|] eqn:Ep.
  - pose proof (covered _ _ Hw i p Ep) as Hcov. case_decide as Hn.
    + split; [done|]. apply env_groups_nil in Hn. unfold synced, groups_in. rewrite Ep. cbn. rewrite Hn in *. set_solver.
    + apply wp_bind. set (gs := env_groups env (groups p)). destruct (affiliate_all_spec i gs (subs_of w) (bi_registry _ _ Hw)) as (H1 & H2 & H3 & H4 & H5).
      unfold gs in H2 at 2. rewrite env_groups_set in H2. assert (attached_groups_of i (subs_of w) ∪ groups p = groups p) as H2' by set_solver. rewrite H2' in H2.
      set (w1 := mkMmWorld (mw_mm w) (mkStackState (foldl (λ r g, affiliate i g r) (subs_of w) gs) (st_issi_whitelist_override (mw_state w))
        (st_active_call_ts (mw_state w)) (st_ee_monitoring_windows (mw_state w))) (mw_queue w)).
      assert (client_step i (λ p, p) w w1 ∧ synced i w1) as [Hs Hy].
      { assert (w1 = book_world w (mm_client_mgr (mw_mm w)) (foldl (λ r g, affiliate i g r) (subs_of w) gs)) as -> by (by destruct w as [[] ? ?]).
        split; [|unfold synced, groups_in; change (clients_of (book_world _ _ _)) with (clients_of w); by rewrite Ep].
        apply step_book; [|by rewrite (alter_insert _ _ _ p Ep), insert_id|done|by rewrite Ep|intros _; apply H5; by left].
        apply (book_registry _ _ Hw); [done| |done]. intros j s Hj. destruct (decide (i = j)) as [<-|Hne].
        - exists p. split; [done|]. unfold attached_groups_of in H2. rewrite Hj in H2. set_solver.
        - apply (bi_covered _ _ Hw). by rewrite <- H3. }
      change (wp (emit_subscriber_update i gs BrewSubscriberAction_Affiliate;; emit_group_snapshots i)
        (λ _ w', client_step i (λ p, p) w w' ∧ synced i w') w1).
      eapply wp_mono; [apply (steps_quiet i); [quiet|apply Hs]|]. intros a w' [_ H6]. split; [|by apply (cs_sync _ _ _ _ H6)].
      by apply (client_step_ext _ _ _ _ _ (λ p, eq_refl) (client_step_trans _ _ _ _ _ _ Hs H6)).
  - case_decide; [|done]. split; [done|]. unfold synced, groups_in, attached_groups_of. by rewrite Ep, (unknown_unregistered _ _ Hw i Ep).
Qed.

(** A location update with groups: what the answer says of them. *)
Definition answered_groups (gild : GroupIdentityLocationDemand) : option (list GroupIdentityDownlink) :=
  match group_identity_location_demand_group_identity_uplink gild with Some giu => Some (omap gid_of giu) | None => None end.
Definition replaces (gild : GroupIdentityLocationDemand) : bool :=
  (group_identity_location_demand_group_identity_attach_detach_mode gild =? 1)%Z.
Definition reported_groups (gild : GroupIdentityLocationDemand) (gs : gset Z) : gset Z :=
  foldl apply_giu (if replaces gild then ∅ else gs) (default [] (group_identity_location_demand_group_identity_uplink gild)).

Lemma demand_groups_ok i gild w : mm_inv w → groups_sane (group_identity_location_demand_group_identity_uplink gild) →
  is_Some (clients_of w !! i) →
  wp (demand_groups env i gild) (λ gila w', gila = mkGroupIdentityLocationAccept 0 (answered_groups gild) ∧
    client_step i (upd_groups (reported_groups gild)) w w' ∧ (replaces gild = true → synced i w')) w.
Proof.
  intros Hw Hs [p Hp]. unfold demand_groups. fold (replaces gild). apply wp_bind.
  eapply (wp_mono _ (λ _ w1, client_step i (upd_groups (λ gs, if replaces gild then ∅ else gs)) w w1 ∧ (replaces gild = true → synced i w1))).
  { destruct (replaces gild).
    - apply wp_bind. eapply wp_mono; [by apply drop_groups_ok|]. intros b w1 (_ & H1 & H2). by split.
    - split; [|done]. apply client_step_refl; [done|apply with_groups_id]. }
  intros _ w1 [H1 Hy]. apply wp_bind. unfold answered_groups, reported_groups.
  destruct (group_identity_location_demand_group_identity_uplink gild) as [giu|]; cbn [default fmap option_fmap option_map].
  - apply wp_bind. eapply wp_mono; [apply (steps_attach_groups i giu); [by apply Hs|apply H1]|]. intros accepted w2 [-> H2].
    rewrite (cs_client _ _ _ _ H1), Hp. cbn [is_some fmap option_fmap option_map]. split; [done|]. split.
    + by apply (client_step_ext _ _ _ _ _ (λ p, eq_refl) (client_step_trans _ _ _ _ _ _ H1 H2)).
    + intros Hr. by apply (cs_sync _ _ _ _ H2), Hy.
  - by split.
Qed.
End orders.
