(* ===== verification/MmBsThms.v ===== *)
(** The MM entity: what a location update leads to, that every message and tick
    is handled with the invariant kept, and recovery after a restart. *)
From S2P Require Import Prelude Bits Core BitBuffer BitBufferSpec BitCodec BitBufferThms FieldCodec TypedFieldsSpec PduCodec TdmaTime.
From S2P Require Import SsiRanges Subscribers MmClients MmClientsSpec MmEnums MmPdus MmPdusSpec TxReceipt MacDl Saps MmBs MmBsSpec MmBsRx.
From stdpp Require Import sorting.

(** * Registration *)

(** [m] acknowledges terminal [i] with the PDU [pdu]. *)
Definition carries {A} (p : B A) (pdu : A) (handle i : Z) (m : SapMsg) : Prop :=
  ∃ sdu bs, m = lmm_req sdu handle (Core.issi i) L2Acknowledged ∧ pdu_holds sdu bs ∧ reads p bs pdu.

Lemma send_carried {A} n w (p : B A) a handle i s : carried 3000 w p a →
  ∃ m, carries p a handle i m ∧ out_ok m ∧ send_pdu n w handle i s = Ok tt (mkMmWorld (mw_mm s) (mw_state s) (mw_queue s ++ [m])).
Proof.
  intros (bs & Hw & Hr & Hl). destruct (send_pdu_ok n w bs handle i s Hw (short_enough _ Hl)) as (sdu & Hh & Heq).
  eexists. split; [by exists sdu, bs|]. split; [by exists bs|]. by rewrite Heq.
Qed.

Lemma update_queue i gs a w : ∃ msgs, emit_subscriber_update i gs a w = Ok tt (mkMmWorld (mw_mm w) (mw_state w) (mw_queue w ++ msgs)) ∧ Forall out_ok msgs.
Proof.
  unfold emit_subscriber_update, config. unfold mbind, M_bind, gets, push_back, mret, M_ret. cbn.
  destruct (is_some (mc_brew (mm_config (mw_mm w)))); [match goal with |- context [(if ?b then _ else _) w] => destruct b end|]; cbn;
    eexists; rewrite <- ?app_assoc; (split; [done|]); repeat (constructor; try done).
Qed.

Lemma client_step_trans_id i F w1 w2 w3 : client_step i F w1 w2 → client_step i (λ p, p) w2 w3 → client_step i F w1 w3.
Proof. apply (client_step_trans i F (λ p, p)). Qed.

Lemma omap_plain giu : Forall giu_sane giu → Forall gid_plain (omap gid_of giu).
Proof.
  intros Hs. apply Forall_forall. intros gid (g & Hin & Hg)%list_elem_of_omap. rewrite Forall_forall in Hs. by eapply gid_of_plain; [apply Hs|].
Qed.

Lemma omap_length {A C} (f : A → option C) l : length (omap f l) ≤ length l.
Proof. induction l as [|x l IH]; [done|]. cbn. destruct (f x); cbn; lia. Qed.

Lemma answered_fits gild : groups_sane (group_identity_location_demand_group_identity_uplink gild) → opt_gids (answered_groups gild).
Proof.
  unfold answered_groups. destruct (group_identity_location_demand_group_identity_uplink gild) as [giu|]; [|done]. intros [Hs Hl].
  split; [by apply omap_plain|]. pose proof (omap_length gid_of giu). lia.
Qed.

Definition demand_gila (pdu : ULocationUpdateDemand) : option GroupIdentityLocationAccept :=
  mkGroupIdentityLocationAccept 0 ∘ answered_groups <$> u_location_update_demand_group_identity_location_demand pdu.

Lemma demand_gila_fits pdu : demand_sane pdu →
  t3s_ok group_identity_location_accept_ok group_identity_location_accept_bits (demand_gila pdu).
Proof.
  intros [_ Hg]. unfold demand_gila. destruct (u_location_update_demand_group_identity_location_demand pdu) as [gild|]; [|done].
  apply gila_fits. by apply answered_fits.
Qed.

(** The groups of a terminal after its location update. *)
Definition demanded_groups (pdu : ULocationUpdateDemand) (gs : gset Z) : gset Z :=
  match u_location_update_demand_group_identity_location_demand pdu with Some gild => reported_groups gild gs | None => gs end.
Definition replaces_groups (pdu : ULocationUpdateDemand) : bool :=
  match u_location_update_demand_group_identity_location_demand pdu with Some gild => replaces gild | None => false end.

Section registration.
Context (env : MmEnv) (Henv : env_ok env).

(** The record of a terminal after its registration is completed. *)
Definition completed (handle : Z) (pdu : ULocationUpdateDemand) (esi : option EnergySavingInformation) (p : MmClientProperties) :
    MmClientProperties :=
  with_timer (env_now env) false None (with_class_of_ms (u_location_update_demand_class_of_ms pdu)
    (upd_groups (demanded_groups pdu) (with_window (esi ≫= esi_frame_number) (esi ≫= esi_multiframe_number)
      (with_energy_saving_mode (default StayAlive (esi_mode <$> esi)) (with_handle handle p))))).

(** The part before the answer. *)
Lemma before_accept_ok i handle pdu esi is_new w (k : option GroupIdentityLocationAccept → MM unit) Q : mm_inv w → demand_sane pdu → is_Some (clients_of w !! i) →
  (∀ w', client_step i (completed handle pdu esi) w w' →
    (replaces_groups pdu = true ∨ (is_new = false ∧ u_location_update_demand_group_identity_location_demand pdu = None) → synced i w') →
    wp (k (demand_gila pdu)) Q w') →
  wp (modify_clients (set_client_handle i handle);;
      _ ← try_clients (set_client_energy_saving_mode i (default StayAlive (esi_mode <$> esi)));
      _ ← try_clients (set_client_monitoring_window i (esi ≫= esi_frame_number) (esi ≫= esi_multiframe_number));
      gila ← match u_location_update_demand_group_identity_location_demand pdu with
        | Some gild => gila ← demand_groups env i gild; mret (Some gila)
        | None => mret None
        end;
      (if negb is_new && negb (is_some (u_location_update_demand_group_identity_location_demand pdu)) then reaffiliate_stored env i else mret tt);;
      _ ← try_clients (set_client_class_of_ms i (u_location_update_demand_class_of_ms pdu));
      modify_clients (reset_registration_timer (env_now env) i);;
      recovery_mark_dirty;; k gila) Q w.
Proof.
  intros Hw Hd Hk HQ. apply wp_bind. eapply wp_mono; [by apply (steps_update i (with_handle handle))|]. intros _ w1 [_ H1].
  apply wp_bind. eapply wp_mono; [apply steps_esm, H1|]. intros _ w2 [_ H2]. pose proof (client_step_trans _ _ _ _ _ _ H1 H2) as H12. clear H1 H2.
  apply wp_bind. eapply wp_mono; [apply (steps_modify i (with_window _ _)); [done|apply H12]|]. intros _ w3 [_ H3].
  pose proof (client_step_trans _ _ _ _ _ _ H12 H3) as H13. clear H12 H3. apply wp_bind.
  eapply (wp_mono _ (λ gila w4, gila = demand_gila pdu ∧ client_step i (upd_groups (demanded_groups pdu)) w3 w4 ∧ (replaces_groups pdu = true → synced i w4))).
  { unfold demand_gila, demanded_groups, replaces_groups. destruct Hd as [_ Hd].
    destruct (u_location_update_demand_group_identity_location_demand pdu) as [gild|].
    - apply wp_bind. eapply wp_mono; [apply (demand_groups_ok env Henv); [apply H13|exact Hd|rewrite (cs_client _ _ _ _ H13); by apply fmap_is_Some]|].
      intros gila w4 (-> & ? & ?). by split_and!.
    - split_and!; [done| |done]. apply client_step_refl; [apply H13|apply with_groups_id]. }
  intros gila w4 (-> & H4 & Hy). pose proof (client_step_trans _ _ _ _ _ _ H13 H4) as H14. clear H13 H4. apply wp_bind.
  eapply (wp_mono _ (λ _ w5, client_step i (λ p, p) w4 w5 ∧
    (is_new = false ∧ u_location_update_demand_group_identity_location_demand pdu = None → synced i w5))).
  { case_match eqn:E.
    - eapply wp_mono; [apply (reaffiliate_ok env Henv i w4), H14|]. intros a w5 [??]. by split.
    - split; [apply client_step_refl; [apply H14|done]|]. intros [-> Hn]. by rewrite Hn in E. }
  intros _ w5 [H5 Hy5]. pose proof (client_step_trans _ _ _ _ _ _ H14 H5) as H15. apply wp_bind.
  eapply wp_mono; [apply (steps_modify i (with_class_of_ms _)); [done|apply H15]|]. intros _ w6 [_ H6].
  pose proof (client_step_trans _ _ _ _ _ _ H15 H6) as H16. clear H15. apply wp_bind.
  eapply wp_mono; [apply (steps_update i (with_timer (env_now env) false None)); [done|apply H16]|]. intros _ w7 [_ H7].
  pose proof (client_step_trans _ _ _ _ _ _ H16 H7) as H17. clear H16. apply wp_bind.
  eapply wp_mono; [apply (steps_quiet i); [apply quiet_mark_dirty|apply H17]|]. intros _ w8 [_ H8].
  pose proof (client_step_trans _ _ _ _ _ _ H17 H8) as H18. apply HQ; [exact H18|].
  intros Hr. apply (cs_sync _ _ _ _ H8), (cs_sync _ _ _ _ H7), (cs_sync _ _ _ _ H6). destruct Hr as [Hr|Hr]; [by apply (cs_sync _ _ _ _ H5), Hy|by apply Hy5].
Qed.

Lemma scch_fits pdu : t2_ok 6 (u_location_update_demand_class_of_ms pdu ≫= λ c, if clch_needed c || common_scch c then Some 1%Z else None).
Proof. destruct (u_location_update_demand_class_of_ms pdu) as [c|]; [|done]. cbn. case_match; [cbn; is_u_small|done]. Qed.

Lemma accept_pdu_carried secs i pdu esi : is_u 24 i → demand_sane pdu → opt_ok energy_saving_information_ok esi →
  carried 3000 (d_location_update_accept_to_bitbuf (accept_pdu secs i pdu esi (demand_gila pdu)))
    d_location_update_accept_from_bitbuf (accept_pdu secs i pdu esi (demand_gila pdu)).
Proof. intros Hi Hd He. apply accept_carried; [done|done|apply scch_fits|by apply demand_gila_fits]. Qed.

(** A registration that is completed: the record, and the answer. *)
Lemma complete_registration_ok i handle pdu esi is_new w : mm_inv w → is_u 24 i → demand_sane pdu →
  opt_ok energy_saving_information_ok esi → is_Some (clients_of w !! i) →
  wp (complete_registration env i handle pdu esi is_new) (λ _ w', client_step i (completed handle pdu esi) w w' ∧
    (replaces_groups pdu = true ∨ (is_new = false ∧ u_location_update_demand_group_identity_location_demand pdu = None) → synced i w') ∧
    ∃ before after m, mw_queue w' = mw_queue w ++ before ++ m :: after ∧
      carries d_location_update_accept_from_bitbuf
        (accept_pdu (mc_periodic_registration_secs (mm_config (mw_mm w))) i pdu esi (demand_gila pdu)) handle i m) w.
Proof.
  intros Hw Hi Hd He Hk. apply before_accept_ok; [done|done|done|]. intros w1 H1 Hy. apply wp_bind. unfold wp at 1. cbn [config gets].
  apply wp_bind. rewrite (gr_config _ _ _ (cs_grows _ _ _ _ H1)).
  destruct (send_carried 34 _ _ _ handle i w1 (accept_pdu_carried (mc_periodic_registration_secs (mm_config (mw_mm w))) i pdu esi Hi Hd He))
    as (m & Hm & Ho & Hsend). unfold wp at 1. rewrite Hsend.
  set (w2 := mkMmWorld _ _ _). assert (client_step i (λ p, p) w1 w2) as H2.
  { apply quiet_client_step; [apply H1|done|done|]. by apply (quiet_push m Ho w1). }
  assert (quiet (if is_new && negb (is_itsi_attach (u_location_update_demand_location_update_type pdu)) &&
    negb (is_some (u_location_update_demand_group_identity_location_demand pdu)) then send_d_location_update_command i handle else mret tt)) as Hq by quiet.
  eapply wp_mono; [apply (steps_quiet i _ Hq), H2|]. intros _ w3 [_ H3].
  pose proof (client_step_trans_id _ _ _ _ _ H1 (client_step_trans_id _ _ _ _ _ H2 H3)) as H13. split; [exact H13|]. split.
  { intros Hr. by apply (cs_sync _ _ _ _ H3), (cs_sync _ _ _ _ H2), Hy. }
  destruct (gr_queue _ _ _ (cs_grows _ _ _ _ H1)) as (before & Hb & _). destruct (gr_queue _ _ _ (cs_grows _ _ _ _ H3)) as (after & Ha & _).
  exists before, after, m. split; [|exact Hm]. rewrite Ha. unfold w2. cbn [mw_queue]. rewrite Hb, <- !app_assoc. done.
Qed.

(** Operations on the clients leave the subscribers alone. *)
Lemma try_subs {A} (op : R A) Q w : wp (try_clients op) Q w → wp (try_clients op) (λ a w', Q a w' ∧ subs_of w' = subs_of w) w.
Proof. unfold wp, try_clients. by destruct (op _). Qed.
Lemma modify_subs f Q w : wp (modify_clients f) Q w → wp (modify_clients f) (λ a w', Q a w' ∧ subs_of w' = subs_of w) w.
Proof. intros H. by split. Qed.

(** A known terminal is attached again, and registered if it had been dropped. *)
Lemma register_known_ok i pdu w : mm_inv w → is_Some (clients_of w !! i) →
  wp (register_terminal env i pdu false) (λ b w', b = true ∧ is_registered i (subs_of w') = true ∧
    client_step i (λ p, with_state Attached (with_timer (env_now env) false None p)) w w') w.
Proof.
  intros Hw [p Hp]. unfold register_terminal. apply wp_bind. unfold wp at 1. cbn [subscribers gets negb andb orb]. fold (subs_of w).
  apply wp_bind. eapply wp_mono; [apply modify_subs; by apply (steps_update i (with_timer (env_now env) false None))|]. intros _ w1 [[_ H1] Hs1].
  apply wp_bind, wp_bind. eapply wp_mono; [apply try_subs, (steps_modify i (with_state Attached)); [done|apply H1]|].
  intros r w2 [[Hr H2] Hs2]. rewrite (cs_client _ _ _ _ H1), Hp in Hr. destruct r; [|done]. cbn [negb]. apply wp_bind.
  pose proof (client_step_trans _ _ _ _ _ _ H1 H2) as H12. assert (is_Some (clients_of w2 !! i)) as [p2 Hp2] by (rewrite (cs_client _ _ _ _ H12), Hp; by eexists).
  eapply (wp_mono _ (λ _ w3, is_registered i (subs_of w3) = true ∧ client_step i (λ p, p) w2 w3)).
  { destruct (is_registered i (subs_of w)) eqn:Hreg; cbn [negb].
    - split; [by apply (cs_registered _ _ _ _ H12)|]. apply client_step_refl; [apply H12|done].
    - apply wp_bind. unfold wp at 1. cbn -[register].
      set (w3 := mkMmWorld _ _ _). assert (client_step i (λ p, p) w2 w3) as H3.
      { change w3 with (book_world w2 (send_event (MsRegistration i) (mm_client_mgr (mw_mm w2))) (register i (subs_of w2))).
        apply step_book; [by eapply book_register_known; [apply H12|]|by rewrite (alter_insert _ _ _ p2 Hp2), insert_id| | |].
        - intros j Hj. by rewrite subscribers_register, lookup_insert_ne.
        - rewrite Hp2. cbn. rewrite attached_groups_register, decide_True by done. intros <-.
          assert (sr_subscribers (subs_of w2) !! i = None) as Hn; [|unfold attached_groups_of; by rewrite Hn].
          rewrite Hs2, Hs1. unfold is_registered in Hreg. by destruct (sr_subscribers (subs_of w) !! i).
        - intros _. unfold is_registered. by rewrite subscribers_register, lookup_insert_eq. }
      split; [|done]. unfold is_registered. by rewrite subscribers_register, lookup_insert_eq. }
  intros _ w3 [Hreg H3]. apply wp_bind. eapply wp_mono; [apply (steps_quiet i); [quiet|apply H3]|]. intros _ w4 [_ H4].
  split_and!; [done|by apply (cs_registered _ _ _ _ H4)|]. by apply (client_step_trans_id _ _ _ _ _ H12 (client_step_trans_id _ _ _ _ _ H3 H4)).
Qed.

(** A terminal enters both registries, and nothing else changes there. *)
Record entered (i : Z) (w w' : MmWorld) : Prop := {
  en_inv : mm_inv w';
  en_grows : grows (λ j, j = i) w w';
  en_client : clients_of w' !! i = Some (with_state Attached (client_new (env_now env) i));
  en_synced : synced i w';
  en_registered : is_registered i (subs_of w') = true;
  en_others j : j ≠ i → clients_of w' !! j = clients_of w !! j ∧ sr_subscribers (subs_of w') !! j = sr_subscribers (subs_of w) !! j
}.

Lemma grows_weaken (new new' : Z → Prop) w w' : (∀ i, new i → new' i) → grows new w w' → grows new' w w'.
Proof. intros Hn [? ? ? ? Hc]. split; try done. intros i [?|?]%Hc; [by left|right; by apply Hn]. Qed.

Lemma enter_step i w : mm_inv w → ∃ c, try_clients (try_register_client (env_now env) i true) w = Ok (inl true) (book_world w c (subs_of w)) ∧
  entered i w (book_world w c (register i (subs_of w))).
Proof.
  intros Hw. unfold try_clients, try_register_client. cbn [is_individual]. rewrite book_world_state. eexists. split; [done|].
  set (elem := with_state Attached (client_new (env_now env) i)). set (c := send_event _ _).
  assert (clients c = <[i := elem]> (delete i (clients_of w))) as Hc by done. split.
  - change (book_inv (clients c) (register i (subs_of w))). rewrite Hc. by apply (book_register_new _ _ Hw).
  - apply grows_book. rewrite Hc, insert_delete_eq. intros j [q [[<- _]|[_ Hq]]%lookup_insert_Some]; [by right|left; by eexists].
  - change (clients c !! i = Some elem). by rewrite Hc, lookup_insert_eq.
  - unfold synced, groups_in. change (clients_of (book_world w c (register i (subs_of w)))) with (clients c). rewrite Hc, lookup_insert_eq.
    change (attached_groups_of i (register i (subs_of w)) = ∅). by rewrite attached_groups_register, decide_True.
  - unfold is_registered. change (subs_of (book_world w c (register i (subs_of w)))) with (register i (subs_of w)). by rewrite subscribers_register, lookup_insert_eq.
  - intros j Hj. change (clients c !! j = clients_of w !! j ∧ sr_subscribers (register i (subs_of w)) !! j = sr_subscribers (subs_of w) !! j).
    by rewrite Hc, lookup_insert_ne, lookup_delete_ne, subscribers_register, lookup_insert_ne.
Qed.

Lemma entered_quiet i w w' w2 : entered i w w' → clients_of w2 = clients_of w' → subs_of w2 = subs_of w' → grows (λ _, False) w' w2 → entered i w w2.
Proof.
  intros [H1 H2 H3 H4 H5 H6] Hc Hs Hg. split; unfold mm_inv, synced, groups_in in *; rewrite ?Hc, ?Hs; try done.
  eapply grows_trans; [done|]. by apply (grows_weaken (λ _, False)).
Qed.

Lemma register_new_ok i pdu w : mm_inv w → wp (register_terminal env i pdu true) (λ b w', b = true ∧ entered i w w') w.
Proof.
  intros Hw. unfold register_terminal. apply wp_bind. unfold wp at 1. cbn [subscribers gets negb andb orb]. apply wp_bind. unfold wp at 1. cbn [mret M_ret].
  apply wp_bind, wp_bind. destruct (enter_step i w Hw) as (c & Heq & He). unfold wp at 1. rewrite Heq. cbn [negb].
  set (w1 := book_world w c (register i (subs_of w))) in *.
  change (wp (emit_subscriber_update i [] BrewSubscriberAction_Register;; mret true) (λ b w', b = true ∧ entered i w w') w1).
  apply wp_bind. eapply wp_mono; [apply quiet_subscriber_update|]. intros _ w2 (? & ? & ?). split; [done|by eapply entered_quiet].
Qed.

(** ** Eviction *)

Lemma clients_without_deregister evicted cl r : book_inv cl r →
  book_inv (without_clients evicted cl) (foldl (λ r i, deregister i r) r evicted).
Proof.
  revert cl r. induction evicted as [|i l IH]; intros cl r Hb; cbn [foldl].
  - replace (without_clients [] cl) with cl; [done|]. symmetry. apply map_filter_id. intros j c _. apply not_elem_of_nil.
  - rewrite <- without_clients_cons. by apply IH, book_remove.
Qed.

Lemma deregister_loop l w : ∃ msgs, Forall out_ok msgs ∧
  for_each l (λ ssi, modify_subscribers (deregister ssi);; emit_subscriber_update ssi [] BrewSubscriberAction_Deregister) w =
    Ok tt (mkMmWorld (mw_mm w) (mkStackState (foldl (λ r i, deregister i r) (subs_of w) l) (st_issi_whitelist_override (mw_state w))
      (st_active_call_ts (mw_state w)) (st_ee_monitoring_windows (mw_state w))) (mw_queue w ++ msgs)).
Proof.
  revert w. induction l as [|i l IH]; intros w; cbn [for_each foldl].
  - exists []. rewrite app_nil_r. split; [done|]. by destruct w as [? [] ?].
  - set (w1 := mkMmWorld (mw_mm w) (mkStackState (deregister i (subs_of w)) (st_issi_whitelist_override (mw_state w))
      (st_active_call_ts (mw_state w)) (st_ee_monitoring_windows (mw_state w))) (mw_queue w)).
    destruct (update_queue i [] BrewSubscriberAction_Deregister w1) as (m1 & Heq & Hm1).
    destruct (IH (mkMmWorld (mw_mm w1) (mw_state w1) (mw_queue w1 ++ m1))) as (m2 & Hm2 & Heq2). exists (m1 ++ m2).
    split; [by apply Forall_app|]. unfold mbind, M_bind at 1. unfold M_bind, modify_subscribers, modify_state at 1. fold w1 (subs_of w).
    change (match emit_subscriber_update i [] BrewSubscriberAction_Deregister w1 with
      | Ok x s => for_each l (λ ssi, modify_subscribers (deregister ssi);; emit_subscriber_update ssi [] BrewSubscriberAction_Deregister) s
      | Err e s => Err e s | Panic => Panic end = Ok tt (mkMmWorld (mw_mm w1) (mkStackState (foldl (λ r i, deregister i r) (subs_of w1) l)
        (st_issi_whitelist_override (mw_state w1)) (st_active_call_ts (mw_state w1)) (st_ee_monitoring_windows (mw_state w1))) (mw_queue w1 ++ m1 ++ m2))).
    rewrite Heq, Heq2. by rewrite app_assoc.
Qed.

Lemma make_room_ok w : mm_inv w →
  wp (make_room env) (λ _ w', mm_inv w' ∧ grows (λ _, False) w w' ∧ (at_capacity (mm_client_mgr (mw_mm w)) = false → clients_of w' = clients_of w ∧
    subs_of w' = subs_of w ∧ mm_client_mgr (mw_mm w') = mm_client_mgr (mw_mm w))) w.
Proof.
  intros Hw. unfold make_room. apply wp_bind. unfold wp at 1. cbn [call_protected_issis gets]. apply wp_bind. unfold wp at 1. cbn [client_mgr gets].
  apply wp_bind. unfold wp at 1, run_clients. set (protected := dom _). fold (clients_of w).
  set (vs := snd <$> env_clients env (clients_of w)). set (cm := mm_client_mgr (mw_mm w)).
  assert (clients_ok cm) as Hok by exact (bi_clients _ _ Hw).
  assert (values_of cm vs) as Hv by (unfold vs, values_of; by rewrite (eo_clients env Henv)).
  pose proof (enforce_cap_ok vs protected cm Hok Hv) as Hcap. destruct (enforce_client_cap vs protected cm) as [evicted cm'] eqn:E. cbn [fst snd] in *.
  rewrite book_world_state. destruct (deregister_loop evicted (book_world w cm' (subs_of w))) as (msgs & Hm & Heq). unfold wp. rewrite Heq. split_and!.
  - unfold mm_inv. change (book_inv (clients cm') (foldl (λ r i, deregister i r) (subs_of w) evicted)). rewrite (ce_gone _ _ _ _ Hcap).
    by apply clients_without_deregister.
  - split; try done; [by exists msgs|]. intros j [c Hc]. left. change (clients cm' !! j = Some c) in Hc. rewrite (ce_gone _ _ _ _ Hcap) in Hc.
    apply map_lookup_filter_Some in Hc as [Hc _]. by eexists.
  - intros Hnc. unfold enforce_client_cap in E. unfold at_capacity in Hnc.
    assert ((max_clients cm =? 0) || (client_count cm <? max_clients cm) = true) as Hb.
    { fold cm in Hnc. destruct (max_clients cm =? 0); [done|]. cbn in Hnc |- *. apply Nat.leb_gt in Hnc. by apply Nat.ltb_lt. }
    rewrite Hb in E. injection E as <- <-. done.
Qed.

(** ** The whole registration *)

(** Terminal [i] is registered as its demand [pdu] says, and answered. *)
Record registered (i handle : Z) (pdu : ULocationUpdateDemand) (esi : option EnergySavingInformation) (w w' : MmWorld) : Prop := {
  rg_inv : mm_inv w';
  rg_grows : grows (λ j, j = i) w w';
  rg_client : clients_of w' !! i =
    Some (completed handle pdu esi (with_state Attached (default (client_new (env_now env) i) (clients_of w !! i))));
  rg_registered : is_registered i (subs_of w') = true;
  rg_synced : synced i w ∨ replaces_groups pdu = true ∨ u_location_update_demand_group_identity_location_demand pdu = None → synced i w';
  rg_others j : j ≠ i → clients_of w' !! j = clients_of w !! j ∧ sr_subscribers (subs_of w') !! j = sr_subscribers (subs_of w) !! j;
  rg_answer : ∃ before after m, mw_queue w' = mw_queue w ++ before ++ m :: after ∧
    carries d_location_update_accept_from_bitbuf
      (accept_pdu (mc_periodic_registration_secs (mm_config (mw_mm w))) i pdu esi (demand_gila pdu)) handle i m
}.

Lemma registered_after i handle pdu esi w w1 w2 : clients_of w1 = clients_of w → subs_of w1 = subs_of w → grows (λ _, False) w w1 →
  registered i handle pdu esi w1 w2 → registered i handle pdu esi w w2.
Proof.
  intros Hc Hs Hg [H1 H2 H3 H4 H5 H6 (before & after & m & H7 & H8)].
  split; unfold synced, groups_in in *; rewrite <- ?Hc, <- ?Hs; try done.
  - eapply grows_trans; [|done]. by apply (grows_weaken (λ _, False)).
  - destruct Hg as [Hcfg _ _ (q & Hq & _) _]. rewrite Hcfg in H8. exists (q ++ before), after, m. split; [|done].
    by rewrite H7, Hq, <- !app_assoc.
Qed.

(** The last two parts, from a world where the entry of the terminal is as [p]. *)
Lemma registered_intro i handle pdu esi is_new w w1 p : mm_inv w1 → is_u 24 i → demand_sane pdu → opt_ok energy_saving_information_ok esi →
  clients_of w1 !! i = Some p → is_registered i (subs_of w1) = true → grows (λ j, j = i) w w1 →
  (∀ j, j ≠ i → clients_of w1 !! j = clients_of w !! j ∧ sr_subscribers (subs_of w1) !! j = sr_subscribers (subs_of w) !! j) →
  completed handle pdu esi p = completed handle pdu esi (with_state Attached (default (client_new (env_now env) i) (clients_of w !! i))) →
  (is_new = true → synced i w1) → (synced i w → synced i w1) →
  wp (complete_registration env i handle pdu esi is_new) (λ _ w', registered i handle pdu esi w w') w1.
Proof.
  intros Hw Hi Hd He Hp Hreg Hg Ho Hcomp Hnew Hsync. eapply wp_mono; [apply complete_registration_ok; try done; by eexists|].
  intros _ w2 (H2 & Hy & before & after & m & Hq & Hm). split.
  - apply H2.
  - eapply grows_trans; [done|]. apply (grows_weaken (λ _, False)); [done|apply H2].
  - rewrite (cs_client _ _ _ _ H2), Hp. cbn [fmap option_fmap option_map]. by rewrite Hcomp.
  - by apply (cs_registered _ _ _ _ H2).
  - intros [Hs|[Hr|Hn]].
    + by apply (cs_sync _ _ _ _ H2), Hsync.
    + apply Hy. by left.
    + destruct is_new; [by apply (cs_sync _ _ _ _ H2), Hnew|]. apply Hy. by right.
  - intros j Hj. destruct (cs_others _ _ _ _ H2 j Hj) as [-> ->]. by apply Ho.
  - destruct (gr_queue _ _ _ Hg) as (q & Hq' & _). rewrite (gr_config _ _ _ Hg) in Hm. exists (q ++ before), after, m. split; [|done].
    by rewrite Hq, Hq', <- !app_assoc.
Qed.

Lemma register_and_complete i handle pdu esi w : mm_inv w → is_u 24 i → demand_sane pdu → opt_ok energy_saving_information_ok esi →
  let is_new := negb (client_is_known i (mm_client_mgr (mw_mm w))) in
  wp (go_on ← register_terminal env i pdu is_new;
      if negb go_on then mret tt else complete_registration env i handle pdu esi is_new) (λ _ w', registered i handle pdu esi w w') w.
Proof.
  intros Hw Hi Hd He is_new. apply wp_bind. unfold is_new, client_is_known. fold (clients_of w). case_bool_decide as Hk; cbn [negb].
  - eapply wp_mono; [by apply register_known_ok|]. intros b w1 (-> & Hreg & H1). cbn [negb]. destruct Hk as [p Hp].
    apply (registered_intro i handle pdu esi false w w1 (with_state Attached (with_timer (env_now env) false None p))); try done;
      [apply H1|by rewrite (cs_client _ _ _ _ H1), Hp|..].
    + apply (grows_weaken (λ _, False)); [done|apply H1].
    + apply H1.
    + by rewrite Hp.
    + apply H1.
  - eapply wp_mono; [by apply register_new_ok|]. intros b w1 [-> H1]. cbn [negb].
    apply (registered_intro i handle pdu esi true w w1 (with_state Attached (client_new (env_now env) i))); try done; try apply H1; [|by intros _; apply H1..].
    apply eq_None_not_Some in Hk. by rewrite Hk.
Qed.

(** The energy economy a demand is granted. *)
Definition granted_energy (i : Z) (pdu : ULocationUpdateDemand) (o : option MmClientProperties) : option EnergySavingInformation :=
  grant_energy_saving i <$> match u_location_update_demand_energy_saving_mode pdu with Some m => Some m | None => energy_saving_mode <$> o end.

Lemma granted_ok i pdu o : is_u 24 i → opt_ok energy_saving_information_ok (granted_energy i pdu o).
Proof. intros Hi. unfold granted_energy. destruct (match _ with Some m => Some m | None => _ end); [|done]. apply grant_ok, Hi. Qed.

Definition has_room (i : Z) (w : MmWorld) : Prop := is_Some (clients_of w !! i) ∨ at_capacity (mm_client_mgr (mw_mm w)) = false.

Lemma confirm_clients i Q w : wp (recovery_confirm i) Q w →
  wp (recovery_confirm i) (λ a w', Q a w' ∧ mm_client_mgr (mw_mm w') = mm_client_mgr (mw_mm w)) w.
Proof. unfold wp, recovery_confirm, modify_mm, mbind, M_bind. cbn. intros H. split; [done|]. by case_match. Qed.

Lemma admit_terminal_ok i handle pdu w : mm_inv w → is_u 24 i → demand_sane pdu →
  wp (admit_terminal env i handle pdu) (λ _ w', mm_inv w' ∧ grows (λ j, j = i) w w' ∧
    (has_room i w → registered i handle pdu (granted_energy i pdu (clients_of w !! i)) w w')) w.
Proof.
  intros Hw Hi Hd. unfold admit_terminal. apply wp_bind. unfold wp at 1. cbn [client_mgr gets]. unfold get_client_by_issi. fold (clients_of w).
  set (esi := grant_energy_saving i <$> _). change esi with (granted_energy i pdu (clients_of w !! i)). clear esi.
  apply wp_bind. eapply (wp_mono _ (λ _ w1, mm_inv w1 ∧ grows (λ _, False) w w1 ∧
    (has_room i w → clients_of w1 = clients_of w ∧ subs_of w1 = subs_of w ∧ (client_is_known i (mm_client_mgr (mw_mm w)) || negb (at_capacity (mm_client_mgr (mw_mm w1)))) = true))).
  { unfold client_is_known. fold (clients_of w). case_bool_decide as Hk.
    - split_and!; [done|apply grows_refl|]. done.
    - eapply wp_mono; [by apply make_room_ok|]. intros _ w1 (H1 & H2 & H3). split_and!; [done|done|]. intros [?|Hc]; [done|].
      destruct (H3 Hc) as (? & ? & ->). by rewrite Hc. }
  intros _ w1 (H1 & Hg1 & Hr). apply wp_bind. unfold wp at 1. cbn [client_mgr gets]. case_match eqn:Hcap.
  - eapply wp_mono; [by apply (keeps_reject (λ _, False)); [apply Hd|]|]. intros _ w2 [H2 Hg2]. split_and!; [done| |].
    + apply (grows_weaken (λ _, False)); [done|by eapply grows_trans].
    + intros Hroom. destruct (Hr Hroom) as (_ & _ & Hb). apply andb_true_iff in Hcap as [Hk%negb_true_iff Hc]. by rewrite Hk, Hc in Hb.
  - apply wp_bind. eapply wp_mono; [apply quiet_confirm|]. intros _ w2 (Hc2 & Hs2 & Hg2). apply wp_bind. unfold wp at 1. cbn [client_mgr gets].
    eapply wp_mono; [apply register_and_complete; [unfold mm_inv in *; by rewrite Hc2, Hs2|done|done|by apply granted_ok]|].
    intros ? w3 H3. split_and!; [apply H3| |].
    + eapply grows_trans; [|apply H3]. apply (grows_weaken (λ _, False)); [done|by eapply grows_trans].
    + intros (Hc1 & Hs1 & _)%Hr. eapply registered_after; [by rewrite Hc2|by rewrite Hs2|by eapply grows_trans|exact H3].
Qed.

(** ** Received location updates *)

Definition allowed (w : MmWorld) (i : Z) : Prop :=
  allows (mc_security (mm_config (mw_mm w))) i (st_issi_whitelist_override (mw_state w)) = true.

Lemma wp_allowed {A} i (k : bool → MM A) Q w :
  wp (k (allows (mc_security (mm_config (mw_mm w))) i (st_issi_whitelist_override (mw_state w)))) Q w → wp (issi_allowed i ≫= k) Q w.
Proof. done. Qed.

Lemma wp_parse {A C} (p : B A) P sdu (k : option A → MM C) Q w : parser_safe p → yields p P → wf sdu →
  (∀ a bb', p sdu = Ok a bb' → P a → wp (k (Some a)) Q w) → ((∀ a bb', p sdu ≠ Ok a bb') → wp (k None) Q w) → wp (parse p sdu ≫= k) Q w.
Proof.
  intros Hs Hy Hwf Ha Hn. apply wp_bind. unfold wp at 1, parse. specialize (Hs sdu Hwf). unfold safe_at in Hs.
  destruct (p sdu) as [a bb'|e bb'|] eqn:E; [|by apply Hn|done]. eapply Ha; [done|]. by eapply Hy.
Qed.

(** What the rate limit, the features and the whitelist ask of a demand. *)
Record admissible (i : Z) (pdu : ULocationUpdateDemand) (w : MmWorld) : Prop := {
  ad_allowed : allowed w i;
  ad_local : is_migrating (u_location_update_demand_location_update_type pdu) = false;
  ad_rate : (allow_registration (env_now env) i (mm_client_mgr (mw_mm w))).1 = true;
  ad_features : feature_check_u_location_update_demand pdu = true;
  ad_room : has_room i w
}.

Lemma clients_allow now i c : clients (allow_registration now i c).2 = clients c ∧ max_clients (allow_registration now i c).2 = max_clients c.
Proof. unfold allow_registration. repeat case_match; done. Qed.

Lemma rate_step i w : let w' := mkMmWorld (set_client_mgr (allow_registration (env_now env) i (mm_client_mgr (mw_mm w))).2 (mw_mm w)) (mw_state w) (mw_queue w) in
  clients_of w' = clients_of w ∧ grows (λ _, False) w w' ∧ (has_room i w → has_room i w').
Proof.
  intros w'. destruct (clients_allow (env_now env) i (mm_client_mgr (mw_mm w))) as [Hc Hm].
  assert (clients_of w' = clients_of w) as Hcl by exact Hc. split_and!; [done| |].
  - split; try done; [by exists []; rewrite app_nil_r|]. rewrite Hcl. by left.
  - unfold has_room. rewrite Hcl. intros [?|Hcap]; [by left|right]. revert Hcap. unfold at_capacity, client_count, w'. cbn. by rewrite Hc, Hm.
Qed.

Lemma rx_demand_ok prim w : let i := ssi (lmmi_received_address prim) in mm_inv w → wf (lmmi_sdu prim) → is_u 24 i →
  wp (rx_u_location_update_demand env prim) (λ _ w', mm_inv w' ∧ grows (λ j, j = i ∧ allowed w j) w w' ∧
    ∀ pdu bb', u_location_update_demand_from_bitbuf (lmmi_sdu prim) = Ok pdu bb' → admissible i pdu w →
      registered i (lmmi_handle prim) pdu (granted_energy i pdu (clients_of w !! i)) w w') w.
Proof.
  intros i Hw Hwf Hi. unfold rx_u_location_update_demand. eapply wp_parse; [apply u_location_update_demand_safe|apply demand_yields|done| |].
  2: { intros Hno. split_and!; [done|apply grows_refl|]. by intros pdu bb' ?%Hno. }
  intros pdu bb' Hp Hd. cbv zeta. fold i. apply wp_allowed.
  assert (∀ w', mm_inv w' → grows (λ _, False) w w' → ¬ admissible i pdu w → mm_inv w' ∧ grows (λ j, j = i ∧ allowed w j) w w' ∧
    ∀ pdu bb', u_location_update_demand_from_bitbuf (lmmi_sdu prim) = Ok pdu bb' → admissible i pdu w →
      registered i (lmmi_handle prim) pdu (granted_energy i pdu (clients_of w !! i)) w w') as Hother.
  { intros w' Hw' Hg Hna. split_and!; [done|by apply (grows_weaken (λ _, False))|]. intros pdu' bb1 Hp' Ha. rewrite Hp in Hp'. by injection Hp' as <- <-. }
  destruct (allows (mc_security (mm_config (mw_mm w))) i (st_issi_whitelist_override (mw_state w))) eqn:Hall; cbn [negb].
  2: { eapply wp_mono; [by apply (keeps_reject (λ _, False)); [apply Hd|]|]. intros _ w1 [? ?]. apply Hother; [done..|].
       intros [Hal ? ? ? ?]. unfold allowed in Hal. congruence. }
  apply wp_bind. eapply wp_mono; [apply confirm_clients, quiet_confirm|]. intros _ w1 [(Hc1 & Hs1 & Hg1) Hm1].
  assert (mm_inv w1) as Hw1 by (unfold mm_inv in *; by rewrite Hc1, Hs1). destruct (is_migrating (u_location_update_demand_location_update_type pdu)) eqn:Hmig.
  - assert (keeps (λ _, False) (authorized ← teardown_authorized i (lmmi_handle prim);
      (if (authorized : bool) then release_client env i;; recovery_mark_dirty else mret tt);;
      send_d_location_update_reject_migration i (lmmi_handle prim) (u_location_update_demand_location_update_type pdu)
        (u_location_update_demand_address_extension pdu))) as Hk.
    { unfold teardown_authorized, send_d_location_update_reject_migration. apply keeps_bind; [keeps|]. intros a.
      apply keeps_bind; [|intros ?; apply keeps_reject, Hd]. destruct a; [apply keeps_bind; [apply keeps_release|]|]; keeps. }
    eapply wp_mono; [by apply Hk|]. intros _ w2 [? ?]. apply Hother; [done|by eapply grows_trans|]. intros [? Hmi ? ? ?]. congruence.
  - apply wp_bind. unfold wp at 1, run_clients. destruct (rate_step i w1) as (Hc2 & Hg2 & Hroom). set (w2 := mkMmWorld _ _ _) in *.
    assert (mm_inv w2) as Hw2 by (unfold mm_inv in *; by rewrite Hc2). pose proof (grows_trans _ _ _ _ Hg1 Hg2) as Hg12. rewrite Hm1. case_match eqn:Hrate.
    + apply Hother; [done..|]. intros [? ? Hra ? ?]. by rewrite Hra in Hrate.
    + case_match eqn:Hfeat; [apply Hother; [done..|]; intros [? ? ? Hfe ?]; by rewrite Hfe in Hfeat|].
      eapply wp_mono; [by apply admit_terminal_ok|]. intros _ w3 (H3 & Hg3 & Hreg). split_and!; [done| |].
      * eapply grows_trans; [by apply (grows_weaken (λ _, False))|]. by apply (grows_weaken (λ j, j = i)); [intros ? ->|].
      * intros pdu' bb1 Hp' [_ _ _ _ Hr]. rewrite Hp in Hp'. injection Hp' as <- <-. rewrite Hc2, Hc1 in Hreg.
        apply (registered_after _ _ _ _ w w2 w3); [by rewrite Hc2|done|done|]. apply Hreg, Hroom.
        unfold has_room in *. by rewrite Hc1, Hm1.
Qed.

(** * The other handlers *)

#[local] Hint Resolve keeps_release : keeps.

(** The handler returns, keeps the invariant and lets in only whom the whitelist allows. *)
Definition handles {A} (m : MM A) (w : MmWorld) : Prop := wp m (λ _ w', mm_inv w' ∧ grows (allowed w) w w') w.

Lemma handles_keeps {A} (m : MM A) w : mm_inv w → keeps (λ _, False) m → handles m w.
Proof. intros Hw Hk. eapply wp_mono; [by apply Hk|]. intros a w' [? ?]. split; [done|by apply (grows_weaken (λ _, False))]. Qed.

Lemma handles_ret {A} (a : A) w : mm_inv w → handles (mret a) w.
Proof. intros Hw. by apply handles_keeps, keeps_ret. Qed.

Lemma keeps_quiet {A} (m : MM A) : quiet m → keeps (λ _, False) m.
Proof. intros Hq w Hw. eapply wp_mono; [apply Hq|]. intros a w' (Hc & Hs & Hg). split; [unfold mm_inv in *; by rewrite Hc, Hs|done]. Qed.

Lemma keeps_steps i F {A} Q (m : MM A) : steps i F Q m → keeps (λ _, False) m.
Proof. intros Hm w Hw. eapply wp_mono; [by apply Hm|]. intros a w' [_ H]. split; apply H. Qed.

Lemma keeps_parse {A C} (p : B A) P sdu (k : option A → MM C) : parser_safe p → yields p P → wf sdu →
  (∀ a, P a → keeps (λ _, False) (k (Some a))) → keeps (λ _, False) (k None) → keeps (λ _, False) (parse p sdu ≫= k).
Proof. intros Hs Hy Hwf Ha Hn w Hw. eapply wp_parse; [done|done|done| |]; [intros a bb' _ HP; by apply Ha|intros _; by apply Hn]. Qed.

Lemma yields_any {A} (p : B A) : yields p (λ _, True).
Proof. done. Qed.

Lemma rx_detach_ok prim : wf (lmmi_sdu prim) → keeps (λ _, False) (rx_u_itsi_detach env prim).
Proof.
  intros Hwf. unfold rx_u_itsi_detach, issi_allowed, teardown_authorized. eapply keeps_parse; [apply u_itsi_detach_safe|apply yields_any|done| |keeps].
  intros pdu _. keeps.
Qed.

Lemma rx_tei_ok prim : wf (lmmi_sdu prim) → keeps (λ _, False) (rx_u_tei_provide prim).
Proof.
  intros Hwf. unfold rx_u_tei_provide. eapply keeps_parse; [apply u_tei_provide_safe|apply yields_any|done| |keeps].
  intros pdu _. apply keeps_bind; [|keeps]. by apply keeps_benign, benign_modify.
Qed.

Lemma rx_group_ack_ok prim : wf (lmmi_sdu prim) → keeps (λ _, False) (rx_u_attach_detach_group_identity_ack prim).
Proof.
  intros Hwf. unfold rx_u_attach_detach_group_identity_ack, emit_dgna_status.
  eapply keeps_parse; [apply u_attach_detach_group_identity_acknowledgement_safe|apply yields_any|done| |keeps].
  intros pdu _. case_match; [|keeps]. apply keeps_for_each. intros g. keeps.
Qed.

Lemma rx_status_ok prim : wf (lmmi_sdu prim) → is_u 24 (ssi (lmmi_received_address prim)) → keeps (λ _, False) (rx_u_mm_status prim).
Proof.
  intros Hwf Hi. unfold rx_u_mm_status. eapply keeps_parse; [apply u_mm_status_safe|apply yields_any|done| |keeps].
  intros pdu _. cbv zeta. set (i := ssi _) in *.
  assert (∀ st, keeps (λ _, False) (msg ← make_ul_mm_pdu_function_not_supported (lmmi_handle prim) MmPduTypeUl_UMmStatus
    (Some (6, status_uplink_into_raw st)) (lmmi_received_address prim); push_back msg)) as Hns.
  { intros st w Hw. destruct (not_supported_writes st) as (bs & Hwr & Hl).
    destruct (build_ok 14 _ bs Hwr (short_enough _ Hl)) as (sdu & Hb & Hh). unfold make_ul_mm_pdu_function_not_supported. rewrite Hb.
    by apply (keeps_push (λ _, False) (lmm_req sdu (lmmi_handle prim) (lmmi_received_address prim) L2Todo)); [exists bs|]. }
  destruct (u_mm_status_status_uplink pdu);
    match goal with |- keeps _ (make_ul_mm_pdu_function_not_supported _ _ _ _ ≫= _) => apply Hns | _ => idtac end.
  - do 2 (apply keeps_bind; [apply keeps_benign; first [apply benign_esm|by apply benign_modify]|intros]). apply keeps_bind; [keeps|intros].
    eapply keeps_carried. apply status_carried, grant_ok, Hi.
  - apply keeps_bind; [apply keeps_benign, benign_esm|]. keeps.
Qed.

(** ** Groups *)

(** The acknowledgement lists all groups of the terminal; six bits count them. *)
Definition query_fits (prim : LmmMleUnitdataInd) (w : MmWorld) : Prop := ∀ pdu bb',
  u_attach_detach_group_identity_from_bitbuf (lmmi_sdu prim) = Ok pdu bb' → u_attach_detach_group_identity_group_identity_uplink pdu = None →
  size (groups_in (ssi (lmmi_received_address prim)) w) < 64.

Lemma send_if_ok n w bs handle i s : writes w bs → length bs ≤ 3000 →
  send_pdu_if_ok n w handle i s = send_pdu n w handle i s.
Proof.
  intros Hw Hl. destruct (build_ok n w bs Hw (short_enough _ Hl)) as (sdu & Hb & _). unfold send_pdu. rewrite Hb. unfold send_pdu_if_ok.
  unfold build, mbind, M_bind in Hb. destruct (w (new_autoexpand n)) as [? b| |]; [|done|done]. unfold build. by destruct (seek 0 b); simplify_eq.
Qed.

Lemma plain_attached gs : (∀ g, g ∈ gs → is_u 24 g) → Forall gid_plain (attached_gid 4 <$> gs).
Proof. intros Hg. apply Forall_fmap, Forall_forall. intros g Hin. left. exists 4%Z, g. split_and!; [done|is_u_small|by apply Hg]. Qed.

Lemma quiet_group_list i handle gs : (∀ g, g ∈ gs → is_u 24 g) → length gs < 64 → quiet (send_d_attach_detach_ack i handle gs).
Proof.
  intros Hg Hl w. assert (opt_gids (if decide (attached_gid 4 <$> gs = []) then None else Some (attached_gid 4 <$> gs))) as Ho.
  { case_decide; [done|]. split; [by apply plain_attached|by rewrite length_fmap]. }
  destruct (ack_carried 0 _ ltac:(is_u_small) Ho) as (bs & Hw & _ & Hb). unfold send_d_attach_detach_ack, wp. cbv zeta.
  rewrite (send_if_ok _ _ bs) by done. by apply (quiet_send 32 _ bs).
Qed.

Lemma keeps_group_reject i handle : keeps (λ _, False) (send_d_attach_detach_ack_reject i handle).
Proof. eapply keeps_carried. by apply (ack_carried 1 None); [is_u_small|]. Qed.

Lemma client_groups_fit i w : mm_inv w → let gs := match clients_of w !! i with Some p => env_groups env (groups p) | None => [] end in
  (∀ g, g ∈ gs → is_u 24 g) ∧ length gs = size (groups_in i w).
Proof.
  intros Hw. unfold groups_in. destruct (clients_of w !! i) as [p|] eqn:Ep; cbn.
  - split; [|by rewrite (eo_groups env Henv)].
    intros g. rewrite (eo_groups env Henv), elem_of_elements. by apply (bi_groups _ _ Hw i).
  - split; [set_solver|done].
Qed.

Lemma replace_groups_ok i handle w : mm_inv w → wp (replace_groups env i handle) (λ _ w', mm_inv w' ∧ grows (λ j, j = i) w w') w.
Proof.
  intros Hw. unfold replace_groups. apply wp_bind. unfold wp at 1. cbn [client_mgr gets]. case_match.
  - apply wp_bind. destruct (enter_step i w Hw) as (c & Heq & He). unfold wp at 1. rewrite Heq. set (w1 := book_world w c (register i (subs_of w))) in *.
    change (wp (emit_subscriber_update i [] BrewSubscriberAction_Register;; mret true) (λ _ w', mm_inv w' ∧ grows (λ j, j = i) w w') w1).
    apply wp_bind. eapply wp_mono; [apply quiet_subscriber_update|]. intros _ w2 (? & ? & ?).
    destruct (entered_quiet i w w1 w2) as [Hw2 Hg2 _ _ _ _]; [done..|]. by split.
  - eapply wp_mono; [by apply (drop_groups_ok env Henv)|]. intros b w1 (_ & H1 & _). split; [apply H1|].
    apply (grows_weaken (λ _, False)); [done|apply H1].
Qed.

Lemma rx_groups_ok prim w : let i := ssi (lmmi_received_address prim) in mm_inv w → wf (lmmi_sdu prim) → query_fits prim w →
  handles (rx_u_attach_detach_group_identity env prim) w.
Proof.
  intros i Hw Hwf Hq. unfold rx_u_attach_detach_group_identity, handles. cbv zeta. fold i.
  eapply wp_parse; [apply u_attach_detach_group_identity_safe|apply attach_detach_yields|done| |]; [|intros _; by apply handles_keeps; [|keeps]].
  intros pdu bb' Hp Hs. cbv beta iota in Hs |- *. apply wp_allowed.
  destruct (allows (mc_security (mm_config (mw_mm w))) i (st_issi_whitelist_override (mw_state w))) eqn:Hall; cbn [negb].
  2: { by apply handles_keeps; [|apply keeps_group_reject]. }
  destruct (u_attach_detach_group_identity_group_identity_uplink pdu) as [giu|] eqn:Hgiu.
  - apply wp_bind. eapply (wp_mono _ (λ _ w1, mm_inv w1 ∧ grows (allowed w) w w1)).
    { case_match; [|by apply handles_keeps; [|keeps]]. eapply wp_mono; [by apply replace_groups_ok|]. intros b w1 [? ?]. split; [done|].
      by apply (grows_weaken (λ j, j = i)); [intros ? ->|]. }
    intros go_on w1 [H1 Hg1]. case_match; [by split|]. apply wp_bind.
    assert (Forall giu_sane (take MAX_GROUPS_PER_ATTACH giu)) as Ht by (apply Forall_take, Hs).
    eapply wp_mono; [by apply (steps_attach_groups i)|]. intros accepted w2 [Hacc H2]. apply wp_bind.
    eapply wp_mono; [apply quiet_mark_dirty|]. intros _ w3 (Hc3 & Hs3 & Hg3).
    assert (opt_gids (Some accepted)) as Ho.
    { rewrite Hacc. case_match; [|split; [constructor|cbn; lia]]. split; [by apply omap_plain|]. pose proof (omap_length gid_of (take MAX_GROUPS_PER_ATTACH giu)).
      rewrite length_take in *. unfold MAX_GROUPS_PER_ATTACH in *. lia. }
    eapply wp_mono; [eapply (keeps_carried (λ _, False)); [by apply (ack_carried 0 (Some accepted)); [is_u_small|]|unfold mm_inv in *; rewrite Hc3, Hs3; apply H2]|].
    intros _ w4 [H4 Hg4]. split; [done|]. eapply grows_trans; [exact Hg1|]. apply (grows_weaken (λ _, False)); [done|].
    eapply grows_trans; [apply H2|by eapply grows_trans].
  - apply wp_bind. unfold wp at 1. rewrite client_groups_run. destruct (client_groups_fit i w Hw) as [Hu Hl].
    apply (handles_keeps (send_d_attach_detach_ack i (lmmi_handle prim) _)); [done|]. apply keeps_quiet, quiet_group_list; [done|].
    rewrite Hl. by eapply Hq.
Qed.

(** ** Dynamic groups *)

Lemma keeps_dgna_send i g attach : is_u 24 g → keeps (λ _, False) (send_d_attach_detach_group_identity i g attach).
Proof.
  intros Hg. assert (gid_plain (if attach then attached_gid DGNA_CLASS_OF_USAGE g else detached_gid 0 g)) as Hp.
  { destruct attach; [left; exists 4%Z, g|right; exists 0%Z, g]; (split_and!; [done|is_u_small|done]). }
  destruct (dgna_carried _ Hp) as (bs & Hw & _ & Hl). destruct (build_ok 32 _ bs Hw (short_enough _ Hl)) as (sdu & Hb & Hh).
  unfold send_d_attach_detach_group_identity. cbv zeta. unfold build, mbind, M_bind in Hb.
  destruct (d_attach_detach_group_identity_to_bitbuf _ (new_autoexpand 32)) as [u b| |]; [|done|done].
  assert (build b (seek 0) = Some sdu) as -> by exact Hb.
  change (keeps (λ _, False) (emit_dgna_status i g attach true;; push_back (lmm_req sdu 0 (Core.issi i) L2Acknowledged))).
  apply keeps_bind; [unfold emit_dgna_status; keeps|intros].
  apply keeps_push. by exists bs.
Qed.

Lemma grows_registry new w c r r' : grows new w (book_world w c r) → grows new w (book_world w c r').
Proof. by intros [? ? ? ? ?]. Qed.

(** The registries after an assignment: the group is attached in both, and remembered. *)
Lemma dgna_attach_books i g mn mode w p c : mm_inv w → clients_of w !! i = Some p → (1 ≤ g ≤ MAX_TETRA_SSI)%Z → is_attachment_mode mode = true →
  clients c = alter (upd_groups (λ gs, gs ∪ {[g]})) i (clients_of w) →
  client_step i (upd_groups (λ gs, gs ∪ {[g]})) w (book_world w c (affiliate i g (remember_dgna_group i g mn mode (subs_of w)))).
Proof.
  intros Hw Hp Hg Hm Hc. assert (is_u 24 g) as Hu by (unfold is_u, MAX_TETRA_SSI in *; lia).
  destruct (attach_step i g w p c true Hw Hp Hu (λ _, eq_refl) Hc) as [H1 H2 H3 H4 H5 H6].
  split; [|exact (grows_registry _ _ _ _ _ H2)|exact H3|exact H4|exact H5|exact H6].
  change (book_inv (clients c) (remember_dgna_group i g mn mode (affiliate i g (subs_of w)))).
  by apply (book_remember (clients c) (affiliate i g (subs_of w)) H1).
Qed.

Lemma dgna_detach_books i g (dynamic : bool) w p c : mm_inv w → clients_of w !! i = Some p →
  clients c = alter (upd_groups (λ gs, gs ∖ {[g]})) i (clients_of w) →
  let r := deaffiliate i g (subs_of w) in
  client_step i (upd_groups (λ gs, gs ∖ {[g]})) w (book_world w c (if dynamic then (forget_dgna_group i g r).2 else r)).
Proof.
  intros Hw Hp Hc r. pose proof (detach_step i g w p c true Hw Hp (λ _, eq_refl) Hc) as Hs. fold r in Hs. destruct dynamic; [|exact Hs].
  assert (sr_subscribers (forget_dgna_group i g r).2 = sr_subscribers r) as Hf by (unfold forget_dgna_group; by destruct (sr_dgna_groups r !! i)).
  destruct Hs as [H1 H2 H3 H4 H5 H6]. split; [|exact (grows_registry _ _ _ _ _ H2)| |exact H4|..].
  - change (book_inv (clients c) (forget_dgna_group i g r).2). by apply (book_forget (clients c) r H1).
  - unfold synced, attached_groups_of, is_registered in *. change (subs_of (book_world w c (forget_dgna_group i g r).2)) with (forget_dgna_group i g r).2.
    rewrite Hf. exact H3.
  - unfold synced, attached_groups_of. change (subs_of (book_world w c (forget_dgna_group i g r).2)) with (forget_dgna_group i g r).2.
    rewrite Hf. exact H5.
  - unfold is_registered. change (subs_of (book_world w c (forget_dgna_group i g r).2)) with (forget_dgna_group i g r).2. rewrite Hf. exact H6.
Qed.

Lemma do_dgna_ok i g mn mode attach : (0 ≤ g)%Z → keeps (λ _, False) (do_dgna i g mn mode attach).
Proof.
  intros Hg0 w Hw. assert (∀ A (a : A), keeps (λ _, False) (emit_dgna_status i g attach false;; mret a)) as Hrej by (intros; unfold emit_dgna_status; keeps).
  unfold do_dgna. apply wp_bind. unfold wp at 1. cbn [subscribers gets]. apply wp_bind. unfold wp at 1. cbn [client_mgr gets]. fold (subs_of w).
  case_match eqn:Hrange; [by apply Hrej|]. case_match eqn:Hknown; [by apply Hrej|]. case_match eqn:Hmode; [by apply Hrej|].
  case_match; [by apply Hrej|]. apply negb_false_iff in Hknown. unfold client_is_known in Hknown. apply bool_decide_eq_true in Hknown as [p Hp]. fold (clients_of w) in Hp.
  assert (1 ≤ g ≤ MAX_TETRA_SSI)%Z as Hg by (apply orb_false_iff in Hrange as [?%Z.eqb_neq ?%Z.ltb_ge]; lia).
  assert (is_u 24 g) as Hu by (unfold is_u, MAX_TETRA_SSI in *; lia). apply wp_bind.
  destruct (try_attach_known i g attach w p Hp) as (c & Heq & Hc). unfold wp at 1. rewrite Heq. clear Heq.
  assert (∀ k : MM bool, (keeps (λ _, False) k) → keeps (λ _, False) (emit_dgna_status i g attach true;; cfg ← config;
    (if mc_dgna_use_ss_facility cfg then push_back (mkSapMsg ControlSap Mm Cmce (SmCmceSsDgnaAssign i g mn mode
        (if negb attach && bool_decide (g ∈ attached_groups_of i (subs_of w)) then Some g else None) attach))
     else send_d_attach_detach_group_identity i g attach);; recovery_mark_dirty;; emit_group_snapshots i;; k)) as Hk.
  { intros k Hk. unfold emit_dgna_status, config. apply keeps_bind; [keeps|intros]. apply keeps_bind; [keeps|intros].
    apply keeps_bind; [apply keeps_if; [by apply keeps_push|by apply keeps_dgna_send]|intros]. repeat (apply keeps_bind; [solve [keeps]|intros]). exact Hk. }
  apply wp_bind. eapply (wp_mono _ (λ _ w1, mm_inv w1 ∧ grows (λ _, False) w w1)).
  2: { intros _ w1 [H1 Hg1]. eapply wp_mono; [apply Hk; [|exact H1]; keeps|]. intros b w2 [? ?]. split; [done|by eapply grows_trans]. }
  assert (∀ F w1 gs a, client_step i F w w1 → wp (emit_subscriber_update i gs a) (λ _ w2, mm_inv w2 ∧ grows (λ _, False) w w2) w1) as Hemit.
  { intros F w1 gs a H1. eapply wp_mono; [apply (keeps_subscriber_update (λ _, False)), H1|]. intros u w2 [? ?]. split; [done|].
    eapply grows_trans; [apply H1|done]. }
  destruct attach.
  - do 2 apply wp_bind. eapply Hemit. apply (dgna_attach_books i g mn mode w p c Hw Hp Hg); [by destruct (is_attachment_mode mode)|exact Hc].
  - do 2 apply wp_bind. pose proof (dgna_detach_books i g (has_dgna_group i g (subs_of w)) w p c Hw Hp Hc) as Hd. cbv zeta in Hd.
    destruct (has_dgna_group i g (subs_of w)); by eapply Hemit.
Qed.

(** ** Control messages *)

Lemma keeps_update i F : plain_update F → keeps (λ _, False) (modify_clients (update_client i F)).
Proof. intros HF. by eapply keeps_steps, steps_update. Qed.

Lemma keeps_leave i : keeps (λ _, False) (_ ← run_clients (remove_client i); modify_subscribers (deregister i);; recovery_mark_dirty).
Proof. apply (keeps_remove _ i (λ _, recovery_mark_dirty)). intros _. keeps. Qed.

Lemma keeps_tell_then i (k : MM unit) : keeps (λ _, False) k → keeps (λ _, False) (gs ← client_groups env i;
  (if decide (gs = []) then mret tt else emit_subscriber_update i gs BrewSubscriberAction_Deaffiliate);;
  emit_subscriber_update i [] BrewSubscriberAction_Deregister;; k).
Proof. intros Hk. unfold client_groups, client_mgr. repeat (apply keeps_bind; [solve [keeps]|intros]). exact Hk. Qed.

Lemma rx_deregister_ok i : keeps (λ _, False) (rx_deregister env i).
Proof. unfold rx_deregister. apply keeps_bind; [keeps|intros]. apply keeps_tell_then, keeps_leave. Qed.

Lemma unanswered_ok i secs : keeps (λ _, False) (unanswered_command env i secs).
Proof.
  unfold unanswered_command, client_mgr, subscribers. do 3 (apply keeps_bind; [keeps|intros]). apply keeps_bind.
  - case_match; [|keeps]. apply keeps_tell_then. apply keeps_bind; [|keeps]. apply keeps_subscribers. intros cl r Hb. by apply book_deregister.
  - intros _. apply keeps_bind; [keeps|]. intros w. cbv zeta. case_match; [apply keeps_leave|].
    apply keeps_bind; [by apply keeps_update|keeps].
Qed.

Lemma expired_step_ok ts secs i : keeps (λ _, False) (registration_expired_step env ts secs i).
Proof.
  unfold registration_expired_step. apply keeps_bind; [keeps|]. intros s. case_match; [keeps|]. case_match; [apply unanswered_ok|].
  case_match; [|keeps]. apply keeps_bind; [keeps|intros]. by apply keeps_update.
Qed.

(** What is asked of a message to MM. *)
Definition message_ok (m : SapMsg) (w : MmWorld) : Prop :=
  match sm_msg m with
  | SmLmmMleUnitdataInd prim => wf (lmmi_sdu prim) ∧ is_u 24 (ssi (lmmi_received_address prim)) ∧ query_fits prim w
  | SmMmDgnaRequest _ gssi _ _ _ => (0 ≤ gssi)%Z
  | _ => True
  end.

Lemma rx_mm_unitdata_ok prim w : mm_inv w → wf (lmmi_sdu prim) → is_u 24 (ssi (lmmi_received_address prim)) → query_fits prim w →
  handles (rx_lmm_mle_unitdata_ind env prim) w.
Proof.
  intros Hw Hwf Hi Hq. unfold rx_lmm_mle_unitdata_ind, handles. apply wp_bind. unfold wp at 1, exec. rewrite peek_bits_spec by done.
  cbn [unwrap mret M_ret]. set (o := if decide _ then _ else _). destruct (o ≫= mm_pdu_type_ul_try_from) as [t|]; [|by apply handles_keeps; [|keeps]].
  assert (mkLmmInd (lmmi_sdu prim) (lmmi_handle prim) (lmmi_received_address prim) = prim) as -> by (by destruct prim).
  destruct t; match goal with |- wp (mret _) _ _ => by apply handles_ret | _ => idtac end.
  - by apply handles_keeps; [|apply rx_detach_ok].
  - eapply wp_mono; [by apply rx_demand_ok|]. intros _ w' (? & Hg & _). split; [done|]. by apply (grows_weaken (λ j, j = ssi (lmmi_received_address prim) ∧ allowed w j)); [intros ? [_ ?]|].
  - by apply handles_keeps; [|apply rx_status_ok].
  - by apply rx_groups_ok.
  - by apply handles_keeps; [|apply rx_group_ack_ok].
  - by apply handles_keeps; [|apply rx_tei_ok].
Qed.

Lemma mm_rx_prim_ok m w : mm_inv w → message_ok m w → handles (mm_rx_prim env m) w.
Proof.
  intros Hw Hm. unfold mm_rx_prim. unfold message_ok in Hm.
  destruct (sm_sap m); match goal with |- handles (mret _) _ => by apply handles_ret | _ => idtac end.
  - destruct (sm_msg m); match goal with |- handles (mret _) _ => by apply handles_ret | _ => idtac end. destruct Hm as (? & ? & ?). by apply rx_mm_unitdata_ok.
  - destruct (sm_msg m); match goal with |- handles (mret _) _ => by apply handles_ret | _ => idtac end; (apply handles_keeps; [done|]).
    + case_match; [apply rx_deregister_ok|keeps].
    + apply keeps_bind; [by apply do_dgna_ok|keeps].
    + apply keeps_bind; [by apply keeps_update|intros]. repeat (apply keeps_bind; [solve [keeps]|intros]). by apply keeps_push.
    + unfold rx_brew_reconnected, client_mgr. apply keeps_bind; [keeps|intros]. apply keeps_for_each. intros. keeps.
Qed.

(** ** The tick *)

Definition command_ok (cmd : ControlCommand) : Prop := match cmd with CcDgna _ gssi _ _ _ => (0 ≤ gssi)%Z | CcOther => True end.

Lemma keeps_for_each_in {A} (P : A → Prop) (l : list A) body : Forall P l → (∀ x, P x → keeps (λ _, False) (body x)) → keeps (λ _, False) (for_each l body).
Proof. intros Hl Hb. induction Hl as [|x l Hx Hl IH]; cbn [for_each]; [apply keeps_ret|]. apply keeps_bind; [by apply Hb|done]. Qed.

Lemma run_command_ok cmd : command_ok cmd → keeps (λ _, False) (run_command cmd).
Proof. destruct cmd; cbn; [|intros _; keeps]. intros Hg. apply keeps_bind; [by apply do_dgna_ok|keeps]. Qed.

Lemma keeps_flush {Text} (to_string_pretty : CacheFile → option Text) write_ok file :
  keeps (λ _, False) (recovery_maybe_flush env to_string_pretty write_ok file).
Proof.
  unfold recovery_maybe_flush. apply keeps_bind; [keeps|]. intros w. case_match; [|keeps]. cbv zeta. apply keeps_bind; [|keeps]. by apply keeps_modify_mm.
Qed.

Lemma mm_tick_ok {Text} (to_string_pretty : CacheFile → option Text) ts commands write_ok file : Forall command_ok commands →
  keeps (λ _, False) (mm_tick_start env to_string_pretty ts commands write_ok file).
Proof.
  intros Hc. unfold mm_tick_start. apply keeps_bind; [by eapply keeps_for_each_in; [|apply run_command_ok]|intros]. apply keeps_bind; [keeps|intros].
  cbv zeta. apply keeps_bind; [apply keeps_for_each; intros; apply expired_step_ok|intros].
  apply keeps_bind; [keeps|intros]. apply keeps_bind; [apply keeps_flush|intros]. keeps.
Qed.
End registration.

(** * Start and recovery *)

Section recovery.
Context (env : MmEnv) (cfg : MmConfig).

(** The record is restored. *)
Definition permitted (i : Z) : bool :=
  is_issi_allowed (mc_security cfg) i && (bool_decide (cr_issi_allowlist (mc_recovery cfg) = []) || bool_decide (i ∈ cr_issi_allowlist (mc_recovery cfg))).

Definition record_ok (rec : TerminalRecord) : Prop :=
  Forall (is_u 24) (tr_groups rec) ∧ Forall (λ g, (0 ≤ dg_gssi g)%Z) (tr_dgna_groups rec).

Definition kept_dgna (g : DgnaGroup) : bool :=
  negb ((dg_gssi g =? 0) || (MAX_TETRA_SSI <? dg_gssi g))%Z && is_attachment_mode (dg_attachment_mode g).

(** The terminal a record stands for. *)
Definition record_client (rec : TerminalRecord) : MmClientProperties :=
  with_groups (list_to_set (tr_groups rec)) (with_energy_saving_mode (default StayAlive (esm_try_from (tr_energy_saving_mode rec)))
    (with_state Detached (client_new (env_now env) (tr_issi rec)))).
Definition remember_all (i : Z) (gs : list DgnaGroup) (r : SubscriberRegistry) : SubscriberRegistry :=
  foldl (λ r g, if kept_dgna g then remember_dgna_group i (dg_gssi g) (dg_mnemonic g) (dg_attachment_mode g) r else r) r gs.

Lemma remember_loop rec l w : for_each l (λ g,
      if ((dg_gssi g =? 0) || (MAX_TETRA_SSI <? dg_gssi g))%Z then mret tt
      else if negb (is_attachment_mode (dg_attachment_mode g)) then mret tt
      else modify_subscribers (remember_dgna_group (tr_issi rec) (dg_gssi g) (dg_mnemonic g) (dg_attachment_mode g))) w =
  Ok tt (book_world w (mm_client_mgr (mw_mm w)) (remember_all (tr_issi rec) l (subs_of w))).
Proof.
  revert w. induction l as [|g l IH]; intros w; [by destruct w as [[] [] ?]|]. cbn [for_each]. unfold remember_all. cbn [foldl]. unfold kept_dgna at 2.
  destruct ((dg_gssi g =? 0) || (MAX_TETRA_SSI <? dg_gssi g))%Z; [apply IH|]. cbn [negb andb].
  destruct (is_attachment_mode (dg_attachment_mode g)); cbn [negb]; [|apply IH].
  unfold mbind, M_bind, modify_subscribers, modify_state. rewrite IH. by destruct w as [[] [] ?].
Qed.

(** What restoring one record does. *)
Definition restored_world (rec : TerminalRecord) (w : MmWorld) : MmWorld :=
  if permitted (tr_issi rec) then
    let s := mw_mm w in
    mkMmWorld (set_replay (mm_recovery_pending s ++ [tr_issi rec]) (<[tr_issi rec := 0%Z]> (mm_recovery_attempts s))
        (set_client_mgr (set_clients (<[tr_issi rec := record_client rec]> (clients_of w)) (mm_client_mgr s)) s))
      (mkStackState (remember_all (tr_issi rec) (tr_dgna_groups rec) (subs_of w)) (st_issi_whitelist_override (mw_state w))
        (st_active_call_ts (mw_state w)) (st_ee_monitoring_windows (mw_state w))) (mw_queue w)
  else w.

Lemma restore_record_run rec w : mm_config (mw_mm w) = cfg → restore_record env rec w = Ok tt (restored_world rec w).
Proof.
  intros Hcfg. unfold restore_record, restored_world, permitted. unfold mbind, M_bind at 1. cbn [gets]. rewrite Hcfg.
  set (al := cr_issi_allowlist _). destruct (is_issi_allowed _ _); cbn [negb orb andb]; [|done].
  destruct (bool_decide (al = []) || bool_decide (tr_issi rec ∈ al)); cbn [negb]; [|done].
  unfold M_bind at 1, modify_clients, run_clients at 1. cbn [fst snd]. unfold M_bind at 1. rewrite remember_loop. unfold restore_client. rewrite restored_groups.
  cbn. rewrite (left_id_L ∅ _). done.
Qed.

Lemma remember_all_ok cl i gs r : Forall (λ g, (0 ≤ dg_gssi g)%Z) gs → book_inv cl r → book_inv cl (remember_all i gs r).
Proof.
  intros Hg. revert r. induction Hg as [|g gs Hg Hgs IH]; intros r Hb; [done|]. unfold remember_all. cbn [foldl]. apply IH.
  destruct (kept_dgna g) eqn:Hk; [|done]. apply andb_true_iff in Hk as [Hr%negb_true_iff Hm]. apply book_remember; [done| |done].
  apply orb_false_iff in Hr as [?%Z.eqb_neq ?%Z.ltb_ge]. lia.
Qed.

Lemma remember_all_subscribers i gs r : sr_subscribers (remember_all i gs r) = sr_subscribers r.
Proof. revert r. induction gs as [|g gs IH]; intros r; [done|]. unfold remember_all. cbn [foldl]. etrans; [apply IH|by destruct (kept_dgna g)]. Qed.

(** Before anyone has registered. *)
Record starting (w : MmWorld) : Prop := {
  st_inv : mm_inv w;
  st_config : mm_config (mw_mm w) = cfg;
  st_nobody : sr_subscribers (subs_of w) = ∅
}.

Lemma restored_starting rec w : record_ok rec → starting w → starting (restored_world rec w).
Proof.
  intros [Hg Hd] [Hi Hc Hn]. unfold restored_world. destruct (permitted (tr_issi rec)); [|done]. split; [|done|].
  - assert (book_inv (<[tr_issi rec := record_client rec]> (clients_of w)) (subs_of w)) as Hb.
    { apply (book_set _ _ Hi); [apply Hi|done|apply Hi|done| |].
      - unfold attached_groups_of. rewrite Hn, lookup_empty. set_solver.
      - cbn. intros g Hin%elem_of_list_to_set. rewrite Forall_forall in Hg. by apply Hg. }
    by apply (remember_all_ok _ _ _ _ Hd Hb).
  - change (sr_subscribers (remember_all (tr_issi rec) (tr_dgna_groups rec) (subs_of w)) = ∅). by rewrite remember_all_subscribers.
Qed.

Lemma restore_all_run l w : Forall record_ok l → starting w →
  for_each l (restore_record env) w = Ok tt (foldl (λ w rec, restored_world rec w) w l) ∧ starting (foldl (λ w rec, restored_world rec w) w l).
Proof.
  intros Hl. revert w. induction Hl as [|rec l Hr Hl IH]; intros w Hw; cbn [for_each foldl]; [done|].
  pose proof (restored_starting rec w Hr Hw) as Hw1. destruct (IH _ Hw1) as [Heq Hst]. split; [|done].
  unfold mbind, M_bind. rewrite restore_record_run by apply Hw. exact Heq.
Qed.

Context {Text : Type} (from_str : Text → option CacheFile) (to_string_pretty : CacheFile → option Text).

Definition recovered (file : option Text) (w : MmWorld) : MmWorld :=
  let w := foldl (λ w rec, restored_world rec w) w (take (cr_max_cached_issis (mc_recovery cfg)) (cache_load from_str file)) in
  mkMmWorld (set_recovery (Some (cache_new (env_now env) (cr_debounce_secs (mc_recovery cfg) * SECOND))) (mw_mm w)) (mw_state w) (mw_queue w).

Lemma init_recovery_ok file w : Forall record_ok (cache_load from_str file) → starting w →
  init_recovery env from_str file w = Ok tt (recovered file w) ∧ starting (recovered file w).
Proof.
  intros Hl Hw. destruct (restore_all_run _ w (Forall_take _ (cr_max_cached_issis (mc_recovery cfg)) _ Hl) Hw) as [Heq Hst].
  unfold recovered. set (w1 := foldl _ _ _) in *. split.
  - unfold init_recovery, mbind, M_bind. cbn [config gets]. rewrite (st_config _ Hw), Heq. done.
  - destruct Hst as [H1 H2 H3]. by split.
Qed.
(** ** A restart *)

(** Dynamic groups remembered again. *)
Definition put_group (m : gmap Z DgnaGroup) (g : DgnaGroup) : gmap Z DgnaGroup := if kept_dgna g then <[dg_gssi g := g]> m else m.

Lemma remember_all_dgna i gs r : default ∅ (sr_dgna_groups (remember_all i gs r) !! i) = foldl put_group (default ∅ (sr_dgna_groups r !! i)) gs.
Proof.
  revert r. induction gs as [|g gs IH]; intros r; [done|]. unfold remember_all. cbn [foldl]. etrans; [apply IH|]. f_equal. unfold put_group.
  destruct (kept_dgna g); [|done]. cbn. rewrite lookup_insert_eq. by destruct g.
Qed.

Lemma remember_all_other i j gs r : i ≠ j → sr_dgna_groups (remember_all i gs r) !! j = sr_dgna_groups r !! j.
Proof.
  intros Hne. revert r. induction gs as [|g gs IH]; intros r; [done|]. unfold remember_all. cbn [foldl]. etrans; [apply IH|].
  destruct (kept_dgna g); [|done]. cbn. by rewrite lookup_insert_ne.
Qed.

Lemma put_groups_lookup gs m k : NoDup (dg_gssi <$> gs) → Forall (λ g, kept_dgna g = true) gs →
  foldl put_group m gs !! k = match find (λ g, (dg_gssi g =? k)%Z) gs with Some g => Some g | None => m !! k end.
Proof.
  intros Hnd Hk. revert m Hnd. induction Hk as [|g gs Hg Hgs IH]; intros m Hnd; [done|]. cbn [foldl find]. rewrite fmap_cons in Hnd.
  apply NoDup_cons in Hnd as [Hn Hnd]. rewrite IH by done. unfold put_group. rewrite Hg. destruct (Z.eqb_spec (dg_gssi g) k) as [<-|Hne].
  - destruct (find _ gs) as [g'|] eqn:Hf; [|by rewrite lookup_insert_eq]. apply find_some in Hf as [Hin%list_elem_of_In Heq%Z.eqb_eq].
    destruct Hn. rewrite <- Heq. apply list_elem_of_fmap. by exists g'.
  - destruct (find _ gs); [done|]. by rewrite lookup_insert_ne.
Qed.

Lemma put_values (m : gmap Z DgnaGroup) : map_Forall dgna_ok m → foldl put_group ∅ (btree_values m) = m.
Proof.
  intros Hm. assert (∀ g, g ∈ btree_values m ↔ m !! dg_gssi g = Some g) as Hin.
  { intros g. unfold btree_values. rewrite merge_sort_Permutation, list_elem_of_fmap. split.
    - intros ([k g'] & -> & Hg%elem_of_map_to_list). cbn. destruct (Hm k g' Hg) as [-> _]. done.
    - intros Hg. exists (dg_gssi g, g). split; [done|]. by apply elem_of_map_to_list. }
  assert (NoDup (dg_gssi <$> btree_values m)) as Hnd.
  { unfold btree_values. rewrite merge_sort_Permutation, <- list_fmap_compose. 
    assert ((λ p : Z * DgnaGroup, dg_gssi p.2) <$> map_to_list m = (map_to_list m).*1) as Heq.
    { apply list_fmap_ext. intros n [k g] Hn. apply list_elem_of_lookup_2, elem_of_map_to_list in Hn. cbn. by destruct (Hm k g Hn) as [-> _]. }
    change (NoDup ((λ p : Z * DgnaGroup, dg_gssi p.2) <$> map_to_list m)). rewrite Heq. apply NoDup_fst_map_to_list. }
  assert (Forall (λ g, kept_dgna g = true) (btree_values m)) as Hk.
  { apply Forall_forall. intros g Hg%Hin. destruct (Hm _ _ Hg) as (_ & Hr & Hmode). unfold kept_dgna. rewrite Hmode. lia. }
  apply map_eq. intros k. rewrite put_groups_lookup by done. rewrite lookup_empty. destruct (find _ _) as [g|] eqn:Hf.
  - apply find_some in Hf as [Hg%list_elem_of_In%Hin Hk'%Z.eqb_eq]. by subst k.
  - destruct (m !! k) as [g|] eqn:Hg; [|done]. destruct (Hm k g Hg) as [Hgk _]. assert (g ∈ btree_values m) as Hi by (apply Hin; by rewrite Hgk).
    apply list_elem_of_In in Hi. pose proof (find_none _ _ Hf g Hi) as Hne. cbn in Hne. by rewrite Hgk, Z.eqb_refl in Hne.
Qed.
(** The record kept of a terminal. *)
Definition record_of (env0 : MmEnv) (w : MmWorld) (c : MmClientProperties) : TerminalRecord :=
  mkRecord (MmClients.issi c) (env_groups env0 (groups c)) (dgna_groups_of (MmClients.issi c) (subs_of w)) (esm_into_raw (energy_saving_mode c)).

Lemma snapshot_records env0 w : recovery_snapshot env0 w = record_of env0 w <$> (snd <$> env_clients env0 (clients_of w)).
Proof. unfold recovery_snapshot, snapshot_for_recovery. by rewrite <- !list_fmap_compose. Qed.

Lemma record_of_client env0 w c : env_ok env0 → record_client (record_of env0 w c) = restored (env_now env) c.
Proof.
  intros H0. unfold record_client, record_of, restored. cbn. rewrite (env_groups_set env0 H0). by destruct (energy_saving_mode c).
Qed.

Lemma restored_same rec w i : tr_issi rec ≠ i → clients_of (restored_world rec w) !! i = clients_of w !! i ∧
  sr_dgna_groups (subs_of (restored_world rec w)) !! i = sr_dgna_groups (subs_of w) !! i.
Proof.
  intros Hne. unfold restored_world. destruct (permitted (tr_issi rec)); [|done]. split.
  - change (<[tr_issi rec := record_client rec]> (clients_of w) !! i = clients_of w !! i). by rewrite lookup_insert_ne.
  - by apply remember_all_other.
Qed.

(** What is restored of terminal [i], from records with different numbers. *)
Lemma restore_all_client recs w i : NoDup (tr_issi <$> recs) → let w' := foldl (λ w rec, restored_world rec w) w recs in
  match find (λ rec, (tr_issi rec =? i)%Z) recs with
  | Some rec => if permitted i then clients_of w' !! i = Some (record_client rec) ∧
        default ∅ (sr_dgna_groups (subs_of w') !! i) = foldl put_group (default ∅ (sr_dgna_groups (subs_of w) !! i)) (tr_dgna_groups rec)
      else clients_of w' !! i = clients_of w !! i
  | None => clients_of w' !! i = clients_of w !! i ∧ sr_dgna_groups (subs_of w') !! i = sr_dgna_groups (subs_of w) !! i
  end.
Proof.
  revert w. induction recs as [|rec recs IH]; intros w Hnd; [done|]. rewrite fmap_cons in Hnd. apply NoDup_cons in Hnd as [Hn Hnd].
  cbn [foldl find]. specialize (IH (restored_world rec w) Hnd). cbv zeta in IH |- *. set (w' := foldl _ _ recs) in *. destruct (Z.eqb_spec (tr_issi rec) i) as [<-|Hne].
  - destruct (find _ recs) as [rec'|] eqn:Hf.
    { apply find_some in Hf as [Hin%list_elem_of_In Heq%Z.eqb_eq]. destruct Hn. rewrite <- Heq. apply list_elem_of_fmap. by exists rec'. }
    destruct IH as [-> ->]. unfold restored_world. destruct (permitted (tr_issi rec)); [|done]. split.
    + change (<[tr_issi rec := record_client rec]> (clients_of w) !! tr_issi rec = Some (record_client rec)). by rewrite lookup_insert_eq.
    + apply remember_all_dgna.
  - destruct (restored_same rec w i Hne) as [Hc Hd]. destruct (find _ recs); [destruct (permitted i)|]; by rewrite <- ?Hc, <- ?Hd.
Qed.

Lemma restore_all_pending recs w : let w' := foldl (λ w rec, restored_world rec w) w recs in
  mm_recovery_pending (mw_mm w') = mm_recovery_pending (mw_mm w) ++ filter (λ i, permitted i = true) (tr_issi <$> recs).
Proof.
  revert w. induction recs as [|rec recs IH]; intros w; cbv zeta; cbn [foldl]; [by rewrite app_nil_r|]. rewrite IH, fmap_cons, filter_cons. unfold restored_world.
  destruct (permitted (tr_issi rec)); [|by rewrite decide_False]. rewrite decide_True by done. cbn. by rewrite <- app_assoc.
Qed.
End recovery.

(** ** Flush and restart *)

Section restart.
Context (env : MmEnv) (Henv : env_ok env) (w : MmWorld) (Hw : mm_inv w).

Definition kept_clients : list MmClientProperties := snd <$> env_clients env (clients_of w).

Lemma kept_values : values_of (mm_client_mgr (mw_mm w)) kept_clients.
Proof. unfold values_of, kept_clients. by rewrite (eo_clients env Henv). Qed.

Lemma snapshot_numbers : tr_issi <$> recovery_snapshot env w = MmClients.issi <$> kept_clients.
Proof. rewrite snapshot_records, <- list_fmap_compose. done. Qed.

Lemma snapshot_nodup : NoDup (tr_issi <$> recovery_snapshot env w).
Proof. rewrite snapshot_numbers. eapply NoDup_values; [exact (bi_clients _ _ Hw)|apply kept_values]. Qed.

(** The terminals among the first [n] records. *)
Definition cached (n : nat) : list Z := take n (MmClients.issi <$> kept_clients).

Lemma cached_numbers n : tr_issi <$> take n (recovery_snapshot env w) = cached n.
Proof. unfold cached. by rewrite <- snapshot_numbers, fmap_take. Qed.

Lemma kept_lookup c : c ∈ kept_clients ↔ clients_of w !! MmClients.issi c = Some c.
Proof. exact (elem_of_values (mm_client_mgr (mw_mm w)) kept_clients c (bi_clients _ _ Hw) kept_values). Qed.

Lemma elem_of_cached n i : i ∈ cached n ↔ ∃ c, c ∈ take n kept_clients ∧ clients_of w !! i = Some c.
Proof.
  unfold cached. rewrite <- fmap_take, list_elem_of_fmap. split.
  - intros (c & -> & Hc). exists c. split; [done|]. by apply kept_lookup, (subseteq_take n).
  - intros (c & Hc & Hi). exists c. split; [|done]. symmetry. exact (bi_clients _ _ Hw i c Hi).
Qed.

Lemma cached_all n i : size (clients_of w) ≤ n → is_Some (clients_of w !! i) → i ∈ cached n.
Proof.
  intros Hn [c Hc]. apply elem_of_cached. exists c. split; [|done]. rewrite take_ge.
  - apply kept_lookup. by rewrite (bi_clients _ _ Hw i c Hc).
  - unfold kept_clients. by rewrite length_fmap, (eo_clients env Henv), length_map_to_list.
Qed.

Lemma snapshot_find n i : find (λ rec, (tr_issi rec =? i)%Z) (take n (recovery_snapshot env w)) =
  if bool_decide (i ∈ cached n) then record_of env w <$> clients_of w !! i else None.
Proof.
  rewrite snapshot_records. fold kept_clients. rewrite <- fmap_take. destruct (find _ _) as [rec|] eqn:Hf.
  - apply find_some in Hf as [Hr%list_elem_of_In Hi%Z.eqb_eq]. apply list_elem_of_fmap in Hr as (c & -> & Hc). cbn in Hi. subst i.
    assert (clients_of w !! MmClients.issi c = Some c) as Hl by (by apply kept_lookup, (subseteq_take n)).
    rewrite bool_decide_true by (apply elem_of_cached; by exists c). by rewrite Hl.
  - case_bool_decide as Hi; [|done]. apply elem_of_cached in Hi as (c & Hc & Hl). pose proof (bi_clients _ _ Hw i c Hl) as Hk. cbn in Hk.
    assert (record_of env w c ∈ record_of env w <$> take n kept_clients) as Hr by (apply list_elem_of_fmap; by exists c).
    apply list_elem_of_In in Hr. pose proof (find_none _ _ Hf _ Hr) as Hne. cbn in Hne. by rewrite Hk, Z.eqb_refl in Hne.
Qed.

Lemma dgna_of_ok i : Forall (λ g, dgna_ok (dg_gssi g) g) (dgna_groups_of i (subs_of w)).
Proof.
  unfold dgna_groups_of. destruct (sr_dgna_groups (subs_of w) !! i) as [m|] eqn:E; [|constructor]. pose proof (bi_dgna _ _ Hw i m E) as Hm.
  apply Forall_forall. intros g. unfold btree_values. rewrite merge_sort_Permutation, list_elem_of_fmap. intros ([k g'] & -> & Hg%elem_of_map_to_list).
  destruct (Hm k g' Hg) as [Hk Hr]. cbn. split; [done|]. by rewrite Hk.
Qed.

Lemma snapshot_ok : Forall record_ok (recovery_snapshot env w).
Proof.
  rewrite snapshot_records. fold kept_clients. apply Forall_fmap, Forall_forall. intros c Hc.
  apply (elem_of_values _ _ c (bi_clients _ _ Hw) kept_values) in Hc. split; cbn.
  - apply Forall_forall. intros g. rewrite (eo_groups env Henv), elem_of_elements. by apply (bi_groups _ _ Hw (MmClients.issi c)).
  - eapply Forall_impl; [apply dgna_of_ok|]. intros g (_ & [Hg _] & _). lia.
Qed.

End restart.

(** * The entity *)

Section entity.
Context {Text : Type} (from_str : Text → option CacheFile) (to_string_pretty : CacheFile → option Text).

Definition fresh_world (cfg : MmConfig) (sink : option (list TelemetryEvent)) (override : option (list Z)) (calls windows : gmap Z (Z * Z * Z)) : MmWorld :=
  mkMmWorld (mm_bs_new cfg sink) (mkStackState registry_new override calls windows) [].

Inductive mm_event : Type :=
| EvMessage (env : MmEnv) (m : SapMsg)
| EvTick (env : MmEnv) (ts : TdmaTime) (commands : list ControlCommand) (write_ok : bool)
| EvConfig (cfg : MmConfig).

(** [file]: the contents of the cache file. *)
Definition mm_exec (ev : mm_event) (file : option Text) : MM (option Text) :=
  match ev with
  | EvMessage env m => mm_rx_prim env m;; mret file
  | EvTick env ts commands write_ok => mm_tick_start env to_string_pretty ts commands write_ok file
  | EvConfig cfg => mm_set_config cfg;; mret file
  end.

Definition event_ok (ev : mm_event) (w : MmWorld) : Prop :=
  match ev with
  | EvMessage env m => env_ok env ∧ message_ok m w
  | EvTick env _ commands _ => env_ok env ∧ Forall command_ok commands
  | EvConfig _ => True
  end.

(** A start with an empty registry of subscribers, with or without recovery; then
    events, and between them changes of the shared state and of the queue by
    other entities. *)
Inductive mm_reachable : MmWorld → option Text → Prop :=
| reach_fresh cfg sink override calls windows file : mm_reachable (fresh_world cfg sink override calls windows) file
| reach_recovered env cfg sink override calls windows file w : Forall record_ok (cache_load from_str file) →
    init_recovery env from_str file (fresh_world cfg sink override calls windows) = Ok tt w → mm_reachable w file
| reach_event ev w file w' file' : mm_reachable w file → event_ok ev w → mm_exec ev file w = Ok file' w' → mm_reachable w' file'
| reach_others w file override calls windows queue : mm_reachable w file →
    mm_reachable (mkMmWorld (mw_mm w) (mkStackState (subs_of w) override calls windows) queue) file.

(** Messages are only added, each one MLE can forward, and no terminal becomes
    known but those the whitelist allows. *)
Record served (w w' : MmWorld) : Prop := {
  se_queue : ∃ msgs, mw_queue w' = mw_queue w ++ msgs ∧ Forall out_ok msgs;
  se_clients i : is_Some (clients_of w' !! i) → is_Some (clients_of w !! i) ∨ allowed w i
}.

Lemma grows_served w w' : grows (allowed w) w w' → served w w'.
Proof. by intros [? ? ? ? ?]. Qed.

Lemma fresh_starting cfg sink override calls windows : starting cfg (fresh_world cfg sink override calls windows).
Proof.
  split; [|done|done]. split; cbn.
  - apply map_Forall_empty.
  - apply registry_new_ok.
  - intros i s. by rewrite lookup_empty.
  - intros i c g. by rewrite lookup_empty.
  - intros i gs. by rewrite lookup_empty.
Qed.

Lemma mm_exec_ok ev file w : mm_inv w → event_ok ev w → wp (mm_exec ev file) (λ _ w', mm_inv w' ∧ served w w') w.
Proof.
  intros Hw He. destruct ev as [env m|env ts commands write_ok|cfg]; cbn [mm_exec event_ok] in *.
  - destruct He as [Henv Hm]. apply wp_bind. eapply wp_mono; [by apply (mm_rx_prim_ok env Henv)|]. intros _ w' [? ?]. split; [done|by apply grows_served].
  - destruct He as [Henv Hc]. eapply wp_mono; [by apply (mm_tick_ok env)|]. intros f w' [? ?]. split; [done|].
    by apply grows_served, (grows_weaken (λ _, False)).
  - split; [exact Hw|]. split; [by exists []; rewrite app_nil_r|]. by left.
Qed.

Lemma reachable_inv w file : mm_reachable w file → mm_inv w.
Proof.
  induction 1 as [cfg sink override calls windows file|env cfg sink override calls windows file w Hr Hi|ev w file w' file' _ IH He Heq|w file override calls windows queue _ IH].
  - by apply (st_inv cfg), fresh_starting.
  - destruct (init_recovery_ok env cfg from_str file _ Hr (fresh_starting cfg sink override calls windows)) as [Heq Hs]. rewrite Heq in Hi. injection Hi as <-. apply Hs.
  - pose proof (mm_exec_ok ev file w IH He) as Hx. unfold wp in Hx. rewrite Heq in Hx. apply Hx.
  - exact IH.
Qed.

(** C12: in every state the MM entity can get into, started with or without a
    recovery cache, the registries of terminals and subscribers agree (each
    subscriber is a known terminal attached to groups the terminal holds), and
    every message, tick and change of configuration is handled without a panic:
    received PDUs of any content included, as long as a terminal that asks for its
    groups holds fewer than 64.  Only messages that MLE can forward are added to the queue,
    and no terminal becomes known that the whitelist does not allow. *)
Theorem mm_entity_survives w file : mm_reachable w file → mm_inv w ∧
  ∀ ev, event_ok ev w → ∃ file' w', mm_exec ev file w = Ok file' w' ∧ served w w'.
Proof.
  intros Hr. pose proof (reachable_inv w file Hr) as Hw. split; [done|]. intros ev He.
  destruct (wp_run _ _ _ (mm_exec_ok ev file w Hw He)) as (file' & w' & Heq & _ & Hs). by exists file', w'.
Qed.
End entity.

(** C13: a location update of a terminal the whitelist allows, within the rate limit
    and asking for nothing unsupported, with room in the registry, registers the terminal: its
    record is attached on the link it used, with the groups it reported applied
    in order, the granted energy economy and a fresh timer; it is a subscriber,
    attached to all its groups if it replaced them, reported none, or was in step
    before; no other terminal or subscriber changes; and it is sent a
    D-LOCATION-UPDATE-ACCEPT that it parses back to the accepted groups and the
    granted economy. *)
Theorem registration_accepted env w prim pdu bb' src dest : let i := ssi (lmmi_received_address prim) in
  env_ok env → mm_inv w → wf (lmmi_sdu prim) → is_u 24 i → u_location_update_demand_from_bitbuf (lmmi_sdu prim) = Ok pdu bb' →
  admissible env i pdu w →
  ∃ w', mm_rx_prim env (mkSapMsg LmmSap src dest (SmLmmMleUnitdataInd prim)) w = Ok tt w' ∧
    registered env i (lmmi_handle prim) pdu (granted_energy i pdu (clients_of w !! i)) w w'.
Proof.
  intros i Henv Hw Hwf Hi Hp Ha. destruct (wp_run _ _ _ (rx_demand_ok env Henv prim w Hw Hwf Hi)) as ([] & w' & Heq & _ & _ & Hreg).
  exists w'. split; [|by eapply Hreg]. rewrite <- Heq.
  assert (peek_bits 4 (lmmi_sdu prim) = Ok (Some (mm_pdu_type_ul_into_raw MmPduTypeUl_ULocationUpdateDemand)) (lmmi_sdu prim)) as Hpeek
    by (eapply mm_peek; [eexists; reflexivity|exact Hwf|exact Hp]).
  unfold mm_rx_prim. cbn [sm_sap sm_msg]. unfold rx_lmm_mle_unitdata_ind, exec. rewrite Hpeek.
  assert (mkLmmInd (lmmi_sdu prim) (lmmi_handle prim) (lmmi_received_address prim) = prim) as He by (by destruct prim).
  unfold mbind at 1, M_bind. cbn [unwrap mret M_ret mbind option_bind mm_pdu_type_ul_into_raw mm_pdu_type_ul_try_from]. by rewrite He.
Qed.

(** C14: when the recovery cache is written and the entity started anew from the file,
    it knows exactly the terminals among the first [max_cached_issis] records of the file (all of
    them, if there are no more) that whitelist and allowlist permit, each with
    its groups, its energy-saving mode and its dynamic groups; each
    of them, and nobody else, is to be commanded to register; and none is a
    subscriber before it has answered. *)
Theorem restart_restores {Text} (from_str : Text → option CacheFile) (to_string_pretty : CacheFile → option Text)
    env env' w cache file cfg sink override calls windows :
  (∀ cf, ∃ text, to_string_pretty cf = Some text ∧ from_str text = Some cf) → env_ok env → mm_inv w →
  mm_recovery (mw_mm w) = Some cache → rc_dirty cache = true → (rc_debounce cache ≤ duration_since (env_now env) (rc_last_flush cache))%Z →
  let kept := cached env w (cr_max_cached_issis (mc_recovery cfg)) in
  ∃ file' w1 w', recovery_maybe_flush env to_string_pretty true file w = Ok file' w1 ∧
    init_recovery env' from_str file' (fresh_world cfg sink override calls windows) = Ok tt w' ∧ mm_inv w' ∧
    (size (clients_of w) ≤ cr_max_cached_issis (mc_recovery cfg) → ∀ i, is_Some (clients_of w !! i) → i ∈ kept) ∧
    (∀ i, clients_of w' !! i = if permitted cfg i && bool_decide (i ∈ kept) then restored (env_now env') <$> clients_of w !! i else None) ∧
    (∀ i, is_Some (clients_of w' !! i) → default ∅ (sr_dgna_groups (subs_of w') !! i) = default ∅ (sr_dgna_groups (subs_of w) !! i)) ∧
    (∀ i, i ∈ mm_recovery_pending (mw_mm w') ↔ is_Some (clients_of w' !! i)) ∧ sr_subscribers (subs_of w') = ∅.
Proof.
  intros Hjson Henv Hw Hrec Hdirty Hdeb kept. destruct (Hjson (mkCacheFile CACHE_VERSION (recovery_snapshot env w))) as (text & Hto & Hfrom).
  assert (cache_load from_str (Some text) = recovery_snapshot env w) as Hload by (unfold cache_load; by rewrite Hfrom).
  pose proof (fresh_starting cfg sink override calls windows) as Hst. set (w0 := fresh_world cfg sink override calls windows) in *.
  assert (Forall record_ok (cache_load from_str (Some text))) as Hok by (rewrite Hload; by apply snapshot_ok).
  destruct (init_recovery_ok env' cfg from_str (Some text) w0 Hok Hst) as [Hinit [Hinv _ Hnobody]].
  eexists (Some text), _, (recovered env' cfg from_str (Some text) w0).
  split. { unfold recovery_maybe_flush, mbind, M_bind. cbn [get]. rewrite Hrec. unfold maybe_flush. rewrite Hdirty, (proj2 (Z.ltb_ge _ _) Hdeb). cbn [negb orb].
    unfold flush_now. rewrite Hto. reflexivity. }
  split; [exact Hinit|]. split; [exact Hinv|]. split; [intros Hn i; by apply cached_all|]. revert Hnobody. unfold recovered. rewrite Hload.
  set (n := cr_max_cached_issis (mc_recovery cfg)) in *. set (w' := foldl _ _ _). intros Hnobody.
  change (clients_of (mkMmWorld _ _ _)) with (clients_of w'). change (subs_of (mkMmWorld _ _ _)) with (subs_of w').
  assert (NoDup (tr_issi <$> take n (recovery_snapshot env w))) as Hnd.
  { rewrite fmap_take. eapply sublist_NoDup; [exact (snapshot_nodup env Henv w Hw)|apply sublist_take]. }
  pose proof (λ i, restore_all_client env' cfg (take n (recovery_snapshot env w)) w0 i Hnd) as Hall. cbv zeta in Hall. fold w' in Hall.
  assert (∀ i, clients_of w' !! i = if permitted cfg i && bool_decide (i ∈ kept) then restored (env_now env') <$> clients_of w !! i else None) as Hcl.
  { intros i. specialize (Hall i). rewrite (snapshot_find env Henv w Hw) in Hall. fold kept in Hall.
    destruct (bool_decide (i ∈ kept)), (clients_of w !! i) as [c|]; cbn in Hall; rewrite ?andb_true_r, ?andb_false_r.
    - destruct (permitted cfg i); [|by rewrite Hall]. destruct Hall as [-> _]. by rewrite (record_of_client env').
    - destruct Hall as [-> _]. by destruct (permitted cfg i).
    - by destruct Hall as [-> _].
    - by destruct Hall as [-> _]. }
  split; [exact Hcl|]. split; [|split; [|exact Hnobody]].
  - intros i Hi. specialize (Hall i). rewrite Hcl in Hi. rewrite (snapshot_find env Henv w Hw) in Hall. fold kept in Hall.
    destruct (permitted cfg i), (bool_decide (i ∈ kept)); try (by destruct Hi). apply fmap_is_Some in Hi as [c Hc].
    rewrite Hc in Hall. cbn in Hall. destruct Hall as [_ ->]. cbn. rewrite (bi_clients _ _ Hw i c Hc). rewrite lookup_empty.
    unfold dgna_groups_of. destruct (sr_dgna_groups (subs_of w) !! i) as [m|] eqn:E; [|done]. apply put_values. exact (bi_dgna _ _ Hw i m E).
  - intros i. change (mm_recovery_pending (mw_mm (mkMmWorld _ _ _))) with (mm_recovery_pending (mw_mm w')). unfold w'.
    rewrite restore_all_pending, elem_of_app, list_elem_of_filter, cached_numbers. fold w' kept. rewrite Hcl.
    assert (i ∈ kept → is_Some (clients_of w !! i)) as Hk by (intros (c & _ & Hc)%(elem_of_cached env Henv w Hw); by exists c).
    destruct (permitted cfg i); cbn [andb]; [|split; [by intros [?%not_elem_of_nil|[? _]]|by intros [? ?]]].
    case_bool_decide; [rewrite fmap_is_Some; split; [by auto|by right]|]. split; [by intros [?%not_elem_of_nil|[_ ?]]|by intros [? ?]].
Qed.

(** * Examples *)

Definition demo_env (now : Z) : MmEnv := mkMmEnv (now * SECOND) elements map_to_list.

Lemma demo_env_ok now : env_ok (demo_env now).
Proof. by split. Qed.

Definition demo_cfg : MmConfig :=
  mkMmConfig (mkCfgSecurity [] WhitelistAuto true 4 30) (mkCfgRecovery [] 3 2 1 100 true 10) None [] 60 false.

Definition demo_world : MmWorld := fresh_world demo_cfg None None ∅ ∅.

Definition mm_group (g : Z) : GroupIdentityUplink := mkGiu (Some 4%Z) None (Some g) None None.
(** A demand that reports groups, replacing the stored ones or not. *)
Definition demo_demand (replace : Z) (gs : list Z) : ULocationUpdateDemand :=
  mkULocationUpdateDemand LocationUpdateType_ItsiAttach false false None None (Some Eg2) None None None
    (Some (mkGroupIdentityLocationDemand replace (Some (mm_group <$> gs)))) None None None None.

Definition demo_sdu (w : B unit) : BitBuffer := default (new_autoexpand 0) (build (new_autoexpand 64) (w;; seek 0)).
Definition demo_prim (w : B unit) : LmmMleUnitdataInd := mkLmmInd (demo_sdu w) 0 (Core.issi 1001).
Definition demo_message (w : B unit) : SapMsg := mkSapMsg LmmSap Mle Mm (SmLmmMleUnitdataInd (demo_prim w)).
Definition demand_message (replace : Z) (gs : list Z) : SapMsg := demo_message (u_location_update_demand_to_bitbuf (demo_demand replace gs)).
(** A request for the groups the terminal is attached to. *)
Definition query_message : SapMsg :=
  demo_message (u_attach_detach_group_identity_to_bitbuf (mkUAttachDetachGroupIdentity false false None None None)).

Definition demo_exec (ev : mm_event) : MM unit := _ ← mm_exec (Text := unit) (λ _, None) ev None; mret tt.
Definition demo_run (evs : list mm_event) : outcome MmWorld Empty_set unit := for_each evs demo_exec demo_world.

Definition wf_check (bb : BitBuffer) : bool :=
  forallb (λ x, (0 <=? x) && (x <? 256))%Z (bb_buffer bb) && (bb_start bb <=? bb_pos bb) && (bb_pos bb <=? bb_end bb) &&
  (bb_end bb <=? 8 * length (bb_buffer bb)) && (bb_end bb <=? 3000).

Lemma wf_check_ok bb : wf_check bb = true → wf bb.
Proof.
  unfold wf_check. intros [[[[Hb Hs%Nat.leb_le]%andb_true_iff Hp%Nat.leb_le]%andb_true_iff He%Nat.leb_le]%andb_true_iff Hl%Nat.leb_le]%andb_true_iff.
  split; [|done|done|done|unfold usize_max; lia]. apply Forall_forall. intros x Hx%list_elem_of_In. rewrite forallb_forall in Hb.
  specialize (Hb x Hx). unfold is_u. lia.
Qed.

Definition demo_demand_prim : LmmMleUnitdataInd := demo_prim (u_location_update_demand_to_bitbuf (demo_demand 1 [7; 8]%Z)).

Lemma demo_prim_wf : wf (lmmi_sdu demo_demand_prim).
Proof. apply wf_check_ok. by vm_compute. Qed.

Lemma mm_entity_survives_witness : ∃ file' w',
  mm_exec (Text := unit) (λ _, None) (EvMessage (demo_env 0) (demand_message 1 [7; 8]%Z)) None demo_world = Ok file' w' ∧ served demo_world w'.
Proof.
  assert (mm_reachable (Text := unit) (λ _, None) (λ _, None) demo_world None) as Hr by apply reach_fresh.
  apply (proj2 (mm_entity_survives (λ _, None) (λ _, None) demo_world None Hr)). split; [apply demo_env_ok|].
  split; [exact demo_prim_wf|]. split; [unfold is_u; cbn; lia|]. intros pdu bb' _ _. vm_compute. lia.
Defined.

Lemma registration_accepted_witness : ∃ w',
  mm_rx_prim (demo_env 0) (demand_message 1 [7; 8]%Z) demo_world = Ok tt w' ∧
  registered (demo_env 0) 1001 0 (demo_demand 1 [7; 8]%Z) (granted_energy 1001 (demo_demand 1 [7; 8]%Z) None) demo_world w'.
Proof.
  assert (∃ bb', u_location_update_demand_from_bitbuf (lmmi_sdu demo_demand_prim) = Ok (demo_demand 1 [7; 8]%Z) bb') as [bb' Hp] by (eexists; by vm_compute).
  apply (registration_accepted (demo_env 0) demo_world demo_demand_prim (demo_demand 1 [7; 8]%Z) bb' Mle Mm (demo_env_ok 0)).
  - by apply (st_inv demo_cfg), fresh_starting.
  - exact demo_prim_wf.
  - unfold is_u. cbn. lia.
  - exact Hp.
  - split; [by vm_compute|done|by vm_compute|done|right; by vm_compute].
Defined.

(** A terminal that reports 40 and then 24 more groups and asks for its groups:
    the acknowledgement cannot count 64, and the handler panics. *)
Theorem group_query_panics : demo_run [EvMessage (demo_env 0) (demand_message 1 (seqZ 1 40));
  EvMessage (demo_env 1) (demand_message 0 (seqZ 41 24)); EvMessage (demo_env 2) query_message] = Panic.
Proof. by vm_compute. Qed.

(** A terminal dropped after an unanswered command that comes back and reports the
    group it still holds, without replacing its groups: it is registered, its group is accepted,
    but the subscriber registry has no group of it. *)
Theorem returning_terminal_not_affiliated : ∃ w',
  demo_run [EvMessage (demo_env 0) (demand_message 0 [7]%Z); EvTick (demo_env 100) (mkTime 1 1 1 1) [] true;
    EvTick (demo_env 200) (mkTime 1 1 1 1) [] true; EvMessage (demo_env 201) (demand_message 0 [7]%Z)] = Ok tt w' ∧
  is_registered 1001 (subs_of w') = true ∧ groups_in 1001 w' = {[7%Z]} ∧ attached_groups_of 1001 (subs_of w') = ∅.
Proof. eexists. split; [by vm_compute|]. by vm_compute. Qed.

(** A base station with recovery on which the terminal registers; the file holds
    the records themselves. *)
Definition demo_start : MmWorld :=
  match init_recovery (demo_env 0) Some None demo_world with Ok _ w => w | _ => demo_world end.
Definition demo_kept : MmWorld :=
  match mm_rx_prim (demo_env 1) (demand_message 1 [7; 8]%Z) demo_start with Ok _ w => w | _ => demo_start end.

Lemma demo_kept_inv : mm_inv demo_kept.
Proof.
  assert (mm_reachable (Text := CacheFile) Some Some demo_start None) as Hs.
  { apply (reach_recovered Some Some (demo_env 0) demo_cfg None None ∅ ∅ None); [constructor|by vm_compute]. }
  apply (reachable_inv (Text := CacheFile) Some Some demo_kept None).
  apply (reach_event Some Some (EvMessage (demo_env 1) (demand_message 1 [7; 8]%Z)) demo_start None); [exact Hs| |by vm_compute].
  split; [apply demo_env_ok|]. split; [exact demo_prim_wf|]. split; [unfold is_u; cbn; lia|]. intros pdu bb' _ _. vm_compute. lia.
Qed.

Lemma restart_restores_witness : ∃ file' w1 w', recovery_maybe_flush (demo_env 5) Some true None demo_kept = Ok file' w1 ∧
  init_recovery (demo_env 9) Some file' demo_world = Ok tt w' ∧ clients_of w' !! 1001%Z = restored (9 * SECOND) <$> clients_of demo_kept !! 1001%Z.
Proof.
  destruct (restart_restores Some Some (demo_env 5) (demo_env 9) demo_kept (mkCache true 0 SECOND) None demo_cfg None None ∅ ∅
    (λ cf, ex_intro _ cf (conj eq_refl eq_refl)) (demo_env_ok 5) demo_kept_inv) as (file' & w1 & w' & H1 & H2 & _ & _ & H3 & _).
  - by vm_compute.
  - reflexivity.
  - by vm_compute.
  - assert (permitted demo_cfg 1001 && bool_decide (1001%Z ∈ cached (demo_env 5) demo_kept (cr_max_cached_issis (mc_recovery demo_cfg))) = true) as Hp
      by (by vm_compute).
    exists file', w1, w'. split; [exact H1|]. split; [exact H2|]. rewrite H3, Hp. reflexivity.
Defined.
