(* ===== verification/LlcPdu.v ===== *)
(** Basic-link LLC PDUs (tetra-pdus/src/llc): the 4-bit PDU type and the headers
    of BL-ACK, BL-ADATA, BL-DATA and BL-UDATA. *)
From S2P Require Import Prelude Bits Core BitBuffer BitBufferSpec BitCodec BitBufferThms FieldCodec TypedFieldsSpec PduCodec.

(** * Definitions *)

Inductive LlcPduType : Type :=
| LtBlAdata | LtBlData | LtBlUdata | LtBlAck | LtBlAdataFcs | LtBlDataFcs | LtBlUdataFcs | LtBlAckFcs
| LtAlSetup | LtAlDataAlFinal | LtAlAlUdataAlUfinal | LtAlAckAlRnr | LtAlReconnect | LtSuppLlcPdu
| LtL2SigPdu | LtAlDisc.

#[global] Instance LlcPduType_eq_dec : EqDecision LlcPduType.
Proof. solve_decision. Defined.

Definition llc_type_try_from (x : Z) : option LlcPduType :=
  match x with
  | 0 => Some LtBlAdata | 1 => Some LtBlData | 2 => Some LtBlUdata | 3 => Some LtBlAck
  | 4 => Some LtBlAdataFcs | 5 => Some LtBlDataFcs | 6 => Some LtBlUdataFcs | 7 => Some LtBlAckFcs
  | 8 => Some LtAlSetup | 9 => Some LtAlDataAlFinal | 10 => Some LtAlAlUdataAlUfinal
  | 11 => Some LtAlAckAlRnr | 12 => Some LtAlReconnect | 13 => Some LtSuppLlcPdu
  | 14 => Some LtL2SigPdu | 15 => Some LtAlDisc | _ => None
  end%Z.

Definition llc_type_into_raw (t : LlcPduType) : Z :=
  match t with
  | LtBlAdata => 0 | LtBlData => 1 | LtBlUdata => 2 | LtBlAck => 3 | LtBlAdataFcs => 4
  | LtBlDataFcs => 5 | LtBlUdataFcs => 6 | LtBlAckFcs => 7 | LtAlSetup => 8 | LtAlDataAlFinal => 9
  | LtAlAlUdataAlUfinal => 10 | LtAlAckAlRnr => 11 | LtAlReconnect => 12 | LtSuppLlcPdu => 13
  | LtL2SigPdu => 14 | LtAlDisc => 15
  end.

Record BlAck : Type := mkBlAck { back_has_fcs : bool; back_nr : Z }.
Record BlAdata : Type := mkBlAdata { badata_has_fcs : bool; badata_nr : Z; badata_ns : Z }.
Record BlData : Type := mkBlData { bdata_has_fcs : bool; bdata_ns : Z }.
Record BlUdata : Type := mkBlUdata { budata_has_fcs : bool }.

Definition bl_ack_from_bitbuf : B BlAck :=
  llc_link_type ← read_field 1 "llc_link_type";
  expect_value llc_link_type 0 "llc_link_type";;
  has_fcs ← read_field 1 "has_fcs";
  bl_pdu_type ← read_field 2 "bl_pdu_type";
  expect_value bl_pdu_type 3 "bl_pdu_type";;
  nr ← read_field 1 "nr";
  mret (mkBlAck (negb (has_fcs =? 0)%Z) (wrap 8 nr)).

Definition bl_ack_to_bitbuf (p : BlAck) : B unit :=
  write_bits 0 1;;
  write_bits (Z.b2z (back_has_fcs p)) 1;;
  write_bits 3 2;;
  write_bits (back_nr p) 1.

Definition bl_adata_from_bitbuf : B BlAdata :=
  llc_link_type ← read_field 1 "llc_link_type";
  expect_value llc_link_type 0 "llc_link_type";;
  has_fcs ← read_field 1 "has_fcs";
  bl_pdu_type ← read_field 2 "bl_pdu_type";
  expect_value bl_pdu_type 0 "bl_pdu_type";;
  nr ← read_field 1 "nr";
  ns ← read_field 1 "ns";
  mret (mkBlAdata (negb (has_fcs =? 0)%Z) (wrap 8 nr) (wrap 8 ns)).

Definition bl_adata_to_bitbuf (p : BlAdata) : B unit :=
  write_bits 0 1;;
  write_bits (Z.b2z (badata_has_fcs p)) 1;;
  write_bits 0 2;;
  write_bits (badata_nr p) 1;;
  write_bits (badata_ns p) 1.

Definition bl_data_from_bitbuf : B BlData :=
  llc_link_type ← read_field 1 "llc_link_type";
  expect_value llc_link_type 0 "llc_link_type";;
  has_fcs ← read_field 1 "has_fcs";
  bl_pdu_type ← read_field 2 "bl_pdu_type";
  expect_value bl_pdu_type 1 "bl_pdu_type";;
  ns ← read_field 1 "ns";
  mret (mkBlData (negb (has_fcs =? 0)%Z) (wrap 8 ns)).

Definition bl_data_to_bitbuf (p : BlData) : B unit :=
  write_bits 0 1;;
  write_bits (Z.b2z (bdata_has_fcs p)) 1;;
  write_bits 1 2;;
  write_bits (bdata_ns p) 1.

Definition bl_udata_from_bitbuf : B BlUdata :=
  llc_link_type ← read_field 1 "llc_link_type";
  expect_value llc_link_type 0 "llc_link_type";;
  has_fcs ← read_field 1 "has_fcs";
  bl_pdu_type ← read_field 2 "bl_pdu_type";
  expect_value bl_pdu_type 2 "bl_pdu_type";;
  mret (mkBlUdata (negb (has_fcs =? 0)%Z)).

Definition bl_udata_to_bitbuf (p : BlUdata) : B unit :=
  write_bits 0 1;;
  write_bits (Z.b2z (budata_has_fcs p)) 1;;
  write_bits 2 2.

(** The header of a received basic-link PDU, by its type: FCS flag, N(S) and N(R).
    Other types are not basic-link PDUs ([None]). *)
Definition parse_bl_header (t : LlcPduType) : option (B (bool * option Z * option Z)) :=
  match t with
  | LtBlAdata | LtBlAdataFcs =>
      Some (p ← bl_adata_from_bitbuf; mret (badata_has_fcs p, Some (badata_ns p), Some (badata_nr p)))
  | LtBlData | LtBlDataFcs =>
      Some (p ← bl_data_from_bitbuf; mret (bdata_has_fcs p, Some (bdata_ns p), None))
  | LtBlAck | LtBlAckFcs =>
      Some (p ← bl_ack_from_bitbuf; mret (back_has_fcs p, None, Some (back_nr p)))
  | LtBlUdata | LtBlUdataFcs =>
      Some (p ← bl_udata_from_bitbuf; mret (budata_has_fcs p, None, None))
  | _ => None
  end.

(** * Layouts *)

(** A header by its content. *)
Inductive bl_header : Type :=
| HAck (p : BlAck) | HAdata (p : BlAdata) | HData (p : BlData) | HUdata (p : BlUdata).

Definition bl_to_bitbuf (h : bl_header) : B unit :=
  match h with
  | HAck p => bl_ack_to_bitbuf p | HAdata p => bl_adata_to_bitbuf p
  | HData p => bl_data_to_bitbuf p | HUdata p => bl_udata_to_bitbuf p
  end.

Definition bl_seqs (h : bl_header) : bool * option Z * option Z :=
  match h with
  | HAck p => (back_has_fcs p, None, Some (back_nr p))
  | HAdata p => (badata_has_fcs p, Some (badata_ns p), Some (badata_nr p))
  | HData p => (bdata_has_fcs p, Some (bdata_ns p), None)
  | HUdata p => (budata_has_fcs p, None, None)
  end.

Definition bl_type (h : bl_header) : LlcPduType :=
  match h with
  | HAck p => if back_has_fcs p then LtBlAckFcs else LtBlAck
  | HAdata p => if badata_has_fcs p then LtBlAdataFcs else LtBlAdata
  | HData p => if bdata_has_fcs p then LtBlDataFcs else LtBlData
  | HUdata p => if budata_has_fcs p then LtBlUdataFcs else LtBlUdata
  end.

(** Sequence numbers are single bits. *)
Definition bl_valid (h : bl_header) : Prop :=
  match bl_seqs h with (_, ns, nr) => (∀ n, ns = Some n → is_u 1 n) ∧ (∀ n, nr = Some n → is_u 1 n) end.

Definition bl_fields (h : bl_header) : fields :=
  match h with
  | HAck p => [(0%Z, 1); (Z.b2z (back_has_fcs p), 1); (3%Z, 2); (back_nr p, 1)]
  | HAdata p => [(0%Z, 1); (Z.b2z (badata_has_fcs p), 1); (0%Z, 2); (badata_nr p, 1); (badata_ns p, 1)]
  | HData p => [(0%Z, 1); (Z.b2z (bdata_has_fcs p), 1); (1%Z, 2); (bdata_ns p, 1)]
  | HUdata p => [(0%Z, 1); (Z.b2z (budata_has_fcs p), 1); (2%Z, 2)]
  end.

Lemma bl_writes h : bl_valid h → writes (bl_to_bitbuf h) (fields_bits (bl_fields h)).
Proof.
  unfold bl_valid. destruct h as [p|p|p|p]; cbn [bl_seqs bl_to_bitbuf bl_fields]; intros [Hs Hr];
    try specialize (Hs _ eq_refl); try specialize (Hr _ eq_refl);
    unfold bl_ack_to_bitbuf, bl_adata_to_bitbuf, bl_data_to_bitbuf, bl_udata_to_bitbuf; repeat wstep.
Qed.

Lemma reads_expect {C} v s (k : unit → B C) fs c : reads (k tt) (fields_bits fs) c →
  reads (expect_value v v s ≫= k) (fields_bits fs) c.
Proof.
  intros Hk. apply (reads_pure (expect_value v v s) tt); [|done].
  intros bb. unfold expect_value. by rewrite decide_True.
Qed.

Ltac bl_reads := repeat first [apply reads_expect | apply reads_field_then; [field_side..|]];
  rewrite ?b2z_nonzero, ?(wrap_fits 1 8) by (done || lia).

Lemma bl_reads_header h : bl_valid h →
  ∃ p, parse_bl_header (bl_type h) = Some p ∧ reads p (fields_bits (bl_fields h)) (bl_seqs h).
Proof.
  unfold bl_valid. destruct h as [p|p|p|p]; cbn [bl_seqs bl_fields bl_type]; intros [Hs Hr];
    try specialize (Hs _ eq_refl); try specialize (Hr _ eq_refl).
  - exists (p ← bl_ack_from_bitbuf; mret (back_has_fcs p, None, Some (back_nr p))).
    split; [by destruct (back_has_fcs p)|]. apply (reads_last _ _ _ p); [|apply reads_done].
    unfold bl_ack_from_bitbuf. bl_reads. destruct p. apply reads_done.
  - exists (p ← bl_adata_from_bitbuf; mret (badata_has_fcs p, Some (badata_ns p), Some (badata_nr p))).
    split; [by destruct (badata_has_fcs p)|]. apply (reads_last _ _ _ p); [|apply reads_done].
    unfold bl_adata_from_bitbuf. bl_reads. destruct p. apply reads_done.
  - exists (p ← bl_data_from_bitbuf; mret (bdata_has_fcs p, Some (bdata_ns p), None)).
    split; [by destruct (bdata_has_fcs p)|]. apply (reads_last _ _ _ p); [|apply reads_done].
    unfold bl_data_from_bitbuf. bl_reads. destruct p. apply reads_done.
  - exists (p ← bl_udata_from_bitbuf; mret (budata_has_fcs p, None, None)).
    split; [by destruct (budata_has_fcs p)|]. apply (reads_last _ _ _ p); [|apply reads_done].
    unfold bl_udata_from_bitbuf. bl_reads. destruct p. apply reads_done.
Qed.

Lemma llc_type_ok t : llc_type_try_from (llc_type_into_raw t) = Some t ∧ is_u 4 (llc_type_into_raw t).
Proof. split; [by destruct t|]. destruct t; unfold is_u; simpl; lia. Qed.

(** The first four bits of a header are its type. *)
Lemma bl_type_bits h : ∃ rest, fields_bits (bl_fields h) = bits_of_Z 4 (llc_type_into_raw (bl_type h)) ++ rest.
Proof.
  destruct h as [p|p|p|p]; cbn [bl_fields bl_type]; rewrite !fields_bits_cons;
    [destruct (back_has_fcs p)|destruct (badata_has_fcs p)|destruct (bdata_has_fcs p)|destruct (budata_has_fcs p)];
    eexists; reflexivity.
Qed.

(** * Parsing arbitrary bits *)

Lemma parse_bl_header_safe t p : parse_bl_header t = Some p → parser_safe p.
Proof.
  destruct t; cbn [parse_bl_header]; intros [= <-];
    unfold bl_ack_from_bitbuf, bl_adata_from_bitbuf, bl_data_from_bitbuf, bl_udata_from_bitbuf;
    auto 20 with parser_safe.
Qed.

Lemma read_field_ok_inv n s bb v bb' : wf bb → read_field n s bb = Ok v bb' →
  is_u (Z.of_nat n) v ∧ wf bb' ∧ bb' = advance n bb.
Proof.
  intros Hwf. unfold read_field. intros (o & bb1 & H1 & H2)%bind_ok_inv.
  rewrite read_bits_spec in H1 by done. case_decide as Hd; [|by simplify_eq].
  simplify_eq. unfold ok_or, mret, M_ret in H2. injection H2 as <- <-. split_and!; [|apply wf_advance; [done|lia]|done].
  apply Z_of_bits_is_u_len. rewrite length_take, length_remaining by done. lia.
Qed.

Lemma expect_value_ok_inv v x s (bb bb' : BitBuffer) u : expect_value v x s bb = Ok u bb' → bb' = bb.
Proof. unfold expect_value. case_decide; [|done]. by intros [= _ <-]. Qed.

(** Sequence numbers of a parsed header are single bits. *)
Lemma parse_bl_header_bits t p bb f ns nr bb' : parse_bl_header t = Some p → wf bb →
  p bb = Ok (f, ns, nr) bb' → (∀ n, ns = Some n → is_u 1 n) ∧ (∀ n, nr = Some n → is_u 1 n).
Proof.
  assert (∀ n, is_u 1 n → is_u 1 (wrap 8 n)) as Hw.
  { intros n Hn. by rewrite (wrap_fits 1 8) by (done || lia). }
  destruct t; cbn [parse_bl_header]; intros [= <-] Hwf;
    unfold bl_ack_from_bitbuf, bl_adata_from_bitbuf, bl_data_from_bitbuf, bl_udata_from_bitbuf;
    intros (x & bbx & Hp & Hr)%bind_ok_inv;
    repeat match goal with
    | H : (read_field _ _ ≫= _) _ = Ok _ _ |- _ =>
        let v := fresh "v" in let b := fresh "b" in let H1 := fresh "H1" in
        apply bind_ok_inv in H as (v & b & H1%read_field_ok_inv & H); [|done]; destruct H1 as (? & ? & ->)
    | H : (expect_value _ _ _ ≫= _) _ = Ok _ _ |- _ =>
        let u := fresh "u" in let b := fresh "b" in let H1 := fresh "H1" in
        apply bind_ok_inv in H as (u & b & H1%expect_value_ok_inv & H); subst b
    end; unfold mret, M_ret in *; simplify_eq; cbn; (split; intros ? ?; simplify_eq; by apply Hw).
Qed.

(** Every basic-link header survives the air interface.  For BL-ACK,
    BL-ADATA, BL-DATA and BL-UDATA headers with any flags and sequence numbers,
    the four bits at the start identify the PDU type, and the parser selected by
    that type returns the FCS flag, N(S) and N(R) that were written and consumes
    exactly the header. *)
Theorem bl_header_roundtrip h : bl_valid h →
  ∃ bits p, writes (bl_to_bitbuf h) bits ∧ parse_bl_header (bl_type h) = Some p ∧ reads p bits (bl_seqs h) ∧
    llc_type_try_from (Z_of_bits (take 4 bits)) = Some (bl_type h).
Proof.
  intros Hv. destruct (bl_reads_header h Hv) as (p & Hp & Hr). exists (fields_bits (bl_fields h)), p.
  split_and!; [by apply bl_writes|done|done|]. destruct (bl_type_bits h) as [rest ->].
  destruct (llc_type_ok (bl_type h)) as [Hty Hu].
  rewrite take_app_length' by (by rewrite length_bits_of_Z). by rewrite Z_of_bits_of_Z_small.
Qed.

Lemma bl_header_roundtrip_witness : ∃ bits p,
  writes (bl_adata_to_bitbuf (mkBlAdata true 1 0)) bits ∧ parse_bl_header LtBlAdataFcs = Some p ∧
  reads p bits (true, Some 0%Z, Some 1%Z) ∧ llc_type_try_from (Z_of_bits (take 4 bits)) = Some LtBlAdataFcs.
Proof.
  apply (bl_header_roundtrip (HAdata (mkBlAdata true 1 0))).
  split; intros n Hn; injection Hn as <-; unfold is_u; lia.
Defined.
