(* ===== verification/Fcs.v ===== *)
(** The LLC frame check sequence (tetra-entities/src/llc/components/fcs.rs): a
    32-bit CRC over the TL-SDU, complemented, in the last 32 bits. *)
From S2P Require Import Prelude Bits Crc16 Core BitBuffer BitBufferSpec.
Local Open Scope Z_scope.

(** * Definitions *)

Definition FCS_POLY : Z := 0x04C11DB7.

(** The loop body: [feedback], shift, xor. *)
Definition fcs_step (crc bit : Z) : Z :=
  let feedback := Z.land (Z.lxor bit (wrap 8 (Z.shiftr crc 31))) 1 in
  let crc := wrap 32 (Z.shiftl crc 1) in
  if negb (feedback =? 0) then Z.lxor crc FCS_POLY else crc.

Fixpoint fcs_loop (n : nat) (bit_pos : nat) (crc : Z) : B Z :=
  match n with
  | O => mret crc
  | S n =>
      ov ← peek_bits_startoffset bit_pos 1;
      bit ← unwrap ov;
      fcs_loop n (S bit_pos) (fcs_step crc (wrap 8 bit))
  end.

Definition compute_fcs (start end_ : nat) : B Z :=
  bb ← get;
  assert_ (start <=? end_)%nat;;
  assert_ (end_ <=? get_len bb)%nat;;
  let crc := 0xFFFFFFFF in
  let len := (end_ - start)%nat in
  let crc := if ((0 <? len) && (len <? 32))%nat then wrap 32 (Z.shiftl crc (32 - Z.of_nat len)) else crc in
  crc ← fcs_loop len start crc;
  mret (Z.lxor crc 0xFFFFFFFF).

Definition check_fcs : B bool :=
  bb ← get;
  if (get_len_remaining bb <? 32)%nat then mret false
  else
    fcs_computed ← compute_fcs (get_pos bb) (get_len bb - 32);
    ov ← peek_bits_startoffset (get_len bb - 32) 32;
    fcs_extracted ← unwrap ov;
    mret (fcs_computed =? wrap 32 fcs_extracted).

(** * The checksum as a function of the protected bits *)

Definition fcs_init (len : nat) : Z :=
  if ((0 <? len) && (len <? 32))%nat then wrap 32 (Z.shiftl 0xFFFFFFFF (32 - Z.of_nat len)) else 0xFFFFFFFF.

Definition fcs_of (bs : list bool) : Z := Z.lxor (grun 32 FCS_POLY (fcs_init (length bs)) bs) 0xFFFFFFFF.

Lemma fcs_init_is_u len : is_u 32 (fcs_init len).
Proof. unfold fcs_init. case_match; [apply wrap_is_u; lia|done]. Qed.

Lemma fcs_of_is_u bs : is_u 32 (fcs_of bs).
Proof. apply is_u_lxor; [lia|apply grun_is_u; [lia|done|apply fcs_init_is_u]|done]. Qed.

Lemma fcs_step_gstep c b : is_u 32 c → fcs_step c (Z.b2z b) = gstep 32 FCS_POLY c b.
Proof.
  intros Hc. unfold fcs_step, gstep.
  assert (negb (Z.land (Z.lxor (Z.b2z b) (wrap 8 (Z.shiftr c 31))) 1 =? 0) =
    xorb (Z.testbit c (32 - 1)) b) as ->; [|by case_match; rewrite ?Z.lxor_0_r].
  change 1 with (Z.ones 1) at 1. rewrite Z.land_ones by lia. change (2 ^ 1) with 2.
  rewrite <-Z.bit0_mod, Z.lxor_spec, wrap_testbit by lia. rewrite decide_True, Z.shiftr_spec by lia.
  change (32 - 1) with 31. change (0 + 31) with 31. rewrite Z.b2z_bit0. by destruct b, (Z.testbit c 31).
Qed.

Lemma fcs_loop_run bb n p c : wf bb → (bb_start bb + p + n ≤ bb_end bb)%nat → is_u 32 c →
  fcs_loop n p c bb = Ok (grun 32 FCS_POLY c (slice (bb_start bb + p) n (a_bits (abs bb)))) bb.
Proof.
  intros Hwf. revert p c. induction n as [|n IH]; intros p c Hle Hc; [done|].
  cbn [fcs_loop].
  destruct (lookup_lt_is_Some_2 (a_bits (abs bb)) (bb_start bb + p)) as [b Hb].
  { rewrite length_abs by done. lia. }
  assert (slice (bb_start bb + p) (S n) (a_bits (abs bb)) =
    b :: slice (bb_start bb + S p) n (a_bits (abs bb))) as Hsl.
  { unfold slice. rewrite (drop_S _ b) by done. cbn [take]. do 3 f_equal. lia. }
  erewrite bind_ok.
  2: { rewrite peek_bits_startoffset_spec by done. rewrite decide_True by lia. reflexivity. }
  assert (Z_of_bits (slice (bb_start bb + p) 1 (a_bits (abs bb))) = Z.b2z b) as ->.
  { unfold slice. rewrite (drop_S _ b) by done. by destruct b. }
  erewrite bind_ok by reflexivity.
  assert (wrap 8 (Z.b2z b) = Z.b2z b) as -> by (by destruct b).
  rewrite fcs_step_gstep, IH by (done || lia || apply gstep_is_u; done). by rewrite Hsl.
Qed.

Lemma compute_fcs_spec bb s e : wf bb → (s ≤ e ≤ get_len bb)%nat →
  compute_fcs s e bb = Ok (fcs_of (slice (bb_start bb + s) (e - s) (a_bits (abs bb)))) bb.
Proof.
  intros Hwf He. unfold compute_fcs. erewrite (bind_ok get) by done. pose proof (wf_pos _ Hwf). pose proof (wf_start _ Hwf).
  rewrite (proj2 (Nat.leb_le s e)), (proj2 (Nat.leb_le e (get_len bb))) by lia.
  erewrite (bind_ok (assert_ true)) by done. erewrite (bind_ok (assert_ true)) by done.
  unfold get_len in He. cbv zeta. fold (fcs_init (e - s)).
  erewrite bind_ok by (apply fcs_loop_run; [done|lia|apply fcs_init_is_u]).
  unfold fcs_of. by rewrite length_slice by (rewrite length_abs by done; lia).
Qed.

(** The check compares the last 32 of the remaining bits with the checksum of the others. *)
Lemma check_fcs_spec bb : wf bb →
  check_fcs bb = Ok (if decide (32 ≤ length (remaining bb))%nat then
      let n := (length (remaining bb) - 32)%nat in
      fcs_of (take n (remaining bb)) =? Z_of_bits (drop n (remaining bb)) else false) bb.
Proof.
  intros Hwf. unfold check_fcs. erewrite (bind_ok get) by done. pose proof (wf_pos _ Hwf). pose proof (wf_start _ Hwf).
  rewrite length_remaining by done.
  destruct (Nat.ltb_spec (get_len_remaining bb) 32); [by rewrite decide_False by lia|].
  rewrite decide_True by lia. unfold get_len_remaining in *.
  erewrite bind_ok by (apply compute_fcs_spec; [done|unfold get_pos, get_len; lia]).
  erewrite bind_ok.
  2: { rewrite peek_bits_startoffset_spec, decide_True by (done || unfold get_len; lia). reflexivity. }
  erewrite bind_ok by reflexivity. unfold mret, M_ret. cbv zeta. do 2 f_equal.
  - f_equal. unfold slice, remaining, a_remaining, get_pos, get_len.
    change (a_pos (abs bb)) with (bb_pos bb). f_equal; [lia|]. f_equal. lia.
  - rewrite wrap_small.
    + f_equal. unfold slice, remaining, a_remaining. rewrite drop_drop. change (a_pos (abs bb)) with (bb_pos bb).
      rewrite take_ge by (rewrite length_drop, length_abs by done; unfold get_len; lia).
      f_equal. unfold get_len. lia.
    + apply (Z_of_bits_is_u_len _ 32). apply length_slice. rewrite length_abs by done. unfold get_len. lia.
Qed.

(** * Errors *)

Lemma fcs_of_xor bs es : length bs = length es →
  fcs_of (xor_bits bs es) = Z.lxor (fcs_of bs) (grun 32 FCS_POLY 0 es).
Proof.
  intros Hlen. unfold fcs_of.
  assert (length (xor_bits bs es) = length bs) as -> by (unfold xor_bits; rewrite length_zip_with; lia).
  rewrite <-(Z.lxor_0_r (fcs_init (length bs))) at 1. rewrite grun_xor by done.
  rewrite !Z.lxor_assoc. f_equal. apply Z.lxor_comm.
Qed.

(** Only the same error in both halves goes unnoticed. *)
Lemma fcs_error_undetected sdu e1 e2 : length e1 = length sdu → length e2 = 32%nat →
  fcs_of (xor_bits sdu e1) = Z_of_bits (xor_bits (bits_of_Z 32 (fcs_of sdu)) e2) →
  grun 32 FCS_POLY 0 (e1 ++ e2) = 0.
Proof.
  intros H1 H2 Heq. rewrite fcs_of_xor, Z_of_bits_xor in Heq by (rewrite ?length_bits_of_Z; done).
  rewrite Z_of_bits_of_Z_small in Heq by apply fcs_of_is_u.
  apply (f_equal (Z.lxor (fcs_of sdu))) in Heq.
  rewrite <-!Z.lxor_assoc, !Z.lxor_nilpotent, !Z.lxor_0_l in Heq.
  rewrite grun_app. rewrite <-(bits_of_Z_of_bits e2), H2, <-Heq.
  rewrite <-(Z.lxor_0_r (grun _ _ 0 e1)) at 2.
  rewrite (grun_self 32); [by apply grun_zero|done..|by apply grun_is_u|done].
Qed.

(** * Properties *)

(** The check sequence protects the TL-SDU.  Whatever the SDU and wherever
    it starts in the buffer, the sent SDU with its checksum passes the check, and
    after an error burst of at most 32 bits anywhere in it (checksum included)
    that flips at least one bit, it does not; a buffer of less than 32 bits is
    refused.  Nothing panics and the buffer is not changed. *)
Theorem fcs_protects_sdu bb sdu n e m : wf bb → (length e ≤ 32)%nat →
  (n + length e + m = length sdu + 32)%nat →
  remaining bb = xor_bits (sdu ++ bits_of_Z 32 (fcs_of sdu)) (replicate n false ++ e ++ replicate m false) →
  check_fcs bb = Ok (negb (bool_decide (true ∈ e))) bb.
Proof.
  intros Hwf He Hlen Hrem. set (err := replicate n false ++ e ++ replicate m false) in *.
  assert (length err = (length sdu + 32)%nat) as Herr.
  { unfold err. rewrite !length_app, !length_replicate. lia. }
  rewrite check_fcs_spec, Hrem, length_xor_bits by (rewrite ?length_app, ?length_bits_of_Z; done || lia).
  rewrite length_app, length_bits_of_Z, decide_True, Nat.add_sub by lia. cbv zeta. do 2 f_equal.
  destruct (bool_decide_reflect (true ∈ e)) as [Hin|Hno]; cbn [negb].
  - set (e1 := take (length sdu) err). set (e2 := drop (length sdu) err).
    assert (length e1 = length sdu) as H1 by (unfold e1; rewrite length_take; lia).
    assert (length e2 = 32%nat) as H2 by (unfold e2; rewrite length_drop; lia).
    assert (err = e1 ++ e2) as Hsplit by (unfold e1, e2; by rewrite take_drop).
    rewrite Hsplit, xor_bits_app, <-(length_xor_bits sdu e1), take_app_length, drop_app_length by done.
    apply Z.eqb_neq. intros Heq%fcs_error_undetected; [|done..]. rewrite <-Hsplit in Heq. revert Heq.
    apply burst_syndrome; [done..|lia|done].
  - assert (err = replicate (length sdu + 32) false) as ->.
    { assert (replicate (length e) false = e) as He0.
      { apply replicate_as_elem_of. split; [done|]. by intros [] ?. }
      unfold err. rewrite <-He0, <-!replicate_add. f_equal. lia. }
    assert (length (sdu ++ bits_of_Z 32 (fcs_of sdu)) = (length sdu + 32)%nat) as <-.
    { by rewrite length_app, length_bits_of_Z. }
    rewrite xor_bits_zero, take_app_length, drop_app_length. apply Z.eqb_eq.
    by rewrite Z_of_bits_of_Z_small by apply fcs_of_is_u.
Qed.

(** The test vector of fcs.rs (a BL-DATA header of 5 bits, the SDU, its checksum),
    as sent and with two bits of the SDU flipped. *)
Definition fcs_test_sdu : list bool :=
  bits_of_Z 224 0x4f5af84c31618000620266606458646064626262626a646064606062.

Definition fcs_test_bytes : list Z :=
  [82; 122; 215; 194; 97; 139; 12; 0; 3; 16; 19; 51; 3; 34; 195; 35; 3; 35; 19; 19; 19; 19; 83; 35; 3; 35; 3; 3; 22; 122; 10; 177; 168].

Definition fcs_flipped_bytes : list Z :=
  [82; 123; 151; 194; 97; 139; 12; 0; 3; 16; 19; 51; 3; 34; 195; 35; 3; 35; 19; 19; 19; 19; 83; 35; 3; 35; 3; 3; 22; 122; 10; 177; 168].

Lemma fcs_protects_sdu_witness :
  check_fcs (mkBitBuffer fcs_test_bytes 0 5 261 false) = Ok true (mkBitBuffer fcs_test_bytes 0 5 261 false) ∧
  check_fcs (mkBitBuffer fcs_flipped_bytes 0 5 261 false) = Ok false (mkBitBuffer fcs_flipped_bytes 0 5 261 false).
Proof.
  assert (∀ l, Forall (is_u 8) l → length l = 33%nat → wf (mkBitBuffer l 0 5 261 false)) as Hwf.
  { intros l Hl Hlen. split; cbn; [done|lia|lia|rewrite Hlen; lia|unfold usize_max; lia]. }
  assert (∀ l, forallb (λ b, (0 <=? b) && (b <? 256)) l = true → Forall (is_u 8) l) as Hall.
  { intros l Hl. apply Forall_forall. intros b Hb%list_elem_of_In. rewrite forallb_forall in Hl.
    specialize (Hl b Hb). unfold is_u. lia. }
  split.
  - apply (fcs_protects_sdu _ fcs_test_sdu 256 [] 0); [apply Hwf; [by apply Hall|done]|cbn; lia|done|by vm_compute].
  - apply (fcs_protects_sdu _ fcs_test_sdu 10 [true; false; true] 243);
      [apply Hwf; [by apply Hall|done]|cbn; lia|done|by vm_compute].
Defined.
