(* ===== verification/Llc.v ===== *)
(** The LLC entity (tetra-entities/src/llc/llc_bs_ms.rs): the basic link with
    acknowledged and unacknowledged service.

    Every handler works on the entity itself, the message queue it was handed
    and the receipts it shares with the other layers; the three together are a
    [World].  A [VecDeque] is a list, front first.  Of the configuration the LLC
    reads one number, the main carrier. *)
From S2P Require Import Prelude Bits Core BitBuffer TdmaTime TxReceipt MacDl.
From S2P Require Import LlcPdu Fcs Saps.

(** * State *)

Definition N252_BL_MAX_TLSDU_RETRANSMITS_ACKED : Z := 3.
Definition T251_SENDER_RETRY_TIMER : Z := frames 4.

Record ExpectedInAck : Type := mkExpectedInAck {
  ea_carrier_num : Z;
  ea_ts : Z;
  ea_addr : TetraAddress;
  ea_ns : Z;
  ea_bl_type : Layer2Service;
  ea_t_first : TdmaTime;
  ea_t_submitted_to_umac : option TdmaTime;
  ea_t_umac_done : option TdmaTime;
  ea_tx_reporter : TxHandle;
  ea_retransmission_buf : SapMsg;
  ea_retransmit_count : Z
}.

Record ScheduledOutAck : Type := mkScheduledOutAck {
  sa_addr : TetraAddress;
  sa_t_start : TdmaTime;
  sa_nr : Z;
  sa_carrier_num : Z;
  sa_ts : Z
}.

Record Llc : Type := mkLlc {
  llc_main_carrier : Z;
  llc_dltime : TdmaTime;
  llc_scheduled_out_acks : list ScheduledOutAck;
  llc_outbound_messages : list ExpectedInAck;
  llc_outbound_udata_messages : list SapMsg;
  llc_link_send_seq : gmap Z Z
}.

Record World : Type := mkWorld {
  w_llc : Llc;
  w_queue : list SapMsg;
  w_tx : TxStore;
  w_next : TxHandle
}.

Abbreviation L := (M World Empty_set).

Definition llc_new (main_carrier : Z) : Llc := mkLlc main_carrier tdma_default [] [] [] ∅.

(** * Access to the parts of the world *)

Definition set_llc (s : Llc) (w : World) : World := mkWorld s (w_queue w) (w_tx w) (w_next w).
Definition modify_llc (f : Llc → Llc) : L unit := λ w, Ok tt (set_llc (f (w_llc w)) w).

Definition set_dltime (t : TdmaTime) (s : Llc) : Llc :=
  mkLlc (llc_main_carrier s) t (llc_scheduled_out_acks s) (llc_outbound_messages s)
    (llc_outbound_udata_messages s) (llc_link_send_seq s).
Definition set_out_acks (l : list ScheduledOutAck) (s : Llc) : Llc :=
  mkLlc (llc_main_carrier s) (llc_dltime s) l (llc_outbound_messages s)
    (llc_outbound_udata_messages s) (llc_link_send_seq s).
Definition set_outbound (l : list ExpectedInAck) (s : Llc) : Llc :=
  mkLlc (llc_main_carrier s) (llc_dltime s) (llc_scheduled_out_acks s) l
    (llc_outbound_udata_messages s) (llc_link_send_seq s).
Definition set_udata (l : list SapMsg) (s : Llc) : Llc :=
  mkLlc (llc_main_carrier s) (llc_dltime s) (llc_scheduled_out_acks s) (llc_outbound_messages s)
    l (llc_link_send_seq s).
Definition set_send_seq (m : gmap Z Z) (s : Llc) : Llc :=
  mkLlc (llc_main_carrier s) (llc_dltime s) (llc_scheduled_out_acks s) (llc_outbound_messages s)
    (llc_outbound_udata_messages s) m.

Definition push_back (m : SapMsg) : L unit := λ w,
  Ok tt (mkWorld (w_llc w) (w_queue w ++ [m]) (w_tx w) (w_next w)).
Definition push_udata (m : SapMsg) : L unit :=
  modify_llc (λ s, set_udata (llc_outbound_udata_messages s ++ [m]) s).

(** Receipts: a new one, a look at one, and a transition (which may panic). *)
Definition tx_new : L TxHandle := λ w,
  Ok (w_next w) (mkWorld (w_llc w) (w_queue w) (<[w_next w := new_reporter]> (w_tx w)) (S (w_next w))).
Definition tx_load (h : TxHandle) : L TxReporter := w ← get; unwrap (w_tx w !! h).
Definition tx_store (h : TxHandle) (r : TxReporter) : L unit := λ w,
  Ok tt (mkWorld (w_llc w) (w_queue w) (<[h := r]> (w_tx w)) (w_next w)).
Definition tx_update (h : TxHandle) (f : TxReporter → option TxReporter) : L unit :=
  r ← tx_load h;
  r' ← unwrap (f r);
  tx_store h r'.

(** * Acknowledgements *)

Definition schedule_outgoing_ack (dltime : TdmaTime) (addr : TetraAddress) (carrier_num ts ns : Z) : L unit :=
  modify_llc (λ s, set_out_acks (llc_scheduled_out_acks s ++ [mkScheduledOutAck addr dltime ns carrier_num ts]) s).

Definition ack_for (ssi_ carrier_num : Z) (a : ScheduledOutAck) : Prop :=
  ssi (sa_addr a) = ssi_ ∧ sa_carrier_num a = carrier_num.
#[global] Instance ack_for_dec s c a : Decision (ack_for s c a).
Proof. unfold ack_for. apply _. Defined.

Definition get_out_ack_seq_if_any (addr : TetraAddress) (carrier_num : Z) : L (option Z) :=
  w ← get;
  let acks := llc_scheduled_out_acks (w_llc w) in
  match list_find (ack_for (ssi addr) carrier_num) acks with
  | Some (i, a) => modify_llc (set_out_acks (delete i acks));; mret (Some (sa_nr a))
  | None => mret None
  end.

Definition get_next_send_seq (addr : TetraAddress) : L Z :=
  w ← get;
  let seqs := llc_link_send_seq (w_llc w) in
  let ns := default 0%Z (seqs !! ssi addr) in
  modify_llc (set_send_seq (<[ssi addr := Z.lxor ns 1]> seqs));;
  mret ns.

Definition in_flight (m : ExpectedInAck) : Prop := is_Some (ea_t_submitted_to_umac m).
#[global] Instance in_flight_dec m : Decision (in_flight m).
Proof. unfold in_flight. apply _. Defined.

Definition expected_for (ssi_ carrier_num : Z) (m : ExpectedInAck) : Prop :=
  ssi (ea_addr m) = ssi_ ∧ ea_carrier_num m = carrier_num ∧ in_flight m.
#[global] Instance expected_for_dec s c m : Decision (expected_for s c m).
Proof. unfold expected_for. apply _. Defined.

Definition take_expected_ack_for_ssi (ssi_ carrier_num : Z) : L (option ExpectedInAck) :=
  w ← get;
  let msgs := llc_outbound_messages (w_llc w) in
  match list_find (expected_for ssi_ carrier_num) msgs with
  | Some (i, m) => modify_llc (set_outbound (delete i msgs));; mret (Some m)
  | None => mret None
  end.

Definition push_front_outbound (m : ExpectedInAck) : L unit :=
  modify_llc (λ s, set_outbound (m :: llc_outbound_messages s) s).

Definition process_incoming_ack (addr : TetraAddress) (carrier_num nr : Z) : L unit :=
  o ← take_expected_ack_for_ssi (ssi addr) carrier_num;
  match o with
  | None => mret tt
  | Some expected_ack =>
      if is_none (ea_t_umac_done expected_ack) then push_front_outbound expected_ack
      else if (ea_ns expected_ack =? nr)%Z then tx_update (ea_tx_reporter expected_ack) mark_acknowledged
      else push_front_outbound expected_ack
  end.

(** * Requests from above *)

(** A header, then the SDU from its cursor on; the cursor of the PDU is at its start. *)
Definition build_pdu (initial_len : nat) (hdr : B unit) (tl_sdu : BitBuffer) : option BitBuffer :=
  build (new_autoexpand initial_len)
    (hdr;;
     _ ← copy_bits tl_sdu (get_len_remaining tl_sdu);
     seek 0).

Definition rx_tla_tlunitdata_req_bl (prim : TlaTlUnitdataReqBl) : L unit :=
  pdu_buf ← unwrap (build_pdu 32 (bl_udata_to_bitbuf (mkBlUdata false)) (tlur_tl_sdu prim));
  w ← get;
  let preferred_carrier := default (llc_main_carrier (w_llc w)) (tlur_chan_alloc prim ≫= car_carrier) in
  push_udata (mkSapMsg TmaSap Llc_ Umac (SmTmaUnitdataReq
    (mkTmaReq (Some preferred_carrier) (tlur_req_handle prim) pdu_buf (tlur_main_address prim)
       (tlur_link_id prim) (tlur_endpoint_id prim) (tlur_stealing_permission prim)
       (tlur_subscriber_class prim) (tlur_air_interface_encryption prim) None
       (tlur_data_class_info prim) (tlur_chan_alloc prim) (tlur_tx_reporter prim)))).

Definition set_submitted (t : TdmaTime) (a : ExpectedInAck) : ExpectedInAck :=
  mkExpectedInAck (ea_carrier_num a) (ea_ts a) (ea_addr a) (ea_ns a) (ea_bl_type a) (ea_t_first a)
    (Some t) None (ea_tx_reporter a) (ea_retransmission_buf a) (ea_retransmit_count a).

Definition submit_for_acknowledged_transmission (ack : ExpectedInAck) (dltime : TdmaTime) : L ExpectedInAck :=
  tx_update (ea_tx_reporter ack) (λ r, Some (reset_reporter r));;
  push_back (ea_retransmission_buf ack);;
  mret (set_submitted dltime ack).

(** The request as a TMA-UNITDATA request that carries [pdu_buf]. *)
Definition tma_req_of (prim : TlaTlDataReqBl) (carrier link_id : Z) (pdu_buf : BitBuffer)
    (tx : option TxHandle) : SapMsg :=
  mkSapMsg TmaSap Llc_ Umac (SmTmaUnitdataReq
    (mkTmaReq (Some carrier) (tldr_req_handle prim) pdu_buf (tldr_main_address prim) link_id
       (tldr_endpoint_id prim) (tldr_stealing_permission prim) (tldr_subscriber_class prim)
       (tldr_air_interface_encryption prim) (tldr_stealing_repeats_flag prim)
       (tldr_data_class_info prim) (tldr_chan_alloc prim) tx)).

(** The first timeslot of a channel allocation, 1 without one. *)
Definition derived_ts (ca : option CmceChanAllocReq) : Z :=
  match ca with
  | Some ca => match list_find (λ b : bool, b) (car_timeslots ca) with
               | Some (i, _) => wrap 8 (Z.of_nat (i + 1)) | None => 1%Z
               end
  | None => 1%Z
  end.

(** The acknowledged service: BL-DATA, or BL-ADATA when an acknowledgement is due. *)
Definition queue_acknowledged (prim : TlaTlDataReqBl) (preferred_carrier : Z) : L unit :=
  out_ack_n ← get_out_ack_seq_if_any (tldr_main_address prim) preferred_carrier;
  ns ← get_next_send_seq (tldr_main_address prim);
  pdu_buf ← unwrap
    match out_ack_n with
    | Some out_ack_n =>
        build_pdu 32 (bl_adata_to_bitbuf (mkBlAdata (tldr_fcs_flag prim) out_ack_n ns)) (tldr_tl_sdu prim)
    | None => build_pdu 32 (bl_data_to_bitbuf (mkBlData (tldr_fcs_flag prim) ns)) (tldr_tl_sdu prim)
    end;
  tx_reporter ← match tldr_tx_reporter prim with Some h => mret h | None => tx_new end;
  let sapmsg := tma_req_of prim preferred_carrier 0 pdu_buf (Some tx_reporter) in
  modify_llc (λ s, set_outbound (llc_outbound_messages s ++
    [mkExpectedInAck preferred_carrier (derived_ts (tldr_chan_alloc prim)) (tldr_main_address prim) ns
       L2Acknowledged (llc_dltime s) None None tx_reporter sapmsg 0]) s).

Definition rx_tla_tldata_req_bl (prim : TlaTlDataReqBl) : L unit :=
  w ← get;
  let preferred_carrier := default (llc_main_carrier (w_llc w)) (tldr_chan_alloc prim ≫= car_carrier) in
  piggyback ← (if tldr_stealing_permission prim
               then get_out_ack_seq_if_any (tldr_main_address prim) preferred_carrier else mret None);
  match piggyback with
  | Some out_ack_n =>
      pdu_buf ← unwrap (build_pdu 32 (bl_ack_to_bitbuf (mkBlAck (tldr_fcs_flag prim) out_ack_n)) (tldr_tl_sdu prim));
      push_udata (tma_req_of prim preferred_carrier (tldr_link_id prim) pdu_buf (tldr_tx_reporter prim))
  | None =>
      if tldr_stealing_permission prim || bool_decide (ssi_type (tldr_main_address prim) = Gssi) then
        pdu_buf ← unwrap (build_pdu 32 (bl_udata_to_bitbuf (mkBlUdata false)) (tldr_tl_sdu prim));
        push_udata (tma_req_of prim preferred_carrier 0 pdu_buf (tldr_tx_reporter prim))
      else queue_acknowledged prim preferred_carrier
  end.

Definition rx_tla_prim (message : SapMsg) : L unit :=
  match sm_msg message with
  | SmTlaTlDataReqBl p => rx_tla_tldata_req_bl p
  | SmTlaTlUnitdataReqBl p => rx_tla_tlunitdata_req_bl p
  | _ => mret tt
  end.

(** * Indications from below *)

Definition rx_tma_report_ind : L unit := mret tt.

(** [set_raw_start(get_raw_pos())]: the window starts at the cursor. *)
Definition trim_to_pos (pdu : BitBuffer) : option BitBuffer :=
  snd <$> exec (set_raw_start (bb_pos pdu)) pdu.

Definition tl_data_ind (prim : TmaUnitdataInd) (link_id : Z) (tl_sdu : option BitBuffer) (has_fcs : bool) : SapMsg :=
  mkSapMsg TlaSap Llc_ Mle (SmTlaTlDataIndBl
    (mkTlDataInd (tmai_main_address prim) link_id (tmai_endpoint_id prim) (tmai_new_endpoint_id prim)
       (tmai_css_endpoint_id prim) tl_sdu (tmai_scrambling_code prim) has_fcs
       (tmai_air_interface_encryption prim) (tmai_chan_change_response_req prim)
       (tmai_chan_change_handle prim) (tmai_chan_info prim) 0)).

Definition tl_unitdata_ind (prim : TmaUnitdataInd) (tl_sdu : option BitBuffer) (has_fcs : bool) : SapMsg :=
  mkSapMsg TlaSap Llc_ Mle (SmTlaTlUnitdataIndBl
    (mkTlUnitdataInd (tmai_main_address prim) 0 (tmai_endpoint_id prim) (tmai_new_endpoint_id prim)
       (tmai_css_endpoint_id prim) tl_sdu (tmai_scrambling_code prim) has_fcs
       (tmai_air_interface_encryption prim) (tmai_chan_change_response_req prim)
       (tmai_chan_change_handle prim) (tmai_chan_info prim) None)).

(** The handler after the header was parsed and, if it has one, the FCS checked. *)
Definition rx_bl_accepted (prim : TmaUnitdataInd) (pdu_type : LlcPduType) (pdu : BitBuffer)
    (has_fcs : bool) (ns nr : option Z) : L unit :=
  w ← get;
  let msg_dltime := add_timeslots (llc_dltime (w_llc w)) (-2) in
  match ns with
  | Some ns => schedule_outgoing_ack msg_dltime (tmai_main_address prim) (tmai_carrier_num prim) (tt_t msg_dltime) ns
  | None => mret tt
  end;;
  match nr with
  | Some nr => process_incoming_ack (tmai_main_address prim) (tmai_carrier_num prim) nr
  | None => mret tt
  end;;
  if bool_decide (pdu_type = LtBlAck ∨ pdu_type = LtBlAckFcs) then
    if get_len_remaining pdu =? 0 then mret tt
    else
      pdu ← unwrap (trim_to_pos pdu);
      push_back (tl_data_ind prim 0 (Some pdu) has_fcs)
  else
    pdu ← unwrap (trim_to_pos pdu);
    let tl_sdu := if 0 <? get_len_remaining pdu then Some pdu else None in
    push_back (if bool_decide (pdu_type = LtBlUdata ∨ pdu_type = LtBlUdataFcs)
               then tl_unitdata_ind prim tl_sdu has_fcs
               else tl_data_ind prim (tmai_link_id prim) tl_sdu has_fcs).

(** The PDU type of a received PDU, without moving its cursor. *)
Definition peek_pdu_type (pdu : BitBuffer) : option (option LlcPduType) :=
  '(o, _) ← exec (peek_bits 4) pdu;
  Some (o ≫= llc_type_try_from).

Definition rx_tma_unitdata_ind_bl (prim : TmaUnitdataInd) : L unit :=
  match tmai_pdu prim with
  | None => mret tt
  | Some pdu =>
      o ← unwrap (peek_pdu_type pdu);
      match o with
      | None => mret tt
      | Some pdu_type =>
          match parse_bl_header pdu_type with
          | None => mret tt
          | Some parser =>
              match parser pdu with
              | Ok (has_fcs, ns, nr) pdu =>
                  '(fcs_ok, _) ← unwrap (if has_fcs then exec check_fcs pdu else Some (true, pdu));
                  if negb fcs_ok then mret tt else rx_bl_accepted prim pdu_type pdu has_fcs ns nr
              | Err _ _ => mret tt
              | Panic => panic
              end
          end
      end
  end.

Definition rx_tma_unitdata_ind (prim : TmaUnitdataInd) : L unit :=
  match tmai_pdu prim with
  | None => mret tt
  | Some pdu =>
      o ← unwrap (peek_pdu_type pdu);
      match o with
      | None => mret tt
      | Some pdu_type =>
          match pdu_type with
          | LtBlAdata | LtBlAdataFcs | LtBlData | LtBlDataFcs | LtBlUdata | LtBlUdataFcs
          | LtBlAck | LtBlAckFcs => rx_tma_unitdata_ind_bl prim
          | _ => mret tt
          end
      end
  end.

Definition rx_tma_prim (message : SapMsg) : L unit :=
  match sm_msg message with
  | SmTmaUnitdataInd p => rx_tma_unitdata_ind p
  | SmTmaReportInd _ => rx_tma_report_ind
  | _ => mret tt
  end.

(** * The entity's callbacks *)

Definition rx_prim (message : SapMsg) : L unit :=
  match sm_sap message with
  | TmaSap => rx_tma_prim message
  | TlaSap => rx_tla_prim message
  | _ => mret tt
  end.

Definition tick_start (ts : TdmaTime) : L unit := modify_llc (set_dltime ts).

Definition set_umac_done (t : TdmaTime) (a : ExpectedInAck) : ExpectedInAck :=
  mkExpectedInAck (ea_carrier_num a) (ea_ts a) (ea_addr a) (ea_ns a) (ea_bl_type a) (ea_t_first a)
    (ea_t_submitted_to_umac a) (Some t) (ea_tx_reporter a) (ea_retransmission_buf a) (ea_retransmit_count a).

Definition inc_retransmit_count (a : ExpectedInAck) : ExpectedInAck :=
  mkExpectedInAck (ea_carrier_num a) (ea_ts a) (ea_addr a) (ea_ns a) (ea_bl_type a) (ea_t_first a)
    (ea_t_submitted_to_umac a) (ea_t_umac_done a) (ea_tx_reporter a) (ea_retransmission_buf a)
    (wrap 8 (ea_retransmit_count a + 1)).

(** One turn of the loop over [outbound_messages]: the entry, the link to remove it from, activity. *)
Definition retransmit_one (dltime : TdmaTime) (ack : ExpectedInAck) : L (ExpectedInAck * list (Z * Z) * bool) :=
  r ← tx_load (ea_tx_reporter ack);
  let ack := if is_none (ea_t_umac_done ack) && (is_transmitted r || is_discarded r)
             then set_umac_done dltime ack else ack in
  match ea_t_umac_done ack with
  | None => mret (ack, [], false)
  | Some t_umac_done =>
      age ← unwrap (diff dltime t_umac_done);
      if (T251_SENDER_RETRY_TIMER <=? wrap 32 age)%Z then
        if (ea_retransmit_count ack <? N252_BL_MAX_TLSDU_RETRANSMITS_ACKED)%Z then
          ack ← submit_for_acknowledged_transmission (inc_retransmit_count ack)
                  (forward_to_timeslot dltime (tt_t (ea_t_first ack)));
          mret (ack, [], true)
        else mret (ack, [(ssi (ea_addr ack), ea_carrier_num ack)], false)
      else mret (ack, [], false)
  end.

Fixpoint retransmit_loop (dltime : TdmaTime) (acks : list ExpectedInAck) :
    L (list ExpectedInAck * list (Z * Z) * bool) :=
  match acks with
  | [] => mret ([], [], false)
  | ack :: acks =>
      '(ack, removal, activity) ← retransmit_one dltime ack;
      '(acks, removals, had_activity) ← retransmit_loop dltime acks;
      mret (ack :: acks, removal ++ removals, activity || had_activity)
  end.

Definition remove_expired (link : Z * Z) : L unit :=
  o ← take_expected_ack_for_ssi link.1 link.2;
  match o with
  | None => mret tt
  | Some ack =>
      r ← tx_load (ea_tx_reporter ack);
      match get_state r with
      | Transmitted => tx_update (ea_tx_reporter ack) mark_lost
      | _ => mret tt
      end
  end.

Fixpoint remove_all_expired (links : list (Z * Z)) : L unit :=
  match links with
  | [] => mret tt
  | link :: links => remove_expired link;; remove_all_expired links
  end.

Definition submit_retransmissions_to_umac : L bool :=
  w ← get;
  '(acks, removals, had_activity) ← retransmit_loop (llc_dltime (w_llc w)) (llc_outbound_messages (w_llc w));
  modify_llc (set_outbound acks);;
  remove_all_expired removals;;
  mret had_activity.

Fixpoint submit_free_loop (dltime : TdmaTime) (ssi_blocked : gset Z) (acks : list ExpectedInAck) :
    L (list ExpectedInAck * bool) :=
  match acks with
  | [] => mret ([], false)
  | ack :: acks =>
      let s := ssi (ea_addr ack) in
      if decide (in_flight ack) then
        '(acks, had_activity) ← submit_free_loop dltime ({[s]} ∪ ssi_blocked) acks;
        mret (ack :: acks, had_activity)
      else if decide (s ∈ ssi_blocked) then
        '(acks, had_activity) ← submit_free_loop dltime ssi_blocked acks;
        mret (ack :: acks, had_activity)
      else
        ack ← submit_for_acknowledged_transmission ack (forward_to_timeslot dltime (tt_t (ea_t_first ack)));
        '(acks, _) ← submit_free_loop dltime ({[s]} ∪ ssi_blocked) acks;
        mret (ack :: acks, true)
  end.

Definition submit_free_messages_to_umac : L bool :=
  w ← get;
  '(acks, had_activity) ← submit_free_loop (llc_dltime (w_llc w)) ∅ (llc_outbound_messages (w_llc w));
  modify_llc (set_outbound acks);;
  mret had_activity.

(** The BL-ACK for a scheduled acknowledgement; on a traffic timeslot it is stolen. *)
Definition ack_reply (ack : ScheduledOutAck) : option SapMsg :=
  let steal := (2 <=? sa_ts ack)%Z && (sa_ts ack <=? 4)%Z in
  pdu_buf ← build (new_autoexpand 5) (bl_ack_to_bitbuf (mkBlAck false (sa_nr ack));; seek 0);
  let chan_alloc :=
    if steal then
      Some (mkChanAllocReq None (Some (sa_carrier_num ack))
              (<[Z.to_nat (sa_ts ack - 1) := true]> (replicate 4 false)) Replace UdBoth)
    else None in
  Some (mkSapMsg TmaSap Llc_ Umac (SmTmaUnitdataReq
    (mkTmaReq (Some (sa_carrier_num ack)) 0 pdu_buf (sa_addr ack) (if steal then sa_ts ack else 0%Z) 0
       steal 0 None None None chan_alloc None))).

Fixpoint submit_acks (acks : list ScheduledOutAck) : L unit :=
  match acks with
  | [] => mret tt
  | ack :: acks =>
      modify_llc (set_out_acks acks);;
      m ← unwrap (ack_reply ack);
      push_back m;;
      submit_acks acks
  end.

Definition submit_ack_replies_to_umac : L bool :=
  w ← get;
  let acks := llc_scheduled_out_acks (w_llc w) in
  submit_acks acks;;
  mret (negb (bool_decide (acks = []))).

Fixpoint submit_udata (msgs : list SapMsg) : L unit :=
  match msgs with
  | [] => mret tt
  | m :: msgs => modify_llc (set_udata msgs);; push_back m;; submit_udata msgs
  end.

Definition submit_udata_msgs_to_umac : L bool :=
  w ← get;
  let msgs := llc_outbound_udata_messages (w_llc w) in
  submit_udata msgs;;
  mret (negb (bool_decide (msgs = []))).

Definition tick_end : L bool :=
  a ← submit_retransmissions_to_umac;
  b ← submit_free_messages_to_umac;
  c ← submit_ack_replies_to_umac;
  d ← submit_udata_msgs_to_umac;
  mret (a || b || c || d).
