(* ===== verification/LlcSpec.v ===== *)
(** The basic link as a set of stop-and-wait queues, one per subscriber.

    The entries of [outbound_messages] that belong to one SSI are its link
    ([link]).  Whatever the order in which requests, received PDUs, ticks and
    reports of the UMAC arrive, each link is a queue of which at most the head
    is in flight, with alternating sequence numbers, at most
    [N252_BL_MAX_TLSDU_RETRANSMITS_ACKED] retransmissions, and receipts that
    follow the head's fate. *)
From S2P Require Import Prelude Bits Core BitBuffer BitBufferSpec BitCodec BitBufferThms TdmaTime.
From S2P Require Import FieldCodec TxReceipt MacDl LlcPdu Fcs Saps Llc.

(** * Links *)

Definition of_link (s : Z) (m : ExpectedInAck) : Prop := ssi (ea_addr m) = s.
#[global] Instance of_link_dec s m : Decision (of_link s m).
Proof. unfold of_link. apply _. Defined.

Definition link (s : Z) (l : list ExpectedInAck) : list ExpectedInAck := filter (of_link s) l.

(** Only the head may be in flight. *)
Definition head_only (l : list ExpectedInAck) : Prop := Forall (λ m, ¬ in_flight m) (tail l).

(** Sequence numbers alternate up to the next one, [vs]. *)
Definition alternating (vs : Z) (l : list ExpectedInAck) : Prop :=
  ∀ i m, l !! i = Some m → ea_ns m = ((vs + Z.of_nat (length l) - Z.of_nat i) mod 2)%Z.

(** What one link does. *)
Inductive link_step : list ExpectedInAck → list ExpectedInAck → Prop :=
| ls_request l m : ¬ in_flight m → ea_retransmit_count m = 0%Z → link_step l (l ++ [m])
| ls_submit m l t : ¬ in_flight m → link_step (m :: l) (set_submitted t m :: l)
| ls_done m l t : in_flight m → ea_t_umac_done m = None → link_step (m :: l) (set_umac_done t m :: l)
| ls_retry m l t : is_Some (ea_t_umac_done m) → (ea_retransmit_count m < N252_BL_MAX_TLSDU_RETRANSMITS_ACKED)%Z →
    link_step (m :: l) (set_submitted t (inc_retransmit_count m) :: l)
| ls_acked m l : is_Some (ea_t_umac_done m) → link_step (m :: l) l
| ls_lost m l : is_Some (ea_t_umac_done m) → ea_retransmit_count m = N252_BL_MAX_TLSDU_RETRANSMITS_ACKED →
    link_step (m :: l) l.

(** What requests and received PDUs do to a link: a message comes, or the head goes. *)
Inductive link_quiet : list ExpectedInAck → list ExpectedInAck → Prop :=
| lq_same l : link_quiet l l
| lq_request l m : ¬ in_flight m → link_quiet l (l ++ [m])
| lq_acked m l : link_quiet (m :: l) l.

(** * The invariant *)

Record entry_ok (tx : TxStore) (m : ExpectedInAck) : Prop := {
  eo_count : (0 ≤ ea_retransmit_count m ≤ N252_BL_MAX_TLSDU_RETRANSMITS_ACKED)%Z;
  eo_idle : ¬ in_flight m → ea_retransmit_count m = 0%Z ∧ ea_t_umac_done m = None;
  eo_first : valid_time (ea_t_first m);
  eo_done t : ea_t_umac_done m = Some t → valid_time t;
  eo_tx : ∃ r, tx !! ea_tx_reporter m = Some r ∧ expects_ack r = true ∧ reporter_ok r ∧
    match get_state r with
    | Pending => ea_t_umac_done m = None
    | Transmitted | Discarded => in_flight m
    | Lost | Acknowledged => False
    end
}.

Record llc_inv (w : World) : Prop := {
  li_time : valid_time (llc_dltime (w_llc w));
  li_entries : Forall (entry_ok (w_tx w)) (llc_outbound_messages (w_llc w));
  li_head s : head_only (link s (llc_outbound_messages (w_llc w)));
  li_seq s : let vs := default 0%Z (llc_link_send_seq (w_llc w) !! s) in
    is_u 1 vs ∧ alternating vs (link s (llc_outbound_messages (w_llc w)));
  li_handles : NoDup (ea_tx_reporter <$> llc_outbound_messages (w_llc w));
  li_fresh h : w_next w ≤ h → w_tx w !! h = None;
  li_acks : Forall (λ a, is_u 1 (sa_nr a)) (llc_scheduled_out_acks (w_llc w))
}.

(** * Lists of links *)

Lemma link_app s l k : link s (l ++ k) = link s l ++ link s k.
Proof. apply filter_app. Qed.

Lemma link_cons s m l : link s (m :: l) = if decide (of_link s m) then m :: link s l else link s l.
Proof. apply filter_cons. Qed.

Lemma link_same m l : link (ssi (ea_addr m)) (m :: l) = m :: link (ssi (ea_addr m)) l.
Proof. by rewrite link_cons, decide_True. Qed.

Lemma link_other s m l : ssi (ea_addr m) ≠ s → link s (m :: l) = link s l.
Proof. intros. by rewrite link_cons, decide_False. Qed.

Lemma link_mid s l1 m l2 : link s (l1 ++ m :: l2) =
  link s l1 ++ (if decide (of_link s m) then [m] else []) ++ link s l2.
Proof. rewrite link_app, link_cons. by case_decide. Qed.

(** An entry in flight is the head of its link. *)
Lemma in_flight_first s l1 m l2 : head_only (link s (l1 ++ m :: l2)) → of_link s m → in_flight m →
  link s l1 = [] ∧ link s (l1 ++ m :: l2) = m :: link s l2.
Proof.
  intros Hh Hs Hf. rewrite link_mid, decide_True in * by done.
  destruct (link s l1) as [|m1 k]; [done|]. exfalso.
  cbn in Hh. apply Forall_app in Hh as [_ Hh]. cbn in Hh. by apply Forall_cons in Hh as [? _].
Qed.

Lemma list_find_split {A} (P : A → Prop) `{∀ x, Decision (P x)} l i x :
  list_find P l = Some (i, x) → ∃ l1 l2, l = l1 ++ x :: l2 ∧ delete i l = l1 ++ l2 ∧ P x ∧ Forall (λ y, ¬ P y) l1.
Proof.
  intros (Hi & HP & Hj)%list_find_Some. exists (take i l), (drop (S i) l). split_and!; try done.
  - by rewrite take_drop_middle.
  - apply delete_take_drop.
  - apply Forall_lookup. intros j y Hy. rewrite lookup_take_Some in Hy. destruct Hy. by eapply Hj.
Qed.

(** * The receipt store *)

Lemma tx_load_ok h r w : w_tx w !! h = Some r → tx_load h w = Ok r w.
Proof. intros Hr. unfold tx_load. erewrite (bind_ok get) by done. by rewrite Hr. Qed.

Definition set_tx (h : TxHandle) (r : TxReporter) (w : World) : World :=
  mkWorld (w_llc w) (w_queue w) (<[h := r]> (w_tx w)) (w_next w).

Lemma tx_update_ok h f r r' w : w_tx w !! h = Some r → f r = Some r' →
  tx_update h f w = Ok tt (set_tx h r' w).
Proof.
  intros Hr Hf. unfold tx_update. erewrite bind_ok by (by apply tx_load_ok).
  rewrite Hf. by erewrite bind_ok by done.
Qed.

Lemma tx_update_panic h f r w : w_tx w !! h = Some r → f r = None → tx_update h f w = Panic.
Proof.
  intros Hr Hf. unfold tx_update. erewrite bind_ok by (by apply tx_load_ok). by rewrite Hf.
Qed.

(** * Entries *)

Lemma entry_ok_frame tx tx' m : tx' !! ea_tx_reporter m = tx !! ea_tx_reporter m → entry_ok tx m → entry_ok tx' m.
Proof. intros Heq [? ? ? ? Htx]. split; try done. by rewrite Heq. Qed.

(** Same message, later state; only a message in flight changes. *)
Record entry_upd (m m' : ExpectedInAck) : Prop := {
  eu_addr : ea_addr m' = ea_addr m;
  eu_carrier : ea_carrier_num m' = ea_carrier_num m;
  eu_ns : ea_ns m' = ea_ns m;
  eu_handle : ea_tx_reporter m' = ea_tx_reporter m;
  eu_flight : in_flight m' ↔ in_flight m;
  eu_idle : ¬ in_flight m → m' = m;
  eu_steps l : rtc link_step (m :: l) (m' :: l)
}.

Lemma entry_upd_refl m : entry_upd m m.
Proof. by split. Qed.

(** The world after messages [q] were queued and the receipts became [tx]. *)
Definition after (q : list SapMsg) (tx : TxStore) (w : World) : World :=
  mkWorld (w_llc w) (w_queue w ++ q) tx (w_next w).

(** [tx'] is [tx] except at [hs], where it has the same domain. *)
Definition tx_frame (hs : list TxHandle) (tx tx' : TxStore) : Prop :=
  (∀ h, h ∉ hs → tx' !! h = tx !! h) ∧ (∀ h, tx !! h = None → tx' !! h = None).

Lemma tx_frame_refl hs tx : tx_frame hs tx tx.
Proof. by split. Qed.

Lemma tx_frame_insert h r r0 tx : tx !! h = Some r0 → tx_frame [h] tx (<[h := r]> tx).
Proof.
  intros Hh. split; intros h' H'.
  - rewrite lookup_insert_ne; [done|]. set_solver.
  - rewrite lookup_insert_ne; [done|]. congruence.
Qed.

Lemma tx_frame_trans hs1 hs2 tx1 tx2 tx3 : tx_frame hs1 tx1 tx2 → tx_frame hs2 tx2 tx3 →
  tx_frame (hs1 ++ hs2) tx1 tx3.
Proof.
  intros [H1 N1] [H2 N2]. split; intros h Hh; [|by apply N2, N1].
  rewrite not_elem_of_app in Hh. by rewrite H2, H1 by apply Hh.
Qed.

(** Handing an entry to the UMAC: its receipt is pending again, its message queued. *)
Lemma submit_ok m t w : is_Some (w_tx w !! ea_tx_reporter m) →
  (∀ r, w_tx w !! ea_tx_reporter m = Some r → expects_ack r = true) →
  (0 ≤ ea_retransmit_count m ≤ N252_BL_MAX_TLSDU_RETRANSMITS_ACKED)%Z → valid_time (ea_t_first m) →
  ∃ tx', submit_for_acknowledged_transmission m t w =
      Ok (set_submitted t m) (after [ea_retransmission_buf m] tx' w) ∧
    entry_ok tx' (set_submitted t m) ∧ tx_frame [ea_tx_reporter m] (w_tx w) tx'.
Proof.
  intros [r Hr] Hack Hc Hv. specialize (Hack r Hr). unfold submit_for_acknowledged_transmission.
  erewrite bind_ok by (by eapply tx_update_ok). erewrite bind_ok by done.
  eexists. split; [reflexivity|]. split; [|by eapply tx_frame_insert].
  split; cbn; try done; [intros []; by eexists|]. exists (reset_reporter r).
  rewrite lookup_insert_eq. done.
Qed.

Lemma wrap_count c : (0 ≤ c < N252_BL_MAX_TLSDU_RETRANSMITS_ACKED)%Z → wrap 8 (c + 1) = (c + 1)%Z.
Proof. intros. apply wrap_small. unfold is_u, N252_BL_MAX_TLSDU_RETRANSMITS_ACKED in *. lia. Qed.

(** Expired: handed over, done, and out of retransmissions. *)
Definition expired (m : ExpectedInAck) : Prop :=
  is_Some (ea_t_umac_done m) ∧ ea_retransmit_count m = N252_BL_MAX_TLSDU_RETRANSMITS_ACKED.

Definition link_of (m : ExpectedInAck) : Z * Z := (ssi (ea_addr m), ea_carrier_num m).

(** The first part of the loop body: has the UMAC finished with the message? *)
Definition note_done (t : TdmaTime) (r : TxReporter) (m : ExpectedInAck) : ExpectedInAck :=
  if is_none (ea_t_umac_done m) && (is_transmitted r || is_discarded r) then set_umac_done t m else m.

Lemma entry_tx_state tx m r : entry_ok tx m → tx !! ea_tx_reporter m = Some r →
  expects_ack r = true ∧ reporter_ok r ∧ (is_transmitted r || is_discarded r = bool_decide (get_state r ≠ Pending)).
Proof.
  intros [_ _ _ _ (r' & Hr' & Ha & Ho & Hs)] Hr. assert (r' = r) as -> by congruence. split_and!; [done..|].
  unfold is_transmitted, is_discarded, reporter_ok in *. rewrite Ho. by destruct (get_state r).
Qed.

Lemma note_done_ok t r tx m : entry_ok tx m → tx !! ea_tx_reporter m = Some r → valid_time t →
  entry_ok tx (note_done t r m) ∧ entry_upd m (note_done t r m) ∧
  (ea_t_umac_done (note_done t r m) = None ↔ get_state r = Pending).
Proof.
  intros Hok Hr Ht. destruct (entry_tx_state _ _ _ Hok Hr) as (Ha & Ho & Hst). unfold note_done. rewrite Hst.
  destruct (Hok) as [Hc Hi Hf Hd (r' & Hr' & _ & _ & Hs)]. assert (r' = r) as -> by congruence.
  destruct (ea_t_umac_done m) as [td|] eqn:Edone; cbn [is_none andb].
  { split; [done|split; [apply entry_upd_refl|]]. rewrite Edone. by destruct (get_state r). }
  destruct (bool_decide_reflect (get_state r ≠ Pending)) as [Hne|Heq].
  - assert (in_flight m) as Hfl by (destruct (get_state r); done). split; [|split; [|done]].
    + split; try done; [naive_solver|]. exists r. split_and!; try done. by destruct (get_state r).
    + split; try done. intros l. apply rtc_once. by constructor.
  - assert (get_state r = Pending) as HP by (destruct (get_state r); naive_solver).
    split; [done|split; [apply entry_upd_refl|]]. by rewrite Edone.
Qed.

Lemma entry_upd_trans m1 m2 m3 : entry_upd m1 m2 → entry_upd m2 m3 → entry_upd m1 m3.
Proof.
  intros [A1 B1 C1 D1 E1 F1 G1] [A2 B2 C2 D2 E2 F2 G2]. split; try congruence; try tauto.
  - intros Hm. rewrite F2 by tauto. by apply F1.
  - intros l. etrans; [apply G1|apply G2].
Qed.

Lemma entry_upd_retry m t : is_Some (ea_t_umac_done m) → in_flight m →
  (ea_retransmit_count m < N252_BL_MAX_TLSDU_RETRANSMITS_ACKED)%Z →
  entry_upd m (set_submitted t (inc_retransmit_count m)).
Proof.
  intros Hd Hf Hc. split; try done.
  - split; [done|]. intros _. by eexists.
  - intros l. apply rtc_once. by constructor.
Qed.

Lemma after_same w : after [] (w_tx w) w = w.
Proof. unfold after. rewrite app_nil_r. by destruct w. Qed.

(** The retry timer of a message the UMAC has finished with. *)
Definition timed_out (t : TdmaTime) (m : ExpectedInAck) : bool :=
  match ea_t_umac_done m with
  | Some td => match diff t td with Some age => (T251_SENDER_RETRY_TIMER <=? wrap 32 age)%Z | None => false end
  | None => false
  end.

Definition may_retry (m : ExpectedInAck) : bool := (ea_retransmit_count m <? N252_BL_MAX_TLSDU_RETRANSMITS_ACKED)%Z.

(** The message is given up. *)
Definition gives_up (t : TdmaTime) (m : ExpectedInAck) : Prop := timed_out t m = true ∧ may_retry m = false.
#[global] Instance gives_up_dec t m : Decision (gives_up t m).
Proof. unfold gives_up. apply _. Defined.

Definition retried (t : TdmaTime) (m : ExpectedInAck) : ExpectedInAck :=
  set_submitted (forward_to_timeslot t (tt_t (ea_t_first m))) (inc_retransmit_count m).

(** The entry after the loop over [outbound_messages]. *)
Definition next_entry (t : TdmaTime) (r : TxReporter) (m : ExpectedInAck) : ExpectedInAck :=
  let m := note_done t r m in if timed_out t m && may_retry m then retried t m else m.

Lemma gives_up_next t r m : gives_up t (next_entry t r m) ↔ gives_up t (note_done t r m).
Proof.
  unfold next_entry, gives_up. destruct (timed_out t (note_done t r m)) eqn:E1; cbn [andb]; [|by rewrite E1].
  destruct (may_retry (note_done t r m)) eqn:E2; [|by rewrite E1, E2]. unfold retried, timed_out. cbn. naive_solver.
Qed.

Lemma timed_out_in_flight tx t m : entry_ok tx m → timed_out t m = true → is_Some (ea_t_umac_done m) ∧ in_flight m.
Proof.
  intros Hok Ht. unfold timed_out in Ht. destruct (ea_t_umac_done m) eqn:Ed; [|done]. split; [done|].
  destruct (decide (in_flight m)) as [|Hn]; [done|]. destruct (eo_idle _ _ Hok Hn). congruence.
Qed.

Lemma gives_up_expired tx t m : entry_ok tx m → gives_up t m → expired m.
Proof.
  intros Hok [Ht Hc]. split; [by eapply timed_out_in_flight|]. pose proof (eo_count _ _ Hok).
  unfold may_retry in Hc. apply Z.ltb_ge in Hc. lia.
Qed.

Lemma link_of_next t r m : link_of (next_entry t r m) = link_of m.
Proof. unfold next_entry, note_done. by repeat case_match. Qed.

Lemma retransmit_one_ok t m w r : entry_ok (w_tx w) m → valid_time t → w_tx w !! ea_tx_reporter m = Some r →
  ∃ act q tx', retransmit_one t m w =
      Ok (next_entry t r m, (if decide (gives_up t (next_entry t r m)) then [link_of m] else []), act) (after q tx' w) ∧
    entry_ok tx' (next_entry t r m) ∧ entry_upd m (next_entry t r m) ∧ tx_frame [ea_tx_reporter m] (w_tx w) tx'.
Proof.
  intros Hok Ht Hr. unfold retransmit_one. rewrite (decide_ext _ _ _ _ (gives_up_next t r m)).
  erewrite bind_ok by (by apply tx_load_ok). cbv zeta. fold (note_done t r m).
  destruct (note_done_ok t r (w_tx w) m) as (Hok1 & Hupd1 & Hdone); [done..|].
  assert (link_of (note_done t r m) = link_of m) as Hlo by (unfold note_done; by case_match).
  unfold next_entry. set (m1 := note_done t r m) in *. cbv zeta.
  destruct (timed_out t m1) eqn:Etime; cbn [andb].
  - destruct (timed_out_in_flight _ _ _ Hok1 Etime) as [[td Ed] Hfl]. rewrite Ed.
    unfold timed_out in Etime. rewrite Ed in Etime. destruct (diff_total t td) as [age Hage]. rewrite Hage in *.
    erewrite bind_ok by done. rewrite Etime. fold (may_retry m1). destruct (may_retry m1) eqn:Eretry.
    + rewrite decide_False by (intros [? ?]; congruence).
      pose proof (eo_count _ _ Hok1) as Hcnt. pose proof (eu_handle _ _ Hupd1) as Hh1.
      unfold may_retry in Eretry. apply Z.ltb_lt in Eretry.
      destruct (submit_ok (inc_retransmit_count m1) (forward_to_timeslot t (tt_t (ea_t_first m1))) w)
        as (tx' & Heq & Hok' & Hfr).
      { cbn. rewrite Hh1. by eexists. }
      { intros r' Hr'. cbn in Hr'. rewrite Hh1 in Hr'. by apply (entry_tx_state _ _ _ Hok Hr'). }
      { cbn. rewrite wrap_count by lia. lia. }
      { apply (eo_first _ _ Hok1). }
      exists true, [ea_retransmission_buf m1], tx'. split; [by erewrite bind_ok by exact Heq|].
      cbn in Hfr. rewrite Hh1 in Hfr. split_and!; [done| |done].
      eapply entry_upd_trans; [done|]. apply entry_upd_retry; [by eexists|done|done].
    + rewrite decide_True by (split; [unfold timed_out; by rewrite Ed, Hage|done]).
      exists false, [], (w_tx w). rewrite after_same. fold (link_of m1). rewrite Hlo.
      split_and!; [done..|apply tx_frame_refl].
  - rewrite decide_False by (intros [? ?]; congruence). exists false, [], (w_tx w). rewrite after_same.
    split; [|split_and!; [done..|apply tx_frame_refl]].
    destruct (ea_t_umac_done m1) as [td|] eqn:Ed; [|done]. unfold timed_out in Etime. rewrite Ed in Etime.
    destruct (diff_total t td) as [age Hage]. rewrite Hage in *. erewrite bind_ok by done. by rewrite Etime.
Qed.

Lemma Forall_entry_ok_frame hs tx tx' l : tx_frame hs tx tx' → (∀ m, m ∈ l → ea_tx_reporter m ∉ hs) →
  Forall (entry_ok tx) l → Forall (entry_ok tx') l.
Proof.
  intros [Hfr _] Hdis Hl. rewrite Forall_forall in *. intros m Hm.
  eapply entry_ok_frame; [|by apply Hl]. apply Hfr. by apply Hdis.
Qed.

Lemma after_after q1 q2 tx1 tx2 w : after q2 tx2 (after q1 tx1 w) = after (q1 ++ q2) tx2 w.
Proof. unfold after. cbn. by rewrite app_assoc. Qed.

(** Each entry advances by its own receipt. *)
Definition advances (t : TdmaTime) (tx : TxStore) (m m' : ExpectedInAck) : Prop :=
  ∃ r, tx !! ea_tx_reporter m = Some r ∧ m' = next_entry t r m.

Lemma retransmit_loop_ok t l w : Forall (entry_ok (w_tx w)) l → NoDup (ea_tx_reporter <$> l) → valid_time t →
  ∃ l' act q tx', retransmit_loop t l w = Ok (l', link_of <$> filter (gives_up t) l', act) (after q tx' w) ∧
    Forall (entry_ok tx') l' ∧ Forall2 entry_upd l l' ∧ tx_frame (ea_tx_reporter <$> l) (w_tx w) tx' ∧
    Forall2 (advances t (w_tx w)) l l'.
Proof.
  intros Hall Hnd Ht. revert w Hall. induction l as [|m l IH]; intros w Hall.
  { exists [], false, [], (w_tx w). rewrite after_same. split_and!; [done..|apply tx_frame_refl|done]. }
  apply Forall_cons in Hall as [Hm Hl]. rewrite fmap_cons in Hnd. apply NoDup_cons in Hnd as [Hnotin Hnd].
  destruct (Hm) as [_ _ _ _ (r & Hr & _)].
  destruct (retransmit_one_ok t m w r Hm Ht Hr) as (act & q & tx1 & Heq & Hok' & Hupd & Hfr).
  assert (∀ x, x ∈ l → ea_tx_reporter x ∉ [ea_tx_reporter m]) as Hdis.
  { intros x Hx Hin%list_elem_of_singleton. apply Hnotin. rewrite <-Hin. by apply list_elem_of_fmap_2. }
  destruct (IH Hnd (after q tx1 w)) as (l' & act' & q' & tx2 & Heq' & Hok2 & Hupd2 & Hfr2 & Hadv).
  { by eapply Forall_entry_ok_frame. }
  cbn [retransmit_loop]. exists (next_entry t r m :: l'), (act || act'), (q ++ q'), tx2.
  split.
  { erewrite bind_ok by exact Heq. cbv beta iota. erewrite bind_ok by exact Heq'. rewrite after_after, filter_cons.
    case_decide; cbn [fmap list_fmap app]; [by rewrite link_of_next|done]. }
  split_and!.
  - constructor; [|done]. eapply entry_ok_frame; [|exact Hok']. rewrite (eu_handle _ _ Hupd). by apply Hfr2.
  - by constructor.
  - rewrite fmap_cons. by apply (tx_frame_trans [_]) with tx1.
  - constructor; [by exists r|]. clear -Hadv Hfr Hdis. induction Hadv as [|x x' k k' (rx & Hrx & ->) _ IHk]; constructor.
    + exists rx. split; [|done]. rewrite <-Hrx. symmetry. apply Hfr, Hdis. by left.
    + apply IHk. intros y Hy. apply Hdis. by right.
Qed.

(** * Effect on the links *)

Lemma link_upd s l l' : Forall2 entry_upd l l' → Forall2 entry_upd (link s l) (link s l').
Proof.
  induction 1 as [|m m' l l' Hm _ IH]; [done|]. pose proof (eu_addr _ _ Hm) as Ha.
  rewrite !link_cons. destruct (decide (of_link s m)), (decide (of_link s m')); unfold of_link in *;
    [by constructor|congruence|congruence|done].
Qed.

Lemma upd_idle l l' : Forall2 entry_upd l l' → Forall (λ m, ¬ in_flight m) l → l' = l.
Proof.
  induction 1 as [|m m' l l' Hm _ IH]; [done|]. intros [Hn Hl]%Forall_cons.
  rewrite IH by done. f_equal. by apply (eu_idle _ _ Hm).
Qed.

(** Updates of entries in flight are steps of every link. *)
Lemma link_upd_steps s l l' : Forall2 entry_upd l l' → head_only (link s l) →
  rtc link_step (link s l) (link s l') ∧ head_only (link s l') ∧
  (∀ vs, alternating vs (link s l) → alternating vs (link s l')).
Proof.
  intros H%(link_upd s) Hh. destruct H as [|m m' k k' Hm Hk]; [done|]. cbn in Hh.
  apply upd_idle in Hk as ->; [|done]. split_and!; [apply (eu_steps _ _ Hm)|done|].
  intros vs Halt [|i] x Hx; cbn in Hx.
  - injection Hx as <-. rewrite (eu_ns _ _ Hm). by apply (Halt 0).
  - by apply (Halt (S i)).
Qed.

(** * Operations that keep the invariant and act on links by steps *)

Abbreviation outbound w := (llc_outbound_messages (w_llc w)).

(** A list of entries that may replace another one. *)
Definition links_step (l l' : list ExpectedInAck) : Prop := ∀ s,
  head_only (link s l) → rtc link_step (link s l) (link s l') ∧ head_only (link s l') ∧
  ∀ vs, alternating vs (link s l) → alternating vs (link s l').

Definition quiet (w w' : World) : Prop := llc_dltime (w_llc w') = llc_dltime (w_llc w) ∧
  ∀ s, link_quiet (link s (outbound w)) (link s (outbound w')).

Lemma quiet_links w w' : llc_dltime (w_llc w') = llc_dltime (w_llc w) →
  (∀ s, link s (outbound w') = link s (outbound w)) → quiet w w'.
Proof. intros Ht H. split; [done|]. intros s. rewrite H. constructor. Qed.

Lemma quiet_append w w' m : llc_dltime (w_llc w') = llc_dltime (w_llc w) →
  outbound w' = outbound w ++ [m] → ¬ in_flight m → quiet w w'.
Proof.
  intros Ht H Hm. split; [done|]. intros s. rewrite H, link_app, link_cons. case_decide; [by constructor|].
  rewrite app_nil_r. constructor.
Qed.

(** The receipt tells how the message ended. *)
Definition final (tx : TxStore) (h : TxHandle) : Prop :=
  ∃ r, tx !! h = Some r ∧ (get_state r = Acknowledged ∨ get_state r = Lost ∨ get_state r = Discarded).

(** A message accepted under receipt [h] is still queued or has ended. *)
Definition settled (w : World) (h : TxHandle) : Prop :=
  h ∈ (ea_tx_reporter <$> outbound w) ∨ final (w_tx w) h.

Definition good (w w' : World) : Prop :=
  llc_inv w' ∧ (∀ s, rtc link_step (link s (outbound w)) (link s (outbound w'))) ∧
  ∀ h, settled w h → settled w' h.

Lemma good_trans w1 w2 w3 : good w1 w2 → good w2 w3 → good w1 w3.
Proof.
  intros (_ & H1 & K1) (H2 & H3 & K3). split_and!; [done| |auto]. intros s. etrans; [apply H1|apply H3].
Qed.

Lemma good_refl w : llc_inv w → good w w.
Proof. by split. Qed.

Definition with_outbound (l : list ExpectedInAck) (w : World) : World := set_llc (set_outbound l (w_llc w)) w.

(** Projections of updated worlds. *)
Ltac wsimpl := cbn [with_outbound after set_llc w_llc w_tx w_queue w_next set_outbound set_send_seq set_out_acks
  set_udata set_dltime llc_main_carrier llc_dltime llc_outbound_messages llc_link_send_seq llc_scheduled_out_acks
  llc_outbound_udata_messages].

(** The queue grows; of the entity only the outbound messages change. *)
Record sends (w w' : World) : Prop := {
  sd_queue : w_queue w `prefix_of` w_queue w';
  sd_acks : llc_scheduled_out_acks (w_llc w') = llc_scheduled_out_acks (w_llc w);
  sd_time : llc_dltime (w_llc w') = llc_dltime (w_llc w)
}.

Lemma sends_trans w1 w2 w3 : sends w1 w2 → sends w2 w3 → sends w1 w3.
Proof. intros [] []. split; [by etrans|congruence..]. Qed.

Lemma sends_after l q tx w : sends w (with_outbound l (after q tx w)).
Proof. split; [by eexists|done..]. Qed.

Lemma good_entries w q tx' l' : llc_inv w → links_step (outbound w) l' → Forall (entry_ok tx') l' →
  NoDup (ea_tx_reporter <$> l') → (∀ h, w_tx w !! h = None → tx' !! h = None) →
  (∀ h, settled w h → settled (with_outbound l' (after q tx' w)) h) →
  good w (with_outbound l' (after q tx' w)).
Proof.
  intros [Ht He Hh Hs Hn Hf Ha] Hlink Hok Hnd Hdom Hset. split_and!; [| |done].
  - split; cbn; try done.
    + intros s. by apply (Hlink s).
    + intros s. destruct (Hs s) as [Hu Hal]. exact (conj Hu (proj2 (proj2 (Hlink s (Hh s))) _ Hal)).
    + intros h Hle. by apply Hdom, Hf.
  - intros s. by apply (Hlink s).
Qed.

Lemma final_frame hs tx tx' h : tx_frame hs tx tx' → h ∉ hs → final tx h → final tx' h.
Proof. intros [Hfr _] Hh. unfold final. by rewrite Hfr. Qed.

(** Entries that stay keep every message settled. *)
Lemma settled_same w l' q tx' h : ea_tx_reporter <$> l' = ea_tx_reporter <$> outbound w →
  tx_frame (ea_tx_reporter <$> outbound w) (w_tx w) tx' → settled w h → settled (with_outbound l' (after q tx' w)) h.
Proof.
  intros Hl Hfr Hs. unfold settled. wsimpl. rewrite Hl.
  destruct (decide (h ∈ ea_tx_reporter <$> outbound w)) as [|Hn]; [by left|].
  destruct Hs as [|Hs]; [by left|]. right. by eapply final_frame.
Qed.

Lemma alternating_tail vs m k : alternating vs (m :: k) → alternating vs k.
Proof.
  intros H i x Hx. rewrite (H (S i) x Hx). f_equal. cbn [length]. lia.
Qed.

Lemma links_step_pop l1 m l2 : in_flight m → is_Some (ea_t_umac_done m) →
  links_step (l1 ++ m :: l2) (l1 ++ l2).
Proof.
  intros Hf Hd s Hh. destruct (decide (of_link s m)) as [Hs|Hs].
  - destruct (in_flight_first s l1 m l2 Hh Hs Hf) as [E1 E2]. rewrite E2 in *. rewrite link_app, E1. cbn [app].
    split_and!; [apply rtc_once; by apply ls_acked| |intros vs; apply alternating_tail].
    unfold head_only in *. cbn in Hh. by destruct (link s l2); [|apply Forall_cons in Hh as [_ ?]].
  - rewrite link_mid, decide_False, link_app in * by done. cbn [app] in *. done.
Qed.

Lemma links_step_refl l : links_step l l.
Proof. intros s Hh. done. Qed.

Lemma links_step_trans l1 l2 l3 : links_step l1 l2 → links_step l2 l3 → links_step l1 l3.
Proof.
  intros H1 H2 s Hh. destruct (H1 s Hh) as (Ha & Hb & Hc). destruct (H2 s Hb) as (Hd & He & Hf).
  split_and!; [by etrans|done|auto].
Qed.

(** The one entry in flight to a link is found by its address and carrier. *)
Lemma take_expected_ok w m : (∀ s, head_only (link s (outbound w))) → m ∈ outbound w → in_flight m →
  ∃ l1 l2, outbound w = l1 ++ m :: l2 ∧
    take_expected_ack_for_ssi (ssi (ea_addr m)) (ea_carrier_num m) w = Ok (Some m) (with_outbound (l1 ++ l2) w).
Proof.
  intros Hh Hm Hf. unfold take_expected_ack_for_ssi. erewrite (bind_ok get) by done.
  destruct (list_find (expected_for _ _) (outbound w)) as [[i x]|] eqn:E.
  2: { apply list_find_None in E. rewrite Forall_forall in E. exfalso. by apply (E m Hm). }
  apply list_find_split in E as (l1 & l2 & Hl & Hdel & (Hx1 & Hx2 & Hx3) & _). rewrite Hdel.
  specialize (Hh (ssi (ea_addr m))). rewrite Hl in Hm, Hh |- *.
  destruct (in_flight_first (ssi (ea_addr m)) l1 x l2 Hh Hx1 Hx3) as [_ Hlink]. rewrite Hlink in Hh. unfold head_only in Hh. cbn [tail] in Hh.
  assert (x = m) as ->; [|by exists l1, l2].
  assert (m ∈ link (ssi (ea_addr m)) (l1 ++ x :: l2)) as Hin by (by apply list_elem_of_filter).
  rewrite Hlink in Hin. apply elem_of_cons in Hin as [->|Hin]; [done|]. rewrite Forall_forall in Hh.
  by destruct (Hh m Hin).
Qed.

Lemma Forall_remove {A} (P : A → Prop) l1 x l2 : Forall P (l1 ++ x :: l2) → Forall P (l1 ++ l2).
Proof. rewrite !Forall_app, Forall_cons. tauto. Qed.

Lemma NoDup_remove_mid {A B} (f : A → B) l1 x l2 : NoDup (f <$> (l1 ++ x :: l2)) →
  NoDup (f <$> (l1 ++ l2)) ∧ ∀ y, y ∈ l1 ++ l2 → f y ≠ f x.
Proof.
  rewrite !fmap_app, fmap_cons. intros H. apply NoDup_app in H as (H1 & H2 & H3).
  apply NoDup_cons in H3 as [H3 H4]. split.
  - apply NoDup_app. split_and!; [done| |done]. intros y Hy Hy2. apply (H2 y Hy). by right.
  - intros y [Hy|Hy]%elem_of_app Heq.
    + apply (H2 (f y)); [by apply list_elem_of_fmap_2|]. rewrite Heq. by left.
    + apply H3. rewrite <-Heq. by apply list_elem_of_fmap_2.
Qed.

Lemma expired_in_flight tx m : entry_ok tx m → is_Some (ea_t_umac_done m) → in_flight m.
Proof.
  intros Hok [t Ht]. destruct (decide (in_flight m)) as [|Hn]; [done|].
  destruct (eo_idle _ _ Hok Hn). congruence.
Qed.

(** The receipt of an entry that leaves the queue: its other entries are not touched. *)
Lemma good_pop w l1 m l2 tx' : llc_inv w → outbound w = l1 ++ m :: l2 → is_Some (ea_t_umac_done m) →
  tx_frame [ea_tx_reporter m] (w_tx w) tx' → final tx' (ea_tx_reporter m) →
  good w (with_outbound (l1 ++ l2) (after [] tx' w)).
Proof.
  intros Hinv Hl Hd Hfr Hfin. pose proof (li_entries _ Hinv) as He. pose proof (li_handles _ Hinv) as Hn.
  rewrite Hl in He, Hn. destruct (NoDup_remove_mid _ _ _ _ Hn) as [Hn' Hne].
  assert (entry_ok (w_tx w) m) as Hm by (rewrite Forall_app, Forall_cons in He; tauto).
  apply good_entries; [done| |  |done|apply Hfr|].
  - rewrite Hl. apply links_step_pop; [by eapply expired_in_flight|done].
  - eapply Forall_entry_ok_frame; [exact Hfr| |by eapply Forall_remove].
    intros y Hy. rewrite list_elem_of_singleton. by apply Hne.
  - intros h Hh. destruct (decide (h = ea_tx_reporter m)) as [->|Hneq]; [by right|].
    destruct Hh as [Hh|Hh]; [left|right; eapply final_frame; [exact Hfr|set_solver|done]].
    wsimpl. rewrite Hl in Hh. rewrite !fmap_app in *. set_solver.
Qed.

Lemma with_outbound_after l q tx w : with_outbound l (after q tx w) = after q tx (with_outbound l w).
Proof. done. Qed.

Lemma remove_expired_ok w m : llc_inv w → m ∈ outbound w → expired m →
  ∃ w' l1 l2, remove_expired (link_of m) w = Ok tt w' ∧ good w w' ∧
    outbound w = l1 ++ m :: l2 ∧ outbound w' = l1 ++ l2 ∧ sends w w' ∧
    tx_frame [ea_tx_reporter m] (w_tx w) (w_tx w') ∧
    ∃ r, w_tx w' !! ea_tx_reporter m = Some r ∧ (get_state r = Lost ∨ get_state r = Discarded).
Proof.
  intros Hinv Hm [Hd Hc]. pose proof (li_entries _ Hinv) as He. rewrite Forall_forall in He.
  pose proof (He m Hm) as Hok. pose proof (expired_in_flight _ _ Hok Hd) as Hf.
  destruct (take_expected_ok w m (li_head _ Hinv) Hm Hf) as (l1 & l2 & Hl & Heq).
  unfold remove_expired, link_of. cbn [fst snd]. erewrite bind_ok by exact Heq. cbv beta iota.
  destruct Hok as [_ _ _ _ (r & Hr & Ha & Hro & Hst)].
  erewrite bind_ok by (by apply tx_load_ok).
  destruct (get_state r) eqn:Es; try done.
  - destruct Hd as [? Hd]. congruence.
  - exists (with_outbound (l1 ++ l2) w), l1, l2. split; [done|]. split.
    { pose proof (good_pop w l1 m l2 (w_tx w) Hinv Hl Hd (tx_frame_refl _ _)) as H. rewrite after_same in H.
      apply H. exists r. by auto. }
    split_and!; [done..| |apply tx_frame_refl|]; [by split|]. exists r. split; [done|]. by right.
  - set (r' := mkReporter (expects_ack r) (tx_raw Lost)).
    assert (mark_lost r = Some r') as Hmark.
    { unfold mark_lost, mark, r'. rewrite Ha. unfold reporter_ok in Hro. by rewrite Hro, Es. }
    assert (tx_frame [ea_tx_reporter m] (w_tx w) (<[ea_tx_reporter m := r']> (w_tx w))) as Hfr
      by (by eapply tx_frame_insert).
    exists (with_outbound (l1 ++ l2) (after [] (<[ea_tx_reporter m := r']> (w_tx w)) w)), l1, l2.
    split; [|split].
    2: { eapply good_pop; [done..|]. exists r'. rewrite lookup_insert_eq. by auto. }
    { erewrite tx_update_ok; [|done|exact Hmark]. unfold after, with_outbound, set_tx. cbn. by rewrite app_nil_r. }
    split_and!; [done..|apply sends_after|done|].
    exists r'. split; [|by left]. cbn. by rewrite lookup_insert_eq.
Qed.

Lemma remove_all_expired_ok es : ∀ w, llc_inv w → (∀ m, m ∈ es → m ∈ outbound w) → Forall expired es →
  NoDup (ea_tx_reporter <$> es) →
  ∃ w', remove_all_expired (link_of <$> es) w = Ok tt w' ∧ good w w' ∧
    sends w w' ∧ outbound w' = filter (λ x, ea_tx_reporter x ∉ ea_tx_reporter <$> es) (outbound w).
Proof.
  induction es as [|m es IH]; intros w Hinv Hin Hex Hnd.
  { exists w. split; [done|]. split; [by apply good_refl|]. split; [by split|].
    symmetry. apply filter_all. intros x _. by apply not_elem_of_nil. }
  apply Forall_cons in Hex as [Hm Hes]. rewrite fmap_cons in Hnd. apply NoDup_cons in Hnd as [Hnotin Hnd].
  destruct (remove_expired_ok w m Hinv) as (w1 & l1 & l2 & Heq & Hg & Hl & Hl1 & Hsd & _); [apply Hin; by left|done|].
  pose proof (li_handles _ Hinv) as Hh. rewrite Hl in Hh. destruct (NoDup_remove_mid _ _ _ _ Hh) as [_ Hne].
  destruct (IH w1) as (w' & Heq' & Hg' & Hsd' & Hmem); [apply Hg| |done|done|].
  { intros x Hx. assert (x ∈ outbound w) as Hxw by (apply Hin; by right). rewrite Hl1. rewrite Hl in Hxw.
    rewrite elem_of_app, elem_of_cons in Hxw. rewrite elem_of_app.
    destruct Hxw as [|[->|]]; [by left| |by right]. exfalso. apply Hnotin. by apply list_elem_of_fmap_2. }
  exists w'. rewrite !fmap_cons. cbn [remove_all_expired]. erewrite bind_ok by exact Heq. split; [done|].
  split; [by eapply good_trans|]. split; [by eapply sends_trans|].
  rewrite Hmem, Hl1, Hl, !filter_app, filter_cons, decide_False by set_solver.
  f_equal; apply filter_ext_elem; intros y Hy; rewrite not_elem_of_cons;
    specialize (Hne y); rewrite elem_of_app in Hne; naive_solver.
Qed.

Lemma Forall2_upd_handles l l' : Forall2 entry_upd l l' → ea_tx_reporter <$> l' = ea_tx_reporter <$> l.
Proof. induction 1 as [|m m' l l' Hm _ IH]; [done|]. cbn. f_equal; [apply Hm|done]. Qed.

Lemma NoDup_fmap_sublist {A B} (f : A → B) (l k : list A) : l `sublist_of` k → NoDup (f <$> k) → NoDup (f <$> l).
Proof. intros Hsub Hk. eapply sublist_NoDup; [done|by apply fmap_sublist]. Qed.

(** With distinct receipts, filtering by receipt is filtering by entry. *)
Lemma filter_handles (P : ExpectedInAck → Prop) `{∀ x, Decision (P x)} l : NoDup (ea_tx_reporter <$> l) →
  filter (λ x, ea_tx_reporter x ∉ ea_tx_reporter <$> filter P l) l = filter (λ x, ¬ P x) l.
Proof.
  intros Hnd. apply filter_ext_elem. intros x Hx. split.
  - intros Hn HP. apply Hn. apply list_elem_of_fmap_2. by apply list_elem_of_filter.
  - intros HP (y & Heq & [HPy Hy]%list_elem_of_filter)%list_elem_of_fmap.
    assert (x = y) as ->; [|done]. apply list_elem_of_lookup in Hx as [i Hi], Hy as [j Hj].
    assert (i = j) as ->; [|congruence]. eapply NoDup_lookup; [exact Hnd| |]; rewrite list_lookup_fmap.
    + by rewrite Hi.
    + by rewrite Hj, Heq.
Qed.

Lemma submit_retransmissions_ok w : llc_inv w → ∃ act w', submit_retransmissions_to_umac w = Ok act w' ∧
  good w w' ∧ sends w w' ∧ ∃ l', Forall2 (advances (llc_dltime (w_llc w)) (w_tx w)) (outbound w) l' ∧
    outbound w' = filter (λ m, ¬ gives_up (llc_dltime (w_llc w)) m) l'.
Proof.
  intros Hinv. destruct (Hinv) as [Ht He Hh Hs Hn Hf Ha]. unfold submit_retransmissions_to_umac.
  erewrite (bind_ok get) by done.
  destruct (retransmit_loop_ok (llc_dltime (w_llc w)) (outbound w) w He Hn Ht)
    as (l' & act & q & tx' & Heq & Hok & Hupd & Hfr & Hadv).
  erewrite bind_ok by exact Heq. cbv beta iota. erewrite bind_ok by done.
  assert (NoDup (ea_tx_reporter <$> l')) as Hn' by (by rewrite (Forall2_upd_handles _ _ Hupd)).
  assert (good w (with_outbound l' (after q tx' w))) as Hg.
  { apply good_entries; [done| |done|done|apply Hfr|]; [intros s; by apply link_upd_steps|].
    intros h. apply settled_same; [by apply Forall2_upd_handles|done]. }
  set (es := filter (gives_up (llc_dltime (w_llc w))) l').
  destruct (remove_all_expired_ok es (with_outbound l' (after q tx' w)))
    as (w' & Heq' & Hg' & Hsd & Hout); [apply Hg| | | |].
  { intros m Hm. by apply list_elem_of_filter in Hm as [_ ?]. }
  { apply Forall_forall. intros m [Hgu Hm]%list_elem_of_filter. rewrite Forall_forall in Hok.
    by eapply gives_up_expired; [apply Hok|]. }
  { eapply NoDup_fmap_sublist; [apply sublist_filter|done]. }
  exists act, w'. erewrite bind_ok by exact Heq'. split; [done|]. split; [by eapply good_trans|].
  split; [eapply sends_trans; [apply sends_after|done]|]. exists l'. split; [done|]. rewrite Hout. wsimpl.
  by apply filter_handles.
Qed.

(** * Submission of free messages *)

(** What the loop does to one link. *)
Definition submit_head (t : TdmaTime) (k : list ExpectedInAck) : list ExpectedInAck :=
  match k with
  | m :: k => (if decide (in_flight m) then m else set_submitted (forward_to_timeslot t (tt_t (ea_t_first m))) m) :: k
  | [] => []
  end.

Lemma submit_head_ok t k : head_only k →
  rtc link_step k (submit_head t k) ∧ head_only (submit_head t k) ∧
  ∀ vs, alternating vs k → alternating vs (submit_head t k).
Proof.
  destruct k as [|m k]; [done|]. intros Hh. cbn [submit_head]. case_decide as Hf; [done|].
  split_and!; [apply rtc_once; by constructor|done|].
  intros vs Halt [|i] x Hx; cbn in Hx; [injection Hx as <-; exact (Halt 0 m eq_refl)|by apply (Halt (S i))].
Qed.

Lemma link_submitted s t m l : link s (set_submitted t m :: l) =
  if decide (of_link s m) then set_submitted t m :: link s l else link s l.
Proof. rewrite link_cons. done. Qed.

Lemma submit_free_loop_ok t l : ∀ blocked w, Forall (entry_ok (w_tx w)) l → NoDup (ea_tx_reporter <$> l) →
  valid_time t → (∀ s, s ∉ blocked → head_only (link s l)) →
  (∀ s, s ∈ blocked → Forall (λ m, ¬ in_flight m) (link s l)) →
  ∃ l' act q tx', submit_free_loop t blocked l w = Ok (l', act) (after q tx' w) ∧
    Forall (entry_ok tx') l' ∧ ea_tx_reporter <$> l' = ea_tx_reporter <$> l ∧
    tx_frame (ea_tx_reporter <$> l) (w_tx w) tx' ∧
    ∀ s, link s l' = if decide (s ∈ blocked) then link s l else submit_head t (link s l).
Proof.
  induction l as [|m l IH]; intros blocked w Hall Hnd Ht Hfree Hblk.
  { exists [], false, [], (w_tx w). rewrite after_same. split_and!; [done..|apply tx_frame_refl|].
    intros s. by case_decide. }
  apply Forall_cons in Hall as [Hm Hl]. rewrite fmap_cons in Hnd. apply NoDup_cons in Hnd as [Hnotin Hnd].
  set (sm := ssi (ea_addr m)).
  assert (∀ s k, s ≠ sm → link s (m :: k) = link s k) as Hother by (intros; by apply link_other).
  assert (∀ k, link sm (m :: k) = m :: link sm k) as Hsame by (intros; apply link_same).
  assert (∀ s, s ∉ {[sm]} ∪ blocked → head_only (link s l)) as Hfree'.
  { intros s Hs. rewrite <-Hother by set_solver. apply Hfree. set_solver. }
  assert (∀ s, s ∈ blocked → Forall (λ m, ¬ in_flight m) (link s l)) as Hblk0.
  { intros s Hs. specialize (Hblk s Hs). destruct (decide (s = sm)) as [->|Hne]; [|by rewrite <-Hother].
    rewrite Hsame in Hblk. by apply Forall_cons in Hblk as [_ ?]. }
  assert (∀ s, s ∈ {[sm]} ∪ blocked → Forall (λ m, ¬ in_flight m) (link s l)) as Hblk'.
  { intros s Hs. destruct (decide (s ∈ blocked)) as [Hb|Hb]; [by apply Hblk0|].
    assert (s = sm) as -> by set_solver. specialize (Hfree sm Hb). by rewrite Hsame in Hfree. }
  cbn [submit_free_loop]. fold sm. destruct (decide (in_flight m)) as [Hf|Hf].
  - destruct (IH ({[sm]} ∪ blocked) w) as (l' & act & q & tx' & Heq & Hok & Hh & Hfr & Hlk); [done..|].
    exists (m :: l'), act, q, tx'. split; [by erewrite bind_ok by exact Heq|]. split_and!.
    + constructor; [|done]. eapply entry_ok_frame; [by apply Hfr|done].
    + by rewrite !fmap_cons, Hh.
    + destruct Hfr as [F1 F2]. split; [|done]. intros h Hnh. apply F1. set_solver.
    + intros s. specialize (Hlk s). destruct (decide (s = sm)) as [->|Hne].
      * rewrite decide_True in Hlk by set_solver. rewrite !Hsame, Hlk.
        case_decide; [done|]. cbn [submit_head]. by rewrite decide_True.
      * rewrite !Hother by done. rewrite Hlk. apply decide_ext. set_solver.
  - destruct (decide (sm ∈ blocked)) as [Hb|Hb].
    + destruct (IH blocked w) as (l' & act & q & tx' & Heq & Hok & Hh & Hfr & Hlk); [done..| |done|].
      { intros s Hs. apply Hfree'. set_solver. }
      exists (m :: l'), act, q, tx'. split; [by erewrite bind_ok by exact Heq|]. split_and!.
      * constructor; [|done]. eapply entry_ok_frame; [by apply Hfr|done].
      * by rewrite !fmap_cons, Hh.
      * destruct Hfr as [F1 F2]. split; [|done]. intros h Hnh. apply F1. set_solver.
      * intros s. specialize (Hlk s). destruct (decide (s = sm)) as [->|Hne].
        -- rewrite decide_True in * by done. by rewrite !Hsame, Hlk.
        -- by rewrite !Hother, Hlk by done.
    + destruct (submit_ok m (forward_to_timeslot t (tt_t (ea_t_first m))) w) as (tx1 & Heq1 & Hok1 & Hfr1).
      { destruct Hm as [_ _ _ _ (r & Hr & _)]. by eexists. }
      { intros r Hr. by apply (entry_tx_state _ _ _ Hm Hr). }
      { apply Hm. } { apply Hm. }
      set (m1 := set_submitted (forward_to_timeslot t (tt_t (ea_t_first m))) m) in *.
      destruct (IH ({[sm]} ∪ blocked) (after [ea_retransmission_buf m] tx1 w))
        as (l' & act & q & tx' & Heq & Hok & Hh & Hfr & Hlk); [|done..|].
      { eapply Forall_entry_ok_frame; [exact Hfr1| |done]. intros x Hx Hin%list_elem_of_singleton.
        apply Hnotin. rewrite <-Hin. by apply list_elem_of_fmap_2. }
      exists (m1 :: l'), true, ([ea_retransmission_buf m] ++ q), tx'. split.
      { erewrite bind_ok by exact Heq1. erewrite bind_ok by exact Heq. by rewrite after_after. }
      split_and!.
      * constructor; [|done]. eapply entry_ok_frame; [|exact Hok1]. by apply Hfr.
      * by rewrite !fmap_cons, Hh.
      * rewrite fmap_cons. by apply (tx_frame_trans [_]) with tx1.
      * intros s. specialize (Hlk s). unfold m1. rewrite link_submitted, link_cons.
        destruct (decide (of_link s m)) as [Hs|Hs]; unfold of_link in Hs; fold sm in Hs.
        -- subst s. rewrite decide_True in Hlk by set_solver. rewrite Hlk, (decide_False (P := sm ∈ blocked)) by done.
           cbn [submit_head]. by rewrite decide_False.
        -- rewrite Hlk. apply decide_ext. set_solver.
Qed.

Lemma submit_free_messages_ok w : llc_inv w → ∃ act w', submit_free_messages_to_umac w = Ok act w' ∧
  good w w' ∧ sends w w' ∧
  ∀ s, link s (outbound w') = submit_head (llc_dltime (w_llc w)) (link s (outbound w)).
Proof.
  intros Hinv. destruct (Hinv) as [Ht He Hh Hs Hn Hf Ha]. unfold submit_free_messages_to_umac.
  erewrite (bind_ok get) by done.
  destruct (submit_free_loop_ok (llc_dltime (w_llc w)) (outbound w) ∅ w)
    as (l' & act & q & tx' & Heq & Hok & Hhs & Hfr & Hlk); [done..|set_solver|].
  assert (∀ s, link s l' = submit_head (llc_dltime (w_llc w)) (link s (outbound w))) as Hlink.
  { intros s. rewrite Hlk. by rewrite decide_False by set_solver. }
  exists act, (with_outbound l' (after q tx' w)). erewrite bind_ok by exact Heq. split; [done|].
  split; [|split; [apply sends_after|exact Hlink]]. apply good_entries; [done| |done|by rewrite Hhs|apply Hfr|intros h; by apply settled_same].
  intros s Hhs'. rewrite Hlink. by apply submit_head_ok.
Qed.

(** * Acknowledgements and unacknowledged data *)

Lemma bl_ack_build n nr : is_u 1 nr → ∃ pdu,
  build (new_autoexpand n) (bl_ack_to_bitbuf (mkBlAck false nr);; seek 0) = Some pdu ∧
  pdu_holds pdu (fields_bits (bl_fields (HAck (mkBlAck false nr)))).
Proof.
  intros Hnr. apply build_ok.
  - apply (bl_writes (HAck (mkBlAck false nr))). unfold bl_valid. cbn. split; [done|]. by intros ? [= <-].
  - rewrite length_fields_bits. unfold usize_max. cbn. lia.
Qed.

Lemma ack_reply_ok a : is_u 1 (sa_nr a) → ∃ m, ack_reply a = Some m.
Proof.
  intros Hnr. unfold ack_reply. destruct (bl_ack_build 5 _ Hnr) as (pdu & -> & _). by eexists.
Qed.

(** Only the scheduled acknowledgements, the unacknowledged messages and the queue change. *)
Record same_links (w w' : World) : Prop := {
  sl_time : llc_dltime (w_llc w') = llc_dltime (w_llc w);
  sl_out : outbound w' = outbound w;
  sl_seq : llc_link_send_seq (w_llc w') = llc_link_send_seq (w_llc w);
  sl_tx : w_tx w' = w_tx w;
  sl_next : w_next w' = w_next w;
  sl_carrier : llc_main_carrier (w_llc w') = llc_main_carrier (w_llc w)
}.

Lemma same_links_good w w' : llc_inv w → same_links w w' →
  Forall (λ a, is_u 1 (sa_nr a)) (llc_scheduled_out_acks (w_llc w')) → good w w'.
Proof.
  intros [Ht He Hh Hs Hn Hf Ha] [E1 E2 E3 E4 E5 E6] Ha'. unfold good, settled. rewrite E2, E4.
  split_and!; [|done|done].
  split; rewrite ?E1, ?E2, ?E3, ?E4, ?E5; done.
Qed.

Lemma submit_acks_ok l : ∀ w, Forall (λ a, is_u 1 (sa_nr a)) l → llc_scheduled_out_acks (w_llc w) = l →
  ∃ w' ms, submit_acks l w = Ok tt w' ∧ same_links w w' ∧ llc_scheduled_out_acks (w_llc w') = [] ∧
    w_queue w' = w_queue w ++ ms ∧ Forall2 (λ a m, ack_reply a = Some m) l ms.
Proof.
  induction l as [|a l IH]; intros w Hl Hw; [exists w, []; by rewrite app_nil_r|].
  apply Forall_cons in Hl as [Ha Hl]. cbn [submit_acks]. destruct (ack_reply_ok a Ha) as [m Hm].
  erewrite bind_ok by done. rewrite Hm. erewrite bind_ok by done. erewrite bind_ok by done.
  destruct (IH (mkWorld (set_out_acks l (w_llc w)) (w_queue w ++ [m]) (w_tx w) (w_next w)))
    as (w' & ms & Heq & [E1 E2 E3 E4 E5 E6] & Hnil & Hq & Hms); [done..|].
  exists w', (m :: ms). split_and!; [done..| |by constructor]. rewrite Hq. cbn. by rewrite <-app_assoc.
Qed.

Lemma submit_ack_replies_ok w : llc_inv w → ∃ act w', submit_ack_replies_to_umac w = Ok act w' ∧
  good w w' ∧ same_links w w' ∧ llc_scheduled_out_acks (w_llc w') = [] ∧
  ∃ ms, w_queue w' = w_queue w ++ ms ∧ Forall2 (λ a m, ack_reply a = Some m) (llc_scheduled_out_acks (w_llc w)) ms.
Proof.
  intros Hinv. unfold submit_ack_replies_to_umac. erewrite (bind_ok get) by done.
  destruct (submit_acks_ok _ w (li_acks _ Hinv)) as (w' & ms & Heq & Hsl & Hnil & Hq & Hms); [done|].
  eexists _, w'. erewrite bind_ok by exact Heq. split; [done|]. split; [|split_and!; [done..|by exists ms]].
  apply same_links_good; [done..|]. by rewrite Hnil.
Qed.

Lemma submit_udata_ok l : ∀ w, llc_outbound_udata_messages (w_llc w) = l →
  submit_udata l w = Ok tt (mkWorld (set_udata [] (w_llc w)) (w_queue w ++ l) (w_tx w) (w_next w)).
Proof.
  induction l as [|m l IH]; intros w Hw; cbn [submit_udata].
  { rewrite app_nil_r. destruct w as [[] ? ? ?]. cbn in *. by subst. }
  erewrite bind_ok by done. erewrite bind_ok by done. rewrite IH by done. cbn. by rewrite <-app_assoc.
Qed.

Lemma submit_udata_msgs_ok w : llc_inv w → ∃ act w', submit_udata_msgs_to_umac w = Ok act w' ∧
  good w w' ∧ same_links w w' ∧ w_queue w' = w_queue w ++ llc_outbound_udata_messages (w_llc w).
Proof.
  intros Hinv. unfold submit_udata_msgs_to_umac. erewrite (bind_ok get) by done.
  eexists _, _. erewrite bind_ok by (by apply submit_udata_ok). split; [done|].
  split; [|done]. apply same_links_good; [done|done|apply Hinv].
Qed.

Lemma link_filter (P : ExpectedInAck → Prop) `{∀ x, Decision (P x)} s l : link s (filter P l) = filter P (link s l).
Proof. unfold link. rewrite !list_filter_filter. apply list_filter_iff. naive_solver. Qed.

(** A tick end: every entry advances by its receipt, given-up heads leave, free heads are
    submitted, and every scheduled acknowledgement is sent. *)
Lemma tick_end_ok w : llc_inv w → ∃ act w', tick_end w = Ok act w' ∧ good w w' ∧
  llc_dltime (w_llc w') = llc_dltime (w_llc w) ∧
  (∃ l', Forall2 (advances (llc_dltime (w_llc w)) (w_tx w)) (outbound w) l' ∧ ∀ s, link s (outbound w') =
    submit_head (llc_dltime (w_llc w)) (filter (λ m, ¬ gives_up (llc_dltime (w_llc w)) m) (link s l'))) ∧
  (∀ a, a ∈ llc_scheduled_out_acks (w_llc w) → ∃ m, ack_reply a = Some m ∧ m ∈ w_queue w').
Proof.
  intros H0. unfold tick_end.
  destruct (submit_retransmissions_ok w H0) as (a & w1 & E1 & G1 & S1 & l' & Hadv & Hout).
  destruct (submit_free_messages_ok w1) as (b & w2 & E2 & G2 & S2 & Hlk); [apply G1|].
  destruct (submit_ack_replies_ok w2) as (c & w3 & E3 & G3 & L3 & _ & ms & Hq3 & Hms); [apply G2|].
  destruct (submit_udata_msgs_ok w3) as (e & w4 & E4 & G4 & L4 & Hq4); [apply G3|].
  erewrite bind_ok by exact E1. erewrite bind_ok by exact E2. erewrite bind_ok by exact E3. erewrite bind_ok by exact E4.
  eexists _, w4. split; [done|]. split; [do 3 (eapply good_trans; [eassumption|]); done|].
  destruct (sends_trans _ _ _ S1 S2) as [Sq Sa St]. split_and!.
  - by rewrite (sl_time _ _ L4), (sl_time _ _ L3), St.
  - exists l'. split; [done|]. intros s. rewrite (sl_out _ _ L4), (sl_out _ _ L3), Hlk, Hout, (sd_time _ _ S1).
    by rewrite link_filter.
  - intros x Hx. rewrite <-Sa in Hx. apply list_elem_of_lookup in Hx as [i Hi].
    destruct (Forall2_lookup_l _ _ _ _ _ Hms Hi) as (m & Hm & Hr). exists m. split; [done|].
    rewrite Hq4, Hq3, !elem_of_app. left. right. by eapply list_elem_of_lookup_2.
Qed.

(** * Requests *)

Lemma build_pdu_ok n h sdu : bl_valid h → wf sdu → (Z.of_nat (6 + get_len_remaining sdu) ≤ usize_max)%Z →
  ∃ pdu, build_pdu n (bl_to_bitbuf h) sdu = Some pdu ∧
    pdu_holds pdu (fields_bits (bl_fields h) ++ remaining sdu).
Proof.
  intros Hv Hs Hlen.
  assert (writes (bl_to_bitbuf h;; (_ ← copy_bits sdu (get_len_remaining sdu); mret tt))
    (fields_bits (bl_fields h) ++ remaining sdu)) as Hw.
  { apply writes_bind; [by apply bl_writes|by apply writes_copy]. }
  destruct (build_ok n _ _ Hw) as (pdu & Hb & Hp).
  { rewrite length_app, length_fields_bits, length_remaining by done. destruct h; cbn; lia. }
  exists pdu. split; [|done]. rewrite <-Hb. unfold build_pdu, build, mbind, M_bind.
  destruct (bl_to_bitbuf h _) as [[] bb1| |]; [|done..].
  by destruct (copy_bits sdu _ bb1) as [? bb2| |].
Qed.

(** What the layers above promise with a request. *)
Definition request_ok (w : World) (sdu : BitBuffer) (tx : option TxHandle) : Prop :=
  wf sdu ∧ (Z.of_nat (6 + get_len_remaining sdu) ≤ usize_max)%Z ∧
  ∀ h, tx = Some h → (h ∉ (ea_tx_reporter <$> outbound w)) ∧
    ∃ r, w_tx w !! h = Some r ∧ expects_ack r = true ∧ reporter_ok r ∧ get_state r = Pending.

Lemma get_out_ack_ok a c w : llc_inv w → ∃ o w', get_out_ack_seq_if_any a c w = Ok o w' ∧
  llc_inv w' ∧ same_links w w' ∧ w_queue w' = w_queue w ∧ (∀ n, o = Some n → is_u 1 n).
Proof.
  intros Hinv. unfold get_out_ack_seq_if_any. erewrite (bind_ok get) by done.
  pose proof (li_acks _ Hinv) as Ha.
  destruct (list_find _ _) as [[i x]|] eqn:E; [|by exists None, w].
  apply list_find_split in E as (l1 & l2 & Hl & -> & _ & _). rewrite Hl in Ha.
  eexists _, _. split; [reflexivity|]. split; [|split; [done|split; [done|]]].
  - apply (same_links_good w); [done|done|]. by eapply Forall_remove.
  - intros n [= <-]. rewrite Forall_app, Forall_cons in Ha. tauto.
Qed.

Lemma push_udata_ok m w : llc_inv w → ∃ w', push_udata m w = Ok tt w' ∧ llc_inv w' ∧
  same_links w w' ∧ w_queue w' = w_queue w.
Proof.
  intros Hinv. eexists. split; [reflexivity|]. split; [|done].
  apply (same_links_good w); [done|done|apply Hinv].
Qed.

Lemma same_links_trans w1 w2 w3 : same_links w1 w2 → same_links w2 w3 → same_links w1 w3.
Proof. intros [] []. split; congruence. Qed.

(** The new entry at the end of its link. *)
Lemma good_append w m tx' next' ss : llc_inv w → ¬ in_flight m → entry_ok tx' m →
  ea_tx_reporter m ∉ (ea_tx_reporter <$> outbound w) →
  (∀ h, h ≠ ea_tx_reporter m → tx' !! h = w_tx w !! h) → (¬ final (w_tx w) (ea_tx_reporter m)) →
  (∀ h, next' ≤ h → tx' !! h = None) →
  ss = llc_link_send_seq (w_llc w) →
  ea_ns m = default 0%Z (ss !! ssi (ea_addr m)) →
  good w (mkWorld (set_outbound (outbound w ++ [m])
            (set_send_seq (<[ssi (ea_addr m) := Z.lxor (ea_ns m) 1]> ss) (w_llc w))) (w_queue w) tx' next').
Proof.
  intros [Ht He Hh Hs Hn Hf Ha] Hnf Hm Hnew Hfr Hnfin Hfresh -> Hns.
  assert (∀ s, link s (outbound w ++ [m]) = link s (outbound w) ++ (if decide (of_link s m) then [m] else [])) as Hlk.
  { intros s. rewrite link_app, link_cons. by case_decide. }
  split_and!; [split; wsimpl; try done| |].
  - apply Forall_app. split; [|by constructor]. rewrite Forall_forall in *. intros x Hx.
    eapply entry_ok_frame; [|by apply He]. apply Hfr. intros Heq. apply Hnew. rewrite <-Heq.
    by apply list_elem_of_fmap_2.
  - intros s. rewrite Hlk. specialize (Hh s). unfold head_only in *. case_decide; [|by rewrite app_nil_r].
    destruct (link s (outbound w)); cbn in *; [done|]. apply Forall_app. split; [done|by constructor].
  - intros s. rewrite Hlk. destruct (Hs s) as [Hu Hal]. case_decide as Hd.
    + unfold of_link in Hd. subst s. rewrite lookup_insert_eq. cbn [default from_option id].
      set (vs := default 0%Z _) in *. rewrite Hns in *. fold vs.
      assert (vs = 0 ∨ vs = 1)%Z as Hvs by (unfold is_u in Hu; lia). split; [by destruct Hvs as [->| ->]|].
      intros i x Hx. rewrite length_app. cbn [length]. apply lookup_app_Some in Hx as [Hx|[Hge Hx]].
      * rewrite (Hal i x Hx). apply lookup_lt_Some in Hx. destruct Hvs as [->| ->].
        -- change (Z.lxor 0 1) with 1%Z. rewrite <-(Z_mod_plus_full _ 1 2). f_equal. lia.
        -- change (Z.lxor 1 1) with 0%Z. f_equal. lia.
      * apply list_lookup_singleton_Some in Hx as [Hi <-]. rewrite Hns. fold vs.
        replace (Z.of_nat i) with (Z.of_nat (length (link (ssi (ea_addr m)) (outbound w)))) by lia.
        replace (Z.lxor vs 1 + Z.of_nat (length (link (ssi (ea_addr m)) (outbound w)) + 1) -
          Z.of_nat (length (link (ssi (ea_addr m)) (outbound w))))%Z with (Z.lxor vs 1 + 1)%Z by lia.
        by destruct Hvs as [->| ->].
    + unfold of_link in Hd. rewrite lookup_insert_ne by done. by rewrite app_nil_r.
  - rewrite fmap_app. apply NoDup_app. split_and!; [done| |apply NoDup_singleton].
    intros h Hin Hin2. apply list_elem_of_singleton in Hin2 as ->. done.
  - intros s. wsimpl. rewrite Hlk. case_decide; [|by rewrite app_nil_r].
    apply rtc_once. constructor; [done|]. by apply (eo_idle _ _ Hm).
  - intros h [Hh'|Hh']; [left; wsimpl; rewrite fmap_app; set_solver|].
    right. unfold final in *. wsimpl. rewrite Hfr; [done|]. by intros ->.
Qed.

Lemma same_links_request_ok w w' sdu tx : same_links w w' → request_ok w sdu tx → request_ok w' sdu tx.
Proof. intros [E1 E2 E3 E4 E5 E6]. unfold request_ok. by rewrite E2, E4. Qed.

Lemma good_same_links w w1 w2 : same_links w w1 → good w1 w2 → good w w2.
Proof.
  intros [E1 E2 E3 E4 E5 E6] H. unfold good, settled in *. by rewrite E2, E4 in H.
Qed.

(** The receipt of a new message: the caller's or a new one. *)
Lemma request_receipt_ok w sdu tx : llc_inv w → request_ok w sdu tx → ∃ h w',
  (match tx with Some h => mret h | None => tx_new end : L TxHandle) w = Ok h w' ∧
  w_llc w' = w_llc w ∧ w_queue w' = w_queue w ∧
  (h ∉ (ea_tx_reporter <$> outbound w)) ∧ (∀ k, w_next w' ≤ k → w_tx w' !! k = None) ∧
  (∀ k, k ≠ h → w_tx w' !! k = w_tx w !! k) ∧ (¬ final (w_tx w) h) ∧
  ∃ r, w_tx w' !! h = Some r ∧ expects_ack r = true ∧ reporter_ok r ∧ get_state r = Pending.
Proof.
  intros Hinv (_ & _ & Htx). destruct tx as [h|].
  - destruct (Htx h eq_refl) as (Hnew & r & Hr & ?). exists h, w. split_and!; try done; [apply Hinv| |by exists r].
    intros (r' & Hr' & Hst). assert (r' = r) as -> by congruence. naive_solver congruence.
  - assert (w_tx w !! w_next w = None) as Hnone by (by apply Hinv).
    assert (∀ x, x ∈ outbound w → ea_tx_reporter x ≠ w_next w) as Hne.
    { intros x Hx Heq. pose proof (li_entries _ Hinv) as He. rewrite Forall_forall in He.
      destruct (He x Hx) as [_ _ _ _ (r & Hr & _)]. congruence. }
    eexists _, _. split; [reflexivity|]. cbn [w_llc w_queue w_tx w_next]. split_and!; try done.
    + intros (x & Heq & Hx)%list_elem_of_fmap. by apply (Hne x).
    + intros k Hk. rewrite lookup_insert_ne by lia. apply Hinv. lia.
    + intros k Hk. by rewrite lookup_insert_ne by done.
    + intros (r & Hr & _). congruence.
    + exists new_reporter. by rewrite lookup_insert_eq.
Qed.

(** The header of an acknowledged message. *)
Definition data_header (fcs : bool) (nr : option Z) (ns : Z) : bl_header :=
  match nr with Some nr => HAdata (mkBlAdata fcs nr ns) | None => HData (mkBlData fcs ns) end.

Definition send_seq (w : World) (s : Z) : Z := default 0%Z (llc_link_send_seq (w_llc w) !! s).

(** The entry for an accepted request. *)
Definition queued_as (w : World) (prim : TlaTlDataReqBl) (m : ExpectedInAck) : Prop :=
  ea_addr m = tldr_main_address prim ∧ ea_ns m = send_seq w (ssi (tldr_main_address prim)) ∧
  ea_carrier_num m = default (llc_main_carrier (w_llc w)) (tldr_chan_alloc prim ≫= car_carrier) ∧
  ¬ in_flight m ∧ (∀ h, tldr_tx_reporter prim = Some h → ea_tx_reporter m = h) ∧
  ∃ pdu nr, ea_retransmission_buf m = tma_req_of prim (ea_carrier_num m) 0 pdu (Some (ea_tx_reporter m)) ∧
    pdu_holds pdu (fields_bits (bl_fields (data_header (tldr_fcs_flag prim) nr (ea_ns m))) ++ remaining (tldr_tl_sdu prim)) ∧
    (∀ n, nr = Some n → is_u 1 n).

Lemma queued_as_same_links w w' prim m : same_links w w' → queued_as w' prim m → queued_as w prim m.
Proof. intros [E1 E2 E3 E4 E5 E6]. unfold queued_as, send_seq. by rewrite E3, E6. Qed.

Lemma data_header_valid fcs nr ns : (∀ n, nr = Some n → is_u 1 n) → is_u 1 ns → bl_valid (data_header fcs nr ns).
Proof.
  intros Hnr Hns. unfold bl_valid. destruct nr as [nr|]; cbn; split; intros n [= <-]; try done. by apply Hnr.
Qed.

Lemma push_udata_good m w w1 : llc_inv w1 → same_links w w1 → ∃ w', push_udata m w1 = Ok tt w' ∧ good w w' ∧
  same_links w w' ∧ w_queue w' = w_queue w1.
Proof.
  intros Hinv Hsl. destruct (push_udata_ok m w1 Hinv) as (w' & Heq & Hinv' & Hsl' & Hq).
  exists w'. split; [done|]. split; [|split; [by eapply same_links_trans|done]].
  eapply good_same_links; [exact Hsl|]. apply same_links_good; [done|done|apply Hinv'].
Qed.

Definition unacked (prim : TlaTlDataReqBl) : bool :=
  tldr_stealing_permission prim || bool_decide (ssi_type (tldr_main_address prim) = Gssi).

Lemma queue_acknowledged_ok prim carrier w : llc_inv w → request_ok w (tldr_tl_sdu prim) (tldr_tx_reporter prim) →
  carrier = default (llc_main_carrier (w_llc w)) (tldr_chan_alloc prim ≫= car_carrier) →
  ∃ w' m, queue_acknowledged prim carrier w = Ok tt w' ∧ good w w' ∧ w_queue w' = w_queue w ∧
    llc_dltime (w_llc w') = llc_dltime (w_llc w) ∧ outbound w' = outbound w ++ [m] ∧ queued_as w prim m.
Proof.
  intros Hinv Hreq Hcar. destruct (Hreq) as (Hwf & Hlen & _). unfold queue_acknowledged.
  destruct (get_out_ack_ok (tldr_main_address prim) carrier w Hinv) as (nr & w1 & E1 & Hinv1 & Hsl & Hq1 & Hnr).
  erewrite bind_ok by exact E1. set (s := ssi (tldr_main_address prim)).
  assert (get_next_send_seq (tldr_main_address prim) w1 = Ok (send_seq w s)
    (set_llc (set_send_seq (<[s := Z.lxor (send_seq w s) 1]> (llc_link_send_seq (w_llc w))) (w_llc w1)) w1)) as E2.
  { unfold get_next_send_seq, send_seq. by rewrite <-(sl_seq _ _ Hsl). }
  erewrite bind_ok by exact E2. set (w2 := set_llc _ w1) in *.
  assert (is_u 1 (send_seq w s)) as Hvs by apply (li_seq _ Hinv s).
  destruct (build_pdu_ok 32 (data_header (tldr_fcs_flag prim) nr (send_seq w s)) (tldr_tl_sdu prim))
    as (pdu & Hb & Hpdu); [by apply data_header_valid|done|done|].
  assert (match nr with
    | Some out_ack_n => build_pdu 32 (bl_adata_to_bitbuf (mkBlAdata (tldr_fcs_flag prim) out_ack_n (send_seq w s))) (tldr_tl_sdu prim)
    | None => build_pdu 32 (bl_data_to_bitbuf (mkBlData (tldr_fcs_flag prim) (send_seq w s))) (tldr_tl_sdu prim)
    end = Some pdu) as -> by (by destruct nr).
  erewrite bind_ok by done.
  destruct (request_receipt_ok w1 (tldr_tl_sdu prim) (tldr_tx_reporter prim) Hinv1)
    as (h & w3 & E3 & Hl3 & Hq3 & Hnew & Hfresh & Hfr & Hnfin & r & Hr & Hack & Hro & Hpend).
  { by eapply same_links_request_ok. }
  assert ((match tldr_tx_reporter prim with Some h => mret h | None => tx_new end : L TxHandle) w2 =
    Ok h (set_llc (w_llc w2) w3)) as E3'.
  { destruct (tldr_tx_reporter prim); unfold mret, M_ret, tx_new in *; simplify_eq; done. }
  assert (∀ h', tldr_tx_reporter prim = Some h' → h = h') as Hh.
  { intros h' Hh. rewrite Hh in E3. unfold mret, M_ret in E3. by simplify_eq. }
  erewrite bind_ok by exact E3'. cbv zeta.
  set (m := mkExpectedInAck carrier (derived_ts (tldr_chan_alloc prim)) (tldr_main_address prim) (send_seq w s)
    L2Acknowledged (llc_dltime (w_llc w1)) None None h (tma_req_of prim carrier 0 pdu (Some h)) 0).
  assert (good w1 (mkWorld (set_outbound (outbound w1 ++ [m])
    (set_send_seq (<[s := Z.lxor (ea_ns m) 1]> (llc_link_send_seq (w_llc w))) (w_llc w1))) (w_queue w1) (w_tx w3) (w_next w3)))
    as Hg.
  { apply (good_append w1 m); try done; [by intros []| |by rewrite (sl_seq _ _ Hsl)].
    split; cbn; try done; [apply Hinv1|]. exists r. by rewrite Hpend. }
  eexists _, m. split; [reflexivity|]. split.
  { eapply good_same_links; [exact Hsl|]. rewrite <-Hq3 in Hg. exact Hg. }
  split; [cbn; congruence|]. split; [apply (sl_time _ _ Hsl)|]. split; [cbn; by rewrite (sl_out _ _ Hsl)|].
  split_and!; try done; [by intros []|]. by exists pdu, nr.
Qed.

Lemma rx_tldata_ok prim w : llc_inv w → request_ok w (tldr_tl_sdu prim) (tldr_tx_reporter prim) →
  ∃ w', rx_tla_tldata_req_bl prim w = Ok tt w' ∧ good w w' ∧ w_queue w' = w_queue w ∧
    if unacked prim then same_links w w'
    else ∃ m, llc_dltime (w_llc w') = llc_dltime (w_llc w) ∧ outbound w' = outbound w ++ [m] ∧ queued_as w prim m.
Proof.
  intros Hinv Hreq. destruct (Hreq) as (Hwf & Hlen & _). unfold rx_tla_tldata_req_bl, unacked.
  erewrite (bind_ok get) by done. cbv zeta. set (carrier := default _ _).
  assert (∃ o w1, (if tldr_stealing_permission prim then get_out_ack_seq_if_any (tldr_main_address prim) carrier
    else mret None) w = Ok o w1 ∧ llc_inv w1 ∧ same_links w w1 ∧ w_queue w1 = w_queue w ∧
    (∀ n, o = Some n → is_u 1 n) ∧ (is_Some o → tldr_stealing_permission prim = true))
    as (o & w1 & E1 & Hinv1 & Hsl1 & Hq1 & Ho & Hst).
  { destruct (tldr_stealing_permission prim); [|exists None, w; split_and!; try done; by intros []].
    destruct (get_out_ack_ok (tldr_main_address prim) carrier w Hinv) as (o & w1 & ? & ? & ? & ? & ?).
    by exists o, w1. }
  erewrite bind_ok by exact E1. destruct o as [n|]; cbv beta iota.
  { rewrite Hst by done. cbn [orb].
    destruct (build_pdu_ok 32 (HAck (mkBlAck (tldr_fcs_flag prim) n)) (tldr_tl_sdu prim)) as (pdu & Hb & _); [|done..|].
    { unfold bl_valid. cbn. split; [done|]. intros ? [= <-]. by apply Ho. }
    cbn [bl_to_bitbuf] in Hb. rewrite Hb. erewrite bind_ok by done.
    edestruct push_udata_good as (w' & Heq & Hg & Hsl & Hq); [exact Hinv1|exact Hsl1|].
    exists w'. split_and!; [exact Heq|done|congruence|done]. }
  destruct (tldr_stealing_permission prim || _) eqn:Eu.
  { destruct (build_pdu_ok 32 (HUdata (mkBlUdata false)) (tldr_tl_sdu prim)) as (pdu & Hb & _); [done..|].
    cbn [bl_to_bitbuf] in Hb. rewrite Hb. erewrite bind_ok by done.
    edestruct push_udata_good as (w' & Heq & Hg & Hsl & Hq); [exact Hinv1|exact Hsl1|].
    exists w'. split_and!; [exact Heq|done|congruence|done]. }
  destruct (queue_acknowledged_ok prim carrier w1 Hinv1) as (w' & m & Heq & Hg & Hq & Htm & Hout & Hm).
  { by eapply same_links_request_ok. } { by rewrite (sl_carrier _ _ Hsl1). }
  exists w'. split; [done|]. split; [by eapply good_same_links|]. split; [congruence|].
  exists m. rewrite (sl_out _ _ Hsl1) in Hout. rewrite (sl_time _ _ Hsl1) in Htm. split; [done|]. split; [done|]. by eapply queued_as_same_links.
Qed.
