(* ===== verification/LlcRx.v ===== *)
(** Reception at the basic link: acknowledgements and received PDUs.

    [process_incoming_ack] is characterised on every branch; a received PDU of
    any content is handled without a panic and by steps of the links, unless it
    acknowledges a message that the UMAC had discarded. *)
From S2P Require Import Prelude Bits Core BitBuffer BitBufferSpec BitCodec BitBufferThms TdmaTime.
From S2P Require Import FieldCodec TxReceipt MacDl LlcPdu Fcs Saps Llc LlcSpec.

(** * Acknowledgements *)

(** The entry that N(R) = [nr] from [addr] acknowledges. *)
Definition acked_by (addr : TetraAddress) (carrier nr : Z) (m : ExpectedInAck) : Prop :=
  expected_for (ssi addr) carrier m ∧ is_Some (ea_t_umac_done m) ∧ ea_ns m = nr.
#[global] Instance acked_by_dec a c n m : Decision (acked_by a c n m).
Proof. unfold acked_by. apply _. Defined.

Definition receipt (w : World) (m : ExpectedInAck) : option TxState := get_state <$> w_tx w !! ea_tx_reporter m.

(** Every link is as before, up to the order between different links. *)
Definition links_same (w w' : World) : Prop :=
  (∀ s, link s (outbound w') = link s (outbound w)) ∧ w_tx w' = w_tx w ∧ w_queue w' = w_queue w ∧
  llc_scheduled_out_acks (w_llc w') = llc_scheduled_out_acks (w_llc w) ∧
  llc_dltime (w_llc w') = llc_dltime (w_llc w).

Lemma links_same_refl w : links_same w w.
Proof. done. Qed.

Lemma permute_good w l' : llc_inv w → (∀ s, link s l' = link s (outbound w)) → l' ≡ₚ outbound w →
  good w (with_outbound l' w).
Proof.
  intros [Ht He Hh Hs Hn Hf Ha] Hl Hp. split_and!; [|intros s; wsimpl; by rewrite Hl|].
  2: { intros h. unfold settled. wsimpl. by rewrite Hp. }
  split; wsimpl; try done; try (by rewrite Hp).
  - intros s. rewrite Hl. apply Hh.
  - intros s. rewrite Hl. apply Hs.
Qed.

(** Putting an entry in flight back in front moves it only past other links. *)
Lemma push_front_same w l1 m l2 : llc_inv w → outbound w = l1 ++ m :: l2 → in_flight m →
  ∃ w', push_front_outbound m (with_outbound (l1 ++ l2) w) = Ok tt w' ∧ good w w' ∧ links_same w w'.
Proof.
  intros Hinv Hl Hf. assert (∀ s, link s (m :: l1 ++ l2) = link s (outbound w)) as Hlk.
  { intros s. rewrite Hl, link_cons, link_app. case_decide as Hs.
    - pose proof (li_head _ Hinv s) as Hh. rewrite Hl in Hh.
      by destruct (in_flight_first s l1 m l2 Hh Hs Hf) as [-> ->].
    - by rewrite link_mid, decide_False. }
  exists (with_outbound (m :: l1 ++ l2) w). split; [done|]. split; [|done].
  apply permute_good; [done|done|]. rewrite Hl. by rewrite Permutation_middle.
Qed.

(** At most one entry is in flight to a subscriber. *)
Lemma in_flight_unique w m m' : llc_inv w → m ∈ outbound w → m' ∈ outbound w → in_flight m → in_flight m' →
  ssi (ea_addr m) = ssi (ea_addr m') → m = m'.
Proof.
  intros Hinv Hm Hm' Hf Hf' Heq. pose proof (li_head _ Hinv (ssi (ea_addr m))) as Hh.
  assert (m ∈ link (ssi (ea_addr m)) (outbound w)) as H1 by (by apply list_elem_of_filter).
  assert (m' ∈ link (ssi (ea_addr m)) (outbound w)) as H2 by (by apply list_elem_of_filter).
  destruct (link _ _) as [|x k]; [by apply not_elem_of_nil in H1|]. unfold head_only in Hh. cbn [tail] in Hh.
  rewrite Forall_forall in Hh. apply elem_of_cons in H1 as [->|H1]; [|by destruct (Hh m)].
  apply elem_of_cons in H2 as [->|H2]; [done|by destruct (Hh m')].
Qed.

(** [m], acknowledged, leaves the head of its link; nothing else changes. *)
Record acknowledged (w w' : World) (m : ExpectedInAck) : Prop := {
  ak_link : link (ssi (ea_addr m)) (outbound w) = m :: link (ssi (ea_addr m)) (outbound w');
  ak_others s : s ≠ ssi (ea_addr m) → link s (outbound w') = link s (outbound w);
  ak_receipt : receipt w' m = Some Acknowledged;
  ak_tx : ∀ h, h ≠ ea_tx_reporter m → w_tx w' !! h = w_tx w !! h;
  ak_queue : w_queue w' = w_queue w;
  ak_acks : llc_scheduled_out_acks (w_llc w') = llc_scheduled_out_acks (w_llc w);
  ak_time : llc_dltime (w_llc w') = llc_dltime (w_llc w)
}.

Lemma mark_acknowledged_cases r : expects_ack r = true → reporter_ok r →
  mark_acknowledged r = if decide (get_state r = Transmitted) then Some (mkReporter true (tx_raw Acknowledged)) else None.
Proof.
  intros Ha Ho. unfold mark_acknowledged, mark. rewrite Ha, Ho. by destruct (get_state r).
Qed.

Lemma ack_found w addr c nr m : llc_inv w → m ∈ outbound w → acked_by addr c nr m →
  (receipt w m = Some Transmitted ∧ ∃ w', process_incoming_ack addr c nr w = Ok tt w' ∧ good w w' ∧ acknowledged w w' m) ∨
  (receipt w m = Some Discarded ∧ process_incoming_ack addr c nr w = Panic).
Proof.
  intros Hinv Hm ((Hs & Hc & Hf) & [t Ht] & Hnr).
  destruct (take_expected_ok w m (li_head _ Hinv) Hm Hf) as (l1 & l2 & Hl & Heq).
  unfold process_incoming_ack. rewrite Hs, Hc in Heq. erewrite bind_ok by exact Heq. cbv beta iota. rewrite Ht. cbn [is_none].
  rewrite (proj2 (Z.eqb_eq _ _) Hnr). pose proof (li_entries _ Hinv) as He. rewrite Forall_forall in He.
  destruct (He m Hm) as [_ _ _ _ (r & Hr & Ha & Hro & Hst)]. pose proof (mark_acknowledged_cases r Ha Hro) as Hmk.
  unfold receipt. rewrite Hr. cbn [fmap option_fmap option_map].
  destruct (get_state r) eqn:Es; try done; [congruence| |]; cbn in Hmk.
  - right. split; [done|]. by eapply tx_update_panic.
  - left. split; [done|]. set (r' := mkReporter true (tx_raw Acknowledged)) in *.
    assert (tx_frame [ea_tx_reporter m] (w_tx w) (<[ea_tx_reporter m := r']> (w_tx w))) as Hfr by (by eapply tx_frame_insert).
    exists (with_outbound (l1 ++ l2) (after [] (<[ea_tx_reporter m := r']> (w_tx w)) w)).
    split; [|split].
    2: { eapply good_pop; [done..|by eexists|done|]. exists r'. rewrite lookup_insert_eq. by auto. }
    { erewrite tx_update_ok; [|done|exact Hmk]. unfold after, with_outbound, set_tx. cbn. by rewrite app_nil_r. }
    pose proof (li_head _ Hinv (ssi (ea_addr m))) as Hh. rewrite Hl in Hh.
    destruct (in_flight_first _ l1 m l2 Hh eq_refl Hf) as [E1 E2].
    split; wsimpl.
    + rewrite Hl, E2, link_app, E1. done.
    + intros s Hne. rewrite Hl, link_app, link_mid, decide_False; [done|]. by apply not_eq_sym.
    + unfold receipt. wsimpl. by rewrite lookup_insert_eq.
    + intros h Hne. by rewrite lookup_insert_ne.
    + apply app_nil_r.
    + done.
    + done.
Qed.

Lemma ack_not_found w addr c nr : llc_inv w → (∀ m, m ∈ outbound w → ¬ acked_by addr c nr m) →
  ∃ w', process_incoming_ack addr c nr w = Ok tt w' ∧ good w w' ∧ links_same w w'.
Proof.
  intros Hinv Hno. unfold process_incoming_ack, take_expected_ack_for_ssi. unfold mbind, M_bind, get. cbv beta iota.
  destruct (list_find _ _) as [[i m]|] eqn:E.
  2: { exists w. split; [done|]. split; [by apply good_refl|apply links_same_refl]. }
  apply list_find_split in E as (l1 & l2 & Hl & -> & Hexp & _). cbn [modify_llc mret M_ret].
  fold (with_outbound (l1 ++ l2) w).
  assert (∃ w', push_front_outbound m (with_outbound (l1 ++ l2) w) = Ok tt w' ∧ good w w' ∧ links_same w w') as Hback.
  { apply push_front_same; [done..|apply Hexp]. }
  destruct (ea_t_umac_done m) as [t|] eqn:Ed; [|exact Hback]. cbn [is_none].
  destruct (Z.eqb_spec (ea_ns m) nr) as [Hnr|]; [|exact Hback]. exfalso.
  apply (Hno m); [rewrite Hl; set_solver|]. split_and!; [done|by eexists|done].
Qed.

Lemma quiet_acked w w' m : acknowledged w w' m → quiet w w'.
Proof.
  intros [Hl Ho _ _ _ _ Ht]. split; [done|]. intros s. destruct (decide (s = ssi (ea_addr m))) as [->|Hne]; [rewrite Hl|rewrite Ho by done];
    constructor.
Qed.

(** No acknowledgement can hit a discarded message. *)
Definition no_discarded (w : World) (addr : TetraAddress) : Prop :=
  ∀ m, m ∈ outbound w → ssi (ea_addr m) = ssi addr → is_Some (ea_t_umac_done m) → receipt w m ≠ Some Discarded.

Lemma process_incoming_ack_ok w addr c nr : llc_inv w → no_discarded w addr →
  ∃ w', process_incoming_ack addr c nr w = Ok tt w' ∧ good w w' ∧ quiet w w' ∧ w_queue w' = w_queue w ∧
    llc_scheduled_out_acks (w_llc w') = llc_scheduled_out_acks (w_llc w).
Proof.
  intros Hinv Hnd. destruct (decide (Exists (acked_by addr c nr) (outbound w))) as [Hex|Hno].
  - apply Exists_exists in Hex as (m & Hm & Hack).
    destruct (ack_found w addr c nr m Hinv Hm Hack) as [(_ & w' & ? & ? & ?)|[Hd _]].
    + exists w'. split_and!; [done..| | |]; [by eapply quiet_acked|by eapply ak_queue|by eapply ak_acks].
    + exfalso. by apply (Hnd m Hm); [apply Hack..|].
  - destruct (ack_not_found w addr c nr Hinv) as (w' & ? & ? & ? & ? & ? & ? & ?).
    + intros m Hm Hack. apply Hno, Exists_exists. by exists m.
    + exists w'. split_and!; [done..|by apply quiet_links|done|done].
Qed.

(** * Received PDUs *)

Lemma peek_pdu_type_spec pdu : wf pdu → peek_pdu_type pdu =
  Some (if decide (4 ≤ get_len_remaining pdu) then llc_type_try_from (Z_of_bits (take 4 (remaining pdu))) else None).
Proof.
  intros Hwf. unfold peek_pdu_type, exec, peek_bits. change 0%Z with (Z.of_nat 0).
  rewrite peek_bits_posoffset_spec by done. unfold slice. rewrite drop_0.
  repeat case_decide; try lia; done.
Qed.

Definition trimmed (pdu : BitBuffer) : BitBuffer := set_start (bb_pos pdu) pdu.

Lemma trim_ok pdu : wf pdu → trim_to_pos pdu = Some (trimmed pdu).
Proof.
  intros Hwf. pose proof (wf_pos _ Hwf). unfold trim_to_pos, exec. by rewrite set_raw_start_ok by lia.
Qed.

Lemma trimmed_remaining pdu : wf pdu → get_len_remaining (trimmed pdu) = get_len_remaining pdu ∧
  remaining (trimmed pdu) = remaining pdu ∧ window (trimmed pdu) = remaining pdu ∧ wf (trimmed pdu).
Proof.
  intros [? ? ? ? ?]. unfold trimmed, get_len_remaining. by split_and!.
Qed.

(** What the handler hands to MLE. *)
Definition delivered (prim : TmaUnitdataInd) (t : LlcPduType) (pdu : BitBuffer) (has_fcs : bool) : list SapMsg :=
  let sdu := if 0 <? get_len_remaining pdu then Some (trimmed pdu) else None in
  match t with
  | LtBlAck | LtBlAckFcs => if get_len_remaining pdu =? 0 then [] else [tl_data_ind prim 0 (Some (trimmed pdu)) has_fcs]
  | LtBlUdata | LtBlUdataFcs => [tl_unitdata_ind prim sdu has_fcs]
  | _ => [tl_data_ind prim (tmai_link_id prim) sdu has_fcs]
  end.

(** The acknowledgement scheduled for a received N(S). *)
Definition with_ack (prim : TmaUnitdataInd) (ns : option Z) (w : World) : World :=
  match ns with
  | Some ns =>
      let t := add_timeslots (llc_dltime (w_llc w)) (-2) in
      set_llc (set_out_acks (llc_scheduled_out_acks (w_llc w) ++
        [mkScheduledOutAck (tmai_main_address prim) t ns (tmai_carrier_num prim) (tt_t t)]) (w_llc w)) w
  | None => w
  end.

Definition take_ack (prim : TmaUnitdataInd) (nr : option Z) : L unit :=
  match nr with
  | Some nr => process_incoming_ack (tmai_main_address prim) (tmai_carrier_num prim) nr
  | None => mret tt
  end.

Definition hand_up (ms : list SapMsg) : L unit := λ w, Ok tt (after ms (w_tx w) w).

Lemma rx_bl_accepted_spec prim t pdu fcs ns nr w : wf pdu →
  rx_bl_accepted prim t pdu fcs ns nr w =
    (take_ack prim nr;; hand_up (delivered prim t pdu fcs)) (with_ack prim ns w).
Proof.
  intros Hwf. unfold rx_bl_accepted. erewrite (bind_ok get) by done. cbv zeta. fold (take_ack prim nr).
  assert ((match ns with
    | Some ns => schedule_outgoing_ack (add_timeslots (llc_dltime (w_llc w)) (-2)) (tmai_main_address prim)
        (tmai_carrier_num prim) (tt_t (add_timeslots (llc_dltime (w_llc w)) (-2))) ns
    | None => mret tt end : L unit) w = Ok tt (with_ack prim ns w)) as E1 by (by destruct ns).
  erewrite bind_ok by exact E1. apply bind_ext. intros [] w1.
  rewrite (trim_ok pdu Hwf). destruct (trimmed_remaining pdu Hwf) as [Hlen _]. unfold hand_up, after.
  destruct t; repeat case_bool_decide; try (exfalso; naive_solver); cbn [delivered]; cbv zeta;
    try (destruct (get_len_remaining pdu =? 0); [by rewrite app_nil_r; destruct w1|done]);
    erewrite (bind_ok (unwrap _)) by done; by rewrite Hlen.
Qed.

Lemma with_ack_ok prim ns w : llc_inv w → (∀ n, ns = Some n → is_u 1 n) →
  llc_inv (with_ack prim ns w) ∧ same_links w (with_ack prim ns w).
Proof.
  intros Hinv Hns. destruct ns as [ns|]; [|done]. split; [|done].
  apply (same_links_good w); [done|done|]. apply Forall_app. split; [apply Hinv|].
  constructor; [|done]. by apply Hns.
Qed.

Lemma hand_up_good ms w : llc_inv w → good w (after ms (w_tx w) w).
Proof. intros Hinv. apply same_links_good; [done|done|apply Hinv]. Qed.

Lemma take_ack_ok prim nr w : llc_inv w → no_discarded w (tmai_main_address prim) →
  ∃ w', take_ack prim nr w = Ok tt w' ∧ good w w' ∧ quiet w w' ∧ w_queue w' = w_queue w ∧
    llc_scheduled_out_acks (w_llc w') = llc_scheduled_out_acks (w_llc w).
Proof.
  intros Hinv Hnd. destruct nr as [nr|]; [by apply process_incoming_ack_ok|].
  exists w. split; [done|]. split; [by apply good_refl|]. split; [by apply quiet_links|done].
Qed.

Lemma rx_bl_accepted_ok prim t pdu fcs ns nr w : llc_inv w → wf pdu → (∀ n, ns = Some n → is_u 1 n) →
  no_discarded w (tmai_main_address prim) →
  ∃ w', rx_bl_accepted prim t pdu fcs ns nr w = Ok tt w' ∧ good w w' ∧ quiet w w' ∧
    w_queue w' = w_queue w ++ delivered prim t pdu fcs ∧
    llc_scheduled_out_acks (w_llc w') = llc_scheduled_out_acks (w_llc (with_ack prim ns w)).
Proof.
  intros Hinv Hwf Hns Hnd. destruct (with_ack_ok prim ns w Hinv Hns) as [Hinv1 Hsl].
  destruct (take_ack_ok prim nr (with_ack prim ns w) Hinv1) as (w1 & Heq & Hg & Hqt & Hq & Hacks).
  { intros m. unfold receipt. rewrite (sl_out _ _ Hsl), (sl_tx _ _ Hsl). apply Hnd. }
  eexists. rewrite rx_bl_accepted_spec by done. erewrite bind_ok by exact Heq. split; [reflexivity|]. split_and!; [| |wsimpl; rewrite Hq; by destruct ns|exact Hacks].
  2: { destruct Hqt as [Ht Hqt]. split; [by rewrite <-(sl_time _ _ Hsl)|]. intros s. specialize (Hqt s).
       by rewrite (sl_out _ _ Hsl) in Hqt. }
  eapply good_same_links; [exact Hsl|]. eapply good_trans; [exact Hg|]. apply hand_up_good, Hg.
Qed.

(** The header of a received PDU, for any content: ignored, or a parsed basic-link header. *)
Lemma rx_unitdata_cases prim pdu w : tmai_pdu prim = Some pdu → wf pdu →
  rx_tma_unitdata_ind prim w = Ok tt w ∨
  ∃ t pdu' fcs ns nr, wf pdu' ∧ (∀ n, ns = Some n → is_u 1 n) ∧
    rx_tma_unitdata_ind prim w = rx_bl_accepted prim t pdu' fcs ns nr w.
Proof.
  intros Hp Hwf. unfold rx_tma_unitdata_ind. rewrite Hp, (peek_pdu_type_spec pdu Hwf).
  erewrite bind_ok by done. set (o := if decide _ then _ else _).
  destruct o as [t|] eqn:Eo; [|by left].
  assert (rx_tma_unitdata_ind_bl prim w = Ok tt w ∨
    ∃ t pdu' fcs ns nr, wf pdu' ∧ (∀ n, ns = Some n → is_u 1 n) ∧
    rx_tma_unitdata_ind_bl prim w = rx_bl_accepted prim t pdu' fcs ns nr w) as H; [|by destruct t; auto].
  unfold rx_tma_unitdata_ind_bl. rewrite Hp, (peek_pdu_type_spec pdu Hwf). erewrite bind_ok by done. fold o.
  rewrite Eo. destruct (parse_bl_header t) as [p|] eqn:Et; [|by left].
  pose proof (parse_bl_header_safe _ _ Et pdu Hwf) as Hsafe. unfold safe_at in Hsafe.
  destruct (p pdu) as [[[fcs ns] nr] pdu'|e pdu'|] eqn:Ep; [|by left|done].
  destruct Hsafe as (n & Hn & Epdu). assert (wf pdu') as Hwf'.
  { subst. by apply wf_advance. }
  destruct (parse_bl_header_bits _ _ _ _ _ _ _ Et Hwf Ep) as [Hns _].
  assert (∃ b, (if fcs then exec check_fcs pdu' else Some (true, pdu')) = Some (b, pdu')) as [b ->].
  { destruct fcs; [|by eexists]. eexists. apply exec_ok. by apply check_fcs_spec. }
  erewrite bind_ok by done. cbv beta iota. destruct b; [|by left].
  right. by exists t, pdu', fcs, ns, nr.
Qed.

Lemma rx_unitdata_ok prim w : llc_inv w → (∀ pdu, tmai_pdu prim = Some pdu → wf pdu) →
  no_discarded w (tmai_main_address prim) →
  ∃ w', rx_tma_unitdata_ind prim w = Ok tt w' ∧ good w w' ∧ quiet w w'.
Proof.
  intros Hinv Hwf Hnd. destruct (tmai_pdu prim) as [pdu|] eqn:Ep.
  2: { exists w. unfold rx_tma_unitdata_ind. rewrite Ep. split; [done|]. split; [by apply good_refl|by apply quiet_links]. }
  destruct (rx_unitdata_cases prim pdu w Ep) as [->|(t & pdu' & fcs & ns & nr & ? & ? & ->)]; [by apply Hwf| |].
  - exists w. split; [done|]. split; [by apply good_refl|by apply quiet_links].
  - destruct (rx_bl_accepted_ok prim t pdu' fcs ns nr w) as (w' & ? & ? & ? & _); [done..|]. by exists w'.
Qed.

(** * Any primitive *)

(** What the neighbours promise with a message: requests carry well-formed SDUs and unused
    receipts, indications well-formed PDUs; no link has a message that the UMAC discarded. *)
Definition prim_ok (w : World) (m : SapMsg) : Prop :=
  match sm_msg m with
  | SmTlaTlDataReqBl p => request_ok w (tldr_tl_sdu p) (tldr_tx_reporter p)
  | SmTlaTlUnitdataReqBl p => wf (tlur_tl_sdu p) ∧ (Z.of_nat (6 + get_len_remaining (tlur_tl_sdu p)) ≤ usize_max)%Z
  | SmTmaUnitdataInd p => (∀ pdu, tmai_pdu p = Some pdu → wf pdu) ∧ no_discarded w (tmai_main_address p)
  | _ => True
  end.

Lemma rx_tlunitdata_ok prim w : llc_inv w → wf (tlur_tl_sdu prim) →
  (Z.of_nat (6 + get_len_remaining (tlur_tl_sdu prim)) ≤ usize_max)%Z →
  ∃ w', rx_tla_tlunitdata_req_bl prim w = Ok tt w' ∧ good w w' ∧ quiet w w'.
Proof.
  intros Hinv Hwf Hlen. unfold rx_tla_tlunitdata_req_bl.
  destruct (build_pdu_ok 32 (HUdata (mkBlUdata false)) (tlur_tl_sdu prim)) as (pdu & Hb & _); [done..|].
  cbn [bl_to_bitbuf] in Hb. rewrite Hb. erewrite bind_ok by done. erewrite (bind_ok get) by done. cbv zeta.
  edestruct push_udata_good as (w' & Heq & Hg & Hsl & _); [exact Hinv|by split|].
  exists w'. split_and!; [done..|]. apply quiet_links; [apply Hsl|]. intros s. by rewrite (sl_out _ _ Hsl).
Qed.

Lemma rx_prim_ok m w : llc_inv w → prim_ok w m → ∃ w', rx_prim m w = Ok tt w' ∧ good w w' ∧ quiet w w'.
Proof.
  intros Hinv Hm. unfold rx_prim, rx_tma_prim, rx_tla_prim, prim_ok in *.
  assert (∃ w', (mret tt : L unit) w = Ok tt w' ∧ good w w' ∧ quiet w w') as Hnop.
  { exists w. split; [done|]. split; [by apply good_refl|by apply quiet_links]. }
  destruct (sm_sap m), (sm_msg m); try exact Hnop; unfold rx_tma_report_ind; try exact Hnop.
  - by apply rx_unitdata_ok; [|apply Hm..].
  - destruct (rx_tldata_ok p w Hinv Hm) as (w' & ? & ? & _ & Hu). exists w'. split_and!; [done..|].
    destruct (unacked p).
    + apply quiet_links; [apply Hu|]. intros s. by rewrite (sl_out _ _ Hu).
    + destruct Hu as (e & Ht & Hout & _ & _ & _ & Hidle & _). by eapply quiet_append.
  - by apply rx_tlunitdata_ok; [|apply Hm..].
Qed.

(** * A PDU with a given header *)

Definition bl_has_fcs (h : bl_header) : bool := (bl_seqs h).1.1.
Definition bl_ns (h : bl_header) : option Z := (bl_seqs h).1.2.
Definition bl_nr (h : bl_header) : option Z := (bl_seqs h).2.

Lemma bl_header_type h bs : ∃ k, fields_bits (bl_fields h) = k ∧ 4 ≤ length k ∧
  llc_type_try_from (Z_of_bits (take 4 (k ++ bs))) = Some (bl_type h).
Proof.
  eexists. split; [reflexivity|]. destruct (bl_type_bits h) as [rest ->].
  destruct (llc_type_ok (bl_type h)) as [Hty Hu]. rewrite !length_app, length_bits_of_Z. split; [lia|].
  rewrite <-app_assoc, take_app_length' by (by rewrite length_bits_of_Z). rewrite Z_of_bits_of_Z. by rewrite wrap_small.
Qed.

(** The FCS of what follows the header. *)
Definition fcs_right (body : list bool) : bool :=
  if decide (32 ≤ length body) then
    let n := length body - 32 in (fcs_of (take n body) =? Z_of_bits (drop n body))%Z
  else false.

(** A PDU that starts with the header [h] is accepted as such, if its FCS (if any) is right,
    and ignored otherwise. *)
Lemma rx_unitdata_header prim pdu w h body : tmai_pdu prim = Some pdu → wf pdu → bl_valid h →
  remaining pdu = fields_bits (bl_fields h) ++ body →
  ∃ pdu', wf pdu' ∧ remaining pdu' = body ∧
    rx_tma_unitdata_ind prim w =
      if bl_has_fcs h && negb (fcs_right body) then Ok tt w
      else rx_bl_accepted prim (bl_type h) pdu' (bl_has_fcs h) (bl_ns h) (bl_nr h) w.
Proof.
  intros Hp Hwf Hv Hrem. destruct (bl_header_type h body) as (k & Hk & Hk4 & Hty).
  assert (peek_pdu_type pdu = Some (Some (bl_type h))) as Hpeek.
  { rewrite peek_pdu_type_spec by done. rewrite <-length_remaining, Hrem, Hk by done.
    rewrite decide_True by (rewrite length_app; lia). by rewrite Hty. }
  destruct (bl_reads_header h Hv) as (p & Hparse & Hreads).
  specialize (Hreads pdu Hwf). rewrite Hrem in Hreads. specialize (Hreads (prefix_app_r _ _ _ (reflexivity _))).
  set (pdu' := advance (length (fields_bits (bl_fields h))) pdu) in *.
  assert (wf pdu') as Hwf'.
  { apply wf_advance; [done|]. rewrite <-length_remaining, Hrem, length_app by done. lia. }
  assert (remaining pdu' = body) as Hbody by (unfold pdu'; rewrite remaining_advance, Hrem; apply drop_app_length).
  exists pdu'. split_and!; [done..|]. unfold rx_tma_unitdata_ind. rewrite Hp, Hpeek. erewrite bind_ok by done.
  assert (rx_tma_unitdata_ind_bl prim w =
    if bl_has_fcs h && negb (fcs_right body) then Ok tt w
    else rx_bl_accepted prim (bl_type h) pdu' (bl_has_fcs h) (bl_ns h) (bl_nr h) w) as <-.
  2: { cbv beta iota. by destruct h as [[[]]|[[]]|[[]]|[[]]]. }
  unfold rx_tma_unitdata_ind_bl. rewrite Hp, Hpeek. erewrite bind_ok by done. cbv beta iota. rewrite Hparse, Hreads.
  unfold bl_has_fcs, bl_ns, bl_nr. destruct (bl_seqs h) as [[[] ns] nr]; cbn [fst snd andb];
    [|by erewrite bind_ok by done].
  pose proof (check_fcs_spec pdu' Hwf') as Hfcs. rewrite Hbody in Hfcs.
  change (check_fcs pdu' = Ok (fcs_right body) pdu') in Hfcs.
  unfold exec. rewrite Hfcs. erewrite bind_ok by done. cbv beta iota. by destruct (fcs_right body).
Qed.
