(* ===== verification/LlcLink.v ===== *)
(** The LLC among its neighbours: reachable states and what they guarantee.

    [llc_step] interleaves the entity's callbacks with what the layers around it
    do to the shared queue and receipts.  Its theorems are about every reachable
    state: the links are stop-and-wait queues, no callback panics, no accepted
    message is forgotten. *)
From S2P Require Import Prelude Bits Core BitBuffer BitBufferSpec BitCodec BitBufferThms TdmaTime.
From S2P Require Import FieldCodec TxReceipt MacDl LlcPdu Fcs Saps Llc LlcSpec LlcRx.

(** * The system *)

(** What the neighbours do. *)
Inductive neighbour_step : World → World → Prop :=
(** a primitive for the LLC *)
| st_rx m w w' : prim_ok w m → rx_prim m w = Ok tt w' → neighbour_step w w'
(** the UMAC reports on a message it was handed *)
| st_report m mk r r' w : m ∈ outbound w → in_flight m → mk ∈ [mark_transmitted; mark_discarded] →
    w_tx w !! ea_tx_reporter m = Some r → mk r = Some r' → neighbour_step w (set_tx (ea_tx_reporter m) r' w)
(** anything the other layers do to the queue and to the receipts of other messages *)
| st_others q tx' next' w : (∀ h, h ∈ ea_tx_reporter <$> outbound w → tx' !! h = w_tx w !! h) →
    (∀ h, next' ≤ h → tx' !! h = None) → neighbour_step w (mkWorld (w_llc w) q tx' next').

Inductive llc_step : World → World → Prop :=
| st_neighbour w w' : neighbour_step w w' → llc_step w w'
| st_tick_start t w w' : valid_time t → tick_start t w = Ok tt w' → llc_step w w'
| st_tick_end act w w' : tick_end w = Ok act w' → llc_step w w'.

Definition llc_start (main_carrier : Z) : World := mkWorld (llc_new main_carrier) [] ∅ 0.

Lemma llc_start_inv c : llc_inv (llc_start c).
Proof.
  split; try done.
  - intros s. constructor.
  - constructor.
Qed.

Lemma report_good w m mk r r' : llc_inv w → m ∈ outbound w → in_flight m → mk ∈ [mark_transmitted; mark_discarded] →
  w_tx w !! ea_tx_reporter m = Some r → mk r = Some r' → llc_inv (set_tx (ea_tx_reporter m) r' w).
Proof.
  intros Hinv Hm Hf Hmk Hr Hmark. destruct (Hinv) as [Ht He Hh Hs Hn Hfr Ha].
  assert (expects_ack r' = expects_ack r ∧ ∃ s, s ∈ [Transmitted; Discarded] ∧ tx_state r' = tx_raw s) as (Hack & s & Hsin & Hst).
  { assert (∀ s, mark Pending s r = Some r' → expects_ack r' = expects_ack r ∧ tx_state r' = tx_raw s) as H.
    { intros s. unfold mark. case_match; [|done]. by intros [= <-]. }
    apply list_elem_of_In in Hmk. destruct Hmk as [<-|[<-|[]]]; apply H in Hmark as [? ?];
      (split; [done|]); eexists; (split; [|done]); set_solver. }
  split; cbn; try done.
  - apply Forall_forall. intros x Hx. rewrite Forall_forall in He. pose proof (He x Hx) as Hok.
    destruct (decide (ea_tx_reporter x = ea_tx_reporter m)) as [Heq|Hne].
    + assert (x = m) as ->.
      { apply list_elem_of_lookup in Hx as [i Hi], Hm as [j Hj].
        assert (i = j) as ->; [|congruence]. eapply NoDup_lookup; [exact Hn| |].
        - rewrite list_lookup_fmap, Hi. done.
        - by rewrite list_lookup_fmap, Hj, Heq. }
      destruct Hok as [Hc Hi Hf1 Hd (r0 & Hr0 & Ha0 & Ho0 & Hs0)]. assert (r0 = r) as -> by congruence.
      split; try done. exists r'. rewrite lookup_insert_eq. split; [done|]. split; [congruence|].
      unfold reporter_ok, get_state. rewrite Hst, from_raw_raw. split; [done|].
      apply list_elem_of_In in Hsin. by destruct Hsin as [<-|[<-|[]]].
    + eapply entry_ok_frame; [|exact Hok]. by rewrite lookup_insert_ne.
  - intros h Hle. rewrite lookup_insert_ne; [by apply Hfr|]. intros <-. by rewrite Hfr in Hr.
Qed.

Lemma others_inv w q tx' next' : llc_inv w → (∀ h, h ∈ ea_tx_reporter <$> outbound w → tx' !! h = w_tx w !! h) →
  (∀ h, next' ≤ h → tx' !! h = None) → llc_inv (mkWorld (w_llc w) q tx' next').
Proof.
  intros [Ht He Hh Hs Hn Hf Ha] Htx Hnx. split; cbn; try done.
  rewrite Forall_forall in *. intros m Hm. eapply entry_ok_frame; [|by apply He].
  apply Htx. by apply list_elem_of_fmap_2.
Qed.

Lemma neighbour_step_ok w w' : llc_inv w → neighbour_step w w' →
  llc_inv w' ∧ quiet w w' ∧ ∀ s, rtc link_step (link s (outbound w)) (link s (outbound w')).
Proof.
  intros Hinv Hst. revert Hinv. destruct Hst as [m w1 w2 Hm Heq|m mk r r' w1 Hm Hf Hmk Hr Hmark|q tx' next' w1 Htx Hnx];
    intros Hinv.
  - destruct (rx_prim_ok m w1 Hinv Hm) as (w3 & Heq' & (Hg & Hl & _) & Hq). rewrite Heq in Heq'. by injection Heq' as ->.
  - split; [by eapply report_good|]. split; [by apply quiet_links|done].
  - split; [by apply others_inv|]. split; [by apply quiet_links|done].
Qed.

(** Every step keeps the invariant and moves each link by steps of its own. *)
Lemma llc_step_links w w' : llc_inv w → llc_step w w' →
  llc_inv w' ∧ ∀ s, rtc link_step (link s (outbound w)) (link s (outbound w')).
Proof.
  intros Hinv Hst. revert Hinv. destruct Hst as [w1 w2 Hn|t w1 w2 Ht Heq|act w1 w2 Heq]; intros Hinv.
  - by destruct (neighbour_step_ok w1 w2 Hinv Hn) as (? & _ & ?).
  - unfold tick_start, modify_llc in Heq. injection Heq as <-. split; [|done].
    by destruct Hinv; split.
  - destruct (tick_end_ok w1 Hinv) as (act' & w3 & Heq' & (Hg & Hl & _) & _). rewrite Heq in Heq'. by injection Heq' as -> ->.
Qed.

Lemma llc_reachable_inv c w : rtc llc_step (llc_start c) w → llc_inv w.
Proof.
  intros H. remember (llc_start c) as w0 eqn:E. assert (llc_inv w0) as Hw0 by (subst; apply llc_start_inv).
  clear E. induction H as [|w1 w2 w3 Hs _ IH]; [done|]. apply IH. by apply (llc_step_links w1).
Qed.

(** * Properties *)

(** C28: whatever the order of requests, received PDUs, ticks, UMAC reports and
    activity of the other layers, the outbound messages of each subscriber form
    a stop-and-wait queue: at most the first is in flight, N(S) alternates along
    the queue up to the next number to assign, a message is retransmitted at
    most three times, no two messages share a receipt; and each step changes a
    queue only by appending a new message, or by submitting, completing,
    retransmitting or removing its head ([link_step]). *)
Theorem llc_links_are_stop_and_wait c w w' s : rtc llc_step (llc_start c) w → llc_step w w' →
  let l := link s (outbound w) in
  head_only l ∧ alternating (send_seq w s) l ∧
  Forall (λ m, (0 ≤ ea_retransmit_count m ≤ N252_BL_MAX_TLSDU_RETRANSMITS_ACKED)%Z) l ∧
  NoDup (ea_tx_reporter <$> outbound w) ∧
  rtc link_step l (link s (outbound w')).
Proof.
  intros Hr%llc_reachable_inv Hs l. split_and!; try apply Hr.
  - apply Forall_forall. intros m Hm. apply list_elem_of_filter in Hm as [_ Hm].
    pose proof (li_entries _ Hr) as He. rewrite Forall_forall in He. apply (He m Hm).
  - by apply llc_step_links.
Qed.

(** C39: no callback of the LLC can fail in a reachable state: a tick end
    returns, and so does the handler of any primitive (requests with
    well-formed SDUs, received PDUs of any content), as long as the UMAC has
    not discarded a message to the sender of the received PDU.  And no accepted
    message is forgotten: afterwards each one is still in the queue or its
    receipt says acknowledged, lost or discarded. *)
Theorem llc_callbacks_return c w m : rtc llc_step (llc_start c) w → prim_ok w m →
  (∃ act w', tick_end w = Ok act w' ∧ ∀ h, settled w h → settled w' h) ∧
  (∃ w', rx_prim m w = Ok tt w' ∧ ∀ h, settled w h → settled w' h).
Proof.
  intros Hr%llc_reachable_inv Hm. split.
  - destruct (tick_end_ok w Hr) as (act & w' & Heq & (_ & _ & Hs) & _). by exists act, w'.
  - destruct (rx_prim_ok m w Hr Hm) as (w' & Heq & (_ & _ & Hs) & _). by exists w'.
Qed.

(** A received N(R) is matched against the one message in flight to its
    sender.  If the UMAC has finished with that message and its N(S) equals
    N(R), the message leaves the head of its queue with its receipt set to
    acknowledged and nothing else changes; an N(R) that matches no such message
    changes no queue and no receipt; and if the UMAC had discarded the matching
    message, the handler panics. *)
Theorem ack_matches_message_in_flight c w addr carrier nr : rtc llc_step (llc_start c) w →
  (∀ m, m ∈ outbound w → acked_by addr carrier nr m → receipt w m = Some Transmitted →
     ∃ w', process_incoming_ack addr carrier nr w = Ok tt w' ∧ acknowledged w w' m) ∧
  (∀ m, m ∈ outbound w → acked_by addr carrier nr m → receipt w m ≠ Some Transmitted →
     receipt w m = Some Discarded ∧ process_incoming_ack addr carrier nr w = Panic) ∧
  ((∀ m, m ∈ outbound w → ¬ acked_by addr carrier nr m) →
     ∃ w', process_incoming_ack addr carrier nr w = Ok tt w' ∧ links_same w w').
Proof.
  intros Hr%llc_reachable_inv. split_and!.
  - intros m Hm Ha Hst. destruct (ack_found w addr carrier nr m Hr Hm Ha) as [(_ & w' & ? & _ & ?)|[Hd _]]; [by exists w'|].
    congruence.
  - intros m Hm Ha Hst. destruct (ack_found w addr carrier nr m Hr Hm Ha) as [[Hd _]|Hd]; done.
  - intros Hno. destruct (ack_not_found w addr carrier nr Hr Hno) as (w' & ? & _ & ?). by exists w'.
Qed.

(** * A concrete run *)

Definition demo_sdu : BitBuffer := mkBitBuffer [165; 90]%Z 0 0 16 false.
Definition demo_req : TlaTlDataReqBl :=
  mkTlDataReq (issi 1001) 0 0 demo_sdu false 0 false None None None 0 None None None.
Definition demo_msg : SapMsg := mkSapMsg TlaSap Mle Llc_ (SmTlaTlDataReqBl demo_req).

Definition world_of {A} (o : outcome World Empty_set A) : World :=
  match o with Ok _ w => w | _ => llc_start 0 end.

(** Started; requested; submitted; transmitted; seen to be transmitted. *)
Definition demo_w0 : World := llc_start 1521.
Definition demo_w1 : World := world_of (rx_prim demo_msg demo_w0).
Definition demo_w2 : World := world_of (tick_end demo_w1).
Definition demo_w3 : World := set_tx 0 (mkReporter true (tx_raw Transmitted)) demo_w2.
Definition demo_w4 : World := world_of (tick_end demo_w3).

Definition demo_entry (w : World) : option ExpectedInAck := head (outbound w).

Lemma demo_sdu_wf : wf demo_sdu.
Proof.
  split; cbn; [|lia|lia|lia|by vm_compute]. repeat constructor; unfold is_u; lia.
Qed.

Lemma demo_prim_ok : prim_ok demo_w0 demo_msg.
Proof. split; [exact demo_sdu_wf|]. split; [by vm_compute|done]. Qed.

Lemma demo_entry_elem w m : demo_entry w = Some m → m ∈ outbound w.
Proof. unfold demo_entry. destruct (outbound w); [done|]. cbn. intros [= ->]. by left. Qed.

Lemma demo_step1 : llc_step demo_w0 demo_w1.
Proof. apply st_neighbour, (st_rx demo_msg); [exact demo_prim_ok|by vm_compute]. Qed.

Lemma demo_step2 : llc_step demo_w1 demo_w2.
Proof. apply (st_tick_end true). by vm_compute. Qed.

Lemma demo_step3 : neighbour_step demo_w2 demo_w3.
Proof.
  destruct (demo_entry demo_w2) as [m|] eqn:E; [|by vm_compute in E].
  assert (ea_tx_reporter m = 0 ∧ in_flight m) as [Hh Hf].
  { vm_compute in E. injection E as <-. by split; [|eexists]. }
  unfold demo_w3. rewrite <-Hh.
  apply (st_report m mark_transmitted (mkReporter true (tx_raw Pending))); [by apply demo_entry_elem|exact Hf|left| |reflexivity].
  rewrite Hh. by vm_compute.
Qed.

Lemma demo_step4 : llc_step demo_w3 demo_w4.
Proof. apply (st_tick_end false). by vm_compute. Qed.

Lemma demo_reachable : rtc llc_step demo_w0 demo_w3 ∧ rtc llc_step demo_w0 demo_w4.
Proof.
  assert (rtc llc_step demo_w0 demo_w3) as H.
  { eapply rtc_l; [exact demo_step1|]. eapply rtc_l; [exact demo_step2|]. by apply rtc_once, st_neighbour, demo_step3. }
  split; [done|]. eapply rtc_r; [exact H|exact demo_step4].
Qed.

Lemma llc_links_are_stop_and_wait_witness :
  let l := link 1001 (outbound demo_w3) in
  length l = 1 ∧ head_only l ∧ alternating (send_seq demo_w3 1001) l ∧ rtc link_step l (link 1001 (outbound demo_w4)).
Proof.
  destruct (llc_links_are_stop_and_wait 1521 demo_w3 demo_w4 1001 (proj1 demo_reachable) demo_step4)
    as (H1 & H2 & _ & _ & H3).
  split; [by vm_compute|]. split; [exact H1|]. split; [exact H2|exact H3].
Defined.

Lemma llc_callbacks_return_witness :
  ∃ w', rx_prim demo_msg demo_w0 = Ok tt w' ∧ ∀ h, settled demo_w0 h → settled w' h.
Proof. apply (llc_callbacks_return 1521 demo_w0 demo_msg (rtc_refl _ _) demo_prim_ok). Defined.

Lemma ack_matches_message_in_flight_witness :
  ∃ m w', demo_entry demo_w4 = Some m ∧ process_incoming_ack (issi 1001) 1521 0 demo_w4 = Ok tt w' ∧
    acknowledged demo_w4 w' m.
Proof.
  destruct (demo_entry demo_w4) as [m|] eqn:E; [|by vm_compute in E]. exists m.
  assert (acked_by (issi 1001) 1521 0 m ∧ receipt demo_w4 m = Some Transmitted) as [Ha Hr].
  { vm_compute in E. injection E as <-. split; [|by vm_compute]. repeat split; by eexists. }
  destruct (proj1 (ack_matches_message_in_flight 1521 demo_w4 (issi 1001) 1521 0 (proj2 demo_reachable)) m
    (demo_entry_elem _ _ E) Ha Hr) as (w' & H1 & H2).
  exists w'. split; [reflexivity|]. split; [exact H1|exact H2].
Defined.
