(* ===== verification/LlcLive.v ===== *)
(** Progress of the basic link: a message that is never acknowledged is given up
    within a bounded number of timeslots.

    A run is a sequence of timeslots; in each the clock moves on by one slot, the
    tick end runs, then the neighbours act as they like, but the UMAC finishes
    (transmits or discards) what it was handed before the next slot.  [wait] bounds
    the slots a queued message has left. *)
From S2P Require Import Prelude Bits Core BitBuffer BitBufferSpec BitCodec BitBufferThms TdmaTime.
From S2P Require Import FieldCodec TxReceipt MacDl LlcPdu Fcs Saps Llc LlcSpec LlcRx LlcLink.

(** * Age of a finished message *)

(** The age in slots, cut off at the retry timer. *)
Definition age16 (t td : TdmaTime) : nat :=
  match diff t td with Some a => Z.to_nat (Z.min T251_SENDER_RETRY_TIMER (wrap 32 a)) | None => 16 end.

Lemma age16_timed_out t m td : ea_t_umac_done m = Some td → timed_out t m = true ↔ age16 t td = 16.
Proof.
  intros Hd. unfold timed_out, age16. rewrite Hd. destruct (diff_total t td) as [a ->].
  rewrite Z.leb_le. pose proof (wrap_is_u 32 a ltac:(lia)) as Hwr; unfold is_u in Hwr. change T251_SENDER_RETRY_TIMER with 16%Z. lia.
Qed.

Lemma age16_le t td : age16 t td ≤ 16.
Proof.
  unfold age16. destruct (diff_total t td) as [a ->]. change T251_SENDER_RETRY_TIMER with 16%Z. lia.
Qed.

Lemma age16_refl t : valid_time t → age16 t t = 0.
Proof.
  intros Ht. unfold age16, diff. rewrite !to_int_slot_index by done. pose proof (slot_index_range t Ht).
  destruct (time_int_diff_spec (slot_index t) (slot_index t)) as (d & -> & Hd & Hm); [done..|].
  assert (d = 0)%Z as ->; [|done]. apply mod_centered_unique; [done|by vm_compute|]. rewrite Hm. f_equal. lia.
Qed.

(** The next slot is one slot later. *)
Lemma age16_next t td : valid_time t → valid_time td → age16 t td < 16 →
  age16 (add_timeslots t 1) td = S (age16 t td).
Proof.
  intros Ht Htd Hlt. assert (valid_time (add_timeslots t 1)) as Ht1 by apply from_int_valid.
  unfold age16, diff in *. rewrite !to_int_slot_index in * by done.
  pose proof (slot_index_range t Ht). pose proof (slot_index_range td Htd). pose proof (slot_index_range _ Ht1).
  destruct (time_int_diff_spec (slot_index t) (slot_index td)) as (d & Hd & Hr & Hm); [done..|].
  destruct (time_int_diff_spec (slot_index (add_timeslots t 1)) (slot_index td)) as (d' & Hd' & Hr' & Hm'); [done..|].
  rewrite Hd, Hd' in *. change T251_SENDER_RETRY_TIMER with 16%Z in *.
  pose proof (wrap_is_u 32 d ltac:(lia)) as Hwr; unfold is_u in Hwr.
  assert (0 ≤ d < 16)%Z as Hd16.
  { unfold wrap in *. change (TIME_INT_WRAP / 2)%Z with 141557760%Z in *.
    destruct (decide (0 ≤ d)%Z); [rewrite Z.mod_small in Hlt by lia; lia|].
    exfalso. rewrite <-(Z_mod_plus_full d 1), Z.mod_small in Hlt by lia. lia. }
  assert (d' = d + 1)%Z as ->.
  { apply mod_centered_unique; [done|change (TIME_INT_WRAP / 2)%Z with 141557760%Z in *; lia|].
    rewrite Hm', (add_timeslots_index t 1) by (done || (change TIME_INT_WRAP with 283115520%Z; lia)).
    rewrite Zminus_mod_idemp_l, <-(Zplus_mod_idemp_l d), Hm, Zplus_mod_idemp_l. f_equal. lia. }
  rewrite !wrap_small by (unfold is_u; lia). lia.
Qed.

(** * Slots left *)

(** For the head of a link. *)
Definition rank (t : TdmaTime) (m : ExpectedInAck) : nat :=
  if decide (in_flight m) then
    18 * (3 - Z.to_nat (ea_retransmit_count m)) +
    match ea_t_umac_done m with None => 18 | Some td => 17 - age16 t td end
  else 73.

(** For the message under receipt [h], behind others. *)
Definition wait (t : TdmaTime) (h : TxHandle) (l : list ExpectedInAck) (n : nat) : Prop :=
  ∃ i x m k, l = m :: k ∧ l !! i = Some x ∧ ea_tx_reporter x = h ∧ n = 74 * i + rank t m.

Lemma rank_le t m : rank t m ≤ 73.
Proof.
  unfold rank. case_decide; [|done]. case_match; lia.
Qed.

Lemma rank_idle t m : ¬ in_flight m → rank t m = 73.
Proof. intros. unfold rank. by rewrite decide_False. Qed.

(** Requests and acknowledgements never make a message wait longer. *)
Lemma wait_quiet t h l l' n : NoDup (ea_tx_reporter <$> l) → head_only l → wait t h l n → link_quiet l l' →
  h ∈ (ea_tx_reporter <$> l') → ∃ n', wait t h l' n' ∧ n' ≤ n.
Proof.
  intros Hnd Hho Hw Hq Hin. destruct Hq as [l|l m Hm|m l].
  - by exists n.
  - destruct Hw as (i & x & m0 & k & -> & Hx & Hh & ->). exists (74 * i + rank t m0). split; [|done].
    exists i, x, m0, (k ++ [m]). split_and!; try done. by apply lookup_app_l_Some.
  - destruct Hw as (i & x & m0 & k & [= <- <-] & Hx & Hh & ->). rewrite fmap_cons in Hnd.
    apply NoDup_cons in Hnd as [Hn _]. destruct i as [|i]; [cbn in Hx; by simplify_eq|]. cbn in Hx.
    destruct l as [|m' l]; [done|]. exists (74 * i + rank t m'). split; [by exists i, x, m', l|].
    unfold head_only in Hho. cbn in Hho. apply Forall_cons in Hho as [Hidle _]. rewrite rank_idle by done. lia.
Qed.

(** * One tick *)

(** The UMAC has finished with everything it was handed. *)
Definition finished (w : World) : Prop := ∀ m, m ∈ outbound w → in_flight m → receipt w m ≠ Some Pending.

(** No retry timer has expired. *)
Definition timers_run (w : World) : Prop := ∀ m, m ∈ outbound w → timed_out (llc_dltime (w_llc w)) m = false.

Lemma link_advances t tx s l l' : Forall2 (advances t tx) l l' → Forall2 (advances t tx) (link s l) (link s l').
Proof.
  induction 1 as [|m m' l l' (r & Hr & ->) _ IH]; [done|].
  assert (of_link s (next_entry t r m) ↔ of_link s m) as Ho.
  { unfold next_entry, note_done. by repeat case_match. }
  rewrite !link_cons. destruct (decide (of_link s m)), (decide (of_link s (next_entry t r m))); try tauto.
  constructor; [by exists r|done].
Qed.

(** A message that waits does not change. *)
Lemma next_entry_idle t tx r m : entry_ok tx m → tx !! ea_tx_reporter m = Some r → ¬ in_flight m → next_entry t r m = m.
Proof.
  intros Hok Hr Hn. destruct (eo_idle _ _ Hok Hn) as [_ Hd]. destruct (Hok) as [_ _ _ _ (r' & Hr' & _ & Ho & Hs)].
  assert (r' = r) as -> by congruence. destruct (entry_tx_state _ _ _ Hok Hr) as (_ & _ & Hst).
  assert (note_done t r m = m) as Hnd.
  { unfold note_done. rewrite Hst, bool_decide_false, andb_false_r; [done|]. by destruct (get_state r); naive_solver. }
  unfold next_entry. rewrite Hnd. unfold timed_out. by rewrite Hd.
Qed.

Lemma advances_idle t tx l l' : Forall (entry_ok tx) l → Forall (λ m, ¬ in_flight m) l → Forall2 (advances t tx) l l' →
  l' = l ∧ filter (λ m, ¬ gives_up t m) l = l.
Proof.
  intros Hok Hid H. assert (l' = l) as ->.
  { induction H as [|m m' l l' (r & Hr & ->) _ IH]; [done|]. apply Forall_cons in Hok as [? ?], Hid as [? ?].
    f_equal; [by eapply next_entry_idle|by apply IH]. }
  split; [done|]. apply filter_all. rewrite Forall_forall in Hok, Hid. intros m Hm [Ht _].
  apply (Hid m Hm). by eapply timed_out_in_flight; [apply Hok|].
Qed.

Lemma tick_link w act w' s m k : llc_inv w → tick_end w = Ok act w' → link s (outbound w) = m :: k →
  ∃ r, w_tx w !! ea_tx_reporter m = Some r ∧
    let t := llc_dltime (w_llc w) in
    link s (outbound w') = submit_head t (if decide (gives_up t (next_entry t r m)) then k else next_entry t r m :: k).
Proof.
  intros Hinv Heq Hl. destruct (tick_end_ok w Hinv) as (act' & w2 & Heq2 & _ & _ & (l' & Hadv & Hlk) & _).
  rewrite Heq in Heq2. injection Heq2 as -> ->. apply (link_advances _ _ s) in Hadv. specialize (Hlk s).
  rewrite Hl in Hadv. apply Forall2_cons_inv_l in Hadv as (m' & k' & (r & Hr & ->) & Hadv & El).
  exists r. split; [done|]. cbv zeta. rewrite Hlk, El.
  assert (Forall (entry_ok (w_tx w)) k) as Hk.
  { pose proof (li_entries _ Hinv) as He. rewrite Forall_forall in *. intros x Hx. apply He.
    assert (x ∈ link s (outbound w)) as Hin by (rewrite Hl; by right). by apply list_elem_of_filter in Hin as [_ ?]. }
  pose proof (li_head _ Hinv s) as Hho. rewrite Hl in Hho. unfold head_only in Hho. cbn [tail] in Hho.
  destruct (advances_idle _ _ _ _ Hk Hho Hadv) as [-> Hfk]. rewrite filter_cons, Hfk. f_equal.
  repeat case_decide; tauto.
Qed.

Lemma next_entry_timer t r m : ¬ gives_up t (next_entry t r m) → timed_out t (next_entry t r m) = false.
Proof.
  unfold gives_up, next_entry. set (m1 := note_done t r m). cbv zeta.
  destruct (timed_out t m1) eqn:E1, (may_retry m1) eqn:E2; cbn [andb]; rewrite ?E1, ?E2; naive_solver.
Qed.

Lemma link_elem s m l : m ∈ link s l ↔ of_link s m ∧ m ∈ l.
Proof. apply list_elem_of_filter. Qed.

(** The head of a link that is in flight. *)
Lemma in_flight_head w m : llc_inv w → m ∈ outbound w → in_flight m → ∃ k, link (ssi (ea_addr m)) (outbound w) = m :: k.
Proof.
  intros Hinv Hm Hf. apply list_elem_of_split in Hm as (l1 & l2 & Hl). pose proof (li_head _ Hinv (ssi (ea_addr m))) as Hh.
  rewrite Hl in *. destruct (in_flight_first _ _ _ _ Hh eq_refl Hf) as [_ ->]. by eexists.
Qed.

Lemma tick_end_nil w act w' s : llc_inv w → tick_end w = Ok act w' → link s (outbound w) = [] → link s (outbound w') = [].
Proof.
  intros Hinv Heq Hl. destruct (tick_end_ok w Hinv) as (act' & w2 & Heq2 & _ & _ & (l' & Hadv & Hlk) & _).
  rewrite Heq in Heq2. injection Heq2 as -> ->. apply (link_advances _ _ s) in Hadv. rewrite Hl in Hadv.
  apply Forall2_nil_inv_l in Hadv. by rewrite Hlk, Hadv.
Qed.

Lemma tick_end_facts w act w' : llc_inv w → tick_end w = Ok act w' →
  llc_inv w' ∧ llc_dltime (w_llc w') = llc_dltime (w_llc w).
Proof.
  intros Hinv Heq. destruct (tick_end_ok w Hinv) as (act' & w2 & Heq2 & [Hg _] & Ht & _).
  rewrite Heq in Heq2. by injection Heq2 as -> ->.
Qed.

(** After a tick end no retry timer is expired. *)
Lemma tick_timers w act w' : llc_inv w → tick_end w = Ok act w' → timers_run w'.
Proof.
  intros Hinv Heq m Hm. destruct (tick_end_facts w act w' Hinv Heq) as [Hinv' ->].
  destruct (decide (in_flight m)) as [Hf|Hf].
  2: { pose proof (li_entries _ Hinv') as He. rewrite Forall_forall in He.
       destruct (eo_idle _ _ (He m Hm) Hf) as [_ Hd]. unfold timed_out. by rewrite Hd. }
  destruct (in_flight_head w' m Hinv' Hm Hf) as [k' Hk']. set (s := ssi (ea_addr m)) in *.
  destruct (link s (outbound w)) as [|m0 k] eqn:El; [by rewrite (tick_end_nil w act w') in Hk'|].
  destruct (tick_link w act w' s m0 k Hinv Heq El) as (r & Hr & Hlk). cbv zeta in Hlk. rewrite Hlk in Hk'.
  set (t := llc_dltime (w_llc w)) in *. pose proof (li_head _ Hinv s) as Hho. rewrite El in Hho.
  case_decide as Hg.
  - destruct k as [|x k]; [done|]. apply Forall_cons in Hho as [Hx _]. cbn [submit_head] in Hk'.
    rewrite decide_False in Hk' by done. by injection Hk' as <- <-.
  - cbn [submit_head] in Hk'. case_decide; injection Hk' as <- <-; [by apply next_entry_timer|done].
Qed.

Lemma rank_submitted t t0 m : rank t (set_submitted t0 m) = 18 * (3 - Z.to_nat (ea_retransmit_count m)) + 18.
Proof. unfold rank. rewrite decide_True by (by eexists). done. Qed.

Lemma rank_flying t m : in_flight m → rank t m =
  18 * (3 - Z.to_nat (ea_retransmit_count m)) + match ea_t_umac_done m with None => 18 | Some td => 17 - age16 t td end.
Proof. intros. unfold rank. by rewrite decide_True. Qed.

(** One slot later the head of a link has fewer slots left. *)
Lemma head_progress tx t r m : entry_ok tx m → tx !! ea_tx_reporter m = Some r → valid_time t → timed_out t m = false →
  (in_flight m → get_state r ≠ Pending) →
  let t' := add_timeslots t 1 in let m' := next_entry t' r m in
  ¬ gives_up t' m' → in_flight m → in_flight m' ∧ rank t' m' < rank t m.
Proof.
  intros Hok Hr Ht Htime Hpend t' m' Hg Hf. specialize (Hpend Hf).
  assert (valid_time t') as Ht' by apply from_int_valid.
  destruct (entry_tx_state _ _ _ Hok Hr) as (_ & _ & Hst). rewrite bool_decide_true in Hst by done.
  pose proof (eo_count _ _ Hok) as Hc. unfold N252_BL_MAX_TLSDU_RETRANSMITS_ACKED in Hc.
  destruct (ea_t_umac_done m) as [td|] eqn:Ed.
  - assert (note_done t' r m = m) as Hnd by (unfold note_done; by rewrite Ed).
    unfold m', next_entry in *. rewrite Hnd in *. cbv zeta in *. pose proof (eo_done _ _ Hok td Ed) as Htd.
    assert (age16 t td < 16) as Hage.
    { pose proof (age16_le t td). pose proof (age16_timed_out t m td Ed) as [_ H2].
      destruct (decide (age16 t td = 16)) as [He|]; [by rewrite H2 in Htime|lia]. }
    pose proof (age16_next t td Ht Htd Hage) as Hn. fold t' in Hn.
    destruct (timed_out t' m) eqn:Et; cbn [andb] in *.
    + destruct (may_retry m) eqn:Em; [|by destruct Hg].
      split; [by eexists|]. unfold retried. rewrite rank_submitted, rank_flying, Ed by done.
      unfold may_retry, N252_BL_MAX_TLSDU_RETRANSMITS_ACKED in Em. apply Z.ltb_lt in Em.
      cbn [inc_retransmit_count ea_retransmit_count]. rewrite wrap_count by (unfold N252_BL_MAX_TLSDU_RETRANSMITS_ACKED; lia). lia.
    + split; [done|]. rewrite !rank_flying, Ed, Hn by done. lia.
  - assert (note_done t' r m = set_umac_done t' m) as Hnd by (unfold note_done; by rewrite Ed, Hst).
    assert (m' = set_umac_done t' m) as ->.
    { unfold m', next_entry. rewrite Hnd. cbv zeta. destruct (timed_out t' (set_umac_done t' m)) eqn:Et; [|done].
      apply (age16_timed_out _ _ t') in Et; [|done]. by rewrite age16_refl in Et. }
    split; [done|]. rewrite !rank_flying, Ed by done. cbn [set_umac_done ea_retransmit_count ea_t_umac_done].
    rewrite age16_refl by done. lia.
Qed.

Lemma tick_start_ok t w : valid_time t → llc_inv w → ∃ w', tick_start t w = Ok tt w' ∧ llc_inv w' ∧
  outbound w' = outbound w ∧ w_tx w' = w_tx w ∧ llc_dltime (w_llc w') = t.
Proof.
  intros Ht [? ? ? ? ? ? ?]. eexists. split; [reflexivity|]. by split.
Qed.

Lemma submit_head_idle t k : Forall (λ m, ¬ in_flight m) k → ea_tx_reporter <$> submit_head t k = ea_tx_reporter <$> k ∧
  (∀ t0 m k', submit_head t k = m :: k' → rank t0 m ≤ 72).
Proof.
  destruct k as [|x k]; [done|]. intros [Hx _]%Forall_cons. cbn [submit_head]. rewrite decide_False by done.
  split; [done|]. intros t0 m k' [= <- <-]. rewrite rank_submitted. lia.
Qed.

(** * One slot *)

(** The clock, the tick end, and the neighbours until the UMAC has finished. *)
Definition waits_through (s : Z) (h : TxHandle) (w w' : World) : Prop :=
  neighbour_step w w' ∧ h ∈ (ea_tx_reporter <$> link s (outbound w')).

Definition slot (s : Z) (h : TxHandle) (w w' : World) : Prop :=
  ∃ w1 act w2, tick_start (add_timeslots (llc_dltime (w_llc w)) 1) w = Ok tt w1 ∧ tick_end w1 = Ok act w2 ∧
    h ∈ (ea_tx_reporter <$> link s (outbound w2)) ∧ rtc (waits_through s h) w2 w' ∧ finished w'.

Lemma wait_elem t h l n : wait t h l n → h ∈ (ea_tx_reporter <$> l).
Proof.
  intros (i & x & m & k & -> & Hx & <- & _). apply list_elem_of_fmap_2. by eapply list_elem_of_lookup_2.
Qed.

Lemma elem_wait t h l : h ∈ (ea_tx_reporter <$> l) → ∃ n, wait t h l n ∧ n < 74 * length l.
Proof.
  intros (x & -> & Hx)%list_elem_of_fmap. apply list_elem_of_lookup in Hx as [i Hi]. destruct l as [|m k]; [done|].
  exists (74 * i + rank t m). split; [by exists i, x, m, k|]. apply lookup_lt_Some in Hi. pose proof (rank_le t m). lia.
Qed.

Lemma link_handles_NoDup w s : llc_inv w → NoDup (ea_tx_reporter <$> link s (outbound w)).
Proof. intros Hinv. eapply NoDup_fmap_sublist; [apply sublist_filter|apply Hinv]. Qed.

Lemma next_entry_handle t r m : ea_tx_reporter (next_entry t r m) = ea_tx_reporter m.
Proof. unfold next_entry, note_done. by repeat case_match. Qed.

Lemma link_entry_ok w s m : llc_inv w → m ∈ link s (outbound w) → m ∈ outbound w ∧ entry_ok (w_tx w) m.
Proof.
  intros Hinv [_ Hm]%link_elem. pose proof (li_entries _ Hinv) as He. rewrite Forall_forall in He. auto.
Qed.

(** The given-up head makes room. *)
Lemma wait_given_up t t0 t1 h m k n : Forall (λ m, ¬ in_flight m) k → NoDup (ea_tx_reporter <$> m :: k) →
  h ∈ (ea_tx_reporter <$> submit_head t k) → wait t0 h (m :: k) n → ∃ n', wait t1 h (submit_head t k) n' ∧ n' < n.
Proof.
  intros Hid Hnd Hin (i & x & m0 & k0 & [= <- <-] & Hx & Hh & ->).
  destruct (submit_head_idle t k Hid) as [Hhs Hrk]. rewrite Hhs in Hin. rewrite fmap_cons in Hnd.
  apply NoDup_cons in Hnd as [Hn _]. destruct i as [|i]; [cbn in Hx; by simplify_eq|]. change (k !! i = Some x) in Hx.
  assert ((ea_tx_reporter <$> submit_head t k) !! i = Some h) as Hi by (rewrite Hhs, list_lookup_fmap, Hx; cbn; by subst).
  rewrite list_lookup_fmap in Hi. apply fmap_Some in Hi as (x' & Hx' & ->).
  destruct (submit_head t k) as [|m' k'] eqn:Ek; [done|]. exists (74 * i + rank t1 m'). split; [by exists i, x', m', k'|].
  specialize (Hrk t1 m' k' eq_refl). lia.
Qed.

(** One slot later the message has fewer slots left. *)
Lemma tick_wait w w1 act w2 s h n : let t := llc_dltime (w_llc w) in let t' := add_timeslots t 1 in
  llc_inv w → finished w → timers_run w → tick_start t' w = Ok tt w1 → tick_end w1 = Ok act w2 →
  wait t h (link s (outbound w)) n → h ∈ (ea_tx_reporter <$> link s (outbound w2)) →
  ∃ n', wait t' h (link s (outbound w2)) n' ∧ n' < n.
Proof.
  intros t t' Hinv Hfin Htim Hts Hte Hw Hin. assert (valid_time t) as Ht by apply Hinv.
  destruct (tick_start_ok t' w (from_int_valid _) Hinv) as (w1' & Hts' & Hinv1 & Hout & Htx & Hdl).
  rewrite Hts in Hts'. injection Hts' as <-. destruct (Hw) as (i & x & m & k & Hl & Hx & Hh & Hn).
  destruct (tick_link w1 act w2 s m k Hinv1 Hte) as (r & Hr & Hlk); [by rewrite Hout|]. cbv zeta in Hlk.
  rewrite Hdl in Hlk. rewrite Hlk in *. rewrite Htx in Hr. pose proof (li_head _ Hinv s) as Hho. rewrite Hl in *.
  unfold head_only in Hho. cbn [tail] in Hho. case_decide as Hg.
  { eapply wait_given_up; [done| |done|exact Hw]. rewrite <-Hl. by apply link_handles_NoDup. }
  destruct (link_entry_ok w s m Hinv) as [Hm Hok]; [rewrite Hl; by left|].
  assert (∀ m', ea_tx_reporter m' = ea_tx_reporter m → rank t' m' < rank t m →
    ∃ n', wait t' h (m' :: k) n' ∧ n' < n) as Hstep.
  { intros m' Hh' Hlt. exists (74 * i + rank t' m'). split; [|lia].
    destruct i as [|i]; [exists 0, m', m', k; cbn in Hx; naive_solver|by exists (S i), x, m', k]. }
  destruct (decide (in_flight m)) as [Hf|Hf].
  - destruct (head_progress (w_tx w) t r m) as [Hf' Hlt]; [done..| | |done|done|].
    { by apply Htim. } { intros _ Hp. apply (Hfin m Hm Hf). unfold receipt. by rewrite Hr, <-Hp. }
    cbn [submit_head]. fold t'. rewrite decide_True by done. apply Hstep; [apply next_entry_handle|done].
  - assert (next_entry t' r m = m) as -> by (by eapply next_entry_idle).
    cbn [submit_head]. rewrite decide_False by done. apply Hstep; [done|].
    rewrite rank_submitted, rank_idle by done. destruct (eo_idle _ _ Hok Hf) as [-> _]. change (Z.to_nat 0) with 0. lia.
Qed.

Lemma link_quiet_elem l l' m : link_quiet l l' → m ∈ l' → m ∈ l ∨ ¬ in_flight m.
Proof. intros [k|k x Hx|x k]; set_solver. Qed.

Lemma neighbours_wait s h w w' t n : rtc (waits_through s h) w w' → llc_inv w → timers_run w →
  t = llc_dltime (w_llc w) → wait t h (link s (outbound w)) n →
  llc_inv w' ∧ timers_run w' ∧ llc_dltime (w_llc w') = t ∧ ∃ n', wait t h (link s (outbound w')) n' ∧ n' ≤ n.
Proof.
  intros H. revert n. induction H as [w|w w1 w2 [Hst Hin] _ IH]; intros n Hinv Htim -> Hw; [split_and!; [done..|by exists n]|].
  destruct (neighbour_step_ok w w1 Hinv Hst) as (Hinv1 & [Hdl Hq] & _).
  destruct (wait_quiet _ h _ _ n (link_handles_NoDup w s Hinv) (li_head _ Hinv s) Hw (Hq s) Hin) as (n1 & Hw1 & Hle).
  destruct (IH n1) as (? & ? & ? & n2 & ? & ?); [done| |done|done|].
  - intros m Hm. rewrite Hdl. destruct (link_quiet_elem _ _ m (Hq (ssi (ea_addr m)))) as [Hold|Hidle].
    + by apply link_elem.
    + apply Htim. by apply link_elem in Hold as [_ ?].
    + pose proof (li_entries _ Hinv1) as He. rewrite Forall_forall in He.
      destruct (eo_idle _ _ (He m Hm) Hidle) as [_ Hd]. unfold timed_out. by rewrite Hd.
  - split_and!; [done..|]. exists n2. split; [done|lia].
Qed.

(** A slot keeps what the next one needs. *)
Lemma slot_wait s h w w' n : llc_inv w → finished w → timers_run w → wait (llc_dltime (w_llc w)) h (link s (outbound w)) n →
  slot s h w w' → llc_inv w' ∧ finished w' ∧ timers_run w' ∧
  ∃ n', wait (llc_dltime (w_llc w')) h (link s (outbound w')) n' ∧ n' < n.
Proof.
  intros Hinv Hfin Htim Hw (w1 & act & w2 & Hts & Hte & Hin & Hnb & Hfin').
  destruct (tick_start_ok (add_timeslots (llc_dltime (w_llc w)) 1) w (from_int_valid _) Hinv) as (w1' & Hts' & Hinv1 & _ & _ & Hdl).
  rewrite Hts in Hts'. injection Hts' as <-.
  destruct (tick_end_facts w1 act w2 Hinv1 Hte) as [Hinv2 Hdl2].
  destruct (tick_wait w w1 act w2 s h n Hinv Hfin Htim Hts Hte Hw Hin) as (n1 & Hw1 & Hlt).
  destruct (neighbours_wait s h w2 w' (add_timeslots (llc_dltime (w_llc w)) 1) n1 Hnb Hinv2 (tick_timers _ _ _ Hinv1 Hte)) as (? & ? & E & n2 & ? & ?).
  { symmetry. rewrite Hdl2. exact Hdl. } { exact Hw1. }
  split_and!; [done..|]. exists n2. rewrite E. split; [done|lia].
Qed.

Lemma tick_length w act w' s : llc_inv w → tick_end w = Ok act w' →
  length (link s (outbound w')) ≤ length (link s (outbound w)).
Proof.
  intros Hinv Heq. destruct (link s (outbound w)) as [|m k] eqn:El; [by rewrite (tick_end_nil w act w')|].
  destruct (tick_link w act w' s m k Hinv Heq El) as (r & _ & ->). case_decide; [|done].
  destruct k; cbn; lia.
Qed.

Lemma slots_bounded s h n w w' x : llc_inv w → finished w → timers_run w →
  wait (llc_dltime (w_llc w)) h (link s (outbound w)) x → nsteps (slot s h) n w w' → n ≤ x.
Proof.
  intros Hinv Hfin Htim Hw Hn. revert x Hinv Hfin Htim Hw. induction Hn as [w|n w w1 w2 Hsl _ IH]; intros x Hinv Hfin Htim Hw; [lia|].
  destruct (slot_wait s h w w1 x Hinv Hfin Htim Hw Hsl) as (? & ? & ? & x' & ? & ?).
  specialize (IH x'). pose proof (IH ltac:(done) ltac:(done) ltac:(done) ltac:(done)). lia.
Qed.

(** C29: no message stays in its queue forever.  Take any reachable state in which
    [L] messages are queued for a subscriber, and any run of timeslots (clock and
    tick end, then requests, received PDUs and reports in any order) in which the
    UMAC transmits or discards what it was handed before the next slot.  A message
    that is queued throughout such a run, so never acknowledged and never given
    up, sees at most [74 * L] slots: after that every message of the queue has
    left it. *)
Theorem no_message_waits_forever c s h n w w' : rtc llc_step (llc_start c) w → nsteps (slot s h) n w w' →
  n ≤ 74 * length (link s (outbound w)).
Proof.
  intros Hinv%llc_reachable_inv Hn. destruct Hn as [|n w w1 w' (wa & act & wb & Hts & Hte & Hin & Hnb & Hfin) Hn]; [lia|].
  destruct (tick_start_ok (add_timeslots (llc_dltime (w_llc w)) 1) w (from_int_valid _) Hinv) as (wa' & Hts' & Hinva & Hout & _ & Hdl).
  rewrite Hts in Hts'. injection Hts' as <-.
  destruct (tick_end_facts wa act wb Hinva Hte) as [Hinvb Hdlb].
  destruct (elem_wait (llc_dltime (w_llc wb)) h _ Hin) as (x & Hx & Hlt).
  pose proof (tick_length wa act wb s Hinva Hte) as Hlen. rewrite Hout in Hlen.
  destruct (neighbours_wait s h wb w1 _ x Hnb Hinvb (tick_timers _ _ _ Hinva Hte) eq_refl Hx) as (Hi & Htr & Ht & y & Hy & Hle).
  rewrite <-Ht in Hy. pose proof (slots_bounded s h n w1 w' y Hi Hfin Htr Hy Hn). lia.
Qed.

Definition demo_w3' : World := world_of (tick_start (add_timeslots (llc_dltime (w_llc demo_w3)) 1) demo_w3).
Definition demo_w4' : World := world_of (tick_end demo_w3').

Lemma no_message_waits_forever_witness :
  nsteps (slot 1001 0) 1 demo_w3 demo_w4' ∧ 1 ≤ 74 * length (link 1001 (outbound demo_w3)).
Proof.
  assert (nsteps (slot 1001 0) 1 demo_w3 demo_w4') as H.
  { apply nsteps_once. exists demo_w3', false, demo_w4'. split; [by vm_compute|]. split; [by vm_compute|].
    split; [|split; [apply rtc_refl|]].
    - apply (bool_decide_eq_true_1 (0 ∈ _)). by vm_compute.
    - assert (forallb (λ m, bool_decide (receipt demo_w4' m ≠ Some Pending)) (outbound demo_w4') = true) as Hall by (by vm_compute).
      intros m Hm _. rewrite forallb_forall in Hall. apply list_elem_of_In in Hm.
      exact (bool_decide_eq_true_1 _ (Hall m Hm)). }
  split; [exact H|]. apply (no_message_waits_forever 1521 1001 0 1 demo_w3 demo_w4' (proj1 demo_reachable) H).
Defined.
