(* ===== verification/LlcExchange.v ===== *)
(** Two LLC entities, one at each end of a basic link.

    The layers between them carry bits: a PDU handed to one UMAC arrives at the
    other LLC as an indication with the same bits.  An acknowledged SDU reaches
    the peer's MLE unchanged, the peer schedules the acknowledgement of its N(S),
    and that acknowledgement completes the message at the sender. *)
From S2P Require Import Prelude Bits Core BitBuffer BitBufferSpec BitCodec BitBufferThms TdmaTime.
From S2P Require Import FieldCodec TxReceipt MacDl LlcPdu Fcs Saps Llc LlcSpec LlcRx LlcLink.

(** The indication [ind] carries [bits] to the peer. *)
Definition carries (ind : TmaUnitdataInd) (bits : list bool) : Prop :=
  ∃ pdu, tmai_pdu ind = Some pdu ∧ wf pdu ∧ remaining pdu = bits.

Lemma data_header_facts nr ns : bl_has_fcs (data_header false nr ns) = false ∧
  bl_ns (data_header false nr ns) = Some ns ∧ bl_type (data_header false nr ns) ∈ [LtBlData; LtBlAdata].
Proof. destruct nr; cbn; set_solver. Qed.

(** An SDU requested with the acknowledged service reaches the peer's MLE
    unchanged.  The request appends one entry to the queue, with the next N(S)
    of the subscriber and a PDU made of a BL-DATA (or BL-ADATA) header and the
    SDU's remaining bits.  Any LLC that receives those bits hands up exactly
    one TL-DATA indication whose SDU is the same bits, and schedules exactly one
    acknowledgement, of that N(S), to the sender. *)
Lemma sdu_reaches_peer ca wa prim : rtc llc_step (llc_start ca) wa →
  request_ok wa (tldr_tl_sdu prim) (tldr_tx_reporter prim) → unacked prim = false → tldr_fcs_flag prim = false →
  ∃ wa' m pdu, rx_tla_tldata_req_bl prim wa = Ok tt wa' ∧ outbound wa' = outbound wa ++ [m] ∧
    ea_ns m = send_seq wa (ssi (tldr_main_address prim)) ∧
    ea_retransmission_buf m = tma_req_of prim (ea_carrier_num m) 0 pdu (Some (ea_tx_reporter m)) ∧
    ∀ cb wb ind, rtc llc_step (llc_start cb) wb → carries ind (remaining pdu) →
      no_discarded wb (tmai_main_address ind) → remaining (tldr_tl_sdu prim) ≠ [] →
      ∃ wb' sdu a, rx_tma_unitdata_ind ind wb = Ok tt wb' ∧
        w_queue wb' = w_queue wb ++ [tl_data_ind ind (tmai_link_id ind) (Some sdu) false] ∧
        wf sdu ∧ window sdu = remaining (tldr_tl_sdu prim) ∧
        llc_scheduled_out_acks (w_llc wb') = llc_scheduled_out_acks (w_llc wb) ++ [a] ∧
        sa_nr a = ea_ns m ∧ sa_addr a = tmai_main_address ind ∧ sa_carrier_num a = tmai_carrier_num ind.
Proof.
  intros Hra%llc_reachable_inv Hreq Hu Hfcs.
  destruct (rx_tldata_ok prim wa Hra Hreq) as (wa' & Heq & _ & _ & Hm). rewrite Hu in Hm.
  destruct Hm as (m & _ & Hout & Haddr & Hns & Hcar & _ & _ & pdu & nr & Hbuf & Hpdu & Hnr).
  exists wa', m, pdu. split_and!; [done..|]. intros cb wb ind Hrb%llc_reachable_inv (rp & Hrp & Hwf & Hrem) Hnd Hne.
  rewrite (proj1 (pdu_holds_facts _ _ Hpdu)), Hfcs in Hrem. destruct (data_header_facts nr (ea_ns m)) as (Hf & Hn & Hty).
  destruct (rx_unitdata_header ind rp wb (data_header false nr (ea_ns m)) (remaining (tldr_tl_sdu prim)))
    as (pdu' & Hwf' & Hrem' & ->); [done|done| |done|].
  { apply data_header_valid; [done|]. rewrite Hns. apply (li_seq _ Hra). }
  rewrite Hn, Hf. cbn [andb]. destruct (rx_bl_accepted_ok ind (bl_type (data_header false nr (ea_ns m))) pdu' false (Some (ea_ns m))
    (bl_nr (data_header false nr (ea_ns m))) wb) as (wb' & Heq' & _ & _ & Hq & Hacks); [done|done| |done|].
  { intros n [= <-]. rewrite Hns. apply (li_seq _ Hra). }
  destruct (trimmed_remaining pdu' Hwf') as (_ & _ & Hrt & Hwt).
  exists wb', (trimmed pdu'). eexists. split; [done|]. split.
  { rewrite Hq. f_equal. assert ((0 <? get_len_remaining pdu') = true) as Hlen.
    { apply Nat.ltb_lt. rewrite <-length_remaining, Hrem' by done. destruct (remaining (tldr_tl_sdu prim)); [done|cbn; lia]. }
    unfold delivered. rewrite Hlen. apply list_elem_of_In in Hty. by destruct Hty as [<-|[<-|[]]]. }
  split; [done|]. split; [by rewrite Hrt, Hrem'|]. split; [exact Hacks|]. done.
Qed.

(** C30: a scheduled acknowledgement completes the message it belongs to.  The
    next tick end of the receiver sends every scheduled acknowledgement as a
    BL-ACK.  When the sender, whose UMAC has transmitted the message, receives
    those bits from the same subscriber and carrier, the message with that N(S)
    leaves the head of its queue, its receipt says acknowledged, nothing is
    handed up and no other queue or receipt changes. *)
Theorem acknowledgement_reaches_sender cb wb a : rtc llc_step (llc_start cb) wb →
  a ∈ llc_scheduled_out_acks (w_llc wb) →
  ∃ act wb' msg req, tick_end wb = Ok act wb' ∧ msg ∈ w_queue wb' ∧ sm_msg msg = SmTmaUnitdataReq req ∧
    tmar_main_address req = sa_addr a ∧
    ∀ ca wa m ind, rtc llc_step (llc_start ca) wa → m ∈ outbound wa → is_Some (ea_t_umac_done m) →
      receipt wa m = Some Transmitted → ea_ns m = sa_nr a → carries ind (remaining (tmar_pdu req)) →
      ssi (tmai_main_address ind) = ssi (ea_addr m) → tmai_carrier_num ind = ea_carrier_num m →
      ∃ wa', rx_tma_unitdata_ind ind wa = Ok tt wa' ∧ acknowledged wa wa' m.
Proof.
  intros Hrb%llc_reachable_inv Ha. destruct (tick_end_ok wb Hrb) as (act & wb' & Heq & _ & _ & _ & Hacks).
  destruct (Hacks a Ha) as (msg & Hreply & Hin). pose proof (li_acks _ Hrb) as Hu. rewrite Forall_forall in Hu.
  specialize (Hu a Ha). unfold ack_reply in Hreply. destruct (bl_ack_build 5 _ Hu) as (pdu & Hb & Hpdu).
  rewrite Hb in Hreply. cbn [mbind option_bind] in Hreply. injection Hreply as <-.
  eexists act, wb', _, _. split; [done|]. split; [exact Hin|]. split; [reflexivity|]. split; [done|]. cbn [tmar_pdu].
  intros ca wa m ind Hra%llc_reachable_inv Hm Hd Htx Hns (rp & Hrp & Hwf & Hrem) Hssi Hcar.
  rewrite (proj1 (pdu_holds_facts _ _ Hpdu)) in Hrem.
  destruct (rx_unitdata_header ind rp wa (HAck (mkBlAck false (sa_nr a))) []) as (pdu' & Hwf' & Hrem' & ->); [done|done| | |].
  { split; [done|]. by intros n [= <-]. } { by rewrite app_nil_r. }
  cbn [bl_has_fcs bl_seqs back_has_fcs andb fst]. rewrite rx_bl_accepted_spec by done. cbn [bl_ns bl_nr bl_seqs with_ack take_ack fst snd bl_type back_has_fcs].
  destruct (ack_found wa (tmai_main_address ind) (tmai_carrier_num ind) (sa_nr a) m Hra Hm) as [(_ & wa' & Hack & _ & Hres)|[? _]].
  { pose proof (li_entries _ Hra) as He. rewrite Forall_forall in He. repeat split; try done.
    by eapply expired_in_flight; [apply He|]. }
  2: { congruence. }
  exists wa'. cbn [back_nr]. erewrite bind_ok by exact Hack. unfold hand_up, delivered.
  assert (get_len_remaining pdu' = 0) as -> by (by rewrite <-length_remaining, Hrem' by done).
  cbn [Nat.eqb]. by rewrite after_same.
Qed.

(** A PDU whose header announces a frame check sequence is used only if the
    sequence is right.  With a wrong (or too short) FCS nothing happens at all:
    no acknowledgement is scheduled or processed and nothing is handed up.  With
    a right one the bits after the header are handed up, and these end with the
    32 bits of the FCS itself, which the handler does not remove. *)
Theorem fcs_gates_reception c w ind h body : rtc llc_step (llc_start c) w → bl_valid h → bl_has_fcs h = true →
  carries ind (fields_bits (bl_fields h) ++ body) →
  (fcs_right body = false → rx_tma_unitdata_ind ind w = Ok tt w) ∧
  (fcs_right body = true → no_discarded w (tmai_main_address ind) →
   ∃ w' pdu, rx_tma_unitdata_ind ind w = Ok tt w' ∧ wf pdu ∧ remaining pdu = body ∧
     w_queue w' = w_queue w ++ delivered ind (bl_type h) pdu true).
Proof.
  intros Hr%llc_reachable_inv Hv Hf (pdu & Hp & Hwf & Hrem).
  destruct (rx_unitdata_header ind pdu w h body Hp Hwf Hv Hrem) as (pdu' & Hwf' & Hrem' & ->). rewrite Hf.
  split; [by intros ->|]. intros -> Hnd. cbn [andb negb].
  destruct (rx_bl_accepted_ok ind (bl_type h) pdu' true (bl_ns h) (bl_nr h) w Hr Hwf') as (w' & ? & _ & _ & ? & _);
    [|done|by exists w', pdu'].
  unfold bl_valid in Hv. unfold bl_ns. by destruct (bl_seqs h) as [[? ?] ?], Hv.
Qed.

(** The PDU of the concrete run at a peer. *)
Definition demo_ind : TmaUnitdataInd :=
  mkTmaInd 1521 (Some (mkBitBuffer [21; 42; 208]%Z 0 0 21 false)) (issi 1001) 0 0 0 None None 0 false None None.
Definition demo_peer : World := world_of (rx_prim (mkSapMsg TmaSap Umac Llc_ (SmTmaUnitdataInd demo_ind)) (llc_start 1521)).
Definition demo_ack : ScheduledOutAck := mkScheduledOutAck (issi 1001) (mkTime 3 18 60 65535) 0 1521 3.

Lemma demo_ind_wf : wf (mkBitBuffer [21; 42; 208]%Z 0 0 21 false).
Proof. split; cbn; [|lia|lia|lia|by vm_compute]. repeat constructor; unfold is_u; lia. Qed.

Lemma demo_no_discarded c a : no_discarded (llc_start c) a.
Proof. intros m Hm. by apply not_elem_of_nil in Hm. Qed.

Lemma demo_peer_reachable : rtc llc_step (llc_start 1521) demo_peer.
Proof.
  apply rtc_once, st_neighbour, (st_rx (mkSapMsg TmaSap Umac Llc_ (SmTmaUnitdataInd demo_ind))); [|by vm_compute].
  split; [|apply demo_no_discarded]. intros pdu [= <-]. exact demo_ind_wf.
Qed.

Lemma acknowledgement_reaches_sender_witness : demo_ack ∈ llc_scheduled_out_acks (w_llc demo_peer) ∧
  ∃ act wb' msg req, tick_end demo_peer = Ok act wb' ∧ msg ∈ w_queue wb' ∧ sm_msg msg = SmTmaUnitdataReq req ∧
    tmar_main_address req = issi 1001.
Proof.
  assert (demo_ack ∈ llc_scheduled_out_acks (w_llc demo_peer)) as Ha by (apply list_elem_of_In; vm_compute; by left).
  split; [exact Ha|].
  destruct (acknowledgement_reaches_sender 1521 demo_peer demo_ack demo_peer_reachable Ha)
    as (act & wb' & msg & req & H1 & H2 & H3 & H4 & _).
  exists act, wb', msg, req. split; [exact H1|]. split; [exact H2|]. split; [exact H3|exact H4].
Defined.

(** The test vector of the FCS, as received: 256 bits after the 5 of its header. *)
Definition demo_fcs_ind : TmaUnitdataInd :=
  mkTmaInd 1521 (Some (mkBitBuffer fcs_test_bytes 0 0 261 false)) (issi 1001) 0 0 0 None None 0 false None None.

Definition demo_fcs_header : bl_header := HData (mkBlData true 0).

Lemma demo_fcs_wf : wf (mkBitBuffer fcs_test_bytes 0 0 261 false).
Proof. split; cbn; [|lia|lia|lia|by vm_compute]. repeat constructor; unfold is_u; lia. Qed.

Lemma fcs_gates_reception_witness : ∃ w' pdu, rx_tma_unitdata_ind demo_fcs_ind (llc_start 1521) = Ok tt w' ∧
  length (remaining pdu) = 256 ∧ w_queue w' = delivered demo_fcs_ind LtBlDataFcs pdu true.
Proof.
  set (body := drop 5 (remaining (mkBitBuffer fcs_test_bytes 0 0 261 false))).
  assert (bl_valid demo_fcs_header) as Hv.
  { split; [|done]. intros n Hn. injection Hn as <-. unfold is_u. lia. }
  assert (carries demo_fcs_ind (fields_bits (bl_fields demo_fcs_header) ++ body)) as Hc.
  { eexists. split; [reflexivity|]. split; [exact demo_fcs_wf|by vm_compute]. }
  assert (fcs_right body = true) as Hf by (by vm_compute).
  destruct (proj2 (fcs_gates_reception 1521 (llc_start 1521) demo_fcs_ind demo_fcs_header body (rtc_refl _ _) Hv eq_refl Hc)
    Hf (demo_no_discarded _ _)) as (w' & pdu & H1 & _ & H2 & H3).
  exists w', pdu. split; [exact H1|]. split; [by rewrite H2|exact H3].
Defined.
