(* ===== verification/MleSpec.v ===== *)
(** What the MLE does: SDUs of MM and CMCE get their discriminator, received
    SDUs reach the entity of theirs together with the LLC below, and the cell
    broadcasts what its accepted configuration says. *)
From S2P Require Import Prelude Bits Core BitBuffer BitBufferSpec BitCodec BitBufferThms FieldCodec TypedFieldsSpec PduCodec TdmaTime.
From S2P Require Import TxReceipt MacDl MacBcast MlePdus Saps MleBs LlcPdu Fcs Llc LlcSpec LlcRx LlcLink LlcExchange.

(** * TL-SDUs *)

Abbreviation disc_raw := mle_protocol_discriminator_into_raw.

Definition tl_sdu_bits (d : MleProtocolDiscriminator) (payload : list bool) : list bool :=
  bits_of_Z 3 (disc_raw d) ++ payload.

Lemma mle_tl_sdu_ok d src len : wf src → len ≤ get_len_remaining src → fits (3 + len) →
  ∃ pdu, mle_tl_sdu d src len = Some pdu ∧ holds pdu (tl_sdu_bits d (take len (remaining src))).
Proof.
  intros Hsrc Hlen Hf. assert (writes (write_bits (disc_raw d) 3;; _ ← copy_bits src len; mret tt)
    (tl_sdu_bits d (take len (remaining src)))) as Hw.
  { eapply writes_bind; [apply writes_bits; [lia|by destruct d]|]. intros bb Hwf Hcan.
    assert (length (take len (remaining src)) = len) as Hl by (rewrite length_take, length_remaining by done; lia).
    rewrite Hl in Hcan. destruct (copy_bits_spec src bb len Hsrc Hlen Hwf Hcan) as (bb' & Heq & ? & ?).
    exists bb'. by erewrite bind_ok by exact Heq. }
  assert (length (tl_sdu_bits d (take len (remaining src))) = 3 + len) as Hl.
  { unfold tl_sdu_bits. rewrite length_app, length_bits_of_Z, length_take, length_remaining by done. lia. }
  destruct (Hw (new (3 + len))) as (bb & Heq & Hwf & Habs); [by apply wf_new| |].
  { rewrite Hl. split; [left; simpl; lia|]. pose proof (div_ceil_8 (3 + len)). unfold fits in Hf. simpl. lia. }
  rewrite <- Hl in Habs. exists (set_pos (bb_start bb) bb). split; [|by apply holds_rewind].
  unfold mle_tl_sdu, build. apply bind_ok_inv in Heq as ([] & s1 & H1 & H2). apply bind_ok_inv in H2 as (src' & s2 & H2 & H3).
  injection H3 as ->. erewrite bind_ok by exact H1. erewrite bind_ok by exact H2.
  pose proof (seek_pos bb (bb_start bb) Hwf) as Hs. rewrite Nat.sub_diag in Hs. pose proof (wf_start _ Hwf). pose proof (wf_pos _ Hwf).
  by rewrite Hs by lia.
Qed.

(** A request whose SDU was read or written to beyond its start panics: the
    length is that of the whole window, the copy starts at the cursor. *)
Lemma copy_bits_panics src bb len : wf src → get_len_remaining src < len ≤ 64 → copy_bits src len bb = Panic.
Proof.
  intros Hsrc Hlen. unfold copy_bits. destruct len as [|len]; [lia|]. cbn [copy_bits_loop Nat.eqb].
  rewrite Nat.min_l by lia. rewrite (proj2 (Nat.leb_gt _ _)) by lia. done.
Qed.

(** * Received SDUs *)

(** The SDU after MLE has read the discriminator. *)
Definition after_disc (sdu : BitBuffer) : BitBuffer := set_pos (bb_start sdu + 3) sdu.

Lemma after_disc_ok sdu : wf sdu → 3 ≤ get_len sdu → wf (after_disc sdu) ∧ remaining (after_disc sdu) = drop 3 (window sdu) ∧
  window (after_disc sdu) = window sdu.
Proof.
  intros Hwf Hl. pose proof (wf_pos _ Hwf). pose proof (wf_start _ Hwf). unfold get_len in Hl. split_and!.
  - apply wf_set_pos; [done|lia].
  - unfold after_disc, remaining, window, a_remaining, a_window, abs. cbn. by rewrite drop_drop.
  - done.
Qed.

Lemma rx_tla_data_ind_spec message prim sdu : sm_msg message = SmTlaTlDataIndBl prim → tldi_tl_sdu prim = Some sdu → wf sdu →
  rx_tla_data_ind_bl message =
    if decide (3 ≤ get_len sdu) then
      match mle_protocol_discriminator_try_from (Z_of_bits (take 3 (window sdu))) with
      | Some d => dispatch_tl_sdu message (without_tl_sdu prim) d (after_disc sdu)
      | None => Some []
      end
    else Some [].
Proof.
  intros Hm Hs Hwf. unfold rx_tla_data_ind_bl. rewrite Hm, Hs. pose proof (wf_start _ Hwf). pose proof (wf_pos _ Hwf).
  assert ((if negb (get_pos sdu =? 0) then snd <$> exec (seek 0) sdu else Some sdu) = Some (set_pos (bb_start sdu) sdu)) as ->.
  { destruct (Nat.eqb_spec (get_pos sdu) 0) as [E|E]; cbn [negb].
    - unfold get_pos in E. replace (bb_start sdu) with (bb_pos sdu) by lia. by destruct sdu.
    - unfold exec. pose proof (seek_pos sdu (bb_start sdu) Hwf) as Hk. rewrite Nat.sub_diag in Hk. by rewrite Hk by lia. }
  cbn [mbind option_bind]. set (s0 := set_pos (bb_start sdu) sdu).
  assert (wf s0) as Hwf0 by (apply wf_set_pos; [done|lia]).
  assert (remaining s0 = window sdu) as Hrem by done.
  assert (get_len_remaining s0 = get_len sdu) as Hlr by done.
  unfold exec. rewrite read_bits_spec by done. rewrite Hlr, Hrem. repeat case_decide; try lia; [|done].
  cbn. replace (advance 3 s0) with (after_disc sdu) by done. done.
Qed.

(** [m] hands the SDU [payload], from [addr], to the entity of the discriminator. *)
Definition hands_to (m : SapMsg) (d : MleProtocolDiscriminator) (addr : TetraAddress) (endpoint link : Z)
    (payload : list bool) : Prop :=
  ∃ sdu, wf sdu ∧ remaining sdu = payload ∧
  match d with
  | MleProtocolDiscriminator_Mm => m = mkSapMsg LmmSap Mle Mm (SmLmmMleUnitdataInd (mkLmmInd sdu 0 addr))
  | MleProtocolDiscriminator_Cmce =>
      m = mkSapMsg LcmcSap Mle Cmce (SmLcmcMleUnitdataInd (mkLcmcInd sdu 0 endpoint link addr false None))
  | MleProtocolDiscriminator_Sndcp =>
      m = mkSapMsg TlpdSap Mle Sndcp (SmLtpdMleUnitdataInd (mkLtpdInd sdu endpoint link addr false None))
  | _ => False
  end.

Definition is_l3 (d : MleProtocolDiscriminator) : bool :=
  match d with
  | MleProtocolDiscriminator_Mm | MleProtocolDiscriminator_Cmce | MleProtocolDiscriminator_Sndcp => true
  | _ => false
  end.

Lemma mle_dispatches ind link sdu fcs d payload : wf sdu → window sdu = tl_sdu_bits d payload →
  ∃ msgs, mle_rx_prim (tl_data_ind ind link (Some sdu) fcs) = Some msgs ∧
    if is_l3 d then ∃ m, msgs = [m] ∧ hands_to m d (tmai_main_address ind) (tmai_endpoint_id ind) link payload
    else msgs = [].
Proof.
  intros Hwf Hwin. assert (3 ≤ get_len sdu) as Hl.
  { pose proof (length_window sdu Hwf) as Hw. rewrite Hwin in Hw. unfold tl_sdu_bits in Hw. rewrite length_app, length_bits_of_Z in Hw. lia. }
  unfold tl_data_ind, mle_rx_prim, mle_rx_tla_prim. cbn [sm_sap sm_msg]. erewrite rx_tla_data_ind_spec by done.
  rewrite decide_True, Hwin by done. unfold tl_sdu_bits at 1. rewrite take_app_length' by (by rewrite length_bits_of_Z).
  rewrite Z_of_bits_of_Z. change (Z.of_nat 3) with 3%Z.
  assert (mle_protocol_discriminator_try_from (wrap 3 (disc_raw d)) = Some d) as -> by (by destruct d).
  destruct (after_disc_ok sdu Hwf Hl) as (Hwf' & Hrem & _).
  assert (remaining (after_disc sdu) = payload) as Hp.
  { rewrite Hrem, Hwin. apply drop_app_length'. by rewrite length_bits_of_Z. }
  destruct d; cbn [is_l3 dispatch_tl_sdu]; eexists; (split; [reflexivity|]); try done; eexists; (split; [reflexivity|]);
    exists (after_disc sdu); by split_and!.
Qed.

Lemma tl_sdu_bits_nonempty d payload : tl_sdu_bits d payload ≠ [].
Proof. by destruct d. Qed.

Definition is_udata (h : bl_header) : bool := match h with HUdata _ => true | _ => false end.

(** C17: a message of a terminal reaches the entity it is for.  Let the LLC, in
    any reachable state in which the UMAC has not discarded a message to the
    sender, receive a basic-link PDU whose SDU starts with a protocol
    discriminator.  If the PDU has an FCS and it is wrong, nothing happens.
    Otherwise the LLC hands one message to the MLE, and the MLE
    hands exactly one message on, to MM, CMCE or SNDCP as the discriminator
    says, with the bits after the discriminator and the terminal's
    address; these bits end with the 32 bits of the FCS if the PDU has one.
    Messages for the MLE itself and the management entity, and
    all unacknowledged messages, go no further. *)
Theorem uplink_reaches_entity c w ind h d payload : rtc llc_step (llc_start c) w → bl_valid h →
  carries ind (fields_bits (bl_fields h) ++ tl_sdu_bits d payload) → no_discarded w (tmai_main_address ind) →
  if bl_has_fcs h && negb (fcs_right (tl_sdu_bits d payload)) then
    rx_prim (mkSapMsg TmaSap Umac Llc_ (SmTmaUnitdataInd ind)) w = Ok tt w
  else
    ∃ w' m msgs, rx_prim (mkSapMsg TmaSap Umac Llc_ (SmTmaUnitdataInd ind)) w = Ok tt w' ∧ w_queue w' = w_queue w ++ [m] ∧
      sm_dest m = Mle ∧ mle_rx_prim m = Some msgs ∧
      if is_l3 d && negb (is_udata h) then
        ∃ m' link, msgs = [m'] ∧ hands_to m' d (tmai_main_address ind) (tmai_endpoint_id ind) link payload
      else msgs = [].
Proof.
  intros Hr%llc_reachable_inv Hv (pdu & Hp & Hwf & Hrem) Hnd.
  destruct (rx_unitdata_header ind pdu w h _ Hp Hwf Hv Hrem) as (pdu' & Hwf' & Hrem' & Hrx).
  destruct (bl_has_fcs h && negb (fcs_right (tl_sdu_bits d payload))); [exact Hrx|].
  destruct (rx_bl_accepted_ok ind (bl_type h) pdu' (bl_has_fcs h) (bl_ns h) (bl_nr h) w Hr Hwf') as (w' & Heq & _ & _ & Hq & _); [|done|].
  { unfold bl_valid in Hv. unfold bl_ns. by destruct (bl_seqs h) as [[? ?] ?], Hv. }
  rewrite Heq in Hrx. destruct (trimmed_remaining pdu' Hwf') as (_ & _ & Hwin & Hwft). rewrite Hrem' in Hwin.
  assert (0 < get_len_remaining pdu') as Hlen.
  { rewrite <- length_remaining, Hrem' by done. pose proof (tl_sdu_bits_nonempty d payload). by destruct (tl_sdu_bits d payload); [|cbn; lia]. }
  assert (∃ m, delivered ind (bl_type h) pdu' (bl_has_fcs h) = [m] ∧ sm_dest m = Mle ∧
    if is_udata h then mle_rx_prim m = Some []
    else ∃ link, m = tl_data_ind ind link (Some (trimmed pdu')) (bl_has_fcs h)) as (m & Hm & Hd & Hcase).
  { unfold delivered. rewrite (proj2 (Nat.ltb_lt _ _) Hlen), (proj2 (Nat.eqb_neq (get_len_remaining pdu') 0)) by lia.
    destruct h as [[[]]|[[]]|[[]]|[[]]]; cbn [bl_type is_udata]; (eexists; split; [reflexivity|]; split; [done|]); by eexists || done. }
  destruct (is_udata h).
  - exists w', m, []. rewrite Hq, Hm, andb_false_r. by split_and!.
  - destruct Hcase as (link & ->). destruct (mle_dispatches ind link (trimmed pdu') (bl_has_fcs h) d payload Hwft Hwin) as (msgs & Hmle & Hcase).
    exists w', (tl_data_ind ind link (Some (trimmed pdu')) (bl_has_fcs h)), msgs. rewrite Hq, Hm. split_and!; [done..|].
    rewrite andb_true_r. destruct (is_l3 d); [|done]. destruct Hcase as (m' & -> & Hh). by exists m', link.
Qed.

(** * Requests *)

(** A message of MM or CMCE for the air interface. *)
Inductive l3_request : Type := ReqMm (p : LmmMleUnitdataReq) | ReqCmce (p : LcmcMleUnitdataReq).

Definition req_msg (r : l3_request) : SapMsg :=
  match r with
  | ReqMm p => mkSapMsg LmmSap Mm Mle (SmLmmMleUnitdataReq p)
  | ReqCmce p => mkSapMsg LcmcSap Cmce Mle (SmLcmcMleUnitdataReq p)
  end.
Definition req_disc (r : l3_request) : MleProtocolDiscriminator :=
  match r with ReqMm _ => MleProtocolDiscriminator_Mm | ReqCmce _ => MleProtocolDiscriminator_Cmce end.
Definition req_sdu (r : l3_request) : BitBuffer := match r with ReqMm p => lmmr_sdu p | ReqCmce p => lcmr_sdu p end.
Definition req_service (r : l3_request) : Layer2Service :=
  match r with ReqMm p => lmmr_layer2service p | ReqCmce p => lcmr_layer2service p end.
Definition req_address (r : l3_request) : TetraAddress :=
  match r with ReqMm p => lmmr_address p | ReqCmce p => lcmr_main_address p end.
Definition req_stealing (r : l3_request) : bool :=
  match r with ReqMm _ => false | ReqCmce p => lcmr_stealing_permission p end.
Definition req_reporter (r : l3_request) : option TxHandle :=
  match r with ReqMm p => lmmr_tx_reporter p | ReqCmce p => lcmr_tx_reporter p end.

Lemma remaining_at_start sdu : wf sdu → get_pos sdu = 0 → remaining sdu = window sdu ∧ get_len_remaining sdu = get_len sdu.
Proof.
  intros Hwf Hp. pose proof (wf_start _ Hwf). unfold get_pos in Hp. assert (bb_pos sdu = bb_start sdu) as E by lia.
  unfold remaining, window, a_remaining, a_window, get_len_remaining, get_len, abs. cbn. by rewrite E.
Qed.

(** With the acknowledged service the MLE asks the LLC for exactly one
    transmission, of the discriminator and the SDU. *)
Lemma mle_request_ok r : wf (req_sdu r) → get_pos (req_sdu r) = 0 → fits (3 + get_len (req_sdu r)) →
  req_service r ≠ L2Unacknowledged →
  ∃ p, mle_rx_prim (req_msg r) = Some [mkSapMsg TlaSap Mle Llc_ (SmTlaTlDataReqBl p)] ∧
    holds (tldr_tl_sdu p) (tl_sdu_bits (req_disc r) (window (req_sdu r))) ∧ tldr_main_address p = req_address r ∧
    tldr_stealing_permission p = req_stealing r ∧ tldr_fcs_flag p = false ∧ tldr_tx_reporter p = req_reporter r.
Proof.
  intros Hwf Hpos Hf Hs. destruct (remaining_at_start _ Hwf Hpos) as [Hrem Hlr].
  destruct (mle_tl_sdu_ok (req_disc r) (req_sdu r) (get_len (req_sdu r))) as (pdu & Hb & Hh); [done|lia|done|].
  rewrite Hrem, take_ge in Hh by (by rewrite length_window).
  destruct r as [p|p]; cbn [req_msg mle_rx_prim sm_sap mle_rx_lmm_prim mle_rx_lcmc_prim sm_msg req_sdu req_disc req_service] in *;
    unfold rx_lmm_mle_unitdata_req, rx_lcmc_mle_unitdata_req; rewrite Hb; cbn [mbind option_bind];
    rewrite bool_decide_eq_false_2 by done; eexists; (split; [reflexivity|]); by split_and!.
Qed.

(** C18: an acknowledged message of MM or CMCE reaches MM or CMCE at the other
    end.  The MLE turns the request into one LLC request; the LLC appends one
    entry to the subscriber's queue, with the next N(S).  At any station that
    receives the bits of that entry's PDU, the LLC schedules the acknowledgement
    of that N(S) and hands one message to the MLE, and the MLE hands exactly one
    message to the same protocol entity, with the bits of the SDU. *)
Theorem l3_message_reaches_peer ca wa r : rtc llc_step (llc_start ca) wa →
  wf (req_sdu r) → get_pos (req_sdu r) = 0 → fits (9 + get_len (req_sdu r)) → req_service r ≠ L2Unacknowledged →
  req_stealing r = false → ssi_type (req_address r) ≠ Gssi →
  (∀ h, req_reporter r = Some h → (h ∉ (ea_tx_reporter <$> outbound wa)) ∧
    ∃ t, w_tx wa !! h = Some t ∧ expects_ack t = true ∧ reporter_ok t ∧ get_state t = Pending) →
  ∃ q wa' m pdu tx, mle_rx_prim (req_msg r) = Some [q] ∧ rx_prim q wa = Ok tt wa' ∧ outbound wa' = outbound wa ++ [m] ∧
    ea_ns m = send_seq wa (ssi (req_address r)) ∧
    sm_msg (ea_retransmission_buf m) = SmTmaUnitdataReq tx ∧ tmar_pdu tx = pdu ∧ tmar_main_address tx = req_address r ∧
    ∀ cb wb ind, rtc llc_step (llc_start cb) wb → carries ind (remaining pdu) → no_discarded wb (tmai_main_address ind) →
      ∃ wb' m1 m2 a, rx_prim (mkSapMsg TmaSap Umac Llc_ (SmTmaUnitdataInd ind)) wb = Ok tt wb' ∧
        w_queue wb' = w_queue wb ++ [m1] ∧ sm_dest m1 = Mle ∧ mle_rx_prim m1 = Some [m2] ∧
        hands_to m2 (req_disc r) (tmai_main_address ind) (tmai_endpoint_id ind) (tmai_link_id ind) (window (req_sdu r)) ∧
        llc_scheduled_out_acks (w_llc wb') = llc_scheduled_out_acks (w_llc wb) ++ [a] ∧ sa_nr a = ea_ns m ∧
        sa_addr a = tmai_main_address ind.
Proof.
  intros Hra Hwf Hpos Hf Hs Hst Hg Htx. unfold fits in Hf. pose proof (div_ceil_8 (9 + get_len (req_sdu r))).
  assert (fits (3 + get_len (req_sdu r))) as Hf3.
  { unfold fits. pose proof (div_ceil_8 (3 + get_len (req_sdu r))). unfold div_ceil in *.
    assert ((3 + get_len (req_sdu r) + 8 - 1) / 8 ≤ (9 + get_len (req_sdu r) + 8 - 1) / 8) by (apply Nat.Div0.div_le_mono; lia). lia. }
  destruct (mle_request_ok r Hwf Hpos Hf3 Hs) as (p & Hmle & Hh & Ha & Hsteal & Hfcs & Hrep).
  destruct (holds_len _ _ Hh) as (_ & Hlen & Hrem & _). assert (wf (tldr_tl_sdu p)) as Hwfp by apply Hh.
  assert (unacked p = false) as Hu by (unfold unacked; rewrite Hsteal, Hst, Ha; by rewrite bool_decide_eq_false_2).
  destruct (sdu_reaches_peer ca wa p Hra) as (wa' & m & pdu & Heq & Hout & Hns & Hbuf & Hpeer); [|done|done|].
  { split; [done|]. rewrite Hlen, Hrep. split; [|done]. unfold tl_sdu_bits. rewrite length_app, length_bits_of_Z, length_window by done. lia. }
  exists (mkSapMsg TlaSap Mle Llc_ (SmTlaTlDataReqBl p)), wa', m, pdu. eexists. split_and!; [done|exact Heq|done|by rewrite <- Ha|by rewrite Hbuf| | |].
  1, 2: done. intros cb wb ind Hrb Hc Hnd.
  destruct (Hpeer cb wb ind Hrb Hc Hnd) as (wb' & sdu & a & Hrx & Hq & Hwfs & Hwin & Hacks & Hnr & Haddr & _).
  { rewrite Hrem. apply tl_sdu_bits_nonempty. }
  rewrite Hrem in Hwin. destruct (mle_dispatches ind (tmai_link_id ind) sdu false (req_disc r) _ Hwfs Hwin) as (msgs & Hm & Hcase).
  assert (is_l3 (req_disc r) = true) as Hl3 by (by destruct r). rewrite Hl3 in Hcase. destruct Hcase as (m2 & -> & Hh2).
  exists wb', (tl_data_ind ind (tmai_link_id ind) (Some sdu) false), m2, a. by split_and!.
Qed.

(** * Network time *)

(** Two adjacent fields are one. *)
Lemma lor_adjacent x y n k : (0 ≤ n)%Z → (0 ≤ k)%Z → is_u n y →
  Z.lor (Z.shiftl x (n + k)) (Z.shiftl y k) = Z.shiftl (x * 2 ^ n + y) k.
Proof. intros Hn Hk Hy. rewrite <- Z.shiftl_shiftl, <- Z.shiftl_lor by done. by rewrite lor_shiftl_add. Qed.

Section network_time.
Context {DateTime Tz : Type} (tz_from_str : string → option Tz) (dt_year : DateTime → Z)
  (year_start : Z → option DateTime) (num_seconds : DateTime → DateTime → Z) (local_minus_utc : DateTime → Tz → Z).

Abbreviation time_inner := (encode_tetra_network_time_inner dt_year year_start num_seconds local_minus_utc).

(** The fields of the 48-bit value, most significant first. *)
Definition pack_time (utc sign magnitude year : Z) : Z :=
  ((((utc * 2 + sign) * 64 + magnitude) * 64 + year) * 2048 + 2047)%Z.

Lemma network_time_packed now tz start : year_start (dt_year now) = Some start →
  time_inner now tz = Some (pack_time (Z.max (num_seconds now start) 0 / 2 mod 2 ^ 24)
    (if (local_minus_utc now tz <? 0)%Z then 1 else 0) (Z.abs (local_minus_utc now tz) / 900 mod 64)
    ((dt_year now - 2000) mod 64)).
Proof.
  intros Hs. unfold encode_tetra_network_time_inner. rewrite Hs. cbn [mbind option_bind]. f_equal.
  rewrite Z.quot_div_nonneg by lia. change 16777215%Z with (Z.ones 24). change 63%Z with (Z.ones 6).
  rewrite !Z.land_ones by lia. set (u := (_ / 2 mod _)%Z). set (m := (_ / 900 mod _)%Z). set (sg := if (local_minus_utc now tz <? 0)%Z then 1%Z else 0%Z).
  assert (is_u 24 u) as Hu by (apply Z.mod_pos_bound; lia). assert (is_u 6 m) as Hm by (apply Z.mod_pos_bound; lia).
  assert (is_u 1 sg) as Hsg by (unfold sg; case_match; done).
  assert (wrap 64 (dt_year now - 2000) mod 2 ^ 6 = (dt_year now - 2000) mod 64)%Z as ->.
  { unfold wrap. apply Z.mod_mod_divide. by exists (2 ^ 58)%Z. }
  set (y := ((dt_year now - 2000) mod 64)%Z). assert (is_u 6 y) as Hy by (apply Z.mod_pos_bound; lia).
  assert (wrap 64 (Z.shiftl u 24) = Z.shiftl u (1 + 23)) as ->.
  { apply wrap_small. rewrite Z.shiftl_mul_pow2 by lia. unfold is_u in *. lia. }
  rewrite lor_adjacent by (done || lia). change 23%Z with (6 + 17)%Z. rewrite lor_adjacent by (done || lia).
  change 17%Z with (6 + 11)%Z. rewrite lor_adjacent by (done || lia). rewrite lor_shiftl_add by (done || lia). done.
Qed.

Lemma network_time_fits now tz v : time_inner now tz = Some v → is_u 48 v.
Proof.
  intros Hv. destruct (year_start (dt_year now)) as [start|] eqn:E; [|by unfold encode_tetra_network_time_inner in Hv; rewrite E in Hv].
  rewrite (network_time_packed now tz start E) in Hv. injection Hv as <-. unfold pack_time, is_u.
  pose proof (Z.mod_pos_bound (Z.max (num_seconds now start) 0 / 2) (2 ^ 24)).
  pose proof (Z.mod_pos_bound (Z.abs (local_minus_utc now tz) / 900) 64). pose proof (Z.mod_pos_bound (dt_year now - 2000) 64).
  case_match; lia.
Qed.
End network_time.

(** * The broadcast *)

(** The configured values have their types: [u8] and [u16]. *)
Definition opt_typed (w : Z) (o : option Z) : Prop := match o with Some v => is_u w v | None => True end.
Definition cfg_neighbour_typed (c : CfgNeighborCellCa) : Prop :=
  is_u 8 (cnc_cell_identifier_ca c) ∧ is_u 8 (cnc_cell_reselection_types_supported c) ∧ is_u 8 (cnc_cell_load_ca c) ∧
  is_u 16 (cnc_main_carrier_number c) ∧ opt_typed 16 (cnc_main_carrier_number_extension c) ∧ opt_typed 16 (cnc_mcc c) ∧
  opt_typed 16 (cnc_mnc c) ∧ opt_typed 16 (cnc_location_area c) ∧ opt_typed 8 (cnc_maximum_ms_transmit_power c) ∧
  opt_typed 8 (cnc_minimum_rx_access_level c) ∧ opt_typed 16 (cnc_subscriber_class c) ∧
  opt_typed 8 (cnc_timeshare_cell_information_or_security_parameters c) ∧ opt_typed 8 (cnc_tdma_frame_offset c).

Lemma above_fits n v max : (0 ≤ v)%Z → max = (2 ^ n - 1)%Z → (v >? max)%Z = false → is_u n v.
Proof. intros Hv ->. rewrite Z.gtb_ltb, Z.ltb_ge. unfold is_u. lia. Qed.

Lemma opt_above_fits n w o max : opt_typed w o → max = (2 ^ Z.of_nat n - 1)%Z → opt_above o max = false → t2_ok n o.
Proof. intros Ho Hmax Ha. destruct o as [v|]; [|done]. eapply above_fits; [apply Ho|exact Hmax|exact Ha]. Qed.

(** The configuration check admits exactly neighbours that fit their element. *)
Lemma validated_neighbour_ok c : cfg_neighbour_typed c → validate_neighbour c = None → neighbour_ok (neighbour_of_cfg c).
Proof.
  intros (Ht1 & Ht2 & Ht3 & Ht4 & ? & ? & ? & ? & ? & ? & ? & ? & ?) Hv. unfold validate_neighbour in Hv.
  repeat match type of Hv with (if ?b then _ else _) = None => destruct b eqn:?; [done|] end.
  unfold neighbour_ok, neighbour_of_cfg. cbn. split_and!;
    first [eapply above_fits; [apply Ht1 || apply Ht2 || apply Ht3 || apply Ht4| |eassumption]; done
          |eapply opt_above_fits; [eassumption| |eassumption]; done|done].
Qed.

Lemma validated_ranges cells : Forall cfg_neighbour_typed cells → validate_ranges cells = None →
  Forall neighbour_ok (neighbour_of_cfg <$> cells).
Proof.
  induction 1 as [|c cells Hc Hcs IH]; intros Hv; [constructor|]. cbn [validate_ranges] in Hv.
  destruct (validate_neighbour c) eqn:E; [done|]. cbn. constructor; [by apply validated_neighbour_ok|by apply IH].
Qed.

Lemma length_t2_bits n o : length (t2_bits n o) ≤ n + 1.
Proof. destruct o; cbn; rewrite ?length_bits_of_Z; lia. Qed.

Lemma length_neighbour_bits n : length (neighbour_bits n) ≤ 127.
Proof.
  unfold neighbour_bits. rewrite !length_app, !length_bits_of_Z. destruct (neighbour_obit n); cbn [obit_bits length]; [|lia].
  rewrite !length_app. pose proof (length_t2_bits 10 (nci_main_carrier_number_extension n)). pose proof (length_t2_bits 10 (nci_mcc n)).
  pose proof (length_t2_bits 14 (nci_mnc n)). pose proof (length_t2_bits 14 (nci_location_area n)).
  pose proof (length_t2_bits 3 (nci_maximum_ms_transmit_power n)). pose proof (length_t2_bits 4 (nci_minimum_rx_access_level n)).
  pose proof (length_t2_bits 16 (nci_subscriber_class n)). pose proof (length_t2_bits 6 (nci_tdma_frame_offset n)).
  pose proof (length_t2_bits 5 (nci_timeshare_cell_information_or_security_parameters n)).
  assert (length (enc_type2 service_bits (nci_bs_service_details n)) ≤ 13) by (destruct (nci_bs_service_details n); cbn; lia). lia.
Qed.

Lemma length_broadcast_bits p : d_nwrk_broadcast_ok p → length (d_nwrk_broadcast_bits p) ≤ 1000.
Proof.
  intros (_ & _ & _ & _ & Hl & _). unfold d_nwrk_broadcast_bits. rewrite !length_app, !length_bits_of_Z.
  assert (length (mjoin (neighbour_bits <$> dnb_neighbour_cell_information_for_ca p)) ≤
    127 * length (dnb_neighbour_cell_information_for_ca p)) as Hn.
  { induction (dnb_neighbour_cell_information_for_ca p) as [|n l IH]; [done|].
    change (mjoin (neighbour_bits <$> n :: l)) with (neighbour_bits n ++ mjoin (neighbour_bits <$> l)). rewrite length_app.
    pose proof (length_neighbour_bits n). cbn [length] in *. specialize (IH ltac:(lia)). lia. }
  destruct (_ || _); cbn [obit_bits length]; [|lia]. rewrite !length_app.
  pose proof (length_t2_bits 48 (dnb_tetra_network_time p)). pose proof (length_t2_bits 3 (dnb_number_of_ca_neighbour_cells p)). lia.
Qed.

(** [m] asks the LLC to send [p] to all terminals. *)
Definition broadcasts (m : SapMsg) (p : DNwrkBroadcast) : Prop :=
  ∃ sdu, m = broadcast_msg sdu ∧ holds sdu (tl_sdu_bits MleProtocolDiscriminator_Mle (d_nwrk_broadcast_bits p)) ∧
    d_nwrk_broadcast_from_bitbuf (after_disc sdu) =
      Ok p (advance (length (d_nwrk_broadcast_bits p)) (after_disc sdu)).

Lemma transmit_pdu_ok p : d_nwrk_broadcast_ok p → ∃ m, transmit_pdu p = Some [m] ∧ broadcasts m p.
Proof.
  intros Hp. pose proof (length_broadcast_bits p Hp) as Hlen. set (bs := d_nwrk_broadcast_bits p) in *.
  destruct (codec_writes (BitCodec := d_nwrk_broadcast_codec) p Hp (new_autoexpand 256)) as (bb & Heq & Hwf & Habs);
    [apply wf_new_autoexpand|split; [by right|]; fold bs; cbn [bb_pos new_autoexpand]; unfold usize_max; lia|]. fold bs in Habs.
  rewrite abs_new_autoexpand in Habs. unfold a_write in Habs. cbn [a_bits a_start a_pos a_auto] in Habs.
  assert (bb_start bb = 0) as Hs by exact (f_equal a_start Habs).
  assert (bb_pos bb = length bs) as Hpos by exact (f_equal a_pos Habs).
  assert (a_bits (abs bb) = bs) as Hbits by (rewrite Habs; cbn [a_bits]; unfold splice; by rewrite drop_nil, app_nil_r).
  set (bb0 := set_pos 0 bb). pose proof (wf_pos _ Hwf). assert (wf bb0) as Hwf0 by (apply wf_set_pos; [done|lia]).
  assert (remaining bb0 = bs) as Hrem.
  { change (remaining bb0) with (drop 0 (a_bits (abs bb))). by rewrite Hbits. }
  destruct (mle_tl_sdu_ok MleProtocolDiscriminator_Mle bb0 (length bs)) as (sdu & Hsdu & Hh);
    [done|rewrite <- length_remaining, Hrem by done; done|apply fits_small; lia|].
  rewrite Hrem, take_ge in Hh by lia. exists (broadcast_msg sdu). unfold transmit_pdu. rewrite Heq.
  assert (exec (seek 0) bb = Some (tt, bb0)) as ->.
  { unfold exec. pose proof (seek_pos bb 0 Hwf) as Hk. rewrite Hs in Hk. change (0 - 0) with 0 in Hk. by rewrite Hk by lia. }
  unfold get_pos. rewrite Hs, Hpos, Nat.sub_0_r. cbn [mbind option_bind]. rewrite Hsdu. split; [done|].
  exists sdu. split_and!; [done|done|]. destruct (holds_len _ _ Hh) as (Hl & _ & _ & Hwin & _).
  destruct (after_disc_ok sdu (proj1 Hh)) as (Hwfa & Hra & _); [rewrite Hl; unfold tl_sdu_bits; rewrite length_app, length_bits_of_Z; lia|].
  apply (codec_reads (BitCodec := d_nwrk_broadcast_codec) p Hp); [done|]. rewrite Hra, Hwin. unfold tl_sdu_bits.
  by rewrite drop_app_length' by (by rewrite length_bits_of_Z).
Qed.

Section broadcasting.
Context {DateTime Tz : Type} (tz_from_str : string → option Tz) (dt_year : DateTime → Z)
  (year_start : Z → option DateTime) (num_seconds : DateTime → DateTime → Z) (local_minus_utc : DateTime → Tz → Z).

Abbreviation network_time := (encode_tetra_network_time tz_from_str dt_year year_start num_seconds local_minus_utc).
Abbreviation tick := (mle_tick_start tz_from_str dt_year year_start num_seconds local_minus_utc).

(** The first timeslot of frame 1 in multiframes 20 and 50. *)
Definition broadcast_slot (ts : TdmaTime) : bool :=
  ((tt_m ts =? 20) || (tt_m ts =? 50))%Z && (tt_f ts =? 1)%Z && (tt_t ts =? 1)%Z.

(** What the configuration asks to be sent in a timeslot. *)
Definition configured_broadcast (config : CfgBroadcast) (tick : TdmaTime * DateTime) : list DNwrkBroadcast :=
  let time := cb_timezone config ≫= network_time tick.2 in
  if broadcast_slot tick.1 && (is_some time || negb (bool_decide (cb_neighbor_cells_ca config = []))) then
    [mkDNwrkBroadcast 0 0 time (Some (Z.of_nat (length (cb_neighbor_cells_ca config))))
       (neighbour_of_cfg <$> cb_neighbor_cells_ca config)]
  else [].

Fixpoint mle_ticks (ticks : list (TdmaTime * DateTime)) (s : MleBs) : option (MleBs * list SapMsg) :=
  match ticks with
  | [] => Some (s, [])
  | (ts, now) :: ticks =>
      '(s, msgs) ← tick ts now s;
      '(s, msgs') ← mle_ticks ticks s;
      Some (s, msgs ++ msgs')
  end.

Definition mle_inv (config : CfgBroadcast) (s : MleBs) : Prop :=
  mle_config s = config ∧ mb_time_broadcast (mle_broadcast s) = cb_timezone config ∧
  (mb_last_broadcast_type (mle_broadcast s) = BroadcastNetworkTime →
   is_some (cb_timezone config) || negb (bool_decide (cb_neighbor_cells_ca config = [])) = true).

Lemma broadcast_slot_spec ts :
  bool_decide (tt_m ts ∈ MLE_BROADCAST_MULTIFRAMES) && (tt_f ts =? MLE_BROADCAST_FRAME)%Z && (tt_t ts =? 1)%Z = broadcast_slot ts.
Proof.
  unfold broadcast_slot. f_equal. f_equal. apply eq_true_iff_eq. rewrite bool_decide_eq_true, orb_true_iff, !Z.eqb_eq.
  unfold MLE_BROADCAST_MULTIFRAMES. set_solver.
Qed.

Lemma network_time_u48 now tz v : network_time now tz = Some v → is_u 48 v.
Proof.
  unfold encode_tetra_network_time. destruct (tz_from_str tz) as [z|]; [|done]. cbn. apply network_time_fits.
Qed.

Section accepted.
Context (config : CfgBroadcast).
Hypothesis cells_typed : Forall cfg_neighbour_typed (cb_neighbor_cells_ca config).
Hypothesis accepted : validate_broadcast tz_from_str config = None.

Lemma accepted_facts : length (cb_neighbor_cells_ca config) ≤ 7 ∧
  Forall neighbour_ok (neighbour_of_cfg <$> cb_neighbor_cells_ca config).
Proof.
  unfold validate_broadcast in accepted. destruct (match cb_timezone config with Some _ => _ | None => _ end); [done|].
  destruct (Nat.ltb_spec 7 (length (cb_neighbor_cells_ca config))); [done|]. destruct (validate_duplicates _ _ _); [done|].
  split; [lia|by apply validated_ranges].
Qed.

Lemma configured_ok time : (∀ v, time = Some v → is_u 48 v) →
  d_nwrk_broadcast_ok (mkDNwrkBroadcast 0 0 time (Some (Z.of_nat (length (cb_neighbor_cells_ca config))))
    (neighbour_of_cfg <$> cb_neighbor_cells_ca config)).
Proof.
  intros Ht. destruct accepted_facts as [Hl Hn]. unfold d_nwrk_broadcast_ok. cbn. rewrite length_fmap.
  split_and!; try done. destruct time; [by apply Ht|done].
Qed.

Lemma mle_tick_ok ts now s : mle_inv config s → ∃ s' msgs, tick ts now s = Some (s', msgs) ∧ mle_inv config s' ∧
  Forall2 broadcasts msgs (configured_broadcast config (ts, now)).
Proof.
  intros (Hc & Ht & Hb). unfold mle_tick_start, configured_broadcast. rewrite broadcast_slot_spec. cbn [fst snd].
  destruct (broadcast_slot ts); cbn [andb]; [|exists s, []; by split_and!].
  set (time := cb_timezone config ≫= network_time now).
  assert (∀ v, time = Some v → is_u 48 v) as Htime.
  { unfold time. intros v. destruct (cb_timezone config); [|done]. cbn. apply network_time_u48. }
  set (some := is_some (cb_timezone config) || negb (bool_decide (cb_neighbor_cells_ca config = []))) in *.
  assert (determine_next_broadcast_type config (mle_broadcast s) = if some then BroadcastNetworkTime else BroadcastNone) as Hnext.
  { unfold determine_next_broadcast_type. rewrite Ht. fold some. destruct (mb_last_broadcast_type _); [done|]. by rewrite Hb. }
  unfold send_broadcast. rewrite Hc, Hnext. destruct some eqn:Esome.
  2: { apply orb_false_iff in Esome as [E1 E2]. exists (mkMleBs config (mkMleBroadcast BroadcastNone (mb_time_broadcast (mle_broadcast s)))), [].
    rewrite E2, orb_false_r. assert (time = None) as -> by (unfold time; by destruct (cb_timezone config)). by split_and!. }
  unfold send_d_nwrk_broadcast. cbn [mb_time_broadcast]. rewrite Ht. fold time.
  set (b := mkMleBroadcast BroadcastNetworkTime (cb_timezone config)). destruct accepted_facts as [Hl _].
  assert (mle_inv config (mkMleBs config b)) as Hinv by (split; [reflexivity|split; [reflexivity|intros _; exact Esome]]).
  destruct (transmit_pdu_ok _ (configured_ok time Htime)) as (m & Hm & Hbc).
  destruct (bool_decide (cb_neighbor_cells_ca config = [])) eqn:En; cbn [negb].
  - rewrite orb_false_r. apply bool_decide_eq_true in En. rewrite En in Hm |- *. cbn in Hm |- *. change (Z.of_nat 0) with 0%Z in Hm.
    destruct time as [v|]; cbn [is_some]; [rewrite Hm|]; cbn [mbind option_bind]; exists (mkMleBs config b); eexists; (split; [reflexivity|]).
    + split; [exact Hinv|]. constructor; [|constructor]. rewrite En in Hbc. exact Hbc.
    + split; [exact Hinv|constructor].
  - rewrite orb_true_r, length_fmap, wrap_small, Hm by (unfold is_u; lia). cbn [mbind option_bind].
    exists (mkMleBs config b). eexists. split; [reflexivity|]. split; [exact Hinv|]. constructor; [exact Hbc|constructor].
Qed.
End accepted.

(** C19: the cell broadcasts what its configuration says.  With a configuration
    that the stack accepts, the MLE survives any sequence of ticks and asks for
    exactly the broadcasts the configuration asks for, in order: one
    D-NWRK-BROADCAST in the first timeslot of frame 1 of multiframes 20 and 50
    if a timezone with a valid time or neighbour cells are configured, none
    otherwise.  Each carries the discriminator of the MLE and a PDU that is read
    back as the network time and all configured neighbour cells. *)
Theorem broadcasts_as_configured config ticks : Forall cfg_neighbour_typed (cb_neighbor_cells_ca config) →
  validate_broadcast tz_from_str config = None →
  ∃ s msgs, mle_ticks ticks (mle_bs_new config) = Some (s, msgs) ∧ Forall2 broadcasts msgs (ticks ≫= configured_broadcast config).
Proof.
  intros Hty Hacc. assert (mle_inv config (mle_bs_new config)) as Hinv by (split; [done|]; by split).
  revert Hinv. generalize (mle_bs_new config) as s. induction ticks as [|[ts now] ticks IH]; intros s Hinv.
  - exists s, []. by split.
  - destruct (mle_tick_ok config Hty Hacc ts now s Hinv) as (s1 & m1 & H1 & Hinv1 & Hf1).
    destruct (IH s1 Hinv1) as (s2 & m2 & H2 & Hf2). exists s2, (m1 ++ m2). cbn [mle_ticks]. rewrite H1.
    cbn [mbind option_bind]. rewrite H2. split; [done|]. by apply Forall2_app.
Qed.
End broadcasting.

(** The time that terminals compute from the value is right to two seconds, the
    offset to a quarter of an hour. *)
Lemma network_time_accurate {DateTime Tz} (dt_year : DateTime → Z) year_start num_seconds (local_minus_utc : DateTime → Tz → Z)
    now tz start v :
  year_start (dt_year now) = Some start → encode_tetra_network_time_inner dt_year year_start num_seconds local_minus_utc now tz = Some v →
  (2000 ≤ dt_year now < 2064)%Z → (0 ≤ num_seconds now start < 366 * 86400)%Z → (Z.abs (local_minus_utc now tz) < 57600)%Z →
  (Z.shiftr v 24 = num_seconds now start / 2 ∧
   Z.testbit v 23 = bool_decide (local_minus_utc now tz < 0) ∧
   Z.land (Z.shiftr v 17) 63 = Z.abs (local_minus_utc now tz) / 900 ∧
   2000 + Z.land (Z.shiftr v 11) 63 = dt_year now)%Z.
Proof.
  intros Hs Hv Hy Hn Ho. rewrite (network_time_packed dt_year year_start num_seconds local_minus_utc now tz start Hs) in Hv. injection Hv as <-.
  set (u := (num_seconds now start / 2)%Z). set (m := (Z.abs (local_minus_utc now tz) / 900)%Z). set (y := (dt_year now - 2000)%Z).
  assert (0 ≤ u < 2 ^ 24)%Z as Hu by (unfold u; split; [apply Z.div_pos; lia|apply Z.div_lt_upper_bound; lia]).
  assert (0 ≤ m < 64)%Z as Hm by (unfold m; split; [apply Z.div_pos; lia|apply Z.div_lt_upper_bound; lia]).
  rewrite Z.max_l by lia. fold u m y. rewrite !Z.mod_small by (unfold y; lia). set (s := if (local_minus_utc now tz <? 0)%Z then 1%Z else 0%Z).
  assert (s = 0 ∨ s = 1)%Z as Hsg by (unfold s; case_match; lia). unfold pack_time. change 63%Z with (Z.ones 6).
  rewrite !Z.land_ones, !Z.shiftr_div_pow2 by lia. split_and!.
  - symmetry. apply (Z.div_unique _ _ _ ((s * 64 + m) * 64 * 2048 + y * 2048 + 2047)); [|lia]. left. unfold y. lia.
  - apply eq_true_iff_eq. rewrite Z.testbit_true, bool_decide_eq_true by lia.
    assert ((((((u * 2 + s) * 64 + m) * 64 + y) * 2048 + 2047) / 2 ^ 23) = u * 2 + s)%Z as ->.
    { symmetry. apply (Z.div_unique _ _ _ (m * 64 * 2048 + y * 2048 + 2047)); [left; unfold y; lia|lia]. }
    rewrite (Z.add_comm _ s), Z_mod_plus_full, Z.mod_small by lia. unfold s. destruct (Z.ltb_spec (local_minus_utc now tz) 0); lia.
  - assert ((((((u * 2 + s) * 64 + m) * 64 + y) * 2048 + 2047) / 2 ^ 17) = (u * 2 + s) * 64 + m)%Z as ->.
    { symmetry. apply (Z.div_unique _ _ _ (y * 2048 + 2047)); [left; unfold y; lia|lia]. }
    change (2 ^ 6)%Z with 64%Z. rewrite Z.add_comm, Z_mod_plus_full. by apply Z.mod_small.
  - assert ((((((u * 2 + s) * 64 + m) * 64 + y) * 2048 + 2047) / 2 ^ 11) = ((u * 2 + s) * 64 + m) * 64 + y)%Z as ->.
    { symmetry. apply (Z.div_unique _ _ _ 2047); [left; lia|lia]. }
    change (2 ^ 6)%Z with 64%Z. rewrite (Z.add_comm _ y), Z_mod_plus_full, Z.mod_small; unfold y; lia.
Qed.

(** * Witnesses *)

Definition demo_payload : list bool := [true; false; true; true; false; false; true; false; true; true; true].

(** BL-DATA with N(S) 0, the discriminator of CMCE and eleven bits. *)
Definition demo_uplink : TmaUnitdataInd :=
  mkTmaInd 1521 (Some (mkBitBuffer [18; 178; 224]%Z 0 0 19 false)) (issi 1001) 0 0 0 None None 0 false None None.

Lemma uplink_reaches_entity_witness :
  carries demo_uplink (fields_bits (bl_fields (HData (mkBlData false 0))) ++ tl_sdu_bits MleProtocolDiscriminator_Cmce demo_payload) ∧
  ∃ w' m m' link, rx_prim (mkSapMsg TmaSap Umac Llc_ (SmTmaUnitdataInd demo_uplink)) (llc_start 1521) = Ok tt w' ∧
    w_queue w' = [m] ∧ mle_rx_prim m = Some [m'] ∧ hands_to m' MleProtocolDiscriminator_Cmce (issi 1001) 0 link demo_payload.
Proof.
  assert (carries demo_uplink (fields_bits (bl_fields (HData (mkBlData false 0))) ++ tl_sdu_bits MleProtocolDiscriminator_Cmce demo_payload)) as Hc.
  { eexists. split; [reflexivity|]. split; [|by vm_compute]. split; cbn; [|lia|lia|lia|by vm_compute]. repeat constructor; unfold is_u; lia. }
  split; [exact Hc|].
  assert (bl_valid (HData (mkBlData false 0))) as Hv by (split; [|done]; intros n Hn; injection Hn as <-; unfold is_u; lia).
  destruct (uplink_reaches_entity 1521 (llc_start 1521) demo_uplink (HData (mkBlData false 0)) MleProtocolDiscriminator_Cmce demo_payload
    (rtc_refl _ _) Hv Hc (demo_no_discarded _ _)) as (w' & m & msgs & H1 & H2 & _ & H3 & H4).
  destruct H4 as (m' & link & H4 & H5). exists w', m, m', link. rewrite H4 in H3. split; [exact H1|]. split; [exact H2|]. split; [exact H3|exact H5].
Defined.

(** A message of MM and the bits it is sent as. *)
Definition demo_request : l3_request := ReqMm (mkLmmReq demo_sdu 0 (issi 1001) L2Acknowledged false false false false None).
Definition demo_sent : TmaUnitdataInd :=
  mkTmaInd 1521 (Some (mkBitBuffer [17; 165; 90]%Z 0 0 24 false)) (issi 1001) 0 0 0 None None 0 false None None.

Lemma l3_message_reaches_peer_witness : ∃ q wa' wb' m1 m2, mle_rx_prim (req_msg demo_request) = Some [q] ∧
  rx_prim q demo_w0 = Ok tt wa' ∧
  rx_prim (mkSapMsg TmaSap Umac Llc_ (SmTmaUnitdataInd demo_sent)) (llc_start 1521) = Ok tt wb' ∧ w_queue wb' = [m1] ∧
  mle_rx_prim m1 = Some [m2] ∧ hands_to m2 MleProtocolDiscriminator_Mm (issi 1001) 0 0 (window demo_sdu).
Proof.
  assert (ssi_type (req_address demo_request) ≠ Gssi) as Hg by (intros H; discriminate H).
  assert (req_service demo_request ≠ L2Unacknowledged) as Hs by (intros H; discriminate H).
  assert (fits (9 + get_len (req_sdu demo_request))) as Hf by (apply fits_small; cbn; lia).
  destruct (l3_message_reaches_peer 1521 demo_w0 demo_request (rtc_refl _ _) demo_sdu_wf eq_refl
    Hf Hs eq_refl Hg ltac:(intros h Hh; discriminate Hh))
    as (q & wa' & m & pdu & tx & Hq & Hrx & Hout & _ & Hbuf & Hpdu & _ & Hpeer).
  assert (remaining pdu = remaining (mkBitBuffer [17; 165; 90]%Z 0 0 24 false)) as Hbits.
  { vm_compute in Hq. injection Hq as <-. vm_compute in Hrx. injection Hrx as <-. vm_compute in Hout. injection Hout as <-.
    cbn [ea_retransmission_buf sm_msg] in Hbuf. injection Hbuf as <-. subst pdu. by vm_compute. }
  destruct (Hpeer 1521%Z (llc_start 1521) demo_sent (rtc_refl _ _)) as (wb' & m1 & m2 & a & H1 & H2 & _ & H3 & H4 & _).
  - eexists. split; [reflexivity|]. split; [|by rewrite Hbits]. split; cbn; [|lia|lia|lia|by vm_compute]. repeat constructor; unfold is_u; lia.
  - apply demo_no_discarded.
  - exists q, wa', wb', m1, m2. split; [exact Hq|]. split; [exact Hrx|]. split; [exact H1|]. split; [exact H2|]. split; [exact H3|exact H4].
Defined.

(** Times in seconds since 2026 began, timezones as their offsets. *)
Definition demo_tz (name : string) : option Z := if decide (name = "Europe/Amsterdam") then Some 3600%Z else None.
Definition demo_cell (id carrier : Z) : CfgNeighborCellCa :=
  mkCfgNeighbour id 1 true 0 carrier None (Some 204%Z) None (Some 7%Z) None None None None None None.
Definition demo_broadcast_config : CfgBroadcast := mkCfgBroadcast (Some "Europe/Amsterdam") [demo_cell 1 1600; demo_cell 2 1610].

Lemma broadcasts_as_configured_witness : validate_broadcast demo_tz demo_broadcast_config = None ∧
  ∃ s m, mle_ticks demo_tz (λ _, 2026%Z) (λ _, Some 0%Z) Z.sub (λ _ tz, tz)
    [(mkTime 4 18 19 3, 3888000%Z); (mkTime 1 1 20 3, 3888002%Z)] (mle_bs_new demo_broadcast_config) = Some (s, [m]) ∧
    broadcasts m (mkDNwrkBroadcast 0 0 (Some 32614925260799%Z) (Some 2%Z)
      [neighbour_of_cfg (demo_cell 1 1600); neighbour_of_cfg (demo_cell 2 1610)]).
Proof.
  assert (Forall cfg_neighbour_typed (cb_neighbor_cells_ca demo_broadcast_config)) as Hty.
  { repeat constructor; unfold is_u; cbn; lia. }
  split; [by vm_compute|].
  destruct (broadcasts_as_configured demo_tz (λ _, 2026%Z) (λ _, Some 0%Z) Z.sub (λ _ tz, tz) demo_broadcast_config
    [(mkTime 4 18 19 3, 3888000%Z); (mkTime 1 1 20 3, 3888002%Z)] Hty ltac:(by vm_compute)) as (s & msgs & H1 & H2).
  assert (∃ p, ([(mkTime 4 18 19 3, 3888000%Z); (mkTime 1 1 20 3, 3888002%Z)]
    ≫= configured_broadcast demo_tz (λ _, 2026%Z) (λ _, Some 0%Z) Z.sub (λ _ tz, tz) demo_broadcast_config) = [p]) as [p Hp] by (eexists; by vm_compute).
  rewrite Hp in H2. vm_compute in Hp. injection Hp as <-. inversion H2 as [|m ? ? ? Hb Hnil]; subst. inversion Hnil; subst.
  exists s, m. split; [exact H1|exact Hb].
Defined.
