(* ===== verification/Stack.v ===== *)
(** LLC, MLE and SNDCP under the message router: the packet data side of the
    stack, with the real entities and the real router.

    The entities share the message queue through the router; the LLC's world is
    its state, the shared queue and the transmit receipts.  What a panicking
    callback leaves behind is not modelled (here its entity and the queue stay as
    they were); the activation below is shown to be free of panics. *)
From S2P Require Import Prelude Bits Core BitBuffer BitBufferSpec BitCodec BitBufferThms FieldCodec TypedFieldsSpec PduCodec TdmaTime.
From S2P Require Import TxReceipt MacDl MacBcast MlePdus Saps MleBs SndcpBs Router LlcPdu Fcs Llc LlcSpec LlcRx LlcLink LlcExchange MleSpec.

Inductive StackEntity : Type :=
| ELlc (llc : Llc) (tx : TxStore) (next : TxHandle)
| EMle (mle : MleBs)
| ESndcp.

(** The LLC as an entity: its callbacks run on its state and the shared queue. *)
Definition as_llc {A} (f : L A) (llc : Llc) (tx : TxStore) (next : TxHandle) (queue : list SapMsg) :
    StackEntity * list SapMsg * bool :=
  match f (mkWorld llc queue tx next) with
  | Ok _ w => (ELlc (w_llc w) (w_tx w) (w_next w), w_queue w, false)
  | Err e _ => match e with end
  | Panic => (ELlc llc tx next, queue, true)
  end.

(** An entity whose callback returns the messages it pushes. *)
Definition pushing (e : StackEntity) (queue : list SapMsg) (o : option (StackEntity * list SapMsg)) :
    StackEntity * list SapMsg * bool :=
  match o with Some (e', msgs) => (e', queue ++ msgs, false) | None => (e, queue, true) end.

(** * Cascades of the real entities end *)

(** How many messages a message can cause: an uplink PDU becomes an indication to
    the MLE, that one to SNDCP, and that a request to the LLC. *)
Definition stack_weight (m : SapMsg) : nat :=
  match sm_msg m with
  | SmTmaUnitdataInd _ => 3
  | SmTlaTlDataIndBl _ | SmTlaTlUnitdataIndBl _ => 2
  | SmLtpdMleUnitdataInd _ | SmLmmMleUnitdataReq _ | SmLcmcMleUnitdataReq _ => 1
  | _ => 0
  end.

(** [m] pushes messages of at most [k] in all. *)
Definition adds {A} (k : nat) (m : L A) : Prop :=
  ∀ w a w', m w = Ok a w' → ∃ l, w_queue w' = w_queue w ++ l ∧ pending stack_weight l ≤ k.

Lemma pending_app (f : SapMsg → nat) l l' : pending f (l ++ l') = pending f l + pending f l'.
Proof. unfold pending. by rewrite fmap_app, sum_list_with_app || rewrite fmap_app, sum_list_app. Qed.

Lemma adds_same {A} (m : L A) : (∀ w a w', m w = Ok a w' → w_queue w' = w_queue w) → adds 0 m.
Proof. intros H w a w' Hm. exists []. rewrite app_nil_r. split; [by eapply H|done]. Qed.

Lemma adds_bind {A C} k k' (m : L A) (f : A → L C) : adds k m → (∀ a, adds k' (f a)) → adds (k + k') (m ≫= f).
Proof.
  intros Hm Hf w c w'' H. apply bind_ok_inv in H as (a & w' & H1 & H2). destruct (Hm _ _ _ H1) as (l & Hl & Hk).
  destruct (Hf a _ _ _ H2) as (l' & Hl' & Hk'). exists (l ++ l'). rewrite Hl', Hl, app_assoc. split; [done|].
  rewrite pending_app. lia.
Qed.

Lemma adds_bind_0 {A C} k (m : L A) (f : A → L C) : adds 0 m → (∀ a, adds k (f a)) → adds k (m ≫= f).
Proof. intros Hm Hf. by apply (adds_bind 0). Qed.

Lemma adds_le {A} k k' (m : L A) : adds k m → k ≤ k' → adds k' m.
Proof. intros H Hle w a w' Hm. destruct (H _ _ _ Hm) as (l & ? & ?). exists l. split; [done|lia]. Qed.

(** A primitive step that leaves the queue alone. *)
Ltac adds_prim := apply adds_same; let w := fresh in let b := fresh in let w' := fresh in let H := fresh in intros w b w' H;
  match type of H with ?l = ?r => let l' := eval hnf in l in change (l' = r) in H end; by inversion H.

Lemma adds_ret {A} (a : A) : adds 0 (mret a : L A).
Proof. adds_prim. Qed.
Lemma adds_get : adds 0 (get : L World).
Proof. adds_prim. Qed.
Lemma adds_unwrap {A} (o : option A) : adds 0 (unwrap o : L A).
Proof. destruct o; [apply adds_ret|by intros w a w']. Qed.
Lemma adds_panic {A} : adds 0 (panic : L A).
Proof. by intros w a w'. Qed.
Lemma adds_modify f : adds 0 (modify_llc f).
Proof. adds_prim. Qed.
Lemma adds_tx_new : adds 0 tx_new.
Proof. adds_prim. Qed.
Lemma adds_tx_store h r : adds 0 (tx_store h r).
Proof. adds_prim. Qed.
Lemma adds_push_back m k : S (stack_weight m) ≤ k → adds k (push_back m).
Proof. intros Hk w a w' H. unfold push_back in H. inversion H. subst. exists [m]. split; [done|]. unfold pending. cbn. lia. Qed.

Create HintDb adds discriminated.
#[local] Hint Resolve adds_ret adds_get adds_unwrap adds_panic adds_modify adds_tx_new adds_tx_store : adds.
Ltac adds_0 := repeat first
  [ solve [auto with adds] | apply adds_bind_0; [|intros] | case_match | progress cbv zeta ].

Lemma adds_tx_update h f : adds 0 (tx_update h f).
Proof. unfold tx_update, tx_load. adds_0. Qed.
#[local] Hint Resolve adds_tx_update : adds.
Lemma adds_process_ack a c n : adds 0 (process_incoming_ack a c n).
Proof. unfold process_incoming_ack, take_expected_ack_for_ssi, push_front_outbound. adds_0. Qed.
Lemma adds_schedule_ack t a c s n : adds 0 (schedule_outgoing_ack t a c s n).
Proof. unfold schedule_outgoing_ack. adds_0. Qed.
Lemma adds_tldata p : adds 0 (rx_tla_tldata_req_bl p).
Proof. unfold rx_tla_tldata_req_bl, queue_acknowledged, get_out_ack_seq_if_any, get_next_send_seq, push_udata. adds_0. Qed.
Lemma adds_tlunitdata p : adds 0 (rx_tla_tlunitdata_req_bl p).
Proof. unfold rx_tla_tlunitdata_req_bl, push_udata. adds_0. Qed.
#[local] Hint Resolve adds_process_ack adds_schedule_ack adds_tldata adds_tlunitdata : adds.

Lemma adds_0_le {A} k (m : L A) : adds 0 m → adds k m.
Proof. intros H. eapply adds_le; [done|lia]. Qed.

Lemma adds_accepted prim t pdu fcs ns nr : adds 3 (rx_bl_accepted prim t pdu fcs ns nr).
Proof.
  unfold rx_bl_accepted. apply adds_bind_0; [apply adds_get|]. intros w. cbv zeta.
  apply adds_bind_0; [by adds_0|]. intros _. apply adds_bind_0; [by adds_0|]. intros _. case_bool_decide.
  - case_match; [apply adds_0_le, adds_ret|]. apply adds_bind_0; [apply adds_unwrap|]. intros. by apply adds_push_back.
  - apply adds_bind_0; [apply adds_unwrap|]. intros. apply adds_push_back. by case_bool_decide.
Qed.

Lemma adds_unitdata_ind prim : adds 3 (rx_tma_unitdata_ind prim).
Proof.
  unfold rx_tma_unitdata_ind, rx_tma_unitdata_ind_bl.
  repeat first [apply adds_0_le, adds_ret | apply adds_0_le, adds_panic | apply adds_accepted
    | apply adds_bind_0; [apply adds_unwrap|intros] | case_match].
Qed.

Lemma llc_adds m : adds (stack_weight m) (rx_prim m).
Proof.
  unfold rx_prim, rx_tma_prim, rx_tla_prim, rx_tma_report_ind, stack_weight.
  destruct (sm_sap m), (sm_msg m); try (apply adds_0_le, adds_ret); auto using adds_unitdata_ind, adds_0_le with adds.
Qed.

(** The MLE and SNDCP answer a message with at most one lighter one. *)
Lemma data_ind_pushes m msgs : rx_tla_data_ind_bl m = Some msgs → pending stack_weight msgs ≤ 2.
Proof.
  assert (∀ l, (Some [] : option (list SapMsg)) = Some l → pending stack_weight l ≤ 2) as Hnil by (intros l [= <-]; unfold pending; cbn; lia).
  unfold rx_tla_data_ind_bl. destruct (sm_msg m); try apply Hnil. destruct (tldi_tl_sdu p) as [sdu|]; [|apply Hnil].
  destruct (if negb _ then _ else _) as [s0|]; [|done]. cbn [mbind option_bind]. destruct (exec (read_bits 3) s0) as [[o s1]|]; [|done].
  cbn. destruct o as [bits|]; [|apply Hnil]. destruct (mle_protocol_discriminator_try_from bits) as [d|]; [|apply Hnil].
  destruct d; cbn [dispatch_tl_sdu]; try apply Hnil; try (intros [= <-]; unfold pending; cbn; lia).
Qed.

Lemma mle_pushes m msgs : mle_rx_prim m = Some msgs → pending stack_weight msgs ≤ stack_weight m.
Proof.
  assert (∀ k l, (Some [] : option (list SapMsg)) = Some l → pending stack_weight l ≤ k) as Hnil by (intros k l [= <-]; unfold pending; cbn; lia).
  unfold mle_rx_prim, mle_rx_tla_prim, mle_rx_lmm_prim, mle_rx_lcmc_prim. unfold stack_weight at 2.
  destruct (sm_sap m); try apply Hnil; destruct (sm_msg m); try apply Hnil; [apply data_ind_pushes|..].
  - unfold rx_lmm_mle_unitdata_req. destruct (mle_tl_sdu _ _ _); [|done]. cbn [mbind option_bind]. case_bool_decide; [apply Hnil|].
    intros [= <-]. unfold pending. cbn. lia.
  - unfold rx_lcmc_mle_unitdata_req. destruct (mle_tl_sdu _ _ _); [|done]. cbn [mbind option_bind]. intros [= <-]. unfold pending. cbn. by case_bool_decide.
Qed.

Lemma sndcp_pushes m msgs : sndcp_rx_prim m = Some msgs → pending stack_weight msgs ≤ stack_weight m.
Proof.
  unfold sndcp_rx_prim. unfold stack_weight at 2. destruct (sm_msg m); try (intros [= <-]; unfold pending; cbn; lia).
  destruct (exec dump_bin_unformatted _) as [[raw b]|]; [|done]. cbn. case_bool_decide; [|intros [= <-]; unfold pending; cbn; lia].
  unfold send_pdp_accept. destruct (build _ _); [|done]. cbn. intros [= <-]. unfold pending. cbn. lia.
Qed.

Section stack.
Context {DateTime Tz : Type} (tz_from_str : string → option Tz) (dt_year : DateTime → Z)
  (year_start : Z → option DateTime) (num_seconds : DateTime → DateTime → Z) (local_minus_utc : DateTime → Tz → Z).
Context (clock : TdmaTime → DateTime).

#[local] Instance stack_entity : EntityTrait StackEntity := {
  ent_id e := match e with ELlc _ _ _ => Llc_ | EMle _ => Mle | ESndcp => Sndcp end;
  ent_rx_prim m e queue :=
    match e with
    | ELlc llc tx next => as_llc (rx_prim m) llc tx next queue
    | EMle mle => pushing e queue ((λ msgs, (e, msgs)) <$> mle_rx_prim m)
    | ESndcp => pushing e queue ((λ msgs, (e, msgs)) <$> sndcp_rx_prim m)
    end;
  ent_tick_start ts e queue :=
    match e with
    | ELlc llc tx next => as_llc (tick_start ts) llc tx next queue
    | EMle mle =>
        pushing e queue ((λ r, (EMle r.1, r.2)) <$>
          mle_tick_start tz_from_str dt_year year_start num_seconds local_minus_utc ts (clock ts) mle)
    | ESndcp => (e, queue, false)
    end;
  ent_tick_end ts e queue :=
    match e with
    | ELlc llc tx next => as_llc tick_end llc tx next queue
    | _ => (e, queue, false)
    end
}.

(** One delivery that does not panic. *)
Lemma delivery_step fuel (r : MessageRouter StackEntity) m q e e' q' : mr_msg_queue r = m :: q →
  mr_entities r !! sm_dest m = Some e → ent_rx_prim m e q = (e', q', false) →
  deliver_all_messages false (S fuel) r =
    deliver_all_messages false fuel (mkRouter (<[sm_dest m := e']> (mr_entities r)) q' (mr_ts r) (mr_caught_panics r)).
Proof.
  intros Hq He Hrx. cbn [deliver_all_messages]. erewrite bind_ok by done. rewrite Hq. unfold deliver_message.
  unfold pop_front at 1. unfold mbind at 1 2, M_bind at 1 2. rewrite Hq. cbv beta iota. erewrite bind_ok by done. cbn [mr_entities]. rewrite He.
  unfold guard_entity. cbn [mr_msg_queue]. rewrite Hrx. done.
Qed.

Lemma llc_receives m llc tx next queue w : rx_prim m (mkWorld llc queue tx next) = Ok tt w →
  ent_rx_prim m (ELlc llc tx next) queue = (ELlc (w_llc w) (w_tx w) (w_next w), w_queue w, false).
Proof. intros H. change (as_llc (rx_prim m) llc tx next queue = (ELlc (w_llc w) (w_tx w) (w_next w), w_queue w, false)). unfold as_llc. by rewrite H. Qed.

Lemma mle_receives m mle queue msgs : mle_rx_prim m = Some msgs → ent_rx_prim m (EMle mle) queue = (EMle mle, queue ++ msgs, false).
Proof.
  intros H. change (pushing (EMle mle) queue ((λ msgs, (EMle mle, msgs)) <$> mle_rx_prim m) = (EMle mle, queue ++ msgs, false)). by rewrite H.
Qed.

Lemma sndcp_receives m queue msgs : sndcp_rx_prim m = Some msgs → ent_rx_prim m ESndcp queue = (ESndcp, queue ++ msgs, false).
Proof.
  intros H. change (pushing ESndcp queue ((λ msgs, (ESndcp, msgs)) <$> sndcp_rx_prim m) = (ESndcp, queue ++ msgs, false)). by rewrite H.
Qed.

(** No cascade of messages among LLC, MLE and SNDCP is endless, in any state. *)
Lemma stack_cascades_end : cascades_end (Ent := StackEntity) stack_weight.
Proof.
  intros m e q. destruct e as [llc tx next|mle|].
  - change (pending stack_weight (as_llc (rx_prim m) llc tx next q).1.2 ≤ stack_weight m + pending stack_weight q). unfold as_llc.
    destruct (rx_prim m (mkWorld llc q tx next)) as [[] w|[]|] eqn:E; cbn [fst snd]; [|lia].
    destruct (llc_adds m _ _ _ E) as (l & Hl & Hk). rewrite Hl, pending_app. cbn [w_queue]. lia.
  - change (pending stack_weight (pushing (EMle mle) q ((λ msgs, (EMle mle, msgs)) <$> mle_rx_prim m)).1.2 ≤
      stack_weight m + pending stack_weight q). destruct (mle_rx_prim m) as [msgs|] eqn:E; cbn [fmap option_fmap option_map pushing fst snd]; [|lia].
    rewrite pending_app. pose proof (mle_pushes m msgs E). lia.
  - change (pending stack_weight (pushing ESndcp q ((λ msgs, (ESndcp, msgs)) <$> sndcp_rx_prim m)).1.2 ≤
      stack_weight m + pending stack_weight q). destruct (sndcp_rx_prim m) as [msgs|] eqn:E; cbn [fmap option_fmap option_map pushing fst snd]; [|lia].
    rewrite pending_app. pose proof (sndcp_pushes m msgs E). lia.
Qed.

Lemma mle_to_sndcp ind link sdu payload : wf sdu → window sdu = tl_sdu_bits MleProtocolDiscriminator_Sndcp payload →
  mle_rx_prim (tl_data_ind ind link (Some sdu) false) = Some [mkSapMsg TlpdSap Mle Sndcp (SmLtpdMleUnitdataInd
    (mkLtpdInd (after_disc sdu) (tmai_endpoint_id ind) link (tmai_main_address ind) false None))].
Proof.
  intros Hwf Hwin. assert (3 ≤ get_len sdu) as Hl.
  { pose proof (length_window sdu Hwf) as Hw. rewrite Hwin in Hw. unfold tl_sdu_bits in Hw. rewrite length_app, length_bits_of_Z in Hw. lia. }
  unfold tl_data_ind, mle_rx_prim, mle_rx_tla_prim. cbn [sm_sap sm_msg]. erewrite rx_tla_data_ind_spec by done.
  rewrite decide_True, Hwin by done. done.
Qed.

(** The invariant of the LLC does not depend on the queue. *)
Lemma llc_inv_queue w q : llc_inv w → llc_inv (mkWorld (w_llc w) q (w_tx w) (w_next w)).
Proof. intros [? ? ? ? ? ? ?]. by split. Qed.

(** The LLC hands the SDU of a BL-DATA PDU up. *)
Lemma llc_data_step llc tx next ind ns d payload : llc_inv (mkWorld llc [] tx next) → is_u 1 ns →
  carries ind (fields_bits (bl_fields (HData (mkBlData false ns))) ++ tl_sdu_bits d payload) →
  ∃ sdu llc', rx_prim (mkSapMsg TmaSap Umac Llc_ (SmTmaUnitdataInd ind)) (mkWorld llc [] tx next) =
      Ok tt (mkWorld llc' [tl_data_ind ind (tmai_link_id ind) (Some sdu) false] tx next) ∧
    wf sdu ∧ window sdu = tl_sdu_bits d payload ∧ llc_inv (mkWorld llc' [] tx next) ∧
    llc_outbound_messages llc' = llc_outbound_messages llc.
Proof.
  intros Hinv Hns (pdu & Hp & Hwf & Hrem). set (w0 := mkWorld llc [] tx next) in *. set (h := HData (mkBlData false ns)).
  assert (bl_valid h) as Hv by (split; [|done]; by intros n [= <-]).
  destruct (rx_unitdata_header ind pdu w0 h _ Hp Hwf Hv Hrem) as (pdu' & Hwf' & Hrem' & Hrx).
  cbn [bl_has_fcs bl_seqs bdata_has_fcs fst andb h] in Hrx. rewrite rx_bl_accepted_spec in Hrx by done.
  destruct (trimmed_remaining pdu' Hwf') as (_ & _ & Hwin & Hwft). rewrite Hrem' in Hwin.
  assert (0 < get_len_remaining pdu') as Hlen.
  { rewrite <- length_remaining, Hrem' by done. unfold tl_sdu_bits. rewrite length_app, length_bits_of_Z. lia. }
  destruct (with_ack_ok ind (Some ns) w0 Hinv) as [Hinv1 _]; [by intros n [= <-]|].
  exists (trimmed pdu'), (w_llc (with_ack ind (Some ns) w0)). split_and!; [|done|done|exact Hinv1|done].
  unfold rx_prim, rx_tma_prim. cbn [sm_sap sm_msg]. rewrite Hrx. cbn [bl_ns bl_nr bl_seqs fst snd bdata_ns take_ack bl_type bdata_has_fcs].
  erewrite bind_ok by done. unfold hand_up, delivered. by rewrite (proj2 (Nat.ltb_lt _ _) Hlen).
Qed.

(** The bits of the acceptance of a demand. *)
Definition acceptance (version nsapi atid : Z) (rest : list bool) : list bool :=
  accept_bits nsapi (if decide (atid = 0%Z) then 1 else 2) (if decide (atid = 0%Z) then Z_of_bits (take 32 rest) else POOL_IPV4)
    (chap_identifier (demand_bits version nsapi atid rest)).

(** The MLE and SNDCP turn the demand into its acceptance. *)
Lemma demand_step ind link sdu version nsapi atid rest : wf sdu →
  window sdu = tl_sdu_bits MleProtocolDiscriminator_Sndcp (demand_bits version nsapi atid rest) →
  is_u 4 nsapi → is_u 3 atid → (atid = 0%Z → 32 ≤ length rest) →
  ∃ li asdu, mle_rx_prim (tl_data_ind ind link (Some sdu) false) = Some [mkSapMsg TlpdSap Mle Sndcp (SmLtpdMleUnitdataInd li)] ∧
    sndcp_rx_prim (mkSapMsg TlpdSap Mle Sndcp (SmLtpdMleUnitdataInd li)) = Some [accept_msg li asdu] ∧
    ltpi_received_tetra_address li = tmai_main_address ind ∧ pdu_holds asdu (acceptance version nsapi atid rest).
Proof.
  intros Hwf Hwin Hn Ha Hr. set (demand := demand_bits version nsapi atid rest) in *. pose proof (mle_to_sndcp ind link sdu demand Hwf Hwin) as Hmle.
  set (li := mkLtpdInd _ _ _ _ _ _) in Hmle. destruct (demand_decoded version nsapi atid rest Hn Ha Hr) as (Hd1 & Hd2 & Hd3). fold demand in Hd1, Hd2, Hd3.
  destruct (after_disc_ok sdu Hwf) as (Hwfa & _ & Hwina).
  { rewrite <- length_window, Hwin by done. unfold tl_sdu_bits. rewrite length_app, length_bits_of_Z. lia. }
  assert (drop 3 (window (ltpi_sdu li)) = demand) as Hdem.
  { cbn [ltpi_sdu li]. rewrite Hwina, Hwin. unfold tl_sdu_bits. by rewrite drop_app_length' by (by rewrite length_bits_of_Z). }
  destruct (send_pdp_accept_ok li demand) as (asdu & Hsend & Hholds). exists li, asdu. split_and!; [done| |done|].
  - pose proof (sndcp_rx_ok TlpdSap Mle Sndcp li Hwfa) as Hsn. cbv zeta in Hsn. rewrite Hdem in Hsn.
    by rewrite Hsn, bool_decide_eq_true_2.
  - unfold acceptance. fold demand. rewrite Hd2, Hd3 in Hholds. by destruct (decide (atid = 0%Z)).
Qed.

(** The LLC queues the acceptance. *)
Lemma llc_accept_step llc tx next li asdu bits : llc_inv (mkWorld llc [] tx next) → pdu_holds asdu bits → length bits ≤ 1000 →
  ssi_type (ltpi_received_tetra_address li) ≠ Gssi →
  ∃ llc' tx' next' m q nr, rx_prim (accept_msg li asdu) (mkWorld llc [] tx next) = Ok tt (mkWorld llc' [] tx' next') ∧
    llc_outbound_messages llc' = llc_outbound_messages llc ++ [m] ∧ ea_addr m = ltpi_received_tetra_address li ∧
    sm_msg (ea_retransmission_buf m) = SmTmaUnitdataReq q ∧
    pdu_holds (tmar_pdu q) (fields_bits (bl_fields (data_header false nr (ea_ns m))) ++ bits).
Proof.
  intros Hinv Hh Hlen Hg. destruct (pdu_holds_facts _ _ Hh) as (Hrem & _ & Hlr & _ & _).
  assert (wf asdu) as Hwf by apply Hh. unfold accept_msg, rx_prim, rx_tla_prim. cbn [sm_sap sm_msg].
  set (p := mkTlDataReq _ _ _ _ _ _ _ _ _ _ _ _ _ _). destruct (rx_tldata_ok p (mkWorld llc [] tx next) Hinv) as (w' & Heq & _ & Hq & Hm).
  { split; [exact Hwf|]. split; [|by intros h]. cbn [p tldr_tl_sdu]. rewrite Hlr. unfold usize_max. lia. }
  assert (unacked p = false) as Hu by (unfold unacked, p; cbn; by rewrite bool_decide_eq_false_2). rewrite Hu in Hm.
  destruct Hm as (m & _ & Hout & Haddr & _ & _ & _ & _ & pdu & nr & Hbuf & Hpdu & _).
  destruct w' as [llc' queue' tx' next']. cbn in Hq, Hout. subst queue'. exists llc', tx', next', m. eexists _, nr.
  split_and!; [exact Heq|exact Hout|exact Haddr|by rewrite Hbuf|]. cbn [tmar_pdu]. cbn [p tldr_tl_sdu tldr_fcs_flag] in Hpdu.
  by rewrite Hrem in Hpdu.
Qed.

(** C15: a demand for a PDP context goes through the whole stack.  With LLC, MLE
    and SNDCP registered and the LLC in any reachable state, when the router
    delivers the received BL-DATA PDU of a demand, four deliveries end the
    cascade without a panic: the queue is empty, and the LLC has appended one
    entry to the terminal's queue, a PDU that carries the acceptance with the
    demanded NSAPI, the address asked for (or the pool's) and the CHAP answer. *)
Theorem packet_data_activation c w (r : MessageRouter StackEntity) mle ind ns version nsapi atid rest :
  rtc llc_step (llc_start c) w →
  mr_entities r !! Llc_ = Some (ELlc (w_llc w) (w_tx w) (w_next w)) → mr_entities r !! Mle = Some (EMle mle) →
  mr_entities r !! Sndcp = Some ESndcp →
  mr_msg_queue r = [mkSapMsg TmaSap Umac Llc_ (SmTmaUnitdataInd ind)] →
  carries ind (fields_bits (bl_fields (HData (mkBlData false ns))) ++
    tl_sdu_bits MleProtocolDiscriminator_Sndcp (demand_bits version nsapi atid rest)) →
  is_u 1 ns → is_u 4 nsapi → is_u 3 atid → (atid = 0%Z → 32 ≤ length rest) → ssi_type (tmai_main_address ind) ≠ Gssi →
  ∃ r' llc tx next m q nr, (∀ fuel, 4 ≤ fuel → deliver_all_messages false fuel r = Ok tt r') ∧ mr_msg_queue r' = [] ∧
    mr_caught_panics r' = mr_caught_panics r ∧ mr_entities r' !! Llc_ = Some (ELlc llc tx next) ∧
    llc_outbound_messages llc = llc_outbound_messages (w_llc w) ++ [m] ∧ ea_addr m = tmai_main_address ind ∧
    sm_msg (ea_retransmission_buf m) = SmTmaUnitdataReq q ∧
    pdu_holds (tmar_pdu q) (fields_bits (bl_fields (data_header false nr (ea_ns m))) ++
      acceptance version nsapi atid rest).
Proof.
  intros Hr%llc_reachable_inv El Em Es Eq Hc Hns Hn Ha Hrest Hg. destruct r as [ents q0 ts caught]. cbn [mr_entities mr_msg_queue mr_caught_panics] in *. subst q0.
  destruct (llc_data_step (w_llc w) (w_tx w) (w_next w) ind ns _ _ (llc_inv_queue w [] Hr) Hns Hc) as (sdu & llc1 & H1 & Hwf & Hwin & Hinv1 & Ho1).
  destruct (demand_step ind (tmai_link_id ind) sdu _ _ _ _ Hwf Hwin Hn Ha Hrest) as (li & asdu & H2 & H3 & Hli & Hholds).
  destruct (llc_accept_step llc1 (w_tx w) (w_next w) li asdu _ Hinv1 Hholds) as (llc2 & tx2 & next2 & m & q & nr & H4 & Ho2 & Haddr & Hbuf & Hpdu);
    [unfold acceptance; etrans; [apply length_accept_bits|lia]|by rewrite Hli|].
  eexists _, llc2, tx2, next2, m, q, nr. split; [|split_and!; cycle 3]; [|by rewrite Ho2, Ho1|by rewrite Haddr, Hli|exact Hbuf|exact Hpdu|..].
  { intros fuel Hf. do 4 (destruct fuel as [|fuel]; [lia|]).
    erewrite (delivery_step _ _ _ [] _ (ELlc llc1 (w_tx w) (w_next w))); [|reflexivity|exact El|exact (llc_receives _ _ _ _ _ _ H1)].
    erewrite (delivery_step _ _ _ [] _ (EMle mle)); [|reflexivity|cbn; by rewrite lookup_insert_ne|exact (mle_receives _ _ _ _ H2)].
    erewrite (delivery_step _ _ _ [] _ ESndcp); [|reflexivity|cbn; by rewrite !lookup_insert_ne|exact (sndcp_receives _ _ _ H3)].
    erewrite (delivery_step _ _ _ [] _ (ELlc llc2 tx2 next2)); [|reflexivity| |exact (llc_receives _ _ _ _ _ _ H4)].
    2: { cbn. rewrite !lookup_insert_ne by done. by rewrite lookup_insert_eq. }
    destruct fuel; cbn [deliver_all_messages]; by erewrite bind_ok by done. }
  - done.
  - done.
  - cbn. by rewrite lookup_insert_eq.
Qed.
End stack.

(** The received demand of NSAPI 2 for 10.0.0.7, in a BL-DATA PDU with N(S) 0. *)
Definition demo_demand_bits : list bool :=
  fields_bits (bl_fields (HData (mkBlData false 0))) ++ tl_sdu_bits MleProtocolDiscriminator_Sndcp demo_demand.
Definition demo_demand_ind : TmaUnitdataInd :=
  mkTmaInd 1521 (from_bitarr (bitarr demo_demand_bits)) (issi 1001) 0 0 0 None None 0 false None None.
Definition demo_stack : MessageRouter StackEntity :=
  mkRouter (<[Llc_ := ELlc (w_llc (llc_start 1521)) (w_tx (llc_start 1521)) (w_next (llc_start 1521))]>
    (<[Mle := EMle (mle_bs_new (mkCfgBroadcast None []))]> (<[Sndcp := ESndcp]> ∅)))
    [mkSapMsg TmaSap Umac Llc_ (SmTmaUnitdataInd demo_demand_ind)] (mkTime 1 1 1 0) 0.

Lemma packet_data_activation_witness : ∃ r' llc tx next m q nr,
  deliver_all_messages (EntityTrait0 := stack_entity demo_tz (λ _, 2026%Z) (λ _, Some 0%Z) Z.sub (λ _ tz, tz) (λ _, 0%Z)) false 4 demo_stack = Ok tt r' ∧
  mr_msg_queue r' = [] ∧ mr_entities r' !! Llc_ = Some (ELlc llc tx next) ∧ llc_outbound_messages llc = [m] ∧
  sm_msg (ea_retransmission_buf m) = SmTmaUnitdataReq q ∧
  pdu_holds (tmar_pdu q) (fields_bits (bl_fields (data_header false nr (ea_ns m))) ++ accept_bits 2 1 167772167 (Some 5%Z)).
Proof.
  assert (carries demo_demand_ind demo_demand_bits) as Hc.
  { destruct (from_bitarr_ok demo_demand_bits) as (pdu & Hp & Hh); [apply fits_small; cbn; lia|].
    exists pdu. split; [exact Hp|]. split; [apply Hh|apply (holds_len _ _ Hh)]. }
  assert (ssi_type (tmai_main_address demo_demand_ind) ≠ Gssi) as Hg by (intros H; discriminate H).
  destruct (packet_data_activation demo_tz (λ _, 2026%Z) (λ _, Some 0%Z) Z.sub (λ _ tz, tz) (λ _, 0%Z) 1521 (llc_start 1521) demo_stack
    (mle_bs_new (mkCfgBroadcast None [])) demo_demand_ind 0 1 2 0
    (bits_of_Z 32 167772167 ++ bits_of_Z 4 1 ++ bits_of_Z 16 49699 ++ bits_of_Z 8 6 ++ bits_of_Z 8 2 ++ bits_of_Z 8 5)
    (rtc_refl _ _) eq_refl eq_refl eq_refl eq_refl Hc ltac:(unfold is_u; lia) ltac:(unfold is_u; lia) ltac:(unfold is_u; lia)
    ltac:(intros _; cbn; lia) Hg) as (r' & llc & tx & next & m & q & nr & H1 & H2 & _ & H3 & H4 & _ & H5 & H6).
  exists r', llc, tx, next, m, q, nr. split; [apply H1; lia|]. split; [exact H2|]. split; [exact H3|]. split; [exact H4|]. split; [exact H5|]. exact H6.
Defined.
